(* ===== verification/_CoqProject ===== *)
-Q . S2P
Prelude.v
LibkString.v
Kprintf.v
RawMem.v
Pmm.v
Heap.v
UserPages.v
Vmm.v
VfsTypes.v
Ramfs.v
Vfs.v
Task.v
TaskRing.v
Sched.v
SchedOps.v
Smp.v
Kcall.v
FsKcalls.v
VfsInst.v
FdTable.v
Socket.v
SockRing.v
Elf.v
Rtc.v
Block.v
BlockIo.v
Fat.v
FatTable.v
FatFile.v
FatIo.v
FatVolume.v
FatDir.v
FatVol.v
FatFormat.v
Ring.v
Net.v
Inet.v
Dhcp.v
NetRecv.v
NetProps.v
TcpMoves.v
InetInv.v
NetLaws.v
NetDemo.v
TcpStream.v
TcpPair.v
TcpDemo.v
Input.v
UsbHid.v
UsbHidMouse.v
RamfsTar.v
Term.v
