(* ===== verification/Prelude.v ===== *)
(** * Verification of the StrawOS kernel

    StrawOS is a small x86-64 kernel (src/kernel) with a user space on top of it.  This
    library models the core of the kernel, as it is written, and proves what its parts
    promise to each other and to the programs that call it.

    ** How the code is modelled

    An operation is a function in the monad [M S] (this file): it takes the state of its
    component and gives a value with the state after it, or [None].  [None] is a run that
    has gone wrong: a wild pointer followed, an array index out of bounds, [panic], a loop
    out of fuel.  So a theorem that an operation gives [Some] says it is memory safe and
    ends.  Proofs go through the weakest precondition [wp], with [wp_steps] for the
    straight-line parts.  Integers are [Z]; wherever the code can wrap, [u8] .. [u64], [s32]
    and [s64] are applied.  Pointers are [Z] addresses, 0 is NULL, and the objects behind
    them are in [gmap]s keyed by address, so that aliasing is that of the code.  A loop that
    is not structural has fuel: the number of objects of the map it walks (a chain visits
    each at most once), or a count given where the loop is defined; the theorems show
    that it is enough.

    ** The parts

    - LibkString.v, Kprintf.v: kernel/libk/string.c and kprintf.c, on a memory of bytes and
      a terminal that is the list of characters put.
    - RawMem.v, Pmm.v, Heap.v: the memory behind the direct map, the page allocator
      kernel/memory/pmm.c and the heap kernel/memory/heap.c.  Heap.v declares [KernelMem] with
      its laws [KernelMemLaws], the interface through which everything above uses memory (page runs
      and blocks that do not overlap and keep their bytes), and proves that the heap
      implements it.
    - UserPages.v: kernel/system/user_pages.c, the pages owned by tasks, over [KernelMem].
    - Vmm.v: kernel/memory/vmm.c, the page tables in the memory of the heap, read as a function from
      pages to translations.
    - VfsTypes.v, Ramfs.v, Vfs.v: kernel/filesystem/vfs.h, ramfs.c and vfs.c.  A file system is a
      table of operations [VNodeOps]; ramfs is one instance.  Ramfs.v carries the invariant of the tree of
      nodes ([fs_inv]), Vfs.v mounts, path walks, open files and rename.  RamfsTar.v has the loader of
      boot modules and archives in ramfs.c, over the class [VfsApi] below.
    - Task.v, TaskRing.v, Sched.v, SchedOps.v: kernel/system/task.c.  Task.v holds the definitions, TaskRing.v the
      run queue as a ring, Sched.v the invariant of the scheduler ([sched_inv]) and what a
      switch does to it, SchedOps.v creation, exit, kill and the machine of scheduler
      operations.  A saved context is the point where the task left ([Context], [Resume]).
    - Smp.v, Kcall.v: kernel/system/smp.c, kcall.c and the handlers of base/idt.c.  The big
      kernel lock is a step relation on interleaved atomic actions of the CPUs; the order of service
      is read from the events of a run (tickets taken, lock entered, lock left).
    - FsKcalls.v, VfsInst.v, FdTable.v: kernel/system/fs_kcalls.c.  FsKcalls.v is written against the class [VfsApi] with
      laws [VfsLaws]; VfsInst.v gives the instance made of Vfs.v over Ramfs.v; FdTable.v has the
      invariant of descriptors ([fd_inv]) and the theorems on sequences of calls.
    - Socket.v, SockRing.v: kernel/system/socket.c; network sockets are the class [InetApi].
    - Elf.v: kernel/elf.c, on the memory of the heap.
    - Block.v, BlockIo.v: kernel/drivers/disk/block.c.  The drivers are the class [DiskDriver] with laws
      [DiskDriverLaws]; the file systems use the class [BlockApi] with laws [BlockLaws], which
      BlockIo.v proves of block.c.
    - Fat.v, FatTable.v, FatFile.v, FatIo.v, FatVolume.v: kernel/filesystem/fat32.c over [BlockApi].
      Fat.v holds the definitions; FatTable.v reads the cached sectors of the allocation
      table as a function from clusters to entries, FatFile.v a file as the chain of its clusters, FatIo.v
      as the bytes in them; FatVolume.v has the theorems and a small volume.
    - FatDir.v, FatVol.v, FatFormat.v: the rest of fat32.c.  FatDir.v has the records of a directory and
      the names in them, FatVol.v the operations on directories, files and volumes, FatFormat.v the theorem about
      formatting and mounting.
    - Net.v, Dhcp.v, NetRecv.v: kernel/net/net.c.  Ethernet, ARP, IPv4, ICMP, UDP and the loopback; the
      card, the clock, the wait queue and the descriptors are the class [NetHost].  Ring.v has the lemmas on
      arrays used as rings, which the loopback and the sockets share.
    - Inet.v: kernel/net/inet.c, over the class [InetHost] of what it calls; NetRecv.v makes the instance of
      net.c.  InetInv.v carries the invariant of the socket table ([inet_ok]), TcpMoves.v reads the operations on a
      connection as sequences of [move]s of one machine, NetProps.v and NetLaws.v prove
      the theorems of net.c (NetLaws.v those on the whole stack, the loopback among them) and the laws of the
      instance, NetDemo.v evaluates both on a small network.
    - TcpStream.v, TcpPair.v, TcpDemo.v: what the moves of TcpMoves.v do to the two streams of a connection
      ([endpoint]), the operations of inet.c on an end, and the two ends with a network between
      them ([pair_step]); TcpDemo.v runs the handshake and a transfer.
    - Input.v, UsbHid.v, UsbHidMouse.v: kernel/devices/keyboard.c, mouse.c, ps2mouse.c and
      kernel/drivers/usb/usb_hid.c.  Input.v has the queues of scancodes and events and the PS/2 controller,
      over the class [InputHost] of ports and wait queues; UsbHid.v the reports of USB keyboards; UsbHidMouse.v the
      parser of report descriptors and the reports of mice.
    - Term.v: kernel/term.c, the framebuffer as a map of pixels and the serial port as a log; its specification is a
      grid of characters ([screen]).
    - Rtc.v: kernel/devices/rtc.c; the chip is the class [Cmos], the clock as FAT32 sees it [Clock].

    Calls go the way they do in the kernel: Socket and FsKcalls over the VFS and the
    scheduler, these over the heap, the heap over the page allocator.  Task.v reaches the
    file system and the loader through the class [TaskServices].

    ** What the theorems show

    - memory: first fit and exact accounting of pages, blocks that do not overlap,
      reallocation that keeps contents, NULL only when memory is out, boot from a memory map;
      mapping a page changes the translation of that page and of no other;
    - files: the tree of nodes stays a tree under creation, removal and rename, a node
      removed while open lives until the last close, what is written is what is read,
      path resolution is a walk over the components and the longest mount wins; whatever the boot loader
      hands over is loaded without a read outside it, and an archive is unpacked to what was packed;
    - tasks: the scheduler always finds a task to run; a ready task is picked after at most as many picks
      as stand before it in the ring, as long as no task is added or removed; sleepers wake
      exactly when due; a task that has ended never runs again, and its image, stack and
      arguments are given back; killing frees all that a task held;
    - lock and kernel calls: mutual exclusion, service in the order in which tickets were taken, no
      preemption inside a kernel call;
    - descriptors: any sequence of calls but mount, unmount and format is safe, whatever descriptors and paths they are
      given, if writes end below offset 2^63 (one that does not hangs in ramfs), and leaves the table consistent with
      the tasks and the open files; a task that ends leaves no descriptor;
    - sockets: a connected pair is two bounded queues of bytes;
    - programs: the image of an accepted ELF file whose sums do not wrap, which counts its program headers with at least
      their size and has nothing to relocate, is what its segments say; relocation
      tables are applied entry by entry;
    - disks: a device, be it a disk or a partition, is an array of sectors of its own; a write stays
      inside it;
    - FAT32, on a disk that does not fail ([healthy]; on one that does, growing a file can lose the rest of its
      chain): looking up, growing and freeing chains act on exactly the entries of the chain; reading and
      writing a file is reading and writing an array of bytes, and touches no other file; the
      entries written for a name are read back as that name; a formatted device mounts as an
      empty volume in order, and only lack of memory keeps it from mounting;
    - network: whatever segments and datagrams reach the sockets, no operation of inet.c goes wrong and the
      table of sockets stays in order; nor does the whole stack on frames whose lengths are honest (forged lengths
      make net.c read outside the frame: NetDemo.v); what is sent as UDP is received, the loopback is a bounded
      queue, ports given out are free; over a network that loses, repeats and reorders, a TCP connection gives
      each program the bytes the other has written, in order and without a hole, and the end after the last;
    - input: the bytes of the PS/2 controller reach the queue of their device in order, a reader of scancodes
      knows the keys a USB keyboard holds down, whatever report descriptor a mouse gives the
      kernel reads inside its reports;
    - terminal: from a clearing on the pixels are those of a grid of characters that scrolls, whatever is printed, and
      all that is printed goes to the serial port;
    - clock: the time shown by the chip is the time read, in each of its formats.

    ** Not modelled

    Drivers, interrupt controllers and descriptor tables (what they do is defined by
    hardware), the boot sequence, user space.  Of the kernel's own logic,
    devfs is left out, whose operations are calls of drivers, and the tree of nodes FAT32 builds is
    defined (FatVol.v) but has no invariant.  [irq_save] and
    [irq_restore] have no effect on these states; what they are for is shown in Kcall.v by
    the rule that an interrupt inside a kernel call does not switch tasks.  A call that
    sleeps is modelled up to the sleep and from the wake on ([Block]); diagnostics
    printed by [kprintf] are left out outside Kprintf.v. *)
From Stdlib Require Import ZArith Lia Bool.
From stdpp Require Export base gmap list strings fin_maps numbers.

#[global] Open Scope Z_scope.

Declare Scope kernel_scope.
Delimit Scope kernel_scope with kernel.

(** ** Machine integers

    An unsigned C integer of width [w] is a [Z] in [0 .. 2^w - 1]; every place
    where the code can wrap applies one of these conversions. *)
Definition u8 (x : Z) : Z := x mod 2 ^ 8.
Definition u16 (x : Z) : Z := x mod 2 ^ 16.
Definition u32 (x : Z) : Z := x mod 2 ^ 32.
Definition u64 (x : Z) : Z := x mod 2 ^ 64.
Definition s32 (x : Z) : Z := let y := u32 x in if y <? 2 ^ 31 then y else y - 2 ^ 32.
Definition s64 (x : Z) : Z := let y := u64 x in if y <? 2 ^ 63 then y else y - 2 ^ 64.

(** The size of a page, and [UINT64_MAX]. *)
Definition PAGE_SIZE : Z := 4096.
Definition UINT64_MAX : Z := 2 ^ 64 - 1.

(** ** Arrays indexed by machine integers *)
Definition lookupZ {A} (l : list A) (i : Z) : option A :=
  if i <? 0 then None else l !! Z.to_nat i.
Definition updateZ {A} (i : Z) (x : A) (l : list A) : option (list A) :=
  if (0 <=? i) && (i <? Z.of_nat (length l)) then Some (<[Z.to_nat i := x]> l) else None.

Notation "l !!z i" := (lookupZ l i) (at level 20) : kernel_scope.

(** ** The kernel monad

    A kernel operation takes a state and returns a value with the state after
    it.  [None] is a run that has gone wrong: a NULL or wild pointer followed, an
    array indexed out of bounds, [panic()], or a traversal out of fuel.  A
    theorem that an operation returns [Some] is a memory-safety theorem. *)
Definition M (S A : Type) : Type := S → option (A * S).

#[global] Instance M_ret {S} : MRet (M S) := λ A a s, Some (a, s).
#[global] Instance M_bind {S} : MBind (M S) := λ A B f m s,
  match m s with Some (a, s') => f a s' | None => None end.

Definition fail {S A} : M S A := λ _, None.
Definition get {S} : M S S := λ s, Some (s, s).
Definition gets {S A} (f : S → A) : M S A := λ s, Some (f s, s).
Definition modify {S} (f : S → S) : M S unit := λ s, Some (tt, f s).
Definition lift {S A} (o : option A) : M S A := λ s,
  match o with Some a => Some (a, s) | None => None end.

(** Run an operation of a component on the field of a larger state. *)
Definition zoom {S T A} (prj : S → T) (upd : T → S → S) (m : M T A) : M S A := λ s,
  match m (prj s) with Some (a, t) => Some (a, upd t s) | None => None end.

(** [for (i = lo; n iterations; i++) body] *)
Fixpoint for_range {S} (n : nat) (i : Z) (body : Z → M S unit) : M S unit :=
  match n with
  | O => mret tt
  | Datatypes.S n' => body i;; for_range n' (i + 1) body
  end.

(** Run [f] on every element of a list in order. *)
Fixpoint forM_ {S A} (l : list A) (f : A → M S unit) : M S unit :=
  match l with
  | [] => mret tt
  | x :: l' => f x;; forM_ l' f
  end.

(** Weakest precondition: the operation runs without going wrong and its result
    and final state satisfy [Q]. *)
Definition wp {S A} (m : M S A) (Q : A → S → Prop) (s : S) : Prop :=
  match m s with Some (a, s') => Q a s' | None => False end.

(** The state after a run, the same state if it goes wrong. *)
Definition run_state {S A} (m : M S A) (s : S) : S :=
  match m s with Some (_, s') => s' | None => s end.

(** ** Little-endian words in byte arrays *)
Fixpoint le_split (n : nat) (w : Z) : list Z :=
  match n with
  | O => []
  | Datatypes.S n' => w mod 256 :: le_split n' (w / 256)
  end.
Fixpoint le_combine (bs : list Z) : Z :=
  match bs with [] => 0 | b :: bs' => b + 256 * le_combine bs' end.

(** [bytes l]: every element is a byte. *)
Definition is_byte (b : Z) : Prop := 0 <= b < 256.
Definition bytes (l : list Z) : Prop := Forall is_byte l.

(** ** Lemmas: machine integers *)
Create HintDb kernel.

Lemma u8_range x : 0 <= u8 x < 2 ^ 8.
Proof. apply Z.mod_pos_bound; lia. Qed.
Lemma u16_range x : 0 <= u16 x < 2 ^ 16.
Proof. apply Z.mod_pos_bound; lia. Qed.
Lemma u32_range x : 0 <= u32 x < 2 ^ 32.
Proof. apply Z.mod_pos_bound; lia. Qed.
Lemma u64_range x : 0 <= u64 x < 2 ^ 64.
Proof. apply Z.mod_pos_bound; lia. Qed.
Lemma u8_small x : 0 <= x < 2 ^ 8 → u8 x = x.
Proof. apply Z.mod_small. Qed.
Lemma u16_small x : 0 <= x < 2 ^ 16 → u16 x = x.
Proof. apply Z.mod_small. Qed.
Lemma u32_small x : 0 <= x < 2 ^ 32 → u32 x = x.
Proof. apply Z.mod_small. Qed.
Lemma u64_small x : 0 <= x < 2 ^ 64 → u64 x = x.
Proof. apply Z.mod_small. Qed.

Lemma s64_range v : - 2 ^ 63 <= s64 v < 2 ^ 63.
Proof. unfold s64. pose proof (u64_range v). destruct (Z.ltb_spec (u64 v) (2 ^ 63)); lia. Qed.

Lemma s64_small x : - 2 ^ 63 <= x < 2 ^ 63 → s64 x = x.
Proof.
  intros H. unfold s64, u64. destruct (Z.ltb_spec x 0).
  - rewrite <- (Z.mod_unique x (2 ^ 64) (-1) (x + 2 ^ 64)) by lia.
    destruct (Z.ltb_spec (x + 2 ^ 64) (2 ^ 63)); lia.
  - rewrite Z.mod_small by lia. destruct (Z.ltb_spec x (2 ^ 63)); lia.
Qed.

#[export] Hint Resolve u8_range u16_range u32_range u64_range s64_range : kernel.

(** ** Lemmas: arrays *)
Section Arrays.
Context {A : Type}.
Implicit Types l : list A.

Lemma lookupZ_Some_lt l i x : lookupZ l i = Some x → 0 <= i < Z.of_nat (length l).
Proof.
  unfold lookupZ. case_match eqn:E; [done|]. intros H%lookup_lt_Some. lia.
Qed.

Lemma lookupZ_lt_is_Some l i : 0 <= i < Z.of_nat (length l) → ∃ x, lookupZ l i = Some x.
Proof.
  intros H. unfold lookupZ. destruct (Z.ltb_spec i 0); [lia|].
  apply lookup_lt_is_Some_2. lia.
Qed.

Lemma updateZ_is_Some i x l :
  0 <= i < Z.of_nat (length l) → updateZ i x l = Some (<[Z.to_nat i := x]> l).
Proof.
  intros H. unfold updateZ.
  destruct (Z.leb_spec 0 i); [|lia]. destruct (Z.ltb_spec i (Z.of_nat (length l))); [done|lia].
Qed.

Lemma updateZ_Some_inv i x l l' :
  updateZ i x l = Some l' → 0 <= i < Z.of_nat (length l) ∧ l' = <[Z.to_nat i := x]> l.
Proof.
  unfold updateZ. destruct (Z.leb_spec 0 i), (Z.ltb_spec i (Z.of_nat (length l))); simpl;
    intros; simplify_eq. split; [lia|done].
Qed.

Lemma lookupZ_insert_eq i x l :
  0 <= i < Z.of_nat (length l) → lookupZ (<[Z.to_nat i := x]> l) i = Some x.
Proof.
  intros H. unfold lookupZ. destruct (Z.ltb_spec i 0); [lia|].
  apply list_lookup_insert_eq. lia.
Qed.

Lemma lookupZ_insert_ne i j x l :
  0 <= i → i ≠ j → lookupZ (<[Z.to_nat i := x]> l) j = lookupZ l j.
Proof.
  intros Hi Hij. unfold lookupZ. destruct (Z.ltb_spec j 0); [done|].
  apply list_lookup_insert_ne. lia.
Qed.

Lemma lookupZ_app_l l1 l2 i : i < Z.of_nat (length l1) → lookupZ (l1 ++ l2) i = lookupZ l1 i.
Proof.
  intros H. unfold lookupZ. destruct (Z.ltb_spec i 0); [done|].
  apply lookup_app_l. lia.
Qed.
Lemma lookupZ_app_r l1 l2 i :
  Z.of_nat (length l1) <= i → lookupZ (l1 ++ l2) i = lookupZ l2 (i - Z.of_nat (length l1)).
Proof.
  intros H. unfold lookupZ.
  destruct (Z.ltb_spec i 0), (Z.ltb_spec (i - Z.of_nat (length l1)) 0); try lia.
  rewrite lookup_app_r by lia. f_equal. lia.
Qed.
End Arrays.

Lemma lookupZ_ext (l l' : list Z) :
  length l = length l' → (∀ k, 0 <= k < Z.of_nat (length l) → lookupZ l k = lookupZ l' k) → l = l'.
Proof.
  intros Hl Hk. apply list_eq. intros i. destruct (decide (i < length l)%nat) as [Hi|Hi].
  - specialize (Hk (Z.of_nat i) ltac:(lia)). unfold lookupZ in Hk.
    destruct (Z.ltb_spec (Z.of_nat i) 0); [lia|]. by rewrite Nat2Z.id in Hk.
  - rewrite !lookup_ge_None_2 by lia. done.
Qed.

(** ** Lemmas: lists *)
Lemma filter_all {A} (P : A → Prop) `{∀ x, Decision (P x)} (l : list A) :
  (∀ i x, l !! i = Some x → P x) → filter P l = l.
Proof.
  intros Hall. assert (F : Forall P l) by by apply Forall_lookup. clear Hall.
  induction F as [|x l Hx F IH]; [done|]. by rewrite filter_cons_True, IH.
Qed.

Lemma NoDup_middle {A} (l1 l2 : list A) x : NoDup (l1 ++ x :: l2) → (x ∉ l1 ++ l2) ∧ NoDup (l1 ++ l2).
Proof. rewrite <- Permutation_middle. apply list.NoDup_cons. Qed.

(** Two lists built from the same pieces by [++] and [::] are permutations. *)
Ltac solve_perm :=
  lazymatch goal with
  | |- @Permutation ?A _ _ =>
      apply (Permutation_count_occ (λ x y : A, decide (x = y))); intros ?;
      repeat (rewrite count_occ_app || (progress cbn [count_occ app]));
      repeat case_match; lia
  end.

(** ** Lemmas: pairwise relations *)
Lemma ForallOrdPairs_perm {A} (R : A → A → Prop) (l l' : list A) :
  (∀ x y, R x y → R y x) → l ≡ₚ l' → ForallOrdPairs R l → ForallOrdPairs R l'.
Proof.
  intros Hs. induction 1 as [|x l l' P IH|x y l|l1 l2 l3 _ IH1 _ IH2]; intros H; [done| | |auto].
  - inversion_clear H. constructor; [|auto]. by rewrite <- P.
  - inversion_clear H as [|? ? Hy H']. inversion_clear H' as [|? ? Hx H''].
    apply list.Forall_cons in Hy as [Hyx Hy]. repeat constructor; auto.
Qed.

Lemma ForallOrdPairs_cons_iff {A} (R : A → A → Prop) x l :
  ForallOrdPairs R (x :: l) ↔ Forall (R x) l ∧ ForallOrdPairs R l.
Proof. split; [by inversion_clear 1|intros []; by constructor]. Qed.

(** ** Lemmas: the monad and its weakest precondition *)
Section WpRules.
Context {S : Type}.

Lemma wp_ret {A} (a : A) (Q : A → S → Prop) s : Q a s → wp (mret a) Q s.
Proof. done. Qed.

Lemma wp_bind {A B} (m : M S A) (f : A → M S B) Q s :
  wp m (λ a s', wp (f a) Q s') s → wp (m ≫= f) Q s.
Proof. unfold wp, mbind, M_bind. by destruct (m s) as [[a s']|]. Qed.

Lemma wp_mono {A} (m : M S A) (Q R : A → S → Prop) s :
  wp m Q s → (∀ a s', Q a s' → R a s') → wp m R s.
Proof. unfold wp. destruct (m s) as [[a s']|]; eauto. Qed.

Lemma wp_get (Q : S → S → Prop) s : Q s s → wp get Q s.
Proof. done. Qed.
Lemma wp_gets {A} (f : S → A) (Q : A → S → Prop) s : Q (f s) s → wp (gets f) Q s.
Proof. done. Qed.
Lemma wp_modify (f : S → S) (Q : unit → S → Prop) s : Q tt (f s) → wp (modify f) Q s.
Proof. done. Qed.
Lemma wp_lift {A} (o : option A) (Q : A → S → Prop) s a :
  o = Some a → Q a s → wp (lift o) Q s.
Proof. intros -> ?. done. Qed.

Lemma wp_run {A} (m : M S A) (Q : A → S → Prop) s :
  wp m Q s ↔ ∃ a s', m s = Some (a, s') ∧ Q a s'.
Proof.
  unfold wp. destruct (m s) as [[a s']|]; [|naive_solver].
  split; [eauto|]. intros (?&?&?&?). by simplify_eq.
Qed.

Lemma wp_run_state {A} (m : M S A) (Q : A → S → Prop) s :
  wp m Q s → ∃ a, m s = Some (a, run_state m s) ∧ Q a (run_state m s).
Proof. unfold wp, run_state. destruct (m s) as [[a s']|]; [eauto|done]. Qed.

(** A run known to give [a]. *)
Lemma wp_gives {A} (m : M S A) s a (Q : S → Prop) : wp m (λ b s', b = a ∧ Q s') s → ∃ s', m s = Some (a, s') ∧ Q s'.
Proof. unfold wp. destruct (m s) as [[b s']|]; [|done]. intros [-> HQ]. by exists s'. Qed.

(** A run known to end in [a] and [s']. *)
Lemma wp_eq {A} (m : M S A) s a s' : wp m (λ b t, b = a ∧ t = s') s → m s = Some (a, s').
Proof. unfold wp. destruct (m s) as [[b t]|]; [|done]. by intros [-> ->]. Qed.

Lemma wp_and {A} (m : M S A) (Q R : A → S → Prop) s :
  wp m Q s → wp m R s → wp m (λ a s', Q a s' ∧ R a s') s.
Proof. unfold wp. destruct (m s) as [[a s']|]; eauto. Qed.

(** The invariant rule for a counted loop. *)
Lemma wp_for_range n i (body : Z → M S unit) (I : Z → S → Prop) s :
  I i s →
  (∀ k s, i <= k < i + Z.of_nat n → I k s → wp (body k) (λ _ s', I (k + 1) s') s) →
  wp (for_range n i body) (λ _ s', I (i + Z.of_nat n) s') s.
Proof.
  revert i s. induction n as [|n IH]; intros i s Hi Hb; simpl.
  - apply wp_ret. by replace (i + Z.of_nat 0) with i by lia.
  - apply wp_bind. eapply wp_mono; [apply Hb; [lia|done]|]. simpl.
    intros _ s' Hi'.
    replace (i + Z.of_nat (Datatypes.S n)) with (i + 1 + Z.of_nat n) by lia.
    apply IH; [done|]. intros k s'' Hk. apply Hb. lia.
Qed.

(** The invariant rule for a loop over a list; the invariant speaks of the
    elements done so far. *)
Lemma wp_forM {A} (l : list A) (f : A → M S unit) (I : list A → S → Prop) s :
  I [] s →
  (∀ l1 x l2 s, l = l1 ++ x :: l2 → I l1 s → wp (f x) (λ _ s', I (l1 ++ [x]) s') s) →
  wp (forM_ l f) (λ _ s', I l s') s.
Proof.
  intros H0 Hf.
  assert (G : ∀ l2 l1 s, l = l1 ++ l2 → I l1 s → wp (forM_ l2 f) (λ _ s', I l s') s).
  { intros l2. induction l2 as [|x l2 IH]; intros l1 t E Ht; simpl.
    - rewrite app_nil_r in E. by subst.
    - apply wp_bind. eapply wp_mono; [exact (Hf l1 x l2 t E Ht)|]. intros [] t' Ht'.
      apply (IH (l1 ++ [x])); [|done]. by rewrite <- app_assoc. }
  by apply (G l []).
Qed.
End WpRules.

Lemma wp_zoom {S T A} (prj : S → T) (upd : T → S → S) (m : M T A) Q s :
  wp m (λ a t, Q a (upd t s)) (prj s) → wp (zoom prj upd m) Q s.
Proof. unfold wp, zoom. by destruct (m (prj s)) as [[a t]|]. Qed.

(** [run_M]: expose the next step of a monadic run in hypothesis [H]. *)
Ltac run_M H :=
  repeat (unfold mbind, M_bind, mret, M_ret, gets, get, modify, lift in H; simpl in H).

Ltac wp_step :=
  lazymatch goal with
  | |- wp (mbind _ _) _ _ => apply wp_bind
  | |- wp (mret _) _ _ => apply wp_ret
  | |- wp get _ _ => apply wp_get
  | |- wp (gets _) _ _ => apply wp_gets
  | |- wp (modify _) _ _ => apply wp_modify
  | |- wp (zoom _ _ _) _ _ => apply wp_zoom
  end.
Ltac wp_steps := repeat (wp_step; cbv beta).

(** ** Lemmas: ranges of integers *)
Lemma seqZ_split n k : 0 <= k <= n → seqZ 0 n = seqZ 0 k ++ seqZ k (n - k).
Proof. intros Hk. replace n with (k + (n - k)) at 1 by lia. rewrite seqZ_app by lia. by rewrite Z.add_0_l. Qed.

Lemma map_seqZ_shift {A} (f : Z → A) (g : Z → A) a b n :
  (∀ i, 0 <= i < n → f (a + i) = g (b + i)) → map f (seqZ a n) = map g (seqZ b n).
Proof.
  intros H. apply list_eq. intros i. rewrite !list_lookup_fmap. destruct (decide (Z.of_nat i < n)).
  - rewrite (proj2 (lookup_seqZ a n i (a + Z.of_nat i))), (proj2 (lookup_seqZ b n i (b + Z.of_nat i))) by lia. simpl.
    f_equal. apply H. lia.
  - by rewrite !lookup_seqZ_ge by lia.
Qed.

Lemma map_seqZ_lookup {A} (f : Z → A) a n j : 0 <= j < n → lookupZ (map f (seqZ a n)) j = Some (f (a + j)).
Proof.
  intros Hj. unfold lookupZ. destruct (Z.ltb_spec j 0); [lia|]. rewrite list_lookup_fmap.
  by rewrite (proj2 (lookup_seqZ a n _ (a + j))) by lia.
Qed.

(** A claim about finitely many numbers, by checking them all. *)
Lemma check_range (P : Z → bool) n : forallb P (seqZ 0 n) = true → ∀ v, 0 <= v < n → P v = true.
Proof. intros E v Hv. rewrite forallb_forall in E. apply E, list_elem_of_In, elem_of_seqZ. lia. Qed.

(** ** Lemmas: bits *)
Lemma lor_shift a b n : 0 <= n → 0 <= b < 2 ^ n → Z.lor (Z.shiftl a n) b = a * 2 ^ n + b.
Proof.
  intros Hn Hb. rewrite <- Z.shiftl_mul_pow2 by done. symmetry. apply Z.add_nocarry_lor, Z.bits_inj'. intros k Hk.
  rewrite Z.land_spec, Z.bits_0. destruct (Z.ltb_spec k n).
  - by rewrite Z.shiftl_spec_low.
  - rewrite <- (Z.mod_small b (2 ^ n)) by lia. rewrite Z.mod_pow2_bits_high by lia. apply andb_false_r.
Qed.

Lemma lor_range a b n : 0 <= n → 0 <= a < 2 ^ n → 0 <= b < 2 ^ n → 0 <= Z.lor a b < 2 ^ n.
Proof.
  intros Hn Ha Hb. split; [apply Z.lor_nonneg; lia|].
  destruct (decide (Z.lor a b = 0)) as [->|]; [lia|].
  assert (0 <= Z.lor a b) by (apply Z.lor_nonneg; lia).
  destruct (decide (n = 0)) as [->|]; [assert (a = 0 ∧ b = 0) as [-> ->] by lia; done|].
  apply Z.log2_lt_pow2; [lia|]. rewrite Z.log2_lor by lia. apply Z.max_lub_lt.
  - destruct (decide (a = 0)) as [->|]; [simpl; lia|]. apply Z.log2_lt_pow2; lia.
  - destruct (decide (b = 0)) as [->|]; [simpl; lia|]. apply Z.log2_lt_pow2; lia.
Qed.

Lemma land_range a b n : 0 <= n → 0 <= b < 2 ^ n → 0 <= Z.land a b < 2 ^ n.
Proof.
  intros Hn Hb. assert (b = Z.land b (Z.ones n)) as -> by (rewrite Z.land_ones by lia; by rewrite Z.mod_small).
  rewrite Z.land_assoc, Z.land_ones by lia. apply Z.mod_pos_bound. lia.
Qed.

(** ** Lemmas: little-endian words *)
Lemma length_le_split n w : length (le_split n w) = n.
Proof. revert w. induction n; simpl; auto. Qed.

Lemma le_split_bytes n w : bytes (le_split n w).
Proof.
  revert w. induction n; intros; constructor; [|apply IHn].
  apply Z.mod_pos_bound. lia.
Qed.

Lemma le_combine_split n w : 0 <= w < 256 ^ Z.of_nat n → le_combine (le_split n w) = w.
Proof.
  revert w. induction n as [|n IH]; intros w Hw.
  - change (256 ^ Z.of_nat 0) with 1 in Hw. simpl. lia.
  - rewrite Nat2Z.inj_succ, Z.pow_succ_r in Hw by lia. simpl le_split. simpl le_combine.
    rewrite IH; [pose proof (Z.div_mod w 256); lia|].
    split; [apply Z.div_pos; lia|]. apply Z.div_lt_upper_bound; lia.
Qed.

Lemma le_split_combine bs : bytes bs → le_split (length bs) (le_combine bs) = bs.
Proof.
  induction 1 as [|b bs Hb Hbs IH]; [done|]. unfold is_byte in Hb.
  cbn [length le_split le_combine]. f_equal.
  - rewrite (Z.mul_comm 256), Z_mod_plus_full. apply Z.mod_small. lia.
  - rewrite (Z.mul_comm 256), Z.div_add, (Z.div_small b) by lia. by rewrite Z.add_0_l.
Qed.

Lemma le_combine_bound bs : bytes bs → 0 <= le_combine bs < 256 ^ Z.of_nat (length bs).
Proof.
  induction 1 as [|b bs Hb Hbs IH]; [simpl; lia|]. unfold is_byte in Hb.
  cbn [length le_combine]. rewrite Nat2Z.inj_succ, Z.pow_succ_r by lia. lia.
Qed.
