(* ===== verification/LibkString.v ===== *)
(** * kernel/libk/string.c: the kernel's memory and string routines

    Memory is one array of bytes and a pointer is an index into it, so pointer
    comparison ([memmove]) and overlapping operands are modelled as the code has
    them.  [None] is an access outside the array.  A returned pointer that can be
    NULL is an [option Z].  Loops over a terminated string recurse on the rest of
    memory from the pointer on, loops over a count recurse on the count. *)
From S2P Require Import Prelude.
Local Open Scope kernel_scope.

(** ** Operations *)

(** The bytes from address [p] on. *)
Definition mem_from (m : list Z) (p : Z) : list Z :=
  if p <? 0 then [] else drop (Z.to_nat p) m.

(** [kernel/libk/string.c: memset] *)
Fixpoint memset (n : nat) (m : list Z) (dst c : Z) : option (list Z) :=
  match n with
  | O => Some m
  | S n' => m' ← updateZ dst (u8 c) m; memset n' m' (dst + 1) c
  end.

(** [kernel/libk/string.c: memcpy] *)
Fixpoint memcpy (n : nat) (m : list Z) (dst src : Z) : option (list Z) :=
  match n with
  | O => Some m
  | S n' => b ← m !!z src; m' ← updateZ dst b m; memcpy n' m' (dst + 1) (src + 1)
  end.

(** The backward loop of [memmove], [while (n--) *--d = *--s], from the ends.
    [kernel/libk/string.c: memmove 23-24] *)
Fixpoint memmove_back (n : nat) (m : list Z) (dst src : Z) : option (list Z) :=
  match n with
  | O => Some m
  | S n' => b ← m !!z (src - 1); m' ← updateZ (dst - 1) b m; memmove_back n' m' (dst - 1) (src - 1)
  end.

(** [kernel/libk/string.c: memmove]; the forward branch is the loop of [memcpy]. *)
Definition memmove (n : nat) (m : list Z) (dst src : Z) : option (list Z) :=
  if dst <? src then memcpy n m dst src
  else memmove_back n m (dst + Z.of_nat n) (src + Z.of_nat n).

(** [kernel/libk/string.c: memcmp] *)
Fixpoint memcmp (n : nat) (m : list Z) (a b : Z) : option Z :=
  match n with
  | O => Some 0
  | S n' => x ← m !!z a; y ← m !!z b; if x =? y then memcmp n' m (a + 1) (b + 1) else Some (x - y)
  end.

(** [kernel/libk/string.c: memchr] *)
Fixpoint memchr (n : nat) (m : list Z) (s c : Z) : option (option Z) :=
  match n with
  | O => Some None
  | S n' => x ← m !!z s; if x =? u8 c then Some (Some s) else memchr n' m (s + 1) c
  end.

(** The loop of [strlen] from the pointer on. [kernel/libk/string.c: strlen 55-57] *)
Fixpoint strlen_from (l : list Z) : option Z :=
  match l with
  | [] => None
  | c :: l' => if c =? 0 then Some 0 else n ← strlen_from l'; Some (n + 1)
  end.
(** [kernel/libk/string.c: strlen] *)
Definition strlen (m : list Z) (s : Z) : option Z := strlen_from (mem_from m s).

(** [kernel/libk/string.c: strnlen]; [max] is a count, and [s[n]] is read only below it. *)
Fixpoint strnlen (max : nat) (m : list Z) (s : Z) : option Z :=
  match max with
  | O => Some 0
  | S max' => c ← m !!z s; if c =? 0 then Some 0 else n ← strnlen max' m (s + 1); Some (n + 1)
  end.

(** The loop of [strcmp]. [kernel/libk/string.c: strcmp 84-85] *)
Fixpoint strcmp_from (a b : list Z) : option Z :=
  match a, b with
  | x :: a', y :: b' => if negb (x =? 0) && (x =? y) then strcmp_from a' b' else Some (x - y)
  | _, _ => None
  end.
(** [kernel/libk/string.c: strcmp] *)
Definition strcmp (m : list Z) (a b : Z) : option Z := strcmp_from (mem_from m a) (mem_from m b).

(** The loop of [strncmp]. [kernel/libk/string.c: strncmp 90-92] *)
Fixpoint strncmp_from (n : nat) (a b : list Z) : option Z :=
  match n with
  | O => Some 0
  | S n' => match a, b with
    | x :: a', y :: b' => if negb (x =? 0) && (x =? y) then strncmp_from n' a' b' else Some (x - y)
    | _, _ => None
    end
  end.
(** [kernel/libk/string.c: strncmp] *)
Definition strncmp (m : list Z) (a b : Z) (n : nat) : option Z :=
  strncmp_from n (mem_from m a) (mem_from m b).

(** The loop of [strchr]; [s] is the address of the first byte of the list.
    [kernel/libk/string.c: strchr 97-102] *)
Fixpoint strchr_from (l : list Z) (s c : Z) : option (option Z) :=
  match l with
  | [] => None
  | x :: l' =>
      if x =? 0 then Some (if c =? 0 then Some s else None)
      else if x =? u8 c then Some (Some s) else strchr_from l' (s + 1) c
  end.
(** [kernel/libk/string.c: strchr] *)
Definition strchr (m : list Z) (s c : Z) : option (option Z) := strchr_from (mem_from m s) s c.

(** The loop of [strrchr]; the terminator is compared too. [kernel/libk/string.c: strrchr 109-116] *)
Fixpoint strrchr_from (l : list Z) (s c : Z) (last : option Z) : option (option Z) :=
  match l with
  | [] => None
  | x :: l' =>
      let last' := if x =? u8 c then Some s else last in
      if x =? 0 then Some last' else strrchr_from l' (s + 1) c last'
  end.
(** [kernel/libk/string.c: strrchr] *)
Definition strrchr (m : list Z) (s c : Z) : option (option Z) := strrchr_from (mem_from m s) s c None.

(** The copy loop of [strcpy] and [strcat], on memory that the writes change: the recursion is
    on a fuel of one step per byte of memory. [kernel/libk/string.c: strcpy 70] *)
Fixpoint strcpy_loop (fuel : nat) (m : list Z) (d src : Z) : option (list Z) :=
  match fuel with
  | O => None
  | S fuel' => c ← m !!z src; m' ← updateZ d c m;
      if c =? 0 then Some m' else strcpy_loop fuel' m' (d + 1) (src + 1)
  end.
(** [kernel/libk/string.c: strcpy] *)
Definition strcpy (m : list Z) (dst src : Z) : option (list Z) := strcpy_loop (length m) m dst src.

(** The two loops of [strncpy]: copy while there is room and text, then pad.
    [kernel/libk/string.c: strncpy] *)
Fixpoint strncpy (n : nat) (m : list Z) (dst src : Z) : option (list Z) :=
  match n with
  | O => Some m
  | S n' => c ← m !!z src;
      if c =? 0 then memset n m dst 0
      else m' ← updateZ dst c m; strncpy n' m' (dst + 1) (src + 1)
  end.

(** [kernel/libk/string.c: strcat] *)
Definition strcat (m : list Z) (dst src : Z) : option (list Z) :=
  n ← strlen m dst; strcpy_loop (length m) m (dst + n) src.

(** The copying loop of [strncat] and its final terminator. [kernel/libk/string.c: strncat 133-136] *)
Fixpoint strncat_loop (n : nat) (m : list Z) (dest src : Z) : option (list Z) :=
  match n with
  | O => updateZ dest 0 m
  | S n' => c ← m !!z src;
      if c =? 0 then updateZ dest 0 m
      else m' ← updateZ dest c m; strncat_loop n' m' (dest + 1) (src + 1)
  end.
(** [kernel/libk/string.c: strncat] *)
Definition strncat (n : nat) (m : list Z) (dest src : Z) : option (list Z) :=
  k ← strlen m dest; strncat_loop n m (dest + k) src.

(** [strchr(delim, c) != NULL] as the scans of [strtok_r] use it.
    [kernel/libk/string.c: strtok_r 153-153] *)
Definition in_delim (m : list Z) (delim c : Z) : option bool :=
  r ← strchr m delim c; Some (bool_decide (is_Some r)).

(** Advance [s] while [*s] is non-zero and membership in [delim] is [stop]'s negation:
    both scans of [strtok_r]. [kernel/libk/string.c: strtok_r 153-154] *)
Fixpoint strtok_scan (l : list Z) (m : list Z) (s delim : Z) (skip : bool) : option Z :=
  match l with
  | [] => None
  | c :: l' =>
      if c =? 0 then Some s
      else d ← in_delim m delim c;
           if Bool.eqb d skip then strtok_scan l' m (s + 1) delim skip else Some s
  end.

(** [kernel/libk/string.c: strtok_r]: the token (or NULL), memory and [*saveptr] after the call. *)
Definition strtok_r (m : list Z) (str : option Z) (delim : Z) (saveptr : option Z)
    : option (option Z * list Z * option Z) :=
  match (match str with Some s => Some s | None => saveptr end) with
  | None => Some (None, m, saveptr)
  | Some start0 =>
      start ← strtok_scan (mem_from m start0) m start0 delim true;
      c ← m !!z start;
      if c =? 0 then Some (None, m, None)
      else
        end_ ← strtok_scan (mem_from m start) m start delim false;
        e ← m !!z end_;
        if negb (e =? 0) then m' ← updateZ end_ 0 m; Some (Some start, m', Some (end_ + 1))
        else Some (Some start, m, None)
  end.

(** ** Specification vocabulary *)

(** The bytes [s] are at address [p]. *)
Definition bytes_at (m : list Z) (p : Z) (s : list Z) : Prop :=
  0 <= p ∧ take (length s) (mem_from m p) = s.

(** A C string with text [s] is at address [p]: no byte of [s] is zero and a
    terminator follows. *)
Definition cstring_at (m : list Z) (p : Z) (s : list Z) : Prop :=
  0 <= p ∧ Forall (λ c, c ≠ 0) s ∧ ∃ rest, mem_from m p = s ++ 0 :: rest.

(** Lexicographic comparison of terminated strings: the difference of the first
    bytes that differ, the terminator counting as 0. *)
Fixpoint lex_diff (s t : list Z) : Z :=
  match s, t with
  | [], [] => 0
  | [], y :: _ => 0 - y
  | x :: _, [] => x
  | x :: s', y :: t' => if x =? y then lex_diff s' t' else x - y
  end.

(** ** Memory as an array *)
Lemma mem_from_lookup m p i :
  0 <= p → 0 <= i → lookupZ (mem_from m p) i = lookupZ m (p + i).
Proof.
  intros Hp Hi. unfold mem_from, lookupZ.
  destruct (Z.ltb_spec p 0), (Z.ltb_spec i 0), (Z.ltb_spec (p + i) 0); try lia.
  rewrite lookup_drop. f_equal. lia.
Qed.

Lemma mem_from_cons m p c l : mem_from m p = c :: l → mem_from m (p + 1) = l.
Proof.
  unfold mem_from. destruct (Z.ltb_spec p 0); [done|].
  destruct (Z.ltb_spec (p + 1) 0); [lia|]. intros Hd.
  replace (Z.to_nat (p + 1)) with (Z.to_nat p + 1)%nat by lia.
  rewrite <- drop_drop, Hd. done.
Qed.

Lemma mem_from_head m p c l : mem_from m p = c :: l → lookupZ m p = Some c.
Proof.
  intros H. assert (Hp : 0 <= p).
  { unfold mem_from in H. destruct (Z.ltb_spec p 0); [done|lia]. }
  rewrite <- (Z.add_0_r p), <- mem_from_lookup by lia. by rewrite H.
Qed.

Lemma mem_from_app m p s l :
  0 <= p → mem_from m p = s ++ l → mem_from m (p + Z.of_nat (length s)) = l.
Proof.
  revert p. induction s as [|c s IH]; intros p Hp H; simpl in *.
  - by rewrite Z.add_0_r.
  - apply mem_from_cons in H. apply IH in H; [|lia].
    by replace (p + Z.of_nat (Datatypes.S (length s))) with (p + 1 + Z.of_nat (length s)) by lia.
Qed.

Lemma cstring_at_cons m p c s : cstring_at m p (c :: s) → cstring_at m (p + 1) s ∧ c ≠ 0 ∧ lookupZ m p = Some c.
Proof.
  intros (Hp & Hs & rest & Hm). apply list.Forall_cons in Hs as [Hc Hs].
  split; [|split; [done|by eapply mem_from_head]].
  split; [lia|]. split; [done|]. exists rest. by eapply mem_from_cons.
Qed.

Lemma cstring_at_suffix m p s t : cstring_at m p (s ++ t) → cstring_at m (p + Z.of_nat (length s)) t.
Proof.
  intros (Hp & Hs & rest & Hm). apply Forall_app in Hs as [_ Ht].
  split; [lia|]. split; [done|]. exists rest.
  rewrite <- app_assoc in Hm. by apply mem_from_app in Hm.
Qed.

Lemma cstring_at_nil_lookup m p : cstring_at m p [] → lookupZ m p = Some 0.
Proof. intros (_ & _ & rest & Hm). by eapply mem_from_head. Qed.

Lemma cstring_at_lookup m p s i c :
  cstring_at m p s → s !! i = Some c → lookupZ m (p + Z.of_nat i) = Some c.
Proof.
  intros (Hp & _ & rest & Hm) Hi. rewrite <- mem_from_lookup by lia. rewrite Hm.
  rewrite lookupZ_app_l by (apply lookup_lt_Some in Hi; lia).
  unfold lookupZ. destruct (Z.ltb_spec (Z.of_nat i) 0); [lia|]. by rewrite Nat2Z.id.
Qed.

(** ** Counted loops: [memset], [memcpy], [memmove], [memcmp] *)

(** Every address of [p, p+n) is inside memory. *)
Definition in_mem (m : list Z) (p : Z) (n : nat) : Prop :=
  0 <= p ∧ p + Z.of_nat n <= Z.of_nat (length m).

Lemma memset_spec n m dst c :
  in_mem m dst n →
  ∃ m', memset n m dst c = Some m' ∧ length m' = length m ∧
    ∀ i, lookupZ m' i = if decide (dst <= i < dst + Z.of_nat n) then Some (u8 c) else lookupZ m i.
Proof.
  revert m dst. induction n as [|n IH]; intros m dst [Hd Hn]; simpl.
  - exists m. split_and!; [done..|]. intros i. case_decide; [lia|done].
  - rewrite updateZ_is_Some by lia. simpl.
    destruct (IH (<[Z.to_nat dst:=u8 c]> m) (dst + 1)) as (m' & -> & Hl & Hm').
    { unfold in_mem. rewrite length_insert. lia. }
    rewrite length_insert in Hl. exists m'. split_and!; [done..|]. intros i. rewrite Hm'.
    destruct (decide (i = dst)) as [->|Hi].
    + rewrite decide_False by lia. rewrite lookupZ_insert_eq by lia. by rewrite decide_True by lia.
    + rewrite lookupZ_insert_ne by lia. repeat case_decide; try lia; done.
Qed.

(** The forward copy is right whenever the destination does not start inside the
    not-yet-read part of the source. *)
Lemma memcpy_spec n m dst src :
  in_mem m dst n → in_mem m src n → dst <= src ∨ src + Z.of_nat n <= dst →
  ∃ m', memcpy n m dst src = Some m' ∧ length m' = length m ∧
    ∀ i, lookupZ m' i = if decide (dst <= i < dst + Z.of_nat n)
                        then lookupZ m (src + (i - dst)) else lookupZ m i.
Proof.
  revert m dst src. induction n as [|n IH]; intros m dst src [Hd Hdn] [Hs Hsn] Hdis; simpl.
  - exists m. split_and!; [done..|]. intros i. case_decide; [lia|done].
  - destruct (lookupZ_lt_is_Some m src) as [b Hb]; [lia|]. rewrite Hb. simpl.
    rewrite updateZ_is_Some by lia. simpl.
    destruct (IH (<[Z.to_nat dst:=b]> m) (dst + 1) (src + 1)) as (m' & -> & Hl & Hm');
      [unfold in_mem; rewrite length_insert; lia..|lia|].
    rewrite length_insert in Hl. exists m'. split_and!; [done..|]. intros i. rewrite Hm'.
    destruct (decide (i = dst)) as [->|Hi].
    + rewrite decide_False by lia. rewrite lookupZ_insert_eq by lia.
      rewrite decide_True by lia. by rewrite Z.sub_diag, Z.add_0_r.
    + case_decide.
      * rewrite decide_True by lia. rewrite lookupZ_insert_ne by lia. f_equal. lia.
      * rewrite decide_False by lia. by rewrite lookupZ_insert_ne by lia.
Qed.

(** The backward copy, from the ends [dst+n] and [src+n]. *)
Lemma memmove_back_spec n m dst src :
  in_mem m dst n → in_mem m src n → src <= dst ∨ dst + Z.of_nat n <= src →
  ∃ m', memmove_back n m (dst + Z.of_nat n) (src + Z.of_nat n) = Some m' ∧ length m' = length m ∧
    ∀ i, lookupZ m' i = if decide (dst <= i < dst + Z.of_nat n)
                        then lookupZ m (src + (i - dst)) else lookupZ m i.
Proof.
  revert m. induction n as [|n IH]; intros m [Hd Hdn] [Hs Hsn] Hdis; simpl memmove_back.
  - exists m. split_and!; [done..|]. intros i. case_decide; [lia|done].
  - replace (src + Z.of_nat (Datatypes.S n) - 1) with (src + Z.of_nat n) by lia.
    replace (dst + Z.of_nat (Datatypes.S n) - 1) with (dst + Z.of_nat n) by lia.
    destruct (lookupZ_lt_is_Some m (src + Z.of_nat n)) as [b Hb]; [lia|]. rewrite Hb. simpl.
    rewrite updateZ_is_Some by lia. simpl.
    destruct (IH (<[Z.to_nat (dst + Z.of_nat n):=b]> m)) as (m' & -> & Hl & Hm');
      [unfold in_mem; rewrite length_insert; lia..|lia|].
    rewrite length_insert in Hl. exists m'. split_and!; [done..|]. intros i. rewrite Hm'.
    destruct (decide (i = dst + Z.of_nat n)) as [->|Hi].
    + rewrite decide_False by lia. rewrite lookupZ_insert_eq by lia.
      rewrite decide_True by lia. rewrite <- Hb. f_equal. lia.
    + case_decide.
      * rewrite decide_True by lia. by rewrite lookupZ_insert_ne by lia.
      * rewrite decide_False by lia. by rewrite lookupZ_insert_ne by lia.
Qed.

(** [memmove] copies [n] bytes from [src] to [dst] for any overlap of the two
    ranges: it stays inside memory, every destination byte is the source byte as
    it was before the call, and no other byte changes. *)
Lemma memmove_correct n m dst src :
  in_mem m dst n → in_mem m src n →
  ∃ m', memmove n m dst src = Some m' ∧ length m' = length m ∧
    ∀ i, lookupZ m' i = if decide (dst <= i < dst + Z.of_nat n)
                        then lookupZ m (src + (i - dst)) else lookupZ m i.
Proof.
  intros Hd Hs. unfold memmove. destruct (Z.ltb_spec dst src).
  - apply memcpy_spec; [done..|lia].
  - apply memmove_back_spec; [done..|lia].
Qed.

Lemma memmove_correct_witness :
  memmove 4 [1; 2; 3; 4; 5; 6] 1 0 = Some [1; 1; 2; 3; 4; 6] ∧
  ∃ m', memmove 4 [1; 2; 3; 4; 5; 6] 1 0 = Some m' ∧ length m' = 6%nat ∧
    ∀ i, lookupZ m' i = if decide (1 <= i < 1 + 4)
                        then lookupZ [1; 2; 3; 4; 5; 6] (0 + (i - 1)) else lookupZ [1; 2; 3; 4; 5; 6] i.
Proof.
  split; [reflexivity|]. apply (memmove_correct 4 [1; 2; 3; 4; 5; 6] 1 0); split; simpl; lia.
Defined.

(** ** Terminated strings *)
Lemma strlen_from_app s rest : Forall (λ c, c ≠ 0) s → strlen_from (s ++ 0 :: rest) = Some (Z.of_nat (length s)).
Proof.
  induction 1 as [|c s Hc Hs IH]; [done|]. cbn [app strlen_from].
  destruct (Z.eqb_spec c 0); [done|]. rewrite IH. simpl. f_equal. lia.
Qed.

Lemma strlen_correct m p s : cstring_at m p s → strlen m p = Some (Z.of_nat (length s)).
Proof. intros (Hp & Hs & rest & Hm). unfold strlen. rewrite Hm. by apply strlen_from_app. Qed.

Lemma strcmp_from_app s t rs rt :
  Forall (λ c, c ≠ 0) s → Forall (λ c, c ≠ 0) t →
  strcmp_from (s ++ 0 :: rs) (t ++ 0 :: rt) = Some (lex_diff s t).
Proof.
  intros Hs. revert t. induction Hs as [|x s Hx Hs IH]; intros t Ht; destruct Ht as [|y t Hy Ht].
  - done.
  - cbn. destruct (Z.eqb_spec 0 0); done.
  - cbn. destruct (Z.eqb_spec x 0); [done|]. simpl. destruct (Z.eqb_spec x 0); [done|].
    by rewrite Z.sub_0_r.
  - cbn. destruct (Z.eqb_spec x 0); [done|]. simpl. destruct (Z.eqb_spec x y); [by apply IH|done].
Qed.

Lemma lex_diff_zero s t :
  Forall (λ c, c ≠ 0) s → Forall (λ c, c ≠ 0) t → lex_diff s t = 0 ↔ s = t.
Proof.
  intros Hs. revert t. induction Hs as [|x s Hx Hs IH]; intros t Ht; destruct Ht as [|y t Hy Ht].
  - done.
  - simpl. split; [lia|done].
  - simpl. split; [lia|done].
  - simpl. destruct (Z.eqb_spec x y) as [->|]; [rewrite IH by done; naive_solver|].
    split; [lia|congruence].
Qed.

(** On two terminated strings [strcmp] returns the difference of the first bytes
    that differ (the terminator counts as 0), without reading past either
    terminator; the result is 0 exactly when the strings are equal, which is the
    test every name lookup of the kernel makes. *)
Lemma strcmp_correct m a b s t :
  cstring_at m a s → cstring_at m b t →
  strcmp m a b = Some (lex_diff s t) ∧ (strcmp m a b = Some 0 ↔ s = t).
Proof.
  intros (_ & Hs & rs & Ha) (_ & Ht & rt & Hb). unfold strcmp. rewrite Ha, Hb.
  rewrite strcmp_from_app by done. split; [done|].
  rewrite <- (lex_diff_zero s t) by done. split; [by intros [=]|by intros ->].
Qed.

Lemma strcmp_correct_witness :
  strcmp [97; 98; 0; 97; 99; 0] 0 3 = Some (-1) ∧
  (strcmp [97; 98; 0; 97; 99; 0] 0 3 = Some (lex_diff [97; 98] [97; 99]) ∧
   (strcmp [97; 98; 0; 97; 99; 0] 0 3 = Some 0 ↔ [97; 98] = [97; 99])).
Proof.
  split; [reflexivity|].
  apply (strcmp_correct [97; 98; 0; 97; 99; 0] 0 3 [97; 98] [97; 99]).
  - split; [lia|]. split; [repeat constructor; lia|]. exists [97; 99; 0]. reflexivity.
  - split; [lia|]. split; [repeat constructor; lia|]. exists []. reflexivity.
Defined.

(** [strncmp] compares the first [n] bytes as [strcmp] compares whole strings. *)
Lemma strncmp_from_take n s t rs rt :
  Forall (λ c, c ≠ 0) s → Forall (λ c, c ≠ 0) t →
  strncmp_from n (s ++ 0 :: rs) (t ++ 0 :: rt) = Some (lex_diff (take n s) (take n t)).
Proof.
  intros Hs. revert n t.
  induction Hs as [|x s Hx Hs IH]; intros n t Ht; destruct Ht as [|y t Hy Ht]; destruct n as [|n];
    cbn -[Z.sub]; try done.
  - destruct (Z.eqb_spec x 0); [done|]. simpl. by destruct (Z.eqb_spec x 0); [|rewrite Z.sub_0_r].
  - destruct (Z.eqb_spec x 0); [done|]. simpl. destruct (Z.eqb_spec x y); [by apply IH|done].
Qed.

(** ** [strchr] and the token scans *)
Lemma strchr_from_app s rest p c :
  Forall (λ c, c ≠ 0) s → 0 < c < 256 →
  ∃ r, strchr_from (s ++ 0 :: rest) p c = Some r ∧ (is_Some r ↔ c ∈ s).
Proof.
  intros Hs Hc. revert p. induction Hs as [|x s Hx Hs IH]; intros p; cbn [app strchr_from].
  - destruct (Z.eqb_spec c 0); [lia|]. exists None. split; [done|]. split; [intros [? ?]; done|set_solver].
  - destruct (Z.eqb_spec x 0); [done|]. rewrite u8_small by lia. destruct (Z.eqb_spec x c) as [->|].
    + exists (Some p). split; [done|]. split; [set_solver|eauto].
    + destruct (IH (p + 1)) as (r & -> & Hr). exists r. split; [done|]. rewrite Hr. set_solver.
Qed.

Lemma in_delim_correct m delim ds c :
  cstring_at m delim ds → 0 < c < 256 → in_delim m delim c = Some (bool_decide (c ∈ ds)).
Proof.
  intros (_ & Hds & rest & Hm) Hc. unfold in_delim, strchr. rewrite Hm.
  destruct (strchr_from_app ds rest delim c Hds Hc) as (r & -> & Hr). simpl. f_equal.
  by apply bool_decide_ext.
Qed.

(** A character string: bytes other than the terminator. *)
Definition chars (s : list Z) : Prop := Forall (λ c, 0 < c < 256) s.

Lemma chars_nonzero s : chars s → Forall (λ c, c ≠ 0) s.
Proof. apply Forall_impl. lia. Qed.

(** A scan stops after the longest prefix [pre] whose bytes satisfy the scan. *)
Lemma strtok_scan_correct m delim ds p pre l (skip : bool) :
  cstring_at m delim ds → chars pre →
  Forall (λ c, bool_decide (c ∈ ds) = skip) pre →
  match l with [] => False | c :: _ => c = 0 ∨ 0 < c < 256 ∧ bool_decide (c ∈ ds) = negb skip end →
  strtok_scan (pre ++ l) m p delim skip = Some (p + Z.of_nat (length pre)).
Proof.
  intros Hd Hpre Hall Hl. revert p. induction pre as [|c pre IH]; intros p; cbn [app].
  - destruct l as [|c l]; [done|]. cbn [strtok_scan]. rewrite Z.add_0_r.
    destruct (Z.eqb_spec c 0); [done|]. destruct Hl as [|[Hc Hl]]; [done|].
    rewrite (in_delim_correct m delim ds) by done. simpl. rewrite Hl. by destruct skip.
  - apply list.Forall_cons in Hpre as [Hc Hpre]. apply list.Forall_cons in Hall as [Hk Hall].
    cbn [strtok_scan]. destruct (Z.eqb_spec c 0); [lia|].
    rewrite (in_delim_correct m delim ds) by done. simpl. rewrite Hk.
    rewrite Bool.eqb_reflx, IH by done. f_equal. simpl. lia.
Qed.

(** [strtok_r] on a string made of leading separators, a non-empty token without
    separators and a rest that is empty or starts with a separator: it returns the
    token's start; when the rest is not empty it terminates the token in place and
    leaves [*saveptr] on the byte after the separator, otherwise memory is
    unchanged and [*saveptr] is NULL. *)
Lemma strtok_r_correct m p delim ds pre tok rest sv :
  cstring_at m delim ds → cstring_at m p (pre ++ tok ++ rest) → chars (pre ++ tok ++ rest) →
  Forall (λ c, c ∈ ds) pre → Forall (λ c, c ∉ ds) tok → tok ≠ [] →
  match rest with [] => True | c :: _ => c ∈ ds end →
  let start := p + Z.of_nat (length pre) in
  let stop := start + Z.of_nat (length tok) in
  strtok_r m (Some p) delim sv =
    match rest with
    | [] => Some (Some start, m, None)
    | _ => Some (Some start, <[Z.to_nat stop := 0]> m, Some (stop + 1))
    end.
Proof.
  intros Hd Hs Hc Hpre Htok Hne Hrest start stop.
  apply Forall_app in Hc as [Hcp Hc]. apply Forall_app in Hc as [Hct Hcr].
  assert (Hst := cstring_at_suffix _ _ _ _ Hs). fold start in Hst.
  assert (Hsp := cstring_at_suffix _ _ _ _ Hst). fold stop in Hsp.
  destruct Hs as (Hp & _ & r0 & Hm). destruct Hst as (Hp1 & _ & r1 & Hm1).
  assert (Hscan1 : strtok_scan (mem_from m p) m p delim true = Some start).
  { rewrite Hm, <- !app_assoc. apply (strtok_scan_correct _ _ ds); [done..| |].
    - eapply Forall_impl; [|exact Hpre]. intros c ?. by apply bool_decide_eq_true.
    - destruct tok as [|c tok]; [done|]. apply list.Forall_cons in Htok as [? _].
      apply list.Forall_cons in Hct as [? _]. right. split; [done|]. by apply bool_decide_eq_false. }
  assert (Hscan2 : strtok_scan (mem_from m start) m start delim false = Some stop).
  { rewrite Hm1, <- app_assoc. apply (strtok_scan_correct _ _ ds); [done..| |].
    - eapply Forall_impl; [|exact Htok]. intros c ?. by apply bool_decide_eq_false.
    - destruct rest as [|c rest]; simpl; [by left|]. apply list.Forall_cons in Hcr as [? _].
      right. split; [done|]. by apply bool_decide_eq_true. }
  unfold strtok_r. rewrite Hscan1. simpl.
  assert (Hhd : ∃ c, lookupZ m start = Some c ∧ 0 < c).
  { destruct tok as [|c tok]; [done|]. apply list.Forall_cons in Hct as [? _].
    exists c. split; [|lia]. eapply mem_from_head. exact Hm1. }
  destruct Hhd as (c & -> & Hc0). simpl. destruct (Z.eqb_spec c 0); [lia|].
  rewrite Hscan2. simpl. destruct rest as [|d rest].
  - rewrite (cstring_at_nil_lookup _ _ Hsp). done.
  - apply cstring_at_cons in Hsp as (_ & Hd0 & Hlk). rewrite Hlk. simpl.
    destruct (Z.eqb_spec d 0); [done|]. simpl.
    rewrite updateZ_is_Some by (by apply lookupZ_Some_lt in Hlk). done.
Qed.

(** The memory of the example: the string [",a,b"] and the separators [","]. *)
Lemma strtok_r_correct_witness :
  strtok_r [44; 97; 44; 98; 0; 44; 0] (Some 0) 5 None
  = Some (Some 1, [44; 97; 0; 98; 0; 44; 0], Some 3).
Proof.
  refine (strtok_r_correct [44; 97; 44; 98; 0; 44; 0] 0 5 [44] [44] [97] [44; 98] None _ _ _ _ _ _ _).
  - split; [lia|]. split; [repeat constructor; lia|]. by exists [].
  - split; [lia|]. split; [repeat constructor; lia|]. by exists [44; 0].
  - repeat constructor; lia.
  - repeat constructor.
  - repeat constructor. by apply (bool_decide_unpack _).
  - done.
  - by apply (bool_decide_unpack _).
Defined.
