(* ===== verification/Kprintf.v ===== *)
(** * kernel/libk/kprintf.c: number formatting and the kernel's printf

    The 32-byte conversion buffer is a list indexed with bounds checks.  Output
    ([term_putchar], [term_puts]) is the state of the monad: the list of
    characters printed so far.  A variable argument is an [Arg]; reading one with
    the wrong type, or past the last, is a run gone wrong. *)
From S2P Require Import Prelude.
Local Open Scope kernel_scope.

(** ** Operations *)

(** [kernel/libk/kprintf.c: reverse]; [i] and [j] are positions in the buffer. *)
Fixpoint reverse (fuel : nat) (buf : list Z) (i j : Z) : option (list Z) :=
  match fuel with
  | O => None
  | S fuel' =>
      if i <? j then
        x ← buf !!z i; y ← buf !!z j;
        b1 ← updateZ i y buf; b2 ← updateZ j x b1;
        reverse fuel' b2 (i + 1) (j - 1)
      else Some buf
  end.

(** The character of a digit. [kernel/libk/kprintf.c: itoa 37-41] *)
Definition digit_char (digit : Z) : Z := if digit <? 10 then 48 + digit else 97 + (digit - 10).

(** [while (tmp > 0)]: the digits, least significant first.
    [kernel/libk/kprintf.c: itoa 35-43] *)
Fixpoint itoa_digits (fuel : nat) (tmp base i : Z) (buf : list Z) : option (Z * list Z) :=
  match fuel with
  | O => None
  | S fuel' =>
      if 0 <? tmp then
        b' ← updateZ i (digit_char (tmp mod base)) buf;
        itoa_digits fuel' (tmp / base) base (i + 1) b'
      else Some (i, buf)
  end.

(** [kernel/libk/kprintf.c: itoa]: the buffer and the length of the string in it.
    64 divisions by a base of at least 2 bring a 64-bit value to 0; the swap loop
    runs at most once per byte of the buffer. *)
Definition itoa (value : Z) (buf : list Z) (base : Z) (is_signed : bool) : option (list Z * Z) :=
  let signed_val := s64 value in
  '(value', i, b1) ← (if is_signed && (signed_val <? 0)
                      then b ← updateZ 0 45 buf; Some (u64 (- signed_val), 1, b)
                      else Some (value, 0, buf));
  let start := i in
  '(i', b2) ← (if value' =? 0 then b ← updateZ i 48 b1; Some (i + 1, b)
               else itoa_digits 65 value' base i b1);
  b3 ← reverse (S (length buf)) b2 start (start + (i' - start) - 1);
  b4 ← updateZ i' 0 b3;
  Some (b4, i').

(** Output of one character: the terminal appends it. *)
Definition term_putchar (c : Z) : M (list Z) unit := modify (λ out, out ++ [c]).
Definition term_puts (s : list Z) : M (list Z) unit := modify (λ out, out ++ s).

(** The padding loop. [kernel/libk/kprintf.c: kprint_padded 63-69] *)
Fixpoint kpad (n : nat) (zero_pad : bool) : M (list Z) unit :=
  match n with
  | O => mret tt
  | S n' => term_putchar (if zero_pad then 48 else 32);; kpad n' zero_pad
  end.

(** [kernel/libk/kprintf.c: kprint_padded]; [str] is the text before the terminator. *)
Definition kprint_padded (str : list Z) (width : Z) (zero_pad : bool) : M (list Z) unit :=
  let len := Z.of_nat (length str) in
  match str with
  | 45 :: str' =>
      if zero_pad then
        term_putchar 45;;
        kpad (Z.to_nat (width - (len - 1 + 1))) true;; term_puts str'
      else kpad (Z.to_nat (width - len)) zero_pad;; term_puts str
  | _ => kpad (Z.to_nat (width - len)) zero_pad;; term_puts str
  end.

(** A variable argument: an integer register or a [char *] (NULL is [None]). *)
Inductive Arg := ANum (v : Z) | AStr (s : option (list Z)).

(** [va_arg(args, T)] for the integer types, by the number of [l]s.
    [kernel/libk/kprintf.c: kprintf 128-134] *)
Definition va_signed (long_count v : Z) : Z := if 1 <=? long_count then s64 v else s32 v.
(** [kernel/libk/kprintf.c: kprintf 141-147] *)
Definition va_unsigned (long_count v : Z) : Z := if 1 <=? long_count then u64 v else u32 v.

(** [itoa] into the local buffer, then [kprint_padded].
    [kernel/libk/kprintf.c: kprintf 148-149] *)
Definition kprint_number (v base : Z) (is_signed : bool) (width : Z) (zero_pad : bool) : M (list Z) unit :=
  r ← lift (itoa v (replicate 32 0) base is_signed);
  kprint_padded (take (Z.to_nat (snd r)) (fst r)) width zero_pad.

(** [while ( *fmt >= '0' && *fmt <= '9')]. [kernel/libk/kprintf.c: kprintf 89-93] *)
Fixpoint parse_width (fmt : list Z) (width : Z) : Z * list Z :=
  match fmt with
  | c :: fmt' => if (48 <=? c) && (c <=? 57) then parse_width fmt' (s32 (width * 10 + (c - 48)))
                 else (width, fmt)
  | [] => (width, [])
  end.
(** [while ( *fmt == 'l')]. [kernel/libk/kprintf.c: kprintf 96-100] *)
Fixpoint parse_longs (fmt : list Z) (n : Z) : Z * list Z :=
  match fmt with
  | c :: fmt' => if c =? 108 then parse_longs fmt' (n + 1) else (n, fmt)
  | [] => (n, [])
  end.

(** The conversion [switch], on the character after the flags; returns the
    arguments left. [kernel/libk/kprintf.c: kprintf 106-184] *)
Definition kconvert (c : Z) (zero_pad : bool) (width longs : Z) (args : list Arg) : M (list Z) (list Arg) :=
  if c =? 115 (* s *) then
    match args with
    | AStr s :: args' =>
        let str := default [40; 110; 117; 108; 108; 41] s in
        (if 0 <? width then kprint_padded str width false else term_puts str);; mret args'
    | _ => fail
    end
  else if c =? 99 (* c *) then
    match args with ANum v :: args' => term_putchar (u8 v);; mret args' | _ => fail end
  else if (c =? 100) || (c =? 105) (* d i *) then
    match args with
    | ANum v :: args' => kprint_number (u64 (va_signed longs v)) 10 true width zero_pad;; mret args'
    | _ => fail
    end
  else if c =? 117 (* u *) then
    match args with
    | ANum v :: args' => kprint_number (va_unsigned longs v) 10 false width zero_pad;; mret args'
    | _ => fail
    end
  else if c =? 120 (* x *) then
    match args with
    | ANum v :: args' => kprint_number (va_unsigned longs v) 16 false width zero_pad;; mret args'
    | _ => fail
    end
  else if c =? 112 (* p *) then
    match args with
    | ANum v :: args' => term_puts [48; 120];; kprint_number (u64 v) 16 false width true;; mret args'
    | _ => fail
    end
  else if c =? 37 (* % *) then term_putchar 37;; mret args
  else term_putchar 37;; term_putchar c;; mret args.

(** The main loop over the format; the fuel is one per character of it.
    [kernel/libk/kprintf.c: kprintf 78-188] *)
Fixpoint kprintf_loop (fuel : nat) (fmt : list Z) (args : list Arg) : M (list Z) unit :=
  match fuel with
  | O => match fmt with [] => mret tt | _ => fail end
  | S fuel' =>
      match fmt with
      | [] => mret tt
      | c :: fmt1 =>
          if c =? 37 then
            let '(zero_pad, fmt2) :=
              match fmt1 with 48 :: f => (true, f) | _ => (false, fmt1) end in
            let '(width, fmt3) := parse_width fmt2 0 in
            let '(longs, fmt4) := parse_longs fmt3 0 in
            match fmt4 with
            | [] => mret tt
            | k :: fmt5 => args' ← kconvert k zero_pad width longs args; kprintf_loop fuel' fmt5 args'
            end
          else term_putchar c;; kprintf_loop fuel' fmt1 args
      end
  end.
(** [kernel/libk/kprintf.c: kprintf] *)
Definition kprintf (fmt : list Z) (args : list Arg) : M (list Z) unit := kprintf_loop (length fmt) fmt args.

(** ** Specification vocabulary *)

(** The value of a digit character and of a most-significant-first digit string. *)
Definition digit_value (c : Z) : Z := if c <? 58 then c - 48 else c - 97 + 10.
Definition digits_value (base : Z) (s : list Z) : Z :=
  foldl (λ acc c, acc * base + digit_value c) 0 s.
(** The value of the same digits least significant first. *)
Fixpoint digits_value_le (base : Z) (s : list Z) : Z :=
  match s with [] => 0 | c :: s' => digit_value c + base * digits_value_le base s' end.

(** A digit string of [base] with no superfluous leading zero. *)
Definition numeral (base : Z) (s : list Z) : Prop :=
  Forall (λ c, ∃ d, 0 <= d < base ∧ c = digit_char d) s ∧
  (s = [48] ∨ ∃ c s', s = c :: s' ∧ c ≠ 48).

(** Signed reading of an [itoa] result. *)
Definition read_number (base : Z) (s : list Z) : Z :=
  match s with 45 :: s' => - digits_value base s' | _ => digits_value base s end.

Example itoa_int_min : option_map (λ r, take (Z.to_nat (snd r)) (fst r)) (itoa (2 ^ 63) (replicate 32 0) 10 true)
  = Some [45; 57; 50; 50; 51; 51; 55; 50; 48; 51; 54; 56; 53; 52; 55; 55; 53; 56; 48; 56].
Proof. vm_compute. reflexivity. Qed.

(** ** Digits *)
Lemma digit_value_char d : 0 <= d < 36 → digit_value (digit_char d) = d.
Proof.
  intros H. unfold digit_value, digit_char. destruct (Z.ltb_spec d 10).
  - destruct (Z.ltb_spec (48 + d) 58); lia.
  - destruct (Z.ltb_spec (97 + (d - 10)) 58); lia.
Qed.

Lemma digit_char_range d : 0 <= d < 36 → 48 <= digit_char d < 123.
Proof. intros H. unfold digit_char. destruct (Z.ltb_spec d 10); lia. Qed.

Lemma digits_value_app base s t :
  digits_value base (s ++ t) = digits_value base s * base ^ Z.of_nat (length t) + digits_value base t.
Proof.
  unfold digits_value. rewrite foldl_app. generalize (foldl (λ acc c, acc * base + digit_value c) 0 s).
  induction t as [|c t IH] using rev_ind; intros a; [simpl; lia|].
  rewrite !foldl_app, length_app. simpl. rewrite IH.
  rewrite Nat2Z.inj_add, Z.pow_add_r by lia. simpl. lia.
Qed.

Lemma digits_value_rev base s : digits_value base (rev s) = digits_value_le base s.
Proof.
  induction s as [|c s IH]; [done|]. simpl. rewrite digits_value_app, IH. simpl.
  unfold digits_value. simpl. rewrite Z.pow_1_r. lia.
Qed.

(** The digit loop writes, after the characters already in the buffer, the digits
    of [tmp] and nothing else; fewer than [k+1] of them when [tmp < base^k]. *)
Lemma itoa_digits_spec fuel k tmp base pre rest :
  2 <= base <= 36 → 0 <= tmp < base ^ Z.of_nat k → (k < fuel)%nat → (k <= length rest)%nat →
  ∃ l, itoa_digits fuel tmp base (Z.of_nat (length pre)) (pre ++ rest)
       = Some (Z.of_nat (length (pre ++ l)), pre ++ l ++ drop (length l) rest) ∧
    (length l <= k)%nat ∧ digits_value_le base l = tmp ∧
    Forall (λ c, ∃ d, 0 <= d < base ∧ c = digit_char d) l ∧
    (0 < tmp → ∃ c l', l = l' ++ [c] ∧ c ≠ 48).
Proof.
  intros Hb. revert k tmp pre rest.
  induction fuel as [|fuel IH]; intros k tmp pre rest Htmp Hk Hrest; [lia|].
  simpl. destruct (Z.ltb_spec 0 tmp) as [Hpos|Hz].
  2: { exists []. rewrite app_nil_r. simpl. rewrite drop_0. split_and!; [done|lia|lia|constructor|lia]. }
  destruct k as [|k]; [change (base ^ Z.of_nat 0) with 1 in Htmp; lia|].
  rewrite Nat2Z.inj_succ, Z.pow_succ_r in Htmp by lia.
  destruct rest as [|x rest]; [simpl in Hrest; lia|].
  assert (Hd : 0 <= tmp mod base < base) by (apply Z.mod_pos_bound; lia).
  assert (Hq : 0 <= tmp / base < base ^ Z.of_nat k).
  { split; [apply Z.div_pos; lia|]. apply Z.div_lt_upper_bound; lia. }
  set (c := digit_char (tmp mod base)).
  rewrite updateZ_is_Some by (rewrite length_app; simpl; lia). simpl.
  rewrite Nat2Z.id, insert_app_r_alt, Nat.sub_diag by lia. simpl.
  destruct (IH k (tmp / base) (pre ++ [c]) rest) as (l & Hl & Hlen & Hval & Hall & Hlast);
    [done|lia|simpl in Hrest; lia|].
  replace (Z.of_nat (length (pre ++ [c]))) with (Z.of_nat (length pre) + 1) in Hl
    by (rewrite length_app; simpl; lia).
  rewrite <- !app_assoc in Hl. simpl in Hl.
  exists (c :: l). rewrite Hl. split_and!.
  - done.
  - simpl. lia.
  - simpl. rewrite Hval. unfold c. rewrite digit_value_char by lia. pose proof (Z.div_mod tmp base). lia.
  - constructor; [by exists (tmp mod base)|done].
  - intros _. destruct (Z.ltb_spec 0 (tmp / base)) as [Hq0|Hq0].
    + destruct (Hlast Hq0) as (c' & l' & -> & Hc'). by exists c', (c :: l').
    + assert (tmp / base = 0) as Hq1 by lia. rewrite Hq1 in Hval.
      destruct l as [|c' l'] using rev_ind.
      * exists c, []. split; [done|]. unfold c, digit_char.
        apply Z.div_small_iff in Hq1; [|lia]. rewrite Z.mod_small by lia.
        destruct (Z.ltb_spec tmp 10); lia.
      * exfalso. clear -Hq1 Hl Hb Hq0. destruct fuel; simpl in Hl; [done|].
        destruct (Z.ltb_spec 0 (tmp / base)); [lia|]. injection Hl as Hl _.
        rewrite length_app in Hl. simpl in Hl. rewrite length_app in Hl. simpl in Hl. lia.
Qed.

(** The swap loop reverses the segment between its bounds. *)
Lemma reverse_spec fuel pre l post :
  (length l < 2 * fuel)%nat →
  reverse fuel (pre ++ l ++ post) (Z.of_nat (length pre))
    (Z.of_nat (length pre) + Z.of_nat (length l) - 1) = Some (pre ++ rev l ++ post).
Proof.
  revert pre l post. induction fuel as [|fuel IH]; intros pre l post Hf; [lia|]. simpl.
  destruct l as [|x l].
  { cbn [length app rev]. destruct (Z.ltb_spec (Z.of_nat (length pre)) (Z.of_nat (length pre) + Z.of_nat 0 - 1)); [lia|done]. }
  destruct l as [|y l _] using rev_ind.
  { cbn [length app rev]. destruct (Z.ltb_spec (Z.of_nat (length pre)) (Z.of_nat (length pre) + Z.of_nat 1 - 1)); [lia|done]. }
  set (j := Z.of_nat (length pre) + Z.of_nat (length (x :: l ++ [y])) - 1).
  assert (Hj : j = Z.of_nat (length (pre ++ x :: l))).
  { unfold j. rewrite length_app. simpl. rewrite length_app. simpl. lia. }
  destruct (Z.ltb_spec (Z.of_nat (length pre)) j) as [_|Hbad]; [|rewrite Hj, length_app in Hbad; simpl in Hbad; lia].
  assert (Hx : lookupZ (pre ++ (x :: l ++ [y]) ++ post) (Z.of_nat (length pre)) = Some x).
  { rewrite lookupZ_app_r by lia. by rewrite Z.sub_diag. }
  assert (Hy : lookupZ (pre ++ (x :: l ++ [y]) ++ post) j = Some y).
  { replace (pre ++ (x :: l ++ [y]) ++ post) with ((pre ++ x :: l) ++ y :: post).
    - rewrite Hj, lookupZ_app_r by lia. by rewrite Z.sub_diag.
    - simpl. by rewrite <- !app_assoc. }
  rewrite Hx, Hy. simpl.
  rewrite updateZ_is_Some by (rewrite length_app; simpl; lia). simpl.
  rewrite Nat2Z.id, insert_app_r_alt, Nat.sub_diag by lia. simpl.
  rewrite updateZ_is_Some by (rewrite Hj, !length_app; simpl; rewrite !length_app; simpl; lia). simpl.
  replace (pre ++ y :: (l ++ [y]) ++ post) with ((pre ++ y :: l) ++ y :: post)
    by (simpl; by rewrite <- !app_assoc).
  rewrite insert_app_r_alt by (rewrite Hj, !length_app; simpl; lia).
  replace (Z.to_nat j - length (pre ++ y :: l))%nat with O by (rewrite Hj, !length_app; simpl; lia). simpl.
  replace ((pre ++ y :: l) ++ x :: post) with ((pre ++ [y]) ++ l ++ (x :: post))
    by (rewrite <- !app_assoc; done).
  replace (Z.of_nat (length pre) + 1) with (Z.of_nat (length (pre ++ [y]))) by (rewrite length_app; simpl; lia).
  replace (j - 1) with (Z.of_nat (length (pre ++ [y])) + Z.of_nat (length l) - 1)
    by (rewrite Hj, !length_app; simpl; lia).
  rewrite IH by (simpl in Hf; rewrite length_app in Hf; simpl in Hf; lia).
  f_equal. rewrite rev_app_distr. simpl. by rewrite <- !app_assoc.
Qed.

(** ** [itoa] *)

(** The digits part of [itoa], after the sign [pre]. *)
Definition itoa_body (v base : Z) (n : nat) (i : Z) (buf : list Z) : option (list Z * Z) :=
  '(i', b2) ← (if v =? 0 then b ← updateZ i 48 buf; Some (i + 1, b)
               else itoa_digits 65 v base i buf);
  b3 ← reverse n b2 i (i + (i' - i) - 1);
  b4 ← updateZ i' 0 b3;
  Some (b4, i').

Lemma itoa_body_spec v base n pre rest :
  base = 10 ∨ base = 16 → 0 <= v < 2 ^ 64 → (21 <= length rest)%nat → (21 <= n)%nat →
  ∃ s rest', itoa_body v base n (Z.of_nat (length pre)) (pre ++ rest)
      = Some (pre ++ s ++ 0 :: rest', Z.of_nat (length (pre ++ s))) ∧
    (length s <= 20)%nat ∧ numeral base s ∧ digits_value base s = v.
Proof.
  intros Hbase Hv Hrest Hn. unfold itoa_body.
  assert (∃ l, (if v =? 0 then b ← updateZ (Z.of_nat (length pre)) 48 (pre ++ rest); Some (Z.of_nat (length pre) + 1, b)
                else itoa_digits 65 v base (Z.of_nat (length pre)) (pre ++ rest))
      = Some (Z.of_nat (length (pre ++ l)), pre ++ l ++ drop (length l) rest) ∧
      (length l <= 20)%nat ∧ numeral base (rev l) ∧ digits_value base (rev l) = v) as (l & -> & Hl & Hnum & Hval).
  { destruct (Z.eqb_spec v 0) as [->|Hv0].
    - exists [48]. destruct rest as [|x rest]; [simpl in Hrest; lia|].
      rewrite updateZ_is_Some by (rewrite length_app; simpl; lia). simpl.
      rewrite Nat2Z.id, insert_app_r_alt, Nat.sub_diag by lia. simpl. rewrite length_app. simpl.
      split_and!; [do 2 f_equal; lia|lia| |done].
      split; [|by left]. repeat constructor. exists 0. split; [lia|done].
    - destruct (itoa_digits_spec 65 20 v base pre rest) as (l & -> & Hlen & Hval & Hall & Hlast);
        [lia| |lia|lia|].
      { split; [lia|]. destruct Hbase as [-> | ->];
          (eapply Z.lt_trans; [apply Hv|]; vm_compute; reflexivity). }
      exists l. split_and!; [done|done| |by rewrite digits_value_rev].
      destruct Hlast as (c & l' & -> & Hc); [lia|]. split.
      + by apply Forall_rev.
      + right. exists c, (rev l'). by rewrite rev_app_distr. }
  cbn [mbind option_bind].
  replace (Z.of_nat (length pre) + (Z.of_nat (length (pre ++ l)) - Z.of_nat (length pre)) - 1)
    with (Z.of_nat (length pre) + Z.of_nat (length l) - 1) by (rewrite length_app; lia).
  rewrite reverse_spec by lia. cbn [mbind option_bind].
  destruct (drop (length l) rest) as [|x rest'] eqn:Hdrop.
  { apply (f_equal length) in Hdrop. rewrite length_drop in Hdrop. simpl in Hdrop. lia. }
  rewrite updateZ_is_Some by (rewrite !length_app, length_rev; simpl; lia). simpl.
  exists (rev l), rest'. rewrite length_rev. split_and!; [|lia|done|done].
  do 2 f_equal.
  - rewrite Nat2Z.id, length_app. rewrite insert_app_r_alt by lia.
    rewrite insert_app_r_alt by (rewrite length_rev; lia).
    rewrite length_rev. by replace (length pre + length l - length pre - length l)%nat with O by lia.
  - by rewrite !length_app, length_rev.
Qed.

Lemma itoa_digits_length fuel t base i b j b' :
  itoa_digits fuel t base i b = Some (j, b') → length b' = length b.
Proof.
  revert t i b. induction fuel as [|fuel IH]; intros t i b H; simpl in H; [done|].
  destruct (0 <? t); [|by simplify_eq].
  destruct (updateZ i _ b) as [b1|] eqn:E; [|done]. apply updateZ_Some_inv in E as [_ ->].
  simpl in H. apply IH in H. by rewrite length_insert in H.
Qed.

Lemma reverse_length fuel b i j b' : reverse fuel b i j = Some b' → length b' = length b.
Proof.
  revert b i j. induction fuel as [|fuel IH]; intros b i j H; simpl in H; [done|].
  destruct (i <? j); [|by simplify_eq].
  destruct (lookupZ b i) as [y|], (lookupZ b j) as [z|]; try done. simpl in H.
  destruct (updateZ i z b) as [b1|] eqn:E1; [|done]. simpl in H.
  destruct (updateZ j y b1) as [b2|] eqn:E2; [|done]. simpl in H.
  apply updateZ_Some_inv in E1 as [_ ->]. apply updateZ_Some_inv in E2 as [_ ->].
  apply IH in H. by rewrite !length_insert in H.
Qed.

Lemma itoa_body_length v base n i b b' m : itoa_body v base n i b = Some (b', m) → length b' = length b.
Proof.
  unfold itoa_body. intros H.
  destruct (if v =? 0 then _ else _) as [[i' b2]|] eqn:E; [|done]. simpl in H.
  destruct (reverse n b2 i _) as [b3|] eqn:E3; [|done]. simpl in H. apply reverse_length in E3.
  destruct (updateZ i' 0 b3) as [b4|] eqn:E4; [|done]. apply updateZ_Some_inv in E4 as [_ ->].
  simpl in H. simplify_eq. rewrite length_insert, E3. destruct (v =? 0).
  - destruct (updateZ i 48 b) as [b1|] eqn:E1; [|done]. apply updateZ_Some_inv in E1 as [_ ->].
    simpl in E. simplify_eq. by rewrite length_insert.
  - by apply itoa_digits_length in E.
Qed.

Lemma numeral_head base s : numeral base s → 2 <= base <= 36 → ∃ c s', s = c :: s' ∧ 48 <= c.
Proof.
  intros [Hall Hs] Hb. assert (s ≠ []) as Hne by (destruct Hs as [->|(?&?&->&?)]; done).
  destruct s as [|c s']; [done|]. apply list.Forall_cons in Hall as [(d & Hd & ->) _].
  exists (digit_char d), s'. split; [done|]. pose proof (digit_char_range d). lia.
Qed.

Lemma itoa_unfold v buf base sg :
  itoa v buf base sg =
    '(value', i, b1) ← (if sg && (s64 v <? 0) then b ← updateZ 0 45 buf; Some (u64 (- s64 v), 1, b)
                        else Some (v, 0, buf));
    itoa_body value' base (S (length buf)) i b1.
Proof. done. Qed.

(** Every 64-bit value, in either base the kernel prints in, signed or not, is
    formatted without leaving the 32-byte buffer; the buffer holds a terminated
    string of at most 21 characters, with no superfluous leading zero, and reading
    it back gives the value (the two's-complement reading when signed). *)
Lemma itoa_correct v base (sg : bool) buf :
  base = 10 ∨ base = 16 → 0 <= v < 2 ^ 64 → length buf = 32%nat →
  ∃ s rest, itoa v buf base sg = Some (s ++ 0 :: rest, Z.of_nat (length s)) ∧
    (length s <= 21)%nat ∧ length (s ++ 0 :: rest) = 32%nat ∧
    read_number base s = (if sg then s64 v else v) ∧
    numeral base (match s with 45 :: s' => s' | _ => s end).
Proof.
  intros Hb Hv Hbuf. rewrite itoa_unfold.
  assert (Hs64 := s64_range v).
  destruct (sg && (s64 v <? 0)) eqn:Hneg.
  - apply andb_true_iff in Hneg as [-> Hneg%Z.ltb_lt].
    destruct buf as [|x buf]; [done|]. simpl in Hbuf. 
    destruct (itoa_body_spec (u64 (- s64 v)) base (S (length (x :: buf))) [45] buf) as (s & rest & Hr & Hls & Hnum & Hval);
      [done| |simpl; lia|simpl; lia|].
    { rewrite u64_small by lia. lia. }
    rewrite updateZ_is_Some by (simpl; lia). change (Z.of_nat (length [45])) with 1 in Hr.
    cbn [mbind option_bind]. change (<[Z.to_nat 0:=45]> (x :: buf)) with ([45] ++ buf).
    rewrite Hr. exists (45 :: s), rest.
    split_and!; [done|simpl; lia| | |done].
    + apply itoa_body_length in Hr. simpl in *. lia.
    + simpl. rewrite Hval, u64_small by lia. lia.
  - cbn [mbind option_bind].
    destruct (itoa_body_spec v base (S (length buf)) [] buf) as (s & rest & Hr & Hls & Hnum & Hval);
      [done..|lia|lia|].
    change (Z.of_nat (length [])) with 0 in Hr. rewrite !app_nil_l in Hr. rewrite Hr. exists s, rest.
    pose proof (numeral_head base s Hnum) as (c & s' & -> & Hc); [lia|].
    assert (c ≠ 45) by lia.
    split_and!; [done|lia|apply itoa_body_length in Hr; simpl in *; lia| |].
    + transitivity v.
      * unfold read_number. rewrite <- Hval. repeat case_match; simplify_eq; try done; lia.
      * destruct sg; [|done]. simpl in Hneg. apply Z.ltb_ge in Hneg.
        unfold s64 in *. rewrite u64_small in * by lia. destruct (Z.ltb_spec v (2 ^ 63)); lia.
    + repeat case_match; simplify_eq; try done; lia.
Qed.

(** ** Padding and the format loop *)
Lemma kpad_spec n zp out : kpad n zp out = Some (tt, out ++ replicate n (if zp then 48 else 32)).
Proof.
  revert out. induction n as [|n IH]; intros out; simpl.
  - unfold mret, M_ret. by rewrite app_nil_r.
  - unfold mbind, M_bind. simpl. rewrite IH. by rewrite <- app_assoc.
Qed.

(** The field [kprint_padded] prints for [str]. *)
Definition field (str : list Z) (width : Z) (zp : bool) : list Z :=
  let pad := Z.to_nat (width - Z.of_nat (length str)) in
  match str with
  | 45 :: str' => if zp then 45 :: replicate pad 48 ++ str' else replicate pad 32 ++ str
  | _ => replicate pad (if zp then 48 else 32) ++ str
  end.

Lemma kprint_padded_run str width zp out :
  kprint_padded str width zp out = Some (tt, out ++ field str width zp).
Proof.
  assert (Hplain : ∀ w z, (kpad w z;; term_puts str) out = Some (tt, out ++ replicate w (if z then 48 else 32) ++ str)).
  { intros w z. unfold mbind, M_bind. rewrite kpad_spec. unfold term_puts, modify. by rewrite <- app_assoc. }
  unfold kprint_padded, field. repeat case_match; subst; try (rewrite Hplain; done).
  unfold mbind, M_bind. simpl. rewrite kpad_spec. unfold term_puts, modify.
  rewrite <- !app_assoc. simpl. repeat f_equal. lia.
Qed.

Lemma field_0 str zp : field str 0 zp = str.
Proof.
  unfold field. replace (Z.to_nat (0 - Z.of_nat (length str))) with O by lia. simpl.
  repeat case_match; done.
Qed.

(** [kprint_padded] appends one field to the output: never narrower than the
    width asked for, exactly the text when the text is at least that wide, and
    with zero padding the padding goes between the sign and the digits, so that
    the field still reads as the number that was formatted. *)
Lemma kprint_padded_correct str width (zp : bool) out :
  ∃ f, kprint_padded str width zp out = Some (tt, out ++ f) ∧
    Z.of_nat (length f) = Z.max width (Z.of_nat (length str)) ∧
    (width <= Z.of_nat (length str) → f = str) ∧
    (zp = true → ∀ base, read_number base f = read_number base str) ∧
    (zp = false → ∃ n, f = replicate n 32 ++ str).
Proof.
  exists (field str width zp). split; [apply kprint_padded_run|].
  assert (Hzeros : ∀ n base s, digits_value base (replicate n 48 ++ s) = digits_value base s).
  { intros n base s. rewrite digits_value_app. replace (digits_value base (replicate n 48)) with 0; [lia|].
    unfold digits_value. induction n as [|n IH]; [done|]. simpl. exact IH. }
  assert (Hread : ∀ n base s, (∀ s', s ≠ 45 :: s') → read_number base (replicate n 48 ++ s) = read_number base s).
  { intros n base s Hs.
    transitivity (digits_value base s); [rewrite <- (Hzeros n); destruct n; [|done]|];
      simpl; unfold read_number; repeat case_match; simplify_eq; try done; by edestruct Hs. }
  unfold field. split_and!.
  - repeat case_match; simplify_eq; cbn [length]; rewrite ?length_app, ?length_replicate; cbn [length]; lia.
  - intros Hw. replace (Z.to_nat (width - Z.of_nat (length str))) with O by lia. repeat case_match; done.
  - intros -> base. repeat case_match; simplify_eq; try (apply Hread; congruence).
    simpl. by rewrite Hzeros.
  - intros ->. repeat case_match; eauto.
Qed.

Lemma kprintf_loop_plain s rest args out fuel :
  Forall (λ c, c ≠ 37) s → (length s <= fuel)%nat →
  kprintf_loop fuel (s ++ rest) args out = kprintf_loop (fuel - length s) rest args (out ++ s).
Proof.
  intros Hs. revert fuel out. induction Hs as [|c s Hc Hs IH]; intros fuel out Hf; simpl in *.
  - by rewrite app_nil_r, Nat.sub_0_r.
  - destruct fuel as [|fuel]; [lia|]. simpl. destruct (Z.eqb_spec c 37); [done|].
    unfold mbind, M_bind. simpl. rewrite IH by lia. by rewrite <- app_assoc.
Qed.

Lemma itoa_text v base sg :
  base = 10 ∨ base = 16 → 0 <= v < 2 ^ 64 →
  ∃ s b, itoa v (replicate 32 0) base sg = Some (b, Z.of_nat (length s)) ∧
    take (length s) b = s ∧ read_number base s = (if sg then s64 v else v).
Proof.
  intros Hb Hv. destruct (itoa_correct v base sg (replicate 32 0) Hb Hv) as (s & rest & -> & _ & _ & Hr & _);
    [by rewrite length_replicate|].
  exists s, (s ++ 0 :: rest). split_and!; [done|by rewrite take_app_length|done].
Qed.

Lemma kprint_number_run v base sg width zp out :
  base = 10 ∨ base = 16 → 0 <= v < 2 ^ 64 →
  ∃ s, kprint_number v base sg width zp out = Some (tt, out ++ field s width zp) ∧
    read_number base s = (if sg then s64 v else v).
Proof.
  intros Hb Hv. destruct (itoa_text v base sg Hb Hv) as (s & b & Hi & Htake & Hread).
  exists s. split; [|done]. unfold kprint_number, mbind, M_bind, lift. rewrite Hi.
  cbn [fst snd]. by rewrite Nat2Z.id, Htake, kprint_padded_run.
Qed.

Lemma s64_s32 v : s64 (u64 (s32 v)) = s32 v.
Proof.
  assert (- 2 ^ 31 <= s32 v < 2 ^ 31).
  { unfold s32. pose proof (u32_range v). destruct (Z.ltb_spec (u32 v) (2 ^ 31)); lia. }
  unfold s64, u64. rewrite Z.mod_mod by lia. fold (u64 (s32 v)). fold (s64 (s32 v)).
  apply s64_small. lia.
Qed.

Lemma kconvert_decimal v zp width out :
  ∃ s, kconvert 100 zp width 0 [ANum v] out = Some ([], out ++ field s width zp) ∧ read_number 10 s = s32 v.
Proof.
  destruct (kprint_number_run (u64 (s32 v)) 10 true width zp out) as (s & Hrun & Hread);
    [by left|apply u64_range|].
  exists s. rewrite s64_s32 in Hread. split; [|done].
  change (kconvert 100 zp width 0 [ANum v] out)
    with ((kprint_number (u64 (s32 v)) 10 true width zp;; mret (@nil Arg)) out).
  unfold mbind, M_bind. by rewrite Hrun.
Qed.

(** Text without a percent sign is printed as it is, and [%d] between two such
    texts prints between them a number that reads back as the [int] argument:
    [kprintf] neither runs out of arguments nor stops early. *)
Lemma kprintf_decimal pre post v out :
  Forall (λ c, c ≠ 37) pre → Forall (λ c, c ≠ 37) post →
  kprintf pre [] out = Some (tt, out ++ pre) ∧
  ∃ s, kprintf (pre ++ [37; 100] ++ post) [ANum v] out = Some (tt, out ++ pre ++ s ++ post) ∧
    read_number 10 s = s32 v.
Proof.
  intros Hpre Hpost. unfold kprintf. split.
  - rewrite <- (app_nil_r pre) at 2. rewrite kprintf_loop_plain by done.
    by rewrite Nat.sub_diag.
  - rewrite kprintf_loop_plain by (done || rewrite length_app; lia).
    rewrite !length_app. cbn [length].
    replace (length pre + (2 + length post) - length pre)%nat with (S (S (length post))) by lia.
    remember (S (length post)) as fuel eqn:Hfuel.
    cbn [app kprintf_loop]. change (37 =? 37) with true. cbn [parse_width parse_longs].
    change ((48 <=? 100) && (100 <=? 57)) with false. cbn [parse_longs]. change (100 =? 108) with false.
    destruct (kconvert_decimal v false 0 (out ++ pre)) as (s & Hrun & Hread). rewrite field_0 in Hrun.
    unfold mbind, M_bind. rewrite Hrun.
    exists s. split; [|done].
    pose proof (kprintf_loop_plain post [] [] ((out ++ pre) ++ s) fuel Hpost ltac:(lia)) as Hl.
    rewrite app_nil_r in Hl. rewrite Hl.
    replace (fuel - length post)%nat with 1%nat by lia. simpl.
    unfold mret, M_ret. by rewrite <- !app_assoc.
Qed.

Lemma kprintf_decimal_witness :
  kprintf [112; 61; 37; 100; 10] [ANum (2 ^ 32 - 7)] [] = Some (tt, [112; 61; 45; 55; 10]) ∧
  ∃ s, kprintf ([112; 61] ++ [37; 100] ++ [10]) [ANum (2 ^ 32 - 7)] [] = Some (tt, [] ++ [112; 61] ++ s ++ [10]) ∧
    read_number 10 s = s32 (2 ^ 32 - 7).
Proof.
  split; [vm_compute; reflexivity|].
  refine (proj2 (kprintf_decimal [112; 61] [10] (2 ^ 32 - 7) [] _ _)); repeat constructor; lia.
Defined.

Lemma itoa_correct_witness :
  ∃ s rest, itoa (2 ^ 63) (replicate 32 0) 10 true = Some (s ++ 0 :: rest, Z.of_nat (length s)) ∧
    (length s <= 21)%nat ∧ length (s ++ 0 :: rest) = 32%nat ∧
    read_number 10 s = s64 (2 ^ 63) ∧ numeral 10 (match s with 45 :: s' => s' | _ => s end).
Proof. apply (itoa_correct (2 ^ 63) 10 true (replicate 32 0)); [by left|lia|done]. Defined.
