(* ===== verification/RawMem.v ===== *)
(** * Byte-addressed memory

    The physical memory as the kernel sees it through the direct map: a sparse
    map from virtual addresses to bytes.  Every address of the direct map can be
    read, so a byte that was never written reads as some value, here 0; no theorem
    relies on which.  [mem_copy] and [mem_fill] are the byte loops of [memcpy] and
    [memset] (kernel/libk/string.c) on this memory. *)
From S2P Require Import Prelude.
Local Open Scope kernel_scope.

Abbreviation mem := (gmap Z Z).

Definition mem_get (m : mem) (a : Z) : Z := default 0 (m !! a).

Fixpoint mem_load (n : nat) (m : mem) (a : Z) : list Z :=
  match n with O => [] | S n' => mem_get m a :: mem_load n' m (a + 1) end.
Fixpoint mem_store (bs : list Z) (a : Z) (m : mem) : mem :=
  match bs with [] => m | b :: bs' => mem_store bs' (a + 1) (<[a := b]> m) end.

(** [kernel/libk/string.c: memcpy] *)
Fixpoint mem_copy (n : nat) (dst src : Z) (m : mem) : mem :=
  match n with O => m | S n' => mem_copy n' (dst + 1) (src + 1) (<[dst := mem_get m src]> m) end.
(** [kernel/libk/string.c: memset] *)
Fixpoint mem_fill (n : nat) (dst c : Z) (m : mem) : mem :=
  match n with O => m | S n' => mem_fill n' (dst + 1) c (<[dst := u8 c]> m) end.

(** Aligned 64-bit accesses, little-endian. *)
Definition load64 (m : mem) (a : Z) : Z := le_combine (mem_load 8 m a).
Definition store64 (a v : Z) (m : mem) : mem := mem_store (le_split 8 v) a m.

(** ** Lemmas *)
Lemma mem_get_insert m a b x : mem_get (<[a := b]> m) x = if decide (x = a) then b else mem_get m x.
Proof.
  unfold mem_get. destruct (decide (x = a)) as [->|]; [by rewrite lookup_insert_eq|].
  by rewrite lookup_insert_ne.
Qed.

Lemma mem_store_get bs a m x :
  mem_get (mem_store bs a m) x =
    if decide (a <= x < a + Z.of_nat (length bs)) then default 0 (bs !!z (x - a)) else mem_get m x.
Proof.
  revert a m. induction bs as [|b bs IH]; intros a m; cbn [mem_store length].
  - by rewrite decide_False by (simpl; lia).
  - rewrite IH, mem_get_insert. unfold lookupZ.
    destruct (decide (x = a)) as [->|Hne].
    + rewrite decide_False, decide_True by lia. by rewrite Z.sub_diag.
    + destruct (decide (a + 1 <= x < a + 1 + Z.of_nat (length bs))).
      * rewrite decide_True by lia.
        destruct (Z.ltb_spec (x - (a + 1)) 0), (Z.ltb_spec (x - a) 0); try lia.
        replace (Z.to_nat (x - a)) with (S (Z.to_nat (x - (a + 1)))) by lia. done.
      * by rewrite decide_False by lia.
Qed.

Lemma mem_fill_get n dst c m x :
  mem_get (mem_fill n dst c m) x = if decide (dst <= x < dst + Z.of_nat n) then u8 c else mem_get m x.
Proof.
  revert dst m. induction n as [|n IH]; intros dst m; cbn [mem_fill].
  - by rewrite decide_False by lia.
  - rewrite IH, mem_get_insert. repeat destruct decide; lia || done.
Qed.

(** Copying forward between disjoint ranges. *)
Lemma mem_copy_get n dst src m x :
  src + Z.of_nat n <= dst ∨ dst + Z.of_nat n <= src →
  mem_get (mem_copy n dst src m) x =
    if decide (dst <= x < dst + Z.of_nat n) then mem_get m (src + (x - dst)) else mem_get m x.
Proof.
  revert dst src m. induction n as [|n IH]; intros dst src m Hd; cbn [mem_copy].
  - by rewrite decide_False by lia.
  - rewrite IH by lia. rewrite !mem_get_insert.
    destruct (decide (dst + 1 <= x < dst + 1 + Z.of_nat n)).
    + rewrite decide_False, decide_True by lia. f_equal. lia.
    + destruct (decide (x = dst)) as [->|].
      * rewrite decide_True by lia. f_equal. lia.
      * by rewrite decide_False by lia.
Qed.

Lemma mem_load_ext n m m' a :
  (∀ x, a <= x < a + Z.of_nat n → mem_get m x = mem_get m' x) → mem_load n m a = mem_load n m' a.
Proof.
  revert a. induction n as [|n IH]; intros a H; [done|]. cbn [mem_load].
  f_equal; [apply H; lia|]. apply IH. intros; apply H; lia.
Qed.

Lemma mem_load_store bs a m : mem_load (length bs) (mem_store bs a m) a = bs.
Proof.
  revert a m. induction bs as [|b bs IH]; intros a m; [done|]. cbn [length mem_load mem_store].
  f_equal; [|apply IH]. rewrite mem_store_get, decide_False by lia. rewrite mem_get_insert.
  by rewrite decide_True.
Qed.

Lemma load_store64 a v m : 0 <= v < 2 ^ 64 → load64 (store64 a v m) a = v.
Proof.
  intros Hv. unfold load64, store64.
  replace 8%nat with (length (le_split 8 v)) at 1 by apply length_le_split.
  rewrite mem_load_store. by apply le_combine_split.
Qed.

Lemma load64_ext m m' a :
  (∀ x, a <= x < a + 8 → mem_get m x = mem_get m' x) → load64 m a = load64 m' a.
Proof. intros H. unfold load64. f_equal. apply mem_load_ext. intros; apply H; lia. Qed.

Lemma store64_get a v m x : ¬ (a <= x < a + 8) → mem_get (store64 a v m) x = mem_get m x.
Proof. intros H. unfold store64. rewrite mem_store_get, length_le_split. by rewrite decide_False by lia. Qed.
