(* ===== verification/Pmm.v ===== *)
(** * kernel/memory/pmm.c: the physical page allocator

    The state is the file's static variables: the bitmap (one bit per page, set
    when the page is in use), its size, the end of usable memory, the two page
    counts and the offset of the direct map.  [irq_save]/[irq_restore] bracket
    operations that are one step here; console output is not part of the state. *)
From S2P Require Import Prelude.
Local Open Scope kernel_scope.

(** ** State and bitmap *)

(** The static variables of the file. [kernel/memory/pmm.c 1-5] *)
Record pmm := Pmm {
  bitmap : list Z;
  bitmap_size : Z;
  highest_addr : Z;
  free_pages : Z;
  usable_pages : Z;
  hhdm_offset : Z
}.

Definition set_bitmap (b : list Z) (s : pmm) : pmm :=
  Pmm b (bitmap_size s) (highest_addr s) (free_pages s) (usable_pages s) (hhdm_offset s).
Definition set_free_pages (n : Z) (s : pmm) : pmm :=
  Pmm (bitmap s) (bitmap_size s) (highest_addr s) n (usable_pages s) (hhdm_offset s).
Definition set_usable_pages (n : Z) (s : pmm) : pmm :=
  Pmm (bitmap s) (bitmap_size s) (highest_addr s) (free_pages s) n (hhdm_offset s).

(** [kernel/memory/pmm.c: bitmap_set] *)
Definition bitmap_set (bit : Z) : M pmm unit :=
  b ← gets bitmap;
  v ← lift (b !!z (bit / 8));
  b' ← lift (updateZ (bit / 8) (u8 (Z.lor v (Z.shiftl 1 (bit mod 8)))) b);
  modify (set_bitmap b').

(** [kernel/memory/pmm.c: bitmap_clear] *)
Definition bitmap_clear (bit : Z) : M pmm unit :=
  b ← gets bitmap;
  v ← lift (b !!z (bit / 8));
  b' ← lift (updateZ (bit / 8) (u8 (Z.land v (u32 (Z.lnot (Z.shiftl 1 (bit mod 8)))))) b);
  modify (set_bitmap b').

(** [kernel/memory/pmm.c: bitmap_test] *)
Definition bitmap_test (bit : Z) : M pmm bool :=
  b ← gets bitmap;
  v ← lift (b !!z (bit / 8));
  mret (Z.land (Z.shiftr v (bit mod 8)) 1 =? 1).

(** [free_pages--] and [free_pages++] on a [uint64_t]. *)
Definition dec_free_pages : M pmm unit := modify (λ s, set_free_pages (u64 (free_pages s - 1)) s).
Definition inc_free_pages : M pmm unit := modify (λ s, set_free_pages (u64 (free_pages s + 1)) s).

(** [kernel/memory/pmm.c: phys_to_virt] *)
Definition phys_to_virt (phys : Z) : M pmm Z := gets (λ s, u64 (phys + hhdm_offset s)).
(** [kernel/memory/pmm.c: virt_to_phys] *)
Definition virt_to_phys (virt : Z) : M pmm Z := gets (λ s, u64 (virt - hhdm_offset s)).

(** [highest_addr / PAGE_SIZE] *)
Definition total_pages (s : pmm) : Z := highest_addr s / PAGE_SIZE.

(** ** Allocation and release *)

(** The search loop of [pmm_alloc_pages_locked]: [n] pages left to look at from
    page [i] on, the current run of free pages, the marking loop and the result
    once the run is long enough. [kernel/memory/pmm.c: pmm_alloc_pages_locked] *)
Fixpoint pmm_alloc_pages_loop (n : nat) (i count run_start run_len : Z) : M pmm Z :=
  match n with
  | O => mret 0
  | S n' =>
      t ← bitmap_test i;
      if negb t then
        let run_start' := if run_len =? 0 then i else run_start in
        let run_len' := u64 (run_len + 1) in
        if run_len' =? count then
          for_range (Z.to_nat count) run_start' (λ p, bitmap_set p;; dec_free_pages);;
          phys_to_virt (run_start' * PAGE_SIZE)
        else pmm_alloc_pages_loop n' (i + 1) count run_start' run_len'
      else pmm_alloc_pages_loop n' (i + 1) count run_start 0
  end.
(** [kernel/memory/pmm.c: pmm_alloc_pages_locked] *)
Definition pmm_alloc_pages_locked (count : Z) : M pmm Z :=
  n ← gets total_pages;
  pmm_alloc_pages_loop (Z.to_nat n) 0 count 0 0.
(** [kernel/memory/pmm.c: pmm_alloc_pages] *)
Definition pmm_alloc_pages (count : Z) : M pmm Z := pmm_alloc_pages_locked count.

(** The search loop of [pmm_alloc_page_locked]. [kernel/memory/pmm.c: pmm_alloc_page_locked] *)
Fixpoint pmm_alloc_page_loop (n : nat) (i : Z) : M pmm Z :=
  match n with
  | O => mret 0
  | S n' =>
      t ← bitmap_test i;
      if negb t then bitmap_set i;; dec_free_pages;; phys_to_virt (i * PAGE_SIZE)
      else pmm_alloc_page_loop n' (i + 1)
  end.
(** [kernel/memory/pmm.c: pmm_alloc_page] *)
Definition pmm_alloc_page : M pmm Z :=
  n ← gets total_pages;
  pmm_alloc_page_loop (Z.to_nat n) 0.

(** Clear one page's bit if it is set, counting it free.
    [kernel/memory/pmm.c: pmm_free_pages 239-243] *)
Definition release_page (bit : Z) : M pmm unit :=
  t ← bitmap_test bit;
  if (t : bool) then bitmap_clear bit;; inc_free_pages else mret tt.

(** [kernel/memory/pmm.c: pmm_free_page] *)
Definition pmm_free_page (page : Z) : M pmm unit :=
  phys ← virt_to_phys page;
  release_page (phys / PAGE_SIZE).

(** [kernel/memory/pmm.c: pmm_free_pages] *)
Definition pmm_free_pages (pages count : Z) : M pmm unit :=
  if (pages =? 0) || (count =? 0) then mret tt
  else
    phys ← virt_to_phys pages;
    let start_page := phys / PAGE_SIZE in
    total ← gets total_pages;
    if (total <=? start_page) || (total - start_page <? count) then mret tt
    else for_range (Z.to_nat count) start_page release_page.

(** [kernel/memory/pmm.c: pmm_free_page_count] *)
Definition pmm_free_page_count : M pmm Z := gets free_pages.
(** [kernel/memory/pmm.c: pmm_total_page_count] *)
Definition pmm_total_page_count : M pmm Z := gets usable_pages.

(** ** Boot *)

(** A memory-map entry of the boot protocol; [me_usable] is
    [type == LIMINE_MEMMAP_USABLE]. *)
Record memmap_entry := MemmapEntry { me_base : Z; me_length : Z; me_usable : bool }.

(** What [pmm_init] reads from the bootloader and the linker: the memory map, the
    direct-map offset, the kernel's link addresses and where it was loaded.
    [kernel/memory/pmm.c: pmm_init 45-47] *)
Record boot_info := BootInfo {
  bi_memmap : list memmap_entry;
  bi_hhdm : Z;
  bi_virt_start : Z; bi_virt_end : Z;
  bi_virt_base : Z; bi_phys_base : Z
}.

(** One entry's contribution to [highest_addr]. [kernel/memory/pmm.c: pmm_init 51-58] *)
Definition highest_step (h : Z) (e : memmap_entry) : Z :=
  if me_usable e then
    let top := u64 (me_base e + me_length e) in if h <? top then top else h
  else h.
(** [kernel/memory/pmm.c: pmm_init 49-59] *)
Definition highest_usable (es : list memmap_entry) : Z := foldl highest_step 0 es.

(** The longest usable entry: [(bitmap_phys, best_len)]. [kernel/memory/pmm.c: pmm_init 70-84] *)
Definition longest_usable (es : list memmap_entry) : Z * Z :=
  foldl (λ '(phys, best) e, if me_usable e && (best <? me_length e) then (me_base e, me_length e)
                            else (phys, best)) (0, 0) es.

(** Free every page of a usable entry. [kernel/memory/pmm.c: pmm_init 96-111] *)
Definition init_usable (e : memmap_entry) : M pmm unit :=
  if me_usable e then
    for_range (Z.to_nat (me_length e / PAGE_SIZE)) (me_base e / PAGE_SIZE) (λ p,
      bitmap_clear p;; inc_free_pages;; modify (λ s, set_usable_pages (u64 (usable_pages s + 1)) s))
  else mret tt.

(** Reserve a page that is free. [kernel/memory/pmm.c: pmm_init 118-122] *)
Definition reserve_page (p : Z) : M pmm unit :=
  t ← bitmap_test p;
  if negb t then bitmap_set p;; dec_free_pages else mret tt.

(** [kernel/memory/pmm.c: pmm_init] *)
Definition pmm_init (bi : boot_info) : M pmm unit :=
  let highest := highest_usable (bi_memmap bi) in
  let size := (highest / PAGE_SIZE + 7) / 8 in
  let kstart := u64 (u64 (bi_virt_start bi - bi_virt_base bi) + bi_phys_base bi) in
  let kend := u64 (u64 (bi_virt_end bi - bi_virt_base bi) + bi_phys_base bi) in
  let bitmap_phys := fst (longest_usable (bi_memmap bi)) in
  if bitmap_phys =? 0 then fail
  else
    modify (λ _, Pmm (replicate (Z.to_nat size) 255) size highest 0 0 (bi_hhdm bi));;
    forM_ (bi_memmap bi) init_usable;;
    for_range (Z.to_nat ((size + PAGE_SIZE - 1) / PAGE_SIZE)) (bitmap_phys / PAGE_SIZE) reserve_page;;
    let kstart_page := kstart / PAGE_SIZE in
    let kend_page := u64 (kend + PAGE_SIZE - 1) / PAGE_SIZE in
    for_range (Z.to_nat (kend_page - kstart_page)) kstart_page reserve_page.

(** ** Specification vocabulary *)

(** Bit [i] of the bitmap, [None] outside it. *)
Definition bit_of (b : list Z) (i : Z) : option bool :=
  v ← b !!z (i / 8); Some (Z.testbit v (i mod 8)).
Definition page_bit (s : pmm) (i : Z) : option bool := bit_of (bitmap s) i.

(** Pages of [j, j+count) are all free. *)
Definition run_free (s : pmm) (j count : Z) : Prop :=
  ∀ k, j <= k < j + count → page_bit s k = Some false.

(** Number of clear bits among the first [n]. *)
Fixpoint count_free (b : list Z) (n : nat) : Z :=
  match n with
  | O => 0
  | S n' => count_free b n' + (if bool_decide (bit_of b (Z.of_nat n') = Some false) then 1 else 0)
  end.

(** The allocator's invariant. *)
Record pmm_wf (s : pmm) : Prop := {
  wf_bytes : bytes (bitmap s);
  wf_cover : 0 <= total_pages s <= 8 * Z.of_nat (length (bitmap s));
  wf_count : free_pages s = count_free (bitmap s) (Z.to_nat (total_pages s));
  wf_phys : highest_addr s < 2 ^ 52;
  wf_hhdm : 0 < hhdm_offset s ∧ hhdm_offset s mod PAGE_SIZE = 0 ∧ hhdm_offset s + highest_addr s < 2 ^ 64
}.

(** Everything but the bitmap and the free count is unchanged. *)
Definition same_frame (s s' : pmm) : Prop :=
  bitmap_size s' = bitmap_size s ∧ highest_addr s' = highest_addr s ∧
  usable_pages s' = usable_pages s ∧ hhdm_offset s' = hhdm_offset s ∧
  length (bitmap s') = length (bitmap s).

(** [s'] is [s] with the pages of [j, j+count) set to [v]. *)
Definition pages_set (s s' : pmm) (j count : Z) (v : bool) : Prop :=
  same_frame s s' ∧
  ∀ i, 0 <= i → page_bit s' i = if decide (j <= i < j + count) then Some v else page_bit s i.

(** Page [i] lies in the usable entry [e]. *)
Definition entry_has (e : memmap_entry) (i : Z) : bool :=
  me_usable e && (me_base e / PAGE_SIZE <=? i) && (i <? me_base e / PAGE_SIZE + me_length e / PAGE_SIZE).
(** Page [i] lies in some usable entry. *)
Definition usable_page (es : list memmap_entry) (i : Z) : bool := existsb (λ e, entry_has e i) es.

(** The pages [pmm_init] reserves: first page and page count of the bitmap's
    place, first and last page of the kernel image. *)
Definition bi_bitmap_page (bi : boot_info) : Z := fst (longest_usable (bi_memmap bi)) / PAGE_SIZE.
Definition bi_bitmap_pages (bi : boot_info) : Z :=
  ((highest_usable (bi_memmap bi) / PAGE_SIZE + 7) / 8 + PAGE_SIZE - 1) / PAGE_SIZE.
Definition bi_kstart_page (bi : boot_info) : Z :=
  u64 (u64 (bi_virt_start bi - bi_virt_base bi) + bi_phys_base bi) / PAGE_SIZE.
Definition bi_kend_page (bi : boot_info) : Z :=
  u64 (u64 (u64 (bi_virt_end bi - bi_virt_base bi) + bi_phys_base bi) + PAGE_SIZE - 1) / PAGE_SIZE.
Definition reserved_page (bi : boot_info) (i : Z) : bool :=
  ((bi_bitmap_page bi <=? i) && (i <? bi_bitmap_page bi + bi_bitmap_pages bi)) ||
  ((bi_kstart_page bi <=? i) && (i <? bi_kend_page bi)).

(** Number of pages below [n] that satisfy [P]. *)
Fixpoint count_pages (P : Z → bool) (n : nat) : Z :=
  match n with O => 0 | S n' => count_pages P n' + (if P (Z.of_nat n') then 1 else 0) end.

(** What the allocator relies on the bootloader for: page-aligned usable entries
    that do not overlap, in a 52-bit physical space; a first entry to hold the
    bitmap, long enough for it; a kernel image below the top of usable memory. *)
Record boot_ok (bi : boot_info) : Prop := {
  bo_aligned : Forall (λ e, me_usable e = true → me_base e mod PAGE_SIZE = 0 ∧ 0 <= me_base e ∧
                        0 <= me_length e ∧ me_base e + me_length e < 2 ^ 52) (bi_memmap bi);
  bo_disjoint : ∀ l1 e l2 i, bi_memmap bi = l1 ++ e :: l2 → entry_has e i = true → usable_page l1 i = false;
  bo_bitmap : fst (longest_usable (bi_memmap bi)) ≠ 0;
  bo_bitmap_fits : bi_bitmap_page bi + bi_bitmap_pages bi <= highest_usable (bi_memmap bi) / PAGE_SIZE;
  bo_kernel : bi_kend_page bi <= highest_usable (bi_memmap bi) / PAGE_SIZE;
  bo_hhdm : 0 < bi_hhdm bi ∧ bi_hhdm bi mod PAGE_SIZE = 0 ∧
            bi_hhdm bi + highest_usable (bi_memmap bi) < 2 ^ 64
}.

(** 1 when page [i] is free, else 0. *)
Definition free_at (b : list Z) (i : Z) : Z :=
  if bool_decide (bit_of b i = Some false) then 1 else 0.

(** ** Lemmas: bits of the bitmap *)
Lemma testbit_one k : Z.testbit 1 k = (k =? 0).
Proof.
  destruct (Z.eqb_spec k 0) as [->|Hk]; [done|].
  destruct (Z.ltb_spec k 0); [by apply Z.testbit_neg_r|].
  change 1 with (2 ^ 0). rewrite Z.pow2_bits_eqb by lia. apply Z.eqb_neq. lia.
Qed.

Lemma set_byte_bit v r k :
  0 <= r < 8 → 0 <= k < 8 →
  Z.testbit (u8 (Z.lor v (Z.shiftl 1 r))) k = if decide (k = r) then true else Z.testbit v k.
Proof.
  intros Hr Hk. unfold u8. rewrite Z.mod_pow2_bits_low, Z.lor_spec, Z.shiftl_spec, testbit_one by lia.
  destruct (Z.eqb_spec (k - r) 0), (decide (k = r)); try lia; by destruct (Z.testbit v k).
Qed.

Lemma clear_byte_bit v r k :
  0 <= r < 8 → 0 <= k < 8 →
  Z.testbit (u8 (Z.land v (u32 (Z.lnot (Z.shiftl 1 r))))) k = if decide (k = r) then false else Z.testbit v k.
Proof.
  intros Hr Hk. unfold u8, u32.
  rewrite Z.mod_pow2_bits_low, Z.land_spec, Z.mod_pow2_bits_low, Z.lnot_spec, Z.shiftl_spec,
    testbit_one by lia.
  destruct (Z.eqb_spec (k - r) 0), (decide (k = r)); try lia; by destruct (Z.testbit v k).
Qed.

Lemma shifted_bit v r : (Z.land (Z.shiftr v r) 1 =? 1) = Z.testbit v r.
Proof.
  change 1 with (Z.ones 1) at 1. rewrite Z.land_ones, Z.testbit_odd by lia.
  change (2 ^ 1) with 2. rewrite Zmod_odd. by destruct (Z.odd _).
Qed.

(** Overwriting one byte so that only bit [i] changes. *)
Lemma bit_of_update b i v w x :
  0 <= i → b !!z (i / 8) = Some v →
  (∀ k, 0 <= k < 8 → Z.testbit w k = if decide (k = i mod 8) then x else Z.testbit v k) →
  ∀ j, 0 <= j →
    bit_of (<[Z.to_nat (i / 8) := w]> b) j = if decide (j = i) then Some x else bit_of b j.
Proof.
  intros Hi Hv Hw j Hj. unfold bit_of.
  pose proof (lookupZ_Some_lt _ _ _ Hv) as Hlt.
  pose proof (Z.mod_pos_bound j 8). pose proof (Z.mod_pos_bound i 8).
  pose proof (Z.div_mod i 8). pose proof (Z.div_mod j 8).
  destruct (decide (i / 8 = j / 8)) as [E|E].
  - rewrite <- E, lookupZ_insert_eq, Hv by lia. simpl. rewrite Hw by lia.
    destruct (decide (j mod 8 = i mod 8)), (decide (j = i)); try lia; done.
  - rewrite lookupZ_insert_ne by lia. destruct (decide (j = i)); [congruence|done].
Qed.

Lemma bit_of_Some (b : list Z) i : 0 <= i < 8 * Z.of_nat (length b) → ∃ v, b !!z (i / 8) = Some v.
Proof.
  intros H. apply lookupZ_lt_is_Some. split; [apply Z.div_pos; lia|].
  apply Z.div_lt_upper_bound; lia.
Qed.

Lemma bytes_insert b k w : bytes b → is_byte w → bytes (<[k := w]> b).
Proof. intros. by apply Forall_insert. Qed.

Lemma byte_ext v w :
  is_byte v → is_byte w → (∀ k, 0 <= k < 8 → Z.testbit v k = Z.testbit w k) → v = w.
Proof.
  intros Hv Hw H. apply Z.bits_inj'. intros k Hk.
  destruct (Z.ltb_spec k 8); [by apply H|].
  rewrite <- (u8_small v), <- (u8_small w) by (unfold is_byte in *; lia). unfold u8.
  by rewrite !Z.mod_pow2_bits_high by lia.
Qed.

(** A bitmap is determined by its length and its bits. *)
Lemma bitmap_ext b b' :
  bytes b → bytes b' → length b = length b' →
  (∀ i, 0 <= i → bit_of b i = bit_of b' i) → b = b'.
Proof.
  intros Hb Hb' Hl H. apply list_eq_same_length with (length b); [done|done|].
  intros k v w Hk Hv Hw.
  assert (Hkv : ∀ r, 0 <= r < 8 → Z.testbit v r = Z.testbit w r).
  { intros r Hr. specialize (H (8 * Z.of_nat k + r)). unfold bit_of, lookupZ in H.
    assert (Hdiv : (8 * Z.of_nat k + r) / 8 = Z.of_nat k)
      by (symmetry; apply Z.div_unique with r; lia).
    assert (Hmod : (8 * Z.of_nat k + r) mod 8 = r)
      by (symmetry; apply Z.mod_unique with (Z.of_nat k); lia).
    rewrite Hdiv, Hmod, Nat2Z.id in H.
    destruct (Z.ltb_spec (Z.of_nat k) 0); [lia|].
    rewrite Hv, Hw in H. simpl in H. by injection (H ltac:(lia)). }
  apply byte_ext; [| |done]; [exact (Forall_lookup_1 _ _ _ _ Hb Hv)|exact (Forall_lookup_1 _ _ _ _ Hb' Hw)].
Qed.

(** ** Lemmas: counting free pages *)
Lemma count_free_ext b b' n :
  (∀ j, 0 <= j < Z.of_nat n → bit_of b' j = bit_of b j) → count_free b' n = count_free b n.
Proof.
  induction n as [|n IH]; intros H; [done|]. simpl. rewrite IH, H by (intros; try apply H; lia). done.
Qed.

Lemma count_free_change b b' n i :
  (∀ j, 0 <= j → j ≠ i → bit_of b' j = bit_of b j) → 0 <= i < Z.of_nat n →
  count_free b' n = count_free b n + free_at b' i - free_at b i.
Proof.
  intros H. induction n as [|n IH]; intros Hi; [lia|]. simpl. fold (free_at b' (Z.of_nat n)) (free_at b (Z.of_nat n)).
  destruct (decide (i = Z.of_nat n)) as [->|Hne].
  - rewrite (count_free_ext b b' n); [lia|]. intros; apply H; lia.
  - assert (free_at b' (Z.of_nat n) = free_at b (Z.of_nat n)).
    { unfold free_at. by rewrite H by lia. }
    rewrite IH by lia. lia.
Qed.

Lemma count_free_bound b n : 0 <= count_free b n <= Z.of_nat n.
Proof. induction n; simpl; [lia|]. case_bool_decide; lia. Qed.

Lemma free_at_true b i : bit_of b i = Some false → free_at b i = 1.
Proof. intros. unfold free_at. by rewrite bool_decide_true. Qed.
Lemma free_at_used b i : bit_of b i = Some true → free_at b i = 0.
Proof. intros H. unfold free_at. rewrite bool_decide_false; [done|]. by rewrite H. Qed.

Lemma count_free_pos b n i : 0 <= i < Z.of_nat n → bit_of b i = Some false → 0 < count_free b n.
Proof.
  intros Hi H. induction n as [|n IH]; [lia|]. simpl. pose proof (count_free_bound b n).
  destruct (decide (i = Z.of_nat n)) as [->|Hne].
  - rewrite bool_decide_true by done. lia.
  - specialize (IH ltac:(lia)). case_bool_decide; lia.
Qed.

(** ** Lemmas: the single-page steps *)
Lemma total_pages_lt s : pmm_wf s → total_pages s < 2 ^ 40.
Proof. intros W. apply Z.div_lt_upper_bound; [done|]. apply (wf_phys s W). Qed.

Lemma page_bit_Some s i : pmm_wf s → 0 <= i < total_pages s → ∃ x, page_bit s i = Some x.
Proof.
  intros W Hi. pose proof (wf_cover s W). unfold page_bit, bit_of.
  destruct (bit_of_Some (bitmap s) i) as [v ->]; [lia|]. simpl. eauto.
Qed.

Lemma bitmap_test_wp s i x (Q : bool → pmm → Prop) :
  page_bit s i = Some x → Q x s → wp (bitmap_test i) Q s.
Proof.
  unfold page_bit, bit_of, bitmap_test. intros H HQ. destruct (bitmap s !!z (i / 8)) as [v|] eqn:E; [|done].
  simpl in H. simplify_eq. wp_steps. eapply wp_lift; [exact E|]. wp_steps. by rewrite shifted_bit.
Qed.

Lemma pages_set_one s s' i v :
  same_frame s s' →
  (∀ j, 0 <= j → page_bit s' j = if decide (j = i) then Some v else page_bit s j) →
  pages_set s s' i 1 v.
Proof.
  intros F H. split; [done|]. intros j Hj. rewrite H by done.
  destruct (decide (j = i)), (decide (i <= j < i + 1)); lia || done.
Qed.

Lemma bitmap_write_wf s b' n i :
  pmm_wf s → bytes b' → length b' = length (bitmap s) →
  (∀ j, 0 <= j → j ≠ i → bit_of b' j = bit_of (bitmap s) j) →
  0 <= i < total_pages s →
  n = free_pages s + free_at b' i - free_at (bitmap s) i →
  pmm_wf (set_free_pages (u64 n) (set_bitmap b' s)) ∧ u64 n = n.
Proof.
  intros W Hb Hl H Hi Hn.
  assert (Hc : n = count_free b' (Z.to_nat (total_pages s))).
  { rewrite Hn, (wf_count s W). symmetry. apply count_free_change; [done|lia]. }
  pose proof (total_pages_lt s W). pose proof (count_free_bound b' (Z.to_nat (total_pages s))).
  rewrite u64_small by lia. split; [|done].
  destruct W. constructor; simpl; try done.
  unfold total_pages in *. simpl. by rewrite Hl.
Qed.

Lemma take_page_wp s i (Q : unit → pmm → Prop) :
  pmm_wf s → 0 <= i < total_pages s → page_bit s i = Some false →
  (∀ s', pmm_wf s' → pages_set s s' i 1 true → free_pages s' = free_pages s - 1 → Q tt s') →
  wp (bitmap_set i;; dec_free_pages) Q s.
Proof.
  intros W Hi Hf HQ. pose proof (wf_cover s W).
  destruct (bit_of_Some (bitmap s) i) as [v Hv]; [lia|].
  pose proof (lookupZ_Some_lt _ _ _ Hv).
  pose proof (Z.mod_pos_bound i 8 ltac:(lia)).
  set (w := u8 (Z.lor v (Z.shiftl 1 (i mod 8)))).
  pose proof (bit_of_update (bitmap s) i v w true ltac:(lia) Hv
                (λ k Hk, set_byte_bit v (i mod 8) k ltac:(lia) Hk)) as Hbits.
  destruct (bitmap_write_wf s (<[Z.to_nat (i / 8) := w]> (bitmap s)) (free_pages s - 1) i) as [W' Hn]; try done.
  - apply bytes_insert; [apply W|apply u8_range].
  - apply length_insert.
  - intros j Hj Hne. rewrite Hbits by done. by rewrite decide_False.
  - rewrite free_at_used, free_at_true; [lia|done|]. rewrite Hbits by lia. by rewrite decide_True.
  - unfold bitmap_set, dec_free_pages. wp_steps. eapply wp_lift; [exact Hv|]. wp_steps.
    eapply wp_lift; [by apply updateZ_is_Some|]. wp_steps. apply HQ; [exact W'| |exact Hn].
    apply pages_set_one; [|exact Hbits]. repeat split. apply length_insert.
Qed.

Lemma clear_page_wp s i (Q : unit → pmm → Prop) :
  pmm_wf s → 0 <= i < total_pages s → page_bit s i = Some true →
  (∀ s', pmm_wf s' → pages_set s s' i 1 false → free_pages s' = free_pages s + 1 → Q tt s') →
  wp (bitmap_clear i;; inc_free_pages) Q s.
Proof.
  intros W Hi Hx HQ. pose proof (wf_cover s W).
  destruct (bit_of_Some (bitmap s) i) as [v Hv]; [lia|].
  pose proof (lookupZ_Some_lt _ _ _ Hv).
  pose proof (Z.mod_pos_bound i 8 ltac:(lia)).
  set (w := u8 (Z.land v (u32 (Z.lnot (Z.shiftl 1 (i mod 8)))))).
  pose proof (bit_of_update (bitmap s) i v w false ltac:(lia) Hv
                (λ k Hk, clear_byte_bit v (i mod 8) k ltac:(lia) Hk)) as Hbits.
  destruct (bitmap_write_wf s (<[Z.to_nat (i / 8) := w]> (bitmap s)) (free_pages s + 1) i) as [W' Hn]; try done.
  - apply bytes_insert; [apply W|apply u8_range].
  - apply length_insert.
  - intros j Hj Hne. rewrite Hbits by done. by rewrite decide_False.
  - rewrite free_at_true, free_at_used; [lia|done|]. rewrite Hbits by lia. by rewrite decide_True.
  - unfold bitmap_clear, inc_free_pages. wp_steps. eapply wp_lift; [exact Hv|]. wp_steps.
    eapply wp_lift; [by apply updateZ_is_Some|]. wp_steps. apply HQ; [exact W'| |exact Hn].
    apply pages_set_one; [|exact Hbits]. repeat split. apply length_insert.
Qed.

Lemma release_page_wp s i (Q : unit → pmm → Prop) :
  pmm_wf s → 0 <= i < total_pages s →
  (∀ s', pmm_wf s' → pages_set s s' i 1 false → Q tt s') →
  wp (release_page i) Q s.
Proof.
  intros W Hi HQ. unfold release_page. wp_steps.
  destruct (page_bit_Some s i W Hi) as [x Hx]. eapply bitmap_test_wp; [exact Hx|].
  destruct x; [apply clear_page_wp; eauto|wp_steps].
  apply HQ; [done|]. apply pages_set_one; [done|].
  intros j Hj. destruct (decide (j = i)) as [->|]; done.
Qed.

Lemma reserve_page_wp s i (Q : unit → pmm → Prop) :
  pmm_wf s → 0 <= i < total_pages s →
  (∀ s', pmm_wf s' → pages_set s s' i 1 true → Q tt s') →
  wp (reserve_page i) Q s.
Proof.
  intros W Hi HQ. unfold reserve_page. wp_steps.
  destruct (page_bit_Some s i W Hi) as [x Hx]. eapply bitmap_test_wp; [exact Hx|].
  destruct x; [wp_steps|apply take_page_wp; eauto].
  apply HQ; [done|]. apply pages_set_one; [done|].
  intros j Hj. destruct (decide (j = i)) as [->|]; done.
Qed.

(** ** Lemmas: runs of pages *)
Lemma pages_set_refl s j v : pages_set s s j 0 v.
Proof. split; [done|]. intros i Hi. rewrite decide_False; [done|lia]. Qed.

Lemma pages_set_snoc s s1 s2 j n v :
  0 <= n → pages_set s s1 j n v → pages_set s1 s2 (j + n) 1 v → pages_set s s2 j (n + 1) v.
Proof.
  intros Hn [F1 H1] [F2 H2]. split; [unfold same_frame in *; naive_solver congruence|].
  intros i Hi. rewrite H2, H1 by done.
  repeat destruct decide; lia || done.
Qed.

Lemma pages_set_total s s' j n v : pages_set s s' j n v → total_pages s' = total_pages s.
Proof. intros [F _]. unfold total_pages. by destruct F as (_&->&_). Qed.

Lemma take_pages_wp s j n (Q : unit → pmm → Prop) :
  pmm_wf s → 0 <= j → j + Z.of_nat n <= total_pages s → run_free s j (Z.of_nat n) →
  (∀ s', pmm_wf s' → pages_set s s' j (Z.of_nat n) true →
     free_pages s' = free_pages s - Z.of_nat n → Q tt s') →
  wp (for_range n j (λ p, bitmap_set p;; dec_free_pages)) Q s.
Proof.
  intros W Hj Hn Hf HQ.
  eapply wp_mono; [apply (wp_for_range n j _ (λ k s', pmm_wf s' ∧ pages_set s s' j (k - j) true ∧
    free_pages s' = free_pages s - (k - j)))|].
  - rewrite Z.sub_diag, Z.sub_0_r. eauto using pages_set_refl.
  - intros k t Hk (Wt & Pt & Ft). apply take_page_wp; [done| | |].
    + rewrite (pages_set_total _ _ _ _ _ Pt). lia.
    + destruct Pt as [_ Pt]. rewrite Pt by lia. rewrite decide_False by lia. apply Hf. lia.
    + intros t' Wt' Pt' Ft'. split_and!; [done| |lia].
      replace (k + 1 - j) with (k - j + 1) by lia. eapply pages_set_snoc; [lia|exact Pt|].
      by replace (j + (k - j)) with k by lia.
  - intros [] t (Wt & Pt & Ft). replace (j + Z.of_nat n - j) with (Z.of_nat n) in * by lia. eauto.
Qed.

(** A loop whose body sets one page to [v] sets the whole range. *)
Lemma set_pages_wp (f : Z → M pmm unit) v s j n (Q : unit → pmm → Prop) :
  (∀ t i (R : unit → pmm → Prop), pmm_wf t → 0 <= i < total_pages t →
     (∀ t', pmm_wf t' → pages_set t t' i 1 v → R tt t') → wp (f i) R t) →
  pmm_wf s → 0 <= j → j + Z.of_nat n <= Z.max j (total_pages s) →
  (∀ s', pmm_wf s' → pages_set s s' j (Z.of_nat n) v → Q tt s') →
  wp (for_range n j f) Q s.
Proof.
  intros Hstep W Hj Hn HQ.
  eapply wp_mono; [apply (wp_for_range n j _ (λ k s', pmm_wf s' ∧ pages_set s s' j (k - j) v))|].
  - rewrite Z.sub_diag. eauto using pages_set_refl.
  - intros k t Hk (Wt & Pt). apply Hstep; [done| |].
    + rewrite (pages_set_total _ _ _ _ _ Pt). lia.
    + intros t' Wt' Pt'. split; [done|].
      replace (k + 1 - j) with (k - j + 1) by lia. eapply pages_set_snoc; [lia|exact Pt|].
      by replace (j + (k - j)) with k by lia.
  - intros [] t (Wt & Pt). replace (j + Z.of_nat n - j) with (Z.of_nat n) in * by lia. eauto.
Qed.

(** Two well-formed states with the same frame and the same bits are equal. *)
Lemma pmm_state_ext s s' :
  pmm_wf s → pmm_wf s' → same_frame s s' → (∀ i, 0 <= i → page_bit s' i = page_bit s i) → s' = s.
Proof.
  intros W W' (E1 & E2 & E3 & E4 & E5) H.
  assert (Eb : bitmap s' = bitmap s) by (apply bitmap_ext; [apply W'|apply W|done|done]).
  pose proof (wf_count s W) as C. pose proof (wf_count s' W') as C'.
  unfold total_pages in C'. rewrite Eb, E2 in C'. fold (total_pages s) in C'. rewrite <- C in C'.
  destruct s, s'; simpl in *; congruence.
Qed.

(** The address a page number is handed out as, and back. *)
Definition page_addr (s : pmm) (p : Z) : Z := hhdm_offset s + p * PAGE_SIZE.

Lemma page_lt_addr s p : 0 <= p < total_pages s → p * PAGE_SIZE < highest_addr s.
Proof.
  unfold total_pages, PAGE_SIZE. intros H. pose proof (Z.div_mod (highest_addr s) 4096).
  pose proof (Z.mod_pos_bound (highest_addr s) 4096). lia.
Qed.

Lemma phys_to_virt_wp s p (Q : Z → pmm → Prop) :
  pmm_wf s → 0 <= p < total_pages s → Q (page_addr s p) s → wp (phys_to_virt (p * PAGE_SIZE)) Q s.
Proof.
  intros W Hp HQ. unfold phys_to_virt. wp_steps. destruct (wf_hhdm s W) as (?&?&?).
  pose proof (page_lt_addr s p Hp). unfold PAGE_SIZE in *.
  rewrite u64_small by lia. unfold page_addr, PAGE_SIZE in HQ. by rewrite Z.add_comm.
Qed.

Lemma virt_page s p :
  pmm_wf s → 0 <= p < total_pages s → u64 (page_addr s p - hhdm_offset s) / PAGE_SIZE = p.
Proof.
  intros W Hp. destruct (wf_hhdm s W) as (?&?&?). pose proof (page_lt_addr s p Hp).
  unfold page_addr, PAGE_SIZE in *. rewrite u64_small by lia.
  symmetry. apply Z.div_unique with 0; lia.
Qed.

(** ** The allocator is first fit *)

(** What a call that asks for [count] pages may do. *)
Definition alloc_post (s : pmm) (count p : Z) (s' : pmm) : Prop :=
  (∃ j, 0 <= j ∧ j + count <= total_pages s ∧ p = page_addr s j ∧ run_free s j count ∧
        (∀ j', 0 <= j' < j → ¬ run_free s j' count) ∧
        pages_set s s' j count true ∧ free_pages s' = free_pages s - count ∧ pmm_wf s')
  ∨ (p = 0 ∧ s' = s ∧ ∀ j, 0 <= j → j + count <= total_pages s → ¬ run_free s j count).

(** The state of the search at page [i]: the current run and no earlier fit. *)
Definition scan_inv (s : pmm) (count i run_start run_len : Z) : Prop :=
  let cur := if run_len =? 0 then i else run_start in
  0 <= cur ∧ 0 <= run_len < count ∧ cur + run_len = i ∧ run_free s cur run_len ∧
  ∀ j, 0 <= j < cur → ¬ run_free s j count.

Lemma run_free_used s j count k :
  page_bit s k = Some true → j <= k < j + count → ¬ run_free s j count.
Proof. intros H Hk F. rewrite F in H by done. done. Qed.

Lemma scan_inv_used s count i rs rl :
  page_bit s i = Some true → scan_inv s count i rs rl → scan_inv s count (i + 1) rs 0.
Proof.
  intros H (H0 & H1 & H2 & H3 & H4). unfold scan_inv. simpl.
  split_and!; [lia|lia|lia|lia|intros k Hk; lia|].
  intros j Hj. destruct (Z.ltb_spec j (if rl =? 0 then i else rs)) as [Hlt|Hge]; [apply H4; lia|].
  apply (run_free_used _ _ _ i); [done|]. destruct (rl =? 0); lia.
Qed.

Lemma scan_inv_free s count i rs rl :
  page_bit s i = Some false → scan_inv s count i rs rl →
  let rs' := if rl =? 0 then i else rs in
  0 <= rs' ∧ rs' + (rl + 1) = i + 1 ∧ run_free s rs' (rl + 1) ∧
  (∀ j, 0 <= j < rs' → ¬ run_free s j count) ∧
  (rl + 1 ≠ count → scan_inv s count (i + 1) rs' (rl + 1)).
Proof.
  intros H (H0 & H1 & H2 & H3 & H4) rs'. fold rs' in H0, H2, H3, H4.
  assert (run_free s rs' (rl + 1)).
  { intros k Hk. destruct (decide (k = i)) as [->|]; [done|]. apply H3. lia. }
  split_and!; try done; [lia|]. intros Hne. unfold scan_inv.
  destruct (Z.eqb_spec (rl + 1) 0); [lia|]. split_and!; try done; lia.
Qed.

Lemma pmm_alloc_pages_loop_wp n i count rs rl s :
  pmm_wf s → i + Z.of_nat n = total_pages s → scan_inv s count i rs rl →
  wp (pmm_alloc_pages_loop n i count rs rl) (alloc_post s count) s.
Proof.
  intros W. revert i rs rl. induction n as [|n IH]; intros i rs rl Hi Hinv; simpl.
  - apply wp_ret. right. split_and!; [done|done|]. intros j Hj Hjc. destruct Hinv as (H0&H1&H2&H3&H4).
    apply H4. destruct (rl =? 0); lia.
  - assert (0 <= i) by (destruct Hinv as (?&?&?&?&?); lia). wp_steps.
    destruct (page_bit_Some s i W) as [x Hx]; [lia|]. eapply bitmap_test_wp; [exact Hx|].
    pose proof (total_pages_lt s W).
    destruct x; simpl; [apply IH; [lia|by eapply scan_inv_used]|].
    assert (Hrl : 0 <= rl < total_pages s) by (destruct Hinv as (?&?&?&?&?); lia).
    rewrite u64_small by lia.
    destruct (scan_inv_free _ _ _ _ _ Hx Hinv) as (A & B & C & D & E).
    set (rs' := if rl =? 0 then i else rs) in *.
    destruct (Z.eqb_spec (rl + 1) count) as [<-|Hne]; [|apply IH; [lia|auto]].
    wp_steps. apply take_pages_wp; [done|done|lia|by rewrite Z2Nat.id by lia|].
    rewrite Z2Nat.id by lia. intros s' W' P' F'.
    pose proof (pages_set_total _ _ _ _ _ P') as T. destruct (P') as [(_&_&_&Hh&_) _].
    apply phys_to_virt_wp; [done|rewrite T; lia|]. left. exists rs'.
    unfold page_addr. rewrite Hh. split_and!; try done; lia.
Qed.

Lemma pmm_alloc_pages_wp s count :
  pmm_wf s → 0 < count → wp (pmm_alloc_pages count) (alloc_post s count) s.
Proof.
  intros W Hc. unfold pmm_alloc_pages, pmm_alloc_pages_locked. wp_steps. pose proof (wf_cover s W).
  apply pmm_alloc_pages_loop_wp; [done|lia|].
  unfold scan_inv. simpl. split_and!; lia || (intros k Hk; lia).
Qed.

(** A request for no pages finds nothing. *)
Lemma pmm_alloc_pages_zero_wp s (Q : Z → pmm → Prop) :
  pmm_wf s → Q 0 s → wp (pmm_alloc_pages 0) Q s.
Proof.
  intros W HQ. unfold pmm_alloc_pages, pmm_alloc_pages_locked. wp_steps. pose proof (wf_cover s W).
  pose proof (total_pages_lt s W).
  assert (G : ∀ n i rs rl, 0 <= rl <= i → i + Z.of_nat n = total_pages s →
    wp (pmm_alloc_pages_loop n i 0 rs rl) Q s); [|apply G; lia].
  intros n. induction n as [|n IH]; intros i rs rl Hrl Hi; simpl; [by wp_steps|]. wp_steps.
  destruct (page_bit_Some s i W) as [x Hx]; [lia|]. eapply bitmap_test_wp; [exact Hx|].
  destruct x; simpl; [apply IH; lia|]. rewrite u64_small by lia.
  destruct (Z.eqb_spec (rl + 1) 0); [lia|]. apply IH; lia.
Qed.

Lemma pmm_free_pages_wp s j count (Q : unit → pmm → Prop) :
  pmm_wf s → 0 < count → 0 <= j → j + count <= total_pages s →
  (∀ s', pmm_wf s' → pages_set s s' j count false → Q tt s') →
  wp (pmm_free_pages (page_addr s j) count) Q s.
Proof.
  intros W Hc Hj Hjc HQ. unfold pmm_free_pages, virt_to_phys. destruct (wf_hhdm s W) as (?&?&?).
  destruct (Z.eqb_spec (page_addr s j) 0) as [E|_]; [unfold page_addr, PAGE_SIZE in E; lia|].
  destruct (Z.eqb_spec count 0); [lia|]. simpl. wp_steps.
  rewrite virt_page by (done || lia).
  destruct (Z.leb_spec (total_pages s) j), (Z.ltb_spec (total_pages s - j) count); try lia. simpl.
  apply (set_pages_wp release_page false); eauto using release_page_wp; [lia|].
  rewrite Z2Nat.id by lia. eauto.
Qed.

(** ** Properties *)

(** C33 (functional) [pmm_alloc_pages, pmm_alloc_pages_locked, pmm_alloc_pages_loop]
    In a well-formed allocator pmm_alloc_pages(count) never goes out of bounds and
    is first fit: it returns the direct-map address of the lowest run of count free
    pages, marks exactly those pages, lowers the free count by count and keeps the
    invariant; it returns NULL, with nothing changed, only when no such run exists. *)
Theorem pmm_alloc_pages_first_fit (s : pmm) (count : Z)
  (W : pmm_wf s) (Hc : 0 < count) :
  ∃ p s', pmm_alloc_pages count s = Some (p, s') ∧ alloc_post s count p s'.
Proof.
  apply wp_run. by apply pmm_alloc_pages_wp.
Qed.

(** pmm_alloc_page, the specialised single-page search, is pmm_alloc_pages(1) in
    every state, runs that go wrong included. *)
Lemma pmm_alloc_page_is_pages_1 (s : pmm) : pmm_alloc_page s = pmm_alloc_pages 1 s.
Proof.
  unfold pmm_alloc_page, pmm_alloc_pages, pmm_alloc_pages_locked, gets, mbind, M_bind.
  assert (G : ∀ n i rs, pmm_alloc_page_loop n i s = pmm_alloc_pages_loop n i 1 rs 0 s); [|apply G].
  intros n. induction n as [|n IH]; intros i rs; [done|]. simpl.
  change (u64 (0 + 1) =? 1) with true. unfold mbind, M_bind.
  destruct (bitmap_test i s) as [[t s1]|] eqn:E; [|done].
  assert (s1 = s) as ->.
  { unfold bitmap_test, gets, lift, mbind, M_bind, mret, M_ret in E. simpl in E. destruct (bitmap s !!z (i / 8)); by simplify_eq. }
  destruct t; simpl; [apply IH|]. unfold mret, M_ret.
  destruct (bitmap_set i s) as [[[] s2]|]; [done|done].
Qed.

(** pmm_free_pages on a non-NULL pointer in a well-formed allocator: when the page
    range lies inside memory it clears exactly the bits of the range and counts
    only pages that were in use, so that the invariant is kept even on a double
    free; otherwise it leaves the state as it was. *)
Lemma pmm_free_pages_spec (s : pmm) (pages count : Z)
  (W : pmm_wf s) (Hp : pages ≠ 0) (Hc : 0 < count) :
  let j := u64 (pages - hhdm_offset s) / PAGE_SIZE in
  ∃ s', pmm_free_pages pages count s = Some (tt, s') ∧ pmm_wf s' ∧
        if decide (j + count <= total_pages s) then pages_set s s' j count false else s' = s.
Proof.
  intros j. pose proof (wf_cover s W).
  assert (0 <= j) by (apply Z.div_pos; [apply u64_range|done]).
  cut (wp (pmm_free_pages pages count) (λ _ s', pmm_wf s' ∧
         if decide (j + count <= total_pages s) then pages_set s s' j count false else s' = s) s).
  { intros ([] & s' & ? & ?)%wp_run. eauto. }
  unfold pmm_free_pages, virt_to_phys.
  destruct (Z.eqb_spec pages 0), (Z.eqb_spec count 0); try lia. simpl. wp_steps. fold j.
  destruct (Z.leb_spec (total_pages s) j), (Z.ltb_spec (total_pages s - j) count),
    (decide (j + count <= total_pages s)); try lia; simpl; try (wp_steps; done).
  apply (set_pages_wp release_page false); eauto using release_page_wp; [lia|].
  rewrite Z2Nat.id by lia. eauto.
Qed.

(** Freeing what pmm_alloc_pages returned, with the same count, restores the
    allocator's state exactly: bitmap bytes, counts and limits. *)
Lemma pmm_alloc_free (s s1 : pmm) (count p : Z)
  (W : pmm_wf s) (Hc : 0 < count)
  (Ha : pmm_alloc_pages count s = Some (p, s1)) (Hp : p ≠ 0) :
  pmm_free_pages p count s1 = Some (tt, s).
Proof.
  assert (P : alloc_post s count p s1).
  { pose proof (pmm_alloc_pages_wp s count W Hc) as P. unfold wp in P. by rewrite Ha in P. }
  destruct P as [(j & Hj & Hjc & -> & Hrun & _ & P & F & W1)|(-> & _)]; [|done].
  pose proof (pages_set_total _ _ _ _ _ P) as T. pose proof P as [(_&_&_&Hh&_) Hbit].
  cut (wp (pmm_free_pages (page_addr s j) count) (λ _ s', s' = s) s1).
  { intros ([] & s' & ? & ->)%wp_run. done. }
  replace (page_addr s j) with (page_addr s1 j) by (unfold page_addr; by rewrite Hh).
  apply pmm_free_pages_wp; [done|done|done|lia|].
  intros s2 W2 [F2 Hbit2]. destruct P as [F1 _].
  apply pmm_state_ext; [done|done|unfold same_frame in *; naive_solver congruence|].
  intros i Hi. rewrite Hbit2, Hbit by done. repeat destruct decide; try done.
  by rewrite Hrun.
Qed.

(** ** Lemmas: boot *)
Lemma count_free_as b P n :
  (∀ i, 0 <= i < Z.of_nat n → bit_of b i = Some (negb (P i))) → count_free b n = count_pages P n.
Proof.
  induction n as [|n IH]; intros H; [done|]. simpl. rewrite IH by (intros; apply H; lia).
  rewrite H by lia. by destruct (P (Z.of_nat n)).
Qed.

(** The top of memory is the largest end of a usable entry. *)
Lemma highest_usable_spec es :
  Forall (λ e, me_usable e = true → 0 <= me_base e ∧ 0 <= me_length e ∧ me_base e + me_length e < 2 ^ 52) es →
  0 <= highest_usable es < 2 ^ 52 ∧
  Forall (λ e, me_usable e = true → me_base e + me_length e <= highest_usable es) es.
Proof.
  unfold highest_usable.
  assert (G : ∀ es h, 0 <= h < 2 ^ 52 →
    Forall (λ e, me_usable e = true → 0 <= me_base e ∧ 0 <= me_length e ∧ me_base e + me_length e < 2 ^ 52) es →
    h <= foldl highest_step h es < 2 ^ 52 ∧
    Forall (λ e, me_usable e = true → me_base e + me_length e <= foldl highest_step h es) es).
  { clear es. intros es. induction es as [|e es IH]; intros h Hh F.
    - split; [simpl; lia|constructor].
    - apply list.Forall_cons in F as [He F]. cbn [foldl].
      assert (Hs : h <= highest_step h e < 2 ^ 52 ∧
                   (me_usable e = true → me_base e + me_length e <= highest_step h e)).
      { unfold highest_step. destruct (me_usable e); [|split; [lia|congruence]].
        destruct (He eq_refl) as (?&?&?). rewrite u64_small by lia. cbv zeta.
        destruct (Z.ltb_spec h (me_base e + me_length e)); split; intros; lia. }
      destruct (IH (highest_step h e) ltac:(lia) F) as [? ?]. split; [lia|].
      apply list.Forall_cons. split; [intros U; destruct Hs as [_ Hs]; specialize (Hs U); lia|done]. }
  intros F. destruct (G es 0 ltac:(lia) F) as [? ?]. split; [lia|done].
Qed.

Lemma bit_of_replicate n i :
  0 <= i < 8 * Z.of_nat n → bit_of (replicate n 255) i = Some true.
Proof.
  intros Hi. unfold bit_of, lookupZ. pose proof (Z.mod_pos_bound i 8).
  assert (0 <= i / 8 < Z.of_nat n) by (split; [apply Z.div_pos; lia|apply Z.div_lt_upper_bound; lia]).
  destruct (Z.ltb_spec (i / 8) 0); [lia|]. rewrite lookup_replicate_2 by lia. simpl. f_equal.
  change 255 with (Z.ones 8). apply Z.ones_spec_low. lia.
Qed.

Lemma bi_bitmap_size_cover h : 0 <= h → 0 <= h / PAGE_SIZE <= 8 * ((h / PAGE_SIZE + 7) / 8).
Proof.
  intros H. pose proof (Z.div_pos h PAGE_SIZE H eq_refl). pose proof (Z.div_mod (h / PAGE_SIZE + 7) 8).
  pose proof (Z.mod_pos_bound (h / PAGE_SIZE + 7) 8). lia.
Qed.

(** The state in which [pmm_init] starts clearing bits. *)
Definition pmm_init0 (bi : boot_info) : pmm :=
  let highest := highest_usable (bi_memmap bi) in
  let size := (highest / PAGE_SIZE + 7) / 8 in
  Pmm (replicate (Z.to_nat size) 255) size highest 0 0 (bi_hhdm bi).

Lemma pmm_init0_wf bi : boot_ok bi → pmm_wf (pmm_init0 bi).
Proof.
  intros B. destruct (highest_usable_spec (bi_memmap bi)) as [Hh _].
  { eapply Forall_impl; [|exact (bo_aligned bi B)]. simpl. naive_solver. }
  pose proof (bi_bitmap_size_cover (highest_usable (bi_memmap bi)) ltac:(lia)) as Hc.
  set (size := (highest_usable (bi_memmap bi) / PAGE_SIZE + 7) / 8) in *.
  constructor; unfold pmm_init0, total_pages; simpl; fold size; try lia.
  - apply Forall_replicate. unfold is_byte. lia.
  - rewrite length_replicate. lia.
  - rewrite (count_free_as _ (λ _, false)).
    + generalize (Z.to_nat (highest_usable (bi_memmap bi) / PAGE_SIZE)). intros n. induction n; simpl; lia.
    + intros i Hi. simpl. apply bit_of_replicate. lia.
  - apply B.
Qed.

(** After the entries [es]: their pages are free, and both counters agree. *)
Definition init_inv (s0 : pmm) (es : list memmap_entry) (s : pmm) : Prop :=
  pmm_wf s ∧ usable_pages s = free_pages s ∧
  (bitmap_size s = bitmap_size s0 ∧ highest_addr s = highest_addr s0 ∧ hhdm_offset s = hhdm_offset s0) ∧
  ∀ i, 0 <= i < total_pages s0 → page_bit s i = Some (negb (usable_page es i)).

Lemma set_usable_wf n s : pmm_wf s → pmm_wf (set_usable_pages n s).
Proof. intros []. by constructor. Qed.

Lemma usable_page_snoc l e i : usable_page (l ++ [e]) i = usable_page l i || entry_has e i.
Proof. unfold usable_page. rewrite existsb_app. simpl. by rewrite orb_false_r. Qed.

Lemma page_bit_total s s' : highest_addr s = highest_addr s' → total_pages s = total_pages s'.
Proof. unfold total_pages. by intros ->. Qed.

(** Clearing the pages of one entry, [k] being the first page not yet done. *)
Definition entry_inv (s0 : pmm) (l1 : list memmap_entry) (start k : Z) (s : pmm) : Prop :=
  pmm_wf s ∧ usable_pages s = free_pages s ∧
  (bitmap_size s = bitmap_size s0 ∧ highest_addr s = highest_addr s0 ∧ hhdm_offset s = hhdm_offset s0) ∧
  ∀ i, 0 <= i < total_pages s0 →
    page_bit s i = Some (negb (usable_page l1 i || (start <=? i) && (i <? k))).

Lemma init_page_wp s0 l1 start k s :
  0 <= start <= k → k < total_pages s0 → usable_page l1 k = false →
  entry_inv s0 l1 start k s →
  wp (bitmap_clear k;; inc_free_pages;; modify (λ s, set_usable_pages (u64 (usable_pages s + 1)) s))
     (λ _ s', entry_inv s0 l1 start (k + 1) s') s.
Proof.
  intros Hk Hkt Hu (W & E & (F1 & F2 & F3) & B).
  assert (T : total_pages s = total_pages s0) by (by apply page_bit_total).
  cut (wp (bitmap_clear k;; inc_free_pages)
         (λ _ s', entry_inv s0 l1 start (k + 1) (set_usable_pages (u64 (usable_pages s' + 1)) s')) s).
  { unfold wp, mbind, M_bind, modify. destruct (bitmap_clear k s) as [[[] s1]|]; [|done].
    by destruct (inc_free_pages s1) as [[[] s2]|]. }
  apply clear_page_wp; [done|lia| |].
  - rewrite B by lia. rewrite Hu. destruct (Z.ltb_spec k k); [lia|]. by rewrite andb_false_r.
  - intros s' W' [(E1&E2&E3&E4&E5) B'] Fr.
    split_and!; simpl; [by apply set_usable_wf| |congruence|congruence|congruence|].
    + pose proof (wf_count s' W'). pose proof (count_free_bound (bitmap s') (Z.to_nat (total_pages s'))).
      pose proof (total_pages_lt s' W'). pose proof (wf_cover s' W').
      rewrite u64_small; lia.
    + intros i Hi. change (page_bit s' i = Some (negb (usable_page l1 i || (start <=? i) && (i <? k + 1)))).
      rewrite B' by lia. destruct (decide (k <= i < k + 1)) as [Hik|Hik].
      * assert (i = k) as -> by lia. destruct (Z.leb_spec start k), (Z.ltb_spec k (k + 1)); try lia.
        by rewrite orb_true_r.
      * rewrite B by done. destruct (Z.ltb_spec i k), (Z.ltb_spec i (k + 1)); try lia; done.
Qed.

Lemma init_usable_wp bi l1 e l2 s :
  boot_ok bi → bi_memmap bi = l1 ++ e :: l2 → init_inv (pmm_init0 bi) l1 s →
  wp (init_usable e) (λ _ s', init_inv (pmm_init0 bi) (l1 ++ [e]) s') s.
Proof.
  intros B El (W & E & F & P).
  pose proof (bo_aligned bi B) as A. rewrite El in A. apply Forall_app in A as [_ [He _]%list.Forall_cons].
  assert (Hall : Forall (λ e, me_usable e = true → 0 <= me_base e ∧ 0 <= me_length e ∧
                           me_base e + me_length e < 2 ^ 52) (bi_memmap bi)).
  { eapply Forall_impl; [|exact (bo_aligned bi B)]. simpl. naive_solver. }
  apply highest_usable_spec in Hall as [_ Hall]. rewrite El in Hall.
  apply Forall_app in Hall as [_ [Hh _]%list.Forall_cons]. rewrite <- El in Hh.
  unfold init_usable. destruct (me_usable e) eqn:U; cycle 1.
  { wp_steps. split_and!; try apply F; try done. intros i Hi. rewrite P by done. rewrite usable_page_snoc.
    unfold entry_has. by rewrite U, orb_false_r. }
  destruct (He eq_refl) as (Ha & Hb & Hl & _). specialize (Hh eq_refl).
  set (start := me_base e / PAGE_SIZE) in *. set (n := me_length e / PAGE_SIZE).
  assert (0 <= start) by (apply Z.div_pos; done). assert (0 <= n) by (apply Z.div_pos; done).
  assert (Hfit : start + n <= total_pages (pmm_init0 bi)).
  { unfold total_pages, pmm_init0. simpl. subst start n.
    apply Z.div_le_lower_bound; [done|].
    pose proof (Z.div_mod (me_base e) PAGE_SIZE ltac:(done)).
    pose proof (Z.mul_div_le (me_length e) PAGE_SIZE ltac:(done)). lia. }
  eapply wp_mono; [apply (wp_for_range _ start _ (entry_inv (pmm_init0 bi) l1 start))|].
  - split_and!; try apply F; try done. intros i Hi. rewrite P by done. f_equal. f_equal.
    destruct (Z.leb_spec start i), (Z.ltb_spec i start); try lia; by rewrite orb_false_r.
  - intros k t Hk. rewrite Z2Nat.id in Hk by done. apply init_page_wp; [lia|lia|].
    apply (bo_disjoint bi B l1 e l2 k El). unfold entry_has. rewrite U. fold start n.
    destruct (Z.leb_spec start k), (Z.ltb_spec k (start + n)); try lia; done.
  - intros [] t (Wt & Et & Ft & Pt). split_and!; try apply Ft; try done.
    intros i Hi. rewrite Pt by done. rewrite usable_page_snoc, Z2Nat.id by done.
    unfold entry_has. by rewrite U.
Qed.

Lemma longest_usable_nonneg es :
  Forall (λ e, me_usable e = true → 0 <= me_base e) es → 0 <= fst (longest_usable es).
Proof.
  unfold longest_usable. set (f := λ '(phys, best) (e : memmap_entry), _).
  assert (G : ∀ es acc, 0 <= fst acc → Forall (λ e, me_usable e = true → 0 <= me_base e) es →
    0 <= fst (foldl f acc es)); [|by apply G].
  clear es. intros es. induction es as [|e es IH]; intros [p b] Hp F; [done|].
  apply list.Forall_cons in F as [He F]. cbn [foldl]. apply IH; [|done]. unfold f.
  destruct (me_usable e); simpl; [|done]. destruct (b <? me_length e); simpl; [by apply He|done].
Qed.

(** The reserved ranges lie inside memory. *)
Lemma reserved_range_ok bi :
  boot_ok bi →
  0 <= bi_bitmap_page bi ∧ 0 <= bi_bitmap_pages bi ∧ 0 <= bi_kstart_page bi ∧
  bi_kstart_page bi + Z.of_nat (Z.to_nat (bi_kend_page bi - bi_kstart_page bi)) <=
    Z.max (bi_kstart_page bi) (highest_usable (bi_memmap bi) / PAGE_SIZE).
Proof.
  intros B. pose proof (bo_kernel bi B). split_and!.
  - apply Z.div_pos; [|done]. apply longest_usable_nonneg.
    eapply Forall_impl; [|exact (bo_aligned bi B)]. simpl. naive_solver.
  - destruct (highest_usable_spec (bi_memmap bi)) as [Hh _].
    { eapply Forall_impl; [|exact (bo_aligned bi B)]. simpl. naive_solver. }
    apply Z.div_pos; [|done]. pose proof (bi_bitmap_size_cover (highest_usable (bi_memmap bi)) ltac:(lia)).
    unfold PAGE_SIZE in *. lia.
  - apply Z.div_pos; [apply u64_range|done].
  - lia.
Qed.

(** C39 (invariant) [pmm_init, init_usable, reserve_page, highest_usable, longest_usable, bitmap_set, bitmap_clear, bitmap_test]
    Booted on a sane memory map, pmm_init succeeds and establishes the allocator's
    invariant; a page is free exactly when it lies in a usable entry and is neither
    part of the bitmap nor of the kernel image, and both counters are the true counts. *)
Theorem pmm_init_establishes (bi : boot_info) (s : pmm) (B : boot_ok bi) :
  ∃ s', pmm_init bi s = Some (tt, s') ∧ pmm_wf s' ∧
    highest_addr s' = highest_usable (bi_memmap bi) ∧
    (∀ i, 0 <= i < total_pages s' →
       page_bit s' i = Some (negb (usable_page (bi_memmap bi) i && negb (reserved_page bi i)))) ∧
    usable_pages s' = count_pages (usable_page (bi_memmap bi)) (Z.to_nat (total_pages s')) ∧
    free_pages s' = count_pages (λ i, usable_page (bi_memmap bi) i && negb (reserved_page bi i))
                      (Z.to_nat (total_pages s')).
Proof.
  cut (wp (pmm_init bi) (λ _ s', pmm_wf s' ∧ highest_addr s' = highest_usable (bi_memmap bi) ∧
         usable_pages s' = count_pages (usable_page (bi_memmap bi)) (Z.to_nat (total_pages s')) ∧
         ∀ i, 0 <= i < total_pages s' →
           page_bit s' i = Some (negb (usable_page (bi_memmap bi) i && negb (reserved_page bi i)))) s).
  { intros ([] & s' & ? & W & ? & ? & Hb)%wp_run. exists s'. split_and!; try done.
    rewrite (wf_count s' W). apply count_free_as. pose proof (wf_cover s' W). intros i Hi. apply Hb. lia. }
  unfold pmm_init. destruct (Z.eqb_spec (fst (longest_usable (bi_memmap bi))) 0) as [E|_];
    [by destruct (bo_bitmap bi B)|].
  wp_steps. fold (pmm_init0 bi). pose proof (pmm_init0_wf bi B) as W0.
  eapply wp_mono; [apply (wp_forM _ _ (init_inv (pmm_init0 bi)))|].
  { split_and!; try done. intros i Hi. unfold page_bit, pmm_init0. simpl. apply bit_of_replicate.
    pose proof (wf_cover _ W0) as C. simpl in C. rewrite length_replicate in C. lia. }
  { intros. by eapply init_usable_wp. }
  intros [] s1 (W1 & E1 & (F1 & F2 & F3) & P1). wp_steps.
  fold (bi_bitmap_pages bi) (bi_bitmap_page bi). fold (bi_kstart_page bi) (bi_kend_page bi).
  assert (T1 : total_pages s1 = highest_usable (bi_memmap bi) / PAGE_SIZE) by (by unfold total_pages; rewrite F2).
  assert (U1 : usable_pages s1 = count_pages (usable_page (bi_memmap bi)) (Z.to_nat (total_pages s1))).
  { rewrite E1, (wf_count s1 W1). apply count_free_as. pose proof (wf_cover s1 W1). intros i Hi.
    apply P1. rewrite <- (page_bit_total _ _ F2). lia. }
  destruct (reserved_range_ok bi B) as (Ha & Hb & Hc & Hd). pose proof (bo_bitmap_fits bi B). rewrite <- T1 in *.
  apply (set_pages_wp reserve_page true); eauto using reserve_page_wp; [lia|].
  intros s2 W2 P2. pose proof (pages_set_total _ _ _ _ _ P2) as T2. rewrite Z2Nat.id in P2 by done.
  apply (set_pages_wp reserve_page true); eauto using reserve_page_wp; [rewrite T2; lia|].
  intros s3 W3 P3. pose proof (pages_set_total _ _ _ _ _ P3) as T3.
  destruct P2 as [(_&G2&H2&_) B2], P3 as [(_&G3&H3&_) B3].
  split_and!; [done|by rewrite G3, G2, F2|by rewrite H3, H2, T3, T2|]. intros i Hi.
  rewrite B3, B2, P1 by (rewrite <- ?(page_bit_total _ _ F2); lia).
  unfold reserved_page.
  destruct (Z.leb_spec (bi_bitmap_page bi) i), (Z.ltb_spec i (bi_bitmap_page bi + bi_bitmap_pages bi)),
    (Z.leb_spec (bi_kstart_page bi) i), (Z.ltb_spec i (bi_kend_page bi)); repeat destruct decide; try lia; simpl;
    rewrite ?andb_false_r, ?andb_true_r; done.
Qed.

(** ** Witnesses *)

(** Sixteen pages, the first two in use. *)
Definition demo_pmm : pmm := Pmm [3; 0] 2 (16 * PAGE_SIZE) 14 14 (2 ^ 47).

Lemma demo_pmm_wf : pmm_wf demo_pmm.
Proof. constructor; [repeat constructor; done|vm_compute; repeat split; congruence ..]. Qed.

Lemma pmm_alloc_pages_first_fit_witness :
  ∃ p s', pmm_alloc_pages 3 demo_pmm = Some (p, s') ∧ alloc_post demo_pmm 3 p s'.
Proof. apply (pmm_alloc_pages_first_fit demo_pmm 3 demo_pmm_wf). reflexivity. Defined.

Lemma pmm_free_pages_spec_witness :
  ∃ s', pmm_free_pages (2 ^ 47 + 4096) 1 demo_pmm = Some (tt, s') ∧ pmm_wf s' ∧
        if decide (1 + 1 <= total_pages demo_pmm) then pages_set demo_pmm s' 1 1 false else s' = demo_pmm.
Proof. apply (pmm_free_pages_spec demo_pmm (2 ^ 47 + 4096) 1 demo_pmm_wf); [discriminate|reflexivity]. Defined.

Lemma pmm_alloc_free_witness :
  pmm_free_pages (2 ^ 47 + 2 * 4096) 3 (Pmm [31; 0] 2 (16 * PAGE_SIZE) 11 14 (2 ^ 47)) = Some (tt, demo_pmm).
Proof.
  apply (pmm_alloc_free demo_pmm (Pmm [31; 0] 2 (16 * PAGE_SIZE) 11 14 (2 ^ 47)) 3 (2 ^ 47 + 2 * 4096)
    demo_pmm_wf); [reflexivity|vm_compute; reflexivity|discriminate].
Defined.

(** A machine with usable memory at pages 1-15 and 32-39, the kernel at 3-4. *)
Definition demo_boot : boot_info :=
  BootInfo [MemmapEntry 4096 (15 * 4096) true; MemmapEntry (16 * 4096) (16 * 4096) false;
            MemmapEntry (32 * 4096) (8 * 4096) true]
           (2 ^ 47) (2 ^ 63) (2 ^ 63 + 2 * 4096) (2 ^ 63) (3 * 4096).

Lemma demo_boot_ok : boot_ok demo_boot.
Proof.
  constructor.
  - repeat constructor; vm_compute; repeat split; congruence || done.
  - intros l1 e l2 i E Hi. simpl in E.
    destruct l1 as [|? [|? [|? l1]]]; simplify_eq/=; try (by destruct l1);
      unfold entry_has, usable_page, PAGE_SIZE in *; simpl in *; [done|];
      Z.div_mod_to_equations; lia.
  - done.
  - vm_compute; done.
  - vm_compute; done.
  - vm_compute; done.
Qed.

Lemma pmm_init_establishes_witness :
  ∃ s', pmm_init demo_boot demo_pmm = Some (tt, s') ∧ pmm_wf s' ∧
    highest_addr s' = highest_usable (bi_memmap demo_boot) ∧
    (∀ i, 0 <= i < total_pages s' →
       page_bit s' i = Some (negb (usable_page (bi_memmap demo_boot) i && negb (reserved_page demo_boot i)))) ∧
    usable_pages s' = count_pages (usable_page (bi_memmap demo_boot)) (Z.to_nat (total_pages s')) ∧
    free_pages s' = count_pages (λ i, usable_page (bi_memmap demo_boot) i && negb (reserved_page demo_boot i))
                      (Z.to_nat (total_pages s')).
Proof. apply (pmm_init_establishes demo_boot demo_pmm demo_boot_ok). Defined.
