(* ===== verification/Heap.v ===== *)
(** * kernel/memory/heap.c: the kernel heap

    A heap block is a run of whole pages with a 16-byte header in front of the
    bytes handed out.  The state is the page allocator and the memory behind it.

    [KernelMem] is the interface the rest of the kernel uses memory through: page
    runs and heap blocks as resources that are created and consumed, blocks that
    do not overlap, contents that other operations leave alone.  [heap_kernel_mem]
    shows that heap.c on top of pmm.c implements it. *)
From S2P Require Import Prelude RawMem Pmm.
Local Open Scope kernel_scope.

(** ** The interface *)

(** [inv h runs blocks]: in state [h] exactly the page runs [runs] (address, page
    count) and the heap blocks [blocks] (pointer, size) are handed out. *)
Class KernelMem (H : Type) := {
  km_inv : H → list (Z * Z) → list (Z * Z) → Prop;
  km_byte : H → Z → Z;
  km_alloc_pages : Z → M H Z;
  km_free_pages : Z → Z → M H unit;
  km_kmalloc : Z → M H Z;
  km_kfree : Z → M H unit;
  km_krealloc : Z → Z → M H Z
}.

(** The bytes of every block of [blocks] are the same in [h] and [h']. *)
Definition same_bytes `{KernelMem H} (h h' : H) (blocks : list (Z * Z)) : Prop :=
  ∀ p n a, (p, n) ∈ blocks → p <= a < p + n → km_byte h' a = km_byte h a.

(** The laws a client relies on. *)
Class KernelMemLaws (H : Type) `{KernelMem H} := {
  km_perm h runs runs' blocks blocks' :
    runs ≡ₚ runs' → blocks ≡ₚ blocks' → km_inv h runs blocks → km_inv h runs' blocks';
  km_disjoint h runs p n q m blocks :
    km_inv h runs ((p, n) :: (q, m) :: blocks) → p + n <= q ∨ q + m <= p;
  km_block_size h runs p n blocks : km_inv h runs ((p, n) :: blocks) → p ≠ 0 ∧ 0 <= n < 2 ^ 52;
  km_run_nodup h a c c' runs blocks : km_inv h ((a, c) :: (a, c') :: runs) blocks → False;
  km_alloc_pages_law h runs blocks count (Q : Z → H → Prop) :
    km_inv h runs blocks → 0 < count →
    Q 0 h →
    (∀ p h', p ≠ 0 → km_inv h' ((p, count) :: runs) blocks → same_bytes h h' blocks → Q p h') →
    wp (km_alloc_pages count) Q h;
  km_free_pages_law h p count runs blocks (Q : unit → H → Prop) :
    km_inv h ((p, count) :: runs) blocks →
    (∀ h', km_inv h' runs blocks → same_bytes h h' blocks → Q tt h') →
    wp (km_free_pages p count) Q h;
  km_kmalloc_law h runs blocks n (Q : Z → H → Prop) :
    km_inv h runs blocks → 0 <= n < 2 ^ 64 →
    Q 0 h →
    (∀ p h', p ≠ 0 → km_inv h' runs ((p, n) :: blocks) → same_bytes h h' blocks → Q p h') →
    wp (km_kmalloc n) Q h;
  km_kfree_law h runs p n blocks (Q : unit → H → Prop) :
    km_inv h runs ((p, n) :: blocks) →
    (∀ h', km_inv h' runs blocks → same_bytes h h' blocks → Q tt h') →
    wp (km_kfree p) Q h;
  (** [krealloc] of a live block: NULL with nothing changed, or a new block that
      starts with the bytes of the old one, which is gone. *)
  km_krealloc_law h runs p n n' blocks (Q : Z → H → Prop) :
    km_inv h runs ((p, n) :: blocks) → 0 < n' < 2 ^ 64 →
    Q 0 h →
    (∀ p' h', p' ≠ 0 → km_inv h' runs ((p', n') :: blocks) → same_bytes h h' blocks →
       (∀ k, 0 <= k < n → k < n' → km_byte h' (p' + k) = km_byte h (p + k)) → Q p' h') →
    wp (km_krealloc p n') Q h;
  (** [krealloc(NULL, n)] is [kmalloc(n)]. *)
  km_krealloc_null n : km_krealloc 0 n = km_kmalloc n
}.

Lemma km_perm_blocks `{KernelMemLaws H} (h : H) runs blocks blocks' :
  km_inv h runs blocks → blocks ≡ₚ blocks' → km_inv h runs blocks'.
Proof. intros I P. eapply km_perm; [reflexivity|exact P|exact I]. Qed.

(** Memory as a field of a larger state. *)
Section Lens.
Context {S T : Type} `{KM : KernelMem T} (prj : S → T) (upd : T → S → S).
Definition lens_mem : KernelMem S := {|
  km_inv s := km_inv (prj s);
  km_byte s := km_byte (prj s);
  km_alloc_pages n := zoom prj upd (km_alloc_pages n);
  km_free_pages p n := zoom prj upd (km_free_pages p n);
  km_kmalloc n := zoom prj upd (km_kmalloc n);
  km_kfree p := zoom prj upd (km_kfree p);
  km_krealloc p n := zoom prj upd (km_krealloc p n)
|}.
Lemma lens_mem_laws `{KL : !KernelMemLaws T} :
  (∀ t s, prj (upd t s) = t) → (∀ s, upd (prj s) s = s) → @KernelMemLaws S lens_mem.
Proof.
  intros PU UP. constructor; unfold same_bytes; cbn [km_inv km_byte km_alloc_pages km_free_pages km_kmalloc km_kfree km_krealloc lens_mem].
  - intros s. apply km_perm.
  - intros s. apply km_disjoint.
  - intros s. apply km_block_size.
  - intros s. apply km_run_nodup.
  - intros s runs blocks count Q I Hc H0 HQ. apply wp_zoom. eapply km_alloc_pages_law; [exact I|done|by rewrite UP|].
    intros p t Hp It Sb. apply HQ; by rewrite ?PU.
  - intros s p count runs blocks Q I HQ. apply wp_zoom. eapply km_free_pages_law; [exact I|]. intros t It Sb. apply HQ; by rewrite ?PU.
  - intros s runs blocks n Q I Hn H0 HQ. apply wp_zoom. eapply km_kmalloc_law; [exact I|done|by rewrite UP|].
    intros p t Hp It Sb. apply HQ; by rewrite ?PU.
  - intros s runs p n blocks Q I HQ. apply wp_zoom. eapply km_kfree_law; [exact I|]. intros t It Sb. apply HQ; by rewrite ?PU.
  - intros s runs p n n' blocks Q I Hn H0 HQ. apply wp_zoom. eapply km_krealloc_law; [exact I|done|by rewrite UP|].
    intros p' t Hp It Sb Hcp. apply HQ; rewrite ?PU; done.
  - intros n. by rewrite km_krealloc_null.
Qed.
End Lens.

(** The [n] bytes memory holds at [p]. *)
Fixpoint bytes_at `{KernelMem H} (n : nat) (p : Z) (h : H) : list Z :=
  match n with O => [] | S n' => km_byte h p :: bytes_at n' (p + 1) h end.

(** ** The implementation *)

Record heap := Heap { hp_pmm : pmm; hp_mem : mem }.

Definition on_pmm {A} (m : M pmm A) : M heap A := zoom hp_pmm (λ p h, Heap p (hp_mem h)) m.
Definition on_mem (f : mem → mem) : M heap unit := modify (λ h, Heap (hp_pmm h) (f (hp_mem h))).

Definition SIZE_MAX : Z := 2 ^ 64 - 1.
(** [sizeof(HeapBlockHeader)]. [kernel/memory/heap.c 3-7] *)
Definition HEADER_SIZE : Z := 16.

(** [kernel/memory/heap.c: heap_get_block_count] *)
Definition heap_get_block_count (size : Z) : Z :=
  if SIZE_MAX - HEADER_SIZE <? size then 0
  else
    let size := u64 (size + HEADER_SIZE) in
    u64 (size + PAGE_SIZE - 1) / PAGE_SIZE.

(** [kernel/memory/heap.c: kmalloc] *)
Definition kmalloc (size : Z) : M heap Z :=
  ptr ← on_pmm (pmm_alloc_pages (heap_get_block_count size));
  if ptr =? 0 then mret 0
  else on_mem (store64 ptr size);; mret (ptr + HEADER_SIZE).

(** [kernel/memory/heap.c: kcalloc] *)
Definition kcalloc (nmemb size : Z) : M heap Z :=
  if negb (size =? 0) && (SIZE_MAX / size <? nmemb) then mret 0
  else
    let final_size := u64 (nmemb * size) in
    ptr ← kmalloc final_size;
    if ptr =? 0 then mret 0
    else on_mem (mem_fill (Z.to_nat final_size) ptr 0);; mret ptr.

(** [kernel/memory/heap.c: kfree] *)
Definition kfree (ptr : Z) : M heap unit :=
  if ptr =? 0 then mret tt
  else
    let header := ptr - HEADER_SIZE in
    size ← gets (λ h, load64 (hp_mem h) header);
    on_pmm (pmm_free_pages header (heap_get_block_count size)).

(** [kernel/memory/heap.c: krealloc] *)
Definition krealloc (ptr new_size : Z) : M heap Z :=
  if ptr =? 0 then kmalloc new_size
  else if new_size =? 0 then kfree ptr;; mret 0
  else
    let header := ptr - HEADER_SIZE in
    new_ptr ← kmalloc new_size;
    if new_ptr =? 0 then mret 0
    else
      size ← gets (λ h, load64 (hp_mem h) header);
      let copy_size := if size <? new_size then size else new_size in
      on_mem (mem_copy (Z.to_nat copy_size) new_ptr ptr);;
      kfree ptr;;
      mret new_ptr.

(** ** Invariant *)

(** Page run [r = (address, count)] is inside memory and marked in use. *)
Definition owns (s : pmm) (r : Z * Z) : Prop :=
  ∃ j, fst r = page_addr s j ∧ 0 <= j ∧ 0 < snd r ∧ j + snd r <= total_pages s ∧
       ∀ k, j <= k < j + snd r → page_bit s k = Some true.
Definition run_disjoint (r r' : Z * Z) : Prop :=
  fst r + snd r * PAGE_SIZE <= fst r' ∨ fst r' + snd r' * PAGE_SIZE <= fst r.
Definition pages_owned (s : pmm) (l : list (Z * Z)) : Prop :=
  Forall (owns s) l ∧ ForallOrdPairs run_disjoint l.

(** The page run behind a heap block. *)
Definition block_run (b : Z * Z) : Z * Z := (fst b - HEADER_SIZE, heap_get_block_count (snd b)).

Record heap_inv (h : heap) (runs blocks : list (Z * Z)) : Prop := {
  hi_wf : pmm_wf (hp_pmm h);
  hi_owned : pages_owned (hp_pmm h) (map block_run blocks ++ runs);
  hi_sizes : Forall (λ b, 0 <= snd b < 2 ^ 64 ∧
                          load64 (hp_mem h) (fst b - HEADER_SIZE) = snd b) blocks
}.

#[export] Instance heap_kernel_mem : KernelMem heap := {
  km_inv := heap_inv;
  km_byte h a := mem_get (hp_mem h) a;
  km_alloc_pages count := on_pmm (pmm_alloc_pages count);
  km_free_pages p count := on_pmm (pmm_free_pages p count);
  km_kmalloc := kmalloc;
  km_kfree := kfree;
  km_krealloc := krealloc
}.

(** ** Lemmas: ownership of page runs *)
Lemma run_disjoint_sym r r' : run_disjoint r r' → run_disjoint r' r.
Proof. unfold run_disjoint. lia. Qed.

Lemma pages_owned_perm s l l' : l ≡ₚ l' → pages_owned s l → pages_owned s l'.
Proof.
  intros P [F D]. split; [by rewrite <- P|]. eapply ForallOrdPairs_perm; eauto using run_disjoint_sym.
Qed.

Lemma page_addr_same s s' j : same_frame s s' → page_addr s' j = page_addr s j.
Proof. intros (_&_&_&E&_). unfold page_addr. by rewrite E. Qed.
Lemma total_pages_same s s' : same_frame s s' → total_pages s' = total_pages s.
Proof. intros (_&E&_). unfold total_pages. by rewrite E. Qed.

Lemma owned_alloc s s' j count l :
  0 < count → 0 <= j → j + count <= total_pages s →
  run_free s j count → pages_set s s' j count true →
  pages_owned s l → pages_owned s' ((page_addr s j, count) :: l).
Proof.
  intros Hc Hj Hjc Hf [F B] [O D].
  assert (Hdisj : Forall (run_disjoint (page_addr s j, count)) l).
  { eapply Forall_impl; [|exact O]. intros r (j' & E & Hj' & Hr & Hjr & Hu).
    unfold run_disjoint. rewrite E. simpl.
    assert (j + count <= j' ∨ j' + snd r <= j) as G.
    { destruct (decide (j + count <= j' ∨ j' + snd r <= j)) as [|N]; [done|].
      pose proof (Hf (Z.max j j') ltac:(lia)) as G1. rewrite Hu in G1 by lia. done. }
    unfold page_addr, PAGE_SIZE. lia. }
  split; [|by constructor]. constructor.
  - exists j. simpl. rewrite (page_addr_same s s'), (total_pages_same s s') by done.
    split_and!; try done. intros k Hk. rewrite B by lia. by rewrite decide_True.
  - eapply Forall_impl; [|exact O]. intros r (j' & E & Hj' & Hr & Hjr & Hu). exists j'.
    rewrite (page_addr_same s s'), (total_pages_same s s') by done. split_and!; try done.
    intros k Hk. rewrite B by lia. destruct decide; [done|]. by apply Hu.
Qed.

Lemma owned_free s s' p count l :
  (∀ j, p = page_addr s j → pages_set s s' j count false) →
  pages_owned s ((p, count) :: l) → pages_owned s' l.
Proof.
  intros Hset [O D]. apply list.Forall_cons in O as [(j & E & Hj & Hc & Hjc & _) O]. simpl in *.
  destruct (Hset j E) as [F B]. apply ForallOrdPairs_cons_iff in D as [Hd D].
  split; [|done]. apply list.Forall_forall. intros r Hr.
  rewrite list.Forall_forall in O. rewrite list.Forall_forall in Hd.
  destruct (O r Hr) as (j' & E' & Hj' & Hr' & Hjr & Hu). specialize (Hd r Hr).
  exists j'. rewrite (page_addr_same s s'), (total_pages_same s s') by done. split_and!; try done.
  intros k Hk. rewrite B by lia. rewrite decide_False; [by apply Hu|].
  unfold run_disjoint in Hd. simpl in Hd. rewrite E, E' in Hd. unfold page_addr, PAGE_SIZE in Hd. lia.
Qed.

Lemma alloc_pages_owned s l count (Q : Z → pmm → Prop) :
  pmm_wf s → pages_owned s l → 0 < count → Q 0 s →
  (∀ p s', 0 < p → pmm_wf s' → pages_owned s' ((p, count) :: l) → Q p s') →
  wp (pmm_alloc_pages count) Q s.
Proof.
  intros W O Hc H0 HQ. eapply wp_mono; [by apply pmm_alloc_pages_wp|].
  intros p s' [(j & Hj & Hjc & -> & Hf & _ & P & _ & W')|(-> & -> & _)]; [|done].
  destruct (wf_hhdm s W) as (?&_&_).
  apply HQ; [unfold page_addr, PAGE_SIZE; lia|done|by eapply owned_alloc].
Qed.

Lemma free_pages_owned s p l count (Q : unit → pmm → Prop) :
  pmm_wf s → pages_owned s ((p, count) :: l) →
  (∀ s', pmm_wf s' → pages_owned s' l → Q tt s') →
  wp (pmm_free_pages p count) Q s.
Proof.
  intros W O HQ. pose proof O as [F _]. apply list.Forall_cons in F as [(j & E & Hj & Hc & Hjc & _) _].
  simpl in *. subst p. apply pmm_free_pages_wp; try done. intros s' W' P. apply HQ; [done|].
  eapply owned_free; [|exact O]. intros j' Ej.
  assert (j' = j) as -> by (unfold page_addr, PAGE_SIZE in Ej; lia). done.
Qed.

(** ** Lemmas: blocks *)

(** A block's run holds the header and the block. *)
Lemma block_count_fits n :
  0 <= n < 2 ^ 64 → 0 < heap_get_block_count n → n + HEADER_SIZE <= heap_get_block_count n * PAGE_SIZE.
Proof.
  unfold heap_get_block_count, SIZE_MAX, HEADER_SIZE, PAGE_SIZE. intros Hn.
  destruct (Z.ltb_spec (2 ^ 64 - 1 - 16) n); [lia|]. cbv zeta. rewrite (u64_small (n + 16)) by lia.
  destruct (Z.ltb_spec (n + 16 + 4096 - 1) (2 ^ 64)).
  - rewrite u64_small by lia. intros _.
    pose proof (Z.div_mod (n + 16 + 4096 - 1) 4096 ltac:(lia)).
    pose proof (Z.mod_pos_bound (n + 16 + 4096 - 1) 4096 ltac:(lia)). lia.
  - intros H1. exfalso. unfold u64 in H1.
    rewrite <- (Z.mod_unique (n + 16 + 4096 - 1) (2 ^ 64) 1 (n + 16 + 4096 - 1 - 2 ^ 64)) in H1 by lia.
    rewrite Z.div_small in H1 by lia. lia.
Qed.

Lemma block_count_nonneg n : 0 <= heap_get_block_count n.
Proof.
  unfold heap_get_block_count. destruct (_ <? n); [done|]. apply Z.div_pos; [apply u64_range|done].
Qed.

(** What the invariant says of one block: its run is as long as it needs to be. *)
Lemma inv_block h runs p n blocks :
  heap_inv h runs ((p, n) :: blocks) →
  0 <= n < 2 ^ 64 ∧ 0 < heap_get_block_count n ∧ n + HEADER_SIZE <= heap_get_block_count n * PAGE_SIZE ∧
  load64 (hp_mem h) (p - HEADER_SIZE) = n ∧ HEADER_SIZE < p.
Proof.
  intros [W [O _] S]. apply list.Forall_cons in O as [(j & E & Hj & Hc & _) _].
  apply list.Forall_cons in S as [[Hn Hl] _]. simpl in *. destruct (wf_hhdm _ W) as (?&_&_).
  split_and!; try done; try lia; [by apply block_count_fits|]. unfold page_addr, PAGE_SIZE in *. lia.
Qed.

(** Two blocks, headers included, do not overlap. *)
Lemma inv_disjoint h runs p n q m blocks :
  heap_inv h runs ((p, n) :: (q, m) :: blocks) →
  p + n <= q - HEADER_SIZE ∨ q + m <= p - HEADER_SIZE.
Proof.
  intros I. pose proof (inv_block _ _ _ _ _ I) as (_ & _ & Hp & _).
  assert (I' : heap_inv h runs ((q, m) :: (p, n) :: blocks)).
  { destruct I as [W O S]. constructor; [done| |].
    - eapply pages_owned_perm; [|exact O]. simpl. apply perm_swap.
    - rewrite !list.Forall_cons in *. naive_solver. }
  pose proof (inv_block _ _ _ _ _ I') as (_ & _ & Hq & _).
  destruct I as [_ [_ D] _]. simpl in D. apply ForallOrdPairs_cons_iff in D as [Hd _].
  apply list.Forall_cons in Hd as [Hd _]. unfold run_disjoint, block_run in Hd. simpl in Hd. lia.
Qed.

Lemma heap_inv_perm h runs runs' blocks blocks' :
  runs ≡ₚ runs' → blocks ≡ₚ blocks' → heap_inv h runs blocks → heap_inv h runs' blocks'.
Proof.
  intros Pr Pb [W O S]. constructor; [done| |by rewrite <- Pb].
  eapply pages_owned_perm; [|exact O]. by rewrite Pr, Pb.
Qed.

(** Writing outside the live headers keeps the invariant. *)
Lemma heap_inv_mem h m' runs blocks :
  heap_inv h runs blocks →
  (∀ p n a, (p, n) ∈ blocks → p - HEADER_SIZE <= a < p → mem_get m' a = mem_get (hp_mem h) a) →
  heap_inv (Heap (hp_pmm h) m') runs blocks.
Proof.
  intros [W O S] H. constructor; [done|done|]. simpl. rewrite list.Forall_forall in *.
  intros [p n] Hin. destruct (S _ Hin) as [Hn Hl]. split; [done|]. rewrite <- Hl.
  apply load64_ext. intros x Hx. simpl in *. apply (H p n); [done|]. unfold HEADER_SIZE in *. lia.
Qed.

(** Writing inside a block keeps the invariant and every other block's bytes. *)
Lemma heap_inv_write h m' runs p n blocks :
  heap_inv h runs ((p, n) :: blocks) →
  (∀ a, ¬ (p <= a < p + n) → mem_get m' a = mem_get (hp_mem h) a) →
  heap_inv (Heap (hp_pmm h) m') runs ((p, n) :: blocks) ∧
  same_bytes h (Heap (hp_pmm h) m') blocks.
Proof.
  intros I H.
  assert (D : ∀ q m, (q, m) ∈ blocks → p + n <= q - HEADER_SIZE ∨ q + m <= p - HEADER_SIZE).
  { intros q m [bs' Pm]%elem_of_Permutation. eapply (inv_disjoint h runs p n q m bs').
    eapply heap_inv_perm; [reflexivity| |exact I]. by rewrite Pm. }
  split.
  - apply heap_inv_mem; [done|]. intros q m a [Hq|Hq]%elem_of_cons Ha; simplify_eq; apply H; [lia|].
    specialize (D q m Hq).
    assert (0 <= m). { pose proof (hi_sizes _ _ _ I) as S. rewrite list.Forall_forall in S.
      destruct (S (q, m)) as [? _]; [by right|]. simpl in *. lia. }
    unfold HEADER_SIZE in *. lia.
  - intros q m a Hq Ha. simpl. apply H. specialize (D q m Hq). unfold HEADER_SIZE in *. lia.
Qed.

Lemma on_pmm_wp {A} (m : M pmm A) (Q : A → heap → Prop) h :
  wp m (λ a s, Q a (Heap s (hp_mem h))) (hp_pmm h) → wp (on_pmm m) Q h.
Proof. intros H. unfold on_pmm. apply wp_zoom. exact H. Qed.

Lemma kmalloc_wp h runs blocks n (Q : Z → heap → Prop) :
  heap_inv h runs blocks → 0 <= n < 2 ^ 64 → Q 0 h →
  (∀ p h', p ≠ 0 → heap_inv h' runs ((p, n) :: blocks) → same_bytes h h' blocks → Q p h') →
  wp (kmalloc n) Q h.
Proof.
  intros I Hn H0 HQ. unfold kmalloc. wp_steps. apply on_pmm_wp.
  pose proof (block_count_nonneg n). destruct I as [W O S].
  destruct (decide (heap_get_block_count n = 0)) as [E|E].
  { rewrite E. apply pmm_alloc_pages_zero_wp; [done|]. destruct h. by wp_steps. }
  eapply alloc_pages_owned; [done|exact O|lia|destruct h; by wp_steps|].
  intros p s' Hp W' O'. destruct (Z.eqb_spec p 0); [lia|]. unfold on_mem. wp_steps. simpl.
  set (h' := Heap s' (store64 p n (hp_mem h))).
  assert (Hfar : ∀ q m, (q, m) ∈ blocks → ∀ a, q - HEADER_SIZE <= a < q + m →
            mem_get (store64 p n (hp_mem h)) a = mem_get (hp_mem h) a).
  { intros q m Hq a Ha. apply store64_get. intros Hx.
    destruct O' as [Ow D]. apply ForallOrdPairs_cons_iff in D as [D _]. rewrite list.Forall_forall in D, Ow, S.
    destruct (S _ Hq) as [Hm _]. simpl in Hm.
    assert (Hin : block_run (q, m) ∈ (p, heap_get_block_count n) :: map block_run blocks ++ runs).
    { right. apply elem_of_app. left. by apply list_elem_of_fmap_2. }
    destruct (Ow _ Hin) as (_ & _ & _ & Hc & _). simpl in Hc.
    pose proof (block_count_fits m Hm Hc). apply elem_of_cons in Hin as [Hin|Hin].
    - unfold block_run in Hin. simplify_eq/=.
      destruct (D _ (proj2 (elem_of_app _ _ _) (or_introl (list_elem_of_fmap_2 block_run _ _ Hq)))) as [G|G];
        unfold block_run in G; simpl in G; unfold PAGE_SIZE in *; lia.
    - destruct (D _ Hin) as [G|G]; unfold block_run in G; simpl in G; unfold PAGE_SIZE in *; lia. }
  apply (HQ (p + HEADER_SIZE) h'); [unfold HEADER_SIZE; lia| |].
  - constructor; [done| |].
    + simpl. unfold block_run at 1. simpl. by rewrite Z.add_simpl_r.
    + constructor.
      * simpl. rewrite Z.add_simpl_r. split; [done|by apply load_store64].
      * rewrite list.Forall_forall in *. intros [q m] Hq. destruct (S _ Hq) as [Hm Hl]. split; [done|].
        rewrite <- Hl. apply load64_ext. intros x Hx. simpl in *.
        apply (Hfar q m Hq). unfold HEADER_SIZE in *. lia.
  - intros q m a Hq Ha. simpl. apply (Hfar q m Hq). unfold HEADER_SIZE. lia.
Qed.

Lemma kfree_wp h runs p n blocks (Q : unit → heap → Prop) :
  heap_inv h runs ((p, n) :: blocks) →
  (∀ h', heap_inv h' runs blocks → hp_mem h' = hp_mem h → Q tt h') →
  wp (kfree p) Q h.
Proof.
  intros I HQ. pose proof (inv_block _ _ _ _ _ I) as (Hn & Hc & Hf & Hl & Hp).
  unfold kfree. destruct (Z.eqb_spec p 0); [unfold HEADER_SIZE in *; lia|]. wp_steps.
  rewrite Hl. apply on_pmm_wp. destruct I as [W O S].
  eapply free_pages_owned; [done|exact O|]. intros s' W' O'. apply HQ; [|done].
  apply list.Forall_cons in S as [_ S]. by constructor.
Qed.

Lemma same_bytes_trans (h1 h2 h3 : heap) blocks :
  same_bytes h1 h2 blocks → same_bytes h2 h3 blocks → same_bytes h1 h3 blocks.
Proof. intros A B p n a Hp Ha. rewrite (B p n a), (A p n a); done. Qed.

Lemma krealloc_wp h runs p n n' blocks (Q : Z → heap → Prop) :
  heap_inv h runs ((p, n) :: blocks) → 0 < n' < 2 ^ 64 → Q 0 h →
  (∀ p' h', p' ≠ 0 → heap_inv h' runs ((p', n') :: blocks) → same_bytes h h' blocks →
     (∀ k, 0 <= k < n → k < n' → mem_get (hp_mem h') (p' + k) = mem_get (hp_mem h) (p + k)) → Q p' h') →
  wp (krealloc p n') Q h.
Proof.
  intros I Hn' H0 HQ. pose proof (inv_block _ _ _ _ _ I) as (Hn & _ & _ & _ & Hp).
  unfold krealloc. destruct (Z.eqb_spec p 0); [unfold HEADER_SIZE in *; lia|].
  destruct (Z.eqb_spec n' 0); [lia|]. wp_steps.
  apply (kmalloc_wp h runs ((p, n) :: blocks)); [done|lia|by wp_steps|].
  intros p' h1 Hp' I1 B1. destruct (Z.eqb_spec p' 0); [done|]. wp_steps.
  assert (I1' : heap_inv h1 runs ((p, n) :: (p', n') :: blocks)).
  { eapply heap_inv_perm; [reflexivity| |exact I1]. apply perm_swap. }
  pose proof (inv_block _ _ _ _ _ I1') as (_ & _ & _ & Hl & _). rewrite Hl.
  pose proof (inv_disjoint _ _ _ _ _ _ _ I1) as Hd. unfold HEADER_SIZE in Hd.
  set (c := if n <? n' then n else n').
  assert (Hc : c = Z.min n n') by (unfold c; destruct (Z.ltb_spec n n'); lia).
  unfold on_mem. wp_steps.
  set (m2 := mem_copy (Z.to_nat c) p' p (hp_mem h1)).
  assert (G : ∀ x, mem_get m2 x = if decide (p' <= x < p' + c) then mem_get (hp_mem h1) (p + (x - p'))
                                  else mem_get (hp_mem h1) x).
  { intros x. unfold m2. rewrite mem_copy_get by lia. by rewrite Z2Nat.id by lia. }
  destruct (heap_inv_write h1 m2 runs p' n' ((p, n) :: blocks)) as [I2 B2]; [done| |].
  { intros a Ha. rewrite G. by rewrite decide_False by lia. }
  apply (kfree_wp _ runs p n ((p', n') :: blocks)).
  { eapply heap_inv_perm; [reflexivity| |exact I2]. apply perm_swap. }
  intros h3 I3 E3. wp_steps. apply HQ; [done|done| |].
  - intros q m a Hq Ha. simpl. rewrite E3. simpl.
    transitivity (mem_get (hp_mem h1) a); [apply (B2 q m a ltac:(by right) Ha)|].
    apply (B1 q m a ltac:(by right) Ha).
  - intros k Hk Hk'. rewrite E3. simpl. rewrite G, decide_True by lia.
    replace (p + (p' + k - p')) with (p + k) by lia. apply (B1 p n); [by left|lia].
Qed.

Lemma inv_perm_swap h runs b b' blocks :
  heap_inv h runs (b :: b' :: blocks) → heap_inv h runs (b' :: b :: blocks).
Proof. apply heap_inv_perm; [done|apply perm_swap]. Qed.

Lemma heap_alloc_pages_wp h runs blocks count (Q : Z → heap → Prop) :
  heap_inv h runs blocks → 0 < count → Q 0 h →
  (∀ p h', p ≠ 0 → heap_inv h' ((p, count) :: runs) blocks → same_bytes h h' blocks → Q p h') →
  wp (on_pmm (pmm_alloc_pages count)) Q h.
Proof.
  intros [W O S] Hc H0 HQ. apply on_pmm_wp.
  eapply alloc_pages_owned; [done|exact O|done|by destruct h|].
  intros p s' Hp W' O'. apply HQ; [lia| |done]. constructor; [done| |done].
  eapply pages_owned_perm; [|exact O']. simpl. apply Permutation_middle.
Qed.

Lemma heap_free_pages_wp h p count runs blocks (Q : unit → heap → Prop) :
  heap_inv h ((p, count) :: runs) blocks →
  (∀ h', heap_inv h' runs blocks → same_bytes h h' blocks → Q tt h') →
  wp (on_pmm (pmm_free_pages p count)) Q h.
Proof.
  intros [W O S] HQ. apply on_pmm_wp. eapply free_pages_owned; [done| |].
  - eapply pages_owned_perm; [|exact O]. symmetry. simpl. apply Permutation_middle.
  - intros s' W' O'. by apply HQ.
Qed.

Lemma heap_run_nodup h a c c' runs blocks : heap_inv h ((a, c) :: (a, c') :: runs) blocks → False.
Proof.
  intros [_ O _].
  eapply (pages_owned_perm _ _ ((a, c) :: (a, c') :: runs ++ map block_run blocks)) in O;
    [|rewrite Permutation_app_comm; done].
  destruct O as [F D]. apply ForallOrdPairs_cons_iff in D as [D _]. rewrite !list.Forall_cons in *.
  destruct F as ((_ & _ & _ & Hc & _) & (_ & _ & _ & Hc' & _) & _), D as [[D|D] _]; simpl in *;
    unfold PAGE_SIZE in *; lia.
Qed.

Lemma heap_block_size h runs p n blocks :
  heap_inv h runs ((p, n) :: blocks) → p ≠ 0 ∧ 0 <= n < 2 ^ 52.
Proof.
  intros I. pose proof (inv_block _ _ _ _ _ I) as (Hn & Hc & Hf & _ & Hp).
  destruct I as [W [O _] _]. apply list.Forall_cons in O as [(j & _ & Hj & _ & Hjc & _) _].
  pose proof (total_pages_lt _ W). unfold HEADER_SIZE, PAGE_SIZE in *. simpl in *. lia.
Qed.

(** heap.c over pmm.c satisfies the interface's laws. *)
#[export] Instance heap_kernel_mem_laws : KernelMemLaws heap.
Proof.
  constructor; simpl.
  - intros. by eapply heap_inv_perm.
  - intros h runs p n q m blocks I%inv_disjoint. unfold HEADER_SIZE in *. lia.
  - apply heap_block_size.
  - apply heap_run_nodup.
  - apply heap_alloc_pages_wp.
  - apply heap_free_pages_wp.
  - apply kmalloc_wp.
  - intros h runs p n blocks Q I HQ. eapply kfree_wp; [exact I|]. intros h' I' E.
    apply HQ; [done|]. intros q m a _ _. simpl. by rewrite E.
  - apply krealloc_wp.
  - done.
Qed.

(** ** Properties *)

(** C11 (refinement) [kmalloc, kfree, krealloc, heap_get_block_count]
    The kernel heap implements the memory interface its clients are proved
    against: blocks and page runs handed out never overlap, kmalloc and krealloc
    return NULL or a block of the size asked for, krealloc keeps the bytes both
    sizes share, and no operation touches the bytes of another live block. *)
Theorem heap_implements_kernel_mem : KernelMemLaws heap.
Proof. exact heap_kernel_mem_laws. Qed.

(** kcalloc returns NULL and changes nothing, or returns a fresh zeroed block of
    nmemb * size bytes, the product not wrapping; other blocks keep their bytes. *)
Lemma kcalloc_zeroed (h : heap) (runs blocks : list (Z * Z)) (nmemb size : Z)
  (I : heap_inv h runs blocks) (Hn : 0 <= nmemb < 2 ^ 64) (Hs : 0 <= size < 2 ^ 64) :
  ∃ p h', kcalloc nmemb size h = Some (p, h') ∧
    (p = 0 ∧ h' = h ∨
     p ≠ 0 ∧ nmemb * size < 2 ^ 64 ∧ heap_inv h' runs ((p, nmemb * size) :: blocks) ∧
     (∀ k, 0 <= k < nmemb * size → mem_get (hp_mem h') (p + k) = 0) ∧ same_bytes h h' blocks).
Proof.
  apply wp_run. unfold kcalloc.
  destruct (negb (size =? 0) && (SIZE_MAX / size <? nmemb)) eqn:G; [wp_steps; by left|].
  assert (Hfit : 0 <= nmemb * size < 2 ^ 64).
  { split; [lia|]. destruct (Z.eqb_spec size 0) as [->|Hz]; [lia|]. simpl in G.
    apply Z.ltb_ge in G. pose proof (Z.mul_div_le SIZE_MAX size ltac:(lia)). unfold SIZE_MAX in *. nia. }
  rewrite u64_small by done. wp_steps. eapply kmalloc_wp; [exact I|done|wp_steps; by left|].
  intros p h1 Hp I1 B1. destruct (Z.eqb_spec p 0); [done|]. unfold on_mem. wp_steps. right.
  destruct (heap_inv_write h1 (mem_fill (Z.to_nat (nmemb * size)) p 0 (hp_mem h1)) runs p (nmemb * size) blocks)
    as [I2 B2]; [done| |].
  { intros a Ha. rewrite mem_fill_get. by rewrite decide_False by lia. }
  split_and!; [done|lia|done| |by eapply same_bytes_trans].
  intros k Hk. simpl. rewrite mem_fill_get. by rewrite decide_True by lia.
Qed.

(** kmalloc fails only when it must: NULL means that the request is within a page
    of SIZE_MAX or that memory holds no run of free pages long enough. *)
Lemma kmalloc_null_only_if_full (h : heap) (runs blocks : list (Z * Z)) (n : Z)
  (I : heap_inv h runs blocks) (Hn : 0 <= n <= SIZE_MAX - PAGE_SIZE - HEADER_SIZE)
  (Hz : ∃ h', kmalloc n h = Some (0, h')) :
  ∀ j, 0 <= j → j + heap_get_block_count n <= total_pages (hp_pmm h) →
       ¬ run_free (hp_pmm h) j (heap_get_block_count n).
Proof.
  destruct Hz as [h' Hz]. destruct I as [W _ _]. unfold SIZE_MAX, PAGE_SIZE, HEADER_SIZE in Hn.
  assert (Hc : 0 < heap_get_block_count n).
  { unfold heap_get_block_count, SIZE_MAX, HEADER_SIZE, PAGE_SIZE.
    destruct (Z.ltb_spec (2 ^ 64 - 1 - 16) n); [lia|]. rewrite !u64_small by (rewrite ?u64_small; lia).
    apply Z.div_str_pos. lia. }
  pose proof (pmm_alloc_pages_wp _ _ W Hc) as P. unfold wp in P.
  unfold kmalloc, on_pmm, zoom in Hz. unfold mbind, M_bind in Hz.
  destruct (pmm_alloc_pages (heap_get_block_count n) (hp_pmm h)) as [[p s']|]; [|done].
  destruct P as [(j & Hj & _ & -> & _)|(-> & _ & Hno)]; [|done].
  exfalso. destruct (wf_hhdm _ W) as (?&_&_).
  assert (0 < page_addr (hp_pmm h) j) by (unfold page_addr, PAGE_SIZE; lia).
  destruct (Z.eqb_spec (page_addr (hp_pmm h) j) 0); [lia|].
  run_M Hz. unfold HEADER_SIZE in Hz. injection Hz. lia.
Qed.

(** ** Witnesses *)
Definition demo_heap : heap := Heap demo_pmm ∅.

Lemma demo_heap_inv : heap_inv demo_heap [] [].
Proof. constructor; [apply demo_pmm_wf|repeat constructor|constructor]. Qed.

Lemma kcalloc_zeroed_witness :
  ∃ p h', kcalloc 3 100 demo_heap = Some (p, h') ∧
    (p = 0 ∧ h' = demo_heap ∨
     p ≠ 0 ∧ 3 * 100 < 2 ^ 64 ∧ heap_inv h' [] [(p, 3 * 100)] ∧
     (∀ k, 0 <= k < 3 * 100 → mem_get (hp_mem h') (p + k) = 0) ∧ same_bytes demo_heap h' []).
Proof. apply (kcalloc_zeroed demo_heap [] [] 3 100 demo_heap_inv); lia. Defined.

Lemma kmalloc_null_only_if_full_witness :
  kmalloc 65536 demo_heap = Some (0, demo_heap) ∧ ∀ j, 0 <= j → j + heap_get_block_count 65536 <= total_pages (hp_pmm demo_heap) →
       ¬ run_free (hp_pmm demo_heap) j (heap_get_block_count 65536).
Proof.
  split; [vm_compute; reflexivity|]. apply (kmalloc_null_only_if_full demo_heap [] [] 65536 demo_heap_inv).
  - vm_compute; split; discriminate.
  - exists demo_heap. vm_compute. reflexivity.
Defined.
