(* ===== verification/UserPages.v ===== *)
(** * kernel/system/user_pages.c: page runs owned by user tasks

    A growing array records every page run a task was given, so that the run can
    be checked when it is freed and taken back when the task dies.  The memory
    below is any implementation of the [KernelMem] interface.  The array is kept
    as a list of its [user_run_count] entries beside the pointer and capacity of
    the heap block that holds them. *)
From S2P Require Import Prelude RawMem Pmm Heap.
Local Open Scope kernel_scope.

(** [kernel/system/user_pages.c 1-7] *)
Record UserPageRun := MkRun { run_addr : Z; run_count : Z; run_owner : Z }.

(** [sizeof(UserPageRun)] *)
Definition RUN_SIZE : Z := 24.

(** [kernel/system/user_pages.c: user_page_count] *)
Definition user_page_count (size : Z) : Z := u64 (size + PAGE_SIZE - 1) / PAGE_SIZE.

Section UserPages.
Context {H : Type} `{KernelMemLaws H}.

(** The file's static variables over the kernel's memory.
    [kernel/system/user_pages.c 9-11] *)
Record user_state := UserState {
  us_mem : H;
  user_runs_ptr : Z;
  user_runs : list UserPageRun;
  user_run_cap : Z
}.

Definition user_run_count (u : user_state) : Z := Z.of_nat (length (user_runs u)).
Definition set_runs (l : list UserPageRun) (u : user_state) : user_state :=
  UserState (us_mem u) (user_runs_ptr u) l (user_run_cap u).
Definition on_kmem {A} (m : M H A) : M user_state A :=
  zoom us_mem (λ h u, UserState h (user_runs_ptr u) (user_runs u) (user_run_cap u)) m.

(** Make room for one more entry; [false] when [krealloc] fails.
    [kernel/system/user_pages.c: sys_mem_alloc 27-38] *)
Definition grow_runs : M user_state bool :=
  u ← get;
  if user_run_count u =? user_run_cap u then
    let cap := if user_run_cap u =? 0 then 64 else u64 (user_run_cap u * 2) in
    n ← on_kmem (km_krealloc (user_runs_ptr u) (u64 (cap * RUN_SIZE)));
    if n =? 0 then mret false
    else modify (λ u, UserState (us_mem u) n (user_runs u) cap);; mret true
  else mret true.

(** [kernel/system/user_pages.c: sys_mem_alloc] *)
Definition sys_mem_alloc (current size : Z) : M user_state Z :=
  if (size =? 0) || (UINT64_MAX - PAGE_SIZE <? size) then mret 0
  else
    let count := user_page_count size in
    ok ← grow_runs;
    if negb ok then mret 0
    else
      p ← on_kmem (km_alloc_pages count);
      if p =? 0 then mret 0
      else modify (λ u, set_runs (user_runs u ++ [MkRun p count current]) u);; mret p.

(** [user_runs[i] = user_runs[--user_run_count]].
    [kernel/system/user_pages.c: sys_mem_free 70-70] *)
Definition remove_run (i : Z) : M user_state unit :=
  l ← gets user_runs;
  e ← lift (l !!z (Z.of_nat (length l) - 1));
  l' ← lift (updateZ i e l);
  modify (set_runs (take (length l - 1) l')).

(** The search loop of [sys_mem_free] from entry [i] on.
    [kernel/system/user_pages.c: sys_mem_free 56-73] *)
Fixpoint mem_free_loop (n : nat) (i addr count : Z) : M user_state Z :=
  match n with
  | O => mret (-1)
  | S n' =>
      l ← gets user_runs;
      r ← lift (l !!z i);
      if negb (run_addr r =? addr) then mem_free_loop n' (i + 1) addr count
      else if negb (run_count r =? count) then mret (-1)
      else on_kmem (km_free_pages addr count);; remove_run i;; mret 0
  end.
(** [kernel/system/user_pages.c: sys_mem_free] *)
Definition sys_mem_free (addr size : Z) : M user_state Z :=
  if addr =? 0 then mret 0
  else n ← gets user_run_count; mem_free_loop (Z.to_nat n) 0 addr (user_page_count size).

(** The loop of [user_pages_release_task]: an entry freed is replaced by the last
    one, so [i] stays. Every turn either advances [i] or shortens the array; the
    fuel is the number of entries not yet looked at.
    [kernel/system/user_pages.c: user_pages_release_task 84-93] *)
Fixpoint release_task_loop (fuel : nat) (i t : Z) : M user_state unit :=
  n ← gets user_run_count;
  if n <=? i then mret tt
  else match fuel with
  | O => fail
  | S fuel' =>
      l ← gets user_runs;
      r ← lift (l !!z i);
      if run_owner r =? t then
        on_kmem (km_free_pages (run_addr r) (run_count r));; remove_run i;; release_task_loop fuel' i t
      else release_task_loop fuel' (i + 1) t
  end.
(** [kernel/system/user_pages.c: user_pages_release_task] *)
Definition user_pages_release_task (t : Z) : M user_state unit :=
  n ← gets user_run_count; release_task_loop (Z.to_nat n) 0 t.

(** [kernel/system/user_pages.c: user_pages_count] *)
Definition user_pages_count (t : Z) : M user_state Z :=
  gets (λ u, foldl (λ pages r, if run_owner r =? t then u64 (pages + run_count r) else pages) 0 (user_runs u)).

(** ** Invariant *)

Definition run_pages (r : UserPageRun) : Z * Z := (run_addr r, run_count r).

(** The heap block behind the array, once there is one. *)
Definition array_block (u : user_state) : list (Z * Z) :=
  if user_run_cap u =? 0 then [] else [(user_runs_ptr u, user_run_cap u * RUN_SIZE)].

(** The runs recorded are runs the memory has handed out, beside [runs] and
    [blocks] that belong to others; the array is a heap block large enough. *)
Record user_inv (runs blocks : list (Z * Z)) (u : user_state) : Prop := {
  ui_cap : user_run_count u <= user_run_cap u;
  ui_null : user_run_cap u = 0 → user_runs_ptr u = 0;
  ui_mem : km_inv (us_mem u) (map run_pages (user_runs u) ++ runs) (array_block u ++ blocks)
}.

(** ** Lemmas *)
Lemma on_kmem_wp {A} (m : M H A) (Q : A → user_state → Prop) u :
  wp m (λ a h, Q a (UserState h (user_runs_ptr u) (user_runs u) (user_run_cap u))) (us_mem u) →
  wp (on_kmem m) Q u.
Proof. intros HQ. unfold on_kmem. apply wp_zoom. exact HQ. Qed.

Lemma swap_remove_perm (l : list UserPageRun) i r e :
  l !! i = Some r → l !! (length l - 1)%nat = Some e → l ≡ₚ r :: take (length l - 1) (<[i := e]> l).
Proof.
  destruct l as [|x l0 _] using rev_ind; [done|]. intros Hr He.
  pose proof (lookup_lt_Some _ _ _ Hr) as Hi. rewrite length_app in *. cbn [length] in *.
  replace (length l0 + 1 - 1)%nat with (length l0) in * by lia.
  rewrite lookup_app_r, Nat.sub_diag in He by lia. simplify_eq/=.
  destruct (decide (i = length l0)) as [->|].
  - rewrite lookup_app_r, Nat.sub_diag in Hr by lia. simplify_eq/=.
    rewrite insert_app_r_alt, Nat.sub_diag by lia. simpl. rewrite take_app_length.
    by rewrite Permutation_app_comm.
  - rewrite lookup_app_l in Hr by lia. rewrite insert_app_l by lia.
    rewrite take_app_length' by by rewrite length_insert.
    rewrite Permutation_app_comm. simpl.
    transitivity (e :: r :: delete i l0); [by rewrite (delete_Permutation _ _ _ Hr) at 1|].
    rewrite perm_swap. f_equiv. apply lookup_lt_Some in Hr.
    rewrite (delete_Permutation (<[i := e]> l0) i e) by (by apply list_lookup_insert_eq).
    f_equiv. rewrite !delete_take_drop, take_insert_ge, drop_insert_lt by lia. done.
Qed.

Lemma remove_run_wp i r u (Q : unit → user_state → Prop) :
  lookupZ (user_runs u) i = Some r →
  (∀ l', user_runs u ≡ₚ r :: l' → (∀ k, k < i → lookupZ l' k = lookupZ (user_runs u) k) →
     Q tt (set_runs l' u)) →
  wp (remove_run i) Q u.
Proof.
  intros Hr HQ. pose proof (lookupZ_Some_lt _ _ _ Hr) as Hi. unfold remove_run. wp_steps.
  destruct (lookupZ_lt_is_Some (user_runs u) (Z.of_nat (length (user_runs u)) - 1)) as [e He]; [lia|].
  eapply wp_lift; [exact He|]. wp_steps. eapply wp_lift; [by apply updateZ_is_Some|]. wp_steps.
  assert (Hr' : user_runs u !! Z.to_nat i = Some r).
  { unfold lookupZ in Hr. by destruct (i <? 0). }
  assert (He' : user_runs u !! (length (user_runs u) - 1)%nat = Some e).
  { unfold lookupZ in He. destruct (Z.ltb_spec (Z.of_nat (length (user_runs u)) - 1) 0); [lia|].
    rewrite <- He. f_equal. lia. }
  apply HQ; [by apply swap_remove_perm|].
  intros k Hk. unfold lookupZ. destruct (Z.ltb_spec k 0); [done|].
  rewrite lookup_take_lt by lia. by rewrite list_lookup_insert_ne by lia.
Qed.

(** Giving one recorded run back and dropping its entry. *)
Lemma drop_run_wp i r u runs blocks (Q : unit → user_state → Prop) :
  user_inv runs blocks u → lookupZ (user_runs u) i = Some r →
  (∀ u', user_inv runs blocks u' → user_runs u ≡ₚ r :: user_runs u' →
     (∀ k, k < i → lookupZ (user_runs u') k = lookupZ (user_runs u) k) → Q tt u') →
  wp (on_kmem (km_free_pages (run_addr r) (run_count r));; remove_run i) Q u.
Proof.
  intros [C N I] Hr HQ. wp_steps. apply on_kmem_wp.
  pose proof (lookupZ_Some_lt _ _ _ Hr) as Hi.
  assert (Hr' : user_runs u !! Z.to_nat i = Some r).
  { unfold lookupZ in Hr. by destruct (i <? 0). }
  pose proof (delete_Permutation _ _ _ Hr') as P.
  eapply (km_free_pages_law _ _ _ (map run_pages (delete (Z.to_nat i) (user_runs u)) ++ runs)).
  { eapply km_perm; [|reflexivity|exact I]. by rewrite P at 1. }
  intros h' I' _. apply (remove_run_wp i r); [done|]. simpl. intros l' P' Hk.
  apply HQ; [|done|done].
  assert (Pl : delete (Z.to_nat i) (user_runs u) ≡ₚ l').
  { apply (Permutation_cons_inv (a := r)). by rewrite <- P, <- P'. }
  constructor; simpl; [|done|].
  - unfold user_run_count in *. simpl. apply Permutation_length in P'. simpl in P'. lia.
  - eapply km_perm; [|reflexivity|exact I']. by rewrite Pl.
Qed.

Lemma array_block_pos u runs blocks :
  user_inv runs blocks u → user_run_cap u * RUN_SIZE < 2 ^ 52 ∧ 0 <= user_run_cap u ∧
  (user_run_cap u ≠ 0 → user_runs_ptr u ≠ 0).
Proof.
  intros [C N I]. unfold array_block in I. unfold user_run_count in C.
  destruct (Z.eqb_spec (user_run_cap u) 0) as [E|E]; [rewrite E; done|].
  apply km_block_size in I as [? ?]. lia.
Qed.

Lemma grow_runs_wp u runs blocks (Q : bool → user_state → Prop) :
  user_inv runs blocks u → Q false u →
  (∀ u', user_inv runs blocks u' → user_runs u' = user_runs u → user_run_count u' < user_run_cap u' → Q true u') →
  wp grow_runs Q u.
Proof.
  intros I Hf HQ. pose proof (array_block_pos _ _ _ I) as (Hb & H0' & Hp). destruct I as [C N I].
  unfold grow_runs. wp_steps. destruct (Z.eqb_spec (user_run_count u) (user_run_cap u)) as [E|E]; wp_steps.
  2:{ apply HQ; [by constructor|done|lia]. }
  set (cap := if user_run_cap u =? 0 then 64 else u64 (user_run_cap u * 2)).
  unfold RUN_SIZE in *.
  assert (Hc : user_run_cap u < cap ∧ cap <= Z.max 64 (user_run_cap u * 2)).
  { unfold cap. destruct (Z.eqb_spec (user_run_cap u) 0); [lia|]. rewrite u64_small by lia. lia. }
  rewrite u64_small by lia. apply on_kmem_wp.
  assert (Hdone : ∀ p h', p ≠ 0 →
    km_inv h' (map run_pages (user_runs u) ++ runs) ((p, cap * 24) :: blocks) →
    Q true (UserState h' p (user_runs u) cap)).
  { intros p h' Hpz I'. apply HQ; [|done|simpl; unfold user_run_count in *; simpl; lia].
    constructor; simpl.
    - unfold user_run_count in *. simpl. lia.
    - lia.
    - unfold array_block. simpl. destruct (Z.eqb_spec cap 0); [lia|]. exact I'. }
  assert (Hnull : Q false (UserState (us_mem u) (user_runs_ptr u) (user_runs u) (user_run_cap u)))
    by by destruct u.
  unfold array_block in I. destruct (Z.eqb_spec (user_run_cap u) 0) as [Z0|Z0].
  - replace (km_krealloc (user_runs_ptr u)) with (km_krealloc (H := H) 0) by by rewrite N.
    rewrite km_krealloc_null. eapply km_kmalloc_law; [exact I|lia|wp_steps; exact Hnull|].
    intros p h' Hpz I' _. destruct (Z.eqb_spec p 0); [done|]. wp_steps. by apply Hdone.
  - eapply km_krealloc_law; [exact I|lia|wp_steps; exact Hnull|].
    intros p h' Hpz I' _ _. destruct (Z.eqb_spec p 0); [done|]. wp_steps. by apply Hdone.
Qed.

(** The search of [sys_mem_free]: entries before [i] do not match. *)
Lemma mem_free_loop_wp n i addr count u runs blocks (Q : Z → user_state → Prop) :
  user_inv runs blocks u → 0 <= i → i + Z.of_nat n = user_run_count u →
  (∀ k r, k < i → lookupZ (user_runs u) k = Some r → run_addr r ≠ addr) →
  ((∀ r, r ∈ user_runs u → run_addr r ≠ addr) → Q (-1) u) →
  (∀ r, r ∈ user_runs u → run_addr r = addr → run_count r ≠ count → Q (-1) u) →
  (∀ r u', user_inv runs blocks u' → user_runs u ≡ₚ r :: user_runs u' →
     run_addr r = addr → run_count r = count → Q 0 u') →
  wp (mem_free_loop n i addr count) Q u.
Proof.
  intros I Hi Hn Hpre Hno Hbad HQ. unfold user_run_count in Hn.
  revert i Hi Hn Hpre. induction n as [|n IH]; intros i Hi Hn Hpre; simpl; wp_steps.
  { apply Hno. intros r [k Hk]%list_elem_of_lookup. pose proof (lookup_lt_Some _ _ _ Hk).
    apply (Hpre (Z.of_nat k)); [lia|]. unfold lookupZ.
    destruct (Z.ltb_spec (Z.of_nat k) 0); [lia|]. by rewrite Nat2Z.id. }
  destruct (lookupZ_lt_is_Some (user_runs u) i) as [r Hr]; [lia|].
  eapply wp_lift; [exact Hr|].
  assert (Hin : r ∈ user_runs u).
  { unfold lookupZ in Hr. destruct (i <? 0); [done|]. by eapply list_elem_of_lookup_2. }
  destruct (Z.eqb_spec (run_addr r) addr) as [E|E]; simpl.
  - destruct (Z.eqb_spec (run_count r) count) as [Ec|Ec]; simpl; [|wp_steps; eauto].
    subst addr count.
    pose proof (drop_run_wp i r u runs blocks (λ _ u', Q 0 u') I Hr) as D.
    assert (D' : wp (on_kmem (km_free_pages (run_addr r) (run_count r));; remove_run i) (λ _ u', Q 0 u') u).
    { apply D. intros u' I' P _. eauto. }
    unfold wp, mbind, M_bind in *. destruct (on_kmem _ u) as [[? u1]|]; [|done].
    by destruct (remove_run i u1) as [[? u2]|].
  - apply IH; [lia|lia|]. intros k r' Hk Hr'. destruct (decide (k = i)) as [->|]; [congruence|].
    apply (Hpre k r'); [lia|done].
Qed.

Lemma release_task_loop_wp fuel i t u runs blocks (Q : unit → user_state → Prop) :
  user_inv runs blocks u → 0 <= i → user_run_count u - i <= Z.of_nat fuel →
  (∀ k r, k < i → lookupZ (user_runs u) k = Some r → run_owner r ≠ t) →
  (∀ u', user_inv runs blocks u' →
     user_runs u' ≡ₚ filter (λ r, run_owner r ≠ t) (user_runs u) → Q tt u') →
  wp (release_task_loop fuel i t) Q u.
Proof.
  revert i u Q. induction fuel as [|fuel IH]; intros i u Q I Hi Hf Hpre HQ; cbn [release_task_loop]; wp_steps;
    (destruct (Z.leb_spec (user_run_count u) i) as [Hd|Hd]; [wp_steps|]).
  1, 3: apply HQ; [done|]; rewrite filter_all; [done|]; intros k r Hk; 
    apply (Hpre (Z.of_nat k)); [apply lookup_lt_Some in Hk; unfold user_run_count in Hd; lia|];
    unfold lookupZ; destruct (Z.ltb_spec (Z.of_nat k) 0); [lia|]; by rewrite Nat2Z.id.
  - lia.
  - wp_steps. unfold user_run_count in Hd, Hf.
    destruct (lookupZ_lt_is_Some (user_runs u) i) as [r Hr]; [lia|]. eapply wp_lift; [exact Hr|].
    destruct (Z.eqb_spec (run_owner r) t) as [E|E].
    + assert (D : wp (on_kmem (km_free_pages (run_addr r) (run_count r));; remove_run i)
                (λ _, wp (release_task_loop fuel i t) Q) u).
      { apply (drop_run_wp i r u runs blocks); [done|done|]. intros u' I' P Hk. apply IH; [done|done| | |].
        - unfold user_run_count. apply Permutation_length in P. simpl in P. lia.
        - intros k r' Hki Hr'. rewrite Hk in Hr' by done. eauto.
        - intros u'' I'' P''. apply HQ; [done|]. rewrite P'', P. rewrite filter_cons_False; [done|].
          intros ?; congruence. }
      unfold wp, mbind, M_bind in *. destruct (on_kmem _ u) as [[? u1]|]; [|done].
      by destruct (remove_run i u1) as [[? u2]|].
    + apply IH; [done|lia|unfold user_run_count; lia| |done].
      intros k r' Hk Hr'. destruct (decide (k = i)) as [->|]; [congruence|]. apply (Hpre k r'); [lia|done].
Qed.

(** ** Properties *)

(** sys_mem_alloc always returns; on success it appends one entry for the pages
    handed out, on failure it returns NULL and leaves the record as it was; in both
    cases the record agrees with what the memory has handed out. *)
Lemma sys_mem_alloc_correct (u : user_state) (runs blocks : list (Z * Z)) (current size : Z)
  (I : user_inv runs blocks u) (Hs : 0 <= size < 2 ^ 64) :
  ∃ p u', sys_mem_alloc current size u = Some (p, u') ∧ user_inv runs blocks u' ∧
    (p = 0 ∧ user_runs u' = user_runs u ∨
     p ≠ 0 ∧ user_runs u' = user_runs u ++ [MkRun p (user_page_count size) current] ∧
     size <= user_page_count size * PAGE_SIZE < size + PAGE_SIZE).
Proof.
  apply wp_run. unfold sys_mem_alloc. unfold UINT64_MAX, PAGE_SIZE.
  destruct (Z.eqb_spec size 0) as [Hz|Hz]; cbn [orb]; [wp_steps; by eauto|].
  destruct (Z.ltb_spec (2 ^ 64 - 1 - 4096) size); [wp_steps; by eauto|]. wp_steps.
  assert (Hc : size <= user_page_count size * 4096 < size + 4096).
  { unfold user_page_count, PAGE_SIZE. rewrite u64_small by lia.
    pose proof (Z.div_mod (size + 4096 - 1) 4096 ltac:(lia)).
    pose proof (Z.mod_pos_bound (size + 4096 - 1) 4096 ltac:(lia)). lia. }
  eapply grow_runs_wp; [exact I|simpl; wp_steps; eauto|]. intros u1 [C1 N1 I1] E1 L1. simpl. wp_steps.
  apply on_kmem_wp. eapply km_alloc_pages_law; [exact I1|lia| |].
  - destruct u1. simpl. wp_steps. split; [by constructor|]. left. done.
  - intros p h' Hp I' _. destruct (Z.eqb_spec p 0); [done|]. wp_steps. simpl. split.
    + constructor; simpl; [|done|].
      * unfold user_run_count in *. simpl. rewrite length_app. simpl. lia.
      * eapply km_perm; [|reflexivity|exact I']. rewrite map_app. simpl.
        rewrite <- app_assoc. simpl. apply Permutation_middle.
    + right. by rewrite E1.
Qed.

(** sys_mem_free returns 0 exactly for NULL and for an address recorded with the
    right page count, whose entry it removes giving the pages back; an unknown
    address or a wrong size returns -1 and changes nothing. *)
Lemma sys_mem_free_correct (u : user_state) (runs blocks : list (Z * Z)) (addr size : Z)
  (I : user_inv runs blocks u) (Ha : addr ≠ 0) :
  ∃ e u', sys_mem_free addr size u = Some (e, u') ∧ user_inv runs blocks u' ∧
    (e = 0 ∧ (∃ r, run_addr r = addr ∧ run_count r = user_page_count size ∧
                   user_runs u ≡ₚ r :: user_runs u') ∨
     e = -1 ∧ u' = u ∧
       ∀ r, r ∈ user_runs u → run_addr r = addr → run_count r ≠ user_page_count size).
Proof.
  apply wp_run. unfold sys_mem_free. destruct (Z.eqb_spec addr 0); [done|]. wp_steps.
  eapply mem_free_loop_wp; [exact I|lia|unfold user_run_count; lia| | | |].
  - intros k r Hk. unfold lookupZ. by destruct (Z.ltb_spec k 0); [|lia].
  - intros Hno. split; [done|]. right. split_and!; [done|done|]. intros r Hr E. by destruct (Hno r Hr).
  - intros r Hr E Hc. split; [done|]. right. split_and!; [done|done|]. intros r' Hr' E'.
    assert (r' = r) as ->; [|done].
    apply elem_of_Permutation in Hr as [l1 P1]. rewrite P1 in Hr'.
    apply elem_of_cons in Hr' as [|Hr']; [done|]. apply elem_of_Permutation in Hr' as [l2 P2].
    destruct (km_run_nodup (us_mem u) addr (run_count r) (run_count r')
                (map run_pages l2 ++ runs) (array_block u ++ blocks)).
    eapply km_perm; [|reflexivity|exact (ui_mem _ _ _ I)]. rewrite P1, P2.
    unfold run_pages. simpl. by rewrite E, E'.
  - intros r u' I' P E Ec. split; [done|]. left. split; [done|]. exists r. done.
Qed.

(** C37 (termination) [user_pages_release_task, release_task_loop, remove_run]
    When a task dies the release loop terminates, frees each of the task's runs
    exactly once and removes its entries, and leaves every other task's. *)
Theorem user_pages_release_task_correct (u : user_state) (runs blocks : list (Z * Z)) (t : Z)
  (I : user_inv runs blocks u) :
  ∃ u', user_pages_release_task t u = Some (tt, u') ∧ user_inv runs blocks u' ∧
    user_runs u' ≡ₚ filter (λ r, run_owner r ≠ t) (user_runs u).
Proof.
  cut (wp (user_pages_release_task t) (λ _ u', user_inv runs blocks u' ∧
         user_runs u' ≡ₚ filter (λ r, run_owner r ≠ t) (user_runs u)) u).
  { intros ([] & u' & ? & ?)%wp_run. eauto. }
  unfold user_pages_release_task. wp_steps.
  apply (release_task_loop_wp _ _ _ _ runs blocks); [done|lia|unfold user_run_count; lia| |eauto].
  intros k r Hk. unfold lookupZ. by destruct (Z.ltb_spec k 0); [|lia].
Qed.
End UserPages.
#[global] Arguments user_state H : clear implicits.

(** ** Witnesses: over the kernel heap *)
Definition demo_user : user_state heap := UserState demo_heap 0 [] 0.

Lemma demo_user_inv : user_inv [] [] demo_user.
Proof. constructor; [done|done|apply demo_heap_inv]. Qed.

Lemma sys_mem_alloc_correct_witness :
  ∃ p u', sys_mem_alloc 7 5000 demo_user = Some (p, u') ∧ user_inv [] [] u' ∧
    (p = 0 ∧ user_runs u' = [] ∨
     p ≠ 0 ∧ user_runs u' = [MkRun p (user_page_count 5000) 7] ∧
     5000 <= user_page_count 5000 * PAGE_SIZE < 5000 + PAGE_SIZE).
Proof. apply (sys_mem_alloc_correct demo_user [] [] 7 5000 demo_user_inv). lia. Defined.

Lemma sys_mem_free_correct_witness :
  ∃ e u', sys_mem_free 4096 5000 demo_user = Some (e, u') ∧ user_inv [] [] u' ∧
    (e = 0 ∧ (∃ r, run_addr r = 4096 ∧ run_count r = user_page_count 5000 ∧
                   user_runs demo_user ≡ₚ r :: user_runs u') ∨
     e = -1 ∧ u' = demo_user ∧
       ∀ r, r ∈ user_runs demo_user → run_addr r = 4096 → run_count r ≠ user_page_count 5000).
Proof. apply (sys_mem_free_correct demo_user [] [] 4096 5000 demo_user_inv). discriminate. Defined.

(** Task 7 takes two runs and task 8 one between them. *)
Definition demo_user3 : user_state heap :=
  run_state (sys_mem_alloc 7 5000;; sys_mem_alloc 8 100;; sys_mem_alloc 7 10) demo_user.
Lemma demo_user3_owners : map run_owner (user_runs demo_user3) = [7; 8; 7].
Proof. vm_compute. reflexivity. Qed.
Lemma demo_user3_inv : user_inv [] [] demo_user3.
Proof.
  assert (Alloc : ∀ t n u, 0 <= n < 2 ^ 63 → user_inv [] [] u → wp (sys_mem_alloc t n) (λ _ u', user_inv [] [] u') u).
  { intros t n u Hn I. destruct (sys_mem_alloc_correct u [] [] t n I) as (p & u' & E & I' & _); [lia|]. unfold wp. by rewrite E. }
  assert (W : wp (sys_mem_alloc 7 5000;; sys_mem_alloc 8 100;; sys_mem_alloc 7 10) (λ _ u', user_inv [] [] u') demo_user).
  { apply wp_bind. eapply wp_mono; [apply Alloc; [lia|exact demo_user_inv]|]. intros p u1 I1.
    apply wp_bind. eapply wp_mono; [apply Alloc; [lia|exact I1]|]. intros p2 u2 I2. by apply Alloc; [lia|]. }
  apply wp_run_state in W as (p & _ & W). exact W.
Qed.

(** Both runs of task 7 are freed, that of task 8 is kept. *)
Lemma user_pages_release_task_correct_witness :
  map run_owner (user_runs demo_user3) = [7; 8; 7] ∧
  ∃ u', user_pages_release_task 7 demo_user3 = Some (tt, u') ∧ user_inv [] [] u' ∧
    user_runs u' ≡ₚ filter (λ r, run_owner r ≠ 7) (user_runs demo_user3).
Proof. split; [exact demo_user3_owners|]. apply (user_pages_release_task_correct demo_user3 [] [] 7 demo_user3_inv). Defined.
