(* ===== verification/Vmm.v ===== *)
(** * kernel/memory/vmm.c: page tables

    The four levels of page tables live in physical memory and are read and written
    through the direct map: the state is the heap's, page allocator and memory.  The
    register CR3 is an argument; the flush of one entry of the translation buffer
    has no effect on memory and is left out.  A panic is a run that goes wrong.

    [xlate] is the walk the processor does.  [pt_inv] says that the tables below the
    root form a tree of pages the allocator does not hand out; the level of every
    table of the tree is a finite map.  Mapping a page then changes the translation
    of that page and of no other. *)
From S2P Require Import Prelude RawMem Pmm Heap.
Local Open Scope kernel_scope.

(** [kernel/memory/vmm.h 1-4] *)
Definition PTE_PRESENT : Z := 1.
Definition PTE_WRITABLE : Z := 2.
Definition PTE_WRITETHRU : Z := 8.
Definition PTE_NOCACHE : Z := 16.
(** [kernel/memory/vmm.c 1-1] *)
Definition PTE_ADDR_MASK : Z := 0x000FFFFFFFFFF000.

(** [table[index]] for a table of 64-bit entries. *)
Definition pte_load (table index : Z) : M heap Z := gets (λ h, load64 (hp_mem h) (table + 8 * index)).
Definition pte_store (table index v : Z) : M heap unit := on_mem (store64 (table + 8 * index) v).

(** [kernel/memory/vmm.c: table_get_or_alloc] *)
Definition table_get_or_alloc (table index : Z) : M heap Z :=
  e ← pte_load table index;
  (if Z.land e PTE_PRESENT =? 0 then
     new_table ← on_pmm pmm_alloc_page;
     if new_table =? 0 then fail
     else
       on_mem (mem_fill (Z.to_nat PAGE_SIZE) new_table 0);;
       phys ← on_pmm (virt_to_phys new_table);
       pte_store table index (Z.lor (Z.lor (Z.land phys PTE_ADDR_MASK) PTE_PRESENT) PTE_WRITABLE)
   else mret tt);;
  e ← pte_load table index;
  on_pmm (phys_to_virt (Z.land e PTE_ADDR_MASK)).

(** [kernel/memory/vmm.c: vmm_map_page] *)
Definition vmm_map_page (cr3 virt phys flags : Z) : M heap unit :=
  let pml4_idx := Z.land (Z.shiftr virt 39) 0x1FF in
  let pdpt_idx := Z.land (Z.shiftr virt 30) 0x1FF in
  let pd_idx := Z.land (Z.shiftr virt 21) 0x1FF in
  let pt_idx := Z.land (Z.shiftr virt 12) 0x1FF in
  pml4 ← on_pmm (phys_to_virt (Z.land cr3 PTE_ADDR_MASK));
  pdpt ← table_get_or_alloc pml4 pml4_idx;
  pd ← table_get_or_alloc pdpt pdpt_idx;
  pt ← table_get_or_alloc pd pd_idx;
  pte_store pt pt_idx (Z.lor (Z.lor (Z.land phys PTE_ADDR_MASK) flags) PTE_PRESENT).

(** [x & ~(PAGE_SIZE - 1)] on 64 bits, and [ALIGN_UP].
    [kernel/common.h 11-12] *)
Definition page_down (x : Z) : Z := Z.land x (2 ^ 64 - PAGE_SIZE).
Definition page_up (x : Z) : Z := page_down (u64 (x + PAGE_SIZE - 1)).

(** The loop of [vmm_map_mmio]: both ends are page aligned, so [n] pages are left
    when [off + n * PAGE_SIZE] is the length.
    [kernel/memory/vmm.c: vmm_map_mmio 61-64] *)
Fixpoint map_mmio_loop (n : nat) (cr3 virt_start phys_start off : Z) : M heap unit :=
  match n with
  | O => mret tt
  | S n' =>
    vmm_map_page cr3 (u64 (virt_start + off)) (u64 (phys_start + off))
      (Z.lor (Z.lor PTE_WRITABLE PTE_NOCACHE) PTE_WRITETHRU);;
    map_mmio_loop n' cr3 virt_start phys_start (off + PAGE_SIZE)
  end.

(** [kernel/memory/vmm.c: vmm_map_mmio] *)
Definition vmm_map_mmio (cr3 phys size : Z) : M heap Z :=
  let phys_start := page_down phys in
  let phys_end := page_up (u64 (phys + size)) in
  virt_start ← on_pmm (phys_to_virt phys_start);
  map_mmio_loop (Z.to_nat (u64 (phys_end - phys_start) / PAGE_SIZE)) cr3 virt_start phys_start 0;;
  mret (u64 (virt_start + (phys - phys_start))).

(** ** The walk of the processor *)

Definition hhdm (h : heap) : Z := hhdm_offset (hp_pmm h).
(** Entry [i] of the table at physical address [t]. *)
Definition entry (h : heap) (t i : Z) : Z := load64 (hp_mem h) (hhdm h + t + 8 * i).
(** The index a virtual address has in a table of level [k]. *)
Definition pt_index (k : nat) (v : Z) : Z := Z.land (Z.shiftr v (12 + 9 * Z.of_nat k)) 0x1FF.
(** The bit that ends the walk above the last level. *)
Definition pte_huge (e : Z) : bool := Z.testbit e 7.
Definition pte_present (e : Z) : bool := negb (Z.land e PTE_PRESENT =? 0).

(** The level and the entry the walk for [v] from table [t] ends at. *)
Fixpoint xlate (k : nat) (h : heap) (t v : Z) : option (nat * Z) :=
  let e := entry h t (pt_index k v) in
  if pte_present e then
    match k with
    | O => Some (O, e)
    | S k' => if pte_huge e then Some (k, e) else xlate k' h (Z.land e PTE_ADDR_MASK) v
    end
  else None.

(** Two addresses in the same 4 KiB page of the 48-bit space. *)
Definition same_page (v v' : Z) : Prop := (v mod 2 ^ 48) / PAGE_SIZE = (v' mod 2 ^ 48) / PAGE_SIZE.

(** ** The tree of tables *)

(** Entry [i] of table [t] points to table [c]. *)
Definition points (h : heap) (t i c : Z) : Prop :=
  pte_present (entry h t i) = true ∧ pte_huge (entry h t i) = false ∧
  c = Z.land (entry h t i) PTE_ADDR_MASK.

Record pt_inv (h : heap) (root : Z) (lv : gmap Z nat) : Prop := {
  pi_wf : pmm_wf (hp_pmm h);
  pi_root : lv !! root = Some 3%nat;
  pi_table t k : lv !! t = Some k →
    t mod PAGE_SIZE = 0 ∧ 0 <= t ∧ hhdm h + t + PAGE_SIZE <= 2 ^ 64 ∧
    page_bit (hp_pmm h) (t / PAGE_SIZE) ≠ Some false;
  pi_child t k i c : lv !! t = Some (S k) → 0 <= i < 512 → points h t i c → lv !! c = Some k;
  pi_inj t t' k i i' c : lv !! t = Some (S k) → lv !! t' = Some (S k) →
    0 <= i < 512 → 0 <= i' < 512 → points h t i c → points h t' i' c → t = t' ∧ i = i'
}.

(** Byte [a] belongs to a table of the tree. *)
Definition in_table (h : heap) (lv : gmap Z nat) (a : Z) : Prop :=
  ∃ t k, lv !! t = Some k ∧ hhdm h + t <= a < hhdm h + t + PAGE_SIZE.

(** [h'] with tree [lv'] is [h] with tree [lv] and at most [n] more pages in use as
    tables: nothing else happened. *)
Record pt_frame (n : Z) (h : heap) (lv : gmap Z nat) (h' : heap) (lv' : gmap Z nat) : Prop := {
  pf_tree : lv ⊆ lv';
  pf_hhdm : hhdm h' = hhdm h;
  pf_total : total_pages (hp_pmm h') = total_pages (hp_pmm h);
  pf_free : free_pages (hp_pmm h) - n <= free_pages (hp_pmm h');
  pf_used j : 0 <= j → page_bit (hp_pmm h') j = page_bit (hp_pmm h) j ∨
    page_bit (hp_pmm h) j = Some false ∧ is_Some (lv' !! (j * PAGE_SIZE));
  pf_mem a : ¬ in_table h' lv' a → mem_get (hp_mem h') a = mem_get (hp_mem h) a
}.

(** Growing the tree by empty tables: every walk ends where it did. *)
Record pt_grown (n : Z) (h : heap) (lv : gmap Z nat) (h' : heap) (lv' : gmap Z nat) : Prop := {
  pg_frame : pt_frame n h lv h' lv';
  pg_points t k i c : lv !! t = Some (S k) → 0 <= i < 512 → points h t i c → points h' t i c;
  pg_xlate t k v : lv !! t = Some k → xlate k h' t v = xlate k h t v
}.

(** ** Lemmas: indices and entries *)
Lemma pt_index_mod k v : pt_index k v = (v / 2 ^ (12 + 9 * Z.of_nat k)) mod 512.
Proof.
  unfold pt_index. rewrite Z.shiftr_div_pow2 by lia. change 0x1FF with (Z.ones 9).
  by rewrite Z.land_ones by lia.
Qed.
Lemma pt_index_range k v : 0 <= pt_index k v < 512.
Proof. rewrite pt_index_mod. by apply Z.mod_pos_bound. Qed.

Lemma same_page_indices v v' :
  (∀ k, (k <= 3)%nat → pt_index k v = pt_index k v') → same_page v v'.
Proof.
  intros H. pose proof (H 0%nat ltac:(lia)) as H0. pose proof (H 1%nat ltac:(lia)) as H1.
  pose proof (H 2%nat ltac:(lia)) as H2. pose proof (H 3%nat ltac:(lia)) as H3.
  rewrite !pt_index_mod in H0, H1, H2, H3. simpl Z.of_nat in *.
  change (12 + 9 * 0) with 12 in *. change (12 + 9 * 1) with 21 in *.
  change (12 + 9 * 2) with 30 in *. change (12 + 9 * 3) with 39 in *.
  unfold same_page, PAGE_SIZE. Z.to_euclidean_division_equations. lia.
Qed.

Lemma page_indices v v' k : same_page v v' → (k <= 3)%nat → pt_index k v = pt_index k v'.
Proof.
  unfold same_page, PAGE_SIZE. intros H Hk. rewrite !pt_index_mod.
  destruct k as [|[|[|[|k]]]]; [| | | |lia]; simpl Z.of_nat;
    change (12 + 9 * 0) with 12; change (12 + 9 * 1) with 21;
    change (12 + 9 * 2) with 30; change (12 + 9 * 3) with 39;
    Z.to_euclidean_division_equations; lia.
Qed.

Lemma pt_frame_refl h lv : pt_frame 0 h lv h lv.
Proof. constructor; try done; [lia|by left]. Qed.

Lemma addr_mask_page p : 0 <= p < 2 ^ 52 → p mod PAGE_SIZE = 0 → Z.land p PTE_ADDR_MASK = p.
Proof.
  unfold PAGE_SIZE, PTE_ADDR_MASK. intros Hp Hm.
  assert (p = Z.shiftl (p / 4096) 12) as E.
  { rewrite Z.shiftl_mul_pow2 by lia. pose proof (Z.div_mod p 4096). lia. }
  change 0x000FFFFFFFFFF000 with (Z.shiftl (Z.ones 40) 12). rewrite E, <- Z.shiftl_land.
  f_equal. rewrite Z.land_ones by lia. apply Z.mod_small.
  split; [apply Z.div_pos; lia|]. apply Z.div_lt_upper_bound; lia.
Qed.

Lemma land_mask_idem x y : Z.land (Z.land x y) y = Z.land x y.
Proof. by rewrite <- Z.land_assoc, Z.land_diag. Qed.

(** The entry that makes page [p] a table. *)
Lemma new_entry p (e := Z.lor (Z.lor (Z.land p PTE_ADDR_MASK) PTE_PRESENT) PTE_WRITABLE) :
  0 <= p < 2 ^ 52 → p mod PAGE_SIZE = 0 →
  Z.land e PTE_ADDR_MASK = p ∧ pte_present e = true ∧ pte_huge e = false ∧ 0 <= e < 2 ^ 64.
Proof.
  intros Hp Hm. subst e. rewrite (addr_mask_page p Hp Hm).
  assert (E : Z.lor (Z.lor p PTE_PRESENT) PTE_WRITABLE = p + 3).
  { rewrite <- Z.lor_assoc. change (Z.lor PTE_PRESENT PTE_WRITABLE) with 3.
    rewrite Z.add_nocarry_lxor, Z.lxor_lor; [done| |].
    all: rewrite <- (addr_mask_page p Hp Hm), <- Z.land_assoc; apply Z.land_0_r. }
  split_and!.
  - rewrite !Z.land_lor_distr_l, addr_mask_page by done.
    change (Z.land PTE_PRESENT PTE_ADDR_MASK) with 0. change (Z.land PTE_WRITABLE PTE_ADDR_MASK) with 0.
    by rewrite !Z.lor_0_r.
  - unfold pte_present. rewrite !Z.land_lor_distr_l. rewrite <- (addr_mask_page p Hp Hm), <- Z.land_assoc.
    change (Z.land PTE_ADDR_MASK PTE_PRESENT) with 0. by rewrite Z.land_0_r.
  - unfold pte_huge. rewrite !Z.lor_spec, <- (addr_mask_page p Hp Hm), Z.land_spec.
    change (Z.testbit PTE_ADDR_MASK 7) with false. by rewrite andb_false_r.
  - rewrite E. lia.
  - rewrite E. unfold PAGE_SIZE in Hm. Z.to_euclidean_division_equations. lia.
Qed.

(** Entries of the tables of a tree are apart. *)
Lemma entry_apart h root lv t k t' k' i i' x :
  pt_inv h root lv → lv !! t = Some k → lv !! t' = Some k' → 0 <= i < 512 → 0 <= i' < 512 →
  (t, i) ≠ (t', i') → hhdm h + t + 8 * i <= x < hhdm h + t + 8 * i + 8 →
  ¬ (hhdm h + t' + 8 * i' <= x < hhdm h + t' + 8 * i' + 8).
Proof.
  intros I Ht Ht' Hi Hi' Hne Hx Hx'.
  destruct (pi_table _ _ _ I _ _ Ht) as (M & _), (pi_table _ _ _ I _ _ Ht') as (M' & _).
  unfold PAGE_SIZE in *. apply Hne. assert (t = t') by (Z.to_euclidean_division_equations; lia).
  f_equal; lia.
Qed.

Lemma entry_store h root lv t k t' k' i i' v :
  pt_inv h root lv → lv !! t = Some k → lv !! t' = Some k' → 0 <= i < 512 → 0 <= i' < 512 →
  (t', i') ≠ (t, i) →
  entry (Heap (hp_pmm h) (store64 (hhdm h + t + 8 * i) v (hp_mem h))) t' i' = entry h t' i'.
Proof.
  intros I Ht Ht' Hi Hi' Hne. unfold entry, hhdm. simpl. apply load64_ext. intros x Hx.
  apply store64_get. eapply (entry_apart h root lv t' k' t k i' i); eauto.
Qed.

Lemma entry_store_same h t i v :
  0 <= v < 2 ^ 64 → entry (Heap (hp_pmm h) (store64 (hhdm h + t + 8 * i) v (hp_mem h))) t i = v.
Proof. intros Hv. unfold entry, hhdm. simpl. by apply load_store64. Qed.

(** A walk depends on the entries of the tables of the tree only. *)
Lemma xlate_ext h h' root lv t k v :
  pt_inv h root lv → lv !! t = Some k →
  (∀ t k i, lv !! t = Some k → 0 <= i < 512 → entry h' t i = entry h t i) →
  xlate k h' t v = xlate k h t v.
Proof.
  intros I Ht E. revert t Ht. induction k as [|k IH]; intros t Ht; simpl;
    rewrite (E t _ _ Ht) by apply pt_index_range; [done|].
  destruct (pte_present _) eqn:P; [|done]. destruct (pte_huge _) eqn:G; [done|].
  apply IH. eapply (pi_child _ _ _ I); [exact Ht|apply pt_index_range|]. by split_and!.
Qed.

Lemma free_page_exists s : pmm_wf s → 0 < free_pages s →
  ∃ j, 0 <= j < total_pages s ∧ page_bit s j = Some false.
Proof.
  intros W. rewrite (wf_count s W). pose proof (wf_cover s W).
  assert (G : ∀ n, 0 < count_free (bitmap s) n → ∃ j, 0 <= j < Z.of_nat n ∧ page_bit s j = Some false).
  { induction n as [|n IH]; simpl count_free; [lia|]. case_bool_decide as B.
    - intros _. exists (Z.of_nat n). split; [lia|exact B].
    - rewrite Z.add_0_r. intros H'. destruct (IH H') as (j & Hj & Hb). exists j. split; [lia|done]. }
  intros H'. destruct (G _ H') as (j & Hj & Hb). exists j. split; [lia|done].
Qed.

(** With a free page the allocation of one gives it. *)
Lemma alloc_table_wp s (Q : Z → pmm → Prop) :
  pmm_wf s → 0 < free_pages s →
  (∀ j s', 0 <= j < total_pages s → page_bit s j = Some false → pages_set s s' j 1 true →
     free_pages s' = free_pages s - 1 → pmm_wf s' → Q (page_addr s j) s') →
  wp pmm_alloc_page Q s.
Proof.
  intros W Hf HQ. unfold wp. rewrite pmm_alloc_page_is_pages_1.
  eapply wp_mono; [apply (pmm_alloc_pages_wp s 1 W); lia|].
  intros p s' [(j & Hj & Hj1 & -> & Hfree & _ & P & F & W')|(-> & -> & N)].
  - apply HQ; try done; [lia|]. apply Hfree. lia.
  - destruct (free_page_exists s W Hf) as (j & Hj & Hb). exfalso. apply (N j); [lia|lia|].
    intros k Hk. by replace k with j by lia.
Qed.

(** ** Lemmas: growing the tree *)
Lemma in_table_mono n h lv h' lv' a : pt_frame n h lv h' lv' → in_table h lv a → in_table h' lv' a.
Proof.
  intros F (t & k & Ht & Ha). exists t, k. rewrite (pf_hhdm _ _ _ _ _ F). split; [|done].
  by eapply lookup_weaken; [|apply F].
Qed.

Lemma pt_frame_trans n n' h lv h1 lv1 h2 lv2 :
  pt_frame n h lv h1 lv1 → pt_frame n' h1 lv1 h2 lv2 → pt_frame (n + n') h lv h2 lv2.
Proof.
  intros F G. pose proof F as [T H P R U M]. pose proof G as [T' H' P' R' U' M']. constructor.
  - by transitivity lv1.
  - congruence.
  - congruence.
  - lia.
  - intros j Hj. destruct (U j Hj) as [E|(E & S)], (U' j Hj) as [E'|(E' & S')].
    + left. congruence.
    + right. split; [congruence|done].
    + right. split; [done|]. destruct S as [x Hx]. exists x. eapply lookup_weaken; [exact Hx|exact T'].
    + by right.
  - intros a Ha. rewrite M' by done. apply M. intros Hin. apply Ha. by eapply in_table_mono.
Qed.

Lemma pt_grown_trans n n' h lv h1 lv1 h2 lv2 :
  pt_grown n h lv h1 lv1 → pt_grown n' h1 lv1 h2 lv2 → pt_grown (n + n') h lv h2 lv2.
Proof.
  intros G G'. pose proof (pg_frame _ _ _ _ _ G) as F. constructor.
  - eapply pt_frame_trans; [exact F|apply G'].
  - intros t k i c Ht Hi Hp. eapply (pg_points _ _ _ _ _ G'); [|done|by eapply (pg_points _ _ _ _ _ G)].
    eapply lookup_weaken; [exact Ht|apply F].
  - intros t k v Ht. rewrite (pg_xlate _ _ _ _ _ G' t), (pg_xlate _ _ _ _ _ G t); try done.
    eapply lookup_weaken; [exact Ht|apply F].
Qed.

Lemma pt_grown_refl h lv : pt_grown 0 h lv h lv.
Proof. constructor; [apply pt_frame_refl|done|done]. Qed.

#[local] Arguments mem_fill : simpl never.
(** The kernel compares memories without running the fill of a page. *)
#[local] Strategy 100 [mem_fill].
Lemma entry_heap s m t i : entry (Heap s m) t i = load64 m (hhdm_offset s + t + 8 * i).
Proof. reflexivity. Qed.

Lemma zeroed_entry n p (m : mem) a : p <= a → a + 8 <= p + Z.of_nat n → load64 (mem_fill n p 0 m) a = 0.
Proof.
  intros H H'. rewrite (load64_ext _ (mem_fill 8 a 0 ∅)).
  - unfold load64. cbn [mem_load]. rewrite !mem_fill_get. by repeat (rewrite decide_True by lia).
  - intros x Hx. by rewrite !mem_fill_get, !decide_True by lia.
Qed.

(** A page taken from the allocator and filled with zeros joins the tables. *)
Section Fresh.
Context (h : heap) (root : Z) (lv : gmap Z nat) (k : nat) (j : Z) (s' : pmm).
Let c : Z := j * PAGE_SIZE.
Let h' : heap := Heap s' (mem_fill (Z.to_nat PAGE_SIZE) (page_addr (hp_pmm h) j) 0 (hp_mem h)).
Context (I : pt_inv h root lv) (Hj : 0 <= j < total_pages (hp_pmm h)).
Context (Hb : page_bit (hp_pmm h) j = Some false) (P : pages_set (hp_pmm h) s' j 1 true).
Context (Hf : free_pages s' = free_pages (hp_pmm h) - 1) (W' : pmm_wf s').

Lemma fresh_hhdm : hhdm_offset s' = hhdm_offset (hp_pmm h).
Proof using P. destruct P as [(_ & _ & _ & E & _) _]. exact E. Qed.

Lemma fresh_unused : lv !! c = None.
Proof using I Hb.
  destruct (lv !! c) as [k'|] eqn:E; [|done]. destruct (pi_table _ _ _ I _ _ E) as (_ & _ & _ & N).
  unfold c in N. by rewrite Z.div_mul in N by done.
Qed.

Lemma fresh_entry t kt i : lv !! t = Some kt → 0 <= i < 512 → entry h' t i = entry h t i.
Proof using I Hb P.
  intros Ht Hi. unfold h'. rewrite entry_heap, fresh_hhdm. apply load64_ext. intros x Hx.
  rewrite mem_fill_get, decide_False; [done|].
  destruct (pi_table _ _ _ I _ _ Ht) as (Mt & _). assert (t ≠ c) as Hne by (intros ->; by rewrite fresh_unused in Ht).
  unfold hhdm, page_addr, c, PAGE_SIZE in *. clear - Mt Hne Hx Hi. change (Z.of_nat (Z.to_nat 4096)) with 4096.
  Z.to_euclidean_division_equations. lia.
Qed.

Lemma fresh_zero i : 0 <= i < 512 → entry h' c i = 0.
Proof using P.
  intros Hi. unfold h'. rewrite entry_heap, fresh_hhdm. apply zeroed_entry; rewrite ?Z2Nat.id by done;
    unfold page_addr, c, PAGE_SIZE in *; lia.
Qed.

Lemma fresh_grown : pt_grown 1 h lv h' (<[c := k]> lv).
Proof using I Hj Hb P Hf W'.
  pose proof fresh_unused as Hc. destruct (P) as [(_ & Hhi & _) B]. constructor; [constructor|..].
  - by apply insert_subseteq.
  - apply fresh_hhdm.
  - unfold h', total_pages. cbn [hp_pmm]. congruence.
  - unfold h'. cbn [hp_pmm]. lia.
  - intros j' Hj'. unfold h'. cbn [hp_pmm]. rewrite B by done. destruct (decide _) as [Hin|]; [|by left].
    replace j' with j by lia. right. split; [done|]. fold c. rewrite lookup_insert_eq. eauto.
  - intros a Ha. unfold h'. cbn [hp_mem]. rewrite mem_fill_get, decide_False; [done|]. intros Hin. apply Ha.
    exists c, k. rewrite lookup_insert_eq. split; [done|]. unfold hhdm, h'. cbn [hp_pmm]. rewrite fresh_hhdm.
    unfold page_addr, c, PAGE_SIZE in *. lia.
  - intros t k' i d Ht Hi. unfold points. by rewrite (fresh_entry t _ i Ht Hi).
  - intros t k' v Ht. eapply xlate_ext; [exact I|exact Ht|]. intros ???. apply fresh_entry.
Qed.

Lemma fresh_points t kt i d : <[c := k]> lv !! t = Some kt → 0 <= i < 512 → points h' t i d →
  lv !! t = Some kt ∧ points h t i d.
Proof using I Hb P.
  intros Ht Hi Hp. destruct (decide (t = c)) as [->|Hne].
  - destruct Hp as (Hp & _). by rewrite fresh_zero in Hp.
  - rewrite lookup_insert_ne in Ht by done. split; [done|]. unfold points in *. by rewrite (fresh_entry t _ i Ht Hi) in Hp.
Qed.

Lemma fresh_table_ok : c mod PAGE_SIZE = 0 ∧ 0 <= c < 2 ^ 52 ∧ hhdm h + c + PAGE_SIZE <= 2 ^ 64.
Proof using I Hj.
  destruct (wf_hhdm _ (pi_wf _ _ _ I)) as (H1 & H2 & H3). pose proof (wf_phys _ (pi_wf _ _ _ I)) as H4.
  unfold hhdm, c, PAGE_SIZE, total_pages, PAGE_SIZE in *. rewrite Z.mod_mul by done.
  clear - Hj H1 H2 H3 H4. revert Hj H2. Z.to_euclidean_division_equations. lia.
Qed.

Lemma fresh_inv : pt_inv h' root (<[c := k]> lv).
Proof using I Hj Hb P W'.
  pose proof fresh_unused as Hc. destruct (P) as [_ B]. constructor.
  - done.
  - rewrite lookup_insert_ne; [apply I|]. intros E. rewrite E, (pi_root _ _ _ I) in Hc. done.
  - intros t k' Ht. change (hhdm h') with (hhdm_offset s'). change (hp_pmm h') with s'.
    rewrite fresh_hhdm. destruct (decide (t = c)) as [->|Hne].
    + destruct fresh_table_ok as (H1 & H2 & H3). split_and!; [done|lia|exact H3|].
      unfold c. rewrite Z.div_mul by done. by rewrite B, decide_True by lia.
    + rewrite lookup_insert_ne in Ht by done. destruct (pi_table _ _ _ I _ _ Ht) as (H1 & H2 & H3 & N).
      split_and!; [done|done|exact H3|]. rewrite B by (apply Z.div_pos; done). destruct decide; [done|exact N].
  - intros t k' i d Ht Hi Hp. destruct (fresh_points _ _ _ _ Ht Hi Hp) as [Ht' Hp'].
    pose proof (pi_child _ _ _ I _ _ _ _ Ht' Hi Hp') as Hd. rewrite lookup_insert_ne; [done|].
    intros E. rewrite E, Hd in Hc. done.
  - intros t t' k' i i' d Ht Ht' Hi Hi' Hp Hp'.
    destruct (fresh_points _ _ _ _ Ht Hi Hp) as [? ?], (fresh_points _ _ _ _ Ht' Hi' Hp') as [? ?].
    by eapply (pi_inj _ _ _ I).
Qed.

(** Nothing points to the new table yet. *)
Lemma fresh_orphan t kt i : <[c := k]> lv !! t = Some (S kt) → 0 <= i < 512 → ¬ points h' t i c.
Proof using I Hb P.
  intros Ht Hi Hp. destruct (fresh_points _ _ _ _ Ht Hi Hp) as [Ht' Hp'].
  pose proof (pi_child _ _ _ I _ _ _ _ Ht' Hi Hp') as E. by rewrite fresh_unused in E.
Qed.
End Fresh.

Definition set_entry (t i v : Z) (h : heap) : heap :=
  Heap (hp_pmm h) (store64 (hhdm h + t + 8 * i) v (hp_mem h)).

Lemma set_entry_frame h lv t k i v :
  lv !! t = Some k → 0 <= i < 512 → pt_frame 0 h lv (set_entry t i v h) lv.
Proof.
  intros Ht Hi. constructor; try done; [simpl; lia|by left|]. intros a Ha. simpl. apply store64_get.
  intros Hin. apply Ha. exists t, k. split; [done|]. unfold set_entry, hhdm, PAGE_SIZE in *. simpl. lia.
Qed.

(** Links and walks of the tree after one entry of it is written. *)
Lemma set_entry_points h root lv t k i v t' k' i' d :
  pt_inv h root lv → lv !! t = Some k → lv !! t' = Some k' → 0 <= i < 512 → 0 <= i' < 512 →
  (t', i') ≠ (t, i) → points (set_entry t i v h) t' i' d ↔ points h t' i' d.
Proof. intros. unfold points, set_entry. by rewrite (entry_store h root lv t k t' k') by done. Qed.

Section Link.
Context (h : heap) (root : Z) (lv : gmap Z nat) (t : Z) (k : nat) (i c e : Z).
Context (I : pt_inv h root lv) (Ht : lv !! t = Some (S k)) (Hi : 0 <= i < 512) (Hc : lv !! c = Some k).
Context (Habs : pte_present (entry h t i) = false) (Hz : ∀ j, 0 <= j < 512 → entry h c j = 0).
Context (Horphan : ∀ t kt i, lv !! t = Some (S kt) → 0 <= i < 512 → ¬ points h t i c).
Context (He : Z.land e PTE_ADDR_MASK = c ∧ pte_present e = true ∧ pte_huge e = false ∧ 0 <= e < 2 ^ 64).
Let h' : heap := set_entry t i e h.

Lemma link_points : points h' t i c.
Proof using He.
  destruct He as (E & P & G & R). unfold points, h', set_entry. by rewrite entry_store_same, E.
Qed.

Lemma link_other t' kt i' d : lv !! t' = Some kt → 0 <= i' < 512 → (t', i') ≠ (t, i) →
  points h' t' i' d ↔ points h t' i' d.
Proof using I Ht Hi. intros. by eapply set_entry_points. Qed.

Lemma link_xlate t' k' v : lv !! t' = Some k' → xlate k' h' t' v = xlate k' h t' v.
Proof using I Ht Hi Hc Habs Hz He.
  revert t'. induction k' as [|k' IH]; intros t' Ht'; simpl.
  - unfold h', set_entry. rewrite (entry_store h root lv t (S k) t' 0); try done; [apply pt_index_range|congruence].
  - destruct (decide ((t', pt_index (S k') v) = (t, i))) as [E|Hne].
    + injection E as -> Ei. assert (k' = k) as -> by congruence.
      rewrite Ei, Habs. destruct link_points as (-> & -> & <-). rewrite IH by done.
      destruct k; simpl; rewrite Hz by apply pt_index_range; done.
    + assert (entry h' t' (pt_index (S k') v) = entry h t' (pt_index (S k') v)) as ->.
      { apply (entry_store h root lv t (S k) t' (S k')); try done. apply pt_index_range. }
      set (e' := entry h t' (pt_index (S k') v)). destruct (pte_present e') eqn:P; [|done].
      destruct (pte_huge e') eqn:G; [done|]. apply IH.
      eapply (pi_child _ _ _ I); [exact Ht'|apply pt_index_range|by split_and!].
Qed.

Lemma link_grown : pt_grown 0 h lv h' lv.
Proof using I Ht Hi Hc Habs Hz He.
  constructor; [by eapply set_entry_frame| |].
  - intros t' k' i' d Ht' Hi' Hp. eapply link_other; [exact Ht'|done| |done].
    intros E. injection E as -> ->. destruct Hp as (Hp & _). congruence.
  - intros t' k' v. apply link_xlate.
Qed.

Lemma link_inv : pt_inv h' root lv.
Proof using I Ht Hi Hc Horphan He.
  pose proof link_points as LP.
  assert (PE : ∀ t' kt i' d, lv !! t' = Some (S kt) → 0 <= i' < 512 → points h' t' i' d →
    t' = t ∧ i' = i ∧ d = c ∨ points h t' i' d ∧ d ≠ c).
  { intros t' kt i' d Ht' Hi' Hp. destruct (decide ((t', i') = (t, i))) as [E|Hne].
    - injection E as -> ->. left. split_and!; [done|done|]. destruct Hp as (_ & _ & E1), LP as (_ & _ & E2). congruence.
    - right. pose proof (proj1 (link_other _ _ _ d Ht' Hi' Hne) Hp) as Hp'. split; [done|]. intros ->. by eapply Horphan. }
  constructor; [apply I|apply I|apply I|..].
  - intros t' k' i' d Ht' Hi' Hp. destruct (PE _ _ _ _ Ht' Hi' Hp) as [(-> & -> & ->)|[Hp' _]].
    + congruence.
    + by eapply (pi_child _ _ _ I).
  - intros t1 t2 k' i1 i2 d Ht1 Ht2 Hi1 Hi2 Hp1 Hp2.
    destruct (PE _ _ _ _ Ht1 Hi1 Hp1) as [(-> & -> & ->)|[Hp1' ?]], (PE _ _ _ _ Ht2 Hi2 Hp2) as [(-> & -> & ?)|[Hp2' ?]]; try done.
    by eapply (pi_inj _ _ _ I).
Qed.
End Link.

(** ** The operations *)
Lemma pt_frame_more n n' h lv h' lv' : n <= n' → pt_frame n h lv h' lv' → pt_frame n' h lv h' lv'.
Proof. intros Hn []. constructor; try done. lia. Qed.
Lemma pt_grown_more n n' h lv h' lv' : n <= n' → pt_grown n h lv h' lv' → pt_grown n' h lv h' lv'.
Proof. intros Hn []. constructor; try done. by eapply pt_frame_more. Qed.

Lemma table_virt_wp h root lv t k (Q : Z → heap → Prop) :
  pt_inv h root lv → lv !! t = Some k → Q (hhdm h + t) h → wp (on_pmm (phys_to_virt t)) Q h.
Proof.
  intros I Ht HQ. unfold on_pmm, phys_to_virt. wp_steps.
  destruct (pi_table _ _ _ I _ _ Ht) as (_ & H1 & H2 & _), (wf_hhdm _ (pi_wf _ _ _ I)) as (H3 & _).
  unfold hhdm, PAGE_SIZE in *. rewrite u64_small by lia. rewrite Z.add_comm. by destruct h.
Qed.

(** A fresh page linked into an absent entry. *)
Definition new_pte (c : Z) : Z := Z.lor (Z.lor (Z.land c PTE_ADDR_MASK) PTE_PRESENT) PTE_WRITABLE.
Definition with_fresh (h : heap) (j : Z) (s' : pmm) : heap :=
  Heap s' (mem_fill (Z.to_nat PAGE_SIZE) (page_addr (hp_pmm h) j) 0 (hp_mem h)).

Lemma grow_tree h root lv t k i j s' (c := j * PAGE_SIZE) (h' := set_entry t i (new_pte c) (with_fresh h j s')) :
  pt_inv h root lv → lv !! t = Some (S k) → 0 <= i < 512 → pte_present (entry h t i) = false →
  0 <= j < total_pages (hp_pmm h) → page_bit (hp_pmm h) j = Some false →
  pages_set (hp_pmm h) s' j 1 true → free_pages s' = free_pages (hp_pmm h) - 1 → pmm_wf s' →
  pt_inv h' root (<[c := k]> lv) ∧ pt_grown 1 h lv h' (<[c := k]> lv) ∧ points h' t i c.
Proof.
  intros I Ht Hi Habs Hj Hb P Hf W'.
  destruct (fresh_table_ok h root lv j I Hj) as (C1 & C2 & C3).
  pose proof (fresh_grown h root lv k j s' I Hj Hb P Hf W') as G1.
  pose proof (fresh_inv h root lv k j s' I Hj Hb P W') as I1.
  pose proof (new_entry c C2 C1) as He.
  assert (Ht1 : <[c := k]> lv !! t = Some (S k)) by (eapply lookup_weaken; [exact Ht|apply G1]).
  assert (Hc1 : <[c := k]> lv !! c = Some k) by apply lookup_insert_eq.
  rewrite <- (fresh_entry h root lv j s' I Hb P t _ i Ht Hi) in Habs.
  pose proof (fresh_zero h j s' P) as Z1.
  pose proof (fresh_orphan h root lv k j s' I Hb P) as O1. split_and!.
  - by eapply link_inv.
  - replace 1 with (1 + 0) by done. eapply pt_grown_trans; [exact G1|]. by eapply link_grown.
  - by apply link_points.
Qed.

Lemma install_table_wp h root lv t k i (Q : unit → heap → Prop) :
  pt_inv h root lv → lv !! t = Some (S k) → 0 <= i < 512 → 0 < free_pages (hp_pmm h) →
  pte_present (entry h t i) = false →
  (∀ h' lv' c, pt_inv h' root lv' → pt_grown 1 h lv h' lv' → points h' t i c → Q tt h') →
  wp (new_table ← on_pmm pmm_alloc_page;
      if new_table =? 0 then fail
      else on_mem (mem_fill (Z.to_nat PAGE_SIZE) new_table 0);;
           phys ← on_pmm (virt_to_phys new_table); pte_store (hhdm h + t) i (new_pte phys)) Q h.
Proof.
  intros I Ht Hi Hf Habs HQ. unfold on_pmm. wp_steps.
  apply alloc_table_wp; [apply I|done|]. intros j s' Hj Hb P Hf' W'.
  destruct (fresh_table_ok h root lv j I Hj) as (C1 & C2 & C3), (wf_hhdm _ (pi_wf _ _ _ I)) as (H3 & _).
  destruct (Z.eqb_spec (page_addr (hp_pmm h) j) 0) as [E|_]; [unfold page_addr in E; lia|].
  unfold on_mem, pte_store, on_pmm. wp_steps. unfold on_mem, virt_to_phys. wp_steps. cbn [hp_pmm hp_mem].
  pose proof (fresh_hhdm h j s' P) as EH.
  assert (u64 (page_addr (hp_pmm h) j - hhdm_offset s') = j * PAGE_SIZE) as ->.
  { rewrite EH. unfold page_addr. rewrite u64_small; lia. }
  destruct (grow_tree h root lv t k i j s' I Ht Hi Habs Hj Hb P Hf' W') as (I' & G' & P').
  assert (hhdm h = hhdm (with_fresh h j s')) as -> by (symmetry; exact EH).
  exact (HQ _ _ _ I' G' P').
Qed.

Lemma table_get_or_alloc_wp h root lv t k i (Q : Z → heap → Prop) :
  pt_inv h root lv → lv !! t = Some (S k) → 0 <= i < 512 → 0 < free_pages (hp_pmm h) →
  (pte_present (entry h t i) = true → pte_huge (entry h t i) = false) →
  (∀ h' lv' c, pt_inv h' root lv' → pt_grown 1 h lv h' lv' → lv' !! c = Some k → points h' t i c →
     Q (hhdm h' + c) h') →
  wp (table_get_or_alloc (hhdm h + t) i) Q h.
Proof.
  intros I Ht Hi Hf Hg HQ. unfold table_get_or_alloc. unfold pte_load at 1.
  apply wp_bind, wp_gets. cbv beta. change (load64 (hp_mem h) (hhdm h + t + 8 * i)) with (entry h t i).
  assert (N : ∀ h' lv' c, pt_inv h' root lv' → pt_grown 1 h lv h' lv' → points h' t i c →
    wp (e ← pte_load (hhdm h + t) i; on_pmm (phys_to_virt (Z.land e PTE_ADDR_MASK))) Q h').
  { intros h' lv' c I' G' P'. unfold pte_load. wp_steps.
    rewrite <- (pf_hhdm _ _ _ _ _ (pg_frame _ _ _ _ _ G')).
    change (load64 (hp_mem h') (hhdm h' + t + 8 * i)) with (entry h' t i).
    assert (lv' !! t = Some (S k)) as Ht' by (eapply lookup_weaken; [exact Ht|apply G']).
    pose proof (pi_child _ _ _ I' _ _ _ _ Ht' Hi P') as Hc. destruct (P') as (_ & _ & <-).
    eapply table_virt_wp; [exact I'|exact Hc|]. by eapply HQ. }
  destruct (Z.eqb_spec (Z.land (entry h t i) PTE_PRESENT) 0) as [Ea|Ea].
  - apply wp_bind. eapply install_table_wp; [exact I|exact Ht|done|done| |exact N]. unfold pte_present. by rewrite Ea.
  - wp_steps. assert (Hp : pte_present (entry h t i) = true).
    { unfold pte_present. by destruct (Z.eqb_spec (Z.land (entry h t i) PTE_PRESENT) 0). }
    eapply N; [exact I| |by split_and!; [|apply Hg|]].
    eapply pt_grown_more; [|apply pt_grown_refl]. done.
Qed.

(** ** Mapping a page *)

(** The walk for [v] from table [t] of level [k] comes to the last-level table [t0]. *)
Fixpoint reach (k : nat) (h : heap) (t v t0 : Z) : Prop :=
  match k with
  | O => t = t0
  | S k' => ∃ c, points h t (pt_index k v) c ∧ reach k' h c v t0
  end.
(** No entry with the page-size bit is on the way of [v]. *)
Definition small_walk (k : nat) (h : heap) (t v : Z) : Prop :=
  ∀ l e, xlate k h t v = Some (l, e) → l = O.

Lemma points_xlate h t k v c : points h t (pt_index (S k) v) c → xlate (S k) h t v = xlate k h c v.
Proof. intros (P & G & ->). simpl. by rewrite P, G. Qed.

Lemma reach_xlate k h t v t0 : reach k h t v t0 → xlate k h t v = xlate 0 h t0 v.
Proof.
  revert t. induction k as [|k IH]; intros t; [by intros <-|]. intros (c & P & R).
  rewrite (points_xlate _ _ _ _ _ P). by apply IH.
Qed.

Lemma reach_inj h root lv k t t' v v' t0 :
  pt_inv h root lv → lv !! t = Some k → lv !! t' = Some k → reach k h t v t0 → reach k h t' v' t0 →
  t = t' ∧ ∀ j, (1 <= j <= k)%nat → pt_index j v = pt_index j v'.
Proof.
  intros I. revert t t'. induction k as [|k IH]; intros t t' Ht Ht'.
  - intros <- <-. split; [done|]. intros j Hj. lia.
  - intros (c & P & R) (c' & P' & R').
    pose proof (pi_child _ _ _ I _ _ _ _ Ht (pt_index_range _ _) P) as Hc.
    pose proof (pi_child _ _ _ I _ _ _ _ Ht' (pt_index_range _ _) P') as Hc'.
    destruct (IH _ _ Hc Hc' R R') as [<- E].
    destruct (pi_inj _ _ _ I _ _ _ _ _ _ Ht Ht' (pt_index_range _ _) (pt_index_range _ _) P P') as [<- Ei].
    split; [done|]. intros j Hj. destruct (decide (j = S k)) as [->|]; [done|]. apply E. lia.
Qed.

(** Writing an entry of a last-level table. *)
Section Leaf.
Context (h : heap) (root : Z) (lv : gmap Z nat) (t0 i0 e : Z).
Context (I : pt_inv h root lv) (Ht0 : lv !! t0 = Some O) (Hi0 : 0 <= i0 < 512) (He : 0 <= e < 2 ^ 64).
Let h' : heap := set_entry t0 i0 e h.

Lemma leaf_points t k i c : lv !! t = Some (S k) → 0 <= i < 512 → points h' t i c ↔ points h t i c.
Proof using I Ht0 Hi0.
  intros Ht Hi. eapply set_entry_points; try done. intros E. injection E as -> ->. congruence.
Qed.

Lemma leaf_inv : pt_inv h' root lv.
Proof using I Ht0 Hi0.
  constructor; [apply I|apply I|apply I|..].
  - intros t k i c Ht Hi Hp. apply (leaf_points t k) in Hp; [|done|done]. by eapply (pi_child _ _ _ I).
  - intros t t' k i i' c Ht Ht' Hi Hi' Hp Hp'. apply (leaf_points t k) in Hp; [|done|done].
    apply (leaf_points t' k) in Hp'; [|done|done]. by eapply (pi_inj _ _ _ I).
Qed.

Lemma leaf_reach t k v : lv !! t = Some k → reach k h t v t0 → reach k h' t v t0.
Proof using I Ht0 Hi0.
  revert t. induction k as [|k IH]; intros t Ht; [done|]. intros (c & P & R). exists c. split.
  - eapply leaf_points; [exact Ht|apply pt_index_range|done].
  - apply IH; [|done]. eapply (pi_child _ _ _ I); [exact Ht|apply pt_index_range|done].
Qed.

Lemma leaf_xlate_other t k v : lv !! t = Some k → ¬ (reach k h t v t0 ∧ pt_index 0 v = i0) →
  xlate k h' t v = xlate k h t v.
Proof using I Ht0 Hi0.
  revert t. induction k as [|k IH]; intros t Ht N.
  - simpl. unfold h', set_entry. rewrite (entry_store h root lv t0 0 t 0); try done; [apply pt_index_range|].
    intros E. injection E as -> E. by apply N.
  - assert (entry h' t (pt_index (S k) v) = entry h t (pt_index (S k) v)) as E.
    { apply (entry_store h root lv t0 0 t (S k)); try done; [apply pt_index_range|congruence]. }
    simpl. rewrite E. set (x := entry h t (pt_index (S k) v)).
    destruct (pte_present x) eqn:P; [|done]. destruct (pte_huge x) eqn:G; [done|].
    assert (points h t (pt_index (S k) v) (Z.land x PTE_ADDR_MASK)) as HP by (by split_and!).
    apply IH; [eapply (pi_child _ _ _ I); [exact Ht|apply pt_index_range|done]|].
    intros [R Ei]. apply N. split; [|done]. by eexists.
Qed.

Lemma leaf_xlate_same t k v : lv !! t = Some k → reach k h t v t0 → pt_index 0 v = i0 → pte_present e = true →
  xlate k h' t v = Some (O, e).
Proof using I Ht0 Hi0 He.
  intros Ht R Ei Hp. rewrite (reach_xlate k h' t v t0) by (by apply leaf_reach). simpl. rewrite Ei.
  unfold h', set_entry. rewrite entry_store_same by done. by rewrite Hp.
Qed.
End Leaf.

Lemma walk_step_wp h root lv t k v (Q : Z → heap → Prop) :
  pt_inv h root lv → lv !! t = Some (S k) → 0 < free_pages (hp_pmm h) → small_walk (S k) h t v →
  (∀ h' lv' c, pt_inv h' root lv' → pt_grown 1 h lv h' lv' → lv' !! c = Some k →
     points h' t (pt_index (S k) v) c → small_walk k h' c v → Q (hhdm h' + c) h') →
  wp (table_get_or_alloc (hhdm h + t) (pt_index (S k) v)) Q h.
Proof.
  intros I Ht Hf W HQ. eapply table_get_or_alloc_wp; [exact I|exact Ht|apply pt_index_range|done| |].
  - intros P. destruct (pte_huge _) eqn:G; [|done]. specialize (W (S k) (entry h t (pt_index (S k) v))).
    simpl in W. rewrite P, G in W. by specialize (W eq_refl).
  - intros h' lv' c I' G' Hc Hp. apply (HQ h' lv' c); try done. intros l e Hx.
    apply (W l e). by rewrite <- (pg_xlate _ _ _ _ _ G' _ _ v Ht), (points_xlate _ _ _ _ _ Hp).
Qed.

(** The entry [vmm_map_page] writes. *)
Definition leaf_pte (phys flags : Z) : Z := Z.lor (Z.lor (Z.land phys PTE_ADDR_MASK) flags) PTE_PRESENT.

Lemma leaf_pte_ok phys flags : 0 <= flags < 2 ^ 64 →
  0 <= leaf_pte phys flags < 2 ^ 64 ∧ pte_present (leaf_pte phys flags) = true.
Proof.
  intros Hf. unfold leaf_pte. split.
  - apply lor_range; [lia| |done]. apply lor_range; [lia| |done].
    by apply land_range.
  - unfold pte_present. rewrite Z.land_lor_distr_l. change (Z.land PTE_PRESENT PTE_PRESENT) with 1.
    destruct (Z.eqb_spec (Z.lor (Z.land (Z.lor (Z.land phys PTE_ADDR_MASK) flags) PTE_PRESENT) 1) 0) as [E|]; [|done].
    apply Z.lor_eq_0_iff in E as [_ E]. done.
Qed.

(** What mapping [virt] to the entry [e] does: that page is mapped, every other
    walk ends where it did, at most [n] pages became tables. *)
Definition maps_page (n : Z) (h : heap) (root : Z) (lv : gmap Z nat) (virt e : Z) (h' : heap) (lv' : gmap Z nat) : Prop :=
  pt_inv h' root lv' ∧ pt_frame n h lv h' lv' ∧
  (∀ v, same_page v virt → xlate 3 h' root v = Some (O, e)) ∧
  (∀ v, ¬ same_page v virt → xlate 3 h' root v = xlate 3 h root v).

Lemma leaf_maps n h root lv h' lv' t0 virt e :
  pt_inv h' root lv' → pt_grown n h lv h' lv' → lv !! root = Some 3%nat → lv' !! t0 = Some O →
  reach 3 h' root virt t0 → 0 <= e < 2 ^ 64 → pte_present e = true →
  maps_page n h root lv virt e (set_entry t0 (pt_index 0 virt) e h') lv'.
Proof.
  intros I G Hr Ht0 R He Hp. pose proof (pi_root _ _ _ I) as Hr'. split_and!.
  - apply (leaf_inv h' root lv' t0 _ e I Ht0). apply pt_index_range.
  - replace n with (n + 0) by lia. eapply pt_frame_trans; [apply G|].
    eapply set_entry_frame; [exact Ht0|apply pt_index_range].
  - intros v Hv. apply (leaf_xlate_same h' root lv' t0 _ e I Ht0); try done; [apply pt_index_range| |].
    + assert (E : ∀ k t, (k <= 3)%nat → reach k h' t virt t0 → reach k h' t v t0); [|by apply E].
      intros k. induction k as [|k IH]; intros t Hk; [done|]. intros (c & P & Rc). exists c.
      rewrite (page_indices v virt (S k)) by done. split; [done|]. apply IH; [lia|done].
    + by apply page_indices; [|lia].
  - intros v Hv. rewrite <- (pg_xlate _ _ _ _ _ G root 3 v Hr).
    apply (leaf_xlate_other h' root lv' t0 _ e I Ht0); try done; [apply pt_index_range|].
    intros [R' Ei]. apply Hv, same_page_indices. intros k Hk.
    destruct (reach_inj h' root lv' 3 root root v virt t0 I Hr' Hr' R' R) as [_ E].
    destruct k; [done|]. apply E. lia.
Qed.

Lemma vmm_map_page_wp h root lv cr3 virt phys flags :
  pt_inv h root lv → Z.land cr3 PTE_ADDR_MASK = root → 0 <= flags < 2 ^ 64 →
  3 <= free_pages (hp_pmm h) → small_walk 3 h root virt →
  wp (vmm_map_page cr3 virt phys flags)
     (λ _ h', ∃ lv', maps_page 3 h root lv virt (leaf_pte phys flags) h' lv') h.
Proof.
  intros I E Hfl Hf W0. unfold vmm_map_page. rewrite E.
  change (Z.land (Z.shiftr virt 39) 0x1FF) with (pt_index 3 virt).
  change (Z.land (Z.shiftr virt 30) 0x1FF) with (pt_index 2 virt).
  change (Z.land (Z.shiftr virt 21) 0x1FF) with (pt_index 1 virt).
  change (Z.land (Z.shiftr virt 12) 0x1FF) with (pt_index 0 virt). apply wp_bind.
  pose proof (pi_root _ _ _ I) as Hr.
  eapply table_virt_wp; [exact I|exact Hr|]. apply wp_bind.
  eapply walk_step_wp; [exact I|exact Hr|lia|exact W0|]. intros h1 lv1 c1 I1 G1 Hc1 P1 W1. apply wp_bind.
  pose proof (pf_free _ _ _ _ _ (pg_frame _ _ _ _ _ G1)).
  eapply walk_step_wp; [exact I1|exact Hc1|lia|exact W1|]. intros h2 lv2 c2 I2 G2 Hc2 P2 W2. apply wp_bind.
  pose proof (pf_free _ _ _ _ _ (pg_frame _ _ _ _ _ G2)).
  eapply walk_step_wp; [exact I2|exact Hc2|lia|exact W2|]. intros h3 lv3 c3 I3 G3 Hc3 P3 W3.
  assert (G23 : pt_grown 2 h1 lv1 h3 lv3) by (apply (pt_grown_trans 1 1 _ _ h2 lv2); done).
  assert (G : pt_grown 3 h lv h3 lv3) by (apply (pt_grown_trans 1 2 _ _ h1 lv1); done).
  destruct (leaf_pte_ok phys flags Hfl) as [He Hp].
  fold (leaf_pte phys flags). unfold pte_store, on_mem. apply wp_modify. exists lv3.
  fold (set_entry c3 (pt_index 0 virt) (leaf_pte phys flags) h3).
  apply (leaf_maps 3 h root lv h3 lv3 c3 virt (leaf_pte phys flags) I3 G Hr Hc3); [|exact He|exact Hp].
  assert (Hr1 : lv1 !! root = Some 3%nat) by apply I1.
  exists c1. split.
  - eapply (pg_points _ _ _ _ _ G23); [exact Hr1|apply pt_index_range|exact P1].
  - exists c2. split.
    + eapply (pg_points _ _ _ _ _ G3); [|apply pt_index_range|exact P2]. eapply lookup_weaken; [exact Hc1|apply G2].
    + by exists c3.
Qed.

(** ** Mapping device registers *)
Definition MMIO_FLAGS : Z := Z.lor (Z.lor PTE_WRITABLE PTE_NOCACHE) PTE_WRITETHRU.

(** [n] pages from [virt] on are mapped to the ones from [phys] on, and no other. *)
Definition maps_range (n : nat) (h : heap) (root : Z) (lv : gmap Z nat) (virt phys : Z) (h' : heap) (lv' : gmap Z nat) : Prop :=
  pt_inv h' root lv' ∧ pt_frame (3 * Z.of_nat n) h lv h' lv' ∧
  (∀ i v, 0 <= i < Z.of_nat n → same_page v (virt + i * PAGE_SIZE) →
     xlate 3 h' root v = Some (O, leaf_pte (phys + i * PAGE_SIZE) MMIO_FLAGS)) ∧
  (∀ v, (∀ i, 0 <= i < Z.of_nat n → ¬ same_page v (virt + i * PAGE_SIZE)) → xlate 3 h' root v = xlate 3 h root v).

Lemma pages_apart x i j : x mod PAGE_SIZE = 0 → 0 <= i < 2 ^ 36 → 0 <= j < 2 ^ 36 →
  same_page (x + i * PAGE_SIZE) (x + j * PAGE_SIZE) → i = j.
Proof. unfold same_page, PAGE_SIZE. intros H Hi Hj. Z.to_euclidean_division_equations. lia. Qed.

Lemma maps_range_cons n h root lv virt phys h1 lv1 h2 lv2 :
  virt mod PAGE_SIZE = 0 → Z.of_nat (S n) <= 2 ^ 36 →
  maps_page 3 h root lv virt (leaf_pte phys MMIO_FLAGS) h1 lv1 →
  maps_range n h1 root lv1 (virt + PAGE_SIZE) (phys + PAGE_SIZE) h2 lv2 →
  maps_range (S n) h root lv virt phys h2 lv2.
Proof.
  intros Hv Hn (I1 & F1 & S1 & O1) (I2 & F2 & S2 & O2).
  assert (E : ∀ x i, x + PAGE_SIZE + i * PAGE_SIZE = x + (i + 1) * PAGE_SIZE) by (intros; lia).
  split_and!; [done| | |].
  - replace (3 * Z.of_nat (S n)) with (3 + 3 * Z.of_nat n) by lia. by eapply pt_frame_trans.
  - intros i v Hi Hs. destruct (decide (i = 0)) as [->|Hi0].
    + rewrite Z.mul_0_l, !Z.add_0_r in *. rewrite O2; [by apply S1|]. intros j Hj Hs'. rewrite E in Hs'.
      assert (0 = j + 1); [|lia]. apply (pages_apart virt); [done|lia|lia|].
      rewrite Z.mul_0_l, Z.add_0_r. unfold same_page in *. congruence.
    + replace i with ((i - 1) + 1) in * by lia. rewrite <- E in *. apply S2; [lia|done].
  - intros v Hv'. rewrite O2, O1; [done| |].
    + specialize (Hv' 0 ltac:(lia)). by rewrite Z.mul_0_l, Z.add_0_r in Hv'.
    + intros i Hi. rewrite E. apply Hv'. lia.
Qed.

Lemma map_mmio_loop_wp n h root lv cr3 virt phys off :
  pt_inv h root lv → Z.land cr3 PTE_ADDR_MASK = root → 3 * Z.of_nat n <= free_pages (hp_pmm h) →
  (virt + off) mod PAGE_SIZE = 0 → 0 <= virt + off → virt + off + Z.of_nat n * PAGE_SIZE <= 2 ^ 64 →
  0 <= phys + off → phys + off + Z.of_nat n * PAGE_SIZE <= 2 ^ 64 → Z.of_nat n <= 2 ^ 36 →
  (∀ i, 0 <= i < Z.of_nat n → small_walk 3 h root (virt + off + i * PAGE_SIZE)) →
  wp (map_mmio_loop n cr3 virt phys off)
     (λ _ h', ∃ lv', maps_range n h root lv (virt + off) (phys + off) h' lv') h.
Proof.
  intros I E. revert h lv off I. induction n as [|n IH]; intros h lv off I Hf Hm Hv1 Hv2 Hp1 Hp2 Hn Hs; cbn [map_mmio_loop].
  { apply wp_ret. exists lv. split_and!; [done|apply pt_frame_refl|lia|done]. }
  unfold PAGE_SIZE in Hv2, Hp2. apply wp_bind. rewrite !u64_small by lia.
  assert (Hs0 : small_walk 3 h root (virt + off)).
  { specialize (Hs 0 ltac:(lia)). by rewrite Z.mul_0_l, Z.add_0_r in Hs. }
  eapply wp_mono; [apply (vmm_map_page_wp h root lv); [done|done|done|lia|done]|].
  intros _ h1 (lv1 & I1 & F1 & S1 & O1). pose proof (pf_free _ _ _ _ _ F1) as Hf1.
  eapply wp_mono; [apply (IH h1 lv1 (off + PAGE_SIZE)); try done|].
  - lia.
  - rewrite Z.add_assoc. unfold PAGE_SIZE in *. Z.to_euclidean_division_equations. lia.
  - unfold PAGE_SIZE. lia.
  - unfold PAGE_SIZE. lia.
  - unfold PAGE_SIZE. lia.
  - unfold PAGE_SIZE. lia.
  - lia.
  - intros i Hi. replace (virt + (off + PAGE_SIZE) + i * PAGE_SIZE) with (virt + off + (i + 1) * PAGE_SIZE) by lia.
    intros l x Hx. rewrite O1 in Hx; [eapply Hs; [|exact Hx]; lia|]. intros Hsp.
    assert (i + 1 = 0); [|lia]. apply (pages_apart (virt + off)); [done|lia|lia|]. by rewrite Z.mul_0_l, Z.add_0_r.
  - intros _ h2 (lv2 & R). exists lv2. rewrite !Z.add_assoc in R.
    eapply maps_range_cons; [done|done| |exact R]. by split_and!.
Qed.

Lemma page_down_spec x : 0 <= x < 2 ^ 64 → page_down x = x / PAGE_SIZE * PAGE_SIZE.
Proof.
  intros Hx. unfold page_down, PAGE_SIZE. change (2 ^ 64 - 4096) with (Z.shiftl (Z.ones 52) 12).
  assert (Z.land x (Z.shiftl (Z.ones 52) 12) = Z.shiftl (Z.land (Z.shiftr x 12) (Z.ones 52)) 12) as ->.
  { apply Z.bits_inj'. intros n Hn. rewrite Z.land_spec, !Z.shiftl_spec by done.
    destruct (decide (12 <= n)).
    - rewrite Z.land_spec, Z.shiftr_spec by lia. by replace (n - 12 + 12) with n by lia.
    - rewrite !(Z.testbit_neg_r _ (n - 12)) by lia. apply andb_false_r. }
  rewrite Z.shiftl_mul_pow2, Z.land_ones, Z.shiftr_div_pow2 by lia. f_equal. apply Z.mod_small.
  split; [apply Z.div_pos; lia|]. apply Z.div_lt_upper_bound; lia.
Qed.

(** The entry depends on the page of the address. *)
Lemma leaf_pte_page a b f : a / PAGE_SIZE = b / PAGE_SIZE → leaf_pte a f = leaf_pte b f.
Proof.
  intros H. unfold leaf_pte. f_equal. f_equal.
  assert (G : ∀ x, Z.land x PTE_ADDR_MASK = Z.shiftl (Z.land (x / PAGE_SIZE) (Z.ones 40)) 12).
  { intros x. change PTE_ADDR_MASK with (Z.shiftl (Z.ones 40) 12). unfold PAGE_SIZE.
    change 4096 with (2 ^ 12). rewrite <- Z.shiftr_div_pow2 by lia.
    apply Z.bits_inj'. intros n Hn. rewrite Z.land_spec, !Z.shiftl_spec by done.
    destruct (decide (12 <= n)).
    - rewrite Z.land_spec, Z.shiftr_spec by lia. by replace (n - 12 + 12) with n by lia.
    - rewrite !(Z.testbit_neg_r _ (n - 12)) by lia. apply andb_false_r. }
  by rewrite !G, H.
Qed.

(** Number of pages that hold [size] bytes from [phys] on. *)
Definition mmio_pages (phys size : Z) : Z := (phys + size + PAGE_SIZE - 1) / PAGE_SIZE - phys / PAGE_SIZE.

(** Device registers: when the range does not wrap, the walk meets no large pages
    there and three pages per page of registers are free, every byte of the range is
    reachable through the direct map, uncached, the pointer returned is the one of
    the first byte, and nothing else is mapped or unmapped. *)
Lemma vmm_map_mmio_correct h root lv cr3 phys size (n := mmio_pages phys size) :
  pt_inv h root lv → Z.land cr3 PTE_ADDR_MASK = root → 0 <= phys → 0 <= size →
  hhdm h + phys + size + PAGE_SIZE <= 2 ^ 64 → n <= 2 ^ 36 → 3 * n <= free_pages (hp_pmm h) →
  (∀ a, phys - PAGE_SIZE < a < phys + size → small_walk 3 h root (hhdm h + a)) →
  ∃ h' lv', vmm_map_mmio cr3 phys size h = Some (hhdm h + phys, h') ∧
    pt_inv h' root lv' ∧ pt_frame (3 * n) h lv h' lv' ∧
    (∀ a, phys <= a < phys + size → xlate 3 h' root (hhdm h + a) = Some (O, leaf_pte a MMIO_FLAGS)).
Proof.
  intros I E Hp Hs Hw Hn Hf Hsm. destruct (wf_hhdm _ (pi_wf _ _ _ I)) as (HH1 & HH2 & _).
  change (hhdm_offset (hp_pmm h)) with (hhdm h) in *.
  assert (Hph : 0 <= phys / PAGE_SIZE * PAGE_SIZE <= phys ∧ phys < phys / PAGE_SIZE * PAGE_SIZE + PAGE_SIZE) by (unfold PAGE_SIZE; Z.to_euclidean_division_equations; lia).
  assert (Hnb : phys / PAGE_SIZE * PAGE_SIZE + n * PAGE_SIZE < phys + size + PAGE_SIZE ∧
                phys + size <= phys / PAGE_SIZE * PAGE_SIZE + n * PAGE_SIZE ∧ 0 <= n).
  { subst n. unfold mmio_pages, PAGE_SIZE in *. clear - Hp Hs. Z.to_euclidean_division_equations. lia. }
  set (ps := phys / PAGE_SIZE * PAGE_SIZE) in *.
  assert (Hpe : page_up (u64 (phys + size)) = ps + n * PAGE_SIZE).
  { unfold page_up. unfold PAGE_SIZE in Hw. rewrite (u64_small (phys + size)) by lia.
    assert (R : 0 <= phys + size + PAGE_SIZE - 1 < 2 ^ 64) by (unfold PAGE_SIZE; lia).
    rewrite u64_small, page_down_spec by exact R. subst n ps. unfold mmio_pages. lia. }
  enough (wp (vmm_map_mmio cr3 phys size) (λ r h', r = hhdm h + phys ∧ ∃ lv', maps_range (Z.to_nat n) h root lv (hhdm h + ps) ps h' lv') h) as G.
  { apply wp_gives in G as (h' & -> & lv' & I' & F' & S' & O'). exists h', lv'.
    rewrite Z2Nat.id in F', S' by lia. split_and!; [done|done|done|]. intros a Ha.
    set (i := a / PAGE_SIZE - phys / PAGE_SIZE).
    assert (Hi : 0 <= i < n ∧ (ps + i * PAGE_SIZE) / PAGE_SIZE = a / PAGE_SIZE ∧ ps + i * PAGE_SIZE <= a < ps + i * PAGE_SIZE + PAGE_SIZE).
    { subst i ps. unfold PAGE_SIZE in *. clear - Ha Hnb Hp. Z.to_euclidean_division_equations. lia. }
    destruct Hi as (Hi1 & Hi2 & Hi3). rewrite (leaf_pte_page a (ps + i * PAGE_SIZE)) by done.
    apply S'; [done|]. unfold same_page. revert HH2 Hi3. assert (ps mod PAGE_SIZE = 0) as HP by (subst ps; by apply Z.mod_mul).
    revert HP. unfold PAGE_SIZE. generalize (hhdm h) ps. clear. intros. Z.to_euclidean_division_equations. lia. }
  unfold vmm_map_mmio. rewrite Hpe, page_down_spec by (unfold PAGE_SIZE in *; lia). fold ps.
  unfold on_pmm, phys_to_virt. wp_steps. unfold PAGE_SIZE in Hw, Hnb. change (hhdm_offset (hp_pmm h)) with (hhdm h).
  rewrite (u64_small (ps + hhdm h)) by lia. rewrite (Z.add_comm ps (hhdm h)).
  replace (ps + n * PAGE_SIZE - ps) with (n * PAGE_SIZE) by lia.
  rewrite (u64_small (n * PAGE_SIZE)) by (unfold PAGE_SIZE; lia). rewrite Z.div_mul by done.
  replace {| hp_pmm := hp_pmm h; hp_mem := hp_mem h |} with h by (by destruct h).
  eapply wp_mono; [apply (map_mmio_loop_wp (Z.to_nat n) h root lv cr3 (hhdm h + ps) ps 0); try done; rewrite ?Z.add_0_r, ?Z2Nat.id; try lia|].
  - subst ps. by rewrite Z.mod_add.
  - unfold PAGE_SIZE. lia.
  - unfold PAGE_SIZE. lia.
  - intros i Hi. rewrite <- Z.add_assoc. apply Hsm. unfold PAGE_SIZE in *. lia.
  - intros _ h' (lv' & R). rewrite !Z.add_0_r in R. wp_steps. split; [|by exists lv'].
    replace (hhdm h + ps + (phys - ps)) with (hhdm h + phys) by lia. apply u64_small. lia.
Qed.

(** The page-size bit is not looked at: the memory of a large page is taken for the
    next table, and [vmm_map_page] writes the new entry into it. *)
Lemma table_ignores_page_size h table i :
  pte_present (load64 (hp_mem h) (table + 8 * i)) = true →
  table_get_or_alloc table i h =
    Some (u64 (Z.land (load64 (hp_mem h) (table + 8 * i)) PTE_ADDR_MASK + hhdm h), h).
Proof.
  intros Hp. unfold pte_present in Hp. apply negb_true_iff in Hp.
  apply wp_eq. unfold table_get_or_alloc, pte_load. wp_steps. rewrite Hp. wp_steps.
  unfold on_pmm, phys_to_virt. wp_steps. split; [done|by destruct h].
Qed.

(** With no page left the first table that is missing ends the kernel. *)
Lemma table_panics_when_full h table i :
  pmm_wf (hp_pmm h) → free_pages (hp_pmm h) = 0 →
  pte_present (load64 (hp_mem h) (table + 8 * i)) = false →
  table_get_or_alloc table i h = None.
Proof.
  intros W F Hp. unfold pte_present in Hp. apply negb_false_iff in Hp.
  assert (A : pmm_alloc_page (hp_pmm h) = Some (0, hp_pmm h)).
  { rewrite pmm_alloc_page_is_pages_1. apply wp_eq. eapply wp_mono; [by apply pmm_alloc_pages_wp|].
    intros p s' [(j & Hj & Hj1 & _ & Hfr & _)|(-> & -> & _)]; [|done]. exfalso.
    rewrite (wf_count _ W) in F. specialize (Hfr j ltac:(lia)).
    pose proof (count_free_pos (bitmap (hp_pmm h)) (Z.to_nat (total_pages (hp_pmm h))) j ltac:(lia) Hfr). lia. }
  unfold table_get_or_alloc, pte_load, gets, get, mbind, M_bind, mret, M_ret. rewrite Hp.
  unfold on_pmm, zoom. by rewrite A.
Qed.

(** ** Property *)

(** C12 (functional) [vmm_map_page, table_get_or_alloc]
    Mapping a page, in page tables that are a tree of pages the allocator does not
    hand out, with three pages free and no large page on the way: the call returns
    (it does not panic); the walk of the processor for every address of the page
    ends at the entry for phys with the flags given, and for every other address of
    the 48-bit space it ends exactly where it did before; the tables still form such
    a tree; memory changes only inside tables of the tree, pages in use stay in use
    and the pages taken are tables. *)
Theorem vmm_map_page_correct (h : heap) (root : Z) (lv : gmap Z nat) (cr3 virt phys flags : Z)
  (I : pt_inv h root lv) (E : Z.land cr3 PTE_ADDR_MASK = root) (Hfl : 0 <= flags < 2 ^ 64)
  (Hf : 3 <= free_pages (hp_pmm h)) (W : small_walk 3 h root virt) :
  ∃ h' lv', vmm_map_page cr3 virt phys flags h = Some (tt, h') ∧
    pt_inv h' root lv' ∧ pt_frame 3 h lv h' lv' ∧
    (∀ v, same_page v virt → xlate 3 h' root v = Some (O, leaf_pte phys flags)) ∧
    (∀ v, ¬ same_page v virt → xlate 3 h' root v = xlate 3 h root v).
Proof.
  pose proof (vmm_map_page_wp h root lv cr3 virt phys flags I E Hfl Hf W) as G.
  apply wp_run in G as ([] & h' & R & lv' & M). exists h', lv'. by split.
Qed.

(** ** Witness: the local interrupt controller, mapped in empty tables *)
Definition demo_root : Z := 4096.
Definition demo_tables : gmap Z nat := {[ demo_root := 3%nat ]}.

Lemma demo_entries i : entry demo_heap demo_root i = 0.
Proof. unfold entry, load64. cbn [mem_load hp_mem demo_heap]. unfold mem_get. by rewrite !lookup_empty. Qed.

Lemma demo_pt_inv : pt_inv demo_heap demo_root demo_tables.
Proof.
  assert (N : ∀ t k i c, demo_tables !! t = Some k → points demo_heap t i c → False).
  { intros t k i c Ht (Hp & _). unfold demo_tables in Ht; apply lookup_singleton_Some in Ht as [<- _]. by rewrite demo_entries in Hp. }
  constructor.
  - exact demo_pmm_wf.
  - apply lookup_singleton_eq.
  - intros t k Ht. unfold demo_tables in Ht; apply lookup_singleton_Some in Ht as [<- _]. by vm_compute.
  - intros t k i c Ht _ Hp. by destruct (N t (S k) i c).
  - intros t t' k i i' c Ht _ _ _ Hp _. by destruct (N t (S k) i c).
Qed.

Lemma vmm_map_page_correct_witness :
  ∃ h' lv', vmm_map_page 4096 (2 ^ 47 + 0xfee00000) 0xfee00000 MMIO_FLAGS demo_heap = Some (tt, h') ∧
    pt_inv h' demo_root lv' ∧ pt_frame 3 demo_heap demo_tables h' lv' ∧
    (∀ v, same_page v (2 ^ 47 + 0xfee00000) → xlate 3 h' demo_root v = Some (O, leaf_pte 0xfee00000 MMIO_FLAGS)) ∧
    (∀ v, ¬ same_page v (2 ^ 47 + 0xfee00000) → xlate 3 h' demo_root v = xlate 3 demo_heap demo_root v).
Proof.
  apply (vmm_map_page_correct demo_heap demo_root demo_tables 4096 (2 ^ 47 + 0xfee00000) 0xfee00000 MMIO_FLAGS demo_pt_inv).
  - reflexivity.
  - vm_compute. split; congruence.
  - vm_compute. congruence.
  - intros l e Hx. simpl in Hx. by rewrite demo_entries in Hx.
Defined.
