(* ===== verification/VfsTypes.v ===== *)
(** * kernel/filesystem/vfs.h: nodes, files and the state they live in

    A [VNode *] is an address into the node store [fs_nodes], 0 being NULL; the
    children of a directory are the chain that starts at [first_child] and follows
    [next_sibling].  Nodes, [RamfsFile]s and file data are blocks of the kernel heap,
    allocated and freed through the [KernelMem] interface, so a node's address is as
    fresh as the heap makes it.  The operation tables a node points to are indices
    into tables given where the virtual file system is used (Vfs.v). *)
From Stdlib Require Export Ascii.
From S2P Require Import Prelude RawMem Pmm Heap.
Local Open Scope kernel_scope.

(** ** Strings

    A C string is the list of its characters before the terminator. *)
Abbreviation str := (list ascii).
Definition to_str (s : string) : str := String.list_ascii_of_string s.
Definition slash : ascii := "/"%char.

(** A character and its code. *)
Definition char_of (b : Z) : ascii := Ascii.ascii_of_N (Z.to_N b).
Definition code_of (c : ascii) : Z := Z.of_N (Ascii.N_of_ascii c).

Definition strlenZ (s : str) : Z := Z.of_nat (length s).

(** ** vfs.h *)

(** [kernel/filesystem/vfs.h 1-3] *)
Definition VFS_NAME_MAX : nat := 64.
Definition VFS_PATH_MAX : nat := 256.
Definition VFS_MAX_MOUNTS : nat := 8.

(** [kernel/filesystem/vfs.h 9-16] *)
Inductive VNodeType := VNODE_FILE | VNODE_DIR | VNODE_DEVICE | VNODE_SOCKET.

#[export] Instance VNodeType_eq_dec : EqDecision VNodeType.
Proof. solve_decision. Defined.

(** [kernel/filesystem/vfs.h 55-72] *)
Record VNode := MkVNode {
  v_name : str;
  v_type : VNodeType;
  v_size : Z;
  v_ops : Z;
  v_file_ops : Z;
  v_private : Z;
  v_open_count : Z;
  v_unlinked : bool;
  v_parent : Z;
  v_first_child : Z;
  v_next_sibling : Z
}.

(** A node after [memset(n, 0, sizeof(VNode))]. *)
Definition zero_vnode : VNode := MkVNode [] VNODE_FILE 0 0 0 0 0 false 0 0 0.
(** [sizeof(VNode)] *)
Definition SIZEOF_VNODE : Z := 136.

Definition set_name (x : str) (n : VNode) : VNode :=
  MkVNode x (v_type n) (v_size n) (v_ops n) (v_file_ops n) (v_private n) (v_open_count n)
    (v_unlinked n) (v_parent n) (v_first_child n) (v_next_sibling n).
Definition set_type (x : VNodeType) (n : VNode) : VNode :=
  MkVNode (v_name n) x (v_size n) (v_ops n) (v_file_ops n) (v_private n) (v_open_count n)
    (v_unlinked n) (v_parent n) (v_first_child n) (v_next_sibling n).
Definition set_size (x : Z) (n : VNode) : VNode :=
  MkVNode (v_name n) (v_type n) x (v_ops n) (v_file_ops n) (v_private n) (v_open_count n)
    (v_unlinked n) (v_parent n) (v_first_child n) (v_next_sibling n).
Definition set_ops (x : Z) (n : VNode) : VNode :=
  MkVNode (v_name n) (v_type n) (v_size n) x (v_file_ops n) (v_private n) (v_open_count n)
    (v_unlinked n) (v_parent n) (v_first_child n) (v_next_sibling n).
Definition set_file_ops (x : Z) (n : VNode) : VNode :=
  MkVNode (v_name n) (v_type n) (v_size n) (v_ops n) x (v_private n) (v_open_count n)
    (v_unlinked n) (v_parent n) (v_first_child n) (v_next_sibling n).
Definition set_private (x : Z) (n : VNode) : VNode :=
  MkVNode (v_name n) (v_type n) (v_size n) (v_ops n) (v_file_ops n) x (v_open_count n)
    (v_unlinked n) (v_parent n) (v_first_child n) (v_next_sibling n).
Definition set_open_count (x : Z) (n : VNode) : VNode :=
  MkVNode (v_name n) (v_type n) (v_size n) (v_ops n) (v_file_ops n) (v_private n) x
    (v_unlinked n) (v_parent n) (v_first_child n) (v_next_sibling n).
Definition set_unlinked (x : bool) (n : VNode) : VNode :=
  MkVNode (v_name n) (v_type n) (v_size n) (v_ops n) (v_file_ops n) (v_private n) (v_open_count n)
    x (v_parent n) (v_first_child n) (v_next_sibling n).
Definition set_parent (x : Z) (n : VNode) : VNode :=
  MkVNode (v_name n) (v_type n) (v_size n) (v_ops n) (v_file_ops n) (v_private n) (v_open_count n)
    (v_unlinked n) x (v_first_child n) (v_next_sibling n).
Definition set_first_child (x : Z) (n : VNode) : VNode :=
  MkVNode (v_name n) (v_type n) (v_size n) (v_ops n) (v_file_ops n) (v_private n) (v_open_count n)
    (v_unlinked n) (v_parent n) x (v_next_sibling n).
Definition set_next_sibling (x : Z) (n : VNode) : VNode :=
  MkVNode (v_name n) (v_type n) (v_size n) (v_ops n) (v_file_ops n) (v_private n) (v_open_count n)
    (v_unlinked n) (v_parent n) (v_first_child n) x.

(** [kernel/filesystem/vfs.h 74-80] *)
Record VFile := MkVFile { f_node : Z; f_offset : Z; f_flags : Z; f_private : Z }.

(** [kernel/filesystem/vfs.h 87-92] *)
Record VfsMount := MkMount { mnt_path : str; mnt_root : Z; mnt_used : bool }.

(** [kernel/filesystem/vfs.h 94-100] *)
Record VfsStat := MkStat { st_type : VNodeType; st_size : Z; st_has_file_ops : bool }.

(** [kernel/filesystem/vfs.h 82-85] *)
Definition VFS_O_RDONLY : Z := 0.
Definition VFS_O_WRONLY : Z := 1.
Definition VFS_O_RDWR : Z := 2.
Definition VFS_O_CREAT : Z := 4.

(** [kernel/filesystem/vfs.h 32-36] *)
Definition POLLIN : Z := 1.
Definition POLLOUT : Z := 4.
Definition POLLERR : Z := 8.
Definition POLLHUP : Z := 16.
Definition POLLNVAL : Z := 32.

(** The private data of a ramfs file; [rf_bytes] are the [rf_capacity] bytes behind
    [rf_data]. [kernel/filesystem/ramfs.c 1-6] *)
Record RamfsFile := MkRamfsFile { rf_data : Z; rf_capacity : Z; rf_bytes : list Z }.
(** [sizeof(RamfsFile)] *)
Definition SIZEOF_RAMFS_FILE : Z := 16.

(** ** The state *)
Section State.
Context {H : Type} `{KernelMem H}.

Record fs := Fs {
  fs_mem : H;
  fs_nodes : gmap Z VNode;
  fs_files : gmap Z RamfsFile;
  fs_mounts : list VfsMount
}.

Definition set_nodes (m : gmap Z VNode) (s : fs) : fs := Fs (fs_mem s) m (fs_files s) (fs_mounts s).
Definition set_files (m : gmap Z RamfsFile) (s : fs) : fs := Fs (fs_mem s) (fs_nodes s) m (fs_mounts s).
Definition set_mounts (l : list VfsMount) (s : fs) : fs := Fs (fs_mem s) (fs_nodes s) (fs_files s) l.

Definition on_fs_mem {A} (m : M H A) : M fs A :=
  zoom fs_mem (λ h s, Fs h (fs_nodes s) (fs_files s) (fs_mounts s)) m.

(** [*p] and [p->field = v]. *)
Definition vnode (p : Z) : M fs VNode := s ← get; lift (fs_nodes s !! p).
Definition vnode_upd (p : Z) (f : VNode → VNode) : M fs unit :=
  n ← vnode p; modify (λ s, set_nodes (<[p := f n]> (fs_nodes s)) s).

Definition rfile (p : Z) : M fs RamfsFile := s ← get; lift (fs_files s !! p).
Definition rfile_set (p : Z) (r : RamfsFile) : M fs unit :=
  modify (λ s, set_files (<[p := r]> (fs_files s)) s).

(** [kmalloc] and [kfree] of a node and of a [RamfsFile]; a new node is zeroed at
    every call in the source. [kernel/filesystem/ramfs.c: ramfs_create 23-26] *)
Definition alloc_vnode : M fs Z :=
  p ← on_fs_mem (km_kmalloc SIZEOF_VNODE);
  if p =? 0 then mret 0
  else modify (λ s, set_nodes (<[p := zero_vnode]> (fs_nodes s)) s);; mret p.
Definition free_vnode (p : Z) : M fs unit :=
  on_fs_mem (km_kfree p);; modify (λ s, set_nodes (delete p (fs_nodes s)) s).

(** Fuel for walks along the sibling and parent chains. *)
Definition node_fuel : M fs nat := gets (λ s, Datatypes.S (size (fs_nodes s))).
End State.
#[global] Arguments fs H : clear implicits.

(** ** Chains *)

(** From [p], following [next_sibling], the nodes are [l]. *)
Fixpoint chain (m : gmap Z VNode) (p : Z) (l : list Z) : Prop :=
  match l with
  | [] => p = 0
  | q :: l' => p = q ∧ p ≠ 0 ∧ ∃ n, m !! p = Some n ∧ chain m (v_next_sibling n) l'
  end.

(** The name of a node, for maps over chains. *)
Definition name_of (m : gmap Z VNode) (p : Z) : str :=
  match m !! p with Some n => v_name n | None => [] end.

(** [parent_of m a b]: [a] is the parent of [b]; [anc m p a]: going up from [p] one
    reaches [a]. *)
Definition parent_of (m : gmap Z VNode) (a b : Z) : Prop :=
  ∃ n, m !! b = Some n ∧ v_parent n = a ∧ a ≠ 0.
Inductive anc (m : gmap Z VNode) : Z → Z → Prop :=
  | anc_refl p : anc m p p
  | anc_up p q a : parent_of m q p → anc m q a → anc m p a.

(** The tree invariant, [ch d] being the children of [d] in order: every chain ends,
    a node knows the directory that lists it, names in a directory are distinct and
    fit the name field, only directories have children, and no node is above itself. *)
Record tree (m : gmap Z VNode) (ch : Z → list Z) : Prop := {
  t_null : m !! 0 = None;
  t_chain : ∀ d n, m !! d = Some n → chain m (v_first_child n) (ch d);
  t_out : ∀ d, m !! d = None → ch d = [];
  t_parent : ∀ c n d, m !! c = Some n → d ≠ 0 → (c ∈ ch d ↔ v_parent n = d);
  t_names : ∀ d, NoDup (map (name_of m) (ch d));
  t_dirs : ∀ c n, m !! c = Some n → v_type n ≠ VNODE_DIR → ch c = [];
  t_name : ∀ c n, m !! c = Some n → (length (v_name n) < VFS_NAME_MAX)%nat;
  t_acyclic : ∀ p, Acc (parent_of m) p
}.

(** [ch] with the children of [d] replaced. *)
Definition upd_ch (d : Z) (l : list Z) (ch : Z → list Z) : Z → list Z :=
  λ x, if decide (x = d) then l else ch x.

(** Two nodes agree on everything the tree depends on. *)
Definition same_links (n n' : VNode) : Prop :=
  v_name n' = v_name n ∧ v_type n' = v_type n ∧ v_parent n' = v_parent n ∧
  v_first_child n' = v_first_child n ∧ v_next_sibling n' = v_next_sibling n.

(** ** Lemmas: characters *)
Lemma char_of_code c : char_of (code_of c) = c.
Proof. unfold char_of, code_of. rewrite N2Z.id. apply Ascii.ascii_N_embedding. Qed.

(** ** Lemmas: chains *)
Lemma chain_det m p l l' : chain m p l → chain m p l' → l = l'.
Proof.
  revert p l'. induction l as [|q l IH]; intros p [|q' l']; simpl; [done| | |].
  - intros -> (_ & ? & _). done.
  - intros (_ & ? & _) ->. done.
  - intros (-> & _ & n & Hn & Hc) (-> & _ & n' & Hn' & Hc'). simplify_eq. f_equal. eauto.
Qed.

Lemma chain_app m p l1 q l2 :
  chain m p (l1 ++ q :: l2) → chain m q (q :: l2).
Proof.
  revert p. induction l1 as [|x l1 IH]; intros p; simpl.
  - intros (-> & ? & ?). done.
  - intros (-> & _ & n & _ & Hc). by eapply IH.
Qed.

(** A chain that ends visits no node twice. *)
Lemma chain_NoDup m p l : chain m p l → NoDup l.
Proof.
  assert (G : ∀ k l p, length l = k → chain m p l → NoDup l).
  { intros k. induction (lt_wf k) as [k _ IH]. intros l0 p0 Hk Hc.
    destruct l0 as [|q l0]; [constructor|]. constructor.
    - intros Hin. apply list_elem_of_split in Hin as (l1 & l2 & ->).
      pose proof (chain_app m p0 [] q (l1 ++ q :: l2) Hc) as Hq.
      pose proof (chain_app m p0 (q :: l1) q l2 Hc) as Hq'.
      pose proof (chain_det _ _ _ _ Hq Hq') as E. apply (f_equal length) in E.
      simpl in E. rewrite length_app in E. simpl in E. lia.
    - destruct Hc as (-> & _ & n & _ & Hc). eapply IH; [|reflexivity|exact Hc]. simpl in Hk. lia. }
  eauto.
Qed.

Lemma chain_elem m p l c : chain m p l → c ∈ l → c ≠ 0 ∧ is_Some (m !! c).
Proof.
  revert p. induction l as [|q l IH]; intros p; simpl; [by intros _ ?%elem_of_nil|].
  intros (-> & Hp & n & Hn & Hc) [->|Hin]%elem_of_cons; [eauto|by eapply IH].
Qed.

Lemma chain_ext m m' p l :
  (∀ c n, c ∈ l → m !! c = Some n → ∃ n', m' !! c = Some n' ∧ v_next_sibling n' = v_next_sibling n) →
  chain m p l → chain m' p l.
Proof.
  revert p. induction l as [|q l IH]; intros p He; simpl; [done|].
  intros (-> & Hp & n & Hn & Hc). split_and!; [done|done|].
  destruct (He q n ltac:(by left) Hn) as (n' & Hn' & E). exists n'. split; [done|]. rewrite E.
  apply IH; [|done]. intros c nc Hin. apply He. by right.
Qed.

(** A chain is no longer than the store. *)
Lemma chain_length m p l : chain m p l → (length l <= size m)%nat.
Proof.
  intros Hc. rewrite <- (size_list_to_set (C := gset Z)) by by eapply chain_NoDup.
  rewrite <- size_dom. apply subseteq_size. intros c Hin%elem_of_list_to_set.
  apply elem_of_dom. by eapply chain_elem.
Qed.

(** ** Lemmas: the tree *)
Lemma upd_ch_eq d l ch : upd_ch d l ch d = l.
Proof. unfold upd_ch. by rewrite decide_True. Qed.
Lemma upd_ch_ne d l ch x : x ≠ d → upd_ch d l ch x = ch x.
Proof. intros. unfold upd_ch. by rewrite decide_False. Qed.

Section Tree.
Context {m : gmap Z VNode} {ch : Z → list Z}.
Context (T : tree m ch).

Lemma tree_child c d : c ∈ ch d → ∃ n nd, m !! c = Some n ∧ m !! d = Some nd ∧ v_parent n = d ∧ c ≠ 0 ∧ d ≠ 0.
Proof.
  intros Hc. destruct (m !! d) as [nd|] eqn:Hd.
  2:{ rewrite (t_out m ch T d Hd) in Hc. by apply elem_of_nil in Hc. }
  destruct (chain_elem m _ _ c (t_chain m ch T d nd Hd) Hc) as [Hc0 [n Hn]].
  assert (d ≠ 0) by (intros ->; by rewrite (t_null m ch T) in Hd).
  exists n, nd. split_and!; try done. by apply (t_parent m ch T c n d Hn).
Qed.

Lemma tree_parent_in c n : m !! c = Some n → v_parent n ≠ 0 → c ∈ ch (v_parent n).
Proof. intros Hn Hp. by apply (t_parent m ch T c n (v_parent n) Hn Hp). Qed.

Lemma tree_not_own_child c : c ∉ ch c.
Proof.
  intros Hc. destruct (tree_child c c Hc) as (n & _ & Hn & _ & Hp & H0 & _).
  assert (G : ∀ p, Acc (parent_of m) p → p = c → False).
  { induction 1 as [p _ IH]. intros ->. apply (IH c); [|done]. by exists n. }
  by apply (G c (t_acyclic m ch T c)).
Qed.

Lemma tree_NoDup d : NoDup (ch d).
Proof.
  destruct (m !! d) as [n|] eqn:E; [eapply chain_NoDup, (t_chain m ch T d n E)|].
  rewrite (t_out m ch T d E). constructor.
Qed.

Lemma tree_nonzero c n : m !! c = Some n → c ≠ 0.
Proof. intros Hn ->. by rewrite (t_null m ch T) in Hn. Qed.

Lemma name_of_eq c n : m !! c = Some n → name_of m c = v_name n.
Proof. intros E. unfold name_of. by rewrite E. Qed.

(** Changing a node's size, counters or private data. *)
Lemma tree_same p n n' : m !! p = Some n → same_links n n' → tree (<[p := n']> m) ch.
Proof.
  intros Hn (E1 & E2 & E3 & E4 & E5).
  assert (L : ∀ c nc, <[p := n']> m !! c = Some nc → ∃ n0, m !! c = Some n0 ∧ same_links n0 nc).
  { intros c nc [[<- <-]|[? Hc]]%lookup_insert_Some; [by exists n|]. exists nc. done. }
  assert (N : ∀ c, name_of (<[p := n']> m) c = name_of m c).
  { intros c. unfold name_of. destruct (decide (c = p)) as [->|].
    - by rewrite lookup_insert_eq, Hn.
    - by rewrite lookup_insert_ne. }
  constructor.
  - rewrite lookup_insert_ne; [apply T|]. by eapply tree_nonzero.
  - intros d nd (n0 & H0 & _ & _ & _ & -> & _)%L. eapply chain_ext; [|by apply T].
    intros c nc _ Hc. destruct (decide (c = p)) as [->|].
    + exists n'. rewrite lookup_insert_eq. by simplify_eq.
    + exists nc. by rewrite lookup_insert_ne.
  - intros d [Hd _]%lookup_insert_None. by apply T.
  - intros c nc d (n0 & H0 & _ & _ & -> & _)%L. by apply T.
  - intros d. erewrite map_ext; [apply T|]. done.
  - intros c nc (n0 & H0 & _ & -> & _)%L. by apply T.
  - intros c nc (n0 & H0 & -> & _)%L. by eapply T.
  - intros x. induction (t_acyclic m ch T x) as [x _ IH]. constructor. intros y (nx & Hx & Hp & Hy).
    apply IH. apply L in Hx as (n0 & H0 & _ & _ & E & _). exists n0. by rewrite <- E.
Qed.

(** A node that is in no directory. *)
Lemma tree_fresh c n :
  m !! c = None → c ≠ 0 → v_parent n = 0 → v_first_child n = 0 → (length (v_name n) < VFS_NAME_MAX)%nat →
  tree (<[c := n]> m) ch.
Proof.
  intros Hc H0 Hp Hf Hl.
  assert (Hno : ∀ d x, x ∈ ch d → x ≠ c).
  { intros d x Hx ->. destruct (tree_child c d Hx) as (? & ? & ? & _). congruence. }
  constructor.
  - by rewrite lookup_insert_ne; [apply T|].
  - intros d nd [[<- <-]|[? Hd]]%lookup_insert_Some.
    + by rewrite (t_out m ch T c Hc).
    + eapply chain_ext; [|by apply T]. intros x nx Hx Hm. exists nx.
      rewrite lookup_insert_ne; [done|]. apply not_eq_sym. eauto.
  - intros d [Hd _]%lookup_insert_None. by apply T.
  - intros x nx d [[<- <-]|[? Hx]]%lookup_insert_Some Hd; [|by apply T].
    rewrite Hp. split; [|congruence]. intros Hin. by destruct (Hno d c Hin).
  - intros d. rewrite (map_ext_in _ (name_of m)); [apply T|]. intros x Hx%list_elem_of_In.
    unfold name_of. rewrite lookup_insert_ne; [done|]. apply not_eq_sym. eauto.
  - intros x nx [[<- <-]|[? Hx]]%lookup_insert_Some; [by rewrite (t_out m ch T c Hc)|by apply T].
  - intros x nx [[<- <-]|[? Hx]]%lookup_insert_Some; [done|by eapply T].
  - intros x. induction (t_acyclic m ch T x) as [x _ IH]. constructor. intros y (nx & Hx & Hy & Hy0).
    apply lookup_insert_Some in Hx as [[<- <-]|[? Hx]]; [congruence|]. apply IH. by exists nx.
Qed.

(** Deleting a node that is in no directory and has no children. *)
Lemma tree_delete c n : m !! c = Some n → v_parent n = 0 → ch c = [] → tree (delete c m) ch.
Proof.
  intros Hn Hp Hch.
  assert (Hno : ∀ d x, x ∈ ch d → x ≠ c).
  { intros d x Hx ->. destruct (tree_child c d Hx) as (n' & _ & Hn' & _ & Hp' & _ & Hd). congruence. }
  constructor.
  - apply lookup_delete_None. right. apply T.
  - intros d nd [? Hd]%lookup_delete_Some. eapply chain_ext; [|by apply T].
    intros x nx Hx Hm. exists nx. rewrite lookup_delete_ne; [done|]. apply not_eq_sym. eauto.
  - intros d [<-|Hd]%lookup_delete_None; [done|by apply T].
  - intros x nx d [? Hx]%lookup_delete_Some. by apply T.
  - intros d. rewrite (map_ext_in _ (name_of m)); [apply T|]. intros x Hx%list_elem_of_In.
    unfold name_of. rewrite lookup_delete_ne; [done|]. apply not_eq_sym. eauto.
  - intros x nx [? Hx]%lookup_delete_Some. by apply T.
  - intros x nx [? Hx]%lookup_delete_Some. by eapply T.
  - intros x. induction (t_acyclic m ch T x) as [x _ IH]. constructor. intros y (nx & Hx & Hy & Hy0).
    apply lookup_delete_Some in Hx as [? Hx]. apply IH. by exists nx.
Qed.
End Tree.

(** ** Lemmas: moving a node in and out of a directory *)
Section Move.
Context {m : gmap Z VNode} {ch : Z → list Z}.
Context (T : tree m ch).

(** In front of directory [d], as ramfs links a new or renamed node. *)
Lemma tree_push d c nd nc nc' :
  m !! d = Some nd → v_type nd = VNODE_DIR → m !! c = Some nc → v_parent nc = 0 →
  ¬ anc m d c →
  v_parent nc' = d → v_next_sibling nc' = v_first_child nd → v_first_child nc' = v_first_child nc →
  v_type nc' = v_type nc → (length (v_name nc') < VFS_NAME_MAX)%nat →
  v_name nc' ∉ map (name_of m) (ch d) →
  tree (<[d := set_first_child c nd]> (<[c := nc']> m)) (upd_ch d (c :: ch d) ch).
Proof.
  intros Hd Hdir Hc Hpc Hanc E1 E2 E3 E4 Hlen Hname.
  assert (Hcd : c ≠ d) by (intros ->; by apply Hanc, anc_refl).
  assert (Hd0 : d ≠ 0) by (by eapply tree_nonzero).
  assert (Hc0 : c ≠ 0) by (by eapply tree_nonzero).
  assert (Hno : ∀ x, c ∉ ch x).
  { intros x Hx. destruct (tree_child T c x Hx) as (n & _ & Hn & _ & Hp & _ & H0). congruence. }
  set (m' := <[d := set_first_child c nd]> (<[c := nc']> m)).
  assert (Ld : m' !! d = Some (set_first_child c nd)) by apply lookup_insert_eq.
  assert (Lc : m' !! c = Some nc') by (unfold m'; rewrite lookup_insert_ne by done; apply lookup_insert_eq).
  assert (Lo : ∀ x, x ≠ c → x ≠ d → m' !! x = m !! x)
    by (intros; unfold m'; by rewrite !lookup_insert_ne by done).
  assert (Ext : ∀ p l, c ∉ l → chain m p l → chain m' p l).
  { intros p l Hl. apply chain_ext. intros x n Hx Hm. assert (x ≠ c) by (intros ->; done).
    destruct (decide (x = d)) as [->|]; [exists (set_first_child c nd)|exists n].
    - split; [done|]. by simplify_eq.
    - by rewrite Lo. }
  constructor.
  - rewrite Lo by done. apply T.
  - intros x n Hx. destruct (decide (x = d)) as [->|Hxd].
    + rewrite upd_ch_eq. rewrite Ld in Hx. simplify_eq. simpl. split_and!; [done|done|].
      exists nc'. split; [done|]. rewrite E2. apply Ext; [done|by apply T].
    + rewrite upd_ch_ne by done. destruct (decide (x = c)) as [->|Hxc].
      * rewrite Lc in Hx. simplify_eq. rewrite E3. apply Ext; [done|by apply T].
      * rewrite Lo in Hx by done. apply Ext; [done|by apply T].
  - intros x Hx. destruct (decide (x = d)) as [->|Hxd]; [congruence|]. rewrite upd_ch_ne by done.
    destruct (decide (x = c)) as [->|]; [congruence|]. apply T. by rewrite <- Lo.
  - intros x n y Hx Hy. destruct (decide (x = c)) as [->|Hxc].
    + rewrite Lc in Hx. simplify_eq. destruct (decide (y = v_parent n)) as [->|Hne].
      * rewrite upd_ch_eq. split; [done|]. intros _. by left.
      * rewrite upd_ch_ne by done. split; [intros Hin; by destruct (Hno y)|congruence].
    + assert (∃ n0, m !! x = Some n0 ∧ v_parent n = v_parent n0) as (n0 & Hn0 & ->).
      { destruct (decide (x = d)) as [->|]; [|rewrite Lo in Hx by done; eauto].
        rewrite Ld in Hx. simplify_eq. eauto. }
      rewrite <- (t_parent m ch T x n0 y Hn0 Hy). unfold upd_ch. destruct (decide (y = d)) as [->|]; [|done].
      rewrite elem_of_cons. naive_solver.
  - intros x. assert (Hn : ∀ l, c ∉ l → map (name_of m') l = map (name_of m) l).
    { intros l Hl. apply map_ext_in. intros y Hy%list_elem_of_In. unfold name_of.
      assert (y ≠ c) by (intros ->; done).
      destruct (decide (y = d)) as [->|]; [by rewrite Ld, Hd|by rewrite Lo]. }
    unfold upd_ch. destruct (decide (x = d)) as [->|]; [|rewrite Hn by done; apply T].
    simpl. rewrite Hn by done. constructor; [|apply T].
    by rewrite (name_of_eq c nc') by done.
  - intros x n Hx Ht. destruct (decide (x = d)) as [->|Hxd].
    + rewrite Ld in Hx. injection Hx as <-. done.
    + rewrite upd_ch_ne by done. destruct (decide (x = c)) as [->|].
      * rewrite Lc in Hx. simplify_eq. apply (t_dirs m ch T c nc Hc). congruence.
      * rewrite Lo in Hx by done. by apply (t_dirs m ch T x n Hx).
  - intros x n Hx. destruct (decide (x = d)) as [->|]; [rewrite Ld in Hx; injection Hx as <-; exact (t_name m ch T d nd Hd)|].
    destruct (decide (x = c)) as [->|]; [by rewrite Lc in Hx; simplify_eq|].
    rewrite Lo in Hx by done. by eapply (t_name m ch T).
  - assert (Par : ∀ x y, x ≠ c → parent_of m' y x → parent_of m y x).
    { intros x y Hxc (n & Hx & Hp & H0). destruct (decide (x = d)) as [->|].
      - rewrite Ld in Hx. simplify_eq. exists nd. done.
      - rewrite Lo in Hx by done. by exists n. }
    assert (A1 : ∀ x, ¬ anc m x c → Acc (parent_of m') x).
    { intros x. induction (t_acyclic m ch T x) as [x _ IH]. intros Hx. constructor. intros y Hy.
      assert (x ≠ c) by (intros ->; by apply Hx, anc_refl). apply Par in Hy; [|done].
      apply IH; [done|]. intros Hy'. apply Hx. by eapply anc_up. }
    assert (A2 : Acc (parent_of m') c).
    { constructor. intros y (n & Hx & Hp & H0). rewrite Lc in Hx. simplify_eq. by apply A1. }
    intros x. induction (t_acyclic m ch T x) as [x _ IH]. destruct (decide (x = c)) as [->|Hxc]; [done|].
    constructor. intros y Hy. by apply IH, Par.
Qed.

(** Taking [c] out of a chain: its predecessor, or the head, points past it. *)
Lemma chain_remove m' c nc l2 l1 p :
  m !! c = Some nc → chain m p (l1 ++ c :: l2) → NoDup (l1 ++ c :: l2) →
  (∀ x n, x ∈ l1 ++ l2 → m !! x = Some n → ∃ n', m' !! x = Some n' ∧
     v_next_sibling n' = if decide (list.last l1 = Some x) then v_next_sibling nc else v_next_sibling n) →
  chain m' (match l1 with [] => v_next_sibling nc | _ => p end) (l1 ++ l2).
Proof.
  intros Hc. revert p. induction l1 as [|q l1 IH]; intros p Hch Hnd He.
  - destruct Hch as (-> & _ & n & Hn & Hch). simplify_eq. simpl in *.
    eapply chain_ext; [|exact Hch]. intros x n Hx Hm. destruct (He x n Hx Hm) as (n' & ? & ?). eauto.
  - destruct Hch as (-> & Hq & n & Hn & Hch). apply list.NoDup_cons in Hnd as [Hnq Hnd]. fold (l1 ++ c :: l2) in *.
    simpl. split_and!; [done|done|]. destruct (He q n ltac:(by left) Hn) as (n' & Hn' & E).
    exists n'. split; [done|].
    assert (He' : ∀ x n, x ∈ l1 ++ l2 → m !! x = Some n → ∃ n', m' !! x = Some n' ∧
      v_next_sibling n' = if decide (list.last l1 = Some x) then v_next_sibling nc else v_next_sibling n).
    { intros x nx Hx Hm. destruct (He x nx ltac:(by right) Hm) as (nx' & Hx' & Ex).
      exists nx'. split; [done|]. rewrite Ex. destruct l1 as [|y l1]; [|done]. simpl in *.
      rewrite decide_False; [done|]. intros [= ->]. apply Hnq. by right. }
    specialize (IH (v_next_sibling n) Hch Hnd He'). rewrite E. destruct l1 as [|y l1].
    + simpl in *. by rewrite decide_True.
    + rewrite decide_False; [exact IH|]. rewrite last_cons_cons. intros Hl.
      apply Hnq. apply elem_of_app. left. by apply last_Some_elem_of.
Qed.

(** [m'] is [m] with [c] taken out of the children [l1 ++ c :: l2] of [d] and left
    without a parent. *)
Record detached (m' : gmap Z VNode) (d c : Z) (l1 l2 : list Z) (nc : VNode) : Prop := {
  dt_dom : ∀ x, m !! x = None → m' !! x = None;
  dt_self : ∃ nc', m' !! c = Some nc' ∧ v_parent nc' = 0 ∧ v_type nc' = v_type nc ∧
              v_first_child nc' = v_first_child nc ∧ (length (v_name nc') < VFS_NAME_MAX)%nat;
  dt_other : ∀ x n, x ≠ c → m !! x = Some n → ∃ n', m' !! x = Some n' ∧
      v_name n' = v_name n ∧ v_type n' = v_type n ∧ v_parent n' = v_parent n ∧
      v_first_child n' = (if decide (x = d ∧ l1 = []) then v_next_sibling nc else v_first_child n) ∧
      v_next_sibling n' = (if decide (list.last l1 = Some x) then v_next_sibling nc else v_next_sibling n)
}.

Lemma tree_detach m' d c l1 l2 nc :
  m !! c = Some nc → ch d = l1 ++ c :: l2 → detached m' d c l1 l2 nc → tree m' (upd_ch d (l1 ++ l2) ch).
Proof.
  intros Hc Hd [Ddom (nc' & Sc & Sp & St & Sf & Sn) Do].
  assert (Hcd : c ∈ ch d) by (rewrite Hd; set_solver).
  destruct (tree_child T c d Hcd) as (nc0 & nd & Hc0 & Hnd & Hpc & Hcz & Hdz). simplify_eq.
  pose proof (tree_NoDup T (v_parent nc)) as ND. set (d := v_parent nc) in *.
  assert (c ≠ d) by (intros E; apply (tree_not_own_child T c); by rewrite E at 2).
  assert (Back : ∀ x n', m' !! x = Some n' → ∃ n, m !! x = Some n).
  { intros x n' Hx. destruct (m !! x) eqn:E; [eauto|]. rewrite Ddom in Hx by done. done. }
  assert (Hcl : c ∉ l1 ++ l2).
  { rewrite Hd in ND. by apply NoDup_middle in ND as [? _]. }
  assert (Uniq : ∀ x y, x ∈ ch y → x ∈ ch d → y = d).
  { intros x y Hy Hx. destruct (tree_child T x y Hy) as (n & _ & Hn & _ & <- & _).
    destruct (tree_child T x d Hx) as (n' & _ & Hn' & _ & Hp' & _). congruence. }
  assert (Names : ∀ l, c ∉ l → (∀ x, x ∈ l → is_Some (m !! x)) → map (name_of m') l = map (name_of m) l).
  { intros l Hl Hin. apply map_ext_in. intros x Hx%list_elem_of_In. destruct (Hin x Hx) as [n Hn].
    destruct (Do x n) as (n' & Hn' & En & _); [intros ->; done|done|]. unfold name_of. by rewrite Hn, Hn'. }
  assert (Hin : ∀ y x, x ∈ ch y → is_Some (m !! x)).
  { intros y x Hx. destruct (tree_child T x y Hx) as (n & _ & ? & _). eauto. }
  constructor.
  - apply Ddom, T.
  - intros x n' Hx. destruct (decide (x = d)) as [->|Hxd].
    + rewrite upd_ch_eq. destruct (Do d nd) as (n1 & H1 & _ & _ & _ & E & _); [done|done|]. simplify_eq.
      pose proof (t_chain m ch T d nd Hnd) as C. rewrite Hd in C, ND.
      pose proof (chain_remove m' c nc l2 l1 (v_first_child nd) Hc C ND) as R.
      assert (Hl1 : (match l1 with [] => v_next_sibling nc | _ => v_first_child nd end) = v_first_child n').
      { rewrite E. destruct l1; [by rewrite decide_True|]. rewrite decide_False; [done|]. by intros [_ ?]. }
      rewrite <- Hl1. apply R. intros y n Hy Hm. destruct (Do y n) as (n2 & H2 & _ & _ & _ & _ & E2);
        [intros ->; done|done|]. eauto.
    + rewrite upd_ch_ne by done. destruct (Back x n' Hx) as [n Hn].
      assert (C : chain m' (v_first_child n) (ch x)).
      { eapply chain_ext; [|by apply T]. intros y ny Hy Hm.
        assert (Hyd : y ∉ ch d) by (intros ?; by apply Hxd, (Uniq y)).
        destruct (Do y ny) as (n2 & H2 & _ & _ & _ & _ & E2); [intros ->; done|done|].
        exists n2. split; [done|]. rewrite E2. rewrite decide_False; [done|]. intros Hl.
        apply Hyd. rewrite Hd. apply elem_of_app. left. by apply last_Some_elem_of. }
      destruct (decide (x = c)) as [->|Hxc]; [simplify_eq; by rewrite Sf|].
      destruct (Do x n) as (n2 & H2 & _ & _ & _ & E & _); [done|done|]. simplify_eq.
      rewrite E, decide_False; [done|]. by intros [? _].
  - intros x Hx. destruct (decide (x = d)) as [->|Hxd].
    + destruct (Do d nd) as (? & ? & _); [done|done|]. congruence.
    + rewrite upd_ch_ne by done. apply T. destruct (m !! x) as [n|] eqn:E; [|done].
      destruct (decide (x = c)) as [->|]; [congruence|]. destruct (Do x n) as (? & ? & _); [done|done|]. congruence.
  - intros x n' y Hx Hy. destruct (Back x n' Hx) as [n Hn]. destruct (decide (x = c)) as [->|Hxc].
    + simplify_eq. rewrite Sp. split; [|congruence]. unfold upd_ch. intros Hin'. exfalso.
      destruct (decide (y = d)) as [->|Hyd]; [done|]. by apply Hyd, (Uniq c).
    + destruct (Do x n) as (n2 & H2 & _ & _ & Ep & _); [done|done|]. rewrite Hx in H2. injection H2 as <-.
      rewrite Ep, <- (t_parent m ch T x n y Hn Hy). unfold upd_ch. destruct (decide (y = d)) as [->|]; [|done].
      rewrite Hd. rewrite !elem_of_app, elem_of_cons. naive_solver.
  - intros x. unfold upd_ch. destruct (decide (x = d)) as [->|Hxd].
    + rewrite Names; [|done|].
      * pose proof (t_names m ch T d) as N. rewrite Hd in N. rewrite map_app in *. simpl in N.
        by apply NoDup_middle in N as [_ N].
      * intros y Hy. apply (Hin d). rewrite Hd. set_solver.
    + rewrite Names; [apply T| |apply Hin]. intros ?. by apply Hxd, (Uniq c).
  - intros x n' Hx Ht. destruct (decide (x = d)) as [->|Hxd].
    + exfalso. destruct (Do d nd) as (n1 & H1 & _ & E & _); [done|done|]. simplify_eq.
      rewrite (t_dirs m ch T d nd Hnd) in Hd by congruence. by destruct l1.
    + rewrite upd_ch_ne by done. destruct (Back x n' Hx) as [n Hn]. apply (t_dirs m ch T x n Hn).
      destruct (decide (x = c)) as [->|Hxc]; [simplify_eq; congruence|].
      destruct (Do x n) as (n1 & H1 & _ & E & _); [done|done|]. simplify_eq. congruence.
  - intros x n' Hx. destruct (Back x n' Hx) as [n Hn]. destruct (decide (x = c)) as [->|Hxc]; [by simplify_eq|].
    destruct (Do x n) as (n1 & H1 & E & _); [done|done|]. simplify_eq. rewrite E. exact (t_name m ch T x n Hn).
  - intros x. induction (t_acyclic m ch T x) as [x _ IH]. constructor. intros y (n' & Hx & Hp & Hy).
    apply IH. destruct (Back x n' Hx) as [n Hn]. destruct (decide (x = c)) as [->|Hxc]; [simplify_eq; congruence|].
    destruct (Do x n) as (n1 & H1 & _ & _ & E & _); [done|done|]. simplify_eq. exists n. by rewrite <- E.
Qed.

(** The two ways the code takes a node out: through the directory when it is the
    first child, through its predecessor otherwise; [f] is what it then does to it. *)
Lemma detached_link d c l1 l2 nc nc' :
  m !! c = Some nc → ch d = l1 ++ c :: l2 →
  v_parent nc' = 0 → v_type nc' = v_type nc → v_first_child nc' = v_first_child nc →
  (length (v_name nc') < VFS_NAME_MAX)%nat →
  ∀ p np, m !! p = Some np →
    (l1 = [] → p = d) → (l1 ≠ [] → list.last l1 = Some p) →
    detached (<[c := nc']> (<[p := (if decide (l1 = []) then set_first_child else set_next_sibling)
                                     (v_next_sibling nc) np]> m)) d c l1 l2 nc.
Proof.
  intros Hc Hd P1 P2 P3 P4 p np Hp Hfirst Hlast.
  assert (Hcd : c ∈ ch d) by (rewrite Hd; set_solver).
  assert (Hpc : p ≠ c).
  { intros ->. destruct (decide (l1 = [])) as [E|E].
    - rewrite <- (Hfirst E) in Hcd. by apply (tree_not_own_child T c).
    - pose proof (tree_NoDup T d) as ND. rewrite Hd in ND. apply list.NoDup_app in ND as (_ & ND & _).
      apply (ND c); [by apply last_Some_elem_of, Hlast|by left]. }
  constructor.
  - intros x Hx. rewrite !lookup_insert_ne; [done|congruence|congruence].
  - exists nc'. by rewrite lookup_insert_eq.
  - intros x n Hxc Hx. rewrite lookup_insert_ne by done. destruct (decide (x = p)) as [->|Hxp].
    + rewrite lookup_insert_eq. eexists; split; [done|]. rewrite Hx in Hp. injection Hp as <-.
      destruct (decide (l1 = [])) as [E|E]; simpl; split_and!; try done.
      * by rewrite decide_True by auto.
      * by rewrite E.
      * rewrite decide_False; [done|]. by intros [_ ?].
      * by rewrite decide_True by auto.
    + rewrite lookup_insert_ne by done. exists n. split_and!; try done.
      * rewrite decide_False; [done|]. intros [-> E]. by apply Hxp, eq_sym, Hfirst.
      * rewrite decide_False; [done|]. intros E. destruct (decide (l1 = [])) as [->|E']; [done|].
        rewrite (Hlast E') in E. congruence.
Qed.
End Move.
