(* ===== verification/Ramfs.v ===== *)
(** * kernel/filesystem/ramfs.c: the in-memory file system

    Directory operations work on the chain of a directory's children, file
    operations on a growing byte array behind the node.  The directory contract is
    stated on [ch], the list of children of every directory ([tree] of VfsTypes.v);
    the file contract on the bytes of a file, zero where nothing was written. *)
From S2P Require Import Prelude RawMem Pmm Heap VfsTypes.
Local Open Scope kernel_scope.

Section Ramfs.
Context {H : Type} `{KernelMem H}.

(** The address of the static table [ramfs_ops]. *)
Context (ramfs_ops : Z).

(** ** Directories *)

(** The loop of [ramfs_lookup]. [kernel/filesystem/ramfs.c: ramfs_lookup 12-15] *)
Fixpoint lookup_loop (fuel : nat) (c : Z) (name : str) : M (fs H) Z :=
  if c =? 0 then mret 0
  else match fuel with
  | O => fail
  | S fuel' =>
      n ← vnode c;
      if decide (v_name n = name) then mret c else lookup_loop fuel' (v_next_sibling n) name
  end.
(** [kernel/filesystem/ramfs.c: ramfs_lookup] *)
Definition ramfs_lookup (dir : Z) (name : str) : M (fs H) Z :=
  d ← vnode dir; fuel ← node_fuel; lookup_loop fuel (v_first_child d) name.

(** The bytes of [name] a node keeps. [kernel/filesystem/ramfs.c: ramfs_create 28-32] *)
Definition clip_name (name : str) : str :=
  if (VFS_NAME_MAX <=? length name)%nat then take (VFS_NAME_MAX - 1) name else name.

(** Put [n] in front of [dir]'s children. [kernel/filesystem/ramfs.c: ramfs_create 52-53] *)
Definition push_child (dir n : Z) : M (fs H) unit :=
  d ← vnode dir;
  vnode_upd n (set_next_sibling (v_first_child d));;
  vnode_upd dir (set_first_child n).

(** [kernel/filesystem/ramfs.c: ramfs_create] *)
Definition ramfs_create (dir : Z) (name : str) (type : VNodeType) : M (fs H) Z :=
  c ← ramfs_lookup dir name;
  if negb (c =? 0) then mret 0
  else
    n ← alloc_vnode;
    if n =? 0 then mret 0
    else
      vnode_upd n (set_name (clip_name name));;
      vnode_upd n (set_type type);;
      vnode_upd n (set_ops ramfs_ops);;
      vnode_upd n (set_parent dir);;
      ok ← (if decide (type = VNODE_FILE) then
              rf ← on_fs_mem (km_kmalloc SIZEOF_RAMFS_FILE);
              if rf =? 0 then free_vnode n;; mret false
              else
                rfile_set rf (MkRamfsFile 0 0 []);;
                vnode_upd n (set_private rf);;
                vnode_upd n (set_size 0);;
                mret true
            else mret true);
      if (ok : bool) then push_child dir n;; mret n else mret 0.

(** A [VNode **] into a sibling chain: a directory's [first_child] or a node's
    [next_sibling] field. *)
Inductive link := FirstChild (d : Z) | NextSibling (c : Z).
(** [kernel/filesystem/ramfs.c: ramfs_rename 134-136] *)
Definition read_link (l : link) : M (fs H) Z :=
  match l with
  | FirstChild d => n ← vnode d; mret (v_first_child n)
  | NextSibling c => n ← vnode c; mret (v_next_sibling n)
  end.
(** [kernel/filesystem/ramfs.c: ramfs_rename 138-138] *)
Definition write_link (l : link) (p : Z) : M (fs H) unit :=
  match l with
  | FirstChild d => vnode_upd d (set_first_child p)
  | NextSibling c => vnode_upd c (set_next_sibling p)
  end.

(** The loop of [ramfs_rename]: the link that holds [node] or the one that ends the
    chain. [kernel/filesystem/ramfs.c: ramfs_rename 133-135] *)
Fixpoint find_link (fuel : nat) (pp : link) (node : Z) : M (fs H) link :=
  p ← read_link pp;
  if (p =? 0) || (p =? node) then mret pp
  else match fuel with
  | O => fail
  | S fuel' => find_link fuel' (NextSibling p) node
  end.
(** [kernel/filesystem/ramfs.c: ramfs_rename] *)
Definition ramfs_rename (node new_dir : Z) (new_name : str) : M (fs H) Z :=
  n ← vnode node;
  fuel ← node_fuel;
  pp ← find_link fuel (FirstChild (v_parent n)) node;
  p ← read_link pp;
  if p =? 0 then mret (-1)
  else
    write_link pp (v_next_sibling n);;
    vnode_upd node (set_name (clip_name new_name));;
    vnode_upd node (set_parent new_dir);;
    push_child new_dir node;;
    mret 0.

(** Free a node with its file. [kernel/filesystem/ramfs.c: ramfs_release] *)
Definition ramfs_release (node : Z) : M (fs H) unit :=
  n ← vnode node;
  (if decide (v_type n = VNODE_FILE ∧ v_private n ≠ 0) then
     rf ← rfile (v_private n);
     (if rf_data rf =? 0 then mret tt else on_fs_mem (km_kfree (rf_data rf)));;
     on_fs_mem (km_kfree (v_private n));;
     modify (λ s, set_files (delete (v_private n) (fs_files s)) s)
   else mret tt);;
  free_vnode node.

(** The loop of [ramfs_unlink]: [(prev, cur)], [cur] NULL when no child has the name.
    [kernel/filesystem/ramfs.c: ramfs_unlink 166-175] *)
Fixpoint unlink_loop (fuel : nat) (prev cur : Z) (name : str) : M (fs H) (Z * Z) :=
  if cur =? 0 then mret (prev, cur)
  else match fuel with
  | O => fail
  | S fuel' =>
      n ← vnode cur;
      if decide (v_name n = name) then mret (prev, cur)
      else unlink_loop fuel' cur (v_next_sibling n) name
  end.
(** [kernel/filesystem/ramfs.c: ramfs_unlink] *)
Definition ramfs_unlink (dir : Z) (name : str) : M (fs H) Z :=
  d ← vnode dir;
  fuel ← node_fuel;
  pc ← unlink_loop fuel 0 (v_first_child d) name;
  let '(prev, cur) := pc in
  if cur =? 0 then mret (-1)
  else
    n ← vnode cur;
    if decide (v_type n = VNODE_DIR ∧ v_first_child n ≠ 0) then mret (-1)
    else
      (if negb (prev =? 0) then vnode_upd prev (set_next_sibling (v_next_sibling n))
       else vnode_upd dir (set_first_child (v_next_sibling n)));;
      vnode_upd cur (set_parent 0);;
      vnode_upd cur (set_next_sibling 0);;
      (if negb (v_open_count n =? 0) then vnode_upd cur (set_unlinked true)
       else ramfs_release cur);;
      mret 0.

(** The loop of [ramfs_readdir]. [kernel/filesystem/ramfs.c: ramfs_readdir 114-127] *)
Fixpoint readdir_loop (fuel : nat) (c idx i : Z) : M (fs H) (Z * str) :=
  if c =? 0 then mret (-1, [])
  else match fuel with
  | O => fail
  | S fuel' =>
      n ← vnode c;
      if idx =? i then mret (0, clip_name (v_name n))
      else readdir_loop fuel' (v_next_sibling n) (idx + 1) i
  end.
(** The result and the name written to [name_out]. [kernel/filesystem/ramfs.c: ramfs_readdir] *)
Definition ramfs_readdir (dir i : Z) : M (fs H) (Z * str) :=
  d ← vnode dir; fuel ← node_fuel; readdir_loop fuel (v_first_child d) 0 i.

(** [kernel/filesystem/ramfs.c: ramfs_create_root 209-219] *)
Definition ramfs_create_root : M (fs H) Z :=
  root ← alloc_vnode;
  if root =? 0 then mret 0
  else
    vnode_upd root (set_type VNODE_DIR);;
    vnode_upd root (set_ops ramfs_ops);;
    vnode_upd root (set_name [slash]);;
    mret root.

(** ** Files *)

(** [while (new_cap < needed) new_cap *= 2;] on a [size_t]. 64 doublings empty any
    64-bit word, so a run longer than the fuel of 65 never ends.
    [kernel/filesystem/ramfs.c: ramfs_ensure_capacity 63-64] *)
Fixpoint grow_capacity (fuel : nat) (new_cap needed : Z) : option Z :=
  if new_cap <? needed then
    match fuel with O => None | S fuel' => grow_capacity fuel' (u64 (new_cap * 2)) needed end
  else Some new_cap.

(** [kernel/filesystem/ramfs.c: ramfs_ensure_capacity] *)
Definition ramfs_ensure_capacity (p needed : Z) : M (fs H) Z :=
  rf ← rfile p;
  if needed <=? rf_capacity rf then mret 0
  else
    new_cap ← lift (grow_capacity 65 (if rf_capacity rf =? 0 then 256 else rf_capacity rf) needed);
    new_data ← on_fs_mem (km_kmalloc new_cap);
    if new_data =? 0 then mret (-1)
    else
      (if rf_data rf =? 0 then mret tt else on_fs_mem (km_kfree (rf_data rf)));;
      rfile_set p (MkRamfsFile new_data new_cap
                     (rf_bytes rf ++ replicate (Z.to_nat (new_cap - rf_capacity rf)) 0));;
      mret 0.

(** [n] bytes of [l] from [off] on; [None] out of bounds. [kernel/filesystem/ramfs.c: ramfs_read 91-91] *)
Definition read_range (l : list Z) (off n : Z) : option (list Z) :=
  if (0 <=? off) && (off + n <=? Z.of_nat (length l)) then
    Some (take (Z.to_nat n) (drop (Z.to_nat off) l))
  else None.
(** The bytes [bs] written into [l] at [off]. [kernel/filesystem/ramfs.c: ramfs_write 104-104] *)
Definition write_range (l : list Z) (off : Z) (bs : list Z) : option (list Z) :=
  if (0 <=? off) && (off + Z.of_nat (length bs) <=? Z.of_nat (length l)) then
    Some (take (Z.to_nat off) l ++ bs ++ drop (Z.to_nat off + length bs) l)
  else None.

(** The count and the bytes put into [buf]. [kernel/filesystem/ramfs.c: ramfs_read] *)
Definition ramfs_read (node count offset : Z) : M (fs H) (Z * list Z) :=
  n ← vnode node;
  if (v_private n =? 0) || (v_size n <=? offset) then mret (0, [])
  else
    rf ← rfile (v_private n);
    let avail := v_size n - offset in
    let k := if count <? avail then count else avail in
    bs ← lift (read_range (rf_bytes rf) offset k);
    mret (s64 k, bs).

(** [kernel/filesystem/ramfs.c: ramfs_write], [count] being the length of [buf]. *)
Definition ramfs_write (node : Z) (buf : list Z) (offset : Z) : M (fs H) Z :=
  n ← vnode node;
  if v_private n =? 0 then mret (-1)
  else
    let count := Z.of_nat (length buf) in
    e ← ramfs_ensure_capacity (v_private n) (u64 (offset + count));
    if negb (e =? 0) then mret (-1)
    else
      rf ← rfile (v_private n);
      bs ← lift (write_range (rf_bytes rf) offset buf);
      rfile_set (v_private n) (MkRamfsFile (rf_data rf) (rf_capacity rf) bs);;
      (if v_size n <? u64 (offset + count) then vnode_upd node (set_size (u64 (offset + count)))
       else mret tt);;
      mret (s64 count).

(** ** Specification *)

(** The bytes of a file and what reading and writing mean: a write beyond the end
    leaves zeros in between. *)
Definition spec_read (c : list Z) (off n : Z) : list Z := take (Z.to_nat n) (drop (Z.to_nat off) c).
Definition spec_write (c : list Z) (off : Z) (buf : list Z) : list Z :=
  take (Z.to_nat off) (c ++ replicate (Z.to_nat off - length c) 0) ++ buf ++
  drop (Z.to_nat off + length buf) c.

(** The blocks of the heap that belong to nodes, [RamfsFile]s and file data. *)
Definition data_block (r : RamfsFile) : list (Z * Z) :=
  if rf_data r =? 0 then [] else [(rf_data r, rf_capacity r)].
Definition data_blocks (m : gmap Z RamfsFile) : list (Z * Z) :=
  flat_map (λ pr, data_block pr.2) (map_to_list m).
Definition fs_blocks (s : fs H) : list (Z * Z) :=
  map (λ p, (p, SIZEOF_VNODE)) (elements (dom (fs_nodes s))) ++
  map (λ p, (p, SIZEOF_RAMFS_FILE)) (elements (dom (fs_files s))) ++
  data_blocks (fs_files s).

(** A file's buffer: as long as its capacity, holding the file, zero beyond it. *)
Record rf_ok (size : Z) (r : RamfsFile) : Prop := {
  rf_len : Z.of_nat (length (rf_bytes r)) = rf_capacity r;
  rf_size : 0 <= size <= rf_capacity r;
  rf_null : rf_data r = 0 → rf_capacity r = 0;
  rf_cap : rf_capacity r < 2 ^ 63;
  rf_zero : ∀ k, size <= k < rf_capacity r → lookupZ (rf_bytes r) k = Some 0
}.

(** Regular ramfs files own their [RamfsFile]; other ramfs nodes have none. *)
Record files_ok (s : fs H) : Prop := {
  fo_file : ∀ p n, fs_nodes s !! p = Some n → v_ops n = ramfs_ops → v_type n = VNODE_FILE →
    v_private n ≠ 0 ∧ ∃ r, fs_files s !! v_private n = Some r ∧ rf_ok (v_size n) r;
  fo_other : ∀ p n, fs_nodes s !! p = Some n → v_ops n = ramfs_ops → v_type n ≠ VNODE_FILE → v_private n = 0;
  fo_inj : ∀ p n p' n', fs_nodes s !! p = Some n → fs_nodes s !! p' = Some n' →
    v_ops n = ramfs_ops → v_ops n' = ramfs_ops → v_type n = VNODE_FILE → v_type n' = VNODE_FILE →
    v_private n = v_private n' → p = p'
}.

(** The children of a ramfs directory are ramfs nodes. *)
Definition ops_ok (m : gmap Z VNode) : Prop :=
  ∀ c n nd, m !! c = Some n → m !! v_parent n = Some nd → v_ops nd = ramfs_ops → v_ops n = ramfs_ops.

(** The bytes of node [p]. *)
Definition content (s : fs H) (p : Z) : option (list Z) :=
  n ← fs_nodes s !! p;
  r ← fs_files s !! v_private n;
  Some (take (Z.to_nat (v_size n)) (rf_bytes r)).

(** The state invariant: [runs] and [blocks] of the heap belong to others, [ch] are
    the children of every directory. *)
Record fs_inv (runs blocks : list (Z * Z)) (ch : Z → list Z) (s : fs H) : Prop := {
  fi_tree : tree (fs_nodes s) ch;
  fi_mem : km_inv (fs_mem s) runs (fs_blocks s ++ blocks);
  fi_files : files_ok s;
  fi_ops : ops_ok (fs_nodes s)
}.

(** ** Lemmas: lists *)
Lemma read_range_spec l off n :
  0 <= off → off + n <= Z.of_nat (length l) → read_range l off n = Some (spec_read l off n).
Proof.
  intros H1 H2. unfold read_range, spec_read.
  destruct (Z.leb_spec 0 off), (Z.leb_spec (off + n) (Z.of_nat (length l))); try lia. done.
Qed.

(** A range of a buffer, byte by byte. *)
Lemma read_range_map l off n bs :
  read_range l off n = Some bs → 0 <= n → bs = map (λ i, default 0 (l !!z i)) (seqZ off n).
Proof.
  intros Hr Hn. unfold read_range in Hr. destruct (Z.leb_spec 0 off), (Z.leb_spec (off + n) (Z.of_nat (length l))); try done.
  injection Hr as <-. apply list_eq. intros i. rewrite list_lookup_fmap.
  destruct (decide (i < Z.to_nat n)%nat) as [Hi|Hi].
  - rewrite lookup_take_lt, lookup_drop by done. rewrite (proj2 (lookup_seqZ off n i (off + Z.of_nat i))) by lia. simpl.
    unfold lookupZ. destruct (Z.ltb_spec (off + Z.of_nat i) 0); [lia|].
    replace (Z.to_nat (off + Z.of_nat i)) with (Z.to_nat off + i)%nat by lia.
    destruct (lookup_lt_is_Some_2 l (Z.to_nat off + i)) as [v ->]; [lia|done].
  - rewrite lookup_take_ge by lia. rewrite lookup_seqZ_ge by lia. done.
Qed.

Lemma read_range_Some l off n : 0 <= off → off + n <= Z.of_nat (length l) → ∃ bs, read_range l off n = Some bs.
Proof.
  intros H1 H2. unfold read_range. destruct (Z.leb_spec 0 off), (Z.leb_spec (off + n) (Z.of_nat (length l))); try lia. eauto.
Qed.

Lemma write_range_Some l off bs : 0 <= off → off + Z.of_nat (length bs) <= Z.of_nat (length l) → ∃ l', write_range l off bs = Some l'.
Proof.
  intros H1 H2. unfold write_range. destruct (Z.leb_spec 0 off), (Z.leb_spec (off + Z.of_nat (length bs)) (Z.of_nat (length l))); try lia. eauto.
Qed.

Lemma write_range_lookup l off bs l' k :
  write_range l off bs = Some l' →
  length l' = length l ∧
  lookupZ l' k = if decide (off <= k < off + Z.of_nat (length bs)) then lookupZ bs (k - off) else lookupZ l k.
Proof.
  unfold write_range. destruct (Z.leb_spec 0 off), (Z.leb_spec (off + Z.of_nat (length bs)) (Z.of_nat (length l)));
    simpl; intros; simplify_eq.
  assert (L : length (take (Z.to_nat off) l) = Z.to_nat off) by (apply length_take_le; lia).
  split; [rewrite !length_app, L, length_drop; lia|]. unfold lookupZ.
  destruct (Z.ltb_spec k 0); [destruct decide; [lia|done]|].
  destruct (decide (off <= k < off + Z.of_nat (length bs))) as [Hk|Hk].
  - destruct (Z.ltb_spec (k - off) 0); [lia|]. rewrite lookup_app_r by lia.
    rewrite L, lookup_app_l by lia. f_equal. lia.
  - destruct (decide (k < off)).
    + rewrite lookup_app_l by lia. apply lookup_take_lt. lia.
    + rewrite lookup_app_r by lia. rewrite L, lookup_app_r by lia. rewrite lookup_drop. f_equal. lia.
Qed.

Lemma spec_write_length c off buf :
  0 <= off → Z.of_nat (length (spec_write c off buf)) = Z.max (Z.of_nat (length c)) (off + Z.of_nat (length buf)).
Proof.
  intros Ho. unfold spec_write.
  rewrite !length_app, length_take, length_drop, length_app, length_replicate. lia.
Qed.

Lemma spec_write_lookup c off buf k :
  0 <= off → 0 <= k < Z.max (Z.of_nat (length c)) (off + Z.of_nat (length buf)) →
  lookupZ (spec_write c off buf) k =
    if decide (off <= k < off + Z.of_nat (length buf)) then lookupZ buf (k - off)
    else if decide (k < Z.of_nat (length c)) then lookupZ c k else Some 0.
Proof.
  intros Ho Hk. unfold spec_write, lookupZ.
  assert (L : length (take (Z.to_nat off) (c ++ replicate (Z.to_nat off - length c) 0)) = Z.to_nat off).
  { apply length_take_le. rewrite length_app, length_replicate. lia. }
  destruct (Z.ltb_spec k 0); [lia|].
  destruct (decide (off <= k < off + Z.of_nat (length buf))).
  - destruct (Z.ltb_spec (k - off) 0); [lia|]. rewrite lookup_app_r, L, lookup_app_l by lia. f_equal. lia.
  - destruct (decide (k < off)).
    + rewrite lookup_app_l, lookup_take_lt by lia. destruct (decide (k < Z.of_nat (length c))).
      * by rewrite lookup_app_l by lia.
      * rewrite lookup_app_r by lia. apply lookup_replicate_2. lia.
    + rewrite lookup_app_r, L, lookup_app_r, lookup_drop by lia.
      destruct (decide (k < Z.of_nat (length c))); [|lia]. f_equal. lia.
Qed.


Lemma lookupZ_take (l : list Z) n k : k < Z.of_nat n → lookupZ (take n l) k = lookupZ l k.
Proof.
  intros Hk. unfold lookupZ. destruct (Z.ltb_spec k 0); [done|]. apply lookup_take_lt. lia.
Qed.

(** ** Lemmas: nodes and memory *)
Context {KL : KernelMemLaws H}.

Lemma wp_vnode p n (Q : VNode → fs H → Prop) s :
  fs_nodes s !! p = Some n → Q n s → wp (vnode p) Q s.
Proof. intros Hn HQ. unfold vnode. wp_steps. by eapply wp_lift. Qed.

Lemma wp_vnode_upd p n f (Q : unit → fs H → Prop) s :
  fs_nodes s !! p = Some n → Q tt (set_nodes (<[p := f n]> (fs_nodes s)) s) → wp (vnode_upd p f) Q s.
Proof. intros Hn HQ. unfold vnode_upd. wp_steps. eapply wp_vnode; [done|]. by wp_steps. Qed.

Lemma wp_on_fs_mem {A} (m : M H A) (Q : A → fs H → Prop) s :
  wp m (λ a h, Q a (Fs h (fs_nodes s) (fs_files s) (fs_mounts s))) (fs_mem s) → wp (on_fs_mem m) Q s.
Proof. intros HQ. unfold on_fs_mem. apply wp_zoom. exact HQ. Qed.

Lemma elements_dom_insert {A} (m : gmap Z A) p x :
  m !! p = None → elements (dom (<[p := x]> m)) ≡ₚ p :: elements (dom m).
Proof. intros Hp. rewrite dom_insert_L. apply elements_union_singleton. by apply not_elem_of_dom. Qed.

Lemma elements_dom_delete {A} (m : gmap Z A) p x :
  m !! p = Some x → elements (dom m) ≡ₚ p :: elements (dom (delete p m)).
Proof.
  intros Hp. rewrite <- (insert_delete_id m p x Hp) at 1. apply elements_dom_insert. apply lookup_delete_eq.
Qed.

Lemma data_blocks_delete m p r :
  m !! p = Some r → data_blocks m ≡ₚ data_block r ++ data_blocks (delete p m).
Proof.
  intros Hp. unfold data_blocks. rewrite <- (insert_delete_id m p r Hp) at 1.
  rewrite map_to_list_insert by apply lookup_delete_eq. done.
Qed.

Lemma data_blocks_insert m p r : m !! p = None → data_blocks (<[p := r]> m) ≡ₚ data_block r ++ data_blocks m.
Proof. intros Hp. unfold data_blocks. by rewrite map_to_list_insert. Qed.

(** Only the nodes' addresses and the files matter to the memory. *)
Lemma fs_blocks_upd p n n' s :
  fs_nodes s !! p = Some n → fs_blocks (set_nodes (<[p := n']> (fs_nodes s)) s) = fs_blocks s.
Proof. intros Hn. unfold fs_blocks. simpl. by rewrite dom_insert_lookup_L. Qed.

Definition fs_mem_inv (runs blocks : list (Z * Z)) (s : fs H) : Prop :=
  km_inv (fs_mem s) runs (fs_blocks s ++ blocks).

Lemma alloc_vnode_wp runs blocks s (Q : Z → fs H → Prop) :
  fs_mem_inv runs blocks s → Q 0 s →
  (∀ p h, p ≠ 0 → fs_nodes s !! p = None →
     let s' := Fs h (<[p := zero_vnode]> (fs_nodes s)) (fs_files s) (fs_mounts s) in
     fs_mem_inv runs blocks s' → Q p s') →
  wp alloc_vnode Q s.
Proof.
  intros I Hz HQ. unfold alloc_vnode. wp_steps. apply wp_on_fs_mem.
  eapply km_kmalloc_law; [exact I|done|destruct s; by wp_steps|].
  intros p h Hp I' _. destruct (Z.eqb_spec p 0); [done|]. wp_steps.
  assert (Hf : fs_nodes s !! p = None).
  { destruct (fs_nodes s !! p) as [n0|] eqn:E; [|done]. exfalso.
    assert (I2 : km_inv h runs ((p, SIZEOF_VNODE) :: (p, SIZEOF_VNODE) ::
      map (λ p, (p, SIZEOF_VNODE)) (elements (dom (delete p (fs_nodes s)))) ++
      map (λ p, (p, SIZEOF_RAMFS_FILE)) (elements (dom (fs_files s))) ++ data_blocks (fs_files s) ++ blocks)).
    { eapply km_perm_blocks; [exact I'|]. unfold fs_blocks.
      by rewrite (elements_dom_delete _ _ _ E), <- !app_assoc. }
    apply km_disjoint in I2. unfold SIZEOF_VNODE in I2. lia. }
  apply HQ; [done|done|]. unfold fs_mem_inv, fs_blocks. simpl.
  eapply km_perm_blocks; [exact I'|]. by rewrite elements_dom_insert.
Qed.

Lemma free_vnode_wp runs blocks s p n (Q : unit → fs H → Prop) :
  fs_mem_inv runs blocks s → fs_nodes s !! p = Some n →
  (∀ h, let s' := Fs h (delete p (fs_nodes s)) (fs_files s) (fs_mounts s) in
        fs_mem_inv runs blocks s' → Q tt s') →
  wp (free_vnode p) Q s.
Proof.
  intros I Hn HQ. unfold free_vnode. wp_steps. apply wp_on_fs_mem.
  eapply (km_kfree_law _ runs p SIZEOF_VNODE (fs_blocks (set_nodes (delete p (fs_nodes s)) s) ++ blocks)).
  { eapply km_perm_blocks; [exact I|]. unfold fs_blocks.
    by rewrite (elements_dom_delete _ _ _ Hn), <- !app_assoc. }
  intros h I' _. wp_steps. by apply HQ.
Qed.

(** ** Lemmas: walks along the children *)
Lemma lookup_loop_wp l fuel c name s (Q : Z → fs H → Prop) :
  chain (fs_nodes s) c l → (length l < fuel)%nat →
  (∀ p, p ∈ l → name_of (fs_nodes s) p = name → Q p s) →
  ((∀ p, p ∈ l → name_of (fs_nodes s) p ≠ name) → Q 0 s) →
  wp (lookup_loop fuel c name) Q s.
Proof.
  revert l c. induction fuel as [|fuel IH]; intros l c Hc Hl Hf Hn; [lia|]. cbn [lookup_loop].
  destruct l as [|q l]; simpl in Hc.
  - subst. simpl. wp_steps. apply Hn. by intros p ?%elem_of_nil.
  - destruct Hc as (-> & Hq & n & Hm & Hc). destruct (Z.eqb_spec q 0); [done|]. wp_steps.
    eapply wp_vnode; [done|]. destruct (decide (v_name n = name)) as [E|E]; wp_steps.
    + apply Hf; [by left|]. unfold name_of. by rewrite Hm.
    + apply (IH l); [done|simpl in Hl; lia| |].
      * intros p Hp. apply Hf. by right.
      * intros Hno. apply Hn. intros p [->|Hp]%elem_of_cons; [|by apply Hno].
        unfold name_of. by rewrite Hm.
Qed.

Lemma ramfs_lookup_wp ch d nd name s (Q : Z → fs H → Prop) :
  tree (fs_nodes s) ch → fs_nodes s !! d = Some nd →
  (∀ p, p ∈ ch d → name_of (fs_nodes s) p = name → Q p s) →
  ((∀ p, p ∈ ch d → name_of (fs_nodes s) p ≠ name) → Q 0 s) →
  wp (ramfs_lookup d name) Q s.
Proof.
  intros T Hd Hf Hn. unfold ramfs_lookup, node_fuel. wp_steps. eapply wp_vnode; [done|]. wp_steps.
  pose proof (t_chain _ _ T d nd Hd) as C. eapply lookup_loop_wp; [exact C| |done|done].
  pose proof (chain_length _ _ _ C). lia.
Qed.

(** ** Lemmas: creating *)
Lemma push_child_wp d n nd nn (Q : unit → fs H → Prop) s :
  fs_nodes s !! d = Some nd → fs_nodes s !! n = Some nn → d ≠ n →
  Q tt (set_nodes (<[d := set_first_child n nd]>
          (<[n := set_next_sibling (v_first_child nd) nn]> (fs_nodes s))) s) →
  wp (push_child d n) Q s.
Proof.
  intros Hd Hn Hdn HQ. unfold push_child. wp_steps. eapply wp_vnode; [done|]. wp_steps.
  eapply wp_vnode_upd; [done|]. eapply wp_vnode_upd; [|exact HQ]. simpl. by rewrite lookup_insert_ne.
Qed.

Lemma anc_childless m ch d c : tree m ch → ch c = [] → anc m d c → d = c.
Proof.
  intros T Hc. induction 1 as [p|p q a (n & Hn & Hp & Hq) _ IH]; [done|].
  exfalso. pose proof (tree_parent_in T p n Hn) as Hin. rewrite Hp in Hin. specialize (Hin Hq).
  rewrite (IH Hc), Hc in Hin. by apply elem_of_nil in Hin.
Qed.

(** The node [ramfs_create] makes. *)
Definition new_node (name : str) (type : VNodeType) (dir priv next : Z) : VNode :=
  MkVNode name type 0 ramfs_ops 0 priv 0 false dir 0 next.

Lemma clip_name_id name : (length name < VFS_NAME_MAX)%nat → clip_name name = name.
Proof. intros Hl. unfold clip_name. destruct (Nat.leb_spec VFS_NAME_MAX (length name)); [lia|done]. Qed.

(** The tree after a new node is pushed in front of a directory. *)
Lemma tree_create m ch d nd p name type priv :
  tree m ch → m !! d = Some nd → v_type nd = VNODE_DIR → m !! p = None → p ≠ 0 →
  (length name < VFS_NAME_MAX)%nat → (∀ q, q ∈ ch d → name_of m q ≠ name) →
  tree (<[d := set_first_child p nd]> (<[p := new_node name type d priv (v_first_child nd)]> m))
       (upd_ch d (p :: ch d) ch).
Proof.
  intros T Hd Hdir Hp Hp0 Hlen Hno. assert (Hdp : d ≠ p) by congruence.
  set (m0 := <[p := new_node name type 0 priv 0]> m).
  assert (T0 : tree m0 ch) by by apply tree_fresh.
  assert (Hd0 : m0 !! d = Some nd) by (unfold m0; by rewrite lookup_insert_ne).
  rewrite <- (insert_insert_eq m p (new_node name type d priv (v_first_child nd)) (new_node name type 0 priv 0)).
  fold m0. eapply (tree_push T0 d p nd (new_node name type 0 priv 0)); try done.
  - apply lookup_insert_eq.
  - intros Ha. apply (anc_childless m0 ch) in Ha; [done|done|]. by apply T.
  - intros (q & E & Hq)%list_elem_of_fmap_1. simpl in E.
    assert (q ≠ p). { intros ->. destruct (tree_child T p d) as (? & ? & ? & _); [done|congruence]. }
    apply (Hno q Hq). rewrite E. unfold name_of, m0. by rewrite lookup_insert_ne.
Qed.

Lemma files_ok_fresh s h p n files :
  files_ok s → fs_nodes s !! p = None → v_ops n = ramfs_ops →
  (v_type n = VNODE_FILE → v_private n ≠ 0 ∧ fs_files s !! v_private n = None ∧
     files = <[v_private n := MkRamfsFile 0 0 []]> (fs_files s)) →
  (v_type n ≠ VNODE_FILE → v_private n = 0 ∧ files = fs_files s) → v_size n = 0 →
  files_ok (Fs h (<[p := n]> (fs_nodes s)) files (fs_mounts s)).
Proof.
  intros [F O I] Hp Ho Hf Hd Hs.
  assert (Sub : ∀ q r, fs_files s !! q = Some r → files !! q = Some r).
  { intros q r Hq. destruct (decide (v_type n = VNODE_FILE)) as [E|E].
    - destruct (Hf E) as (_ & Hn & ->). rewrite lookup_insert_ne; [done|]. congruence.
    - by destruct (Hd E) as (_ & ->). }
  constructor; simpl.
  - intros q nq [[<- <-]|[? Hq]]%lookup_insert_Some Hqo Hqt.
    + destruct (Hf Hqt) as (? & ? & ->). split; [done|]. exists (MkRamfsFile 0 0 []).
      split; [apply lookup_insert_eq|]. rewrite Hs. constructor; simpl; try done; lia.
    + destruct (F q nq Hq Hqo Hqt) as (? & r & ? & ?). eauto.
  - intros q nq [[<- <-]|[? Hq]]%lookup_insert_Some Hqo Hqt; [by apply Hd|by eapply O].
  - intros q nq q' nq' Hq Hq' Ho1 Ho2 Ht1 Ht2 E.
    apply lookup_insert_Some in Hq as [[<- <-]|[? Hq]], Hq' as [[<- <-]|[? Hq']]; [done| | |by eapply I].
    + exfalso. destruct (Hf Ht1) as (_ & Hn & _). destruct (F q' nq' Hq' Ho2 Ht2) as (_ & r & Hr & _). congruence.
    + exfalso. destruct (Hf Ht2) as (_ & Hn & _). destruct (F q nq Hq Ho1 Ht1) as (_ & r & Hr & _). congruence.
Qed.

(** Changing nodes but not their type, table, private data or size. *)
Lemma files_ok_sub s h nodes mounts :
  files_ok s →
  (∀ q n', nodes !! q = Some n' → ∃ n, fs_nodes s !! q = Some n ∧
     v_type n' = v_type n ∧ v_ops n' = v_ops n ∧ v_private n' = v_private n ∧ v_size n' = v_size n) →
  files_ok (Fs h nodes (fs_files s) mounts).
Proof.
  intros [F O I] L. constructor; simpl.
  - intros q nq (n0 & Hq & -> & -> & -> & ->)%L. by eapply F.
  - intros q nq (n0 & Hq & -> & -> & -> & _)%L. by eapply O.
  - intros q nq q' nq' (n0 & Hq & -> & -> & -> & _)%L (n0' & Hq' & -> & -> & -> & _)%L. by eapply I.
Qed.

Lemma insert_same_fields (P : VNode → VNode → Prop) (m : gmap Z VNode) p n n' :
  (∀ x, P x x) → m !! p = Some n → P n' n →
  ∀ q nq, <[p := n']> m !! q = Some nq → ∃ n0, m !! q = Some n0 ∧ P nq n0.
Proof. intros HP Hp Hn q nq [[<- <-]|[? Hq]]%lookup_insert_Some; eauto. Qed.

Lemma ops_ok_create m ch d nd p nn :
  tree m ch → ops_ok m → m !! d = Some nd → m !! p = None → p ≠ 0 → d ≠ p → v_ops nn = ramfs_ops →
  ops_ok (<[d := set_first_child p nd]> (<[p := nn]> m)).
Proof.
  intros T O Hd Hp Hp0 Hdp Hnn c n nd' Hc Hpar Hops.
  destruct (decide (c = p)) as [->|Hcp].
  { rewrite lookup_insert_ne, lookup_insert_eq in Hc by done. by simplify_eq. }
  assert (∃ n0, m !! c = Some n0 ∧ v_parent n = v_parent n0 ∧ v_ops n = v_ops n0) as (n0 & Hn0 & E1 & ->).
  { apply lookup_insert_Some in Hc as [[<- <-]|[? Hc]]; [by exists nd|].
    rewrite lookup_insert_ne in Hc by done. by exists n. }
  rewrite E1 in Hpar. apply lookup_insert_Some in Hpar as [[E <-]|[? Hpar]].
  - apply (O c n0 nd Hn0); [by rewrite <- E|done].
  - apply lookup_insert_Some in Hpar as [[E <-]|[? Hpar]]; [|by eapply O].
    exfalso. pose proof (tree_parent_in T c n0 Hn0 ltac:(congruence)) as Hin.
    rewrite <- E, (t_out _ _ T p Hp) in Hin. by apply elem_of_nil in Hin.
Qed.

Lemma alloc_rfile_wp runs blocks s (Q : Z → fs H → Prop) :
  fs_mem_inv runs blocks s → Q 0 s →
  (∀ p h, p ≠ 0 → fs_files s !! p = None →
     fs_mem_inv runs blocks (Fs h (fs_nodes s) (<[p := MkRamfsFile 0 0 []]> (fs_files s)) (fs_mounts s)) →
     Q p (Fs h (fs_nodes s) (fs_files s) (fs_mounts s))) →
  wp (on_fs_mem (km_kmalloc SIZEOF_RAMFS_FILE)) Q s.
Proof.
  intros I Hz HQ. apply wp_on_fs_mem.
  eapply km_kmalloc_law; [exact I|done|by destruct s|]. intros p h Hp I' _.
  assert (Hf : fs_files s !! p = None).
  { destruct (fs_files s !! p) as [r0|] eqn:E; [|done]. exfalso.
    assert (I2 : km_inv h runs ((p, SIZEOF_RAMFS_FILE) :: (p, SIZEOF_RAMFS_FILE) ::
      map (λ p, (p, SIZEOF_VNODE)) (elements (dom (fs_nodes s))) ++
      map (λ p, (p, SIZEOF_RAMFS_FILE)) (elements (dom (delete p (fs_files s)))) ++
      data_blocks (fs_files s) ++ blocks)).
    { eapply km_perm_blocks; [exact I'|]. unfold fs_blocks.
      rewrite (elements_dom_delete _ _ _ E), <- !app_assoc. apply perm_skip. symmetry. apply Permutation_middle. }
    apply km_disjoint in I2. unfold SIZEOF_RAMFS_FILE in I2. lia. }
  apply HQ; [done|done|]. unfold fs_mem_inv, fs_blocks. simpl.
  eapply km_perm_blocks; [exact I'|]. rewrite elements_dom_insert, data_blocks_insert by done.
  cbn [map app data_block rf_data Z.eqb]. rewrite <- !app_assoc. cbn [app]. rewrite <- !app_assoc.
  unfold fs_blocks. rewrite <- !app_assoc. apply Permutation_middle.
Qed.

(** What a directory entry's creation does, [p] being the new node. *)
Definition created (ch : Z → list Z) (d : Z) (name : str) (type : VNodeType) (s : fs H) (p : Z) (s' : fs H) : Prop :=
  p ≠ 0 ∧ fs_nodes s !! p = None ∧ (∀ q, q ∈ ch d → name_of (fs_nodes s) q ≠ name) ∧
  ∃ nd priv, fs_nodes s !! d = Some nd ∧
    fs_nodes s' = <[d := set_first_child p nd]>
                    (<[p := new_node name type d priv (v_first_child nd)]> (fs_nodes s)) ∧
    (∀ q r, fs_files s !! q = Some r → fs_files s' !! q = Some r) ∧
    fs_mounts s' = fs_mounts s.

(** Same nodes, files and mounts; the heap may differ. *)
Definition same_fs (s s' : fs H) : Prop :=
  fs_nodes s' = fs_nodes s ∧ fs_files s' = fs_files s ∧ fs_mounts s' = fs_mounts s.

Lemma fs_inv_same runs blocks ch s s' :
  fs_inv runs blocks ch s → same_fs s s' → fs_mem_inv runs blocks s' → fs_inv runs blocks ch s'.
Proof.
  intros [T _ [F O J] P] (E1 & E2 & E3) I. constructor; [by rewrite E1|done| |by rewrite E1].
  constructor; rewrite ?E1, ?E2; done.
Qed.

Ltac node_steps :=
  repeat (eapply wp_vnode_upd; [simpl; apply lookup_insert_eq|]; simpl; rewrite ?insert_insert_eq; wp_steps).

Lemma ramfs_create_wp runs blocks ch d nd name type s :
  fs_inv runs blocks ch s → fs_nodes s !! d = Some nd → v_type nd = VNODE_DIR →
  (length name < VFS_NAME_MAX)%nat →
  wp (ramfs_create d name type) (λ p s',
    (p = 0 ∧ same_fs s s' ∧ fs_inv runs blocks ch s') ∨
    (created ch d name type s p s' ∧ fs_inv runs blocks (upd_ch d (p :: ch d) ch) s')) s.
Proof.
  intros I Hd Hdir Hlen. pose proof I as [T Im If Io]. unfold ramfs_create. wp_steps.
  eapply ramfs_lookup_wp; [done|done| |].
  { intros p Hp _. destruct (Z.eqb_spec p 0) as [->|]; [|simpl; wp_steps; by left].
    by destruct (tree_child T 0 d Hp) as (? & ? & _ & _ & _ & ? & _). }
  intros Hno. simpl. wp_steps. apply (alloc_vnode_wp runs blocks); [done|simpl; wp_steps; by left|].
  intros p h Hp0 Hpn s1 I1. destruct (Z.eqb_spec p 0); [done|]. wp_steps.
  assert (Hdp : d ≠ p) by congruence.
  eapply wp_vnode_upd; [apply lookup_insert_eq|]. simpl. rewrite insert_insert_eq. wp_steps. node_steps.
  rewrite (clip_name_id name Hlen).
  assert (Hmem : ∀ nn, fs_mem_inv runs blocks (Fs h (<[p := nn]> (fs_nodes s)) (fs_files s) (fs_mounts s))).
  { intros nn. unfold fs_mem_inv, fs_blocks in *. simpl in *.
    by rewrite dom_insert_L in *. }
  assert (Done : ∀ h' priv files,
    fs_mem_inv runs blocks (Fs h' (<[p := new_node name type d priv 0]> (fs_nodes s)) files (fs_mounts s)) →
    (type = VNODE_FILE → priv ≠ 0 ∧ fs_files s !! priv = None ∧ files = <[priv := MkRamfsFile 0 0 []]> (fs_files s)) →
    (type ≠ VNODE_FILE → priv = 0 ∧ files = fs_files s) →
    wp (push_child d p) (λ _ s', created ch d name type s p s' ∧
       fs_inv runs blocks (upd_ch d (p :: ch d) ch) s')
      (Fs h' (<[p := new_node name type d priv 0]> (fs_nodes s)) files (fs_mounts s))).
  { intros h' priv files Im' H1 H2.
    eapply push_child_wp; [simpl; by rewrite lookup_insert_ne|apply lookup_insert_eq|done|].
    simpl. rewrite insert_insert_eq. split.
    - split_and!; [done|done|done|]. exists nd, priv. split_and!; [done|done| |done]. simpl.
      destruct (decide (type = VNODE_FILE)) as [E|E]; [|destruct (H2 E) as [_ ->]; by intros].
      destruct (H1 E) as (_ & Hn & ->). intros q r Hq. rewrite lookup_insert_ne; [done|congruence].
    - constructor; simpl.
      + by apply tree_create.
      + unfold fs_mem_inv, fs_blocks in *. simpl in *.
        rewrite dom_insert_lookup_L by (rewrite lookup_insert_ne by done; eauto).
        by rewrite dom_insert_L in *.
      + pose proof (files_ok_fresh s h' p (new_node name type d priv (v_first_child nd)) files If Hpn eq_refl H1 H2 eq_refl) as F.
        apply (files_ok_sub _ h' _ (fs_mounts s)) with (1 := F). simpl.
        apply (insert_same_fields (λ n' n, v_type n' = v_type n ∧ v_ops n' = v_ops n ∧
          v_private n' = v_private n ∧ v_size n' = v_size n) _ d nd); [done| |done].
        by rewrite lookup_insert_ne.
      + by eapply ops_ok_create. }
  destruct (decide (type = VNODE_FILE)) as [E|E]; wp_steps.
  - apply (alloc_rfile_wp runs blocks); [apply Hmem| |].
    + rewrite Z.eqb_refl. wp_steps. eapply free_vnode_wp; [apply Hmem|apply lookup_insert_eq|].
      intros h' s' I'. wp_steps. left. subst s'. simpl in *. rewrite delete_insert_id in * by done.
      split_and!; [done|done|]. by eapply fs_inv_same.
    + intros rf h' Hrf Hfn I'. simpl in *. destruct (Z.eqb_spec rf 0); [done|]. unfold rfile_set. wp_steps.
      simpl. node_steps. eapply wp_mono; [apply (Done h' rf (<[rf := MkRamfsFile 0 0 []]> (fs_files s)))|].
      * unfold fs_mem_inv, fs_blocks in *. simpl in *. by rewrite dom_insert_L in *.
      * done.
      * done.
      * intros [] s' ?. wp_steps. by right.
  - simpl. eapply wp_mono; [apply (Done h 0 (fs_files s)); [apply Hmem|done|done]|]. intros [] s' ?. wp_steps. by right.
Qed.

(** ** Lemmas: removing and renaming *)
Lemma unlink_loop_wp l fuel prev c name s (Q : Z * Z → fs H → Prop) :
  chain (fs_nodes s) c l → (length l < fuel)%nat →
  (∀ l1 q l2, l = l1 ++ q :: l2 → name_of (fs_nodes s) q = name →
     Q (default prev (list.last l1), q) s) →
  (∀ prev', (∀ q, q ∈ l → name_of (fs_nodes s) q ≠ name) → Q (prev', 0) s) →
  wp (unlink_loop fuel prev c name) Q s.
Proof.
  revert l prev c. induction fuel as [|fuel IH]; intros l prev c Hc Hl Hf Hn; [lia|]. cbn [unlink_loop].
  destruct l as [|q l]; simpl in Hc.
  - subst. simpl. wp_steps. apply Hn. by intros p ?%elem_of_nil.
  - destruct Hc as (-> & Hq & n & Hm & Hc). destruct (Z.eqb_spec q 0); [done|]. wp_steps.
    eapply wp_vnode; [done|]. destruct (decide (v_name n = name)) as [E|E]; wp_steps.
    + apply (Hf [] q l); [done|]. unfold name_of. by rewrite Hm.
    + apply (IH l); [done|simpl in Hl; lia| |].
      * intros l1 x l2 -> Hx. specialize (Hf (q :: l1) x l2 eq_refl Hx).
        destruct l1 using rev_ind; [done|]. rewrite last_snoc. by rewrite app_comm_cons, last_snoc in Hf.
      * intros prev' Hno. apply Hn. intros p [->|Hp]%elem_of_cons; [|by apply Hno].
        unfold name_of. by rewrite Hm.
Qed.

(** Freeing a detached, childless node. *)
Lemma ramfs_release_wp runs blocks ch c n s (Q : unit → fs H → Prop) :
  fs_inv runs blocks ch s → fs_nodes s !! c = Some n → v_ops n = ramfs_ops →
  v_parent n = 0 → ch c = [] →
  (∀ s', fs_inv runs blocks ch s' → fs_nodes s' = delete c (fs_nodes s) → fs_mounts s' = fs_mounts s →
     (∀ q r, q ≠ v_private n → fs_files s !! q = Some r → fs_files s' !! q = Some r) → Q tt s') →
  wp (ramfs_release c) Q s.
Proof.
  intros [T Im If Io] Hn Ho Hp Hch HQ. unfold ramfs_release. wp_steps. eapply wp_vnode; [done|].
  assert (Hops : ops_ok (delete c (fs_nodes s))).
  { intros x nx nd [_ Hx]%lookup_delete_Some [_ Hd]%lookup_delete_Some. by eapply Io. }
  assert (Hdel : ∀ q n', delete c (fs_nodes s) !! q = Some n' → ∃ n, fs_nodes s !! q = Some n ∧
     v_type n' = v_type n ∧ v_ops n' = v_ops n ∧ v_private n' = v_private n ∧ v_size n' = v_size n).
  { intros q n' [_ Hq]%lookup_delete_Some. by exists n'. }
  destruct (decide (v_type n = VNODE_FILE ∧ v_private n ≠ 0)) as [[Ht Hpv]|Hno]; wp_steps.
  2:{ eapply free_vnode_wp; [exact Im|done|]. intros h s1 I1. apply HQ; [|done|done|done].
      constructor; [by eapply tree_delete|done|by apply (files_ok_sub s)|done]. }
  destruct (fo_file s If c n Hn Ho Ht) as (_ & r & Hr & Hrf).
  unfold rfile. wp_steps. eapply wp_lift; [exact Hr|]. wp_steps.
  set (files' := delete (v_private n) (fs_files s)).
  set (rest := map (λ p, (p, SIZEOF_VNODE)) (elements (dom (fs_nodes s))) ++
               map (λ p, (p, SIZEOF_RAMFS_FILE)) (elements (dom files')) ++ data_blocks files' ++ blocks).
  assert (I0 : km_inv (fs_mem s) runs (data_block r ++ (v_private n, SIZEOF_RAMFS_FILE) :: rest)).
  { eapply km_perm_blocks; [exact Im|]. unfold fs_blocks, rest.
    rewrite (elements_dom_delete _ _ _ Hr), (data_blocks_delete _ _ _ Hr). fold files'.
    cbn [map]. solve_perm. }
  assert (Hfin : ∀ h, km_inv h runs rest →
    wp (free_vnode c) Q (Fs h (fs_nodes s) files' (fs_mounts s))).
  { intros h I1. eapply free_vnode_wp; [|done|].
    - unfold fs_mem_inv, fs_blocks. simpl. by rewrite <- !app_assoc.
    - intros h' s1 I2. apply HQ; [|done|done|].
      + constructor; [by eapply tree_delete|done| |done]. destruct If as [F O J].
        assert (Hne : ∀ q nq, delete c (fs_nodes s) !! q = Some nq → v_ops nq = ramfs_ops →
                  v_type nq = VNODE_FILE → v_private nq ≠ v_private n).
        { intros q nq [Hqc Hq]%lookup_delete_Some Hqo Hqt E. by apply Hqc, (J c n q nq). }
        constructor; simpl.
        * intros q nq Hq Hqo Hqt. pose proof (Hne q nq Hq Hqo Hqt). apply lookup_delete_Some in Hq as [_ Hq].
          destruct (F q nq Hq Hqo Hqt) as (? & r' & ? & ?). split; [done|]. exists r'.
          unfold files'. by rewrite lookup_delete_ne.
        * intros q nq [_ Hq]%lookup_delete_Some. by eapply O.
        * intros q nq q' nq' [_ Hq]%lookup_delete_Some [_ Hq']%lookup_delete_Some. by eapply J.
      + intros q r' Hne Hq. simpl. unfold files'. by rewrite lookup_delete_ne. }
  assert (Hrest : ∀ h, km_inv h runs ((v_private n, SIZEOF_RAMFS_FILE) :: rest) →
    wp (on_fs_mem (km_kfree (v_private n)))
       (λ _, wp (modify (λ s0, set_files (delete (v_private n) (fs_files s0)) s0)) (λ _, wp (free_vnode c) Q))
       (Fs h (fs_nodes s) (fs_files s) (fs_mounts s))).
  { intros h I1. apply wp_on_fs_mem. eapply km_kfree_law; [exact I1|]. intros h' I2 _. wp_steps. by apply Hfin. }
  unfold data_block in I0. destruct (Z.eqb_spec (rf_data r) 0); wp_steps.
  - specialize (Hrest (fs_mem s) I0). destruct s; exact Hrest.
  - apply wp_on_fs_mem. eapply km_kfree_law; [exact I0|]. intros h I1 _. wp_steps. by apply Hrest.
Qed.

(** The fields of a node that links do not touch. *)
Definition same_data (n' n : VNode) : Prop :=
  v_type n' = v_type n ∧ v_ops n' = v_ops n ∧ v_private n' = v_private n ∧ v_size n' = v_size n.

(** The fields of a node that say who refers to it. *)
Definition same_refs (n n' : VNode) : Prop :=
  v_ops n' = v_ops n ∧ v_file_ops n' = v_file_ops n ∧ v_open_count n' = v_open_count n ∧
  v_unlinked n' = v_unlinked n ∧ v_parent n' = v_parent n ∧ v_type n' = v_type n.
(** All nodes but those of [P] are there as before, with the same references. *)
Definition refs_kept (P : Z → Prop) (m m' : gmap Z VNode) : Prop :=
  ∀ q, ¬ P q → option_Forall2 same_refs (m !! q) (m' !! q).

#[export] Instance same_refs_refl : Reflexive same_refs.
Proof. intros n. by split_and!. Qed.
Lemma refs_kept_refl P m : refs_kept P m m.
Proof. intros q _. destruct (m !! q); by constructor. Qed.
Lemma refs_kept_insert P m m' q n n' :
  refs_kept P m m' → m' !! q = Some n → (¬ P q → same_refs n n') → refs_kept P m (<[q := n']> m').
Proof.
  intros K Hq Hn x Hx. destruct (decide (x = q)) as [->|]; [|rewrite lookup_insert_ne by done; by apply K].
  rewrite lookup_insert_eq. specialize (K q Hx). rewrite Hq in K. inversion K as [a b Hab Ea|]; subst. constructor.
  unfold same_refs in *. specialize (Hn Hx). intuition congruence.
Qed.
Lemma refs_kept_delete P m m' q : refs_kept P m m' → P q → refs_kept P m (delete q m').
Proof. intros K Hq x Hx. rewrite lookup_delete_ne; [by apply K|]. intros ->. by apply Hx. Qed.

Lemma fs_mem_inv_nodes runs blocks s m :
  fs_mem_inv runs blocks s → dom m = dom (fs_nodes s) → fs_mem_inv runs blocks (set_nodes m s).
Proof. unfold fs_mem_inv, fs_blocks. simpl. by intros ? ->. Qed.

Lemma ops_ok_sub m m' :
  ops_ok m → m' !! 0 = None →
  (∀ c n', m' !! c = Some n' → ∃ n, m !! c = Some n ∧ v_ops n' = v_ops n ∧
     (v_ops n' = ramfs_ops ∨ v_parent n' = 0 ∨ v_parent n' = v_parent n)) →
  ops_ok m'.
Proof.
  intros O H0' L c n' nd' Hc Hd Hops. destruct (L c n' Hc) as (n & Hn & E & [?|[E0|Ep]]); [done| |].
  - rewrite E0, H0' in Hd. done.
  - rewrite Ep in Hd. destruct (L _ nd' Hd) as (nd & Hnd & E' & _). rewrite E. eapply O; [done|done|congruence].
Qed.

(** Taking a child out of its directory, whatever else is done to its links. *)
Lemma detach_inv runs blocks ch s d c l1 l2 nc nc' p np :
  fs_inv runs blocks ch s → fs_nodes s !! c = Some nc → ch d = l1 ++ c :: l2 →
  v_parent nc' = 0 → v_first_child nc' = v_first_child nc → same_data nc' nc →
  (length (v_name nc') < VFS_NAME_MAX)%nat →
  fs_nodes s !! p = Some np → (l1 = [] → p = d) → (l1 ≠ [] → list.last l1 = Some p) →
  let m' := <[c := nc']> (<[p := (if decide (l1 = []) then set_first_child else set_next_sibling)
                                     (v_next_sibling nc) np]> (fs_nodes s)) in
  fs_inv runs blocks (upd_ch d (l1 ++ l2) ch) (set_nodes m' s) ∧
  (∀ q n', m' !! q = Some n' → ∃ n, fs_nodes s !! q = Some n ∧ same_data n' n ∧
     (v_parent n' = 0 ∨ v_parent n' = v_parent n)).
Proof.
  intros [T Im If Io] Hc Hd P1 P2 P3 P4 Hp Hfirst Hlast m'.
  assert (Ty : v_type nc' = v_type nc) by apply P3.
  pose proof (tree_detach T m' d c l1 l2 nc Hc Hd
    (detached_link T d c l1 l2 nc nc' Hc Hd P1 Ty P2 P4 p np Hp Hfirst Hlast)) as T'.
  assert (L : ∀ q n', m' !! q = Some n' → ∃ n, fs_nodes s !! q = Some n ∧ same_data n' n ∧
     (v_parent n' = 0 ∨ v_parent n' = v_parent n)).
  { intros q n' [[<- <-]|[_ Hq]]%lookup_insert_Some; [exists nc; split_and!; by auto|].
    apply lookup_insert_Some in Hq as [[<- <-]|[_ Hq]]; [|exists n'; unfold same_data; split_and!; by auto].
    exists np. destruct (decide (l1 = [])); unfold same_data; simpl; split_and!; auto. }
  split; [|done]. constructor; simpl.
  - exact T'.
  - apply fs_mem_inv_nodes; [done|]. unfold m'.
    rewrite dom_insert_lookup_L, dom_insert_lookup_L; [done|done|].
    destruct (decide (c = p)) as [->|]; [rewrite lookup_insert_eq|rewrite lookup_insert_ne by done]; eauto.
  - apply files_ok_sub; [done|]. intros q n' (n & ? & ? & _)%L. eauto.
  - eapply ops_ok_sub; [done|apply T'|]. intros q n' (n & ? & (_ & ? & _) & ?)%L. exists n. auto.
Qed.

Lemma fs_inv_same_node runs blocks ch s p n n' :
  fs_inv runs blocks ch s → fs_nodes s !! p = Some n → same_links n n' → same_data n' n →
  fs_inv runs blocks ch (set_nodes (<[p := n']> (fs_nodes s)) s).
Proof.
  intros [T Im If Io] Hp Hl Hd. constructor; simpl.
  - by eapply tree_same.
  - apply fs_mem_inv_nodes; [done|]. by apply dom_insert_lookup_L.
  - apply files_ok_sub; [done|]. by apply (insert_same_fields same_data _ p n).
  - eapply ops_ok_sub; [done|by apply (tree_same T p n n')|].
    intros q nq [[<- <-]|[_ Hq]]%lookup_insert_Some.
    + exists n. split_and!; [done|apply Hd|]. right. right. apply Hl.
    + exists nq. auto.
Qed.

(** What [unlink] does to directory [d]. *)
Definition unlinked_from (runs blocks : list (Z * Z)) (ch : Z → list Z) (d : Z) (name : str) (s s' : fs H) : Prop :=
  ∃ c l1 l2 nc, ch d = l1 ++ c :: l2 ∧ fs_nodes s !! c = Some nc ∧ v_name nc = name ∧ ch c = [] ∧
    fs_inv runs blocks (upd_ch d (l1 ++ l2) ch) s' ∧ fs_mounts s' = fs_mounts s ∧
    (v_open_count nc = 0 → fs_nodes s' !! c = None) ∧
    (v_open_count nc ≠ 0 → fs_files s' = fs_files s ∧
       fs_nodes s' !! c = Some (set_unlinked true (set_next_sibling 0 (set_parent 0 nc)))) ∧
    refs_kept (λ q, q = c) (fs_nodes s) (fs_nodes s').

Lemma ramfs_unlink_wp runs blocks ch d nd name s :
  fs_inv runs blocks ch s → fs_nodes s !! d = Some nd → v_ops nd = ramfs_ops →
  wp (ramfs_unlink d name) (λ e s',
    (e = -1 ∧ s' = s ∧ ((∀ q, q ∈ ch d → name_of (fs_nodes s) q ≠ name) ∨
                        ∃ c, c ∈ ch d ∧ name_of (fs_nodes s) c = name ∧ ch c ≠ [])) ∨
    (e = 0 ∧ unlinked_from runs blocks ch d name s s')) s.
Proof.
  intros I Hd Hdo. pose proof I as [T Im If Io]. unfold ramfs_unlink, node_fuel. wp_steps.
  eapply wp_vnode; [done|]. wp_steps. pose proof (t_chain _ _ T d nd Hd) as C.
  eapply unlink_loop_wp; [exact C|pose proof (chain_length _ _ _ C); lia| |].
  2:{ intros prev Hno. simpl. wp_steps. left. auto. }
  intros l1 c l2 El Hname.
  assert (Hcd : c ∈ ch d) by (rewrite El; set_solver).
  destruct (tree_child T c d Hcd) as (nc & nd' & Hc & _ & Hpar & Hc0 & Hd0).
  destruct (Z.eqb_spec c 0); [done|]. wp_steps. eapply wp_vnode; [done|].
  pose proof (t_chain _ _ T c nc Hc) as Cc.
  destruct (decide (v_type nc = VNODE_DIR ∧ v_first_child nc ≠ 0)) as [[Ht Hf]|Hf].
  { wp_steps. left. split_and!; [done|done|]. right. exists c. split_and!; [done|done|].
    intros E. rewrite E in Cc. done. }
  assert (Hch : ch c = []).
  { destruct (decide (v_type nc = VNODE_DIR)) as [Ht|Ht]; [|by apply (t_dirs _ _ T c nc)].
    destruct (decide (v_first_child nc = 0)) as [E|E]; [|by destruct Hf].
    destruct (ch c) as [|x l]; [done|]. simpl in Cc. destruct Cc as (? & ? & _). done. }
  set (p := default d (list.last l1)).
  assert (Hfp : l1 = [] → p = d) by by intros ->.
  assert (Hlp : l1 ≠ [] → list.last l1 = Some p).
  { intros E. subst p. destruct (list.last l1) eqn:E'; [done|]. by apply last_None in E'. }
  clearbody p.
  assert (∃ np, fs_nodes s !! p = Some np) as [np Hp].
  { destruct (decide (l1 = [])) as [E|E]; [rewrite Hfp by done; eauto|].
    destruct (tree_child T p d) as (np & _ & ? & _); [|eauto]. rewrite El. apply elem_of_app. left.
    by apply last_Some_elem_of, Hlp. }
  assert (Hp0 : p ≠ 0) by (by eapply tree_nonzero).
  assert (Hpc : c ≠ p).
  { intros ->. pose proof (tree_NoDup T d) as ND. destruct (decide (l1 = [])) as [E|E].
    - rewrite (Hfp E) in Hcd. by apply (tree_not_own_child T d).
    - rewrite El in ND. apply NoDup_middle in ND as [ND _]. apply ND, elem_of_app. left.
      by apply last_Some_elem_of, Hlp. }
  set (m1 := <[p := (if decide (l1 = []) then set_first_child else set_next_sibling)
                    (v_next_sibling nc) np]> (fs_nodes s)).
  assert (Hlinks : wp (if negb (default 0 (list.last l1) =? 0)
        then vnode_upd (default 0 (list.last l1)) (set_next_sibling (v_next_sibling nc))
        else vnode_upd d (set_first_child (v_next_sibling nc))) (λ _ s', s' = set_nodes m1 s) s).
  { unfold m1 in *. destruct (decide (l1 = [])) as [E|E].
    - rewrite (Hfp E) in *. subst l1. simpl. by eapply wp_vnode_upd.
    - rewrite (Hlp E) in *. simpl. destruct (Z.eqb_spec p 0); [done|]. by eapply wp_vnode_upd. }
  wp_steps. eapply wp_mono; [exact Hlinks|]. intros [] t ->. wp_steps.
  eapply wp_vnode_upd; [simpl; unfold m1; by rewrite lookup_insert_ne|]. wp_steps.
  eapply wp_vnode_upd; [simpl; apply lookup_insert_eq|]. simpl. rewrite insert_insert_eq.
  set (nc' := set_next_sibling 0 (set_parent 0 nc)).
  destruct (detach_inv runs blocks ch s d c l1 l2 nc nc' p np I Hc El) as [I' _]; try done.
  { exact (t_name _ _ T c nc Hc). }
  fold m1 in I'. simpl in I'.
  assert (Hops : v_ops nc = ramfs_ops) by (eapply (Io c nc nd); [done|by rewrite Hpar|done]).
  assert (Hch' : upd_ch d (l1 ++ l2) ch c = []).
  { rewrite upd_ch_ne; [done|]. intros ->. by apply (tree_not_own_child T d). }
  assert (Common : ∀ s', fs_inv runs blocks (upd_ch d (l1 ++ l2) ch) s' → fs_mounts s' = fs_mounts s →
    (v_open_count nc = 0 → fs_nodes s' !! c = None) →
    (v_open_count nc ≠ 0 → fs_files s' = fs_files s ∧ fs_nodes s' !! c = Some (set_unlinked true nc')) →
    refs_kept (λ q, q = c) (fs_nodes s) (fs_nodes s') →
    unlinked_from runs blocks ch d name s s').
  { intros s' I2 M2 H1 H2 K. exists c, l1, l2, nc. split_and!; try done. by rewrite <- (name_of_eq (m := fs_nodes s) c nc). }
  assert (K1 : refs_kept (λ q, q = c) (fs_nodes s) (<[c := nc']> m1)).
  { eapply refs_kept_insert; [|unfold m1; by rewrite lookup_insert_ne|done].
    eapply refs_kept_insert; [apply refs_kept_refl|done|]. by destruct (decide (l1 = [])). }
  wp_steps. change (v_open_count (set_parent 0 nc)) with (v_open_count nc).
  destruct (Z.eqb_spec (v_open_count nc) 0) as [Ez|Ez]; simpl.
  - eapply (ramfs_release_wp runs blocks (upd_ch d (l1 ++ l2) ch) c nc'); [exact I'|apply lookup_insert_eq|done|done|done|].
    intros s' I2 E2 M2 _. wp_steps. right. split; [done|]. apply Common; [done|done| |done|].
    + intros _. rewrite E2. apply lookup_delete_eq.
    + rewrite E2. by apply refs_kept_delete.
  - eapply wp_vnode_upd; [apply lookup_insert_eq|]. wp_steps. right. split; [done|]. apply Common; [|done|done| |].
    + pose proof (fs_inv_same_node _ _ _ _ c nc' (set_unlinked true nc') I') as I3. apply I3; [|done|done].
      apply lookup_insert_eq.
    + intros _. split; [done|]. simpl. apply lookup_insert_eq.
    + eapply refs_kept_insert; [exact K1|apply lookup_insert_eq|done].
Qed.

Lemma find_link_wp l1 l2 fuel pp p node s (Q : link → fs H → Prop) :
  wp (read_link pp) (λ x s', x = p ∧ s' = s) s →
  chain (fs_nodes s) p (l1 ++ node :: l2) → node ∉ l1 → (length l1 <= fuel)%nat →
  Q (match list.last l1 with Some q => NextSibling q | None => pp end) s →
  wp (find_link fuel pp node) Q s.
Proof.
  revert fuel pp p. induction l1 as [|q l1 IH]; intros fuel pp p Hr Hc Hno Hl HQ; destruct fuel as [|fuel];
    cbn [find_link]; wp_steps; (eapply wp_mono; [exact Hr|]); intros x s' [-> ->]; simpl in Hc.
  - destruct Hc as (-> & _). rewrite Z.eqb_refl, orb_true_r. by wp_steps.
  - destruct Hc as (-> & _). rewrite Z.eqb_refl, orb_true_r. by wp_steps.
  - simpl in Hl. lia.
  - destruct Hc as (-> & Hq & n & Hn & Hc). apply not_elem_of_cons in Hno as [Hqn Hno].
    destruct (Z.eqb_spec q 0), (Z.eqb_spec q node); try congruence. simpl.
    eapply (IH fuel (NextSibling q) (v_next_sibling n)); [|done|done|simpl in Hl; lia|].
    + simpl. wp_steps. eapply wp_vnode; [done|]. by wp_steps.
    + destruct l1 as [|y l1]; [done|]. rewrite last_cons_cons in HQ.
      by destruct (list.last (y :: l1)) eqn:E; [|apply last_None in E].
Qed.

Lemma read_link_first d nd s :
  fs_nodes s !! d = Some nd → wp (read_link (FirstChild d)) (λ x s', x = v_first_child nd ∧ s' = s) s.
Proof. intros Hd. simpl. wp_steps. eapply wp_vnode; [done|]. by wp_steps. Qed.

Lemma anc_mono m m' x a :
  (∀ p q, parent_of m' q p → parent_of m q p) → anc m' x a → anc m x a.
Proof. intros Hm. induction 1; [constructor|]. eapply anc_up; eauto. Qed.

(** The children after [node] has moved from between [l1] and [l2] in [d] to the
    front of [new_dir]. *)
Definition moved (ch : Z → list Z) (d new_dir node : Z) (l1 l2 : list Z) : Z → list Z :=
  let ch' := upd_ch d (l1 ++ l2) ch in upd_ch new_dir (node :: ch' new_dir) ch'.

Lemma ramfs_rename_wp runs blocks ch s node n new_dir nd new_name :
  fs_inv runs blocks ch s → fs_nodes s !! node = Some n → v_parent n ≠ 0 →
  fs_nodes s !! new_dir = Some nd → v_type nd = VNODE_DIR → v_ops n = ramfs_ops →
  ¬ anc (fs_nodes s) new_dir node → (length new_name < VFS_NAME_MAX)%nat →
  (∀ q, q ∈ ch new_dir → name_of (fs_nodes s) q ≠ new_name) →
  wp (ramfs_rename node new_dir new_name) (λ e s', e = 0 ∧ fs_mounts s' = fs_mounts s ∧
    fs_files s' = fs_files s ∧
    ∃ l1 l2, ch (v_parent n) = l1 ++ node :: l2 ∧
      fs_inv runs blocks (moved ch (v_parent n) new_dir node l1 l2) s' ∧
      ∃ n', fs_nodes s' !! node = Some n' ∧ v_name n' = new_name ∧ v_parent n' = new_dir ∧
            same_data n' n ∧ ch node = moved ch (v_parent n) new_dir node l1 l2 node ∧
            refs_kept (λ q, q = node) (fs_nodes s) (fs_nodes s') ∧
            same_refs n (set_parent (v_parent n) n')) s.
Proof.
  intros I Hn Hp Hnd Hdir Hops Hanc Hlen Hno. pose proof I as [T Im If Io]. set (d := v_parent n) in *.
  pose proof (tree_parent_in T node n Hn Hp) as Hin. fold d in Hin.
  apply list_elem_of_split in Hin as (l1 & l2 & El).
  assert (Hcd : node ∈ ch d) by (rewrite El; set_solver).
  destruct (tree_child T node d Hcd) as (n0 & ndd & _ & Hdd & _ & Hnz & Hdz).
  pose proof (tree_NoDup T d) as ND. rewrite El in ND. apply NoDup_middle in ND as [ND _].
  assert (Hnl1 : node ∉ l1) by set_solver.
  pose proof (t_chain _ _ T d ndd Hdd) as C. rewrite El in C.
  unfold ramfs_rename, node_fuel. wp_steps. eapply wp_vnode; [done|]. wp_steps.
  eapply (find_link_wp l1 l2); [by apply read_link_first|exact C|done| |].
  { pose proof (chain_length _ _ _ C) as L. rewrite length_app in L. simpl in L. lia. }
  set (p := default d (list.last l1)).
  assert (Hfp : l1 = [] → p = d) by by intros ->.
  assert (Hlp : l1 ≠ [] → list.last l1 = Some p).
  { intros E. subst p. destruct (list.last l1) eqn:E'; [done|]. by apply last_None in E'. }
  clearbody p.
  assert (Hnp : node ≠ p).
  { intros ->. destruct (decide (l1 = [])) as [E|E].
    - rewrite (Hfp E) in Hcd. by apply (tree_not_own_child T d).
    - apply Hnl1. by apply last_Some_elem_of, Hlp. }
  assert (∃ np, fs_nodes s !! p = Some np ∧ (l1 ≠ [] → v_next_sibling np = node)) as (np & Hnp' & Hnext).
  { destruct (decide (l1 = [])) as [E|E]; [exists ndd; split; [by rewrite Hfp|done]|].
    apply Hlp, last_Some in E as [l1' ->]. rewrite <- app_assoc in C. simpl in C.
    apply chain_app in C as (_ & _ & np & Hp' & C). exists np. split; [done|]. intros _. by destruct C as [-> _]. }
  set (m1 := <[p := (if decide (l1 = []) then set_first_child else set_next_sibling)
                    (v_next_sibling n) np]> (fs_nodes s)).
  set (lk := match list.last l1 with Some q => NextSibling q | None => FirstChild d end).
  assert (Hread : wp (read_link lk) (λ x s', x = node ∧ s' = s) s).
  { unfold lk. destruct (decide (l1 = [])) as [E|E].
    - subst l1. simpl in *. wp_steps. eapply wp_vnode; [done|]. wp_steps. by destruct C as [-> _].
    - rewrite (Hlp E). simpl. wp_steps. eapply wp_vnode; [done|]. wp_steps. by rewrite Hnext. }
  assert (Hwrite : wp (write_link lk (v_next_sibling n)) (λ _ s', s' = set_nodes m1 s) s).
  { unfold lk, m1. destruct (decide (l1 = [])) as [E|E].
    - rewrite (Hfp E) in *. subst l1. simpl. by eapply wp_vnode_upd.
    - rewrite (Hlp E). simpl. by eapply wp_vnode_upd. }
  wp_steps. eapply wp_mono; [exact Hread|]. intros ? ? [-> ->]. destruct (Z.eqb_spec node 0); [done|]. wp_steps.
  eapply wp_mono; [exact Hwrite|]. intros [] ? ->. wp_steps.
  eapply wp_vnode_upd; [simpl; unfold m1; by rewrite lookup_insert_ne|]. wp_steps. node_steps.
  rewrite (clip_name_id new_name Hlen).
  set (nz := set_parent 0 (set_name new_name n)).
  destruct (detach_inv runs blocks ch s d node l1 l2 n nz p np I Hn El) as [I1 L]; try done.
  fold m1 in I1, L. simpl in I1, L. set (m2 := <[node := nz]> m1) in *.
  set (ch1 := upd_ch d (l1 ++ l2) ch) in *. pose proof (fi_tree _ _ _ _ I1) as T1. simpl in T1.
  assert (Hne : new_dir ≠ node) by (intros ->; by apply Hanc, anc_refl).
  assert (∃ nd1, m2 !! new_dir = Some nd1) as [nd1 Hnd1].
  { apply elem_of_dom. unfold m2, m1. rewrite !dom_insert_L. apply elem_of_dom_2 in Hnd. set_solver. }
  destruct (L new_dir nd1 Hnd1) as (nd0 & Hnd0 & (Ety & _) & _). rewrite Hnd in Hnd0. injection Hnd0 as <-.
  assert (Hnd1' : m1 !! new_dir = Some nd1) by (unfold m2 in Hnd1; by rewrite lookup_insert_ne in Hnd1).
  assert (Hsub : ∀ q, q ∈ ch1 new_dir → q ∈ ch new_dir ∧ q ≠ node).
  { intros q Hq. unfold ch1, upd_ch in Hq. destruct (decide (new_dir = d)) as [->|].
    - rewrite El. split; [set_solver|]. intros ->. done.
    - split; [done|]. intros ->. destruct (tree_child T node new_dir Hq) as (n' & _ & Hn' & _ & E & _). 
      rewrite Hn in Hn'. injection Hn' as <-. done. }
  assert (Hanc1 : ¬ anc m2 new_dir node).
  { intros Ha. apply Hanc. eapply anc_mono; [|exact Ha]. intros x y (n' & Hx & Hy & Hy0).
    destruct (L x n' Hx) as (n1' & Hx' & _ & [E|E]); [congruence|]. exists n1'. split_and!; congruence. }
  assert (Hname1 : new_name ∉ map (name_of m2) (ch1 new_dir)).
  { intros (q & E & Hq)%list_elem_of_fmap_1. destruct (Hsub q Hq) as [Hq1 Hq2]. apply (Hno q Hq1).
    rewrite E. destruct (tree_child T q new_dir Hq1) as (nq & _ & Hnq & _).
    unfold name_of, m2, m1. rewrite Hnq, lookup_insert_ne by done. destruct (decide (q = p)) as [->|].
    - rewrite lookup_insert_eq. rewrite Hnq in Hnp'. injection Hnp' as <-. by destruct (decide (l1 = [])).
    - by rewrite lookup_insert_ne, Hnq. }
  eapply push_child_wp; [simpl; by rewrite lookup_insert_ne|apply lookup_insert_eq|done|].
  wp_steps. simpl. rewrite insert_insert_eq. split_and!; [done|done|done|]. exists l1, l2. split; [done|].
  set (nc' := set_next_sibling (v_first_child nd1) (set_parent new_dir (set_name new_name n))).
  assert (Em : <[new_dir := set_first_child node nd1]> (<[node := nc']> m1) =
               <[new_dir := set_first_child node nd1]> (<[node := nc']> m2))
    by (unfold m2; by rewrite insert_insert_eq).
  rewrite Em. unfold moved. fold ch1. split.
  - assert (T2 : tree (<[new_dir := set_first_child node nd1]> (<[node := nc']> m2))
             (upd_ch new_dir (node :: ch1 new_dir) ch1)).
    { apply (tree_push T1 new_dir node nd1 nz nc'); try done; [congruence|apply lookup_insert_eq]. }
    assert (L2 : ∀ q n', <[new_dir := set_first_child node nd1]> (<[node := nc']> m2) !! q = Some n' →
      ∃ n, m2 !! q = Some n ∧ same_data n' n ∧
        (q = node ∧ v_ops n' = ramfs_ops ∨ v_parent n' = v_parent n)).
    { intros q n' [[<- <-]|[Hq1 Hq]]%lookup_insert_Some.
      - exists nd1. split_and!; [done|done|by right].
      - apply lookup_insert_Some in Hq as [[<- <-]|[_ Hq]].
        + exists nz. split_and!; [apply lookup_insert_eq|done|by left].
        + exists n'. split_and!; [done|done|by right]. }
    constructor; simpl; [exact T2| | |].
    + apply (fs_mem_inv_nodes _ _ (set_nodes m2 s)); [apply I1|]. simpl.
      rewrite dom_insert_lookup_L, dom_insert_lookup_L; [done|unfold m2; rewrite lookup_insert_eq; eauto|].
      rewrite lookup_insert_ne by done. eauto.
    + apply (files_ok_sub (set_nodes m2 s) _ _ (fs_mounts s)); [apply I1|]. simpl.
      intros q n' (n1' & ? & ? & _)%L2. eauto.
    + eapply (ops_ok_sub m2); [apply I1|apply T2|]. intros q n' (n1' & ? & (_ & ? & _) & E)%L2.
      exists n1'. split_and!; [done|done|]. destruct E as [[_ ?]|?]; auto.
  - exists nc'. split_and!; try done.
    + rewrite lookup_insert_ne by done. apply lookup_insert_eq.
    + rewrite upd_ch_ne by done. unfold ch1. rewrite upd_ch_ne; [done|].
      intros E. apply (tree_not_own_child T d). by rewrite E in Hcd.
    + rewrite <- Em. assert (K1 : refs_kept (λ q, q = node) (fs_nodes s) (<[node := nc']> m1)).
      { eapply refs_kept_insert; [|unfold m1; by rewrite lookup_insert_ne|done].
        eapply refs_kept_insert; [apply refs_kept_refl|done|]. by destruct (decide (l1 = [])). }
      eapply refs_kept_insert; [exact K1|rewrite lookup_insert_ne by done; exact Hnd1'|done].
Qed.

(** ** Lemmas: growing and writing *)
Lemma grow_capacity_some fuel c needed :
  0 < c < 2 ^ 64 → needed <= 2 ^ 63 → needed <= c * 2 ^ Z.of_nat fuel →
  ∃ k, grow_capacity fuel c needed = Some k ∧ needed <= k ∧ c <= k < 2 ^ 64.
Proof.
  revert c. induction fuel as [|fuel IH]; intros c Hc Hn Hf; cbn [grow_capacity];
    destruct (Z.ltb_spec c needed); try (exists c; split_and!; [done|lia..]).
  - simpl in Hf. lia.
  - rewrite u64_small by lia. destruct (IH (c * 2)) as (k & ? & ? & ?); [lia|lia| |exists k; split_and!; [done|lia..]].
    rewrite Nat2Z.inj_succ, Z.pow_succ_r in Hf by lia. lia.
Qed.

Lemma grow_capacity_zero fuel needed : 0 < needed → grow_capacity fuel 0 needed = None.
Proof.
  intros Hn. induction fuel as [|fuel IH]; cbn [grow_capacity]; (destruct (Z.ltb_spec 0 needed); [|lia]); done.
Qed.

Lemma grow_capacity_none fuel i needed :
  0 <= i <= 63 → 2 ^ 63 < needed → grow_capacity fuel (2 ^ i) needed = None.
Proof.
  intros Hi Hn. revert i Hi. induction fuel as [|fuel IH]; intros i Hi; cbn [grow_capacity];
    (destruct (Z.ltb_spec (2 ^ i) needed); [|pose proof (Z.pow_le_mono_r 2 i 63); lia]); [done|].
  destruct (decide (i = 63)) as [->|].
  - apply grow_capacity_zero. lia.
  - replace (2 ^ i * 2) with (2 ^ (i + 1)) by (rewrite Z.pow_add_r; lia).
    rewrite u64_small; [apply IH; lia|]. split; [apply Z.pow_nonneg; lia|apply Z.pow_lt_mono_r; lia].
Qed.

Lemma rf_ok_content_length size r : rf_ok size r → Z.of_nat (length (take (Z.to_nat size) (rf_bytes r))) = size.
Proof. intros [L S _ _ _]. rewrite length_take_le; lia. Qed.

Lemma ensure_capacity_wp runs blocks q r size needed s (Q : Z → fs H → Prop) :
  fs_mem_inv runs blocks s → fs_files s !! q = Some r → rf_ok size r → 0 <= needed <= 2 ^ 63 →
  Q (-1) s →
  (∀ r' h, let s' := Fs h (fs_nodes s) (<[q := r']> (fs_files s)) (fs_mounts s) in
     fs_mem_inv runs blocks s' → rf_ok size r' → needed <= rf_capacity r' →
     take (Z.to_nat size) (rf_bytes r') = take (Z.to_nat size) (rf_bytes r) → Q 0 s') →
  wp (ramfs_ensure_capacity q needed) Q s.
Proof.
  intros Im Hr [L S Nl Cp Z0] Hneed Hf HQ. unfold ramfs_ensure_capacity, rfile. wp_steps.
  eapply wp_lift; [exact Hr|]. destruct (Z.leb_spec needed (rf_capacity r)) as [Hle|Hgt]; wp_steps.
  { specialize (HQ r (fs_mem s)). simpl in HQ. rewrite insert_id in HQ by done. destruct s. by apply HQ. }
  set (c := if rf_capacity r =? 0 then 256 else rf_capacity r).
  assert (Hc : 0 < c < 2 ^ 64) by (unfold c; destruct (Z.eqb_spec (rf_capacity r) 0); lia).
  destruct (grow_capacity_some 65 c needed) as (k & Hk & Hnk & Hck); [done|lia|simpl; lia|].
  eapply wp_lift; [exact Hk|]. wp_steps. apply wp_on_fs_mem.
  eapply km_kmalloc_law; [exact Im|lia|simpl; wp_steps; by destruct s|].
  intros p h Hp I1 _. destruct (Z.eqb_spec p 0); [done|]. wp_steps.
  pose proof (km_block_size _ _ _ _ _ I1) as [_ Hk52].
  set (r' := MkRamfsFile p k (rf_bytes r ++ replicate (Z.to_nat (k - rf_capacity r)) 0)).
  set (files' := delete q (fs_files s)).
  set (rest := map (λ p, (p, SIZEOF_VNODE)) (elements (dom (fs_nodes s))) ++
               map (λ p, (p, SIZEOF_RAMFS_FILE)) (elements (dom (fs_files s))) ++ data_blocks files' ++ blocks).
  assert (I2 : km_inv h runs (data_block r ++ (p, k) :: rest)).
  { eapply km_perm_blocks; [exact I1|]. unfold fs_blocks, rest.
    rewrite (data_blocks_delete _ _ _ Hr). fold files'. solve_perm. }
  assert (Hfin : ∀ h', km_inv h' runs ((p, k) :: rest) →
    Q 0 (Fs h' (fs_nodes s) (<[q := r']> (fs_files s)) (fs_mounts s))).
  { intros h' I3. apply HQ.
    - unfold fs_mem_inv, fs_blocks. simpl. rewrite dom_insert_lookup_L by eauto.
      eapply km_perm_blocks; [exact I3|]. unfold rest.
      rewrite <- insert_delete_eq, data_blocks_insert by apply lookup_delete_eq. fold files'.
      assert (data_block r' = [(p, k)]) as -> by (unfold data_block; simpl; by destruct (Z.eqb_spec p 0)).
      solve_perm.
    - unfold c in Hck. destruct (Z.eqb_spec (rf_capacity r) 0) as [E0|E0].
      all: constructor; simpl; [rewrite length_app, length_replicate; lia|lia|done|lia|].
      all: intros i Hi; destruct (decide (i < rf_capacity r)).
      all: try (rewrite lookupZ_app_l by lia; apply Z0; lia).
      all: rewrite lookupZ_app_r by lia; unfold lookupZ;
           (destruct (Z.ltb_spec (i - Z.of_nat (length (rf_bytes r))) 0); [lia|]); apply lookup_replicate_2; lia.
    - done.
    - simpl. rewrite take_app_le by lia. done. }
  unfold data_block in I2. unfold rfile_set. destruct (Z.eqb_spec (rf_data r) 0); wp_steps; [by apply Hfin|].
  apply wp_on_fs_mem. eapply km_kfree_law; [exact I2|]. intros h' I3 _. wp_steps. by apply Hfin.
Qed.

(** Writing into the buffer of a file is writing into the file. *)
Lemma write_buffer size r off buf b :
  rf_ok size r → 0 <= off → write_range (rf_bytes r) off buf = Some b →
  let size' := Z.max size (off + Z.of_nat (length buf)) in
  rf_ok size' (MkRamfsFile (rf_data r) (rf_capacity r) b) ∧
  take (Z.to_nat size') b = spec_write (take (Z.to_nat size) (rf_bytes r)) off buf.
Proof.
  intros [L S Nl Cp Z0] Ho Hw size'.
  pose proof (λ k, write_range_lookup _ _ _ _ k Hw) as W. destruct (W 0) as [Hlen _].
  assert (Hfit : off + Z.of_nat (length buf) <= rf_capacity r).
  { unfold write_range in Hw.
    destruct (Z.leb_spec 0 off), (Z.leb_spec (off + Z.of_nat (length buf)) (Z.of_nat (length (rf_bytes r)))); try done. lia. }
  split.
  - constructor; simpl; try done; [lia|lia|]. intros k Hk. destruct (W k) as [_ ->].
    rewrite decide_False by lia. apply Z0. lia.
  - apply lookupZ_ext.
    + apply Nat2Z.inj. rewrite spec_write_length by done. rewrite !length_take_le by lia. lia.
    + intros k Hk. rewrite length_take_le in Hk by lia.
      rewrite lookupZ_take by lia. destruct (W k) as [_ ->].
      rewrite spec_write_lookup by (rewrite ?length_take_le; lia).
      destruct (decide (off <= k < off + Z.of_nat (length buf))); [done|].
      rewrite length_take_le by lia. destruct (decide (k < Z.of_nat (Z.to_nat size))).
      * by rewrite lookupZ_take by lia.
      * apply Z0. lia.
Qed.

(** Replacing the buffer behind one file. *)
Lemma files_ok_write s h p n r' size' :
  files_ok s → fs_nodes s !! p = Some n → v_ops n = ramfs_ops → v_type n = VNODE_FILE → rf_ok size' r' →
  files_ok (Fs h (<[p := set_size size' n]> (fs_nodes s)) (<[v_private n := r']> (fs_files s)) (fs_mounts s)).
Proof.
  intros [F O J] Hp Ho Ht Hr.
  assert (L : ∀ q nq, <[p := set_size size' n]> (fs_nodes s) !! q = Some nq → ∃ n0, fs_nodes s !! q = Some n0 ∧
    v_type nq = v_type n0 ∧ v_ops nq = v_ops n0 ∧ v_private nq = v_private n0 ∧ (q ≠ p → v_size nq = v_size n0)).
  { intros q nq [[<- <-]|[? Hq]]%lookup_insert_Some; [by exists n|by exists nq]. }
  constructor; simpl.
  - intros q nq Hq Hqo Hqt. destruct (L q nq Hq) as (n0 & Hn0 & E1 & E2 & E3 & E4). rewrite E3.
    destruct (F q n0 Hn0) as (? & r0 & Hr0 & Hok); [congruence..|]. split; [done|].
    destruct (decide (q = p)) as [->|Hqp].
    + rewrite lookup_insert_eq in Hq. injection Hq as <-. exists r'. simpl in *.
      split; [|done]. rewrite Hp in Hn0. injection Hn0 as <-. apply lookup_insert_eq.
    + exists r0. rewrite E4 by done. split; [|done]. rewrite lookup_insert_ne; [done|].
      intros E. by apply Hqp, (J q n0 p n); congruence.
  - intros q nq (n0 & Hq & -> & -> & -> & _)%L. by eapply O.
  - intros q nq q' nq' (n0 & Hq & -> & -> & -> & _)%L (n0' & Hq' & -> & -> & -> & _)%L. by eapply J.
Qed.

(** A regular ramfs file [p] with bytes [c]. *)
Definition is_file (s : fs H) (p : Z) (c : list Z) : Prop :=
  ∃ n, fs_nodes s !! p = Some n ∧ v_ops n = ramfs_ops ∧ v_type n = VNODE_FILE ∧ content s p = Some c ∧
       v_size n = Z.of_nat (length c).

Lemma is_file_buffer s p n :
  files_ok s → fs_nodes s !! p = Some n → v_ops n = ramfs_ops → v_type n = VNODE_FILE →
  ∃ r, fs_files s !! v_private n = Some r ∧ rf_ok (v_size n) r ∧ v_private n ≠ 0 ∧
       is_file s p (take (Z.to_nat (v_size n)) (rf_bytes r)).
Proof.
  intros If Hn Ho Ht. destruct (fo_file s If p n Hn Ho Ht) as (Hp & r & Hr & Hok). exists r.
  split_and!; try done. exists n. split_and!; try done.
  - unfold content. rewrite Hn. simpl. by rewrite Hr.
  - by rewrite (rf_ok_content_length _ _ Hok).
Qed.

Lemma ramfs_read_wp s p c count offset (Q : Z * list Z → fs H → Prop) :
  files_ok s → is_file s p c → 0 <= count → 0 <= offset → Z.of_nat (length c) < 2 ^ 63 →
  Q (Z.of_nat (length (spec_read c offset count)), spec_read c offset count) s →
  wp (ramfs_read p count offset) Q s.
Proof.
  intros If (n & Hn & Ho & Ht & Hc & Hs) Hcount Hoff H63 HQ.
  destruct (is_file_buffer s p n If Hn Ho Ht) as (r & Hr & Hok & Hp & _).
  assert (c = take (Z.to_nat (v_size n)) (rf_bytes r)) as Ec.
  { unfold content in Hc. rewrite Hn in Hc. simpl in Hc. rewrite Hr in Hc. simpl in Hc. congruence. }
  destruct Hok as [L S _ _ _].
  assert (Lc : Z.of_nat (length (spec_read c offset count)) =
               Z.max 0 (Z.min count (Z.of_nat (length c) - offset))).
  { unfold spec_read. rewrite length_take, length_drop. lia. }
  unfold ramfs_read, rfile. wp_steps. eapply wp_vnode; [done|].
  destruct (Z.eqb_spec (v_private n) 0); [done|]. simpl.
  destruct (Z.leb_spec (v_size n) offset).
  - wp_steps. assert (spec_read c offset count = []) as E by (apply nil_length_inv; lia).
    rewrite E in HQ. exact HQ.
  - wp_steps. eapply wp_lift; [exact Hr|]. wp_steps.
    set (k := if count <? v_size n - offset then count else v_size n - offset).
    assert (Hk : k = Z.min count (v_size n - offset)) by (unfold k; destruct (Z.ltb_spec count (v_size n - offset)); lia).
    eapply wp_lift; [apply read_range_spec; lia|]. wp_steps.
    assert (spec_read (rf_bytes r) offset k = spec_read c offset count) as ->.
    { unfold spec_read. rewrite Ec, skipn_firstn_comm, take_take.
      rewrite <- (firstn_all (drop (Z.to_nat offset) (rf_bytes r))) at 1. rewrite take_take, length_drop.
      f_equal. lia. }
    rewrite s64_small by lia. replace k with (Z.of_nat (length (spec_read c offset count))) by lia. exact HQ.
Qed.

Lemma ramfs_write_wp runs blocks ch s p c buf offset :
  fs_inv runs blocks ch s → is_file s p c → 0 <= offset → offset + Z.of_nat (length buf) < 2 ^ 63 →
  wp (ramfs_write p buf offset) (λ e s',
    (e = -1 ∧ s' = s) ∨
    (e = Z.of_nat (length buf) ∧ fs_inv runs blocks ch s' ∧ is_file s' p (spec_write c offset buf) ∧
     (∀ q c', q ≠ p → is_file s q c' → is_file s' q c') ∧
     refs_kept (λ _, False) (fs_nodes s) (fs_nodes s') ∧ fs_mounts s' = fs_mounts s)) s.
Proof.
  intros [T Im If Io] (n & Hn & Ho & Ht & Hc & Hs) Hoff Hlen.
  destruct (is_file_buffer s p n If Hn Ho Ht) as (r & Hr & Hok & Hp & _).
  assert (c = take (Z.to_nat (v_size n)) (rf_bytes r)) as Ec.
  { unfold content in Hc. rewrite Hn in Hc. simpl in Hc. rewrite Hr in Hc. simpl in Hc. congruence. }
  unfold ramfs_write, rfile, rfile_set. wp_steps. eapply wp_vnode; [done|].
  destruct (Z.eqb_spec (v_private n) 0); [done|]. wp_steps. rewrite u64_small by lia.
  eapply ensure_capacity_wp; [exact Im|exact Hr|exact Hok|lia|simpl; wp_steps; by left|].
  intros r1 h s1 Im1 Hok1 Hcap1 Htake. simpl. wp_steps.
  eapply wp_lift; [apply lookup_insert_eq|]. wp_steps.
  destruct (write_range (rf_bytes r1) offset buf) as [b|] eqn:Hw.
  2:{ exfalso. unfold write_range in Hw. destruct Hok1 as [L1 _ _ _ _].
      destruct (Z.leb_spec 0 offset), (Z.leb_spec (offset + Z.of_nat (length buf)) (Z.of_nat (length (rf_bytes r1))));
        try done; lia. }
  eapply wp_lift; [done|]. wp_steps. simpl.
  destruct (write_buffer _ _ _ _ _ Hok1 Hoff Hw) as [Hok2 Hc2].
  set (size' := Z.max (v_size n) (offset + Z.of_nat (length buf))) in *.
  set (r2 := MkRamfsFile (rf_data r1) (rf_capacity r1) b) in *.
  rewrite Htake, <- Ec in Hc2. rewrite s64_small by lia.
  set (s2 := Fs h (<[p := set_size size' n]> (fs_nodes s)) (<[v_private n := r2]> (fs_files s)) (fs_mounts s)).
  assert (If2 : files_ok s2) by by apply files_ok_write.
  assert (I2 : fs_inv runs blocks ch s2).
  { constructor; [by eapply tree_same| |done|].
    - unfold fs_mem_inv, fs_blocks in *. simpl in *. rewrite dom_insert_lookup_L by eauto.
      rewrite !dom_insert_lookup_L in * by eauto.
      eapply km_perm_blocks; [exact Im1|].
      rewrite <- (insert_delete_eq _ _ r1), <- (insert_delete_eq _ _ r2).
      rewrite !data_blocks_insert by apply lookup_delete_eq. done.
    - eapply (ops_ok_sub (fs_nodes s)); [done|by apply (tree_same T p n)|].
      intros q nq Hq. simpl in Hq.
      apply lookup_insert_Some in Hq as [[<- <-]|[_ Hq]]; [exists n|exists nq]; auto. }
  assert (F2 : is_file s2 p (spec_write c offset buf)).
  { exists (set_size size' n). split_and!; [apply lookup_insert_eq|done|done| |].
    - unfold content, s2. simpl. rewrite lookup_insert_eq. simpl. rewrite lookup_insert_eq. simpl. by rewrite Hc2.
    - simpl. rewrite spec_write_length by done. lia. }
  assert (O2 : ∀ q c', q ≠ p → is_file s q c' → is_file s2 q c').
  { intros q c' Hqp (nq & Hq & Hqo & Hqt & Hqc & Hqs). exists nq. unfold s2. simpl.
    split_and!; try done; [by rewrite lookup_insert_ne|]. rewrite <- Hqc. unfold content. simpl.
    rewrite lookup_insert_ne, Hq by done. simpl. rewrite lookup_insert_ne; [done|].
    intros E. by apply Hqp, (fo_inj s If q nq p n). }
  assert (K2 : refs_kept (λ _, False) (fs_nodes s) (fs_nodes s2)).
  { eapply refs_kept_insert; [apply refs_kept_refl|exact Hn|done]. }
  destruct (Z.ltb_spec (v_size n) (offset + Z.of_nat (length buf))) as [Hlt|Hge].
  - eapply wp_vnode_upd; [simpl; done|]. simpl. wp_steps. right.
    replace (offset + Z.of_nat (length buf)) with size' by lia. 
    rewrite insert_insert_eq. done.
  - wp_steps. right.
    assert (set_size size' n = n) as Es by (unfold size'; rewrite Z.max_l by lia; by destruct n).
    unfold s2 in *. rewrite Es, (insert_id (fs_nodes s)) in * by done.
    unfold set_files. simpl. rewrite insert_insert_eq. done.
Qed.

Lemma ramfs_create_root_wp runs blocks ch s :
  fs_inv runs blocks ch s →
  wp (ramfs_create_root) (λ p s',
    (p = 0 ∧ same_fs s s') ∨
    (p ≠ 0 ∧ fs_nodes s !! p = None ∧ fs_inv runs blocks ch s' ∧
     fs_nodes s' = <[p := MkVNode [slash] VNODE_DIR 0 ramfs_ops 0 0 0 false 0 0 0]> (fs_nodes s) ∧
     fs_files s' = fs_files s ∧ fs_mounts s' = fs_mounts s)) s.
Proof.
  intros [T Im If Io]. unfold ramfs_create_root. wp_steps.
  apply (alloc_vnode_wp runs blocks); [done|simpl; wp_steps; by left|].
  intros p h Hp Hpn s1 I1. destruct (Z.eqb_spec p 0); [done|]. wp_steps.
  eapply wp_vnode_upd; [apply lookup_insert_eq|]. simpl. rewrite insert_insert_eq. wp_steps. node_steps.
  right. split; [done|]. split; [done|]. split; [|split; [|split]]; [|reflexivity..].
  assert (T' : tree (<[p := MkVNode [slash] VNODE_DIR 0 ramfs_ops 0 0 0 false 0 0 0]> (fs_nodes s)) ch).
  { apply tree_fresh; try done. simpl. unfold VFS_NAME_MAX. lia. }
  constructor; simpl; [done| | |].
  - unfold fs_mem_inv, fs_blocks in *. simpl in *. by rewrite dom_insert_L in *.
  - pose proof (files_ok_fresh s h p (MkVNode [slash] VNODE_DIR 0 ramfs_ops 0 0 0 false 0 0 0) (fs_files s)
      If Hpn eq_refl) as F. apply F; done.
  - intros c n' nd' Hc Hd Ho. apply lookup_insert_Some in Hc as [[<- <-]|[Hne Hc]]; [done|].
    apply lookup_insert_Some in Hd as [[E <-]|[Hne' Hd]]; [|by eapply Io].
    exfalso. pose proof (tree_parent_in T c n' Hc ltac:(congruence)) as Hin.
    rewrite <- E, (t_out _ _ T p Hpn) in Hin. by apply elem_of_nil in Hin.
Qed.

(** ** Properties *)

(** Creating an entry in a ramfs directory always returns.  It returns NULL with
    nodes and files as they were (the name is taken or memory is out), or links a
    fresh node first in the directory, after which looking the name up finds that
    node; the tree, the ownership of heap blocks and every other file are kept. *)
Lemma ramfs_create_correct (runs blocks : list (Z * Z)) (ch : Z → list Z) (s : fs H)
  (d : Z) (nd : VNode) (name : str) (type : VNodeType)
  (I : fs_inv runs blocks ch s) (Hd : fs_nodes s !! d = Some nd) (Hdir : v_type nd = VNODE_DIR)
  (Hlen : (length name < VFS_NAME_MAX)%nat) :
  ∃ p s', ramfs_create d name type s = Some (p, s') ∧
    ((p = 0 ∧ same_fs s s' ∧ fs_inv runs blocks ch s') ∨
     (created ch d name type s p s' ∧ fs_inv runs blocks (upd_ch d (p :: ch d) ch) s' ∧
      ramfs_lookup d name s' = Some (p, s'))).
Proof.
  apply wp_run. eapply wp_mono; [by eapply ramfs_create_wp|]. intros p s' [?|[C I']]; [by left|right].
  split_and!; [done|done|]. apply wp_eq. destruct C as (Hp & Hpn & Hno & nd' & priv & Hnd & Hn' & _).
  rewrite Hd in Hnd. injection Hnd as <-. assert (Hdp : d ≠ p) by congruence.
  eapply ramfs_lookup_wp; [apply I'|rewrite Hn'; apply lookup_insert_eq| |].
  - rewrite upd_ch_eq. intros q [->|Hq]%elem_of_cons; [done|]. intros E. exfalso. apply (Hno q Hq).
    rewrite <- E. destruct (tree_child (fi_tree _ _ _ _ I) q d Hq) as (nq & _ & Hnq & _).
    assert (q ≠ p) by congruence. unfold name_of. rewrite Hn', Hnq.
    destruct (decide (q = d)) as [->|]; [rewrite lookup_insert_eq; simpl; congruence|].
    by rewrite !lookup_insert_ne, Hnq by done.
  - intros Hno'. exfalso. apply (Hno' p); [rewrite upd_ch_eq; by left|].
    unfold name_of. by rewrite Hn', lookup_insert_ne, lookup_insert_eq by done.
Qed.

(** C38 (error) [ramfs_unlink, unlink_loop, ramfs_release]
    Unlinking a name from a ramfs directory always returns: -1 exactly when no child
    has the name or the child is a directory that is not empty, and then nothing has
    changed; otherwise exactly that child leaves the directory, its node and buffers
    are freed at once if no file is open on it and kept, marked unlinked, if one is. *)
Theorem ramfs_unlink_correct (runs blocks : list (Z * Z)) (ch : Z → list Z) (s : fs H)
  (d : Z) (nd : VNode) (name : str)
  (I : fs_inv runs blocks ch s) (Hd : fs_nodes s !! d = Some nd) (Ho : v_ops nd = ramfs_ops) :
  ∃ e s', ramfs_unlink d name s = Some (e, s') ∧
    ((e = -1 ∧ s' = s ∧ ((∀ q, q ∈ ch d → name_of (fs_nodes s) q ≠ name) ∨
                         ∃ c, c ∈ ch d ∧ name_of (fs_nodes s) c = name ∧ ch c ≠ [])) ∨
     (e = 0 ∧ unlinked_from runs blocks ch d name s s')).
Proof. apply wp_run. by eapply ramfs_unlink_wp. Qed.

(** Renaming moves a node, with everything below it, from its directory to the front
    of another one and changes nothing else in the tree; if the new directory is not
    below the node and has no such name, the tree invariant, acyclicity included, is kept. *)
Lemma ramfs_rename_keeps_tree (runs blocks : list (Z * Z)) (ch : Z → list Z) (s : fs H)
  (node new_dir : Z) (n nd : VNode) (new_name : str)
  (I : fs_inv runs blocks ch s) (Hn : fs_nodes s !! node = Some n) (Hp : v_parent n ≠ 0)
  (Hd : fs_nodes s !! new_dir = Some nd) (Hdir : v_type nd = VNODE_DIR) (Ho : v_ops n = ramfs_ops)
  (Hbelow : ¬ anc (fs_nodes s) new_dir node) (Hlen : (length new_name < VFS_NAME_MAX)%nat)
  (Hfree : ∀ q, q ∈ ch new_dir → name_of (fs_nodes s) q ≠ new_name) :
  ∃ s' l1 l2, ramfs_rename node new_dir new_name s = Some (0, s') ∧
    ch (v_parent n) = l1 ++ node :: l2 ∧
    fs_inv runs blocks (moved ch (v_parent n) new_dir node l1 l2) s' ∧
    ch node = moved ch (v_parent n) new_dir node l1 l2 node ∧
    name_of (fs_nodes s') node = new_name ∧ fs_files s' = fs_files s.
Proof.
  pose proof (ramfs_rename_wp runs blocks ch s node n new_dir nd new_name I Hn Hp Hd Hdir Ho Hbelow Hlen Hfree) as W.
  apply wp_run in W as (e & s' & E & -> & _ & Ef & l1 & l2 & El & I' & n' & Hn' & En & _ & _ & Ech & _).
  exists s', l1, l2. split_and!; try done. by rewrite (name_of_eq _ n').
Qed.

(** C31 (refinement) [ramfs_write, ramfs_read, ramfs_ensure_capacity, grow_capacity, read_range, write_range]
    A ramfs file shorter than 2^63 bytes behaves as the list of its bytes, for writes that
    end below 2^63 (beyond that the capacity cannot be doubled to what is needed, and
    the write hangs): a write either fails changing
    nothing or makes the file [spec_write], a hole before the offset reading as
    zeros, other files untouched; reading any range afterwards returns exactly the
    bytes of that list. *)
Theorem ramfs_write_then_read (runs blocks : list (Z * Z)) (ch : Z → list Z) (s : fs H)
  (p : Z) (c buf : list Z) (offset count roff : Z)
  (I : fs_inv runs blocks ch s) (Hf : is_file s p c)
  (Ho : 0 <= offset) (Hlen : offset + Z.of_nat (length buf) < 2 ^ 63) (Hc : Z.of_nat (length c) < 2 ^ 63)
  (Hcount : 0 <= count) (Hroff : 0 <= roff) :
  ∃ e s', ramfs_write p buf offset s = Some (e, s') ∧
    ((e = -1 ∧ s' = s) ∨
     (e = Z.of_nat (length buf) ∧ fs_inv runs blocks ch s' ∧ is_file s' p (spec_write c offset buf) ∧
      (∀ q c', q ≠ p → is_file s q c' → is_file s' q c') ∧
      let r := spec_read (spec_write c offset buf) roff count in
      ramfs_read p count roff s' = Some ((Z.of_nat (length r), r), s'))).
Proof.
  apply wp_run. eapply wp_mono; [by eapply ramfs_write_wp|].
  intros e s' [?|(-> & I' & Hf' & Hoth & _)]; [by left|right]. split_and!; try done.
  apply wp_eq. eapply ramfs_read_wp; try done; [apply I'|]. rewrite spec_write_length by done. lia.
Qed.

(** The doubling loop of ramfs_ensure_capacity, started from a power of two as every
    capacity is, ends with a large enough capacity if needed is at most 2^63, and
    never ends, whatever the number of turns, if needed is larger: the doubling wraps to 0. *)
Lemma grow_capacity_ends_iff (i needed : Z) (Hi : 0 <= i <= 63) (Hn : 0 <= needed < 2 ^ 64) :
  (needed <= 2 ^ 63 → ∃ k, grow_capacity 65 (2 ^ i) needed = Some k ∧ needed <= k) ∧
  (2 ^ 63 < needed → ∀ fuel, grow_capacity fuel (2 ^ i) needed = None).
Proof.
  assert (0 < 2 ^ i < 2 ^ 64) by (split; [apply Z.pow_pos_nonneg; lia|apply Z.pow_lt_mono_r; lia]).
  split.
  - intros Hle. destruct (grow_capacity_some 65 (2 ^ i) needed) as (k & ? & ? & _); [done|done| |eauto].
    change (2 ^ Z.of_nat 65) with (2 ^ 65). nia.
  - intros Hgt fuel. by apply grow_capacity_none.
Qed.
End Ramfs.

(** ** Witnesses: a small tree over the kernel heap *)
Definition result_of {S A} (m : M S A) (s : S) : option A :=
  match m s with Some (a, _) => Some a | None => None end.

Definition demo_fs0 : fs heap := Fs demo_heap ∅ ∅ [].
Definition demo_root : Z := 2 ^ 47 + 2 * 4096 + 16.
Definition demo_file : Z := 2 ^ 47 + 3 * 4096 + 16.
Definition demo_dir : Z := 2 ^ 47 + 5 * 4096 + 16.
Definition demo_fs1 : fs heap := run_state (ramfs_create_root 1) demo_fs0.
Definition demo_fs2 : fs heap := run_state (ramfs_create 1 demo_root (to_str "a") VNODE_FILE) demo_fs1.
Definition demo_fs3 : fs heap := run_state (ramfs_create 1 demo_root (to_str "d") VNODE_DIR) demo_fs2.
Definition demo_ch1 : Z → list Z := λ _, [].
Definition demo_ch2 : Z → list Z := upd_ch demo_root [demo_file] demo_ch1.
Definition demo_ch3 : Z → list Z := upd_ch demo_root [demo_dir; demo_file] demo_ch2.

(** The root of the demo tree in each state. *)
Definition root_node (first : Z) : VNode := MkVNode [slash] VNODE_DIR 0 1 0 0 0 false 0 first 0.

Lemma demo_inv0 : fs_inv 1 [] [] demo_ch1 demo_fs0.
Proof.
  assert (E : ∀ p n, (∅ : gmap Z VNode) !! p = Some n → False) by (intros p n; by rewrite lookup_empty).
  constructor; simpl.
  - constructor; intros.
    + apply lookup_empty.
    + by edestruct E.
    + done.
    + by edestruct E.
    + constructor.
    + by edestruct E.
    + by edestruct E.
    + constructor. intros y (n & Hn & _). by edestruct E.
  - exact demo_heap_inv.
  - constructor; intros; by edestruct E.
  - intros c n nd Hc. by edestruct E.
Qed.

Lemma demo_inv1 : fs_inv 1 [] [] demo_ch1 demo_fs1.
Proof.
  destruct (wp_run_state _ _ _ (ramfs_create_root_wp 1 _ _ _ _ demo_inv0)) as (p & E & [[-> _]|(_ & _ & I & _)]).
  - exfalso. apply (f_equal (fmap (M := option) fst)) in E. vm_compute in E. discriminate.
  - exact I.
Qed.

Lemma demo_create_inv ch s d nd name type p :
  fs_inv 1 [] [] ch s → fs_nodes s !! d = Some nd → v_type nd = VNODE_DIR → (length name < VFS_NAME_MAX)%nat →
  result_of (ramfs_create 1 d name type) s = Some p → p ≠ 0 →
  fs_inv 1 [] [] (upd_ch d (p :: ch d) ch) (run_state (ramfs_create 1 d name type) s).
Proof.
  intros I Hd Hdir Hl Hr Hp.
  destruct (wp_run_state _ _ _ (ramfs_create_wp 1 _ _ _ _ _ name type _ I Hd Hdir Hl)) as (q & E & HQ).
  unfold result_of in Hr. rewrite E in Hr. injection Hr as ->. destruct HQ as [[-> _]|[_ I']]; done.
Qed.

Lemma demo_inv2 : fs_inv 1 [] [] demo_ch2 demo_fs2.
Proof.
  apply (demo_create_inv demo_ch1 demo_fs1 demo_root (root_node 0));
    [exact demo_inv1|vm_compute; reflexivity|reflexivity|vm_compute; lia|vm_compute; reflexivity|discriminate].
Qed.

Lemma demo_inv3 : fs_inv 1 [] [] demo_ch3 demo_fs3.
Proof.
  apply (demo_create_inv demo_ch2 demo_fs2 demo_root (root_node demo_file));
    [exact demo_inv2|vm_compute; reflexivity|reflexivity|vm_compute; lia|vm_compute; reflexivity|discriminate].
Qed.

Lemma ramfs_create_correct_witness :
  ∃ p s', ramfs_create 1 demo_root (to_str "b") VNODE_FILE demo_fs2 = Some (p, s') ∧
    ((p = 0 ∧ same_fs demo_fs2 s' ∧ fs_inv 1 [] [] demo_ch2 s') ∨
     (created 1 demo_ch2 demo_root (to_str "b") VNODE_FILE demo_fs2 p s' ∧
      fs_inv 1 [] [] (upd_ch demo_root (p :: demo_ch2 demo_root) demo_ch2) s' ∧
      ramfs_lookup demo_root (to_str "b") s' = Some (p, s'))).
Proof.
  apply (ramfs_create_correct 1 [] [] demo_ch2 demo_fs2 demo_root (root_node demo_file));
    [exact demo_inv2|vm_compute; reflexivity|reflexivity|vm_compute; lia].
Defined.

Lemma ramfs_unlink_correct_witness :
  ∃ e s', ramfs_unlink demo_root (to_str "a") demo_fs2 = Some (e, s') ∧
    ((e = -1 ∧ s' = demo_fs2 ∧ ((∀ q, q ∈ demo_ch2 demo_root → name_of (fs_nodes demo_fs2) q ≠ to_str "a") ∨
        ∃ c, c ∈ demo_ch2 demo_root ∧ name_of (fs_nodes demo_fs2) c = to_str "a" ∧ demo_ch2 c ≠ [])) ∨
     (e = 0 ∧ unlinked_from 1 [] [] demo_ch2 demo_root (to_str "a") demo_fs2 s')).
Proof.
  apply (ramfs_unlink_correct 1 [] [] demo_ch2 demo_fs2 demo_root (root_node demo_file));
    [exact demo_inv2|vm_compute; reflexivity|reflexivity].
Defined.

(** Moving the file "a" into the directory "d" as "z". *)
Lemma ramfs_rename_keeps_tree_witness :
  ∃ s' l1 l2, ramfs_rename demo_file demo_dir (to_str "z") demo_fs3 = Some (0, s') ∧
    demo_ch3 demo_root = l1 ++ demo_file :: l2 ∧
    fs_inv 1 [] [] (moved demo_ch3 demo_root demo_dir demo_file l1 l2) s' ∧
    demo_ch3 demo_file = moved demo_ch3 demo_root demo_dir demo_file l1 l2 demo_file ∧
    name_of (fs_nodes s') demo_file = to_str "z" ∧ fs_files s' = fs_files demo_fs3.
Proof.
  apply (ramfs_rename_keeps_tree 1 [] [] demo_ch3 demo_fs3 demo_file demo_dir
    (MkVNode (to_str "a") VNODE_FILE 0 1 0 (2 ^ 47 + 4 * 4096 + 16) 0 false demo_root 0 0)
    (MkVNode (to_str "d") VNODE_DIR 0 1 0 0 0 false demo_root 0 demo_file));
    [exact demo_inv3|vm_compute; reflexivity|discriminate|vm_compute; reflexivity|reflexivity|reflexivity| |vm_compute; lia|].
  - intros Ha. pose proof (anc_childless _ _ demo_dir demo_file (fi_tree _ _ _ _ _ demo_inv3) eq_refl Ha). discriminate.
  - intros q Hq. assert (demo_ch3 demo_dir = []) as E by reflexivity. rewrite E in Hq.
    destruct (not_elem_of_nil q Hq).
Defined.

Lemma demo_is_file : is_file 1 demo_fs2 demo_file [].
Proof.
  exists (MkVNode (to_str "a") VNODE_FILE 0 1 0 (2 ^ 47 + 4 * 4096 + 16) 0 false demo_root 0 0).
  split_and!; vm_compute; reflexivity.
Qed.

Lemma ramfs_write_then_read_witness :
  ∃ e s', ramfs_write demo_file [7; 8] 3 demo_fs2 = Some (e, s') ∧
    ((e = -1 ∧ s' = demo_fs2) ∨
     (e = 2 ∧ fs_inv 1 [] [] demo_ch2 s' ∧ is_file 1 s' demo_file (spec_write [] 3 [7; 8]) ∧
      (∀ q c', q ≠ demo_file → is_file 1 demo_fs2 q c' → is_file 1 s' q c') ∧
      ramfs_read demo_file 10 1 s' = Some (4, [0; 0; 7; 8], s'))).
Proof.
  apply (ramfs_write_then_read 1 [] [] demo_ch2 demo_fs2 demo_file [] [7; 8] 3 10 1);
    [exact demo_inv2|exact demo_is_file|cbn [length]; lia ..].
Defined.

Lemma grow_capacity_ends_iff_witness :
  (5000 <= 2 ^ 63 → ∃ k, grow_capacity 65 (2 ^ 8) 5000 = Some k ∧ 5000 <= k) ∧
  (2 ^ 63 < 5000 → ∀ fuel, grow_capacity fuel (2 ^ 8) 5000 = None).
Proof. apply (grow_capacity_ends_iff 8 5000); lia. Defined.
