(* ===== verification/Vfs.v ===== *)
(** * kernel/filesystem/vfs.c: mounts, paths and open files

    The file systems below are reached through two tables of operations, as the
    code reaches them through the pointers [ops] and [file_ops] of a node: [node_ops]
    and [file_ops] give the table at an address, a field is [None] for NULL.  A
    [VFile] is passed in and out, the caller keeping it where it lives. *)
From S2P Require Import Prelude RawMem Pmm Heap VfsTypes Ramfs.
Local Open Scope kernel_scope.

Section Vfs.
Context {H : Type} `{KernelMem H}.

(** [kernel/filesystem/vfs.h 22-30] *)
Record VFileOps := MkFileOps {
  fop_read : option (VFile → Z → M (fs H) (Z * list Z * VFile));
  fop_write : option (VFile → list Z → M (fs H) (Z * VFile));
  fop_ioctl : option (VFile → Z → Z → M (fs H) (Z * VFile));
  fop_close : option (VFile → M (fs H) (Z * VFile));
  fop_poll : option (VFile → M (fs H) Z)
}.
(** [kernel/filesystem/vfs.h 38-53] *)
Record VNodeOps := MkNodeOps {
  op_lookup : option (Z → str → M (fs H) Z);
  op_create : option (Z → str → VNodeType → M (fs H) Z);
  op_open : option (Z → VFile → M (fs H) (Z * VFile));
  op_read : option (Z → Z → Z → M (fs H) (Z * list Z));
  op_write : option (Z → list Z → Z → M (fs H) Z);
  op_readdir : option (Z → Z → M (fs H) (Z * str));
  op_unlink : option (Z → str → M (fs H) Z);
  op_rename : option (Z → Z → str → M (fs H) Z);
  op_release : option (Z → M (fs H) unit)
}.

Context (node_ops : Z → option VNodeOps) (file_ops : Z → option VFileOps).

(** [node->ops && node->ops->f], and the same for [file_ops]. *)
Definition ops_field {A} (p : Z) (f : VNodeOps → option A) : M (fs H) (option A) :=
  if p =? 0 then mret None else t ← lift (node_ops p); mret (f t).
Definition file_field {A} (p : Z) (f : VFileOps → option A) : M (fs H) (option A) :=
  if p =? 0 then mret None else t ← lift (file_ops p); mret (f t).

(** ** Mounts *)

Definition is_root_path (p : str) : bool := bool_decide (p = [slash]).

(** [kernel/filesystem/vfs.c: vfs_root] *)
Definition vfs_root : M (fs H) Z :=
  l ← gets fs_mounts;
  mret (match list_find (λ m, mnt_used m && is_root_path (mnt_path m)) l with
        | Some (_, m) => mnt_root m
        | None => 0
        end).

(** [kernel/filesystem/vfs.c: vfs_mount] *)
Definition vfs_mount (path : str) (fs_root : Z) : M (fs H) Z :=
  l ← gets fs_mounts;
  match list_find (λ m, mnt_used m && bool_decide (mnt_path m = path)) l with
  | Some _ => mret (-1)
  | None =>
      match list_find (λ m, negb (mnt_used m)) l with
      | Some (i, _) =>
          if (VFS_NAME_MAX <=? length path)%nat then mret (-1)
          else modify (set_mounts (<[i := MkMount path fs_root true]> l));; mret 0
      | None => mret (-1)
      end
  end.

(** [kernel/filesystem/vfs.c: vfs_unmount] *)
Definition vfs_unmount (path : str) : M (fs H) Z :=
  if is_root_path path then mret 0
  else
    l ← gets fs_mounts;
    match list_find (λ m, mnt_used m && bool_decide (mnt_path m = path)) l with
    | Some (i, m) => modify (set_mounts (<[i := MkMount (mnt_path m) (mnt_root m) false]> l));; mret (mnt_root m)
    | None => mret 0
    end.

(** [strncmp(path, mpath, mlen) == 0 && (path[mlen] == '/' || path[mlen] == '\0')].
    [kernel/filesystem/vfs.c: find_mount_for 72-73] *)
Definition under_mount (path mpath : str) : bool :=
  bool_decide (take (length mpath) path = mpath) &&
  match drop (length mpath) path with [] => true | c :: _ => bool_decide (c = slash) end.

(** One turn of the search of [find_mount_for].  [kernel/filesystem/vfs.c: find_mount_for 54-81] *)
Definition better_mount (path : str) (best : option VfsMount * nat) (m : VfsMount) : option VfsMount * nat :=
  let '(b, best_len) := best in
  if negb (mnt_used m) then best
  else
    let mlen := length (mnt_path m) in
    if is_root_path (mnt_path m) then
      if (best_len <? mlen)%nat || (match b with None => true | _ => false end) then (Some m, mlen) else best
    else if under_mount path (mnt_path m) && (best_len <? mlen)%nat then (Some m, mlen)
    else best.
(** The mount and the rest of the path below it. [kernel/filesystem/vfs.c: find_mount_for] *)
Definition find_mount_for (mounts : list VfsMount) (path : str) : option (VfsMount * str) :=
  match fst (foldl (better_mount path) (None, 0%nat) mounts) with
  | None => None
  | Some b => Some (b, if is_root_path (mnt_path b) then path else drop (length (mnt_path b)) path)
  end.

(** ** Paths *)

(** Characters up to a slash, the end or the limit of a component: the component and
    the rest. [kernel/filesystem/vfs.c: vfs_resolve 120-123] *)
Fixpoint take_component (n : nat) (p : str) : str * str :=
  match n, p with
  | Datatypes.S n', c :: p' =>
      if bool_decide (c = slash) then ([], p)
      else let '(comp, rest) := take_component n' p' in (c :: comp, rest)
  | _, _ => ([], p)
  end.
(** [kernel/filesystem/vfs.c: vfs_resolve 125-126] *)
Fixpoint skip_slashes (p : str) : str :=
  match p with c :: p' => if bool_decide (c = slash) then skip_slashes p' else p | [] => [] end.

(** The loop of [vfs_resolve] over the rest of the path; each turn uses up at least
    one character, so the length of the path is fuel enough.
    [kernel/filesystem/vfs.c: vfs_resolve 118-139] *)
Fixpoint resolve_loop (fuel : nat) (cur : Z) (p : str) : M (fs H) Z :=
  match p with
  | [] => mret cur
  | _ =>
      match fuel with
      | O => fail
      | Datatypes.S fuel' =>
          let '(comp, rest) := take_component (VFS_NAME_MAX - 1) p in
          let rest := skip_slashes rest in
          if (length comp =? 0)%nat then resolve_loop fuel' cur rest
          else
            n ← vnode cur;
            lk ← ops_field (v_ops n) op_lookup;
            match lk with
            | None => mret 0
            | Some lookup =>
                next ← lookup cur comp;
                if next =? 0 then mret 0 else resolve_loop fuel' next rest
            end
      end
  end.
(** [kernel/filesystem/vfs.c: vfs_resolve] *)
Definition vfs_resolve (path : str) : M (fs H) Z :=
  match path with
  | c :: _ =>
      if negb (bool_decide (c = slash)) then mret 0
      else
        mounts ← gets fs_mounts;
        match find_mount_for mounts path with
        | None => mret 0
        | Some (mnt, remainder) =>
            let remainder := match remainder with
                             | c :: r => if bool_decide (c = slash) then r else remainder
                             | [] => []
                             end in
            resolve_loop (length remainder) (mnt_root mnt) remainder
        end
  | [] => mret 0
  end.

(** The index of the last slash, 0 if there is none. [kernel/filesystem/vfs.c: resolve_parent 150-153] *)
Fixpoint last_slash (p : str) (i last : nat) : nat :=
  match p with
  | [] => last
  | c :: p' => last_slash p' (Datatypes.S i) (if bool_decide (c = slash) then i else last)
  end.
(** The parent node and the leaf name. [kernel/filesystem/vfs.c: resolve_parent] *)
Definition resolve_parent (path : str) : M (fs H) (Z * str) :=
  match path with
  | c :: _ =>
      if negb (bool_decide (c = slash)) then mret (0, [])
      else
        let last := last_slash path 0 0 in
        let leaf := drop (last + 1) path in
        if (length leaf =? 0)%nat || (VFS_NAME_MAX <=? length leaf)%nat then mret (0, [])
        else if (last =? 0)%nat then p ← vfs_resolve [slash]; mret (p, leaf)
        else if (VFS_PATH_MAX <=? last)%nat then mret (0, leaf)
        else p ← vfs_resolve (take last path); mret (p, leaf)
  | [] => mret (0, [])
  end.

(** ** Open files *)

(** The type of a node, for the checks on directories. *)
Definition is_dir (p : Z) : M (fs H) bool := n ← vnode p; mret (bool_decide (v_type n = VNODE_DIR)).

(** Find or create the node to open, NULL on failure. [kernel/filesystem/vfs.c: vfs_open 176-191] *)
Definition open_node (path : str) (flags : Z) : M (fs H) Z :=
  node ← vfs_resolve path;
  if (node =? 0) && negb (Z.land flags VFS_O_CREAT =? 0) then
    pl ← resolve_parent path;
    let '(parent, leaf) := pl in
    if parent =? 0 then mret 0
    else
      d ← is_dir parent;
      if negb d then mret 0
      else
        n ← vnode parent;
        cr ← ops_field (v_ops n) op_create;
        match cr with
        | None => mret 0
        | Some create => create parent leaf VNODE_FILE
        end
  else mret node.

(** [None] is a [file_out] left unset. [kernel/filesystem/vfs.c: vfs_open] *)
Definition vfs_open (path : str) (flags : Z) : M (fs H) (Z * option VFile) :=
  node ← open_node path flags;
  if node =? 0 then mret (-1, None)
  else
    let file := MkVFile node 0 flags 0 in
    n ← vnode node;
    op ← ops_field (v_ops n) op_open;
    r ← match op with None => mret (0, file) | Some f => f node file end;
    let '(rc, file) := r in
    if negb (rc =? 0) then mret (rc, Some file)
    else
      n ← vnode node;
      (if v_file_ops n =? 0 then vnode_upd node (λ n, set_open_count (u32 (v_open_count n + 1)) n)
       else mret tt);;
      mret (0, Some file).

(** [kernel/filesystem/vfs.c: vfs_read] *)
Definition vfs_read (file : VFile) (count : Z) : M (fs H) (Z * list Z * VFile) :=
  if f_node file =? 0 then mret (-1, [], file)
  else
    n ← vnode (f_node file);
    fr ← file_field (v_file_ops n) fop_read;
    match fr with
    | Some f => f file count
    | None =>
        rd ← ops_field (v_ops n) op_read;
        match rd with
        | None => mret (-1, [], file)
        | Some f =>
            r ← f (f_node file) count (f_offset file);
            let '(k, bs) := r in
            mret (k, bs, if 0 <? k then MkVFile (f_node file) (u64 (f_offset file + k)) (f_flags file) (f_private file)
                         else file)
        end
    end.

(** [kernel/filesystem/vfs.c: vfs_write] *)
Definition vfs_write (file : VFile) (buf : list Z) : M (fs H) (Z * VFile) :=
  if f_node file =? 0 then mret (-1, file)
  else
    n ← vnode (f_node file);
    fw ← file_field (v_file_ops n) fop_write;
    match fw with
    | Some f => f file buf
    | None =>
        wr ← ops_field (v_ops n) op_write;
        match wr with
        | None => mret (-1, file)
        | Some f =>
            k ← f (f_node file) buf (f_offset file);
            if 0 <? k then
              let off := u64 (f_offset file + k) in
              n ← vnode (f_node file);
              (if v_size n <? off then vnode_upd (f_node file) (set_size off) else mret tt);;
              mret (k, MkVFile (f_node file) off (f_flags file) (f_private file))
            else mret (k, file)
        end
    end.

(** [kernel/filesystem/vfs.c: vfs_ioctl] *)
Definition vfs_ioctl (file : VFile) (request arg : Z) : M (fs H) (Z * VFile) :=
  if f_node file =? 0 then mret (-1, file)
  else
    n ← vnode (f_node file);
    f ← file_field (v_file_ops n) fop_ioctl;
    match f with Some f => f file request arg | None => mret (-1, file) end.

(** [kernel/filesystem/vfs.c: vfs_close] *)
Definition vfs_close (file : VFile) : M (fs H) (Z * VFile) :=
  if f_node file =? 0 then mret (-1, file)
  else
    let node := f_node file in
    n ← vnode node;
    if negb (v_file_ops n =? 0) then
      f ← file_field (v_file_ops n) fop_close;
      match f with Some f => f file | None => mret (0, file) end
    else
      (if negb (v_open_count n =? 0) then vnode_upd node (λ n, set_open_count (v_open_count n - 1) n)
       else mret tt);;
      n ← vnode node;
      rl ← ops_field (v_ops n) op_release;
      (match rl with
       | Some release => if (v_open_count n =? 0) && v_unlinked n then release node else mret tt
       | None => mret tt
       end);;
      mret (0, MkVFile 0 (f_offset file) (f_flags file) (f_private file)).

(** [kernel/filesystem/vfs.c: vfs_poll] *)
Definition vfs_poll (file : VFile) : M (fs H) Z :=
  if f_node file =? 0 then mret POLLNVAL
  else
    n ← vnode (f_node file);
    f ← file_field (v_file_ops n) fop_poll;
    match f with Some f => f file | None => mret (Z.lor POLLIN POLLOUT) end.

(** ** Directories *)

(** [kernel/filesystem/vfs.c: vfs_mkdir] *)
Definition vfs_mkdir (path : str) : M (fs H) Z :=
  pl ← resolve_parent path;
  let '(parent, leaf) := pl in
  if parent =? 0 then mret 0
  else
    d ← is_dir parent;
    if negb d then mret 0
    else
      n ← vnode parent;
      cr ← ops_field (v_ops n) op_create;
      match cr with
      | None => mret 0
      | Some create =>
          lk ← ops_field (v_ops n) op_lookup;
          c ← match lk with Some lookup => lookup parent leaf | None => mret 0 end;
          if negb (c =? 0) then mret 0 else create parent leaf VNODE_DIR
      end.

(** [kernel/filesystem/vfs.c: vfs_readdir] *)
Definition vfs_readdir (dir i : Z) : M (fs H) (Z * str) :=
  if dir =? 0 then mret (-1, [])
  else
    d ← is_dir dir;
    if negb d then mret (-1, [])
    else
      n ← vnode dir;
      f ← ops_field (v_ops n) op_readdir;
      match f with None => mret (-1, []) | Some f => f dir i end.

Definition stat_of (n : VNode) : VfsStat := MkStat (v_type n) (v_size n) (negb (v_file_ops n =? 0)).
(** [None] is -1. [kernel/filesystem/vfs.c: vfs_stat] *)
Definition vfs_stat (path : str) : M (fs H) (option VfsStat) :=
  node ← vfs_resolve path;
  if node =? 0 then mret None else n ← vnode node; mret (Some (stat_of n)).
(** [kernel/filesystem/vfs.c: vfs_fstat] *)
Definition vfs_fstat (file : VFile) : M (fs H) (option VfsStat) :=
  if f_node file =? 0 then mret None else n ← vnode (f_node file); mret (Some (stat_of n)).

(** [kernel/filesystem/vfs.c: vfs_lseek] *)
Definition vfs_lseek (file : VFile) (offset whence : Z) : M (fs H) (Z * VFile) :=
  if f_node file =? 0 then mret (-1, file)
  else
    n ← vnode (f_node file);
    if negb (v_file_ops n =? 0) then mret (-1, file)
    else
      let base := if whence =? 0 then Some 0
                  else if whence =? 1 then Some (s64 (f_offset file))
                  else if whence =? 2 then Some (s64 (v_size n))
                  else None in
      match base with
      | None => mret (-1, file)
      | Some base =>
          let result := s64 (base + offset) in
          if result <? 0 then mret (-1, file)
          else mret (result, MkVFile (f_node file) result (f_flags file) (f_private file))
      end.

(** [kernel/filesystem/vfs.c: vfs_unlink] *)
Definition vfs_unlink (path : str) : M (fs H) Z :=
  pl ← resolve_parent path;
  let '(parent, leaf) := pl in
  if parent =? 0 then mret (-1)
  else
    d ← is_dir parent;
    if negb d then mret (-1)
    else
      n ← vnode parent;
      f ← ops_field (v_ops n) op_unlink;
      match f with None => mret (-1) | Some unlink => unlink parent leaf end.

(** [for (VNode *p = dir; p; p = p->parent) if (p == node)].
    [kernel/filesystem/vfs.c: vfs_rename 383-385] *)
Fixpoint below_loop (fuel : nat) (p node : Z) : M (fs H) bool :=
  if p =? 0 then mret false
  else if p =? node then mret true
  else match fuel with
  | O => fail
  | Datatypes.S fuel' => n ← vnode p; below_loop fuel' (v_parent n) node
  end.
(** [kernel/filesystem/vfs.c: vfs_rename] *)
Definition vfs_rename (from to : str) : M (fs H) Z :=
  node ← vfs_resolve from;
  if node =? 0 then mret (-1)
  else
    n ← vnode node;
    if v_parent n =? 0 then mret (-1)
    else
      t ← vfs_resolve to;
      if negb (t =? 0) then mret (-1)
      else
        pl ← resolve_parent to;
        let '(dir, leaf) := pl in
        if dir =? 0 then mret (-1)
        else
          dn ← vnode dir;
          if negb (bool_decide (v_type dn = VNODE_DIR)) || negb (v_ops dn =? v_ops n) then mret (-1)
          else
            f ← ops_field (v_ops n) op_rename;
            match f with
            | None => mret (-1)
            | Some rename =>
                fuel ← node_fuel;
                b ← below_loop fuel dir node;
                if (b : bool) then mret (-1) else rename node dir leaf
            end.

(** ** Specification: paths *)

(** The pieces of a path between slashes, and each piece cut into names of at most
    63 characters, as the component buffer cuts it. *)
Fixpoint split_slash (p : str) : list str :=
  match p with
  | [] => [[]]
  | c :: p' =>
      if bool_decide (c = slash) then [] :: split_slash p'
      else match split_slash p' with h :: t => (c :: h) :: t | [] => [[c]] end
  end.
Fixpoint chunks (fuel : nat) (l : str) : list str :=
  match fuel, l with
  | Datatypes.S fuel', _ :: _ => take (VFS_NAME_MAX - 1) l :: chunks fuel' (drop (VFS_NAME_MAX - 1) l)
  | _, _ => []
  end.
Definition components (p : str) : list str := concat (map (λ x, chunks (length x) x) (split_slash p)).

(** One step down the tree, NULL when there is no way. *)
Definition step_down (cur : Z) (name : str) : M (fs H) Z :=
  n ← vnode cur;
  lk ← ops_field (v_ops n) op_lookup;
  match lk with None => mret 0 | Some lookup => lookup cur name end.
Fixpoint walk (cur : Z) (names : list str) : M (fs H) Z :=
  match names with
  | [] => mret cur
  | c :: names' => next ← step_down cur c; if next =? 0 then mret 0 else walk next names'
  end.

(** A mount covers a path. *)
Definition covers (m : VfsMount) (path : str) : bool :=
  mnt_used m && (is_root_path (mnt_path m) || under_mount path (mnt_path m)).

(** ** Lemmas: paths *)
Lemma split_slash_cons p : ∃ h t, split_slash p = h :: t.
Proof.
  induction p as [|c p (h & t & E)]; simpl; [eauto|]. case_bool_decide; [eauto|]. rewrite E. eauto.
Qed.

Lemma split_slash_app a b : split_slash (a ++ slash :: b) = split_slash a ++ split_slash b.
Proof.
  induction a as [|c a IH]; [done|]. simpl. case_bool_decide; rewrite IH; [done|].
  destruct (split_slash_cons a) as (h & t & ->). done.
Qed.

Lemma components_app a b : components (a ++ slash :: b) = components a ++ components b.
Proof. unfold components. by rewrite split_slash_app, map_app, concat_app. Qed.

Lemma components_slash p : components (slash :: p) = components p.
Proof. apply (components_app [] p). Qed.

Lemma components_skip p : components (skip_slashes p) = components p.
Proof.
  induction p as [|c p IH]; [done|]. cbn [skip_slashes]. case_bool_decide; [|done].
  subst. by rewrite components_slash.
Qed.

Lemma skip_slashes_length p : (length (skip_slashes p) <= length p)%nat.
Proof. induction p as [|c p IH]; [done|]. cbn [skip_slashes]. case_bool_decide; simpl; lia. Qed.

Lemma chunks_fuel fuel fuel' l :
  (length l <= fuel)%nat → (length l <= fuel')%nat → chunks fuel l = chunks fuel' l.
Proof.
  revert fuel' l. induction fuel as [|fuel IH]; intros [|fuel'] [|c l] H1 H2; try done; simpl in *; try lia.
  f_equal. apply IH; rewrite length_drop; lia.
Qed.

(** What [take_component] leaves: nothing, a slash, or more of the same piece. *)
Lemma take_component_spec n p c rest h t :
  take_component n p = (c, rest) → split_slash p = h :: t →
  p = c ++ rest ∧ c = take n h ∧
  (if (n <? length h)%nat then split_slash rest = drop n h :: t ∧ rest ≠ [] ∧ hd slash rest ≠ slash
   else (rest = [] ∧ t = []) ∨ ∃ rest', rest = slash :: rest' ∧ split_slash rest' = t).
Proof.
  revert p c rest h t. induction n as [|n IH]; intros p c rest h t Ht Hs.
  - simpl in Ht. injection Ht as <- <-. split_and!; [done|done|].
    destruct p as [|x p]; simpl in Hs; [simplify_eq; simpl; by left|].
    case_bool_decide; [simplify_eq; simpl; right; eauto|].
    destruct (split_slash_cons p) as (h' & t' & E). rewrite E in Hs. simplify_eq. simpl.
    split_and!; [by rewrite bool_decide_false, E|done|done].
  - destruct p as [|x p]; simpl in Ht, Hs; [simplify_eq; split_and!; [done|done|by left]|].
    case_bool_decide; [simplify_eq; split_and!; [done|done|]; simpl; right; eauto|].
    destruct (take_component n p) as [c' r'] eqn:E1. simplify_eq.
    destruct (split_slash_cons p) as (h' & t' & E). rewrite E in Hs. simplify_eq.
    destruct (IH p c' rest h' t E1 E) as (-> & -> & IH'). split_and!; [done|done|]. exact IH'.
Qed.

Lemma component_step p c rest :
  p ≠ [] → take_component (VFS_NAME_MAX - 1) p = (c, rest) →
  components p = (if (length c =? 0)%nat then [] else [c]) ++ components (skip_slashes rest) ∧
  (length (skip_slashes rest) < length p)%nat.
Proof.
  intros Hp Ht. destruct (split_slash_cons p) as (h & t & Hs).
  destruct (take_component_spec _ _ _ _ _ _ Ht Hs) as (Ep & Ec & Hr).
  assert (Hcomp : components p = chunks (length h) h ++ concat (map (λ x, chunks (length x) x) t))
    by (unfold components; by rewrite Hs).
  set (N := (VFS_NAME_MAX - 1)%nat) in *. assert (HN : (0 < N)%nat) by (unfold N, VFS_NAME_MAX; lia).
  destruct (Nat.ltb_spec N (length h)) as [Hlt|Hge].
  - destruct Hr as (Hr & Hne & Hhd). destruct rest as [|x rest]; [done|]. simpl in Hhd.
    assert (Hskip : skip_slashes (x :: rest) = x :: rest) by (cbn [skip_slashes]; by rewrite bool_decide_false).
    assert (Lc : length c = N) by (rewrite Ec, length_take_le; lia).
    rewrite Hskip, Lc. destruct (Nat.eqb_spec N 0); [lia|]. split.
    + rewrite Hcomp. unfold components. rewrite Hr. cbn [map concat].
      destruct h as [|y h]; [simpl in Hlt; lia|]. cbn [length chunks]. fold N. rewrite Ec. cbn [app]. f_equal.
      f_equal. apply chunks_fuel; rewrite !length_drop; simpl; lia.
    + rewrite Ep, length_app. lia.
  - assert (Ech : c = h) by (rewrite Ec; by apply take_ge).
    assert (Hchunk : chunks (length h) h = if (length h =? 0)%nat then [] else [h]).
    { destruct h as [|y h]; [done|]. cbn [length chunks Nat.eqb]. fold N. rewrite take_ge by done.
      rewrite drop_ge by done. by destruct h. }
    rewrite Hcomp, Hchunk, <- Ech. destruct Hr as [[-> ->]|(rest' & -> & <-)].
    + split; [done|]. rewrite app_nil_r in Ep. subst p. simpl. destruct c; [done|simpl; lia].
    + split.
      * rewrite components_skip, components_slash. done.
      * rewrite Ep, length_app. cbn [skip_slashes]. rewrite bool_decide_true by done.
        pose proof (skip_slashes_length rest'). simpl. lia.
Qed.

Lemma resolve_loop_walk fuel cur p s :
  (length p <= fuel)%nat → resolve_loop fuel cur p s = walk cur (components p) s.
Proof.
  revert cur p s. induction fuel as [|fuel IH]; intros cur p s Hl.
  - destruct p; [done|simpl in Hl; lia].
  - destruct p as [|x p]; [done|]. cbn [resolve_loop].
    destruct (take_component (VFS_NAME_MAX - 1) (x :: p)) as [c rest] eqn:E.
    destruct (component_step (x :: p) c rest ltac:(done) E) as [-> Hlt].
    destruct (length c =? 0)%nat; [apply IH; simpl in *; lia|]. cbn [app walk]. unfold step_down, mbind, M_bind.
    destruct (vnode cur s) as [[n s1]|]; [|done]. destruct (ops_field (v_ops n) op_lookup s1) as [[lk s2]|]; [|done].
    destruct lk as [lookup|]; [|done]. destruct (lookup cur c s2) as [[next s3]|]; [|done].
    destruct (next =? 0); [done|]. apply IH. simpl in *. lia.
Qed.

(** Walking further from where a walk ended. *)
Lemma walk_snoc cur a c s :
  walk cur (a ++ [c]) s = match walk cur a s with
                          | Some (x, s1) => if (x =? 0) && negb (length a =? 0)%nat then Some (0, s1)
                                            else step_down x c s1
                          | None => None
                          end.
Proof.
  revert cur s. induction a as [|d a IH]; intros cur s; cbn [app walk length].
  - unfold mbind, M_bind, mret, M_ret. rewrite andb_false_r.
    destruct (step_down cur c s) as [[next s1]|]; [|done]. by destruct (Z.eqb_spec next 0) as [->|].
  - unfold mbind, M_bind. destruct (step_down cur d s) as [[next s1]|]; [|done].
    destruct (Z.eqb_spec next 0) as [->|Hn]; [done|].
    rewrite IH. destruct (walk next a s1) as [[x s2]|] eqn:E; [|done]. rewrite andb_true_r.
    destruct (Nat.eqb_spec (length a) 0) as [El|El]; [|by rewrite andb_true_r].
    apply nil_length_inv in El. subst a. simpl in E. injection E as <- <-.
    rewrite andb_false_r. by destruct (Z.eqb_spec next 0).
Qed.

(** ** Lemmas: mounts *)

(** What the search knows after the mounts [seen]. *)
Definition mount_best (path : str) (seen : list VfsMount) (best : option VfsMount * nat) : Prop :=
  match best with
  | (None, len) => len = 0%nat ∧ ∀ m, m ∈ seen → covers m path = true → mnt_path m = []
  | (Some x, len) => x ∈ seen ∧ covers x path = true ∧ len = length (mnt_path x) ∧ (0 < len)%nat ∧
      ∀ m, m ∈ seen → covers m path = true → (length (mnt_path m) <= len)%nat
  end.

Lemma is_root_length p : is_root_path p = true → length p = 1%nat.
Proof. unfold is_root_path. by intros ->%bool_decide_eq_true. Qed.

Lemma better_mount_best path seen best m :
  mount_best path seen best → mount_best path (seen ++ [m]) (better_mount path best m).
Proof.
  intros I. destruct best as [b len]. unfold better_mount.
  assert (Keep : (covers m path = true → (length (mnt_path m) <= len)%nat) → mount_best path (seen ++ [m]) (b, len)).
  { intros Hm. destruct b as [x|]; simpl in *.
    - destruct I as (Hx & Hc & -> & Hl & Ha). split_and!; [set_solver|done|done|done|].
      intros m' [Hm'|Hm']%elem_of_app Hc'; [auto|]. apply list_elem_of_singleton in Hm' as ->. auto.
    - destruct I as [-> Ha]. split; [done|]. intros m' [Hm'|Hm']%elem_of_app Hc'; [auto|].
      apply list_elem_of_singleton in Hm' as ->. apply nil_length_inv. specialize (Hm Hc'). lia. }
  assert (Take : covers m path = true → (len < length (mnt_path m))%nat →
    mount_best path (seen ++ [m]) (Some m, length (mnt_path m))).
  { intros Hc Hl. simpl. split_and!; [set_solver|done|done|lia|].
    intros m' [Hm'|Hm']%elem_of_app Hc'; [|apply list_elem_of_singleton in Hm' as ->; lia].
    destruct b as [x|]; simpl in I.
    - destruct I as (_ & _ & -> & _ & Ha). specialize (Ha m' Hm' Hc'). lia.
    - destruct I as [-> Ha]. rewrite (Ha m' Hm' Hc'). simpl. lia. }
  unfold covers in *. destruct (mnt_used m) eqn:U; simpl; [|by apply Keep].
  destruct (is_root_path (mnt_path m)) eqn:R.
  - pose proof (is_root_length _ R) as L. destruct (Nat.ltb_spec len (length (mnt_path m))) as [Hlt|Hge]; simpl.
    + by apply Take.
    + destruct b; [apply Keep; intros; lia|]. simpl in I. lia.
  - destruct (under_mount path (mnt_path m)) eqn:C; simpl.
    + destruct (Nat.ltb_spec len (length (mnt_path m))); [by apply Take|apply Keep; intros; lia].
    + apply Keep. intros Hc. simpl in Hc. done.
Qed.

Lemma fold_best path l : mount_best path l (foldl (better_mount path) (None, 0%nat) l).
Proof.
  induction l as [|m l IH] using rev_ind; [simpl; split; [done|by intros m ?%elem_of_nil]|].
  rewrite foldl_app. simpl. by apply better_mount_best.
Qed.

(** find_mount_for picks, among the mounts in use whose path is the root or a prefix
    of the given path ending at a component boundary, one with the longest path, and
    returns the rest of the path below it; it finds none only if none has a
    non-empty path that covers. *)
Lemma find_mount_for_longest (mounts : list VfsMount) (path : str) :
  match find_mount_for mounts path with
  | Some (b, rest) =>
      b ∈ mounts ∧ covers b path = true ∧
      (∀ m, m ∈ mounts → covers m path = true → (length (mnt_path m) <= length (mnt_path b))%nat) ∧
      (if is_root_path (mnt_path b) then rest = path else path = mnt_path b ++ rest)
  | None => ∀ m, m ∈ mounts → covers m path = true → mnt_path m = []
  end.
Proof.
  unfold find_mount_for. pose proof (fold_best path mounts) as I.
  destruct (foldl (better_mount path) (None, 0%nat) mounts) as [[b|] len]; simpl in *; [|apply I].
  destruct I as (Hb & Hc & -> & _ & Ha). split_and!; [done|done|done|].
  destruct (is_root_path (mnt_path b)) eqn:R; [done|].
  unfold covers in Hc. rewrite R in Hc. apply andb_prop in Hc as [_ Hc]. simpl in Hc.
  unfold under_mount in Hc. apply andb_prop in Hc as [Hc%bool_decide_eq_true _].
  rewrite <- Hc at 1. by rewrite take_drop.
Qed.

(** The nodes a path goes through below its mount: strip one slash, cut into names. *)
Definition walk_path (path : str) : M (fs H) Z :=
  mounts ← gets fs_mounts;
  match find_mount_for mounts path with
  | None => mret 0
  | Some (mnt, rest) => walk (mnt_root mnt) (components rest)
  end.

Lemma vfs_resolve_eq path s : vfs_resolve (slash :: path) s = walk_path (slash :: path) s.
Proof.
  unfold vfs_resolve, walk_path. rewrite bool_decide_true by done. change (negb true) with false. cbv iota.
  unfold mbind, M_bind, gets. cbv beta. destruct (find_mount_for (fs_mounts s) (slash :: path)) as [[mnt rest]|]; [|reflexivity].
  destruct rest as [|c rest]; [reflexivity|]. case_bool_decide as E.
  - subst c. rewrite resolve_loop_walk by done. by rewrite components_slash.
  - by rewrite resolve_loop_walk.
Qed.

(** C32 (equivalence) [vfs_resolve, resolve_loop, take_component, skip_slashes, find_mount_for]
    In every state and over any file systems, vfs_resolve of a path is the walk from
    the root of the covering mount through the path's components, looked up one after
    the other; repeated and trailing slashes do not matter, the scan always ends, a
    path that does not begin with a slash resolves to NULL, and a component longer
    than 63 characters is looked up in 63-character pieces. *)
Theorem vfs_resolve_is_walk (path : str) (s : fs H) :
  vfs_resolve path s = match path with
                       | c :: _ => if bool_decide (c = slash) then walk_path path s else Some (0, s)
                       | [] => Some (0, s)
                       end.
Proof.
  destruct path as [|c path]; [done|]. case_bool_decide as E; [|].
  - subst c. apply vfs_resolve_eq.
  - unfold vfs_resolve. by rewrite bool_decide_false.
Qed.

(** ** Lemmas: the parent of a path *)
Lemma last_slash_spec p i last :
  let k := last_slash p i last in
  (k = last ∧ slash ∉ p) ∨
  ∃ j, k = (i + j)%nat ∧ p = take j p ++ slash :: drop (j + 1) p ∧ (slash ∉ drop (j + 1) p) ∧ (j < length p)%nat.
Proof.
  revert i last. induction p as [|c p IH]; intros i last; simpl; [left; split; [done|apply not_elem_of_nil]|].
  destruct (IH (Datatypes.S i) (if bool_decide (c = slash) then i else last)) as [[E Hn]|(j & E & Hp & Hn & Hl)].
  - rewrite E. case_bool_decide as Hc.
    + right. exists 0%nat. subst c. rewrite Nat.add_0_r. split_and!; [done|done|done|lia].
    + left. split; [done|]. apply not_elem_of_cons. split; [congruence|done].
  - right. exists (Datatypes.S j). rewrite E. split_and!; [lia|simpl; by f_equal|done|lia].
Qed.

Lemma split_slash_none p : slash ∉ p → split_slash p = [p].
Proof.
  induction p as [|c p IH]; [done|]. intros [Hc Hp]%not_elem_of_cons. simpl.
  rewrite bool_decide_false by done. by rewrite IH.
Qed.

Lemma components_leaf leaf :
  slash ∉ leaf → (0 < length leaf < VFS_NAME_MAX)%nat → components leaf = [leaf].
Proof.
  intros Hs Hl. unfold components. rewrite split_slash_none by done. simpl. rewrite app_nil_r.
  unfold VFS_NAME_MAX in Hl. destruct leaf as [|c l]; [simpl in Hl; lia|]. cbn [chunks length].
  unfold VFS_NAME_MAX. rewrite take_ge by (simpl in *; lia). rewrite drop_ge by (simpl in *; lia).
  by destruct (length l).
Qed.

(** A path without its last component, "/" at the top. *)
Definition parent_path (par : str) : str := if decide (par = []) then [slash] else par.

Section ParentOf.
Context (par leaf : str).
Context (Hleaf : slash ∉ leaf) (Hlen : (0 < length leaf < VFS_NAME_MAX)%nat).
Let path : str := par ++ slash :: leaf.

Lemma under_mount_beyond mp :
  (length par < length mp)%nat → mp ≠ path → under_mount path mp = false.
Proof.
  intros Hl Hne. unfold under_mount. case_bool_decide as E; [|done]. simpl.
  assert (Hp : length mp = length path ∨ (length mp < length path)%nat).
  { apply (f_equal length) in E. rewrite length_take in E. lia. }
  destruct Hp as [Hp|Hp].
  - exfalso. apply Hne. rewrite <- E, Hp. by rewrite take_ge by done.
  - assert (Hd : drop (length mp) path = drop (length mp - length par - 1) leaf).
    { unfold path. rewrite drop_app_ge by lia.
      destruct (length mp - length par)%nat as [|k] eqn:Ek; [lia|]. simpl. f_equal. lia. }
    rewrite Hd. destruct (drop _ leaf) as [|c l] eqn:El.
    + apply (f_equal length) in El. rewrite length_drop in El. simpl in El.
      unfold path in Hp. rewrite length_app in Hp. simpl in Hp. lia.
    + rewrite bool_decide_false; [done|]. intros ->. apply Hleaf.
      rewrite <- (take_drop (length mp - length par - 1) leaf), El. set_solver.
Qed.

Lemma under_mount_parent mp :
  mp ≠ path → mp ≠ [] → is_root_path mp = false → under_mount path mp = under_mount (parent_path par) mp.
Proof.
  intros Hne Hnil Hroot. destruct (decide (length par < length mp)%nat) as [Hl|Hl].
  - rewrite under_mount_beyond by done. symmetry. unfold under_mount, parent_path.
    destruct (decide (par = [])) as [->|Hpar].
    + case_bool_decide as E; [|done]. exfalso. unfold is_root_path in Hroot.
      apply bool_decide_eq_false in Hroot. apply Hroot. rewrite <- E. rewrite take_ge; [done|].
      simpl in *. lia.
    + case_bool_decide as E; [|done]. apply (f_equal length) in E. rewrite length_take in E. lia.
  - assert (Hpar : par ≠ []) by (intros ->; destruct mp; [done|simpl in Hl; lia]).
    unfold parent_path. rewrite decide_False by done. unfold under_mount, path.
    rewrite take_app_le, drop_app_le by lia. f_equal.
    by destruct (drop (length mp) par).
Qed.

Lemma better_mount_parent best m :
  (mnt_used m = true → mnt_path m ≠ path) → better_mount path best m = better_mount (parent_path par) best m.
Proof.
  intros Hne. destruct best as [b len]. unfold better_mount. destruct (mnt_used m); [|done]. simpl.
  destruct (is_root_path (mnt_path m)) eqn:R; [done|].
  destruct (decide (mnt_path m = [])) as [E|E].
  - rewrite E. simpl. by rewrite !andb_false_r.
  - rewrite under_mount_parent; auto.
Qed.

Lemma find_mount_parent mounts :
  (∀ m, m ∈ mounts → mnt_used m = true → mnt_path m ≠ path) →
  match find_mount_for mounts (parent_path par) with
  | None => find_mount_for mounts path = None
  | Some (b, rest) => ∃ rest', find_mount_for mounts path = Some (b, rest') ∧
                        components rest' = components rest ++ [leaf]
  end.
Proof.
  intros Hne. unfold find_mount_for.
  assert (E : ∀ best, foldl (better_mount path) best mounts = foldl (better_mount (parent_path par)) best mounts).
  { revert Hne. induction mounts as [|m l IH]; intros Hne best; [done|]. simpl.
    rewrite better_mount_parent by (apply Hne; by left). apply IH. intros m' Hm'. apply Hne. by right. }
  rewrite E. pose proof (fold_best (parent_path par) mounts) as I.
  destruct (foldl (better_mount (parent_path par)) (None, 0%nat) mounts) as [[b|] len]; simpl; [|done].
  destruct I as (Hb & Hc & -> & Hpos & _). eexists. split; [done|].
  assert (Hcp : components path = components par ++ [leaf]).
  { unfold path. by rewrite components_app, (components_leaf leaf). }
  destruct (is_root_path (mnt_path b)) eqn:R.
  - rewrite Hcp. unfold parent_path. by destruct (decide (par = [])) as [->|].
  - unfold covers in Hc. rewrite R in Hc. apply andb_prop in Hc as [_ Hc]. simpl in Hc.
    unfold under_mount in Hc. apply andb_prop in Hc as [Hc%bool_decide_eq_true _].
    apply (f_equal length) in Hc as Hl. rewrite length_take in Hl. unfold parent_path in *.
    destruct (decide (par = [])) as [->|Hpar].
    + exfalso. unfold is_root_path in R. apply bool_decide_eq_false in R. apply R.
      rewrite <- Hc. rewrite take_ge; [done|]. simpl in *. lia.
    + unfold path. rewrite drop_app_le by lia. by rewrite components_app, (components_leaf leaf).
Qed.
End ParentOf.

(** ** Lemmas: the walk on a ramfs tree *)

(** The table [ramfs_create_root] fills in, for the table at address [R].
    [kernel/filesystem/ramfs.c: ramfs_create_root 199-207] *)
Definition ramfs_table (R : Z) : VNodeOps :=
  MkNodeOps (Some ramfs_lookup) (Some (ramfs_create R)) None (Some ramfs_read) (Some ramfs_write)
    (Some ramfs_readdir) (Some ramfs_unlink) (Some ramfs_rename) (Some ramfs_release).

Section OnRamfs.
Context {KL : KernelMemLaws H} (R : Z).
Context (HR : R ≠ 0) (Htab : node_ops R = Some (ramfs_table R)).

(** Every node is a ramfs node and every mount in use has a root. *)
Definition all_ramfs (s : fs H) : Prop := ∀ p n, fs_nodes s !! p = Some n → v_ops n = R.
Definition mounts_ok (s : fs H) : Prop :=
  ∀ m, m ∈ fs_mounts s → mnt_used m = true → is_Some (fs_nodes s !! mnt_root m).

Context (runs blocks : list (Z * Z)).

Lemma ops_field_wp {A} n (f : VNodeOps → option A) (Q : option A → fs H → Prop) s :
  v_ops n = R → Q (f (ramfs_table R)) s → wp (ops_field (v_ops n) f) Q s.
Proof.
  intros E HQ. unfold ops_field. rewrite E. destruct (Z.eqb_spec R 0); [done|]. wp_steps.
  eapply wp_lift; [exact Htab|]. by wp_steps.
Qed.

Lemma step_down_wp ch cur n name s (Q : Z → fs H → Prop) :
  tree (fs_nodes s) ch → all_ramfs s → fs_nodes s !! cur = Some n →
  (∀ p, p ∈ ch cur → name_of (fs_nodes s) p = name → Q p s) →
  ((∀ p, p ∈ ch cur → name_of (fs_nodes s) p ≠ name) → Q 0 s) →
  wp (step_down cur name) Q s.
Proof.
  intros T A Hn H1 H2. unfold step_down. wp_steps. eapply wp_vnode; [done|]. wp_steps.
  apply ops_field_wp; [by eapply A|]. simpl. by eapply ramfs_lookup_wp.
Qed.

Lemma walk_wp ch cur n names s :
  tree (fs_nodes s) ch → all_ramfs s → fs_nodes s !! cur = Some n →
  wp (walk cur names) (λ p s', s' = s ∧ (p = 0 ∨ is_Some (fs_nodes s !! p))) s.
Proof.
  intros T A. revert cur n. induction names as [|c names IH]; intros cur n Hn; cbn [walk].
  - wp_steps. split; [done|right; eauto].
  - wp_steps. eapply step_down_wp; [done|done|done| |].
    + intros p Hp _. destruct (tree_child T p cur Hp) as (np & _ & Hnp & _ & _ & Hp0 & _).
      destruct (Z.eqb_spec p 0); [done|]. by eapply IH.
    + intros _. simpl. wp_steps. by auto.
Qed.

Lemma vfs_resolve_wp ch path s :
  tree (fs_nodes s) ch → all_ramfs s → mounts_ok s →
  wp (vfs_resolve path) (λ p s', s' = s ∧ (p = 0 ∨ is_Some (fs_nodes s !! p))) s.
Proof.
  intros T A Mo. destruct path as [|c path]; [simpl; wp_steps; auto|].
  destruct (decide (c = slash)) as [->|Hc].
  2:{ unfold vfs_resolve. rewrite bool_decide_false by done. simpl. wp_steps. auto. }
  unfold wp. rewrite vfs_resolve_eq. fold (wp (walk_path (slash :: path)) (λ p s', s' = s ∧ (p = 0 ∨ is_Some (fs_nodes s !! p))) s).
  unfold walk_path. wp_steps. pose proof (fold_best (slash :: path) (fs_mounts s)) as I. unfold find_mount_for.
  destruct (foldl _ _ _) as [[b|] len]; simpl; [|wp_steps; auto].
  destruct I as (Hb & Hcov & _). unfold covers in Hcov. apply andb_prop in Hcov as [Hu _].
  destruct (Mo b Hb Hu) as [n Hn]. by eapply walk_wp.
Qed.

(** ** Lemmas: going up *)
Lemma anc_trans m a b c : anc m a b → anc m b c → anc m a c.
Proof. induction 1; [done|]. intros. eapply anc_up; eauto. Qed.

Lemma anc_irrefl m p q : Acc (parent_of m) p → parent_of m q p → anc m q p → False.
Proof.
  intros A. revert q. induction A as [p _ IH]. intros q Hq Ha. inversion Ha as [|x r a Hr Hra]; subst.
  - by apply (IH p Hq p Hq).
  - apply (IH q Hq r Hr). eapply anc_trans; [exact Hra|]. eapply anc_up; [exact Hq|]. constructor.
Qed.

Lemma below_loop_wp ch fuel V p node s :
  tree (fs_nodes s) ch → node ≠ 0 → (p = 0 ∨ is_Some (fs_nodes s !! p)) →
  NoDup V → (∀ v, v ∈ V → is_Some (fs_nodes s !! v) ∧ ∃ q, parent_of (fs_nodes s) q v ∧ anc (fs_nodes s) q p) →
  (size (fs_nodes s) < length V + fuel)%nat →
  wp (below_loop fuel p node) (λ b s', s' = s ∧ (b = false → ¬ anc (fs_nodes s) p node)) s.
Proof.
  intros T Hnode. revert V p. induction fuel as [|fuel IH]; intros V p Hp ND HV Hf; cbn [below_loop];
    (destruct (Z.eqb_spec p 0) as [->|Hp0];
     [wp_steps; split; [done|]; intros _ Ha; inversion Ha as [|x q a (n & Hn & _)]; subst; [done|];
      by rewrite (t_null _ _ T) in Hn|]);
    (destruct (Z.eqb_spec p node) as [->|Hpn]; [by wp_steps|]);
    destruct Hp as [?|[n Hn]]; try done;
    (assert (HpV : p ∉ V) by
       (intros Hin; destruct (HV p Hin) as (_ & q & Hq & Ha); by apply (anc_irrefl _ p q (t_acyclic _ _ T p))));
    (assert (HL : (length (p :: V) <= size (fs_nodes s))%nat) by
      (rewrite <- (size_list_to_set (C := gset Z)) by (by constructor); rewrite <- size_dom;
       apply subseteq_size; intros x [->|Hx]%elem_of_list_to_set%elem_of_cons; apply elem_of_dom; [eauto|by apply HV])).
  - simpl in HL. lia.
  - wp_steps. eapply wp_vnode; [done|].
    assert (Hpar : v_parent n ≠ 0 → parent_of (fs_nodes s) (v_parent n) p) by (intros ?; by exists n).
    destruct (decide (v_parent n = 0)) as [E|E].
    + rewrite E. destruct fuel; simpl; wp_steps; (split; [done|]); intros _ Ha;
        inversion Ha as [|x q a (n' & Hn' & E' & Hq)]; subst; congruence.
    + eapply wp_mono; [apply (IH (p :: V))|].
      * right. pose proof (tree_parent_in T p n Hn E) as Hin.
        destruct (tree_child T p _ Hin) as (_ & nd & _ & Hnd & _). eauto.
      * by constructor.
      * intros v [->|Hv]%elem_of_cons.
        -- split; [eauto|]. exists (v_parent n). split; [auto|constructor].
        -- destruct (HV v Hv) as (? & q & Hq & Ha). split; [done|]. exists q. split; [done|].
           eapply anc_trans; [exact Ha|]. eapply anc_up; [auto|constructor].
      * simpl. lia.
      * intros b s' [-> Hb]. split; [done|]. intros Eb Ha. apply (Hb Eb).
        inversion Ha as [|x q a (n' & Hn' & E' & Hq)]; subst; [done|]. by simplify_eq.
Qed.

(** What [resolve_parent] finds. *)
Lemma resolve_parent_wp ch path s :
  tree (fs_nodes s) ch → all_ramfs s → mounts_ok s →
  wp (resolve_parent path) (λ r s', s' = s ∧ (r.1 = 0 ∨
    is_Some (fs_nodes s !! r.1) ∧ ∃ par, path = par ++ slash :: r.2 ∧ (slash ∉ r.2) ∧
      (0 < length r.2 < VFS_NAME_MAX)%nat ∧ hd slash par = slash ∧
      vfs_resolve (parent_path par) s = Some (r.1, s))) s.
Proof.
  intros T A Mo. unfold resolve_parent. destruct path as [|c path]; [simpl; wp_steps; auto|].
  destruct (decide (c = slash)) as [->|Hc].
  2:{ rewrite bool_decide_false by done. simpl. wp_steps. auto. }
  rewrite bool_decide_true by done. simpl negb. cbv iota zeta.
  set (path' := slash :: path). set (k := last_slash path' 0 0).
  destruct (last_slash_spec path' 0 0) as [[_ Hn]|(j & E & Hp & Hn & Hl)].
  { exfalso. apply Hn. by left. }
  fold k in E. simpl in E. subst j.
  destruct (Nat.eqb_spec (length (drop (k + 1) path')) 0); cbn [orb]; [wp_steps; auto|].
  destruct (Nat.leb_spec VFS_NAME_MAX (length (drop (k + 1) path'))); [wp_steps; auto|].
  assert (Done : ∀ q, vfs_resolve (parent_path (take k path')) s = Some (q, s) → is_Some (fs_nodes s !! q) →
    ∃ par, path' = par ++ slash :: drop (k + 1) path' ∧ (slash ∉ drop (k + 1) path') ∧
      (0 < length (drop (k + 1) path') < VFS_NAME_MAX)%nat ∧ hd slash par = slash ∧
      vfs_resolve (parent_path par) s = Some (q, s)).
  { intros q Hq Hs. exists (take k path'). split_and!; try done; try lia. unfold path'. by case k. }
  assert (Res : ∀ q, wp (vfs_resolve q) (λ p s', s' = s ∧ (p = 0 ∨ is_Some (fs_nodes s !! p)) ∧
                   vfs_resolve q s = Some (p, s)) s).
  { intros q. pose proof (vfs_resolve_wp ch q s T A Mo) as W. unfold wp in *.
    destruct (vfs_resolve q s) as [[p s']|]; [|done]. destruct W as [-> W]. done. }
  destruct (Nat.eqb_spec k 0) as [Ek|Ek].
  - wp_steps. eapply wp_mono; [apply Res|]. intros q s' (-> & Hq & Er). wp_steps. split; [done|].
    destruct Hq as [->|Hq]; [by left|right]. split; [done|]. apply Done; [|done].
    rewrite Ek. exact Er.
  - destruct (Nat.leb_spec VFS_PATH_MAX k); [wp_steps; auto|].
    wp_steps. eapply wp_mono; [apply Res|]. intros q s' (-> & Hq & Er). wp_steps. split; [done|].
    destruct Hq as [->|Hq]; [by left|right]. split; [done|]. apply Done; [|done].
    unfold parent_path. rewrite decide_False; [done|]. intros Et. apply (f_equal length) in Et.
    rewrite length_take in Et. simpl in Et. unfold path' in Hl. simpl in *. lia.
Qed.

(** When a path does not resolve, its parent has no child of that name. *)
Lemma leaf_free ch par leaf dir nd s :
  tree (fs_nodes s) ch → all_ramfs s → mounts_ok s →
  (slash ∉ leaf) → (0 < length leaf < VFS_NAME_MAX)%nat → hd slash par = slash →
  vfs_resolve (parent_path par) s = Some (dir, s) → dir ≠ 0 → fs_nodes s !! dir = Some nd →
  vfs_resolve (par ++ slash :: leaf) s = Some (0, s) →
  ∀ p, p ∈ ch dir → name_of (fs_nodes s) p ≠ leaf.
Proof.
  intros T A Mo Hs Hl Hhd Hdir Hd0 Hnd Hto p Hp Hname.
  set (path := par ++ slash :: leaf) in *.
  assert (Hpath : ∃ r, path = slash :: r) by (destruct par as [|x par]; simpl in *; subst; by eexists).
  assert (Hpar : ∃ r, parent_path par = slash :: r)
    by (unfold parent_path; destruct par as [|x par]; simpl in *; subst; by eexists).
  destruct Hpath as [r1 E1], Hpar as [r2 E2].
  rewrite E2, vfs_resolve_eq, <- E2 in Hdir. rewrite E1, vfs_resolve_eq, <- E1 in Hto.
  unfold walk_path, mbind, M_bind, gets in Hdir, Hto.
  destruct (decide (Exists (λ m, mnt_used m = true ∧ mnt_path m = path) (fs_mounts s)))
    as [(m & Hm & Hu & Em)%list.Exists_exists|Hno].
  - (* a mount at the path itself: resolving it gives its root *)
    pose proof (fold_best path (fs_mounts s)) as I. unfold find_mount_for in Hto.
    assert (Hcov : covers m path = true).
    { unfold covers, under_mount. rewrite Hu, Em. rewrite take_ge, drop_ge by done.
      rewrite bool_decide_true by done. by rewrite orb_true_r. }
    destruct (foldl _ _ _) as [[b|] len]; simpl in *.
    2:{ destruct I as [_ I]. specialize (I m Hm Hcov). rewrite Em, E1 in I. done. }
    destruct I as (Hb & Hbc & -> & _ & Hmax). specialize (Hmax m Hm Hcov). rewrite Em in Hmax.
    unfold covers in Hbc. apply andb_prop in Hbc as [Hbu Hbc]. destruct (Mo b Hb Hbu) as [nb Hnb].
    assert (Hbl : is_root_path (mnt_path b) = false).
    { destruct (is_root_path (mnt_path b)) eqn:Rt; [|done]. apply is_root_length in Rt.
      unfold path in Hmax. rewrite length_app in Hmax. simpl in Hmax. lia. }
    rewrite Hbl in Hbc, Hto. simpl in Hbc. rewrite drop_ge in Hto by done. 
    unfold mret, M_ret in Hto. injection Hto as Hz. rewrite Hz, (t_null _ _ T) in Hnb. done.
  - pose proof (find_mount_parent par leaf Hs Hl (fs_mounts s)) as F.
    fold path in F. specialize (F ltac:(intros m Hm Hu Em; apply Hno, list.Exists_exists; eauto)).
    destruct (find_mount_for (fs_mounts s) (parent_path par)) as [[b rest]|]; [|injection Hdir as <-; done].
    destruct F as (rest' & F & Ec). rewrite F, Ec, walk_snoc, Hdir in Hto.
    destruct (Z.eqb_spec dir 0); [done|]. simpl in Hto.
    assert (W : wp (step_down dir leaf) (λ q s', s' = s ∧ q ≠ 0) s).
    { eapply step_down_wp; [done|done|done| |].
      - intros q Hq _. split; [done|]. by destruct (tree_child T q dir Hq) as (?&?&?&?&?&?&?).
      - intros Hn. by destruct (Hn p Hp). }
    unfold wp in W. rewrite Hto in W. by destruct W.
Qed.

(** ** Lemmas: renaming and closing *)
Lemma vfs_rename_wp (ch : Z → list Z) (from to : str) (s : fs H) :
  fs_inv R runs blocks ch s → all_ramfs s → mounts_ok s →
  wp (vfs_rename from to) (λ e s',
    (e = -1 ∧ s' = s) ∨
    (e = 0 ∧ ∃ node n d dir leaf par l1 l2,
       vfs_resolve from s = Some (node, s) ∧ to = par ++ slash :: leaf ∧
       vfs_resolve (parent_path par) s = Some (dir, s) ∧ ch d = l1 ++ node :: l2 ∧
       fs_inv R runs blocks (moved ch d dir node l1 l2) s' ∧ name_of (fs_nodes s') node = leaf ∧
       fs_mounts s' = fs_mounts s ∧ refs_kept (λ q, q = node) (fs_nodes s) (fs_nodes s') ∧
       fs_nodes s !! node = Some n ∧ v_parent n ≠ 0 ∧ dir ≠ 0 ∧
       ∃ n', fs_nodes s' !! node = Some n' ∧ v_parent n' = dir ∧ same_refs n (set_parent (v_parent n) n'))) s.
Proof.
  intros I A Mo. pose proof (fi_tree _ _ _ _ _ I) as T.
  assert (Res : ∀ q, wp (vfs_resolve q) (λ p s', s' = s ∧ (p = 0 ∨ is_Some (fs_nodes s !! p)) ∧
                   vfs_resolve q s = Some (p, s)) s).
  { intros q. pose proof (vfs_resolve_wp ch q s T A Mo) as W. unfold wp in *.
    destruct (vfs_resolve q s) as [[p s']|]; [|done]. destruct W as [-> W]. done. }
  unfold vfs_rename. wp_steps. eapply wp_mono; [apply Res|]. intros node ? (-> & Hnode & Efrom).
  destruct (Z.eqb_spec node 0) as [|Hn0]; [wp_steps; by left|]. destruct Hnode as [|[n Hn]]; [done|].
  wp_steps. eapply wp_vnode; [done|]. destruct (Z.eqb_spec (v_parent n) 0) as [|Hp]; [wp_steps; by left|].
  wp_steps. eapply wp_mono; [apply Res|]. intros t ? (-> & _ & Eto).
  destruct (Z.eqb_spec t 0) as [->|]; simpl; [|wp_steps; by left].
  wp_steps. eapply wp_mono; [by eapply resolve_parent_wp|]. intros [dir leaf] ? [-> Hdir]. simpl in Hdir.
  destruct (Z.eqb_spec dir 0) as [|Hd0]; [wp_steps; by left|].
  destruct Hdir as [|([nd Hnd] & par & Epath & Hs & Hl & Hhd & Epar)]; [done|].
  wp_steps. eapply wp_vnode; [done|]. case_bool_decide as Hty; simpl; [|wp_steps; by left].
  destruct (Z.eqb_spec (v_ops nd) (v_ops n)); simpl; [|wp_steps; by left].
  wp_steps. apply ops_field_wp; [by eapply A|]. simpl. unfold node_fuel. wp_steps.
  eapply wp_mono; [apply (below_loop_wp ch _ [] dir node s T Hn0)|].
  { right; eauto. } { constructor. } { by intros v ?%elem_of_nil. } { simpl. lia. }
  intros b ? [-> Hb]. destruct b; [wp_steps; by left|].
  eapply wp_mono; [apply (ramfs_rename_wp R runs blocks ch s node n dir nd leaf I Hn Hp Hnd Hty)|].
  - by eapply A.
  - by apply Hb.
  - lia.
  - subst to. eapply (leaf_free ch par leaf dir nd); eauto.
  - intros ? s' (-> & Em & _ & l1 & l2 & El & I' & n' & Hn' & En & Ep & _ & _ & K & Er). right. split; [done|].
    exists node, n, (v_parent n), dir, leaf, par, l1, l2. split_and!; try done; [by rewrite (name_of_eq _ n')|].
    by exists n'.
Qed.

Lemma vfs_close_wp (ch : Z → list Z) (file : VFile) (n : VNode) (s : fs H) :
  fs_inv R runs blocks ch s → fs_nodes s !! f_node file = Some n → v_ops n = R → v_file_ops n = 0 →
  0 <= v_open_count n → (v_unlinked n = true → v_parent n = 0 ∧ ch (f_node file) = []) →
  wp (vfs_close file) (λ r s', r.1 = 0 ∧ f_node r.2 = 0 ∧ fs_mounts s' = fs_mounts s ∧ fs_inv R runs blocks ch s' ∧
    if v_unlinked n && (v_open_count n <=? 1) then fs_nodes s' = delete (f_node file) (fs_nodes s)
    else fs_nodes s' = <[f_node file := set_open_count (Z.max 0 (v_open_count n - 1)) n]> (fs_nodes s)) s.
Proof.
  intros I Hn Ho Hfo Hc Hun.
  pose proof (tree_nonzero (fi_tree _ _ _ _ _ I) _ _ Hn) as Hz.
  unfold vfs_close. destruct (Z.eqb_spec (f_node file) 0); [done|]. wp_steps. eapply wp_vnode; [done|].
  rewrite Hfo. simpl. wp_steps.
  set (n' := set_open_count (Z.max 0 (v_open_count n - 1)) n).
  set (s1 := set_nodes (<[f_node file := n']> (fs_nodes s)) s).
  assert (I1 : fs_inv R runs blocks ch s1) by by eapply fs_inv_same_node.
  assert (Hdec : wp (if negb (v_open_count n =? 0)
      then vnode_upd (f_node file) (λ n, set_open_count (v_open_count n - 1) n) else mret tt) (λ _ t, t = s1) s).
  { unfold s1, n'. destruct (Z.eqb_spec (v_open_count n) 0) as [E|E]; simpl; wp_steps.
    - replace (Z.max 0 (v_open_count n - 1)) with (v_open_count n) by lia.
      assert (set_open_count (v_open_count n) n = n) as -> by by destruct n.
      rewrite insert_id by done. by destruct s.
    - eapply wp_vnode_upd; [done|]. by rewrite Z.max_r by lia. }
  eapply wp_mono; [exact Hdec|]. intros [] ? ->. wp_steps.
  assert (Hn1 : fs_nodes s1 !! f_node file = Some n') by apply lookup_insert_eq.
  eapply wp_vnode; [exact Hn1|]. wp_steps. apply ops_field_wp; [done|]. simpl. 
  assert (Hcond : (Z.max 0 (v_open_count n - 1) =? 0) = (v_open_count n <=? 1)).
  { destruct (Z.eqb_spec (Z.max 0 (v_open_count n - 1)) 0), (Z.leb_spec (v_open_count n) 1); lia || done. }
  rewrite Hcond, andb_comm. wp_steps. destruct (v_unlinked n && (v_open_count n <=? 1)) eqn:E; wp_steps.
  - apply andb_prop in E as [Eu _]. destruct (Hun Eu) as [Hp Hch].
    eapply (ramfs_release_wp R runs blocks ch (f_node file) n'); [exact I1|done|done|done|done|].
    intros s' I' E' M' _. wp_steps. split_and!; [done|done|done|done|]. rewrite E'. simpl. by rewrite delete_insert_eq.
  - split_and!; done.
Qed.

(** ** Properties on ramfs *)

(** C35 (safety) [vfs_rename, below_loop, resolve_parent, last_slash, vfs_resolve, ramfs_rename]
    vfs_rename over a well-formed ramfs always returns: the walk up the parents ends.
    It fails with -1 and changes nothing, or moves the node named by the old path to
    the front of the new path's directory under the new leaf name, keeping the tree
    well formed: no name twice in a directory and no directory below itself. *)
Theorem vfs_rename_safe (ch : Z → list Z) (from to : str) (s : fs H)
  (I : fs_inv R runs blocks ch s) (A : all_ramfs s) (Mo : mounts_ok s) :
  ∃ e s', vfs_rename from to s = Some (e, s') ∧
    ((e = -1 ∧ s' = s) ∨
     (e = 0 ∧ ∃ node d dir leaf par l1 l2,
        vfs_resolve from s = Some (node, s) ∧ to = par ++ slash :: leaf ∧
        vfs_resolve (parent_path par) s = Some (dir, s) ∧ ch d = l1 ++ node :: l2 ∧
        fs_inv R runs blocks (moved ch d dir node l1 l2) s' ∧ name_of (fs_nodes s') node = leaf)).
Proof.
  apply wp_run. eapply wp_mono; [by apply (vfs_rename_wp ch from to s)|].
  intros e s' [?|(-> & node & n & d & dir & leaf & par & l1 & l2 & ? & ? & ? & ? & ? & ? & _)]; [by left|right].
  split; [done|]. by exists node, d, dir, leaf, par, l1, l2.
Qed.

(** Closing a file on a ramfs node returns 0 and clears the file: one reference fewer,
    and at the last one an unlinked node is freed with its buffers, while a node still
    linked or still open elsewhere stays; the tree invariant is kept. *)
Lemma vfs_close_correct (ch : Z → list Z) (file : VFile) (n : VNode) (s : fs H)
  (I : fs_inv R runs blocks ch s) (Hn : fs_nodes s !! f_node file = Some n)
  (Ho : v_ops n = R) (Hfo : v_file_ops n = 0) (Hc : 0 <= v_open_count n)
  (Hun : v_unlinked n = true → v_parent n = 0 ∧ ch (f_node file) = []) :
  ∃ file' s', vfs_close file s = Some ((0, file'), s') ∧ f_node file' = 0 ∧ fs_inv R runs blocks ch s' ∧
    if v_unlinked n && (v_open_count n <=? 1) then fs_nodes s' = delete (f_node file) (fs_nodes s)
    else fs_nodes s' = <[f_node file := set_open_count (Z.max 0 (v_open_count n - 1)) n]> (fs_nodes s).
Proof.
  pose proof (vfs_close_wp ch file n s I Hn Ho Hfo Hc Hun) as W.
  apply wp_run in W as ([e f] & s' & E & H1 & H2 & _ & H3 & H4). simpl in *. subst e. by exists f, s'.
Qed.
End OnRamfs.

(** vfs_lseek either returns -1 and leaves the file alone, or moves to exactly base
    plus offset, which lies in 0 .. 2^63-1; overflow of the sum and negative results
    are refused, as are device files and unknown origins. *)
Lemma vfs_lseek_in_range (file : VFile) (offset whence : Z) (n : VNode) (s : fs H)
  (Hn : fs_nodes s !! f_node file = Some n) (Hoff : - 2 ^ 63 <= offset < 2 ^ 63)
  (Hf : 0 <= f_offset file < 2 ^ 63) (Hsz : 0 <= v_size n < 2 ^ 63) :
  ∃ r file', vfs_lseek file offset whence s = Some ((r, file'), s) ∧
    ((r = -1 ∧ file' = file) ∨
     (0 <= r < 2 ^ 63 ∧ v_file_ops n = 0 ∧ 0 <= whence <= 2 ∧
      r = (if whence =? 0 then 0 else if whence =? 1 then f_offset file else v_size n) + offset ∧
      file' = MkVFile (f_node file) r (f_flags file) (f_private file))).
Proof.
  cut (wp (vfs_lseek file offset whence) (λ x t, t = s ∧ ((x.1 = -1 ∧ x.2 = file) ∨
     (0 <= x.1 < 2 ^ 63 ∧ v_file_ops n = 0 ∧ 0 <= whence <= 2 ∧
      x.1 = (if whence =? 0 then 0 else if whence =? 1 then f_offset file else v_size n) + offset ∧
      x.2 = MkVFile (f_node file) x.1 (f_flags file) (f_private file)))) s).
  { intros ([r f] & s' & E & -> & HQ)%wp_run. exists r, f. done. }
  unfold vfs_lseek. destruct (Z.eqb_spec (f_node file) 0); [wp_steps; auto|]. wp_steps.
  eapply wp_vnode; [done|]. destruct (Z.eqb_spec (v_file_ops n) 0) as [E|E]; simpl; [|wp_steps; auto].
  assert (Hwrap : ∀ b, 0 <= b < 2 ^ 63 → s64 (b + offset) < 0 ∨ s64 (b + offset) = b + offset).
  { intros b Hb. destruct (decide (b + offset < 2 ^ 63)); [right; apply s64_small; lia|left].
    unfold s64, u64. rewrite Z.mod_small by lia. destruct (Z.ltb_spec (b + offset) (2 ^ 63)); lia. }
  rewrite (s64_small (f_offset file)), (s64_small (v_size n)) by lia.
  assert (Fin : ∀ b, 0 <= b < 2 ^ 63 → 0 <= whence <= 2 →
    b = (if whence =? 0 then 0 else if whence =? 1 then f_offset file else v_size n) →
    wp (let result := s64 (b + offset) in
        if result <? 0 then mret (-1, file)
        else mret (result, MkVFile (f_node file) result (f_flags file) (f_private file)))
      (λ x t, t = s ∧ ((x.1 = -1 ∧ x.2 = file) ∨
     (0 <= x.1 < 2 ^ 63 ∧ v_file_ops n = 0 ∧ 0 <= whence <= 2 ∧
      x.1 = (if whence =? 0 then 0 else if whence =? 1 then f_offset file else v_size n) + offset ∧
      x.2 = MkVFile (f_node file) x.1 (f_flags file) (f_private file)))) s).
  { intros b Hb Hw Eb. cbv zeta. pose proof (s64_range (b + offset)).
    destruct (Z.ltb_spec (s64 (b + offset)) 0); wp_steps; [auto|]. split; [done|]. right. simpl.
    split_and!; try done; try lia. rewrite <- Eb. destruct (Hwrap b Hb); [lia|done]. }
  destruct (Z.eqb_spec whence 0); [apply Fin; lia|]. destruct (Z.eqb_spec whence 1); [apply Fin; lia|].
  destruct (Z.eqb_spec whence 2); [apply Fin; lia|]. wp_steps. auto.
Qed.
End Vfs.
#[global] Arguments VNodeOps H : clear implicits.
#[global] Arguments VFileOps H : clear implicits.

(** ** Witnesses: the demo tree of Ramfs.v mounted at "/" *)
Definition demo_ops (p : Z) : option (VNodeOps heap) := if p =? 1 then Some (ramfs_table 1) else None.
Definition demo_fs4 : fs heap := set_mounts [MkMount [slash] demo_root true] demo_fs3.
Definition demo_file_node : VNode :=
  MkVNode (to_str "a") VNODE_FILE 0 1 0 (2 ^ 47 + 4 * 4096 + 16) 0 false demo_root 0 0.

(** A name of 64 characters is looked up as two names. *)
Lemma long_component_is_cut :
  components (replicate 64 "a"%char) = [replicate 63 "a"%char; ["a"%char]].
Proof. reflexivity. Qed.

Lemma demo_inv4 : fs_inv 1 [] [] demo_ch3 demo_fs4.
Proof. destruct demo_inv3 as [T I [F O J] P]. constructor; [exact T|exact I| |exact P]. by constructor. Qed.

Lemma demo_all_ramfs : all_ramfs 1 demo_fs4.
Proof.
  assert (E : map_Forall (λ _ n, v_ops n = 1) (fs_nodes demo_fs4)).
  { apply (bool_decide_unpack _). vm_compute. exact I. }
  intros p n Hn. exact (E p n Hn).
Qed.

Lemma demo_mounts_ok : mounts_ok demo_fs4.
Proof. intros m Hm%list_elem_of_singleton _. rewrite Hm. vm_compute. eauto. Qed.

Lemma demo_ops_table : demo_ops 1 = Some (ramfs_table 1).
Proof. reflexivity. Qed.

Lemma vfs_rename_safe_witness :
  ∃ e s', vfs_rename demo_ops (to_str "/a") (to_str "/d/z") demo_fs4 = Some (e, s') ∧
    ((e = -1 ∧ s' = demo_fs4) ∨
     (e = 0 ∧ ∃ node d dir leaf par l1 l2,
        vfs_resolve demo_ops (to_str "/a") demo_fs4 = Some (node, demo_fs4) ∧
        to_str "/d/z" = par ++ slash :: leaf ∧
        vfs_resolve demo_ops (parent_path par) demo_fs4 = Some (dir, demo_fs4) ∧
        demo_ch3 d = l1 ++ node :: l2 ∧
        fs_inv 1 [] [] (moved demo_ch3 d dir node l1 l2) s' ∧ name_of (fs_nodes s') node = leaf)).
Proof.
  apply (vfs_rename_safe demo_ops 1 ltac:(discriminate) demo_ops_table [] [] demo_ch3
    (to_str "/a") (to_str "/d/z") demo_fs4 demo_inv4 demo_all_ramfs demo_mounts_ok).
Defined.

Lemma vfs_close_correct_witness :
  ∃ file' s', vfs_close demo_ops (λ _, None) (MkVFile demo_file 0 0 0) demo_fs4 = Some ((0, file'), s') ∧
    f_node file' = 0 ∧ fs_inv 1 [] [] demo_ch3 s' ∧
    if v_unlinked demo_file_node && (v_open_count demo_file_node <=? 1)
    then fs_nodes s' = delete demo_file (fs_nodes demo_fs4)
    else fs_nodes s' = <[demo_file := set_open_count (Z.max 0 (v_open_count demo_file_node - 1)) demo_file_node]>
                         (fs_nodes demo_fs4).
Proof.
  apply (vfs_close_correct demo_ops (λ _, None) 1 ltac:(discriminate) demo_ops_table [] [] demo_ch3
    (MkVFile demo_file 0 0 0) demo_file_node demo_fs4 demo_inv4);
    [vm_compute; reflexivity|reflexivity|reflexivity|vm_compute; discriminate|discriminate].
Defined.

Lemma vfs_lseek_in_range_witness :
  ∃ r file', vfs_lseek (MkVFile demo_file 5 0 0) 7 1 demo_fs4 = Some ((r, file'), demo_fs4) ∧
    ((r = -1 ∧ file' = MkVFile demo_file 5 0 0) ∨
     (0 <= r < 2 ^ 63 ∧ v_file_ops demo_file_node = 0 ∧ 0 <= 1 <= 2 ∧
      r = (if 1 =? 0 then 0 else if 1 =? 1 then 5 else v_size demo_file_node) + 7 ∧
      file' = MkVFile demo_file r 0 0)).
Proof.
  apply (vfs_lseek_in_range (MkVFile demo_file 5 0 0) 7 1 demo_file_node demo_fs4);
    [vm_compute; reflexivity|lia|simpl; lia|simpl; lia].
Defined.
