(* ===== verification/Task.v ===== *)
(** * kernel/system/task.c: tasks and the scheduler

    Every task is on [task_list], a chain through [list_next]; runnable tasks are
    also on the run queue, a ring through [next] entered at [task_run_queue], the
    task picked last.  Each CPU runs [current], falling back to its [idle] task.
    A task is a block of the [KernelMem] interface; the file system, the page
    records and the ELF loader are an interface, [TaskServices].

    [task_switch_asm] saves the registers of the task that leaves and restores
    those of the next one.  In the model the saved registers are a [Context]: the
    point in this file where the task called [schedule], or the words
    [task_prime_stack] put on a new stack; [resume] runs what is left of this file's
    function at that point.  [irq_save] and [irq_restore] have no effect on this
    state. *)
From S2P Require Import Prelude RawMem Pmm Heap VfsTypes.
Local Open Scope kernel_scope.

(** ** Data *)

(** [kernel/system/task.h 12-19] *)
Inductive TaskState := TASK_READY | TASK_RUNNING | TASK_SLEEPING | TASK_DEAD.
#[export] Instance TaskState_eq_dec : EqDecision TaskState.
Proof. solve_decision. Defined.

(** [kernel/elf.h 46-53] *)
Record ElfImage := MkElfImage { img_base : Z; img_page_count : Z; img_entry : Z; img_load_bias : Z }.
Definition zero_image : ElfImage := MkElfImage 0 0 0 0.

(** [argv[i]] is [ta_slots !! i], an address in the block [ta_bytes] at [ta_backing].
    [kernel/system/task.h 27-33] *)
Record TaskArgs := MkTaskArgs {
  ta_argc : Z; ta_argv : Z; ta_backing : Z; ta_slots : list Z; ta_bytes : list Z
}.
Definition SIZEOF_TASK_ARGS : Z := 24.

(** The calls of [schedule] in this file. *)
Inductive Resume := ResumeYield | ResumeTick | ResumeSleep | ResumeBlock | ResumeExit.
(** What [saved_rsp] leads to: nothing yet, the stack built by [task_prime_stack]
    (its top and the words from there up), or a point where [schedule] was called. *)
Inductive Context := CtxNone | CtxPrimed (rsp : Z) (words : list Z) | CtxAt (r : Resume).

(** The fields of the struct; [t_context] stands for [saved_rsp].
    [kernel/system/task.h 35-69] *)
Record Task := MkTask {
  t_name : str;
  t_state : TaskState;
  t_context : Context;
  t_wake_tick : Z;
  t_waiting : bool;
  t_stdio : list Z;
  t_cwd : str;
  t_pid : Z;
  t_exit_code : Z;
  t_detached : bool;
  t_kill_pending : bool;
  t_in_kcall : bool;
  t_resched_pending : bool;
  t_cpu_ticks : Z;
  t_stack_base : Z;
  t_stack_pages : Z;
  t_args : Z;
  t_image : ElfImage;
  t_owns_image : bool;
  t_fpu_state : list Z;
  t_next : Z;
  t_list_next : Z
}.
(** [sizeof(Task)], and the constants of task.h. *)
Definition SIZEOF_TASK : Z := 976.
Definition TASK_NAME_MAX : nat := 64.
Definition TASK_STACK_SIZE : Z := 256 * 1024.
Definition TASK_IDLE_STACK_SIZE : Z := 64 * 1024.
Definition SCHEDULER_HZ : Z := 1000.
Definition WNOHANG : Z := 1.
Definition TASK_BLOCK_FOREVER : Z := 2 ^ 32 - 1.

(** [memset(t, 0, sizeof(Task))]. [kernel/system/task.c: task_alloc 55-55] *)
Definition zero_task : Task :=
  MkTask [] TASK_READY CtxNone 0 false [0; 0; 0] [] 0 0 false false false false 0 0 0 0 zero_image false
    (replicate 512 0) 0 0.

(** ** Field updates *)
Definition set_name (x : str) (t : Task) : Task :=
  MkTask x (t_state t) (t_context t) (t_wake_tick t) (t_waiting t) (t_stdio t) (t_cwd t) (t_pid
    t) (t_exit_code t) (t_detached t) (t_kill_pending t) (t_in_kcall t) (t_resched_pending t)
    (t_cpu_ticks t) (t_stack_base t) (t_stack_pages t) (t_args t) (t_image t) (t_owns_image t)
    (t_fpu_state t) (t_next t) (t_list_next t).
Definition set_state (x : TaskState) (t : Task) : Task :=
  MkTask (t_name t) x (t_context t) (t_wake_tick t) (t_waiting t) (t_stdio t) (t_cwd t) (t_pid
    t) (t_exit_code t) (t_detached t) (t_kill_pending t) (t_in_kcall t) (t_resched_pending t)
    (t_cpu_ticks t) (t_stack_base t) (t_stack_pages t) (t_args t) (t_image t) (t_owns_image t)
    (t_fpu_state t) (t_next t) (t_list_next t).
Definition set_context (x : Context) (t : Task) : Task :=
  MkTask (t_name t) (t_state t) x (t_wake_tick t) (t_waiting t) (t_stdio t) (t_cwd t) (t_pid t)
    (t_exit_code t) (t_detached t) (t_kill_pending t) (t_in_kcall t) (t_resched_pending t)
    (t_cpu_ticks t) (t_stack_base t) (t_stack_pages t) (t_args t) (t_image t) (t_owns_image t)
    (t_fpu_state t) (t_next t) (t_list_next t).
Definition set_wake_tick (x : Z) (t : Task) : Task :=
  MkTask (t_name t) (t_state t) (t_context t) x (t_waiting t) (t_stdio t) (t_cwd t) (t_pid t)
    (t_exit_code t) (t_detached t) (t_kill_pending t) (t_in_kcall t) (t_resched_pending t)
    (t_cpu_ticks t) (t_stack_base t) (t_stack_pages t) (t_args t) (t_image t) (t_owns_image t)
    (t_fpu_state t) (t_next t) (t_list_next t).
Definition set_waiting (x : bool) (t : Task) : Task :=
  MkTask (t_name t) (t_state t) (t_context t) (t_wake_tick t) x (t_stdio t) (t_cwd t) (t_pid t)
    (t_exit_code t) (t_detached t) (t_kill_pending t) (t_in_kcall t) (t_resched_pending t)
    (t_cpu_ticks t) (t_stack_base t) (t_stack_pages t) (t_args t) (t_image t) (t_owns_image t)
    (t_fpu_state t) (t_next t) (t_list_next t).
Definition set_stdio (x : list Z) (t : Task) : Task :=
  MkTask (t_name t) (t_state t) (t_context t) (t_wake_tick t) (t_waiting t) x (t_cwd t) (t_pid
    t) (t_exit_code t) (t_detached t) (t_kill_pending t) (t_in_kcall t) (t_resched_pending t)
    (t_cpu_ticks t) (t_stack_base t) (t_stack_pages t) (t_args t) (t_image t) (t_owns_image t)
    (t_fpu_state t) (t_next t) (t_list_next t).
Definition set_cwd (x : str) (t : Task) : Task :=
  MkTask (t_name t) (t_state t) (t_context t) (t_wake_tick t) (t_waiting t) (t_stdio t) x (t_pid
    t) (t_exit_code t) (t_detached t) (t_kill_pending t) (t_in_kcall t) (t_resched_pending t)
    (t_cpu_ticks t) (t_stack_base t) (t_stack_pages t) (t_args t) (t_image t) (t_owns_image t)
    (t_fpu_state t) (t_next t) (t_list_next t).
Definition set_pid (x : Z) (t : Task) : Task :=
  MkTask (t_name t) (t_state t) (t_context t) (t_wake_tick t) (t_waiting t) (t_stdio t) (t_cwd
    t) x (t_exit_code t) (t_detached t) (t_kill_pending t) (t_in_kcall t) (t_resched_pending t)
    (t_cpu_ticks t) (t_stack_base t) (t_stack_pages t) (t_args t) (t_image t) (t_owns_image t)
    (t_fpu_state t) (t_next t) (t_list_next t).
Definition set_exit_code (x : Z) (t : Task) : Task :=
  MkTask (t_name t) (t_state t) (t_context t) (t_wake_tick t) (t_waiting t) (t_stdio t) (t_cwd
    t) (t_pid t) x (t_detached t) (t_kill_pending t) (t_in_kcall t) (t_resched_pending t)
    (t_cpu_ticks t) (t_stack_base t) (t_stack_pages t) (t_args t) (t_image t) (t_owns_image t)
    (t_fpu_state t) (t_next t) (t_list_next t).
Definition set_detached (x : bool) (t : Task) : Task :=
  MkTask (t_name t) (t_state t) (t_context t) (t_wake_tick t) (t_waiting t) (t_stdio t) (t_cwd
    t) (t_pid t) (t_exit_code t) x (t_kill_pending t) (t_in_kcall t) (t_resched_pending t)
    (t_cpu_ticks t) (t_stack_base t) (t_stack_pages t) (t_args t) (t_image t) (t_owns_image t)
    (t_fpu_state t) (t_next t) (t_list_next t).
Definition set_kill_pending (x : bool) (t : Task) : Task :=
  MkTask (t_name t) (t_state t) (t_context t) (t_wake_tick t) (t_waiting t) (t_stdio t) (t_cwd
    t) (t_pid t) (t_exit_code t) (t_detached t) x (t_in_kcall t) (t_resched_pending t)
    (t_cpu_ticks t) (t_stack_base t) (t_stack_pages t) (t_args t) (t_image t) (t_owns_image t)
    (t_fpu_state t) (t_next t) (t_list_next t).
Definition set_in_kcall (x : bool) (t : Task) : Task :=
  MkTask (t_name t) (t_state t) (t_context t) (t_wake_tick t) (t_waiting t) (t_stdio t) (t_cwd
    t) (t_pid t) (t_exit_code t) (t_detached t) (t_kill_pending t) x (t_resched_pending t)
    (t_cpu_ticks t) (t_stack_base t) (t_stack_pages t) (t_args t) (t_image t) (t_owns_image t)
    (t_fpu_state t) (t_next t) (t_list_next t).
Definition set_resched_pending (x : bool) (t : Task) : Task :=
  MkTask (t_name t) (t_state t) (t_context t) (t_wake_tick t) (t_waiting t) (t_stdio t) (t_cwd
    t) (t_pid t) (t_exit_code t) (t_detached t) (t_kill_pending t) (t_in_kcall t) x (t_cpu_ticks
    t) (t_stack_base t) (t_stack_pages t) (t_args t) (t_image t) (t_owns_image t) (t_fpu_state
    t) (t_next t) (t_list_next t).
Definition set_cpu_ticks (x : Z) (t : Task) : Task :=
  MkTask (t_name t) (t_state t) (t_context t) (t_wake_tick t) (t_waiting t) (t_stdio t) (t_cwd
    t) (t_pid t) (t_exit_code t) (t_detached t) (t_kill_pending t) (t_in_kcall t)
    (t_resched_pending t) x (t_stack_base t) (t_stack_pages t) (t_args t) (t_image t)
    (t_owns_image t) (t_fpu_state t) (t_next t) (t_list_next t).
Definition set_args (x : Z) (t : Task) : Task :=
  MkTask (t_name t) (t_state t) (t_context t) (t_wake_tick t) (t_waiting t) (t_stdio t) (t_cwd
    t) (t_pid t) (t_exit_code t) (t_detached t) (t_kill_pending t) (t_in_kcall t)
    (t_resched_pending t) (t_cpu_ticks t) (t_stack_base t) (t_stack_pages t) x (t_image t)
    (t_owns_image t) (t_fpu_state t) (t_next t) (t_list_next t).
Definition set_image (x : ElfImage) (t : Task) : Task :=
  MkTask (t_name t) (t_state t) (t_context t) (t_wake_tick t) (t_waiting t) (t_stdio t) (t_cwd
    t) (t_pid t) (t_exit_code t) (t_detached t) (t_kill_pending t) (t_in_kcall t)
    (t_resched_pending t) (t_cpu_ticks t) (t_stack_base t) (t_stack_pages t) (t_args t) x
    (t_owns_image t) (t_fpu_state t) (t_next t) (t_list_next t).
Definition set_owns_image (x : bool) (t : Task) : Task :=
  MkTask (t_name t) (t_state t) (t_context t) (t_wake_tick t) (t_waiting t) (t_stdio t) (t_cwd
    t) (t_pid t) (t_exit_code t) (t_detached t) (t_kill_pending t) (t_in_kcall t)
    (t_resched_pending t) (t_cpu_ticks t) (t_stack_base t) (t_stack_pages t) (t_args t) (t_image
    t) x (t_fpu_state t) (t_next t) (t_list_next t).
Definition set_fpu_state (x : list Z) (t : Task) : Task :=
  MkTask (t_name t) (t_state t) (t_context t) (t_wake_tick t) (t_waiting t) (t_stdio t) (t_cwd
    t) (t_pid t) (t_exit_code t) (t_detached t) (t_kill_pending t) (t_in_kcall t)
    (t_resched_pending t) (t_cpu_ticks t) (t_stack_base t) (t_stack_pages t) (t_args t) (t_image
    t) (t_owns_image t) x (t_next t) (t_list_next t).
Definition set_next (x : Z) (t : Task) : Task :=
  MkTask (t_name t) (t_state t) (t_context t) (t_wake_tick t) (t_waiting t) (t_stdio t) (t_cwd
    t) (t_pid t) (t_exit_code t) (t_detached t) (t_kill_pending t) (t_in_kcall t)
    (t_resched_pending t) (t_cpu_ticks t) (t_stack_base t) (t_stack_pages t) (t_args t) (t_image
    t) (t_owns_image t) (t_fpu_state t) x (t_list_next t).
Definition set_list_next (x : Z) (t : Task) : Task :=
  MkTask (t_name t) (t_state t) (t_context t) (t_wake_tick t) (t_waiting t) (t_stdio t) (t_cwd
    t) (t_pid t) (t_exit_code t) (t_detached t) (t_kill_pending t) (t_in_kcall t)
    (t_resched_pending t) (t_cpu_ticks t) (t_stack_base t) (t_stack_pages t) (t_args t) (t_image
    t) (t_owns_image t) (t_fpu_state t) (t_next t) x.
Definition set_stack (b n : Z) (t : Task) : Task :=
  MkTask (t_name t) (t_state t) (t_context t) (t_wake_tick t) (t_waiting t) (t_stdio t) (t_cwd
    t) (t_pid t) (t_exit_code t) (t_detached t) (t_kill_pending t) (t_in_kcall t)
    (t_resched_pending t) (t_cpu_ticks t) b n (t_args t) (t_image t) (t_owns_image t)
    (t_fpu_state t) (t_next t) (t_list_next t).
(** The fields of the struct, [self] and [index] apart: a CPU is known by its index.
    [kernel/system/smp.h 9-19] *)
Record Cpu := MkCpu {
  c_stack_top : Z; c_current : Z; c_idle : Z; c_lapic_id : Z; c_ticks : Z; c_busy_ticks : Z
}.
Definition set_current (p : Z) (c : Cpu) : Cpu :=
  MkCpu (c_stack_top c) p (c_idle c) (c_lapic_id c) (c_ticks c) (c_busy_ticks c).
Definition set_idle (p : Z) (c : Cpu) : Cpu :=
  MkCpu (c_stack_top c) (c_current c) p (c_lapic_id c) (c_ticks c) (c_busy_ticks c).
Definition set_lapic_id (n : Z) (c : Cpu) : Cpu :=
  MkCpu (c_stack_top c) (c_current c) (c_idle c) n (c_ticks c) (c_busy_ticks c).
Definition set_ticks (n : Z) (c : Cpu) : Cpu :=
  MkCpu (c_stack_top c) (c_current c) (c_idle c) (c_lapic_id c) n (c_busy_ticks c).
Definition set_busy_ticks (n : Z) (c : Cpu) : Cpu :=
  MkCpu (c_stack_top c) (c_current c) (c_idle c) (c_lapic_id c) (c_ticks c) n.

(** What task.c calls in the other parts of the kernel: [fs_release_task], which gives
    the descriptors it closed, [user_pages_release_task], the VFS and the ELF loader.  Loading an image takes
    page runs, releasing a task's resources gives some back. *)
Class TaskServices (H : Type) := {
  ts_fs_release_task : Z → M H (list Z);
  ts_user_pages_release_task : Z → M H unit;
  ts_vfs_stat : str → M H (option VfsStat);
  ts_vfs_open : str → Z → M H (Z * option VFile);
  ts_vfs_read : VFile → Z → M H (Z * list Z * VFile);
  ts_vfs_close : VFile → M H (Z * VFile);
  ts_elf_load_image : list Z → Z → M H (option ElfImage)
}.

(** Releasing the resources of a task leaves the memory of everybody else alone; an
    image is a page run of its own. *)
Class TaskServicesLaws (H : Type) `{KernelMem H} `{TaskServices H} := {
  ts_fs_release_law h t runs blocks (Q : list Z → H → Prop) :
    km_inv h runs blocks → (∀ fds h', km_inv h' runs blocks → Q fds h') → wp (ts_fs_release_task t) Q h;
  ts_user_pages_release_law h t runs blocks (Q : unit → H → Prop) :
    km_inv h runs blocks → (∀ h', km_inv h' runs blocks → Q tt h') → wp (ts_user_pages_release_task t) Q h
}.

Section Task.
Context {H : Type} `{KM : KernelMem H} {KL : KernelMemLaws H} `{TS : TaskServices H} {TL : TaskServicesLaws H}.

(** ** State: the statics of the file and of smp.c
    [kernel/system/task.c 1-9] *)
Record sched := Sched {
  k_mem : H;
  k_tasks : gmap Z Task;
  k_args : gmap Z TaskArgs;
  task_list : Z;
  kernel_task : Z;
  task_run_queue : Z;
  g_tick_count : Z;
  next_pid : Z;
  cpus : list Cpu
}.
Definition set_k_mem (x : H) (s : sched) : sched :=
  Sched x (k_tasks s) (k_args s) (task_list s) (kernel_task s) (task_run_queue s) (g_tick_count s) (next_pid s) (cpus s).
Definition set_tasks (x : gmap Z Task) (s : sched) : sched :=
  Sched (k_mem s) x (k_args s) (task_list s) (kernel_task s) (task_run_queue s) (g_tick_count s) (next_pid s) (cpus s).
Definition set_k_args (x : gmap Z TaskArgs) (s : sched) : sched :=
  Sched (k_mem s) (k_tasks s) x (task_list s) (kernel_task s) (task_run_queue s) (g_tick_count s) (next_pid s) (cpus s).
Definition set_task_list (x : Z) (s : sched) : sched :=
  Sched (k_mem s) (k_tasks s) (k_args s) x (kernel_task s) (task_run_queue s) (g_tick_count s) (next_pid s) (cpus s).
Definition set_kernel_task (x : Z) (s : sched) : sched :=
  Sched (k_mem s) (k_tasks s) (k_args s) (task_list s) x (task_run_queue s) (g_tick_count s) (next_pid s) (cpus s).
Definition set_run_queue (x : Z) (s : sched) : sched :=
  Sched (k_mem s) (k_tasks s) (k_args s) (task_list s) (kernel_task s) x (g_tick_count s) (next_pid s) (cpus s).
Definition set_tick_count (x : Z) (s : sched) : sched :=
  Sched (k_mem s) (k_tasks s) (k_args s) (task_list s) (kernel_task s) (task_run_queue s) x (next_pid s) (cpus s).
Definition set_next_pid (x : Z) (s : sched) : sched :=
  Sched (k_mem s) (k_tasks s) (k_args s) (task_list s) (kernel_task s) (task_run_queue s) (g_tick_count s) x (cpus s).
Definition set_cpus (x : list Cpu) (s : sched) : sched :=
  Sched (k_mem s) (k_tasks s) (k_args s) (task_list s) (kernel_task s) (task_run_queue s) (g_tick_count s) (next_pid s) x.

Definition on_task_mem {A} (m : M H A) : M sched A := zoom k_mem set_k_mem m.

(** [*p] and an assignment to a field of [*p]. *)
Definition task (p : Z) : M sched Task := s ← get; lift (k_tasks s !! p).
Definition task_upd (p : Z) (f : Task → Task) : M sched unit :=
  t ← task p; modify (λ s, set_tasks (<[p := f t]> (k_tasks s)) s).

(** [this_cpu()] of CPU [c]. [kernel/system/smp.h: this_cpu] *)
Definition this_cpu (c : nat) : M sched Cpu := s ← get; lift (cpus s !! c).
Definition cpu_upd (c : nat) (f : Cpu → Cpu) : M sched unit :=
  cpu ← this_cpu c; modify (λ s, set_cpus (<[c := f cpu]> (cpus s)) s).
(** [kernel/system/smp.h: cpu_is_bsp] *)
Definition cpu_is_bsp (c : nat) : bool := (c =? 0)%nat.
(** [kernel/system/task.c: task_current] *)
Definition task_current (c : nat) : M sched Z := cpu ← this_cpu c; mret (c_current cpu).

(** Fuel for the walks along the two lists: one step per task and one to spare. *)
Definition task_fuel : M sched nat := gets (λ s, Datatypes.S (size (k_tasks s))).

(** ** The list of tasks *)

(** [kernel/system/task.c: task_alloc] *)
Definition task_alloc : M sched Z :=
  t ← on_task_mem (km_kmalloc SIZEOF_TASK);
  if t =? 0 then mret 0
  else
    modify (λ s, set_tasks (<[t := zero_task]> (k_tasks s)) s);;
    l ← gets task_list;
    task_upd t (set_list_next l);;
    modify (set_task_list t);;
    mret t.

(** The pointer [*link] leads to: the head of the list, or the [list_next] of a task. *)
Definition read_task_link (link : option Z) : M sched Z :=
  match link with None => gets task_list | Some p => t ← task p; mret (t_list_next t) end.
Definition write_task_link (link : option Z) (x : Z) : M sched unit :=
  match link with None => modify (set_task_list x) | Some p => task_upd p (set_list_next x) end.
(** [kernel/system/task.c: task_free 67-74] *)
Fixpoint unlink_loop (fuel : nat) (link : option Z) (t : Z) : M sched unit :=
  p ← read_task_link link;
  if p =? 0 then mret tt
  else if p =? t then tt' ← task t; write_task_link link (t_list_next tt')
  else match fuel with O => fail | Datatypes.S fuel' => unlink_loop fuel' (Some p) t end.
(** [kernel/system/task.c: task_free] *)
Definition task_free (t : Z) : M sched unit :=
  fuel ← task_fuel; unlink_loop fuel None t;;
  on_task_mem (km_kfree t);;
  modify (λ s, set_tasks (delete t (k_tasks s)) s).

(** ** The run queue *)

(** [kernel/system/task.c: run_queue_push] *)
Definition run_queue_push (t : Z) : M sched unit :=
  h ← gets task_run_queue;
  if h =? 0 then modify (set_run_queue t);; task_upd t (set_next t)
  else
    th ← task h;
    task_upd t (set_next (t_next th));;
    task_upd h (set_next t).

(** [kernel/system/task.c: run_queue_remove 103-115] *)
Fixpoint rq_remove_loop (fuel : nat) (p t : Z) : M sched unit :=
  match fuel with
  | O => fail
  | Datatypes.S fuel' =>
      tp ← task p;
      if t_next tp =? t then
        tt' ← task t;
        task_upd p (set_next (t_next tt'));;
        h ← gets task_run_queue;
        if h =? t then tt'' ← task t; modify (set_run_queue (t_next tt'')) else mret tt
      else
        h ← gets task_run_queue;
        if t_next tp =? h then mret tt else rq_remove_loop fuel' (t_next tp) t
  end.
(** [kernel/system/task.c: run_queue_remove] *)
Definition run_queue_remove (t : Z) : M sched unit :=
  h ← gets task_run_queue;
  if h =? 0 then mret tt
  else
    th ← task h;
    if (h =? t) && (t_next th =? t) then modify (set_run_queue 0)
    else fuel ← task_fuel; rq_remove_loop fuel h t.

(** [kernel/system/task.c: pick_next 341-351] *)
Fixpoint pick_loop (fuel : nat) (t : Z) : M sched Z :=
  match fuel with
  | O => fail
  | Datatypes.S fuel' =>
      tp ← task t;
      let t := t_next tp in
      tn ← task t;
      if decide (t_state tn = TASK_READY) then modify (set_run_queue t);; mret t
      else
        h ← gets task_run_queue;
        if t =? h then mret 0 else pick_loop fuel' t
  end.
(** [kernel/system/task.c: pick_next] *)
Definition pick_next : M sched Z :=
  h ← gets task_run_queue;
  if h =? 0 then mret 0 else fuel ← task_fuel; pick_loop fuel h.

(** A [do { f(t); t = t->next; } while (t != task_run_queue)] loop.
    [kernel/system/task.c: wake_sleepers 392-399] *)
Fixpoint ring_loop (fuel : nat) (t : Z) (f : Z → M sched unit) : M sched unit :=
  match fuel with
  | O => fail
  | Datatypes.S fuel' =>
      f t;;
      tp ← task t;
      h ← gets task_run_queue;
      if t_next tp =? h then mret tt else ring_loop fuel' (t_next tp) f
  end.

(** The wrap-around test [(int64_t)(now - wake_tick) >= 0] for a sleeping task.
    [kernel/system/task.c: wake_sleepers 395-395] *)
Definition wakes (now : Z) (t : Task) : bool :=
  bool_decide (t_state t = TASK_SLEEPING) && (0 <=? s64 (now - t_wake_tick t)).
(** [kernel/system/task.c: wake_sleepers] *)
Definition wake_sleepers (now : Z) : M sched unit :=
  h ← gets task_run_queue;
  if h =? 0 then mret tt
  else
    fuel ← task_fuel;
    ring_loop fuel h (λ p, t ← task p; if wakes now t then task_upd p (set_state TASK_READY) else mret tt).

(** [kernel/system/task.c: task_wake_waiters 475-475] *)
Definition is_waiter (t : Task) : bool := t_waiting t && bool_decide (t_state t = TASK_SLEEPING).
(** [kernel/system/task.c: task_wake_waiters] *)
Definition task_wake_waiters : M sched unit :=
  h ← gets task_run_queue;
  if h =? 0 then mret tt
  else
    fuel ← task_fuel;
    ring_loop fuel h (λ p, t ← task p; if is_waiter t then task_upd p (set_state TASK_READY) else mret tt).

(** ** The scheduler *)

(** The end of [schedule], from the choice on. [kernel/system/task.c: schedule 368-375] *)
Definition schedule_tail (c : nat) (cpu : Cpu) (r : Resume) (next : Z) : M sched bool :=
  let prev := c_current cpu in
  task_upd next (set_state TASK_RUNNING);;
  task_upd prev (set_resched_pending false);;
  if next =? prev then mret false
  else
    cpu_upd c (set_current next);;
    task_upd prev (set_context (CtxAt r));;
    mret true.

(** [true]: the CPU has left [prev] for another task; [false]: [schedule] returns to
    its caller.  [r] is the caller.
    [kernel/system/task.c: schedule] *)
Definition schedule (c : nat) (prev_state : TaskState) (r : Resume) : M sched bool :=
  cpu ← this_cpu c;
  let prev := c_current cpu in
  tp ← task prev;
  (if decide (t_state tp = TASK_RUNNING) then task_upd prev (set_state prev_state) else mret tt);;
  n ← pick_next;
  next ← (if n =? 0 then
            tp' ← task prev;
            mret (if negb (prev =? c_idle cpu) && bool_decide (t_state tp' = TASK_READY)
                  then prev else c_idle cpu)
          else mret n);
  schedule_tail c cpu r next.

(** What is left of this file's function where the task now current was switched
    out. [ResumeExit] is back in the loop of [task_exit], [CtxNone] has no stack to go
    to: neither may happen. [kernel/system/task.c: task_block 462-462] *)
Definition resume (c : nat) : M sched unit :=
  p ← task_current c;
  t ← task p;
  match t_context t with
  | CtxNone | CtxAt ResumeExit => fail
  | CtxAt ResumeBlock => task_upd p (set_waiting false)
  | CtxPrimed _ _ | CtxAt ResumeYield | CtxAt ResumeTick | CtxAt ResumeSleep => mret tt
  end.

(** [kernel/system/task.c: task_yield] *)
Definition task_yield (c : nat) : M sched unit :=
  p ← task_current c;
  if p =? 0 then mret tt
  else
    switched ← schedule c TASK_READY ResumeYield;
    if (switched : bool) then resume c else mret tt.

(** [kernel/system/task.c: task_scheduler_tick] *)
Definition task_scheduler_tick (c : nat) : M sched unit :=
  cpu_upd c (λ cpu, set_ticks (u64 (c_ticks cpu + 1)) cpu);;
  cpu ← this_cpu c;
  (if negb (c_current cpu =? c_idle cpu) then
     cpu_upd c (λ cpu, set_busy_ticks (u64 (c_busy_ticks cpu + 1)) cpu);;
     task_upd (c_current cpu) (λ t, set_cpu_ticks (u64 (t_cpu_ticks t + 1)) t)
   else mret tt);;
  (if cpu_is_bsp c then
     modify (λ s, set_tick_count (u64 (g_tick_count s + 1)) s);;
     now ← gets g_tick_count;
     wake_sleepers now
   else mret tt);;
  p ← task_current c;
  if p =? 0 then mret tt
  else
    t ← task p;
    if t_in_kcall t then task_upd p (set_resched_pending true)
    else
      switched ← schedule c TASK_READY ResumeTick;
      if (switched : bool) then resume c else mret tt.

(** [DIV_CEIL((uint64_t)ms * SCHEDULER_HZ, 1000)], at least one tick.
    [kernel/system/task.c: task_sleep_ms 436-438] *)
Definition ms_to_ticks (ms : Z) : Z :=
  let ticks := u64 (u64 (ms * SCHEDULER_HZ) + 1000 - 1) / 1000 in
  if ticks =? 0 then 1 else ticks.

(** [kernel/system/task.c: task_sleep_ms] *)
Definition task_sleep_ms (c : nat) (ms : Z) : M sched unit :=
  prev ← task_current c;
  if prev =? 0 then mret tt
  else
    now ← gets g_tick_count;
    task_upd prev (set_wake_tick (u64 (now + ms_to_ticks ms)));;
    switched ← schedule c TASK_SLEEPING ResumeSleep;
    if (switched : bool) then resume c else mret tt.

(** [kernel/system/task.c: task_block] *)
Definition task_block (c : nat) (timeout_ms : Z) : M sched unit :=
  prev ← task_current c;
  if prev =? 0 then mret tt
  else
    let ticks := if timeout_ms =? TASK_BLOCK_FOREVER then 2 ^ 62 else ms_to_ticks timeout_ms in
    now ← gets g_tick_count;
    task_upd prev (set_wake_tick (u64 (now + ticks)));;
    task_upd prev (set_waiting true);;
    switched ← schedule c TASK_SLEEPING ResumeBlock;
    if (switched : bool) then resume c else task_upd prev (set_waiting false).

(** [kernel/system/task.c: task_uptime_ms] *)
Definition task_uptime_ms : M sched Z := gets (λ s, u64 (g_tick_count s * 1000) / SCHEDULER_HZ).

(** ** Creating tasks *)

(** [t->name] after [strncpy(t->name, name, TASK_NAME_MAX - 1)] on a zeroed field. *)
Definition clip_task_name (name : str) : str := take (TASK_NAME_MAX - 1) name.

(** The control words of the saved FPU state, little-endian at 0 and 24.
    [kernel/system/task.c: task_fpu_init] *)
Definition task_fpu_init (t : Z) : M sched unit :=
  task_upd t (λ t, set_fpu_state (list_inserts 0 (le_split 2 0x037F) (t_fpu_state t)) t);;
  task_upd t (λ t, set_fpu_state (list_inserts 24 (le_split 4 0x1F80) (t_fpu_state t)) t).

(** [kernel/system/task.c: task_init] *)
Definition task_init (c : nat) : M sched unit :=
  idle ← task_alloc;
  modify (set_kernel_task idle);;
  task_upd idle (set_name (clip_task_name (to_str "kernel")));;
  task_upd idle (set_state TASK_RUNNING);;
  task_upd idle (set_context CtxNone);;
  task_upd idle (set_stdio [-1; -1; -1]);;
  task_fpu_init idle;;
  cpu_upd c (set_idle idle);;
  cpu_upd c (set_current idle).

(** [kernel/system/task.c: task_create_idle] *)
Definition task_create_idle : M sched Z :=
  t ← task_alloc;
  if t =? 0 then mret 0
  else
    let pages := TASK_IDLE_STACK_SIZE / PAGE_SIZE in
    stack ← on_task_mem (km_alloc_pages pages);
    if stack =? 0 then task_free t;; mret 0
    else
      task_upd t (set_stack stack pages);;
      task_upd t (set_stdio [-1; -1; -1]);;
      task_fpu_init t;;
      task_upd t (set_state TASK_RUNNING);;
      task_upd t (set_name (clip_task_name (to_str "idle")));;
      mret t.

(** The bytes of a C string, its NUL included. *)
Definition c_bytes (s : str) : list Z := map (λ a, Z.of_N (Ascii.N_of_ascii a)) s ++ [0].
(** [backing_size]. [kernel/system/task.c: task_args_from_argv 205-207] *)
Definition backing_size (path : str) (argv : list str) : Z :=
  foldl (λ n a, u64 (n + (strlenZ a + 1))) (u64 (strlenZ path + 1)) argv.
(** The copy loop: the strings one after the other from [cursor], each address in
    its slot. [kernel/system/task.c: task_args_from_argv 224-232] *)
Fixpoint copy_args (argv : list str) (backing : Z) (bytes slots : list Z) : list Z * list Z :=
  match argv with
  | [] => (bytes, slots)
  | a :: argv' =>
      copy_args argv' backing (bytes ++ c_bytes a) (slots ++ [backing + Z.of_nat (length bytes)])
  end.
(** [argv] without its final NULL; a NULL [argv] is the empty list.
    [kernel/system/task.c: task_args_from_argv] *)
Definition task_args_from_argv (path : str) (argv : list str) : M sched Z :=
  let argc := Z.of_nat (length argv) in
  ta ← on_task_mem (km_kmalloc SIZEOF_TASK_ARGS);
  if ta =? 0 then mret 0
  else
    backing ← on_task_mem (km_kmalloc (backing_size path argv));
    if backing =? 0 then on_task_mem (km_kfree ta);; mret 0
    else
      av ← on_task_mem (km_kmalloc (8 * (argc + 1)));
      if av =? 0 then on_task_mem (km_kfree backing);; on_task_mem (km_kfree ta);; mret 0
      else
        let '(bytes, slots) := copy_args argv backing [] [] in
        modify (λ s, set_k_args (<[ta := MkTaskArgs argc av backing (slots ++ [0]) bytes]> (k_args s)) s);;
        mret ta.

(** [kernel/system/task.c: task_args_free] *)
Definition task_args_free (ta : Z) : M sched unit :=
  if ta =? 0 then mret tt
  else
    s ← get;
    a ← lift (k_args s !! ta);
    on_task_mem (km_kfree (ta_argv a));;
    on_task_mem (km_kfree (ta_backing a));;
    on_task_mem (km_kfree ta);;
    modify (λ s, set_k_args (delete ta (k_args s)) s).

(** [None] is a NULL [name]. [kernel/system/task.c: task_new_common] *)
Definition task_new_common (c : nat) (name : option str) : M sched Z :=
  t ← task_alloc;
  if t =? 0 then mret 0
  else
    let pages := TASK_STACK_SIZE / PAGE_SIZE in
    stack ← on_task_mem (km_alloc_pages pages);
    if stack =? 0 then task_free t;; mret 0
    else
      task_upd t (set_stack stack pages);;
      task_upd t (set_stdio [-1; -1; -1]);;
      cur ← task_current c;
      cwd ← (if cur =? 0 then mret (to_str "/") else tc ← task cur; mret (t_cwd tc));
      task_upd t (set_cwd cwd);;
      pid ← gets next_pid;
      modify (set_next_pid (u64 (pid + 1)));;
      task_upd t (set_pid pid);;
      task_fpu_init t;;
      task_upd t (set_state TASK_READY);;
      task_upd t (set_name (clip_task_name (default (to_str "task") name)));;
      mret t.

(** The nine words pushed below the top of the stack, lowest address first:
    [task_switch_asm] pops six, returns to [task_trampoline], which pops the last two.
    [kernel/system/task.c: task_prime_stack] *)
Definition task_prime_stack (task_trampoline t entry arg : Z) : M sched unit :=
  tp ← task t;
  let top := t_stack_base tp + t_stack_pages tp * PAGE_SIZE in
  task_upd t (set_context (CtxPrimed (top - 9 * 8) [0; 0; 0; 0; 0; 0; task_trampoline; entry; arg])).

(** The address of the assembly stub [task_trampoline]. *)
Context (task_trampoline : Z).

(** [kernel/system/task.c: task_create_with] *)
Definition task_create_with (c : nat) (name : option str) (entry arg : Z) (img : option ElfImage) : M sched Z :=
  if entry =? 0 then mret 0
  else
    t ← task_new_common c name;
    if t =? 0 then mret 0
    else
      (match img with
       | Some i => task_upd t (set_image i);; task_upd t (set_owns_image true)
       | None => mret tt
       end);;
      task_prime_stack task_trampoline t entry arg;;
      run_queue_push t;;
      mret t.

(** [kernel/system/task.c: task_create] *)
Definition task_create (c : nat) (name : option str) (entry arg : Z) : M sched Z :=
  task_create_with c name entry arg None.

(** [kernel/system/task.c: task_create_from_image] *)
Definition task_create_from_image (c : nat) (name : option str) (img : option ElfImage) (arg : Z) : M sched Z :=
  match img with
  | None => mret 0
  | Some i => if img_entry i =? 0 then mret 0 else task_create_with c name (img_entry i) arg (Some i)
  end.

(** [kernel/elf.c: elf_unload_image] *)
Definition elf_unload_image (i : ElfImage) : M sched ElfImage :=
  if img_base i =? 0 then mret i
  else on_task_mem (km_free_pages (img_base i) (img_page_count i));; mret zero_image.

(** The body of [task_exec_elf] once the file is read: load, create, hand over.
    [kernel/system/task.c: task_exec_elf 593-621] *)
Definition exec_image (c : nat) (path : str) (buf : Z) (bytes : list Z) (size ta : Z) : M sched Z :=
  img ← on_task_mem (ts_elf_load_image bytes size);
  on_task_mem (km_kfree buf);;
  match img with
  | None => task_args_free ta;; mret 0
  | Some i =>
      t ← task_create_from_image c (Some path) (Some i) ta;
      if t =? 0 then elf_unload_image i;; task_args_free ta;; mret 0
      else
        task_upd t (set_args ta);;
        cur ← task_current c;
        (if negb (cur =? 0) && negb (cur =? t) then
           tc ← task cur; task_upd t (set_stdio (t_stdio tc))
         else mret tt);;
        mret t
  end.

(** [kernel/system/task.c: task_exec_elf] *)
Definition task_exec_elf (c : nat) (path : str) (argv : list str) : M sched Z :=
  ta ← task_args_from_argv path argv;
  if ta =? 0 then mret 0
  else
    st ← on_task_mem (ts_vfs_stat path);
    match st with
    | None => task_args_free ta;; mret 0
    | Some st =>
        if negb (bool_decide (st_type st = VNODE_FILE)) || (st_size st =? 0) then task_args_free ta;; mret 0
        else
          '(rc, f) ← on_task_mem (ts_vfs_open path VFS_O_RDONLY);
          if negb (rc =? 0) then task_args_free ta;; mret 0
          else
            f ← lift f;
            buf ← on_task_mem (km_kmalloc (st_size st));
            if buf =? 0 then on_task_mem (ts_vfs_close f);; task_args_free ta;; mret 0
            else
              '(n, bytes, f) ← on_task_mem (ts_vfs_read f (st_size st));
              on_task_mem (ts_vfs_close f);;
              if (n <? 0) || negb (u64 n =? st_size st) then
                on_task_mem (km_kfree buf);; task_args_free ta;; mret 0
              else exec_image c path buf bytes (st_size st) ta
    end.

(** ** Ending tasks *)

(** [for (t = task_list; t; t = t->list_next) f(t)].
    [kernel/system/task.c: task_for_each 691-691] *)
Fixpoint list_loop (fuel : nat) (t : Z) (f : Z → M sched unit) : M sched unit :=
  if t =? 0 then mret tt
  else match fuel with
  | O => fail
  | Datatypes.S fuel' => f t;; tp ← task t; list_loop fuel' (t_list_next tp) f
  end.

(** [kernel/system/task.c: task_forget_fd] *)
Definition task_forget_fd (fd : Z) : M sched unit :=
  fuel ← task_fuel; l ← gets task_list;
  list_loop fuel l (λ p, task_upd p (λ t, set_stdio (map (λ x, if x =? fd then -1 else x) (t_stdio t)) t)).

(** [fs_release_task] calls [task_forget_fd] for every descriptor it closes.
    [kernel/system/task.c: task_release_resources] *)
Definition task_release_resources (t : Z) : M sched unit :=
  fds ← on_task_mem (ts_fs_release_task t);
  forM_ fds task_forget_fd;;
  on_task_mem (ts_user_pages_release_task t).

(** The image of [t], when it owns one. [kernel/system/task.c: task_kill 646-650] *)
Definition drop_image (t : Z) : M sched unit :=
  tp ← task t;
  if t_owns_image tp then
    i ← elf_unload_image (t_image tp);
    task_upd t (set_image i);;
    task_upd t (set_owns_image false)
  else mret tt.
(** The stack of [t], when it has one. [kernel/system/task.c: task_kill 652-657] *)
Definition drop_stack (t : Z) : M sched unit :=
  tp ← task t;
  if t_stack_base tp =? 0 then mret tt
  else on_task_mem (km_free_pages (t_stack_base tp) (t_stack_pages tp));; task_upd t (set_stack 0 0).

(** The loop at the end goes round again when [schedule] returns; that leaves the
    state in which it will return again, with interrupts off, so it is a run gone
    wrong.  [kernel/system/task.c: task_exit] *)
Definition task_exit (c : nat) (code : Z) : M sched unit :=
  t ← task_current c;
  task_upd t (set_exit_code code);;
  task_release_resources t;;
  task_upd t (set_state TASK_DEAD);;
  tp ← task t;
  (if t_args tp =? 0 then mret tt
   else task_args_free (t_args tp);; task_upd t (set_args 0));;
  drop_image t;;
  drop_stack t;;
  switched ← schedule c TASK_DEAD ResumeExit;
  if (switched : bool) then resume c else fail.

(** [kernel/system/task.c: task_check_kill] *)
Definition task_check_kill (c : nat) : M sched unit :=
  p ← task_current c;
  if p =? 0 then mret tt
  else t ← task p; if t_kill_pending t then task_exit c (-1) else mret tt.

(** A task that kills itself does not return: the value is that of the task the CPU
    goes to. [kernel/system/task.c: task_kill] *)
Definition task_kill (c : nat) (t : Z) : M sched bool :=
  if t =? 0 then mret false
  else
    tp ← task t;
    if decide (t_state tp = TASK_DEAD) then mret false
    else
      cur ← task_current c;
      if t =? cur then task_exit c (-1);; mret true
      else if decide (t_state tp = TASK_RUNNING) then task_upd t (set_kill_pending true);; mret true
      else
        task_release_resources t;;
        task_upd t (set_state TASK_DEAD);;
        drop_image t;;
        drop_stack t;;
        run_queue_remove t;;
        task_free t;;
        mret true.

(** With [WNOHANG] and a live task the loop never ends: nothing in it changes
    [t->state]. [kernel/system/task.c: task_wait] *)
Definition task_wait (t flags : Z) : M sched bool :=
  if t =? 0 then mret false
  else
    tp ← task t;
    if negb (Z.land flags WNOHANG =? 0) then
      if decide (t_state tp = TASK_DEAD) then mret false else fail
    else mret (negb (bool_decide (t_state tp = TASK_DEAD))).

(** ** Walks over the list of tasks *)

(** [kernel/system/task.c: task_for_each] *)
Definition task_for_each (visit : Z → M sched unit) : M sched unit :=
  fuel ← task_fuel; l ← gets task_list;
  list_loop fuel l (λ p, t ← task p;
    if negb (t_pid t =? 0) && negb (bool_decide (t_state t = TASK_DEAD)) then visit p else mret tt).

(** [kernel/system/task.c: task_find 700-702] *)
Fixpoint find_loop (fuel : nat) (t pid : Z) : M sched Z :=
  if t =? 0 then mret 0
  else match fuel with
  | O => fail
  | Datatypes.S fuel' => tp ← task t; if t_pid tp =? pid then mret t else find_loop fuel' (t_list_next tp) pid
  end.
(** [kernel/system/task.c: task_find] *)
Definition task_find (pid : Z) : M sched Z :=
  if pid =? 0 then mret 0 else fuel ← task_fuel; l ← gets task_list; find_loop fuel l pid.

(** ** Kernel calls *)

(** [kernel/system/task.c: sys_spawn] *)
Definition sys_spawn (c : nat) (path : option str) (argv : list str) : M sched Z :=
  t ← (match path with None => mret 0 | Some p => task_exec_elf c p argv end);
  if t =? 0 then mret 0 else tp ← task t; mret (t_pid tp).

(** [kernel/system/task.c: sys_chdir] *)
Definition sys_chdir (c : nat) (path : option str) : M sched Z :=
  match path with
  | None => mret (-1)
  | Some path =>
      if negb (bool_decide (head path = Some slash)) || (Z.of_nat VFS_PATH_MAX <=? strlenZ path) then mret (-1)
      else
        st ← on_task_mem (ts_vfs_stat path);
        match st with
        | Some st =>
            if decide (st_type st = VNODE_DIR) then
              cur ← task_current c; task_upd cur (set_cwd path);; mret 0
            else mret (-1)
        | None => mret (-1)
        end
  end.

(** The bytes put in [buf], if any, and the value returned; [buf] is whether the
    pointer is not NULL. [kernel/system/task.c: sys_getcwd] *)
Definition sys_getcwd (c : nat) (buf : bool) (size : Z) : M sched (Z * list Z) :=
  cur ← task_current c;
  tp ← task cur;
  let len := strlenZ (t_cwd tp) in
  if negb buf || (size <=? len) then mret (-1, [])
  else mret (len, c_bytes (t_cwd tp)).

(** [kernel/system/task.c: sys_kill] *)
Definition sys_kill (c : nat) (pid : Z) : M sched Z :=
  t ← task_find pid;
  k ← gets kernel_task;
  if (t =? 0) || (t =? k) then mret (-1)
  else b ← task_kill c t; mret (if (b : bool) then 0 else -1).

(** The second component is what is stored through [code].
    [kernel/system/task.c: sys_task_status] *)
Definition sys_task_status (pid : Z) : M sched (Z * option Z) :=
  t ← task_find pid;
  if t =? 0 then mret (1, Some (-1))
  else
    tp ← task t;
    if decide (t_state tp = TASK_DEAD) then mret (1, Some (t_exit_code tp))
    else mret (if t_detached tp then 2 else 0, None).

(** [kernel/system/task.c: sys_getpid] *)
Definition sys_getpid (c : nat) : M sched Z :=
  cur ← task_current c;
  if cur =? 0 then mret 0 else t ← task cur; mret (t_pid t).
End Task.
#[global] Arguments sched H : clear implicits.
