(* ===== verification/TaskRing.v ===== *)
(** * The run queue of kernel/system/task.c as a ring

    The circular list through [next] is a list of tasks, the head first: insertion,
    removal, the search of [pick_next] and the walks that wake tasks, each with the
    list it leaves.  Theorems: the round robin of [pick_next], what [wake_sleepers]
    wakes. *)
From S2P Require Import Prelude RawMem Pmm Heap VfsTypes Task.
Local Open Scope kernel_scope.

Section TaskRing.
Context {H : Type} `{KM : KernelMem H} {KL : KernelMemLaws H} `{TS : TaskServices H} {TL : TaskServicesLaws H}.
Local Abbreviation sched := (Task.sched H).
Implicit Types s : sched.

(** ** Invariants *)

(** [seg m p l q]: from [p], following [next], the tasks are [l] and the link out of
    the last one is [q]. *)
Fixpoint seg (m : gmap Z Task) (p : Z) (l : list Z) (q : Z) : Prop :=
  match l with
  | [] => p = q
  | x :: l' => p = x ∧ ∃ t, m !! p = Some t ∧ seg m (t_next t) l' q
  end.
(** The run queue entered at [h] is the ring [r], [h] first. *)
Definition ring (m : gmap Z Task) (h : Z) (r : list Z) : Prop :=
  match r with [] => h = 0 | _ => h ≠ 0 ∧ NoDup r ∧ seg m h r h end.
(** The order in which [pick_next] looks at the tasks of a ring. *)
Definition rq_order (r : list Z) : list Z := match r with [] => [] | h :: l => l ++ [h] end.

(** [tchain m p l]: from [p], following [list_next] to NULL, the tasks are [l]. *)
Fixpoint tchain (m : gmap Z Task) (p : Z) (l : list Z) : Prop :=
  match l with
  | [] => p = 0
  | x :: l' => p = x ∧ p ≠ 0 ∧ ∃ t, m !! p = Some t ∧ tchain m (t_list_next t) l'
  end.

Definition in_state (m : gmap Z Task) (st : TaskState) (p : Z) : Prop :=
  ∃ t, m !! p = Some t ∧ t_state t = st.
Definition ready (m : gmap Z Task) (p : Z) : Prop := in_state m TASK_READY p.

(** The tasks of [r] changed by [u]. *)
Definition upd_in (r : list Z) (u : Task → Task) (m : gmap Z Task) : gmap Z Task :=
  map_imap (λ p t, Some (if decide (p ∈ r) then u t else t)) m.

(** Where [run_queue_push] puts a task. *)
Definition rq_insert (t : Z) (r : list Z) : list Z := match r with [] => [t] | h :: l => h :: t :: l end.
(** The tasks without their [next] fields. *)
Definition strip_next (m : gmap Z Task) : gmap Z Task := set_next 0 <$> m.

(** ** Lemmas: segments and rings *)
Section Rings.
Implicit Types m : gmap Z Task.

Lemma seg_app m p l1 l2 q : seg m p (l1 ++ l2) q ↔ ∃ k, seg m p l1 k ∧ seg m k l2 q.
Proof.
  revert p. induction l1 as [|x l1 IH]; intros p; simpl.
  - split; [eauto|]. by intros (k & -> & ?).
  - split.
    + intros (-> & t & Ht & (k & ? & ?)%IH). eauto 6.
    + intros (k & (-> & t & Ht & ?) & ?). split; [done|]. exists t. split; [done|]. apply IH. eauto.
Qed.

Lemma seg_elem m p l q x : seg m p l q → x ∈ l → is_Some (m !! x).
Proof.
  revert p. induction l as [|y l IH]; intros p; simpl; [by intros _ ?%not_elem_of_nil|].
  intros (-> & t & Ht & Hs) [->|Hx]%list.elem_of_cons; eauto.
Qed.

(** A segment depends on the [next] fields of its tasks only. *)
Lemma seg_ext m m' p l q :
  (∀ x t, x ∈ l → m !! x = Some t → ∃ t', m' !! x = Some t' ∧ t_next t' = t_next t) →
  seg m p l q → seg m' p l q.
Proof.
  revert p. induction l as [|x l IH]; intros p He; simpl; [done|].
  intros (-> & t & Ht & Hs). split; [done|].
  destruct (He x t) as (t' & Ht' & En); [left|done|]. exists t'. split; [done|]. rewrite En.
  apply IH; [|done]. intros y u Hy. apply He. by right.
Qed.

Lemma ring_ext m m' h r :
  (∀ x t, x ∈ r → m !! x = Some t → ∃ t', m' !! x = Some t' ∧ t_next t' = t_next t) →
  ring m h r → ring m' h r.
Proof. destruct r; [done|]. intros He (?&?&?). split_and!; [done..|]. by eapply seg_ext. Qed.

Lemma seg_insert m p l q x t : x ∉ l → seg m p l q → seg (<[x := t]> m) p l q.
Proof.
  intros Hx. apply seg_ext. intros y u Hy Hu. exists u. rewrite lookup_insert_ne by congruence. done.
Qed.

Lemma ring_upd m h r x t t' : m !! x = Some t → t_next t' = t_next t → ring m h r → ring (<[x := t']> m) h r.
Proof.
  intros Hx En. apply ring_ext. intros y u Hy Hu. destruct (decide (y = x)) as [->|].
  - exists t'. rewrite lookup_insert_eq. split; [done|]. congruence.
  - exists u. by rewrite lookup_insert_ne by done.
Qed.

(** A new out link for the last task of a segment. *)
Lemma seg_relink m p l x t q q' :
  x ∉ l → m !! x = Some t → seg m p (l ++ [x]) q → seg (<[x := set_next q' t]> m) p (l ++ [x]) q'.
Proof.
  intros Hx Ht (k & H1 & (-> & t' & Ht' & _))%seg_app. apply seg_app. exists x.
  split; [by apply seg_insert|]. split; [done|]. exists (set_next q' t). by rewrite lookup_insert_eq.
Qed.

Lemma ring_elem m h r x : ring m h r → x ∈ r → is_Some (m !! x).
Proof. destruct r; [by intros _ ?%not_elem_of_nil|]. intros (_&_&?). by eapply seg_elem. Qed.

Lemma ring_nodup m h r : ring m h r → NoDup r.
Proof. destruct r; [constructor|]. by intros (_&?&_). Qed.

Lemma ring_head m h x l : ring m h (x :: l) → h = x.
Proof. by intros (_ & _ & ? & _). Qed.

Lemma ring_nil_iff m h r : ring m h r → h = 0 ↔ r = [].
Proof. destruct r; [done|]. intros (?&_). done. Qed.

Lemma nodup_length (m : gmap Z Task) r : NoDup r → (∀ x, x ∈ r → is_Some (m !! x)) → (length r <= size m)%nat.
Proof.
  intros Hn He. rewrite <- (size_list_to_set (C := gset Z) r Hn), <- size_dom.
  apply subseteq_size. intros x Hx%elem_of_list_to_set. apply elem_of_dom. auto.
Qed.

Lemma ring_length m h r : ring m h r → (length r <= size m)%nat.
Proof. intros R. apply nodup_length; [by eapply ring_nodup|]. intros x. by eapply ring_elem. Qed.

(** The ring entered at another of its tasks. *)
Lemma ring_rotate m h l1 t l2 : m !! 0 = None → ring m h (l1 ++ t :: l2) → ring m t (t :: l2 ++ l1).
Proof.
  intros H0 R. assert (t ≠ 0).
  { intros ->. destruct (ring_elem _ _ _ 0 R) as [? ?]; [set_solver|congruence]. }
  destruct l1 as [|x l1].
  { rewrite app_nil_r. simpl in R. by rewrite (ring_head _ _ _ _ R) in R. }
  pose proof (ring_head _ _ _ _ R) as ->. destruct R as (_ & Hn & (k & S1 & S2)%seg_app).
  pose proof S2 as [-> _]. split_and!; [done| |].
  - rewrite app_comm_cons. by rewrite Permutation_app_comm.
  - rewrite app_comm_cons. apply seg_app. eauto.
Qed.

Lemma rq_order_rotate m h r a t b : m !! 0 = None → ring m h r → rq_order r = a ++ t :: b → ring m t (t :: b ++ a).
Proof.
  intros H0 R. destruct r as [|x l]; simpl; [by destruct a|]. intros E.
  destruct b as [|y b _] using rev_ind.
  - apply app_inj_tail in E as [-> ->]. simpl. pose proof (ring_head _ _ _ _ R) as ->. done.
  - rewrite app_comm_cons, app_assoc in E. apply app_inj_tail in E as [-> ->].
    rewrite <- app_assoc. simpl. by apply (ring_rotate m h (y :: a)).
Qed.

Lemma rq_order_perm r : rq_order r ≡ₚ r.
Proof. destruct r; [done|]. simpl. by rewrite <- Permutation_cons_append. Qed.

Lemma lookup_upd_in r u m p :
  upd_in r u m !! p = (λ t, if decide (p ∈ r) then u t else t) <$> m !! p.
Proof. unfold upd_in. rewrite map_lookup_imap. by destruct (m !! p). Qed.

Lemma tchain_ext m m' p l :
  (∀ x t, x ∈ l → m !! x = Some t → ∃ t', m' !! x = Some t' ∧ t_list_next t' = t_list_next t) →
  tchain m p l → tchain m' p l.
Proof.
  revert p. induction l as [|x l IH]; intros p He; simpl; [done|].
  intros (-> & ? & t & Ht & Hs). split_and!; [done..|].
  destruct (He x t) as (t' & Ht' & En); [left|done|]. exists t'. split; [done|]. rewrite En.
  apply IH; [|done]. intros y w Hy. apply He. by right.
Qed.
End Rings.

(** ** Lemmas: steps on the state *)
Lemma wp_task p t Q s : k_tasks s !! p = Some t → Q t s → wp (task p) Q s.
Proof. intros Ht HQ. unfold task. wp_steps. by apply (wp_lift _ _ _ t). Qed.

Lemma wp_task_upd p f t (Q : unit → sched → Prop) s :
  k_tasks s !! p = Some t → Q tt (set_tasks (<[p := f t]> (k_tasks s)) s) → wp (task_upd p f) Q s.
Proof. intros Ht HQ. unfold task_upd. wp_steps. apply (wp_task p t); [done|]. by wp_steps. Qed.

Lemma wp_this_cpu c cpu Q s : cpus s !! c = Some cpu → Q cpu s → wp (this_cpu c) Q s.
Proof. intros Hc HQ. unfold this_cpu. wp_steps. by apply (wp_lift _ _ _ cpu). Qed.

Lemma wp_cpu_upd c f cpu (Q : unit → sched → Prop) s :
  cpus s !! c = Some cpu → Q tt (set_cpus (<[c := f cpu]> (cpus s)) s) → wp (cpu_upd c f) Q s.
Proof. intros Hc HQ. unfold cpu_upd. wp_steps. apply (wp_this_cpu c cpu); [done|]. by wp_steps. Qed.

Lemma set_tasks_twice m m' s : set_tasks m (set_tasks m' s) = set_tasks m s.
Proof. done. Qed.
Lemma set_tasks_id s : set_tasks (k_tasks s) s = s.
Proof. by destruct s. Qed.

(** ** Lemmas: the run queue *)
Lemma pick_loop_wp fuel p l h s (Q : Z → sched → Prop) :
  seg (k_tasks s) p (p :: l) h → task_run_queue s = h → is_Some (k_tasks s !! h) → h ∉ l → (length l < fuel)%nat →
  (∀ a t b, l ++ [h] = a ++ t :: b → Forall (λ x, ¬ ready (k_tasks s) x) a → ready (k_tasks s) t →
     Q t (set_run_queue t s)) →
  (Forall (λ x, ¬ ready (k_tasks s) x) (l ++ [h]) → Q 0 s) →
  wp (pick_loop fuel p) Q s.
Proof.
  intros Hs Hh [th Hth]. revert p fuel Hs Q. induction l as [|x l IH]; intros p fuel Hs Q Hnin Hf HQ1 HQ0;
    (destruct fuel as [|fuel]; [simpl in Hf; lia|]); cbn [pick_loop]; destruct Hs as (_ & tp & Htp & Hs).
  - simpl in Hs. wp_steps. apply (wp_task p tp); [done|]. wp_steps. rewrite Hs.
    apply (wp_task h th); [done|]. destruct decide as [Er|Er].
    + wp_steps. apply (HQ1 [] h []); [done..|]. by exists th.
    + wp_steps. rewrite Hh, Z.eqb_refl. wp_steps. apply HQ0. constructor; [|done].
      intros (t & Ht & ?). congruence.
  - destruct Hs as (Ex & tx & Htx & Hs). rewrite Ex in *. wp_steps. apply (wp_task p tp); [done|]. wp_steps.
    rewrite Ex. apply (wp_task x tx); [done|]. destruct decide as [Er|Er].
    + wp_steps. apply (HQ1 [] x (l ++ [h])); [done..|]. by exists tx.
    + wp_steps. rewrite Hh. apply not_elem_of_cons in Hnin as [Hne Hnin].
      destruct (Z.eqb_spec x h) as [->|_]; [done|].
      assert (Nx : ¬ ready (k_tasks s) x) by (intros (t & Ht & ?); congruence).
      apply IH; [|done|simpl in Hf; lia| |].
      * split; [done|]. eauto.
      * intros a t b E Ha Hr. apply (HQ1 (x :: a) t b); [by simpl; rewrite E|by constructor|done].
      * intros Ha. apply HQ0. by constructor.
Qed.

Lemma pick_next_wp r s (Q : Z → sched → Prop) :
  k_tasks s !! 0 = None → ring (k_tasks s) (task_run_queue s) r →
  (∀ a t b, rq_order r = a ++ t :: b → Forall (λ x, ¬ ready (k_tasks s) x) a → ready (k_tasks s) t →
     ring (k_tasks s) t (t :: b ++ a) → Q t (set_run_queue t s)) →
  (Forall (λ x, ¬ ready (k_tasks s) x) r → Q 0 s) →
  wp pick_next Q s.
Proof.
  intros H0 R HQ1 HQ0. unfold pick_next. wp_steps. destruct (Z.eqb_spec (task_run_queue s) 0) as [E|E].
  - wp_steps. apply HQ0. apply (ring_nil_iff _ _ _ R) in E as ->. done.
  - destruct r as [|h l]; [done|]. wp_steps. unfold task_fuel. wp_steps.
    pose proof (ring_length _ _ _ R) as Hl. pose proof (ring_head _ _ _ _ R) as Eh.
    pose proof (ring_nodup _ _ _ R) as [Hn _]%list.NoDup_cons.
    rewrite Eh. apply (pick_loop_wp _ h l h).
    + destruct R as (_ & _ & Hs). by rewrite Eh in Hs.
    + done.
    + apply (ring_elem _ _ _ _ R). left.
    + done.
    + simpl in Hl. lia.
    + intros a t b Eo Ha Ht. apply (HQ1 a t b); [done..|]. by eapply rq_order_rotate.
    + intros [Ha Hx]%list.Forall_app. apply HQ0. constructor; [|done]. by inversion Hx.
Qed.

Lemma strip_next_insert m p t x : m !! p = Some t → strip_next (<[p := set_next x t]> m) = strip_next m.
Proof.
  intros Hp. unfold strip_next. apply map_eq. intros q. rewrite !lookup_fmap.
  destruct (decide (q = p)) as [->|]; [|by rewrite lookup_insert_ne].
  rewrite lookup_insert_eq, Hp. done.
Qed.

Lemma strip_next_lookup m m' p t :
  strip_next m' = strip_next m → m !! p = Some t → ∃ t', m' !! p = Some t' ∧ set_next 0 t' = set_next 0 t.
Proof.
  intros E Hp. assert (E' : strip_next m' !! p = strip_next m !! p) by by rewrite E.
  unfold strip_next in E'. rewrite !lookup_fmap, Hp in E'.
  destruct (m' !! p) as [t'|]; simpl in E'; [|done]. exists t'. split; [done|congruence].
Qed.

Lemma run_queue_push_wp r t tp s (Q : unit → sched → Prop) :
  ring (k_tasks s) (task_run_queue s) r → k_tasks s !! t = Some tp → t ∉ r → t ≠ 0 →
  (∀ h m, ring m h (rq_insert t r) → strip_next m = strip_next (k_tasks s) →
     Q tt (set_run_queue h (set_tasks m s))) →
  wp (run_queue_push t) Q s.
Proof.
  intros R Ht Hnin Hnz HQ. unfold run_queue_push. wp_steps.
  destruct (Z.eqb_spec (task_run_queue s) 0) as [E|E].
  - apply (ring_nil_iff _ _ _ R) in E as ->. wp_steps. apply (wp_task_upd _ _ tp); [done|].
    change (Q tt (set_run_queue t (set_tasks (<[t := set_next t tp]> (k_tasks s)) s))).
    apply HQ; [|by apply strip_next_insert].
    split_and!; [done|apply NoDup_singleton|]. split; [done|]. eexists. by rewrite lookup_insert_eq.
  - destruct r as [|h l]; [done|]. pose proof (ring_head _ _ _ _ R) as Eh. rewrite Eh in *.
    apply not_elem_of_cons in Hnin as [Hth Hnin]. pose proof R as (_ & Hn & _ & th & Hh & Hs).
    wp_steps. apply (wp_task h th); [done|]. wp_steps. apply (wp_task_upd _ _ tp); [done|].
    wp_steps. apply (wp_task_upd _ _ th).
    { cbn [k_tasks set_tasks]. by rewrite lookup_insert_ne. }
    rewrite set_tasks_twice.
    replace (set_tasks _ s) with (set_run_queue h (set_tasks (<[h := set_next t th]> (<[t := set_next (t_next th) tp]> (k_tasks s))) s))
      by (rewrite <- Eh; by destruct s).
    apply HQ.
    + split_and!; [done| |].
      * apply list.NoDup_cons in Hn as [Hhl Hn]. repeat (apply list.NoDup_cons; split); set_solver.
      * split; [done|]. exists (set_next t th). rewrite lookup_insert_eq. split; [done|].
        split; [done|]. exists (set_next (t_next th) tp). cbn [t_next set_next].
        rewrite lookup_insert_ne, lookup_insert_eq by done. split; [done|]. cbn [t_next set_next].
        apply seg_insert; [by apply list.NoDup_cons in Hn as [? _]|]. by apply seg_insert.
    + rewrite strip_next_insert by by rewrite lookup_insert_ne. by apply strip_next_insert.
Qed.

(** The body of the loop where [p] is the task before [t]. *)
Lemma rq_unlink_wp p t tp td s (Q : unit → sched → Prop) :
  p ≠ t → k_tasks s !! p = Some tp → k_tasks s !! t = Some td →
  Q tt (set_run_queue (if task_run_queue s =? t then t_next td else task_run_queue s)
          (set_tasks (<[p := set_next (t_next td) tp]> (k_tasks s)) s)) →
  wp (td' ← task t; task_upd p (set_next (t_next td'));; h ← gets task_run_queue;
      if h =? t then td'' ← task t; modify (set_run_queue (t_next td'')) else mret tt) Q s.
Proof.
  intros Hne Hp Ht. intros HQ. wp_steps. apply (wp_task t td); [done|]. wp_steps.
  apply (wp_task_upd _ _ tp); [done|]. wp_steps. cbn [task_run_queue set_tasks].
  destruct (task_run_queue s =? t); wp_steps; [|by destruct s].
  apply (wp_task t td); [|by wp_steps]. cbn [k_tasks set_tasks]. by rewrite lookup_insert_ne.
Qed.

Lemma rq_remove_loop_wp fuel p l h a a' pr t b tp td s (Q : unit → sched → Prop) :
  seg (k_tasks s) p (p :: l) h → task_run_queue s = h → (length l < fuel)%nat →
  NoDup (l ++ [h]) → l ++ [h] = a ++ t :: b → p :: a = a' ++ [pr] → pr ≠ t →
  k_tasks s !! pr = Some tp → k_tasks s !! t = Some td →
  Q tt (set_run_queue (if h =? t then t_next td else h) (set_tasks (<[pr := set_next (t_next td) tp]> (k_tasks s)) s)) →
  wp (rq_remove_loop fuel p t) Q s.
Proof.
  intros Hs Hh. revert p fuel Hs a a'.
  induction l as [|x l IH]; intros p fuel Hs a a' Hf Hn El Ea Hne Hpr Ht HQ;
    (destruct fuel as [|fuel]; [simpl in Hf; lia|]); cbn [rq_remove_loop]; destruct Hs as (_ & tx & Htx & Hs).
  - simpl in Hs. wp_steps. apply (wp_task p tx); [done|]. wp_steps.
    destruct a as [|? a]; [|destruct a; simplify_eq/=]. assert (h = t) as E by (simpl in El; congruence).
    rewrite Hs, E, Z.eqb_refl.
    assert (p = pr) as -> by (destruct a' as [|? [|]]; simpl in Ea; congruence).
    apply (rq_unlink_wp _ _ tp td); [done..|]. by rewrite Hh.
  - destruct Hs as (Ex & ty & Hty & Hs). wp_steps. apply (wp_task p tx); [done|]. wp_steps.
    rewrite Ex in *. destruct a as [|x' a].
    + assert (x = t) as -> by (simpl in El; congruence). rewrite Z.eqb_refl.
      assert (p = pr) as -> by (destruct a' as [|? [|]]; simpl in Ea; congruence).
      apply (rq_unlink_wp _ _ tp td); [done..|]. by rewrite Hh.
    + simpl in El, Hn. injection El as <- El. apply list.NoDup_cons in Hn as [Hxl Hn].
      destruct (Z.eqb_spec x t) as [E|_]; [exfalso; apply Hxl; rewrite El, E; set_solver|].
      wp_steps. destruct (Z.eqb_spec x (task_run_queue s)) as [E|_]; [exfalso; apply Hxl; rewrite E, Hh; set_solver|].
      destruct a' as [|? a']; [simpl in Ea; congruence|]. simpl in Ea. injection Ea as <- Ea.
      apply (IH _ fuel) with (a := a) (a' := a'); try done; [split; [done|]; eauto|simpl in Hf; lia].
Qed.

Lemma rq_remove_loop_absent_wp fuel p l h t s (Q : unit → sched → Prop) :
  seg (k_tasks s) p (p :: l) h → task_run_queue s = h → (length l < fuel)%nat →
  t ∉ l ++ [h] → Q tt s → wp (rq_remove_loop fuel p t) Q s.
Proof.
  intros Hs Hh. revert p fuel Hs. induction l as [|x l IH]; intros p fuel Hs Hf Ht HQ;
    (destruct fuel as [|fuel]; [simpl in Hf; lia|]); cbn [rq_remove_loop]; destruct Hs as (_ & tx & Htx & Hs);
    wp_steps; (apply (wp_task p tx); [done|]); wp_steps.
  - simpl in Hs. destruct (Z.eqb_spec (t_next tx) t) as [E|_]; [exfalso; apply Ht; rewrite <- E, Hs; set_solver|].
    wp_steps. rewrite Hs, Hh, Z.eqb_refl. by wp_steps.
  - destruct Hs as (Ex & ty & Hty & Hs). rewrite Ex in *.
    destruct (Z.eqb_spec x t) as [E|_]; [exfalso; apply Ht; rewrite <- E; set_solver|].
    wp_steps. destruct (x =? task_run_queue s); [by wp_steps|]. apply IH; [|simpl in Hf; lia|set_solver|done].
    split; [done|]. eauto.
Qed.

Lemma filter_ne_app (l1 l2 : list Z) t : NoDup (l1 ++ t :: l2) → filter (λ x, x ≠ t) (l1 ++ t :: l2) = l1 ++ l2.
Proof.
  intros [Hn _]%NoDup_middle. rewrite list.filter_app, filter_cons_False by (by intros []).
  f_equal; apply filter_all; intros i x Hx%list_elem_of_lookup_2 ->; apply Hn; set_solver.
Qed.

Lemma filter_ne_absent (l : list Z) t : t ∉ l → filter (λ x, x ≠ t) l = l.
Proof. intros Hn. apply filter_all. intros i x Hx%list_elem_of_lookup_2 ->. done. Qed.

Lemma unlinked_ring m h l a t b a' pr tp td :
  m !! 0 = None → ring m h (h :: l) → l ++ [h] = a ++ t :: b → h :: a = a' ++ [pr] → pr ≠ t →
  m !! pr = Some tp → m !! t = Some td →
  ring (<[pr := set_next (t_next td) tp]> m) (if h =? t then t_next td else h) (filter (λ x, x ≠ t) (h :: l)).
Proof.
  intros H0 R Eo Ea Hne Hp Ht. pose proof (rq_order_rotate m h (h :: l) a t b H0 R Eo) as (_ & Hn & _ & td' & Ht' & Hs).
  simplify_eq. apply list.NoDup_cons in Hn as [Hnt Hn].
  assert (exists l0, b ++ a = l0 ++ [pr]) as [l0 E0].
  { destruct a as [|y a _] using rev_ind.
    - destruct a' as [|? [|]]; simplify_eq/=. destruct l as [|y l]; simplify_eq/=. rewrite app_nil_r. eauto.
    - rewrite app_comm_cons in Ea. apply app_inj_tail in Ea as [_ ->]. exists (b ++ a). by rewrite app_assoc. }
  set (m' := <[pr := _]> m).
  assert (R' : ring m' (t_next td) (b ++ a)).
  { rewrite E0 in *. pose proof Hn as Hn'. apply list.NoDup_app in Hn' as (_ & Hd & _).
    assert (Hs' : seg m' (t_next td) (l0 ++ [pr]) (t_next td)).
    { eapply seg_relink; [|done|done]. intros Hin. apply (Hd pr Hin). left. }
    unfold ring. destruct (l0 ++ [pr]) as [|z l1] eqn:El; [by destruct l0|]. split_and!; [|done|done].
    destruct Hs' as (E & t1 & E1 & _). intros E2. rewrite E2 in E1. unfold m' in E1.
    rewrite lookup_insert_ne in E1; [congruence|]. intros ->. congruence. }
  assert (H0' : m' !! 0 = None) by (unfold m'; rewrite lookup_insert_ne; [done|]; intros ->; congruence).
  pose proof (ring_nodup _ _ _ R) as Hnr.
  destruct b as [|z b _] using rev_ind.
  - apply app_inj_tail in Eo as [-> ->]. rewrite Z.eqb_refl.
    change (t :: a) with ([] ++ t :: a). rewrite filter_ne_app by done. done.
  - rewrite app_comm_cons, app_assoc in Eo. apply app_inj_tail in Eo as [-> ->].
    destruct (Z.eqb_spec z t) as [->|_].
    { exfalso. apply Hnt. set_solver. }
    change (z :: a ++ t :: b) with ((z :: a) ++ t :: b). rewrite filter_ne_app by done. simpl.
    rewrite <- app_assoc in R'. simpl in R'. by apply (ring_rotate m' (t_next td) b).
Qed.

Lemma run_queue_remove_wp r t s (Q : unit → sched → Prop) :
  k_tasks s !! 0 = None → ring (k_tasks s) (task_run_queue s) r →
  (∀ h m, ring m h (filter (λ x, x ≠ t) r) → strip_next m = strip_next (k_tasks s) →
     Q tt (set_run_queue h (set_tasks m s))) →
  wp (run_queue_remove t) Q s.
Proof.
  intros H0 R HQ.
  assert (Hid : t ∉ r → Q tt s).
  { intros Hn. replace s with (set_run_queue (task_run_queue s) (set_tasks (k_tasks s) s)) by by destruct s.
    apply HQ; [by rewrite filter_ne_absent|done]. }
  unfold run_queue_remove. wp_steps. destruct (Z.eqb_spec (task_run_queue s) 0) as [E|E].
  { wp_steps. apply (ring_nil_iff _ _ _ R) in E as ->. apply Hid. set_solver. }
  destruct r as [|h l]; [done|]. pose proof (ring_head _ _ _ _ R) as Eh. rewrite Eh in *.
  pose proof R as (_ & Hn & Hs). pose proof Hs as (_ & th & Hth & Hs').
  wp_steps. apply (wp_task h th); [done|].
  destruct ((h =? t) && (t_next th =? t)) eqn:Eb.
  { apply andb_true_iff in Eb as [<-%Z.eqb_eq Et%Z.eqb_eq]. wp_steps.
    assert (l = []) as ->.
    { destruct l; [done|]. destruct Hs' as [E1 _]. apply list.NoDup_cons in Hn as [Hn _]. set_solver. }
    replace (set_run_queue 0 s) with (set_run_queue 0 (set_tasks (k_tasks s) s)) by by destruct s.
    apply HQ; [|done]. change [h] with ([] ++ h :: []). rewrite filter_ne_app by done. done. }
  unfold task_fuel. wp_steps. pose proof (ring_length _ _ _ R) as Hl. cbn [length] in Hl.
  destruct (decide (t ∈ h :: l)) as [Hin|Hnin].
  - rewrite <- (rq_order_perm (h :: l)) in Hin. simpl in Hin.
    apply list_elem_of_split in Hin as (a & b & Eo).
    destruct (@exists_last _ (h :: a)) as (a' & pr & Ea); [done|].
    assert (Hno : NoDup (l ++ [h])) by by rewrite (rq_order_perm (h :: l)).
    assert (Hpt : pr ≠ t).
    { intros ->. destruct a as [|y a _] using rev_ind.
      - destruct a' as [|? [|]]; simplify_eq/=. rewrite Z.eqb_refl in Eb. simpl in Eb.
        destruct l as [|z l]; simplify_eq/=; [by rewrite Hs', Z.eqb_refl in Eb|].
        destruct Hs' as [E1 _]. by rewrite E1, Z.eqb_refl in Eb.
      - rewrite app_comm_cons in Ea. apply app_inj_tail in Ea as [_ ->].
        rewrite Eo, <- app_assoc in Hno. apply list.NoDup_app in Hno as (_ & _ & Hno).
        apply list.NoDup_cons in Hno as [Hno _]. set_solver. }
    assert (Hp : is_Some (k_tasks s !! pr)).
    { eapply ring_elem; [exact R|]. rewrite <- (rq_order_perm (h :: l)).
      assert (Hpr : pr ∈ h :: a) by (rewrite Ea; set_solver). simpl. rewrite Eo. 
      apply list.elem_of_cons in Hpr as [->|]; [|set_solver]. rewrite <- Eo. set_solver. }
    assert (Ht : is_Some (k_tasks s !! t)).
    { eapply ring_elem; [exact R|]. rewrite <- (rq_order_perm (h :: l)). simpl. rewrite Eo. set_solver. }
    destruct Hp as [tp Hp], Ht as [td Ht].
    eapply rq_remove_loop_wp; try done; [lia|]. apply HQ; [by eapply unlinked_ring|by apply strip_next_insert].
  - eapply rq_remove_loop_absent_wp; [done..|lia| |by apply Hid]. set_solver.
Qed.

(** ** Lemmas: the walks *)
Lemma upd_in_one p u t m : m !! p = Some t → upd_in [p] u m = <[p := u t]> m.
Proof.
  intros Hp. apply map_eq. intros q. rewrite lookup_upd_in. destruct (decide (q = p)) as [->|].
  - rewrite lookup_insert_eq, Hp. simpl. by rewrite decide_True by set_solver.
  - rewrite lookup_insert_ne by done. destruct (m !! q); simpl; [|done].
    by rewrite decide_False by set_solver.
Qed.

Lemma upd_in_cons p l u m : p ∉ l → upd_in l u (upd_in [p] u m) = upd_in (p :: l) u m.
Proof.
  intros Hp. apply map_eq. intros q. rewrite !lookup_upd_in. destruct (m !! q); simpl; [|done]. f_equal.
  destruct (decide (q = p)) as [->|].
  - rewrite (decide_False (P := p ∈ l)) by done. by rewrite !decide_True by set_solver.
  - rewrite (decide_False (P := q ∈ [p])) by set_solver. destruct (decide (q ∈ l)).
    + by rewrite decide_True by set_solver.
    + by rewrite decide_False by set_solver.
Qed.

Lemma upd_in_nil u m : upd_in [] u m = m.
Proof.
  apply map_eq. intros q. rewrite lookup_upd_in. by destruct (m !! q).
Qed.

(** A loop body that changes the task it is at. *)
Definition visit_if (test : Task → bool) (g : Task → Task) (p : Z) : M sched unit :=
  t ← task p; if test t then task_upd p g else mret tt.

Lemma visit_if_wp (test : Task → bool) (g : Task → Task) p s (Q : unit → sched → Prop) :
  is_Some (k_tasks s !! p) →
  Q tt (set_tasks (upd_in [p] (λ t, if test t then g t else t) (k_tasks s)) s) → wp (visit_if test g p) Q s.
Proof.
  intros [t Ht]. rewrite (upd_in_one _ _ t) by done. intros HQ. unfold visit_if. wp_steps.
  apply (wp_task p t); [done|]. destruct (test t); [by apply (wp_task_upd _ _ t)|].
  wp_steps. by rewrite insert_id, set_tasks_id in HQ.
Qed.

Lemma ring_loop_wp (test : Task → bool) (g : Task → Task) fuel p l h s (Q : unit → sched → Prop) :
  (∀ t, t_next (g t) = t_next t) →
  seg (k_tasks s) p (p :: l) h → NoDup (p :: l) → h ∉ l → task_run_queue s = h → (length l < fuel)%nat →
  Q tt (set_tasks (upd_in (p :: l) (λ t, if test t then g t else t) (k_tasks s)) s) →
  wp (ring_loop fuel p (visit_if test g)) Q s.
Proof.
  intros Hg. set (u := λ t, if test t then g t else t).
  revert p fuel s. induction l as [|x l IH]; intros p fuel s Hs Hn Hh Hq Hf HQ;
    (destruct fuel as [|fuel]; [simpl in Hf; lia|]); cbn [ring_loop]; pose proof Hs as (_ & t & Ht & Hs').
  all: wp_steps; apply visit_if_wp; [by eexists|]; rewrite (upd_in_one _ _ t) by done; wp_steps;
    (apply (wp_task p (u t)); [cbn [k_tasks set_tasks]; apply lookup_insert_eq|]); wp_steps;
    assert (Eu : t_next (u t) = t_next t) by (unfold u; by destruct (test t)); rewrite Eu; cbn [task_run_queue set_tasks].
  - simpl in Hs'. rewrite Hs', Hq, Z.eqb_refl. wp_steps. by rewrite (upd_in_one _ _ t) in HQ by done.
  - destruct Hs' as [Ex Hs']. rewrite Ex in *. apply list.NoDup_cons in Hn as [Hp Hn].
    destruct (Z.eqb_spec x (task_run_queue s)) as [E|_]; [exfalso; apply Hh; rewrite <- Hq, E; left|].
    apply IH; [|done|set_solver|done|simpl in Hf; lia|].
    + cbn [k_tasks set_tasks]. apply seg_insert; [done|]. by split.
    + cbn [k_tasks set_tasks]. rewrite set_tasks_twice. rewrite <- (upd_in_one _ u t), upd_in_cons by done. done.
Qed.

Lemma ring_walk_wp (test : Task → bool) (g : Task → Task) r s (Q : unit → sched → Prop) :
  (∀ t, t_next (g t) = t_next t) → ring (k_tasks s) (task_run_queue s) r →
  Q tt (set_tasks (upd_in r (λ t, if test t then g t else t) (k_tasks s)) s) →
  wp (h ← gets task_run_queue;
      if h =? 0 then mret tt else fuel ← task_fuel; ring_loop fuel h (visit_if test g)) Q s.
Proof.
  intros Hg R HQ. wp_steps. destruct (Z.eqb_spec (task_run_queue s) 0) as [E|E].
  - wp_steps. apply (ring_nil_iff _ _ _ R) in E as ->. by rewrite upd_in_nil, set_tasks_id in HQ.
  - destruct r as [|h l]; [done|]. pose proof (ring_head _ _ _ _ R) as Eh. pose proof (ring_length _ _ _ R) as Hl.
    pose proof R as (_ & Hn & Hs). unfold task_fuel. wp_steps. rewrite Eh in *.
    eapply ring_loop_wp; [done|exact Hs|done| |done|cbn [length] in Hl; lia|done].
    by apply list.NoDup_cons in Hn as [? _].
Qed.

Lemma wake_sleepers_wp now r s (Q : unit → sched → Prop) :
  ring (k_tasks s) (task_run_queue s) r →
  Q tt (set_tasks (upd_in r (λ t, if wakes now t then set_state TASK_READY t else t) (k_tasks s)) s) →
  wp (wake_sleepers now) Q s.
Proof. intros R HQ. by apply (ring_walk_wp (wakes now) (set_state TASK_READY) r). Qed.

Lemma task_wake_waiters_wp r s (Q : unit → sched → Prop) :
  ring (k_tasks s) (task_run_queue s) r →
  Q tt (set_tasks (upd_in r (λ t, if is_waiter t then set_state TASK_READY t else t) (k_tasks s)) s) →
  wp task_wake_waiters Q s.
Proof. intros R HQ. by apply (ring_walk_wp is_waiter (set_state TASK_READY) r). Qed.

Lemma tchain_elem m p l x : tchain m p l → x ∈ l → is_Some (m !! x).
Proof.
  revert p. induction l as [|y l IH]; intros p; simpl; [by intros _ ?%not_elem_of_nil|].
  intros (-> & _ & t & Ht & Hs) [->|Hx]%list.elem_of_cons; eauto.
Qed.

(** [list_loop] over a chain, with a body that changes the task it is at by [u]. *)
Lemma list_loop_wp (f : Z → M sched unit) (u : Task → Task) fuel p l s (Q : unit → sched → Prop) :
  (∀ q (s' : sched) (R : unit → sched → Prop), is_Some (k_tasks s' !! q) →
     R tt (set_tasks (upd_in [q] u (k_tasks s')) s') → wp (f q) R s') →
  (∀ t, t_list_next (u t) = t_list_next t) →
  tchain (k_tasks s) p l → NoDup l → (length l <= fuel)%nat →
  Q tt (set_tasks (upd_in l u (k_tasks s)) s) →
  wp (list_loop fuel p f) Q s.
Proof.
  intros Hbody Hu. revert p fuel s. induction l as [|x l IH]; intros p fuel s Hs Hn Hf HQ.
  - simpl in Hs. rewrite Hs. destruct fuel; simpl; wp_steps; by rewrite upd_in_nil, set_tasks_id in HQ.
  - destruct fuel as [|fuel]; [simpl in Hf; lia|]. destruct Hs as (-> & Hx & t & Ht & Hs).
    cbn [list_loop]. destruct (Z.eqb_spec x 0); [done|]. apply list.NoDup_cons in Hn as [Hxl Hn].
    wp_steps. apply Hbody; [by eexists|]. rewrite (upd_in_one _ _ t) by done. wp_steps.
    apply (wp_task x (u t)); [cbn [k_tasks set_tasks]; apply lookup_insert_eq|]. wp_steps. rewrite Hu.
    apply IH; [|done|simpl in Hf; lia|].
    + cbn [k_tasks set_tasks]. eapply tchain_ext; [|exact Hs]. intros y ty Hy Hty. exists ty.
      rewrite lookup_insert_ne by congruence. done.
    + cbn [k_tasks set_tasks]. rewrite set_tasks_twice. rewrite <- (upd_in_one _ u t), upd_in_cons by done. done.
Qed.

(** ** Properties *)

(** One pick: a READY task [x] is either picked, or a READY task in front of it is, and [x]
    is then strictly nearer the front of the order in which the queue is searched. *)
Lemma pick_next_nearer r x a b s :
  k_tasks s !! 0 = None → ring (k_tasks s) (task_run_queue s) r → rq_order r = a ++ x :: b → ready (k_tasks s) x →
  ∃ t s' r', pick_next s = Some (t, s') ∧ k_tasks s' = k_tasks s ∧ ring (k_tasks s') (task_run_queue s') r' ∧
    r' ≡ₚ r ∧ ready (k_tasks s) t ∧
    (t = x ∨ ∃ a' b', t ∈ a ∧ rq_order r' = a' ++ x :: b' ∧ (length a' < length a)%nat).
Proof.
  intros H0 R Eo Hx.
  assert (W : wp pick_next (λ t s', k_tasks s' = k_tasks s ∧ ∃ r', ring (k_tasks s') (task_run_queue s') r' ∧
    r' ≡ₚ r ∧ ready (k_tasks s) t ∧
    (t = x ∨ ∃ a' b', t ∈ a ∧ rq_order r' = a' ++ x :: b' ∧ (length a' < length a)%nat)) s).
  { eapply pick_next_wp; [exact H0|exact R| |].
    - intros a1 t b1 Eo1 Ha Ht R'. split; [done|]. exists (t :: b1 ++ a1). split_and!; [exact R'| |exact Ht|].
      { rewrite <- (rq_order_perm r), Eo1, app_comm_cons. by rewrite Permutation_app_comm. }
      rewrite Eo in Eo1. apply app_eq_inv in Eo1 as [(k & -> & Ek)|(k & -> & Ek)].
      + destruct k as [|y k]; simpl in Ek; [left; congruence|]. injection Ek as <- ->.
        right. exists k, (b ++ a1 ++ [t]). simpl. rewrite <- !app_assoc. split_and!; [set_solver|done|].
        rewrite length_app. simpl. lia.
      + destruct k as [|y k]; simpl in Ek; [left; congruence|]. injection Ek as -> ->.
        rewrite list.Forall_app, list.Forall_cons in Ha. by destruct Ha as (_ & Hn & _).
    - intros Ha. rewrite <- (rq_order_perm r), Eo, list.Forall_app, list.Forall_cons in Ha.
      by destruct Ha as (_ & Hn & _). }
  apply wp_run in W as (t & s' & ? & ? & r' & ? & ? & ? & ?). exists t, s', r'. done.
Qed.

(** The queue between two picks: its tasks may be woken, put to sleep, blocked or have
    ended, but none is added to it or taken out of it. *)
Definition same_queue (s s' : sched) : Prop :=
  task_run_queue s' = task_run_queue s ∧ k_tasks s' !! 0 = None ∧
  ∀ p t, k_tasks s !! p = Some t → ∃ t', k_tasks s' !! p = Some t' ∧ t_next t' = t_next t.
(** The tasks picked one after the other while [x] is READY whenever one is picked. *)
Inductive picks (x : Z) : list Z → sched → sched → Prop :=
  | picks_nil s : picks x [] s s
  | picks_cons t ts s s1 s2 s' :
      pick_next s = Some (t, s1) → same_queue s1 s2 → ready (k_tasks s2) x → picks x ts s2 s' → picks x (t :: ts) s s'.

(** C34 (liveness) [pick_next, pick_loop]
    The scheduler is a round robin: while no task is added to the run queue or taken out of
    it, a READY task is picked after at most as many picks of other tasks as there were
    tasks in front of it, whatever the other tasks do in between; and there is always a
    pick. *)
Theorem pick_next_round_robin r x a b s ts s' :
  k_tasks s !! 0 = None → ring (k_tasks s) (task_run_queue s) r → rq_order r = a ++ x :: b → ready (k_tasks s) x →
  picks x ts s s' →
  ∃ t s2, pick_next s' = Some (t, s2) ∧ ready (k_tasks s') t ∧
    (x ∉ ts → (length ts <= length a)%nat ∧ (length ts = length a → t = x)).
Proof.
  intros H0 R Eo Hx P. revert r a b H0 R Eo Hx.
  induction P as [s|t ts s s1 s2 s' Hp (Eq & Hn & Ek) Hx2 _ IH]; intros r a b H0 R Eo Hx;
    destruct (pick_next_nearer r x a b s H0 R Eo Hx) as (t0 & s0 & r0 & Hp0 & Ek0 & R0 & Er0 & Hr0 & Hd).
  { exists t0, s0. split; [done|]. split; [done|]. intros _. split; [simpl; lia|]. intros El. simpl in El.
    destruct Hd as [->|(a' & b' & Ha & _ & Hl)]; [done|lia]. }
  rewrite Hp in Hp0. injection Hp0 as <- <-.
  assert (R2 : ring (k_tasks s2) (task_run_queue s2) r0).
  { rewrite Eq. eapply ring_ext; [|exact R0]. intros p u _ Hu. by apply Ek. }
  destruct Hd as [->|(a' & b' & _ & Eo' & Hl)].
  - assert (Hin : x ∈ rq_order r0) by (rewrite rq_order_perm, Er0, <- (rq_order_perm r), Eo; set_solver).
    apply list_elem_of_split in Hin as (a' & b' & Eo'). destruct (IH r0 a' b' Hn R2 Eo' Hx2) as (u & s3 & Hu & Hru & _).
    exists u, s3. split; [done|]. split; [done|]. intros Hnx. exfalso. apply Hnx. left.
  - destruct (IH r0 a' b' Hn R2 Eo' Hx2) as (u & s3 & Hu & Hru & Hb). exists u, s3. split; [done|]. split; [done|].
    intros Hnx. destruct Hb as [Hb1 Hb2]; [set_solver|]. split; [simpl; lia|]. simpl. intros El. apply Hb2. lia.
Qed.

(** [wake_sleepers(now)] makes READY exactly the sleeping tasks of the run queue whose
    [wake_tick] is in the half of the tick circle up to [now], the comparison being
    right across the wrap-around of the tick counter; nothing else changes. *)
Lemma wake_sleepers_exact r now s :
  ring (k_tasks s) (task_run_queue s) r →
  ∃ s', wake_sleepers now s = Some (tt, s') ∧ s' = set_tasks (k_tasks s') s ∧
    ∀ p, k_tasks s' !! p = (λ t, if decide (p ∈ r ∧ t_state t = TASK_SLEEPING ∧ (now - t_wake_tick t) mod 2 ^ 64 < 2 ^ 63)
                                 then set_state TASK_READY t else t) <$> k_tasks s !! p.
Proof.
  intros R.
  assert (W : wp (wake_sleepers now) (λ _ s', s' = set_tasks (k_tasks s') s ∧ ∀ p, k_tasks s' !! p =
     (λ t, if decide (p ∈ r ∧ t_state t = TASK_SLEEPING ∧ (now - t_wake_tick t) mod 2 ^ 64 < 2 ^ 63)
           then set_state TASK_READY t else t) <$> k_tasks s !! p) s).
  { eapply wake_sleepers_wp; [exact R|]. split; [done|]. intros p. cbn [k_tasks set_tasks]. rewrite lookup_upd_in.
    destruct (k_tasks s !! p) as [t|]; [|done]. simpl. f_equal. unfold wakes, s64.
    pose proof (u64_range (now - t_wake_tick t)) as Hu. fold (u64 (now - t_wake_tick t)).
    destruct (decide (p ∈ r)) as [Hr|Hr]; [|by rewrite decide_False by tauto].
    destruct (bool_decide_reflect (t_state t = TASK_SLEEPING)) as [Hs|Hs]; simpl; [|by rewrite decide_False by tauto].
    destruct (Z.ltb_spec (u64 (now - t_wake_tick t)) (2 ^ 63)).
    - destruct (Z.leb_spec 0 (u64 (now - t_wake_tick t))); [|lia]. by rewrite decide_True.
    - destruct (Z.leb_spec 0 (u64 (now - t_wake_tick t) - 2 ^ 64)); [lia|]. rewrite decide_False; [done|]. lia. }
  apply wp_run in W as ([] & s' & ? & ? & ?). eauto.
Qed.

End TaskRing.

(** ** A machine to try the theorems on *)

(** 1024 pages, the first two in use. *)
Definition demo_frames : pmm := Pmm (3 :: replicate 127 0) 128 (1024 * PAGE_SIZE) 1022 1022 (2 ^ 47).
Lemma demo_frames_wf : pmm_wf demo_frames.
Proof.
  constructor; [|vm_compute; repeat split; congruence ..].
  constructor; [done|]. apply Forall_replicate. done.
Qed.
Definition demo_kheap : heap := Heap demo_frames ∅.
Lemma demo_kheap_inv : km_inv demo_kheap [] [].
Proof. constructor; [apply demo_frames_wf|repeat constructor|constructor]. Qed.

(** A kernel without files: nothing to release, no program to load. *)
#[export] Instance demo_services : TaskServices heap := {
  ts_fs_release_task _ := mret [];
  ts_user_pages_release_task _ := mret tt;
  ts_vfs_stat _ := mret None;
  ts_vfs_open _ _ := mret (-1, None);
  ts_vfs_read f _ := mret (-1, [], f);
  ts_vfs_close f := mret (-1, f);
  ts_elf_load_image _ _ := mret None
}.
#[export] Instance demo_services_laws : TaskServicesLaws heap.
Proof. constructor; intros h t runs blocks Q I HQ; by apply HQ. Qed.


(** A ring of three tasks, the third asleep until tick 5. *)
Definition demo_ring : sched heap :=
  Sched demo_kheap
    {[ 16 := set_next 32 zero_task; 32 := set_next 48 zero_task;
       48 := set_next 16 (set_wake_tick 5 (set_state TASK_SLEEPING zero_task)) ]}
    ∅ 0 0 16 0 1 [].
Lemma demo_ring_ok : ring (k_tasks demo_ring) 16 [16; 32; 48].
Proof.
  split_and!; [done|repeat (apply list.NoDup_cons; split; [set_solver|]); apply NoDup_nil_2|].
  repeat (split; [reflexivity|eexists; split; [reflexivity|]]). reflexivity.
Qed.

(** The second task is picked while the first one, which the queue points to, waits. *)
Lemma pick_next_round_robin_witness :
  ∃ t s2, pick_next (run_state pick_next demo_ring) = Some (t, s2) ∧ ready (k_tasks (run_state pick_next demo_ring)) t ∧
    (16 ∉ [32] → (length [32] <= length [32; 48])%nat ∧ (length [32] = length [32; 48] → t = 16)).
Proof.
  refine (pick_next_round_robin [16; 32; 48] 16 [32; 48] [] demo_ring [32] _ _ demo_ring_ok _ _ _); [reflexivity|reflexivity| |].
  { exists (set_next 32 zero_task). split; reflexivity. }
  apply (picks_cons 16 32 [] _ (run_state pick_next demo_ring) (run_state pick_next demo_ring)); [reflexivity| | |apply picks_nil].
  - split_and!; [done|reflexivity|]. intros p t Hp. by exists t.
  - exists (set_next 32 zero_task). split; reflexivity.
Defined.

Lemma wake_sleepers_exact_witness :
  ∃ s', wake_sleepers 5 demo_ring = Some (tt, s') ∧ s' = set_tasks (k_tasks s') demo_ring ∧
    ∀ p, k_tasks s' !! p = (λ t, if decide (p ∈ [16; 32; 48] ∧ t_state t = TASK_SLEEPING ∧ (5 - t_wake_tick t) mod 2 ^ 64 < 2 ^ 63)
                                 then set_state TASK_READY t else t) <$> k_tasks demo_ring !! p.
Proof. exact (wake_sleepers_exact [16; 32; 48] 5 demo_ring demo_ring_ok). Defined.

