(* ===== verification/Sched.v ===== *)
(** * The invariants of kernel/system/task.c

    [sched_inv]: the lists, the CPUs and the states of the tasks agree; [mem_inv]: all
    memory of tasks is accounted for.  Both are shown to survive the steps the
    operations are made of: [schedule], a change of the lists, a task allocated or
    freed. *)
From S2P Require Import Prelude RawMem Pmm Heap VfsTypes Task TaskRing.
Local Open Scope kernel_scope.

Section Sched.
Context {H : Type} `{KM : KernelMem H} {KL : KernelMemLaws H} `{TS : TaskServices H} {TL : TaskServicesLaws H}.
Local Abbreviation sched := (Task.sched H).
Implicit Types s : sched.
(** A context the CPU can go back to. *)
Definition resumable (x : Context) : Prop := x ≠ CtxNone ∧ x ≠ CtxAt ResumeExit.


Definition waits (t : Task) : Prop :=
  (t_state t = TASK_READY ∨ t_state t = TASK_SLEEPING) ∧ resumable (t_context t).

(** The tasks are [l] in list order, the run queue is [r] from its head on.  Every CPU
    has an idle task of its own outside the ring and runs it or a task of the ring; the
    tasks run by the CPUs are distinct and RUNNING, nothing else in the ring is, and
    every task that waits for a CPU has a context to go back to.  [x] is the task of a
    CPU that is ending it, 0 for none. *)
Record sched_inv (l r : list Z) (x : Z) (s : sched) : Prop := {
  si_null : k_tasks s !! 0 = None;
  si_list : tchain (k_tasks s) (task_list s) l;
  si_nodup : NoDup l;
  si_all : ∀ p, is_Some (k_tasks s !! p) → p ∈ l;
  si_ring : ring (k_tasks s) (task_run_queue s) r;
  si_cpu : ∀ i cpu, cpus s !! i = Some cpu →
    is_Some (k_tasks s !! c_idle cpu) ∧ is_Some (k_tasks s !! c_current cpu) ∧
    (c_idle cpu ∉ r) ∧ (c_current cpu = c_idle cpu ∨ c_current cpu ∈ r);
  si_idles : ∀ i j ci cj, cpus s !! i = Some ci → cpus s !! j = Some cj → c_idle ci = c_idle cj → i = j;
  si_curs : ∀ i j ci cj, cpus s !! i = Some ci → cpus s !! j = Some cj → c_current ci = c_current cj → i = j;
  si_running : ∀ i cpu, cpus s !! i = Some cpu →
    in_state (k_tasks s) (if c_current cpu =? x then TASK_DEAD else TASK_RUNNING) (c_current cpu);
  si_queued : ∀ p t, k_tasks s !! p = Some t → p ∈ r →
    (t_state t = TASK_RUNNING ∧ ∃ i cpu, cpus s !! i = Some cpu ∧ c_current cpu = p) ∨
    waits t ∨ t_state t = TASK_DEAD;
  si_idle : ∀ i cpu t, cpus s !! i = Some cpu → c_current cpu ≠ c_idle cpu →
    k_tasks s !! c_idle cpu = Some t → waits t
}.

(** What [schedule] leaves its caller in: in [prev_state] if it was running. *)
Definition put_off (prev_state : TaskState) (t : Task) : Task :=
  if decide (t_state t = TASK_RUNNING) then set_state prev_state t else t.
(** The task chosen after [cur], put off as [tc1], and the ring it leaves: the first
    READY one in the order of the ring, else the idle task. *)
Definition choice (m : gmap Z Task) (idle : Z) (r : list Z) (next : Z) (r' : list Z) : Prop :=
  (∃ a b, rq_order r = a ++ next :: b ∧ Forall (λ p, ¬ ready m p) a ∧ ready m next ∧ r' = next :: b ++ a) ∨
  (Forall (λ p, ¬ ready m p) r ∧ next = idle ∧ r' = r).
(** The state [schedule] leaves when it chooses [next]. *)
Definition switched_to (c : nat) (cpu : Cpu) (rs : Resume) (tc1 : Task) (next : Z) (tn : Task) (h : Z) (s : sched) : sched :=
  let cur := c_current cpu in
  if decide (next = cur) then
    set_run_queue h (set_tasks (<[cur := set_resched_pending false (set_state TASK_RUNNING tc1)]> (k_tasks s)) s)
  else
    set_cpus (<[c := set_current next cpu]> (cpus s)) (set_run_queue h (set_tasks
      (<[cur := set_context (CtxAt rs) (set_resched_pending false tc1)]>
         (<[next := set_state TASK_RUNNING tn]> (k_tasks s))) s)).

(** The page runs a task owns, and the blocks behind tasks and argument lists; [sz]
    gives the size of an argument list's backing block. *)
Definition stack_runs (t : Task) : list (Z * Z) :=
  if t_stack_base t =? 0 then [] else [(t_stack_base t, t_stack_pages t)].
Definition img_runs (t : Task) : list (Z * Z) :=
  if t_owns_image t && negb (img_base (t_image t) =? 0)
  then [(img_base (t_image t), img_page_count (t_image t))] else [].
Definition runs_of (t : Task) : list (Z * Z) := stack_runs t ++ img_runs t.
Definition task_runs (m : gmap Z Task) : list (Z * Z) := map_to_list m ≫= (λ pt, runs_of pt.2).
Definition task_blocks (m : gmap Z Task) : list (Z * Z) := (λ pt, (pt.1, SIZEOF_TASK)) <$> map_to_list m.
Definition arg_blocks_of (sz : Z → Z) (ta : Z) (a : TaskArgs) : list (Z * Z) :=
  [(ta_argv a, 8 * (ta_argc a + 1)); (ta_backing a, sz ta); (ta, SIZEOF_TASK_ARGS)].
Definition arg_blocks (sz : Z → Z) (m : gmap Z TaskArgs) : list (Z * Z) :=
  map_to_list m ≫= (λ pa, arg_blocks_of sz pa.1 pa.2).
(** Every argument list belongs to one task. *)
Definition args_ok (m : gmap Z Task) (args : gmap Z TaskArgs) : Prop :=
  ∀ p t, m !! p = Some t → t_args t ≠ 0 →
    is_Some (args !! t_args t) ∧ ∀ q u, m !! q = Some u → t_args u = t_args t → q = p.
(** Memory is allotted to the tasks, their argument lists, and [runs] and [blocks] of others. *)
Definition km_parts (runs blocks : list (Z * Z)) (s : sched) : Prop :=
  ∃ sz, km_inv (k_mem s) (task_runs (k_tasks s) ++ runs)
          (task_blocks (k_tasks s) ++ arg_blocks sz (k_args s) ++ blocks).
Definition mem_inv (runs blocks : list (Z * Z)) (s : sched) : Prop :=
  km_parts runs blocks s ∧ args_ok (k_tasks s) (k_args s).

(** The tasks without their links. *)
Definition strip_links (m : gmap Z Task) : gmap Z Task := (λ t, set_list_next 0 (set_next 0 t)) <$> m.
Definition strip_list (m : gmap Z Task) : gmap Z Task := set_list_next 0 <$> m.
(** The state outside the tasks and their memory is the same. *)
Definition same_statics (s s' : sched) : Prop :=
  kernel_task s' = kernel_task s ∧ g_tick_count s' = g_tick_count s ∧ cpus s' = cpus s ∧ k_args s' = k_args s.

(** A task that is dead and on no CPU. *)
Definition gone (s : sched) (p : Z) : Prop :=
  in_state (k_tasks s) TASK_DEAD p ∧ ∀ i cpu, cpus s !! i = Some cpu → c_current cpu ≠ p.
(** What every operation of the scheduler guarantees: the invariants hold again, and a
    task that is gone stays so. *)
Definition task_inv (runs blocks : list (Z * Z)) (s : sched) : Prop :=
  (∃ l r, sched_inv l r 0 s) ∧ mem_inv runs blocks s.
Definition keeps_gone (s s' : sched) : Prop := ∀ p, gone s p → gone s' p.


(** ** Lemmas: the invariant *)

(** A task with other values in the fields the scheduler does not use. *)
Definition same_sched (t t' : Task) : Prop :=
  t_next t' = t_next t ∧ t_list_next t' = t_list_next t ∧ t_state t' = t_state t ∧ t_context t' = t_context t.

Lemma in_state_fun m st st' p : in_state m st p → in_state m st' p → st = st'.
Proof. intros (t & ? & ?) (t' & ? & ?). congruence. Qed.

Lemma sched_inv_upd l r x p t t' s :
  sched_inv l r x s → k_tasks s !! p = Some t → same_sched t t' →
  sched_inv l r x (set_tasks (<[p := t']> (k_tasks s)) s).
Proof.
  intros [I1 I2 I3 I4 I5 I6 I7 I8 I9 I10 I11] Hp (E1 & E2 & E3 & E4).
  assert (L : ∀ q u, <[p := t']> (k_tasks s) !! q = Some u → ∃ u', k_tasks s !! q = Some u' ∧ same_sched u' u).
  { intros q u. destruct (decide (q = p)) as [->|].
    - rewrite lookup_insert_eq. intros [= <-]. by exists t.
    - rewrite lookup_insert_ne by done. by exists u. }
  assert (L' : ∀ q, is_Some (k_tasks s !! q) → is_Some (<[p := t']> (k_tasks s) !! q)).
  { intros q Hq. apply lookup_insert_is_Some. destruct (decide (p = q)); auto. }
  constructor; cbn [k_tasks task_list task_run_queue cpus set_tasks]; try done.
  - rewrite lookup_insert_ne; [done|]. congruence.
  - eapply tchain_ext; [|exact I2]. intros q u _ Hq. destruct (decide (q = p)) as [->|].
    + exists t'. rewrite lookup_insert_eq. split; [done|]. congruence.
    + exists u. by rewrite lookup_insert_ne.
  - intros q [u (u' & ? & _)%L]. apply I4. by eexists.
  - by eapply ring_upd.
  - intros i cpu Hc. destruct (I6 i cpu Hc) as (? & ? & ? & ?). split_and!; auto.
  - intros i cpu Hc. destruct (I9 i cpu Hc) as (u & Hu & Hst). destruct (L' (c_current cpu)) as [u' Hu']; [by eexists|].
    exists u'. split; [done|]. destruct (L _ _ Hu') as (u2 & ? & (_ & _ & ? & _)). congruence.
  - intros q u (u' & Hu' & (_ & _ & Es & Ec))%L Hq. unfold waits. rewrite Es, Ec. by apply (I10 q).
  - intros i cpu u Hc Hne (u' & Hu' & (_ & _ & Es & Ec))%L. unfold waits. rewrite Es, Ec. by eapply I11.
Qed.

Lemma sched_inv_mem l r x h s : sched_inv l r x s → sched_inv l r x (set_k_mem h s).
Proof. intros []. by constructor. Qed.

(** A CPU leaves [cur] for [next]. *)
Lemma switch_inv l r r' x c cpu tc tn tc' tn' h s :
  sched_inv l r x s → cpus s !! c = Some cpu → x = 0 ∨ x = c_current cpu →
  let cur := c_current cpu in ∀ next,
  k_tasks s !! cur = Some tc → k_tasks s !! next = Some tn → next ≠ cur →
  (next ∈ r ∧ t_state tn = TASK_READY) ∨ next = c_idle cpu →
  t_next tc' = t_next tc → t_list_next tc' = t_list_next tc →
  waits tc' ∨ (t_state tc' = TASK_DEAD ∧ cur ≠ c_idle cpu) →
  t_next tn' = t_next tn → t_list_next tn' = t_list_next tn → t_state tn' = TASK_RUNNING →
  ring (k_tasks s) h r' → r' ≡ₚ r →
  sched_inv l r' 0 (set_cpus (<[c := set_current next cpu]> (cpus s))
    (set_run_queue h (set_tasks (<[cur := tc']> (<[next := tn']> (k_tasks s))) s))).
Proof.
  intros [I1 I2 I3 I4 I5 I6 I7 I8 I9 I10 I11] Hc Hx cur next Hcur Hnext Hne Hsrc Ec1 Ec2 Hw En1 En2 En3 R P.
  assert (Ecur : cur = c_current cpu) by done. clearbody cur.
  set (m' := <[cur := tc']> _).
  assert (Lc : m' !! cur = Some tc') by apply lookup_insert_eq.
  assert (Ln : m' !! next = Some tn') by (unfold m'; rewrite lookup_insert_ne by done; apply lookup_insert_eq).
  assert (Lo : ∀ q, q ≠ cur → q ≠ next → m' !! q = k_tasks s !! q) by (intros; unfold m'; by rewrite !lookup_insert_ne).
  assert (LS : ∀ q, is_Some (m' !! q) ↔ is_Some (k_tasks s !! q)).
  { intros q. destruct (decide (q = cur)) as [->|]; [by rewrite Lc, Hcur|].
    destruct (decide (q = next)) as [->|]; [by rewrite Ln, Hnext|]. by rewrite Lo. }
  assert (Hext : ∀ q t, k_tasks s !! q = Some t → ∃ t', m' !! q = Some t' ∧ t_next t' = t_next t ∧ t_list_next t' = t_list_next t).
  { intros q t Ht. destruct (decide (q = cur)) as [->|]; [exists tc'; split_and!; congruence|].
    destruct (decide (q = next)) as [->|]; [exists tn'; split_and!; congruence|]. exists t. by rewrite Lo. }
  assert (Hoff : ∀ i ci, cpus s !! i = Some ci → c_current ci ≠ next).
  { intros i ci Hi E. destruct (decide (i = c)) as [->|Hic]; [congruence|].
    destruct Hsrc as [[_ Hr]| ->].
    - destruct (I9 i ci Hi) as (t & Ht & Hst). rewrite E in Ht, Hst.
      destruct (Z.eqb_spec next x); destruct Hx; congruence.
    - destruct (I6 i ci Hi) as (_ & _ & _ & [E2|E2]).
      + apply Hic. eapply I7; [done..|congruence].
      + destruct (I6 c cpu Hc) as (_ & _ & Hnr & _). congruence. }
  assert (Hcpu : ∀ i ci, <[c := set_current next cpu]> (cpus s) !! i = Some ci →
    (i = c ∧ ci = set_current next cpu) ∨ (i ≠ c ∧ cpus s !! i = Some ci ∧ c_current ci ≠ cur)).
  { intros i ci Hi. destruct (decide (i = c)) as [->|Hic].
    - left. rewrite list_lookup_insert_eq in Hi by (by eapply lookup_lt_Some). split; congruence.
    - right. rewrite list_lookup_insert_ne in Hi by done. split_and!; [done..|]. intros E. apply Hic. eapply (I8 i c); [done..|congruence]. }
  constructor; cbn [k_tasks task_list task_run_queue cpus set_tasks set_cpus set_run_queue]; fold m'.
  - destruct (m' !! 0) eqn:E0; [|done]. assert (is_Some (k_tasks s !! 0)) as [? ?] by (apply LS; by eexists). congruence.
  - eapply tchain_ext; [|exact I2]. intros q t _ Hq. destruct (Hext q t Hq) as (t' & ? & _ & ?). eauto.
  - done.
  - intros q Hq%LS. auto.
  - eapply ring_ext; [|exact R]. intros q t _ Hq. destruct (Hext q t Hq) as (t' & ? & ? & _). eauto.
  - intros i ci [[-> ->]|(Hic & Hi & _)]%Hcpu.
    + destruct (I6 c cpu Hc) as (? & _ & ? & _). cbn [c_idle c_current set_current].
      rewrite !LS, P. split_and!; [done|by eexists|done|]. destruct Hsrc as [[? _]| ->]; auto.
    + destruct (I6 i ci Hi) as (? & ? & ? & ?). by rewrite !LS, P.
  - intros i j ci cj [[-> ->]|(Hic & Hi & _)]%Hcpu [[-> ->]|(Hjc & Hj & _)]%Hcpu E; try done;
      eapply I7; eauto.
  - intros i j ci cj [[-> ->]|(Hic & Hi & _)]%Hcpu [[-> ->]|(Hjc & Hj & _)]%Hcpu E; try done; cbn [c_current set_current] in E.
    + by destruct (Hoff j cj).
    + by destruct (Hoff i ci).
    + by eapply I8.
  - intros i ci [[-> ->]|(Hic & Hi & Hcu)]%Hcpu; cbn [c_current set_current].
    + destruct (Z.eqb_spec next 0) as [->|_]; [congruence|]. by exists tn'.
    + destruct (I9 i ci Hi) as (t & Ht & Hst). destruct (Z.eqb_spec (c_current ci) 0) as [E|E0]; [congruence|].
      exists t. rewrite Lo by eauto. split; [done|].
      destruct (Z.eqb_spec (c_current ci) x) as [E|_]; [|done]. destruct Hx; [congruence|].
      exfalso. apply Hcu. congruence.
  - intros q t Hq Hqr. rewrite P in Hqr. destruct (decide (q = cur)) as [->|Hqc].
    + rewrite Lc in Hq. simplify_eq. destruct Hw as [|[]]; auto.
    + destruct (decide (q = next)) as [->|Hqn].
      * rewrite Ln in Hq. simplify_eq. left. split; [done|]. exists c, (set_current next cpu).
        rewrite list_lookup_insert_eq by (by eapply lookup_lt_Some). done.
      * rewrite Lo in Hq by done. destruct (I10 q t Hq Hqr) as [(? & i & ci & Hi & ?)|?]; [|by right].
        left. split; [done|]. exists i, ci. split; [|done].
        rewrite list_lookup_insert_ne; [done|]. intros <-. congruence.
  - intros i ci t [[-> ->]|(Hic & Hi & Hcu)]%Hcpu; cbn [c_current c_idle set_current].
    + intros Hni. destruct (decide (c_idle cpu = cur)) as [E|Hci].
      * rewrite E, Lc. intros [= <-]. destruct Hw as [|[_ Hd]]; [done|congruence].
      * rewrite Lo by congruence. intros Ht. eapply I11; [exact Hc|congruence|exact Ht].
    + intros Hni Ht. assert (Hicur : c_idle ci ≠ cur).
      { intros E. destruct (I6 c cpu Hc) as (_ & _ & _ & [E2|E2]).
        - apply Hic. eapply (I7 i c); [done..|]. congruence.
        - destruct (I6 i ci Hi) as (_ & _ & Hnr & _). congruence. }
      assert (Hin : c_idle ci ≠ next).
      { intros E. destruct Hsrc as [[Hnr _]|E2].
        - destruct (I6 i ci Hi) as (_ & _ & Hnr' & _). congruence.
        - apply Hic. eapply (I7 i c); [done..|congruence]. }
      rewrite Lo in Ht by done. by eapply I11.
Qed.

Lemma sched_inv_rotate l r r' x h s :
  sched_inv l r x s → ring (k_tasks s) h r' → r' ≡ₚ r → sched_inv l r' x (set_run_queue h s).
Proof.
  intros [I1 I2 I3 I4 I5 I6 I7 I8 I9 I10 I11] R P. constructor; try done.
  - intros i cpu Hc. rewrite P. by apply (I6 i).
  - intros p t Hp. rewrite P. by apply I10.
Qed.

Lemma schedule_tail_wp c cpu rs next tc tc1 tn h s (Q : bool → sched → Prop) :
  cpus s !! c = Some cpu → k_tasks s !! c_current cpu = Some tc → k_tasks s !! next = Some tn →
  Q (negb (next =? c_current cpu)) (switched_to c cpu rs tc1 next tn h s) →
  wp (schedule_tail c cpu rs next) Q (set_run_queue h (set_tasks (<[c_current cpu := tc1]> (k_tasks s)) s)).
Proof.
  intros Hc Hcur Hnext HQ. unfold schedule_tail, switched_to in *. set (cur := c_current cpu) in *. wp_steps.
  destruct (decide (next = cur)) as [->|Hne].
  - eapply wp_task_upd; [apply lookup_insert_eq|]. wp_steps.
    eapply wp_task_upd; [apply lookup_insert_eq|]. rewrite Z.eqb_refl in *. wp_steps.
    cbn [k_tasks set_tasks set_run_queue]. rewrite !insert_insert_eq. exact HQ.
  - eapply wp_task_upd; [cbn [k_tasks set_tasks set_run_queue]; rewrite lookup_insert_ne by done; exact Hnext|]. wp_steps.
    eapply wp_task_upd; [cbn [k_tasks set_tasks set_run_queue]; rewrite lookup_insert_ne, lookup_insert_eq by done; done|].
    destruct (Z.eqb_spec next cur); [done|]. wp_steps. eapply wp_cpu_upd; [exact Hc|]. wp_steps.
    eapply wp_task_upd; [cbn [k_tasks set_tasks set_run_queue set_cpus]; apply lookup_insert_eq|]. wp_steps.
    cbn [k_tasks set_tasks set_run_queue set_cpus]. rewrite !insert_insert_eq.
    rewrite (insert_insert_ne _ next cur), insert_insert_eq by done. exact HQ.
Qed.

Lemma schedule_wp l r x c cpu tc ps rs s (Q : bool → sched → Prop) :
  sched_inv l r x s → cpus s !! c = Some cpu → k_tasks s !! c_current cpu = Some tc →
  (x = 0 ∧ (ps = TASK_READY ∨ ps = TASK_SLEEPING) ∧ rs ≠ ResumeExit) ∨
  (x = c_current cpu ∧ x ≠ c_idle cpu ∧ x ≠ 0) →
  let tc1 := put_off ps tc in
  (∀ next tn r' h, choice (<[c_current cpu := tc1]> (k_tasks s)) (c_idle cpu) r next r' →
     k_tasks s !! next = Some tn → r' ≡ₚ r → (x ≠ 0 → next ≠ x) → (next ≠ c_current cpu → waits tn) →
     sched_inv l r' 0 (switched_to c cpu rs tc1 next tn h s) →
     Q (negb (next =? c_current cpu)) (switched_to c cpu rs tc1 next tn h s)) →
  wp (schedule c ps rs) Q s.
Proof.
  intros I Hc Hcur Hx tc1 HQ. unfold schedule. pose proof I as [I1 _ _ _ I5 I6 _ _ I9 I10 I11].
  set (cur := c_current cpu) in *. wp_steps. apply (wp_this_cpu c cpu); [done|]. wp_steps.
  apply (wp_task _ tc); [done|]. wp_steps.
  set (m1 := <[cur := tc1]> (k_tasks s)) in *. set (s1 := set_tasks m1 s).
  assert (wp_off : ∀ R : unit → sched → Prop, R tt s1 →
    wp (if decide (t_state tc = TASK_RUNNING) then task_upd (c_current cpu) (set_state ps) else mret tt) R s).
  { intros R HR. subst s1 m1 tc1. unfold put_off in HR. destruct (decide (t_state tc = TASK_RUNNING)).
    - by eapply wp_task_upd.
    - wp_steps. by rewrite insert_id, set_tasks_id in HR. }
  apply wp_off. clear wp_off. fold cur.
  assert (E1n : t_next tc1 = t_next tc) by (subst tc1; unfold put_off; by destruct decide).
  assert (E1l : t_list_next tc1 = t_list_next tc) by (subst tc1; unfold put_off; by destruct decide).
  assert (E1c : t_context tc1 = t_context tc) by (subst tc1; unfold put_off; by destruct decide).
  assert (Hcur0 : cur ≠ 0) by congruence.
  assert (Hst : x = 0 ∧ t_state tc = TASK_RUNNING ∧ t_state tc1 = ps ∧ (ps = TASK_READY ∨ ps = TASK_SLEEPING) ∧ rs ≠ ResumeExit ∨
                x = cur ∧ cur ≠ c_idle cpu ∧ t_state tc1 = TASK_DEAD).
  { destruct (I9 c cpu Hc) as (t & Ht & Hs). fold cur in Ht, Hs. simplify_eq.
    destruct Hx as [(-> & Hps & ?)|(-> & ? & ?)].
    - left. destruct (Z.eqb_spec cur 0); [done|]. subst tc1. unfold put_off. by rewrite decide_True by done.
    - right. rewrite Z.eqb_refl in Hs. subst tc1. unfold put_off. by rewrite decide_False by congruence. }
  assert (R1 : ring m1 (task_run_queue s) r) by (by eapply ring_upd).
  assert (H10 : m1 !! 0 = None) by (unfold m1; by rewrite lookup_insert_ne).
  assert (Fin : ∀ next r' h, choice m1 (c_idle cpu) r next r' → ring m1 h r' → r' ≡ₚ r → (x ≠ 0 → next ≠ x) →
    wp (schedule_tail c cpu rs next) Q (set_run_queue h s1)).
  { intros next r' h Hch R' P Hnx.
    assert (is_Some (k_tasks s !! next)) as [tn Hn].
    { destruct Hch as [(a & b & _ & _ & (t & Ht & _) & _)|(_ & -> & _)]; [|by apply (I6 c)].
      unfold m1 in Ht. apply lookup_insert_Some in Ht as [[<- _]|[_ ?]]; by eexists. }
    assert (R : ring (k_tasks s) h r').
    { replace (k_tasks s) with (<[cur := tc]> m1) by (unfold m1; by rewrite insert_insert_eq, insert_id).
      eapply (ring_upd _ _ _ _ tc1); [apply lookup_insert_eq|done|done]. }
    eapply schedule_tail_wp; [done|exact Hcur|exact Hn|]. apply (HQ next tn r' h); try done.
    { intros Hne. fold cur in Hne. destruct Hch as [(a & b & Eo & _ & (t & Ht & Hr) & _)|(_ & -> & _)]; [|by eapply I11].
      unfold m1 in Ht. rewrite lookup_insert_ne in Ht by done. assert (t = tn) as -> by congruence.
      destruct (I10 next tn Hn) as [(? & _)|[?|?]]; [|congruence|done|congruence].
      rewrite <- (rq_order_perm r), Eo. set_solver. }
    unfold switched_to. fold cur. destruct (decide (next = cur)) as [->|Hne].
    - destruct Hst as [(-> & Hrun & ?)|(-> & ? & ?)]; [|by destruct Hnx].
      apply sched_inv_rotate with (r := r); [|eapply ring_upd; [done| |done]|done].
      + apply (sched_inv_upd _ _ _ _ tc); [done..|]. split_and!; simpl; congruence.
      + simpl. congruence.
    - apply (switch_inv l r r' x c cpu tc tn _ _ h); try done.
      + destruct Hst as [(? & _)|(? & _)]; auto.
      + destruct Hch as [(a & b & Eo & _ & (t & Ht & Hr) & _)|(_ & -> & _)]; [|by right].
        left. unfold m1 in Ht. rewrite lookup_insert_ne in Ht by done. simplify_eq. split; [|done].
        rewrite <- (rq_order_perm r), Eo. set_solver.
      + destruct Hst as [(-> & _ & Es & Hps & Hrs)|(-> & ? & ?)]; [left|by right].
        split; [simpl; rewrite Es; tauto|]. split; simpl; congruence. }
  wp_steps. apply (pick_next_wp r); [done..| |].
  - intros a t b Eo Ha Ht R'. change (k_tasks s1) with m1 in *.
    assert (Ht0 : t ≠ 0) by (intros ->; destruct Ht as (? & ? & _); congruence).
    destruct (Z.eqb_spec t 0); [done|]. wp_steps. 
    apply (Fin t (t :: b ++ a)); [left; eauto 10|done| |].
    + rewrite <- (rq_order_perm r), Eo. rewrite app_comm_cons. by rewrite Permutation_app_comm.
    + intros _ ->. destruct Hst as [(-> & _)|(-> & _ & Hd)]; [done|]. destruct Ht as (t' & Ht & ?).
      unfold m1 in Ht. rewrite lookup_insert_eq in Ht. simplify_eq. congruence.
  - intros Ha. simpl negb. rewrite Z.eqb_refl. wp_steps. apply (wp_task _ tc1); [apply lookup_insert_eq|]. wp_steps.
    assert (E : (if negb (cur =? c_idle cpu) && bool_decide (t_state tc1 = TASK_READY) then cur else c_idle cpu) = c_idle cpu).
    { destruct (Z.eqb_spec cur (c_idle cpu)) as [E|E]; [done|]. simpl. destruct (bool_decide_reflect (t_state tc1 = TASK_READY)) as [Er|]; [|done].
      exfalso. destruct (I6 c cpu Hc) as (_ & _ & _ & [?|Hr]); [done|]. rewrite list.Forall_forall in Ha.
      apply (Ha cur Hr). exists tc1. split; [apply lookup_insert_eq|done]. }
    rewrite E. 
    replace s1 with (set_run_queue (task_run_queue s) s1) by by destruct s.
    apply (Fin (c_idle cpu) r); [by right|done|done|]. intros ? ?. destruct Hst as [(-> & _)|(? & ? & _)]; congruence.
Qed.

Lemma on_task_mem_wp {A} (m : M H A) (Q : A → sched → Prop) s :
  wp m (λ a h, Q a (set_k_mem h s)) (k_mem s) → wp (on_task_mem m) Q s.
Proof. intros HQ. unfold on_task_mem. by apply wp_zoom. Qed.

(** The invariant after a change of the maps and lists: the CPUs' tasks keep state and
    context, and what is new in the ring waits or is dead. *)
Lemma sched_inv_change l r x s m' h' lst' l' r' :
  sched_inv l r x s →
  m' !! 0 = None → tchain m' lst' l' → NoDup l' → (∀ p, is_Some (m' !! p) → p ∈ l') → ring m' h' r' →
  (∀ i cpu q, cpus s !! i = Some cpu → q = c_idle cpu ∨ q = c_current cpu →
     ∃ t t', k_tasks s !! q = Some t ∧ m' !! q = Some t' ∧ t_state t' = t_state t ∧ t_context t' = t_context t) →
  (∀ i cpu, cpus s !! i = Some cpu → (c_idle cpu ∉ r') ∧ (c_current cpu ∈ r → c_current cpu ∈ r')) →
  (∀ p t', m' !! p = Some t' → p ∈ r' →
     (∃ t, k_tasks s !! p = Some t ∧ p ∈ r ∧ t_state t' = t_state t ∧ t_context t' = t_context t) ∨
     waits t' ∨ t_state t' = TASK_DEAD) →
  sched_inv l' r' x (set_task_list lst' (set_run_queue h' (set_tasks m' s))).
Proof.
  intros [I1 I2 I3 I4 I5 I6 I7 I8 I9 I10 I11] ? ? ? ? ? Hcpu Hring Hnew.
  constructor; cbn [k_tasks task_list task_run_queue cpus set_tasks set_task_list set_run_queue]; try done.
  - intros i cpu Hc. destruct (I6 i cpu Hc) as (_ & _ & _ & Hin). destruct (Hring i cpu Hc) as [? Hr].
    destruct (Hcpu i cpu (c_idle cpu) Hc) as (? & ? & _ & ? & _); [by left|].
    destruct (Hcpu i cpu (c_current cpu) Hc) as (? & ? & _ & ? & _); [by right|].
    split_and!; [by eexists..|done|]. destruct Hin; auto.
  - intros i cpu Hc. destruct (I9 i cpu Hc) as (t & Ht & Hst).
    destruct (Hcpu i cpu (c_current cpu) Hc) as (t1 & t' & ? & ? & ? & _); [by right|]. exists t'. split; [done|congruence].
  - intros p t' Hp Hr. destruct (Hnew p t' Hp Hr) as [(t & Ht & Hr0 & Es & Ec)|?]; [|by right].
    unfold waits. rewrite Es, Ec. by apply (I10 p).
  - intros i cpu t' Hc Hne Ht'.
    destruct (Hcpu i cpu (c_idle cpu) Hc) as (t & ? & ? & ? & Es & Ec); [by left|]. simplify_eq.
    unfold waits. rewrite Es, Ec. by eapply I11.
Qed.

(** A task known to no CPU. *)
Definition off_cpu (p : Z) (s : sched) : Prop :=
  ∀ i cpu, cpus s !! i = Some cpu → c_idle cpu ≠ p ∧ c_current cpu ≠ p.

Lemma cpu_tasks l r x s i cpu q :
  sched_inv l r x s → cpus s !! i = Some cpu → q = c_idle cpu ∨ q = c_current cpu → is_Some (k_tasks s !! q).
Proof. intros I Hc [->| ->]; by apply (si_cpu _ _ _ _ I i). Qed.

Lemma sched_inv_new l r x p t s :
  sched_inv l r x s → p ≠ 0 → k_tasks s !! p = None → t_list_next t = task_list s →
  sched_inv (p :: l) r x (set_task_list p (set_tasks (<[p := t]> (k_tasks s)) s)).
Proof.
  intros I Hp Hnew Hl. pose proof I as [I1 I2 I3 I4 I5 I6 _ _ _ _ _].
  assert (L : ∀ q, is_Some (k_tasks s !! q) → <[p := t]> (k_tasks s) !! q = k_tasks s !! q).
  { intros q [u Hu]. rewrite lookup_insert_ne; [done|]. congruence. }
  replace (set_tasks _ s) with (set_run_queue (task_run_queue s) (set_tasks (<[p := t]> (k_tasks s)) s)) by by destruct s.
  assert (C : tchain (<[p := t]> (k_tasks s)) (task_list s) l).
  { eapply tchain_ext; [|exact I2]. intros q u _ Hq. exists u. rewrite L by (by eexists). done. }
  apply (sched_inv_change l r); try done.
  - by rewrite lookup_insert_ne.
  - split_and!; [done..|]. exists t. rewrite lookup_insert_eq. split; [done|]. by rewrite Hl.
  - apply list.NoDup_cons. split; [|done]. intros Hin. destruct (tchain_elem _ _ _ _ I2 Hin). congruence.
  - intros q [<-|[_ [u Hq]]]%lookup_insert_is_Some; [left|]. right. apply I4. by eexists.
  - eapply ring_ext; [|exact I5]. intros q u _ Hq. exists u. rewrite L by (by eexists). done.
  - intros i cpu q Hc Hq. destruct (cpu_tasks _ _ _ _ _ _ _ I Hc Hq) as [u Hu].
    exists u, u. rewrite L by (by eexists). done.
  - intros i cpu Hc. split; [|done]. by apply (I6 i).
  - intros q t' Hq Hr. left. destruct (ring_elem _ _ _ _ I5 Hr) as [u Hu].
    rewrite L in Hq by (by eexists). exists t'. done.
Qed.

(** Any change to a task outside the ring and off every CPU, its list link apart. *)
Lemma sched_inv_off l r x p t t' s :
  sched_inv l r x s → off_cpu p s → p ∉ r → k_tasks s !! p = Some t → t_list_next t' = t_list_next t →
  sched_inv l r x (set_tasks (<[p := t']> (k_tasks s)) s).
Proof.
  intros I Hoff Hnr Hp Hl. pose proof I as [I1 I2 I3 I4 I5 I6 _ _ _ _ _].
  assert (Hp0 : p ≠ 0) by congruence.
  replace (set_tasks _ s) with (set_task_list (task_list s) (set_run_queue (task_run_queue s)
    (set_tasks (<[p := t']> (k_tasks s)) s))) by by destruct s.
  apply (sched_inv_change l r); try done.
  - by rewrite lookup_insert_ne.
  - eapply tchain_ext; [|exact I2]. intros q u _ Hq. destruct (decide (q = p)) as [->|].
    + exists t'. rewrite lookup_insert_eq. split; [done|congruence].
    + exists u. by rewrite lookup_insert_ne.
  - intros q [<-|[_ [u Hq]]]%lookup_insert_is_Some; apply I4; by eexists.
  - eapply ring_ext; [|exact I5]. intros q u Hq Hu. exists u. rewrite lookup_insert_ne by congruence. done.
  - intros i cpu q Hc Hq. destruct (cpu_tasks _ _ _ _ _ _ _ I Hc Hq) as [u Hu].
    destruct (Hoff i cpu Hc). exists u, u. rewrite lookup_insert_ne by (destruct Hq; congruence). done.
  - intros i cpu Hc. split; [|done]. by apply (I6 i).
  - intros q u Hq Hr. left. rewrite lookup_insert_ne in Hq by congruence. exists u. done.
Qed.

(** Ending a task that waits in the ring. *)
Lemma sched_inv_dead l r x p t s :
  sched_inv l r x s → off_cpu p s → k_tasks s !! p = Some t →
  sched_inv l r x (set_tasks (<[p := set_state TASK_DEAD t]> (k_tasks s)) s).
Proof.
  intros I Hoff Hp. pose proof I as [I1 I2 I3 I4 I5 I6 _ _ _ _ _].
  assert (Hp0 : p ≠ 0) by congruence.
  replace (set_tasks _ s) with (set_task_list (task_list s) (set_run_queue (task_run_queue s)
    (set_tasks (<[p := set_state TASK_DEAD t]> (k_tasks s)) s))) by by destruct s.
  apply (sched_inv_change l r); try done.
  - by rewrite lookup_insert_ne.
  - eapply tchain_ext; [|exact I2]. intros q u _ Hq. destruct (decide (q = p)) as [->|].
    + exists (set_state TASK_DEAD t). rewrite lookup_insert_eq. split; [done|]. simpl. congruence.
    + exists u. by rewrite lookup_insert_ne.
  - intros q [<-|[_ [u Hq]]]%lookup_insert_is_Some; apply I4; by eexists.
  - by eapply ring_upd.
  - intros i cpu q Hc Hq. destruct (cpu_tasks _ _ _ _ _ _ _ I Hc Hq) as [u Hu].
    destruct (Hoff i cpu Hc). exists u, u. rewrite lookup_insert_ne by (destruct Hq; congruence). done.
  - intros i cpu Hc. split; [|done]. by apply (I6 i).
  - intros q u Hq Hr. destruct (decide (q = p)) as [->|].
    + rewrite lookup_insert_eq in Hq. simplify_eq. by right; right.
    + left. rewrite lookup_insert_ne in Hq by done. exists u. done.
Qed.

(** The ring changed by an operation that only writes [next] fields. *)
Lemma sched_inv_relink l r r' x m' h' s :
  sched_inv l r x s → strip_next m' = strip_next (k_tasks s) → ring m' h' r' →
  (∀ i cpu, cpus s !! i = Some cpu → (c_idle cpu ∉ r') ∧ (c_current cpu ∈ r → c_current cpu ∈ r')) →
  (∀ p t, k_tasks s !! p = Some t → p ∈ r' → p ∈ r ∨ waits t ∨ t_state t = TASK_DEAD) →
  sched_inv l r' x (set_run_queue h' (set_tasks m' s)).
Proof.
  intros I E R Hcpu Hnew. pose proof I as [I1 I2 I3 I4 I5 I6 _ _ _ _ _].
  assert (S1 : ∀ q t, k_tasks s !! q = Some t → ∃ t', m' !! q = Some t' ∧
    t_state t' = t_state t ∧ t_context t' = t_context t ∧ t_list_next t' = t_list_next t).
  { intros q t Hq. destruct (strip_next_lookup _ _ _ _ E Hq) as (t' & ? & Et). exists t'.
    split; [done|]. destruct t, t'; simpl in Et; simplify_eq/=. done. }
  assert (S2 : ∀ q t', m' !! q = Some t' → ∃ t, k_tasks s !! q = Some t).
  { intros q t' Hq. destruct (strip_next_lookup _ _ _ _ (eq_sym E) Hq) as (t & ? & _). eauto. }
  replace (set_run_queue h' _) with (set_task_list (task_list s) (set_run_queue h' (set_tasks m' s))) by by destruct s.
  apply (sched_inv_change l r); try done.
  - destruct (m' !! 0) eqn:E0; [|done]. destruct (S2 _ _ E0). congruence.
  - eapply tchain_ext; [|exact I2]. intros q u _ Hq. destruct (S1 q u Hq) as (t' & ? & _ & _ & ?). eauto.
  - intros q [t' Hq]. destruct (S2 _ _ Hq). apply I4. by eexists.
  - intros i cpu q Hc Hq. destruct (cpu_tasks _ _ _ _ _ _ _ I Hc Hq) as [u Hu].
    destruct (S1 q u Hu) as (t' & ? & ? & ? & _). eauto 10.
  - intros p t' Hp Hr. destruct (S2 _ _ Hp) as [t Ht]. destruct (S1 p t Ht) as (t2 & ? & Es & Ec & _). simplify_eq.
    destruct (Hnew p t Ht Hr) as [?|Hw]; [left; eauto 10|right]. unfold waits in *. by rewrite Es, Ec.
Qed.

(** ** Lemmas: memory of the tasks *)
Lemma task_runs_new m p t : m !! p = None → task_runs (<[p := t]> m) ≡ₚ runs_of t ++ task_runs m.
Proof. intros Hp. unfold task_runs. by rewrite map_to_list_insert. Qed.

Lemma task_runs_take m p t : m !! p = Some t → task_runs m ≡ₚ runs_of t ++ task_runs (delete p m).
Proof.
  intros Hp. rewrite <- (insert_delete_id m p t) at 1 by done. apply task_runs_new. apply lookup_delete_eq.
Qed.

Lemma task_runs_upd m p t t' : m !! p = Some t →
  runs_of t ++ task_runs (<[p := t']> m) ≡ₚ runs_of t' ++ task_runs m.
Proof.
  intros Hp. rewrite (task_runs_take _ p t') by apply lookup_insert_eq.
  rewrite delete_insert_eq. rewrite (task_runs_take m p t) by done. solve_perm.
Qed.

Lemma task_runs_same m p t t' : m !! p = Some t → runs_of t' = runs_of t → task_runs (<[p := t']> m) ≡ₚ task_runs m.
Proof. intros Hp E. apply (Permutation_app_inv_l (runs_of t)). rewrite <- E at 2. by apply task_runs_upd. Qed.

Lemma task_blocks_new m p t : m !! p = None → task_blocks (<[p := t]> m) ≡ₚ (p, SIZEOF_TASK) :: task_blocks m.
Proof. intros Hp. unfold task_blocks. by rewrite map_to_list_insert. Qed.

Lemma task_blocks_take m p t : m !! p = Some t → task_blocks m ≡ₚ (p, SIZEOF_TASK) :: task_blocks (delete p m).
Proof.
  intros Hp. rewrite <- (insert_delete_id m p t) at 1 by done. rewrite task_blocks_new; [done|]. apply lookup_delete_eq.
Qed.

Lemma task_blocks_upd m p t t' : m !! p = Some t → task_blocks (<[p := t']> m) ≡ₚ task_blocks m.
Proof.
  intros Hp. rewrite (task_blocks_take _ p t') by apply lookup_insert_eq. rewrite delete_insert_eq.
  by rewrite (task_blocks_take m p t).
Qed.

Lemma arg_blocks_take sz m ta a :
  m !! ta = Some a → arg_blocks sz m ≡ₚ arg_blocks_of sz ta a ++ arg_blocks sz (delete ta m).
Proof.
  intros Hp. unfold arg_blocks. rewrite <- (insert_delete_id m ta a) at 1 by done.
  rewrite map_to_list_insert; [done|]. apply lookup_delete_eq.
Qed.

Lemma args_ok_upd m args p t t' :
  args_ok m args → m !! p = Some t → t_args t' = t_args t → args_ok (<[p := t']> m) args.
Proof.
  intros A Hp E.
  assert (L : ∀ q u, <[p := t']> m !! q = Some u → ∃ u', m !! q = Some u' ∧ t_args u' = t_args u).
  { intros q u [[<- <-]|[_ ?]]%lookup_insert_Some; eauto. }
  intros q u (u' & Hu & <-)%L Ha. destruct (A q u' Hu Ha) as [? Hu2]. split; [done|].
  intros q2 u2 (u2' & ? & <-)%L. eauto.
Qed.

Lemma mem_inv_upd runs blocks p t t' s :
  mem_inv runs blocks s → k_tasks s !! p = Some t → runs_of t' = runs_of t → t_args t' = t_args t →
  mem_inv runs blocks (set_tasks (<[p := t']> (k_tasks s)) s).
Proof.
  intros [[sz I] A] Hp E Ea. split; [|by eapply args_ok_upd].
  exists sz. eapply km_perm; [| |exact I]; cbn [k_tasks k_args set_tasks].
  - by rewrite (task_runs_same _ _ t).
  - by rewrite (task_blocks_upd _ _ t).
Qed.

(** Maps that agree up to links own the same memory. *)
Lemma strip_runs m : task_runs (strip_links m) = task_runs m.
Proof. unfold task_runs, strip_links. rewrite map_to_list_fmap. by induction (map_to_list m) as [|[p t] l IH]; [|simpl; f_equal]. Qed.
Lemma strip_blocks m : task_blocks (strip_links m) = task_blocks m.
Proof. unfold task_blocks, strip_links. rewrite map_to_list_fmap. by induction (map_to_list m) as [|[p t] l IH]; [|simpl; f_equal]. Qed.

Lemma strip_next_links m m' : strip_next m' = strip_next m → strip_links m' = strip_links m.
Proof.
  intros E. unfold strip_links.
  assert (F : ∀ m, (λ t, set_list_next 0 (set_next 0 t)) <$> m = set_list_next 0 <$> strip_next m).
  { intros x. unfold strip_next. by rewrite <- map_fmap_compose. }
  by rewrite !F, E.
Qed.

Lemma strip_list_insert m p t x : m !! p = Some t → strip_list (<[p := set_list_next x t]> m) = strip_list m.
Proof.
  intros Hp. unfold strip_list. rewrite fmap_insert. apply insert_id. rewrite lookup_fmap, Hp. done.
Qed.

Lemma strip_list_links m m' : strip_list m' = strip_list m → strip_links m' = strip_links m.
Proof.
  intros E. unfold strip_links.
  assert (F : ∀ m, (λ t, set_list_next 0 (set_next 0 t)) <$> m = set_next 0 <$> strip_list m).
  { intros x. unfold strip_list. by rewrite <- map_fmap_compose. }
  by rewrite !F, E.
Qed.

Lemma strip_list_lookup m m' p t :
  strip_list m' = strip_list m → m !! p = Some t → ∃ t', m' !! p = Some t' ∧ set_list_next 0 t' = set_list_next 0 t.
Proof.
  intros E Hp. assert (E' : strip_list m' !! p = strip_list m !! p) by by rewrite E.
  unfold strip_list in E'. rewrite !lookup_fmap, Hp in E'.
  destruct (m' !! p) as [t'|]; simpl in E'; [|done]. exists t'. split; [done|congruence].
Qed.

Lemma strip_links_lookup m m' p t :
  strip_links m' = strip_links m → m !! p = Some t → ∃ t', m' !! p = Some t' ∧ set_list_next 0 (set_next 0 t') = set_list_next 0 (set_next 0 t).
Proof.
  intros E Hp. assert (E' : strip_links m' !! p = strip_links m !! p) by by rewrite E.
  unfold strip_links in E'. rewrite !lookup_fmap, Hp in E'.
  destruct (m' !! p) as [t'|]; simpl in E'; [|done]. exists t'. split; [done|congruence].
Qed.

Lemma args_ok_strip m m' args :
  args_ok m args → (∀ q u, m' !! q = Some u → ∃ u', m !! q = Some u' ∧ t_args u' = t_args u) → args_ok m' args.
Proof.
  intros A L q u (u' & Hu & <-)%L Ha. destruct (A q u' Hu Ha) as [? Hu2]. split; [done|].
  intros q2 u2 (u2' & ? & <-)%L. eauto.
Qed.

Lemma strip_links_args m m' q u :
  strip_links m' = strip_links m → m' !! q = Some u → ∃ u', m !! q = Some u' ∧ t_args u' = t_args u.
Proof.
  intros E Hq. destruct (strip_links_lookup _ _ _ _ (eq_sym E) Hq) as (u' & ? & Eu). exists u'.
  split; [done|]. destruct u, u'; simpl in Eu; by simplify_eq/=.
Qed.

Lemma mem_inv_strip runs blocks m s :
  mem_inv runs blocks s → strip_links m = strip_links (k_tasks s) → mem_inv runs blocks (set_tasks m s).
Proof.
  intros [[sz I] A] E. split; [exists sz|].
  - cbn [k_mem k_tasks k_args set_tasks].
    by rewrite <- (strip_runs m), <- (strip_blocks m), E, strip_runs, strip_blocks.
  - eapply args_ok_strip; [exact A|]. intros q u. by apply strip_links_args.
Qed.

Lemma args_ok_new m args p t : args_ok m args → t_args t = 0 → args_ok (<[p := t]> m) args.
Proof.
  intros A E q u [[<- <-]|[Hpq Hu]]%lookup_insert_Some Ha; [done|]. destruct (A q u Hu Ha) as [? Hu2].
  split; [done|]. intros q2 u2 [[<- <-]|[_ ?]]%lookup_insert_Some ?; [congruence|eauto].
Qed.

Lemma task_alloc_wp runs blocks s (Q : Z → sched → Prop) :
  mem_inv runs blocks s →
  Q 0 s →
  (∀ p h, p ≠ 0 → k_tasks s !! p = None →
     let s1 := set_task_list p (set_tasks (<[p := set_list_next (task_list s) zero_task]> (k_tasks s)) (set_k_mem h s)) in
     mem_inv runs blocks s1 → Q p s1) →
  wp task_alloc Q s.
Proof.
  intros [[sz I] A] HQ0 HQ. unfold task_alloc. wp_steps. apply on_task_mem_wp.
  eapply km_kmalloc_law; [exact I|unfold SIZEOF_TASK; lia|by wp_steps; destruct s|].
  intros p h Hp I' _. destruct (Z.eqb_spec p 0); [done|].
  assert (Hnew : k_tasks s !! p = None).
  { destruct (k_tasks s !! p) as [t|] eqn:E; [|done].
    assert (I2 : km_inv h (task_runs (k_tasks s) ++ runs) ((p, SIZEOF_TASK) :: (p, SIZEOF_TASK) ::
      task_blocks (delete p (k_tasks s)) ++ arg_blocks sz (k_args s) ++ blocks)).
    { eapply km_perm; [done| |exact I']. by rewrite (task_blocks_take (k_tasks s) p t). }
    apply km_disjoint in I2. unfold SIZEOF_TASK in I2. lia. }
  wp_steps. eapply wp_task_upd; [apply lookup_insert_eq|]. wp_steps.
  cbn [k_tasks set_tasks]. rewrite insert_insert_eq. apply (HQ p h); [done..|].
  split; [|cbn [k_tasks k_args set_tasks set_task_list set_k_mem]; by apply args_ok_new].
  exists sz. eapply km_perm; [| |exact I']; cbn [k_tasks k_args set_tasks set_task_list set_k_mem].
  - by rewrite task_runs_new.
  - by rewrite task_blocks_new.
Qed.

Lemma tchain_split m p l0 y l2 :
  tchain m p (l0 ++ y :: l2) → ∃ ty, m !! y = Some ty ∧ y ≠ 0 ∧ tchain m (t_list_next ty) l2.
Proof.
  revert p. induction l0 as [|x l0 IH]; intros p; simpl.
  - intros (-> & ? & ty & ? & ?). eauto.
  - intros (-> & ? & t & ? & ?). eauto.
Qed.

Lemma tchain_relink m p l0 y l2 ty k l2' :
  y ∉ l0 → y ∉ l2' → m !! y = Some ty → tchain m p (l0 ++ y :: l2) → tchain m k l2' →
  tchain (<[y := set_list_next k ty]> m) p (l0 ++ y :: l2').
Proof.
  intros H0 H2 Hy Hc Hk. revert p Hc. induction l0 as [|x l0 IH]; intros p; simpl.
  - intros (-> & ? & t & ? & ?). split_and!; [done..|]. eexists. rewrite lookup_insert_eq. split; [done|].
    eapply tchain_ext; [|exact Hk]. intros q u Hq Hu. exists u. rewrite lookup_insert_ne by congruence. done.
  - intros (-> & ? & t & Ht & ?). apply not_elem_of_cons in H0 as [? H0]. split_and!; [done..|].
    exists t. rewrite lookup_insert_ne by done. auto.
Qed.

Lemma read_task_link_wp l1 l2 s (Q : Z → sched → Prop) :
  tchain (k_tasks s) (task_list s) (l1 ++ l2) → Q (match l2 with [] => 0 | x :: _ => x end) s →
  wp (read_task_link (list.last l1)) Q s.
Proof.
  intros Hc HQ. destruct l1 as [|y l1 _] using rev_ind.
  - simpl. wp_steps. destruct l2; simpl in Hc; [by rewrite Hc|]. by destruct Hc as [-> _].
  - rewrite last_snoc. rewrite <- app_assoc in Hc. destruct (tchain_split _ _ _ _ _ Hc) as (ty & Hy & _ & Hc').
    unfold read_task_link. wp_steps. apply (wp_task y ty); [done|]. wp_steps.
    destruct l2; simpl in Hc'; [by rewrite Hc'|]. by destruct Hc' as [-> _].
Qed.

(** [task_free]'s walk: [l1] is behind the link, [l2] ahead of it. *)
Lemma task_unlink_wp fuel l1 l2 t td s (Q : unit → sched → Prop) :
  tchain (k_tasks s) (task_list s) (l1 ++ l2) → NoDup (l1 ++ l2) → t ∉ l1 → (length l2 <= fuel)%nat →
  k_tasks s !! t = Some td →
  (∀ h m, tchain m h (l1 ++ filter (λ x, x ≠ t) l2) → strip_list m = strip_list (k_tasks s) →
     Q tt (set_task_list h (set_tasks m s))) →
  wp (unlink_loop fuel (list.last l1) t) Q s.
Proof.
  intros Hc Hn Ht. revert l1 fuel Hc Hn Ht. induction l2 as [|x l2 IH]; intros l1 fuel Hc Hn Hnt Hf Htd HQ.
  - destruct fuel; cbn [unlink_loop]; wp_steps; (eapply read_task_link_wp; [exact Hc|]); wp_steps;
      replace s with (set_task_list (task_list s) (set_tasks (k_tasks s) s)) by (by destruct s); by apply HQ.
  - destruct fuel as [|fuel]; [simpl in Hf; lia|]. cbn [unlink_loop]. wp_steps.
    eapply read_task_link_wp; [exact Hc|]. destruct (tchain_split _ _ _ _ _ Hc) as (tx & Hx & Hx0 & Hc').
    destruct (Z.eqb_spec x 0); [done|]. destruct (Z.eqb_spec x t) as [->|Hne].
    + simplify_eq. wp_steps. apply (wp_task t td); [done|].
      assert (Ef : filter (λ x, x ≠ t) (t :: l2) = l2).
      { change (t :: l2) with ([] ++ t :: l2). rewrite filter_ne_app; [done|]. by apply list.NoDup_app in Hn as (_ & _ & Hn). }
      rewrite Ef in HQ. destruct l1 as [|y l1 _] using rev_ind.
      * simpl. wp_steps. replace s with (set_tasks (k_tasks s) s) by (by destruct s). by apply HQ.
      * rewrite last_snoc. rewrite <- app_assoc in Hc. simpl in Hc.
        destruct (tchain_split _ _ _ _ _ Hc) as (ty & Hy & _ & _).
        unfold write_task_link. apply (wp_task_upd _ _ ty); [done|].
        replace (set_tasks _ s) with (set_task_list (task_list s)
          (set_tasks (<[y := set_list_next (t_list_next td) ty]> (k_tasks s)) s)) by (by destruct s).
        apply HQ; [|by apply strip_list_insert]. rewrite <- app_assoc in *. simpl in *.
        apply list.NoDup_app in Hn as (_ & Hd & Hn). apply list.NoDup_cons in Hn as [Hy2 _].
        eapply tchain_relink; [|set_solver|done|exact Hc|done]. intros Hin. apply (Hd y Hin). left.
    + wp_steps. rewrite <- (last_snoc x l1). 
      rewrite filter_cons_True in HQ by done.
      apply (IH (l1 ++ [x])); [by rewrite <- app_assoc|by rewrite <- app_assoc|set_solver|simpl in Hf; lia|done|].
      intros h m. rewrite <- app_assoc. apply HQ.
Qed.

Lemma tchain_length l r x s : sched_inv l r x s → (length l <= size (k_tasks s))%nat.
Proof.
  intros I. apply nodup_length; [by apply (si_nodup _ _ _ _ I)|]. intros y Hy.
  eapply tchain_elem; [by apply (si_list _ _ _ _ I)|done].
Qed.

Lemma strip_links_delete m p : strip_links (delete p m) = delete p (strip_links m).
Proof. apply fmap_delete. Qed.

(** Freeing a task that is out of the ring and owns no page run. *)
Lemma task_free_wp l r x runs blocks t td s (Q : unit → sched → Prop) :
  sched_inv l r x s → mem_inv runs blocks s → k_tasks s !! t = Some td → runs_of td = [] →
  off_cpu t s → t ∉ r →
  (∀ s', sched_inv (filter (λ p, p ≠ t) l) r x s' → mem_inv runs blocks s' →
     strip_links (k_tasks s') = strip_links (delete t (k_tasks s)) → same_statics s s' → next_pid s' = next_pid s → Q tt s') →
  wp (task_free t) Q s.
Proof.
  intros I [[sz IM] A] Ht Hruns Hoff Hnr HQ. pose proof I as [I1 I2 I3 I4 I5 I6 _ _ _ _ _].
  pose proof (tchain_length _ _ _ _ I) as Hl.
  unfold task_free, task_fuel. wp_steps. apply (task_unlink_wp _ [] l t td); [done..|set_solver|lia|done|].
  intros a m Hc E. cbn [app] in Hc.
  assert (Ht' : ∃ td', m !! t = Some td' ∧ runs_of td' = []).
  { destruct (strip_list_lookup _ _ _ _ E Ht) as (td' & Hd & Et). exists td'. split; [done|].
    destruct td, td'; simpl in Et; by simplify_eq/=. }
  destruct Ht' as (td' & Ht' & Hr').
  assert (S1 : ∀ q u, k_tasks s !! q = Some u → ∃ u', m !! q = Some u' ∧
    t_next u' = t_next u ∧ t_state u' = t_state u ∧ t_context u' = t_context u).
  { intros q u Hq. destruct (strip_list_lookup _ _ _ _ E Hq) as (u' & ? & Eu). exists u'. split; [done|].
    destruct u, u'; simpl in Eu; by simplify_eq/=. }
  assert (S2 : ∀ q u, m !! q = Some u → is_Some (k_tasks s !! q)).
  { intros q u Hq. destruct (strip_list_lookup _ _ _ _ (eq_sym E) Hq) as (u' & ? & _). by eexists. }
  assert (IM' : km_inv (k_mem s) (task_runs (delete t m) ++ runs)
     ((t, SIZEOF_TASK) :: task_blocks (delete t m) ++ arg_blocks sz (k_args s) ++ blocks)).
  { eapply km_perm; [| |exact IM].
    - rewrite <- (strip_runs (k_tasks s)), <- (strip_list_links _ _ E), strip_runs.
      by rewrite (task_runs_take m t td'), Hr' by done.
    - rewrite <- (strip_blocks (k_tasks s)), <- (strip_list_links _ _ E), strip_blocks.
      by rewrite (task_blocks_take m t td') by done. }
  wp_steps. apply on_task_mem_wp. cbn [k_mem set_task_list set_tasks].
  eapply km_kfree_law; [exact IM'|]. intros h IM2 _. wp_steps.
  apply HQ; [|split; [by exists sz|]| |done|done].
  - change (sched_inv (filter (λ p, p ≠ t) l) r x (set_k_mem h (set_task_list a (set_run_queue (task_run_queue s)
      (set_tasks (delete t m) s))))). apply sched_inv_mem.
    apply (sched_inv_change l r); try done.
    + destruct (delete t m !! 0) eqn:E0; [|done]. apply lookup_delete_Some in E0 as [_ E0].
      destruct (S2 _ _ E0). congruence.
    + eapply tchain_ext; [|exact Hc]. intros q u Hq Hu. exists u. rewrite lookup_delete_ne; [done|].
      apply list_elem_of_filter in Hq as [? _]. done.
    + by apply list.NoDup_filter.
    + intros q [u [Hne Hq]%lookup_delete_Some]. apply list_elem_of_filter. split; [done|]. apply I4. by eapply S2.
    + eapply ring_ext; [|exact I5]. intros q u Hq Hu. destruct (S1 q u Hu) as (u' & ? & ? & _).
      exists u'. rewrite lookup_delete_ne by congruence. done.
    + intros i cpu q Hc' Hq. destruct (cpu_tasks _ _ _ _ _ _ _ I Hc' Hq) as [u Hu].
      destruct (S1 q u Hu) as (u' & ? & _ & ? & ?). destruct (Hoff i cpu Hc').
      exists u, u'. rewrite lookup_delete_ne by (destruct Hq; congruence). done.
    + intros i cpu Hc'. split; [|done]. by apply (I6 i).
    + intros q u [Hne Hq]%lookup_delete_Some Hr. left. destruct (S2 _ _ Hq) as [u0 Hu0].
      destruct (S1 q u0 Hu0) as (u' & ? & _ & ? & ?). simplify_eq. eauto 10.
  - cbn [k_tasks k_args set_task_list set_tasks set_k_mem]. eapply args_ok_strip; [exact A|]. intros q u [_ Hq]%lookup_delete_Some.
    eapply strip_links_args; [|exact Hq]. by apply strip_list_links.
  - cbn [k_tasks set_task_list set_tasks set_k_mem]. rewrite !strip_links_delete.
    by rewrite (strip_list_links _ _ E).
Qed.
End Sched.

(** A run of assignments to the fields of a task just written. *)
Ltac upd_steps :=
  repeat (eapply wp_task_upd; [cbn [k_tasks set_tasks set_k_mem set_task_list set_next_pid]; apply lookup_insert_eq|];
    cbn [k_tasks set_tasks set_k_mem set_task_list set_next_pid]; rewrite ?insert_insert_eq; wp_steps).
