(* ===== verification/SchedOps.v ===== *)
(** * The operations of kernel/system/task.c

    Every operation keeps the invariants of Sched.v and never goes wrong; a task that
    has exited never runs again; what killing and creating a task do. *)
From S2P Require Import Prelude RawMem Pmm Heap VfsTypes Task TaskRing Sched.
Local Open Scope kernel_scope.

Section SchedOps.
Context {H : Type} `{KM : KernelMem H} {KL : KernelMemLaws H} `{TS : TaskServices H} {TL : TaskServicesLaws H}.
Local Abbreviation sched := (Task.sched H).
Implicit Types s : sched.

(** The address of the assembly stub. *)
Context (task_trampoline : Z).
(** The operations other parts of the kernel call, and when they may. *)
Inductive sched_op :=
  | OpYield (c : nat) | OpTick (c : nat) | OpSleep (c : nat) (ms : Z) | OpBlock (c : nat) (ms : Z)
  | OpWakeWaiters | OpCreate (c : nat) (name : option str) (entry arg : Z)
  | OpKill (c : nat) (t : Z) | OpExit (c : nat) (code : Z).
Definition run_op (op : sched_op) : M sched unit :=
  match op with
  | OpYield c => task_yield c
  | OpTick c => task_scheduler_tick c
  | OpSleep c ms => task_sleep_ms c ms
  | OpBlock c ms => task_block c ms
  | OpWakeWaiters => task_wake_waiters
  | OpCreate c name entry arg => task_create task_trampoline c name entry arg;; mret tt
  | OpKill c t => task_kill c t;; mret tt
  | OpExit c code => task_exit c code
  end.
(** On a CPU there is; an idle task neither exits nor is killed; a task killed is NULL or
    a live pointer. *)
Definition allowed (op : sched_op) (s : sched) : Prop :=
  match op with
  | OpYield c | OpTick c | OpSleep c _ | OpBlock c _ | OpCreate c _ _ _ => is_Some (cpus s !! c)
  | OpWakeWaiters => True
  | OpKill c t => is_Some (cpus s !! c) ∧
      (t = 0 ∨ is_Some (k_tasks s !! t)) ∧ ∀ i cpu, cpus s !! i = Some cpu → c_idle cpu ≠ t
  | OpExit c _ => ∃ cpu, cpus s !! c = Some cpu ∧ c_current cpu ≠ c_idle cpu
  end.
Definition op_ok (runs blocks : list (Z * Z)) (s s' : sched) : Prop :=
  task_inv runs blocks s' ∧ keeps_gone s s' ∧ length (cpus s') = length (cpus s).

(** The state has a new task [p], outside the ring and off every CPU, with [t] in it;
    everything else is as in [s]. *)
Record fresh_task (l r : list Z) (runs blocks : list (Z * Z)) (s : sched) (p : Z) (t : Task) (s' : sched) : Prop := {
  ft_new : k_tasks s !! p = None;
  ft_nz : p ≠ 0;
  ft_tasks : k_tasks s' = <[p := t]> (k_tasks s);
  ft_sched : sched_inv (p :: l) r 0 s';
  ft_mem : mem_inv runs blocks s';
  ft_statics : same_statics s s';
  ft_queue : task_run_queue s' = task_run_queue s
}.
(** What [task_new_common] puts in a task, its stack at [stack]. *)
Definition new_task (name : option str) (cwd : str) (pid stack : Z) (link : Z) : Task :=
  MkTask (clip_task_name (default (to_str "task") name)) TASK_READY CtxNone 0 false [-1; -1; -1] cwd pid 0
    false false false false 0 stack 64 0 zero_image false
    (list_inserts 24 (le_split 4 0x1F80) (list_inserts 0 (le_split 2 0x037F) (replicate 512 0))) 0 link.

(** ** Lemmas: ending tasks *)
(** What a task owns. *)
Definition owns (t : Task) : list (Z * Z) * Z := (runs_of t, t_args t).

Lemma mem_inv_own runs blocks m s :
  mem_inv runs blocks s → owns <$> m = owns <$> k_tasks s → mem_inv runs blocks (set_tasks m s).
Proof.
  assert (R : ∀ m, task_runs m = map_to_list (owns <$> m) ≫= (λ po, po.2.1)).
  { intros x. rewrite map_to_list_fmap. unfold task_runs. by induction (map_to_list x) as [|[] ? IH]; [|simpl; f_equal]. }
  assert (B : ∀ m, task_blocks m = (λ po, (po.1, SIZEOF_TASK)) <$> map_to_list (owns <$> m)).
  { intros x. rewrite map_to_list_fmap. unfold task_blocks. by induction (map_to_list x) as [|[] ? IH]; [|simpl; f_equal]. }
  intros [[sz I] A] E. split.
  - exists sz. cbn [k_mem k_tasks k_args set_tasks]. by rewrite R, B, E, <- R, <- B.
  - eapply args_ok_strip; [exact A|]. cbn [k_tasks set_tasks]. intros q u Hq.
    assert (Eq : (owns <$> m) !! q = (owns <$> k_tasks s) !! q) by by rewrite E.
    rewrite !lookup_fmap, Hq in Eq. destruct (k_tasks s !! q) as [u'|]; [|done]. exists u'.
    split; [done|]. unfold owns in Eq. simpl in Eq. by simplify_eq.
Qed.

(** A task without the standard descriptors that were closed. *)
Definition forget_task (fds : list Z) (t : Task) : Task :=
  set_stdio (map (λ x, if decide (x ∈ fds) then -1 else x) (t_stdio t)) t.
Definition forget_fds (fds : list Z) (m : gmap Z Task) : gmap Z Task := forget_task fds <$> m.

Lemma forget_task_nil t : forget_task [] t = t.
Proof. unfold forget_task. rewrite map_id. by destruct t. Qed.

Lemma forget_task_app fds1 fds2 t : forget_task fds2 (forget_task fds1 t) = forget_task (fds1 ++ fds2) t.
Proof.
  assert (E : map (λ x, if decide (x ∈ fds2) then -1 else x) (map (λ x, if decide (x ∈ fds1) then -1 else x) (t_stdio t))
    = map (λ x, if decide (x ∈ fds1 ++ fds2) then -1 else x) (t_stdio t)).
  { rewrite map_map. apply map_ext. intros x. destruct (decide (x ∈ fds1)).
    - rewrite (decide_True (P := x ∈ fds1 ++ fds2)) by set_solver. by destruct decide.
    - destruct (decide (x ∈ fds2)); [rewrite decide_True by set_solver|rewrite decide_False by set_solver]; done. }
  unfold forget_task. rewrite <- E. by destruct t.
Qed.

Lemma forget_fds_app fds1 fds2 m : forget_fds fds2 (forget_fds fds1 m) = forget_fds (fds1 ++ fds2) m.
Proof. unfold forget_fds. rewrite <- map_fmap_compose. apply map_fmap_ext. intros p t _. apply forget_task_app. Qed.

Lemma forget_fds_nil m : forget_fds [] m = m.
Proof. unfold forget_fds. rewrite (map_fmap_ext _ id), map_fmap_id; [done|]. intros. apply forget_task_nil. Qed.

Lemma forget_fds_lookup fds m p t : m !! p = Some t → forget_fds fds m !! p = Some (forget_task fds t).
Proof. intros Hp. unfold forget_fds. by rewrite lookup_fmap, Hp. Qed.

(** The task list is untouched by the walk of [task_forget_fd]. *)
Lemma task_forget_fd_wp l r x fd s (Q : unit → sched → Prop) :
  sched_inv l r x s → Q tt (set_tasks (forget_fds [fd] (k_tasks s)) s) → wp (task_forget_fd fd) Q s.
Proof.
  intros I HQ. unfold task_forget_fd, task_fuel. wp_steps. pose proof (tchain_length _ _ _ _ I) as Hl.
  apply (list_loop_wp _ (forget_task [fd]) _ _ l).
  - intros q s' R [t Ht] HR. rewrite (upd_in_one _ _ t) in HR by done. apply (wp_task_upd _ _ t); [done|].
    replace (set_stdio _ t) with (forget_task [fd] t); [done|]. unfold forget_task. f_equal. apply map_ext. intros y.
    destruct (Z.eqb_spec y fd); [rewrite decide_True by set_solver|rewrite decide_False by set_solver]; done.
  - done.
  - exact (si_list _ _ _ _ I).
  - exact (si_nodup _ _ _ _ I).
  - lia.
  - replace (upd_in l (forget_task [fd]) (k_tasks s)) with (forget_fds [fd] (k_tasks s)); [done|].
    apply map_eq. intros q. rewrite lookup_upd_in. unfold forget_fds. rewrite lookup_fmap.
    destruct (k_tasks s !! q) as [t|] eqn:E; [|done]. simpl. rewrite decide_True; [done|].
    apply (si_all _ _ _ _ I). by eexists.
Qed.

(** The scheduler does not look at standard descriptors. *)
Lemma sched_inv_forget l r x fds s :
  sched_inv l r x s → sched_inv l r x (set_tasks (forget_fds fds (k_tasks s)) s).
Proof.
  intros [I1 I2 I3 I4 I5 I6 I7 I8 I9 I10 I11].
  assert (L : ∀ q u, forget_fds fds (k_tasks s) !! q = Some u → ∃ u', k_tasks s !! q = Some u' ∧ u = forget_task fds u').
  { intros q u. unfold forget_fds. rewrite lookup_fmap. destruct (k_tasks s !! q) as [u'|]; [|done].
    intros [= <-]. by exists u'. }
  assert (L' : ∀ q, is_Some (k_tasks s !! q) → is_Some (forget_fds fds (k_tasks s) !! q)).
  { intros q [u Hq]. eexists. by apply forget_fds_lookup. }
  constructor; cbn [k_tasks task_list task_run_queue cpus set_tasks]; try done.
  - unfold forget_fds. by rewrite lookup_fmap, I1.
  - eapply tchain_ext; [|exact I2]. intros q u _ Hq. eexists. split; [by apply forget_fds_lookup|done].
  - intros q [u (u' & ? & _)%L]. apply I4. by eexists.
  - eapply ring_ext; [|exact I5]. intros q u _ Hq. eexists. split; [by apply forget_fds_lookup|done].
  - intros i cpu Hc. destruct (I6 i cpu Hc) as (? & ? & ? & ?). split_and!; auto.
  - intros i cpu Hc. destruct (I9 i cpu Hc) as (u & Hu & Hst). eexists. split; [by apply forget_fds_lookup|done].
  - intros q u (u' & Hu & ->)%L. exact (I10 q u' Hu).
  - intros i cpu u Hc Hne (u' & Hu & ->)%L. exact (I11 i cpu u' Hc Hne Hu).
Qed.

Lemma keeps_gone_forget fds h s : keeps_gone s (set_tasks (forget_fds fds (k_tasks s)) (set_k_mem h s)).
Proof.
  intros p [(u & Hu & Hd) Hp]. split; [|done]. exists (forget_task fds u). split; [by apply forget_fds_lookup|done].
Qed.

Lemma mem_inv_forget runs blocks fds s :
  mem_inv runs blocks s → mem_inv runs blocks (set_tasks (forget_fds fds (k_tasks s)) s).
Proof.
  intros IM. apply mem_inv_own; [done|]. unfold forget_fds. rewrite <- map_fmap_compose. by apply map_fmap_ext.
Qed.

Lemma task_release_resources_wp l r x runs blocks t s (Q : unit → sched → Prop) :
  sched_inv l r x s → mem_inv runs blocks s →
  (∀ h fds, let s' := set_tasks (forget_fds fds (k_tasks s)) (set_k_mem h s) in
     sched_inv l r x s' → mem_inv runs blocks s' → Q tt s') →
  wp (task_release_resources t) Q s.
Proof.
  intros I [[sz IM] A] HQ. unfold task_release_resources. wp_steps. apply on_task_mem_wp.
  eapply ts_fs_release_law; [exact IM|]. intros fds h IM1.
  assert (Loop : ∀ fds s1, sched_inv l r x s1 →
    wp (forM_ fds task_forget_fd) (λ _ s2, s2 = set_tasks (forget_fds fds (k_tasks s1)) s1) s1).
  { clear fds. induction fds as [|fd fds IH]; intros s1 I1; cbn [forM_].
    - wp_steps. rewrite forget_fds_nil. by destruct s1.
    - wp_steps. eapply task_forget_fd_wp; [exact I1|]. eapply wp_mono; [apply IH; by apply sched_inv_forget|].
      intros [] s2 ->. cbn [k_tasks set_tasks]. by rewrite set_tasks_twice, forget_fds_app. }
  wp_steps. eapply wp_mono; [apply Loop; by apply sched_inv_mem|]. intros [] s2 ->. apply on_task_mem_wp.
  cbn [k_mem k_tasks set_tasks set_k_mem]. eapply ts_user_pages_release_law; [exact IM1|]. intros h' IM2.
  apply (HQ h' fds); [exact (sched_inv_forget l r x fds (set_k_mem h' s) (sched_inv_mem _ _ _ _ _ I))|].
  apply (mem_inv_forget runs blocks fds (set_k_mem h' s)). split; [by exists sz|done].
Qed.

(** Page runs of one task given back. *)
Lemma free_runs_wp runs blocks p t t' b n s (Q : unit → sched → Prop) :
  mem_inv runs blocks s → k_tasks s !! p = Some t → runs_of t ≡ₚ (b, n) :: runs_of t' → t_args t' = t_args t →
  (∀ h, mem_inv runs blocks (set_tasks (<[p := t']> (k_tasks s)) (set_k_mem h s)) → Q tt (set_k_mem h s)) →
  wp (on_task_mem (km_free_pages b n)) Q s.
Proof.
  intros [[sz I] A] Hp Hr Ea HQ. apply on_task_mem_wp.
  assert (P : task_runs (k_tasks s) ≡ₚ (b, n) :: task_runs (<[p := t']> (k_tasks s))).
  { apply (Permutation_app_inv_l (runs_of t')). rewrite <- task_runs_upd by done. rewrite Hr. solve_perm. }
  eapply km_free_pages_law.
  - eapply (km_perm _ _ ((b, n) :: task_runs (<[p := t']> (k_tasks s)) ++ runs)); [|reflexivity|exact I]. by rewrite P.
  - intros h I' _. apply HQ. split; [|by eapply args_ok_upd]. exists sz.
    eapply km_perm; [reflexivity| |exact I']. cbn [k_tasks k_args set_tasks set_k_mem]. by rewrite (task_blocks_upd _ _ t).
Qed.

Lemma drop_image_wp runs blocks p t s (Q : unit → sched → Prop) :
  mem_inv runs blocks s → k_tasks s !! p = Some t →
  (∀ h t', same_sched t t' → img_runs t' = [] → stack_runs t' = stack_runs t → t_args t' = t_args t →
     mem_inv runs blocks (set_tasks (<[p := t']> (k_tasks s)) (set_k_mem h s)) →
     Q tt (set_tasks (<[p := t']> (k_tasks s)) (set_k_mem h s))) →
  wp (drop_image p) Q s.
Proof.
  intros I Hp HQ. unfold drop_image. wp_steps. apply (wp_task p t); [done|].
  destruct (t_owns_image t) eqn:Eo.
  - wp_steps. unfold elf_unload_image. destruct (Z.eqb_spec (img_base (t_image t)) 0) as [Eb|Eb]; wp_steps.
    + apply (wp_task_upd _ _ t); [done|]. wp_steps. eapply wp_task_upd; [apply lookup_insert_eq|].
      cbn [k_tasks set_tasks]. rewrite insert_insert_eq.
      replace s with (set_k_mem (k_mem s) s) by (by destruct s). apply HQ; [done|done|done|done|].
      replace (set_k_mem (k_mem s) s) with s by (by destruct s).
      eapply mem_inv_upd; [done|done| |done]. unfold runs_of, stack_runs, img_runs. simpl. by rewrite Eo, Eb.
    + eapply (free_runs_wp runs blocks p t (set_owns_image false (set_image zero_image t))); [done|done| |done|].
      { unfold runs_of, stack_runs, img_runs. simpl. rewrite Eo. destruct (Z.eqb_spec (img_base (t_image t)) 0); [done|].
        simpl. solve_perm. }
      intros h I'. wp_steps. apply (wp_task_upd _ _ t); [done|]. wp_steps.
      eapply wp_task_upd; [apply lookup_insert_eq|]. cbn [k_tasks set_tasks set_k_mem]. rewrite insert_insert_eq.
      by apply HQ.
  - wp_steps. replace s with (set_tasks (<[p := t]> (k_tasks s)) (set_k_mem (k_mem s) s)).
    2:{ cbn [set_tasks set_k_mem]. rewrite insert_id by done. by destruct s. }
    apply HQ; [done|by unfold img_runs; rewrite Eo|done|done|].
    rewrite insert_id by done. by destruct s.
Qed.

Lemma drop_stack_wp runs blocks p t s (Q : unit → sched → Prop) :
  mem_inv runs blocks s → k_tasks s !! p = Some t →
  (∀ h t', same_sched t t' → img_runs t' = img_runs t → stack_runs t' = [] → t_args t' = t_args t →
     mem_inv runs blocks (set_tasks (<[p := t']> (k_tasks s)) (set_k_mem h s)) →
     Q tt (set_tasks (<[p := t']> (k_tasks s)) (set_k_mem h s))) →
  wp (drop_stack p) Q s.
Proof.
  intros I Hp HQ. unfold drop_stack. wp_steps. apply (wp_task p t); [done|].
  destruct (Z.eqb_spec (t_stack_base t) 0) as [Eb|Eb].
  - wp_steps. replace s with (set_tasks (<[p := t]> (k_tasks s)) (set_k_mem (k_mem s) s)).
    2:{ cbn [set_tasks set_k_mem]. rewrite insert_id by done. by destruct s. }
    apply HQ; [done|done|by unfold stack_runs; rewrite Eb|done|].
    rewrite insert_id by done. by destruct s.
  - wp_steps. eapply (free_runs_wp runs blocks p t (set_stack 0 0 t)); [done|done| |done|].
    { unfold runs_of, stack_runs, img_runs. simpl. destruct (Z.eqb_spec (t_stack_base t) 0); [done|]. done. }
    intros h I'. apply (wp_task_upd _ _ t); [done|]. by apply HQ.
Qed.

(** The task a CPU is running marked dead. *)
Lemma sched_inv_exit l r c cpu t s :
  sched_inv l r 0 s → cpus s !! c = Some cpu → c_current cpu ≠ c_idle cpu → k_tasks s !! c_current cpu = Some t →
  sched_inv l r (c_current cpu) (set_tasks (<[c_current cpu := set_state TASK_DEAD t]> (k_tasks s)) s).
Proof.
  intros [I1 I2 I3 I4 I5 I6 I7 I8 I9 I10 I11] Hc Hni Hp. set (p := c_current cpu) in *.
  assert (L' : ∀ q, is_Some (k_tasks s !! q) → is_Some (<[p := set_state TASK_DEAD t]> (k_tasks s) !! q)).
  { intros q Hq. apply lookup_insert_is_Some. destruct (decide (p = q)); auto. }
  constructor; cbn [k_tasks task_list task_run_queue cpus set_tasks]; try done.
  - rewrite lookup_insert_ne; [done|]. congruence.
  - eapply tchain_ext; [|exact I2]. intros q u _ Hq. destruct (decide (q = p)) as [->|].
    + exists (set_state TASK_DEAD t). rewrite lookup_insert_eq. simplify_eq. done.
    + exists u. by rewrite lookup_insert_ne.
  - intros q [<-|[_ [u Hq]]]%lookup_insert_is_Some; apply I4; by eexists.
  - by eapply ring_upd.
  - intros i ci Hi. destruct (I6 i ci Hi) as (? & ? & ? & ?). split_and!; auto.
  - intros i ci Hi. destruct (Z.eqb_spec (c_current ci) p) as [->|Hne].
    + eexists. by rewrite lookup_insert_eq.
    + destruct (I9 i ci Hi) as (u & Hu & Hst). exists u. rewrite lookup_insert_ne by done. split; [done|].
      destruct (Z.eqb_spec (c_current ci) 0); [congruence|done].
  - intros q u [[<- <-]|[Hne Hq]]%lookup_insert_Some Hr; [by right; right|by apply (I10 q)].
  - intros i ci u Hi Hne [[E <-]|[Hne' Hq]]%lookup_insert_Some; [|by eapply I11].
    exfalso. destruct (I6 c cpu Hc) as (_ & _ & _ & [?|Hr]); [done|].
    destruct (I6 i ci Hi) as (_ & _ & Hnr & _). fold p in Hr. congruence.
Qed.

Lemma resume_wp l r x c cpu t s (Q : unit → sched → Prop) :
  sched_inv l r x s → cpus s !! c = Some cpu → k_tasks s !! c_current cpu = Some t → resumable (t_context t) →
  (∀ t', same_sched t t' → runs_of t' = runs_of t → t_args t' = t_args t →
     sched_inv l r x (set_tasks (<[c_current cpu := t']> (k_tasks s)) s) →
     Q tt (set_tasks (<[c_current cpu := t']> (k_tasks s)) s)) →
  wp (resume c) Q s.
Proof.
  intros I Hc Ht [Hr1 Hr2] HQ. unfold resume, task_current. wp_steps. apply (wp_this_cpu c cpu); [done|]. wp_steps.
  apply (wp_task _ t); [done|].
  assert (Hid : Q tt s).
  { replace s with (set_tasks (<[c_current cpu := t]> (k_tasks s)) s) by (rewrite insert_id by done; by destruct s).
    apply HQ; [done..|]. rewrite insert_id by done. by destruct s. }
  destruct (t_context t) as [|rsp w|rs] eqn:Ec; [done|by wp_steps|].
  destruct rs; try (by wp_steps).
  apply (wp_task_upd _ _ t); [done|]. apply HQ; [done..|]. by apply (sched_inv_upd _ _ _ _ t).
Qed.

(** ** Lemmas: the operations *)
Lemma switched_mem runs blocks c cpu rs tc tc1 next tn h s :
  mem_inv runs blocks s → k_tasks s !! c_current cpu = Some tc → k_tasks s !! next = Some tn →
  runs_of tc1 = runs_of tc → t_args tc1 = t_args tc →
  mem_inv runs blocks (switched_to c cpu rs tc1 next tn h s).
Proof.
  intros I Hc Hn Er Ea. unfold switched_to. destruct (decide (next = c_current cpu)) as [->|Hne].
  - change (mem_inv runs blocks (set_tasks (<[c_current cpu := set_resched_pending false (set_state TASK_RUNNING tc1)]> (k_tasks s)) s)).
    eapply mem_inv_upd; [exact I|exact Hc|exact Er|exact Ea].
  - assert (I2 : mem_inv runs blocks (set_tasks (<[next := set_state TASK_RUNNING tn]> (k_tasks s)) s)) by by eapply mem_inv_upd.
    eapply (mem_inv_upd _ _ (c_current cpu) tc (set_context (CtxAt rs) (set_resched_pending false tc1))) in I2;
      [exact I2|cbn [k_tasks set_tasks]; by rewrite lookup_insert_ne|exact Er|exact Ea].
Qed.

Lemma put_off_same ps t :
  runs_of (put_off ps t) = runs_of t ∧ t_args (put_off ps t) = t_args t ∧
  (t_state t = TASK_DEAD → put_off ps t = t).
Proof. unfold put_off. destruct decide; [|done]. split_and!; [done|done|congruence]. Qed.

(** A task that is gone is neither left nor chosen. *)
Lemma switched_gone l r x c cpu rs tc1 next tn h s :
  sched_inv l r x s → cpus s !! c = Some cpu → k_tasks s !! next = Some tn →
  (next ≠ c_current cpu → waits tn) → keeps_gone s (switched_to c cpu rs tc1 next tn h s).
Proof.
  intros I Hc Hn Hw p [(t & Ht & Hd) Hcur]. pose proof (Hcur c cpu Hc) as Hpc. unfold switched_to.
  destruct (decide (next = c_current cpu)) as [->|Hne].
  - split; [|done]. exists t. cbn [k_tasks set_tasks set_run_queue]. by rewrite lookup_insert_ne.
  - assert (Hpn : next ≠ p).
    { intros ->. destruct (Hw Hne) as [[?|?] _]; congruence. }
    split.
    + exists t. cbn [k_tasks set_tasks set_run_queue set_cpus]. by rewrite !lookup_insert_ne.
    + cbn [cpus set_cpus]. intros i ci Hi. destruct (decide (i = c)) as [->|Hic].
      * rewrite list_lookup_insert_eq in Hi by (by eapply lookup_lt_Some). by simplify_eq.
      * rewrite list_lookup_insert_ne in Hi by done. eauto.
Qed.

Lemma keeps_gone_upd p t t' s :
  k_tasks s !! p = Some t → t_state t' = t_state t → keeps_gone s (set_tasks (<[p := t']> (k_tasks s)) s).
Proof.
  intros Hp Es q [(u & Hu & Hd) Hcur]. split; [|done]. cbn [k_tasks set_tasks].
  destruct (decide (q = p)) as [->|].
  - exists t'. rewrite lookup_insert_eq. split; [done|congruence].
  - exists u. by rewrite lookup_insert_ne.
Qed.

(** What the task [p], once [tc], owns is what [tc] did. *)
Definition owns_as (tc : Task) (s s' : sched) (p : Z) : Prop :=
  k_args s' = k_args s ∧ ∃ t', k_tasks s' !! p = Some t' ∧ runs_of t' = runs_of tc ∧ t_args t' = t_args tc.

Lemma leave_wp l r x c cpu tc ps rs K runs blocks s (Q : unit → sched → Prop) :
  sched_inv l r x s → mem_inv runs blocks s → cpus s !! c = Some cpu → k_tasks s !! c_current cpu = Some tc →
  (x = 0 ∧ (ps = TASK_READY ∨ ps = TASK_SLEEPING) ∧ rs ≠ ResumeExit) ∨
  (x = c_current cpu ∧ x ≠ c_idle cpu ∧ x ≠ 0) →
  (∀ s', task_inv runs blocks s' → keeps_gone s s' → (x ≠ 0 → gone s' x ∧ owns_as tc s s' x) → length (cpus s') = length (cpus s) → Q tt s') →
  (x = 0 → ∀ l' r' s' t', sched_inv l' r' 0 s' → mem_inv runs blocks s' → keeps_gone s s' →
     k_tasks s' !! c_current cpu = Some t' → length (cpus s') = length (cpus s) → wp K Q s') →
  wp (b ← schedule c ps rs; if (b : bool) then resume c else K) Q s.
Proof.
  intros I IM Hc Hcur Hx HQ HK. wp_steps. eapply schedule_wp; [exact I|exact Hc|exact Hcur|exact Hx|].
  intros next tn r' h Hch Hn P Hnx Hw I'.
  destruct (put_off_same ps tc) as (Er & Ea & Ed).
  pose proof (switched_mem runs blocks c cpu rs tc (put_off ps tc) next tn h s IM Hcur Hn Er Ea) as IM'.
  pose proof (switched_gone l r x c cpu rs (put_off ps tc) next tn h s I Hc Hn Hw) as G.
  set (s1 := switched_to c cpu rs (put_off ps tc) next tn h s) in *.
  assert (Hlen : length (cpus s1) = length (cpus s)).
  { unfold s1, switched_to. destruct decide; [done|]. apply length_insert. }
  destruct (Z.eqb_spec next (c_current cpu)) as [E|Hne]; simpl.
  - assert (Hx0 : x = 0) by (destruct Hx as [(? & _)|(-> & _ & Hx0)]; [done|]; by destruct Hnx).
    eapply (HK Hx0 l r'); [done..| |done].
    unfold s1, switched_to. rewrite decide_True by done. cbn [k_tasks set_tasks set_run_queue]. apply lookup_insert_eq.
  - assert (Hc1 : cpus s1 !! c = Some (set_current next cpu)).
    { unfold s1, switched_to. rewrite decide_False by done. cbn [cpus set_cpus].
      apply list_lookup_insert_eq. by eapply lookup_lt_Some. }
    assert (Ht1 : k_tasks s1 !! next = Some (set_state TASK_RUNNING tn)).
    { unfold s1, switched_to. rewrite decide_False by done. cbn [k_tasks set_tasks set_cpus set_run_queue].
      rewrite lookup_insert_ne by congruence. apply lookup_insert_eq. }
    eapply resume_wp; [exact I'|exact Hc1|exact Ht1|by apply Hw|]. cbn [c_current set_current].
    intros t' (E1 & E2 & E3 & E4) Er' Ea' I2.
    assert (G2 : keeps_gone s1 (set_tasks (<[next := t']> (k_tasks s1)) s1)) by by eapply keeps_gone_upd.
    apply HQ; [| | |done].
    + split; [eauto|]. by eapply mem_inv_upd.
    + intros p Hp. by apply G2, G.
    + intros Hx0. destruct Hx as [(-> & _)|(-> & Hni & _)]; [done|]. split.
      2:{ split; [unfold s1, switched_to; by rewrite decide_False by done|].
        exists (set_context (CtxAt rs) (set_resched_pending false (put_off ps tc))). split; [|by split].
        unfold s1, switched_to. rewrite decide_False by done. cbn [k_tasks set_tasks set_cpus set_run_queue].
        rewrite lookup_insert_ne by done. apply lookup_insert_eq. }
      apply G2. pose proof (si_running _ _ _ _ I c cpu Hc) as (t & Ht & Hst). rewrite Z.eqb_refl in Hst. simplify_eq.
      rewrite Ed in * by done. split.
      * eexists. unfold s1, switched_to. rewrite decide_False by done. cbn [k_tasks set_tasks set_cpus set_run_queue].
        split; [apply lookup_insert_eq|]. cbn [t_state set_context set_resched_pending]. by rewrite ?Ed.
      * intros i ci Hi E. assert (Hx2 := si_running _ _ _ _ I' i ci Hi).
        destruct Hx2 as (u & Hu & Hst2). rewrite E in *. destruct (Z.eqb_spec (c_current cpu) 0); [done|].
        unfold s1, switched_to in Hu. rewrite decide_False in Hu by done. cbn [k_tasks set_tasks set_cpus set_run_queue] in Hu.
        rewrite lookup_insert_eq in Hu. simplify_eq. cbn [t_state set_context set_resched_pending] in Hst2. rewrite ?Ed in Hst2 by done. congruence.
Qed.

Lemma keeps_gone_trans s1 s2 s3 : keeps_gone s1 s2 → keeps_gone s2 s3 → keeps_gone s1 s3.
Proof. intros H1 H2 p Hp. by apply H2, H1. Qed.

Lemma op_ok_trans runs blocks s1 s2 s3 :
  keeps_gone s1 s2 → length (cpus s2) = length (cpus s1) → op_ok runs blocks s2 s3 → op_ok runs blocks s1 s3.
Proof. intros G L (I & G' & L'). split_and!; [done|by eapply keeps_gone_trans|congruence]. Qed.

(** A change of one task that neither the scheduler nor the memory sees. *)
Lemma touch_ok l r runs blocks p t t' s :
  sched_inv l r 0 s → mem_inv runs blocks s → k_tasks s !! p = Some t →
  same_sched t t' → owns t' = owns t →
  let s' := set_tasks (<[p := t']> (k_tasks s)) s in
  sched_inv l r 0 s' ∧ mem_inv runs blocks s' ∧ keeps_gone s s' ∧ length (cpus s') = length (cpus s).
Proof.
  intros I IM Hp Es Eo. unfold owns in Eo. split_and!.
  - by eapply sched_inv_upd.
  - eapply mem_inv_upd; [done|done|congruence|congruence].
  - eapply keeps_gone_upd; [done|]. by destruct Es as (_ & _ & ? & _).
  - done.
Qed.

Lemma wake_sched l r test s :
  sched_inv l r 0 s → (∀ t, test t = true → t_state t = TASK_SLEEPING) →
  sched_inv l r 0 (set_tasks (upd_in r (λ t, if test t then set_state TASK_READY t else t) (k_tasks s)) s).
Proof.
  intros I Ht. pose proof I as [I1 I2 I3 I4 I5 I6 _ _ I9 I10 _].
  set (u := λ t, if test t then set_state TASK_READY t else t) in *. set (s' := set_tasks _ s).
  assert (L : ∀ q t, k_tasks s !! q = Some t → k_tasks s' !! q = Some (if decide (q ∈ r) then u t else t)).
  { intros q t Hq. unfold s'. cbn [k_tasks set_tasks]. by rewrite lookup_upd_in, Hq. }
  assert (Ku : ∀ t, test t = false → u t = t) by (intros t E; unfold u; by rewrite E).
  replace s' with (set_task_list (task_list s) (set_run_queue (task_run_queue s) s')) by by destruct s.
  apply (sched_inv_change l r); try done.
  - rewrite lookup_upd_in, I1. done.
  - eapply tchain_ext; [|exact I2]. intros q t _ Hq%L. eexists. split; [exact Hq|].
    destruct decide; [|done]. unfold u. by destruct (test t).
  - intros q. rewrite lookup_upd_in. intros [t' Hq]. apply I4. destruct (k_tasks s !! q); [by eexists|done].
  - eapply ring_ext; [|exact I5]. intros q t _ Hq%L. eexists. split; [exact Hq|].
    destruct decide; [|done]. unfold u. by destruct (test t).
  - intros i cpu q Hc Hq. destruct (cpu_tasks _ _ _ _ _ _ _ I Hc Hq) as [t Hqt].
    pose proof (L q t Hqt) as Hq'. exists t. eexists. split; [done|]. split; [exact Hq'|].
    destruct decide as [Hr|]; [|done]. rewrite Ku; [done|]. destruct (test t) eqn:E; [|done]. apply Ht in E.
    destruct Hq as [->| ->]; [by apply (I6 i) in Hr|].
    destruct (I9 i cpu Hc) as (t2 & ? & Hst). simplify_eq. destruct (Z.eqb_spec (c_current cpu) 0); congruence.
  - intros i cpu Hc. split; [|done]. by apply (I6 i).
  - intros q t' Hq Hr. rewrite lookup_upd_in in Hq. destruct (k_tasks s !! q) as [t|] eqn:E; [|done].
    simpl in Hq. rewrite decide_True in Hq by done. simplify_eq. unfold u. destruct (test t) eqn:Et.
    * right; left. apply Ht in Et. destruct (I10 q t E Hr) as [[? _]|[[_ ?]|?]]; [congruence| |congruence].
      split; [by left|done].
    * left. by exists t.
Qed.

Lemma wake_ok l r runs blocks test s :
  sched_inv l r 0 s → mem_inv runs blocks s → (∀ t, test t = true → t_state t = TASK_SLEEPING) →
  let s' := set_tasks (upd_in r (λ t, if test t then set_state TASK_READY t else t) (k_tasks s)) s in
  sched_inv l r 0 s' ∧ mem_inv runs blocks s' ∧ keeps_gone s s'.
Proof.
  intros I IM Ht s'. split_and!; [by apply wake_sched| |].
  - apply mem_inv_own; [done|]. apply map_eq. intros q. rewrite !lookup_fmap, lookup_upd_in.
    destruct (k_tasks s !! q) as [t|]; [|done]. simpl. destruct decide; [|done]. by destruct (test t).
  - intros q [(t & Hq & Hd) Hc]. split; [|done]. exists t. unfold s'. cbn [k_tasks set_tasks].
    rewrite lookup_upd_in, Hq. split; [|done]. simpl. destruct decide; [|done]. destruct (test t) eqn:E; [|done]. apply Ht in E. congruence.
Qed.

Lemma wakes_sleeping now t : wakes now t = true → t_state t = TASK_SLEEPING.
Proof. unfold wakes. intros [E _]%andb_true_iff. by apply bool_decide_eq_true in E. Qed.
Lemma is_waiter_sleeping t : is_waiter t = true → t_state t = TASK_SLEEPING.
Proof. unfold is_waiter. intros [_ E]%andb_true_iff. by apply bool_decide_eq_true in E. Qed.

(** Giving the CPU up, for the callers that go on when no other task is chosen. *)
Lemma give_up_wp l r c cpu tc ps rs K runs blocks s :
  sched_inv l r 0 s → mem_inv runs blocks s → cpus s !! c = Some cpu → k_tasks s !! c_current cpu = Some tc →
  (ps = TASK_READY ∨ ps = TASK_SLEEPING) → rs ≠ ResumeExit →
  (∀ l' r' s' t', sched_inv l' r' 0 s' → mem_inv runs blocks s' → k_tasks s' !! c_current cpu = Some t' →
     wp K (λ _ s'', op_ok runs blocks s' s'') s') →
  wp (b ← schedule c ps rs; if (b : bool) then resume c else K) (λ _ s', op_ok runs blocks s s') s.
Proof.
  intros I IM Hc Ht Hps Hrs HK. eapply leave_wp; [exact I|exact IM|exact Hc|exact Ht|left; auto| |].
  - intros s' ? ? _ ?. done.
  - intros _ l' r' s' t' I' IM' G Ht' Hl. eapply wp_mono; [by eapply HK|].
    intros [] s'' Hok. by eapply op_ok_trans.
Qed.

Lemma op_ok_refl l r runs blocks s : sched_inv l r 0 s → mem_inv runs blocks s → op_ok runs blocks s s.
Proof. intros I IM. split_and!; [split; eauto|by intros ?|done]. Qed.

Lemma current_task l r x c cpu s :
  sched_inv l r x s → cpus s !! c = Some cpu → ∃ t, k_tasks s !! c_current cpu = Some t ∧ c_current cpu ≠ 0.
Proof.
  intros I Hc. destruct (cpu_tasks _ _ _ _ _ _ _ I Hc (or_intror eq_refl)) as [t Ht]. exists t. split; [done|].
  intros E. rewrite E, (si_null _ _ _ _ I) in Ht. done.
Qed.

Lemma wp_task_current c cpu s (Q : Z → sched → Prop) :
  cpus s !! c = Some cpu → Q (c_current cpu) s → wp (task_current c) Q s.
Proof. intros Hc HQ. unfold task_current. wp_steps. apply (wp_this_cpu c cpu); [done|]. by wp_steps. Qed.

(** Start of an operation of the current task of CPU [c]. *)
Ltac enter_task I Hc t Ht :=
  destruct (current_task _ _ _ _ _ _ I Hc) as (t & Ht & Hp0);
  wp_steps; eapply wp_task_current; [exact Hc|];
  lazymatch type of Hp0 with ?p ≠ 0 => destruct (Z.eqb_spec p 0); [done|] end.

Lemma task_yield_wp l r runs blocks c cpu s :
  sched_inv l r 0 s → mem_inv runs blocks s → cpus s !! c = Some cpu →
  wp (task_yield c) (λ _ s', op_ok runs blocks s s') s.
Proof.
  intros I IM Hc. unfold task_yield. enter_task I Hc t Ht.
  eapply give_up_wp; [done..|by left|done|]. intros l' r' s' t' I' IM' _. wp_steps. by eapply op_ok_refl.
Qed.

Lemma task_sleep_ms_wp l r runs blocks c cpu ms s :
  sched_inv l r 0 s → mem_inv runs blocks s → cpus s !! c = Some cpu →
  wp (task_sleep_ms c ms) (λ _ s', op_ok runs blocks s s') s.
Proof.
  intros I IM Hc. unfold task_sleep_ms. enter_task I Hc t Ht. wp_steps.
  eapply wp_task_upd; [exact Ht|].
  destruct (touch_ok l r runs blocks (c_current cpu) t (set_wake_tick (u64 (g_tick_count s + ms_to_ticks ms)) t) s)
    as (I1 & IM1 & G1 & L1); [done..|].
  eapply wp_mono; [eapply give_up_wp; [exact I1|exact IM1|exact Hc|apply lookup_insert_eq|by right|done|]|].
  - intros l' r' s' t' I' IM' _. wp_steps. by eapply op_ok_refl.
  - intros [] s' Hok. by eapply op_ok_trans.
Qed.

Lemma task_block_wp l r runs blocks c cpu ms s :
  sched_inv l r 0 s → mem_inv runs blocks s → cpus s !! c = Some cpu →
  wp (task_block c ms) (λ _ s', op_ok runs blocks s s') s.
Proof.
  intros I IM Hc. unfold task_block. enter_task I Hc t Ht. cbv zeta. wp_steps.
  eapply wp_task_upd; [exact Ht|]. wp_steps. eapply wp_task_upd; [apply lookup_insert_eq|].
  cbn [k_tasks set_tasks]. rewrite insert_insert_eq, set_tasks_twice.
  match goal with |- context [<[_ := ?t']> (k_tasks s)] =>
    destruct (touch_ok l r runs blocks (c_current cpu) t t' s) as (I1 & IM1 & G1 & L1); [done..|] end.
  eapply wp_mono; [eapply give_up_wp; [exact I1|exact IM1|exact Hc|apply lookup_insert_eq|by right|done|]|].
  - intros l' r' s' t' I' IM' Ht'. eapply wp_task_upd; [exact Ht'|].
    destruct (touch_ok l' r' runs blocks (c_current cpu) t' (set_waiting false t') s') as (I2 & IM2 & G2 & L2); [done..|].
    split_and!; [split; eauto|done|done].
  - intros [] s' Hok. by eapply op_ok_trans.
Qed.

Lemma sched_inv_cpu l r x c cpu cpu' s :
  sched_inv l r x s → cpus s !! c = Some cpu → c_current cpu' = c_current cpu → c_idle cpu' = c_idle cpu →
  sched_inv l r x (set_cpus (<[c := cpu']> (cpus s)) s).
Proof.
  intros [I1 I2 I3 I4 I5 I6 I7 I8 I9 I10 I11] Hc E1 E2.
  assert (L : ∀ i ci, <[c := cpu']> (cpus s) !! i = Some ci →
    ∃ ci', cpus s !! i = Some ci' ∧ c_current ci = c_current ci' ∧ c_idle ci = c_idle ci').
  { intros i ci Hi. destruct (decide (i = c)) as [->|].
    - rewrite list_lookup_insert_eq in Hi by (by eapply lookup_lt_Some). simplify_eq. eauto.
    - rewrite list_lookup_insert_ne in Hi by done. eauto. }
  assert (L' : ∀ i ci, cpus s !! i = Some ci → ∃ ci', <[c := cpu']> (cpus s) !! i = Some ci' ∧ c_current ci' = c_current ci).
  { intros i ci Hi. destruct (decide (i = c)) as [->|].
    - exists cpu'. rewrite list_lookup_insert_eq by (by eapply lookup_lt_Some). split; [done|congruence].
    - exists ci. by rewrite list_lookup_insert_ne. }
  constructor; cbn [k_tasks task_list task_run_queue cpus set_cpus]; try done.
  - intros i ci (ci' & Hi & -> & ->)%L. eauto.
  - intros i j ci cj (ci' & Hi & _ & ->)%L (cj' & Hj & _ & ->)%L. eauto.
  - intros i j ci cj (ci' & Hi & -> & _)%L (cj' & Hj & -> & _)%L. eauto.
  - intros i ci (ci' & Hi & -> & _)%L. eauto.
  - intros p t Hp Hr. destruct (I10 p t Hp Hr) as [(? & i & ci & Hi & ?)|?]; [left|by right].
    destruct (L' i ci Hi) as (ci' & ? & ?). split; [done|]. exists i, ci'. split; [done|congruence].
  - intros i ci t (ci' & Hi & -> & ->)%L. eauto.
Qed.

Lemma keeps_gone_cpu c cpu cpu' s :
  cpus s !! c = Some cpu → c_current cpu' = c_current cpu → keeps_gone s (set_cpus (<[c := cpu']> (cpus s)) s).
Proof.
  intros Hc E p [Hd Hp]. split; [done|]. intros i ci. cbn [cpus set_cpus]. destruct (decide (i = c)) as [->|].
  - rewrite list_lookup_insert_eq by (by eapply lookup_lt_Some). intros [= <-]. rewrite E. eauto.
  - rewrite list_lookup_insert_ne by done. eauto.
Qed.

(** A state an operation on CPU [c] may be in before it schedules: reached from [s0]
    with the ring [r] and the CPU still on its task. *)
Definition midway (l r : list Z) (runs blocks : list (Z * Z)) (c : nat) (s0 s : sched) : Prop :=
  sched_inv l r 0 s ∧ mem_inv runs blocks s ∧ keeps_gone s0 s ∧ length (cpus s) = length (cpus s0) ∧ is_Some (cpus s !! c).

Lemma midway_refl l r runs blocks c s :
  sched_inv l r 0 s → mem_inv runs blocks s → is_Some (cpus s !! c) → midway l r runs blocks c s s.
Proof. intros. split_and!; try done. by intros ?. Qed.

Lemma midway_task l r runs blocks c s0 s p t t' :
  midway l r runs blocks c s0 s → k_tasks s !! p = Some t → same_sched t t' → owns t' = owns t →
  midway l r runs blocks c s0 (set_tasks (<[p := t']> (k_tasks s)) s).
Proof.
  intros (I & IM & G & L & Hc) Hp Es Eo. destruct (touch_ok l r runs blocks p t t' s) as (? & ? & G2 & ?); [done..|].
  split_and!; [done|done|by eapply keeps_gone_trans|congruence|done].
Qed.

Lemma midway_cpu l r runs blocks c s0 s cpu cpu' :
  midway l r runs blocks c s0 s → cpus s !! c = Some cpu → c_current cpu' = c_current cpu → c_idle cpu' = c_idle cpu →
  midway l r runs blocks c s0 (set_cpus (<[c := cpu']> (cpus s)) s).
Proof.
  intros (I & IM & G & L & _) Hc E1 E2. split_and!.
  - by eapply sched_inv_cpu.
  - exact IM.
  - eapply keeps_gone_trans; [done|]. by eapply keeps_gone_cpu.
  - cbn [cpus set_cpus]. by rewrite length_insert.
  - cbn [cpus set_cpus]. rewrite list_lookup_insert_eq by (by eapply lookup_lt_Some). done.
Qed.

Lemma midway_ok l r runs blocks c s0 s : midway l r runs blocks c s0 s → op_ok runs blocks s0 s.
Proof. intros (I & IM & G & L & _). split_and!; [split; eauto|done|done]. Qed.

Lemma task_scheduler_tick_wp l r runs blocks c cpu s :
  sched_inv l r 0 s → mem_inv runs blocks s → cpus s !! c = Some cpu →
  wp (task_scheduler_tick c) (λ _ s', op_ok runs blocks s s') s.
Proof.
  intros I IM Hc. unfold task_scheduler_tick. wp_steps. eapply wp_cpu_upd; [exact Hc|].
  assert (W : midway l r runs blocks c s (set_cpus (<[c := set_ticks (u64 (c_ticks cpu + 1)) cpu]> (cpus s)) s))
    by (eapply midway_cpu; [by apply midway_refl|done..]).
  set (s1 := set_cpus _ s) in *. clearbody s1. pose proof W as (_ & _ & _ & _ & [cpu1 Hc1]).
  wp_steps. apply (wp_this_cpu c cpu1); [done|]. wp_steps. eapply (wp_mono _ (λ _ s', midway l r runs blocks c s s')).
  { destruct (negb (c_current cpu1 =? c_idle cpu1)); [|by wp_steps]. wp_steps.
    eapply wp_cpu_upd; [exact Hc1|]. pose proof W as (I1 & _). destruct (current_task _ _ _ _ _ _ I1 Hc1) as (t & Ht & _).
    eapply wp_task_upd; [exact Ht|]. eapply (midway_task _ _ _ _ _ _ _ _ t); [by eapply midway_cpu|done..]. }
  clear s1 W Hc1 cpu1 Hc cpu. intros [] s1 W. apply wp_bind. eapply (wp_mono _ (λ _ s', midway l r runs blocks c s s')).
  { destruct (cpu_is_bsp c); [|by wp_steps]. wp_steps. destruct W as (I1 & IM1 & G1 & L1 & Hc1).
    assert (I2 : sched_inv l r 0 (set_tick_count (u64 (g_tick_count s1 + 1)) s1)) by by destruct I1.
    eapply wake_sleepers_wp; [exact (si_ring _ _ _ _ I2)|].
    match goal with |- context [wakes ?now] =>
      destruct (wake_ok l r runs blocks (wakes now) (set_tick_count (u64 (g_tick_count s1 + 1)) s1))
        as (I3 & IM3 & G3); [done|done|by apply wakes_sleeping|] end.
    split_and!; [done|done| |done|done]. intros p Hp. apply G3, G1, Hp. }
  clear s1 W. intros [] s1 W. pose proof W as (I1 & IM1 & G1 & L1 & [cpu1 Hc1]).
  enter_task I1 Hc1 t Ht. wp_steps. apply (wp_task _ t); [done|]. destruct (t_in_kcall t).
  - eapply wp_task_upd; [exact Ht|]. apply (midway_ok l r runs blocks c). by eapply midway_task.
  - eapply wp_mono; [eapply give_up_wp; [exact I1|exact IM1|exact Hc1|exact Ht|by left|done|]|].
    + intros l' r' s' t' I' IM' _. wp_steps. by eapply op_ok_refl.
    + intros [] s' Hok. by eapply op_ok_trans.
Qed.

Lemma task_wake_waiters_ok l r runs blocks s :
  sched_inv l r 0 s → mem_inv runs blocks s → wp task_wake_waiters (λ _ s', op_ok runs blocks s s') s.
Proof.
  intros I IM. eapply task_wake_waiters_wp; [exact (si_ring _ _ _ _ I)|].
  destruct (wake_ok l r runs blocks is_waiter s) as (I3 & IM3 & G3); [done|done|by apply is_waiter_sleeping|].
  split_and!; [split; eauto|done|done].
Qed.

(** The argument list of a task given back. *)
Lemma task_args_free_wp runs blocks p t s (Q : unit → sched → Prop) :
  mem_inv runs blocks s → k_tasks s !! p = Some t → t_args t ≠ 0 →
  (∀ h, let s' := set_k_args (delete (t_args t) (k_args s)) (set_k_mem h s) in
     mem_inv runs blocks (set_tasks (<[p := set_args 0 t]> (k_tasks s)) s') → Q tt s') →
  wp (task_args_free (t_args t)) Q s.
Proof.
  intros [[sz I] A] Hp Ha HQ. unfold task_args_free. destruct (Z.eqb_spec (t_args t) 0); [done|].
  destruct (A p t Hp Ha) as [[a Hta] Huniq]. wp_steps. apply (wp_lift _ _ _ a); [done|]. wp_steps.
  apply on_task_mem_wp. eapply km_kfree_law.
  { eapply (km_perm _ _ _ _ (_ :: _)); [reflexivity| |exact I]. rewrite (arg_blocks_take sz _ (t_args t) a) by done.
    unfold arg_blocks_of. cbn [app]. by rewrite <- Permutation_middle. }
  intros h1 I1 _. wp_steps. apply on_task_mem_wp. cbn [k_mem set_k_mem]. eapply km_kfree_law.
  { eapply (km_perm _ _ _ _ (_ :: _)); [reflexivity| |exact I1]. by rewrite <- Permutation_middle. }
  intros h2 I2 _. wp_steps. apply on_task_mem_wp. cbn [k_mem set_k_mem]. eapply km_kfree_law.
  { eapply (km_perm _ _ _ _ (_ :: _)); [reflexivity| |exact I2]. by rewrite <- Permutation_middle. }
  intros h3 I3 _. wp_steps. cbn [k_args set_k_mem]. apply HQ. split.
  - exists sz. eapply km_perm; [| |exact I3]; cbn [k_tasks k_args set_tasks set_k_args set_k_mem].
    + by rewrite (task_runs_same _ _ t).
    + by rewrite (task_blocks_upd _ _ t).
  - cbn [k_tasks k_args set_tasks set_k_args set_k_mem]. intros q u [[<- <-]|[Hpq Hu]]%lookup_insert_Some Hua; [done|].
    destruct (A q u Hu Hua) as [Hs Hu2]. split.
    + rewrite lookup_delete_ne; [done|]. intros E. apply Hpq. symmetry. eapply Huniq; [exact Hu|congruence].
    + intros q2 u2 [[<- <-]|[_ ?]]%lookup_insert_Some ?; [simpl in *; congruence|eauto].
Qed.

Lemma sched_inv_ext l r x s s' :
  sched_inv l r x s → k_tasks s' = k_tasks s → task_list s' = task_list s → task_run_queue s' = task_run_queue s →
  cpus s' = cpus s → sched_inv l r x s'.
Proof. intros [] E1 E2 E3 E4. constructor; rewrite ?E1, ?E2, ?E3, ?E4; done. Qed.

Lemma keeps_gone_ext s s' : k_tasks s' = k_tasks s → cpus s' = cpus s → keeps_gone s s'.
Proof. intros E1 E2 p. unfold gone. by rewrite E1, E2. Qed.

(** The task a CPU runs is not gone, whatever is done to it. *)
Lemma keeps_gone_current c cpu t' s :
  cpus s !! c = Some cpu → keeps_gone s (set_tasks (<[c_current cpu := t']> (k_tasks s)) s).
Proof.
  intros Hc p [(t & Ht & Hd) Hp]. split; [|done]. exists t. cbn [k_tasks set_tasks].
  by rewrite lookup_insert_ne by by apply Hp in Hc.
Qed.

(** CPU [c] is ending its task [t]. *)
Record leaving (l r : list Z) (runs blocks : list (Z * Z)) (c : nat) (cpu : Cpu) (s0 s : sched) (t : Task) : Prop := {
  lv_sched : sched_inv l r (c_current cpu) s;
  lv_mem : mem_inv runs blocks s;
  lv_gone : keeps_gone s0 s;
  lv_len : length (cpus s) = length (cpus s0);
  lv_cpu : cpus s !! c = Some cpu;
  lv_task : k_tasks s !! c_current cpu = Some t
}.

Lemma leaving_upd l r runs blocks c cpu s0 s t t' h args :
  leaving l r runs blocks c cpu s0 s t → same_sched t t' →
  mem_inv runs blocks (set_tasks (<[c_current cpu := t']> (k_tasks s)) (set_k_args args (set_k_mem h s))) →
  leaving l r runs blocks c cpu s0 (set_tasks (<[c_current cpu := t']> (k_tasks s)) (set_k_args args (set_k_mem h s))) t'.
Proof.
  intros [I IM G L Hc Ht] Es IM'. constructor; try done.
  - eapply sched_inv_ext; [by eapply (sched_inv_upd l r _ _ t t' s)|done..].
  - intros p Hp. by apply (keeps_gone_current c cpu t' s Hc), G.
  - cbn [k_tasks set_tasks]. apply lookup_insert_eq.
Qed.

(** The argument lists when that at [ta], if there is one, has been freed. *)
Definition args_without (ta : Z) (m : gmap Z TaskArgs) : gmap Z TaskArgs := if ta =? 0 then m else delete ta m.

Lemma exit_args_wp l r runs blocks c cpu s0 s t :
  leaving l r runs blocks c cpu s0 s t →
  wp (if t_args t =? 0 then mret tt else task_args_free (t_args t);; task_upd (c_current cpu) (set_args 0))
     (λ _ s', ∃ t', leaving l r runs blocks c cpu s0 s' t' ∧ t_args t' = 0 ∧ k_args s' = args_without (t_args t) (k_args s)) s.
Proof.
  intros W. pose proof W as [I IM G L Hc Ht]. unfold args_without. destruct (Z.eqb_spec (t_args t) 0); [wp_steps; by exists t|].
  wp_steps. eapply task_args_free_wp; [exact IM|exact Ht|done|]. intros h s' IM'. subst s'.
  eapply wp_task_upd; [exact Ht|]. exists (set_args 0 t). split; [|done]. exact (leaving_upd l r runs blocks c cpu s0 s t (set_args 0 t) h _ W (conj eq_refl (conj eq_refl (conj eq_refl eq_refl))) IM').
Qed.

Lemma exit_image_wp l r runs blocks c cpu s0 s t :
  leaving l r runs blocks c cpu s0 s t →
  wp (drop_image (c_current cpu))
     (λ _ s', ∃ t', leaving l r runs blocks c cpu s0 s' t' ∧ img_runs t' = [] ∧ t_args t' = t_args t ∧ k_args s' = k_args s) s.
Proof.
  intros W. pose proof W as [I IM G L Hc Ht]. eapply drop_image_wp; [exact IM|exact Ht|].
  intros h t' Es Ei _ Ea IM'. exists t'. split; [|done]. eapply (leaving_upd _ _ _ _ _ _ _ _ t t' h (k_args s)); [exact W|exact Es|exact IM'].
Qed.

Lemma exit_stack_wp l r runs blocks c cpu s0 s t :
  leaving l r runs blocks c cpu s0 s t →
  wp (drop_stack (c_current cpu))
     (λ _ s', ∃ t', leaving l r runs blocks c cpu s0 s' t' ∧ stack_runs t' = [] ∧ img_runs t' = img_runs t ∧
        t_args t' = t_args t ∧ k_args s' = k_args s) s.
Proof.
  intros W. pose proof W as [I IM G L Hc Ht]. eapply drop_stack_wp; [exact IM|exact Ht|].
  intros h t' Es Ei Est Ea IM'. exists t'. split; [|done]. eapply (leaving_upd _ _ _ _ _ _ _ _ t t' h (k_args s)); [exact W|exact Es|exact IM'].
Qed.

(** What is left of [task_exit] when the resources are gone. *)
Definition exit_tail (c : nat) (t : Z) : M sched unit :=
  task_upd t (set_state TASK_DEAD);;
  tp ← task t;
  (if t_args tp =? 0 then mret tt
   else task_args_free (t_args tp);; task_upd t (set_args 0));;
  drop_image t;;
  drop_stack t;;
  switched ← schedule c TASK_DEAD ResumeExit;
  if (switched : bool) then resume c else fail.

(** The task [p] owns no stack, no image and no arguments; its argument list, once [ta],
    is gone. *)
Definition gave_back (ta : Z) (s s' : sched) (p : Z) : Prop :=
  k_args s' = args_without ta (k_args s) ∧ ∃ t', k_tasks s' !! p = Some t' ∧ runs_of t' = [] ∧ t_args t' = 0.

Lemma exit_tail_wp l r runs blocks c cpu s0 s t :
  sched_inv l r 0 s → mem_inv runs blocks s → keeps_gone s0 s → length (cpus s) = length (cpus s0) →
  cpus s !! c = Some cpu → c_current cpu ≠ c_idle cpu → k_tasks s !! c_current cpu = Some t →
  wp (exit_tail c (c_current cpu))
     (λ _ s', op_ok runs blocks s0 s' ∧ gone s' (c_current cpu) ∧ gave_back (t_args t) s s' (c_current cpu)) s.
Proof.
  intros I IM G L Hc Hni Ht. destruct (current_task _ _ _ _ _ _ I Hc) as (_ & _ & Hp0).
  unfold exit_tail. wp_steps.
  eapply wp_task_upd; [exact Ht|]. wp_steps. eapply wp_task; [apply lookup_insert_eq|].
  set (t2 := set_state TASK_DEAD t).
  assert (W : leaving l r runs blocks c cpu s0 (set_tasks (<[c_current cpu := t2]> (k_tasks s)) s) t2).
  { constructor; [exact (sched_inv_exit l r c cpu t s I Hc Hni Ht)| | |done|done|apply lookup_insert_eq].
    - exact (mem_inv_upd _ _ _ t t2 s IM Ht eq_refl eq_refl).
    - intros p Hp. by apply (keeps_gone_current c cpu t2 s Hc), G. }
  match goal with |- context [set_tasks ?m ?s'] => set (s2 := set_tasks m s') in W end.
  apply wp_bind. eapply wp_mono; [exact (exit_args_wp _ _ _ _ _ _ _ _ _ W)|]. clear W. intros [] s3 (t3 & W & Ea3 & Ek3).
  wp_steps. eapply wp_mono; [exact (exit_image_wp _ _ _ _ _ _ _ _ _ W)|]. clear W. intros [] s4 (t4 & W & Ei4 & Ea4 & Ek4).
  wp_steps. eapply wp_mono; [exact (exit_stack_wp _ _ _ _ _ _ _ _ _ W)|]. clear W. intros [] s5 (t5 & [I5 IM5 G5 L5 Hc5 Ht5] & Es5 & Ei5 & Ea5 & Ek5).
  eapply leave_wp; [exact I5|exact IM5|exact Hc5|exact Ht5|by right| |done].
  intros s' Hinv G' Hgone L'. destruct (Hgone Hp0) as (Hg & Ek & t' & Ht' & Er & Ea). split; [|split; [exact Hg|]].
  - eapply op_ok_trans; [exact G5|exact L5|]. done.
  - split; [by rewrite Ek, Ek5, Ek4, Ek3|]. exists t'. split; [exact Ht'|]. rewrite Er, Ea, Ea5, Ea4. split; [|done].
    unfold runs_of. by rewrite Es5, Ei5, Ei4.
Qed.

Lemma task_exit_wp l r runs blocks c cpu code s :
  sched_inv l r 0 s → mem_inv runs blocks s → cpus s !! c = Some cpu → c_current cpu ≠ c_idle cpu →
  wp (task_exit c code) (λ _ s', op_ok runs blocks s s' ∧ gone s' (c_current cpu) ∧
    ∃ t, k_tasks s !! c_current cpu = Some t ∧ gave_back (t_args t) s s' (c_current cpu)) s.
Proof.
  intros I IM Hc Hni. unfold task_exit. destruct (current_task _ _ _ _ _ _ I Hc) as (t & Ht & Hp0).
  wp_steps. eapply wp_task_current; [exact Hc|]. wp_steps. eapply wp_task_upd; [exact Ht|].
  destruct (touch_ok l r runs blocks (c_current cpu) t (set_exit_code code t) s) as (I1 & IM1 & G1 & L1); [done..|].
  wp_steps. eapply task_release_resources_wp; [exact I1|exact IM1|]. intros h fds s2 I2 IM2.
  eapply wp_mono; [apply (exit_tail_wp l r runs blocks c cpu s s2 (forget_task fds (set_exit_code code t))); [done|done| |done|done|done|]|].
  - eapply keeps_gone_trans; [exact G1|apply keeps_gone_forget].
  - apply forget_fds_lookup, lookup_insert_eq.
  - intros u s' (Ho & Hg & Hb). split; [exact Ho|]. split; [exact Hg|]. by exists t.
Qed.

Lemma keeps_gone_delete fds t st s s' :
  strip_links (k_tasks s') = strip_links (delete t (forget_fds fds (k_tasks s))) → cpus s' = cpus s →
  in_state (k_tasks s) st t → st ≠ TASK_DEAD → keeps_gone s s'.
Proof.
  intros E Ec Ht Hst p [(u & Hu & Hd) Hp]. split; [|by rewrite Ec].
  assert (Hpt : p ≠ t).
  { intros ->. apply Hst. symmetry. eapply in_state_fun; [|exact Ht]. by exists u. }
  assert (Ep : strip_links (k_tasks s') !! p = strip_links (forget_fds fds (k_tasks s)) !! p).
  { by rewrite E, strip_links_delete, lookup_delete_ne. }
  unfold strip_links, forget_fds in Ep. rewrite !lookup_fmap, Hu in Ep. destruct (k_tasks s' !! p) as [u'|] eqn:E'; [|done].
  exists u'. split; [done|]. destruct u, u'; simpl in Ep; by simplify_eq/=.
Qed.

(** What [task_kill] does to a task that waits, its resources gone. *)
Definition kill_tail (t : Z) : M sched unit :=
  task_upd t (set_state TASK_DEAD);; drop_image t;; drop_stack t;; run_queue_remove t;; task_free t.

Lemma kill_tail_wp l r runs blocks t td s :
  sched_inv l r 0 s → mem_inv runs blocks s → k_tasks s !! t = Some td →
  t_state td = TASK_READY ∨ t_state td = TASK_SLEEPING →
  (∀ i cpu, cpus s !! i = Some cpu → c_idle cpu ≠ t) →
  wp (kill_tail t)
    (λ _ s', sched_inv (filter (λ p, p ≠ t) l) (filter (λ p, p ≠ t) r) 0 s' ∧ mem_inv runs blocks s' ∧
       strip_links (k_tasks s') = strip_links (delete t (k_tasks s)) ∧ same_statics s s' ∧ next_pid s' = next_pid s) s.
Proof.
  intros I IM Ht Hst Hni. unfold kill_tail.
  assert (Hoff : off_cpu t s).
  { intros i cpu Hi. split; [by eapply Hni|]. intros E. destruct (si_running _ _ _ _ I i cpu Hi) as (u & Hu & Hs).
    rewrite E in Hu, Hs. assert (u = td) as -> by congruence. destruct (Z.eqb_spec t 0) as [E0|]; [by rewrite E0, (si_null _ _ _ _ I) in Ht|].
    destruct Hst; congruence. }
  wp_steps. eapply wp_task_upd; [exact Ht|].
  set (s1 := set_tasks (<[t := set_state TASK_DEAD td]> (k_tasks s)) s).
  assert (I1 : sched_inv l r 0 s1) by (eapply sched_inv_ext; [by eapply (sched_inv_dead l r 0 t td s)|done..]).
  assert (IM2 : mem_inv runs blocks s1) by (exact (mem_inv_upd _ _ t td (set_state TASK_DEAD td) s IM Ht eq_refl eq_refl)).
  assert (Ht1 : k_tasks s1 !! t = Some (set_state TASK_DEAD td)) by apply lookup_insert_eq.
  wp_steps. eapply drop_image_wp; [exact IM2|exact Ht1|]. intros h2 t2 Es2 Er2 Ers2 Ea2 IM3.
  set (s2 := set_tasks (<[t := t2]> (k_tasks s1)) (set_k_mem h2 s1)) in *.
  assert (I2 : sched_inv l r 0 s2) by (eapply sched_inv_ext; [exact (sched_inv_upd l r 0 t _ t2 s1 I1 Ht1 Es2)|done..]).
  wp_steps. eapply drop_stack_wp; [exact IM3|apply lookup_insert_eq|]. intros h3 t3 Es3 Er3 Ers3 Ea3 IM4.
  set (s3 := set_tasks (<[t := t3]> (k_tasks s2)) (set_k_mem h3 s2)) in *.
  assert (I3 : sched_inv l r 0 s3).
  { eapply sched_inv_ext; [exact (sched_inv_upd l r 0 t t2 t3 s2 I2 (lookup_insert_eq _ _ _) Es3)|done..]. }
  assert (Ht3 : k_tasks s3 !! t = Some t3) by apply lookup_insert_eq.
  assert (Hd3 : delete t (k_tasks s3) = delete t (k_tasks s)).
  { unfold s3, s2, s1. cbn [k_tasks set_tasks set_k_mem]. by rewrite !delete_insert_eq. }
  wp_steps. eapply run_queue_remove_wp; [exact (si_null _ _ _ _ I3)|exact (si_ring _ _ _ _ I3)|].
  intros h4 m4 R4 E4. set (s4 := set_run_queue h4 (set_tasks m4 s3)).
  assert (I4 : sched_inv l (filter (λ p, p ≠ t) r) 0 s4).
  { apply (sched_inv_relink l r); [exact I3|exact E4|exact R4| |].
    - intros i cpu Hi. destruct (si_cpu _ _ _ _ I3 i cpu Hi) as (_ & _ & Hnr & _). destruct (Hoff i cpu Hi).
      rewrite !list_elem_of_filter. tauto.
    - intros p tp _ [_ Hr]%list_elem_of_filter. by left. }
  assert (IM5 : mem_inv runs blocks s4) by (apply (mem_inv_strip runs blocks m4 s3); [exact IM4|by apply strip_next_links]).
  destruct (strip_next_lookup _ _ _ _ E4 Ht3) as (t4 & Ht4 & Et4).
  assert (Er4 : runs_of t4 = []).
  { replace (runs_of t4) with (runs_of t3) by (destruct t3, t4; simpl in Et4; by simplify_eq/=).
    unfold runs_of. by rewrite Ers3, Er3, Er2. }
  wp_steps. eapply (task_free_wp _ _ _ _ _ t t4); [exact I4|exact IM5|exact Ht4|exact Er4|exact Hoff| |].
  { rewrite list_elem_of_filter. tauto. }
  intros s5 I5 IM6 E5 St Hn. split_and!; [exact I5|exact IM6| |done|done].
  rewrite E5. change (k_tasks s4) with m4. rewrite strip_links_delete.
  rewrite (strip_next_links _ _ E4), <- strip_links_delete. by rewrite Hd3.
Qed.

(** The whole of it. *)
Definition kill_waiting (t : Z) : M sched unit := task_release_resources t;; kill_tail t.

Lemma kill_waiting_wp l r runs blocks t td s :
  sched_inv l r 0 s → mem_inv runs blocks s → k_tasks s !! t = Some td →
  t_state td = TASK_READY ∨ t_state td = TASK_SLEEPING →
  (∀ i cpu, cpus s !! i = Some cpu → c_idle cpu ≠ t) →
  wp (kill_waiting t)
    (λ _ s', ∃ fds, sched_inv (filter (λ p, p ≠ t) l) (filter (λ p, p ≠ t) r) 0 s' ∧ mem_inv runs blocks s' ∧
       strip_links (k_tasks s') = strip_links (delete t (forget_fds fds (k_tasks s))) ∧ same_statics s s' ∧
       next_pid s' = next_pid s) s.
Proof.
  intros I IM Ht Hst Hni. unfold kill_waiting. wp_steps. eapply task_release_resources_wp; [exact I|exact IM|].
  intros h fds s1 I1 IM1. eapply wp_mono.
  - exact (kill_tail_wp l r runs blocks t (forget_task fds td) s1 I1 IM1 (forget_fds_lookup _ _ _ _ Ht) Hst Hni).
  - intros [] s' (I' & IM' & E' & St & En). exists fds. split_and!; [exact I'|exact IM'|exact E'|exact St|exact En].
Qed.

(** [task_kill] of a task that waits comes to that. *)
Lemma task_kill_waiting l r c cpu t td s :
  sched_inv l r 0 s → cpus s !! c = Some cpu → k_tasks s !! t = Some td →
  t_state td = TASK_READY ∨ t_state td = TASK_SLEEPING →
  task_kill c t s = (kill_waiting t;; mret true) s.
Proof.
  intros I Hc Ht Hst. assert (t ≠ 0) by (intros ->; by rewrite (si_null _ _ _ _ I) in Ht).
  assert (Hne : c_current cpu ≠ t).
  { intros E. destruct (si_running _ _ _ _ I c cpu Hc) as (u & Hu & Hs). rewrite E in Hu, Hs.
    assert (u = td) as -> by congruence. destruct (Z.eqb_spec t 0); destruct Hst; congruence. }
  unfold task_kill, task_current, this_cpu, task, lift, gets, get, mbind, M_bind, mret, M_ret.
  destruct (Z.eqb_spec t 0); [done|]. rewrite Ht.
  destruct decide; [destruct Hst; congruence|]. cbn. rewrite Hc. cbn.
  destruct (Z.eqb_spec t (c_current cpu)); [congruence|]. destruct decide; [destruct Hst; congruence|].
  unfold kill_waiting, kill_tail, mbind, M_bind.
  destruct (task_release_resources t s) as [[? s1]|]; [|done].
  destruct (task_upd t (set_state TASK_DEAD) s1) as [[? s2]|]; [|done].
  destruct (drop_image t s2) as [[? s3]|]; [|done]. destruct (drop_stack t s3) as [[? s4]|]; [|done].
  by destruct (run_queue_remove t s4) as [[? s5]|].
Qed.

Lemma task_kill_wp l r runs blocks c cpu t s :
  sched_inv l r 0 s → mem_inv runs blocks s → cpus s !! c = Some cpu →
  t = 0 ∨ is_Some (k_tasks s !! t) → (∀ i ci, cpus s !! i = Some ci → c_idle ci ≠ t) →
  wp (task_kill c t) (λ _ s', op_ok runs blocks s s') s.
Proof.
  intros I IM Hc Ht Hni.
  destruct (decide (t = 0)) as [->|H0t]; [unfold task_kill; cbn [Z.eqb]; wp_steps; by eapply op_ok_refl|].
  destruct Ht as [?|[td Ht]]; [done|]. destruct (decide (t_state td = TASK_READY ∨ t_state td = TASK_SLEEPING)) as [Hst|Hst].
  - unfold wp. rewrite (task_kill_waiting l r c cpu t td s I Hc Ht Hst).
    change (wp (kill_waiting t;; mret true) (λ _ s', op_ok runs blocks s s') s).
    wp_steps. eapply wp_mono; [exact (kill_waiting_wp l r runs blocks t td s I IM Ht Hst Hni)|].
    intros [] s' (fds & I' & IM' & E' & (_ & _ & Ec & _) & _). wp_steps. split_and!; [split; eauto| |by rewrite Ec].
    eapply (keeps_gone_delete fds t (t_state td)); [exact E'|exact Ec|by exists td|by destruct Hst as [-> | ->]].
  - unfold task_kill. destruct (Z.eqb_spec t 0); [done|]. wp_steps. apply (wp_task t td); [done|].
    destruct decide as [Ed|Ed]; [wp_steps; by eapply op_ok_refl|].
    wp_steps. eapply wp_task_current; [exact Hc|]. destruct (Z.eqb_spec t (c_current cpu)) as [->|Hne].
    + wp_steps. eapply wp_mono; [eapply task_exit_wp; [exact I|exact IM|exact Hc|]|].
      * intros E. by eapply Hni.
      * intros [] s' [? _]. by wp_steps.
    + destruct decide as [Er|Er]; [|by destruct (t_state td); tauto].
      wp_steps. eapply wp_task_upd; [exact Ht|]. wp_steps.
      destruct (touch_ok l r runs blocks t td (set_kill_pending true td) s) as (I1 & IM1 & G1 & L1); [done..|].
      split_and!; [split; eauto|done|done].
Qed.

(** ** Lemmas: creating tasks *)
Lemma fresh_off_cpu l r s p i cpu :
  sched_inv l r 0 s → k_tasks s !! p = None → cpus s !! i = Some cpu → c_idle cpu ≠ p ∧ c_current cpu ≠ p.
Proof.
  intros I Hp Hi. destruct (cpu_tasks _ _ _ _ _ _ _ I Hi (or_introl eq_refl)) as [? ?].
  destruct (cpu_tasks _ _ _ _ _ _ _ I Hi (or_intror eq_refl)) as [? ?]. split; congruence.
Qed.

Lemma fresh_ring l r s p : sched_inv l r 0 s → k_tasks s !! p = None → p ∉ r.
Proof. intros I Hp Hr. destruct (ring_elem _ _ _ _ (si_ring _ _ _ _ I) Hr). congruence. Qed.

(** A page run handed to a task. *)
Lemma alloc_runs_wp runs blocks p t n s (Q : Z → sched → Prop) :
  mem_inv runs blocks s → k_tasks s !! p = Some t → 0 < n → runs_of t = [] →
  Q 0 s →
  (∀ b h, b ≠ 0 →
     (∀ t', runs_of t' = [(b, n)] → t_args t' = t_args t →
        mem_inv runs blocks (set_tasks (<[p := t']> (k_tasks s)) (set_k_mem h s))) → Q b (set_k_mem h s)) →
  wp (on_task_mem (km_alloc_pages n)) Q s.
Proof.
  intros [[sz I] A] Hp Hn Er HQ0 HQ. apply on_task_mem_wp.
  eapply km_alloc_pages_law; [exact I|done|by destruct s|]. intros b h Hb I' _.
  apply HQ; [done|]. intros t' Er' Ea. split; [|by eapply args_ok_upd]. exists sz.
  eapply km_perm; [| |exact I']; cbn [k_tasks k_args set_tasks set_k_mem].
  - pose proof (task_runs_upd (k_tasks s) p t t' Hp) as P. rewrite Er, Er' in P. simpl in P. by rewrite P.
  - by rewrite (task_blocks_upd _ _ t).
Qed.

Lemma delete_fresh l r runs blocks p t s s0 (Q : unit → sched → Prop) :
  sched_inv l r 0 s0 → k_tasks s0 !! p = None →
  sched_inv (p :: l) r 0 s → mem_inv runs blocks s → k_tasks s = <[p := t]> (k_tasks s0) → runs_of t = [] →
  same_statics s0 s → next_pid s = next_pid s0 →
  (∀ s', sched_inv l r 0 s' → mem_inv runs blocks s' → strip_links (k_tasks s') = strip_links (k_tasks s0) →
     same_statics s0 s' → next_pid s' = next_pid s0 → Q tt s') →
  wp (task_free p) Q s.
Proof.
  intros I0 Hp I IM E Er St En HQ.
  assert (Hnl : p ∉ l).
  { intros Hin. destruct (tchain_elem _ _ _ _ (si_list _ _ _ _ I0) Hin). congruence. }
  assert (Ef : filter (λ q, q ≠ p) (p :: l) = l).
  { change (p :: l) with ([] ++ p :: l). apply filter_ne_app. apply list.NoDup_cons. split; [done|]. by apply (si_nodup _ _ _ _ I0). }
  pose proof St as (_ & _ & Ec & _).
  eapply (task_free_wp _ _ _ _ _ p t); [exact I|exact IM|by rewrite E, lookup_insert_eq|done| | |].
  - intros i cpu Hi. rewrite Ec in Hi. exact (fresh_off_cpu _ _ _ _ _ _ I0 Hp Hi).
  - exact (fresh_ring _ _ _ _ I0 Hp).
  - rewrite Ef. intros s' I' IM' E' St' En'. apply HQ; [done|done| | |congruence].
    + rewrite E', E, delete_insert_eq. by rewrite delete_id.
    + destruct St as (?&?&?&?), St' as (?&?&?&?). split_and!; congruence.
Qed.

Lemma task_new_common_wp l r runs blocks c cpu tc name s (Q : Z → sched → Prop) :
  sched_inv l r 0 s → mem_inv runs blocks s → cpus s !! c = Some cpu → k_tasks s !! c_current cpu = Some tc →
  (∀ s', sched_inv l r 0 s' → mem_inv runs blocks s' → strip_links (k_tasks s') = strip_links (k_tasks s) →
     same_statics s s' → next_pid s' = next_pid s → Q 0 s') →
  (∀ p stack s', p ≠ 0 → stack ≠ 0 →
     fresh_task l r runs blocks s p (new_task name (t_cwd tc) (next_pid s) stack (task_list s)) s' →
     next_pid s' = u64 (next_pid s + 1) → Q p s') →
  wp (task_new_common c name) Q s.
Proof.
  intros I IM Hc Htc HQ0 HQ. unfold task_new_common. wp_steps.
  eapply task_alloc_wp; [exact IM|by wp_steps; apply HQ0|]. intros p h Hp Hnew s1 IM1.
  destruct (Z.eqb_spec p 0); [done|].
  assert (I1 : sched_inv (p :: l) r 0 s1).
  { eapply sched_inv_ext; [by apply (sched_inv_new l r 0 p (set_list_next (task_list s) zero_task) s)|done..]. }
  assert (Ht1 : k_tasks s1 !! p = Some (set_list_next (task_list s) zero_task)) by apply lookup_insert_eq.
  cbv zeta. wp_steps. eapply alloc_runs_wp; [exact IM1|exact Ht1|done|done| |].
  { wp_steps. cbn [Z.eqb]. wp_steps. eapply (delete_fresh l r runs blocks p _ s1 s); [done..|].
    intros. wp_steps. by apply HQ0. }
  intros stack h2 Hs IM2. destruct (Z.eqb_spec stack 0); [done|]. wp_steps. unfold task_fpu_init. upd_steps.
  eapply wp_task_current; [exact Hc|].
  destruct (Z.eqb_spec (c_current cpu) 0) as [E|]; [by rewrite E, (si_null _ _ _ _ I) in Htc|].
  wp_steps. apply (wp_task _ tc).
  { cbn [k_tasks set_tasks set_k_mem set_task_list]. rewrite lookup_insert_ne by congruence.
    unfold s1. cbn [k_tasks set_tasks set_task_list]. rewrite lookup_insert_ne by congruence. exact Htc. }
  wp_steps. upd_steps. apply HQ with (stack := stack); [done|done| |done].
  match goal with |- fresh_task _ _ _ _ _ _ ?t' ?s' => set (tn := t'); set (s2 := s') end.
  assert (Es2 : s2 = set_next_pid (u64 (next_pid s + 1)) (set_tasks (<[p := tn]> (k_tasks s1)) (set_k_mem h2 s1))).
  { reflexivity. }
  rewrite Es2. clear s2 Es2. constructor; try done.
  - cbn [k_tasks set_next_pid set_tasks]. unfold s1. cbn [k_tasks set_task_list set_tasks set_k_mem].
    by rewrite insert_insert_eq.
  - eapply sched_inv_ext; [eapply (sched_inv_off (p :: l) r 0 p _ tn s1)|done..]; [exact I1| | |exact Ht1|done].
    + intros i ci Hi. exact (fresh_off_cpu _ _ _ _ _ _ I Hnew Hi).
    + exact (fresh_ring _ _ _ _ I Hnew).
  - apply IM2; [|done]. unfold runs_of, stack_runs. simpl. by destruct (Z.eqb_spec stack 0).
Qed.

(** The task [task_create] makes, its stack primed. *)
Definition created_task (name : option str) (cwd : str) (pid stack link entry arg : Z) : Task :=
  set_context (CtxPrimed (stack + 64 * PAGE_SIZE - 72) [0; 0; 0; 0; 0; 0; task_trampoline; entry; arg])
    (new_task name cwd pid stack link).

Lemma task_create_wp l r runs blocks c cpu tc name entry arg s (Q : Z → sched → Prop) :
  sched_inv l r 0 s → mem_inv runs blocks s → cpus s !! c = Some cpu → k_tasks s !! c_current cpu = Some tc →
  (∀ s', sched_inv l r 0 s' → mem_inv runs blocks s' → strip_links (k_tasks s') = strip_links (k_tasks s) →
     same_statics s s' → next_pid s' = next_pid s → Q 0 s') →
  (∀ p stack s', entry ≠ 0 → p ≠ 0 → k_tasks s !! p = None → stack ≠ 0 →
     sched_inv (p :: l) (rq_insert p r) 0 s' → mem_inv runs blocks s' →
     strip_next (k_tasks s') =
       strip_next (<[p := created_task name (t_cwd tc) (next_pid s) stack (task_list s) entry arg]> (k_tasks s)) →
     same_statics s s' → next_pid s' = u64 (next_pid s + 1) → Q p s') →
  wp (task_create task_trampoline c name entry arg) Q s.
Proof.
  intros I IM Hc Htc HQ0 HQ. unfold task_create, task_create_with. destruct (Z.eqb_spec entry 0) as [|He].
  { wp_steps. by apply HQ0. }
  wp_steps. eapply task_new_common_wp; [exact I|exact IM|exact Hc|exact Htc| |].
  { intros. cbn [Z.eqb]. wp_steps. by apply HQ0. }
  intros p stack s1 Hp Hs F Hpid. destruct (Z.eqb_spec p 0); [done|]. wp_steps.
  unfold task_prime_stack. pose proof F as [Hnew _ Et I1 IM1 St Eq].
  set (tn := new_task name (t_cwd tc) (next_pid s) stack (task_list s)) in *.
  assert (Ht1 : k_tasks s1 !! p = Some tn) by (rewrite Et; apply lookup_insert_eq).
  wp_steps. apply (wp_task p tn); [done|]. cbv zeta. eapply wp_task_upd; [exact Ht1|]. wp_steps.
  set (t2 := set_context _ tn). set (s2 := set_tasks (<[p := t2]> (k_tasks s1)) s1).
  assert (Hnr : p ∉ r) by exact (fresh_ring _ _ _ _ I Hnew).
  pose proof St as (_ & _ & Ec & _).
  assert (Hoff : ∀ i ci, cpus s1 !! i = Some ci → c_idle ci ≠ p ∧ c_current ci ≠ p).
  { intros i ci Hi. rewrite Ec in Hi. exact (fresh_off_cpu _ _ _ _ _ _ I Hnew Hi). }
  assert (I2 : sched_inv (p :: l) r 0 s2) by exact (sched_inv_off _ _ _ p tn t2 s1 I1 Hoff Hnr Ht1 eq_refl).
  assert (IM2 : mem_inv runs blocks s2) by exact (mem_inv_upd _ _ p tn t2 s1 IM1 Ht1 eq_refl eq_refl).
  assert (Ht2 : k_tasks s2 !! p = Some t2) by apply lookup_insert_eq.
  eapply run_queue_push_wp; [exact (si_ring _ _ _ _ I2)|exact Ht2|exact Hnr|done|].
  intros h m R E. wp_steps. apply (HQ p stack); [done..| | |  |done|done].
  - apply (sched_inv_relink (p :: l) r); [exact I2|exact E|exact R| |].
    + intros i ci Hi. destruct (si_cpu _ _ _ _ I2 i ci Hi) as (_ & _ & Hni & _). destruct (Hoff i ci Hi).
      unfold rq_insert. destruct r; set_solver.
    + intros q t Hq Hr. assert (q ∈ r ∨ q = p) as [?| ->] by (unfold rq_insert in Hr; destruct r; set_solver); [by left|].
      right; left. rewrite Ht2 in Hq. simplify_eq. split; [by left|done].
  - apply (mem_inv_strip runs blocks m s2); [exact IM2|by apply strip_next_links].
  - cbn [k_tasks set_run_queue set_tasks]. rewrite E. unfold s2. cbn [k_tasks set_tasks]. by rewrite Et, insert_insert_eq.
Qed.

Lemma keeps_gone_strip s s' m :
  strip_links (k_tasks s') = strip_links m → (∀ p t, k_tasks s !! p = Some t → m !! p = Some t) →
  cpus s' = cpus s → keeps_gone s s'.
Proof.
  intros E Hm Ec p [(u & Hu & Hd) Hp]. split; [|by rewrite Ec].
  destruct (strip_links_lookup _ _ _ _ E (Hm _ _ Hu)) as (u' & ? & Eu). exists u'. split; [done|].
  destruct u, u'; simpl in Eu; by simplify_eq/=.
Qed.

(** Every operation that is allowed runs to its end and keeps the invariants. *)
Lemma run_op_wp runs blocks op s :
  task_inv runs blocks s → allowed op s → wp (run_op op) (λ _ s', op_ok runs blocks s s') s.
Proof.
  intros [(l & r & I) IM] Ha. destruct op; cbn [run_op allowed] in *.
  - destruct Ha as [cpu Hc]. by eapply task_yield_wp.
  - destruct Ha as [cpu Hc]. by eapply task_scheduler_tick_wp.
  - destruct Ha as [cpu Hc]. by eapply task_sleep_ms_wp.
  - destruct Ha as [cpu Hc]. by eapply task_block_wp.
  - by eapply task_wake_waiters_ok.
  - destruct Ha as [cpu Hc]. destruct (current_task _ _ _ _ _ _ I Hc) as (tc & Htc & _). wp_steps.
    eapply task_create_wp; [exact I|exact IM|exact Hc|exact Htc| |].
    + intros s' I' IM' E (_ & _ & Ec & _) _. wp_steps. split_and!; [split; eauto| |by rewrite Ec].
      by eapply (keeps_gone_strip s s' (k_tasks s)).
    + intros p stack s' _ _ Hnew _ I' IM' E (_ & _ & Ec & _) _. wp_steps. split_and!; [split; eauto| |by rewrite Ec].
      eapply keeps_gone_strip; [by apply strip_next_links| |done].
      intros q t Hq. rewrite lookup_insert_ne; [done|congruence].
  - destruct Ha as ([cpu Hc] & Ht & Hni). wp_steps. eapply wp_mono; [by eapply task_kill_wp|].
    intros b s' Hok. by wp_steps.
  - destruct Ha as (cpu & Hc & Hni). eapply wp_mono; [by eapply task_exit_wp|]. by intros [] s' [? _].
Qed.

(** ** Lemmas: the start *)

(** Before [task_init]: no task, one CPU. *)
Record boot_state (runs blocks : list (Z * Z)) (s : sched) : Prop := {
  bs_tasks : k_tasks s = ∅;
  bs_args : k_args s = ∅;
  bs_list : task_list s = 0;
  bs_queue : task_run_queue s = 0;
  bs_cpu : ∃ cpu, cpus s = [cpu];
  bs_mem : km_inv (k_mem s) runs blocks
}.

Lemma boot_mem runs blocks s : boot_state runs blocks s → mem_inv runs blocks s.
Proof.
  intros [Et Ea _ _ _ I]. split.
  - exists (λ _, 0). by rewrite Et, Ea.
  - rewrite Et. intros p t Hp. by rewrite lookup_empty in Hp.
Qed.

(** The whole of [task_init] but its first call. *)
Definition init_rest (c : nat) (idle : Z) : M sched unit :=
  modify (set_kernel_task idle);;
  task_upd idle (set_name (clip_task_name (to_str "kernel")));;
  task_upd idle (set_state TASK_RUNNING);;
  task_upd idle (set_context CtxNone);;
  task_upd idle (set_stdio [-1; -1; -1]);;
  task_fpu_init idle;;
  cpu_upd c (set_idle idle);;
  cpu_upd c (set_current idle).

Lemma init_rest_wp runs blocks cpu p t s :
  p ≠ 0 → cpus s = [cpu] → k_tasks s = {[p := t]} → task_list s = p → task_run_queue s = 0 →
  t_list_next t = 0 → mem_inv runs blocks s →
  wp (init_rest 0 p) (λ _ s', task_inv runs blocks s') s.
Proof.
  intros Hp Ec Et El Eq En IM. unfold init_rest, task_fpu_init. wp_steps.
  assert (Ht : k_tasks s !! p = Some t) by (rewrite Et; apply lookup_singleton_eq).
  eapply wp_task_upd; [exact Ht|]. wp_steps.
  repeat (eapply wp_task_upd; [cbn [k_tasks set_tasks set_kernel_task]; apply lookup_insert_eq|];
    cbn [k_tasks set_tasks set_kernel_task]; rewrite ?insert_insert_eq; wp_steps).
  eapply wp_cpu_upd; [cbn [cpus set_tasks set_kernel_task]; by rewrite Ec|]. wp_steps.
  cbn [cpus set_tasks set_kernel_task]. rewrite Ec. cbn [list_insert].
  eapply wp_cpu_upd; [done|].
  match goal with |- context [<[p := ?t']> (k_tasks s)] => set (t2 := t') end.
  split.
  - exists [p], []. rewrite Et. constructor; cbn [k_tasks task_list task_run_queue cpus set_tasks set_cpus set_kernel_task].
    + rewrite insert_singleton_eq. by rewrite lookup_singleton_ne.
    + rewrite El. split_and!; [done..|]. exists t2. by rewrite insert_singleton_eq, lookup_singleton_eq.
    + apply NoDup_singleton.
    + intros q. rewrite insert_singleton_eq. intros [u [<- _]%lookup_singleton_Some]. left.
    + done.
    + intros i ci Hi. destruct i; [|done]. injection Hi as <-. cbn.
      rewrite insert_singleton_eq, lookup_singleton_eq. split_and!; [by eexists..|apply not_elem_of_nil|by left].
    + intros i j ci cj Hi Hj _. destruct i, j; done.
    + intros i j ci cj Hi Hj _. destruct i, j; done.
    + intros i ci Hi. destruct i; [|done]. injection Hi as <-. cbn.
      destruct (Z.eqb_spec p 0); [done|]. exists t2. by rewrite insert_singleton_eq, lookup_singleton_eq.
    + intros q u _ Hq. by apply not_elem_of_nil in Hq.
    + intros i ci u Hi Hne. destruct i; [|done]. injection Hi as <-. by destruct Hne.
  - change (mem_inv runs blocks (set_tasks (<[p := t2]> (k_tasks s)) s)). by eapply mem_inv_upd.
Qed.

Lemma task_init_inv runs blocks s s' :
  boot_state runs blocks s → task_init 0 s = Some (tt, s') → task_inv runs blocks s'.
Proof.
  intros B Hrun. pose proof (boot_mem _ _ _ B) as IM. destruct B as [Et _ El Eq [cpu Ec] _].
  assert (W : wp task_alloc (λ p s1, (p = 0 ∧ s1 = s) ∨ wp (init_rest 0 p) (λ _ s', task_inv runs blocks s') s1) s).
  { eapply task_alloc_wp; [exact IM|by left|]. intros p h Hp _ s1 IM1. right.
    apply (init_rest_wp runs blocks cpu p (set_list_next (task_list s) zero_task)); try done.
    unfold s1. cbn. by rewrite Et. }
  apply wp_run in W as (p & s1 & Ha & Hc).
  change (task_init 0) with (task_alloc ≫= init_rest 0) in Hrun. unfold mbind, M_bind in Hrun. rewrite Ha in Hrun.
  destruct Hc as [[-> ->]|W].
  - exfalso. unfold init_rest, mbind, M_bind, modify, task_upd, task, get, lift, mbind, M_bind in Hrun.
    cbn [k_tasks set_kernel_task] in Hrun. by rewrite Et, lookup_empty in Hrun.
  - unfold wp in W. by rewrite Hrun in W.
Qed.

(** ** Reachable states *)

(** One operation, on any CPU, under the big kernel lock. *)
Inductive sched_step : sched → sched → Prop :=
  | step_op op s s' : allowed op s → run_op op s = Some (tt, s') → sched_step s s'.

Lemma sched_step_ok runs blocks s s' : task_inv runs blocks s → sched_step s s' → op_ok runs blocks s s'.
Proof.
  intros I Hs. destruct Hs as [op s1 s2 Ha Hr]. pose proof (run_op_wp runs blocks op s1 I Ha) as W. unfold wp in W. by rewrite Hr in W.
Qed.

Lemma sched_steps_ok runs blocks s s' :
  rtc sched_step s s' → task_inv runs blocks s → task_inv runs blocks s' ∧ keeps_gone s s'.
Proof.
  induction 1 as [s|s1 s2 s3 Hs _ IH]; intros I; [split; [done|by intros ?]|].
  destruct (sched_step_ok _ _ _ _ I Hs) as (I2 & G2 & _). destruct (IH I2) as [I3 G3].
  split; [done|by eapply keeps_gone_trans].
Qed.

(** ** Properties *)

(** C10 (safety) [schedule, pick_next, task_scheduler_tick, task_block, task_create, task_kill, task_exit]
    From a state with the invariants, whatever operations the CPUs perform one after the
    other (yields, timer ticks, sleeps, blocking, wake-ups, creations, kills, exits), the
    invariants hold: every CPU runs exactly one task, no task runs on two CPUs, the run
    queue is a ring of live tasks, all memory is accounted for. The next operation then
    runs to its end: no walk along the ring or the list is endless, no NULL or freed task
    is followed. *)
Theorem sched_never_stuck runs blocks s s' op :
  task_inv runs blocks s → rtc sched_step s s' → allowed op s' →
  task_inv runs blocks s' ∧ ∃ s'', run_op op s' = Some (tt, s'') ∧ task_inv runs blocks s''.
Proof.
  intros I Hs Ha. destruct (sched_steps_ok _ _ _ _ Hs I) as [I' _]. split; [done|].
  pose proof (run_op_wp runs blocks op s' I' Ha) as W. apply wp_run in W as ([] & s'' & ? & I'' & _). eauto.
Qed.

(** C18 (safety) [task_exit, drop_image, drop_stack, task_args_free]
    A task that exits is dead and off its CPU when [task_exit] is done, and whatever
    happens afterwards it stays dead and is never run again: nothing wakes it, the
    scheduler never chooses it, and its [for] loop is never gone back to.  It has given back
    its stack, its image and its argument list: the dead task owns none, its list is gone from
    the lists there are, and the memory accounted for is what the others own. *)
Theorem exited_task_never_runs runs blocks c cpu code s :
  task_inv runs blocks s → cpus s !! c = Some cpu → c_current cpu ≠ c_idle cpu →
  ∃ s1 t, task_exit c code s = Some (tt, s1) ∧ task_inv runs blocks s1 ∧ gone s1 (c_current cpu) ∧
    k_tasks s !! c_current cpu = Some t ∧ gave_back (t_args t) s s1 (c_current cpu) ∧
    ∀ s2, rtc sched_step s1 s2 → gone s2 (c_current cpu).
Proof.
  intros [(l & r & I) IM] Hc Hni. pose proof (task_exit_wp l r runs blocks c cpu code s I IM Hc Hni) as W.
  apply wp_run in W as ([] & s1 & Hr & (I1 & _ & _) & G & t & Ht & Hb). exists s1, t. split_and!; [done..|].
  intros s2 Hs. by apply (sched_steps_ok _ _ _ _ Hs I1).
Qed.

(** C19 (functional) [task_kill, run_queue_remove, task_free, Task.unlink_loop, rq_remove_loop]
    [task_kill] of a task that waits takes it out of the run queue and the list of
    tasks, keeps their order, frees the task and everything it owned but its argument
    list, and leaves every other task as it was but for standard descriptors ([fds] are
    those the task had open). *)
Theorem task_kill_correct l r runs blocks c cpu t td s :
  sched_inv l r 0 s → mem_inv runs blocks s → cpus s !! c = Some cpu → k_tasks s !! t = Some td →
  t_state td = TASK_READY ∨ t_state td = TASK_SLEEPING → (∀ i ci, cpus s !! i = Some ci → c_idle ci ≠ t) →
  ∃ s' fds, task_kill c t s = Some (true, s') ∧
    sched_inv (filter (λ p, p ≠ t) l) (filter (λ p, p ≠ t) r) 0 s' ∧ mem_inv runs blocks s' ∧
    strip_links (k_tasks s') = strip_links (delete t (forget_fds fds (k_tasks s))) ∧ same_statics s s'.
Proof.
  intros I IM Hc Ht Hst Hni. pose proof (kill_waiting_wp l r runs blocks t td s I IM Ht Hst Hni) as W.
  apply wp_run in W as ([] & s' & Hrun & fds & I' & IM' & E' & St & _). exists s', fds. split_and!; try done.
  rewrite (task_kill_waiting l r c cpu t td s I Hc Ht Hst). unfold mbind, M_bind. by rewrite Hrun.
Qed.
End SchedOps.

(** ** A machine to try the theorems on *)

(** After [task_init], then after two tasks were created and a tick was taken. *)
Definition demo_boot_sched : sched heap := Sched demo_kheap ∅ ∅ 0 0 0 0 1 [MkCpu 0 0 0 0 0 0].
Definition demo_sched : sched heap := run_state (task_init 0) demo_boot_sched.
Definition demo_create (n entry : Z) : sched_op := OpCreate 0 (Some (to_str "demo")) entry n.
Definition demo_sched1 : sched heap := run_state (run_op 4096 (demo_create 1 5000)) demo_sched.
Definition demo_sched2 : sched heap := run_state (run_op 4096 (demo_create 2 6000)) demo_sched1.
Definition demo_sched3 : sched heap := run_state (run_op 4096 (OpTick 0)) demo_sched2.

Lemma demo_boot_sched_ok : boot_state [] [] demo_boot_sched.
Proof. constructor; try done; [by eexists|exact demo_kheap_inv]. Qed.

Definition is_done {S} (m : M S unit) (s : S) : bool := match m s with Some (tt, _) => true | None => false end.
Lemma is_done_run {S} (m : M S unit) s : is_done m s = true → m s = Some (tt, run_state m s).
Proof. unfold is_done, run_state. destruct (m s) as [[[] s']|]; done. Qed.

Lemma demo_sched_inv : task_inv [] [] demo_sched.
Proof.
  apply (task_init_inv [] [] demo_boot_sched demo_sched demo_boot_sched_ok). unfold demo_sched.
  apply (is_done_run (task_init 0) demo_boot_sched). vm_compute. reflexivity.
Qed.

(** A step of the demo machine. *)
Lemma demo_step op (s : sched heap) :
  task_inv [] [] s → allowed op s → task_inv [] [] (run_state (run_op 4096 op) s).
Proof.
  intros I Ha. pose proof (run_op_wp 4096 [] [] op s I Ha) as W. apply wp_run_state in W as ([] & _ & I' & _). done.
Qed.

Lemma cpu_of (s : sched heap) c : (c <? length (cpus s))%nat = true → is_Some (cpus s !! c).
Proof. intros H%Nat.ltb_lt. by apply lookup_lt_is_Some_2. Qed.

Lemma demo_sched3_inv : task_inv [] [] demo_sched3.
Proof.
  unfold demo_sched3, demo_sched2, demo_sched1.
  apply demo_step; [apply demo_step; [apply demo_step; [exact demo_sched_inv|]|]|]; apply cpu_of; vm_compute; reflexivity.
Qed.

Lemma demo_sched2_inv : task_inv [] [] demo_sched2.
Proof.
  unfold demo_sched2, demo_sched1.
  apply demo_step; [apply demo_step; [exact demo_sched_inv|]|]; apply cpu_of; vm_compute; reflexivity.
Qed.

Lemma demo_op_step op (s : sched heap) :
  allowed op s → is_done (run_op 4096 op) s = true → sched_step 4096 s (run_state (run_op 4096 op) s).
Proof. intros Ha Hd. apply (step_op _ op); [done|]. by apply is_done_run. Qed.

Lemma demo_steps : rtc (sched_step 4096) demo_sched demo_sched3.
Proof.
  apply (rtc_l _ _ demo_sched1); [apply demo_op_step; [apply cpu_of|]; vm_compute; reflexivity|].
  apply (rtc_l _ _ demo_sched2); [apply demo_op_step; [apply cpu_of|]; vm_compute; reflexivity|].
  apply (rtc_l _ _ demo_sched3); [apply demo_op_step; [apply cpu_of|]; vm_compute; reflexivity|apply rtc_refl].
Qed.

Lemma demo_tick_allowed : allowed (OpTick 0) demo_sched3.
Proof. apply cpu_of. vm_compute. reflexivity. Qed.

Lemma sched_never_stuck_witness :
  task_inv [] [] demo_sched3 ∧ ∃ s'', run_op 4096 (OpTick 0) demo_sched3 = Some (tt, s'') ∧ task_inv [] [] s''.
Proof.
  exact (sched_never_stuck 4096 [] [] demo_sched demo_sched3 (OpTick 0) demo_sched_inv demo_steps demo_tick_allowed).
Defined.

Definition demo_cpu : Cpu := MkCpu 0 140737488633872 140737488363536 0 1 0.
Lemma demo_cpu_ok : cpus demo_sched3 !! 0%nat = Some demo_cpu.
Proof. vm_compute. reflexivity. Qed.

Lemma exited_task_never_runs_witness :
  ∃ s1 t, task_exit 0 7 demo_sched3 = Some (tt, s1) ∧ task_inv [] [] s1 ∧ gone s1 (c_current demo_cpu) ∧
    k_tasks demo_sched3 !! c_current demo_cpu = Some t ∧ gave_back (t_args t) demo_sched3 s1 (c_current demo_cpu) ∧
    ∀ s2, rtc (sched_step 4096) s1 s2 → gone s2 (c_current demo_cpu).
Proof.
  refine (exited_task_never_runs 4096 [] [] 0 demo_cpu 7 demo_sched3 demo_sched3_inv demo_cpu_ok _). discriminate.
Defined.

(** The task created last, still waiting. *)
Definition demo_victim : Task := default zero_task (k_tasks demo_sched2 !! 140737488633872).
Lemma demo_victim_ok : k_tasks demo_sched2 !! 140737488633872 = Some demo_victim ∧ t_state demo_victim = TASK_READY ∧
  cpus demo_sched2 = [MkCpu 0 140737488363536 140737488363536 0 0 0].
Proof. split_and!; vm_compute; reflexivity. Qed.

Lemma task_kill_correct_witness :
  ∃ l r s' fds, task_kill 0 140737488633872 demo_sched2 = Some (true, s') ∧
    sched_inv (filter (λ p, p ≠ 140737488633872) l) (filter (λ p, p ≠ 140737488633872) r) 0 s' ∧ mem_inv [] [] s' ∧
    strip_links (k_tasks s') = strip_links (delete 140737488633872 (forget_fds fds (k_tasks demo_sched2))) ∧ same_statics demo_sched2 s'.
Proof.
  destruct demo_sched2_inv as [(l & r & I) IM]. exists l, r. destruct demo_victim_ok as (Hv & Hs & Hc).
  refine (task_kill_correct l r [] [] 0 (MkCpu 0 140737488363536 140737488363536 0 0 0) 140737488633872 demo_victim demo_sched2
    I IM _ Hv (or_introl Hs) _); rewrite Hc; [reflexivity|]. intros i ci Hi. destruct i; [|discriminate Hi].
  injection Hi as <-. discriminate.
Defined.
