(* ===== verification/Smp.v ===== *)
(** * kernel/system/smp.c: CPUs and the big kernel lock

    The lock is a ticket lock: the steps of [bkl_lock] and [bkl_unlock] that touch
    shared memory are atomic steps of a CPU, interleaved in any order ([lock_step]).
    The contract is a queue of CPUs ([fifo_step]): taking a ticket joins it, the head
    holds the lock, unlocking leaves it.  Second part: how CPUs are brought up
    ([cpu_init_bsp], [smp_init]) on the state of Task.v. *)
From S2P Require Import Prelude RawMem Pmm Heap VfsTypes Task TaskRing Sched SchedOps.
Local Open Scope kernel_scope.

(** [kernel/system/smp.h 1-1] *)
Definition CPU_MAX : nat := 64.

(** ** The lock *)

(** [kernel/system/smp.c 5-7] *)
Record bkl := Bkl { bkl_next_ticket : Z; bkl_now_serving : Z; bkl_owner : Z }.
(** The statics before boot. *)
Definition bkl_init : bkl := Bkl 0 0 (-1).

(** [__atomic_fetch_add(&bkl_next_ticket, 1)]. [kernel/system/smp.c: bkl_lock 15-15] *)
Definition bkl_take_ticket (b : bkl) : Z * bkl :=
  (bkl_next_ticket b, Bkl (u32 (bkl_next_ticket b + 1)) (bkl_now_serving b) (bkl_owner b)).
(** The loop ends. [kernel/system/smp.c: bkl_lock 16-17] *)
Definition bkl_is_served (ticket : Z) (b : bkl) : bool := bkl_now_serving b =? ticket.
(** [kernel/system/smp.c: bkl_lock 18-18] *)
Definition bkl_set_owner (o : Z) (b : bkl) : bkl := Bkl (bkl_next_ticket b) (bkl_now_serving b) o.
(** [kernel/system/smp.c: bkl_unlock 24-24] *)
Definition bkl_serve_next (b : bkl) : bkl :=
  Bkl (bkl_next_ticket b) (u32 (bkl_now_serving b + 1)) (bkl_owner b).
(** [kernel/system/smp.c: bkl_held] *)
Definition bkl_held (c : nat) (b : bkl) : bool := bkl_owner b =? s32 (Z.of_nat c).

(** The whole of [bkl_lock] and [bkl_unlock] on CPU [c] when no other CPU moves; [None]
    spins for ever. [kernel/system/smp.c: bkl_lock] *)
Definition bkl_lock (c : nat) : M bkl unit := λ b,
  let '(ticket, b) := bkl_take_ticket b in
  if bkl_is_served ticket b then Some (tt, bkl_set_owner (s32 (Z.of_nat c)) b) else None.
(** [kernel/system/smp.c: bkl_unlock] *)
Definition bkl_unlock : M bkl unit := modify (bkl_set_owner (-1));; modify bkl_serve_next.

(** Where a CPU is in the code of the lock: outside, spinning with its ticket, past
    the loop, holding the lock, past the first line of [bkl_unlock]. *)
Inductive lock_pc := Out | Spinning (ticket : Z) | Acquired | Holding | Leaving.
#[export] Instance lock_pc_eq_dec : EqDecision lock_pc.
Proof. solve_decision. Defined.
Record lock_state := LockState { ls_lock : bkl; ls_pc : list lock_pc }.

(** The next atomic action of CPU [c] at a point of the code. [kernel/system/smp.c 13-25] *)
Definition lock_action (c : nat) (pc : lock_pc) (b : bkl) : lock_pc * bkl :=
  match pc with
  | Out => let '(ticket, b) := bkl_take_ticket b in (Spinning ticket, b)
  | Spinning ticket => if bkl_is_served ticket b then (Acquired, b) else (Spinning ticket, b)
  | Acquired => (Holding, bkl_set_owner (s32 (Z.of_nat c)) b)
  | Holding => (Leaving, bkl_set_owner (-1) b)
  | Leaving => (Out, bkl_serve_next b)
  end.
Inductive lock_step (c : nat) : lock_state → lock_state → Prop :=
  | lock_step_at pc pc' b b' pcs :
      pcs !! c = Some pc → lock_action c pc b = (pc', b') →
      lock_step c (LockState b pcs) (LockState b' (<[c := pc']> pcs)).

(** [n] CPUs before anybody locks. *)
Definition lock_start (n : nat) : lock_state := LockState bkl_init (replicate n Out).

(** ** The contract *)

(** Who waits for the lock or has it, the first one has it or may take it. *)
Inductive fifo_step (c : nat) : list nat → list nat → Prop :=
  | fifo_join q : c ∉ q → fifo_step c q (q ++ [c])
  | fifo_leave q : fifo_step c (c :: q) q
  | fifo_stay q : c ∈ q → fifo_step c q q.

(** Inside the critical section. *)
Definition critical (pc : lock_pc) : bool :=
  match pc with Acquired | Holding | Leaving => true | Out | Spinning _ => false end.
(** The tickets are handed out in the order of the queue. *)
Record lock_inv (ls : lock_state) (q : list nat) : Prop := {
  li_nodup : NoDup q;
  li_cpus : (length (ls_pc ls) <= CPU_MAX)%nat;
  li_queue : ∀ c, c ∈ q ↔ ∃ pc, ls_pc ls !! c = Some pc ∧ pc ≠ Out;
  li_pc : ∀ i c, q !! i = Some c →
    ls_pc ls !! c = Some (Spinning (u32 (bkl_now_serving (ls_lock ls) + Z.of_nat i))) ∨
    (i = 0%nat ∧ ∃ pc, ls_pc ls !! c = Some pc ∧ critical pc = true);
  li_next : bkl_next_ticket (ls_lock ls) = u32 (bkl_now_serving (ls_lock ls) + Z.of_nat (length q));
  li_serving : 0 <= bkl_now_serving (ls_lock ls) < 2 ^ 32;
  li_owner : ∀ c, ls_pc ls !! c = Some Holding → bkl_owner (ls_lock ls) = Z.of_nat c;
  li_free : (∀ c, ls_pc ls !! c ≠ Some Holding) → bkl_owner (ls_lock ls) = -1
}.

(** ** Lemmas: the lock *)
Lemma u32_add x y : u32 (u32 x + y) = u32 (x + y).
Proof. unfold u32. by rewrite Zplus_mod_idemp_l. Qed.

Lemma queue_short ls q : lock_inv ls q → (length q <= CPU_MAX)%nat.
Proof.
  intros I. etransitivity; [|exact (li_cpus _ _ I)].
  rewrite <- (length_seq (length (ls_pc ls)) 0). apply submseteq_length, NoDup_submseteq; [exact (li_nodup _ _ I)|].
  intros c Hc. apply (li_queue _ _ I) in Hc as (pc & Hpc & _). apply elem_of_seq.
  apply lookup_lt_Some in Hpc. lia.
Qed.

Lemma critical_head ls q c pc :
  lock_inv ls q → ls_pc ls !! c = Some pc → critical pc = true → ∃ q', q = c :: q'.
Proof.
  intros I Hpc Hcr. assert (Hin : c ∈ q) by (apply (li_queue _ _ I); exists pc; split; [done|by intros ->]).
  apply list_elem_of_lookup in Hin as [i Hi]. destruct (li_pc _ _ I i c Hi) as [E|[-> _]].
  - rewrite Hpc in E. injection E as ->. done.
  - destruct q as [|? q]; [done|]. injection Hi as ->. eauto.
Qed.

Lemma holder_unique ls q c pc d :
  lock_inv ls q → ls_pc ls !! c = Some pc → critical pc = true → ls_pc ls !! d = Some Holding → c = d.
Proof.
  intros I Hc Hcr Hd. destruct (critical_head _ _ _ _ I Hc Hcr) as [q1 E1].
  destruct (critical_head _ _ _ _ I Hd eq_refl) as [q2 E2]. congruence.
Qed.

Lemma holder_or_free ls q :
  lock_inv ls q →
  (∃ c, ls_pc ls !! c = Some Holding ∧ bkl_owner (ls_lock ls) = Z.of_nat c) ∨
  ((∀ c, ls_pc ls !! c ≠ Some Holding) ∧ bkl_owner (ls_lock ls) = -1).
Proof.
  intros I. destruct q as [|e q'].
  - right. assert (Hno : ∀ c, ls_pc ls !! c ≠ Some Holding).
    { intros c Hc. assert (c ∈ []) as []%not_elem_of_nil. apply (li_queue _ _ I). by exists Holding. }
    split; [done|]. exact (li_free _ _ I Hno).
  - destruct (decide (ls_pc ls !! e = Some Holding)) as [He|He].
    + left. exists e. split; [done|]. exact (li_owner _ _ I e He).
    + right. assert (Hno : ∀ c, ls_pc ls !! c ≠ Some Holding).
      { intros c Hc. destruct (critical_head _ _ _ _ I Hc eq_refl) as [q2 E]. congruence. }
      split; [done|]. exact (li_free _ _ I Hno).
Qed.

Lemma small_cpu ls q c pc : lock_inv ls q → ls_pc ls !! c = Some pc → s32 (Z.of_nat c) = Z.of_nat c.
Proof.
  intros I Hc. apply lookup_lt_Some in Hc. pose proof (li_cpus _ _ I) as Hn. unfold CPU_MAX in Hn.
  unfold s32. rewrite u32_small by lia. destruct (Z.ltb_spec (Z.of_nat c) (2 ^ 31)); [done|lia].
Qed.

(** A CPU that stays in the queue moves from one point to another. *)
Lemma lock_inv_move b b' pcs q c pc pc' :
  lock_inv (LockState b pcs) q → pcs !! c = Some pc → pc ≠ Out → pc' ≠ Out → critical pc' = true →
  (∃ q', q = c :: q') →
  bkl_next_ticket b' = bkl_next_ticket b → bkl_now_serving b' = bkl_now_serving b →
  (pc' = Holding → bkl_owner b' = Z.of_nat c) → (pc' ≠ Holding → bkl_owner b' = -1) →
  (∀ d, pcs !! d = Some Holding → d = c) →
  lock_inv (LockState b' (<[c := pc']> pcs)) q.
Proof.
  intros [I1 I2 I3 I4 I5 I6 I7 I8] Hc Hpc Hpc' Hcr [q' ->] En Es Ho1 Ho2 Hh.
  assert (Hlt : (c < length pcs)%nat) by by eapply lookup_lt_Some.
  constructor; cbn [ls_lock ls_pc] in *; rewrite ?En, ?Es; try done.
  - by rewrite length_insert.
  - intros d. rewrite I3. destruct (decide (d = c)) as [->|]; [|by rewrite list_lookup_insert_ne].
    rewrite list_lookup_insert_eq by done. split; intros _; eauto.
  - intros [|i] d Hi.
    + injection Hi as <-. right. split; [done|]. exists pc'. by rewrite list_lookup_insert_eq.
    + destruct (I4 (Datatypes.S i) d Hi) as [E|[? _]]; [|done]. left. rewrite list_lookup_insert_ne; [done|].
      intros ->. apply list.NoDup_cons in I1 as [Hn _]. apply Hn. by eapply list_elem_of_lookup_2.
  - intros d Hd. destruct (decide (d = c)) as [->|Hne].
    + rewrite list_lookup_insert_eq in Hd by done. injection Hd as ->. by apply Ho1.
    + rewrite list_lookup_insert_ne in Hd by done. by destruct Hne; apply Hh.
  - intros Hno. apply Ho2. intros ->. apply (Hno c). by rewrite list_lookup_insert_eq.
Qed.

Lemma lock_inv_join b pcs q c :
  lock_inv (LockState b pcs) q → (length pcs <= CPU_MAX)%nat → pcs !! c = Some Out →
  let '(ticket, b') := bkl_take_ticket b in
  (c ∉ q) ∧ lock_inv (LockState b' (<[c := Spinning ticket]> pcs)) (q ++ [c]).
Proof.
  intros [I1 I2 I3 I4 I5 I6 I7 I8] Hn Hc. cbn [ls_lock ls_pc bkl_take_ticket] in *.
  assert (Hlt : (c < length pcs)%nat) by by eapply lookup_lt_Some.
  assert (Hnq : c ∉ q) by (intros (pc & E & Hp)%I3; congruence).
  split; [done|]. constructor; cbn [ls_lock ls_pc bkl_next_ticket bkl_now_serving bkl_owner]; try done.
  - apply list.NoDup_app. split_and!; [done|set_solver|apply NoDup_singleton].
  - by rewrite length_insert.
  - intros d. rewrite list.elem_of_app, list_elem_of_singleton, I3. destruct (decide (d = c)) as [->|Hne].
    + rewrite list_lookup_insert_eq by done. split; [eauto|by right].
    + rewrite list_lookup_insert_ne by done. split; [by intros [?|?]|by left].
  - intros i d Hi. apply lookup_app_Some in Hi as [Hi|[Hlen Hi]].
    + destruct (I4 i d Hi) as [E|[-> (pc & E & ?)]];
        (rewrite list_lookup_insert_ne; [|intros ->; apply Hnq; by eapply list_elem_of_lookup_2]); eauto.
    + apply list_lookup_singleton_Some in Hi as [Hi <-]. left. rewrite list_lookup_insert_eq by done.
      rewrite I5. do 3 f_equal. lia.
  - rewrite I5, u32_add, length_app. simpl. f_equal. lia.
  - intros d Hd. destruct (decide (d = c)) as [->|Hne].
    + by rewrite list_lookup_insert_eq in Hd.
    + rewrite list_lookup_insert_ne in Hd by done. by apply I7.
  - intros Hno. apply I8. intros d Hd. apply (Hno d). rewrite list_lookup_insert_ne; [done|]. intros ->. congruence.
Qed.

Lemma lock_inv_leave b pcs q c :
  lock_inv (LockState b pcs) (c :: q) → pcs !! c = Some Leaving → (∀ d, pcs !! d ≠ Some Holding) →
  lock_inv (LockState (bkl_serve_next b) (<[c := Out]> pcs)) q.
Proof.
  intros [I1 I2 I3 I4 I5 I6 I7 I8] Hc Hh. cbn [ls_lock ls_pc bkl_serve_next] in *.
  assert (Hlt : (c < length pcs)%nat) by by eapply lookup_lt_Some.
  apply list.NoDup_cons in I1 as [Hcq I1].
  constructor; cbn [ls_lock ls_pc bkl_next_ticket bkl_now_serving bkl_owner bkl_serve_next]; try done.
  - by rewrite length_insert.
  - intros d. destruct (decide (d = c)) as [->|Hne].
    + rewrite list_lookup_insert_eq by done. split; [done|]. intros (pc & [= <-] & ?). done.
    + rewrite list_lookup_insert_ne by done. rewrite <- I3. set_solver.
  - intros i d Hi. left. rewrite list_lookup_insert_ne.
    + destruct (I4 (Datatypes.S i) d Hi) as [E|[? _]]; [|done]. rewrite E, u32_add. do 3 f_equal. lia.
    + intros ->. apply Hcq. by eapply list_elem_of_lookup_2.
  - rewrite I5, u32_add. f_equal. simpl. lia.
  - apply u32_range.
  - intros d Hd. destruct (decide (d = c)) as [->|Hne].
    + by rewrite list_lookup_insert_eq in Hd.
    + rewrite list_lookup_insert_ne in Hd by done. by apply Hh in Hd.
  - intros _. by apply I8.
Qed.

Lemma lock_inv_start n : (n <= CPU_MAX)%nat → lock_inv (lock_start n) [].
Proof.
  intros Hn. assert (L : ∀ c pc, replicate n Out !! c = Some pc → pc = Out).
  { intros c pc E. by apply lookup_replicate_1 in E as [-> _]. }
  constructor; cbn [ls_lock ls_pc lock_start]; try done.
  - constructor.
  - by rewrite length_replicate.
  - intros c. split; [by intros ?%not_elem_of_nil|]. intros (pc & E & Hp). by apply L in E.
  - intros c E. by apply L in E.
Qed.

Lemma lock_step_sim c ls ls' q :
  lock_inv ls q → lock_step c ls ls' → ∃ q', fifo_step c q q' ∧ lock_inv ls' q'.
Proof.
  intros I Hs. destruct Hs as [pc pc' b b' pcs Hc Ha]. pose proof (li_cpus _ _ I) as Hn.
  destruct pc as [|ticket| | |]; cbn [lock_action] in Ha.
  - pose proof (lock_inv_join b pcs q c I Hn Hc) as J. cbn [bkl_take_ticket] in Ha, J. injection Ha as <- <-.
    destruct J as [Hcq J]. exists (q ++ [c]). split; [by constructor|exact J].
  - assert (Hin : c ∈ q) by (apply (li_queue _ _ I); eexists; split; [exact Hc|done]).
    destruct (bkl_is_served ticket b) eqn:Es; injection Ha as <- <-.
    + exists q. split; [by constructor|]. apply Z.eqb_eq in Es. pose proof (queue_short _ _ I) as Hq.
      pose proof Hin as [i Hi]%list_elem_of_lookup. pose proof (lookup_lt_Some _ _ _ Hi) as Hlt.
      pose proof (li_serving _ _ I) as Hsv. cbn [ls_lock ls_pc] in *.
      assert (i = 0%nat) as ->.
      { destruct (li_pc _ _ I i c Hi) as [E|[? _]]; [|done]. cbn [ls_lock ls_pc] in E. rewrite Hc in E.
        injection E as ->. unfold u32, CPU_MAX in *. 
        destruct (decide (i = 0%nat)); [done|]. exfalso.
        assert (bkl_now_serving b = (bkl_now_serving b + Z.of_nat i) mod 2 ^ 32) as E by done.
        destruct (Z_lt_ge_dec (bkl_now_serving b + Z.of_nat i) (2 ^ 32)).
        - rewrite Z.mod_small in E by lia. lia.
        - rewrite <- (Z.mod_unique (bkl_now_serving b + Z.of_nat i) (2 ^ 32) 1 (bkl_now_serving b + Z.of_nat i - 2 ^ 32)) in E; lia. }
      assert (Hq' : ∃ q', q = c :: q') by (destruct q; [done|]; injection Hi as ->; eauto).
      assert (Hnoh : ∀ d, pcs !! d ≠ Some Holding).
      { intros d Hd. destruct Hq' as [q' ->]. destruct (critical_head _ _ _ _ I Hd eq_refl) as [q2 E2].
        injection E2 as -> _. congruence. }
      eapply lock_inv_move; [exact I|exact Hc|done|done|done|exact Hq'|done|done|done| |].
      * intros _. by apply (li_free _ _ I).
      * intros d Hd. by apply Hnoh in Hd.
    + exists q. split; [by constructor|]. by rewrite list_insert_id.
  - injection Ha as <- <-. destruct (critical_head _ _ _ _ I Hc eq_refl) as [q' ->]. exists (c :: q').
    split; [constructor; left|]. eapply lock_inv_move; [exact I|exact Hc|done|done|done|eauto|done|done| |done|].
    + intros _. cbn. exact (small_cpu _ _ _ _ I Hc).
    + intros d Hd. symmetry. exact (holder_unique _ _ _ _ _ I Hc eq_refl Hd).
  - injection Ha as <- <-. destruct (critical_head _ _ _ _ I Hc eq_refl) as [q' ->]. exists (c :: q').
    split; [constructor; left|]. eapply lock_inv_move; [exact I|exact Hc|done|done|done|eauto|done|done|done|done|].
    intros d Hd. symmetry. exact (holder_unique _ _ _ _ _ I Hc eq_refl Hd).
  - injection Ha as <- <-. destruct (critical_head _ _ _ _ I Hc eq_refl) as [q' ->]. exists q'.
    split; [constructor|]. apply lock_inv_leave; [exact I|exact Hc|]. intros d Hd.
    pose proof (holder_unique _ _ _ _ _ I Hc eq_refl Hd) as ->. cbn [ls_pc] in *. congruence.
Qed.

Definition any_lock_step (ls ls' : lock_state) : Prop := ∃ c, lock_step c ls ls'.

Lemma lock_run_sim ls ls' q :
  rtc any_lock_step ls ls' → lock_inv ls q → ∃ q', lock_inv ls' q'.
Proof.
  intros R. revert q. induction R as [ls|ls1 ls2 ls3 [c Hs] _ IH]; intros q I; [by exists q|].
  destruct (lock_step_sim c _ _ _ I Hs) as (q1 & _ & I1). by apply (IH q1).
Qed.

(** *** The order of service

    What a run shows of the lock: tickets taken, CPUs that get past the spin loop, CPUs
    that leave. *)
Inductive lock_event := Took (c : nat) | Entered (c : nat) | Left (c : nat).
Definition event_of (c : nat) (pc pc' : lock_pc) : list lock_event :=
  match pc, pc' with
  | Out, Spinning _ => [Took c]
  | Spinning _, Acquired => [Entered c]
  | Leaving, Out => [Left c]
  | _, _ => []
  end.
Inductive lock_trace (ls : lock_state) : list lock_event → lock_state → Prop :=
  | lock_trace_nil : lock_trace ls [] ls
  | lock_trace_step evs b pcs c pc pc' b' :
      lock_trace ls evs (LockState b pcs) → pcs !! c = Some pc → lock_action c pc b = (pc', b') →
      lock_trace ls (evs ++ event_of c pc pc') (LockState b' (<[c := pc']> pcs)).

Definition took (evs : list lock_event) : list nat := omap (λ e, match e with Took c => Some c | _ => None end) evs.
Definition entered (evs : list lock_event) : list nat := omap (λ e, match e with Entered c => Some c | _ => None end) evs.
Definition gone (evs : list lock_event) : list nat := omap (λ e, match e with Left c => Some c | _ => None end) evs.

(** Who of the queue is past the spin loop. *)
Definition inside (pcs : list lock_pc) (q : list nat) : list nat :=
  match q with
  | c :: _ => match pcs !! c with Some pc => if critical pc then [c] else [] | None => [] end
  | [] => []
  end.

(** The simulation with the events: the queue grows by who takes a ticket and loses who leaves. *)
Lemma lock_action_sim c pc pc' b b' pcs q :
  lock_inv (LockState b pcs) q → pcs !! c = Some pc → lock_action c pc b = (pc', b') →
  ∃ q', lock_inv (LockState b' (<[c := pc']> pcs)) q' ∧
    q ++ took (event_of c pc pc') = gone (event_of c pc pc') ++ q' ∧
    inside pcs q ++ entered (event_of c pc pc') = gone (event_of c pc pc') ++ inside (<[c := pc']> pcs) q'.
Proof.
  intros I Hc Ha. pose proof (lock_step_at c pc pc' b b' pcs Hc Ha) as Hs.
  destruct (lock_step_sim c _ _ q I Hs) as (q' & F & I'). exists q'. split; [exact I'|].
  assert (Hlt : (c < length pcs)%nat) by by eapply lookup_lt_Some.
  assert (Hin : c ∈ q ↔ pc ≠ Out).
  { rewrite (li_queue _ _ I). split; [intros (pc0 & E & Hp); cbn in E; congruence|intros Hp; by exists pc]. }
  assert (Hin' : c ∈ q' ↔ pc' ≠ Out).
  { rewrite (li_queue _ _ I'). cbn [ls_pc]. rewrite list_lookup_insert_eq by done. split; [intros (pc0 & [= ->] & Hp); done|intros Hp; by exists pc']. }
  pose proof (li_nodup _ _ I) as Nq.
  assert (Other : ∀ d q2, d ≠ c → inside (<[c := pc']> pcs) (d :: q2) = inside pcs (d :: q2)).
  { intros d q2 Hd. cbn [inside]. by rewrite list_lookup_insert_ne. }
  assert (Same : ∀ q2, inside (<[c := pc']> pcs) (c :: q2) = if critical pc' then [c] else []).
  { intros q2. cbn [inside]. by rewrite list_lookup_insert_eq. }
  assert (Was : ∀ q2, inside pcs (c :: q2) = if critical pc then [c] else []).
  { intros q2. cbn [inside]. by rewrite Hc. }
  assert (Fc : (pc = Out ∧ q' = q ++ [c]) ∨ (q = c :: q' ∧ pc' = Out) ∨ (pc ≠ Out ∧ pc' ≠ Out ∧ q' = q)).
  { destruct F as [q Hq|q|q Hq]; [left|right; left|right; right].
    - split; [|done]. destruct (decide (pc = Out)); [done|]. by apply Hin in n.
    - split; [done|]. destruct (decide (pc' = Out)) as [|n]; [done|]. apply list.NoDup_cons in Nq as [Nq _]. by apply Hin' in n.
    - split_and!; [by apply Hin|by apply Hin'|done]. }
  assert (Head : critical pc = true → ∃ q2, q = c :: q2) by (intros Hcr; exact (critical_head _ _ _ _ I Hc Hcr)).
  destruct pc as [|ticket| | |]; cbn [lock_action bkl_take_ticket] in Ha.
  - injection Ha as <- <-. destruct Fc as [[_ ->]|[[_ ?]|[? _]]]; [|done..]. split; [done|].
    cbn [event_of entered gone omap list_omap app]. rewrite app_nil_r. destruct q as [|d q]; cbn [app]; [by rewrite Same|].
    rewrite Other; [done|]. intros ->. by apply (proj1 Hin); [left|].
  - destruct (bkl_is_served ticket b); injection Ha as <- <-; (destruct Fc as [[? _]|[[_ ?]|(_ & _ & ->)]]; [done..|]).
    + destruct (critical_head _ _ c Acquired I') as [q2 ->]; [by apply list_lookup_insert_eq|done|]. by rewrite Same, Was, app_nil_r.
    + rewrite list_insert_id by done. cbn. by rewrite !app_nil_r.
  - injection Ha as <- <-. destruct (Head eq_refl) as [q2 ->]. destruct Fc as [[? _]|[[_ ?]|(_ & _ & ->)]]; [done..|].
    rewrite Same, Was. cbn. by rewrite !app_nil_r.
  - injection Ha as <- <-. destruct (Head eq_refl) as [q2 ->]. destruct Fc as [[? _]|[[_ ?]|(_ & _ & ->)]]; [done..|].
    rewrite Same, Was. cbn. by rewrite !app_nil_r.
  - injection Ha as <- <-. destruct Fc as [[? _]|[[-> _]|(_ & ? & _)]]; [done| |done]. rewrite Was. cbn [event_of took gone omap list_omap app].
    rewrite !app_nil_r. split; [done|]. cbn [critical entered omap list_omap]. f_equal. destruct q' as [|d q2]; [done|].
    assert (Hd : d ≠ c) by (intros ->; apply list.NoDup_cons in Nq as [Nq _]; apply Nq; left).
    rewrite Other by done. cbn [inside]. destruct (pcs !! d) as [pcd|] eqn:Ed; [|done]. destruct (critical pcd) eqn:Ecr; [|done].
    destruct (critical_head _ _ _ _ I Ed Ecr) as [q3 [= -> _]]. done.
Qed.

Lemma lock_trace_sim n evs ls : (n <= CPU_MAX)%nat → lock_trace (lock_start n) evs ls →
  ∃ q, lock_inv ls q ∧ took evs = gone evs ++ q ∧ entered evs = gone evs ++ inside (ls_pc ls) q.
Proof.
  intros Hn R. induction R as [|evs b pcs c pc pc' b' _ (q & I & Et & Ee) Hc Ha]; [exists []; split; [by apply lock_inv_start|done]|].
  destruct (lock_action_sim c pc pc' b b' pcs q I Hc Ha) as (q' & I' & Et' & Ee'). exists q'. split; [exact I'|].
  unfold took, entered, gone in *. rewrite !omap_app. fold took entered gone in *. split.
  - rewrite Et, <- !app_assoc. by f_equal.
  - rewrite Ee, <- !app_assoc. by f_equal.
Qed.

(** ** Properties: the lock *)

(** C16 (refinement) [lock_action, bkl_take_ticket, bkl_is_served, bkl_serve_next, bkl_lock, bkl_unlock]
    First come, first served.  However the CPUs interleave, in every run: those who got
    past the spin loop are the first of those who took a ticket, in the order of the
    tickets, and those who left again are the first of those who got in, all but
    at most one; and the CPU whose turn it is gets further with its next action, also
    when it is spinning.  So nobody is passed over and the lock is not lost, the wrap-around of the
    counters included. *)
Theorem bkl_is_fifo n evs ls :
  (n <= CPU_MAX)%nat → lock_trace (lock_start n) evs ls →
  ∃ q, took evs = gone evs ++ q ∧ entered evs = gone evs ++ inside (ls_pc ls) q ∧
    (∀ c, c ∈ q ↔ ∃ pc, ls_pc ls !! c = Some pc ∧ pc ≠ Out) ∧
    (∀ c pc, ls_pc ls !! c = Some pc → critical pc = true → ∃ q', q = c :: q') ∧
    ∀ c q', q = c :: q' → ∃ pc, ls_pc ls !! c = Some pc ∧ (lock_action c pc (ls_lock ls)).1 ≠ pc.
Proof.
  intros Hn R. destruct (lock_trace_sim n evs ls Hn R) as (q & I & Et & Ee).
  exists q. split_and!; [exact Et|exact Ee|exact (li_queue _ _ I)|intros c pc; by apply critical_head|].
  intros c q' ->. destruct (li_pc _ _ I 0%nat c eq_refl) as [E|[_ (pc & E & Hcr)]].
  - eexists. split; [exact E|]. cbn [lock_action]. unfold bkl_is_served.
    rewrite Z.add_0_r, u32_small by exact (li_serving _ _ I). by rewrite Z.eqb_refl.
  - exists pc. split; [exact E|]. by destruct pc.
Qed.

(** C15 (safety) [bkl_held, lock_action, bkl_set_owner]
    Mutual exclusion: two CPUs are never both past the spin loop; and [bkl_held()] on a
    CPU is true exactly while that CPU holds the lock, so that the callers who take the
    lock only when [bkl_held()] is false never take it twice. *)
Theorem bkl_mutual_exclusion n ls c d pc pd :
  (n <= CPU_MAX)%nat → rtc any_lock_step (lock_start n) ls →
  ls_pc ls !! c = Some pc → ls_pc ls !! d = Some pd →
  (critical pc = true → critical pd = true → c = d) ∧ (bkl_held c (ls_lock ls) = true ↔ pc = Holding).
Proof.
  intros Hn R Hc Hd. destruct (lock_run_sim _ _ _ R (lock_inv_start n Hn)) as (q & I). split.
  - intros H1 H2. destruct (critical_head _ _ _ _ I Hc H1) as [q1 E1], (critical_head _ _ _ _ I Hd H2) as [q2 E2].
    congruence.
  - unfold bkl_held. rewrite (small_cpu _ _ _ _ I Hc), Z.eqb_eq. split.
    + intros E. destruct (critical pc) eqn:Hcr.
      * destruct pc; try done.
        all: assert (Hno : ∀ e, ls_pc ls !! e ≠ Some Holding)
          by (intros e He; pose proof (holder_unique _ _ _ _ _ I Hc Hcr He) as ->; congruence).
        all: rewrite (li_free _ _ I Hno) in E; lia.
      * exfalso. destruct (holder_or_free _ _ I) as [(e & He & Eo)|[_ Eo]]; [|lia].
        rewrite Eo in E. assert (e = c) as -> by lia. rewrite Hc in He. by simplify_eq.
    + intros ->. exact (li_owner _ _ I c Hc).
Qed.

(** Two CPUs: the first holds the lock, the second spins. *)
Definition demo_lock : lock_state := LockState (Bkl 2 0 0) [Holding; Spinning 1].
Lemma demo_lock_step c ls ls' : 
  (∃ pc, ls_pc ls !! c = Some pc ∧ ls' = LockState (lock_action c pc (ls_lock ls)).2 (<[c := (lock_action c pc (ls_lock ls)).1]> (ls_pc ls))) →
  any_lock_step ls ls'.
Proof.
  destruct ls as [b pcs]. intros (pc & Hc & ->). exists c. econstructor; [exact Hc|]. cbn [ls_lock].
  by destruct (lock_action c pc b).
Qed.
Lemma demo_lock_run : rtc any_lock_step (lock_start 2) demo_lock.
Proof.
  apply (rtc_l _ _ (LockState (Bkl 1 0 (-1)) [Spinning 0; Out])); [by apply (demo_lock_step 0); eexists|].
  apply (rtc_l _ _ (LockState (Bkl 2 0 (-1)) [Spinning 0; Spinning 1])); [by apply (demo_lock_step 1); eexists|].
  apply (rtc_l _ _ (LockState (Bkl 2 0 (-1)) [Acquired; Spinning 1])); [by apply (demo_lock_step 0); eexists|].
  apply (rtc_l _ _ demo_lock); [by apply (demo_lock_step 0); eexists|apply rtc_refl].
Qed.

(** The same run with what it shows: the first CPU is past the spin loop. *)
Lemma demo_lock_trace : lock_trace (lock_start 2) [Took 0; Took 1; Entered 0] demo_lock.
Proof.
  assert (E : ∀ ls evs c b pcs pc, lock_trace ls evs (LockState b pcs) → pcs !! c = Some pc →
    lock_trace ls (evs ++ event_of c pc (lock_action c pc b).1) (LockState (lock_action c pc b).2 (<[c := (lock_action c pc b).1]> pcs))).
  { intros ls evs c b pcs pc R Hc. econstructor; [exact R|exact Hc|]. by destruct (lock_action c pc b). }
  pose proof (lock_trace_nil (lock_start 2)) as R.
  apply (E _ _ 0%nat _ _ Out) in R; [|done]. apply (E _ _ 1%nat _ _ Out) in R; [|done].
  apply (E _ _ 0%nat _ _ (Spinning 0)) in R; [|done]. apply (E _ _ 0%nat _ _ Acquired) in R; [|done]. exact R.
Qed.

Lemma bkl_is_fifo_witness :
  ∃ q, [0; 1]%nat = [] ++ q ∧ [0]%nat = [] ++ inside (ls_pc demo_lock) q ∧
    (∀ c, c ∈ q ↔ ∃ pc, ls_pc demo_lock !! c = Some pc ∧ pc ≠ Out) ∧
    (∀ c pc, ls_pc demo_lock !! c = Some pc → critical pc = true → ∃ q', q = c :: q') ∧
    ∀ c q', q = c :: q' → ∃ pc, ls_pc demo_lock !! c = Some pc ∧ (lock_action c pc (ls_lock demo_lock)).1 ≠ pc.
Proof. apply (bkl_is_fifo 2 [Took 0; Took 1; Entered 0] demo_lock); [unfold CPU_MAX; lia|exact demo_lock_trace]. Defined.

Lemma bkl_mutual_exclusion_witness :
  (critical Holding = true → critical (Spinning 1) = true → 0%nat = 1%nat) ∧
  (bkl_held 0 (ls_lock demo_lock) = true ↔ Holding = Holding).
Proof.
  apply (bkl_mutual_exclusion 2 demo_lock 0 1 Holding (Spinning 1)); [unfold CPU_MAX; lia|exact demo_lock_run|done|done].
Defined.

(** ** Bringing up the CPUs *)
Section Smp.
Context {H : Type} `{KM : KernelMem H} {KL : KernelMemLaws H} `{TS : TaskServices H} {TL : TaskServicesLaws H}.

(** [kernel/system/smp.c: smp_cpu_count] *)
Definition smp_cpu_count : M (sched H) Z := gets (λ s, Z.of_nat (length (cpus s))).
(** The two counters stored through the pointers. [kernel/system/smp.c: smp_cpu_ticks] *)
Definition smp_cpu_ticks (index : nat) : M (sched H) (Z * Z) :=
  cpu ← this_cpu index; mret (c_ticks cpu, c_busy_ticks cpu).

(** The loop over the CPUs the boot loader found, given by their LAPIC ids; the list
    [cpus] is the used part of the array. [kernel/system/smp.c: smp_init 100-130] *)
Fixpoint smp_init_loop (infos : list Z) (bsp : Z) : M (sched H) unit :=
  match infos with
  | [] => mret tt
  | id :: infos' =>
      if id =? bsp then smp_init_loop infos' bsp
      else
        n ← gets (λ s, length (cpus s));
        if (n =? CPU_MAX)%nat then mret tt
        else
          idle ← task_create_idle;
          if idle =? 0 then mret tt
          else
            t ← task idle;
            modify (λ s, set_cpus (cpus s ++ [MkCpu (t_stack_base t + t_stack_pages t * PAGE_SIZE) idle idle id 0 0]) s);;
            smp_init_loop infos' bsp
  end.
(** [None] is a missing response; the wait for [cpus_online] at the end reads no other
    state. [kernel/system/smp.c: smp_init] *)
Definition smp_init (own_lapic bsp_lapic : Z) (resp : option (list Z)) : M (sched H) unit :=
  cpu_upd 0 (set_lapic_id own_lapic);;
  match resp with None => mret tt | Some infos => smp_init_loop infos bsp_lapic end.

(** ** Lemmas *)
Lemma task_create_idle_wp l r runs blocks (s : sched H) (Q : Z → sched H → Prop) :
  sched_inv l r 0 s → mem_inv runs blocks s →
  (∀ s', task_inv runs blocks s' → cpus s' = cpus s → Q 0 s') →
  (∀ p t s', p ≠ 0 → k_tasks s !! p = None → k_tasks s' !! p = Some t → t_state t = TASK_RUNNING →
     sched_inv (p :: l) r 0 s' → mem_inv runs blocks s' → cpus s' = cpus s → Q p s') →
  wp task_create_idle Q s.
Proof.
  intros I IM HQ0 HQ. unfold task_create_idle. wp_steps.
  eapply task_alloc_wp; [exact IM|wp_steps; apply HQ0; [split; eauto|done]|]. intros p h Hp Hnew s1 IM1.
  destruct (Z.eqb_spec p 0); [done|].
  assert (I1 : sched_inv (p :: l) r 0 s1).
  { eapply sched_inv_ext; [by apply (sched_inv_new l r 0 p (set_list_next (task_list s) zero_task) s)|done..]. }
  assert (Ht1 : k_tasks s1 !! p = Some (set_list_next (task_list s) zero_task)) by apply lookup_insert_eq.
  cbv zeta. wp_steps. eapply alloc_runs_wp; [exact IM1|exact Ht1|done|done| |].
  { wp_steps. cbn [Z.eqb]. wp_steps. eapply (delete_fresh l r runs blocks p _ s1 s); [done..|].
    intros s' I' IM' _ (_ & _ & Ec & _) _. wp_steps. apply HQ0; [split; eauto|done]. }
  intros stack h2 Hs IM2. destruct (Z.eqb_spec stack 0); [done|]. wp_steps. unfold task_fpu_init. upd_steps.
  match goal with |- context [set_tasks (<[p := ?t']> (k_tasks s1)) ?s'] => set (tn := t') end.
  match goal with |- Q p ?s' => set (s2 := s') end.
  assert (Ht2 : k_tasks s2 !! p = Some tn) by apply lookup_insert_eq.
  apply (HQ p tn); [done|done|exact Ht2|done| | |done].
  - eapply sched_inv_ext; [eapply (sched_inv_off (p :: l) r 0 p _ tn s1)|done..]; [exact I1| | |exact Ht1|done].
    + intros i ci Hi. exact (fresh_off_cpu _ _ _ _ _ _ I Hnew Hi).
    + exact (fresh_ring _ _ _ _ I Hnew).
  - apply IM2; [|done]. unfold runs_of, stack_runs. simpl. by destruct (Z.eqb_spec stack 0).
Qed.

(** A CPU that starts on a new task of its own. *)
Lemma sched_inv_add_cpu l r p t cpu (s : sched H) :
  sched_inv l r 0 s → k_tasks s !! p = Some t → t_state t = TASK_RUNNING → off_cpu p s → p ∉ r →
  c_current cpu = p → c_idle cpu = p → sched_inv l r 0 (set_cpus (cpus s ++ [cpu]) s).
Proof.
  intros [I1 I2 I3 I4 I5 I6 I7 I8 I9 I10 I11] Hp Hst Hoff Hr E1 E2.
  assert (L : ∀ i ci, (cpus s ++ [cpu]) !! i = Some ci → cpus s !! i = Some ci ∨ (i = length (cpus s) ∧ ci = cpu)).
  { intros i ci [Hi|[Hlen Hi]]%lookup_app_Some; [by left|right].
    apply list_lookup_singleton_Some in Hi as [? <-]. split; [lia|done]. }
  constructor; cbn [k_tasks task_list task_run_queue cpus set_cpus]; try done.
  - intros i ci [Hi|[-> ->]]%L; [by eapply I6|]. rewrite E1, E2. split_and!; [by eexists..|done|by left].
  - intros i j ci cj [Hi|[-> ->]]%L [Hj|[-> ->]]%L E; [by eapply I7| | |done].
    + destruct (Hoff i ci Hi). congruence.
    + destruct (Hoff j cj Hj). congruence.
  - intros i j ci cj [Hi|[-> ->]]%L [Hj|[-> ->]]%L E; [by eapply I8| | |done].
    + destruct (Hoff i ci Hi). congruence.
    + destruct (Hoff j cj Hj). congruence.
  - intros i ci [Hi|[-> ->]]%L; [by eapply I9|]. rewrite E1. destruct (Z.eqb_spec p 0); [congruence|]. by exists t.
  - intros q u Hq Hqr. destruct (I10 q u Hq Hqr) as [(? & i & ci & Hi & ?)|?]; [left|by right].
    split; [done|]. exists i, ci. split; [|done]. by apply lookup_app_l_Some.
  - intros i ci u [Hi|[-> ->]]%L Hne Hu; [by eapply I11|]. congruence.
Qed.

Lemma smp_init_loop_wp infos bsp runs blocks (s : sched H) :
  task_inv runs blocks s → (length (cpus s) <= CPU_MAX)%nat →
  wp (smp_init_loop infos bsp) (λ _ s', task_inv runs blocks s' ∧
    ∃ new, cpus s' = cpus s ++ new ∧ (length (cpus s ++ new) <= CPU_MAX)%nat ∧
      Forall (λ cpu, c_lapic_id cpu ∈ infos ∧ c_lapic_id cpu ≠ bsp) new) s.
Proof.
  revert s. induction infos as [|id infos IH]; intros s I Hlen; cbn [smp_init_loop].
  { wp_steps. split; [done|]. exists []. by rewrite app_nil_r. }
  assert (Stop : ∀ s', task_inv runs blocks s' → cpus s' = cpus s → task_inv runs blocks s' ∧
    ∃ new, cpus s' = cpus s ++ new ∧ (length (cpus s ++ new) <= CPU_MAX)%nat ∧
      Forall (λ cpu, c_lapic_id cpu ∈ id :: infos ∧ c_lapic_id cpu ≠ bsp) new).
  { intros s' I' E. split; [done|]. exists []. by rewrite app_nil_r, E. }
  destruct (Z.eqb_spec id bsp) as [->|Hid].
  { eapply wp_mono; [by apply IH|]. intros [] s' (I' & new & ? & ? & F). split; [done|]. exists new. split_and!; [done..|].
    eapply list.Forall_impl; [exact F|]. intros cpu [? ?]. split; [by right|done]. }
  wp_steps. destruct (Nat.eqb_spec (length (cpus s)) CPU_MAX) as [E|E]; [wp_steps; by apply Stop|].
  wp_steps. pose proof I as [(l & r & Is) IM]. eapply task_create_idle_wp; [exact Is|exact IM| |].
  { intros s' I' Ec. cbn [Z.eqb]. wp_steps. by apply Stop. }
  intros p t s1 Hp Hnew Ht Hst I1 IM1 Ec. destruct (Z.eqb_spec p 0); [done|]. wp_steps.
  apply (wp_task p t); [done|]. wp_steps.
  set (cpu := MkCpu _ p p id 0 0). set (s2 := set_cpus _ s1).
  assert (I2 : task_inv runs blocks s2).
  { split; [|exact IM1]. exists (p :: l), r. apply (sched_inv_add_cpu _ _ p t); try done.
    - intros i ci Hi. rewrite Ec in Hi. exact (fresh_off_cpu _ _ _ _ _ _ Is Hnew Hi).
    - exact (fresh_ring _ _ _ _ Is Hnew). }
  eapply wp_mono; [apply (IH s2 I2)|].
  - cbn [cpus set_cpus s2]. rewrite Ec, length_app. simpl. lia.
  - intros [] s' (I' & new & En & Hl & F). split; [done|]. exists (cpu :: new).
    cbn [cpus set_cpus s2] in En, Hl. rewrite Ec, <- app_assoc in En, Hl. split_and!; [exact En|exact Hl|].
    constructor; [split; [left|done]|]. eapply list.Forall_impl; [exact F|]. intros ci [? ?]. split; [by right|done].
Qed.

(** Bringing up the other CPUs keeps the invariants of the scheduler, whatever the boot
    loader reports: every CPU added has an idle task of its own on a stack of its own,
    the boot CPU is not added twice, and there are never more than [CPU_MAX]. *)
Lemma smp_init_keeps own bsp resp runs blocks (s : sched H) :
  task_inv runs blocks s → (0 < length (cpus s) <= CPU_MAX)%nat →
  ∃ s' cpu0 rest new, smp_init own bsp resp s = Some (tt, s') ∧ task_inv runs blocks s' ∧
    cpus s = cpu0 :: rest ∧ cpus s' = set_lapic_id own cpu0 :: rest ++ new ∧ (length (cpus s') <= CPU_MAX)%nat ∧
    Forall (λ cpu, c_lapic_id cpu ∈ default [] resp ∧ c_lapic_id cpu ≠ bsp) new.
Proof.
  intros [(l & r & I) IM] Hlen. destruct (cpus s) as [|cpu0 rest] eqn:Ec; [simpl in Hlen; lia|].
  assert (W : wp (smp_init own bsp resp) (λ _ s', task_inv runs blocks s' ∧
    ∃ new, cpus s' = set_lapic_id own cpu0 :: rest ++ new ∧ (length (cpus s') <= CPU_MAX)%nat ∧
      Forall (λ cpu, c_lapic_id cpu ∈ default [] resp ∧ c_lapic_id cpu ≠ bsp) new) s).
  { unfold smp_init. wp_steps. eapply wp_cpu_upd; [by rewrite Ec|].
    assert (I1 : task_inv runs blocks (set_cpus (<[0%nat := set_lapic_id own cpu0]> (cpus s)) s)).
    { split; [|exact IM]. exists l, r. eapply sched_inv_cpu; [exact I|by rewrite Ec|done|done]. }
    rewrite Ec in *. cbn [list_insert] in *. destruct resp as [infos|].
    - eapply wp_mono; [apply (smp_init_loop_wp infos bsp runs blocks _ I1); simpl in *; lia|].
      intros [] s' (I' & new & En & Hl & F). split; [done|]. exists new. cbn [cpus set_cpus] in En, Hl.
      rewrite En. split_and!; [done|exact Hl|exact F].
    - wp_steps. split; [done|]. exists []. rewrite app_nil_r. split_and!; [done|simpl in *; lia|constructor]. }
  apply wp_run in W as ([] & s' & ? & ? & new & ? & ? & ?). exists s', cpu0, rest, new. done.
Qed.
End Smp.

Lemma smp_init_keeps_witness :
  ∃ s' cpu0 rest new, smp_init 7 7 (Some [7; 8; 9]) demo_sched = Some (tt, s') ∧ task_inv [] [] s' ∧
    cpus demo_sched = cpu0 :: rest ∧ cpus s' = set_lapic_id 7 cpu0 :: rest ++ new ∧ (length (cpus s') <= CPU_MAX)%nat ∧
    Forall (λ cpu, c_lapic_id cpu ∈ [7; 8; 9] ∧ c_lapic_id cpu ≠ 7) new.
Proof.
  refine (smp_init_keeps 7 7 (Some [7; 8; 9]) [] [] demo_sched demo_sched_inv _).
  assert (E : length (cpus demo_sched) = 1%nat) by (vm_compute; reflexivity). rewrite E. unfold CPU_MAX. lia.
Defined.
