(* ===== verification/Kcall.v ===== *)
(** * kernel/system/kcall.c: entering and leaving the kernel

    Every kernel call and every interrupt takes the big kernel lock unless its CPU has
    it, and marks the task as being in the kernel, so that timer ticks only note that
    the task should give way; leaving the kernel then yields.  The table of kernel calls
    maps a number to the function it runs. *)
From S2P Require Import Prelude RawMem Pmm Heap VfsTypes Task TaskRing Sched SchedOps Smp.
Local Open Scope kernel_scope.

(** ** The table *)

(** The functions behind kernel calls; [KcallBad] is [kcall_bad].
    [kernel/system/kcall.c 38-71] *)
Inductive kcall_fn :=
  | TaskExit | FsOpen | FsClose | FsRead | FsWrite | FsIoctl | FsMkdir | FsLseek | FsReaddir | FsStat | FsFstat
  | FsUnlink | MemAlloc | MemFree | Chdir | Getcwd | TaskSleepMs | Spawn | Kill | TaskStatus | Getpid | SockSocket
  | SockBind | SockListen | SockAccept | SockConnect | FsPoll | TaskUptimeMs | TaskYield | FsRename | FsDup2
  | FsMount | FsUnmount | KcallBad.
#[export] Instance kcall_fn_eq_dec : EqDecision kcall_fn.
Proof. solve_decision. Defined.

(** [kernel/system/kcall.c 1-1] *)
Definition KCALL_MAX : nat := 64.
(** The [KCALLS] list with the numbers of kcall.h. [kernel/system/kcall.h 3-41] *)
Definition kcalls : list (nat * kcall_fn) :=
  [(1, TaskExit); (2, FsOpen); (3, FsClose); (4, FsRead); (5, FsWrite); (6, FsIoctl); (7, FsMkdir);
   (9, FsLseek); (8, FsReaddir); (10, FsStat); (11, FsFstat); (12, FsUnlink); (13, MemAlloc); (14, MemFree);
   (15, Chdir); (16, Getcwd); (17, TaskSleepMs); (18, Spawn); (19, Kill); (20, TaskStatus); (21, Getpid);
   (22, SockSocket); (23, SockBind); (24, SockListen); (25, SockAccept); (26, SockConnect); (27, FsPoll);
   (28, TaskUptimeMs); (29, TaskYield); (30, FsRename); (31, FsDup2); (32, FsMount); (33, FsUnmount)]%nat.
(** The initialiser of the table: later entries override the default.
    [kernel/system/kcall.c: kcall_table 93-98] *)
Definition kcall_table : list kcall_fn :=
  foldl (λ t e, <[e.1 := e.2]> t) (replicate KCALL_MAX KcallBad) kcalls.

(** ** Entry and exit *)
Section Kcall.
Context {H : Type} `{KM : KernelMem H} {KL : KernelMemLaws H} `{TS : TaskServices H} {TL : TaskServicesLaws H}.

(** The scheduler's state and the lock. *)
Record kernel := Kernel { kr_sched : sched H; kr_lock : bkl }.
Definition on_sched {A} (m : M (sched H) A) : M kernel A :=
  zoom kr_sched (λ x k, Kernel x (kr_lock k)) m.
Definition on_lock {A} (m : M bkl A) : M kernel A :=
  zoom kr_lock (λ x k, Kernel (kr_sched k) x) m.

(** [kernel/system/smp.c: cpu_init_bsp] *)
Definition cpu_init_bsp : M kernel unit :=
  on_sched (modify (set_cpus [MkCpu 0 0 0 0 0 0]));; on_lock (bkl_lock 0).

(** [kernel/system/kcall.c: kcall_enter] *)
Definition kcall_enter (c : nat) : M kernel bool :=
  took_lock ← gets (λ k, negb (bkl_held c (kr_lock k)));
  if (took_lock : bool) then
    on_lock (bkl_lock c);;
    t ← on_sched (task_current c);
    (if t =? 0 then mret tt else on_sched (task_upd t (set_in_kcall true)));;
    mret took_lock
  else mret took_lock.

(** What is left after the [task_yield]: run at once when the CPU has come back to the
    same task, else when that task is resumed. [kernel/system/kcall.c: kcall_leave 32-34] *)
Definition kcall_leave_end (c : nat) : M kernel unit :=
  p ← on_sched (task_current c);
  on_sched (task_check_kill c);;
  p' ← on_sched (task_current c);
  if p =? p' then on_lock bkl_unlock else mret tt.
(** [kernel/system/kcall.c: kcall_leave] *)
Definition kcall_leave (c : nat) (took_lock : bool) : M kernel unit :=
  if took_lock then
    t ← on_sched (task_current c);
    (if t =? 0 then mret tt
     else
       on_sched (task_upd t (set_in_kcall false));;
       tp ← on_sched (task t);
       if t_resched_pending tp then on_sched (task_yield c) else mret tt);;
    t' ← on_sched (task_current c);
    if t =? t' then kcall_leave_end c else mret tt
  else mret tt.

(** [KCALL_WRAPPER]; [None]: the function has left the CPU to another task, and the
    rest runs when the caller is resumed. [kernel/system/kcall.c 73-80] *)
Definition kcall_wrapper (c : nat) (fn : M kernel Z) : M kernel (option Z) :=
  took_lock ← kcall_enter c;
  p ← on_sched (task_current c);
  ret ← fn;
  p' ← on_sched (task_current c);
  if p =? p' then kcall_leave c took_lock;; mret (Some ret) else mret None.

(** The value returned. [kernel/system/kcall.c: kcall_bad] *)
Definition kcall_bad : M kernel Z := mret (2 ^ 64 - 1).

(** The end of an interrupt; [handler] is the IRQ's function, if one is set.
    [kernel/base/idt.c: idt_irq_handler] *)
Definition idt_irq_handler (c : nat) (handler : option (M kernel unit)) : M kernel unit :=
  took_lock ← gets (λ k, negb (bkl_held c (kr_lock k)));
  (if (took_lock : bool) then on_lock (bkl_lock c) else mret tt);;
  p ← on_sched (task_current c);
  default (mret tt) handler;;
  p' ← on_sched (task_current c);
  if (took_lock : bool) && (p =? p') then kcall_leave_end c else mret tt.

(** An exception in a program ends it, one in the kernel halts.
    [kernel/base/idt.c: idt_exception_handler] *)
Definition idt_exception_handler (c : nat) : M kernel unit :=
  held ← gets (λ k, bkl_held c (kr_lock k));
  (if (held : bool) then mret tt else on_lock (bkl_lock c));;
  t ← on_sched (task_current c);
  if t =? 0 then fail
  else
    tp ← on_sched (task t);
    if t_owns_image tp then on_sched (task_exit c (-1)) else fail.

(** ** Lemmas *)
Lemma on_sched_wp {A} (m : M (sched H) A) (Q : A → kernel → Prop) k :
  wp m (λ a x, Q a (Kernel x (kr_lock k))) (kr_sched k) → wp (on_sched m) Q k.
Proof. intros HQ. unfold on_sched. by apply wp_zoom. Qed.
Lemma on_lock_wp {A} (m : M bkl A) (Q : A → kernel → Prop) k :
  wp m (λ a x, Q a (Kernel (kr_sched k) x)) (kr_lock k) → wp (on_lock m) Q k.
Proof. intros HQ. unfold on_lock. by apply wp_zoom. Qed.

(** CPU [c] runs [p], which is in a kernel call. *)
Definition in_call (c : nat) (p : Z) (s : sched H) : Prop :=
  (∃ cpu, cpus s !! c = Some cpu ∧ c_current cpu = p) ∧ ∃ t, k_tasks s !! p = Some t ∧ t_in_kcall t = true.

(** The timer tick of a CPU that is in a kernel call. *)
Lemma tick_in_call_wp l r runs blocks c p (s : sched H) :
  sched_inv l r 0 s → mem_inv runs blocks s → in_call c p s →
  wp (task_scheduler_tick c) (λ _ s', op_ok runs blocks s s' ∧ in_call c p s' ∧
    ∃ t, k_tasks s' !! p = Some t ∧ t_resched_pending t = true) s.
Proof.
  intros I IM ((cpu & Hc & Hp) & t & Ht & Hk). unfold task_scheduler_tick. wp_steps. eapply wp_cpu_upd; [exact Hc|].
  assert (Hlt : (c < length (cpus s))%nat) by by eapply lookup_lt_Some.
  assert (W : midway l r runs blocks c s (set_cpus (<[c := set_ticks (u64 (c_ticks cpu + 1)) cpu]> (cpus s)) s))
    by (eapply midway_cpu; [by apply midway_refl|done..]).
  assert (C : in_call c p (set_cpus (<[c := set_ticks (u64 (c_ticks cpu + 1)) cpu]> (cpus s)) s)).
  { split; [|eauto]. eexists. split; [cbn [cpus set_cpus]; by apply list_lookup_insert_eq|done]. }
  set (s1 := set_cpus _ s) in *. clearbody s1. clear t Ht Hk Hlt cpu Hc Hp.
  destruct C as ((cpu & Hc & Hp) & t & Ht & Hk). pose proof (lookup_lt_Some _ _ _ Hc) as Hlt.
  wp_steps. apply (wp_this_cpu c cpu); [done|]. wp_steps.
  eapply (wp_mono _ (λ _ s', midway l r runs blocks c s s' ∧ in_call c p s')).
  { destruct (negb (c_current cpu =? c_idle cpu)); [|wp_steps; split; [done|split; eauto]]. wp_steps.
    eapply wp_cpu_upd; [exact Hc|]. rewrite Hp. eapply wp_task_upd; [exact Ht|]. split.
    - eapply (midway_task _ _ _ _ _ _ _ _ t); [by eapply midway_cpu|done..].
    - split; [eexists; split; [cbn [cpus set_cpus set_tasks]; by apply list_lookup_insert_eq|done]|].
      eexists. split; [apply lookup_insert_eq|done]. }
  clear s1 W cpu Hc Hp t Ht Hk Hlt. intros [] s1 [W C]. apply wp_bind.
  eapply (wp_mono _ (λ _ s', midway l r runs blocks c s s' ∧ in_call c p s')).
  { destruct (cpu_is_bsp c); [|by wp_steps]. wp_steps. destruct W as (I1 & IM1 & G1 & L1 & Hc1).
    assert (I2 : sched_inv l r 0 (set_tick_count (u64 (g_tick_count s1 + 1)) s1)) by by destruct I1.
    eapply wake_sleepers_wp; [exact (si_ring _ _ _ _ I2)|].
    match goal with |- context [wakes ?now] =>
      destruct (wake_ok l r runs blocks (wakes now) (set_tick_count (u64 (g_tick_count s1 + 1)) s1))
        as (I3 & IM3 & G3); [done|done|by apply wakes_sleeping|] end.
    split; [split_and!; [done|done| |done|done]; intros q Hq; apply G3, G1, Hq|].
    destruct C as ((cpu & Hc & Hp) & t & Ht & Hk). split; [eauto|].
    cbn [k_tasks set_tasks set_tick_count]. rewrite lookup_upd_in, Ht. cbn [fmap option_fmap option_map].
    eexists. split; [done|]. destruct decide; [|done]. by destruct (wakes _ t). }
  clear s1 W C. intros [] s1 [W ((cpu & Hc & Hp) & t & Ht & Hk)]. pose proof W as (I1 & IM1 & G1 & L1 & _).
  assert (Hp0 : p ≠ 0) by (intros ->; by rewrite (si_null _ _ _ _ I1) in Ht).
  wp_steps. eapply wp_task_current; [exact Hc|]. rewrite Hp. destruct (Z.eqb_spec p 0); [done|].
  wp_steps. apply (wp_task _ t); [done|]. rewrite Hk. eapply wp_task_upd; [exact Ht|].
  assert (L : k_tasks (set_tasks (<[p := set_resched_pending true t]> (k_tasks s1)) s1) !! p = Some (set_resched_pending true t))
    by apply lookup_insert_eq.
  split; [apply (midway_ok l r runs blocks c); by eapply midway_task|]. split; [split|]; eauto.
Qed.

(** ** Properties *)

(** C17 (invariant) [idt_irq_handler, kcall_enter, task_scheduler_tick, bkl_held]
    A kernel call is never preempted: a timer interrupt on a CPU whose task is in a
    kernel call, holding the lock, neither releases the lock nor changes the task the CPU
    runs; it leaves the note [resched_pending] for [kcall_leave], and the invariants of
    the scheduler hold. *)
Theorem kcall_not_preempted runs blocks c p (k : kernel) :
  task_inv runs blocks (kr_sched k) → in_call c p (kr_sched k) → bkl_held c (kr_lock k) = true →
  ∃ s', idt_irq_handler c (Some (on_sched (task_scheduler_tick c))) k = Some (tt, Kernel s' (kr_lock k)) ∧
    task_inv runs blocks s' ∧ in_call c p s' ∧ ∃ t, k_tasks s' !! p = Some t ∧ t_resched_pending t = true.
Proof.
  intros [(l & r & I) IM] C Hh.
  assert (W : wp (idt_irq_handler c (Some (on_sched (task_scheduler_tick c)))) (λ _ k', kr_lock k' = kr_lock k ∧
    task_inv runs blocks (kr_sched k') ∧ in_call c p (kr_sched k') ∧
    ∃ t, k_tasks (kr_sched k') !! p = Some t ∧ t_resched_pending t = true) k).
  { unfold idt_irq_handler. wp_steps. rewrite Hh. cbn [negb andb default]. wp_steps.
    pose proof C as ((cpu & Hc & Hp) & _). apply on_sched_wp. eapply wp_task_current; [exact Hc|].
    apply wp_bind. apply on_sched_wp. eapply wp_mono; [by eapply (tick_in_call_wp l r runs blocks c p)|].
    intros [] s' ((I' & _ & _) & C' & P'). pose proof C' as ((cpu' & Hc' & Hp') & _).
    wp_steps. apply on_sched_wp. eapply wp_task_current; [exact Hc'|]. wp_steps. done. }
  apply wp_run in W as ([] & [s' lk] & Hr & El & ? & ? & ?). cbn [kr_lock kr_sched] in *. subst lk.
  exists s'. done.
Qed.
End Kcall.
#[global] Arguments kernel H : clear implicits.

(** The demo machine with its CPU in a kernel call. *)
Definition demo_in_call : kernel heap :=
  Kernel (run_state (task_upd (c_current demo_cpu) (set_in_kcall true)) demo_sched3) (Bkl 1 0 0).
Lemma mark_in_call (s : sched heap) cpu :
  task_inv [] [] s → cpus s !! 0%nat = Some cpu →
  let s' := run_state (task_upd (c_current cpu) (set_in_kcall true)) s in
  task_inv [] [] s' ∧ in_call 0 (c_current cpu) s'.
Proof.
  intros [(l & r & I) IM] Hc. destruct (current_task _ _ _ _ _ _ I Hc) as (t & Ht & _).
  assert (E : run_state (task_upd (c_current cpu) (set_in_kcall true)) s =
    set_tasks (<[c_current cpu := set_in_kcall true t]> (k_tasks s)) s).
  { unfold run_state, task_upd, task, mbind, M_bind, get, lift, modify. by rewrite Ht. }
  cbv zeta. rewrite E.
  destruct (touch_ok l r [] [] (c_current cpu) t (set_in_kcall true t) s) as (I' & IM' & _); [done..|].
  split; [split; eauto|]. split; [exists cpu; split; [exact Hc|done]|].
  eexists. split; [apply lookup_insert_eq|done].
Qed.
Lemma demo_in_call_ok : task_inv [] [] (kr_sched demo_in_call) ∧ in_call 0 (c_current demo_cpu) (kr_sched demo_in_call).
Proof. exact (mark_in_call demo_sched3 demo_cpu demo_sched3_inv demo_cpu_ok). Qed.

Lemma kcall_not_preempted_witness :
  ∃ s', idt_irq_handler 0 (Some (on_sched (task_scheduler_tick 0))) demo_in_call = Some (tt, Kernel s' (kr_lock demo_in_call)) ∧
    task_inv [] [] s' ∧ in_call 0 (c_current demo_cpu) s' ∧
    ∃ t, k_tasks s' !! c_current demo_cpu = Some t ∧ t_resched_pending t = true.
Proof.
  destruct demo_in_call_ok as [I C].
  exact (kcall_not_preempted [] [] 0 (c_current demo_cpu) demo_in_call I C eq_refl).
Defined.
