(* ===== verification/FsKcalls.v ===== *)
(** * kernel/system/fs_kcalls.c: file descriptors and the file-system kernel calls

    One table of descriptors serves all tasks; a slot knows the task that opened it.
    A task's three standard descriptors are indices into that table, or -1.  The state
    is the table, the tasks (Task.v) and the file systems below, reached through the
    interface [VfsApi], which Vfs.v implements; the file systems work on the kernel
    memory the tasks live in and on a state [F] of their own.  A call that would sleep
    says so ([Block]): its loop goes round again when the task is resumed. *)
From S2P Require Import Prelude RawMem Pmm Heap VfsTypes Ramfs Vfs Task TaskRing Sched.
Local Open Scope kernel_scope.

(** [kernel/system/fs_kcalls.c 1-2] *)
Definition FD_MAX : nat := 1024.
Definition FD_INVALID : Z := -1.

(** [kernel/system/fs_kcalls.c 4-10] *)
Record FdSlot := MkFdSlot { fd_file : VFile; fd_used : bool; fd_owner : Z }.
Definition zero_file : VFile := MkVFile 0 0 0 0.
Definition zero_slot : FdSlot := MkFdSlot zero_file false 0.
(** [kernel/system/fs_kcalls.c 12-18] *)
Record PollFd := MkPollFd { pf_fd : Z; pf_events : Z; pf_revents : Z }.
(** [kernel/system/fs_kcalls.c 20-25] *)
Record FsDirent := MkFsDirent { de_name : str; de_type : VNodeType }.

(** A value, or the task sleeps for at most so many milliseconds and tries again. *)
Inductive sys_res (A : Type) := Ret (a : A) | Block (timeout_ms : Z).
#[global] Arguments Ret {A} a.
#[global] Arguments Block {A} timeout_ms.

(** The functions of vfs.c on a state [F], and what [fs_sys_mount] uses of the block layer and FAT32. *)
Class VfsApi (F : Type) := {
  va_open : str → Z → M F (Z * option VFile);
  va_read : VFile → Z → M F (Z * list Z * VFile);
  va_write : VFile → list Z → M F (Z * VFile);
  va_ioctl : VFile → Z → Z → M F (Z * VFile);
  va_close : VFile → M F (Z * VFile);
  va_poll : VFile → M F Z;
  va_node : Z → M F VNode;
  va_lookup : Z → str → M F Z;
  va_mkdir : str → M F Z;
  va_readdir : Z → Z → M F (Z * str);
  va_stat : str → M F (option VfsStat);
  va_fstat : VFile → M F (option VfsStat);
  va_lseek : VFile → Z → Z → M F (Z * VFile);
  va_unlink : str → M F Z;
  va_rename : str → str → M F Z;
  va_resolve : str → M F Z;
  va_mount : str → Z → M F Z;
  va_unmount : str → M F Z;
  va_block_from_node : Z → M F Z;
  va_fat32_mount : Z → M F Z;
  va_fat32_unmount : Z → M F Z;
  va_fat32_owns : Z → Z → M F bool;
  va_fat32_is_root : Z → M F bool
}.

(** What the users of [VfsApi] rely on.  [vl_inv runs blocks files w]: [files] are open,
    and [runs] and [blocks] of the kernel memory belong to others.  A file opened joins
    the open files, a file closed leaves them, an operation on a file gives back the
    file to keep in its place.  Others may use the memory that is not the file systems'
    own as they like ([vl_frame]). *)
Class VfsLaws (H F : Type) `{KernelMem H} `{VfsApi (H * F)} := {
  vl_inv : list (Z * Z) → list (Z * Z) → list VFile → H * F → Prop;
  vl_perm R B fs fs' w : fs ≡ₚ fs' → vl_inv R B fs w → vl_inv R B fs' w;
  vl_frame R B fs h f :
    vl_inv R B fs (h, f) → ∃ runs blocks, km_inv h (runs ++ R) (blocks ++ B) ∧
      ∀ h' R' B', km_inv h' (runs ++ R') (blocks ++ B') → same_bytes h h' blocks → vl_inv R' B' fs (h', f);
  vl_open R B fs path flags w :
    vl_inv R B fs w → (length fs < FD_MAX)%nat →
    wp (va_open path flags)
       (λ r w', if r.1 =? 0 then ∃ f, r.2 = Some f ∧ f_offset f = 0 ∧ vl_inv R B (f :: fs) w' else vl_inv R B fs w') w;
  vl_close R B fs f w : vl_inv R B (f :: fs) w → wp (va_close f) (λ _ w', vl_inv R B fs w') w;
  vl_read R B fs f n w :
    vl_inv R B (f :: fs) w → 0 <= n → wp (va_read f n) (λ r w', vl_inv R B (r.2 :: fs) w') w;
  vl_write R B fs f bs w :
    vl_inv R B (f :: fs) w → f_offset f + Z.of_nat (length bs) < 2 ^ 63 →
    wp (va_write f bs) (λ r w', vl_inv R B (r.2 :: fs) w') w;
  vl_ioctl R B fs f req arg w :
    vl_inv R B (f :: fs) w → wp (va_ioctl f req arg) (λ r w', vl_inv R B (r.2 :: fs) w') w;
  vl_lseek R B fs f off wh w :
    vl_inv R B (f :: fs) w → wp (va_lseek f off wh) (λ r w', vl_inv R B (r.2 :: fs) w') w;
  vl_poll R B fs f w : vl_inv R B (f :: fs) w → wp (va_poll f) (λ _ w', vl_inv R B (f :: fs) w') w;
  vl_fstat R B fs f w : vl_inv R B (f :: fs) w → wp (va_fstat f) (λ _ w', vl_inv R B (f :: fs) w') w;
  vl_node R B fs f w :
    vl_inv R B (f :: fs) w → f_node f ≠ 0 → wp (va_node (f_node f)) (λ _ w', vl_inv R B (f :: fs) w') w;
  vl_readdir R B fs f i w :
    vl_inv R B (f :: fs) w → f_node f ≠ 0 → wp (va_readdir (f_node f) i) (λ _ w', vl_inv R B (f :: fs) w') w;
  vl_lookup R B fs f name w :
    vl_inv R B (f :: fs) w → f_node f ≠ 0 →
    wp (va_lookup (f_node f) name)
       (λ c w', vl_inv R B (f :: fs) w' ∧ (c ≠ 0 → wp (va_node c) (λ _ w'', vl_inv R B (f :: fs) w'') w')) w;
  vl_seek R B fs f off w :
    vl_inv R B (f :: fs) w → vl_inv R B (MkVFile (f_node f) (u64 off) (f_flags f) (f_private f) :: fs) w;
  vl_mkdir R B fs path w : vl_inv R B fs w → wp (va_mkdir path) (λ _ w', vl_inv R B fs w') w;
  vl_stat R B fs path w : vl_inv R B fs w → wp (va_stat path) (λ _ w', vl_inv R B fs w') w;
  vl_resolve R B fs path w : vl_inv R B fs w → wp (va_resolve path) (λ _ w', vl_inv R B fs w') w;
  vl_unlink R B fs path w : vl_inv R B fs w → wp (va_unlink path) (λ _ w', vl_inv R B fs w') w;
  vl_rename R B fs from to w : vl_inv R B fs w → wp (va_rename from to) (λ _ w', vl_inv R B fs w') w
}.

Section FsKcalls.
Context {H : Type} `{KM : KernelMem H} {KL : KernelMemLaws H} `{TS : TaskServices H} {TL : TaskServicesLaws H}.
Context {F : Type} `{VA : VfsApi (H * F)}.

(** [kernel/system/fs_kcalls.c 27-27] *)
Record fdst := Fdst { fd_table : list FdSlot; fd_sched : sched H; fd_vfs : F }.
Definition set_fd_table (l : list FdSlot) (s : fdst) : fdst := Fdst l (fd_sched s) (fd_vfs s).
Definition on_tasks {A} (m : M (sched H) A) : M fdst A :=
  zoom fd_sched (λ x s, Fdst (fd_table s) x (fd_vfs s)) m.
Definition vfs_state (s : fdst) : H * F := (k_mem (fd_sched s), fd_vfs s).
Definition set_vfs_state (w : H * F) (s : fdst) : fdst := Fdst (fd_table s) (set_k_mem w.1 (fd_sched s)) w.2.
Definition on_vfs {A} (m : M (H * F) A) : M fdst A := zoom vfs_state set_vfs_state m.

(** [fd_table[i]] and an assignment to it. *)
Definition slot (i : Z) : M fdst FdSlot := s ← get; lift (fd_table s !!z i).
Definition set_slot (i : Z) (x : FdSlot) : M fdst unit :=
  s ← get; l ← lift (updateZ i x (fd_table s)); modify (set_fd_table l).
(** Run a VFS function on the file of a slot. *)
Definition set_slot_file (i : Z) (f : VFile) : M fdst unit :=
  x ← slot i; set_slot i (MkFdSlot f (fd_used x) (fd_owner x)).

(** [kernel/system/fs_kcalls.c: fs_kcalls_init] *)
Definition fs_kcalls_init : M fdst unit :=
  let std := MkFdSlot zero_file true 0 in
  modify (set_fd_table (std :: std :: std :: replicate (FD_MAX - 3) zero_slot)).

(** [kernel/system/fs_kcalls.c: fd_alloc] *)
Definition fd_alloc (c : nat) : M fdst Z :=
  l ← gets fd_table;
  match list_find (λ x, fd_used x = false) l with
  | Some (i, x) =>
      t ← on_tasks (task_current c);
      set_slot (Z.of_nat i) (MkFdSlot (fd_file x) true t);;
      mret (Z.of_nat i)
  | None => mret FD_INVALID
  end.

(** [kernel/system/fs_kcalls.c: fd_release] *)
Definition fd_release (fd : Z) : M fdst unit :=
  on_tasks (task_forget_fd fd);; set_slot fd zero_slot.

(** The body of the loop of [fs_release_task]. [kernel/system/fs_kcalls.c: fs_release_task 66-70] *)
Definition release_if_owned (t i : Z) : M fdst unit :=
  x ← slot i;
  if fd_used x && (fd_owner x =? t) then
    r ← on_vfs (va_close (fd_file x));
    set_slot_file i r.2;;
    fd_release i
  else mret tt.
(** [kernel/system/fs_kcalls.c: fs_release_task] *)
Definition fs_release_task (t : Z) : M fdst unit := for_range (FD_MAX - 3) 3 (release_if_owned t).

(** [kernel/system/fs_kcalls.c: fd_valid] *)
Definition fd_valid (fd : Z) : M fdst bool :=
  if (0 <=? fd) && (fd <? Z.of_nat FD_MAX) then x ← slot fd; mret (fd_used x) else mret false.

(** [kernel/system/fs_kcalls.c: fd_resolve] *)
Definition fd_resolve (c : nat) (fd : Z) : M fdst Z :=
  if (0 <=? fd) && (fd <? 3) then
    t ← on_tasks (task_current c);
    if t =? 0 then mret fd
    else
      tp ← on_tasks (task t);
      real ← lift (t_stdio tp !!z fd);
      if 0 <=? real then
        ok ← fd_valid real;
        if (ok : bool) then mret real else mret fd
      else mret fd
  else mret fd.

(** [t->stdio[k] = v]. *)
Definition set_stdio_at (t k v : Z) : M fdst unit :=
  tp ← on_tasks (task t);
  l ← lift (updateZ k v (t_stdio tp));
  on_tasks (task_upd t (set_stdio l)).

(** [kernel/system/fs_kcalls.c: fs_sys_dup2] *)
Definition fs_sys_dup2 (c : nat) (fd target : Z) : M fdst Z :=
  if (target <? 0) || (2 <? target) then mret (-1)
  else
    t ← on_tasks (task_current c);
    if t =? 0 then mret (-1)
    else if fd <? 0 then
      set_stdio_at t target (-1);;
      (if target =? 0 then on_tasks (task_upd t (set_detached true)) else mret tt);;
      mret 0
    else
      fd ← fd_resolve c fd;
      ok ← fd_valid fd;
      if negb ok || (fd <? 3) then mret (-1)
      else set_stdio_at t target fd;; mret target.

(** [None] is NULL. [kernel/system/fs_kcalls.c: fs_sys_open] *)
Definition fs_sys_open (c : nat) (path : option str) (flags : Z) : M fdst Z :=
  match path with
  | None => mret FD_INVALID
  | Some path =>
      fd ← fd_alloc c;
      if fd =? FD_INVALID then mret FD_INVALID
      else
        r ← on_vfs (va_open path flags);
        let '(rc, f) := r in
        (match f with Some f => set_slot_file fd f | None => mret tt end);;
        if negb (rc =? 0) then fd_release fd;; mret FD_INVALID else mret fd
  end.

(** [kernel/system/fs_kcalls.c: fs_sys_close] *)
Definition fs_sys_close (c : nat) (fd : Z) : M fdst Z :=
  if fd <? 3 then
    t ← on_tasks (task_current c);
    (if negb (t =? 0) && (0 <=? fd) then set_stdio_at t fd (-1) else mret tt);;
    mret 0
  else
    ok ← fd_valid fd;
    if negb ok then mret (-1)
    else
      x ← slot fd;
      r ← on_vfs (va_close (fd_file x));
      set_slot_file fd r.2;;
      fd_release fd;;
      mret r.1.

(** The bytes read, [buf] not NULL. [kernel/system/fs_kcalls.c: fs_sys_read] *)
Definition fs_sys_read (c : nat) (fd : Z) (buf : bool) (count : Z) : M fdst (Z * list Z) :=
  fd ← fd_resolve c fd;
  ok ← fd_valid fd;
  if negb ok || negb buf then mret (-1, [])
  else
    x ← slot fd;
    r ← on_vfs (va_read (fd_file x) count);
    let '(n, bs, f) := r in
    set_slot_file fd f;; mret (n, bs).

(** The second component is what goes to the terminal. [kernel/system/fs_kcalls.c: fs_sys_write] *)
Definition fs_sys_write (c : nat) (fd : Z) (buf : option (list Z)) : M fdst (Z * list Z) :=
  fd ← fd_resolve c fd;
  ok ← fd_valid fd;
  match buf with
  | Some bs =>
      if negb ok then mret (-1, [])
      else if (fd =? 1) || (fd =? 2) then mret (Z.of_nat (length bs), bs)
      else
        x ← slot fd;
        r ← on_vfs (va_write (fd_file x) bs);
        set_slot_file fd r.2;; mret (r.1, [])
  | None => mret (-1, [])
  end.

(** [kernel/system/fs_kcalls.c: fs_sys_ioctl] *)
Definition fs_sys_ioctl (c : nat) (fd request arg : Z) : M fdst Z :=
  fd ← fd_resolve c fd;
  ok ← fd_valid fd;
  if negb ok then mret (-1)
  else
    x ← slot fd;
    r ← on_vfs (va_ioctl (fd_file x) request arg);
    set_slot_file fd r.2;; mret r.1.

(** [kernel/system/fs_kcalls.c: fs_sys_mkdir] *)
Definition fs_sys_mkdir (path : option str) : M fdst Z :=
  match path with
  | None => mret (-1)
  | Some path => n ← on_vfs (va_mkdir path); mret (if n =? 0 then -1 else 0)
  end.

(** [kernel/system/fs_kcalls.c: fs_sys_readdir] *)
Definition fs_sys_readdir (fd : Z) (out : bool) : M fdst (Z * option FsDirent) :=
  ok ← fd_valid fd;
  if negb ok || negb out then mret (-1, None)
  else
    x ← slot fd;
    let f := fd_file x in
    if f_node f =? 0 then mret (-1, None)
    else
      n ← on_vfs (va_node (f_node f));
      if negb (bool_decide (v_type n = VNODE_DIR)) then mret (-1, None)
      else
        r ← on_vfs (va_readdir (f_node f) (s32 (f_offset f)));
        let '(rc, name) := r in
        if negb (rc =? 0) then mret (0, None)
        else
          child ← on_vfs (va_lookup (f_node f) name);
          ty ← (if child =? 0 then mret VNODE_FILE else m ← on_vfs (va_node child); mret (v_type m));
          set_slot_file fd (MkVFile (f_node f) (u64 (f_offset f + 1)) (f_flags f) (f_private f));;
          mret (1, Some (MkFsDirent (take (VFS_NAME_MAX - 1) name) ty)).

(** [kernel/system/fs_kcalls.c: fs_sys_stat] *)
Definition fs_sys_stat (path : option str) (out : bool) : M fdst (option VfsStat) :=
  match path with
  | Some path => if negb out then mret None else on_vfs (va_stat path)
  | None => mret None
  end.

(** [kernel/system/fs_kcalls.c: fs_sys_fstat] *)
Definition fs_sys_fstat (c : nat) (fd : Z) (out : bool) : M fdst (option VfsStat) :=
  fd ← fd_resolve c fd;
  ok ← fd_valid fd;
  if negb ok || negb out then mret None
  else x ← slot fd; on_vfs (va_fstat (fd_file x)).

(** [kernel/system/fs_kcalls.c: fs_sys_lseek] *)
Definition fs_sys_lseek (fd offset whence : Z) : M fdst Z :=
  ok ← fd_valid fd;
  if negb ok then mret (-1)
  else
    x ← slot fd;
    r ← on_vfs (va_lseek (fd_file x) offset whence);
    set_slot_file fd r.2;; mret r.1.

(** [kernel/system/fs_kcalls.c: fs_sys_unlink] *)
Definition fs_sys_unlink (path : option str) : M fdst Z :=
  match path with None => mret (-1) | Some path => on_vfs (va_unlink path) end.
(** [kernel/system/fs_kcalls.c: fs_sys_rename] *)
Definition fs_sys_rename (from to : option str) : M fdst Z :=
  match from, to with Some from, Some to => on_vfs (va_rename from to) | _, _ => mret (-1) end.

(** ** Polling *)

(** [(int16_t)x]. *)
Definition s16 (x : Z) : Z := let y := u16 x in if y <? 2 ^ 15 then y else y - 2 ^ 16.

(** The events of one entry. [kernel/system/fs_kcalls.c: fs_sys_poll 275-283] *)
Definition poll_entry (c : nat) (p : PollFd) : M fdst Z :=
  fd ← fd_resolve c (pf_fd p);
  if fd <? 0 then mret 0
  else
    ok ← fd_valid fd;
    if negb ok then mret POLLNVAL
    else
      x ← slot fd;
      if f_node (fd_file x) =? 0 then mret POLLNVAL
      else
        r ← on_vfs (va_poll (fd_file x));
        mret (s16 (Z.land r (Z.lor (pf_events p) (Z.lor POLLERR (Z.lor POLLHUP POLLNVAL))))).
(** The loop over the entries: the entries with [revents] set and how many are not 0.
    [kernel/system/fs_kcalls.c: fs_sys_poll 273-288] *)
Fixpoint poll_scan (c : nat) (fds : list PollFd) : M fdst (list PollFd * Z) :=
  match fds with
  | [] => mret ([], 0)
  | p :: fds' =>
      re ← poll_entry c p;
      r ← poll_scan c fds';
      mret (MkPollFd (pf_fd p) (pf_events p) re :: r.1, (if re =? 0 then 0 else 1) + r.2)
  end.
(** One turn of the loop of [fs_sys_poll], which began at time [start].
    [kernel/system/fs_kcalls.c: fs_sys_poll] *)
Definition fs_sys_poll (c : nat) (start : Z) (fds : list PollFd) (timeout_ms : Z) :
    M fdst (list PollFd * sys_res Z) :=
  r ← poll_scan c fds;
  let '(fds, ready) := r in
  if negb (ready =? 0) || (timeout_ms =? 0) then mret (fds, Ret ready)
  else if 0 <? timeout_ms then
    now ← on_tasks task_uptime_ms;
    let elapsed := u64 (now - start) in
    if timeout_ms <=? elapsed then mret (fds, Ret 0)
    else mret (fds, Block (u32 (timeout_ms - elapsed)))
  else mret (fds, Block TASK_BLOCK_FOREVER).

(** ** Mounting *)

(** [kernel/system/fs_kcalls.c: fs_sys_mount] *)
Definition fs_sys_mount (device path : option str) : M fdst Z :=
  match device, path with
  | Some device, Some path =>
      if negb (bool_decide (head path = Some slash)) || (Z.of_nat VFS_NAME_MAX <=? strlenZ path) then mret (-1)
      else
        n ← on_vfs (va_resolve device);
        dev ← on_vfs (va_block_from_node n);
        if dev =? 0 then mret (-1)
        else
          root ← on_vfs (va_fat32_mount dev);
          if root =? 0 then mret (-1)
          else
            rc ← on_vfs (va_mount path root);
            if negb (rc =? 0) then on_vfs (va_fat32_unmount root);; mret (-1) else mret 0
  | _, _ => mret (-1)
  end.

(** Whether an open file from slot [i] on lives on the file system of [root].
    [kernel/system/fs_kcalls.c: fs_sys_unmount 343-350] *)
Fixpoint busy_loop (n : nat) (i root : Z) : M fdst bool :=
  match n with
  | O => mret false
  | Datatypes.S n' =>
      x ← slot i;
      owns ← (if fd_used x then on_vfs (va_fat32_owns root (f_node (fd_file x))) else mret false);
      if (owns : bool) then mret true else busy_loop n' (i + 1) root
  end.
(** [kernel/system/fs_kcalls.c: fs_sys_unmount] *)
Definition fs_sys_unmount (path : option str) : M fdst Z :=
  match path with
  | None => mret (-1)
  | Some path =>
      root ← on_vfs (va_unmount path);
      if root =? 0 then mret (-1)
      else
        busy ← busy_loop (FD_MAX - 3) 3 root;
        if (busy : bool) then on_vfs (va_mount path root);; mret (-1)
        else
          is_root ← on_vfs (va_fat32_is_root root);
          if (is_root : bool) then on_vfs (va_fat32_unmount root) else mret 0
  end.
End FsKcalls.
