(* ===== verification/VfsInst.v ===== *)
(** * The virtual file system over ramfs implements what the kernel calls rely on

    The functions of Vfs.v are an instance of [VfsApi], and over a tree of ramfs nodes
    they keep the laws [VfsLaws]: the reference count of every node is the number of
    open files on it, so that no open file is ever left with a node that has been
    freed, and a node taken out of the tree lives exactly as long as it is open.  The
    block layer and FAT32, which [fs_sys_mount] calls, are parameters. *)
From S2P Require Import Prelude RawMem Pmm Heap VfsTypes Ramfs Vfs Task TaskRing FsKcalls.
Local Open Scope kernel_scope.

(** ** The state of the file systems but for the memory *)
Record fsrest := FsRest { fr_nodes : gmap Z VNode; fr_files : gmap Z RamfsFile; fr_mounts : list VfsMount }.

Section VfsInst.
Context {H : Type} `{KM : KernelMem H} {KL : KernelMemLaws H}.
Definition to_fs (w : H * fsrest) : fs H := Fs w.1 (fr_nodes w.2) (fr_files w.2) (fr_mounts w.2).
Definition of_fs (s : fs H) : H * fsrest := (fs_mem s, FsRest (fs_nodes s) (fs_files s) (fs_mounts s)).
Definition on_fs {A} (m : M (fs H) A) : M (H * fsrest) A :=
  λ w, match m (to_fs w) with Some (a, s) => Some (a, of_fs s) | None => None end.

Context (node_ops : Z → option (VNodeOps H)) (file_ops : Z → option (VFileOps H)).
Context (block_from_node fat32_mount fat32_unmount : Z → M (H * fsrest) Z)
        (fat32_owns : Z → Z → M (H * fsrest) bool) (fat32_is_root : Z → M (H * fsrest) bool).

#[export] Instance vfs_api : VfsApi (H * fsrest) := {
  va_open path flags := on_fs (vfs_open node_ops path flags);
  va_read f n := on_fs (vfs_read node_ops file_ops f n);
  va_write f bs := on_fs (vfs_write node_ops file_ops f bs);
  va_ioctl f req arg := on_fs (vfs_ioctl file_ops f req arg);
  va_close f := on_fs (vfs_close node_ops file_ops f);
  va_poll f := on_fs (vfs_poll file_ops f);
  va_node p := on_fs (vnode p);
  va_lookup p name := on_fs (step_down node_ops p name);
  va_mkdir path := on_fs (vfs_mkdir node_ops path);
  va_readdir p i := on_fs (vfs_readdir node_ops p i);
  va_stat path := on_fs (vfs_stat node_ops path);
  va_fstat f := on_fs (vfs_fstat f);
  va_lseek f off wh := on_fs (vfs_lseek f off wh);
  va_unlink path := on_fs (vfs_unlink node_ops path);
  va_rename from to := on_fs (vfs_rename node_ops from to);
  va_resolve path := on_fs (vfs_resolve node_ops path);
  va_mount path root := on_fs (vfs_mount path root);
  va_unmount path := on_fs (vfs_unmount path);
  va_block_from_node := block_from_node;
  va_fat32_mount := fat32_mount;
  va_fat32_unmount := fat32_unmount;
  va_fat32_owns := fat32_owns;
  va_fat32_is_root := fat32_is_root
}.

End VfsInst.

Section OpenFiles.
Context {H : Type} `{KM : KernelMem H} {KL : KernelMemLaws H}.
Context (node_ops : Z → option (VNodeOps H)) (file_ops : Z → option (VFileOps H)).
Context (R : Z) (HR : R ≠ 0) (Htab : node_ops R = Some (ramfs_table R)).
Context (runs blocks : list (Z * Z)).
Implicit Types s : fs H.

(** How many of the open files are on node [p]. *)
Definition refs (p : Z) (files : list VFile) : Z := Z.of_nat (length (filter (λ f, f_node f = p) files)).

(** The tree is well formed and made of ramfs nodes, mounts are roots, open files have
    nodes, a node counts its open files, and a node that was unlinked is open. *)
Record open_inv (ch : Z → list Z) (files : list VFile) (s : fs H) : Prop := {
  oi_fs : fs_inv R runs blocks ch s;
  oi_ramfs : all_ramfs R s;
  oi_mounts : ∀ m, m ∈ fs_mounts s → mnt_used m = true →
    ∃ n, fs_nodes s !! mnt_root m = Some n ∧ v_parent n = 0 ∧ v_unlinked n = false;
  oi_files : Forall (λ f, (f_node f = 0 ∨ is_Some (fs_nodes s !! f_node f)) ∧ 0 <= f_offset f < 2 ^ 64) files;
  oi_nodes : ∀ p n, fs_nodes s !! p = Some n →
    v_file_ops n = 0 ∧ v_open_count n = refs p files ∧
    (v_unlinked n = true → v_parent n = 0 ∧ ch p = [] ∧ 0 < refs p files);
  oi_len : (length files <= FD_MAX)%nat
}.

(** ** Lemmas: counting references *)
Lemma refs_cons p f files : refs p (f :: files) = (if decide (f_node f = p) then 1 else 0) + refs p files.
Proof. unfold refs. rewrite filter_cons. destruct decide; simpl; lia. Qed.
Lemma refs_nonneg p files : 0 <= refs p files.
Proof. unfold refs. lia. Qed.
Lemma refs_le p files : refs p files <= Z.of_nat (length files).
Proof. unfold refs. pose proof (length_filter (λ f, f_node f = p) files). lia. Qed.
Lemma refs_perm p files files' : files ≡ₚ files' → refs p files = refs p files'.
Proof. intros P. unfold refs. by rewrite P. Qed.
Lemma refs_none p files : refs p files = 0 → Forall (λ f, f_node f ≠ p) files.
Proof.
  induction files as [|f files IH]; intros E; constructor; rewrite refs_cons in E; pose proof (refs_nonneg p files);
    destruct decide; try lia; auto.
Qed.
Lemma refs_absent p s ch files : open_inv ch files s → fs_nodes s !! p = None → p ≠ 0 → refs p files = 0.
Proof.
  intros I Hp Hp0. pose proof (oi_files _ _ _ I) as F. clear I. unfold refs. induction F as [|f files' [Hf _] F IH]; [done|].
  rewrite filter_cons_False; [exact IH|]. intros <-. destruct Hf as [|[n Hn]]; congruence.
Qed.

(** ** Lemmas: the state *)
Lemma open_inv_perm ch files files' s : files ≡ₚ files' → open_inv ch files s → open_inv ch files' s.
Proof.
  intros P [I1 I2 I3 I4 I5 I6]. constructor; [done|done|done|by rewrite <- P| |by rewrite <- P].
  intros p n Hn. rewrite <- (refs_perm p _ _ P). by apply I5.
Qed.

Lemma open_inv_file ch f f' files s :
  open_inv ch (f :: files) s → f_node f' = f_node f → 0 <= f_offset f' < 2 ^ 64 → open_inv ch (f' :: files) s.
Proof.
  intros [I1 I2 I3 I4 I5 I6] E Ho. apply list.Forall_cons in I4 as [[Hf _] I4]. constructor; [done|done|done| | |done].
  - constructor; [|done]. by rewrite E.
  - intros p n Hn. rewrite refs_cons, E, <- refs_cons. by apply I5.
Qed.

Lemma open_inv_mounts ch files s : open_inv ch files s → mounts_ok s.
Proof. intros I m Hm U. destruct (oi_mounts _ _ _ I m Hm U) as (n & ? & _). by exists n. Qed.

(** The nodes of [P] have changed, the others only where references do not count. *)
Lemma open_inv_change P ch ch' files s s' :
  open_inv ch files s → fs_inv R runs blocks ch' s' → refs_kept P (fs_nodes s) (fs_nodes s') →
  fs_mounts s' = fs_mounts s →
  (∀ m, m ∈ fs_mounts s → mnt_used m = true → ¬ P (mnt_root m)) →
  (∀ q n, ¬ P q → fs_nodes s !! q = Some n → v_unlinked n = true → ch q = [] → ch' q = []) →
  (∀ q, P q → (fs_nodes s' !! q = None → refs q files = 0) ∧
     ∀ n, fs_nodes s' !! q = Some n → v_ops n = R ∧ v_file_ops n = 0 ∧ v_open_count n = refs q files ∧
       (v_unlinked n = true → v_parent n = 0 ∧ ch' q = [] ∧ 0 < refs q files)) →
  (∀ q, Decision (P q)) → open_inv ch' files s'.
Proof.
  intros [I1 I2 I3 I4 I5 I6] I' K Em HM HC HP DP.
  assert (Fwd : ∀ p n, ¬ P p → fs_nodes s !! p = Some n → ∃ n', fs_nodes s' !! p = Some n' ∧ same_refs n n').
  { intros p n Hp Hn. specialize (K p Hp). rewrite Hn in K. inversion K as [n0 n' E|]; subst. by exists n'. }
  assert (Bwd : ∀ p n', ¬ P p → fs_nodes s' !! p = Some n' → ∃ n, fs_nodes s !! p = Some n ∧ same_refs n n').
  { intros p n' Hp Hn. specialize (K p Hp). rewrite Hn in K. inversion K as [n n0 E|]; subst. by exists n. }
  constructor; [done| | | | |done].
  - intros p n' Hn'. destruct (decide (P p)) as [Hp|Hp]; [by apply (HP p Hp)|].
    destruct (Bwd p n' Hp Hn') as (n & Hn & -> & _). by eapply I2.
  - rewrite Em. intros m Hm U. destruct (I3 m Hm U) as (n & Hn & Hp & Hu).
    destruct (Fwd _ n (HM m Hm U) Hn) as (n' & Hn' & Er). exists n'.
    unfold same_refs in Er. split_and!; [done|intuition congruence|intuition congruence].
  - apply list.Forall_forall. intros f Hf. pose proof (proj1 (list.Forall_forall _ _) I4 f Hf) as [Hn ?]. split; [|done].
    destruct (decide (P (f_node f))) as [Hp|Hp].
    + right. destruct (fs_nodes s' !! f_node f) eqn:E; [by eexists|]. destruct (HP _ Hp) as [Hz _].
      by destruct (proj1 (list.Forall_forall _ _) (refs_none _ _ (Hz E)) f Hf).
    + destruct Hn as [?|[n Hn]]; [by left|right]. destruct (Fwd _ n Hp Hn) as (n' & ? & _). by exists n'.
  - intros p n' Hn'. destruct (decide (P p)) as [Hp|Hp]; [by apply (HP p Hp)|].
    destruct (Bwd p n' Hp Hn') as (n & Hn & Er). destruct (I5 p n Hn) as (? & ? & Hu). unfold same_refs in Er.
    split_and!; [intuition congruence|intuition congruence|]. intros Hu'. destruct Hu as (? & ? & ?); [intuition congruence|].
    split_and!; [intuition congruence|eapply HC; [exact Hp|exact Hn|intuition congruence|done]|done].
Qed.

Lemma open_inv_kept ch files s s' :
  open_inv ch files s → fs_inv R runs blocks ch s' → refs_kept (λ _, False) (fs_nodes s) (fs_nodes s') →
  fs_mounts s' = fs_mounts s → open_inv ch files s'.
Proof. intros I I' K Em. eapply (open_inv_change (λ _, False)); [exact I|exact I'|exact K|done|tauto|done|done|intros ?; apply _]. Qed.

(** ** Lemmas: paths lead to nodes of the tree *)
Definition linked (ch : Z → list Z) s (p : Z) : Prop :=
  (∃ m, m ∈ fs_mounts s ∧ mnt_used m = true ∧ mnt_root m = p) ∨ ∃ d, p ∈ ch d.

Lemma linked_not_unlinked ch files s p n :
  open_inv ch files s → linked ch s p → fs_nodes s !! p = Some n → v_unlinked n = false.
Proof.
  intros I [(m & Hm & U & <-)|[d Hd]] Hn.
  - destruct (oi_mounts _ _ _ I m Hm U) as (n' & ? & _ & ?). congruence.
  - destruct (tree_child (fi_tree _ _ _ _ _ (oi_fs _ _ _ I)) p d Hd) as (n' & _ & Hn' & _ & Hp & _ & Hd0).
    destruct (v_unlinked n) eqn:E; [|done]. destruct (oi_nodes _ _ _ I p n Hn) as (_ & _ & Hu).
    destruct (Hu E) as (Hp0 & _). congruence.
Qed.

Lemma walk_linked ch cur n names s :
  tree (fs_nodes s) ch → all_ramfs R s → fs_nodes s !! cur = Some n →
  wp (walk node_ops cur names) (λ p s', s' = s ∧ (p = 0 ∨ is_Some (fs_nodes s !! p) ∧ (p = cur ∨ ∃ d, p ∈ ch d))) s.
Proof.
  intros T A. revert cur n. induction names as [|c names IH]; intros cur n Hn; cbn [walk].
  - wp_steps. split; [done|right]. split; [by eexists|by left].
  - wp_steps. eapply (step_down_wp node_ops R HR Htab); [done|done|done| |].
    + intros p Hp _. destruct (tree_child T p cur Hp) as (np & _ & Hnp & _ & _ & Hp0 & _).
      destruct (Z.eqb_spec p 0); [done|]. eapply wp_mono; [by eapply IH|].
      intros q s' [-> [?|(? & [->|?])]]; split; eauto 8.
    + intros _. simpl. wp_steps. by auto.
Qed.

Lemma vfs_resolve_linked ch files path s :
  open_inv ch files s →
  wp (vfs_resolve node_ops path) (λ p s', s' = s ∧ (p = 0 ∨ is_Some (fs_nodes s !! p) ∧ linked ch s p)) s.
Proof.
  intros I. pose proof (fi_tree _ _ _ _ _ (oi_fs _ _ _ I)) as T. pose proof (oi_ramfs _ _ _ I) as A.
  destruct path as [|c path]; [simpl; wp_steps; auto|]. destruct (decide (c = slash)) as [->|Hc].
  2:{ unfold vfs_resolve. rewrite bool_decide_false by done. simpl. wp_steps. auto. }
  unfold wp. rewrite vfs_resolve_eq. change (wp (walk_path node_ops (slash :: path))
    (λ p s', s' = s ∧ (p = 0 ∨ is_Some (fs_nodes s !! p) ∧ linked ch s p)) s).
  unfold walk_path. wp_steps. pose proof (fold_best (slash :: path) (fs_mounts s)) as Best. unfold find_mount_for.
  destruct (foldl _ _ _) as [[b|] len]; simpl; [|wp_steps; auto].
  destruct Best as (Hb & Hcov & _). unfold covers in Hcov. apply andb_prop in Hcov as [Hu _].
  destruct (oi_mounts _ _ _ I b Hb Hu) as (n & Hn & _). eapply wp_mono; [by eapply walk_linked|].
  intros p s' [-> [?|(? & Hl)]]; (split; [done|]); [by left|right]. split; [done|].
  destruct Hl as [->|?]; [left; by exists b|by right].
Qed.

(** The directory and the leaf of a path. *)
Lemma resolve_parent_linked ch files path s :
  open_inv ch files s →
  wp (resolve_parent node_ops path) (λ r s', s' = s ∧
    (r.1 = 0 ∨ is_Some (fs_nodes s !! r.1) ∧ linked ch s r.1 ∧ (length r.2 < VFS_NAME_MAX)%nat)) s.
Proof.
  intros I. pose proof (fi_tree _ _ _ _ _ (oi_fs _ _ _ I)) as T. pose proof (oi_ramfs _ _ _ I) as A.
  eapply wp_mono; [eapply (resolve_parent_wp node_ops R HR Htab); [exact T|exact A|by eapply open_inv_mounts]|].
  intros [p leaf] s' [-> [?|(Hp & par & _ & _ & Hl & _ & E)]]; (split; [done|]); [by left|]. simpl in *.
  pose proof (vfs_resolve_linked ch files (parent_path par) s I) as W. unfold wp in W. rewrite E in W.
  destruct W as [_ [?|[? ?]]]; [by left|right]. split_and!; [done|done|lia].
Qed.

(** ** Lemmas: opening and closing *)
Lemma open_inv_open ch files s p n f :
  open_inv ch files s → fs_nodes s !! p = Some n → p ≠ 0 → f_node f = p → 0 <= f_offset f < 2 ^ 64 →
  (length files < FD_MAX)%nat →
  open_inv ch (f :: files) (set_nodes (<[p := set_open_count (u32 (v_open_count n + 1)) n]> (fs_nodes s)) s).
Proof.
  intros [I1 I2 I3 I4 I5 I6] Hn Hp Ef Ho Hl. set (n' := set_open_count _ n).
  destruct (I5 p n Hn) as (Hfo & Hoc & Hu).
  assert (Ec : u32 (v_open_count n + 1) = refs p files + 1).
  { rewrite Hoc. apply u32_small. pose proof (refs_nonneg p files). pose proof (refs_le p files). unfold FD_MAX in Hl. lia. }
  constructor; cbn [fs_nodes fs_mounts set_nodes].
  - by eapply fs_inv_same_node.
  - intros q m Hq. simpl in Hq. apply lookup_insert_Some in Hq as [[<- <-]|[_ Hq]]; [by apply (I2 p n)|by eapply I2].
  - intros m Hm U. destruct (I3 m Hm U) as (m0 & Hm0 & ? & ?). destruct (decide (mnt_root m = p)) as [E|].
    + exists n'. rewrite E, lookup_insert_eq. rewrite E in Hm0. assert (m0 = n) as -> by congruence. done.
    + exists m0. by rewrite lookup_insert_ne.
  - constructor.
    + split; [|done]. right. rewrite Ef, lookup_insert_eq. by eexists.
    + eapply list.Forall_impl; [exact I4|]. intros g [[?|Hg] ?]; split; auto. right.
      apply lookup_insert_is_Some. destruct (decide (p = f_node g)); auto.
  - intros q m [[<- <-]|[Hne Hq]]%lookup_insert_Some; rewrite refs_cons, Ef.
    + rewrite decide_True by done. split_and!; [done|cbn; lia|]. intros U. destruct (Hu U) as (? & ? & ?). split_and!; [done|done|lia].
    + rewrite decide_False by done. by apply I5.
  - simpl. lia.
Qed.

Lemma open_inv_close ch f files s n s' :
  open_inv ch (f :: files) s → fs_nodes s !! f_node f = Some n → f_node f ≠ 0 →
  fs_inv R runs blocks ch s' → fs_mounts s' = fs_mounts s →
  (if v_unlinked n && (v_open_count n <=? 1) then fs_nodes s' = delete (f_node f) (fs_nodes s)
   else fs_nodes s' = <[f_node f := set_open_count (Z.max 0 (v_open_count n - 1)) n]> (fs_nodes s)) →
  open_inv ch files s'.
Proof.
  intros [I1 I2 I3 I4 I5 I6] Hn H0' I' Em E. set (p := f_node f) in *. destruct (I5 p n Hn) as (Hfo & Hoc & Hu).
  rewrite refs_cons, decide_True in Hoc by done. apply list.Forall_cons in I4 as [_ I4]. pose proof (refs_nonneg p files) as Hr.
  assert (Hcase : (v_unlinked n = true ∧ refs p files = 0 ∧ fs_nodes s' = delete p (fs_nodes s)) ∨
    ((v_unlinked n = true → 0 < refs p files) ∧ fs_nodes s' = <[p := set_open_count (refs p files) n]> (fs_nodes s))).
  { destruct (v_unlinked n) eqn:U; cbn [andb] in E.
    - destruct (Z.leb_spec (v_open_count n) 1); [left|right]; split_and!; auto; try lia; try (intros; lia).
      rewrite E. do 2 f_equal. lia.
    - right. split; [done|]. rewrite E. do 2 f_equal. lia. }
  assert (Old : ∀ q m, fs_nodes s' !! q = Some m → q ≠ p → fs_nodes s !! q = Some m).
  { intros q m Hq Hne. destruct Hcase as [(_ & _ & Ed)|(_ & Ed)]; rewrite Ed in Hq;
      [by rewrite lookup_delete_ne in Hq|by rewrite lookup_insert_ne in Hq]. }
  assert (New : ∀ q m, fs_nodes s !! q = Some m → q ≠ p → fs_nodes s' !! q = Some m).
  { intros q m Hq Hne. destruct Hcase as [(_ & _ & Ed)|(_ & Ed)]; rewrite Ed;
      [by rewrite lookup_delete_ne|by rewrite lookup_insert_ne]. }
  constructor; [done| | | | |simpl in I6; lia].
  - intros q m Hq. destruct (decide (q = p)) as [->|]; [|by eapply I2, Old].
    destruct Hcase as [(_ & _ & Ed)|(_ & Ed)]; rewrite Ed in Hq; [by rewrite lookup_delete_eq in Hq|].
    rewrite lookup_insert_eq in Hq. injection Hq as <-. by apply (I2 p n).
  - rewrite Em. intros m Hm U. destruct (I3 m Hm U) as (m0 & Hm0 & Hp0 & Hu0). destruct (decide (mnt_root m = p)) as [Er|].
    + rewrite Er in Hm0. assert (m0 = n) as -> by congruence. destruct Hcase as [(Hc & _)|(_ & Ed)]; [congruence|].
      exists (set_open_count (refs p files) n). by rewrite Ed, Er, lookup_insert_eq.
    + exists m0. split_and!; [by apply New|done|done].
  - apply list.Forall_forall. intros g Hg. pose proof (proj1 (list.Forall_forall _ _) I4 g Hg) as [[?|[m Hm]] ?]; split; auto. right.
    destruct (decide (f_node g = p)) as [Eg|]; [|exists m; by apply New].
    destruct Hcase as [(_ & Hz & _)|(_ & Ed)].
    + pose proof (proj1 (list.Forall_forall _ _) (refs_none _ _ Hz) g Hg). done.
    + rewrite Ed, Eg, lookup_insert_eq. by eexists.
  - intros q m Hq. destruct (decide (q = p)) as [->|Hne].
    + destruct Hcase as [(_ & _ & Ed)|(Hpos & Ed)]; rewrite Ed in Hq; [by rewrite lookup_delete_eq in Hq|].
      rewrite lookup_insert_eq in Hq. injection Hq as <-. split_and!; [done|done|]. intros U. destruct (Hu U) as (? & ? & _).
      split_and!; [done|done|by apply Hpos].
    + apply Old in Hq; [|done]. destruct (I5 q m Hq) as (? & Hq1 & Hq2). rewrite refs_cons, decide_False in Hq1 by done.
      split_and!; [done|done|]. intros U. destruct (Hq2 U) as (? & ? & Hq3). rewrite refs_cons, decide_False in Hq3 by done. done.
Qed.

(** ** Lemmas: changing the tree *)
Lemma open_inv_created ch files s d name type p s' :
  open_inv ch files s → linked ch s d → created R ch d name type s p s' →
  fs_inv R runs blocks (upd_ch d (p :: ch d) ch) s' → open_inv (upd_ch d (p :: ch d) ch) files s'.
Proof.
  intros I Hl (Hp & Hn & _ & nd & priv & Hd & En & _ & Em) I'.
  assert (Hdp : d ≠ p) by congruence. pose proof (linked_not_unlinked _ _ _ _ _ I Hl Hd) as Hu.
  eapply (open_inv_change (λ q, q = p)); [exact I|exact I'| |exact Em| | | |intros q; apply _].
  - rewrite En. intros q Hq. destruct (decide (q = d)) as [->|].
    + rewrite lookup_insert_eq, Hd. by constructor.
    + rewrite !lookup_insert_ne by done. by apply (refs_kept_refl (λ _, False) (fs_nodes s) q); intros [].
  - intros m Hm U E. destruct (oi_mounts _ _ _ I m Hm U) as (n & Hr & _). congruence.
  - intros q n _ Hq U _. rewrite upd_ch_ne; [by destruct (oi_nodes _ _ _ I q n Hq) as (_ & _ & [_ [? _]]%(λ H, H U))|]. congruence.
  - intros q ->. rewrite En, lookup_insert_ne, lookup_insert_eq by done. split; [done|]. intros n [= <-].
    pose proof (refs_absent p s ch files I Hn Hp). by split_and!.
Qed.

Lemma open_inv_unlinked ch files s d name s' :
  open_inv ch files s → unlinked_from R runs blocks ch d name s s' → ∃ ch', open_inv ch' files s'.
Proof.
  intros I (c & l1 & l2 & nc & El & Hc & _ & Hch & I' & Em & Hz & Hnz & K). exists (upd_ch d (l1 ++ l2) ch).
  pose proof (fi_tree _ _ _ _ _ (oi_fs _ _ _ I)) as T.
  assert (Hin : c ∈ ch d) by (rewrite El; set_solver). destruct (tree_child T c d Hin) as (nc' & _ & Hc' & _ & Hpar & _ & Hd0).
  assert (nc' = nc) as -> by congruence. destruct (oi_nodes _ _ _ I c nc Hc) as (Hfo & Hoc & _).
  assert (Hcd : c ≠ d) by (intros ->; rewrite Hch in El; by destruct l1).
  eapply (open_inv_change (λ q, q = c)); [exact I|exact I'|exact K|exact Em| | | |intros q; apply _].
  - intros m Hm U E. destruct (oi_mounts _ _ _ I m Hm U) as (n & Hr & Hp0 & _). congruence.
  - intros q n _ _ _ Hq. rewrite upd_ch_ne; [done|]. intros ->. rewrite Hq in El. by destruct l1.
  - intros q ->. split.
    + intros E. destruct (decide (v_open_count nc = 0)); [congruence|]. destruct Hnz as [_ E']; [done|]. congruence.
    + intros n Hn. destruct (decide (v_open_count nc = 0)) as [E|E]; [by rewrite (Hz E) in Hn|].
      destruct (Hnz E) as [_ E']. rewrite E' in Hn. injection Hn as <-. cbn. pose proof (refs_nonneg c files).
      split_and!; [by apply (oi_ramfs _ _ _ I c nc)|done|done|]. intros _. rewrite upd_ch_ne by done. split_and!; [done|done|lia].
Qed.

Lemma vfs_rename_open ch files from to s :
  open_inv ch files s → wp (vfs_rename node_ops from to) (λ _ s', ∃ ch', open_inv ch' files s') s.
Proof.
  intros I. eapply wp_mono.
  { apply (vfs_rename_wp node_ops R HR Htab runs blocks ch from to s); [apply I|apply I|by eapply open_inv_mounts]. }
  intros e s' [[_ ->]|(_ & node & n & d & dir & leaf & par & l1 & l2 & Hn & _ & Edir & El & I' & _ & Em & K & Hnode & Hp & Hdir & n' & Hn' & Ep & Er)];
    [by exists ch|]. exists (moved ch d dir node l1 l2).
  pose proof (fi_tree _ _ _ _ _ (oi_fs _ _ _ I)) as T.
  assert (Hin : node ∈ ch d) by (rewrite El; set_solver).
  pose proof (linked_not_unlinked _ _ _ _ _ I (or_intror (ex_intro _ d Hin)) Hnode) as Hu.
  destruct (oi_nodes _ _ _ I node n Hnode) as (Hfo & Hoc & _).
  pose proof (vfs_resolve_linked ch files (parent_path par) s I) as W. unfold wp in W. rewrite Edir in W.
  destruct W as [_ [?|[[nd Hnd] Hl]]]; [done|]. pose proof (linked_not_unlinked _ _ _ _ _ I Hl Hnd) as Hud.
  eapply (open_inv_change (λ q, q = node)); [exact I|exact I'|exact K|exact Em| | | |intros q; apply _].
  - intros m Hm U E. destruct (oi_mounts _ _ _ I m Hm U) as (m0 & Hr & Hp0 & _). congruence.
  - intros q m _ Hq U Hch. unfold moved. rewrite upd_ch_ne by congruence. rewrite upd_ch_ne; [done|].
    intros ->. rewrite Hch in El. by destruct l1.
  - intros q ->. rewrite Hn'. split; [done|]. intros m [= <-]. unfold same_refs in Er. cbn in Er.
    pose proof (oi_ramfs _ _ _ I node n Hnode). split_and!; [intuition congruence..|]. intros U. intuition congruence.
Qed.

(** ** Lemmas: the functions of vfs.c *)

(** [ops_field] and [file_field] on a node of the tree. *)
Lemma field_wp {A} ch files p n (f : VNodeOps H → option A) (Q : option A → fs H → Prop) s :
  open_inv ch files s → fs_nodes s !! p = Some n → Q (f (ramfs_table R)) s → wp (ops_field node_ops (v_ops n) f) Q s.
Proof. intros I Hn HQ. apply (ops_field_wp node_ops R HR Htab); [by apply (oi_ramfs _ _ _ I p n)|done]. Qed.
Lemma file_field_wp {A} ch files p n (f : VFileOps H → option A) (Q : option A → fs H → Prop) s :
  open_inv ch files s → fs_nodes s !! p = Some n → Q None s → wp (file_field file_ops (v_file_ops n) f) Q s.
Proof. intros I Hn HQ. unfold file_field. destruct (oi_nodes _ _ _ I p n Hn) as (-> & _). cbn [Z.eqb]. by wp_steps. Qed.

Lemma create_in_wp ch files d nd leaf ty s :
  open_inv ch files s → linked ch s d → fs_nodes s !! d = Some nd → v_type nd = VNODE_DIR → (length leaf < VFS_NAME_MAX)%nat →
  wp (ramfs_create R d leaf ty) (λ p s', ∃ ch', open_inv ch' files s' ∧ (p = 0 ∨ is_Some (fs_nodes s' !! p))) s.
Proof.
  intros I Hl Hd Hty Hlen. eapply wp_mono; [eapply (ramfs_create_wp R); [apply I|exact Hd|exact Hty|exact Hlen]|].
  intros p s' [(-> & (En & _ & Em) & I')|(C & I')].
  - exists ch. split; [|by left]. eapply open_inv_kept; [exact I|exact I'| |exact Em]. rewrite En. apply refs_kept_refl.
  - exists (upd_ch d (p :: ch d) ch). split; [by eapply open_inv_created|]. right.
    destruct C as (Hp & Hn & _ & nd' & priv & _ & En & _). rewrite En. destruct (decide (d = p)) as [->|].
    + rewrite lookup_insert_eq. by eexists.
    + rewrite lookup_insert_ne, lookup_insert_eq by done. by eexists.
Qed.

Lemma open_node_wp ch files path flags s :
  open_inv ch files s →
  wp (open_node node_ops path flags) (λ p s', ∃ ch', open_inv ch' files s' ∧ (p = 0 ∨ is_Some (fs_nodes s' !! p))) s.
Proof.
  intros I. unfold open_node. wp_steps. eapply wp_mono; [by eapply vfs_resolve_linked|]. intros p ? [-> Hp].
  destruct (_ && _).
  - wp_steps. eapply wp_mono; [by eapply resolve_parent_linked|]. intros [d leaf] ? [-> Hd]. cbn [fst snd] in Hd.
    destruct (Z.eqb_spec d 0); [wp_steps; eauto|]. destruct Hd as [?|([nd Hnd] & Hl & Hlen)]; [done|].
    unfold is_dir. wp_steps. eapply wp_vnode; [exact Hnd|]. wp_steps. case_bool_decide as Hty; cbn [negb]; [|wp_steps; eauto].
    wp_steps. eapply wp_vnode; [exact Hnd|]. wp_steps. eapply field_wp; [exact I|exact Hnd|]. cbn [op_create ramfs_table].
    by eapply create_in_wp.
  - wp_steps. exists ch. split; [done|]. destruct Hp as [?|[? _]]; auto.
Qed.

Lemma vfs_open_wp ch files path flags s :
  open_inv ch files s → (length files < FD_MAX)%nat →
  wp (vfs_open node_ops path flags) (λ r s', ∃ ch', if r.1 =? 0 then ∃ f, r.2 = Some f ∧ f_offset f = 0 ∧ open_inv ch' (f :: files) s'
                                                 else open_inv ch' files s') s.
Proof.
  intros I Hl. unfold vfs_open. wp_steps. eapply wp_mono; [by eapply open_node_wp|]. intros p s1 (ch1 & I1 & Hp).
  destruct (Z.eqb_spec p 0); [wp_steps; by exists ch1|]. destruct Hp as [?|[nd Hn]]; [done|].
  wp_steps. eapply wp_vnode; [exact Hn|]. wp_steps. eapply field_wp; [exact I1|exact Hn|]. cbn [op_open ramfs_table]. wp_steps.
  cbn [Z.eqb negb]. wp_steps. eapply wp_vnode; [exact Hn|]. destruct (oi_nodes _ _ _ I1 p nd Hn) as (Efo & _). rewrite Efo.
  cbn [Z.eqb]. wp_steps. eapply wp_vnode_upd; [exact Hn|]. wp_steps. exists ch1. cbn [fst snd Z.eqb]. eexists. split; [done|]. split; [done|].
  by apply open_inv_open.
Qed.

Lemma vfs_close_open ch f files s :
  open_inv ch (f :: files) s → wp (vfs_close node_ops file_ops f) (λ _ s', ∃ ch', open_inv ch' files s') s.
Proof.
  intros I. pose proof (oi_files _ _ _ I) as Hf. apply list.Forall_cons in Hf as [[Hf _] Hfs].
  destruct (Z.eqb_spec (f_node f) 0) as [E|E].
  - unfold vfs_close. rewrite E. cbn [Z.eqb]. wp_steps. exists ch. destruct I as [I1 I2 I3 I4 I5 I6].
    constructor; [done|done|done|done| |simpl in I6; lia]. intros p n Hn. destruct (I5 p n Hn) as (? & H1 & H2).
    assert (p ≠ 0) by (intros ->; by rewrite (t_null _ _ (fi_tree _ _ _ _ _ I1)) in Hn).
    rewrite refs_cons, decide_False in H1, H2 by congruence. done.
  - destruct Hf as [?|[n Hn]]; [done|]. destruct (oi_nodes _ _ _ I _ n Hn) as (Hfo & Hoc & Hu).
    eapply wp_mono; [apply (vfs_close_wp node_ops file_ops R HR Htab runs blocks ch f n s)|].
    + apply I.
    + exact Hn.
    + by eapply (oi_ramfs _ _ _ I).
    + exact Hfo.
    + rewrite Hoc. apply refs_nonneg.
    + intros U. destruct (Hu U) as (? & ? & _). done.
    + intros r s' (_ & _ & Em & I' & E'). exists ch. by eapply open_inv_close.
Qed.

(** A regular file that is open has its contents; other nodes have no data. *)
Lemma open_is_file ch files p n s :
  open_inv ch files s → fs_nodes s !! p = Some n →
  (v_type n ≠ VNODE_FILE ∧ v_private n = 0) ∨ ∃ c, is_file R s p c ∧ Z.of_nat (length c) < 2 ^ 63.
Proof.
  intros I Hn. pose proof (oi_ramfs _ _ _ I p n Hn) as Ho. pose proof (fi_files _ _ _ _ _ (oi_fs _ _ _ I)) as F.
  destruct (decide (v_type n = VNODE_FILE)) as [E|E]; [|left; split; [done|by eapply (fo_other _ _ F)]].
  right. destruct (is_file_buffer R s p n F Hn Ho E) as (r & Hr & Hok & _ & Hf). eexists. split; [exact Hf|].
  rewrite (rf_ok_content_length _ _ Hok). destruct Hok. lia.
Qed.

Lemma vfs_read_open ch f n files s :
  open_inv ch (f :: files) s → 0 <= n →
  wp (vfs_read node_ops file_ops f n) (λ r s', open_inv ch (r.2 :: files) s') s.
Proof.
  intros I Hn0. pose proof (oi_files _ _ _ I) as Hf. apply list.Forall_cons in Hf as [[Hf Ho] Hfs].
  unfold vfs_read. destruct (Z.eqb_spec (f_node f) 0) as [E|E]; [by wp_steps|]. destruct Hf as [?|[nd Hnd]]; [done|].
  wp_steps. eapply wp_vnode; [exact Hnd|]. wp_steps. eapply file_field_wp; [exact I|exact Hnd|]. wp_steps.
  eapply field_wp; [exact I|exact Hnd|]. cbn [op_read ramfs_table]. wp_steps.
  destruct (open_is_file ch _ _ nd s I Hnd) as [[_ Hp]|(c & Hc & Hlen)].
  - unfold ramfs_read. wp_steps. eapply wp_vnode; [exact Hnd|]. rewrite Hp. cbn [Z.eqb orb]. wp_steps. exact I.
  - eapply (ramfs_read_wp R); [apply (fi_files _ _ _ _ _ (oi_fs _ _ _ I))|exact Hc|done|lia|exact Hlen|]. wp_steps. cbn [snd].
    destruct (Z.ltb_spec 0 (Z.of_nat (length (spec_read c (f_offset f) n)))); [|exact I].
    eapply open_inv_file; [exact I|done|apply u64_range].
Qed.

Lemma vfs_write_open ch f bs files s :
  open_inv ch (f :: files) s → f_offset f + Z.of_nat (length bs) < 2 ^ 63 →
  wp (vfs_write node_ops file_ops f bs) (λ r s', open_inv ch (r.2 :: files) s') s.
Proof.
  intros I Hfit. pose proof (oi_files _ _ _ I) as Hf. apply list.Forall_cons in Hf as [[Hf Ho] Hfs].
  unfold vfs_write. destruct (Z.eqb_spec (f_node f) 0) as [E|E]; [by wp_steps|]. destruct Hf as [?|[nd Hnd]]; [done|].
  wp_steps. eapply wp_vnode; [exact Hnd|]. wp_steps. eapply file_field_wp; [exact I|exact Hnd|]. wp_steps.
  eapply field_wp; [exact I|exact Hnd|]. cbn [op_write ramfs_table]. wp_steps.
  destruct (open_is_file ch _ _ nd s I Hnd) as [[_ Hp]|(c & Hc & Hlen)].
  - unfold ramfs_write. wp_steps. eapply wp_vnode; [exact Hnd|]. rewrite Hp. cbn [Z.eqb orb]. wp_steps. cbn. by wp_steps.
  - eapply wp_mono; [eapply (ramfs_write_wp R); [apply I|exact Hc|lia|exact Hfit]|].
    intros k s' [[-> ->]|(-> & I' & Hf' & _ & K & Em)]; [cbn; by wp_steps|].
    assert (I2 : open_inv ch (f :: files) s') by by eapply open_inv_kept.
    destruct (Z.ltb_spec 0 (Z.of_nat (length bs))) as [Hb|]; [|by wp_steps]. wp_steps.
    destruct Hf' as (n' & Hn' & _ & _ & _ & Hsz). eapply wp_vnode; [exact Hn'|].
    rewrite u64_small by lia. rewrite spec_write_length in Hsz by lia.
    destruct (Z.ltb_spec (v_size n') (f_offset f + Z.of_nat (length bs))); [lia|]. wp_steps. cbn [snd].
    eapply open_inv_file; [exact I2|done|cbn; lia].
Qed.

Lemma vfs_mkdir_open ch files path s :
  open_inv ch files s → wp (vfs_mkdir node_ops path) (λ _ s', ∃ ch', open_inv ch' files s') s.
Proof.
  intros I. pose proof (fi_tree _ _ _ _ _ (oi_fs _ _ _ I)) as T. unfold vfs_mkdir. wp_steps.
  eapply wp_mono; [by eapply resolve_parent_linked|]. intros [d leaf] ? [-> Hd]. cbn [fst snd] in Hd.
  destruct (Z.eqb_spec d 0); [wp_steps; by exists ch|]. destruct Hd as [?|([nd Hnd] & Hl & Hlen)]; [done|].
  unfold is_dir. wp_steps. eapply wp_vnode; [exact Hnd|]. wp_steps. case_bool_decide as Hty; cbn [negb]; [|wp_steps; by exists ch].
  wp_steps. eapply wp_vnode; [exact Hnd|]. wp_steps. eapply field_wp; [exact I|exact Hnd|]. cbn [op_create ramfs_table]. wp_steps.
  eapply field_wp; [exact I|exact Hnd|]. cbn [op_lookup ramfs_table]. wp_steps.
  eapply (ramfs_lookup_wp ch d nd); [exact T|exact Hnd| |]; [intros p Hp _|intros _; cbn [Z.eqb negb]].
  - destruct (tree_child T p d Hp) as (_ & _ & _ & _ & _ & Hp0 & _). destruct (Z.eqb_spec p 0); [done|]. cbn [negb]. wp_steps. by exists ch.
  - eapply wp_mono; [by eapply create_in_wp|]. intros p s' (ch' & I' & _). by exists ch'.
Qed.

Lemma vfs_unlink_open ch files path s :
  open_inv ch files s → wp (vfs_unlink node_ops path) (λ _ s', ∃ ch', open_inv ch' files s') s.
Proof.
  intros I. unfold vfs_unlink. wp_steps.
  eapply wp_mono; [by eapply resolve_parent_linked|]. intros [d leaf] ? [-> Hd]. cbn [fst snd] in Hd.
  destruct (Z.eqb_spec d 0); [wp_steps; by exists ch|]. destruct Hd as [?|([nd Hnd] & Hl & Hlen)]; [done|].
  unfold is_dir. wp_steps. eapply wp_vnode; [exact Hnd|]. wp_steps. case_bool_decide as Hty; cbn [negb]; [|wp_steps; by exists ch].
  wp_steps. eapply wp_vnode; [exact Hnd|]. wp_steps. eapply field_wp; [exact I|exact Hnd|]. cbn [op_unlink ramfs_table].
  eapply wp_mono; [eapply (ramfs_unlink_wp R); [apply I|exact Hnd|by eapply (oi_ramfs _ _ _ I)]|].
  intros e s' [(_ & -> & _)|(_ & U)]; [by exists ch|by eapply open_inv_unlinked].
Qed.

Lemma vfs_stat_open ch files path s : open_inv ch files s → wp (vfs_stat node_ops path) (λ _ s', s' = s) s.
Proof.
  intros I. unfold vfs_stat. wp_steps. eapply wp_mono; [by eapply vfs_resolve_linked|]. intros p ? [-> Hp].
  destruct (Z.eqb_spec p 0); [by wp_steps|]. destruct Hp as [?|([nd Hn] & _)]; [done|]. wp_steps.
  eapply wp_vnode; [exact Hn|]. by wp_steps.
Qed.

Lemma readdir_loop_wp l fuel c idx i s :
  chain (fs_nodes s) c l → (length l <= fuel)%nat → wp (readdir_loop fuel c idx i) (λ _ s', s' = s) s.
Proof.
  revert fuel c idx. induction l as [|x l IH]; intros fuel c idx C Hf; cbn [chain] in C.
  - subst c. destruct fuel; cbn [readdir_loop Z.eqb]; by wp_steps.
  - destruct C as (-> & Hx & n & Hn & C). destruct fuel as [|fuel]; [simpl in Hf; lia|]. cbn [readdir_loop].
    destruct (Z.eqb_spec x 0); [done|]. wp_steps. eapply wp_vnode; [exact Hn|]. destruct (idx =? i); [by wp_steps|].
    apply IH; [done|simpl in Hf; lia].
Qed.

Lemma vfs_readdir_open ch files p i n s :
  open_inv ch files s → fs_nodes s !! p = Some n → wp (vfs_readdir node_ops p i) (λ _ s', s' = s) s.
Proof.
  intros I Hn. pose proof (fi_tree _ _ _ _ _ (oi_fs _ _ _ I)) as T. unfold vfs_readdir. destruct (p =? 0); [by wp_steps|].
  unfold is_dir. wp_steps. eapply wp_vnode; [exact Hn|]. wp_steps. destruct (negb _); [by wp_steps|]. wp_steps.
  eapply wp_vnode; [exact Hn|]. wp_steps. eapply field_wp; [exact I|exact Hn|]. cbn [op_readdir ramfs_table].
  unfold ramfs_readdir, node_fuel. wp_steps. eapply wp_vnode; [exact Hn|]. wp_steps.
  pose proof (t_chain _ _ T p n Hn) as C. eapply readdir_loop_wp; [exact C|]. pose proof (chain_length _ _ _ C). lia.
Qed.

Lemma step_down_open ch files p name n s :
  open_inv ch files s → fs_nodes s !! p = Some n →
  wp (step_down node_ops p name) (λ c s', s' = s ∧ (c ≠ 0 → is_Some (fs_nodes s !! c))) s.
Proof.
  intros I Hn. pose proof (fi_tree _ _ _ _ _ (oi_fs _ _ _ I)) as T.
  eapply (step_down_wp node_ops R HR Htab); [exact T|apply I|exact Hn| |].
  - intros c Hc _. split; [done|]. destruct (tree_child T c p Hc) as (nc & _ & ? & _). by exists nc.
  - intros _. by split.
Qed.

Lemma vfs_lseek_open ch f off wh files s :
  open_inv ch (f :: files) s → wp (vfs_lseek f off wh) (λ r s', open_inv ch (r.2 :: files) s') s.
Proof.
  intros I. pose proof (oi_files _ _ _ I) as Hf. apply list.Forall_cons in Hf as [[Hf Ho] Hfs].
  unfold vfs_lseek. destruct (Z.eqb_spec (f_node f) 0) as [E|E]; [by wp_steps|]. destruct Hf as [?|[nd Hnd]]; [done|].
  wp_steps. eapply wp_vnode; [exact Hnd|]. destruct (negb _); [by wp_steps|]. cbv zeta.
  destruct (if wh =? 0 then _ else _) as [base|]; [|by wp_steps]. destruct (Z.ltb_spec (s64 (base + off)) 0); wp_steps; [done|].
  cbn [snd]. eapply open_inv_file; [exact I|done|]. cbn. pose proof (s64_range (base + off)). lia.
Qed.
End OpenFiles.

(** ** The instance *)
Section Laws.
Context {H : Type} `{KM : KernelMem H} {KL : KernelMemLaws H}.
Context (node_ops : Z → option (VNodeOps H)) (file_ops : Z → option (VFileOps H)).
Context (block_from_node fat32_mount fat32_unmount : Z → M (H * fsrest) Z)
        (fat32_owns : Z → Z → M (H * fsrest) bool) (fat32_is_root : Z → M (H * fsrest) bool).
Context (R : Z) (HR : R ≠ 0) (Htab : node_ops R = Some (ramfs_table R)).
#[local] Existing Instance vfs_api.
#[local] Abbreviation api := (vfs_api node_ops file_ops block_from_node fat32_mount fat32_unmount fat32_owns fat32_is_root).

Definition vfs_inv (runs blocks : list (Z * Z)) (files : list VFile) (w : H * fsrest) : Prop :=
  ∃ ch, open_inv R runs blocks ch files (to_fs w).

Lemma to_of_fs (s : fs H) : to_fs (of_fs s) = s.
Proof. by destruct s. Qed.
Lemma of_to_fs (w : H * fsrest) : of_fs (to_fs w) = w.
Proof. by destruct w as [? []]. Qed.

Lemma on_fs_wp {A} (m : M (fs H) A) (Q : A → fs H → Prop) (P : A → H * fsrest → Prop) w :
  wp m Q (to_fs w) → (∀ a s, Q a s → P a (of_fs s)) → wp (on_fs m) P w.
Proof. unfold wp, on_fs. destruct (m (to_fs w)) as [[a s]|]; auto. Qed.

Lemma vfs_inv_intro runs blocks files ch s : open_inv R runs blocks ch files s → vfs_inv runs blocks files (of_fs s).
Proof. intros I. exists ch. by rewrite to_of_fs. Qed.

(** An operation that leaves the state as it is. *)
Lemma on_fs_same {A} (m : M (fs H) A) runs blocks files w :
  vfs_inv runs blocks files w → wp m (λ _ s', s' = to_fs w) (to_fs w) → wp (on_fs m) (λ _ w', vfs_inv runs blocks files w') w.
Proof. intros I W. eapply on_fs_wp; [exact W|]. intros a s ->. by rewrite of_to_fs. Qed.

Lemma vfs_frame runs blocks files h f :
  vfs_inv runs blocks files (h, f) → ∃ rs bs, km_inv h (rs ++ runs) (bs ++ blocks) ∧
    ∀ h' runs' blocks', km_inv h' (rs ++ runs') (bs ++ blocks') → same_bytes h h' bs → vfs_inv runs' blocks' files (h', f).
Proof.
  intros [ch [[T I F O] A Mo Fs N L]]. exists [], (fs_blocks (to_fs (h, f))). split; [exact I|].
  intros h' runs' blocks' I' _. exists ch. constructor; try done. constructor; [exact T|exact I'| |exact O].
  destruct F as [F1 F2 F3]. by constructor.
Qed.

(** The node of an open file. *)
Lemma open_node_of runs blocks f files w :
  vfs_inv runs blocks (f :: files) w → f_node f ≠ 0 → ∃ ch n, open_inv R runs blocks ch (f :: files) (to_fs w) ∧
    fs_nodes (to_fs w) !! f_node f = Some n.
Proof.
  intros [ch I] Hf. pose proof (oi_files _ _ _ _ _ _ I) as F. apply list.Forall_cons in F as [[[?|[n Hn]] _] _]; [done|].
  by exists ch, n.
Qed.

Lemma file_same {A} (g : VFile → M (fs H) A) runs blocks f files w :
  (∀ s, f_node f = 0 → wp (g f) (λ _ s', s' = s) s) →
  (∀ ch n, open_inv R runs blocks ch (f :: files) (to_fs w) → fs_nodes (to_fs w) !! f_node f = Some n →
     f_node f ≠ 0 → wp (g f) (λ _ s', s' = to_fs w) (to_fs w)) →
  vfs_inv runs blocks (f :: files) w → wp (on_fs (g f)) (λ _ w', vfs_inv runs blocks (f :: files) w') w.
Proof.
  intros H1 H2 I. apply on_fs_same; [exact I|]. destruct (decide (f_node f = 0)) as [E|E]; [by apply H1|].
  destruct (open_node_of _ _ _ _ _ I E) as (ch & n & Io & Hn). by eapply H2.
Qed.

#[export] Instance vfs_laws : @VfsLaws H fsrest KM api.
Proof using HR Htab KL.
  refine (@Build_VfsLaws H fsrest KM api vfs_inv _ _ _ _ _ _ _ _ _ _ _ _ _ _ _ _ _ _ _).
  - intros rs bs fs fs' w P [ch I]. exists ch. by eapply open_inv_perm.
  - intros rs bs fs h f I. by apply vfs_frame.
  - intros rs bs fs path flags w [ch I] Hl. eapply on_fs_wp; [by eapply (vfs_open_wp node_ops file_ops R HR Htab)|].
    intros [rc f] s (ch' & Hr). cbn [fst snd] in *. destruct (rc =? 0); [|exists ch'; rewrite to_of_fs; exact Hr].
    destruct Hr as (f' & -> & Ho & I'). exists f'. split; [done|]. split; [exact Ho|]. exists ch'. rewrite to_of_fs. exact I'.
  - intros rs bs fs f w [ch I]. eapply on_fs_wp; [by eapply (vfs_close_open node_ops file_ops R HR Htab)|].
    intros a s (ch' & I'). exists ch'. rewrite to_of_fs. exact I'.
  - intros rs bs fs f n w [ch I] Hn. eapply on_fs_wp; [by eapply (vfs_read_open node_ops file_ops R HR Htab)|].
    intros a s I'. exists ch. rewrite to_of_fs. exact I'.
  - intros rs bs fs f buf w [ch I] Hn. eapply on_fs_wp; [by eapply (vfs_write_open node_ops file_ops R HR Htab)|].
    intros a s I'. exists ch. rewrite to_of_fs. exact I'.
  - intros rs bs fs f req arg w [ch I]. eapply on_fs_wp with (Q := λ r s, open_inv R rs bs ch (r.2 :: fs) s).
    + pose proof (oi_files _ _ _ _ _ _ I) as F. apply list.Forall_cons in F as [[[E|[n Hn]] _] _]; unfold vfs_ioctl.
      * rewrite E. cbn [Z.eqb]. by wp_steps.
      * destruct (f_node f =? 0); [by wp_steps|]. wp_steps. eapply wp_vnode; [exact Hn|]. wp_steps.
        eapply file_field_wp; [exact I|exact Hn|]. by wp_steps.
    + intros a s I'. exists ch. rewrite to_of_fs. exact I'.
  - intros rs bs fs f off wh w [ch I]. eapply on_fs_wp; [by eapply vfs_lseek_open|].
    intros a s I'. exists ch. rewrite to_of_fs. exact I'.
  - intros rs bs fs f w I. apply (file_same (vfs_poll file_ops)); [| |exact I]; unfold vfs_poll.
    + intros s ->. cbn [Z.eqb]. by wp_steps.
    + intros ch n Io Hn E. destruct (Z.eqb_spec (f_node f) 0); [done|]. wp_steps. eapply wp_vnode; [exact Hn|]. wp_steps.
      eapply file_field_wp; [exact Io|exact Hn|]. by wp_steps.
  - intros rs bs fs f w I. apply (file_same vfs_fstat); [| |exact I]; unfold vfs_fstat.
    + intros s ->. cbn [Z.eqb]. by wp_steps.
    + intros ch n Io Hn E. destruct (Z.eqb_spec (f_node f) 0); [done|]. wp_steps. eapply wp_vnode; [exact Hn|]. by wp_steps.
  - intros rs bs fs f w I E. destruct (open_node_of _ _ _ _ _ I E) as (ch & n & Io & Hn).
    apply on_fs_same; [exact I|]. by eapply wp_vnode.
  - intros rs bs fs f i w I E. destruct (open_node_of _ _ _ _ _ I E) as (ch & n & Io & Hn).
    apply on_fs_same; [exact I|]. by eapply (vfs_readdir_open node_ops R HR Htab).
  - intros rs bs fs f name w I E. destruct (open_node_of _ _ _ _ _ I E) as (ch & n & Io & Hn).
    eapply on_fs_wp; [by eapply (step_down_open node_ops R HR Htab)|]. intros c s [-> Hc]. rewrite of_to_fs. split; [exact I|].
    intros Hc0. destruct (Hc Hc0) as [nc Hnc]. apply on_fs_same; [exact I|]. by eapply wp_vnode.
  - intros rs bs fs f off w [ch I]. exists ch. eapply open_inv_file; [exact I|done|apply u64_range].
  - intros rs bs fs path w [ch I]. eapply on_fs_wp; [by eapply (vfs_mkdir_open node_ops file_ops R HR Htab)|].
    intros a s (ch' & I'). exists ch'. rewrite to_of_fs. exact I'.
  - intros rs bs fs path w I. apply on_fs_same; [exact I|]. destruct I as [ch I]. by eapply (vfs_stat_open node_ops R HR Htab).
  - intros rs bs fs path w I. apply on_fs_same; [exact I|]. destruct I as [ch I].
    eapply wp_mono; [by eapply (vfs_resolve_linked node_ops R HR Htab)|]. by intros p s [-> _].
  - intros rs bs fs path w [ch I]. eapply on_fs_wp; [by eapply (vfs_unlink_open node_ops file_ops R HR Htab)|].
    intros a s (ch' & I'). exists ch'. rewrite to_of_fs. exact I'.
  - intros rs bs fs from to w [ch I]. eapply on_fs_wp; [by eapply (vfs_rename_open node_ops file_ops R HR Htab)|].
    intros a s (ch' & I'). exists ch'. rewrite to_of_fs. exact I'.
Defined.
End Laws.
