(* ===== verification/FdTable.v ===== *)
(** * What the descriptor table guarantees its users

    Against [VfsLaws], what the calls of FsKcalls.v rely on in the file systems, every call runs to its
    end and keeps the table, the standard descriptors and the open files consistent; a
    task that ends leaves no descriptor open. *)
From S2P Require Import Prelude RawMem Pmm Heap VfsTypes Ramfs Vfs Task TaskRing Sched SchedOps FsKcalls VfsInst.
Local Open Scope kernel_scope.

(** ** The open files of a table *)
Definition files_of (x : FdSlot) : list VFile := if fd_used x then [fd_file x] else [].
Definition open_files (l : list FdSlot) : list VFile := l ≫= files_of.

Lemma open_files_insert i x y l :
  l !! i = Some x → files_of y ++ open_files l ≡ₚ files_of x ++ open_files (<[i := y]> l).
Proof.
  intros Hx. pose proof (lookup_lt_Some _ _ _ Hx) as Hl.
  rewrite (insert_take_drop l i y) by done. rewrite <- (take_drop_middle l i x Hx) at 1.
  unfold open_files. rewrite !bind_app, !bind_cons. rewrite !app_assoc. f_equiv.
  rewrite (Permutation_app_comm (files_of y)), <- !app_assoc.
  rewrite (Permutation_app_comm (files_of x) (_ ++ _)), <- app_assoc. f_equiv.
Qed.

Lemma open_files_length l : (length (open_files l) <= length l)%nat.
Proof.
  induction l as [|x l IH]; [done|]. unfold open_files in *. rewrite bind_cons, length_app. cbn [length].
  unfold files_of at 1. destruct (fd_used x); simpl; lia.
Qed.

Section FdTable.
Context {H : Type} `{KM : KernelMem H} {KL : KernelMemLaws H} `{TS : TaskServices H} {TL : TaskServicesLaws H}.
Context {F : Type} `{VA : VfsApi (H * F)} {VL : VfsLaws H F}.
Local Abbreviation fdst := (FsKcalls.fdst (H := H) (F := F)).
Implicit Types s : fdst.
(** The memory that is not the file systems' own. *)
Context (R B : list (Z * Z)).

(** A standard descriptor of a task: none, or a descriptor that is open. *)
Definition std_ok (l : list FdSlot) (v : Z) : Prop := v = -1 ∨ (3 <= v ∧ ∃ x, l !!z v = Some x ∧ fd_used x = true).

(** The tasks are as Sched.v has them, the table has its size and the console's three
    descriptors, the open files are those of the table, the standard descriptors of all
    tasks are descriptors in use. *)
Record fd_inv (l r : list Z) (s : fdst) : Prop := {
  fi_sched : sched_inv l r 0 (fd_sched s);
  fi_len : length (fd_table s) = FD_MAX;
  fi_console : ∀ i, 0 <= i < 3 → ∃ x, fd_table s !!z i = Some x ∧ fd_used x = true;
  fi_files : vl_inv R B (open_files (fd_table s)) (vfs_state s);
  fi_stdio : ∀ p t, k_tasks (fd_sched s) !! p = Some t →
    length (t_stdio t) = 3%nat ∧ Forall (std_ok (fd_table s)) (t_stdio t)
}.

(** ** Lemmas: the state *)
Lemma wp_on_tasks {A} (m : M (Task.sched H) A) (Q : A → fdst → Prop) s :
  wp m (λ a x, Q a (Fdst (fd_table s) x (fd_vfs s))) (fd_sched s) → wp (on_tasks m) Q s.
Proof. intros W. unfold on_tasks. by apply wp_zoom. Qed.

Lemma wp_on_vfs {A} (m : M (H * F) A) (Q : A → fdst → Prop) s :
  wp m (λ a w, Q a (set_vfs_state w s)) (vfs_state s) → wp (on_vfs m) Q s.
Proof. intros W. unfold on_vfs. by apply wp_zoom. Qed.

Lemma wp_slot i x (Q : FdSlot → fdst → Prop) s : fd_table s !!z i = Some x → Q x s → wp (slot i) Q s.
Proof. intros Hx HQ. unfold slot. wp_steps. by apply (wp_lift _ _ _ x). Qed.

Lemma wp_set_slot i x y (Q : unit → fdst → Prop) s :
  fd_table s !!z i = Some x → Q tt (set_fd_table (<[Z.to_nat i := y]> (fd_table s)) s) → wp (set_slot i y) Q s.
Proof.
  intros Hx HQ. unfold set_slot. wp_steps. eapply wp_lift; [apply updateZ_is_Some; by eapply lookupZ_Some_lt|].
  by wp_steps.
Qed.

Lemma wp_set_slot_file i x f (Q : unit → fdst → Prop) s :
  fd_table s !!z i = Some x →
  Q tt (set_fd_table (<[Z.to_nat i := MkFdSlot f (fd_used x) (fd_owner x)]> (fd_table s)) s) →
  wp (set_slot_file i f) Q s.
Proof.
  intros Hx HQ. unfold set_slot_file. wp_steps. eapply wp_slot; [exact Hx|]. by eapply wp_set_slot.
Qed.

(** Only the memory and the open files have changed. *)
Lemma fd_inv_vfs l r fs' w s :
  fd_inv l r s → open_files (fd_table s) ≡ₚ fs' → vl_inv R B fs' w → fd_inv l r (set_vfs_state w s).
Proof.
  intros [I L C V S] P IV. constructor; try done; [by apply sched_inv_mem|].
  cbn. eapply vl_perm; [symmetry; exact P|]. by destruct w.
Qed.

(** The file of an open descriptor comes first. *)
Lemma open_files_at l i x :
  l !!z i = Some x → fd_used x = true → ∃ fs, open_files l ≡ₚ fd_file x :: fs ∧
    ∀ f, open_files (<[Z.to_nat i := MkFdSlot f true (fd_owner x)]> l) ≡ₚ f :: fs.
Proof.
  intros Hx U. pose proof (lookupZ_Some_lt _ _ _ Hx) as Hi. unfold lookupZ in Hx. case_match; [done|].
  exists (open_files (<[Z.to_nat i := zero_slot]> l)).
  assert (P := open_files_insert (Z.to_nat i) x zero_slot l Hx). unfold files_of in P at 1 2. rewrite U in P. simpl in P.
  split; [exact P|]. intros f. assert (Q := open_files_insert (Z.to_nat i) x (MkFdSlot f true (fd_owner x)) l Hx).
  unfold files_of in Q at 1 2. rewrite U in Q. simpl in Q. rewrite P in Q. rewrite Permutation_swap in Q.
  by apply Permutation_cons_inv in Q.
Qed.
(** ** Lemmas: changes that keep the invariant *)
Lemma std_ok_insert table i y v :
  0 <= i → fd_used y = true ∨ v ≠ i → std_ok table v → std_ok (<[Z.to_nat i := y]> table) v.
Proof.
  intros Hi Hy [->|(Hv & x & Hx & U)]; [by left|]. right. split; [done|]. destruct (decide (v = i)) as [->|Hne].
  - exists y. split; [|by destruct Hy]. apply lookupZ_insert_eq. by eapply lookupZ_Some_lt.
  - exists x. by rewrite lookupZ_insert_ne.
Qed.

(** A slot changes with the file systems: it stays in use, or no task has it as a
    standard descriptor. *)
Lemma fd_inv_slot l r i x y w s :
  fd_inv l r s → fd_table s !!z i = Some x →
  fd_used y = true ∨ (3 <= i ∧ ∀ p t, k_tasks (fd_sched s) !! p = Some t → i ∉ t_stdio t) →
  vl_inv R B (open_files (<[Z.to_nat i := y]> (fd_table s))) w →
  fd_inv l r (set_fd_table (<[Z.to_nat i := y]> (fd_table s)) (set_vfs_state w s)).
Proof.
  intros [I L C V S] Hx Hy IV. pose proof (lookupZ_Some_lt _ _ _ Hx) as Hi. constructor; cbn [fd_table fd_sched set_fd_table set_vfs_state].
  - by apply sched_inv_mem.
  - by rewrite length_insert.
  - intros j Hj. destruct (decide (j = i)) as [->|].
    + exists y. split; [by apply lookupZ_insert_eq|]. destruct Hy as [|[]]; [done|lia].
    + rewrite lookupZ_insert_ne by lia. by apply C.
  - by destruct w.
  - intros p t Ht. destruct (S p t Ht) as [L3 SO]. split; [done|]. apply list.Forall_forall. intros v Hv.
    apply std_ok_insert; [lia| |by eapply list.Forall_forall in SO].
    destruct Hy as [|[_ Hn]]; [by left|]. right. intros ->. by apply (Hn p t Ht).
Qed.

(** An operation on the file of a slot. *)
Lemma file_io_wp {A} l r fd x (m : M (H * F) A) (file : A → VFile) s :
  fd_inv l r s → fd_table s !!z fd = Some x → fd_used x = true →
  (∀ fs w, vl_inv R B (fd_file x :: fs) w → wp m (λ a w', vl_inv R B (file a :: fs) w') w) →
  wp (on_vfs m) (λ a s', wp (set_slot_file fd (file a))
    (λ _ s'', fd_inv l r s'' ∧ cpus (fd_sched s'') = cpus (fd_sched s)) s') s.
Proof.
  intros I Hx U Hm. destruct (open_files_at _ _ _ Hx U) as (fs & P & P'). pose proof (fi_files _ _ _ I) as V.
  apply wp_on_vfs. eapply wp_mono; [eapply Hm, vl_perm; [exact P|exact V]|]. intros a w V'.
  eapply wp_set_slot_file; [exact Hx|]. split; [|done].
  refine (fd_inv_slot l r fd x (MkFdSlot (file a) (fd_used x) (fd_owner x)) w s I Hx (or_introl U) _).
  eapply vl_perm; [|exact V']. rewrite U. symmetry. apply P'.
Qed.

(** An operation that only looks at it. *)
Lemma file_look_wp {A} l r fd x (m : M (H * F) A) (Q : A → fdst → Prop) s :
  fd_inv l r s → fd_table s !!z fd = Some x → fd_used x = true →
  (∀ fs w, vl_inv R B (fd_file x :: fs) w → wp m (λ _ w', vl_inv R B (fd_file x :: fs) w') w) →
  (∀ a w, fd_inv l r (set_vfs_state w s) → Q a (set_vfs_state w s)) → wp (on_vfs m) Q s.
Proof.
  intros I Hx U Hm HQ. destruct (open_files_at _ _ _ Hx U) as (fs & P & P'). pose proof (fi_files _ _ _ I) as V.
  apply wp_on_vfs. eapply wp_mono; [eapply Hm, vl_perm; [exact P|exact V]|]. intros a w V'. apply HQ.
  by apply (fd_inv_vfs l r (fd_file x :: fs)).
Qed.

(** An operation on the file systems alone. *)
Lemma vfs_op_wp {A} l r (m : M (H * F) A) (Q : A → fdst → Prop) s :
  fd_inv l r s → (∀ fs w, vl_inv R B fs w → wp m (λ _ w', vl_inv R B fs w') w) →
  (∀ a w, fd_inv l r (set_vfs_state w s) → Q a (set_vfs_state w s)) → wp (on_vfs m) Q s.
Proof.
  intros I Hm HQ. apply wp_on_vfs. eapply wp_mono; [apply Hm, (fi_files _ _ _ I)|]. intros a w V'. apply HQ.
  by apply (fd_inv_vfs l r (open_files (fd_table s))).
Qed.

Lemma fd_valid_wp fd (Q : bool → fdst → Prop) s :
  length (fd_table s) = FD_MAX →
  (∀ x, fd_table s !!z fd = Some x → fd_used x = true → Q true s) → Q false s → wp (fd_valid fd) Q s.
Proof.
  intros L HT HF. unfold fd_valid. destruct (Z.leb_spec 0 fd), (Z.ltb_spec fd (Z.of_nat FD_MAX)); cbn [andb]; try by wp_steps.
  destruct (lookupZ_lt_is_Some (fd_table s) fd) as [x Hx]; [rewrite L; lia|]. wp_steps. eapply wp_slot; [exact Hx|].
  wp_steps. destruct (fd_used x) eqn:U; [by eapply HT|done].
Qed.

(** The current task of a CPU, and its standard descriptors. *)
Lemma fd_current l r c cpu s :
  fd_inv l r s → cpus (fd_sched s) !! c = Some cpu →
  ∃ t, k_tasks (fd_sched s) !! c_current cpu = Some t ∧ c_current cpu ≠ 0 ∧ length (t_stdio t) = 3%nat.
Proof.
  intros I Hc. destruct (current_task _ _ _ _ _ _ (fi_sched _ _ _ I) Hc) as (t & Ht & Hn). exists t.
  split_and!; [done|done|]. by destruct (fi_stdio _ _ _ I _ _ Ht).
Qed.

Lemma fd_resolve_wp l r c cpu fd (Q : Z → fdst → Prop) s :
  fd_inv l r s → cpus (fd_sched s) !! c = Some cpu → (∀ fd', Q fd' s) → wp (fd_resolve c fd) Q s.
Proof.
  intros I Hc HQ. unfold fd_resolve. destruct (Z.leb_spec 0 fd), (Z.ltb_spec fd 3); cbn [andb]; try by wp_steps.
  destruct (fd_current _ _ _ _ _ I Hc) as (t & Ht & Hn & L3). wp_steps. apply wp_on_tasks. eapply wp_task_current; [exact Hc|].
  destruct (Z.eqb_spec (c_current cpu) 0); [done|]. wp_steps. apply wp_on_tasks. eapply wp_task; [exact Ht|].
  destruct (lookupZ_lt_is_Some (t_stdio t) fd) as [v Hv]; [lia|]. wp_steps. eapply wp_lift; [exact Hv|].
  destruct (0 <=? v); [|by wp_steps; destruct s]. wp_steps. apply fd_valid_wp; [apply (fi_len _ _ _ I)| |]; intros; wp_steps; by destruct s.
Qed.

(** A standard descriptor of the current task is set. *)
Lemma set_stdio_at_wp l r p t k v s :
  fd_inv l r s → k_tasks (fd_sched s) !! p = Some t → 0 <= k < 3 → std_ok (fd_table s) v →
  wp (set_stdio_at p k v) (λ _ s', fd_inv l r s' ∧ cpus (fd_sched s') = cpus (fd_sched s) ∧
    is_Some (k_tasks (fd_sched s') !! p)) s.
Proof.
  intros [I L C V S] Ht Hk Hv. destruct (S p t Ht) as [L3 SO]. unfold set_stdio_at. wp_steps. apply wp_on_tasks.
  eapply wp_task; [exact Ht|]. wp_steps. eapply wp_lift; [apply updateZ_is_Some; rewrite L3; lia|]. apply wp_on_tasks.
  eapply wp_task_upd; [exact Ht|]. split_and!; [|done|cbn; rewrite lookup_insert_eq; by eexists].
  constructor; cbn [fd_table fd_sched]; [|done|done|done|].
  - by eapply sched_inv_upd.
  - intros q u. cbn [k_tasks set_tasks]. destruct (decide (q = p)) as [->|].
    + rewrite lookup_insert_eq. intros [= <-]. cbn [t_stdio set_stdio]. split; [by rewrite length_insert|].
      by apply Forall_insert.
    + rewrite lookup_insert_ne by done. apply S.
Qed.

(** A descriptor is forgotten by every task. *)
Definition forget_state (fd : Z) (s : fdst) : fdst :=
  Fdst (fd_table s) (set_tasks (forget_fds [fd] (k_tasks (fd_sched s))) (fd_sched s)) (fd_vfs s).

Lemma forget_lookup fd m p t :
  forget_fds [fd] m !! p = Some t → ∃ u, m !! p = Some u ∧ t = forget_task [fd] u.
Proof. unfold forget_fds. rewrite lookup_fmap. destruct (m !! p) as [u|]; [|done]. intros [= <-]. by exists u. Qed.

Lemma fd_inv_forget l r fd s :
  fd_inv l r s → 3 <= fd →
  fd_inv l r (forget_state fd s) ∧ ∀ p t, k_tasks (fd_sched (forget_state fd s)) !! p = Some t → fd ∉ t_stdio t.
Proof.
  intros [I L C V S] Hfd. split; [constructor; cbn [fd_table fd_sched forget_state]; [by apply sched_inv_forget|done|done|by destruct s|]|].
  - intros p t (u & Hu & ->)%forget_lookup. destruct (S p u Hu) as [L3 SO].
    cbn [forget_task t_stdio set_stdio]. split; [by rewrite length_map|]. apply list.Forall_forall. intros v Hv.
    apply list_elem_of_fmap in Hv as (w & -> & Hw). destruct decide; [by left|]. by eapply list.Forall_forall in SO.
  - intros p t (u & Hu & ->)%forget_lookup. cbn [forget_task t_stdio set_stdio]. intros Hv.
    apply list_elem_of_fmap in Hv as (w & Ew & Hw). destruct decide; [lia|set_solver].
Qed.

(** Closing the file of a slot and giving the slot back. *)
Lemma close_slot_wp l r i x s (Q : Z → unit → fdst → Prop) :
  fd_inv l r s → fd_table s !!z i = Some x → fd_used x = true → 3 <= i →
  (∀ rc h f, let s' := Fdst (<[Z.to_nat i := zero_slot]> (fd_table s))
                (set_tasks (forget_fds [i] (k_tasks (fd_sched s))) (set_k_mem h (fd_sched s))) f in
     fd_inv l r s' → Q rc tt s') →
  wp (on_vfs (va_close (fd_file x))) (λ a s1, wp (set_slot_file i a.2) (λ _ s2, wp (fd_release i) (Q a.1) s2) s1) s.
Proof.
  intros I Hx U Hi HQ. pose proof (lookupZ_Some_lt _ _ _ Hx) as Hl. destruct (open_files_at _ _ _ Hx U) as (fs & P & P').
  apply wp_on_vfs. eapply wp_mono; [eapply vl_close, vl_perm; [exact P|exact (fi_files _ _ _ I)]|]. intros [rc f'] w V'.
  apply (wp_set_slot_file i x); [exact Hx|]. unfold fd_release. wp_steps. apply wp_on_tasks.
  eapply task_forget_fd_wp; [exact (sched_inv_mem _ _ _ _ _ (fi_sched _ _ _ I))|].
  eapply wp_set_slot; [cbn; by apply lookupZ_insert_eq|]. cbn [fd_table fd_sched fd_vfs set_fd_table set_vfs_state].
  rewrite list_insert_insert_eq. apply (HQ rc w.1 w.2). destruct (fd_inv_forget l r i s I Hi) as [I' N].
  apply (fd_inv_slot l r i x zero_slot w (forget_state i s) I' Hx (or_intror (conj Hi N))).
  eapply vl_perm; [|exact V']. apply (Permutation_cons_inv (a := fd_file x)). rewrite <- P.
  pose proof Hx as Hx'. unfold lookupZ in Hx'. case_match; [done|].
  pose proof (open_files_insert _ _ zero_slot _ Hx') as E. unfold files_of in E at 1 2. by rewrite U in E.
Qed.

(** ** Lemmas: the calls *)
Definition keeps (l r : list Z) (s s' : fdst) : Prop := fd_inv l r s' ∧ cpus (fd_sched s') = cpus (fd_sched s).

Lemma fs_sys_dup2_wp l r c cpu fd target s :
  fd_inv l r s → cpus (fd_sched s) !! c = Some cpu → wp (fs_sys_dup2 c fd target) (λ _ s', keeps l r s s') s.
Proof.
  intros I Hc. unfold fs_sys_dup2. destruct (Z.ltb_spec target 0), (Z.ltb_spec 2 target); cbn [orb]; try by wp_steps.
  destruct (fd_current _ _ _ _ _ I Hc) as (t & Ht & Hn & L3). wp_steps. apply wp_on_tasks. eapply wp_task_current; [exact Hc|].
  destruct (Z.eqb_spec (c_current cpu) 0); [done|]. replace (Fdst (fd_table s) (fd_sched s) (fd_vfs s)) with s by by destruct s.
  destruct (Z.ltb_spec fd 0).
  - wp_steps. eapply wp_mono; [eapply (set_stdio_at_wp l r); [done|exact Ht|lia|by left]|]. intros [] s1 (I1 & E1 & [t1 Ht1]).
    wp_steps. destruct (target =? 0); wp_steps; [|done]. apply wp_on_tasks. eapply wp_task_upd; [exact Ht1|]. wp_steps.
    split; [|done]. destruct I1 as [I1 L1 C1 V1 S1]. constructor; cbn [fd_table fd_sched]; [by eapply sched_inv_upd|done..|].
    intros q u. cbn [k_tasks set_tasks]. destruct (decide (q = c_current cpu)) as [->|].
    + rewrite lookup_insert_eq. intros [= <-]. exact (S1 _ _ Ht1).
    + rewrite lookup_insert_ne by done. apply S1.
  - wp_steps. eapply fd_resolve_wp; [exact I|exact Hc|]. intros fd'. wp_steps.
    apply fd_valid_wp; [exact (fi_len _ _ _ I)| |by wp_steps]. intros x Hx U. cbn [negb orb].
    destruct (Z.ltb_spec fd' 3); [by wp_steps|]. wp_steps.
    eapply wp_mono; [eapply (set_stdio_at_wp l r); [done|exact Ht|lia|right; eauto]|]. intros [] s1 (I1 & E1 & _). by wp_steps.
Qed.

(** The slot [fd_alloc] finds. *)
Lemma free_slot l r i x s :
  fd_inv l r s → list_find (λ x, fd_used x = false) (fd_table s) = Some (i, x) →
  fd_table s !! i = Some x ∧ fd_table s !!z Z.of_nat i = Some x ∧ fd_used x = false ∧ 3 <= Z.of_nat i ∧
  (∀ p t, k_tasks (fd_sched s) !! p = Some t → Z.of_nat i ∉ t_stdio t) ∧
  (length (open_files (fd_table s)) < FD_MAX)%nat.
Proof.
  intros I (Hx & U & _)%list_find_Some. pose proof (lookup_lt_Some _ _ _ Hx) as Hl.
  assert (Hz : fd_table s !!z Z.of_nat i = Some x).
  { unfold lookupZ. destruct (Z.ltb_spec (Z.of_nat i) 0); [lia|]. by rewrite Nat2Z.id. }
  split_and!; [done|done|done| | |].
  - destruct (Z.leb_spec 3 (Z.of_nat i)); [done|]. destruct (fi_console _ _ _ I (Z.of_nat i)) as (y & Hy & Uy); [lia|]. congruence.
  - intros p t Ht Hin. destruct (fi_stdio _ _ _ I p t Ht) as [_ SO].
    destruct (proj1 (list.Forall_forall _ _) SO _ Hin) as [?|(_ & y & Hy & Uy)]; [lia|congruence].
  - rewrite <- (fi_len _ _ _ I), <- (take_drop_middle _ _ _ Hx). unfold open_files. rewrite bind_app, bind_cons, !length_app.
    unfold files_of at 2. rewrite U. cbn [length]. pose proof (open_files_length (take i (fd_table s))).
    pose proof (open_files_length (drop (Datatypes.S i) (fd_table s))). unfold open_files in *. lia.
Qed.

Lemma fs_sys_open_wp l r c cpu path flags s :
  fd_inv l r s → cpus (fd_sched s) !! c = Some cpu → wp (fs_sys_open c path flags) (λ _ s', keeps l r s s') s.
Proof.
  intros I Hc. unfold fs_sys_open. destruct path as [path|]; [|by wp_steps]. unfold fd_alloc. wp_steps.
  destruct (list_find _ _) as [[i x]|] eqn:Ef; [|by wp_steps].
  destruct (free_slot _ _ _ _ _ I Ef) as (Hx & Hz & U & Hi3 & Nstd & Hlen). pose proof (lookup_lt_Some _ _ _ Hx) as Hl.
  destruct (fd_current _ _ _ _ _ I Hc) as (t & Ht & Hn & L3). wp_steps. apply wp_on_tasks. eapply wp_task_current; [exact Hc|].
  wp_steps. eapply wp_set_slot; [exact Hz|]. wp_steps. destruct (Z.eqb_spec (Z.of_nat i) FD_INVALID); [unfold FD_INVALID in *; lia|].
  cbn [fd_table fd_sched fd_vfs set_fd_table]. wp_steps. apply wp_on_vfs.
  eapply wp_mono; [apply (vl_open R B (open_files (fd_table s))); [exact (fi_files _ _ _ I)|exact Hlen]|].
  intros [rc f] w. cbn [fst snd]. intros Hr.
  assert (Final : ∀ y, fd_used y = true → vl_inv R B (files_of y ++ open_files (fd_table s)) w →
    keeps l r s (set_fd_table (<[Z.to_nat (Z.of_nat i) := y]> (fd_table s)) (set_vfs_state w s))).
  { intros y Uy IV. split; [|done]. refine (fd_inv_slot l r _ x y w s I Hz (or_introl Uy) _). eapply vl_perm; [|exact IV].
    rewrite Nat2Z.id. rewrite (open_files_insert i x y _ Hx). unfold files_of. by rewrite U. }
  set (y0 := MkFdSlot (fd_file x) true (c_current cpu)).
  assert (Slot0 : ∀ s', fd_table s' = <[Z.to_nat (Z.of_nat i) := y0]> (fd_table s) → fd_table s' !!z Z.of_nat i = Some y0).
  { intros s' ->. apply lookupZ_insert_eq. lia. }
  (* the file, when there is one, is put in the slot *)
  assert (Put : ∀ Q : unit → fdst → Prop,
    (∀ y, fd_used y = true → (∀ f', f = Some f' → fd_file y = f') →
       Q tt (set_fd_table (<[Z.to_nat (Z.of_nat i) := y]> (fd_table s)) (set_vfs_state w s))) →
    wp (match f with Some f' => set_slot_file (Z.of_nat i) f' | None => mret tt end) Q
       (set_vfs_state w (set_fd_table (<[Z.to_nat (Z.of_nat i) := y0]> (fd_table s)) (Fdst (fd_table s) (fd_sched s) (fd_vfs s))))).
  { intros Q HQ. destruct f as [f'|].
    - eapply wp_set_slot_file; [by apply Slot0|]. cbn [fd_table set_vfs_state set_fd_table]. rewrite list_insert_insert_eq.
      by apply (HQ (MkFdSlot f' true (c_current cpu))); [|intros ? [= <-]].
    - wp_steps. by apply (HQ y0). }
  wp_steps. apply Put. intros y Uy Fy. destruct (Z.eqb_spec rc 0) as [->|Hrc].
  - destruct Hr as (f' & -> & _ & IV). cbn [negb]. wp_steps. apply Final; [done|]. unfold files_of. rewrite Uy. by rewrite (Fy f' eq_refl).
  - cbn [negb]. unfold fd_release. wp_steps. apply wp_on_tasks.
    eapply task_forget_fd_wp; [exact (sched_inv_mem _ _ _ _ _ (fi_sched _ _ _ I))|]. wp_steps.
    eapply wp_set_slot; [cbn; apply lookupZ_insert_eq; lia|]. wp_steps. cbn [fd_table fd_sched fd_vfs set_fd_table set_vfs_state].
    rewrite list_insert_insert_eq. split; [|done]. destruct (fd_inv_forget l r (Z.of_nat i) s I Hi3) as [I' N].
    apply (fd_inv_slot l r _ x zero_slot w (forget_state (Z.of_nat i) s) I' Hz (or_intror (conj Hi3 N))).
    eapply vl_perm; [|exact Hr]. pose proof (open_files_insert i x zero_slot _ Hx) as E. unfold files_of in E at 1 2. rewrite U in E.
    by rewrite Nat2Z.id.
Qed.

Lemma fs_sys_close_wp l r c cpu fd s :
  fd_inv l r s → cpus (fd_sched s) !! c = Some cpu → wp (fs_sys_close c fd) (λ _ s', keeps l r s s') s.
Proof.
  intros I Hc. unfold fs_sys_close. destruct (Z.ltb_spec fd 3).
  - destruct (fd_current _ _ _ _ _ I Hc) as (t & Ht & Hn & L3). wp_steps. apply wp_on_tasks. eapply wp_task_current; [exact Hc|].
    destruct (Z.eqb_spec (c_current cpu) 0); [done|]. replace (Fdst (fd_table s) (fd_sched s) (fd_vfs s)) with s by by destruct s.
    destruct (Z.leb_spec 0 fd); cbn [negb andb]; wp_steps; [|done].
    eapply wp_mono; [eapply (set_stdio_at_wp l r); [done|exact Ht|lia|by left]|]. intros [] s1 (I1 & E1 & _). by wp_steps.
  - wp_steps. apply fd_valid_wp; [exact (fi_len _ _ _ I)| |by wp_steps]. intros x Hx U. cbn [negb]. wp_steps.
    eapply wp_slot; [exact Hx|]. wp_steps. eapply wp_mono; [eapply (close_slot_wp l r fd x s (λ _ _ s', keeps l r s s')); [done|done|done|done|]|].
    { intros rc h f s' I'. done. }
    intros a s1 W. wp_steps. eapply wp_mono; [exact W|]. intros [] s2 W2. wp_steps. eapply wp_mono; [exact W2|]. intros [] s3 K. by wp_steps.
Qed.

(** A write stays below 2^63: beyond it the growth of a file would not end. *)
Definition write_fits (l : list FdSlot) (buf : option (list Z)) : Prop :=
  ∀ i x bs, l !!z i = Some x → fd_used x = true → buf = Some bs → f_offset (fd_file x) + Z.of_nat (length bs) < 2 ^ 63.

(** The calls on an open file, all of one shape. *)
Ltac on_file I Hc :=
  wp_steps; eapply fd_resolve_wp; [exact I|exact Hc|]; intros ?; wp_steps;
  apply fd_valid_wp; [exact (fi_len _ _ _ I)|intros ? ? ?|by wp_steps].

Lemma fs_sys_read_wp l r c cpu fd buf n s :
  fd_inv l r s → 0 <= n → cpus (fd_sched s) !! c = Some cpu → wp (fs_sys_read c fd buf n) (λ _ s', keeps l r s s') s.
Proof.
  intros I Hn Hc. unfold fs_sys_read. on_file I Hc. destruct buf; cbn [negb orb]; [|by wp_steps].
  wp_steps. eapply wp_slot; [done|]. wp_steps.
  eapply wp_mono; [eapply (file_io_wp l r _ _ _ (λ r, r.2)); [done..|intros ? ? ?; by apply vl_read]|]. intros [[k bs] f] s1 W. wp_steps.
  eapply wp_mono; [exact W|]. intros [] s2 K. by wp_steps.
Qed.

Lemma fs_sys_write_wp l r c cpu fd buf s :
  fd_inv l r s → write_fits (fd_table s) buf → cpus (fd_sched s) !! c = Some cpu → wp (fs_sys_write c fd buf) (λ _ s', keeps l r s s') s.
Proof.
  intros I Hfit Hc. unfold fs_sys_write. wp_steps. eapply fd_resolve_wp; [exact I|exact Hc|]. intros fd'. wp_steps.
  apply fd_valid_wp; [exact (fi_len _ _ _ I)| |by destruct buf; wp_steps]. intros x Hx U. destruct buf as [bs|]; cbn [negb]; [|by wp_steps].
  destruct (_ || _); [by wp_steps|]. wp_steps. eapply wp_slot; [exact Hx|]. wp_steps.
  eapply wp_mono; [eapply (file_io_wp l r _ _ _ (λ r, r.2)); [done..|intros ? ? ?; apply vl_write; [done|by eapply Hfit]]|]. intros a s1 W. wp_steps.
  eapply wp_mono; [exact W|]. intros [] s2 K. by wp_steps.
Qed.

Lemma fs_sys_ioctl_wp l r c cpu fd req arg s :
  fd_inv l r s → cpus (fd_sched s) !! c = Some cpu → wp (fs_sys_ioctl c fd req arg) (λ _ s', keeps l r s s') s.
Proof.
  intros I Hc. unfold fs_sys_ioctl. on_file I Hc. cbn [negb]. wp_steps. eapply wp_slot; [done|]. wp_steps.
  eapply wp_mono; [eapply (file_io_wp l r _ _ _ (λ r, r.2)); [done..|intros ? ?; apply vl_ioctl]|]. intros a s1 W. wp_steps.
  eapply wp_mono; [exact W|]. intros [] s2 K. by wp_steps.
Qed.

Lemma fs_sys_lseek_wp l r fd off wh s : fd_inv l r s → wp (fs_sys_lseek fd off wh) (λ _ s', keeps l r s s') s.
Proof.
  intros I. unfold fs_sys_lseek. wp_steps. apply fd_valid_wp; [exact (fi_len _ _ _ I)|intros x Hx U|by wp_steps]. cbn [negb].
  wp_steps. eapply wp_slot; [done|]. wp_steps.
  eapply wp_mono; [eapply (file_io_wp l r _ _ _ (λ r, r.2)); [done..|intros ? ?; apply vl_lseek]|]. intros a s1 W. wp_steps.
  eapply wp_mono; [exact W|]. intros [] s2 K. by wp_steps.
Qed.

Lemma fs_sys_fstat_wp l r c cpu fd out s :
  fd_inv l r s → cpus (fd_sched s) !! c = Some cpu → wp (fs_sys_fstat c fd out) (λ _ s', keeps l r s s') s.
Proof.
  intros I Hc. unfold fs_sys_fstat. on_file I Hc. destruct out; cbn [negb orb]; [|by wp_steps]. wp_steps. eapply wp_slot; [done|].
  eapply file_look_wp; [done..|intros ? ?; apply vl_fstat|]. intros a w I1. by split.
Qed.

Lemma fs_sys_readdir_wp l r fd out s : fd_inv l r s → wp (fs_sys_readdir fd out) (λ _ s', keeps l r s s') s.
Proof.
  intros I. unfold fs_sys_readdir. wp_steps. apply fd_valid_wp; [exact (fi_len _ _ _ I)|intros x Hx U|by wp_steps].
  destruct out; cbn [negb orb]; [|by wp_steps]. wp_steps. eapply wp_slot; [done|].
  destruct (Z.eqb_spec (f_node (fd_file x)) 0); [by wp_steps|]. wp_steps.
  eapply file_look_wp; [done..|intros ? ? ?; by apply vl_node|]. intros nd w I1. destruct (negb _); [by wp_steps|]. wp_steps.
  eapply file_look_wp; [exact I1|exact Hx|exact U|intros ? ? ?; by apply vl_readdir|]. intros [rc name] w1 I2.
  destruct (negb _); [by wp_steps|]. wp_steps.
  destruct (open_files_at _ _ _ Hx U) as (fs & P & P'). apply wp_on_vfs.
  eapply wp_mono; [eapply vl_lookup; [eapply vl_perm; [exact P|exact (fi_files _ _ _ I2)]|done]|]. cbn beta. intros ch w2 [V2 Hch].
  set (s2 := set_vfs_state w2 _). assert (I3 : fd_inv l r s2) by (by apply (fd_inv_vfs l r (fd_file x :: fs))).
  assert (Last : ∀ w3, vl_inv R B (fd_file x :: fs) w3 →
    wp (set_slot_file fd (MkVFile (f_node (fd_file x)) (u64 (f_offset (fd_file x) + 1)) (f_flags (fd_file x)) (f_private (fd_file x))))
       (λ _ s', keeps l r s s') (set_vfs_state w3 s2)).
  { intros w3 V3. apply (wp_set_slot_file fd x); [exact Hx|]. split; [|done].
    refine (fd_inv_slot l r fd x (MkFdSlot _ (fd_used x) (fd_owner x)) w3 s2 I3 Hx (or_introl U) _).
    eapply vl_perm; [|apply (vl_seek R B fs (fd_file x) (f_offset (fd_file x) + 1)); exact V3]. rewrite U. symmetry. apply P'. }
  assert (E : vfs_state s2 = w2) by (by destruct w2).
  wp_steps. destruct (Z.eqb_spec ch 0).
  - wp_steps. replace s2 with (set_vfs_state w2 s2) by (by destruct w2).
    eapply wp_mono; [by apply Last|]. intros [] s3 K. by wp_steps.
  - wp_steps. apply wp_on_vfs. rewrite E. eapply wp_mono; [by apply Hch|]. cbn beta. intros m w3 V3. wp_steps.
    eapply wp_mono; [by apply Last|]. intros [] s3 K. by wp_steps.
Qed.

Lemma poll_entry_wp l r c cpu p s :
  fd_inv l r s → cpus (fd_sched s) !! c = Some cpu → wp (poll_entry c p) (λ _ s', keeps l r s s') s.
Proof.
  intros I Hc. unfold poll_entry. wp_steps. eapply fd_resolve_wp; [exact I|exact Hc|]. intros fd'. destruct (fd' <? 0); [by wp_steps|].
  wp_steps. apply fd_valid_wp; [exact (fi_len _ _ _ I)|intros x Hx U|by wp_steps]. cbn [negb]. wp_steps. eapply wp_slot; [done|].
  destruct (_ =? 0); [by wp_steps|]. wp_steps. eapply file_look_wp; [done..|intros ? ?; apply vl_poll|]. intros a w I1. by wp_steps.
Qed.

Lemma poll_scan_wp l r c cpu fds s :
  fd_inv l r s → cpus (fd_sched s) !! c = Some cpu → wp (poll_scan c fds) (λ _ s', keeps l r s s') s.
Proof.
  revert s. induction fds as [|p fds IH]; intros s I Hc; cbn [poll_scan]; [by wp_steps|]. wp_steps.
  eapply wp_mono; [by eapply poll_entry_wp|]. intros re s1 [I1 E1]. wp_steps.
  eapply wp_mono; [eapply (IH s1 I1); by rewrite E1|]. intros a s2 [I2 E2]. wp_steps. split; [done|congruence].
Qed.

Lemma fs_sys_poll_wp l r c cpu start fds ms s :
  fd_inv l r s → cpus (fd_sched s) !! c = Some cpu → wp (fs_sys_poll c start fds ms) (λ _ s', keeps l r s s') s.
Proof.
  intros I Hc. unfold fs_sys_poll. wp_steps. eapply wp_mono; [by eapply poll_scan_wp|]. intros [fds' n] s1 K.
  destruct (_ || _); [by wp_steps|]. destruct (0 <? ms); [|by wp_steps]. wp_steps. apply wp_on_tasks. unfold task_uptime_ms. wp_steps.
  replace (Fdst (fd_table s1) (fd_sched s1) (fd_vfs s1)) with s1 by by destruct s1. destruct (_ <=? _); by wp_steps.
Qed.

(** ** Lemmas: the end of a task *)

(** The descriptors task [t] has open. *)
Definition is_owned (t : Z) (l : list FdSlot) (i : Z) : bool :=
  match l !!z i with Some x => fd_used x && (fd_owner x =? t) | None => false end.
Definition owned (t : Z) (l : list FdSlot) : list Z := filter (λ i, is_owned t l i = true) (seqZ 3 (Z.of_nat (FD_MAX - 3))).

(** Those below [k]. *)
Definition owned_below (t : Z) (l : list FdSlot) (k : Z) : list Z := filter (λ i, is_owned t l i = true) (seqZ 3 (k - 3)).

Lemma owned_below_step t l k :
  3 <= k → owned_below t l (k + 1) = owned_below t l k ++ (if is_owned t l k then [k] else []).
Proof.
  intros Hk. unfold owned_below. replace (k + 1 - 3) with (k - 3 + 1) by lia. rewrite seqZ_app, list.filter_app by lia.
  replace (3 + (k - 3)) with k by lia. change (seqZ k 1) with [k]. rewrite filter_cons, filter_nil.
  by destruct (is_owned t l k); [rewrite decide_True|rewrite decide_False].
Qed.

(** What the loop of [fs_release_task] has done below [k]. *)
Definition released (l r : list Z) (t k : Z) (s s' : fdst) : Prop :=
  let os := owned_below t (fd_table s) k in
  fd_inv l r s' ∧ (∀ i, fd_table s' !!z i = if decide (i ∈ os) then Some zero_slot else fd_table s !!z i) ∧
  ∃ h, fd_sched s' = set_tasks (forget_fds os (k_tasks (fd_sched s))) (set_k_mem h (fd_sched s)).

Lemma released_step l r t k s s' :
  3 <= k < Z.of_nat FD_MAX → length (fd_table s) = FD_MAX → released l r t k s s' →
  wp (release_if_owned t k) (λ _ s'', released l r t (k + 1) s s'') s'.
Proof.
  intros Hk HL (I & Ht & h & Es). destruct (lookupZ_lt_is_Some (fd_table s) k) as [x Hx]; [lia|].
  assert (Hn : k ∉ owned_below t (fd_table s) k).
  { intros [_ Hin%elem_of_seqZ]%list_elem_of_filter. lia. }
  assert (Hx' : fd_table s' !!z k = Some x) by (rewrite Ht, decide_False by done; done).
  assert (Eo : is_owned t (fd_table s) k = fd_used x && (fd_owner x =? t)) by (unfold is_owned; by rewrite Hx).
  assert (Kept : fd_used x && (fd_owner x =? t) = false → released l r t (k + 1) s s').
  { intros E. rewrite <- Eo in E. unfold released. rewrite owned_below_step, E, app_nil_r by lia. split_and!; [done..|by exists h]. }
  unfold release_if_owned. wp_steps. eapply wp_slot; [exact Hx'|].
  destruct (fd_used x && (fd_owner x =? t)) eqn:E; [|by wp_steps; apply Kept]. apply andb_prop in E as E'. destruct E' as [U _].
  wp_steps. eapply wp_mono; [eapply (close_slot_wp l r k x s' (λ _ _ s2, released l r t (k + 1) s s2)); [exact I|exact Hx'|exact U|lia|]|].
  - intros rc h' f. cbv zeta. intros I'. unfold released. rewrite owned_below_step, Eo by lia. split_and!; [exact I'| |].
    + intros i. cbn [fd_table]. pose proof (lookupZ_Some_lt _ _ _ Hx'). destruct (decide (i = k)) as [->|].
      * rewrite lookupZ_insert_eq by done. by rewrite decide_True by set_solver.
      * rewrite lookupZ_insert_ne, Ht by lia. destruct decide, decide; set_solver.
    + exists h'. cbn [fd_sched]. rewrite Es. cbn [k_tasks set_tasks set_k_mem]. by rewrite forget_fds_app.
  - intros a s1 W. wp_steps. eapply wp_mono; [exact W|]. intros [] s2 W2. wp_steps. eapply wp_mono; [exact W2|]. by intros [] s3 K.
Qed.

Lemma fs_release_task_wp l r t s :
  fd_inv l r s → wp (fs_release_task t) (λ _ s', released l r t (Z.of_nat FD_MAX) s s') s.
Proof.
  intros I. unfold fs_release_task. pose proof (fi_len _ _ _ I) as HL.
  change (Z.of_nat FD_MAX) with (3 + Z.of_nat (FD_MAX - 3)).
  apply (wp_for_range (FD_MAX - 3) 3 (release_if_owned t) (λ k s', released l r t k s s')).
  - split_and!; [done|intros i; by rewrite decide_False by set_solver|]. exists (k_mem (fd_sched s)).
    change (owned_below t (fd_table s) 3) with (@nil Z). rewrite forget_fds_nil. by destruct (fd_sched s).
  - intros k s' Hk Hrel. apply released_step; [change (FD_MAX - 3)%nat with 1021%nat in Hk; unfold FD_MAX; lia|done|done].
Qed.

(** ** The calls together *)

(** A call with its arguments, each tried once. *)
Inductive fd_call :=
  | CDup2 (fd target : Z) | COpen (path : option str) (flags : Z) | CClose (fd : Z)
  | CRead (fd : Z) (buf : bool) (count : Z) | CWrite (fd : Z) (buf : option (list Z)) | CIoctl (fd request arg : Z)
  | CMkdir (path : option str) | CReaddir (fd : Z) (out : bool) | CStat (path : option str) (out : bool)
  | CFstat (fd : Z) (out : bool) | CLseek (fd offset whence : Z) | CUnlink (path : option str)
  | CRename (from to : option str) | CPoll (start : Z) (fds : list PollFd) (timeout_ms : Z) | CRelease (t : Z).
Definition run_call (c : nat) (k : fd_call) : M fdst unit :=
  match k with
  | CDup2 fd target => fs_sys_dup2 c fd target;; mret tt
  | COpen path flags => fs_sys_open c path flags;; mret tt
  | CClose fd => fs_sys_close c fd;; mret tt
  | CRead fd buf n => fs_sys_read c fd buf n;; mret tt
  | CWrite fd buf => fs_sys_write c fd buf;; mret tt
  | CIoctl fd req arg => fs_sys_ioctl c fd req arg;; mret tt
  | CMkdir path => fs_sys_mkdir path;; mret tt
  | CReaddir fd out => fs_sys_readdir fd out;; mret tt
  | CStat path out => fs_sys_stat path out;; mret tt
  | CFstat fd out => fs_sys_fstat c fd out;; mret tt
  | CLseek fd off wh => fs_sys_lseek fd off wh;; mret tt
  | CUnlink path => fs_sys_unlink path;; mret tt
  | CRename from to => fs_sys_rename from to;; mret tt
  | CPoll start fds ms => fs_sys_poll c start fds ms;; mret tt
  | CRelease t => fs_release_task t
  end.
(** Counts are unsigned and a write ends below 2^63. *)
Definition call_ok (k : fd_call) (s : fdst) : Prop :=
  match k with CRead _ _ n => 0 <= n | CWrite _ buf => write_fits (fd_table s) buf | _ => True end.
(** One call after the other, from any CPU. *)
Inductive call_step : fdst → fdst → Prop :=
  | call_step_run c k s s' : is_Some (cpus (fd_sched s) !! c) → call_ok k s → run_call c k s = Some (tt, s') → call_step s s'.

Lemma run_call_wp l r c k s :
  fd_inv l r s → is_Some (cpus (fd_sched s) !! c) → call_ok k s → wp (run_call c k) (λ _ s', keeps l r s s') s.
Proof.
  intros I [cpu Hc] Hk.
  assert (Ret : ∀ {A} (m : M fdst A), wp m (λ _ s', keeps l r s s') s → wp (m;; mret tt) (λ _ s', keeps l r s s') s).
  { intros A m W. wp_steps. eapply wp_mono; [exact W|]. intros a s' K. by wp_steps. }
  assert (Vfs : ∀ {A} (m : M (H * F) A) (o : A), (∀ fs w, vl_inv R B fs w → wp m (λ _ w', vl_inv R B fs w') w) →
    wp (on_vfs m) (λ _ s', keeps l r s s') s).
  { intros A m o Hm. eapply vfs_op_wp; [exact I|exact Hm|]. intros a w I'. by split. }
  destruct k; cbn [run_call call_ok] in *; try apply Ret.
  - by eapply fs_sys_dup2_wp.
  - by eapply fs_sys_open_wp.
  - by eapply fs_sys_close_wp.
  - by eapply fs_sys_read_wp.
  - by eapply fs_sys_write_wp.
  - by eapply fs_sys_ioctl_wp.
  - destruct path as [path|]; unfold fs_sys_mkdir; wp_steps; [|done]. eapply wp_mono; [apply (Vfs _ _ 0); intros; by apply vl_mkdir|].
    intros a s' K. by wp_steps.
  - by apply fs_sys_readdir_wp.
  - destruct path as [path|], out; unfold fs_sys_stat; cbn [negb]; try by wp_steps. apply (Vfs _ _ None). intros. by apply vl_stat.
  - by eapply fs_sys_fstat_wp.
  - by apply fs_sys_lseek_wp.
  - destruct path as [path|]; unfold fs_sys_unlink; [|by wp_steps]. apply (Vfs _ _ 0). intros. by apply vl_unlink.
  - destruct from as [from|], to as [to|]; unfold fs_sys_rename; try by wp_steps. apply (Vfs _ _ 0). intros. by apply vl_rename.
  - by eapply fs_sys_poll_wp.
  - eapply wp_mono; [by eapply fs_release_task_wp|]. intros [] s' (I' & _ & h & E). split; [done|]. by rewrite E.
Qed.

Lemma call_steps_inv l r s s' : rtc call_step s s' → fd_inv l r s → fd_inv l r s'.
Proof.
  induction 1 as [|s s1 s' Hs _ IH]; [done|]. intros I. apply IH. destruct Hs as [c k s s1 Hc Hk Hrun].
  pose proof (run_call_wp l r c k s I Hc Hk) as W. unfold wp in W. rewrite Hrun in W. apply W.
Qed.

(** ** Properties *)

(** C14 (safety) [fs_sys_dup2, fs_sys_open, fs_sys_close, fs_sys_read, fs_sys_write, fs_sys_ioctl, fs_sys_mkdir, fs_sys_readdir, fs_sys_stat, fs_sys_fstat, fs_sys_lseek, fs_sys_unlink, fs_sys_rename, fs_sys_poll, fs_release_task, fd_alloc, fd_release, fd_resolve, fd_valid]
    Whatever calls on paths and descriptors (all but mounting, unmounting and formatting) the
    tasks make one after the other, from the CPUs there are, over file systems
    that keep the laws, the open files are exactly the files in the table, no slot of a
    closed file is used again as if it were open, and no task has a standard descriptor
    that was closed; and the next call runs to its end. Two calls are restricted ([call_ok]): a
    read asks for no negative number of bytes, and a write must end below offset 2^63 in whichever
    open file it is made to (a write beyond that is not covered, and hangs in ramfs). The arguments
    are otherwise any at all. *)
Theorem fd_calls_safe l r s s' c k :
  fd_inv l r s → rtc call_step s s' → is_Some (cpus (fd_sched s') !! c) → call_ok k s' →
  fd_inv l r s' ∧ ∃ s'', run_call c k s' = Some (tt, s'') ∧ fd_inv l r s''.
Proof.
  intros I Hs Hc Hk. pose proof (call_steps_inv _ _ _ _ Hs I) as I'. split; [done|].
  pose proof (run_call_wp l r c k s' I' Hc Hk) as W. apply wp_run in W as ([] & s'' & ? & I'' & _). eauto.
Qed.

(** C36 (functional) [fs_release_task, release_if_owned, fd_release, task_forget_fd]
    When a task ends, exactly the descriptors it opened are closed and given back;
    every other slot of the table stays as it is, and no task keeps one of the closed
    descriptors as a standard descriptor. *)
Theorem fs_release_task_exact l r t s :
  fd_inv l r s → ∃ s', fs_release_task t s = Some (tt, s') ∧ fd_inv l r s' ∧
    (∀ i, fd_table s' !!z i = if decide (i ∈ owned t (fd_table s)) then Some zero_slot else fd_table s !!z i) ∧
    owned t (fd_table s') = [] ∧
    k_tasks (fd_sched s') = forget_fds (owned t (fd_table s)) (k_tasks (fd_sched s)).
Proof.
  intros I. pose proof (fs_release_task_wp l r t s I) as W. apply wp_run in W as ([] & s' & Hrun & I' & Ht & h & E).
  change (owned_below t (fd_table s) (Z.of_nat FD_MAX)) with (owned t (fd_table s)) in *.
  exists s'. split_and!; [done|done|done| |by rewrite E].
  unfold owned. apply list.elem_of_nil_inv. intros i [Hi Hin]%list_elem_of_filter. unfold is_owned in Hi. rewrite Ht in Hi.
  destruct (decide (i ∈ owned t (fd_table s))) as [|Hn]; [done|]. apply Hn. unfold owned. apply list_elem_of_filter.
  by split.
Qed.
End FdTable.

(** ** The whole stack: descriptors over the VFS over ramfs *)
Section Stack.
Context {H : Type} `{KM : KernelMem H} {KL : KernelMemLaws H} `{TS : TaskServices H} {TL : TaskServicesLaws H}.
Context (node_ops : Z → option (VNodeOps H)) (file_ops : Z → option (VFileOps H)).
Context (block_from_node fat32_mount fat32_unmount : Z → M (H * fsrest) Z)
        (fat32_owns : Z → Z → M (H * fsrest) bool) (fat32_is_root : Z → M (H * fsrest) bool).
Context (ops : Z) (Hops : ops ≠ 0) (Htab : node_ops ops = Some (ramfs_table ops)).
#[local] Instance stack_api : VfsApi (H * fsrest) :=
  vfs_api node_ops file_ops block_from_node fat32_mount fat32_unmount fat32_owns fat32_is_root.
#[local] Instance stack_laws : VfsLaws H fsrest :=
  vfs_laws node_ops file_ops block_from_node fat32_mount fat32_unmount fat32_owns fat32_is_root ops Hops Htab.
Local Abbreviation fdst := (FsKcalls.fdst (H := H) (F := fsrest)).
Implicit Types s : fdst.

(** The slots of the table whose file is on node [p]. *)
Definition slots_on (p : Z) (l : list FdSlot) : nat := length (filter (λ x, fd_used x = true ∧ f_node (fd_file x) = p) l).

Lemma refs_slots p l : refs p (open_files l) = Z.of_nat (slots_on p l).
Proof.
  unfold refs, slots_on. f_equal. induction l as [|x l IH]; [done|]. unfold open_files in *. rewrite bind_cons, list.filter_app, length_app, IH.
  unfold files_of at 1. rewrite filter_cons. destruct (fd_used x) eqn:U; [|rewrite decide_False by naive_solver; done].
  rewrite filter_cons, filter_nil. destruct (decide (f_node (fd_file x) = p)); [rewrite decide_True by done|rewrite decide_False by naive_solver]; done.
Qed.

(** C1 (safety) [fs_sys_open, fs_sys_close, fs_release_task, vfs_open, vfs_close, vfs_unlink, vfs_rename, vfs_mkdir, ramfs_create, ramfs_unlink, ramfs_release]
    Over a ramfs, whatever calls the tasks make: the node of every open descriptor is
    allocated, every node's [open_count] is the number of descriptors open on it, and a
    node that was unlinked is freed exactly when the last of them is closed, so that no
    descriptor is ever left with a node that was freed and no unlinked node is kept
    that nobody has open. *)
Theorem open_nodes_live R B l r s s' :
  fd_inv R B l r s → rtc call_step s s' →
  (∀ fd x, fd_table s' !!z fd = Some x → fd_used x = true → f_node (fd_file x) ≠ 0 →
     is_Some (fr_nodes (fd_vfs s') !! f_node (fd_file x))) ∧
  ∀ p n, fr_nodes (fd_vfs s') !! p = Some n →
    v_open_count n = Z.of_nat (slots_on p (fd_table s')) ∧
    (v_unlinked n = true → (0 < slots_on p (fd_table s'))%nat).
Proof.
  intros I Hs. pose proof (fi_files _ _ _ _ _ (call_steps_inv _ _ _ _ _ _ Hs I)) as [ch Io]. split.
  - intros fd x Hx U Hn. destruct (open_files_at _ _ _ Hx U) as (fs & P & _).
    pose proof (oi_files _ _ _ _ _ _ Io) as F. rewrite P in F. apply list.Forall_cons in F as [[[?|?] _] _]; done.
  - intros p n Hn. destruct (oi_nodes _ _ _ _ _ _ Io p n Hn) as (_ & Hoc & Hu). rewrite refs_slots in Hoc, Hu.
    split; [done|]. intros U. destruct (Hu U) as (_ & _ & ?). lia.
Qed.

(** ** The start: a root directory, mounted at "/", and the console's descriptors *)
Definition fs_boot : M fdst bool :=
  root ← on_vfs (on_fs (ramfs_create_root ops));
  on_vfs (va_mount [slash] root);;
  fs_kcalls_init;;
  mret (negb (root =? 0)).

Lemma open_inv_boot R B (h : H) : km_inv h R B → open_inv ops R B (λ _, []) [] (Fs h ∅ ∅ (replicate VFS_MAX_MOUNTS (MkMount [] 0 false))).
Proof.
  intros I. set (s := Fs _ _ _ _). assert (E : ∀ p, fs_nodes s !! p = None) by (intros p; apply lookup_empty).
  constructor.
  - constructor; [|exact I|constructor; intros p n; intros; congruence|intros c n nd Hn; by rewrite E in Hn].
    constructor.
    + apply E.
    + intros d n Hn. by rewrite E in Hn.
    + reflexivity.
    + intros c n d Hn. by rewrite E in Hn.
    + intros d. apply NoDup_nil_2.
    + intros c n Hn. by rewrite E in Hn.
    + intros c n Hn. by rewrite E in Hn.
    + intros p. constructor. intros q (n & Hn & _). by rewrite E in Hn.
  - intros p n Hn. by rewrite E in Hn.
  - intros m Hm U. apply elem_of_replicate in Hm as [-> _]. discriminate.
  - constructor.
  - intros p n Hn. by rewrite E in Hn.
  - simpl. lia.
Qed.

(** The mount table and the descriptor table of a kernel that has just started. *)
Definition boot_mounts : list VfsMount := replicate VFS_MAX_MOUNTS (MkMount [] 0 false).
Definition boot_table : list FdSlot :=
  let std := MkFdSlot zero_file true 0 in std :: std :: std :: replicate (FD_MAX - 3) zero_slot.
Lemma boot_files : open_files boot_table = [zero_file; zero_file; zero_file].
Proof.
  unfold boot_table. set (std := MkFdSlot zero_file true 0). unfold open_files. rewrite !bind_cons.
  assert (E : ∀ n, replicate n zero_slot ≫= files_of = []) by (induction n as [|n IH]; [done|exact IH]). by rewrite E.
Qed.
Definition root_vnode : VNode := MkVNode [slash] VNODE_DIR 0 ops 0 0 0 false 0 0 0.

Lemma open_inv_root R B p (s : fs H) :
  fs_inv ops R B (λ _, []) s → fs_nodes s = <[p := root_vnode]> ∅ → p ≠ 0 →
  fs_mounts s = MkMount [slash] p true :: replicate 7 (MkMount [] 0 false) →
  open_inv ops R B (λ _, []) [zero_file; zero_file; zero_file] s.
Proof.
  intros I En Hp Em.
  assert (N : ∀ q n, fs_nodes s !! q = Some n → q = p ∧ n = root_vnode).
  { intros q n. rewrite En. intros [[-> <-]|[_ Hq]]%lookup_insert_Some; [done|]. by rewrite lookup_empty in Hq. }
  constructor; [done| | | | |simpl; unfold FD_MAX; lia].
  - by intros q n [_ ->]%N.
  - intros m. rewrite Em. intros [->|[-> _]%elem_of_replicate]%elem_of_cons; [|discriminate].
    intros _. exists root_vnode. rewrite En. split; [apply lookup_insert_eq|by split].
  - assert (Z0 : (f_node zero_file = 0 ∨ is_Some (fs_nodes s !! f_node zero_file)) ∧ 0 <= f_offset zero_file < 2 ^ 64).
    { split; [by left|cbn; lia]. }
    by apply list.Forall_cons; split; [|apply list.Forall_cons; split; [|apply list.Forall_cons; split; [|apply list.Forall_nil]]].
  - intros q n [-> ->]%N. rewrite !refs_cons, decide_False by (cbn; congruence). by split_and!.
Qed.

Lemma fs_boot_wp R B l r (sc : Task.sched H) :
  km_inv (k_mem sc) R B → sched_inv l r 0 sc → (∀ p t, k_tasks sc !! p = Some t → t_stdio t = [-1; -1; -1]) →
  wp fs_boot (λ ok s', ok = true → fd_inv R B l r s') (Fdst [] sc (FsRest ∅ ∅ boot_mounts)).
Proof.
  intros IM I Hstd. unfold fs_boot. wp_steps. apply wp_on_vfs.
  eapply on_fs_wp; [apply (ramfs_create_root_wp ops R B (λ _, [])), (open_inv_boot R B (k_mem sc) IM)|].
  intros p s [(-> & En & Ef & Em)|(Hp & _ & I' & En & Ef & Em)]; wp_steps; apply wp_on_vfs.
  - unfold va_mount, stack_api, vfs_api, on_fs, vfs_mount, wp, mbind, M_bind, gets. cbn. rewrite Em. cbn. done.
  - unfold va_mount, stack_api, vfs_api, on_fs, vfs_mount, wp, mbind, M_bind, gets. cbn. rewrite Em. cbn. intros _.
    constructor.
    + exact (sched_inv_mem l r 0 (fs_mem s) sc I).
    + reflexivity.
    + intros i Hi. exists (MkFdSlot zero_file true 0). cbn [fd_table set_fd_table].
      assert (i = 0 ∨ i = 1 ∨ i = 2) as [->|[->| ->]] by lia; done.
    + change (vfs_inv ops R B (open_files boot_table) (fs_mem s, FsRest (fs_nodes s) (fs_files s) (MkMount [slash] p true :: replicate 7 (MkMount [] 0 false)))).
      rewrite boot_files. exists (λ _, []). apply (open_inv_root R B p); [|exact En|done|done].
      destruct I' as [T IM' F O]. constructor; [exact T|exact IM'| |exact O]. destruct F as [F1 F2 F3]. by constructor.
    + intros q t Ht. cbn in Ht. rewrite (Hstd q t Ht). split; [done|]. repeat constructor.
Qed.
End Stack.

(** ** Witnesses: the tasks of SchedOps.v with a file system *)
Definition demo_table (p : Z) : option (VNodeOps heap) := if p =? 1 then Some (ramfs_table 1) else None.
Definition no_file_ops (p : Z) : option (VFileOps heap) := None.
Definition no_block (p : Z) : M (heap * fsrest) Z := mret 0.
Definition no_fat32 (p : Z) : M (heap * fsrest) bool := mret false.
#[local] Instance demo_api : VfsApi (heap * fsrest) :=
  stack_api demo_table no_file_ops no_block no_block no_block (λ _, no_fat32) no_fat32.
#[local] Instance demo_laws : VfsLaws heap fsrest :=
  stack_laws demo_table no_file_ops no_block no_block no_block (λ _, no_fat32) no_fat32 1 ltac:(discriminate) eq_refl.
Definition demo_fd0 : fdst := Fdst [] demo_sched3 (FsRest ∅ ∅ boot_mounts).
Definition demo_fd1 : fdst :=
  run_state (fs_boot demo_table no_file_ops no_block no_block no_block (λ _, no_fat32) no_fat32 1) demo_fd0.
(** A file is created, then its name removed. *)
Definition demo_open : fd_call := COpen (Some (to_str "/a")) VFS_O_CREAT.
Definition demo_unlink : fd_call := CUnlink (Some (to_str "/a")).
Definition demo_fd2 : fdst := run_state (run_call 0 demo_open) demo_fd1.
Definition demo_fd3 : fdst := run_state (run_call 0 demo_unlink) demo_fd2.

Lemma demo_stdio : ∀ p t, k_tasks demo_sched3 !! p = Some t → t_stdio t = [-1; -1; -1].
Proof.
  assert (E : map_Forall (λ _ t, t_stdio t = [-1; -1; -1]) (k_tasks demo_sched3)).
  { apply (bool_decide_unpack _). vm_compute. exact I. }
  intros p t Ht. exact (E p t Ht).
Qed.

Lemma demo_fd1_inv : ∃ R B l r, fd_inv R B l r demo_fd1.
Proof.
  destruct demo_sched3_inv as [(l & r & I) [[sz IM] _]]. do 2 eexists. exists l, r.
  pose proof (fs_boot_wp demo_table no_file_ops no_block no_block no_block (λ _, no_fat32) no_fat32 1 ltac:(discriminate) eq_refl
    _ _ l r demo_sched3 IM I demo_stdio) as W.
  apply wp_run_state in W as (ok & E & K). apply K. 
  assert (E' : (λ o : option (bool * fdst), match o with Some (b, _) => b | None => false end)
    (fs_boot demo_table no_file_ops no_block no_block no_block (λ _, no_fat32) no_fat32 1 demo_fd0) = true) by (vm_compute; reflexivity).
  unfold demo_fd0 in E'. rewrite E in E'. exact E'.
Qed.

(** The fields of [fd_inv] that the calls need, for any reachable state. *)
Lemma demo_cpu0 (s : fdst (H := heap) (F := fsrest)) :
  (0 <? length (cpus (fd_sched s)))%nat = true → is_Some (cpus (fd_sched s) !! 0%nat).
Proof. intros E%Nat.ltb_lt. by apply lookup_lt_is_Some_2. Qed.

Lemma demo_call k (s : fdst (H := heap) (F := fsrest)) :
  (0 <? length (cpus (fd_sched s)))%nat = true → call_ok k s → is_done (run_call 0 k) s = true →
  call_step s (run_state (run_call 0 k) s).
Proof. intros Hc Hk Hd. apply (call_step_run 0 k); [by apply demo_cpu0|done|by apply is_done_run]. Qed.

Lemma demo_calls : rtc call_step demo_fd1 demo_fd3.
Proof.
  apply (rtc_l _ _ demo_fd2); [apply demo_call; [vm_compute; reflexivity|exact I|vm_compute; reflexivity]|].
  apply (rtc_l _ _ demo_fd3); [apply demo_call; [vm_compute; reflexivity|exact I|vm_compute; reflexivity]|].
  apply rtc_refl.
Qed.

Lemma fd_calls_safe_witness :
  ∃ R B l r, fd_inv R B l r demo_fd3 ∧ ∃ s'', run_call 0 (CClose 3) demo_fd3 = Some (tt, s'') ∧ fd_inv R B l r s''.
Proof.
  destruct demo_fd1_inv as (R & B & l & r & I). exists R, B, l, r.
  refine (fd_calls_safe R B l r demo_fd1 demo_fd3 0 (CClose 3) I demo_calls _ Logic.I).
  apply demo_cpu0. vm_compute. reflexivity.
Defined.

Lemma demo_fd3_inv : ∃ R B l r, fd_inv R B l r demo_fd3.
Proof.
  destruct demo_fd1_inv as (R & B & l & r & I). exists R, B, l, r. exact (call_steps_inv R B l r demo_fd1 demo_fd3 demo_calls I).
Qed.

Lemma fs_release_task_exact_witness :
  ∃ R B l r s', fs_release_task 140737488363536 demo_fd3 = Some (tt, s') ∧ fd_inv R B l r s' ∧
    (∀ i, fd_table s' !!z i = if decide (i ∈ owned 140737488363536 (fd_table demo_fd3)) then Some zero_slot else fd_table demo_fd3 !!z i) ∧
    owned 140737488363536 (fd_table s') = [] ∧
    k_tasks (fd_sched s') = forget_fds (owned 140737488363536 (fd_table demo_fd3)) (k_tasks (fd_sched demo_fd3)).
Proof.
  destruct demo_fd3_inv as (R & B & l & r & I). exists R, B, l, r.
  exact (fs_release_task_exact R B l r 140737488363536 demo_fd3 I).
Defined.

Lemma open_nodes_live_witness :
  (∀ fd x, fd_table demo_fd3 !!z fd = Some x → fd_used x = true → f_node (fd_file x) ≠ 0 →
     is_Some (fr_nodes (fd_vfs demo_fd3) !! f_node (fd_file x))) ∧
  ∀ p n, fr_nodes (fd_vfs demo_fd3) !! p = Some n →
    v_open_count n = Z.of_nat (slots_on p (fd_table demo_fd3)) ∧
    (v_unlinked n = true → (0 < slots_on p (fd_table demo_fd3))%nat).
Proof.
  destruct demo_fd1_inv as (R & B & l & r & I).
  exact (open_nodes_live demo_table no_file_ops no_block no_block no_block (λ _, no_fat32) no_fat32 1 ltac:(discriminate) eq_refl
    R B l r demo_fd1 demo_fd3 I demo_calls).
Defined.
