(* ===== verification/Socket.v ===== *)
(** * kernel/system/socket.c: local stream sockets

    A socket is a block of the kernel memory with a [VNode] in front, so that its
    address is what an open file holds as [node].  Connected sockets come in pairs;
    each has a ring of [SOCK_BUF_SIZE] bytes for what the other end writes.  A
    listening socket is on the chain [sock_listeners] and keeps the connections not yet
    accepted in [backlog].  The state is the descriptors and tasks of FsKcalls.v with
    the sockets; sockets of the network are reached through the interface [InetApi].
    An operation that sleeps is one turn of its loop and says [Block]. *)
From S2P Require Import Prelude RawMem Pmm Heap VfsTypes Ramfs Task TaskRing Sched FsKcalls.
Local Open Scope kernel_scope.

(** [kernel/system/socket.h 1-8] *)
Definition SOCK_NONBLOCK : Z := 1.
Definition SOCK_TCP : Z := 16.
Definition SOCK_UDP : Z := 32.
Definition SOCK_IOCTL_NONBLOCK : Z := 0x534b01.
Definition SOCK_NAME_MAX : Z := 64.
Definition SOCK_BUF_SIZE : Z := 64 * 1024.
(** [kernel/system/socket.h 9-18] *)
Definition SOCK_BACKLOG : nat := 32.
Definition EAGAIN : Z := 11.
Definition EINVAL : Z := 22.
Definition EPIPE : Z := 32.
Definition EADDRINUSE : Z := 98.
Definition ECONNREFUSED : Z := 111.
Definition EMFILE : Z := 24.
Definition ENOMEM : Z := 12.
Definition EBADF : Z := 9.

(** [kernel/system/socket.c 1-8] *)
Inductive SocketState := SOCKET_UNBOUND | SOCKET_BOUND | SOCKET_LISTENING | SOCKET_CONNECTED.
#[export] Instance SocketState_eq_dec : EqDecision SocketState.
Proof. solve_decision. Defined.

(** [so_rx_bytes] are the bytes behind [rx]. [kernel/system/socket.c 12-30] *)
Record Socket := MkSocket {
  so_node : VNode;
  so_state : SocketState;
  so_flags : Z;
  so_name : str;
  so_peer : Z;
  so_was_connected : bool;
  so_rx : Z;
  so_rx_bytes : list Z;
  so_rx_head : Z;
  so_rx_count : Z;
  so_backlog : list Z;
  so_backlog_len : Z;
  so_next_listener : Z
}.
(** [sizeof(Socket)] *)
Definition SIZEOF_SOCKET : Z := 520.
(** The address of [socket_file_ops]. *)
Definition SOCKET_FILE_OPS : Z := 2.
(** [kcalloc(1, sizeof(Socket))] *)
Definition zero_socket : Socket :=
  MkSocket zero_vnode SOCKET_UNBOUND 0 [] 0 false 0 [] 0 0 (replicate SOCK_BACKLOG 0) 0 0.

Definition set_so_node (x : VNode) (s : Socket) : Socket :=
  MkSocket x (so_state s) (so_flags s) (so_name s) (so_peer s) (so_was_connected s) (so_rx s) (so_rx_bytes s)
    (so_rx_head s) (so_rx_count s) (so_backlog s) (so_backlog_len s) (so_next_listener s).
Definition set_so_state (x : SocketState) (s : Socket) : Socket :=
  MkSocket (so_node s) x (so_flags s) (so_name s) (so_peer s) (so_was_connected s) (so_rx s) (so_rx_bytes s)
    (so_rx_head s) (so_rx_count s) (so_backlog s) (so_backlog_len s) (so_next_listener s).
Definition set_so_flags (x : Z) (s : Socket) : Socket :=
  MkSocket (so_node s) (so_state s) x (so_name s) (so_peer s) (so_was_connected s) (so_rx s) (so_rx_bytes s)
    (so_rx_head s) (so_rx_count s) (so_backlog s) (so_backlog_len s) (so_next_listener s).
Definition set_so_name (x : str) (s : Socket) : Socket :=
  MkSocket (so_node s) (so_state s) (so_flags s) x (so_peer s) (so_was_connected s) (so_rx s) (so_rx_bytes s)
    (so_rx_head s) (so_rx_count s) (so_backlog s) (so_backlog_len s) (so_next_listener s).
Definition set_so_peer (x : Z) (s : Socket) : Socket :=
  MkSocket (so_node s) (so_state s) (so_flags s) (so_name s) x (so_was_connected s) (so_rx s) (so_rx_bytes s)
    (so_rx_head s) (so_rx_count s) (so_backlog s) (so_backlog_len s) (so_next_listener s).
Definition set_so_was_connected (x : bool) (s : Socket) : Socket :=
  MkSocket (so_node s) (so_state s) (so_flags s) (so_name s) (so_peer s) x (so_rx s) (so_rx_bytes s)
    (so_rx_head s) (so_rx_count s) (so_backlog s) (so_backlog_len s) (so_next_listener s).
(** The ring: the buffer, its bytes, where the oldest byte is and how many there are. *)
Definition set_so_ring (p : Z) (bs : list Z) (head count : Z) (s : Socket) : Socket :=
  MkSocket (so_node s) (so_state s) (so_flags s) (so_name s) (so_peer s) (so_was_connected s) p bs
    head count (so_backlog s) (so_backlog_len s) (so_next_listener s).
Definition set_so_backlog (l : list Z) (n : Z) (s : Socket) : Socket :=
  MkSocket (so_node s) (so_state s) (so_flags s) (so_name s) (so_peer s) (so_was_connected s) (so_rx s) (so_rx_bytes s)
    (so_rx_head s) (so_rx_count s) l n (so_next_listener s).
Definition set_so_next_listener (x : Z) (s : Socket) : Socket :=
  MkSocket (so_node s) (so_state s) (so_flags s) (so_name s) (so_peer s) (so_was_connected s) (so_rx s) (so_rx_bytes s)
    (so_rx_head s) (so_rx_count s) (so_backlog s) (so_backlog_len s) x.

(** The sockets of net/inet.c, which install descriptors themselves. *)
Class InetApi (S : Type) := {
  ia_socket_create : Z → M S Z;
  ia_is_socket : VFile → M S bool;
  ia_bind : VFile → option str → M S Z;
  ia_listen : VFile → M S Z;
  ia_accept : VFile → M S (sys_res Z);
  ia_connect : VFile → option str → M S (sys_res Z)
}.

Section Socket.
Context {H : Type} `{KM : KernelMem H} {KL : KernelMemLaws H} `{TS : TaskServices H} {TL : TaskServicesLaws H}.
Context {F : Type} `{VA : VfsApi (H * F)} `{IA : InetApi (fdst (H := H) (F := F))}.

(** [kernel/system/socket.c 32-32] *)
Record sockst := Sockst { sk_fd : fdst (H := H) (F := F); sk_socks : gmap Z Socket; sock_listeners : Z }.
Definition set_socks (m : gmap Z Socket) (s : sockst) : sockst := Sockst (sk_fd s) m (sock_listeners s).
Definition set_listeners (p : Z) (s : sockst) : sockst := Sockst (sk_fd s) (sk_socks s) p.
Definition on_fd {A} (m : M (fdst (H := H) (F := F)) A) : M sockst A :=
  zoom sk_fd (λ x s, Sockst x (sk_socks s) (sock_listeners s)) m.
Definition on_kmem {A} (m : M H A) : M sockst A := on_fd (on_tasks (on_task_mem m)).

Definition sock (p : Z) : M sockst Socket := s ← get; lift (sk_socks s !! p).
Definition sock_upd (p : Z) (f : Socket → Socket) : M sockst unit :=
  x ← sock p; modify (λ s, set_socks (<[p := f x]> (sk_socks s)) s).
Definition sock_fuel : M sockst nat := gets (λ s, Datatypes.S (size (sk_socks s))).

(** The node an open file names: that of a socket or one of the file systems. *)
Definition file_node (p : Z) : M sockst VNode :=
  s ← get;
  match sk_socks s !! p with Some x => mret (so_node x) | None => on_fd (on_vfs (va_node p)) end.
(** [kernel/system/socket.c: sock_from_file] *)
Definition sock_from_file (file : VFile) : M sockst Z :=
  if f_node file =? 0 then mret 0
  else
    n ← file_node (f_node file);
    mret (if bool_decide (v_type n = VNODE_SOCKET) then v_private n else 0).
(** [kernel/system/socket.c: sock_from_fd] *)
Definition sock_from_fd (fd : Z) : M sockst Z :=
  ok ← on_fd (fd_valid fd);
  if negb ok then mret 0 else x ← on_fd (slot fd); sock_from_file (fd_file x).

(** [kernel/system/socket.c: sock_new] *)
Definition sock_new (flags : Z) : M sockst Z :=
  p ← on_kmem (km_kmalloc SIZEOF_SOCKET);
  if p =? 0 then mret 0
  else
    modify (λ s, set_socks (<[p := zero_socket]> (sk_socks s)) s);;
    sock_upd p (set_so_state SOCKET_UNBOUND);;
    sock_upd p (set_so_flags flags);;
    sock_upd p (set_so_node (MkVNode (to_str "socket") VNODE_SOCKET 0 0 SOCKET_FILE_OPS p 0 false 0 0 0));;
    mret p.

(** The bytes memory holds at [p]. *)
Definition page_bytes (p : Z) : M H (list Z) := gets (bytes_at (Z.to_nat SOCK_BUF_SIZE) p).
(** [kernel/system/socket.c: sock_alloc_rx] *)
Definition sock_alloc_rx (p : Z) : M sockst bool :=
  b ← on_kmem (km_alloc_pages (SOCK_BUF_SIZE / PAGE_SIZE));
  bs ← (if b =? 0 then mret [] else on_kmem (page_bytes b));
  sock_upd p (set_so_ring b bs 0 0);;
  mret (negb (b =? 0)).

(** [kernel/system/socket.c: sock_install_fd] *)
Definition sock_install_fd (c : nat) (p : Z) : M sockst Z :=
  fd ← on_fd (fd_alloc c);
  if fd =? FD_INVALID then mret (- EMFILE)
  else
    x ← on_fd (slot fd);
    on_fd (set_slot_file fd (MkVFile p (f_offset (fd_file x)) VFS_O_RDWR (f_private (fd_file x))));;
    mret fd.

(** The pointer [*pp]: the head of the listeners or the link of a socket. *)
Definition read_listener (link : option Z) : M sockst Z :=
  match link with None => gets sock_listeners | Some p => x ← sock p; mret (so_next_listener x) end.
Definition write_listener (link : option Z) (p : Z) : M sockst unit :=
  match link with None => modify (set_listeners p) | Some q => sock_upd q (set_so_next_listener p) end.
(** [kernel/system/socket.c: sock_destroy 88-92] *)
Fixpoint unlink_listener (fuel : nat) (link : option Z) (p : Z) : M sockst unit :=
  q ← read_listener link;
  if q =? 0 then mret tt
  else if q =? p then x ← sock p; write_listener link (so_next_listener x)
  else match fuel with O => fail | Datatypes.S fuel' => unlink_listener fuel' (Some q) p end.
(** [for (int i = 0; i < s->backlog_len; i++) f(s->backlog[i])], from [i] on.
    [kernel/system/socket.c: sock_destroy 94-96] *)
Fixpoint backlog_loop (fuel : nat) (p i : Z) (f : Z → M sockst unit) : M sockst unit :=
  x ← sock p;
  if i <? so_backlog_len x then
    match fuel with
    | O => fail
    | Datatypes.S fuel' => q ← lift (so_backlog x !!z i); f q;; backlog_loop fuel' p (i + 1) f
    end
  else mret tt.
(** [s->peer], if any, loses its peer. [kernel/system/socket.c: sock_destroy 99-103] *)
Definition sock_unpeer (p : Z) : M sockst unit :=
  x ← sock p;
  if so_peer x =? 0 then mret tt
  else sock_upd (so_peer x) (set_so_peer 0);; sock_upd p (set_so_peer 0).
(** The fuel bounds the depth of the recursion: a socket of a backlog is connected, so
    that it has no backlog to destroy. [kernel/system/socket.c: sock_destroy] *)
Fixpoint sock_destroy (depth : nat) (p : Z) : M sockst unit :=
  match depth with
  | O => fail
  | Datatypes.S depth' =>
      x ← sock p;
      (if bool_decide (so_state x = SOCKET_LISTENING) then
         fuel ← sock_fuel;
         unlink_listener fuel None p;;
         backlog_loop SOCK_BACKLOG p 0 (sock_destroy depth');;
         y ← sock p;
         sock_upd p (set_so_backlog (so_backlog y) 0)
       else mret tt);;
      sock_unpeer p;;
      x ← sock p;
      (if so_rx x =? 0 then mret tt else on_kmem (km_free_pages (so_rx x) (SOCK_BUF_SIZE / PAGE_SIZE)));;
      on_kmem (km_kfree p);;
      modify (λ s, set_socks (delete p (sk_socks s)) s);;
      on_fd (on_tasks task_wake_waiters)
  end.
Definition destroy_depth : nat := 2.

(** ** Reading and writing *)

Definition nonblock (x : Socket) : bool := negb (Z.land (so_flags x) SOCK_NONBLOCK =? 0).
(** [n] bytes out of the ring. [kernel/system/socket.c: sock_read 132-140] *)
Definition ring_take (n : Z) (x : Socket) : option (list Z * Socket) :=
  let first := Z.min n (SOCK_BUF_SIZE - so_rx_head x) in
  a ← read_range (so_rx_bytes x) (so_rx_head x) first;
  b ← read_range (so_rx_bytes x) 0 (n - first);
  Some (a ++ b, set_so_ring (so_rx x) (so_rx_bytes x) ((so_rx_head x + n) mod SOCK_BUF_SIZE) (so_rx_count x - n) x).
(** One turn of the loop. [kernel/system/socket.c: sock_read 124-159] *)
Definition sock_read_turn (p count : Z) : M sockst (sys_res (Z * list Z)) :=
  x ← sock p;
  if negb (bool_decide (so_state x = SOCKET_CONNECTED)) then mret (Ret (- EINVAL, []))
  else if 0 <? so_rx_count x then
    let n := Z.min count (so_rx_count x) in
    r ← lift (ring_take n x);
    sock_upd p (λ _, r.2);;
    on_fd (on_tasks task_wake_waiters);;
    mret (Ret (n, r.1))
  else if so_peer x =? 0 then mret (Ret (0, []))
  else if nonblock x then mret (Ret (- EAGAIN, []))
  else mret (Block TASK_BLOCK_FOREVER).
(** [kernel/system/socket.c: sock_read] *)
Definition sock_read (file : VFile) (count : Z) : M sockst (sys_res (Z * list Z)) :=
  p ← sock_from_file file;
  if p =? 0 then mret (Ret (- EBADF, []))
  else if count =? 0 then mret (Ret (0, []))
  else sock_read_turn p count.

(** [kernel/system/socket.c: sock_push] *)
Definition ring_push (src : list Z) (x : Socket) : option Socket :=
  let n := Z.of_nat (length src) in
  let tail := (so_rx_head x + so_rx_count x) mod SOCK_BUF_SIZE in
  let first := Z.min n (SOCK_BUF_SIZE - tail) in
  a ← write_range (so_rx_bytes x) tail (take (Z.to_nat first) src);
  b ← write_range a 0 (drop (Z.to_nat first) src);
  Some (set_so_ring (so_rx x) b (so_rx_head x) (so_rx_count x + n) x).
(** [kernel/system/socket.c: sock_push] *)
Definition sock_push (p : Z) (src : list Z) : M sockst unit :=
  x ← sock p; y ← lift (ring_push src x); sock_upd p (λ _, y).

(** The loop of [sock_write]: [written] bytes of [buf] are through. With a [Block] come
    the bytes through by then, from which the loop goes on.
    [kernel/system/socket.c: sock_write 189-223] *)
Fixpoint sock_write_loop (fuel : nat) (p : Z) (buf : list Z) (written : Z) : M sockst (sys_res Z * Z) :=
  if Z.of_nat (length buf) <=? written then mret (Ret written, written)
  else match fuel with
  | O => fail
  | Datatypes.S fuel' =>
      x ← sock p;
      if so_peer x =? 0 then mret (Ret (if written =? 0 then - EPIPE else written), written)
      else
        y ← sock (so_peer x);
        let remaining := Z.of_nat (length buf) - written in
        let space := SOCK_BUF_SIZE - so_rx_count y in
        if nonblock x && ((space =? 0) || ((remaining <=? SOCK_BUF_SIZE) && (space <? remaining))) then
          mret (Ret (if written =? 0 then - EAGAIN else written), written)
        else if 0 <? space then
          let n := Z.min space remaining in
          sock_push (so_peer x) (take (Z.to_nat n) (drop (Z.to_nat written) buf));;
          on_fd (on_tasks task_wake_waiters);;
          sock_write_loop fuel' p buf (written + n)
        else if nonblock x then mret (Ret written, written)
        else mret (Block TASK_BLOCK_FOREVER, written)
  end.
(** Turns between two sleeps: what fits, then the rest of a larger buffer. *)
Definition write_fuel : nat := 2.
(** [kernel/system/socket.c: sock_write] *)
Definition sock_write (file : VFile) (buf : list Z) : M sockst (sys_res Z * Z) :=
  p ← sock_from_file file;
  if p =? 0 then mret (Ret (- EBADF), 0)
  else
    x ← sock p;
    if negb (bool_decide (so_state x = SOCKET_CONNECTED)) then mret (Ret (- EINVAL), 0)
    else sock_write_loop write_fuel p buf 0.

(** [arg] is what the pointer leads to, [None] NULL. [kernel/system/socket.c: sock_ioctl] *)
Definition sock_ioctl (file : VFile) (request : Z) (arg : option Z) : M sockst Z :=
  p ← sock_from_file file;
  if p =? 0 then mret (- EBADF)
  else
    match arg with
    | None => mret (- EINVAL)
    | Some v =>
        if negb (request =? SOCK_IOCTL_NONBLOCK) then mret (- EINVAL)
        else
          sock_upd p (λ x, set_so_flags (if v =? 0 then Z.ldiff (so_flags x) SOCK_NONBLOCK
                                         else Z.lor (so_flags x) SOCK_NONBLOCK) x);;
          mret 0
    end.

(** [kernel/system/socket.c: sock_close] *)
Definition sock_close (file : VFile) : M sockst Z :=
  p ← sock_from_file file;
  if p =? 0 then mret (-1) else sock_destroy destroy_depth p;; mret 0.

(** [kernel/system/socket.c: sock_poll] *)
Definition sock_poll (file : VFile) : M sockst Z :=
  p ← sock_from_file file;
  if p =? 0 then mret POLLNVAL
  else
    x ← sock p;
    match so_state x with
    | SOCKET_LISTENING => mret (if 0 <? so_backlog_len x then POLLIN else 0)
    | SOCKET_CONNECTED =>
        let r := if 0 <? so_rx_count x then POLLIN else 0 in
        if so_peer x =? 0 then mret (Z.lor r (Z.lor POLLIN POLLHUP))
        else y ← sock (so_peer x); mret (if so_rx_count y <? SOCK_BUF_SIZE then Z.lor r POLLOUT else r)
    | _ => mret 0
    end.

(** ** The calls *)

(** [kernel/system/socket.c: sock_sys_socket] *)
Definition sock_sys_socket (c : nat) (flags : Z) : M sockst Z :=
  if negb (Z.land flags (Z.lor SOCK_TCP SOCK_UDP) =? 0) then on_fd (ia_socket_create flags)
  else
    p ← sock_new (Z.land flags SOCK_NONBLOCK);
    if p =? 0 then mret (- ENOMEM)
    else
      fd ← sock_install_fd c p;
      (if fd <? 0 then on_kmem (km_kfree p);; modify (λ s, set_socks (delete p (sk_socks s)) s) else mret tt);;
      mret fd.

(** [kernel/system/socket.c: sock_find_listener] *)
Fixpoint find_listener_loop (fuel : nat) (l : Z) (name : str) : M sockst Z :=
  if l =? 0 then mret 0
  else match fuel with
  | O => fail
  | Datatypes.S fuel' =>
      x ← sock l;
      if bool_decide (so_name x = name) then mret l else find_listener_loop fuel' (so_next_listener x) name
  end.
Definition sock_find_listener (name : str) : M sockst Z :=
  fuel ← sock_fuel; l ← gets sock_listeners; find_listener_loop fuel l name.

(** [Some file] when the descriptor is that of a network socket. *)
Definition inet_file (fd : Z) : M sockst (option VFile) :=
  ok ← on_fd (fd_valid fd);
  if negb ok then mret None
  else
    x ← on_fd (slot fd);
    i ← on_fd (ia_is_socket (fd_file x));
    mret (if (i : bool) then Some (fd_file x) else None).

(** [kernel/system/socket.c: sock_sys_bind] *)
Definition sock_sys_bind (fd : Z) (name : option str) : M sockst Z :=
  f ← inet_file fd;
  match f with
  | Some file => on_fd (ia_bind file name)
  | None =>
      p ← sock_from_fd fd;
      match name with
      | None => mret (- EBADF)
      | Some name =>
          if p =? 0 then mret (- EBADF)
          else if (strlenZ name =? 0) || (SOCK_NAME_MAX <=? strlenZ name) then mret (- EINVAL)
          else
            x ← sock p;
            if negb (bool_decide (so_state x = SOCKET_UNBOUND)) then mret (- EINVAL)
            else
              l ← sock_find_listener name;
              if negb (l =? 0) then mret (- EADDRINUSE)
              else sock_upd p (set_so_name name);; sock_upd p (set_so_state SOCKET_BOUND);; mret 0
      end
  end.

(** [kernel/system/socket.c: sock_sys_listen] *)
Definition sock_sys_listen (fd : Z) : M sockst Z :=
  f ← inet_file fd;
  match f with
  | Some file => on_fd (ia_listen file)
  | None =>
      p ← sock_from_fd fd;
      if p =? 0 then mret (- EBADF)
      else
        x ← sock p;
        if negb (bool_decide (so_state x = SOCKET_BOUND)) then mret (- EINVAL)
        else
          l ← sock_find_listener (so_name x);
          if negb (l =? 0) then mret (- EINVAL)
          else
            h ← gets sock_listeners;
            sock_upd p (set_so_state SOCKET_LISTENING);;
            sock_upd p (set_so_next_listener h);;
            modify (set_listeners p);;
            mret 0
  end.

(** [backlog[i - 1] = backlog[i]] for [i] from 1 below the length. [kernel/system/socket.c: sock_sys_accept 388-390] *)
Definition shift_backlog (l : list Z) (n : Z) : list Z :=
  take (Z.to_nat (n - 1)) (drop 1 l) ++ drop (Z.to_nat (n - 1)) l.
(** One turn of the loop. [kernel/system/socket.c: sock_sys_accept] *)
Definition sock_sys_accept (c : nat) (fd : Z) : M sockst (sys_res Z) :=
  f ← inet_file fd;
  match f with
  | Some file => on_fd (ia_accept file)
  | None =>
      p ← sock_from_fd fd;
      if p =? 0 then mret (Ret (- EBADF))
      else
        x ← sock p;
        if negb (bool_decide (so_state x = SOCKET_LISTENING)) then mret (Ret (- EINVAL))
        else if 0 <? so_backlog_len x then
          conn ← lift (so_backlog x !!z 0);
          sock_upd p (set_so_backlog (shift_backlog (so_backlog x) (so_backlog_len x)) (so_backlog_len x - 1));;
          sock_upd conn (set_so_flags (Z.land (so_flags x) SOCK_NONBLOCK));;
          nfd ← sock_install_fd c conn;
          (if nfd <? 0 then sock_destroy destroy_depth conn else mret tt);;
          mret (Ret nfd)
        else if nonblock x then mret (Ret (- EAGAIN))
        else mret (Block TASK_BLOCK_FOREVER)
  end.

(** The rings of both ends; false when memory is out. [kernel/system/socket.c: sock_sys_connect 424-424] *)
Definition connect_rings (conn p : Z) : M sockst bool :=
  a ← sock_alloc_rx conn;
  if negb a then mret false
  else x ← sock p; if negb (so_rx x =? 0) then mret true else sock_alloc_rx p.
(** [kernel/system/socket.c: sock_sys_connect 437-442] *)
Definition connect_check (x : Socket) (listener : option Socket) : Z :=
  if negb (bool_decide (so_state x = SOCKET_UNBOUND)) then - EINVAL
  else match listener with
       | None => - ECONNREFUSED
       | Some l => if Z.of_nat SOCK_BACKLOG <=? so_backlog_len l then - EAGAIN else 0
       end.
(** [kernel/system/socket.c: sock_sys_connect] *)
Definition sock_sys_connect (fd : Z) (name : option str) : M sockst (sys_res Z) :=
  f ← inet_file fd;
  match f with
  | Some file => on_fd (ia_connect file name)
  | None =>
      p ← sock_from_fd fd;
      match name with
      | None => mret (Ret (- EBADF))
      | Some name =>
          if p =? 0 then mret (Ret (- EBADF))
          else
            conn ← sock_new 0;
            if conn =? 0 then mret (Ret (- ENOMEM))
            else
              ok ← connect_rings conn p;
              if negb ok then
                y ← sock conn;
                (if so_rx y =? 0 then mret tt else on_kmem (km_free_pages (so_rx y) (SOCK_BUF_SIZE / PAGE_SIZE)));;
                on_kmem (km_kfree conn);;
                modify (λ s, set_socks (delete conn (sk_socks s)) s);;
                mret (Ret (- ENOMEM))
              else
                listener ← sock_find_listener name;
                x ← sock p;
                l ← (if listener =? 0 then mret None else y ← sock listener; mret (Some y));
                let rc := connect_check x l in
                if negb (rc =? 0) then sock_destroy destroy_depth conn;; mret (Ret rc)
                else
                  sock_upd conn (set_so_state SOCKET_CONNECTED);;
                  sock_upd conn (set_so_was_connected true);;
                  sock_upd conn (set_so_peer p);;
                  sock_upd p (set_so_state SOCKET_CONNECTED);;
                  sock_upd p (set_so_was_connected true);;
                  sock_upd p (set_so_peer conn);;
                  y ← sock listener;
                  bl ← lift (updateZ (so_backlog_len y) conn (so_backlog y));
                  sock_upd listener (set_so_backlog bl (so_backlog_len y + 1));;
                  on_fd (on_tasks task_wake_waiters);;
                  mret (Ret 0)
      end
  end.
End Socket.
