(* ===== verification/SockRing.v ===== *)
(** * A pair of sockets is a queue of bytes

    [rx_content] lists the bytes waiting in the ring of a socket, oldest first.  Against
    it the two copies of [sock_push] append and the two copies of [sock_read] take from
    the front, wherever in the buffer the ring begins; writing at one end and reading at
    the other is then a bounded first-in first-out queue. *)
From S2P Require Import Prelude RawMem Pmm Heap VfsTypes Ramfs Vfs Task TaskRing Sched SchedOps FsKcalls VfsInst FdTable Socket.
Local Open Scope kernel_scope.

(** A socket without a buffer holds nothing; a buffer has its size, the ring begins in
    it and holds at most what fits. *)
Definition ring_ok (x : Socket) : Prop :=
  if so_rx x =? 0 then so_rx_bytes x = [] ∧ so_rx_head x = 0 ∧ so_rx_count x = 0
  else Z.of_nat (length (so_rx_bytes x)) = SOCK_BUF_SIZE ∧ 0 <= so_rx_head x < SOCK_BUF_SIZE ∧
       0 <= so_rx_count x <= SOCK_BUF_SIZE.

(** The [i]-th byte waiting, and all of them. *)
Definition rx_byte (x : Socket) (i : Z) : Z := default 0 (so_rx_bytes x !!z ((so_rx_head x + i) mod SOCK_BUF_SIZE)).
Definition rx_content (x : Socket) : list Z := map (rx_byte x) (seqZ 0 (so_rx_count x)).

(** ** Lemmas *)
Lemma rx_content_length x : 0 <= so_rx_count x → Z.of_nat (length (rx_content x)) = so_rx_count x.
Proof. intros H. unfold rx_content. rewrite length_map, length_seqZ. lia. Qed.

Lemma mod_wrap a : 0 <= a < 2 * SOCK_BUF_SIZE → a mod SOCK_BUF_SIZE = if a <? SOCK_BUF_SIZE then a else a - SOCK_BUF_SIZE.
Proof.
  intros H. destruct (Z.ltb_spec a SOCK_BUF_SIZE); [apply Z.mod_small; lia|]. symmetry. apply (Z.mod_unique _ _ 1); lia.
Qed.

Lemma ring_take_spec n x :
  ring_ok x → so_rx x ≠ 0 → 0 <= n <= so_rx_count x →
  ∃ y, ring_take n x = Some (take (Z.to_nat n) (rx_content x), y) ∧ ring_ok y ∧
    rx_content y = drop (Z.to_nat n) (rx_content x) ∧
    y = set_so_ring (so_rx x) (so_rx_bytes x) ((so_rx_head x + n) mod SOCK_BUF_SIZE) (so_rx_count x - n) x.
Proof.
  unfold ring_ok. intros Hok Hrx Hn. destruct (Z.eqb_spec (so_rx x) 0); [done|]. destruct Hok as (L & Hh & Hc).
  unfold ring_take. set (first := Z.min n (SOCK_BUF_SIZE - so_rx_head x)).
  assert (Hf : 0 <= first <= n) by (unfold first; lia).
  destruct (read_range_Some (so_rx_bytes x) (so_rx_head x) first) as [a Ha]; [lia|unfold first; lia|].
  destruct (read_range_Some (so_rx_bytes x) 0 (n - first)) as [b Hb]; [lia|unfold first; lia|].
  rewrite Ha. cbn [mbind option_bind]. rewrite Hb. cbn [mbind option_bind]. eexists. split_and!; [| | |reflexivity].
  - do 2 f_equal. apply read_range_map in Ha; [|lia]. apply read_range_map in Hb; [|lia]. subst a b.
    unfold rx_content. rewrite (seqZ_split (so_rx_count x) n) by lia. rewrite map_app, take_app_le, take_ge
      by (rewrite length_map, length_seqZ; lia).
    rewrite (seqZ_split n first) by lia. rewrite map_app. f_equal; apply map_seqZ_shift; intros i Hi; unfold rx_byte; do 2 f_equal.
    + rewrite Z.mod_small; unfold first in *; lia.
    + apply (Z.mod_unique _ _ 1); unfold first in *; lia.
  - cbn [so_rx set_so_ring]. destruct (Z.eqb_spec (so_rx x) 0); [done|]. cbn.
    pose proof (Z.mod_pos_bound (so_rx_head x + n) SOCK_BUF_SIZE ltac:(unfold SOCK_BUF_SIZE; lia)). split_and!; lia.
  - unfold rx_content at 2. rewrite (seqZ_split (so_rx_count x) n) by lia. rewrite map_app, drop_app_ge by (rewrite length_map, length_seqZ; lia).
    rewrite length_map, length_seqZ, Nat.sub_diag. rewrite drop_0. unfold rx_content. cbn [so_rx_count set_so_ring].
    apply map_seqZ_shift. intros i Hi. unfold rx_byte. cbn [so_rx_bytes so_rx_head set_so_ring]. do 2 f_equal.
    rewrite Zplus_mod_idemp_l. f_equal. lia.
Qed.

Lemma ring_push_spec src x :
  ring_ok x → so_rx x ≠ 0 → so_rx_count x + Z.of_nat (length src) <= SOCK_BUF_SIZE →
  ∃ y bs, ring_push src x = Some y ∧ ring_ok y ∧ rx_content y = rx_content x ++ src ∧
    y = set_so_ring (so_rx x) bs (so_rx_head x) (so_rx_count x + Z.of_nat (length src)) x.
Proof.
  unfold ring_ok. intros Hok Hrx Hn. destruct (Z.eqb_spec (so_rx x) 0); [done|]. destruct Hok as (L & Hh & Hc).
  unfold ring_push. set (k := Z.of_nat (length src)) in *. set (tail := (so_rx_head x + so_rx_count x) mod SOCK_BUF_SIZE).
  assert (Ht : 0 <= tail < SOCK_BUF_SIZE) by (apply Z.mod_pos_bound; unfold SOCK_BUF_SIZE; lia).
  set (first := Z.min k (SOCK_BUF_SIZE - tail)). assert (Hf : 0 <= first <= k) by (unfold first; lia).
  assert (Lt : Z.of_nat (length (take (Z.to_nat first) src)) = first) by (rewrite length_take; lia).
  assert (Ld : Z.of_nat (length (drop (Z.to_nat first) src)) = k - first) by (rewrite length_drop; lia).
  destruct (write_range (so_rx_bytes x) tail (take (Z.to_nat first) src)) as [a|] eqn:Ha.
  2:{ unfold write_range in Ha. destruct (Z.leb_spec 0 tail); [|lia].
      destruct (Z.leb_spec (tail + Z.of_nat (length (take (Z.to_nat first) src))) (Z.of_nat (length (so_rx_bytes x)))); [done|lia]. }
  pose proof (λ j, write_range_lookup _ _ _ _ j Ha) as WA. destruct (WA 0) as [La _].
  destruct (write_range a 0 (drop (Z.to_nat first) src)) as [b|] eqn:Hb.
  2:{ unfold write_range in Hb. destruct (Z.leb_spec 0 0); [|lia].
      destruct (Z.leb_spec (0 + Z.of_nat (length (drop (Z.to_nat first) src))) (Z.of_nat (length a))); [done|lia]. }
  pose proof (λ j, write_range_lookup _ _ _ _ j Hb) as WB. destruct (WB 0) as [Lb _].
  cbn [mbind option_bind]. exists (set_so_ring (so_rx x) b (so_rx_head x) (so_rx_count x + k) x), b.
  split_and!; [by rewrite Hb| | |done].
  - cbn [so_rx set_so_ring]. destruct (Z.eqb_spec (so_rx x) 0); [done|]. cbn. split_and!; lia.
  - unfold rx_content. cbn [so_rx_count set_so_ring]. rewrite (seqZ_split (so_rx_count x + k) (so_rx_count x)) by lia.
    rewrite map_app. f_equal.
    + apply map_seqZ_shift. intros i Hi. unfold rx_byte. cbn [so_rx_bytes so_rx_head set_so_ring]. f_equal.
      destruct (WB ((so_rx_head x + (0 + i)) mod SOCK_BUF_SIZE)) as [_ ->].
      destruct (WA ((so_rx_head x + (0 + i)) mod SOCK_BUF_SIZE)) as [_ ->].
      assert (Ej := mod_wrap (so_rx_head x + (0 + i)) ltac:(lia)).
      assert (Et := mod_wrap (so_rx_head x + so_rx_count x) ltac:(lia)). fold tail in Et.
      set (j := (so_rx_head x + (0 + i)) mod SOCK_BUF_SIZE) in *.
      assert (Hj : ¬ (tail <= j < tail + first) ∧ ¬ (0 <= j < 0 + (k - first))).
      { unfold first in *. clearbody tail j. destruct (Z.ltb_spec (so_rx_head x + (0 + i)) SOCK_BUF_SIZE),
          (Z.ltb_spec (so_rx_head x + so_rx_count x) SOCK_BUF_SIZE); lia. }
      rewrite Lt, Ld. by rewrite !decide_False by tauto.
    + replace (so_rx_count x + k - so_rx_count x) with k by lia. apply list_eq. intros i. rewrite list_lookup_fmap.
      destruct (decide (i < length src)%nat) as [Hi|Hi].
      2:{ rewrite lookup_seqZ_ge by (unfold k; lia). by rewrite lookup_ge_None_2 by lia. }
      rewrite (proj2 (lookup_seqZ _ k i (so_rx_count x + Z.of_nat i))) by (unfold k; lia). cbn [fmap option_fmap option_map].
      destruct (lookup_lt_is_Some_2 src i Hi) as [v Hv]. rewrite Hv. f_equal. unfold rx_byte.
      cbn [so_rx_bytes so_rx_head set_so_ring].
      destruct (WB ((so_rx_head x + (so_rx_count x + Z.of_nat i)) mod SOCK_BUF_SIZE)) as [_ ->].
      destruct (WA ((so_rx_head x + (so_rx_count x + Z.of_nat i)) mod SOCK_BUF_SIZE)) as [_ ->].
      assert (Hik : Z.of_nat i < k) by (unfold k; lia).
      assert (Hm : (so_rx_head x + (so_rx_count x + Z.of_nat i)) mod SOCK_BUF_SIZE =
        if Z.of_nat i <? first then tail + Z.of_nat i else Z.of_nat i - first).
      { rewrite Z.add_assoc, <- Zplus_mod_idemp_l. fold tail. rewrite mod_wrap by lia. unfold first. clearbody tail.
        destruct (Z.ltb_spec (Z.of_nat i) (Z.min k (SOCK_BUF_SIZE - tail))), (Z.ltb_spec (tail + Z.of_nat i) SOCK_BUF_SIZE); lia. }
      rewrite Hm. destruct (Z.ltb_spec (Z.of_nat i) first).
      * rewrite decide_False by (unfold first in *; lia). rewrite decide_True by lia.
        unfold lookupZ. destruct (Z.ltb_spec (tail + Z.of_nat i - tail) 0); [lia|].
        replace (Z.to_nat (tail + Z.of_nat i - tail)) with i by lia. rewrite lookup_take_lt by lia. by rewrite Hv.
      * rewrite decide_True by lia. unfold lookupZ. destruct (Z.ltb_spec (Z.of_nat i - first - 0) 0); [lia|].
        rewrite lookup_drop. replace (Z.to_nat first + Z.to_nat (Z.of_nat i - first - 0))%nat with i by lia. by rewrite Hv.
Qed.

Section Stream.
Context {H : Type} `{KM : KernelMem H} {KL : KernelMemLaws H} `{TS : TaskServices H} {TL : TaskServicesLaws H}.
Context {F : Type} `{VA : VfsApi (H * F)} `{IA : InetApi (fdst (H := H) (F := F))}.
Local Abbreviation sockst := (Socket.sockst (H := H) (F := F)).
Implicit Types S : sockst.

(** ** Lemmas: the state *)
Lemma wp_sock p x (Q : Socket → sockst → Prop) S : sk_socks S !! p = Some x → Q x S → wp (sock p) Q S.
Proof. intros Hx HQ. unfold sock. wp_steps. by apply (wp_lift _ _ _ x). Qed.

Lemma wp_sock_upd p x f (Q : unit → sockst → Prop) S :
  sk_socks S !! p = Some x → Q tt (set_socks (<[p := f x]> (sk_socks S)) S) → wp (sock_upd p f) Q S.
Proof. intros Hx HQ. unfold sock_upd. wp_steps. eapply wp_sock; [exact Hx|]. by wp_steps. Qed.

Definition sk_sched S : Task.sched H := fd_sched (sk_fd S).
Definition set_sk_sched (sc : Task.sched H) S : sockst :=
  Sockst (Fdst (fd_table (sk_fd S)) sc (fd_vfs (sk_fd S))) (sk_socks S) (sock_listeners S).

(** Waking the tasks that wait changes nothing else. *)
Lemma wake_wp l r S (Q : unit → sockst → Prop) :
  sched_inv l r 0 (sk_sched S) →
  (∀ sc, sched_inv l r 0 sc → k_mem sc = k_mem (sk_sched S) → cpus sc = cpus (sk_sched S) → Q tt (set_sk_sched sc S)) →
  wp (on_fd (on_tasks task_wake_waiters)) Q S.
Proof.
  intros I HQ. apply wp_zoom, wp_zoom. eapply task_wake_waiters_wp; [exact (si_ring _ _ _ _ I)|].
  apply HQ; [|done|done]. apply wake_sched; [done|by apply is_waiter_sleeping].
Qed.

(** The node in front of a socket, by which a file leads to it. *)
Definition sock_node (p : Z) : VNode := MkVNode (to_str "socket") VNODE_SOCKET 0 0 SOCKET_FILE_OPS p 0 false 0 0 0.

Lemma sock_from_file_wp p x file (Q : Z → sockst → Prop) S :
  p ≠ 0 → sk_socks S !! p = Some x → so_node x = sock_node p → f_node file = p → Q p S → wp (sock_from_file file) Q S.
Proof.
  intros Hp Hx En Ef HQ. unfold sock_from_file, file_node. rewrite Ef. destruct (Z.eqb_spec p 0); [done|]. wp_steps.
  rewrite Hx. wp_steps. by rewrite En.
Qed.

(** ** Specification *)

(** How many of [len] bytes a write puts in a queue with room for [free], and what the
    call says of it.  A write that must not sleep is all or nothing, unless it is larger
    than the whole buffer. *)
Definition accepted (nb : bool) (free len : Z) : Z :=
  if nb && (len <=? SOCK_BUF_SIZE) && (free <? len) then 0 else Z.min free len.
Definition write_result (nb : bool) (free len : Z) : sys_res Z :=
  let n := accepted nb free len in
  if n =? len then Ret len
  else if nb then Ret (if n =? 0 then - EAGAIN else n)
  else Block TASK_BLOCK_FOREVER.

(** ** Lemmas: writing and reading *)
Lemma sock_push_wp q y src S (Q : unit → sockst → Prop) :
  sk_socks S !! q = Some y → ring_ok y → so_rx y ≠ 0 → so_rx_count y + Z.of_nat (length src) <= SOCK_BUF_SIZE →
  (∀ y' bs, ring_ok y' → rx_content y' = rx_content y ++ src →
     y' = set_so_ring (so_rx y) bs (so_rx_head y) (so_rx_count y + Z.of_nat (length src)) y →
     Q tt (set_socks (<[q := y']> (sk_socks S)) S)) →
  wp (sock_push q src) Q S.
Proof.
  intros Hy R Hrx Hl HQ. destruct (ring_push_spec src y R Hrx Hl) as (y' & bs & E & R' & C & Ey).
  unfold sock_push. wp_steps. eapply wp_sock; [exact Hy|]. wp_steps. eapply wp_lift; [exact E|].
  eapply wp_sock_upd; [exact Hy|]. by eapply HQ.
Qed.

(** What a write leaves: the peer's queue has grown. *)
Definition wrote (l r : list Z) (q : Z) (y : Socket) (bs : list Z) S S' : Prop :=
  ∃ y' sc buf, S' = set_sk_sched sc (set_socks (<[q := y']> (sk_socks S)) S) ∧ sched_inv l r 0 sc ∧
    k_mem sc = k_mem (sk_sched S) ∧ cpus sc = cpus (sk_sched S) ∧
    ring_ok y' ∧ rx_content y' = rx_content y ++ bs ∧
    y' = set_so_ring (so_rx y) buf (so_rx_head y) (so_rx_count y + Z.of_nat (length bs)) y.

Lemma wrote_nothing l r q y S :
  sched_inv l r 0 (sk_sched S) → sk_socks S !! q = Some y → ring_ok y → wrote l r q y [] S S.
Proof.
  intros I Hy R. exists y, (sk_sched S), (so_rx_bytes y). rewrite insert_id by done. rewrite app_nil_r, Z.add_0_r.
  split_and!; try done; [by destruct S as [[] ? ?]|by destruct y].
Qed.

Lemma sock_write_loop_wp l r p q x y buf S :
  sched_inv l r 0 (sk_sched S) → sk_socks S !! p = Some x → sk_socks S !! q = Some y → p ≠ q → so_peer x = q → q ≠ 0 →
  ring_ok y → so_rx y ≠ 0 →
  let free := SOCK_BUF_SIZE - so_rx_count y in
  let len := Z.of_nat (length buf) in
  let n := accepted (nonblock x) free len in
  wp (sock_write_loop write_fuel p buf 0)
     (λ a S', a = (write_result (nonblock x) free len, n) ∧ wrote l r q y (take (Z.to_nat n) buf) S S') S.
Proof.
  intros I Hx Hy Hpq Ex Hq R Hrx free len n.
  assert (Hfree : 0 <= free <= SOCK_BUF_SIZE).
  { unfold free, ring_ok in *. destruct (Z.eqb_spec (so_rx y) 0); [done|]. lia. }
  unfold write_fuel. cbn [sock_write_loop]. fold len. unfold write_result. fold n. destruct (Z.leb_spec len 0).
  { assert (buf = []) as -> by (destruct buf; [done|simpl in *; lia]). wp_steps.
    assert (n = 0) as -> by (unfold n, accepted; destruct (_ && _); [done|simpl in *; lia]).
    split; [done|]. by apply wrote_nothing. }
  wp_steps. eapply wp_sock; [exact Hx|]. rewrite Ex. destruct (Z.eqb_spec q 0); [done|]. wp_steps. eapply wp_sock; [exact Hy|].
  cbv zeta. rewrite Z.sub_0_r. fold free.
  destruct (nonblock x && ((free =? 0) || ((len <=? SOCK_BUF_SIZE) && (free <? len)))) eqn:G.
  { apply andb_prop in G as [Hnb G]. wp_steps. assert (n = 0) as ->.
    { unfold n, accepted. rewrite Hnb. cbn [andb]. apply orb_prop in G as [G%Z.eqb_eq|G].
      - destruct (_ && _); lia.
      - by rewrite G. }
    destruct (Z.eqb_spec 0 len); [lia|]. rewrite Hnb. split; [done|]. by apply wrote_nothing. }
  assert (En : n = Z.min free len).
  { unfold n, accepted. destruct (nonblock x); [|done]. cbn [andb] in *. apply orb_false_iff in G as [_ G]. by rewrite G. }
  destruct (Z.ltb_spec 0 free).
  - wp_steps. rewrite drop_0. rewrite <- En.
    assert (Ltake : Z.of_nat (length (take (Z.to_nat n) buf)) = n) by (rewrite length_take; lia).
    eapply sock_push_wp; [exact Hy|exact R|exact Hrx|rewrite Ltake; lia|]. intros y' bs R' C Ey. rewrite Ltake in Ey.
    wp_steps. apply (wake_wp l r); [exact I|]. intros sc Isc Em Ec. rewrite Z.add_0_l.
    assert (W : wrote l r q y (take (Z.to_nat n) buf) S (set_sk_sched sc (set_socks (<[q := y']> (sk_socks S)) S))).
    { exists y', sc, bs. rewrite Ltake. by split_and!. }
    destruct (Z.leb_spec len n).
    { wp_steps. destruct (Z.eqb_spec n len); [|lia]. split; [|done]. do 2 f_equal. lia. }
    wp_steps. eapply wp_sock; [cbn; rewrite lookup_insert_ne by congruence; exact Hx|]. rewrite Ex.
    destruct (Z.eqb_spec q 0); [done|]. wp_steps. eapply wp_sock; [cbn; apply lookup_insert_eq|].
    assert (Ec' : so_rx_count y' = SOCK_BUF_SIZE) by (rewrite Ey; cbn; lia). rewrite Ec', Z.sub_diag. cbn [Z.eqb orb Z.ltb].
    rewrite andb_true_r. destruct (Z.eqb_spec n len); [lia|]. destruct (nonblock x); wp_steps; (split; [|exact W]); [|done].
    destruct (Z.eqb_spec n 0); [lia|done].
  - assert (free = 0) as Hz by lia. rewrite Hz in G. cbn [Z.eqb orb] in G. rewrite andb_true_r in G. rewrite G. wp_steps.
    assert (n = 0) as -> by lia. destruct (Z.eqb_spec 0 len); [lia|]. split; [done|]. by apply wrote_nothing.
Qed.

Lemma sock_read_turn_wp l r q y count S (Q : sys_res (Z * list Z) → sockst → Prop) :
  sched_inv l r 0 (sk_sched S) → sk_socks S !! q = Some y → ring_ok y → so_rx y ≠ 0 → so_state y = SOCKET_CONNECTED →
  0 < count → 0 < so_rx_count y →
  (∀ sc y', let n := Z.min count (so_rx_count y) in
     sched_inv l r 0 sc → k_mem sc = k_mem (sk_sched S) → cpus sc = cpus (sk_sched S) →
     ring_ok y' → rx_content y' = drop (Z.to_nat n) (rx_content y) →
     y' = set_so_ring (so_rx y) (so_rx_bytes y) ((so_rx_head y + n) mod SOCK_BUF_SIZE) (so_rx_count y - n) y →
     Q (Ret (n, take (Z.to_nat n) (rx_content y))) (set_sk_sched sc (set_socks (<[q := y']> (sk_socks S)) S))) →
  wp (sock_read_turn q count) Q S.
Proof.
  intros I Hy R Hrx Hst Hc Hn HQ. unfold sock_read_turn. wp_steps. eapply wp_sock; [exact Hy|].
  rewrite Hst, bool_decide_true by done. cbn [negb]. destruct (Z.ltb_spec 0 (so_rx_count y)); [|lia].
  set (n := Z.min count (so_rx_count y)) in *.
  destruct (ring_take_spec n y R Hrx ltac:(unfold n; lia)) as (y' & E & R' & C & Ey).
  wp_steps. eapply wp_lift; [exact E|]. wp_steps. eapply wp_sock_upd; [exact Hy|]. wp_steps.
  apply (wake_wp l r); [exact I|]. intros sc Isc Em Ec. wp_steps. by apply HQ.
Qed.

(** ** Two connected sockets

    End [e] of the pair is the socket at [at_ e]; [nb e] says whether it was asked not
    to sleep, [qs e] is what waits there. *)
Definition endpoint (p peer : Z) (nb : bool) (bs : list Z) (x : Socket) : Prop :=
  so_node x = sock_node p ∧ so_state x = SOCKET_CONNECTED ∧ so_peer x = peer ∧ nonblock x = nb ∧
  ring_ok x ∧ so_rx x ≠ 0 ∧ rx_content x = bs.
Definition pair_ok (l r : list Z) (at_ : bool → Z) (nb : bool → bool) (qs : bool → list Z) S : Prop :=
  sched_inv l r 0 (sk_sched S) ∧ at_ true ≠ at_ false ∧
  ∀ e, at_ e ≠ 0 ∧ ∃ x, sk_socks S !! at_ e = Some x ∧ endpoint (at_ e) (at_ (negb e)) (nb e) (qs e) x.

(** What a program asks of an end, and what it is told. *)
Inductive sock_op := Send (e : bool) (bs : list Z) | Recv (e : bool) (count : Z) | Poll (e : bool).
Inductive outcome := Sent (r : sys_res Z * Z) | Got (r : sys_res (Z * list Z)) | Polled (r : Z).

Definition run_op (file : bool → VFile) (o : sock_op) : M sockst outcome :=
  match o with
  | Send e bs => r ← sock_write (file e) bs; mret (Sent r)
  | Recv e count => r ← sock_read (file e) count; mret (Got r)
  | Poll e => r ← sock_poll (file e); mret (Polled r)
  end.
Fixpoint run_ops (file : bool → VFile) (os : list sock_op) : M sockst (list outcome) :=
  match os with
  | [] => mret []
  | o :: os' => a ← run_op file o; rest ← run_ops file os'; mret (a :: rest)
  end.

(** The same on two queues of bytes that hold at most [SOCK_BUF_SIZE]. *)
Definition set_queue (e : bool) (bs : list Z) (qs : bool → list Z) : bool → list Z :=
  λ e', if Bool.eqb e' e then bs else qs e'.
Definition queue_op (nb : bool → bool) (o : sock_op) (qs : bool → list Z) : outcome * (bool → list Z) :=
  match o with
  | Send e bs =>
      let free := SOCK_BUF_SIZE - Z.of_nat (length (qs (negb e))) in
      let n := accepted (nb e) free (Z.of_nat (length bs)) in
      (Sent (write_result (nb e) free (Z.of_nat (length bs)), n),
       set_queue (negb e) (qs (negb e) ++ take (Z.to_nat n) bs) qs)
  | Recv e count =>
      let n := Z.min count (Z.of_nat (length (qs e))) in
      (Got (if count =? 0 then Ret (0, [])
            else match qs e with
                 | [] => if nb e then Ret (- EAGAIN, []) else Block TASK_BLOCK_FOREVER
                 | _ => Ret (n, take (Z.to_nat n) (qs e))
                 end),
       set_queue e (drop (Z.to_nat n) (qs e)) qs)
  | Poll e =>
      (Polled (Z.lor (match qs e with [] => 0 | _ => POLLIN end)
                 (if Z.of_nat (length (qs (negb e))) <? SOCK_BUF_SIZE then POLLOUT else 0)), qs)
  end.
Fixpoint queue_ops (nb : bool → bool) (os : list sock_op) (qs : bool → list Z) : list outcome * (bool → list Z) :=
  match os with
  | [] => ([], qs)
  | o :: os' =>
      let (a, qs1) := queue_op nb o qs in
      let (rest, qs2) := queue_ops nb os' qs1 in (a :: rest, qs2)
  end.
Definition op_ok (o : sock_op) : Prop := match o with Recv _ count => 0 <= count | _ => True end.

(** ** Lemmas: the pair *)
Lemma at_ne (at_ : bool → Z) e : at_ true ≠ at_ false → at_ e ≠ at_ (negb e).
Proof. by destruct e; simpl; congruence. Qed.

Lemma content_count x bs : ring_ok x → rx_content x = bs → so_rx_count x = Z.of_nat (length bs).
Proof.
  intros R <-. rewrite rx_content_length; [done|]. unfold ring_ok in R. destruct (_ =? 0); lia.
Qed.

(** Writing the ring of one end, with other tasks awake, is a step of the pair. *)
Lemma pair_ok_step l r at_ nb qs S e x y sc bs :
  pair_ok l r at_ nb qs S → sk_socks S !! at_ e = Some x → sched_inv l r 0 sc →
  ring_ok y → rx_content y = bs →
  (∃ buf h c, y = set_so_ring (so_rx x) buf h c x) →
  pair_ok l r at_ nb (set_queue e bs qs) (set_sk_sched sc (set_socks (<[at_ e := y]> (sk_socks S)) S)).
Proof.
  intros (I & Hne & HS) Hx Isc Ry C (buf & h & c & Ey). split_and!; [done|done|]. intros e'.
  destruct (HS e') as (H0 & x' & Hx' & E). split; [done|]. cbn [sk_socks set_sk_sched set_socks].
  unfold set_queue. destruct (Bool.eqb_spec e' e) as [->|Hn].
  - rewrite lookup_insert_eq. rewrite Hx in Hx'. injection Hx' as <-. exists y. split; [done|].
    destruct E as (E1 & E2 & E3 & E4 & E5 & E6 & E7). rewrite Ey in Ry, C |- *. by split_and!.
  - assert (e' = negb e) as -> by (by destruct e', e). rewrite lookup_insert_ne by (by apply at_ne). eauto.
Qed.

Lemma pair_ok_id l r at_ nb qs qs' S :
  pair_ok l r at_ nb qs S → (∀ e, qs' e = qs e) → pair_ok l r at_ nb qs' S.
Proof. intros (I & Hne & HS) E. split_and!; [done|done|]. intros e. rewrite E. apply HS. Qed.

Lemma set_queue_id e qs e' : set_queue e (qs e) qs e' = qs e'.
Proof. unfold set_queue. by destruct (Bool.eqb_spec e' e) as [->|]. Qed.

Lemma end_from_file l r at_ nb qs S file e (Q : Z → sockst → Prop) :
  pair_ok l r at_ nb qs S → f_node (file e) = at_ e → Q (at_ e) S → wp (sock_from_file (file e)) Q S.
Proof.
  intros (_ & _ & HS) Ef HQ. destruct (HS e) as (H0 & x & Hx & E). eapply sock_from_file_wp; [exact H0|exact Hx|apply E|done|done].
Qed.

Lemma send_wp l r at_ nb qs S file e bs :
  pair_ok l r at_ nb qs S → (∀ e, f_node (file e) = at_ e) →
  wp (run_op file (Send e bs)) (λ a S', a = (queue_op nb (Send e bs) qs).1 ∧
     pair_ok l r at_ nb (queue_op nb (Send e bs) qs).2 S') S.
Proof.
  intros P Ef. cbn [run_op queue_op fst snd]. unfold sock_write. wp_steps. eapply end_from_file; [exact P|apply Ef|].
  pose proof P as (I & Hne & HS). destruct (HS e) as (H0 & x & Hx & Nx & Sx & Px & Bx & Rx & Ax & Cx).
  destruct (HS (negb e)) as (H0' & y & Hy & Ny & Sy & Py & By & Ry & Ay & Cy).
  destruct (Z.eqb_spec (at_ e) 0); [done|]. wp_steps. eapply wp_sock; [exact Hx|]. rewrite Sx, bool_decide_true by done. cbn [negb].
  eapply wp_mono; [eapply sock_write_loop_wp; [exact I|exact Hx|exact Hy|by apply at_ne|exact Px|done|exact Ry|exact Ay]|].
  cbv beta. rewrite Bx, (content_count y _ Ry Cy). intros a S' (-> & y' & sc & buf & -> & Isc & Em & Ec & R' & C' & Ey').
  wp_steps. split; [done|]. rewrite Cy in C'. eapply pair_ok_step; [exact P|exact Hy|exact Isc|exact R'|exact C'|]. eauto.
Qed.

Lemma recv_wp l r at_ nb qs S file e count :
  pair_ok l r at_ nb qs S → (∀ e, f_node (file e) = at_ e) → 0 <= count →
  wp (run_op file (Recv e count)) (λ a S', a = (queue_op nb (Recv e count) qs).1 ∧
     pair_ok l r at_ nb (queue_op nb (Recv e count) qs).2 S') S.
Proof.
  intros P Ef Hc. cbn [run_op queue_op fst snd]. unfold sock_read. wp_steps. eapply end_from_file; [exact P|apply Ef|].
  pose proof P as (I & Hne & HS). destruct (HS e) as (H0 & x & Hx & Nx & Sx & Px & Bx & Rx & Ax & Cx).
  destruct (Z.eqb_spec (at_ e) 0); [done|]. pose proof (content_count x _ Rx Cx) as Ec.
  destruct (Z.eqb_spec count 0) as [->|Hn0].
  { wp_steps. split; [done|]. eapply pair_ok_id; [exact P|]. intros e'. rewrite Z.min_l by lia. apply set_queue_id. }
  destruct (qs e) as [|v bs'] eqn:Eq.
  - unfold sock_read_turn. wp_steps. eapply wp_sock; [exact Hx|]. rewrite Sx, bool_decide_true, Ec by done. cbn [negb length Z.of_nat Z.ltb Z.compare].
    rewrite Px. destruct (HS (negb e)) as (H0' & _). destruct (Z.eqb_spec (at_ (negb e)) 0); [done|]. rewrite Bx.
    assert (P' : pair_ok l r at_ nb (set_queue e (drop (Z.to_nat (Z.min count 0)) []) qs) S).
    { eapply pair_ok_id; [exact P|]. intros e'. rewrite drop_nil, <- Eq. apply set_queue_id. }
    destruct (nb e); wp_steps; (split; [done|exact P']).
  - wp_steps. eapply sock_read_turn_wp; [exact I|exact Hx|exact Rx|exact Ax|exact Sx|lia|rewrite Ec; simpl; lia|].
    rewrite Ec, Cx. cbv zeta. intros sc y' Isc Em Ecpu R' C' Ey'. wp_steps. split; [done|].
    eapply pair_ok_step; [exact P|exact Hx|exact Isc|exact R'|exact C'|]. eauto.
Qed.

Lemma poll_wp l r at_ nb qs S file e :
  pair_ok l r at_ nb qs S → (∀ e, f_node (file e) = at_ e) →
  wp (run_op file (Poll e)) (λ a S', a = (queue_op nb (Poll e) qs).1 ∧ pair_ok l r at_ nb (queue_op nb (Poll e) qs).2 S') S.
Proof.
  intros P Ef. cbn [run_op queue_op fst snd]. unfold sock_poll. wp_steps. eapply end_from_file; [exact P|apply Ef|].
  pose proof P as (I & Hne & HS). destruct (HS e) as (H0 & x & Hx & Nx & Sx & Px & Bx & Rx & Ax & Cx).
  destruct (HS (negb e)) as (H0' & y & Hy & Ny & Sy & Py & By & Ry & Ay & Cy).
  destruct (Z.eqb_spec (at_ e) 0); [done|]. wp_steps. eapply wp_sock; [exact Hx|]. rewrite Sx, Px.
  destruct (Z.eqb_spec (at_ (negb e)) 0); [done|]. wp_steps. eapply wp_sock; [exact Hy|]. wp_steps.
  rewrite (content_count x _ Rx Cx), (content_count y _ Ry Cy). split; [|done]. f_equal.
  destruct (_ <? SOCK_BUF_SIZE); destruct (qs e); simpl; done.
Qed.

Lemma op_wp l r at_ nb qs S file o :
  pair_ok l r at_ nb qs S → (∀ e, f_node (file e) = at_ e) → op_ok o →
  wp (run_op file o) (λ a S', a = (queue_op nb o qs).1 ∧ pair_ok l r at_ nb (queue_op nb o qs).2 S') S.
Proof. destruct o; intros; [by apply send_wp|by apply recv_wp|by apply poll_wp]. Qed.

(** * Properties *)

(** C5 (refinement) [sock_write, sock_write_loop, sock_push, ring_push, sock_read, sock_read_turn, ring_take, sock_poll, sock_from_file]
    Two connected sockets are two bounded queues: whatever the two ends write, read and
    poll, in whatever order, every answer (bytes, counts, short writes, EAGAIN, going to
    sleep) is that of a pair of first-in first-out queues of 64 KiB, no byte is lost,
    repeated or reordered wherever the rings wrap, and the scheduler's invariant holds
    throughout. *)
Theorem sock_stream l r at_ nb qs S file os :
  pair_ok l r at_ nb qs S → (∀ e, f_node (file e) = at_ e) → Forall op_ok os →
  wp (run_ops file os) (λ outs S', outs = (queue_ops nb os qs).1 ∧ pair_ok l r at_ nb (queue_ops nb os qs).2 S') S.
Proof.
  intros P Ef Hos. revert qs S P. induction Hos as [|o os Ho Hos IH]; intros qs S P; cbn [run_ops queue_ops]; [by wp_steps|].
  wp_steps. eapply wp_mono; [by eapply op_wp|]. cbv beta. intros a S1 [-> P1]. destruct (queue_op nb o qs) as [a qs1]. cbn [fst snd] in *.
  wp_steps. eapply wp_mono; [by apply IH|]. cbv beta. intros outs S2 [-> P2]. destruct (queue_ops nb os qs1) as [rest qs2].
  by wp_steps.
Qed.
End Stream.

(** * Witness

    A server that listens, a client that does not sleep, one connection; no network. *)
#[local] Existing Instance demo_api.
#[local] Instance no_inet : InetApi (fdst (H := heap) (F := fsrest)) := {|
  ia_socket_create _ := mret (-1); ia_is_socket _ := mret false; ia_bind _ _ := mret (-1);
  ia_listen _ := mret (-1); ia_accept _ := mret (Ret (-1)); ia_connect _ _ := mret (Ret (-1)) |}.
Definition demo_connect : M (sockst (H := heap) (F := fsrest)) unit :=
  sock_sys_socket 0 0;;
  sock_sys_bind 3 (Some (to_str "/srv"));;
  sock_sys_listen 3;;
  sock_sys_socket 0 SOCK_NONBLOCK;;
  sock_sys_connect 4 (Some (to_str "/srv"));;
  sock_sys_accept 0 3;;
  mret tt.
Definition demo_socks : sockst (H := heap) (F := fsrest) := run_state demo_connect (Sockst demo_fd1 ∅ 0).
Definition demo_file (e : bool) : VFile := default zero_file (fd_file <$> fd_table (sk_fd demo_socks) !! (if e then 4 else 5)%nat).
Definition demo_at (e : bool) : Z := f_node (demo_file e).
Definition demo_nb (e : bool) : bool := e.

#[local] Instance VNode_eq_dec : EqDecision VNode.
Proof. solve_decision. Defined.

Lemma demo_pair : ∃ l r, pair_ok l r demo_at demo_nb (λ _, []) demo_socks.
Proof.
  destruct demo_sched3_inv as [(l & r & I) _]. exists l, r. split_and!.
  - assert (E : sk_sched demo_socks = set_k_mem (k_mem (sk_sched demo_socks)) demo_sched3) by (vm_compute; reflexivity).
    rewrite E. apply sched_inv_mem. exact I.
  - assert (E : (demo_at true =? demo_at false) = false) by (vm_compute; reflexivity). by apply Z.eqb_neq.
  - assert (E : ∀ e, (match sk_socks demo_socks !! demo_at e with
      | Some x => bool_decide (so_node x = sock_node (demo_at e) ∧ so_state x = SOCKET_CONNECTED ∧ so_peer x = demo_at (negb e) ∧
          nonblock x = demo_nb e ∧ Z.of_nat (length (so_rx_bytes x)) = SOCK_BUF_SIZE ∧ so_rx_head x = 0 ∧ so_rx_count x = 0 ∧
          so_rx x ≠ 0 ∧ demo_at e ≠ 0)
      | None => false end) = true) by (intros []; vm_compute; reflexivity).
    intros e. specialize (E e). destruct (sk_socks demo_socks !! demo_at e) as [x|]; [|discriminate].
    apply bool_decide_eq_true_1 in E. destruct E as (E1 & E2 & E3 & E4 & E5 & E6 & E7 & E8 & E9).
    split; [done|]. exists x. split; [done|]. unfold endpoint, ring_ok, rx_content. rewrite E6, E7, E5, (proj2 (Z.eqb_neq _ _) E8).
    repeat split; try done; lia.
Qed.

Definition demo_talk : list sock_op := [Send true [1; 2; 3]; Poll false; Recv false 2; Recv false 9; Recv true 1].

Lemma sock_stream_witness :
  ∃ l r S', run_ops demo_file demo_talk demo_socks =
    Some ([Sent (Ret 3, 3); Polled 5; Got (Ret (2, [1; 2])); Got (Ret (1, [3])); Got (Ret (- EAGAIN, []))], S') ∧
    pair_ok l r demo_at demo_nb (queue_ops demo_nb demo_talk (λ _, [])).2 S'.
Proof.
  destruct demo_pair as (l & r & P). exists l, r.
  assert (Ho : Forall op_ok demo_talk) by (repeat constructor; simpl; lia).
  destruct (proj1 (wp_run _ _ _) (sock_stream l r demo_at demo_nb (λ _, []) demo_socks demo_file demo_talk P (λ e, eq_refl) Ho))
    as (outs & S' & E & Eo & P').
  exists S'. split; [|exact P']. rewrite E. f_equal. f_equal. rewrite Eo. vm_compute. reflexivity.
Defined.
