(* ===== verification/Elf.v ===== *)
(** * kernel/elf.c: the program loader

    An ELF file is a list of bytes; its image is a run of pages of the kernel heap's
    memory.  The checks of the loader are on 64-bit sums that wrap, as in the code: a
    read outside the file is [None], a write goes wherever the address leads.  The
    diagnostics of [kprintf] are left out. *)
From S2P Require Import Prelude RawMem Pmm Heap Ramfs Task.
Local Open Scope kernel_scope.

(** [kernel/elf.h 1-12] *)
Definition ELF_MAGIC : list Z := [0x7F; 69; 76; 70].
Definition ELFCLASS64 : Z := 2.
Definition ELFDATA2LSB : Z := 1.
Definition EM_X86_64 : Z := 62.
Definition ET_EXEC : Z := 2.
Definition ET_DYN : Z := 3.
Definition PT_LOAD : Z := 1.
(** [kernel/elf.h 55-75] *)
Definition PT_DYNAMIC : Z := 2.
Definition DT_NULL : Z := 0.
Definition DT_PLTRELSZ : Z := 2.
Definition DT_SYMTAB : Z := 6.
Definition DT_RELA : Z := 7.
Definition DT_RELASZ : Z := 8.
Definition DT_RELAENT : Z := 9.
Definition DT_REL : Z := 17.
Definition DT_JMPREL : Z := 23.
Definition R_X86_64_NONE : Z := 0.
Definition R_X86_64_64 : Z := 1.
Definition R_X86_64_GLOB_DAT : Z := 6.
Definition R_X86_64_JUMP_SLOT : Z := 7.
Definition R_X86_64_RELATIVE : Z := 8.
Definition SHN_UNDEF : Z := 0.

(** ** Structures *)

(** The fields the loader reads. [kernel/elf.h 14-31] *)
Record Elf64Ehdr := MkEhdr {
  e_ident : list Z; e_type : Z; e_machine : Z; e_entry : Z; e_phoff : Z; e_phentsize : Z; e_phnum : Z
}.
(** [kernel/elf.h 33-44] *)
Record Elf64Phdr := MkPhdr { p_type : Z; p_offset : Z; p_vaddr : Z; p_filesz : Z; p_memsz : Z }.
(** [kernel/elf.h 79-84] *)
Record Elf64Dyn := MkDyn { d_tag : Z; d_val : Z }.
(** [kernel/elf.h 86-92] *)
Record Elf64Rela := MkRela { r_offset : Z; r_info : Z; r_addend : Z }.
Definition SIZEOF_EHDR : Z := 64.
Definition SIZEOF_PHDR : Z := 56.
Definition SIZEOF_DYN : Z := 16.
Definition SIZEOF_RELA : Z := 24.
Definition SIZEOF_SYM : Z := 24.
(** [kernel/elf.h 102-103] *)
Definition ELF64_R_TYPE (info : Z) : Z := u32 info.
Definition ELF64_R_SYM (info : Z) : Z := u32 (Z.shiftr info 32).

(** The field of [n] bytes at [off], little-endian. *)
Definition field (bytes : list Z) (off n : Z) : option Z := le_combine <$> read_range bytes off n.
Definition read_ehdr (bytes : list Z) : option Elf64Ehdr :=
  ident ← read_range bytes 0 16;
  ty ← field bytes 16 2; machine ← field bytes 18 2; entry ← field bytes 24 8; phoff ← field bytes 32 8;
  phentsize ← field bytes 54 2; phnum ← field bytes 56 2;
  Some (MkEhdr ident ty machine entry phoff phentsize phnum).
Definition read_phdr (bytes : list Z) (at_ : Z) : option Elf64Phdr :=
  ty ← field bytes at_ 4; offset ← field bytes (at_ + 8) 8; vaddr ← field bytes (at_ + 16) 8;
  filesz ← field bytes (at_ + 32) 8; memsz ← field bytes (at_ + 40) 8;
  Some (MkPhdr ty offset vaddr filesz memsz).
Definition read_dyn (bytes : list Z) (at_ : Z) : option Elf64Dyn :=
  tag ← field bytes at_ 8; val ← field bytes (at_ + 8) 8; Some (MkDyn tag val).
(** In memory. *)
Definition load_rela (m : mem) (a : Z) : Elf64Rela := MkRela (load64 m a) (load64 m (u64 (a + 8))) (load64 m (u64 (a + 16))).

(** [kernel/elf.c: elf_check_header] *)
Definition elf_check_header (eh : Elf64Ehdr) : bool :=
  bool_decide (take 4 (e_ident eh) = ELF_MAGIC) && bool_decide (e_ident eh !!z 4 = Some ELFCLASS64) &&
  bool_decide (e_ident eh !!z 5 = Some ELFDATA2LSB) && (e_machine eh =? EM_X86_64) &&
  ((e_type eh =? ET_EXEC) || (e_type eh =? ET_DYN)) && negb ((e_phoff eh =? 0) || (e_phnum eh =? 0)).

(** ** Relocations *)

(** What goes to the target of an entry: nothing, a value, or the table is refused. *)
Inductive reloc := RelocNone | RelocValue (v : Z) | RelocBad.
(** [kernel/elf.c: elf_apply_rela_table 52-81] *)
Definition reloc_value (m : mem) (symtab load_bias : Z) (rel : Elf64Rela) : reloc :=
  let type := ELF64_R_TYPE (r_info rel) in
  if type =? R_X86_64_NONE then RelocNone
  else if type =? R_X86_64_RELATIVE then RelocValue (u64 (r_addend rel + load_bias))
  else if negb (type =? R_X86_64_64) && negb (type =? R_X86_64_GLOB_DAT) && negb (type =? R_X86_64_JUMP_SLOT) then RelocBad
  else
    let sym_index := ELF64_R_SYM (r_info rel) in
    let sym := u64 (symtab + SIZEOF_SYM * sym_index) in
    if (symtab =? 0) || (sym_index =? 0) || (le_combine (mem_load 2 m (u64 (sym + 6))) =? SHN_UNDEF) then RelocBad
    else
      let value := u64 (load64 m (u64 (sym + 8)) + load_bias) in
      RelocValue (if type =? R_X86_64_64 then u64 (value + r_addend rel) else value).
(** Entries [r] onwards of the table at [relas]. [kernel/elf.c: elf_apply_rela_table] *)
Fixpoint elf_apply_rela_table (n : nat) (r relas symtab load_bias : Z) : M heap Z :=
  match n with
  | O => mret 0
  | S n' =>
      m ← gets hp_mem;
      let rel := load_rela m (u64 (relas + SIZEOF_RELA * r)) in
      match reloc_value m symtab load_bias rel with
      | RelocNone => elf_apply_rela_table n' (r + 1) relas symtab load_bias
      | RelocValue v =>
          on_mem (store64 (u64 (r_offset rel + load_bias)) v);;
          elf_apply_rela_table n' (r + 1) relas symtab load_bias
      | RelocBad => mret (-1)
      end
  end.

(** What PT_DYNAMIC says. *)
Record dynamic := Dynamic { dy_rela : Z; dy_relasz : Z; dy_relaent : Z; dy_jmprel : Z; dy_pltrelsz : Z; dy_symtab : Z }.
Definition dynamic0 : dynamic := Dynamic 0 0 SIZEOF_RELA 0 0 0.
(** [None] is DT_REL. [kernel/elf.c: elf_apply_relocations 126-151] *)
Definition dyn_entry (e : Elf64Dyn) (y : dynamic) : option dynamic :=
  let '(Dynamic ra rs re jr js st) := y in
  let v := d_val e in
  if d_tag e =? DT_RELA then Some (Dynamic v rs re jr js st)
  else if d_tag e =? DT_RELASZ then Some (Dynamic ra v re jr js st)
  else if d_tag e =? DT_RELAENT then Some (Dynamic ra rs v jr js st)
  else if d_tag e =? DT_JMPREL then Some (Dynamic ra rs re v js st)
  else if d_tag e =? DT_PLTRELSZ then Some (Dynamic ra rs re jr v st)
  else if d_tag e =? DT_SYMTAB then Some (Dynamic ra rs re jr js v)
  else if d_tag e =? DT_REL then None
  else Some y.
(** Entry [d] onwards. [kernel/elf.c: elf_apply_relocations 118-152] *)
Fixpoint dyn_loop (n : nat) (bytes : list Z) (at_ d : Z) (y : dynamic) : M heap (option dynamic) :=
  match n with
  | O => mret (Some y)
  | S n' =>
      e ← lift (read_dyn bytes (at_ + SIZEOF_DYN * d));
      if d_tag e =? DT_NULL then mret (Some y)
      else match dyn_entry e y with None => mret None | Some y' => dyn_loop n' bytes at_ (d + 1) y' end
  end.
(** The first PT_DYNAMIC of the program headers from [i] on: whether there is one and
    what it says; [None] is a file that is refused. [kernel/elf.c: elf_apply_relocations 104-155] *)
Fixpoint find_dynamic (n : nat) (i : Z) (bytes : list Z) (size phdrs : Z) : M heap (option (bool * dynamic)) :=
  match n with
  | O => mret (Some (false, dynamic0))
  | S n' =>
      ph ← lift (read_phdr bytes (phdrs + SIZEOF_PHDR * i));
      if negb (p_type ph =? PT_DYNAMIC) then find_dynamic n' (i + 1) bytes size phdrs
      else if size <? u64 (p_offset ph + p_filesz ph) then mret None
      else
        y ← dyn_loop (Z.to_nat (p_filesz ph / SIZEOF_DYN)) bytes (p_offset ph) 0 dynamic0;
        mret ((λ y, (true, y)) <$> y)
  end.
(** [kernel/elf.c: elf_apply_relocations] *)
Definition elf_apply_relocations (bytes : list Z) (size phdrs phnum load_bias : Z) : M heap Z :=
  f ← find_dynamic (Z.to_nat phnum) 0 bytes size phdrs;
  match f with
  | None => mret (-1)
  | Some (have_dynamic, y) =>
      if negb have_dynamic then mret 0
      else if negb (dy_relaent y =? SIZEOF_RELA) then mret (-1)
      else
        let symtab := if dy_symtab y =? 0 then 0 else u64 (dy_symtab y + load_bias) in
        a ← (if negb (dy_rela y =? 0) && negb (dy_relasz y =? 0) then
               elf_apply_rela_table (Z.to_nat (dy_relasz y / dy_relaent y)) 0 (u64 (dy_rela y + load_bias)) symtab load_bias
             else mret 0);
        if negb (a =? 0) then mret (-1)
        else
          b ← (if negb (dy_jmprel y =? 0) && negb (dy_pltrelsz y =? 0) then
                 elf_apply_rela_table (Z.to_nat (dy_pltrelsz y / SIZEOF_RELA)) 0 (u64 (dy_jmprel y + load_bias)) symtab load_bias
               else mret 0);
          mret (if negb (b =? 0) then -1 else 0)
  end.

(** ** Loading *)

(** The range [lo, hi) of the loadable segments from [i] on; [None] is a file that is
    refused. [kernel/elf.c: elf_load_image 202-229] *)
Fixpoint scan_segments (n : nat) (i : Z) (bytes : list Z) (size phdrs lo hi : Z) (any_load : bool)
    : M heap (option (Z * Z * bool)) :=
  match n with
  | O => mret (Some (lo, hi, any_load))
  | S n' =>
      ph ← lift (read_phdr bytes (phdrs + SIZEOF_PHDR * i));
      if negb (p_type ph =? PT_LOAD) then scan_segments n' (i + 1) bytes size phdrs lo hi any_load
      else if size <? u64 (p_offset ph + p_filesz ph) then mret None
      else if p_memsz ph <? p_filesz ph then mret None
      else
        let lo := if p_vaddr ph <? lo then p_vaddr ph else lo in
        let end_ := u64 (p_vaddr ph + p_memsz ph) in
        let hi := if hi <? end_ then end_ else hi in
        scan_segments n' (i + 1) bytes size phdrs lo hi true
  end.
(** [kernel/elf.c: elf_load_image 252-262] *)
Fixpoint copy_segments (n : nat) (i : Z) (bytes : list Z) (phdrs load_bias : Z) : M heap unit :=
  match n with
  | O => mret tt
  | S n' =>
      ph ← lift (read_phdr bytes (phdrs + SIZEOF_PHDR * i));
      (if negb (p_type ph =? PT_LOAD) then mret tt
       else
         src ← lift (read_range bytes (p_offset ph) (p_filesz ph));
         on_mem (mem_store src (u64 (p_vaddr ph + load_bias))));;
      copy_segments n' (i + 1) bytes phdrs load_bias
  end.
(** [bytes] is what [data] points to, [None] NULL; [out] is given back, [None] -1.
    [kernel/elf.c: elf_load_image] *)
Definition elf_load_image (data : option (list Z)) (size : Z) : M heap (option ElfImage) :=
  match data with
  | None => mret None
  | Some bytes =>
      if size <? SIZEOF_EHDR then mret None
      else
        eh ← lift (read_ehdr bytes);
        if negb (elf_check_header eh) then mret None
        else if size <? u64 (e_phoff eh + e_phnum eh * e_phentsize eh) then mret None
        else
          let phdrs := e_phoff eh in
          let phnum := Z.to_nat (e_phnum eh) in
          r ← scan_segments phnum 0 bytes size phdrs UINT64_MAX 0 false;
          match r with
          | None => mret None
          | Some (lo, hi, any_load) =>
              if negb any_load || (hi <=? lo) then mret None
              else
                let span := hi - lo in
                let page_count := u64 (span + PAGE_SIZE - 1) / PAGE_SIZE in
                image_base ← km_alloc_pages page_count;
                if image_base =? 0 then mret None
                else
                  on_mem (mem_fill (Z.to_nat (u64 (page_count * PAGE_SIZE))) image_base 0);;
                  let load_bias := u64 (image_base - lo) in
                  copy_segments phnum 0 bytes phdrs load_bias;;
                  rc ← (if e_type eh =? ET_DYN
                        then elf_apply_relocations bytes size phdrs (e_phnum eh) load_bias else mret 0);
                  if negb (rc =? 0) then km_free_pages image_base page_count;; mret None
                  else mret (Some (MkElfImage image_base page_count (u64 (e_entry eh + load_bias)) load_bias))
          end
  end.

(** ** Specification *)

(** The program headers [i .. i + n - 1]. *)
Fixpoint read_phdrs (n : nat) (i : Z) (bytes : list Z) (phdrs : Z) : option (list Elf64Phdr) :=
  match n with
  | O => Some []
  | S n' => ph ← read_phdr bytes (phdrs + SIZEOF_PHDR * i); rest ← read_phdrs n' (i + 1) bytes phdrs; Some (ph :: rest)
  end.
Definition is_load (ph : Elf64Phdr) : bool := p_type ph =? PT_LOAD.
Definition seg_fits (size : Z) (ph : Elf64Phdr) : bool :=
  negb (is_load ph) || (p_offset ph + p_filesz ph <=? size) && (p_filesz ph <=? p_memsz ph).
Definition lowest (lo : Z) (phs : list Elf64Phdr) : Z :=
  foldl (λ l ph, if is_load ph then Z.min l (p_vaddr ph) else l) lo phs.
Definition highest (hi : Z) (phs : list Elf64Phdr) : Z :=
  foldl (λ h ph, if is_load ph then Z.max h (p_vaddr ph + p_memsz ph) else h) hi phs.

(** The addresses [lo, hi) a file asks for, when it is one the loader accepts. *)
Definition elf_range (size : Z) (eh : Elf64Ehdr) (phs : list Elf64Phdr) : option (Z * Z) :=
  let lo := lowest UINT64_MAX phs in
  let hi := highest 0 phs in
  if elf_check_header eh && (e_phoff eh + e_phnum eh * e_phentsize eh <=? size) && forallb (seg_fits size) phs &&
     existsb is_load phs && (lo <? hi)
  then Some (lo, hi) else None.

(** The byte the file puts at address [va]: that of the last segment there, or 0. *)
Definition seg_byte (bytes : list Z) (va acc : Z) (ph : Elf64Phdr) : Z :=
  if is_load ph && (p_vaddr ph <=? va) && (va <? p_vaddr ph + p_filesz ph)
  then default 0 (bytes !!z (p_offset ph + (va - p_vaddr ph))) else acc.
Definition image_byte (bytes : list Z) (phs : list Elf64Phdr) (va : Z) : Z := foldl (seg_byte bytes va) 0 phs.

(** No sum of the file's own numbers leaves 64 bits; the code does not look. *)
Definition sums_fit (ph : Elf64Phdr) : Prop :=
  0 <= p_offset ph ∧ 0 <= p_vaddr ph ∧ 0 <= p_filesz ph ∧ 0 <= p_memsz ph ∧
  (is_load ph = true → p_offset ph + p_filesz ph < 2 ^ 64 ∧ p_vaddr ph + p_memsz ph < 2 ^ 64).

(** ** Lemmas *)
Lemma u64_id x : 0 <= x < 2 ^ 64 → u64 x = x.
Proof. intros H. unfold u64. by apply Z.mod_small. Qed.

(** Writing inside a live run of pages. *)
Lemma heap_inv_write_run h m' p c runs blocks :
  heap_inv h ((p, c) :: runs) blocks →
  (∀ a, ¬ (p <= a < p + c * PAGE_SIZE) → mem_get m' a = mem_get (hp_mem h) a) →
  heap_inv (Heap (hp_pmm h) m') ((p, c) :: runs) blocks ∧ same_bytes h (Heap (hp_pmm h) m') blocks.
Proof.
  intros I H.
  assert (D : ∀ q m, (q, m) ∈ blocks → ∀ a, q - HEADER_SIZE <= a < q + m → ¬ (p <= a < p + c * PAGE_SIZE)).
  { intros q m Hin a Ha. pose proof Hin as [bs' Pm]%elem_of_Permutation.
    assert (I' : heap_inv h ((p, c) :: runs) ((q, m) :: bs')) by (eapply heap_inv_perm; [reflexivity|exact Pm|exact I]).
    pose proof (inv_block _ _ _ _ _ I') as (_ & _ & Hm & _ & _). destruct I' as [_ [_ Dj] _].
    simpl in Dj. apply ForallOrdPairs_cons_iff in Dj as [Hd _]. apply Forall_app in Hd as [_ Hd].
    apply list.Forall_cons in Hd as [Hd _]. unfold run_disjoint, block_run in Hd. simpl in Hd. lia. }
  split.
  - apply heap_inv_mem; [done|]. intros q m a Hin Ha. apply H. eapply D; [exact Hin|].
    apply elem_of_Permutation in Hin as [bs' Pm].
    pose proof (inv_block h ((p, c) :: runs) q m bs' ltac:(eapply heap_inv_perm; [reflexivity|exact Pm|exact I])). lia.
  - intros q m a Hin Ha. simpl. apply H. eapply D; [exact Hin|unfold HEADER_SIZE; lia].
Qed.

Lemma run_bounds h p c runs blocks :
  heap_inv h ((p, c) :: runs) blocks → 0 < p ∧ 0 < c ∧ p + c * PAGE_SIZE < 2 ^ 64.
Proof.
  intros [W [O _] _]. apply Forall_app in O as [_ O]. apply list.Forall_cons in O as [(j & E & Hj & Hc & Hl & _) _].
  simpl in *. destruct (wf_hhdm _ W) as (H0 & _ & Ht). pose proof (Z.mul_div_le (highest_addr (hp_pmm h)) PAGE_SIZE ltac:(done)).
  unfold page_addr, total_pages, PAGE_SIZE in *. lia.
Qed.

(** One turn of the scan, on numbers that fit. *)
Lemma scan_wp size bytes phdrs n i phs lo hi any_load (Q : option (Z * Z * bool) → heap → Prop) h :
  read_phdrs n i bytes phdrs = Some phs → Forall sums_fit phs → 0 <= size →
  Q (if forallb (seg_fits size) phs then Some (lowest lo phs, highest hi phs, any_load || existsb is_load phs) else None) h →
  wp (scan_segments n i bytes size phdrs lo hi any_load) Q h.
Proof.
  revert i phs lo hi any_load. induction n as [|n IH]; intros i phs lo hi any_load Hr Hs Hz HQ; cbn [read_phdrs scan_segments] in *.
  { injection Hr as <-. wp_steps. by rewrite orb_false_r in HQ. }
  destruct (read_phdr _ _) as [ph|] eqn:Eph; [|done]. cbn [mbind option_bind] in Hr.
  destruct (read_phdrs n (i + 1) bytes phdrs) as [rest|] eqn:Er; [|done]. injection Hr as <-.
  apply list.Forall_cons in Hs as [Hph Hs]. wp_steps. eapply wp_lift; [reflexivity|]. cbn [forallb existsb lowest highest foldl] in HQ.
  unfold seg_fits at 1 in HQ. change (is_load ph) with (p_type ph =? PT_LOAD) in HQ.
  destruct (p_type ph =? PT_LOAD) eqn:El; cbn [negb orb andb] in *; [|by eapply IH].
  destruct Hph as (H1 & H2 & H3 & H4 & H5). unfold is_load in H5. destruct (H5 El) as [F1 F2]. rewrite !u64_id by lia.
  rewrite Z.leb_antisym, (Z.leb_antisym (p_memsz ph)) in HQ.
  destruct (size <? p_offset ph + p_filesz ph); cbn [negb andb] in *; [by wp_steps|].
  destruct (p_memsz ph <? p_filesz ph); cbn [negb andb] in *; [by wp_steps|].
  wp_steps. eapply IH; [done|done|done|]. rewrite orb_true_r in HQ. cbn [orb].
  replace (if p_vaddr ph <? lo then p_vaddr ph else lo) with (Z.min lo (p_vaddr ph)) by (destruct (Z.ltb_spec (p_vaddr ph) lo); lia).
  replace (if hi <? p_vaddr ph + p_memsz ph then p_vaddr ph + p_memsz ph else hi) with (Z.max hi (p_vaddr ph + p_memsz ph))
    by (destruct (Z.ltb_spec hi (p_vaddr ph + p_memsz ph)); lia).
  exact HQ.
Qed.

(** The range contains every segment. *)
Lemma lowest_le lo phs : lowest lo phs <= lo ∧ ∀ ph, ph ∈ phs → is_load ph = true → lowest lo phs <= p_vaddr ph.
Proof.
  unfold lowest. revert lo. induction phs as [|x phs IH]; intros lo; cbn [foldl].
  - split; [done|]. intros ph Hin. by apply elem_of_nil in Hin.
  - destruct (IH (if is_load x then Z.min lo (p_vaddr x) else lo)) as [H1 H2]. split; [destruct (is_load x); lia|].
    intros ph [->|Hin]%elem_of_cons Hl; [rewrite Hl in *; lia|by apply H2].
Qed.
Lemma highest_ge hi phs : hi <= highest hi phs ∧ ∀ ph, ph ∈ phs → is_load ph = true → p_vaddr ph + p_memsz ph <= highest hi phs.
Proof.
  unfold highest. revert hi. induction phs as [|x phs IH]; intros hi; cbn [foldl].
  - split; [done|]. intros ph Hin. by apply elem_of_nil in Hin.
  - destruct (IH (if is_load x then Z.max hi (p_vaddr x + p_memsz x) else hi)) as [H1 H2]. split; [destruct (is_load x); lia|].
    intros ph [->|Hin]%elem_of_cons Hl; [rewrite Hl in *; lia|by apply H2].
Qed.
Lemma highest_lt hi phs : hi < 2 ^ 64 → Forall sums_fit phs → highest hi phs < 2 ^ 64.
Proof.
  unfold highest. intros Hh Hs. revert hi Hh. induction Hs as [|ph phs (_ & _ & _ & _ & F) Hs IH]; intros hi Hh; cbn [foldl]; [done|].
  apply IH. destruct (is_load ph); [|done]. destruct (F eq_refl). lia.
Qed.
Lemma lowest_nonneg lo phs : 0 <= lo → Forall sums_fit phs → 0 <= lowest lo phs.
Proof.
  unfold lowest. intros Hh Hs. revert lo Hh. induction Hs as [|ph phs (_ & F & _) Hs IH]; intros lo Hh; cbn [foldl]; [done|].
  apply IH. destruct (is_load ph); lia.
Qed.

(** Copying the segments builds the image byte by byte. *)
Lemma copy_wp bytes phdrs lo base bias n i phs (Q : unit → heap → Prop) h :
  read_phdrs n i bytes phdrs = Some phs → Forall sums_fit phs →
  forallb (seg_fits (Z.of_nat (length bytes))) phs = true →
  (∀ ph, ph ∈ phs → is_load ph = true → u64 (p_vaddr ph + bias) = base + (p_vaddr ph - lo)) →
  (∀ m', (∀ k, mem_get m' (base + k) = foldl (seg_byte bytes (lo + k)) (mem_get (hp_mem h) (base + k)) phs) →
     Q tt (Heap (hp_pmm h) m')) →
  wp (copy_segments n i bytes phdrs bias) Q h.
Proof.
  revert i phs h. induction n as [|n IH]; intros i phs h Hr Hs Hf Hb HQ; cbn [read_phdrs copy_segments] in *.
  { injection Hr as <-. wp_steps. destruct h. by apply HQ. }
  destruct (read_phdr _ _) as [ph|] eqn:Eph; [|done]. cbn [mbind option_bind] in Hr.
  destruct (read_phdrs n (i + 1) bytes phdrs) as [rest|] eqn:Er; [|done]. injection Hr as <-.
  apply list.Forall_cons in Hs as [Hph Hs]. cbn [forallb] in Hf. apply andb_prop in Hf as [Hfit Hf].
  wp_steps. eapply wp_lift; [reflexivity|].
  assert (Hb' : ∀ ph, ph ∈ rest → is_load ph = true → u64 (p_vaddr ph + bias) = base + (p_vaddr ph - lo))
    by (intros; apply Hb; [by apply elem_of_cons; right|done]).
  destruct (p_type ph =? PT_LOAD) eqn:El; cbn [negb].
  2:{ wp_steps. eapply IH; [done|done|done|done|]. intros m' Hm. apply HQ. intros k. cbn [foldl]. unfold seg_byte at 2, is_load. rewrite El. apply Hm. }
  unfold seg_fits, is_load in Hfit. rewrite El in Hfit. cbn [negb orb] in Hfit. apply andb_prop in Hfit as [F1%Z.leb_le F2%Z.leb_le].
  destruct Hph as (H1 & H2 & H3 & H4 & H5).
  wp_steps. eapply wp_lift; [apply read_range_spec; lia|]. unfold on_mem. wp_steps.
  rewrite (Hb ph) by (done || by apply elem_of_cons; left).
  eapply IH; [done|done|done|done|]. intros m' Hm. apply HQ. intros k. rewrite Hm. cbn [foldl hp_mem]. f_equal.
  assert (Hlen : Z.of_nat (length (spec_read bytes (p_offset ph) (p_filesz ph))) = p_filesz ph).
  { unfold spec_read. rewrite length_take, length_drop. lia. }
  rewrite mem_store_get, Hlen. unfold seg_byte, is_load. rewrite El. cbn [andb].
  destruct (Z.leb_spec (p_vaddr ph) (lo + k)), (Z.ltb_spec (lo + k) (p_vaddr ph + p_filesz ph)); cbn [andb];
    first [rewrite decide_False by lia|rewrite decide_True by lia]; [|done ..].
  f_equal. unfold spec_read, lookupZ. destruct (Z.ltb_spec (base + k - (base + (p_vaddr ph - lo))) 0); [lia|].
  destruct (Z.ltb_spec (p_offset ph + (lo + k - p_vaddr ph)) 0); [lia|]. rewrite lookup_take_lt by lia. rewrite lookup_drop. f_equal. lia.
Qed.

Lemma find_dynamic_none bytes size phdrs n i phs (Q : option (bool * dynamic) → heap → Prop) h :
  read_phdrs n i bytes phdrs = Some phs → existsb (λ ph, p_type ph =? PT_DYNAMIC) phs = false →
  Q (Some (false, dynamic0)) h → wp (find_dynamic n i bytes size phdrs) Q h.
Proof.
  revert i phs. induction n as [|n IH]; intros i phs Hr Hd HQ; cbn [read_phdrs find_dynamic] in *; [by wp_steps|].
  destruct (read_phdr _ _) as [ph|] eqn:Eph; [|done]. cbn [mbind option_bind] in Hr.
  destruct (read_phdrs n (i + 1) bytes phdrs) as [rest|] eqn:Er; [|done]. injection Hr as <-.
  cbn [existsb] in Hd. apply orb_false_iff in Hd as [Hd1 Hd2]. wp_steps. eapply wp_lift; [reflexivity|]. rewrite Hd1. cbn [negb].
  by eapply IH.
Qed.

(** The pages of an image. *)
Definition image_pages (lo hi : Z) : Z := u64 (hi - lo + PAGE_SIZE - 1) / PAGE_SIZE.
(** A file with nothing to relocate. *)
Definition static (eh : Elf64Ehdr) (phs : list Elf64Phdr) : bool :=
  negb (e_type eh =? ET_DYN) || negb (existsb (λ ph, p_type ph =? PT_DYNAMIC) phs).

Lemma image_pages_bound lo hi : lo < hi < 2 ^ 64 → 0 <= lo → image_pages lo hi = 0 ∨ hi - lo <= image_pages lo hi * PAGE_SIZE ∧ 0 < image_pages lo hi.
Proof.
  intros H1 H2. unfold image_pages, u64, PAGE_SIZE. destruct (decide (hi - lo + 4096 - 1 < 2 ^ 64)) as [Hs|Hs].
  - right. rewrite Z.mod_small by lia. pose proof (Z.div_mod (hi - lo + 4096 - 1) 4096 ltac:(done)).
    pose proof (Z.mod_pos_bound (hi - lo + 4096 - 1) 4096 ltac:(done)). lia.
  - left. rewrite <- (Z.mod_unique (hi - lo + 4096 - 1) (2 ^ 64) 1 (hi - lo + 4096 - 1 - 2 ^ 64)) by lia.
    apply Z.div_small. lia.
Qed.

(** What a load leaves behind. *)
Definition loaded (h : heap) (runs blocks : list (Z * Z)) (bytes : list Z) (eh : Elf64Ehdr) (phs : list Elf64Phdr)
    (r : option ElfImage) (h' : heap) : Prop :=
  let range := elf_range (Z.of_nat (length bytes)) eh phs in
  match r with
  | None => h' = h ∧ (range = None ∨ ∃ lo hi, range = Some (lo, hi) ∧ km_alloc_pages (image_pages lo hi) h = Some (0, h))
  | Some img => ∃ lo hi base, range = Some (lo, hi) ∧
      img = MkElfImage base (image_pages lo hi) (u64 (e_entry eh + (base - lo))) (u64 (base - lo)) ∧
      base ≠ 0 ∧ (∃ h1, km_alloc_pages (image_pages lo hi) h = Some (base, h1)) ∧
      heap_inv h' ((base, image_pages lo hi) :: runs) blocks ∧ same_bytes h h' blocks ∧
      hi - lo <= image_pages lo hi * PAGE_SIZE ∧
      ∀ k, 0 <= k < image_pages lo hi * PAGE_SIZE → mem_get (hp_mem h') (base + k) = image_byte bytes phs (lo + k)
  end.

(** The pages are there: cleared, filled and left as they are. *)
Lemma fill_image_wp h h1 runs blocks bytes phdrs n phs lo hi base (Q : unit → heap → Prop) :
  heap_inv h1 ((base, image_pages lo hi) :: runs) blocks → same_bytes h h1 blocks →
  read_phdrs n 0 bytes phdrs = Some phs → Forall sums_fit phs → forallb (seg_fits (Z.of_nat (length bytes))) phs = true →
  lo = lowest UINT64_MAX phs → hi = highest 0 phs → 0 <= lo < hi → hi < 2 ^ 64 → hi - lo <= image_pages lo hi * PAGE_SIZE →
  (∀ h', heap_inv h' ((base, image_pages lo hi) :: runs) blocks → same_bytes h h' blocks →
     (∀ k, 0 <= k < image_pages lo hi * PAGE_SIZE → mem_get (hp_mem h') (base + k) = image_byte bytes phs (lo + k)) → Q tt h') →
  wp (on_mem (mem_fill (Z.to_nat (u64 (image_pages lo hi * PAGE_SIZE))) base 0);; copy_segments n 0 bytes phdrs (u64 (base - lo))) Q h1.
Proof.
  intros I1 S1 Hr Hs Hf El Eh Hlo Hhi Hsp HQ. pose proof (run_bounds _ _ _ _ _ I1) as (B1 & B2 & B3).
  set (pc := image_pages lo hi) in *. unfold on_mem. wp_steps. rewrite (u64_id (pc * PAGE_SIZE)) by (unfold PAGE_SIZE in *; lia).
  assert (Hin : ∀ ph, ph ∈ phs → is_load ph = true → lo <= p_vaddr ph ∧ p_vaddr ph + p_memsz ph <= hi ∧ p_filesz ph <= p_memsz ph).
  { intros ph Hin Hl. destruct (lowest_le UINT64_MAX phs) as [_ L]. destruct (highest_ge 0 phs) as [_ G].
    specialize (L ph Hin Hl). specialize (G ph Hin Hl). split_and!; [lia|lia|].
    assert (Hfit : seg_fits (Z.of_nat (length bytes)) ph = true) by (eapply forallb_forall; [exact Hf|by apply list_elem_of_In]).
    unfold seg_fits in Hfit. rewrite Hl in Hfit. cbn [negb orb] in Hfit. apply andb_prop in Hfit as [_ Hm%Z.leb_le]. exact Hm. }
  eapply (copy_wp bytes phdrs lo base); [exact Hr|exact Hs|exact Hf| |].
  - intros ph Hph Hl. destruct (Hin ph Hph Hl) as (L & G & _). assert (Hz : 0 <= p_memsz ph) by (rewrite list.Forall_forall in Hs; apply (Hs ph Hph)).
    unfold u64. rewrite Zplus_mod_idemp_r. rewrite Z.mod_small; unfold PAGE_SIZE in *; lia.
  - intros m' Hm. cbn [hp_mem hp_pmm] in *.
    assert (K : ∀ k, ¬ (0 <= k < pc * PAGE_SIZE) → ∀ acc phs', (∀ ph, ph ∈ phs' → ph ∈ phs) → foldl (seg_byte bytes (lo + k)) acc phs' = acc).
    { intros k Hk acc phs'. revert acc. induction phs' as [|ph phs' IH]; intros acc Hsub; [done|]. cbn [foldl].
      rewrite IH by (intros; apply Hsub; by apply elem_of_cons; right). unfold seg_byte. destruct (is_load ph) eqn:El'; [|done].
      destruct (Hin ph (Hsub ph ltac:(by apply elem_of_cons; left)) El') as (L & G & F). cbn [andb].
      destruct (Z.leb_spec (p_vaddr ph) (lo + k)); [|done]. destruct (Z.ltb_spec (lo + k) (p_vaddr ph + p_filesz ph)); [lia|done]. }
    assert (Hout : ∀ a, ¬ (base <= a < base + pc * PAGE_SIZE) → mem_get m' a = mem_get (hp_mem h1) a).
    { intros a Ha. replace a with (base + (a - base)) by lia. rewrite Hm, K by (done || lia).
      rewrite mem_fill_get, decide_False by lia. done. }
    destruct (heap_inv_write_run h1 m' _ _ _ _ I1 Hout) as [I2 S2]. apply HQ; [exact I2| |].
    + intros q m a Hq Ha. rewrite (S2 q m a Hq Ha). by apply (S1 q m a).
    + intros k Hk. cbn [hp_mem]. rewrite Hm, mem_fill_get, decide_True by lia. done.
Qed.

Lemma elf_load_wp h runs blocks bytes eh phs :
  heap_inv h runs blocks →
  read_ehdr bytes = Some eh → read_phdrs (Z.to_nat (e_phnum eh)) 0 bytes (e_phoff eh) = Some phs →
  Forall sums_fit phs → 0 <= e_phoff eh + e_phnum eh * e_phentsize eh < 2 ^ 64 → static eh phs = true →
  64 <= Z.of_nat (length bytes) →
  wp (elf_load_image (Some bytes) (Z.of_nat (length bytes))) (loaded h runs blocks bytes eh phs) h.
Proof.
  intros I Eeh Ephs Hs Hph St Hlen. unfold elf_load_image. destruct (Z.ltb_spec (Z.of_nat (length bytes)) SIZEOF_EHDR); [unfold SIZEOF_EHDR in *; lia|].
  wp_steps. eapply wp_lift; [exact Eeh|]. unfold loaded. set (post := λ (r : option ElfImage) h', _).
  assert (Bad : elf_range (Z.of_nat (length bytes)) eh phs = None → post None h) by (intros E; split; [done|by left]).
  unfold elf_range in Bad. destruct (elf_check_header eh) eqn:Ec; cbn [negb andb] in *; [|wp_steps; by apply Bad].
  rewrite u64_id by lia. rewrite Z.leb_antisym in Bad. destruct (_ <? e_phoff eh + _) eqn:Et; cbn [negb andb] in *; [wp_steps; by apply Bad|].
  wp_steps. eapply scan_wp; [exact Ephs|exact Hs|lia|]. destruct (forallb _ phs) eqn:Ef; cbn [andb] in *; [|wp_steps; by apply Bad].
  cbn [orb]. set (lo := lowest UINT64_MAX phs) in *. set (hi := highest 0 phs) in *. rewrite Z.leb_antisym.
  destruct (existsb is_load phs) eqn:Ee; cbn [negb orb andb] in *; [|wp_steps; by apply Bad].
  destruct (Z.ltb_spec lo hi) as [Hlh|Hlh]; cbn [negb] in *; [|wp_steps; by apply Bad]. clear Bad.
  assert (Er : elf_range (Z.of_nat (length bytes)) eh phs = Some (lo, hi)).
  { unfold elf_range. fold lo hi. rewrite Ec, Ef, Ee, Z.leb_antisym, Et, (proj2 (Z.ltb_lt lo hi) Hlh). done. }
  change (u64 (hi - lo + PAGE_SIZE - 1) / PAGE_SIZE) with (image_pages lo hi).
  assert (Hlo : 0 <= lo) by (by apply lowest_nonneg). assert (Hhi : hi < 2 ^ 64) by (by apply highest_lt).
  assert (A : wp (km_alloc_pages (image_pages lo hi)) (λ p h1, p = 0 ∧ h1 = h ∨
    p ≠ 0 ∧ hi - lo <= image_pages lo hi * PAGE_SIZE ∧ heap_inv h1 ((p, image_pages lo hi) :: runs) blocks ∧ same_bytes h h1 blocks) h).
  { destruct (image_pages_bound lo hi) as [E0|[Hsp Hpc]]; [lia|lia| |].
    - rewrite E0. cbn [km_alloc_pages heap_kernel_mem]. apply on_pmm_wp. apply pmm_alloc_pages_zero_wp; [apply I|]. left. by destruct h.
    - eapply km_alloc_pages_law; [exact I|exact Hpc|by left|]. intros p h1 Hp I1 S1. by right. }
  apply wp_run in A as (base & h1 & E1 & A). apply wp_bind. eapply wp_run. exists base, h1. split; [exact E1|].
  destruct A as [[-> ->]|(Hb & Hsp & I1 & S1)]; [wp_steps; split; [done|right; eauto]|].
  destruct (Z.eqb_spec base 0); [done|].
  pose proof (run_bounds _ _ _ _ _ I1) as (B1 & B2 & B3).
  assert (F := fill_image_wp h h1 runs blocks bytes (e_phoff eh) (Z.to_nat (e_phnum eh)) phs lo hi base
    (λ _ h', heap_inv h' ((base, image_pages lo hi) :: runs) blocks ∧ same_bytes h h' blocks ∧
       ∀ k, 0 <= k < image_pages lo hi * PAGE_SIZE → mem_get (hp_mem h') (base + k) = image_byte bytes phs (lo + k))
    I1 S1 Ephs Hs Ef eq_refl eq_refl (conj Hlo Hlh) Hhi Hsp ltac:(by intros)).
  apply wp_run in F as ([] & h2 & E2 & I2 & S2 & C2). unfold mbind, M_bind, wp in E2 |- *.
  destruct (on_mem _ h1) as [[[] h1']|] eqn:E3; [|done]. rewrite E2. cbn beta iota.
  change (wp (rc ← (if e_type eh =? ET_DYN then elf_apply_relocations bytes (Z.of_nat (length bytes)) (e_phoff eh) (e_phnum eh) (u64 (base - lo)) else mret 0);
    (if negb (rc =? 0) then km_free_pages base (image_pages lo hi);; mret None
     else mret (Some (MkElfImage base (image_pages lo hi) (u64 (e_entry eh + u64 (base - lo))) (u64 (base - lo)))))) post h2).
  assert (R : wp (if e_type eh =? ET_DYN then elf_apply_relocations bytes (Z.of_nat (length bytes)) (e_phoff eh) (e_phnum eh) (u64 (base - lo)) else mret 0)
    (λ rc h', rc = 0 ∧ h' = h2) h2).
  { unfold static in St. destruct (e_type eh =? ET_DYN); cbn [negb orb] in St; [|by wp_steps]. apply negb_true_iff in St.
    unfold elf_apply_relocations. wp_steps. eapply find_dynamic_none; [exact Ephs|exact St|]. by wp_steps. }
  wp_steps. eapply wp_mono; [exact R|]. intros rc h3 [-> ->]. cbn [Z.eqb negb]. wp_steps.
  exists lo, hi, base. split_and!; try done; [|by exists h1]. unfold u64. by rewrite Zplus_mod_idemp_r.
Qed.

(** ** Relocation against memory as it was

    What a table does when nothing it writes is read again by it: the code to return
    and the words to store, all from the memory before. *)
Fixpoint rela_spec (n : nat) (r relas symtab load_bias : Z) (m : mem) : Z * list (Z * Z) :=
  match n with
  | O => (0, [])
  | S n' =>
      let rel := load_rela m (relas + SIZEOF_RELA * r) in
      match reloc_value m symtab load_bias rel with
      | RelocNone => rela_spec n' (r + 1) relas symtab load_bias m
      | RelocValue v =>
          let (rc, l) := rela_spec n' (r + 1) relas symtab load_bias m in
          (rc, (u64 (r_offset rel + load_bias), v) :: l)
      | RelocBad => (-1, [])
      end
  end.
Definition store_words (l : list (Z * Z)) (m : mem) : mem := foldl (λ m x, store64 x.1 x.2 m) m l.

(** The symbol entry [i] uses, and the bytes a table of [n] entries reads. *)
Definition rela_sym (relas symtab i : Z) (m : mem) : Z :=
  symtab + SIZEOF_SYM * ELF64_R_SYM (r_info (load_rela m (relas + SIZEOF_RELA * i))).
Definition table_reads (n : nat) (relas symtab : Z) (m : mem) (a : Z) : Prop :=
  relas <= a < relas + SIZEOF_RELA * Z.of_nat n ∨
  ∃ i, 0 <= i < Z.of_nat n ∧ rela_sym relas symtab i m <= a < rela_sym relas symtab i m + SIZEOF_SYM.
(** The table and the symbols do not wrap around. *)
Definition table_fits (n : nat) (relas symtab : Z) (m : mem) : Prop :=
  0 <= relas ∧ relas + SIZEOF_RELA * Z.of_nat n <= 2 ^ 64 ∧ 0 <= symtab ∧
  ∀ i, 0 <= i < Z.of_nat n → rela_sym relas symtab i m + SIZEOF_SYM <= 2 ^ 64.

Lemma load_rela_ext m m' a :
  0 <= a → a + SIZEOF_RELA <= 2 ^ 64 → (∀ x, a <= x < a + SIZEOF_RELA → mem_get m' x = mem_get m x) → load_rela m' a = load_rela m a.
Proof.
  unfold SIZEOF_RELA. intros H0 H1 H. unfold load_rela. rewrite !u64_id by lia.
  f_equal; apply load64_ext; intros x Hx; apply H; lia.
Qed.

Lemma reloc_value_ext m m' symtab bias rel :
  let sym := symtab + SIZEOF_SYM * ELF64_R_SYM (r_info rel) in
  0 <= symtab → sym + SIZEOF_SYM <= 2 ^ 64 → (∀ x, sym <= x < sym + SIZEOF_SYM → mem_get m' x = mem_get m x) →
  reloc_value m' symtab bias rel = reloc_value m symtab bias rel.
Proof.
  intros sym H0 H1 H. unfold reloc_value. fold sym.
  assert (Hs : 0 <= sym).
  { unfold sym, ELF64_R_SYM, u32, SIZEOF_SYM. pose proof (Z.mod_pos_bound (Z.shiftr (r_info rel) 32) (2 ^ 32) ltac:(done)). lia. }
  unfold SIZEOF_SYM in *. rewrite !(u64_id sym) by lia. rewrite !(u64_id (sym + 6)), !(u64_id (sym + 8)) by lia.
  rewrite (mem_load_ext 2 m' m) by (intros; apply H; lia). rewrite (load64_ext m' m) by (intros; apply H; lia). done.
Qed.

Lemma reloc_value_bound m symtab bias rel v : reloc_value m symtab bias rel = RelocValue v → 0 <= v < 2 ^ 64.
Proof.
  unfold reloc_value, u64. intros E. repeat case_match; simplify_eq; apply Z.mod_pos_bound; lia.
Qed.

Lemma rela_table_wp m0 n relas symtab bias k r (Q : Z → heap → Prop) h :
  table_fits n relas symtab m0 → 0 <= r → r + Z.of_nat k = Z.of_nat n →
  (∀ a, table_reads n relas symtab m0 a → mem_get (hp_mem h) a = mem_get m0 a) →
  Forall (λ x, ∀ a, x.1 <= a < x.1 + 8 → ¬ table_reads n relas symtab m0 a) (rela_spec k r relas symtab bias m0).2 →
  Q (rela_spec k r relas symtab bias m0).1 (Heap (hp_pmm h) (store_words (rela_spec k r relas symtab bias m0).2 (hp_mem h))) →
  wp (elf_apply_rela_table k r relas symtab bias) Q h.
Proof.
  intros Fit Hr Hk Hag. revert r Hr Hk h Hag. induction k as [|k IH]; intros r Hr Hk h Hag Hw HQ; cbn [elf_apply_rela_table rela_spec] in *.
  { wp_steps. destruct h. exact HQ. }
  destruct Fit as (F1 & F2 & F3 & F4). wp_steps.
  assert (Ea : u64 (relas + SIZEOF_RELA * r) = relas + SIZEOF_RELA * r) by (apply u64_id; unfold SIZEOF_RELA in *; lia). rewrite Ea.
  set (a := relas + SIZEOF_RELA * r) in *.
  rewrite (load_rela_ext m0 (hp_mem h) a).
  2,3: unfold a, SIZEOF_RELA in *; lia.
  2:{ intros x Hx. apply Hag. left. unfold a, SIZEOF_RELA in *. lia. }
  set (rel := load_rela m0 a) in *. rewrite (reloc_value_ext m0 (hp_mem h)).
  2:{ exact F3. }
  2:{ apply (F4 r). lia. }
  2:{ intros x Hx. apply Hag. right. exists r. split; [lia|exact Hx]. }
  destruct (reloc_value m0 symtab bias rel) as [|v|]; [apply IH; try done; lia| |by wp_steps; destruct h].
  unfold on_mem. destruct (rela_spec k (r + 1) relas symtab bias m0) as [rc l] eqn:E. cbn [fst snd store_words foldl] in *.
  apply list.Forall_cons in Hw as [Hw1 Hw]. wp_steps. apply IH; [lia|lia| | |]; rewrite ?E; [|exact Hw|exact HQ].
  intros x Hx. cbn [hp_mem]. rewrite store64_get; [by apply Hag|]. intros Hin. by apply (Hw1 x).
Qed.

Lemma store_words_get l m x : Forall (λ y, ¬ (y.1 <= x < y.1 + 8)) l → mem_get (store_words l m) x = mem_get m x.
Proof.
  intros F. revert m. induction F as [|y l Hy F IH]; intros m; [done|]. cbn [store_words foldl]. unfold store_words in IH.
  rewrite IH. by apply store64_get.
Qed.

Definition apart (x y : Z * Z) : Prop := x.1 + 8 <= y.1 ∨ y.1 + 8 <= x.1.
Lemma store_words_load l m x :
  ForallOrdPairs apart l → Forall (λ y, 0 <= y.2 < 2 ^ 64) l → x ∈ l → load64 (store_words l m) x.1 = x.2.
Proof.
  intros D. revert m. induction D as [|y l Hy D IH]; intros m B Hx; [by apply elem_of_nil in Hx|].
  apply list.Forall_cons in B as [By B]. cbn [store_words foldl]. apply elem_of_cons in Hx as [->|Hx]; [|by apply IH].
  rewrite (load64_ext _ (store64 y.1 y.2 m)); [by apply load_store64|]. intros a Ha.
  apply store_words_get. eapply list.Forall_impl; [exact Hy|]. unfold apart. intros z Hz. cbn beta. lia.
Qed.

Lemma rela_spec_bound n r relas symtab bias m : Forall (λ y, 0 <= y.2 < 2 ^ 64) (rela_spec n r relas symtab bias m).2.
Proof.
  revert r. induction n as [|n IH]; intros r; cbn [rela_spec]; [constructor|].
  destruct (reloc_value m symtab bias _) as [|v|] eqn:E; [apply IH| |constructor].
  specialize (IH (r + 1)). destruct (rela_spec n (r + 1) relas symtab bias m). cbn in *. constructor; [|done]. by eapply reloc_value_bound.
Qed.

(** * Properties *)

(** The program headers of a file. *)
Definition phdrs_of (bs : list Z) (eh : Elf64Ehdr) : list Elf64Phdr :=
  default [] (read_phdrs (Z.to_nat (e_phnum eh)) 0 bs (e_phoff eh)).
(** A segment whose ends do not wrap, in the file and in memory. *)
Definition no_wrap (ph : Elf64Phdr) : Prop :=
  is_load ph = true → p_offset ph + p_filesz ph < 2 ^ 64 ∧ p_vaddr ph + p_memsz ph < 2 ^ 64.
(** A file whose sums do not wrap, whose entries of the table of program headers have at
    least the size the loader takes them to have, and that has nothing to relocate. *)
Definition plain (bs : list Z) (eh : Elf64Ehdr) : Prop :=
  e_phoff eh + e_phnum eh * e_phentsize eh < 2 ^ 64 ∧ SIZEOF_PHDR <= e_phentsize eh ∧
  Forall no_wrap (phdrs_of bs eh) ∧ static eh (phdrs_of bs eh) = true.

Lemma field_ok bs off n : bytes bs → 0 <= off → 0 <= n → off + n <= Z.of_nat (length bs) → ∃ v, field bs off n = Some v ∧ 0 <= v < 256 ^ n.
Proof.
  intros Hb Ho Hn Hl. unfold field, read_range. destruct (Z.leb_spec 0 off), (Z.leb_spec (off + n) (Z.of_nat (length bs))); try lia. cbn [andb].
  eexists. split; [reflexivity|].
  assert (L : length (take (Z.to_nat n) (drop (Z.to_nat off) bs)) = Z.to_nat n) by (rewrite length_take, length_drop; lia).
  pose proof (le_combine_bound (take (Z.to_nat n) (drop (Z.to_nat off) bs))) as B. rewrite L, Z2Nat.id in B by done.
  apply B. by apply Forall_take, Forall_drop.
Qed.
Lemma read_ehdr_ok bs : bytes bs → 64 <= Z.of_nat (length bs) →
  ∃ eh, read_ehdr bs = Some eh ∧ 0 <= e_phoff eh < 2 ^ 64 ∧ 0 <= e_phentsize eh < 2 ^ 16 ∧ 0 <= e_phnum eh < 2 ^ 16.
Proof.
  intros Hb Hl. unfold read_ehdr. unfold read_range. destruct (Z.leb_spec (0 + 16) (Z.of_nat (length bs))); [|lia]. cbn [Z.leb andb mbind option_bind].
  destruct (field_ok bs 16 2 Hb) as (v1 & -> & _); [lia..|]. destruct (field_ok bs 18 2 Hb) as (v2 & -> & _); [lia..|].
  destruct (field_ok bs 24 8 Hb) as (v3 & -> & _); [lia..|]. destruct (field_ok bs 32 8 Hb) as (v4 & -> & B4); [lia..|].
  destruct (field_ok bs 54 2 Hb) as (v5 & -> & B5); [lia..|]. destruct (field_ok bs 56 2 Hb) as (v6 & -> & B6); [lia..|].
  cbn [mbind option_bind]. eexists. split; [reflexivity|]. cbn. done.
Qed.
Lemma read_phdrs_ok bs phdrs n i : bytes bs → 0 <= phdrs → 0 <= i → phdrs + SIZEOF_PHDR * (i + Z.of_nat n) <= Z.of_nat (length bs) →
  ∃ phs, read_phdrs n i bs phdrs = Some phs ∧ (Forall no_wrap phs → Forall sums_fit phs).
Proof.
  intros Hb Hp. unfold SIZEOF_PHDR. revert i. induction n as [|n IH]; intros i Hi Hl; cbn [read_phdrs]; [exists []; split; [done|intros _; apply list.Forall_nil_2]|].
  unfold read_phdr. unfold SIZEOF_PHDR. set (a := phdrs + 56 * i).
  assert (Ha : 0 <= a ∧ a + 56 <= Z.of_nat (length bs)) by (unfold a; lia).
  destruct (field_ok bs a 4 Hb) as (v1 & -> & _); [lia..|]. destruct (field_ok bs (a + 8) 8 Hb) as (v2 & -> & B2); [lia..|].
  destruct (field_ok bs (a + 16) 8 Hb) as (v3 & -> & B3); [lia..|]. destruct (field_ok bs (a + 32) 8 Hb) as (v4 & -> & B4); [lia..|].
  destruct (field_ok bs (a + 40) 8 Hb) as (v5 & -> & B5); [lia..|]. cbn [mbind option_bind].
  destruct (IH (i + 1)) as (phs & -> & F); [lia|lia|]. cbn [mbind option_bind]. eexists. split; [reflexivity|].
  intros [H1 H2]%list.Forall_cons. apply list.Forall_cons. split; [|by apply F]. split_and!; cbn; try lia. exact H1.
Qed.

(** C20 (functional) [elf_load_image, elf_check_header, scan_segments, copy_segments, elf_apply_relocations, find_dynamic]
    Whatever the bytes of a file, as long as its own sums fit in 64 bits, it counts
    its program headers with at least the size they have, and it has nothing to relocate, the loader refuses it or
    loads it (the lemmas after this one show files that break the first two conditions and are
    read beyond their end).  It is refused, with nothing changed, exactly when it is
    shorter than a header, when its header or a segment is wrong, when no segment is loadable or when memory is
    out.  Otherwise the image is a fresh run of pages that holds every segment where the
    file wants it and zeros elsewhere, its entry point is that of the file moved by the distance between
    the image and the lowest segment, and no other memory in use has changed. *)
Theorem elf_load_image_correct h runs blocks bs :
  heap_inv h runs blocks → bytes bs →
  (∀ eh, read_ehdr bs = Some eh → elf_check_header eh = true → plain bs eh) →
  ∃ r h', elf_load_image (Some bs) (Z.of_nat (length bs)) h = Some (r, h') ∧
    if Z.of_nat (length bs) <? SIZEOF_EHDR then r = None ∧ h' = h
    else ∃ eh, read_ehdr bs = Some eh ∧ loaded h runs blocks bs eh (phdrs_of bs eh) r h'.
Proof.
  intros I Hb Hp. destruct (Z.ltb_spec (Z.of_nat (length bs)) SIZEOF_EHDR) as [Hs|Hl].
  { exists None, h. split; [|done]. unfold elf_load_image. by rewrite (proj2 (Z.ltb_lt _ _) Hs). }
  destruct (read_ehdr_ok bs Hb) as (eh & Eeh & B1 & B2 & B3); [exact Hl|].
  assert (W : wp (elf_load_image (Some bs) (Z.of_nat (length bs))) (loaded h runs blocks bs eh (phdrs_of bs eh)) h).
  { assert (Refuse : elf_range (Z.of_nat (length bs)) eh (phdrs_of bs eh) = None → loaded h runs blocks bs eh (phdrs_of bs eh) None h).
    { intros E. split; [done|by left]. }
    destruct (elf_check_header eh) eqn:Ec.
    2:{ unfold elf_load_image. rewrite (proj2 (Z.ltb_ge _ _) Hl). wp_steps. eapply wp_lift; [exact Eeh|]. rewrite Ec. cbn [negb]. wp_steps.
      apply Refuse. unfold elf_range. by rewrite Ec. }
    destruct (Hp eh Eeh Ec) as (P1 & P2 & P3 & P4).
    destruct (Z.leb_spec (e_phoff eh + e_phnum eh * e_phentsize eh) (Z.of_nat (length bs))) as [Ht|Ht].
    - destruct (read_phdrs_ok bs (e_phoff eh) (Z.to_nat (e_phnum eh)) 0 Hb) as (phs & Ephs & F); [lia|lia|nia|].
      unfold phdrs_of in *. rewrite Ephs in *. cbn [default] in *. apply elf_load_wp; try done; [by apply F|nia].
    - unfold elf_load_image. rewrite (proj2 (Z.ltb_ge _ _) Hl). wp_steps. eapply wp_lift; [exact Eeh|]. rewrite Ec. cbn [negb].
      rewrite u64_id by nia. rewrite (proj2 (Z.ltb_lt _ _) Ht). wp_steps.
      apply Refuse. unfold elf_range. rewrite (proj2 (Z.leb_gt _ _) Ht), andb_false_r. done. }
  apply wp_run in W as (r & h' & E & L). exists r, h'. split; [exact E|]. by exists eh.
Qed.

(** A relocation table whose targets do not overlap it, its symbols or each other is
    applied as if every entry were computed from the memory before: each target holds
    its entry's value, the other bytes are unchanged, and the table is refused at the
    first entry of an unknown kind or with an undefined symbol. *)
Lemma elf_apply_rela_table_correct n relas symtab bias h :
  let spec := rela_spec n 0 relas symtab bias (hp_mem h) in
  table_fits n relas symtab (hp_mem h) →
  Forall (λ x, ∀ a, x.1 <= a < x.1 + 8 → ¬ table_reads n relas symtab (hp_mem h) a) spec.2 →
  ForallOrdPairs apart spec.2 →
  ∃ m', elf_apply_rela_table n 0 relas symtab bias h = Some (spec.1, Heap (hp_pmm h) m') ∧
    (∀ t v, (t, v) ∈ spec.2 → load64 m' t = v) ∧
    (∀ a, Forall (λ x, ¬ (x.1 <= a < x.1 + 8)) spec.2 → mem_get m' a = mem_get (hp_mem h) a).
Proof.
  intros spec Fit Hw D. exists (store_words spec.2 (hp_mem h)). split_and!.
  - apply wp_eq. eapply (rela_table_wp (hp_mem h) n); [exact Fit|lia|lia|done|exact Hw|done].
  - intros t v Hin. by apply (store_words_load _ _ (t, v) D (rela_spec_bound n 0 relas symtab bias (hp_mem h))).
  - intros a Ha. by apply store_words_get.
Qed.

(** * Witnesses *)

(** A program of one segment: 4 bytes at 0x1000, 16 in memory, entered at its third. *)
Definition demo_ehdr (ty : Z) : list Z :=
  ELF_MAGIC ++ [2; 1; 1] ++ replicate 9 0 ++ le_split 2 ty ++ le_split 2 EM_X86_64 ++ le_split 4 1 ++ le_split 8 0x1002 ++
  le_split 8 64 ++ le_split 8 0 ++ le_split 4 0 ++ le_split 2 64 ++ le_split 2 56 ++ le_split 2 1 ++ le_split 6 0.
Definition demo_phdr (offset filesz : Z) : list Z :=
  le_split 4 PT_LOAD ++ le_split 4 5 ++ le_split 8 offset ++ le_split 8 0x1000 ++ le_split 8 0x1000 ++ le_split 8 filesz ++
  le_split 8 16 ++ le_split 8 8.
Definition demo_elf : list Z := demo_ehdr ET_EXEC ++ demo_phdr 120 4 ++ [11; 22; 33; 44].
Definition demo_eh : Elf64Ehdr := default (MkEhdr [] 0 0 0 0 0 0) (read_ehdr demo_elf).

Definition demo_run : M heap (option ElfImage) := elf_load_image (Some demo_elf) 124.

Lemma demo_elf_plain eh : read_ehdr demo_elf = Some eh → elf_check_header eh = true → plain demo_elf eh.
Proof.
  intros E _. assert (Some demo_eh = Some eh) as [= <-] by (rewrite <- E; vm_compute; reflexivity).
  split; [vm_compute; reflexivity|]. split; [vm_compute; discriminate|]. split; [|vm_compute; reflexivity].
  assert (Ep : phdrs_of demo_elf demo_eh = [MkPhdr PT_LOAD 120 0x1000 4 16]) by (vm_compute; reflexivity). rewrite Ep.
  apply list.Forall_cons. split; [|apply list.Forall_nil_2]. intros _. split; vm_compute; reflexivity.
Qed.
Lemma demo_elf_bytes : bytes demo_elf.
Proof.
  assert (E : forallb (λ b, (0 <=? b) && (b <? 256)) demo_elf = true) by (vm_compute; reflexivity). rewrite forallb_forall in E.
  apply list.Forall_forall. intros b Hb%list_elem_of_In. specialize (E b Hb). unfold is_byte. lia.
Qed.

Lemma elf_load_image_correct_witness :
  fst <$> demo_run demo_heap = Some (Some (MkElfImage (2 ^ 47 + 0x2000) 1 (2 ^ 47 + 0x2002) (2 ^ 47 + 0x1000))) ∧
  mem_load 6 (hp_mem (run_state demo_run demo_heap)) (2 ^ 47 + 0x2000) = [11; 22; 33; 44; 0; 0] ∧
  ∃ r h', demo_run demo_heap = Some (r, h') ∧
    ∃ eh, read_ehdr demo_elf = Some eh ∧ loaded demo_heap [] [] demo_elf eh (phdrs_of demo_elf eh) r h'.
Proof.
  split; [vm_compute; reflexivity|]. split; [vm_compute; reflexivity|].
  exact (elf_load_image_correct demo_heap [] [] demo_elf demo_heap_inv demo_elf_bytes demo_elf_plain).
Defined.

(** A segment whose end wraps passes the checks; the copy then leaves the file. *)
Definition wrapped_elf : list Z := demo_ehdr ET_EXEC ++ demo_phdr (2 ^ 64 - 8) 12.
Lemma elf_wrapped_segment_escapes :
  fst <$> scan_segments 1 0 wrapped_elf 120 64 UINT64_MAX 0 false demo_heap = Some (Some (0x1000, 0x1010, true)) ∧
  elf_load_image (Some wrapped_elf) 120 demo_heap = None.
Proof. split; vm_compute; reflexivity. Qed.
(** Program headers are counted by [e_phentsize] but read by their size: with one of 0
    the check passes and the headers are read beyond the file. *)
Definition short_elf : list Z := take 54 (demo_ehdr ET_EXEC) ++ le_split 2 0 ++ drop 56 (demo_ehdr ET_EXEC).
Lemma elf_phentsize_escapes : elf_load_image (Some short_elf) 64 demo_heap = None.
Proof. vm_compute. reflexivity. Qed.

(** Two entries at 0x100: the base at 0x200, then symbol 1 plus 5 at 0x208. *)
Definition demo_table : list Z :=
  le_split 8 0x200 ++ le_split 8 R_X86_64_RELATIVE ++ le_split 8 7 ++
  le_split 8 0x208 ++ le_split 8 (2 ^ 32 + R_X86_64_64) ++ le_split 8 5.
Definition demo_syms : list Z := replicate 24 0 ++ le_split 4 0 ++ [0; 0] ++ le_split 2 1 ++ le_split 8 0x40 ++ le_split 8 0.
Definition demo_rela_heap : heap := Heap demo_pmm (mem_store demo_syms 0x300 (mem_store demo_table 0x100 ∅)).

Lemma elf_apply_rela_table_correct_witness :
  rela_spec 2 0 0x100 0x300 0x1000 (hp_mem demo_rela_heap) = (0, [(0x1200, 0x1007); (0x1208, 0x1045)]) ∧
  ∃ m', elf_apply_rela_table 2 0 0x100 0x300 0x1000 demo_rela_heap = Some (0, Heap demo_pmm m') ∧
    (∀ t v, (t, v) ∈ [(0x1200, 0x1007); (0x1208, 0x1045)] → load64 m' t = v) ∧
    (∀ a, Forall (λ x, ¬ (x.1 <= a < x.1 + 8)) [(0x1200, 0x1007); (0x1208, 0x1045)] → mem_get m' a = mem_get (hp_mem demo_rela_heap) a).
Proof.
  assert (E : rela_spec 2 0 0x100 0x300 0x1000 (hp_mem demo_rela_heap) = (0, [(0x1200, 0x1007); (0x1208, 0x1045)])) by (vm_compute; reflexivity).
  split; [exact E|]. pose proof (elf_apply_rela_table_correct 2 0x100 0x300 0x1000 demo_rela_heap) as W. cbv zeta in W. rewrite E in W.
  assert (S1 : ∀ i, 0 <= i < 2 → rela_sym 0x100 0x300 i (hp_mem demo_rela_heap) = 0x300 ∨ rela_sym 0x100 0x300 i (hp_mem demo_rela_heap) = 0x318).
  { intros i Hi. assert (i = 0 ∨ i = 1) as [->| ->] by lia; vm_compute; auto. }
  apply W.
  - split_and!; [lia|vm_compute; discriminate|lia|]. intros i Hi. destruct (S1 i ltac:(lia)) as [-> | ->]; vm_compute; discriminate.
  - repeat (apply list.Forall_cons; split); [| |constructor]; cbn [fst]; intros a Ha [Hr|(i & Hi & Hs)];
      try (unfold SIZEOF_RELA in Hr; lia); unfold SIZEOF_SYM in Hs; destruct (S1 i ltac:(lia)) as [E1|E1]; rewrite E1 in Hs; lia.
  - repeat constructor; cbn; lia.
Defined.

