(* ===== verification/Rtc.v ===== *)
(** * kernel/devices/rtc.c: the clock of the CMOS

    The registers are read until two readings agree, and decoded from the format the
    clock is set to: binary or BCD, 12 or 24 hours.  The chip behind the two ports is the
    class [Cmos]; a clock as the rest of the kernel sees it is the class [Clock]. *)
From S2P Require Import Prelude.
Local Open Scope kernel_scope.

(** [kernel/devices/rtc.h 1-11] *)
Record RtcTime := MkRtcTime { rt_year : Z; rt_month : Z; rt_day : Z; rt_hour : Z; rt_minute : Z; rt_second : Z; rt_weekday : Z }.

(** A read of a register: [outb] of its number, then [inb]. *)
Class Cmos (C : Type) := { cmos_read : Z → M C Z }.
(** [rtc_read], with the time it stores. *)
Class Clock (C : Type) := { clk_rtc_read : M C (Z * RtcTime) }.

(** [kernel/devices/rtc.c: bcd_to_bin] *)
Definition bcd_to_bin (v : Z) : Z := u8 (Z.land v 0x0F + Z.shiftr v 4 * 10).
Definition zero_time : RtcTime := MkRtcTime 0 0 0 0 0 0 0.
(** What the registers [a] stand for under the status byte [b]; in 12-hour mode bit 7 of the
    hour is PM. [kernel/devices/rtc.c: rtc_read 48-70] *)
Definition rtc_decode (a : list Z) (b : Z) : option RtcTime :=
  match a with
  | [s; m; h; d; mo; y; w] =>
      let pm := negb (Z.land h 0x80 =? 0) in
      let h := Z.land h 0x7F in
      let bin := if Z.land b 0x04 =? 0 then bcd_to_bin else λ v, v in
      let h := bin h in
      let h := if Z.land b 0x02 =? 0 then (if pm then u8 (h mod 12 + 12) else h mod 12) else h in
      Some (MkRtcTime (u16 (2000 + bin y)) (bin mo) (bin d) h (bin m) (bin s) (u8 ((bin w + 6) mod 7)))
  | _ => None
  end.

Section Rtc.
Context {C : Type} `{Cmos C}.
(** The polls a loop waits for. *)
Context (patience : nat).

(** [while (cmos_read(0x0A) & 0x80) pause();] *)
Fixpoint rtc_wait (fuel : nat) : M C unit :=
  a ← cmos_read 0x0A;
  if Z.land a 0x80 =? 0 then mret tt else match fuel with O => fail | S fuel' => rtc_wait fuel' end.
(** [kernel/devices/rtc.c: rtc_read_raw] *)
Definition rtc_read_raw : M C (list Z) :=
  rtc_wait patience;;
  r0 ← cmos_read 0x00; r1 ← cmos_read 0x02; r2 ← cmos_read 0x04; r3 ← cmos_read 0x07;
  r4 ← cmos_read 0x08; r5 ← cmos_read 0x09; r6 ← cmos_read 0x06;
  mret [r0; r1; r2; r3; r4; r5; r6].
(** [kernel/devices/rtc.c: rtc_read 38-44] *)
Fixpoint rtc_agree (fuel : nat) (a : list Z) : M C (list Z) :=
  b ← rtc_read_raw;
  if decide (a = b) then mret a else match fuel with O => fail | S fuel' => rtc_agree fuel' b end.
(** [kernel/devices/rtc.c: rtc_read] *)
Definition rtc_read : M C (Z * RtcTime) :=
  a ← rtc_read_raw;
  a ← rtc_agree patience a;
  b ← cmos_read 0x0B;
  t ← lift (rtc_decode a b);
  mret (0, t).
#[export] Instance rtc_clock : Clock C := { clk_rtc_read := rtc_read }.
End Rtc.

(** ** A chip that shows a time *)

(** The formats: [bcd], and [h12] for 12 hours. *)
Definition rtc_digits (bcd : bool) (v : Z) : Z := if bcd then v / 10 * 16 + v mod 10 else v.
Definition rtc_hour (bcd h12 : bool) (h : Z) : Z :=
  if h12 then rtc_digits bcd (if h mod 12 =? 0 then 12 else h mod 12) + (if 12 <=? h then 128 else 0) else rtc_digits bcd h.
Definition valid_time (t : RtcTime) : Prop :=
  2000 <= rt_year t < 2100 ∧ 1 <= rt_month t <= 12 ∧ 1 <= rt_day t <= 31 ∧ 0 <= rt_hour t < 24 ∧ 0 <= rt_minute t < 60 ∧
  0 <= rt_second t < 60 ∧ 0 <= rt_weekday t < 7.
(** Sunday is day 1 of the chip and 0 of the kernel. *)
Definition rtc_registers (bcd h12 : bool) (t : RtcTime) (r : Z) : Z :=
  if r =? 0x00 then rtc_digits bcd (rt_second t) else if r =? 0x02 then rtc_digits bcd (rt_minute t)
  else if r =? 0x04 then rtc_hour bcd h12 (rt_hour t) else if r =? 0x07 then rtc_digits bcd (rt_day t)
  else if r =? 0x08 then rtc_digits bcd (rt_month t) else if r =? 0x09 then rtc_digits bcd (rt_year t - 2000)
  else if r =? 0x06 then rtc_digits bcd (rt_weekday t + 1)
  else if r =? 0x0B then (if bcd then 0 else 4) + (if h12 then 0 else 2)
  else 0.
(** The chip between two of its updates. *)
#[export] Instance still_cmos : Cmos (Z → Z) := { cmos_read r := regs ← get; mret (regs r) }.


Lemma digits_bin (bcd : bool) v : 0 <= v < 100 → (if bcd then bcd_to_bin else λ v, v) (rtc_digits bcd v) = v.
Proof.
  intros Hv. destruct bcd; [|done]. apply Z.eqb_eq.
  by apply (check_range (λ v, bcd_to_bin (rtc_digits true v) =? v) 100); [vm_compute|].
Qed.
Lemma hour_bin (bcd h12 : bool) h :
  0 <= h < 24 →
  let x := rtc_hour bcd h12 h in
  let y := (if bcd then bcd_to_bin else λ v, v) (Z.land x 0x7F) in
  (if h12 then (if negb (Z.land x 0x80 =? 0) then u8 (y mod 12 + 12) else y mod 12) else y) = h.
Proof.
  intros Hh x y. apply Z.eqb_eq. subst x y.
  apply (check_range (λ h, let x := rtc_hour bcd h12 h in
    let y := (if bcd then bcd_to_bin else λ v, v) (Z.land x 0x7F) in
    (if h12 then (if negb (Z.land x 0x80 =? 0) then u8 (y mod 12 + 12) else y mod 12) else y) =? h) 24); [|done].
  destruct bcd, h12; by vm_compute.
Qed.

(** Whatever time the chip shows, in binary or BCD and on a clock of 12 or 24 hours, [rtc_read]
    gives that time. *)
Lemma rtc_read_correct (bcd h12 : bool) (patience : nat) t :
  valid_time t → rtc_read patience (rtc_registers bcd h12 t) = Some ((0, t), rtc_registers bcd h12 t).
Proof.
  intros (Hy & Hmo & Hd & Hh & Hmi & Hs & Hw). apply wp_eq. unfold rtc_read.
  set (a := [rtc_digits bcd (rt_second t); rtc_digits bcd (rt_minute t); rtc_hour bcd h12 (rt_hour t); rtc_digits bcd (rt_day t);
    rtc_digits bcd (rt_month t); rtc_digits bcd (rt_year t - 2000); rtc_digits bcd (rt_weekday t + 1)]).
  assert (R : rtc_read_raw patience (rtc_registers bcd h12 t) = Some (a, rtc_registers bcd h12 t)) by (destruct patience; reflexivity).
  assert (A : rtc_agree patience patience a (rtc_registers bcd h12 t) = Some (a, rtc_registers bcd h12 t)).
  { destruct patience; cbn [rtc_agree]; unfold mbind, M_bind; rewrite R; by rewrite decide_True. }
  assert (Dec : rtc_decode a (rtc_registers bcd h12 t 0x0B) = Some t).
  { change (rtc_registers bcd h12 t 0x0B) with ((if bcd then 0 else 4) + (if h12 then 0 else 2)). unfold rtc_decode, a. set (b := (if bcd then 0 else 4) + (if h12 then 0 else 2)).
    replace (Z.land b 4 =? 0) with bcd by (by subst b; destruct bcd, h12). replace (Z.land b 2 =? 0) with h12 by (by subst b; destruct bcd, h12).
    pose proof (hour_bin bcd h12 (rt_hour t) Hh) as Eh. cbv zeta in Eh. rewrite Eh, !digits_bin by lia.
    rewrite u16_small by lia. replace (rt_weekday t + 1 + 6) with (rt_weekday t + 1 * 7) by lia. rewrite Z_mod_plus_full, (Z.mod_small (rt_weekday t)) by lia.
    rewrite u8_small by lia. replace (2000 + (rt_year t - 2000)) with (rt_year t) by lia. by destruct t. }
  wp_steps. rewrite wp_run. exists a, (rtc_registers bcd h12 t). split; [exact R|]. wp_steps. rewrite wp_run. exists a, (rtc_registers bcd h12 t).
  split; [exact A|]. unfold cmos_read, still_cmos. wp_steps. eapply wp_lift; [exact Dec|]. by wp_steps.
Qed.

Lemma rtc_read_correct_witness :
  let t := MkRtcTime 2026 12 31 0 59 7 4 in rtc_read 3 (rtc_registers true true t) = Some ((0, t), rtc_registers true true t).
Proof. intros t. apply rtc_read_correct. unfold valid_time. cbn. lia. Defined.
