(* ===== verification/Block.v ===== *)
(** * kernel/drivers/disk/block.c: block devices

    Disks are registered by their drivers; partitions found on them are devices of their
    own, with an offset into the disk.  Every transfer goes through one bounce buffer in
    pieces of at most [BLOCK_MAX_TRANSFER] sectors.  What the drivers do is the class
    [DiskDriver].  [BlockApi] is the interface the file systems use; BlockIo.v
    shows that block.c implements it.  A [BlockDevice *] is an index into [block_devices], -1 is NULL. *)
From S2P Require Import Prelude RawMem Pmm Heap VfsTypes Ramfs.
Local Open Scope kernel_scope.

(** [kernel/drivers/disk/block.h 1-17] *)
Definition BLOCK_SECTOR_SIZE : Z := 512.
Definition BLOCK_MAX_DEVICES : Z := 32.
Definition BLOCK_MAX_TRANSFER : Z := 128.
Definition BLOCK_MODEL_MAX : nat := 41.
Definition DEVFS_IOCTL_DISK_GET_INFO : Z := 0x1200.
Definition DEVFS_IOCTL_DISK_PARTITION : Z := 0x1201.
Definition DEVFS_IOCTL_DISK_FORMAT : Z := 0x1202.
Definition DEVFS_IOCTL_DISK_READ : Z := 0x1203.
Definition DEVFS_IOCTL_DISK_WRITE : Z := 0x1204.
(** [kernel/drivers/disk/block.c 1-7] *)
Definition BLOCK_MAX_PARTITIONS : Z := 8.
Definition BLOCK_BOUNCE_PAGES : Z := BLOCK_MAX_TRANSFER * BLOCK_SECTOR_SIZE / PAGE_SIZE.
Definition GPT_ENTRIES : Z := 128.
Definition GPT_ENTRY_SIZE : Z := 128.
Definition GPT_ENTRY_SECTORS : Z := GPT_ENTRIES * GPT_ENTRY_SIZE / BLOCK_SECTOR_SIZE.
Definition GPT_ALIGN : Z := 2048.

(** [bd_io] is the driver that serves the disk, 0 when it is a partition; [bd_flush] whether
    it has a [flush]. [kernel/drivers/disk/block.h 23-44] *)
Record BlockDevice := MkBlockDevice {
  bd_name : str; bd_model : str; bd_kind : Z; bd_sectors : Z; bd_offset : Z; bd_parent : Z;
  bd_index : Z; bd_mounts : Z; bd_io : Z; bd_flush : bool; bd_used : bool
}.
Definition zero_device : BlockDevice := MkBlockDevice [] [] 0 0 0 (-1) 0 0 0 false false.
Definition set_bd_used (b : bool) (d : BlockDevice) : BlockDevice :=
  MkBlockDevice (bd_name d) (bd_model d) (bd_kind d) (bd_sectors d) (bd_offset d) (bd_parent d) (bd_index d) (bd_mounts d)
    (bd_io d) (bd_flush d) b.
Definition set_bd_sectors (n : Z) (d : BlockDevice) : BlockDevice :=
  MkBlockDevice (bd_name d) (bd_model d) (bd_kind d) n (bd_offset d) (bd_parent d) (bd_index d) (bd_mounts d)
    (bd_io d) (bd_flush d) (bd_used d).
Definition set_bd_offset (n : Z) (d : BlockDevice) : BlockDevice :=
  MkBlockDevice (bd_name d) (bd_model d) (bd_kind d) (bd_sectors d) n (bd_parent d) (bd_index d) (bd_mounts d)
    (bd_io d) (bd_flush d) (bd_used d).
Definition set_bd_mounts (n : Z) (d : BlockDevice) : BlockDevice :=
  MkBlockDevice (bd_name d) (bd_model d) (bd_kind d) (bd_sectors d) (bd_offset d) (bd_parent d) (bd_index d) n
    (bd_io d) (bd_flush d) (bd_used d).

(** ** The interface of the file systems *)

(** [ba_read dev lba count] gives the result and the bytes read; [ba_write] is given the
    bytes of [count] sectors. *)
Class BlockApi (B : Type) := {
  ba_read : Z → Z → Z → M B (Z * list Z);
  ba_write : Z → Z → Z → list Z → M B Z;
  ba_flush : Z → M B Z;
  ba_device : Z → M B BlockDevice;
  ba_add_mounts : Z → Z → M B unit;
  ba_random : M B Z
}.

(** What a driver does: a transfer between the disk and the buffer, a flush; and the
    counter of the processor, from which random numbers are made. *)
Class DiskDriver (D : Type) := {
  dd_io : Z → Z → Z → list Z → bool → M D (Z * list Z);
  dd_flush : Z → M D Z;
  dd_rdtsc : M D Z
}.

(** ** Checksums and names *)

(** One bit of the checksum. *)
Definition crc_bit (crc : Z) : Z := Z.lxor (Z.shiftr crc 1) (Z.land 0xEDB88320 (u32 (0 - Z.land crc 1))).
Definition crc_byte (crc b : Z) : Z := Nat.iter 8 crc_bit (Z.lxor crc b).
(** [kernel/drivers/disk/block.c: block_crc32] *)
Definition block_crc32 (data : list Z) (crc : Z) : Z :=
  Z.lxor (foldl crc_byte (Z.lxor crc 0xFFFFFFFF) data) 0xFFFFFFFF.

(** The characters of the words, high byte first, without spaces and NULs at the end. *)
Definition word_chars (w : Z) : str := [char_of (w / 256); char_of (w mod 256)].
Fixpoint trim_rev (l : str) : str :=
  match l with
  | c :: l' => if bool_decide (c = " "%char ∨ c = "000"%char) then trim_rev l' else l
  | [] => []
  end.
(** [kernel/drivers/disk/block.c: block_copy_ata_string] *)
Definition block_copy_ata_string (words : list Z) : str := rev (trim_rev (rev (words ≫= word_chars))).

(** ** Partition tables *)

(** [kernel/drivers/disk/block.c 9-26] *)
Record GptHeader := MkGptHeader {
  g_signature : list Z; g_revision : Z; g_header_size : Z; g_header_crc : Z; g_my_lba : Z; g_alternate_lba : Z;
  g_first_usable : Z; g_last_usable : Z; g_disk_guid : list Z; g_entries_lba : Z; g_entry_count : Z; g_entry_size : Z;
  g_entries_crc : Z
}.
(** [kernel/drivers/disk/block.c 28-37] *)
Record GptEntry := MkGptEntry {
  ge_type_guid : list Z; ge_unique_guid : list Z; ge_first_lba : Z; ge_last_lba : Z; ge_attributes : Z; ge_name : list Z
}.
Definition SIZEOF_GPT_HEADER : Z := 92.
Definition EFI_PART : list Z := [69; 70; 73; 32; 80; 65; 82; 84].
(** [kernel/drivers/disk/block.c 39-46] *)
Definition gpt_bios_boot_guid : list Z := [72; 97; 104; 33; 73; 100; 111; 110; 116; 78; 101; 101; 100; 69; 70; 73].
Definition gpt_esp_guid : list Z := [0x28; 0x73; 0x2A; 0xC1; 0x1F; 0xF8; 0xD2; 0x11; 0xBA; 0x4B; 0x00; 0xA0; 0xC9; 0x3E; 0xC9; 0x3B].

(** The structures in memory, packed. *)
Definition gpt_header_bytes (h : GptHeader) : list Z :=
  g_signature h ++ le_split 4 (g_revision h) ++ le_split 4 (g_header_size h) ++ le_split 4 (g_header_crc h) ++ le_split 4 0 ++
  le_split 8 (g_my_lba h) ++ le_split 8 (g_alternate_lba h) ++ le_split 8 (g_first_usable h) ++ le_split 8 (g_last_usable h) ++
  g_disk_guid h ++ le_split 8 (g_entries_lba h) ++ le_split 4 (g_entry_count h) ++ le_split 4 (g_entry_size h) ++
  le_split 4 (g_entries_crc h).
Definition gpt_entry_bytes (e : GptEntry) : list Z :=
  ge_type_guid e ++ ge_unique_guid e ++ le_split 8 (ge_first_lba e) ++ le_split 8 (ge_last_lba e) ++
  le_split 8 (ge_attributes e) ++ (ge_name e ≫= le_split 2).
(** The field of [n] bytes at [off]. *)
Definition le_field (l : list Z) (off n : Z) : option Z := le_combine <$> read_range l off n.
Definition read_gpt_header (l : list Z) : option GptHeader :=
  sg ← read_range l 0 8; rv ← le_field l 8 4; hs ← le_field l 12 4; hc ← le_field l 16 4; my ← le_field l 24 8;
  al ← le_field l 32 8; fu ← le_field l 40 8; lu ← le_field l 48 8; dg ← read_range l 56 16; el ← le_field l 72 8;
  ec ← le_field l 80 4; es ← le_field l 84 4; cr ← le_field l 88 4;
  Some (MkGptHeader sg rv hs hc my al fu lu dg el ec es cr).
Definition read_gpt_entry (l : list Z) (off : Z) : option (list Z * Z * Z) :=
  ty ← read_range l off 16; f ← le_field l (off + 32) 8; la ← le_field l (off + 40) 8; _ ← read_range l off 128; Some (ty, f, la).

Section Block.
Context {H : Type} `{KM : KernelMem H} {D : Type} `{DD : DiskDriver D}.

(** The statics of the file. [kernel/drivers/disk/block.c 48-51] *)
Record blockst := Blockst {
  block_devices : list BlockDevice; block_bounce : option (list Z); block_disk_count : Z; block_seed : Z;
  bk_mem : H; bk_disk : D
}.
Definition set_devices (l : list BlockDevice) (s : blockst) : blockst :=
  Blockst l (block_bounce s) (block_disk_count s) (block_seed s) (bk_mem s) (bk_disk s).
Definition set_bounce (b : option (list Z)) (s : blockst) : blockst :=
  Blockst (block_devices s) b (block_disk_count s) (block_seed s) (bk_mem s) (bk_disk s).
Definition set_disk_count (n : Z) (s : blockst) : blockst :=
  Blockst (block_devices s) (block_bounce s) n (block_seed s) (bk_mem s) (bk_disk s).
Definition set_seed (n : Z) (s : blockst) : blockst :=
  Blockst (block_devices s) (block_bounce s) (block_disk_count s) n (bk_mem s) (bk_disk s).
Definition on_bk_mem {A} (m : M H A) : M blockst A :=
  zoom bk_mem (λ h s, Blockst (block_devices s) (block_bounce s) (block_disk_count s) (block_seed s) h (bk_disk s)) m.
Definition on_disk {A} (m : M D A) : M blockst A :=
  zoom bk_disk (λ d s, Blockst (block_devices s) (block_bounce s) (block_disk_count s) (block_seed s) (bk_mem s) d) m.

Definition device (i : Z) : M blockst BlockDevice := s ← get; lift (block_devices s !!z i).
Definition device_upd (i : Z) (f : BlockDevice → BlockDevice) : M blockst unit :=
  d ← device i; s ← get; l ← lift (updateZ i (f d) (block_devices s)); modify (set_devices l).

Definition mix (x k : Z) : Z := u64 (x * k).
(** [kernel/drivers/disk/block.c: block_random] *)
Definition block_random : M blockst Z :=
  t ← on_disk dd_rdtsc;
  x ← gets block_seed;
  let x := Z.lxor x (u64 (t + 0x9E3779B97F4A7C15)) in
  let x := mix (Z.lxor x (Z.shiftr x 30)) 0xBF58476D1CE4E5B9 in
  let x := mix (Z.lxor x (Z.shiftr x 27)) 0x94D049BB133111EB in
  let x := Z.lxor x (Z.shiftr x 31) in
  modify (set_seed x);;
  mret x.
(** [kernel/drivers/disk/block.c: block_random_guid] *)
Definition block_random_guid : M blockst (list Z) :=
  a ← block_random; b ← block_random;
  let g := le_split 8 a ++ le_split 8 b in
  x ← lift (g !!z 7); y ← lift (g !!z 8);
  g ← lift (updateZ 7 (Z.lor (Z.land x 0x0F) 0x40) g);
  lift (updateZ 8 (Z.lor (Z.land y 0x3F) 0x80) g).

(** ** Devices *)

(** [kernel/drivers/disk/block.c: block_init] *)
Definition block_init : M blockst unit :=
  p ← on_bk_mem (km_alloc_pages BLOCK_BOUNCE_PAGES);
  h ← gets bk_mem;
  modify (set_bounce (if p =? 0 then None else Some (bytes_at (Z.to_nat (BLOCK_BOUNCE_PAGES * PAGE_SIZE)) p h))).

(** [for (int i = 0; i < BLOCK_MAX_DEVICES; i++)], the first device that [f] takes, -1 if none. *)
Fixpoint find_device (n : nat) (i : Z) (f : BlockDevice → bool) : M blockst Z :=
  match n with
  | O => mret (-1)
  | S n' => d ← device i; if f d then mret i else find_device n' (i + 1) f
  end.
Definition first_device (f : BlockDevice → bool) : M blockst Z := find_device (Z.to_nat BLOCK_MAX_DEVICES) 0 f.
(** [kernel/drivers/disk/block.c: block_alloc] *)
Definition block_alloc : M blockst Z :=
  i ← first_device (λ d, negb (bd_used d));
  if i =? -1 then mret (-1) else device_upd i (λ _, set_bd_used true zero_device);; mret i.
(** [kernel/drivers/disk/block.c: block_get] *)
Definition block_get (i : Z) : M blockst Z :=
  if (i <? 0) || (BLOCK_MAX_DEVICES <=? i) then mret (-1)
  else d ← device i; mret (if bd_used d then i else -1).

(** ** Transfers *)

(** Where a device is on its disk. [kernel/drivers/disk/block.c: block_root_io 148-152] *)
Fixpoint root_device (fuel : nat) (dev lba : Z) : M blockst (Z * Z) :=
  d ← device dev;
  if bd_parent d =? -1 then mret (dev, lba)
  else match fuel with O => fail | S fuel' => root_device fuel' (bd_parent d) (u64 (lba + bd_offset d)) end.
(** The pieces of a transfer; [done] are the bytes already moved, [p] all those to write.
    [kernel/drivers/disk/block.c: block_root_io 155-172] *)
Fixpoint io_loop (fuel : nat) (io lba count : Z) (p : list Z) (write : bool) (done : list Z) : M blockst (Z * list Z) :=
  if count =? 0 then mret (0, done)
  else match fuel with
  | O => fail
  | S fuel' =>
      let n := Z.min count BLOCK_MAX_TRANSFER in
      let bytes := n * BLOCK_SECTOR_SIZE in
      b ← gets block_bounce;
      bounce ← lift b;
      bounce ← (if write then lift (src ← read_range p 0 bytes; write_range bounce 0 src) else mret bounce);
      r ← on_disk (dd_io io lba n bounce write);
      modify (set_bounce (Some r.2));;
      if negb (r.1 =? 0) then mret (-1, done)
      else
        out ← (if write then mret [] else lift (read_range r.2 0 bytes));
        io_loop fuel' io (u64 (lba + n)) (count - n) (if write then drop (Z.to_nat bytes) p else p) write (done ++ out)
  end.
(** [kernel/drivers/disk/block.c: block_root_io] *)
Definition block_root_io (dev lba count : Z) (buf : list Z) (write : bool) : M blockst (Z * list Z) :=
  if dev =? -1 then mret (-1, [])
  else
    b ← gets block_bounce;
    if bool_decide (b = None) || (count =? 0) then mret (-1, [])
    else
      d ← device dev;
      if (bd_sectors d <? u64 (lba + count)) || (u64 (lba + count) <? lba) then mret (-1, [])
      else
        r ← root_device (Z.to_nat BLOCK_MAX_DEVICES) dev lba;
        root ← device r.1;
        io_loop (Z.to_nat count) (bd_io root) r.2 count buf write [].
(** [kernel/drivers/disk/block.c: block_read] *)
Definition block_read (dev lba count : Z) : M blockst (Z * list Z) := block_root_io dev lba count [] false.
(** [kernel/drivers/disk/block.c: block_write] *)
Definition block_write (dev lba count : Z) (buf : list Z) : M blockst Z :=
  r ← block_root_io dev lba count buf true; mret r.1.
(** [kernel/drivers/disk/block.c: block_flush] *)
Definition block_flush (dev : Z) : M blockst Z :=
  if dev =? -1 then mret 0
  else
    r ← root_device (Z.to_nat BLOCK_MAX_DEVICES) dev 0;
    d ← device r.1;
    if bd_flush d then on_disk (dd_flush (bd_io d)) else mret 0.

(** ** Partitions *)

(** [kernel/drivers/disk/block.c: block_partition_slot] *)
Definition block_partition_slot (disk index : Z) : M blockst Z :=
  i ← first_device (λ d, bd_used d && (bd_parent d =? disk) && (bd_index d =? index));
  if negb (i =? -1) then mret i
  else
    p ← block_alloc;
    if p =? -1 then mret (-1)
    else
      d ← device disk;
      device_upd p (λ x, MkBlockDevice (bd_name d ++ ["p"%char; char_of (48 + index)]) (bd_model d) (bd_kind d) (bd_sectors x)
                           (bd_offset x) disk index (bd_mounts x) (bd_io x) (bd_flush x) (bd_used x));;
      mret p.
(** [kernel/drivers/disk/block.c: block_add_partition] *)
Definition block_add_partition (disk index start sectors : Z) : M blockst unit :=
  d ← device disk;
  if (bd_sectors d <=? start) || (sectors =? 0) then mret tt
  else
    let sectors := if bd_sectors d <? u64 (start + sectors) then bd_sectors d - start else sectors in
    p ← block_partition_slot disk index;
    if p =? -1 then mret tt
    else device_upd p (set_bd_offset start);; device_upd p (set_bd_sectors sectors).

(** Entries [i] onwards; [sector] is the last one read, a division by zero a crash.
    [kernel/drivers/disk/block.c: block_scan_gpt] *)
Fixpoint scan_gpt_loop (n : nat) (i : Z) (disk : Z) (h : GptHeader) (sector : list Z) (found : Z) : M blockst Z :=
  match n with
  | O => mret found
  | S n' =>
      if BLOCK_MAX_PARTITIONS <=? found then mret found
      else
        let per_sector := BLOCK_SECTOR_SIZE / g_entry_size h in
        if per_sector =? 0 then fail
        else
          r ← (if i mod per_sector =? 0 then block_read disk (u64 (g_entries_lba h + i / per_sector)) 1 else mret (0, sector));
          if negb (r.1 =? 0) then mret found
          else
            e ← lift (read_gpt_entry r.2 (i mod per_sector * g_entry_size h));
            let '(type_guid, first_lba, last_lba) := e in
            if bool_decide (type_guid = replicate 16 0) || (last_lba <? first_lba) then
              scan_gpt_loop n' (i + 1) disk h r.2 found
            else
              block_add_partition disk (found + 1) first_lba (u64 (last_lba - first_lba + 1));;
              scan_gpt_loop n' (i + 1) disk h r.2 (found + 1)
  end.
Definition block_scan_gpt (disk : Z) (sector : list Z) : M blockst Z :=
  h ← lift (read_gpt_header sector);
  if negb (bool_decide (g_signature h = EFI_PART)) || (g_entry_size h <? GPT_ENTRY_SIZE) then mret (-1)
  else scan_gpt_loop (Z.to_nat (Z.min (g_entry_count h) GPT_ENTRIES)) 0 disk h sector 0.

(** [kernel/drivers/disk/block.c: block_scan_mbr] *)
Fixpoint scan_mbr_loop (n : nat) (i : Z) (disk : Z) (sector : list Z) (found : Z) : M blockst Z :=
  match n with
  | O => mret found
  | S n' =>
      let e := 446 + i * 16 in
      type ← lift (sector !!z (e + 4)); start ← lift (le_field sector (e + 8) 4); count ← lift (le_field sector (e + 12) 4);
      if (type =? 0) || (type =? 0xEE) || (count =? 0) then scan_mbr_loop n' (i + 1) disk sector found
      else block_add_partition disk (found + 1) start count;; scan_mbr_loop n' (i + 1) disk sector (found + 1)
  end.
Definition block_scan_mbr (disk : Z) (sector : list Z) : M blockst Z :=
  a ← lift (sector !!z 510); b ← lift (sector !!z 511);
  if negb (a =? 0x55) || negb (b =? 0xAA) then mret 0 else scan_mbr_loop 4 0 disk sector 0.

(** [kernel/drivers/disk/block.c: block_scan_partitions] *)
Definition block_scan_partitions (disk : Z) : M blockst unit :=
  for_range (Z.to_nat BLOCK_MAX_DEVICES) 0 (λ i,
    d ← device i;
    if bd_used d && (bd_parent d =? disk) then device_upd i (set_bd_sectors 0) else mret tt);;
  r ← block_read disk 1 1;
  g ← (if r.1 =? 0 then block_scan_gpt disk r.2 else mret (-1));
  if 0 <=? g then mret tt
  else
    r ← block_read disk 0 1;
    if r.1 =? 0 then block_scan_mbr disk r.2;; mret tt else mret tt.

(** [io] names the driver. [kernel/drivers/disk/block.c: block_register] *)
Definition block_register (model : str) (kind sectors io : Z) (flush : bool) : M blockst Z :=
  dev ← block_alloc;
  if dev =? -1 then mret (-1)
  else
    n ← gets block_disk_count;
    modify (set_disk_count (n + 1));;
    let digits := if 10 <=? n then [char_of (48 + n / 10); char_of (48 + n mod 10)] else [char_of (48 + n)] in
    device_upd dev (λ d, MkBlockDevice (to_str "disk" ++ digits) (take (BLOCK_MODEL_MAX - 1) model) kind sectors (bd_offset d)
                           (bd_parent d) (bd_index d) (bd_mounts d) io flush (bd_used d));;
    block_scan_partitions dev;;
    mret dev.

(** [kernel/drivers/disk/block.c: block_busy] *)
Definition block_busy (dev : Z) : M blockst bool :=
  d ← device dev;
  if negb (bd_mounts d =? 0) then mret true
  else
    i ← first_device (λ x, bd_used x && (bd_parent x =? dev) && negb (bd_mounts x =? 0));
    mret (negb (i =? -1)).

(** ** Writing a partition table *)

Definition set_lbas (my alt entries crc : Z) (h : GptHeader) : GptHeader :=
  MkGptHeader (g_signature h) (g_revision h) (g_header_size h) crc my alt (g_first_usable h) (g_last_usable h) (g_disk_guid h)
    entries (g_entry_count h) (g_entry_size h) (g_entries_crc h).
(** The header and the sector that holds it. [kernel/drivers/disk/block.c: gpt_write_header] *)
Definition gpt_write_header (h : GptHeader) (my_lba alt_lba entries_lba : Z) : GptHeader * list Z :=
  let h0 := set_lbas my_lba alt_lba entries_lba 0 h in
  let h1 := set_lbas my_lba alt_lba entries_lba (block_crc32 (gpt_header_bytes h0) 0) h in
  (h1, gpt_header_bytes h1 ++ replicate (Z.to_nat (BLOCK_SECTOR_SIZE - SIZEOF_GPT_HEADER)) 0).

(** The characters of a label, one 16-bit word each, 36 words. *)
Definition label_words (s : string) : list Z :=
  let l := map (λ c, Z.of_N (Ascii.N_of_ascii c)) (to_str s) in l ++ replicate (36 - length l) 0.
(** [kernel/drivers/disk/block.c: block_write_gpt 392-404] *)
Definition protective_mbr (last : Z) : list Z :=
  replicate 446 0 ++ [0; 0; 2; 0; 0xEE; 0xFF; 0xFF; 0xFF] ++ le_split 4 1 ++
  le_split 4 (if 0xFFFFFFFF <? last then 0xFFFFFFFF else last) ++ replicate 48 0 ++ [0x55; 0xAA].
(** [kernel/drivers/disk/block.c: block_write_gpt 348-354] *)
Definition gpt_part_end (sectors : Z) : Z :=
  let last := u64 (sectors - 1) in
  let last_usable := u64 (last - 1 - GPT_ENTRY_SECTORS) in
  u64 (Z.ldiff (u64 (last_usable + 1)) (GPT_ALIGN - 1) - 1).
(** [kernel/drivers/disk/block.c: block_write_gpt] *)
Definition block_write_gpt (disk : Z) : M blockst Z :=
  d ← device disk;
  let last := u64 (bd_sectors d - 1) in
  let first_usable := 2 + GPT_ENTRY_SECTORS in
  let last_usable := u64 (last - 1 - GPT_ENTRY_SECTORS) in
  let part_start := GPT_ALIGN in
  let part_end := gpt_part_end (bd_sectors d) in
  if part_end <=? part_start then mret (-1)
  else
    entries ← on_bk_mem (km_kmalloc (GPT_ENTRY_SECTORS * BLOCK_SECTOR_SIZE));
    if entries =? 0 then mret (-1)
    else
      g1 ← block_random_guid;
      let e := MkGptEntry gpt_esp_guid g1 part_start part_end 0 (label_words "StrawOS") in
      g2 ← block_random_guid;
      let bios := MkGptEntry gpt_bios_boot_guid g2 first_usable (part_start - 1) 0 (label_words "BIOS boot") in
      let table := gpt_entry_bytes e ++ gpt_entry_bytes bios ++
                   replicate (Z.to_nat (GPT_ENTRY_SECTORS * BLOCK_SECTOR_SIZE - 2 * GPT_ENTRY_SIZE)) 0 in
      g3 ← block_random_guid;
      let hdr := MkGptHeader EFI_PART 0x10000 SIZEOF_GPT_HEADER 0 0 0 first_usable last_usable g3 0 GPT_ENTRIES GPT_ENTRY_SIZE
                   (block_crc32 table 0) in
      let backup := gpt_write_header hdr last 1 (u64 (last - GPT_ENTRY_SECTORS)) in
      let primary := gpt_write_header backup.1 1 last 2 in
      rc ← (a ← block_write disk 0 1 (protective_mbr last);
            if negb (a =? 0) then mret (-1)
            else
              b ← block_write disk 2 GPT_ENTRY_SECTORS table;
              if negb (b =? 0) then mret (-1)
              else
                c ← block_write disk (u64 (last - GPT_ENTRY_SECTORS)) GPT_ENTRY_SECTORS table;
                if negb (c =? 0) then mret (-1)
                else
                  x ← block_write disk last 1 backup.2;
                  if negb (x =? 0) then mret (-1)
                  else
                    y ← block_write disk 1 1 primary.2;
                    if negb (y =? 0) then mret (-1)
                    else
                      block_write disk part_start 1 (replicate 512 0);;
                      block_flush disk);
      on_bk_mem (km_kfree entries);;
      mret rc.

(** ** The device file *)

(** [kernel/drivers/disk/block.h 46-65] *)
Record DiskInfo := MkDiskInfo {
  di_sectors : Z; di_sector_size : Z; di_partition : bool; di_kind : Z; di_mounted : bool; di_model : str; di_start : Z
}.
(** What the pointer leads to. *)
Record DiskIo := MkDiskIo { io_lba : Z; io_count : Z; io_buf : option (list Z) }.
(** What a call writes through its pointer. *)
Inductive disk_out := NoOut | OutInfo (i : DiskInfo) | OutData (bs : list Z).

(** The format of a disk (fat32.c) and the device files (vfs.c, devfs.c). *)
Context (fat32_format : Z → str → M blockst Z).
Context (vfs_resolve : str → M blockst Z) (devfs_register : str → Z → M blockst unit).

(** [kernel/drivers/disk/block.c: block_publish_all] *)
Definition block_publish_all : M blockst unit :=
  for_range (Z.to_nat BLOCK_MAX_DEVICES) 0 (λ i,
    d ← device i;
    if negb (bd_used d) || (bd_sectors d =? 0) then mret tt
    else
      n ← vfs_resolve (to_str "/dev/" ++ bd_name d);
      if n =? 0 then devfs_register (bd_name d) i else mret tt).

(** [dev] is the device of the node. [kernel/drivers/disk/block.c: block_ioctl] *)
Definition block_ioctl (dev request : Z) (arg : option DiskIo) : M blockst (Z * disk_out) :=
  if dev =? -1 then mret (-1, NoOut)
  else
    d ← device dev;
    if negb (bd_used d) then mret (-1, NoOut)
    else if request =? DEVFS_IOCTL_DISK_GET_INFO then
      if bool_decide (arg = None) then mret (-1, NoOut)
      else
        busy ← block_busy dev;
        mret (0, OutInfo (MkDiskInfo (bd_sectors d) BLOCK_SECTOR_SIZE (negb (bd_parent d =? -1)) (bd_kind d) busy (bd_model d) (bd_offset d)))
    else if request =? DEVFS_IOCTL_DISK_PARTITION then
      busy ← (if negb (bd_parent d =? -1) then mret true else block_busy dev);
      if (busy : bool) then mret (-1, NoOut)
      else
        rc ← block_write_gpt dev;
        if negb (rc =? 0) then mret (-1, NoOut)
        else block_scan_partitions dev;; block_publish_all;; mret (0, NoOut)
    else if (request =? DEVFS_IOCTL_DISK_READ) || (request =? DEVFS_IOCTL_DISK_WRITE) then
      match arg with
      | Some (MkDiskIo lba count (Some buf)) =>
          if count =? 0 then mret (-1, NoOut)
          else if request =? DEVFS_IOCTL_DISK_READ then r ← block_read dev lba count; mret (r.1, OutData r.2)
          else
            busy ← block_busy dev;
            if (busy : bool) then mret (-1, NoOut)
            else
              w ← block_write dev lba count buf;
              if negb (w =? 0) then mret (-1, NoOut) else f ← block_flush dev; mret (f, NoOut)
      | _ => mret (-1, NoOut)
      end
    else if request =? DEVFS_IOCTL_DISK_FORMAT then
      busy ← (if bd_sectors d =? 0 then mret true else block_busy dev);
      if (busy : bool) then mret (-1, NoOut) else rc ← fat32_format dev (to_str "STRAWOS"); mret (rc, NoOut)
    else mret (-1, NoOut).
(** [kernel/drivers/disk/block.c: block_poll] *)
Definition block_poll : Z := Z.lor POLLIN POLLOUT.

(** The device behind a node, given the node's type, whether its operations are those of
    this file, and its data. [kernel/drivers/disk/block.c: block_from_node] *)
Definition block_from_node (node : option (VNodeType * bool * Z)) : M blockst Z :=
  match node with
  | None => mret (-1)
  | Some (type, ours, data) =>
      if negb (bool_decide (type = VNODE_DEVICE)) || negb ours then mret (-1)
      else if data =? -1 then mret (-1)
      else d ← device data; mret (if bd_used d && negb (bd_sectors d =? 0) then data else -1)
  end.
End Block.
