(* ===== verification/BlockIo.v ===== *)
(** * Transfers of the block layer

    What drivers promise ([DiskDriverLaws]), what the block layer promises to the file systems
    ([BlockLaws]), and that block.c turns one into the other: a transfer of any length, on a
    disk or on a partition, through the bounce buffer, moves exactly its sectors. *)
From S2P Require Import Prelude RawMem Pmm Heap VfsTypes Ramfs Block.
Local Open Scope kernel_scope.

(** ** What the drivers promise *)

(** The bytes of [n] sectors from [lba] on, and the [k]-th sector of a buffer. *)
Definition sectors_of (f : Z → list Z) (lba n : Z) : list Z := seqZ lba n ≫= f.
Definition chunk (k : Z) (buf : list Z) : list Z :=
  take (Z.to_nat BLOCK_SECTOR_SIZE) (drop (Z.to_nat (k * BLOCK_SECTOR_SIZE)) buf).
(** [f'] is [f] with [n] sectors from [lba] on taken from [buf]. *)
Definition written (f f' : Z → list Z) (lba n : Z) (buf : list Z) : Prop :=
  ∀ i, f' i = if decide (lba <= i < lba + n) then chunk (i - lba) buf else f i.
Definition same_outside (f f' : Z → list Z) (lba n : Z) : Prop := ∀ i, ¬ (lba <= i < lba + n) → f' i = f i.

(** A disk is an array of sectors; a transfer within it and within the buffer moves them, or, where
    [dd_can_fail], fails and leaves the sectors outside the transfer alone. *)
Class DiskDriverLaws (D : Type) `{DiskDriver D} := {
  dd_size : Z → Z;
  dd_sector : D → Z → Z → list Z;
  dd_can_fail : Prop;
  dd_size_bound io : 0 <= dd_size io <= 2 ^ 63;
  dd_sector_length d io lba : 0 <= lba < dd_size io → length (dd_sector d io lba) = Z.to_nat BLOCK_SECTOR_SIZE;
  dd_read_law d io lba n buf (Q : Z * list Z → D → Prop) :
    0 <= lba → 0 < n <= BLOCK_MAX_TRANSFER → lba + n <= dd_size io → n * BLOCK_SECTOR_SIZE <= Z.of_nat (length buf) →
    (∀ buf' d', length buf' = length buf → dd_sector d' = dd_sector d →
       take (Z.to_nat (n * BLOCK_SECTOR_SIZE)) buf' = sectors_of (dd_sector d io) lba n → Q (0, buf') d') →
    (dd_can_fail → ∀ rc buf' d', rc ≠ 0 → length buf' = length buf → dd_sector d' = dd_sector d → Q (rc, buf') d') →
    wp (dd_io io lba n buf false) Q d;
  dd_write_law d io lba n buf (Q : Z * list Z → D → Prop) :
    0 <= lba → 0 < n <= BLOCK_MAX_TRANSFER → lba + n <= dd_size io → n * BLOCK_SECTOR_SIZE <= Z.of_nat (length buf) →
    (∀ buf' d', length buf' = length buf → written (dd_sector d io) (dd_sector d' io) lba n buf →
       (∀ io', io' ≠ io → dd_sector d' io' = dd_sector d io') → Q (0, buf') d') →
    (dd_can_fail → ∀ rc buf' d', rc ≠ 0 → length buf' = length buf → same_outside (dd_sector d io) (dd_sector d' io) lba n →
       (∀ io', io' ≠ io → dd_sector d' io' = dd_sector d io') → Q (rc, buf') d') →
    wp (dd_io io lba n buf true) Q d;
  dd_flush_law d io (Q : Z → D → Prop) :
    (∀ d', dd_sector d' = dd_sector d → Q 0 d') →
    (dd_can_fail → ∀ rc d', rc ≠ 0 → dd_sector d' = dd_sector d → Q rc d') → wp (dd_flush io) Q d;
  dd_rdtsc_law d (Q : Z → D → Prop) : (∀ t d', dd_sector d' = dd_sector d → Q t d') → wp dd_rdtsc Q d
}.

(** ** What the block layer promises

    A device is an array of sectors of its own; writing to one may change those that
    overlap it. *)
Class BlockLaws (B : Type) `{BlockApi B} := {
  bl_ok : B → Prop;
  bl_size : B → Z → Z;
  bl_sector : B → Z → Z → list Z;
  bl_can_fail : Prop;
  bl_size_bound b dev : bl_ok b → 0 <= bl_size b dev <= 2 ^ 63;
  bl_sector_length b dev lba : bl_ok b → 0 <= lba < bl_size b dev → length (bl_sector b dev lba) = Z.to_nat BLOCK_SECTOR_SIZE;
  bl_same b b' := bl_ok b' ∧ (∀ dev, bl_size b' dev = bl_size b dev) ∧ ∀ dev lba, bl_sector b' dev lba = bl_sector b dev lba;
  bl_read_law b dev lba n (Q : Z * list Z → B → Prop) :
    bl_ok b → 0 <= lba → 0 < n → lba + n <= bl_size b dev →
    (∀ b', bl_same b b' → Q (0, sectors_of (bl_sector b dev) lba n) b') →
    (bl_can_fail → ∀ rc bs b', rc ≠ 0 → bl_same b b' → Q (rc, bs) b') →
    wp (ba_read dev lba n) Q b;
  bl_write_law b dev lba n buf (Q : Z → B → Prop) :
    bl_ok b → 0 <= lba → 0 < n → lba + n <= bl_size b dev → Z.of_nat (length buf) = n * BLOCK_SECTOR_SIZE →
    (∀ b', bl_ok b' → (∀ dev, bl_size b' dev = bl_size b dev) → written (bl_sector b dev) (bl_sector b' dev) lba n buf → Q 0 b') →
    (bl_can_fail → ∀ rc b', rc ≠ 0 → bl_ok b' → (∀ dev, bl_size b' dev = bl_size b dev) →
       same_outside (bl_sector b dev) (bl_sector b' dev) lba n → Q rc b') →
    wp (ba_write dev lba n buf) Q b;
  bl_flush_law b dev (Q : Z → B → Prop) :
    bl_ok b → 0 < bl_size b dev → (∀ b', bl_same b b' → Q 0 b') →
    (bl_can_fail → ∀ rc b', rc ≠ 0 → bl_same b b' → Q rc b') → wp (ba_flush dev) Q b;
  bl_device_law b dev (Q : BlockDevice → B → Prop) :
    bl_ok b → 0 < bl_size b dev → (∀ d, bd_sectors d = bl_size b dev → Q d b) → wp (ba_device dev) Q b;
  bl_mounts_law b dev k (Q : unit → B → Prop) :
    bl_ok b → 0 < bl_size b dev → (∀ b', bl_same b b' → Q tt b') → wp (ba_add_mounts dev k) Q b;
  bl_random_law b (Q : Z → B → Prop) :
    bl_ok b → (∀ x b', bl_same b b' → Q x b') → wp ba_random Q b
}.

(** block.c as the file systems call it. *)
#[export] Instance block_api `{KernelMem H} `{DiskDriver D} : BlockApi (blockst (H := H) (D := D)) := {
  ba_read := block_read;
  ba_write := block_write;
  ba_flush := block_flush;
  ba_device := device;
  ba_add_mounts dev k := device_upd dev (λ d, set_bd_mounts (bd_mounts d + k) d);
  ba_random := block_random
}.

Section BlockProofs.
Context {H : Type} `{KM : KernelMem H} {D : Type} `{DD : DiskDriver D} {DL : DiskDriverLaws D}.
Local Abbreviation blockst := (Block.blockst (H := H) (D := D)).
Implicit Types s : blockst.

(** ** The device table *)
Definition dev_ok (l : list BlockDevice) (d : BlockDevice) : Prop :=
  bd_used d = true →
  if bd_parent d =? -1 then 0 <= bd_sectors d <= dd_size (bd_io d)
  else 0 <= bd_offset d ∧ 0 <= bd_sectors d ∧
       ∃ r, l !!z bd_parent d = Some r ∧ bd_used r = true ∧ bd_parent r = -1 ∧
            (bd_sectors d = 0 ∨ bd_offset d + bd_sectors d <= bd_sectors r).
Definition table_ok (l : list BlockDevice) : Prop :=
  Z.of_nat (length l) = BLOCK_MAX_DEVICES ∧ ∀ i d, l !!z i = Some d → dev_ok l d.
Definition block_ok s : Prop :=
  table_ok (block_devices s) ∧ ∃ buf, block_bounce s = Some buf ∧ Z.of_nat (length buf) = BLOCK_MAX_TRANSFER * BLOCK_SECTOR_SIZE.

(** The disk a device is on, where it begins there, and its sectors. *)
Definition dev_place (l : list BlockDevice) (dev : Z) : option (Z * Z * Z) :=
  d ← l !!z dev;
  if negb (bd_used d) then None
  else if bd_parent d =? -1 then Some (bd_io d, 0, bd_sectors d)
  else r ← l !!z bd_parent d; Some (bd_io r, bd_offset d, bd_sectors d).
Definition dev_size s (dev : Z) : Z := match dev_place (block_devices s) dev with Some (_, _, n) => n | None => 0 end.
Definition dev_sector s (dev lba : Z) : list Z :=
  match dev_place (block_devices s) dev with Some (io, off, _) => dd_sector (bk_disk s) io (off + lba) | None => [] end.

(** A device with sectors lies on its disk. *)
Lemma dev_place_ok l dev io off n :
  table_ok l → dev_place l dev = Some (io, off, n) → 0 <= n ∧ 0 <= off ∧ (n = 0 ∨ off + n <= dd_size io).
Proof.
  intros [_ T] E. pose proof T as T'. unfold dev_place in E. destruct (l !!z dev) as [d|] eqn:Ed; [|done]. cbn [mbind option_bind] in E.
  specialize (T dev d Ed). unfold dev_ok in T. destruct (bd_used d) eqn:Eu; cbn [negb] in E; [|done]. specialize (T eq_refl).
  destruct (bd_parent d =? -1) eqn:Ep; [simplify_eq; lia|].
  destruct T as (T1 & T2 & r & Er & Eru & Erp & T3). rewrite Er in E. cbn [mbind option_bind] in E. simplify_eq.
  split_and!; try done. destruct T3; [by left|]. right. pose proof (T' _ _ Er) as Tr. unfold dev_ok in Tr. rewrite Erp in Tr.
  specialize (Tr Eru). simpl in Tr. lia.
Qed.

(** ** Lemmas: lists of sectors *)
Lemma sectors_of_app f lba a b : 0 <= a → 0 <= b → sectors_of f lba (a + b) = sectors_of f lba a ++ sectors_of f (lba + a) b.
Proof. intros Ha Hb. unfold sectors_of. rewrite seqZ_app by lia. apply bind_app. Qed.
Lemma sectors_of_ext f g lba n : (∀ i, lba <= i < lba + n → f i = g i) → sectors_of f lba n = sectors_of g lba n.
Proof.
  intros E. unfold sectors_of. assert (E' : ∀ i, i ∈ seqZ lba n → f i = g i) by (intros i Hi%elem_of_seqZ; apply E; lia).
  induction (seqZ lba n) as [|i l IH]; [done|]. cbn. rewrite (E' i), IH; [done| |]; intros; try apply E'; by apply elem_of_cons; auto.
Qed.
Lemma sectors_of_one f lba : sectors_of f lba 1 = f lba.
Proof. unfold sectors_of, seqZ. cbn. apply app_nil_r. Qed.
Lemma sectors_of_length f lba n :
  0 <= n → (∀ i, lba <= i < lba + n → length (f i) = Z.to_nat BLOCK_SECTOR_SIZE) → Z.of_nat (length (sectors_of f lba n)) = n * BLOCK_SECTOR_SIZE.
Proof.
  intros Hn Hl. rewrite <- (Z2Nat.id n) in Hl |- * by done. revert lba Hl. induction (Z.to_nat n) as [|k IH]; intros lba Hl; [done|].
  replace (Z.of_nat (S k)) with (1 + Z.of_nat k) by lia. rewrite sectors_of_app, sectors_of_one, length_app by lia.
  rewrite Nat2Z.inj_add, IH by (intros; apply Hl; lia). rewrite Hl by lia. unfold BLOCK_SECTOR_SIZE. lia.
Qed.
Lemma chunk_drop k j buf : 0 <= k → 0 <= j → chunk k (drop (Z.to_nat (j * BLOCK_SECTOR_SIZE)) buf) = chunk (j + k) buf.
Proof. intros Hk Hj. unfold chunk. rewrite drop_drop. do 2 f_equal. unfold BLOCK_SECTOR_SIZE. lia. Qed.
Lemma chunk_take k n a b :
  0 <= k < n → take (Z.to_nat (n * BLOCK_SECTOR_SIZE)) a = take (Z.to_nat (n * BLOCK_SECTOR_SIZE)) b → chunk k a = chunk k b.
Proof.
  intros Hk E. unfold chunk. rewrite !take_drop_commute. f_equal. 
  replace (Z.to_nat (k * BLOCK_SECTOR_SIZE) + Z.to_nat BLOCK_SECTOR_SIZE)%nat with
    (Init.Nat.min (Z.to_nat (k * BLOCK_SECTOR_SIZE) + Z.to_nat BLOCK_SECTOR_SIZE) (Z.to_nat (n * BLOCK_SECTOR_SIZE)))%nat by (unfold BLOCK_SECTOR_SIZE; lia).
  by rewrite <- !take_take, E.
Qed.

(** ** Lemmas: the state *)
Lemma wp_device i d (Q : BlockDevice → blockst → Prop) s : block_devices s !!z i = Some d → Q d s → wp (device i) Q s.
Proof. intros E HQ. unfold device. wp_steps. by eapply wp_lift. Qed.

Lemma updateZ_Some {A} (l : list A) i x : 0 <= i < Z.of_nat (length l) → updateZ i x l = Some (<[Z.to_nat i := x]> l).
Proof. intros Hi. unfold updateZ. destruct (Z.leb_spec 0 i), (Z.ltb_spec i (Z.of_nat (length l))); try lia. done. Qed.
Lemma lookupZ_insert {A} (l : list A) i j x :
  0 <= i < Z.of_nat (length l) → <[Z.to_nat i := x]> l !!z j = if decide (j = i) then Some x else l !!z j.
Proof.
  intros Hi. unfold lookupZ. destruct (Z.ltb_spec j 0); [rewrite decide_False by lia; done|]. destruct (decide (j = i)) as [->|].
  - apply list_lookup_insert_eq. lia.
  - apply list_lookup_insert_ne. lia.
Qed.

Lemma wp_device_upd i d f (Q : unit → blockst → Prop) s :
  block_devices s !!z i = Some d → Q tt (set_devices (<[Z.to_nat i := f d]> (block_devices s)) s) → wp (device_upd i f) Q s.
Proof.
  intros E HQ. unfold device_upd. wp_steps. eapply wp_device; [exact E|]. wp_steps.
  eapply wp_lift; [apply updateZ_Some; by eapply lookupZ_Some_lt|]. by wp_steps.
Qed.

(** The state with another disk and buffer. *)
Definition set_io (buf : list Z) (d : D) s : blockst :=
  Blockst (block_devices s) (Some buf) (block_disk_count s) (block_seed s) (bk_mem s) d.

Lemma root_device_wp dev d lba off n io (Q : Z * Z → blockst → Prop) s :
  table_ok (block_devices s) → block_devices s !!z dev = Some d → dev_place (block_devices s) dev = Some (io, off, n) →
  0 <= lba → off + lba < 2 ^ 64 →
  (∀ root r, block_devices s !!z root = Some r → bd_io r = io → Q (root, off + lba) s) →
  wp (root_device (Z.to_nat BLOCK_MAX_DEVICES) dev lba) Q s.
Proof.
  intros T Ed E Hlba Hlt HQ. pose proof (dev_place_ok _ _ _ _ _ T E) as (_ & Hoff & _).
  change (Z.to_nat BLOCK_MAX_DEVICES) with 32%nat. cbn [root_device]. unfold dev_place in E. rewrite Ed in E. cbn [mbind option_bind] in E.
  wp_steps. eapply wp_device; [exact Ed|]. destruct (bd_used d) eqn:Eu; cbn [negb] in E; [|done].
  destruct (bd_parent d =? -1) eqn:Ep; [wp_steps; simplify_eq; eapply HQ; done|].
  destruct T as [_ T]. specialize (T _ _ Ed). unfold dev_ok in T. rewrite Ep in T.
  destruct (T Eu) as (_ & _ & r & Er & _ & Erp & _). rewrite Er in E. cbn [mbind option_bind] in E. simplify_eq.
  wp_steps. eapply wp_device; [exact Er|]. rewrite Erp. wp_steps. replace (u64 (lba + bd_offset d)) with (bd_offset d + lba).
  2:{ unfold u64. rewrite Z.mod_small by lia. lia. }
  by eapply HQ.
Qed.

(** ** Lemmas: transfers *)
Lemma read_loop_wp fuel io lba count acc bounce (Q : Z * list Z → blockst → Prop) s :
  0 <= lba → 0 <= count <= Z.of_nat fuel → lba + count <= dd_size io →
  block_bounce s = Some bounce → Z.of_nat (length bounce) = BLOCK_MAX_TRANSFER * BLOCK_SECTOR_SIZE →
  (∀ buf d, length buf = length bounce → dd_sector d = dd_sector (bk_disk s) →
     Q (0, acc ++ sectors_of (dd_sector (bk_disk s) io) lba count) (set_io buf d s)) →
  (dd_can_fail → ∀ bs buf d, length buf = length bounce → dd_sector d = dd_sector (bk_disk s) → Q (-1, bs) (set_io buf d s)) →
  wp (io_loop fuel io lba count [] false acc) Q s.
Proof.
  intros Hlba Hc Hle Eb Hb HQ HF. revert lba count acc bounce s Hlba Hc Hle Eb Hb HQ HF.
  induction fuel as [|fuel IH]; intros lba count acc bounce s Hlba Hc Hle Eb Hb HQ HF; cbn [io_loop];
    (destruct (Z.eqb_spec count 0) as [->|Hn]; [wp_steps; replace s with (set_io bounce (bk_disk s) s) by (by destruct s; simpl in *; subst); rewrite <- (app_nil_r acc); by apply HQ|]); [lia|].
  wp_steps. rewrite Eb. eapply wp_lift; [reflexivity|]. wp_steps.
  set (n := Z.min count BLOCK_MAX_TRANSFER). assert (Hn' : 0 < n <= BLOCK_MAX_TRANSFER) by (unfold n, BLOCK_MAX_TRANSFER; lia).
  assert (Hfit : n * BLOCK_SECTOR_SIZE <= Z.of_nat (length bounce)) by (rewrite Hb; unfold BLOCK_SECTOR_SIZE; lia).
  pose proof (dd_size_bound io). unfold on_disk. wp_steps.
  apply dd_read_law; [done|done|lia|done| |].
  - intros buf' d' Hl Hs Ht. wp_steps. cbn [fst snd negb Z.eqb]. wp_steps. eapply wp_lift; [apply read_range_spec; lia|].
    unfold spec_read. rewrite drop_0, Ht. wp_steps. replace (u64 (lba + n)) with (lba + n) by (unfold u64; rewrite Z.mod_small; lia).
    eapply (IH _ _ _ buf'); [lia|lia|lia|done|lia| |]; cbn [bk_disk set_bounce].
    + intros buf d Hl2 Hs2. rewrite <- app_assoc, Hs. replace count with (n + (count - n)) in HQ by lia.
      specialize (HQ buf d). rewrite sectors_of_app in HQ by lia. apply HQ; [congruence|congruence].
    + intros Hf bs buf d Hl2 Hs2. apply HF; [done|congruence|congruence].
  - intros Hf rc buf' d' Hrc Hl Hs. wp_steps. cbn [fst snd]. destruct (Z.eqb_spec rc 0); [done|]. cbn [negb]. wp_steps. by apply HF.
Qed.

Lemma written_trans f g h lba n k buf :
  0 <= n → 0 <= k → written f g lba n buf → written g h (lba + n) k (drop (Z.to_nat (n * BLOCK_SECTOR_SIZE)) buf) → written f h lba (n + k) buf.
Proof.
  intros Hn Hk W1 W2 i. rewrite W2, W1. destruct (decide (lba + n <= i < lba + n + k)).
  - rewrite decide_True by lia. rewrite chunk_drop by lia. f_equal. lia.
  - destruct (decide (lba <= i < lba + n)); [by rewrite decide_True by lia|by rewrite decide_False by lia].
Qed.
Lemma written_outside f g lba n buf : written f g lba n buf → same_outside f g lba n.
Proof. intros W i Hi. rewrite W. by rewrite decide_False. Qed.

(** Only disk [io] has changed. *)
Definition only_disk (io : Z) (d d' : D) : Prop := ∀ io', io' ≠ io → dd_sector d' io' = dd_sector d io'.

Lemma write_loop_wp fuel io lba count p acc bounce (Q : Z * list Z → blockst → Prop) s :
  0 <= lba → 0 <= count <= Z.of_nat fuel → lba + count <= dd_size io → count * BLOCK_SECTOR_SIZE <= Z.of_nat (length p) →
  block_bounce s = Some bounce → Z.of_nat (length bounce) = BLOCK_MAX_TRANSFER * BLOCK_SECTOR_SIZE →
  (∀ bs buf d, length buf = length bounce → written (dd_sector (bk_disk s) io) (dd_sector d io) lba count p →
     only_disk io (bk_disk s) d → Q (0, bs) (set_io buf d s)) →
  (dd_can_fail → ∀ bs buf d, length buf = length bounce → same_outside (dd_sector (bk_disk s) io) (dd_sector d io) lba count →
     only_disk io (bk_disk s) d → Q (-1, bs) (set_io buf d s)) →
  wp (io_loop fuel io lba count p true acc) Q s.
Proof.
  intros Hlba Hc Hle Hp Eb Hb HQ HF. revert lba count p acc bounce s Hlba Hc Hle Hp Eb Hb HQ HF.
  induction fuel as [|fuel IH]; intros lba count p acc bounce s Hlba Hc Hle Hp Eb Hb HQ HF; cbn [io_loop];
    (destruct (Z.eqb_spec count 0) as [->|Hn]; [wp_steps; replace s with (set_io bounce (bk_disk s) s) by (by destruct s; simpl in *; subst);
       apply HQ; [done| |by intros io'] ; intros i; by rewrite decide_False by lia|]); [lia|].
  wp_steps. rewrite Eb. eapply wp_lift; [reflexivity|].
  set (n := Z.min count BLOCK_MAX_TRANSFER). assert (Hn' : 0 < n <= BLOCK_MAX_TRANSFER) by (unfold n, BLOCK_MAX_TRANSFER; lia).
  assert (Hfit : n * BLOCK_SECTOR_SIZE <= Z.of_nat (length bounce)) by (rewrite Hb; unfold BLOCK_SECTOR_SIZE; lia).
  assert (Hfit' : n * BLOCK_SECTOR_SIZE <= Z.of_nat (length p)) by (unfold n, BLOCK_SECTOR_SIZE in *; lia).
  pose proof (dd_size_bound io).
  set (src := take (Z.to_nat (n * BLOCK_SECTOR_SIZE)) p).
  assert (Ls : length src = Z.to_nat (n * BLOCK_SECTOR_SIZE)) by (unfold src; rewrite length_take; lia).
  assert (Ew : (src ← read_range p 0 (n * BLOCK_SECTOR_SIZE); write_range bounce 0 src) = Some (src ++ drop (length src) bounce)).
  { rewrite read_range_spec by lia. cbn [mbind option_bind]. unfold spec_read. rewrite drop_0. fold src.
    unfold write_range. rewrite Z.add_0_l. destruct (Z.leb_spec 0 0), (Z.leb_spec (Z.of_nat (length src)) (Z.of_nat (length bounce))); try lia. done. }
  wp_steps. eapply wp_lift; [exact Ew|]. wp_steps. set (b1 := src ++ drop (length src) bounce).
  assert (Lb1 : length b1 = length bounce) by (unfold b1; rewrite length_app, length_drop; lia).
  unfold on_disk. wp_steps.
  assert (Hck : ∀ k, 0 <= k < n → chunk k b1 = chunk k p).
  { intros k Hk. apply (chunk_take k n); [done|]. unfold b1. rewrite take_app_le, take_ge by lia. done. }
  apply dd_write_law; [done|done|lia|lia| |].
  - intros buf' d' Hl W O. wp_steps. cbn [fst snd negb Z.eqb]. wp_steps.
    replace (u64 (lba + n)) with (lba + n) by (unfold u64; rewrite Z.mod_small; lia).
    assert (W1 : written (dd_sector (bk_disk s) io) (dd_sector d' io) lba n p).
    { intros i. rewrite W. destruct (decide _); [|done]. apply Hck. lia. }
    eapply (IH _ _ _ _ buf'); [lia|lia|lia|rewrite length_drop; lia|done|lia| |]; cbn [bk_disk set_bounce].
    + intros bs buf d Hl2 W2 O2. apply HQ; [congruence| |].
      * replace count with (n + (count - n)) by lia. eapply written_trans; [lia|lia|exact W1|exact W2].
      * intros io' Hio. by rewrite O2, O.
    + intros Hf bs buf d Hl2 S2 O2. apply HF; [done|congruence| |].
      * intros i Hi. rewrite S2 by lia. apply (written_outside _ _ _ _ _ W1). lia.
      * intros io' Hio. by rewrite O2, O.
  - intros Hf rc buf' d' Hrc Hl S1 O. wp_steps. cbn [fst snd]. destruct (Z.eqb_spec rc 0); [done|]. cbn [negb]. wp_steps.
    apply HF; [done|congruence| |done]. intros i Hi. apply S1. lia.
Qed.

(** ** Lemmas: the calls *)
Lemma sectors_of_shift f a lba n : sectors_of f (a + lba) n = sectors_of (λ i, f (a + i)) lba n.
Proof.
  unfold sectors_of. replace (seqZ (a + lba) n) with (Z.add a <$> seqZ lba n).
  - induction (seqZ lba n) as [|i l IH]; [done|]. cbn. by rewrite <- IH.
  - unfold seqZ. rewrite <- list_fmap_compose. apply list_fmap_ext. intros i k Hk. simpl. lia.
Qed.

Lemma dev_sector_at s dev io off n : dev_place (block_devices s) dev = Some (io, off, n) → ∀ lba, dev_sector s dev lba = dd_sector (bk_disk s) io (off + lba).
Proof. intros E lba. unfold dev_sector. by rewrite E. Qed.

Lemma block_ok_io s buf d : block_ok s → Z.of_nat (length buf) = BLOCK_MAX_TRANSFER * BLOCK_SECTOR_SIZE → block_ok (set_io buf d s).
Proof. intros [T _] L. split; [done|]. by exists buf. Qed.

(** A transfer inside a device finds the disk. *)
Lemma root_io_wp dev lba count buf write io off sz bounce (Q : Z * list Z → blockst → Prop) s :
  block_ok s → dev_place (block_devices s) dev = Some (io, off, sz) → block_bounce s = Some bounce →
  0 <= lba → 0 < count → lba + count <= sz →
  wp (io_loop (Z.to_nat count) io (off + lba) count buf write []) Q s → wp (block_root_io dev lba count buf write) Q s.
Proof.
  intros [T _] E Eb Hlba Hc Hle HQ. pose proof (dev_place_ok _ _ _ _ _ T E) as (Hsz & Hoff & Hin). pose proof (dd_size_bound io).
  unfold dev_place in E. destruct (block_devices s !!z dev) as [d|] eqn:Ed; [|done].
  assert (Esz : bd_sectors d = sz).
  { cbn [mbind option_bind] in E. repeat case_match; try done; simplify_eq; [done|]. destruct (block_devices s !!z bd_parent d); [|done]. by simplify_eq/=. }
  assert (Ep : dev_place (block_devices s) dev = Some (io, off, sz)) by (unfold dev_place; by rewrite Ed).
  unfold block_root_io. pose proof (lookupZ_Some_lt _ _ _ Ed). destruct (Z.eqb_spec dev (-1)); [lia|]. wp_steps. rewrite Eb.
  destruct (Z.eqb_spec count 0); [lia|]. rewrite bool_decide_false by done. cbn [orb]. wp_steps. eapply wp_device; [exact Ed|].
  assert (Eu : u64 (lba + count) = lba + count) by (unfold u64; rewrite Z.mod_small; lia). rewrite Eu, Esz.
  destruct (Z.ltb_spec sz (lba + count)), (Z.ltb_spec (lba + count) lba); try lia. cbn [orb]. wp_steps.
  eapply root_device_wp; [exact T|exact Ed|exact Ep|lia|lia|]. intros root r Er Eio. wp_steps. cbn [fst snd].
  eapply wp_device; [exact Er|]. by rewrite Eio.
Qed.

Lemma block_read_wp dev lba n (Q : Z * list Z → blockst → Prop) s :
  block_ok s → 0 <= lba → 0 < n → lba + n <= dev_size s dev →
  (∀ s', block_ok s' → block_devices s' = block_devices s → dd_sector (bk_disk s') = dd_sector (bk_disk s) →
     Q (0, sectors_of (dev_sector s dev) lba n) s') →
  (dd_can_fail → ∀ rc bs s', rc ≠ 0 → block_ok s' → block_devices s' = block_devices s →
     dd_sector (bk_disk s') = dd_sector (bk_disk s) → Q (rc, bs) s') →
  wp (block_read dev lba n) Q s.
Proof.
  intros I Hlba Hn Hle HQ HF. unfold dev_size in Hle. destruct (dev_place (block_devices s) dev) as [[[io off] sz]|] eqn:E; [|lia].
  pose proof I as [T (bounce & Eb & Lb)]. pose proof (dev_place_ok _ _ _ _ _ T E) as (_ & Hoff & Hin).
  unfold block_read. eapply root_io_wp; [exact I|exact E|exact Eb|done|done|done|].
  eapply read_loop_wp; [lia|lia|lia|exact Eb|exact Lb| |].
  - intros buf d L S. rewrite app_nil_l, sectors_of_shift.
    rewrite (sectors_of_ext _ (dev_sector s dev)) by (intros i _; by rewrite (dev_sector_at _ _ _ _ _ E)).
    apply HQ; [apply block_ok_io; [done|lia]|done|done].
  - intros F bs buf d L S. apply HF; [done|done|apply block_ok_io; [done|lia]|done|done].
Qed.

Lemma block_write_wp dev lba n buf io off sz (Q : Z → blockst → Prop) s :
  block_ok s → dev_place (block_devices s) dev = Some (io, off, sz) → 0 <= lba → 0 < n → lba + n <= sz →
  n * BLOCK_SECTOR_SIZE <= Z.of_nat (length buf) →
  (∀ s', block_ok s' → block_devices s' = block_devices s →
     written (dd_sector (bk_disk s) io) (dd_sector (bk_disk s') io) (off + lba) n buf → only_disk io (bk_disk s) (bk_disk s') → Q 0 s') →
  (dd_can_fail → ∀ rc s', rc ≠ 0 → block_ok s' → block_devices s' = block_devices s →
     same_outside (dd_sector (bk_disk s) io) (dd_sector (bk_disk s') io) (off + lba) n → only_disk io (bk_disk s) (bk_disk s') → Q rc s') →
  wp (block_write dev lba n buf) Q s.
Proof.
  intros I E Hlba Hn Hle Hbuf HQ HF. pose proof I as [T (bounce & Eb & Lb)]. pose proof (dev_place_ok _ _ _ _ _ T E) as (_ & Hoff & Hin).
  unfold block_write. wp_steps. eapply root_io_wp; [exact I|exact E|exact Eb|done|done|done|].
  eapply write_loop_wp; [lia|lia|lia|done|exact Eb|exact Lb| |].
  - intros bs buf' d L W O. wp_steps. apply HQ; [apply block_ok_io; [done|lia]|done|done|done].
  - intros F bs buf' d L W O. wp_steps. cbn [fst]. apply HF; [done|done|apply block_ok_io; [done|lia]|done|done|done].
Qed.

(** A device changed in what does not place it. *)
Definition same_place (d d' : BlockDevice) : Prop :=
  bd_used d' = bd_used d ∧ bd_parent d' = bd_parent d ∧ bd_offset d' = bd_offset d ∧ bd_sectors d' = bd_sectors d ∧ bd_io d' = bd_io d.
Lemma dev_place_insert l i d d' dev :
  l !!z i = Some d → same_place d d' → dev_place (<[Z.to_nat i := d']> l) dev = dev_place l dev.
Proof.
  intros E (E1 & E2 & E3 & E4 & E5). pose proof (lookupZ_Some_lt _ _ _ E) as B. unfold dev_place. rewrite !lookupZ_insert by done.
  destruct (decide (dev = i)) as [->|].
  - rewrite E. cbn [mbind option_bind]. rewrite E1, E2, E3, E4, E5, lookupZ_insert by done.
    destruct (decide (bd_parent d = i)) as [Ep|]; [|done]. rewrite Ep, E. cbn [mbind option_bind]. by rewrite E5.
  - destruct (l !!z dev) as [x|]; [|done]. cbn [mbind option_bind]. rewrite lookupZ_insert by done.
    destruct (decide (bd_parent x = i)) as [Ep|]; [|done]. rewrite Ep, E. cbn [mbind option_bind]. by rewrite E5.
Qed.
Lemma table_ok_insert l i d d' :
  table_ok l → l !!z i = Some d → same_place d d' → table_ok (<[Z.to_nat i := d']> l).
Proof.
  intros [L T] E (E1 & E2 & E3 & E4 & E5). pose proof (lookupZ_Some_lt _ _ _ E) as B. split; [by rewrite length_insert|].
  assert (K : ∀ x, dev_ok l x → dev_ok (<[Z.to_nat i := d']> l) x).
  { intros x Hx Hu. specialize (Hx Hu). destruct (bd_parent x =? -1); [done|]. destruct Hx as (H1 & H2 & r & Hr & Hr1 & Hr2 & Hr3).
    split_and!; try done. rewrite lookupZ_insert by done. destruct (decide (bd_parent x = i)) as [Ep|]; [|by exists r].
    rewrite Ep, E in Hr. injection Hr as <-. exists d'. rewrite E1, E2, E4. by split_and!. }
  intros j x. rewrite lookupZ_insert by done. destruct (decide (j = i)) as [->|]; [|intros Hx; apply K; by eapply T].
  intros [= <-]. apply K. unfold dev_ok. rewrite E1, E2, E3, E4, E5. by apply (T i).
Qed.

Lemma dev_size_sectors s dev : block_ok s → 0 < dev_size s dev → ∃ d, block_devices s !!z dev = Some d ∧ bd_sectors d = dev_size s dev ∧ bd_used d = true.
Proof.
  intros _. unfold dev_size, dev_place. destruct (block_devices s !!z dev) as [d|]; [|simpl; lia]. cbn [mbind option_bind].
  destruct (bd_used d) eqn:Eu; cbn [negb]; [|lia]. intros Hp. exists d. split_and!; [done| |done]. revert Hp.
  destruct (bd_parent d =? -1); [done|]. destruct (block_devices s !!z bd_parent d); [done|simpl; lia].
Qed.

Lemma block_random_wp (Q : Z → blockst → Prop) s :
  block_ok s → (∀ x s', block_ok s' → block_devices s' = block_devices s → dd_sector (bk_disk s') = dd_sector (bk_disk s) → Q x s') →
  wp block_random Q s.
Proof.
  intros [T (buf & Eb & Lb)] HQ. unfold block_random, on_disk. wp_steps. apply dd_rdtsc_law. intros t d' Hs. wp_steps.
  apply HQ; [|done|done]. split; [done|]. by exists buf.
Qed.

Lemma block_flush_wp dev io off sz (Q : Z → blockst → Prop) s :
  block_ok s → dev_place (block_devices s) dev = Some (io, off, sz) → off < 2 ^ 64 →
  (∀ s', block_ok s' → block_devices s' = block_devices s → dd_sector (bk_disk s') = dd_sector (bk_disk s) → Q 0 s') →
  (dd_can_fail → ∀ rc s', rc ≠ 0 → block_ok s' → block_devices s' = block_devices s →
     dd_sector (bk_disk s') = dd_sector (bk_disk s) → Q rc s') →
  wp (block_flush dev) Q s.
Proof.
  intros I E Hoff HQ HF. pose proof I as [T (bounce & Eb & Lb)]. unfold block_flush.
  assert (Ed : ∃ d, block_devices s !!z dev = Some d) by (unfold dev_place in E; destruct (block_devices s !!z dev); [eauto|done]).
  destruct Ed as [d Ed]. pose proof (lookupZ_Some_lt _ _ _ Ed). destruct (Z.eqb_spec dev (-1)); [lia|]. wp_steps.
  eapply root_device_wp; [exact T|exact Ed|exact E|lia|lia|]. intros root r Er Eio. wp_steps. cbn [fst].
  eapply wp_device; [exact Er|].
  assert (K : ∀ d', block_ok (Blockst (block_devices s) (block_bounce s) (block_disk_count s) (block_seed s) (bk_mem s) d'))
    by (intros d'; split; [exact T|by exists bounce]).
  destruct (bd_flush r); wp_steps; [|by apply HQ]. unfold on_disk. wp_steps. apply dd_flush_law.
  - intros d' Hs. by apply HQ.
  - intros F rc d' Hrc Hs. by apply HF.
Qed.
End BlockProofs.

Section BlockInstance.
Context {H : Type} `{KM : KernelMem H} {D : Type} `{DD : DiskDriver D} {DL : DiskDriverLaws D}.
Local Abbreviation blockst := (Block.blockst (H := H) (D := D)).

Lemma dev_same (s s' : blockst) :
  block_devices s' = block_devices s → dd_sector (bk_disk s') = dd_sector (bk_disk s) →
  (∀ dev, dev_size s' dev = dev_size s dev) ∧ ∀ dev lba, dev_sector s' dev lba = dev_sector s dev lba.
Proof. intros E1 E2. unfold dev_size, dev_sector. rewrite E1, E2. done. Qed.

(** block.c over drivers that keep their promise keeps its own. *)
#[export] Instance block_laws : BlockLaws blockst.
Proof.
  refine {| bl_ok := block_ok; bl_size := dev_size; bl_sector := dev_sector; bl_can_fail := dd_can_fail |}.
  - intros s dev [T _]. unfold dev_size. destruct (dev_place _ dev) as [[[io off] n]|] eqn:E; [|lia].
    pose proof (dev_place_ok _ _ _ _ _ T E). pose proof (dd_size_bound io). lia.
  - intros s dev lba [T _] Hlba. unfold dev_size, dev_sector in *. destruct (dev_place _ dev) as [[[io off] n]|] eqn:E; [|lia].
    pose proof (dev_place_ok _ _ _ _ _ T E). apply dd_sector_length. lia.
  - intros s dev lba n Q I Hl Hn Hle HQ HF. apply block_read_wp; [exact I|done|done|done| |].
    + intros s' I' Ed Es. apply HQ. split; [exact I'|]. by apply dev_same.
    + intros F rc bs s' Hrc I' Ed Es. apply HF; [done|done|]. split; [exact I'|]. by apply dev_same.
  - intros s dev lba n buf Q I Hl Hn Hle Hbuf HQ HF. cbn [ba_write block_api].
    destruct (dev_place (block_devices s) dev) as [[[io off] sz]|] eqn:E; [|unfold dev_size in Hle; rewrite E in Hle; lia].
    assert (Esz : dev_size s dev = sz) by (unfold dev_size; by rewrite E).
    eapply block_write_wp; [exact I|exact E|done|done|lia|lia| |].
    + intros s' I' Ed W O. apply HQ; [exact I'|intros d; unfold dev_size; by rewrite Ed|]. intros i.
      unfold dev_sector. rewrite Ed, E, W. destruct (decide (lba <= i < lba + n)).
      * rewrite decide_True by lia. f_equal. lia.
      * by rewrite decide_False by lia.
    + intros F rc s' Hrc I' Ed W O. apply HF; [done|done|exact I'|intros d; unfold dev_size; by rewrite Ed|]. intros i Hi.
      unfold dev_sector. rewrite Ed, E. apply W. lia.
  - intros s dev Q I Hp HQ HF. cbn [ba_flush block_api]. pose proof I as [T _].
    destruct (dev_place (block_devices s) dev) as [[[io off] sz]|] eqn:E; [|unfold dev_size in Hp; rewrite E in Hp; lia].
    pose proof (dev_place_ok _ _ _ _ _ T E). pose proof (dd_size_bound io). unfold dev_size in Hp. rewrite E in Hp.
    eapply block_flush_wp; [exact I|exact E|lia| |].
    + intros s' I' Ed Es. apply HQ. split; [exact I'|]. by apply dev_same.
    + intros F rc s' Hrc I' Ed Es. apply HF; [done|done|]. split; [exact I'|]. by apply dev_same.
  - intros s dev Q I Hp HQ. destruct (dev_size_sectors s dev I Hp) as (d & Ed & Es & _). eapply wp_device; [exact Ed|]. by apply HQ.
  - intros s dev k Q I Hp HQ. destruct (dev_size_sectors s dev I Hp) as (d & Ed & Es & _). cbn [ba_add_mounts block_api].
    eapply wp_device_upd; [exact Ed|]. apply HQ.
    assert (P : same_place d (set_bd_mounts (bd_mounts d + k) d)) by done. destruct I as [T B]. split_and!.
    + split; [by eapply table_ok_insert|exact B].
    + intros x. unfold dev_size. cbn [block_devices set_devices]. by erewrite dev_place_insert.
    + intros x lba. unfold dev_sector. cbn [block_devices set_devices bk_disk]. by erewrite dev_place_insert.
  - intros s Q I HQ. apply block_random_wp; [exact I|]. intros x s' I' Ed Es. apply HQ. split; [exact I'|]. by apply dev_same.
Defined.
End BlockInstance.

Section BlockProps.
Context {H : Type} `{KM : KernelMem H} {D : Type} `{DD : DiskDriver D} {DL : DiskDriverLaws D}.
Local Abbreviation blockst := (Block.blockst (H := H) (D := D)).
Implicit Types s : blockst.

(** A transfer that is not inside its device is refused. *)
Lemma root_io_refused dev lba n buf write io off sz (Q : Z * list Z → blockst → Prop) s :
  block_ok s → dev_place (block_devices s) dev = Some (io, off, sz) → 0 <= lba < 2 ^ 64 → 0 <= n < 2 ^ 32 →
  ¬ (0 < n ∧ lba + n <= sz) → Q (-1, []) s → wp (block_root_io dev lba n buf write) Q s.
Proof.
  intros I E Hl Hn Hbad HQ. pose proof I as [T (bounce & Eb & _)]. pose proof (dev_place_ok _ _ _ _ _ T E) as (Hsz & _ & Hin). pose proof (dd_size_bound io).
  assert (Ed : ∃ d, block_devices s !!z dev = Some d ∧ bd_sectors d = sz).
  { unfold dev_place in E. destruct (block_devices s !!z dev) as [d|]; [|done]. exists d. split; [done|].
    cbn [mbind option_bind] in E. repeat case_match; try done; simplify_eq; [done|]. destruct (block_devices s !!z bd_parent d); [|done]. by simplify_eq/=. }
  destruct Ed as (d & Ed & Es). unfold block_root_io. pose proof (lookupZ_Some_lt _ _ _ Ed). destruct (Z.eqb_spec dev (-1)); [lia|]. wp_steps.
  rewrite Eb, bool_decide_false by done. cbn [orb]. destruct (Z.eqb_spec n 0); [by wp_steps|]. wp_steps. eapply wp_device; [exact Ed|].
  rewrite Es. assert (Hg : (sz <? u64 (lba + n)) || (u64 (lba + n) <? lba) = true).
  { unfold u64. apply orb_true_iff. rewrite !Z.ltb_lt. destruct (decide (lba + n < 2 ^ 64)).
    - left. rewrite Z.mod_small by lia. lia.
    - right. rewrite <- (Z.mod_unique (lba + n) (2 ^ 64) 1 (lba + n - 2 ^ 64)); lia. }
  rewrite Hg. by wp_steps.
Qed.

(** * Properties *)

(** C9 (refinement) [block_root_io, io_loop, block_read, block_write, block_flush, block_random, root_device]
    The block layer gives the file systems what they are proved against: every device, a disk or a
    partition, is an array of 512-byte sectors; a transfer of any length reads or writes
    exactly the sectors asked for, however it is cut into pieces for the bounce buffer; a
    failing driver is reported and damages nothing outside the transfer. *)
Theorem block_layer_correct :
  ∃ L : BlockLaws blockst, bl_ok (BlockLaws := L) = block_ok ∧ bl_size (BlockLaws := L) = dev_size ∧
    bl_sector (BlockLaws := L) = dev_sector ∧ bl_can_fail (BlockLaws := L) = dd_can_fail.
Proof. by exists block_laws. Qed.

(** C24 (safety) [block_write, block_root_io, io_loop, root_device]
    Whatever the arguments, a write to a device ends, is refused unless it lies inside
    the device, and changes no sector outside the part of the disk the device stands for,
    nor any other disk. *)
Theorem block_write_confined dev lba n buf io off sz s :
  block_ok s → dev_place (block_devices s) dev = Some (io, off, sz) → 0 <= lba < 2 ^ 64 → 0 <= n < 2 ^ 32 →
  n * BLOCK_SECTOR_SIZE <= Z.of_nat (length buf) →
  ∃ rc s', block_write dev lba n buf s = Some (rc, s') ∧ block_ok s' ∧ block_devices s' = block_devices s ∧
    same_outside (dd_sector (bk_disk s) io) (dd_sector (bk_disk s') io) off sz ∧ only_disk io (bk_disk s) (bk_disk s') ∧
    (rc = 0 → 0 < n ∧ lba + n <= sz ∧ written (dd_sector (bk_disk s) io) (dd_sector (bk_disk s') io) (off + lba) n buf) ∧
    (rc ≠ 0 → dd_can_fail ∨ ¬ (0 < n ∧ lba + n <= sz) ∧ s' = s).
Proof.
  intros I E Hl Hn Hbuf. apply wp_run. destruct (decide (0 < n ∧ lba + n <= sz)) as [[H1 H2]|Hbad].
  - eapply block_write_wp; [exact I|exact E|lia|lia|lia|done| |].
    + intros s' I' Ed W O. split_and!; try done. intros i Hi. apply (written_outside _ _ _ _ _ W). lia.
    + intros F rc s' Hrc I' Ed W O. split_and!; try done; [|by left]. intros i Hi. apply W. lia.
  - unfold block_write. wp_steps. eapply root_io_refused; [exact I|exact E|done|done|done|]. wp_steps. cbn [fst].
    split_and!; try done. intros _. by right.
Qed.
End BlockProps.

(** * A disk of 80000 sectors to try the theorems on *)
Definition demo_sector (d : gmap Z (list Z)) (io lba : Z) : list Z :=
  if io =? 1 then take 512 (default [] (d !! lba) ++ replicate 512 0) else [].
Definition demo_size (io : Z) : Z := if io =? 1 then 80000 else 0.
Fixpoint store_sectors (n : nat) (lba : Z) (buf : list Z) (d : gmap Z (list Z)) : gmap Z (list Z) :=
  match n with O => d | S n' => store_sectors n' (lba + 1) (drop 512 buf) (<[lba := take 512 buf]> d) end.
Definition demo_io (io lba n : Z) (buf : list Z) (write : bool) : M (gmap Z (list Z)) (Z * list Z) :=
  d ← get;
  if negb (io =? 1) then mret (-1, buf)
  else if write then modify (store_sectors (Z.to_nat n) lba buf);; mret (0, buf)
  else let bs := sectors_of (demo_sector d io) lba n in mret (0, bs ++ drop (length bs) buf).
#[export] Instance demo_driver : DiskDriver (gmap Z (list Z)) := {
  dd_io := demo_io; dd_flush _ := mret 0; dd_rdtsc := mret 42
}.

Lemma store_sectors_get n lba buf d i :
  Z.of_nat n * 512 <= Z.of_nat (length buf) →
  demo_sector (store_sectors n lba buf d) 1 i = if decide (lba <= i < lba + Z.of_nat n) then chunk (i - lba) buf else demo_sector d 1 i.
Proof.
  revert lba buf d. induction n as [|n IH]; intros lba buf d Hl; cbn [store_sectors].
  - by rewrite decide_False by lia.
  - rewrite IH by (rewrite length_drop; lia). destruct (decide (lba + 1 <= i < lba + 1 + Z.of_nat n)).
    + rewrite decide_True by lia. change 512%nat with (Z.to_nat (1 * BLOCK_SECTOR_SIZE)) at 1.
      rewrite chunk_drop by lia. f_equal. lia.
    + unfold demo_sector. cbn [Z.eqb Pos.eqb]. destruct (decide (i = lba)) as [->|].
      * rewrite lookup_insert_eq, decide_True, Z.sub_diag by lia. cbn [default]. unfold chunk. rewrite Z.mul_0_l. change (Z.to_nat 0) with 0%nat. change (Z.to_nat BLOCK_SECTOR_SIZE) with 512%nat.
        rewrite drop_0. unfold id. rewrite take_app_le by (rewrite length_take; lia). by rewrite take_take.
      * rewrite lookup_insert_ne by done. by rewrite decide_False by lia.
Qed.

#[export] Instance demo_driver_laws : DiskDriverLaws (gmap Z (list Z)).
Proof.
  refine {| dd_size := demo_size; dd_sector := demo_sector; dd_can_fail := False |}.
  - intros io. unfold demo_size. destruct (io =? 1); lia.
  - intros d io lba Hl. unfold demo_size, demo_sector in *. destruct (io =? 1); [|lia]. rewrite length_take, length_app, length_replicate. unfold BLOCK_SECTOR_SIZE. lia.
  - intros d io lba n buf Q Hl Hn Hle Hb HQ _. unfold demo_size in Hle. destruct (Z.eqb_spec io 1) as [->|]; [|lia].
    cbn [dd_io demo_driver]. unfold demo_io. wp_steps. cbn [Z.eqb Pos.eqb negb]. wp_steps.
    assert (Hs : Z.of_nat (length (sectors_of (demo_sector d 1) lba n)) = n * BLOCK_SECTOR_SIZE).
    { apply sectors_of_length; [lia|]. intros i Hi. unfold demo_sector. cbn [Z.eqb Pos.eqb]. rewrite length_take, length_app, length_replicate. unfold BLOCK_SECTOR_SIZE. lia. }
    apply HQ; [rewrite length_app, length_drop; lia|done|]. rewrite take_app_le, take_ge by lia. done.
  - intros d io lba n buf Q Hl Hn Hle Hb HQ _. unfold demo_size in Hle. destruct (Z.eqb_spec io 1) as [->|]; [|lia].
    cbn [dd_io demo_driver]. unfold demo_io. wp_steps. cbn [Z.eqb Pos.eqb negb]. wp_steps.
    apply HQ; [done| |].
    + intros i. rewrite store_sectors_get by (unfold BLOCK_SECTOR_SIZE in *; lia). by rewrite Z2Nat.id by lia.
    + intros io' Hio. unfold demo_sector. by rewrite (proj2 (Z.eqb_neq _ _) Hio).
  - intros d io Q HQ _. cbn [dd_flush demo_driver]. wp_steps. by apply HQ.
  - intros d Q HQ. cbn [dd_rdtsc demo_driver]. wp_steps. by apply HQ.
Defined.

(** The disk and a partition of 100 sectors at 2048. *)
Definition demo_disk : BlockDevice := MkBlockDevice (to_str "disk0") [] 0 80000 0 (-1) 0 0 1 true true.
Definition demo_part : BlockDevice := MkBlockDevice (to_str "disk0p1") [] 0 100 2048 0 1 0 0 false true.
Definition demo_block : blockst (H := heap) (D := gmap Z (list Z)) :=
  Blockst (demo_disk :: demo_part :: replicate 30 zero_device) (Some (replicate (Z.to_nat 65536) 0)) 1 0 demo_heap ∅.
Lemma demo_block_ok : block_ok demo_block.
Proof.
  split; [split; [done|]|].
  - intros i d Hd Hu. cbn [block_devices demo_block] in Hd. unfold lookupZ in Hd. destruct (Z.ltb_spec i 0); [done|].
    destruct (Z.to_nat i) as [|[|k]]; cbn in Hd.
    + injection Hd as <-. cbn. unfold demo_size. cbn. lia.
    + injection Hd as <-. cbn. split_and!; [lia|lia|]. exists demo_disk. split_and!; try done. right. vm_compute. discriminate.
    + change (replicate 30 zero_device !! k = Some d) in Hd. apply list_elem_of_lookup_2, elem_of_replicate in Hd as [-> _]. done.
  - eexists. split; [reflexivity|]. rewrite length_replicate. unfold BLOCK_MAX_TRANSFER, BLOCK_SECTOR_SIZE. lia.
Qed.

Lemma block_write_confined_witness :
  ∃ rc s', block_write 1 7 2 (replicate 1024 5) demo_block = Some (rc, s') ∧ block_ok s' ∧ block_devices s' = block_devices demo_block ∧
    same_outside (dd_sector (bk_disk demo_block) 1) (dd_sector (bk_disk s') 1) 2048 100 ∧ only_disk 1 (bk_disk demo_block) (bk_disk s') ∧
    (rc = 0 → 0 < 2 ∧ 7 + 2 <= 100 ∧ written (dd_sector (bk_disk demo_block) 1) (dd_sector (bk_disk s') 1) (2048 + 7) 2 (replicate 1024 5)) ∧
    (rc ≠ 0 → dd_can_fail ∨ ¬ (0 < 2 ∧ 7 + 2 <= 100) ∧ s' = demo_block).
Proof. apply block_write_confined; [exact demo_block_ok|reflexivity|lia|lia|vm_compute; discriminate]. Defined.
