(* ===== verification/Fat.v ===== *)
(** * kernel/filesystem/fat32.c: the allocation table and the clusters

    The first half of fat32.c: the cache of one sector of the table, chains of clusters,
    and reading and writing the bytes of a chain.  The functions on a mounted file system
    run on [fatst], those on a file or directory on [fnst], which adds its [FatNode]. *)
From S2P Require Import Prelude RawMem Pmm Heap VfsTypes Ramfs Block.
Local Open Scope kernel_scope.

(** [kernel/filesystem/fat32.c 1-14] *)
Definition FAT_ATTR_VOLUME : Z := 0x08.
Definition FAT_ATTR_DIR : Z := 0x10.
Definition FAT_ATTR_ARCHIVE : Z := 0x20.
Definition FAT_ATTR_LFN : Z := 0x0F.
Definition FAT_MASK : Z := 0x0FFFFFFF.
Definition FAT_EOC : Z := 0x0FFFFFFF.
Definition FAT_LFN_CHARS : Z := 13.
Definition FAT_ENTRY : Z := 32.

(** [kernel/filesystem/fat32.c 46-62] *)
Record Fat32 := MkFat32 {
  ft_dev : Z; ft_spc : Z; ft_cluster_bytes : Z; ft_fat_start : Z; ft_fat_sectors : Z; ft_fat_count : Z; ft_data_start : Z;
  ft_root_cluster : Z; ft_cluster_count : Z; ft_next_free : Z; ft_cache_sector : Z; ft_cache_valid : bool;
  ft_cache_dirty : bool; ft_cache : list Z
}.
(** [fn_fs] is the address of the file system. [kernel/filesystem/fat32.c 64-75] *)
Record FatNode := MkFatNode {
  fn_fs : Z; fn_cluster : Z; fn_entry_offset : Z; fn_lfn_count : Z; fn_short_name : list Z; fn_loaded : bool;
  fn_hint_index : Z; fn_hint_cluster : Z
}.
Definition set_cache (sector : Z) (valid dirty : bool) (bs : list Z) (f : Fat32) : Fat32 :=
  MkFat32 (ft_dev f) (ft_spc f) (ft_cluster_bytes f) (ft_fat_start f) (ft_fat_sectors f) (ft_fat_count f) (ft_data_start f)
    (ft_root_cluster f) (ft_cluster_count f) (ft_next_free f) sector valid dirty bs.
Definition set_next_free (n : Z) (f : Fat32) : Fat32 :=
  MkFat32 (ft_dev f) (ft_spc f) (ft_cluster_bytes f) (ft_fat_start f) (ft_fat_sectors f) (ft_fat_count f) (ft_data_start f)
    (ft_root_cluster f) (ft_cluster_count f) n (ft_cache_sector f) (ft_cache_valid f) (ft_cache_dirty f) (ft_cache f).
Definition set_fn_cluster (c : Z) (n : FatNode) : FatNode :=
  MkFatNode (fn_fs n) c (fn_entry_offset n) (fn_lfn_count n) (fn_short_name n) (fn_loaded n) (fn_hint_index n) (fn_hint_cluster n).
Definition set_fn_loaded (b : bool) (n : FatNode) : FatNode :=
  MkFatNode (fn_fs n) (fn_cluster n) (fn_entry_offset n) (fn_lfn_count n) (fn_short_name n) b (fn_hint_index n) (fn_hint_cluster n).
Definition set_hint (i c : Z) (n : FatNode) : FatNode :=
  MkFatNode (fn_fs n) (fn_cluster n) (fn_entry_offset n) (fn_lfn_count n) (fn_short_name n) (fn_loaded n) i c.
(** Where the directory entry is. *)
Definition set_entry (offset lfn : Z) (short : list Z) (n : FatNode) : FatNode :=
  MkFatNode (fn_fs n) (fn_cluster n) offset lfn short (fn_loaded n) (fn_hint_index n) (fn_hint_cluster n).

Section Fat.
Context {H : Type} `{KM : KernelMem H} {B : Type} `{BA : BlockApi B}.

Record fatst := Fatst { fa_fs : Fat32; fa_blk : B; fa_mem : H }.
Definition on_blk {A} (m : M B A) : M fatst A := zoom fa_blk (λ b s, Fatst (fa_fs s) b (fa_mem s)) m.
Definition on_fa_mem {A} (m : M H A) : M fatst A := zoom fa_mem (λ h s, Fatst (fa_fs s) (fa_blk s) h) m.
Definition fat_upd (f : Fat32 → Fat32) : M fatst unit := modify (λ s, Fatst (f (fa_fs s)) (fa_blk s) (fa_mem s)).

(** ** The table *)

(** Copies [i] onwards. [kernel/filesystem/fat32.c: fat_cache_flush 83-85] *)
Fixpoint flush_loop (n : nat) (i : Z) : M fatst Z :=
  match n with
  | O => mret 0
  | S n' =>
      f ← gets fa_fs;
      rc ← on_blk (ba_write (ft_dev f) (u32 (ft_fat_start f + i * ft_fat_sectors f + ft_cache_sector f)) 1 (ft_cache f));
      if negb (rc =? 0) then mret (-1) else flush_loop n' (i + 1)
  end.
(** [kernel/filesystem/fat32.c: fat_cache_flush] *)
Definition fat_cache_flush : M fatst Z :=
  f ← gets fa_fs;
  if negb (ft_cache_dirty f) then mret 0
  else
    rc ← flush_loop (Z.to_nat (ft_fat_count f)) 0;
    if negb (rc =? 0) then mret (-1)
    else fat_upd (λ f, set_cache (ft_cache_sector f) (ft_cache_valid f) false (ft_cache f) f);; mret 0.
(** [kernel/filesystem/fat32.c: fat_cache_load] *)
Definition fat_cache_load (sector : Z) : M fatst Z :=
  f ← gets fa_fs;
  if ft_cache_valid f && (ft_cache_sector f =? sector) then mret 0
  else
    rc ← fat_cache_flush;
    if negb (rc =? 0) then mret (-1)
    else
      fat_upd (λ f, set_cache (ft_cache_sector f) false (ft_cache_dirty f) (ft_cache f) f);;
      r ← on_blk (ba_read (ft_dev f) (u32 (ft_fat_start f + sector)) 1);
      if negb (r.1 =? 0) then mret (-1)
      else fat_upd (λ f, set_cache sector true (ft_cache_dirty f) r.2 f);; mret 0.
(** [kernel/filesystem/fat32.c: fat_valid] *)
Definition fat_valid (f : Fat32) (c : Z) : bool := (2 <=? c) && (c <? u32 (ft_cluster_count f + 2)).
(** [kernel/filesystem/fat32.c: fat_get] *)
Definition fat_get (c : Z) : M fatst Z :=
  rc ← fat_cache_load (c / 128);
  if negb (rc =? 0) then mret FAT_EOC
  else
    f ← gets fa_fs;
    v ← lift (le_field (ft_cache f) (c mod 128 * 4) 4);
    mret (Z.land v FAT_MASK).
(** [kernel/filesystem/fat32.c: fat_set] *)
Definition fat_set (c value : Z) : M fatst Z :=
  rc ← fat_cache_load (c / 128);
  if negb (rc =? 0) then mret (-1)
  else
    f ← gets fa_fs;
    v ← lift (le_field (ft_cache f) (c mod 128 * 4) 4);
    let v := Z.lor (Z.ldiff v FAT_MASK) (Z.land value FAT_MASK) in
    bs ← lift (write_range (ft_cache f) (c mod 128 * 4) (le_split 4 v));
    fat_upd (λ f, set_cache (ft_cache_sector f) (ft_cache_valid f) true bs f);;
    mret 0.
(** [kernel/filesystem/fat32.c: fat_lba] *)
Definition fat_lba (f : Fat32) (c : Z) : Z := u64 (ft_data_start f + u32 (c - 2) * ft_spc f).

(** [kernel/filesystem/fat32.c: fat_zero_cluster] *)
Definition fat_zero_cluster (c : Z) : M fatst Z :=
  f ← gets fa_fs;
  zero ← on_fa_mem (km_kmalloc (ft_cluster_bytes f));
  if zero =? 0 then mret (-1)
  else
    rc ← on_blk (ba_write (ft_dev f) (fat_lba f c) (ft_spc f) (replicate (Z.to_nat (ft_cluster_bytes f)) 0));
    on_fa_mem (km_kfree zero);;
    mret rc.

(** Candidates [n] onwards. [kernel/filesystem/fat32.c: fat_alloc] *)
Fixpoint fat_alloc_loop (fuel : nat) (n prev : Z) (zero : bool) : M fatst Z :=
  f ← gets fa_fs;
  if ft_cluster_count f <=? n then mret 0
  else match fuel with
  | O => fail
  | S fuel' =>
      let c := u32 (2 + u32 (u32 (ft_next_free f - 2) + n) mod ft_cluster_count f) in
      v ← fat_get c;
      if negb (v =? 0) then fat_alloc_loop fuel' (n + 1) prev zero
      else
        z ← (if zero then fat_zero_cluster c else mret 0);
        if negb (z =? 0) then mret 0
        else
          a ← fat_set c FAT_EOC;
          if negb (a =? 0) then mret 0
          else
            b ← (if prev =? 0 then mret 0 else fat_set prev c);
            if negb (b =? 0) then mret 0
            else
              fat_upd (λ f, set_next_free (if u32 (c + 1) <? u32 (ft_cluster_count f + 2) then u32 (c + 1) else 2) f);;
              mret c
  end.
Definition fat_alloc (prev : Z) (zero : bool) : M fatst Z :=
  f ← gets fa_fs; fat_alloc_loop (Z.to_nat (ft_cluster_count f)) 0 prev zero.

(** Freeing a cluster zeroes its entry, so that a chain that runs into itself stops
    there: the number of clusters bounds the turns. [kernel/filesystem/fat32.c: fat_free_chain] *)
Fixpoint fat_free_loop (fuel : nat) (c : Z) : M fatst unit :=
  f ← gets fa_fs;
  if negb (fat_valid f c) then mret tt
  else match fuel with
  | O => fail
  | S fuel' =>
      next ← fat_get c;
      fat_set c 0;;
      fat_upd (λ f, if c <? ft_next_free f then set_next_free c f else f);;
      fat_free_loop fuel' next
  end.
Definition fat_free_chain (c : Z) : M fatst unit :=
  f ← gets fa_fs; fat_free_loop (S (Z.to_nat (ft_cluster_count f))) c.

(** ** The clusters of a node *)

Record fnst := Fnst { fx_node : FatNode; fx_fat : fatst }.
Definition on_fat {A} (m : M fatst A) : M fnst A := zoom fx_fat (λ x s, Fnst (fx_node s) x) m.
Definition fn_upd (f : FatNode → FatNode) : M fnst unit := modify (λ s, Fnst (f (fx_node s)) (fx_fat s)).
Definition the_fat : M fnst Fat32 := gets (λ s, fa_fs (fx_fat s)).

(** [kernel/filesystem/fat32.c: fat_cluster_at 185-189] *)
Fixpoint walk_loop (fuel : nat) (i index c : Z) : M fnst Z :=
  f ← the_fat;
  if (i <? index) && fat_valid f c then
    match fuel with O => fail | S fuel' => c' ← on_fat (fat_get c); walk_loop fuel' (i + 1) index c' end
  else mret c.
(** [kernel/filesystem/fat32.c: fat_cluster_at] *)
Definition fat_cluster_at (index : Z) : M fnst Z :=
  n ← gets fx_node;
  let '(c, i) := if negb (fn_hint_cluster n =? 0) && (fn_hint_index n <=? index)
                 then (fn_hint_cluster n, fn_hint_index n) else (fn_cluster n, 0) in
  c ← walk_loop (Z.to_nat (index - i)) i index c;
  f ← the_fat;
  if negb (fat_valid f c) then mret 0 else fn_upd (set_hint index c);; mret c.

(** [while (i + 1 < clusters)]: gives the last index and cluster, or nothing when no
    cluster is left. [kernel/filesystem/fat32.c: fat_extend 219-230] *)
Fixpoint extend_loop (fuel : nat) (i c clusters : Z) (zero : bool) : M fnst (option (Z * Z)) :=
  if u32 (i + 1) <? clusters then
    match fuel with
    | O => fail
    | S fuel' =>
        f ← the_fat;
        next ← on_fat (fat_get c);
        next ← (if fat_valid f next then mret next else on_fat (fat_alloc c zero));
        if next =? 0 then mret None else extend_loop fuel' (i + 1) next clusters zero
    end
  else mret (Some (i, c)).
(** [kernel/filesystem/fat32.c: fat_extend] *)
Definition fat_extend (clusters : Z) (zero : bool) : M fnst Z :=
  if clusters =? 0 then mret 0
  else
    f ← the_fat;
    n ← gets fx_node;
    ok ← (if fat_valid f (fn_cluster n) then mret true
          else
            c ← on_fat (fat_alloc 0 zero);
            if c =? 0 then mret false else fn_upd (λ n, set_hint 0 c (set_fn_cluster c n));; mret true);
    if negb ok then mret (-1)
    else
      n ← gets fx_node;
      let '(i, c) := if negb (fn_hint_cluster n =? 0) && (fn_hint_index n <? clusters)
                     then (fn_hint_index n, fn_hint_cluster n) else (0, fn_cluster n) in
      r ← extend_loop (Z.to_nat clusters) i c clusters zero;
      match r with
      | None => mret (-1)
      | Some (i, c) => fn_upd (set_hint i c);; mret 0
      end.

(** ** The bytes of a chain *)

(** Bytes [off] onwards from sector [lba]; a read gives the bytes, a write is given them in
    [buf]. Every turn moves at least a byte. [kernel/filesystem/fat32.c: fat_data_io] *)
Fixpoint data_io_loop (fuel : nat) (lba off : Z) (buf : list Z) (len : Z) (write : bool) (acc : list Z) : M fatst (Z * list Z) :=
  if len =? 0 then mret (0, acc)
  else match fuel with
  | O => fail
  | S fuel' =>
      f ← gets fa_fs;
      let s := u64 (lba + off / BLOCK_SECTOR_SIZE) in
      let so := off mod BLOCK_SECTOR_SIZE in
      if (so =? 0) && (BLOCK_SECTOR_SIZE <=? len) then
        let n := u32 (len / BLOCK_SECTOR_SIZE) in
        let bytes := n * BLOCK_SECTOR_SIZE in
        r ← (if write then rc ← on_blk (ba_write (ft_dev f) s n (take (Z.to_nat bytes) buf)); mret (rc, [])
             else on_blk (ba_read (ft_dev f) s n));
        if negb (r.1 =? 0) then mret (-1, acc)
        else data_io_loop fuel' lba (off + bytes) (drop (Z.to_nat bytes) buf) (len - bytes) write (acc ++ r.2)
      else
        let n := Z.min (BLOCK_SECTOR_SIZE - so) len in
        t ← on_blk (ba_read (ft_dev f) s 1);
        if negb (t.1 =? 0) then mret (-1, acc)
        else if write then
          tmp ← lift (write_range t.2 so (take (Z.to_nat n) buf));
          rc ← on_blk (ba_write (ft_dev f) s 1 tmp);
          if negb (rc =? 0) then mret (-1, acc)
          else data_io_loop fuel' lba (off + n) (drop (Z.to_nat n) buf) (len - n) write acc
        else
          out ← lift (read_range t.2 so n);
          data_io_loop fuel' lba (off + n) buf (len - n) write (acc ++ out)
  end.
Definition fat_data_io (lba off : Z) (buf : list Z) (len : Z) (write : bool) : M fatst (Z * list Z) :=
  data_io_loop (Z.to_nat len) lba off buf len write [].

(** How far the clusters after [last] follow it on the disk: the length of the run, its
    last cluster and the index of that. [kernel/filesystem/fat32.c: fat_io 291-301] *)
Fixpoint run_loop (fuel : nat) (run last last_index cb want : Z) : M fnst (Z * Z * Z) :=
  if run <? want then
    match fuel with
    | O => fail
    | S fuel' =>
        f ← the_fat;
        next ← on_fat (fat_get last);
        if negb (next =? u32 (last + 1)) || negb (fat_valid f next) then mret (run, last, last_index)
        else run_loop fuel' (run + cb) next (u32 (last_index + 1)) cb want
    end
  else mret (run, last, last_index).
(** Bytes [done] onwards; the count and, of a read, the bytes. [kernel/filesystem/fat32.c: fat_io] *)
Fixpoint io_runs (fuel : nat) (offset : Z) (buf : list Z) (len : Z) (write : bool) (done : Z) (acc : list Z) : M fnst (Z * list Z) :=
  if done <? len then
    match fuel with
    | O => fail
    | S fuel' =>
        f ← the_fat;
        let cb := ft_cluster_bytes f in
        let index := u32 (u64 (offset + done) / cb) in
        let within := u64 (offset + done) mod cb in
        c ← fat_cluster_at index;
        if c =? 0 then mret (done, acc)
        else
          r ← run_loop (Z.to_nat (len - done)) (cb - within) c index cb (len - done);
          let '(run, last, last_index) := r in
          let run := Z.min run (len - done) in
          fn_upd (set_hint last_index last);;
          x ← on_fat (fat_data_io (fat_lba f c) within (drop (Z.to_nat done) buf) run write);
          if negb (x.1 =? 0) then mret (if done =? 0 then -1 else done, acc)
          else io_runs fuel' offset buf len write (done + run) (acc ++ x.2)
    end
  else mret (done, acc).
Definition fat_io (offset : Z) (buf : list Z) (len : Z) (write : bool) : M fnst (Z * list Z) :=
  io_runs (Z.to_nat len) offset buf len write 0 [].
End Fat.
