(* ===== verification/FatTable.v ===== *)
(** * The allocation table of FAT32 as a map

    Over a block layer that works ([BlockLaws], no failures), the cached sectors of the
    table stand for one function from clusters to their entries: reading, writing, allocating
    and freeing act on it, and leave the data of the disk alone. *)
From S2P Require Import Prelude RawMem Pmm Heap VfsTypes Ramfs Block BlockIo Fat.
Local Open Scope kernel_scope.

(** ** Lemmas: words *)
Lemma le_combine_split_mod n w : le_combine (le_split n w) = w mod 256 ^ Z.of_nat n.
Proof.
  revert w. induction n as [|n IH]; intros w; [by rewrite Z.mod_1_r|].
  cbn [le_split le_combine]. rewrite IH, Nat2Z.inj_succ, Z.pow_succ_r by lia. rewrite Z.rem_mul_r by lia. lia.
Qed.

Lemma masked_word v : Z.land (v mod 2 ^ 32) FAT_MASK = Z.land v FAT_MASK.
Proof.
  apply Z.bits_inj'. intros i Hi. rewrite !Z.land_spec. destruct (decide (i < 32)).
  - by rewrite Z.mod_pow2_bits_low.
  - change FAT_MASK with (Z.ones 28). rewrite (Z.ones_spec_high 28) by lia. by rewrite !andb_false_r.
Qed.
Lemma masked_merge v x : Z.land (Z.lor (Z.ldiff v FAT_MASK) (Z.land x FAT_MASK)) FAT_MASK = Z.land x FAT_MASK.
Proof.
  apply Z.bits_inj'. intros i Hi. rewrite !Z.land_spec, Z.lor_spec, Z.ldiff_spec, Z.land_spec.
  destruct (Z.testbit FAT_MASK i), (Z.testbit v i), (Z.testbit x i); done.
Qed.
Lemma masked_bound v : 0 <= Z.land v FAT_MASK <= FAT_MASK.
Proof.
  change FAT_MASK with (Z.ones 28). rewrite Z.land_ones by lia. pose proof (Z.mod_pos_bound v (2 ^ 28) ltac:(done)).
  change (Z.ones 28) with (2 ^ 28 - 1). lia.
Qed.
Lemma masked_id v : 0 <= v <= FAT_MASK → Z.land v FAT_MASK = v.
Proof.
  intros Hv. change FAT_MASK with (Z.ones 28). rewrite Z.land_ones by lia. apply Z.mod_small.
  change FAT_MASK with (2 ^ 28 - 1) in Hv. lia.
Qed.

Section FatTable.
Context {H : Type} `{KM : KernelMem H} {KL : KernelMemLaws H} {B : Type} `{BA : BlockApi B} {BL : BlockLaws B}.
Context (healthy : ¬ bl_can_fail (B := B)) (runs blocks : list (Z * Z)).
Local Abbreviation fatst := (Fat.fatst (H := H) (B := B)).
Implicit Types s : fatst.

(** ** The state *)

(** Where things are on the disk: [data_start] right after the copies of the table, every cluster has
    an entry and lies on the disk, and cluster numbers are below the marks of the table. *)
Record fat_geom (f : Fat32) (size : Z) : Prop := {
  fg_spc : 0 < ft_spc f < 256;
  fg_cb : ft_cluster_bytes f = ft_spc f * BLOCK_SECTOR_SIZE;
  fg_start : 0 <= ft_fat_start f ∧ 0 < ft_fat_sectors f ∧ 0 < ft_fat_count f;
  fg_data : ft_data_start f = ft_fat_start f + ft_fat_count f * ft_fat_sectors f;
  fg_count : 0 < ft_cluster_count f ∧ ft_cluster_count f + 2 <= ft_fat_sectors f * 128;
  fg_mask : ft_cluster_count f + 2 <= FAT_EOC;
  fg_size : ft_data_start f + ft_cluster_count f * ft_spc f <= size;
  fg_u32 : ft_data_start f < 2 ^ 32;
  fg_next : 2 <= ft_next_free f < ft_cluster_count f + 2
}.
(** The parts of the structure that never change. *)
Definition geo (f : Fat32) : Z * Z * Z * Z * Z * Z * Z * Z :=
  (ft_dev f, ft_spc f, ft_cluster_bytes f, ft_fat_start f, ft_fat_sectors f, ft_fat_count f, ft_data_start f, ft_cluster_count f).
Definition disk s (i : Z) : list Z := bl_sector (fa_blk s) (ft_dev (fa_fs s)) i.

(** A sector of the first copy, through the cache, and the entry of cluster [c] in it. *)
Definition tab_sector s (k : Z) : list Z :=
  let f := fa_fs s in
  if ft_cache_valid f && (ft_cache_sector f =? k) then ft_cache f else disk s (ft_fat_start f + k).
Definition word_at (bs : list Z) (c : Z) : Z := le_combine (spec_read bs (c mod 128 * 4) 4).
Definition fat_next s (c : Z) : Z := Z.land (word_at (tab_sector s (c / 128)) c) FAT_MASK.
Definition in_table (f : Fat32) (c : Z) : Prop := 0 <= c < ft_fat_sectors f * 128.

Record cache_ok s : Prop := {
  co_length : Z.of_nat (length (ft_cache (fa_fs s))) = BLOCK_SECTOR_SIZE;
  co_sector : ft_cache_valid (fa_fs s) = true → 0 <= ft_cache_sector (fa_fs s) < ft_fat_sectors (fa_fs s);
  co_clean : ft_cache_valid (fa_fs s) = true → ft_cache_dirty (fa_fs s) = false →
    ft_cache (fa_fs s) = disk s (ft_fat_start (fa_fs s) + ft_cache_sector (fa_fs s));
  co_dirty : ft_cache_dirty (fa_fs s) = true → ft_cache_valid (fa_fs s) = true
}.
Record fat_inv s : Prop := {
  ai_geom : fat_geom (fa_fs s) (bl_size (fa_blk s) (ft_dev (fa_fs s)));
  ai_blk : bl_ok (fa_blk s);
  ai_cache : cache_ok s;
  ai_mem : km_inv (fa_mem s) runs blocks
}.
(** From [s] to [s'] nothing but the table has changed on the disk. *)
Definition same_data s s' : Prop := ∀ i, ¬ (ft_fat_start (fa_fs s) <= i < ft_data_start (fa_fs s)) → disk s' i = disk s i.
(** [s'] is [s] with the table [nx]. *)
Definition table_is s s' (nx : Z → Z) : Prop :=
  fat_inv s' ∧ geo (fa_fs s') = geo (fa_fs s) ∧ same_data s s' ∧ ∀ c, in_table (fa_fs s) c → fat_next s' c = nx c.
Definition set_entry_of (c v : Z) (nx : Z → Z) : Z → Z := λ x, if x =? c then v else nx x.

Lemma geo_eq f f' : geo f' = geo f → 
  ft_dev f' = ft_dev f ∧ ft_spc f' = ft_spc f ∧ ft_cluster_bytes f' = ft_cluster_bytes f ∧ ft_fat_start f' = ft_fat_start f ∧
  ft_fat_sectors f' = ft_fat_sectors f ∧ ft_fat_count f' = ft_fat_count f ∧ ft_data_start f' = ft_data_start f ∧
  ft_cluster_count f' = ft_cluster_count f.
Proof. unfold geo. intros E. injection E. by intros -> -> -> -> -> -> -> ->. Qed.

Lemma fat_geom_geo f f' sz :
  geo f' = geo f → 2 <= ft_next_free f' < ft_cluster_count f + 2 → fat_geom f sz → fat_geom f' sz.
Proof.
  intros (E1 & E2 & E3 & E4 & E5 & E6 & E7 & E8)%geo_eq Hn []. constructor; rewrite ?E2, ?E3, ?E4, ?E5, ?E6, ?E7, ?E8; done.
Qed.

Lemma same_data_refl s : same_data s s.
Proof. by intros i. Qed.
Lemma same_data_trans s1 s2 s3 : geo (fa_fs s2) = geo (fa_fs s1) → same_data s1 s2 → same_data s2 s3 → same_data s1 s3.
Proof.
  intros E H1 H2 i Hi. apply geo_eq in E as (_ & _ & _ & E4 & _ & _ & E7 & _). rewrite H2 by (by rewrite E4, E7). by apply H1.
Qed.
Lemma table_is_trans s1 s2 s3 nx nx' :
  table_is s1 s2 nx → table_is s2 s3 nx' → table_is s1 s3 nx'.
Proof.
  intros (_ & G1 & D1 & N1) (I2 & G2 & D2 & N2). split_and!; [done|congruence|by eapply same_data_trans|].
  intros c Hc. apply N2. unfold in_table in *. apply geo_eq in G1 as (_ & _ & _ & _ & -> & _). done.
Qed.
Lemma table_is_ext s s' nx nx' : (∀ c, in_table (fa_fs s) c → nx c = nx' c) → table_is s s' nx → table_is s s' nx'.
Proof. intros E (I & G & D & N). split_and!; try done. intros c Hc. rewrite N by done. by apply E. Qed.
Lemma table_is_refl s : fat_inv s → table_is s s (fat_next s).
Proof. intros I. split_and!; try done. Qed.

(** ** Lemmas: the cache *)
Lemma disk_length s i : fat_inv s → 0 <= i < bl_size (fa_blk s) (ft_dev (fa_fs s)) → Z.of_nat (length (disk s i)) = BLOCK_SECTOR_SIZE.
Proof. intros I Hi. unfold disk. rewrite (bl_sector_length _ _ _ (ai_blk _ I) Hi). done. Qed.

Lemma fat_sector_bound s k : fat_inv s → 0 <= k < ft_fat_sectors (fa_fs s) →
  ∀ i, 0 <= i < ft_fat_count (fa_fs s) →
    u32 (ft_fat_start (fa_fs s) + i * ft_fat_sectors (fa_fs s) + k) = ft_fat_start (fa_fs s) + i * ft_fat_sectors (fa_fs s) + k ∧
    ft_fat_start (fa_fs s) <= ft_fat_start (fa_fs s) + i * ft_fat_sectors (fa_fs s) + k < ft_data_start (fa_fs s).
Proof.
  intros I Hk i Hi. destruct (ai_geom _ I) as [_ _ (G1 & G2 & G3) G4 _ _ _ G5 _]. rewrite G4 in *.
  assert ((i + 1) * ft_fat_sectors (fa_fs s) <= ft_fat_count (fa_fs s) * ft_fat_sectors (fa_fs s)) by (apply Z.mul_le_mono_nonneg_r; lia).
  assert (0 <= i * ft_fat_sectors (fa_fs s)) by (apply Z.mul_nonneg_nonneg; lia).
  split; [unfold u32; apply Z.mod_small|]; lia.
Qed.
Lemma data_in_disk s : fat_inv s → ft_data_start (fa_fs s) < bl_size (fa_blk s) (ft_dev (fa_fs s)).
Proof. intros I. destruct (ai_geom _ I) as [G1 _ _ _ G2 _ G3 _ _]. nia. Qed.

Lemma tab_sector_length s k : fat_inv s → 0 <= k < ft_fat_sectors (fa_fs s) → Z.of_nat (length (tab_sector s k)) = BLOCK_SECTOR_SIZE.
Proof.
  intros I Hk. unfold tab_sector. destruct (_ && _); [apply (ai_cache _ I)|]. apply disk_length; [done|].
  pose proof (data_in_disk s I). destruct (ai_geom _ I) as [_ _ (G1 & G2 & G3) _ _ _ _ _ _].
  destruct (fat_sector_bound s k I Hk 0 ltac:(lia)). lia.
Qed.

Lemma chunk_0 l : Z.of_nat (length l) = BLOCK_SECTOR_SIZE → chunk 0 l = l.
Proof. intros E. unfold chunk. rewrite Z.mul_0_l. change (Z.to_nat 0) with 0%nat. rewrite drop_0. apply take_ge. lia. Qed.

(** The disk after copies [i ..] of the cached sector are written. *)
Definition flushed s s' (i : Z) : Prop :=
  fa_fs s' = fa_fs s ∧ fa_mem s' = fa_mem s ∧ bl_ok (fa_blk s') ∧
  (∀ dev, bl_size (fa_blk s') dev = bl_size (fa_blk s) dev) ∧ same_data s s' ∧
  ∀ k, 0 <= k < ft_fat_sectors (fa_fs s) →
    disk s' (ft_fat_start (fa_fs s) + k) =
      if decide (k = ft_cache_sector (fa_fs s) ∧ i = 0) then ft_cache (fa_fs s) else disk s (ft_fat_start (fa_fs s) + k).

Lemma flush_loop_wp n i s :
  fat_inv s → ft_cache_valid (fa_fs s) = true → 0 <= i → i + Z.of_nat n = ft_fat_count (fa_fs s) → (i = 0 → 0 < Z.of_nat n) →
  wp (flush_loop n i) (λ rc s', rc = 0 ∧ flushed s s' i) s.
Proof.
  intros I Hv Hi Hn Hz. assert (Hcs := co_sector _ (ai_cache _ I) Hv).
  (* the loop never looks at what it has written *)
  assert (L : ∀ t, fa_fs t = fa_fs s → bl_ok (fa_blk t) → (∀ dev, bl_size (fa_blk t) dev = bl_size (fa_blk s) dev) →
    ∀ m j, (m <= n)%nat → i <= j → j + Z.of_nat m = ft_fat_count (fa_fs s) →
    wp (flush_loop m j) (λ rc t', rc = 0 ∧ fa_fs t' = fa_fs s ∧ fa_mem t' = fa_mem t ∧ bl_ok (fa_blk t') ∧
      (∀ dev, bl_size (fa_blk t') dev = bl_size (fa_blk s) dev) ∧
      (∀ x, ¬ (ft_fat_start (fa_fs s) <= x < ft_data_start (fa_fs s)) → disk t' x = disk t x) ∧
      (∀ k, 0 <= k < ft_fat_sectors (fa_fs s) → disk t' (ft_fat_start (fa_fs s) + k) =
         if decide (k = ft_cache_sector (fa_fs s) ∧ j = 0 ∧ (0 < m)%nat) then ft_cache (fa_fs s) else disk t (ft_fat_start (fa_fs s) + k))) t).
  { intros t Et Bt St m. revert t Et Bt St. induction m as [|m IH]; intros t Et Bt St j Hm Hj Hjm; cbn [flush_loop].
    { wp_steps. split_and!; try done. intros k _. by rewrite decide_False by lia. }
    wp_steps. rewrite Et. destruct (fat_sector_bound s (ft_cache_sector (fa_fs s)) I Hcs j ltac:(lia)) as [-> Hb].
    pose proof (data_in_disk s I). destruct (ai_geom _ I) as [_ _ (G1 & G2 & G3) G4 _ _ _ _ _].
    unfold on_blk. wp_steps. apply bl_write_law; [done|lia|lia|rewrite St; lia|by rewrite (co_length _ (ai_cache _ I))| |by intros].
    intros b' Bb Sb W. wp_steps. cbn [Z.eqb negb].
    set (t1 := Fatst (fa_fs t) b' (fa_mem t)).
    assert (Dt1 : ∀ x, disk t1 x = if decide (x = ft_fat_start (fa_fs s) + j * ft_fat_sectors (fa_fs s) + ft_cache_sector (fa_fs s)) then ft_cache (fa_fs s) else disk t x).
    { intros x. unfold disk, t1. cbn [fa_blk fa_fs]. rewrite Et. rewrite W. destruct (decide (x = _)) as [->|].
      - rewrite decide_True, Z.sub_diag by lia. apply chunk_0, (co_length _ (ai_cache _ I)).
      - by rewrite decide_False by lia. }
    eapply wp_mono; [apply (IH t1); [done|done|intros dev; cbn; by rewrite Sb|lia|lia|lia]|].
    cbv beta. intros rc t' (-> & F & M' & B' & S' & D1 & D2). split_and!; try done.
    - intros x Hx. rewrite D1 by done. rewrite Dt1. by rewrite decide_False by lia.
    - intros k Hk. rewrite D2 by done. rewrite Dt1.
      destruct (decide (k = ft_cache_sector (fa_fs s) ∧ j = 0 ∧ (0 < S m)%nat)) as [(-> & -> & _)|Hno].
      + rewrite (decide_False (P := _ ∧ _)) by lia. rewrite decide_True by lia. done.
      + rewrite (decide_False (P := _ ∧ _)) by lia. rewrite decide_False; [done|]. intros E. apply Hno.
        assert (j = 0 ∨ 1 <= j) as [->|Hj1] by lia; [split_and!; lia|].
        assert (ft_fat_sectors (fa_fs s) <= j * ft_fat_sectors (fa_fs s)) by nia. lia. }
  eapply wp_mono; [apply (L s); [done|apply I|done|lia|lia|lia]|]. cbv beta.
  intros rc s' (-> & F & M' & B' & S' & D1 & D2). split; [done|]. split_and!; try done. intros k Hk. rewrite D2 by done.
  destruct (decide (k = ft_cache_sector (fa_fs s) ∧ i = 0)).
  - by rewrite decide_True by lia.
  - by rewrite decide_False by lia.
Qed.

(** The entries when the sectors are the same. *)
Lemma fat_next_ext s s' c : tab_sector s' (c / 128) = tab_sector s (c / 128) → fat_next s' c = fat_next s c.
Proof. unfold fat_next. by intros ->. Qed.
Lemma in_table_sector f c : in_table f c → 0 <= c / 128 < ft_fat_sectors f.
Proof. unfold in_table. intros Hc. split; [apply Z.div_pos; lia|apply Z.div_lt_upper_bound; lia]. Qed.

(** What does not touch the table or the data. *)
Definition quiet s s' : Prop :=
  table_is s s' (fat_next s) ∧ ft_next_free (fa_fs s') = ft_next_free (fa_fs s).
Lemma quiet_trans s1 s2 s3 : quiet s1 s2 → quiet s2 s3 → quiet s1 s3.
Proof.
  intros [T1 N1] [T2 N2]. split; [|congruence]. eapply table_is_ext; [|eapply table_is_trans; [exact T1|exact T2]].
  intros c Hc. by apply T1.
Qed.
Lemma quiet_refl s : fat_inv s → quiet s s.
Proof. split; [by apply table_is_refl|done]. Qed.

Lemma flush_wp s (Q : Z → fatst → Prop) :
  fat_inv s → (∀ s', quiet s s' → ft_cache_dirty (fa_fs s') = false → ft_cache (fa_fs s') = ft_cache (fa_fs s) →
     ft_cache_valid (fa_fs s') = ft_cache_valid (fa_fs s) → Q 0 s') →
  wp fat_cache_flush Q s.
Proof.
  intros I HQ. unfold fat_cache_flush. wp_steps. destruct (ft_cache_dirty (fa_fs s)) eqn:Ed; cbn [negb].
  2:{ wp_steps. apply HQ; [by apply quiet_refl|done..]. }
  pose proof (co_dirty _ (ai_cache _ I) Ed) as Hv. destruct (ai_geom _ I) as [_ _ (G1 & G2 & G3) _ _ _ _ _ _].
  wp_steps. eapply wp_mono; [apply flush_loop_wp; [done|done|lia|lia|lia]|]. cbv beta.
  intros rc s1 (-> & F & M1 & B1 & S1 & D1 & K1). wp_steps. cbn [Z.eqb negb]. unfold fat_upd. wp_steps. rewrite F.
  match goal with |- Q 0 ?x => set (s' := x) end.
  assert (Dk : ∀ x, disk s' x = disk s1 x) by (intros x; unfold disk, s'; cbn [fa_fs fa_blk]; by rewrite F).
  assert (Tab : ∀ k, 0 <= k < ft_fat_sectors (fa_fs s) → tab_sector s' k = tab_sector s k).
  { intros k Hk. unfold tab_sector. rewrite Dk. cbn [fa_fs s' set_cache ft_cache_valid ft_cache_sector ft_cache ft_fat_start].
    rewrite Hv. cbn [andb]. destruct (Z.eqb_spec (ft_cache_sector (fa_fs s)) k) as [E|E]; [done|].
    rewrite K1 by done. by rewrite decide_False by (intros [-> _]; done). }
  apply HQ; [|done|done|by rewrite Hv]. split; [|done]. split_and!.
  - constructor.
    + cbn [fa_blk s']. rewrite S1. eapply fat_geom_geo; [| |apply (ai_geom _ I)]; [done|apply (ai_geom _ I)].
    + exact B1.
    + pose proof (ai_cache _ I) as [C1 C2 C3 C4]. constructor; try done. intros _ _.
      etransitivity; [|symmetry; apply Dk]. cbn [fa_fs s' set_cache ft_cache ft_cache_sector ft_fat_start].
      rewrite K1 by (by apply C2). by rewrite decide_True by done.
    + cbn. rewrite M1. apply I.
  - done.
  - intros x Hx. rewrite Dk. by apply D1.
  - intros c Hc. apply fat_next_ext, Tab, in_table_sector, Hc.
Qed.

Lemma load_wp k s (Q : Z → fatst → Prop) :
  fat_inv s → 0 <= k < ft_fat_sectors (fa_fs s) →
  (∀ s', quiet s s' → ft_cache_valid (fa_fs s') = true → ft_cache_sector (fa_fs s') = k → Q 0 s') →
  wp (fat_cache_load k) Q s.
Proof.
  intros I Hk HQ. unfold fat_cache_load. wp_steps.
  destruct (ft_cache_valid (fa_fs s) && (ft_cache_sector (fa_fs s) =? k)) eqn:E.
  { apply andb_prop in E as [E1 E2%Z.eqb_eq]. wp_steps. by apply HQ; [apply quiet_refl| |]. }
  wp_steps. apply flush_wp; [done|]. intros s1 Q1 Ed1 Ec1 Ev1. pose proof Q1 as [(I1 & G1 & D1 & N1) F1].
  wp_steps. cbn [Z.eqb negb]. unfold fat_upd. wp_steps.
  pose proof (geo_eq _ _ G1) as (E1 & E2 & E3 & E4 & E5 & E6 & E7 & E8).
  assert (Hk1 : 0 <= k < ft_fat_sectors (fa_fs s1)) by (by rewrite E5).
  destruct (ai_geom _ I1) as [_ _ (H1 & H2 & H3) _ _ _ _ _ _].
  destruct (fat_sector_bound s1 k I1 Hk1 0 ltac:(lia)) as [Hu Hb]. rewrite Z.mul_0_l, Z.add_0_r in Hu, Hb.
  pose proof (data_in_disk s1 I1). replace (ft_fat_start (fa_fs s)) with (ft_fat_start (fa_fs s1)) by done.
  replace (ft_dev (fa_fs s)) with (ft_dev (fa_fs s1)) by done. rewrite Hu.
  unfold on_blk. wp_steps. cbn [fa_blk]. apply bl_read_law; [apply I1|lia|lia|lia| |by intros].
  intros b' (Bb & Sb & Kb). wp_steps. cbn [fst snd Z.eqb negb]. wp_steps. rewrite sectors_of_one.
  fold (disk s1 (ft_fat_start (fa_fs s1) + k)).
  match goal with |- Q 0 ?x => set (s' := x) end.
  assert (Dk : ∀ x, disk s' x = disk s1 x) by (intros x; unfold disk, s'; cbn [fa_fs fa_blk set_cache ft_dev]; apply Kb).
  assert (Tab : ∀ j, 0 <= j < ft_fat_sectors (fa_fs s1) → tab_sector s' j = tab_sector s1 j).
  { intros j Hj. unfold tab_sector. rewrite Dk. cbn [fa_fs s' set_cache ft_cache_valid ft_cache_sector ft_cache ft_fat_start andb].
    destruct (Z.eqb_spec k j) as [<-|Hne].
    - destruct (ft_cache_valid (fa_fs s1)) eqn:Ev; [|done]. cbn [andb].
      destruct (Z.eqb_spec (ft_cache_sector (fa_fs s1)) k) as [Ek|]; [|done].
      rewrite (co_clean _ (ai_cache _ I1) Ev Ed1). by rewrite Ek.
    - destruct (ft_cache_valid (fa_fs s1)) eqn:Ev; [|done]. cbn [andb].
      destruct (Z.eqb_spec (ft_cache_sector (fa_fs s1)) j) as [Ek|]; [|done].
      rewrite (co_clean _ (ai_cache _ I1) Ev Ed1). by rewrite Ek. }
  apply HQ; [|done|done]. eapply quiet_trans; [exact Q1|]. split; [|done]. split_and!.
  - constructor.
    + cbn [fa_blk s']. rewrite Sb. eapply fat_geom_geo; [| |apply (ai_geom _ I1)]; [done|apply (ai_geom _ I1)].
    + exact Bb.
    + constructor; cbn [fa_fs s' set_cache ft_cache ft_cache_sector ft_cache_valid ft_cache_dirty ft_fat_sectors ft_fat_start].
      * apply disk_length; [done|lia].
      * by intros _.
      * intros _ _. symmetry. apply Dk.
      * done.
    + apply I1.
  - done.
  - intros x _. apply Dk.
  - intros c Hc. apply fat_next_ext, Tab, in_table_sector, Hc.
Qed.

(** ** Lemmas: entries *)
Lemma word_field bs c : 0 <= c → Z.of_nat (length bs) = BLOCK_SECTOR_SIZE → le_field bs (c mod 128 * 4) 4 = Some (word_at bs c).
Proof.
  intros Hc L. pose proof (Z.mod_pos_bound c 128 ltac:(lia)). unfold le_field, word_at.
  rewrite read_range_spec by (unfold BLOCK_SECTOR_SIZE in *; lia). done.
Qed.

Lemma get_wp c s (Q : Z → fatst → Prop) :
  fat_inv s → in_table (fa_fs s) c → (∀ s', quiet s s' → Q (fat_next s c) s') → wp (fat_get c) Q s.
Proof.
  intros I Hc HQ. pose proof (in_table_sector _ _ Hc) as Hk. unfold fat_get. wp_steps.
  apply load_wp; [done|done|]. intros s1 Q1 Hv Hs. pose proof Q1 as [(I1 & G1 & D1 & N1) F1]. wp_steps. cbn [Z.eqb negb]. wp_steps.
  eapply wp_lift; [apply word_field; [unfold in_table in Hc; lia|apply (ai_cache _ I1)]|]. wp_steps.
  assert (E : Z.land (word_at (ft_cache (fa_fs s1)) c) FAT_MASK = fat_next s c).
  { rewrite <- (N1 c Hc). unfold fat_next, tab_sector. rewrite Hv, Hs, Z.eqb_refl. done. }
  rewrite E. by apply HQ.
Qed.

Lemma word_at_write bs bs' c x v :
  0 <= c → 0 <= x → c / 128 = x / 128 → Z.of_nat (length bs) = BLOCK_SECTOR_SIZE →
  write_range bs (c mod 128 * 4) (le_split 4 v) = Some bs' →
  Z.land (word_at bs' x) FAT_MASK = if x =? c then Z.land v FAT_MASK else Z.land (word_at bs x) FAT_MASK.
Proof.
  intros Hc Hx E L W. pose proof (λ k, write_range_lookup _ _ _ _ k W) as K. rewrite length_le_split in K.
  destruct (K 0) as [L' _]. pose proof (Z.mod_pos_bound c 128 ltac:(lia)). pose proof (Z.mod_pos_bound x 128 ltac:(lia)).
  assert (R : ∀ l, length l = length bs → spec_read l (x mod 128 * 4) 4 =
    map (λ i, default 0 (l !!z (x mod 128 * 4 + i))) [0; 1; 2; 3]).
  { intros l Hl. unfold spec_read. assert (Hlen : (Z.to_nat (x mod 128 * 4) + 4 <= length l)%nat) by (unfold BLOCK_SECTOR_SIZE in *; lia).
    apply list_eq. intros i. rewrite lookup_take, lookup_drop, list_lookup_fmap.
    destruct (decide (i < 4)%nat) as [Hi|Hi].
    - destruct (decide (i < Z.to_nat 4)%nat); [|lia].
      destruct (lookup_lt_is_Some_2 l (Z.to_nat (x mod 128 * 4) + i)) as [y Hy]; [lia|].
      assert (Hz : ∀ j, Z.of_nat i = j → l !!z (x mod 128 * 4 + j) = Some y).
      { intros j <-. unfold lookupZ. destruct (Z.ltb_spec (x mod 128 * 4 + Z.of_nat i) 0); [lia|]. rewrite <- Hy. f_equal. lia. }
      rewrite Hy. assert (Hc4 : i = 0%nat ∨ i = 1%nat ∨ i = 2%nat ∨ i = 3%nat) by lia.
      destruct Hc4 as [-> | [-> | [-> | ->]]]; cbn [lookup list_lookup fmap option_fmap option_map];
        [rewrite (Hz 0 eq_refl)|rewrite (Hz 1 eq_refl)|rewrite (Hz 2 eq_refl)|rewrite (Hz 3 eq_refl)]; done.
    - destruct (decide (i < Z.to_nat 4)%nat); [lia|]. by rewrite (lookup_ge_None_2 [0; 1; 2; 3]) by (cbn; lia). }
  unfold word_at. rewrite !R by congruence. destruct (Z.eqb_spec x c) as [->|Hne].
  - rewrite <- (masked_word v). f_equal. change (2 ^ 32) with (256 ^ Z.of_nat 4). rewrite <- le_combine_split_mod. f_equal.
    cbn [map]. rewrite !(proj2 (K _)). rewrite !decide_True by lia. rewrite !Z.add_simpl_l. done.
  - f_equal. f_equal. apply map_ext_in. intros i Hi. f_equal. rewrite (proj2 (K _)). rewrite decide_False; [done|].
    assert (x mod 128 ≠ c mod 128).
    { intros Em. apply Hne. rewrite (Z.div_mod x 128), (Z.div_mod c 128) by lia. congruence. }
    cbn in Hi. lia.
Qed.

Lemma set_wp c v s (Q : Z → fatst → Prop) :
  fat_inv s → in_table (fa_fs s) c →
  (∀ s', table_is s s' (set_entry_of c (Z.land v FAT_MASK) (fat_next s)) → ft_next_free (fa_fs s') = ft_next_free (fa_fs s) → Q 0 s') →
  wp (fat_set c v) Q s.
Proof.
  intros I Hc HQ. pose proof (in_table_sector _ _ Hc) as Hk. unfold fat_set. wp_steps.
  apply load_wp; [done|done|]. intros s1 Q1 Hv Hs. pose proof Q1 as [(I1 & G1 & D1 & N1) F1]. wp_steps. cbn [Z.eqb negb]. wp_steps.
  pose proof (co_length _ (ai_cache _ I1)) as Lc. assert (Hc0 : 0 <= c) by (unfold in_table in Hc; lia).
  eapply wp_lift; [by apply word_field|]. wp_steps. set (w := Z.lor _ _).
  pose proof (Z.mod_pos_bound c 128 ltac:(lia)).
  destruct (write_range (ft_cache (fa_fs s1)) (c mod 128 * 4) (le_split 4 w)) as [bs|] eqn:W.
  2:{ unfold write_range in W. rewrite length_le_split in W. unfold BLOCK_SECTOR_SIZE in *.
      destruct (Z.leb_spec 0 (c mod 128 * 4)), (Z.leb_spec (c mod 128 * 4 + Z.of_nat 4) (Z.of_nat (length (ft_cache (fa_fs s1))))); try done; lia. }
  eapply wp_lift; [reflexivity|]. unfold fat_upd. wp_steps. cbn [fa_fs fa_blk fa_mem].
  match goal with |- Q 0 ?x => set (s' := x) end.
  assert (Lb : length bs = length (ft_cache (fa_fs s1))) by (by destruct (write_range_lookup _ _ _ _ 0 W)).
  pose proof (geo_eq _ _ G1) as (E1 & E2 & E3 & E4 & E5 & E6 & E7 & E8).
  apply HQ; [|exact F1]. split_and!.
  - constructor.
    + eapply fat_geom_geo; [| |apply (ai_geom _ I1)]; [done|apply (ai_geom _ I1)].
    + apply I1.
    + pose proof (ai_cache _ I1) as [C1 C2 C3 C4]. constructor; try done. cbn. by rewrite Lb.
    + apply I1.
  - exact G1.
  - intros x Hx. by apply (D1 x).
  - intros x Hx. unfold set_entry_of. rewrite <- (N1 x Hx). unfold fat_next, tab_sector.
    cbn [fa_fs s' set_cache ft_cache_valid ft_cache_sector ft_cache ft_fat_start]. rewrite Hv, Hs. cbn [andb].
    destruct (Z.eqb_spec (c / 128) (x / 128)) as [Ek|Ek].
    + rewrite (word_at_write _ _ c x w Hc0 ltac:(unfold in_table in Hx; lia) Ek Lc W).
      destruct (x =? c); [|done]. apply masked_merge.
    + destruct (Z.eqb_spec x c) as [->|]; [done|]. done.
Qed.

(** ** Clusters *)
Definition is_cluster (f : Fat32) (c : Z) : Prop := 2 <= c < ft_cluster_count f + 2.
(** The sectors of cluster [c] begin at [cluster_lba]. *)
Definition cluster_lba (f : Fat32) (c : Z) : Z := ft_data_start f + (c - 2) * ft_spc f.

Lemma valid_cluster s c : fat_inv s → fat_valid (fa_fs s) c = bool_decide (is_cluster (fa_fs s) c).
Proof.
  intros I. destruct (ai_geom _ I) as [_ _ _ _ G1 G2 _ _ _]. unfold fat_valid, is_cluster, u32, FAT_EOC in *.
  rewrite Z.mod_small by lia. destruct (Z.leb_spec 2 c), (Z.ltb_spec c (ft_cluster_count (fa_fs s) + 2)); cbn [andb];
    symmetry; (apply bool_decide_eq_true_2 || apply bool_decide_eq_false_2); lia.
Qed.
Lemma cluster_in_table s c : fat_inv s → is_cluster (fa_fs s) c → in_table (fa_fs s) c.
Proof. intros I. destruct (ai_geom _ I) as [_ _ _ _ G1 _ _ _ _]. unfold is_cluster, in_table. lia. Qed.
Lemma lba_cluster s c : fat_inv s → is_cluster (fa_fs s) c →
  fat_lba (fa_fs s) c = cluster_lba (fa_fs s) c ∧ ft_data_start (fa_fs s) <= cluster_lba (fa_fs s) c ∧
  cluster_lba (fa_fs s) c + ft_spc (fa_fs s) <= bl_size (fa_blk s) (ft_dev (fa_fs s)).
Proof.
  intros I Hc. pose proof (bl_size_bound _ (ft_dev (fa_fs s)) (ai_blk _ I)). destruct (ai_geom _ I) as [G1 _ (G0 & G00 & G000) GD G2 G3 G4 G5 _].
  unfold is_cluster in Hc. unfold fat_lba, cluster_lba.
  assert (Hd : 0 <= ft_data_start (fa_fs s)) by (rewrite GD; nia).
  assert (Hm : (c - 2) * ft_spc (fa_fs s) + ft_spc (fa_fs s) <= ft_cluster_count (fa_fs s) * ft_spc (fa_fs s)) by nia.
  assert (Hp : 0 <= (c - 2) * ft_spc (fa_fs s)) by nia. unfold FAT_EOC in G3.
  replace (u32 (c - 2)) with (c - 2) by (unfold u32; rewrite Z.mod_small; lia).
  split; [unfold u64; rewrite Z.mod_small by lia; done|]. lia.
Qed.
Lemma cluster_geo f f' c : geo f' = geo f → is_cluster f c → is_cluster f' c.
Proof. intros (_ & _ & _ & _ & _ & _ & _ & E)%geo_eq. unfold is_cluster. by rewrite E. Qed.
Lemma lba_geo f f' c : geo f' = geo f → cluster_lba f' c = cluster_lba f c.
Proof. intros (_ & E2 & _ & _ & _ & _ & E7 & _)%geo_eq. unfold cluster_lba. by rewrite E2, E7. Qed.

(** [s'] is [s] with the table [nx] and the data [dt]. *)
Definition is_now s s' (nx : Z → Z) (dt : Z → list Z) : Prop :=
  fat_inv s' ∧ geo (fa_fs s') = geo (fa_fs s) ∧
  (∀ i, ¬ (ft_fat_start (fa_fs s) <= i < ft_data_start (fa_fs s)) → disk s' i = dt i) ∧
  ∀ c, in_table (fa_fs s) c → fat_next s' c = nx c.
Lemma is_now_trans s1 s2 s3 nx nx' dt dt' : is_now s1 s2 nx dt → is_now s2 s3 nx' dt' → is_now s1 s3 nx' dt'.
Proof.
  intros (_ & G1 & D1 & N1) (I2 & G2 & D2 & N2). pose proof (geo_eq _ _ G1) as (_ & _ & _ & E4 & E5 & _ & E7 & _).
  split_and!; [done|congruence| |].
  - intros i Hi. apply D2. by rewrite E4, E7.
  - intros c Hc. apply N2. unfold in_table in *. by rewrite E5.
Qed.
Lemma is_now_ext s s' nx nx' dt dt' :
  is_now s s' nx dt → (∀ c, in_table (fa_fs s) c → nx c = nx' c) →
  (∀ i, ¬ (ft_fat_start (fa_fs s) <= i < ft_data_start (fa_fs s)) → dt i = dt' i) → is_now s s' nx' dt'.
Proof.
  intros (I & G & D & N) E1 E2. split_and!; [done|done| |].
  - intros i Hi. rewrite D by done. by apply E2.
  - intros c Hc. rewrite N by done. by apply E1.
Qed.
Lemma table_now s s' nx : table_is s s' nx → is_now s s' nx (disk s).
Proof. intros (I & G & D & N). by split_and!. Qed.
Lemma now_table s s' nx : is_now s s' nx (disk s) → table_is s s' nx.
Proof. intros (I & G & D & N). by split_and!. Qed.
Lemma is_now_refl s : fat_inv s → is_now s s (fat_next s) (disk s).
Proof. intros I. by split_and!. Qed.
Lemma quiet_now s s' : quiet s s' → is_now s s' (fat_next s) (disk s).
Proof. intros [T _]. by apply table_now. Qed.
Lemma is_now_inv s s' nx dt : is_now s s' nx dt → fat_inv s'.
Proof. by intros (I & _). Qed.

Lemma next_free_wp s (Q : unit → fatst → Prop) f :
  fat_inv s → (∀ x, geo (f x) = geo x ∧ set_next_free (ft_next_free x) (f x) = x) →
  2 <= ft_next_free (f (fa_fs s)) < ft_cluster_count (fa_fs s) + 2 →
  (∀ s', is_now s s' (fat_next s) (disk s) → ft_next_free (fa_fs s') = ft_next_free (f (fa_fs s)) → Q tt s') → wp (fat_upd f) Q s.
Proof.
  intros I Hf Hn HQ. unfold fat_upd. wp_steps. apply HQ; [|done].
  destruct (Hf (fa_fs s)) as [G E]. pose proof (geo_eq _ _ G) as (E1 & E2 & E3 & E4 & E5 & E6 & E7 & E8).
  assert (Ec : ft_cache_valid (f (fa_fs s)) = ft_cache_valid (fa_fs s) ∧ ft_cache_sector (f (fa_fs s)) = ft_cache_sector (fa_fs s) ∧
    ft_cache_dirty (f (fa_fs s)) = ft_cache_dirty (fa_fs s) ∧ ft_cache (f (fa_fs s)) = ft_cache (fa_fs s))
    by (rewrite <- E at 2 4 6 8; done).
  destruct Ec as (V1 & V2 & V3 & V4).
  assert (Dk : ∀ x, disk (Fatst (f (fa_fs s)) (fa_blk s) (fa_mem s)) x = disk s x) by (intros x; unfold disk; cbn; by rewrite E1).
  split_and!; [|done|by intros i _|].
  - constructor; cbn [fa_fs fa_blk fa_mem]; [|apply I| |apply I].
    + rewrite E1. eapply fat_geom_geo; [exact G|exact Hn|apply (ai_geom _ I)].
    + destruct (ai_cache _ I) as [C1 C2 C3 C4]. constructor; rewrite ?Dk; cbn [fa_fs]; rewrite ?V1, ?V2, ?V3, ?V4, ?E4, ?E5; done.
  - intros x Hx. apply fat_next_ext. unfold tab_sector. rewrite Dk. cbn [fa_fs]. by rewrite V1, V2, V4, E4.
Qed.

(** ** Chains *)

(** The clusters from [c] on, in order, as the table [nx] links them. *)
Fixpoint chain (f : Fat32) (nx : Z → Z) (c : Z) (l : list Z) : Prop :=
  match l with
  | [] => ¬ is_cluster f c
  | x :: l' => c = x ∧ is_cluster f x ∧ chain f nx (nx x) l'
  end.

Lemma fat_chain_ext f nx nx' c l : (∀ x, x ∈ l → nx x = nx' x) → chain f nx c l → chain f nx' c l.
Proof.
  revert c. induction l as [|x l IH]; intros c E; [done|]. intros (-> & Hx & Hc). split_and!; [done|done|].
  rewrite <- E by (by apply elem_of_cons; left). apply IH; [|done]. intros y Hy. apply E. by apply elem_of_cons; right.
Qed.
Lemma chain_geo f f' nx c l : geo f' = geo f → chain f nx c l → chain f' nx c l.
Proof.
  intros G. revert c. induction l as [|x l IH]; intros c; cbn [chain].
  - intros Hc Hc'. apply Hc. by eapply cluster_geo; [symmetry; exact G|].
  - intros (-> & Hx & Hc). split_and!; [done|by eapply cluster_geo|by apply IH].
Qed.
Lemma chain_unique f nx c l l' : chain f nx c l → chain f nx c l' → l = l'.
Proof.
  revert c l'. induction l as [|x l IH]; intros c [|x' l']; cbn [chain]; try done.
  - by intros Hc (-> & Hx & _).
  - by intros (-> & Hx & _) Hc.
  - intros (-> & Hx & Hc) (-> & _ & Hc'). f_equal. by eapply IH.
Qed.
Lemma chain_clusters f nx c l x : chain f nx c l → x ∈ l → is_cluster f x.
Proof.
  revert c. induction l as [|y l IH]; intros c; [by intros _ Hx%elem_of_nil|]. intros (-> & Hy & Hc) [->|Hx]%elem_of_cons; [done|by eapply IH].
Qed.
Lemma chain_suffix f nx c l1 x l2 : chain f nx c (l1 ++ x :: l2) → chain f nx x (x :: l2).
Proof.
  revert c. induction l1 as [|y l1 IH]; intros c; cbn [app chain]; [by intros (-> & ? & ?)|]. intros (_ & _ & Hc). by eapply IH.
Qed.
(** A chain that ends visits no cluster twice. *)
Lemma chain_nodup f nx c l : chain f nx c l → NoDup l.
Proof.
  revert c. induction l as [|x l IH]; intros c Hc; [apply NoDup_nil_2|]. pose proof Hc as (-> & Hx & Hc').
  apply list.NoDup_cons. split; [|by eapply IH]. intros (l1 & l2 & ->)%list_elem_of_split.
  pose proof (chain_suffix f nx x (x :: l1) x l2 Hc) as Hs. pose proof (chain_unique _ _ _ _ _ Hc Hs) as E.
  apply (f_equal length) in E. cbn in E. rewrite length_app in E. cbn in E. lia.
Qed.
Lemma fat_chain_length s nx c l : fat_inv s → chain (fa_fs s) nx c l → Z.of_nat (length l) <= ft_cluster_count (fa_fs s).
Proof.
  intros I Hc. destruct (ai_geom _ I) as [_ _ _ _ G1 _ _ _ _].
  assert (Hincl : l ⊆ seqZ 2 (ft_cluster_count (fa_fs s))).
  { intros x Hx. apply elem_of_seqZ. pose proof (chain_clusters _ _ _ _ _ Hc Hx) as Hcl. unfold is_cluster in Hcl. lia. }
  apply NoDup_submseteq in Hincl; [|by eapply chain_nodup]. apply submseteq_length in Hincl. rewrite length_seqZ in Hincl. lia.
Qed.

(** ** Freeing *)
Lemma free_turn_wp {A} s c (K : M fatst A) (Q : A → fatst → Prop) :
  fat_inv s → is_cluster (fa_fs s) c →
  (∀ s', is_now s s' (set_entry_of c 0 (fat_next s)) (disk s) → wp K Q s') →
  wp (fat_set c 0;; fat_upd (λ f, if c <? ft_next_free f then set_next_free c f else f);; K) Q s.
Proof.
  intros I Hc HQ. wp_steps. apply set_wp; [done|by apply cluster_in_table|]. intros s1 T1 F1.
  change (Z.land 0 FAT_MASK) with 0 in T1. pose proof (table_now _ _ _ T1) as N1. pose proof (is_now_inv _ _ _ _ N1) as I1.
  pose proof N1 as (_ & G1 & _ & _). wp_steps. apply next_free_wp; [done| | |].
  - intros x. destruct (c <? ft_next_free x); by destruct x.
  - pose proof (cluster_geo _ _ _ G1 Hc) as Hc1. unfold is_cluster in Hc1. pose proof (fg_next _ _ (ai_geom _ I1)).
    destruct (c <? ft_next_free (fa_fs s1)); cbn; lia.
  - intros s2 N2 _. apply HQ. eapply is_now_ext; [eapply is_now_trans; [exact N1|exact N2]| |].
    + intros x Hx. by apply N1.
    + intros i Hi. by apply N1.
Qed.

(** The clusters whose entry is not 0. *)
Definition used_count (f : Fat32) (nx : Z → Z) : nat := length (filter (λ c, nx c ≠ 0) (seqZ 2 (ft_cluster_count f))).
Lemma used_count_set f nx c : is_cluster f c → nx c ≠ 0 → (used_count f (set_entry_of c 0 nx) < used_count f nx)%nat.
Proof.
  intros Hc Hn. unfold used_count. assert (Hin : c ∈ seqZ 2 (ft_cluster_count f)) by (apply elem_of_seqZ; unfold is_cluster in Hc; lia).
  apply list_elem_of_split in Hin as (l1 & l2 & E). rewrite E, !list.filter_app, !length_app, !filter_cons.
  assert (K : ∀ l : list Z, (length (filter (λ x : Z, set_entry_of c (0:Z) nx x ≠ 0%Z) l) <= length (filter (λ x, nx x ≠ 0%Z) l))%nat).
  { intros l. induction l as [|x l IH]; [done|]. rewrite !filter_cons. unfold set_entry_of in *.
    destruct (x =? c); repeat case_decide; cbn; try lia; done. }
  pose proof (K l1). pose proof (K l2). rewrite (decide_True (P := nx c ≠ 0)) by done.
  rewrite decide_False by (unfold set_entry_of; rewrite Z.eqb_refl; by intros ?). cbn. lia.
Qed.

Lemma used_count_ext f f' nx nx' :
  ft_cluster_count f' = ft_cluster_count f → (∀ c, is_cluster f c → nx' c = nx c) → used_count f' nx' = used_count f nx.
Proof.
  intros Ef E. unfold used_count. rewrite Ef.
  assert (E' : ∀ c, c ∈ seqZ 2 (ft_cluster_count f) → nx' c = nx c) by (intros c Hc%elem_of_seqZ; apply E; unfold is_cluster; lia).
  induction (seqZ 2 (ft_cluster_count f)) as [|x l IH]; [done|]. rewrite !filter_cons, (E' x) by (by apply elem_of_cons; left).
  destruct (decide (nx x ≠ 0)); cbn; rewrite IH; try done; intros c Hc; apply E'; by apply elem_of_cons; right.
Qed.

(** Freeing ends, from any cluster of any table. *)
Lemma free_loop_ends fuel c s :
  fat_inv s → (used_count (fa_fs s) (fat_next s) < fuel)%nat →
  wp (fat_free_loop fuel c) (λ _ s', fat_inv s' ∧ geo (fa_fs s') = geo (fa_fs s) ∧ same_data s s') s.
Proof.
  revert c s. induction fuel as [|fuel IH]; intros c s I Hf; [lia|]. cbn [fat_free_loop]. wp_steps. rewrite valid_cluster by done.
  case_bool_decide as Hc; cbn [negb]; [|wp_steps; by split_and!]. wp_steps. apply get_wp; [done|by apply cluster_in_table|].
  intros s1 Q1. pose proof (quiet_now _ _ Q1) as N1. pose proof (is_now_inv _ _ _ _ N1) as I1. pose proof N1 as (_ & G1 & D1 & X1).
  apply free_turn_wp; [done|by eapply cluster_geo|]. intros s2 N2. pose proof (is_now_trans _ _ _ _ _ _ _ N1 N2) as N. pose proof (is_now_inv _ _ _ _ N) as I2.
  pose proof N as (_ & G & D & X).
  assert (E : fat_next s c = 0 ∨ fat_next s c ≠ 0) by lia. destruct E as [E|E].
  - rewrite E. assert (Hz : fat_valid (fa_fs s2) 0 = false).
    { rewrite valid_cluster by done. apply bool_decide_eq_false_2. unfold is_cluster. lia. }
    assert (HR : wp (fat_free_loop fuel 0) (λ _ s', s' = s2) s2) by (destruct fuel; cbn [fat_free_loop]; wp_steps; rewrite Hz; by wp_steps).
    eapply wp_mono; [exact HR|]. intros ? s' ->. split_and!; [done|done|]. intros i Hi. rewrite D by done. by apply D1.
  - eapply wp_mono; [apply IH; [done|]|].
    + assert (Eq : used_count (fa_fs s2) (fat_next s2) = used_count (fa_fs s) (set_entry_of c 0 (fat_next s))).
      { apply used_count_ext; [by apply geo_eq in G as (_ & _ & _ & _ & _ & _ & _ & ->)|]. intros x Hx.
        pose proof (cluster_in_table s x I Hx) as Ht. rewrite X.
        - unfold set_entry_of. destruct (x =? c); [done|]. by apply X1.
        - exact Ht. }
      pose proof (used_count_set (fa_fs s) (fat_next s) c Hc E). lia.
    + cbv beta. intros ? s' (I' & G' & D'). split_and!; [done|congruence|]. eapply same_data_trans; [exact G| |exact D'].
      intros i Hi. rewrite D by done. by apply D1.
Qed.

(** The two tables of a step, read in the first state. *)
Lemma is_now_step s1 s2 s3 nx dt nx' dt' :
  is_now s1 s2 nx dt → is_now s2 s3 nx' dt' →
  (∀ c, in_table (fa_fs s1) c → fat_next s2 c = nx c) ∧
  (∀ i, ¬ (ft_fat_start (fa_fs s1) <= i < ft_data_start (fa_fs s1)) → disk s2 i = dt i) ∧ is_now s1 s3 nx' dt'.
Proof. intros N1 N2. split_and!; [by apply N1|by apply N1|by eapply is_now_trans]. Qed.

Lemma free_chain_wp l fuel c s (Q : unit → fatst → Prop) :
  fat_inv s → chain (fa_fs s) (fat_next s) c l → (length l <= fuel)%nat →
  (∀ s', is_now s s' (λ x, if bool_decide (x ∈ l) then 0 else fat_next s x) (disk s) → Q tt s') →
  wp (fat_free_loop fuel c) Q s.
Proof.
  revert fuel c s Q. induction l as [|x l IH]; intros fuel c s Q I Hc Hf HQ; pose proof (chain_nodup _ _ _ _ Hc) as ND.
  - assert (Hv : fat_valid (fa_fs s) c = false) by (rewrite valid_cluster by done; by apply bool_decide_eq_false_2).
    destruct fuel; cbn [fat_free_loop]; wp_steps; rewrite Hv; wp_steps; apply HQ;
      (eapply is_now_ext; [by apply is_now_refl|intros; by rewrite bool_decide_false by apply not_elem_of_nil|done]).
  - destruct Hc as (-> & Hx & Hc). destruct fuel as [|fuel]; [cbn in Hf; lia|]. cbn [fat_free_loop]. wp_steps.
    rewrite valid_cluster, bool_decide_true by done. cbn [negb]. wp_steps. apply get_wp; [done|by apply cluster_in_table|].
    intros s1 Q1. pose proof (quiet_now _ _ Q1) as N1. pose proof (is_now_inv _ _ _ _ N1) as I1. pose proof N1 as (_ & G1 & _ & _).
    apply free_turn_wp; [done|by eapply cluster_geo|]. intros s2 N2. pose proof (is_now_inv _ _ _ _ N2) as I2.
    pose proof (is_now_step _ _ _ _ _ _ _ N1 N2) as (X1 & D1 & N). pose proof N as (_ & G & D & X).
    apply list.NoDup_cons in ND as [Hnin ND].
    assert (X' : ∀ y, in_table (fa_fs s) y → fat_next s2 y = if y =? x then 0 else fat_next s y).
    { intros y Hy. rewrite X by done. unfold set_entry_of. destruct (y =? x); [done|]. by apply X1. }
    apply IH; [done| |cbn in Hf; lia|].
    + eapply chain_geo; [exact G|]. eapply fat_chain_ext; [|exact Hc]. intros y Hy.
      rewrite X' by (apply cluster_in_table; [done|by eapply chain_clusters]).
      destruct (Z.eqb_spec y x) as [->|]; [done|done].
    + intros s3 N3. apply HQ. eapply is_now_ext; [eapply is_now_trans; [exact N|exact N3]| |].
      * intros y Hy. cbv beta. rewrite X' by done. destruct (Z.eqb_spec y x) as [->|Hne].
        -- rewrite (bool_decide_true (x ∈ x :: l)) by (by apply elem_of_cons; left). by destruct (bool_decide _).
        -- rewrite (bool_decide_ext (y ∈ l) (y ∈ x :: l)); [done|]. rewrite elem_of_cons. naive_solver.
      * intros i Hi. rewrite D by done. by apply D1.
Qed.

(** ** Lemmas: the data *)

(** The structure and the block layer after a transfer outside the table. *)
Lemma blk_now s b' (dt : Z → list Z) :
  fat_inv s → bl_ok b' → (∀ dev, bl_size b' dev = bl_size (fa_blk s) dev) →
  (∀ i, bl_sector b' (ft_dev (fa_fs s)) i = dt i) → (∀ i, i < ft_data_start (fa_fs s) → dt i = disk s i) →
  ∀ h, km_inv h runs blocks → is_now s (Fatst (fa_fs s) b' h) (fat_next s) dt.
Proof.
  intros I Bb Sb W E h Ih. set (s' := Fatst (fa_fs s) b' h).
  assert (Dk : ∀ i, i < ft_data_start (fa_fs s) → disk s' i = disk s i) by (intros i Hi; unfold disk at 1; cbn; rewrite W; by apply E).
  pose proof (ai_geom _ I) as G. assert (Hfat : ∀ k, 0 <= k < ft_fat_sectors (fa_fs s) → ft_fat_start (fa_fs s) + k < ft_data_start (fa_fs s)).
  { intros k Hk. destruct G as [_ _ (G1 & G2 & G3) -> _ _ _ _ _]. nia. }
  split_and!; [|done|intros i _; apply W|].
  - constructor; [|exact Bb| |exact Ih].
    + cbn [fa_blk s' fa_fs]. rewrite Sb. exact G.
    + destruct (ai_cache _ I) as [C1 C2 C3 C4]. constructor; try done. intros Hv Hd. rewrite Dk by (apply Hfat; by apply C2). by apply C3.
  - intros c Hc. apply fat_next_ext. unfold tab_sector. cbn [fa_fs s'].
    destruct (_ && _); [done|]. apply Dk, Hfat, in_table_sector, Hc.
Qed.

Lemma data_write_wp lba n buf s (Q : Z → fatst → Prop) :
  fat_inv s → 0 < n → ft_data_start (fa_fs s) <= lba → lba + n <= bl_size (fa_blk s) (ft_dev (fa_fs s)) →
  Z.of_nat (length buf) = n * BLOCK_SECTOR_SIZE →
  (∀ s', is_now s s' (fat_next s) (λ i, if decide (lba <= i < lba + n) then chunk (i - lba) buf else disk s i) →
     fa_fs s' = fa_fs s → Q 0 s') →
  wp (on_blk (ba_write (ft_dev (fa_fs s)) lba n buf)) Q s.
Proof.
  intros I Hn Hl Hle Hb HQ. assert (0 <= ft_data_start (fa_fs s)) by (destruct (ai_geom _ I) as [_ _ (G1 & G2 & G3) -> _ _ _ _ _]; nia).
  unfold on_blk. wp_steps. apply bl_write_law; [apply I|lia|done|done|done| |by intros].
  intros b' Bb Sb W. apply HQ; [|done]. eapply blk_now; [done|done|done|exact W| |apply I]. intros i Hi. by rewrite decide_False by lia.
Qed.
Lemma data_read_wp lba n s (Q : Z * list Z → fatst → Prop) :
  fat_inv s → 0 < n → ft_data_start (fa_fs s) <= lba → lba + n <= bl_size (fa_blk s) (ft_dev (fa_fs s)) →
  (∀ s', is_now s s' (fat_next s) (disk s) → fa_fs s' = fa_fs s → Q (0, sectors_of (disk s) lba n) s') →
  wp (on_blk (ba_read (ft_dev (fa_fs s)) lba n)) Q s.
Proof.
  intros I Hn Hl Hle HQ. assert (0 <= ft_data_start (fa_fs s)) by (destruct (ai_geom _ I) as [_ _ (G1 & G2 & G3) -> _ _ _ _ _]; nia).
  unfold on_blk. wp_steps. apply bl_read_law; [apply I|lia|done|done| |by intros].
  intros b' (Bb & Sb & W). apply HQ; [|done]. eapply blk_now; [done|done|done| |done|apply I]. intros i. apply W.
Qed.

Definition zeroed (f : Fat32) (c : Z) (dt : Z → list Z) : Z → list Z := λ i,
  if decide (cluster_lba f c <= i < cluster_lba f c + ft_spc f) then replicate (Z.to_nat BLOCK_SECTOR_SIZE) 0 else dt i.
Lemma chunk_replicate k n v :
  0 <= k → (k + 1) * BLOCK_SECTOR_SIZE <= Z.of_nat n → chunk k (replicate n v) = replicate (Z.to_nat BLOCK_SECTOR_SIZE) v.
Proof.
  intros Hk Hn. unfold chunk. rewrite drop_replicate, take_replicate. f_equal. unfold BLOCK_SECTOR_SIZE in *. lia.
Qed.

Lemma zero_cluster_wp c s (Q : Z → fatst → Prop) :
  fat_inv s → is_cluster (fa_fs s) c →
  (∀ s', is_now s s' (fat_next s) (zeroed (fa_fs s) c (disk s)) → ft_next_free (fa_fs s') = ft_next_free (fa_fs s) → Q 0 s') →
  (∀ rc s', rc ≠ 0 → is_now s s' (fat_next s) (disk s) → Q rc s') → wp (fat_zero_cluster c) Q s.
Proof.
  intros I Hc HQ HF. destruct (lba_cluster s c I Hc) as (El & L1 & L2). pose proof (ai_geom _ I) as G. pose proof (fg_spc _ _ G). pose proof (fg_cb _ _ G) as Hcb.
  unfold fat_zero_cluster, on_fa_mem. wp_steps.
  eapply km_kmalloc_law; [apply I|unfold BLOCK_SECTOR_SIZE in Hcb; lia| |].
  { wp_steps. apply HF; [done|]. destruct s. by apply is_now_refl. }
  intros p h Hp Ih _. destruct (Z.eqb_spec p 0); [done|]. wp_steps. rewrite El.
  (* the write does not look at the memory *)
  assert (0 <= ft_data_start (fa_fs s)) by (destruct G as [_ _ (G1 & G2 & G3) -> _ _ _ _ _]; nia).
  unfold on_blk. wp_steps. cbn [fa_fs fa_blk]. apply bl_write_law; [apply I|lia|lia|done|rewrite length_replicate, Z2Nat.id; unfold BLOCK_SECTOR_SIZE in *; lia| |by intros].
  intros b' Bb Sb W. wp_steps. cbn [fa_fs fa_blk fa_mem]. eapply km_kfree_law; [exact Ih|]. intros h' Ih' _. wp_steps. apply HQ; [|done].
  eapply blk_now; [done|done|done| | |exact Ih'].
  - intros i. rewrite W. unfold zeroed. destruct (decide _); [|done]. apply chunk_replicate; [lia|]. rewrite Hcb. unfold BLOCK_SECTOR_SIZE. nia.
  - intros i Hi. unfold zeroed. by rewrite decide_False by lia.
Qed.

(** ** Allocating *)

(** The [j]-th candidate, and the table once [c] is taken and linked behind [prev]. *)
Definition candidate (f : Fat32) (j : Z) : Z := 2 + (ft_next_free f - 2 + j) mod ft_cluster_count f.
Definition linked (prev c : Z) (nx : Z → Z) : Z → Z :=
  let nx := set_entry_of c FAT_EOC nx in if prev =? 0 then nx else set_entry_of prev c nx.

Lemma candidate_cluster s j : fat_inv s → is_cluster (fa_fs s) (candidate (fa_fs s) j).
Proof.
  intros I. destruct (ai_geom _ I) as [_ _ _ _ [G1 _] _ _ _ _]. unfold is_cluster, candidate.
  pose proof (Z.mod_pos_bound (ft_next_free (fa_fs s) - 2 + j) (ft_cluster_count (fa_fs s)) G1). lia.
Qed.
(** Every cluster is a candidate. *)
Lemma candidate_all s c : fat_inv s → is_cluster (fa_fs s) c → ∃ j, 0 <= j < ft_cluster_count (fa_fs s) ∧ candidate (fa_fs s) j = c.
Proof.
  intros I Hc. destruct (ai_geom _ I) as [_ _ _ _ [G1 _] _ _ _ _]. unfold is_cluster in Hc.
  exists ((c - ft_next_free (fa_fs s)) mod ft_cluster_count (fa_fs s)). split; [by apply Z.mod_pos_bound|].
  unfold candidate. rewrite Zplus_mod_idemp_r. replace (ft_next_free (fa_fs s) - 2 + (c - ft_next_free (fa_fs s))) with (c - 2) by lia.
  rewrite Z.mod_small; lia.
Qed.
Lemma candidate_u32 s j : fat_inv s → 0 <= j < ft_cluster_count (fa_fs s) →
  u32 (2 + u32 (u32 (ft_next_free (fa_fs s) - 2) + j) mod ft_cluster_count (fa_fs s)) = candidate (fa_fs s) j.
Proof.
  intros I Hj. pose proof (candidate_cluster s j I) as Hc. destruct (ai_geom _ I) as [_ _ _ _ [G1 _] G2 _ _ G3].
  unfold is_cluster, candidate, FAT_EOC in *. rewrite (u32_small (ft_next_free (fa_fs s) - 2)) by lia. rewrite (u32_small (_ + j)) by lia.
  apply u32_small. lia.
Qed.

Lemma take_cluster_wp c prev s (Q : Z → fatst → Prop) :
  fat_inv s → is_cluster (fa_fs s) c → prev = 0 ∨ is_cluster (fa_fs s) prev →
  (∀ s', is_now s s' (linked prev c (fat_next s)) (disk s) → Q c s') →
  wp (a ← fat_set c FAT_EOC;
      if negb (a =? 0) then mret 0
      else
        b ← (if prev =? 0 then mret 0 else fat_set prev c);
        if negb (b =? 0) then mret 0
        else
          fat_upd (λ f, set_next_free (if u32 (c + 1) <? u32 (ft_cluster_count f + 2) then u32 (c + 1) else 2) f);;
          mret c) Q s.
Proof.
  intros I Hc Hp HQ. pose proof (fg_mask _ _ (ai_geom _ I)) as G2. pose proof Hc as Hcb. unfold is_cluster, FAT_EOC in Hcb, G2.
  wp_steps. apply set_wp; [done|by apply cluster_in_table|]. intros s1 T1 F1. change (Z.land FAT_EOC FAT_MASK) with FAT_EOC in T1.
  pose proof (table_now _ _ _ T1) as N1. pose proof (is_now_inv _ _ _ _ N1) as I1. pose proof N1 as (_ & G1 & D1 & X1). cbn [Z.eqb negb].
  assert (W : wp (if prev =? 0 then mret 0 else fat_set prev c) (λ b s2, b = 0 ∧ is_now s s2 (linked prev c (fat_next s)) (disk s)) s1).
  { unfold linked. destruct (Z.eqb_spec prev 0) as [->|Hne]; [wp_steps; by split|]. destruct Hp as [|Hp]; [done|].
    apply set_wp; [done|apply cluster_in_table; [done|by eapply cluster_geo]|]. intros s2 T2 _. split; [done|].
    rewrite masked_id in T2 by (change FAT_MASK with 0xFFFFFFF; lia). pose proof (table_now _ _ _ T2) as N2.
    eapply is_now_ext; [eapply is_now_trans; [exact N1|exact N2]| |by intros i Hi; apply D1].
    intros x Hx. unfold set_entry_of at 1 2. destruct (x =? prev); [done|]. by apply X1. }
  wp_steps. eapply wp_mono; [exact W|]. cbv beta. intros b s2 [-> N2]. pose proof (is_now_inv _ _ _ _ N2) as I2. pose proof N2 as (_ & E2 & D2 & X2).
  cbn [Z.eqb negb]. wp_steps. apply next_free_wp; [done|by intros []| |].
  - pose proof (geo_eq _ _ E2) as (_ & _ & _ & _ & _ & _ & _ & Ec). cbn [ft_next_free set_next_free]. rewrite !u32_small by (rewrite ?Ec; lia).
    destruct (Z.ltb_spec (c + 1) (ft_cluster_count (fa_fs s2) + 2)); [lia|]. destruct (ai_geom _ I2) as [_ _ _ _ [G _] _ _ _ _]. lia.
  - intros s3 N3 _. wp_steps. apply HQ. eapply is_now_ext; [eapply is_now_trans; [exact N2|exact N3]| |].
    + intros x Hx. by apply X2.
    + intros i Hi. by apply D2.
Qed.

Lemma alloc_loop_wp fuel n prev zero s (Q : Z → fatst → Prop) :
  fat_inv s → 0 <= n → n + Z.of_nat fuel = ft_cluster_count (fa_fs s) → prev = 0 ∨ is_cluster (fa_fs s) prev →
  (∀ s', is_now s s' (fat_next s) (disk s) →
     (zero = false → ∀ j, n <= j < ft_cluster_count (fa_fs s) → fat_next s (candidate (fa_fs s) j) ≠ 0) → Q 0 s') →
  (∀ c s', is_cluster (fa_fs s) c → fat_next s c = 0 →
     is_now s s' (linked prev c (fat_next s)) (if zero then zeroed (fa_fs s) c (disk s) else disk s) → Q c s') →
  wp (fat_alloc_loop fuel n prev zero) Q s.
Proof.
  revert n s Q. induction fuel as [|fuel IH]; intros n s Q I Hn Hf Hp H0 HQ; cbn [fat_alloc_loop]; wp_steps.
  { destruct (Z.leb_spec (ft_cluster_count (fa_fs s)) n); [|lia]. wp_steps. apply H0; [by apply is_now_refl|lia]. }
  destruct (Z.leb_spec (ft_cluster_count (fa_fs s)) n); [lia|]. rewrite candidate_u32 by (done || lia).
  set (c := candidate (fa_fs s) n). pose proof (candidate_cluster s n I) as Hc. fold c in Hc. wp_steps.
  apply get_wp; [done|by apply cluster_in_table|]. intros s1 Q1. pose proof (quiet_now _ _ Q1) as N1. pose proof (is_now_inv _ _ _ _ N1) as I1.
  pose proof N1 as (_ & G1 & D1 & X1). destruct Q1 as [_ F1]. pose proof (geo_eq _ _ G1) as (_ & _ & _ & _ & _ & _ & _ & Ec).
  assert (Hcand : ∀ j, candidate (fa_fs s1) j = candidate (fa_fs s) j) by (intros j; unfold candidate; by rewrite F1, Ec).
  assert (Hp1 : prev = 0 ∨ is_cluster (fa_fs s1) prev) by (destruct Hp; [by left|right; by eapply cluster_geo]).
  assert (Back : ∀ s' nx nx' dt dt', is_now s1 s' nx dt → (∀ x, in_table (fa_fs s) x → nx x = nx' x) →
    (∀ i, ¬ (ft_fat_start (fa_fs s) <= i < ft_data_start (fa_fs s)) → dt i = dt' i) → is_now s s' nx' dt').
  { intros s' nx nx' dt dt' N E1 E2. eapply is_now_ext; [eapply is_now_trans; [exact N1|exact N]|done|done]. }
  assert (Elink : ∀ x, in_table (fa_fs s) x → linked prev c (fat_next s1) x = linked prev c (fat_next s) x).
  { intros x Hx. unfold linked, set_entry_of. destruct (prev =? 0); repeat case_match; try done; by apply X1. }
  destruct (Z.eqb_spec (fat_next s c) 0) as [E|E]; cbn [negb].
  2:{ apply IH; [done|lia|by rewrite Ec; lia|done| |].
      - intros s' N Hfull. apply H0; [eapply Back; [exact N|done|done]|]. intros Hz j Hj.
        destruct (decide (j = n)) as [->|]; [done|]. rewrite <- X1 by (apply cluster_in_table; [done|by apply candidate_cluster]).
        rewrite <- Hcand. apply Hfull; [done|]. rewrite Ec. lia.
      - intros x s' Hx Ex N. assert (Hxs : is_cluster (fa_fs s) x) by (by eapply cluster_geo; [symmetry; exact G1|]).
        apply HQ; [done| |].
        + rewrite <- X1; [done|by apply cluster_in_table].
        + eapply Back; [exact N| |].
          * intros y Hy. unfold linked, set_entry_of. destruct (prev =? 0); repeat case_match; try done; by apply X1.
          * intros i Hi. destruct zero; [|by apply D1]. unfold zeroed. rewrite (lba_geo _ _ x G1). pose proof (geo_eq _ _ G1) as (_ & -> & _).
            destruct (decide _); [done|by apply D1]. }
  destruct zero.
  - wp_steps. apply zero_cluster_wp; [done|by eapply cluster_geo| |].
    + intros s2 N2 F2. cbn [Z.eqb negb]. pose proof (is_now_inv _ _ _ _ N2) as I2. pose proof N2 as (_ & G2 & D2 & X2).
      pose proof (geo_eq _ _ G2) as (_ & _ & _ & _ & Es & _ & _ & Ec2).
      apply take_cluster_wp; [done|eapply cluster_geo; [exact G2|]; by eapply cluster_geo|destruct Hp1; [by left|right; by eapply cluster_geo]|].
      intros s3 N3. apply HQ; [done|done|]. eapply Back; [eapply is_now_trans; [exact N2|exact N3]| |].
      * intros x Hx. rewrite <- Elink by done. unfold linked, set_entry_of.
        assert (fat_next s2 x = fat_next s1 x) by (apply X2; unfold in_table in *; by pose proof (geo_eq _ _ G1) as (_ & _ & _ & _ & -> & _)).
        destruct (prev =? 0); repeat case_match; done.
      * intros i Hi. rewrite D2 by (pose proof (geo_eq _ _ G1) as (_ & _ & _ & -> & _ & _ & -> & _); done).
        unfold zeroed. rewrite (lba_geo _ _ c G1). pose proof (geo_eq _ _ G1) as (_ & -> & _). destruct (decide _); [done|by apply D1].
    + intros rc s2 Hrc N2. destruct (Z.eqb_spec rc 0); [done|]. cbn [negb]. wp_steps. apply H0; [|done].
      eapply Back; [exact N2|done|done].
  - wp_steps. cbn [Z.eqb negb]. apply take_cluster_wp; [done|by eapply cluster_geo|done|].
    intros s3 N3. apply HQ; [done|done|]. eapply Back; [exact N3|exact Elink|done].
Qed.

Lemma alloc_wp prev zero s (Q : Z → fatst → Prop) :
  fat_inv s → prev = 0 ∨ is_cluster (fa_fs s) prev →
  (∀ s', is_now s s' (fat_next s) (disk s) → (zero = false → ∀ c, is_cluster (fa_fs s) c → fat_next s c ≠ 0) → Q 0 s') →
  (∀ c s', is_cluster (fa_fs s) c → fat_next s c = 0 →
     is_now s s' (linked prev c (fat_next s)) (if zero then zeroed (fa_fs s) c (disk s) else disk s) → Q c s') →
  wp (fat_alloc prev zero) Q s.
Proof.
  intros I Hp H0 HQ. unfold fat_alloc. wp_steps. destruct (ai_geom _ I) as [_ _ _ _ [G1 _] _ _ _ _].
  apply alloc_loop_wp; [done|lia|lia|done| |exact HQ].
  intros s' N Hfull. apply H0; [done|]. intros Hz c Hc. destruct (candidate_all s c I Hc) as (j & Hj & <-). apply Hfull; [done|lia].
Qed.
End FatTable.
