(* ===== verification/FatFile.v ===== *)
(** * The bytes of a FAT32 file

    A file is the chain of its clusters.  Looking a cluster up gives the one at its place,
    whatever the hint of the last access; growing a file appends free clusters; reading and
    writing act on the bytes of the clusters one after the other, in however many pieces
    the disk has them. *)
From S2P Require Import Prelude RawMem Pmm Heap VfsTypes Ramfs Block BlockIo Fat FatTable.
Local Open Scope kernel_scope.

Section FatFile.
Context {H : Type} `{KM : KernelMem H} {KL : KernelMemLaws H} {B : Type} `{BA : BlockApi B} {BL : BlockLaws B}.
Context (healthy : ¬ bl_can_fail (B := B)) (runs blocks : list (Z * Z)).
Local Abbreviation fatst := (Fat.fatst (H := H) (B := B)).
Local Abbreviation fnst := (Fat.fnst (H := H) (B := B)).
Local Abbreviation fat_inv := (FatTable.fat_inv runs blocks).
Local Abbreviation is_now := (FatTable.is_now runs blocks).
Implicit Types (s : fatst) (t : fnst).

(** ** The clusters of a file *)

(** [l] are the clusters of the node [n]: none of them is marked free, and the hint, if
    any, tells the truth. *)
Definition hint_ok (n : FatNode) (l : list Z) : Prop :=
  fn_hint_cluster n ≠ 0 → 0 <= fn_hint_index n ∧ l !!z fn_hint_index n = Some (fn_hint_cluster n).
Record clusters_of s (n : FatNode) (l : list Z) : Prop := {
  cl_chain : chain (fa_fs s) (fat_next s) (fn_cluster n) l;
  cl_live : ∀ x, x ∈ l → fat_next s x ≠ 0;
  cl_hint : hint_ok n l
}.
(** Nothing but the hint differs. *)
Definition same_node (n n' : FatNode) : Prop := ∃ i c, n' = set_hint i c n.
Lemma same_node_refl n : same_node n n.
Proof. exists (fn_hint_index n), (fn_hint_cluster n). by destruct n. Qed.
Lemma same_node_trans n1 n2 n3 : same_node n1 n2 → same_node n2 n3 → same_node n1 n3.
Proof. intros (i & c & ->) (i' & c' & ->). by exists i', c'. Qed.

(** [t'] is [t] but for hints and the cache. *)
Definition calm t t' : Prop :=
  is_now (fx_fat t) (fx_fat t') (fat_next (fx_fat t)) (disk (fx_fat t)) ∧ same_node (fx_node t) (fx_node t').

Lemma calm_refl t : fat_inv (fx_fat t) → calm t t.
Proof. intros I. split; [by apply is_now_refl|apply same_node_refl]. Qed.
Lemma calm_trans t1 t2 t3 : calm t1 t2 → calm t2 t3 → calm t1 t3.
Proof.
  intros [N1 S1] [N2 S2]. split; [|by eapply same_node_trans]. eapply is_now_ext; [eapply is_now_trans; [exact N1|exact N2]| |].
  - intros x Hx. by apply N1.
  - intros i Hi. by apply N1.
Qed.

(** Chains seen after a step that leaves the table alone. *)
Lemma chain_now s s' dt c l : fat_inv s → is_now s s' (fat_next s) dt → chain (fa_fs s) (fat_next s) c l → chain (fa_fs s') (fat_next s') c l.
Proof.
  intros I (_ & G & _ & X) Hc. eapply chain_geo; [exact G|]. eapply fat_chain_ext; [|exact Hc]. intros x Hx. symmetry. apply X.
  eapply cluster_in_table; [exact I|by eapply chain_clusters].
Qed.
Lemma clusters_now s s' dt n n' l :
  fat_inv s → is_now s s' (fat_next s) dt → clusters_of s n l → fn_cluster n' = fn_cluster n → hint_ok n' l → clusters_of s' n' l.
Proof.
  intros I N [C L _] E Hh. constructor; [rewrite E; by eapply chain_now| |done]. intros x Hx.
  pose proof N as (_ & _ & _ & X). rewrite X; [by apply L|]. eapply cluster_in_table; [exact I|by eapply chain_clusters].
Qed.

Lemma the_valid s c : fat_inv s → fat_valid (fa_fs s) c = bool_decide (is_cluster (fa_fs s) c).
Proof. by apply valid_cluster. Qed.

(** The chain from its [i]-th cluster on. *)
Lemma chain_drop f nx c l i x : chain f nx c l → l !! i = Some x → chain f nx x (drop i l).
Proof.
  intros Hc Hx. rewrite <- (take_drop_middle l i x Hx) in Hc. apply chain_suffix in Hc. by rewrite (drop_S l x i Hx).
Qed.
(** The entry of the [i]-th cluster is the next one, or ends the chain. *)
Lemma chain_next f nx c l i x : chain f nx c l → l !! i = Some x →
  match l !! S i with Some y => nx x = y | None => ¬ is_cluster f (nx x) end.
Proof.
  intros Hc Hx. pose proof (chain_drop _ _ _ _ _ _ Hc Hx) as Hd. rewrite (drop_S l x i Hx) in Hd. destruct Hd as (_ & _ & Hd).
  destruct (l !! S i) as [y|] eqn:Ey.
  - rewrite (drop_S l y (S i) Ey) in Hd. by destruct Hd.
  - apply lookup_ge_None in Ey. rewrite drop_ge in Hd by lia. exact Hd.
Qed.

(** ** Lemmas: looking up *)
Lemma fat_walk_wp l fuel i index c t (Q : Z → fnst → Prop) :
  fat_inv (fx_fat t) → chain (fa_fs (fx_fat t)) (fat_next (fx_fat t)) c l →
  0 <= i <= index → index - i <= Z.of_nat fuel →
  (∀ c' t', calm t t' → fx_node t' = fx_node t →
     (match l !!z (index - i) with Some x => c' = x | None => ¬ is_cluster (fa_fs (fx_fat t)) c' end) → Q c' t') →
  wp (walk_loop fuel i index c) Q t.
Proof.
  revert l i c t Q. induction fuel as [|fuel IH]; intros l i c t Q I Hc Hi Hf HQ; cbn [walk_loop]; unfold the_fat; wp_steps.
  { assert (i = index) as -> by lia. rewrite Z.ltb_irrefl. cbn [andb]. wp_steps. apply HQ; [by apply calm_refl|done|].
    rewrite Z.sub_diag. destruct l as [|x l]; cbn; [exact Hc|by destruct Hc as [-> _]]. }
  destruct (Z.ltb_spec i index); cbn [andb].
  2:{ assert (i = index) as -> by lia. wp_steps. apply HQ; [by apply calm_refl|done|].
      rewrite Z.sub_diag. destruct l as [|x l]; cbn; [exact Hc|by destruct Hc as [-> _]]. }
  rewrite the_valid by done. case_bool_decide as Hcl.
  2:{ wp_steps. apply HQ; [by apply calm_refl|done|]. destruct l as [|x l]; [|destruct Hc as (-> & ? & _); done]. 
      assert (E : ([] : list Z) !!z (index - i) = None) by (unfold lookupZ; by destruct (_ <? 0)). by rewrite E. }
  destruct l as [|x l]; [done|]. destruct Hc as (-> & Hx & Hc). unfold on_fat. wp_steps.
  apply (get_wp healthy runs blocks); [done|eapply cluster_in_table; [exact I|exact Hx]|]. intros s1 Q1.
  pose proof (quiet_now _ _ _ _ Q1) as N1. pose proof (is_now_inv _ _ _ _ _ _ N1) as I1. pose proof N1 as (_ & G1 & _ & _).
  wp_steps. eapply (IH l); [exact I1|eapply chain_now; [exact I|exact N1|exact Hc]|lia|lia|].
  intros c' t' C1 En Hc'. apply HQ; [|exact En|].
  - eapply calm_trans; [|exact C1]. split; [exact N1|apply same_node_refl].
  - unfold lookupZ in *. destruct (Z.ltb_spec (index - i) 0), (Z.ltb_spec (index - (i + 1)) 0); try lia.
    replace (Z.to_nat (index - i)) with (S (Z.to_nat (index - (i + 1)))) by lia. cbn [lookup list_lookup].
    cbn [fx_fat] in Hc'. destruct (l !! Z.to_nat (index - (i + 1))); [done|]. intros Hcl'. apply Hc'. by eapply cluster_geo.
Qed.

Lemma cluster_at_wp l index t (Q : Z → fnst → Prop) :
  fat_inv (fx_fat t) → clusters_of (fx_fat t) (fx_node t) l → 0 <= index →
  (∀ t', calm t t' → clusters_of (fx_fat t') (fx_node t') l → Q (default 0 (l !!z index)) t') →
  wp (fat_cluster_at index) Q t.
Proof.
  intros I CL Hidx HQ. pose proof CL as [Hc Hlive Hh]. unfold fat_cluster_at. wp_steps.
  set (b := negb (fn_hint_cluster (fx_node t) =? 0) && (fn_hint_index (fx_node t) <=? index)).
  assert (St : ∃ i c, (if b then (fn_hint_cluster (fx_node t), fn_hint_index (fx_node t)) else (fn_cluster (fx_node t), 0)) = (c, i) ∧
    0 <= i <= index ∧ ∃ l', chain (fa_fs (fx_fat t)) (fat_next (fx_fat t)) c l' ∧ l' !!z (index - i) = l !!z index).
  { unfold b. destruct (Z.eqb_spec (fn_hint_cluster (fx_node t)) 0) as [|Hn]; cbn [negb andb].
    - exists 0, (fn_cluster (fx_node t)). split_and!; [done|lia|lia|]. exists l. by rewrite Z.sub_0_r.
    - destruct (Hh Hn) as [H0 Hl]. destruct (Z.leb_spec (fn_hint_index (fx_node t)) index).
      + do 2 eexists. split_and!; [done|lia|lia|]. exists (drop (Z.to_nat (fn_hint_index (fx_node t))) l).
        unfold lookupZ in *. destruct (Z.ltb_spec (fn_hint_index (fx_node t)) 0); [lia|]. split; [by eapply chain_drop|].
        destruct (Z.ltb_spec (index - fn_hint_index (fx_node t)) 0), (Z.ltb_spec index 0); try lia. rewrite lookup_drop. f_equal. lia.
      + exists 0, (fn_cluster (fx_node t)). split_and!; [done|lia|lia|]. exists l. by rewrite Z.sub_0_r. }
  destruct St as (i & c & -> & Hi & l' & Hc' & El). wp_steps. eapply (fat_walk_wp l'); [done|exact Hc'|done|lia|].
  intros c' t' C1 En Hres. pose proof C1 as [N1 S1]. pose proof (is_now_inv _ _ _ _ _ _ N1) as I1. pose proof N1 as (_ & G1 & _ & _).
  unfold the_fat. wp_steps. rewrite the_valid by done. rewrite El in Hres. destruct (l !!z index) as [x|] eqn:Ex; cbn [default].
  - subst c'. assert (Hx : is_cluster (fa_fs (fx_fat t)) x).
    { eapply chain_clusters; [exact Hc|]. unfold lookupZ in Ex. destruct (index <? 0); [done|]. by eapply list_elem_of_lookup_2. }
    rewrite bool_decide_true by (by eapply cluster_geo). cbn [negb]. unfold fn_upd. wp_steps. apply HQ.
    + eapply calm_trans; [exact C1|]. split; [by apply is_now_refl|]. by eexists _, _.
    + cbn [fx_fat fx_node]. eapply clusters_now; [exact I|exact N1|exact CL|by rewrite En|]. intros _. cbn. done.
  - rewrite bool_decide_false by (intros Hcl; apply Hres; by eapply cluster_geo; [symmetry; exact G1|]). cbn [negb]. wp_steps.
    apply HQ; [exact C1|]. rewrite En. eapply clusters_now; [exact I|exact N1|exact CL|done|apply CL].
Qed.

(** ** Growing *)

(** The sectors of cluster [c]. *)
Definition in_cluster (f : Fat32) (c i : Z) : Prop := cluster_lba f c <= i < cluster_lba f c + ft_spc f.
#[local] Instance in_cluster_dec f c i : Decision (in_cluster f c i).
Proof. unfold in_cluster. apply _. Defined.
(** From [s] to [s'] the free clusters [ext] have been put behind [l], zeroed if asked to. *)
Record grown s s' (l ext : list Z) (zero : bool) : Prop := {
  gr_inv : fat_inv s';
  gr_geo : geo (fa_fs s') = geo (fa_fs s);
  gr_fresh : ∀ x, x ∈ ext → is_cluster (fa_fs s) x ∧ fat_next s x = 0;
  gr_table : ∀ c, in_table (fa_fs s) c → c ∉ l → c ∉ ext → fat_next s' c = fat_next s c;
  gr_data : ∀ i, ¬ (ft_fat_start (fa_fs s) <= i < ft_data_start (fa_fs s)) →
    (zero = true → ∀ x, x ∈ ext → ¬ in_cluster (fa_fs s) x i) → disk s' i = disk s i;
  gr_zero : zero = true → ∀ x i, x ∈ ext → in_cluster (fa_fs s) x i → disk s' i = replicate (Z.to_nat BLOCK_SECTOR_SIZE) 0
}.
Lemma grown_calm s s1 s2 l ext zero : is_now s s1 (fat_next s) (disk s) → fat_inv s → grown s1 s2 l ext zero → grown s s2 l ext zero.
Proof.
  intros N1 I [I2 G2 F2 T2 D2 Z2]. pose proof N1 as (I1 & G1 & D1 & X1). pose proof (geo_eq _ _ G1) as (_ & Es & _ & E4 & E5 & _ & E7 & _).
  assert (Hin : ∀ x i, in_cluster (fa_fs s1) x i ↔ in_cluster (fa_fs s) x i) by (intros x i; unfold in_cluster; by rewrite (lba_geo _ _ x G1), Es).
  constructor; [done|congruence| | | |].
  - intros x Hx. destruct (F2 x Hx) as [Hc Hz]. assert (Hc' : is_cluster (fa_fs s) x) by (by eapply cluster_geo; [symmetry; exact G1|]).
    split; [done|]. rewrite <- X1; [done|]. eapply cluster_in_table; [exact I|exact Hc'].
  - intros c Hc Hl He. rewrite T2; [by apply X1| |done|done]. unfold in_table in *. by rewrite E5.
  - intros i Hi Hn. rewrite D2; [by apply D1|by rewrite E4, E7|]. intros Hz x Hx. rewrite Hin. by apply Hn.
  - intros Hz x i Hx Hi. eapply Z2; [done|exact Hx|by apply Hin].
Qed.
Lemma grown_trans s s1 s2 l x ext zero :
  fat_inv s → grown s s1 l [x] zero → grown s1 s2 (l ++ [x]) ext zero → (∀ y, y ∈ l ++ [x] → fat_next s1 y ≠ 0) → grown s s2 l (x :: ext) zero.
Proof.
  intros I [I1 G1 F1 T1 D1 Z1] [I2 G2 F2 T2 D2 Z2] Live. pose proof (geo_eq _ _ G1) as (_ & Es & _ & E4 & E5 & _ & E7 & _).
  assert (Hin : ∀ x i, in_cluster (fa_fs s1) x i ↔ in_cluster (fa_fs s) x i) by (intros y i; unfold in_cluster; by rewrite (lba_geo _ _ y G1), Es).
  assert (Nin : ∀ y, y ∈ ext → y ∉ l ++ [x]) by (intros y Hy Hl; apply (Live y Hl); by apply F2).
  constructor; [done|congruence| | | |].
  - intros y [->|Hy]%elem_of_cons; [by apply F1; apply elem_of_cons; left|]. destruct (F2 y Hy) as [Hc Hz].
    assert (Hc' : is_cluster (fa_fs s) y) by (by eapply cluster_geo; [symmetry; exact G1|]). split; [done|].
    rewrite <- T1; [done|eapply cluster_in_table; [exact I|exact Hc']| |]; intros Hl; apply (Nin y Hy), list.elem_of_app; [by left|by right].
  - intros c Hc Hl [Hx He]%not_elem_of_cons. rewrite T2, T1; [done|done|done| | | |done].
    + intros E%list_elem_of_singleton. done.
    + unfold in_table in *. by rewrite E5.
    + rewrite list.elem_of_app, list_elem_of_singleton. naive_solver.
  - intros i Hi Hn. rewrite D2, D1; [done|done| |by rewrite E4, E7|].
    + intros Hz y ->%list_elem_of_singleton. apply Hn; [done|by apply elem_of_cons; left].
    + intros Hz y Hy. rewrite Hin. apply Hn; [done|by apply elem_of_cons; right].
  - intros Hz y i [->|Hy]%elem_of_cons Hi; [|eapply Z2; [done|exact Hy|by apply Hin]].
    destruct (decide (Exists (λ z, in_cluster (fa_fs s1) z i) ext)) as [(z & Hz1 & Hz2)%list.Exists_exists|Hno].
    + by eapply Z2.
    + assert (Hd : ¬ (ft_fat_start (fa_fs s1) <= i < ft_data_start (fa_fs s1))).
      { rewrite E4, E7. destruct (F1 x) as [Hcx _]; [by apply elem_of_cons; left|].
        pose proof (lba_cluster _ _ s x I Hcx) as (_ & Hlo & _). unfold in_cluster in Hi. lia. }
      rewrite D2; [|done|intros _ z Hz1 Hz2; apply Hno, list.Exists_exists; by exists z]. eapply Z1; [done| |exact Hi]. by apply elem_of_cons; left.
Qed.

(** A cluster taken and linked behind the last of a chain. *)
Lemma chain_snoc f nx c0 l c x :
  chain f nx c0 (l ++ [c]) → is_cluster f x → nx x = 0 → (∀ y, y ∈ l ++ [c] → nx y ≠ 0) → c ≠ 0 → ¬ is_cluster f FAT_EOC →
  chain f (linked c x nx) c0 (l ++ [c; x]) ∧ ∀ y, y ∈ l ++ [c; x] → linked c x nx y ≠ 0.
Proof.
  intros Hc Hx Hz Live Hc0 He. unfold linked. destruct (Z.eqb_spec c 0) as [|_]; [done|].
  assert (Nx : ∀ y, y ∈ l ++ [c] → y ≠ x) by (intros y Hy ->; by apply (Live x Hy)).
  pose proof (chain_nodup _ _ _ _ Hc) as ND. apply list.NoDup_app in ND as (ND1 & ND2 & _).
  assert (Ecx : c ≠ x) by (apply Nx, list.elem_of_app; right; by apply elem_of_cons; left). split.
  - revert c0 Hc Live Nx ND1 ND2. induction l as [|y l IH]; intros c0 Hc Live Nx ND1 ND2; cbn [app chain] in *.
    + destruct Hc as (-> & Hcl & _). unfold set_entry_of. rewrite Z.eqb_refl, (proj2 (Z.eqb_neq x c)) by done. by rewrite Z.eqb_refl.
    + destruct Hc as (-> & Hcl & Hc). split_and!; [done|done|]. apply list.NoDup_cons in ND1 as [_ ND1].
      replace (set_entry_of c x (set_entry_of x FAT_EOC nx) y) with (nx y).
      2:{ unfold set_entry_of. rewrite (proj2 (Z.eqb_neq y c)), (proj2 (Z.eqb_neq y x)); [done|apply Nx; by apply elem_of_cons; left|].
          intros ->. apply (ND2 c); [by apply elem_of_cons; left|by apply elem_of_cons; left]. }
      apply IH; [done|intros z Hz'; apply Live; by apply elem_of_cons; right|intros z Hz'; apply Nx; by apply elem_of_cons; right|done|].
      intros z Hz'. apply ND2. by apply elem_of_cons; right.
  - intros y Hy. unfold set_entry_of. destruct (Z.eqb_spec y c) as [->|Hyc]; [unfold is_cluster in Hx; lia|].
    destruct (Z.eqb_spec y x); [done|]. apply Live. apply list.elem_of_app in Hy as [Hy|Hy]; apply list.elem_of_app; [by left|].
    apply elem_of_cons in Hy as [->|Hy]; [done|]. by apply list_elem_of_singleton in Hy.
Qed.
Lemma eoc_no_cluster s : fat_inv s → ¬ is_cluster (fa_fs s) FAT_EOC.
Proof. intros I. pose proof (fg_mask _ _ (ai_geom _ _ _ I)). unfold is_cluster. lia. Qed.

Lemma grown_one s s' l c x (zero : bool) :
  fat_inv s → is_cluster (fa_fs s) x → fat_next s x = 0 → c = 0 ∨ c ∈ l →
  is_now s s' (linked c x (fat_next s)) (if zero then zeroed (fa_fs s) x (disk s) else disk s) → grown s s' l [x] zero.
Proof.
  intros I Hx Hz Hcl N. pose proof N as (I' & G & D & X). constructor; [done|done| | | |].
  - by intros y ->%list_elem_of_singleton.
  - intros y Hy Hl Hn. rewrite X by done. assert (y ≠ x) by (intros ->; by apply Hn, list_elem_of_singleton).
    unfold linked. destruct (Z.eqb_spec c 0); unfold set_entry_of; rewrite (proj2 (Z.eqb_neq y x)) by done; [done|].
    destruct Hcl as [|Hcl]; [done|]. rewrite (proj2 (Z.eqb_neq y c)); [done|]. by intros ->.
  - intros i Hi Hn. rewrite D by done. destruct zero; [|done]. unfold zeroed. rewrite decide_False; [done|].
    apply (Hn eq_refl x). by apply list_elem_of_singleton.
  - intros -> y i ->%list_elem_of_singleton Hi. unfold in_cluster in Hi. rewrite D.
    + unfold zeroed. by rewrite decide_True.
    + pose proof (lba_cluster _ _ s x I Hx) as (_ & Hlo & _). lia.
Qed.
Lemma grown_nil s s' l zero : is_now s s' (fat_next s) (disk s) → grown s s' l [] zero.
Proof.
  intros (I & G & D & X). constructor; [done|done| | | |]; [by intros x ?%elem_of_nil|intros; by apply X|intros; by apply D|by intros _ x i ?%elem_of_nil].
Qed.

(** [l'] is the chain from [c0] after [s] grew to [s']. *)
Definition live_chain s c0 (l : list Z) : Prop := chain (fa_fs s) (fat_next s) c0 l ∧ ∀ x, x ∈ l → fat_next s x ≠ 0.
Lemma live_chain_now s s' dt c0 l : fat_inv s → is_now s s' (fat_next s) dt → live_chain s c0 l → live_chain s' c0 l.
Proof.
  intros I N [C L]. split; [by eapply chain_now|]. intros x Hx. pose proof N as (_ & _ & _ & X).
  rewrite X; [by apply L|]. eapply cluster_in_table; [exact I|by eapply chain_clusters].
Qed.
Lemma live_chain_link s s' c0 l c x dt :
  fat_inv s → live_chain s c0 (l ++ [c]) → is_cluster (fa_fs s) x → fat_next s x = 0 → is_now s s' (linked c x (fat_next s)) dt →
  live_chain s' c0 (l ++ [c; x]).
Proof.
  intros I [C L] Hx Hz (_ & G & _ & X).
  assert (Hc : is_cluster (fa_fs s) c) by (eapply chain_clusters; [exact C|]; apply list.elem_of_app; right; by apply elem_of_cons; left).
  destruct (chain_snoc (fa_fs s) (fat_next s) c0 l c x C Hx Hz L) as [C' L']; [unfold is_cluster in Hc; lia|by apply eoc_no_cluster|].
  assert (E : ∀ y, y ∈ l ++ [c; x] → fat_next s' y = linked c x (fat_next s) y).
  { intros y Hy. apply X. eapply cluster_in_table; [exact I|]. by eapply chain_clusters. }
  split; [|intros y Hy; rewrite E by done; by apply L'].
  eapply chain_geo; [exact G|]. eapply fat_chain_ext; [|exact C']. intros y Hy. symmetry. by apply E.
Qed.

Lemma last_split {A} (l : list A) i x : l !! i = Some x → l !! S i = None → l = take i l ++ [x].
Proof.
  intros Hx Hn. rewrite <- (take_drop_middle l i x Hx) at 1. apply lookup_ge_None in Hn. by rewrite (drop_ge l (S i)) by lia.
Qed.

(** How growing ends: with the chain long enough, or with no cluster left. *)
Definition full s : Prop := ∀ c, is_cluster (fa_fs s) c → fat_next s c ≠ 0.

Lemma extend_loop_wp c0 fuel i c clusters zero l t (Q : option (Z * Z) → fnst → Prop) :
  fat_inv (fx_fat t) → live_chain (fx_fat t) c0 l → 0 <= i → l !!z i = Some c → i + 1 <= clusters < 2 ^ 32 →
  clusters - 1 - i <= Z.of_nat fuel →
  (∀ ext x t', fx_node t' = fx_node t → grown (fx_fat t) (fx_fat t') l ext zero → live_chain (fx_fat t') c0 (l ++ ext) →
     (l ++ ext) !!z (clusters - 1) = Some x → (clusters <= Z.of_nat (length l) → ext = []) →
     (ext = [] ∨ Z.of_nat (length (l ++ ext)) = clusters) → Q (Some (clusters - 1, x)) t') →
  (∀ ext t', fx_node t' = fx_node t → grown (fx_fat t) (fx_fat t') l ext zero → live_chain (fx_fat t') c0 (l ++ ext) →
     Z.of_nat (length (l ++ ext)) < clusters → (zero = false → full (fx_fat t')) → Q None t') →
  wp (extend_loop fuel i c clusters zero) Q t.
Proof.
  revert i c l t Q. induction fuel as [|fuel IH]; intros i c l t Q I LC Hi Hl Hcl Hf HQ HF; cbn [extend_loop]; rewrite u32_small by lia.
  { destruct (Z.ltb_spec (i + 1) clusters); [lia|]. wp_steps. replace i with (clusters - 1) by lia.
    apply (HQ []); [done|by apply grown_nil, is_now_refl|by rewrite app_nil_r|rewrite app_nil_r, <- Hl; f_equal; lia|done|by left]. }
  destruct (Z.ltb_spec (i + 1) clusters).
  2:{ wp_steps. replace i with (clusters - 1) by lia.
      apply (HQ []); [done|by apply grown_nil, is_now_refl|by rewrite app_nil_r|rewrite app_nil_r, <- Hl; f_equal; lia|done|by left]. }
  assert (Hl' : l !! Z.to_nat i = Some c) by (unfold lookupZ in Hl; destruct (i <? 0); done).
  pose proof LC as [C L]. pose proof (chain_next _ _ _ _ _ _ C Hl') as Hnext.
  assert (Hc : is_cluster (fa_fs (fx_fat t)) c) by (eapply chain_clusters; [exact C|by eapply list_elem_of_lookup_2]).
  unfold the_fat, on_fat. wp_steps. apply (get_wp healthy runs blocks); [done|eapply cluster_in_table; [exact I|exact Hc]|]. intros s1 Q1.
  pose proof (quiet_now _ _ _ _ Q1) as N1. pose proof (is_now_inv _ _ _ _ _ _ N1) as I1. pose proof N1 as (_ & G1 & _ & X1).
  pose proof (live_chain_now _ _ _ _ _ I N1 LC) as LC1. wp_steps.
  rewrite the_valid by done. destruct (l !! S (Z.to_nat i)) as [y|] eqn:Ey.
  - assert (Hy : is_cluster (fa_fs (fx_fat t)) y) by (eapply chain_clusters; [exact C|by eapply list_elem_of_lookup_2]).
    rewrite Hnext, bool_decide_true by done. wp_steps. destruct (Z.eqb_spec y 0); [unfold is_cluster in Hy; lia|].
    apply (IH _ _ l); [exact I1|exact LC1|lia| |lia|lia| |].
    + unfold lookupZ. destruct (Z.ltb_spec (i + 1) 0); [lia|]. rewrite <- Ey. f_equal. lia.
    + intros ext x t' En Gr LC' Hx. apply HQ; [exact En|by eapply grown_calm|exact LC'|exact Hx].
    + intros ext t' En Gr LC' Hlen Hfull. apply (HF ext); [exact En|by eapply grown_calm|exact LC'|exact Hlen|exact Hfull].
  - assert (Elen : length l = S (Z.to_nat i)).
    { apply lookup_ge_None in Ey. apply lookup_lt_Some in Hl'. lia. }
    rewrite bool_decide_false by done. wp_steps. cbn [fx_fat].
    assert (Hc1 : is_cluster (fa_fs s1) c) by (by eapply cluster_geo).
    apply (alloc_wp healthy runs blocks); [exact I1|by right| |].
    + intros s2 N2 Hfull. cbn [Z.eqb]. wp_steps.
      assert (Gr : grown (fx_fat t) s2 l [] zero) by (eapply grown_calm; [exact N1|exact I|by apply grown_nil]).
      apply (HF []); [done|exact Gr|rewrite app_nil_r; by eapply live_chain_now|rewrite app_nil_r; lia|].
      intros Hz x Hx. pose proof N2 as (_ & G2 & _ & X2). assert (Hx1 : is_cluster (fa_fs s1) x) by (by eapply cluster_geo; [symmetry; exact G2|]).
      cbn [fx_fat]. rewrite X2 by (eapply cluster_in_table; [exact I1|exact Hx1]). by apply Hfull.
    + intros x s2 Hx Hz N2. destruct (Z.eqb_spec x 0); [unfold is_cluster in Hx; lia|].
      assert (El : l = take (Z.to_nat i) l ++ [c]) by (by apply last_split).
      assert (Hcin : c ∈ l) by (by eapply list_elem_of_lookup_2).
      pose proof (grown_one _ _ l c x zero I1 Hx Hz (or_intror Hcin) N2) as Gr1.
      pose proof (grown_calm _ _ _ _ _ _ N1 I Gr1) as Gr.
      assert (LC2 : live_chain s2 c0 (l ++ [x])).
      { rewrite El, <- app_assoc. eapply live_chain_link; [exact I1|by rewrite <- El|exact Hx|exact Hz|exact N2]. }
      apply (IH _ _ (l ++ [x])); [apply N2|exact LC2|lia| |lia|lia| |].
      * unfold lookupZ. destruct (Z.ltb_spec (i + 1) 0); [lia|]. rewrite lookup_app_r by lia.
        replace (Z.to_nat (i + 1) - length l)%nat with 0%nat by lia. done.
      * intros ext y t' En Gr2 LC' Hy Hno Hlen. rewrite <- app_assoc in LC', Hy, Hlen. apply (HQ (x :: ext)).
        -- exact En.
        -- eapply grown_trans; [exact I|exact Gr|exact Gr2|apply LC2].
        -- exact LC'.
        -- exact Hy.
        -- lia.
        -- right. destruct Hlen as [->|Hlen]; [|exact Hlen]. rewrite length_app. cbn.
           unfold lookupZ in Hy. destruct (clusters - 1 <? 0); [done|]. apply lookup_lt_Some in Hy. rewrite length_app in Hy. cbn in Hy. lia.
      * intros ext t' En Gr2 LC' Hlen Hfull. rewrite <- app_assoc in LC', Hlen. apply (HF (x :: ext)).
        -- exact En.
        -- eapply grown_trans; [exact I|exact Gr|exact Gr2|apply LC2].
        -- exact LC'.
        -- exact Hlen.
        -- exact Hfull.
Qed.

Lemma lookupZ_app_Some {A} (l l' : list A) i x : l !!z i = Some x → (l ++ l') !!z i = Some x.
Proof. unfold lookupZ. destruct (i <? 0); [done|]. intros E. by apply lookup_app_l_Some. Qed.
Lemma hint_ok_app n l l' : hint_ok n l → hint_ok n (l ++ l').
Proof. intros Hh Hn. destruct (Hh Hn) as [H0 Hl]. split; [done|by apply lookupZ_app_Some]. Qed.

(** The node after growing: its first cluster may be new, the hint moves. *)
Definition same_file (n n' : FatNode) : Prop := ∃ i c c', n' = set_hint i c (set_fn_cluster c' n).
Lemma same_file_refl n : same_file n n.
Proof. exists (fn_hint_index n), (fn_hint_cluster n), (fn_cluster n). by destruct n. Qed.

(** Growing from a cluster on. *)
Lemma extend_rest_wp clusters zero l t (Q : Z → fnst → Prop) :
  fat_inv (fx_fat t) → clusters_of (fx_fat t) (fx_node t) l → l ≠ [] → 0 < clusters < 2 ^ 32 →
  (∀ rc ext t', rc = 0 ∨ rc = -1 → same_node (fx_node t) (fx_node t') → grown (fx_fat t) (fx_fat t') l ext zero →
     clusters_of (fx_fat t') (fx_node t') (l ++ ext) →
     (rc = 0 → clusters <= Z.of_nat (length (l ++ ext)) ∧ (ext = [] ∨ Z.of_nat (length (l ++ ext)) = clusters)) →
     (rc ≠ 0 → Z.of_nat (length (l ++ ext)) < clusters ∧ (zero = false → full (fx_fat t'))) → Q rc t') →
  wp (n ← gets fx_node;
      let '(i, c) := if negb (fn_hint_cluster n =? 0) && (fn_hint_index n <? clusters)
                     then (fn_hint_index n, fn_hint_cluster n) else (0, fn_cluster n) in
      r ← extend_loop (Z.to_nat clusters) i c clusters zero;
      match r with None => mret (-1) | Some (i, c) => fn_upd (set_hint i c);; mret 0 end) Q t.
Proof.
  intros I CL Hne Hcl HQ. pose proof CL as [C L Hh]. wp_steps.
  assert (St : ∃ i c, (if negb (fn_hint_cluster (fx_node t) =? 0) && (fn_hint_index (fx_node t) <? clusters)
      then (fn_hint_index (fx_node t), fn_hint_cluster (fx_node t)) else (0, fn_cluster (fx_node t))) = (i, c) ∧
      0 <= i < clusters ∧ l !!z i = Some c).
  { assert (H0 : l !!z 0 = Some (fn_cluster (fx_node t))) by (destruct l as [|x l']; [done|destruct C as (-> & _)]; done).
    destruct (Z.eqb_spec (fn_hint_cluster (fx_node t)) 0) as [|Hn]; cbn [negb andb]; [do 2 eexists; split_and!; [done|lia|lia|done]|].
    destruct (Hh Hn) as [Hi Hl]. destruct (Z.ltb_spec (fn_hint_index (fx_node t)) clusters); do 2 eexists; split_and!; done || lia. }
  destruct St as (i & c & -> & Hi & Hl). wp_steps.
  eapply (extend_loop_wp (fn_cluster (fx_node t)) _ _ _ _ _ l); [done|by split|lia|exact Hl|lia|lia| |].
  - intros ext x t' En Gr [C' L'] Hx Hno Hlen. unfold fn_upd. wp_steps. apply (HQ 0 ext); [by left| |exact Gr| | |done].
    + rewrite En. by eexists _, _.
    + cbn [fx_fat fx_node]. constructor; [by rewrite En|exact L'|]. intros _. cbn. split; [lia|exact Hx].
    + intros _. split.
      * unfold lookupZ in Hx. destruct (Z.ltb_spec (clusters - 1) 0); [done|]. apply lookup_lt_Some in Hx. lia.
      * exact Hlen.
  - intros ext t' En Gr [C' L'] Hlen Hfull. wp_steps. apply (HQ (-1) ext); [by right| |exact Gr| |done|by intros _].
    + rewrite En. apply same_node_refl.
    + constructor; [by rewrite En|exact L'|]. rewrite En. by apply hint_ok_app.
Qed.

Lemma extend_wp clusters zero l t (Q : Z → fnst → Prop) :
  fat_inv (fx_fat t) → clusters_of (fx_fat t) (fx_node t) l → 0 < clusters < 2 ^ 32 →
  (∀ rc ext t', rc = 0 ∨ rc = -1 → same_file (fx_node t) (fx_node t') → grown (fx_fat t) (fx_fat t') l ext zero →
     clusters_of (fx_fat t') (fx_node t') (l ++ ext) → (l ≠ [] → fn_cluster (fx_node t') = fn_cluster (fx_node t)) →
     (rc = 0 → clusters <= Z.of_nat (length (l ++ ext)) ∧ (ext = [] ∨ Z.of_nat (length (l ++ ext)) = clusters)) →
     (rc ≠ 0 → Z.of_nat (length (l ++ ext)) < clusters ∧ (zero = false → full (fx_fat t'))) → Q rc t') →
  wp (fat_extend clusters zero) Q t.
Proof.
  intros I CL Hcl HQ. pose proof CL as [C L Hh]. unfold fat_extend. destruct (Z.eqb_spec clusters 0); [lia|].
  unfold the_fat. wp_steps. rewrite the_valid by done. destruct l as [|x l].
  - rewrite bool_decide_false by exact C. unfold on_fat. wp_steps. apply (alloc_wp healthy runs blocks); [done|by left| |].
    + intros s1 N1 Hfull. cbn [Z.eqb]. wp_steps. apply (HQ (-1) []); [by right|apply same_file_refl|by apply grown_nil| |done|done|].
      * eapply clusters_now; [exact I|exact N1|exact CL|done|exact Hh].
      * intros _. split; [cbn; lia|]. intros Hz c Hc. pose proof N1 as (_ & G1 & _ & X1). cbn [fx_fat].
        assert (Hc1 : is_cluster (fa_fs (fx_fat t)) c) by (by eapply cluster_geo; [symmetry; exact G1|]).
        rewrite X1 by (eapply cluster_in_table; [exact I|exact Hc1]). by apply Hfull.
    + intros c s1 Hc Hz N1. destruct (Z.eqb_spec c 0); [unfold is_cluster in Hc; lia|]. unfold fn_upd. wp_steps. cbn [negb].
      set (t1 := Fnst (set_hint 0 c (set_fn_cluster c (fx_node t))) s1). pose proof (is_now_inv _ _ _ _ _ _ N1) as I1. pose proof N1 as (_ & G1 & _ & X1).
      assert (Ex : fat_next s1 c = FAT_EOC).
      { rewrite X1 by (eapply cluster_in_table; [exact I|exact Hc]). unfold linked, set_entry_of. cbn [Z.eqb]. by rewrite Z.eqb_refl. }
      assert (CL1 : clusters_of s1 (fx_node t1) [c]).
      { constructor; cbn [fx_node t1 fn_cluster set_hint set_fn_cluster chain].
        - split_and!; [done|by eapply cluster_geo|]. rewrite Ex. by apply eoc_no_cluster.
        - intros y ->%list_elem_of_singleton. by rewrite Ex.
        - intros _. cbn. done. }
      pose proof (grown_one _ _ [] 0 c zero I Hc Hz (or_introl eq_refl) N1) as Gr1.
      apply (extend_rest_wp clusters zero [c] t1); [exact I1|exact CL1|done|done|].
      intros rc ext t' Hrc (i & ci & En) Gr CL' H0 HF. apply (HQ rc (c :: ext)); [exact Hrc| | |exact CL'|done| |exact HF].
      * rewrite En. by eexists _, _, _.
      * eapply grown_trans; [exact I|exact Gr1|exact Gr|apply CL1].
      * intros E. destruct (H0 E) as [Ha Hb]. split; [exact Ha|]. right. destruct Hb as [->|Hb]; [cbn in *; lia|exact Hb].
  - destruct C as (Ec & Hx & C). rewrite Ec, bool_decide_true by done. wp_steps. cbn [negb].
    apply (extend_rest_wp clusters zero (x :: l) t); [exact I|exact CL|done|done|].
    intros rc ext t' Hrc (i & ci & En) Gr CL' H0 HF. apply (HQ rc ext); [exact Hrc| |exact Gr|exact CL'|by rewrite En|exact H0|exact HF].
    rewrite En. exists i, ci, (fn_cluster (fx_node t)). by destruct (fx_node t).
Qed.
End FatFile.
