(* ===== verification/FatIo.v ===== *)
(** * The bytes of a file on the disk

    The data area as an array of bytes, a file as the bytes of its clusters one after the
    other: [fat_io] reads and writes a range of them, however the range lies across
    sectors, clusters and runs of clusters. *)
From S2P Require Import Prelude RawMem Pmm Heap VfsTypes Ramfs Block BlockIo Fat FatTable FatFile.
Local Open Scope kernel_scope.

(** ** Lemmas: words of an array *)
Lemma lookupZ_drop {A} (l : list A) n k : 0 <= k → drop n l !!z k = l !!z (k + Z.of_nat n).
Proof.
  intros Hk. unfold lookupZ. destruct (Z.ltb_spec k 0), (Z.ltb_spec (k + Z.of_nat n) 0); try lia. rewrite lookup_drop. f_equal. lia.
Qed.
(** [g] with the bytes [buf] at [a]. *)
Definition overwrite (g : Z → Z) (a : Z) (buf : list Z) : Z → Z := λ x,
  if decide (a <= x < a + Z.of_nat (length buf)) then default 0 (buf !!z (x - a)) else g x.
Lemma overwrite_split g a buf n x :
  (n <= length buf)%nat → overwrite (overwrite g a (take n buf)) (a + Z.of_nat n) (drop n buf) x = overwrite g a buf x.
Proof.
  intros Hn. unfold overwrite. rewrite length_take, length_drop. repeat case_decide; try lia; [|].
  - rewrite lookupZ_drop by lia. do 2 f_equal. lia.
  - rewrite lookupZ_take by lia. done.
Qed.
Lemma overwrite_nil g a x : overwrite g a [] x = g x.
Proof. unfold overwrite. rewrite decide_False; [done|]. cbn. lia. Qed.

Section FatIo.
Context {H : Type} `{KM : KernelMem H} {KL : KernelMemLaws H} {B : Type} `{BA : BlockApi B} {BL : BlockLaws B}.
Context (healthy : ¬ bl_can_fail (B := B)) (runs blocks : list (Z * Z)).
Local Abbreviation fatst := (Fat.fatst (H := H) (B := B)).
Local Abbreviation fnst := (Fat.fnst (H := H) (B := B)).
Local Abbreviation fat_inv := (FatTable.fat_inv runs blocks).
Local Abbreviation is_now := (FatTable.is_now runs blocks).
Local Abbreviation calm := (FatFile.calm runs blocks).
Implicit Types (s : fatst) (t : fnst).

(** ** Bytes *)

(** Byte [a] of the device; the data area is that of the clusters. *)
Definition dbyte s (a : Z) : Z := default 0 (disk s (a / BLOCK_SECTOR_SIZE) !!z (a mod BLOCK_SECTOR_SIZE)).
Definition data_end (f : Fat32) : Z := ft_data_start f + ft_cluster_count f * ft_spc f.
Definition data_byte (f : Fat32) (a : Z) : Prop := ft_data_start f * BLOCK_SECTOR_SIZE <= a < data_end f * BLOCK_SECTOR_SIZE.
(** [s'] is [s] with the data bytes [g]; the table and what is outside the data are the same. *)
Record bytes_now s s' (g : Z → Z) : Prop := {
  bn_inv : fat_inv s';
  bn_geo : geo (fa_fs s') = geo (fa_fs s);
  bn_table : ∀ c, in_table (fa_fs s) c → fat_next s' c = fat_next s c;
  bn_out : ∀ i, i < ft_fat_start (fa_fs s) ∨ data_end (fa_fs s) <= i → disk s' i = disk s i;
  bn_bytes : ∀ a, data_byte (fa_fs s) a → dbyte s' a = g a
}.
Lemma data_end_geo f f' : geo f' = geo f → data_end f' = data_end f.
Proof. intros (_ & E2 & _ & _ & _ & _ & E7 & E8)%geo_eq. unfold data_end. by rewrite E2, E7, E8. Qed.
Lemma data_byte_geo f f' a : geo f' = geo f → data_byte f' a ↔ data_byte f a.
Proof. intros G. pose proof (geo_eq _ _ G) as (_ & _ & _ & _ & _ & _ & E7 & _). unfold data_byte. by rewrite (data_end_geo _ _ G), E7. Qed.
Lemma bytes_now_trans s1 s2 s3 g g' : bytes_now s1 s2 g → bytes_now s2 s3 g' → bytes_now s1 s3 g'.
Proof.
  intros B1 B2. pose proof (bn_geo _ _ _ B1) as G1. pose proof (geo_eq _ _ G1) as (_ & _ & _ & E4 & E5 & _ & _ & _). constructor.
  - apply B2.
  - rewrite (bn_geo _ _ _ B2). apply B1.
  - intros c Hc. rewrite (bn_table _ _ _ B2); [by apply B1|]. unfold in_table in *. by rewrite E5.
  - intros i Hi. rewrite (bn_out _ _ _ B2); [by apply B1|]. by rewrite E4, (data_end_geo _ _ G1).
  - intros a Ha. apply (bn_bytes _ _ _ B2). by apply (data_byte_geo _ _ _ G1).
Qed.
Lemma bytes_now_ext s s' g g' : (∀ a, data_byte (fa_fs s) a → g a = g' a) → bytes_now s s' g → bytes_now s s' g'.
Proof. intros E []. constructor; try done. intros a Ha. rewrite <- E; auto. Qed.

(** A sector, seen as bytes. *)
Lemma dbyte_sector s i r : 0 <= r < BLOCK_SECTOR_SIZE → dbyte s (i * BLOCK_SECTOR_SIZE + r) = default 0 (disk s i !!z r).
Proof.
  intros Hr. unfold dbyte. rewrite Z.add_comm, Z_div_plus_full, Z_mod_plus_full by done. 
  by rewrite Z.div_small, Z.mod_small, Z.add_0_l by done.
Qed.
Lemma data_sector f a : data_byte f a → ft_data_start f <= a / BLOCK_SECTOR_SIZE < data_end f.
Proof.
  intros [H1 H2]. split; [apply Z.div_le_lower_bound; [done|]; unfold BLOCK_SECTOR_SIZE in *; lia|].
  apply Z.div_lt_upper_bound; [done|]. unfold BLOCK_SECTOR_SIZE in *. lia.
Qed.
Lemma now_bytes s s' : is_now s s' (fat_next s) (disk s) → bytes_now s s' (dbyte s).
Proof.
  intros (I & G & D & X). assert (Hd : ft_data_start (fa_fs s) <= data_end (fa_fs s)).
  { pose proof (geo_eq _ _ G) as (_ & E2 & _ & _ & _ & _ & _ & E8). destruct (ai_geom _ _ _ I) as [G1 _ _ _ [G2 _] _ _ _ _]. unfold data_end. nia. }
  constructor; [done|done|done| |].
  - intros i Hi. apply D. lia.
  - intros a Ha%data_sector. unfold dbyte. rewrite D; [done|]. lia.
Qed.
Lemma data_size s : fat_inv s → 0 <= ft_fat_start (fa_fs s) < ft_data_start (fa_fs s) ∧ ft_data_start (fa_fs s) < data_end (fa_fs s) <= bl_size (fa_blk s) (ft_dev (fa_fs s)).
Proof. intros I. destruct (ai_geom _ _ _ I) as [G1 _ (G2 & G3 & G4) G5 [G6 _] _ G7 _ _]. unfold data_end. split; nia. Qed.
Lemma sector_length s i : fat_inv s → ft_data_start (fa_fs s) <= i < data_end (fa_fs s) → Z.of_nat (length (disk s i)) = BLOCK_SECTOR_SIZE.
Proof. intros I Hi. pose proof (data_size s I). eapply disk_length; [exact I|lia]. Qed.

(** Consecutive sectors, as bytes. *)
Lemma sectors_bytes s lba n :
  fat_inv s → ft_data_start (fa_fs s) <= lba → 0 <= n → lba + n <= data_end (fa_fs s) →
  sectors_of (disk s) lba n = map (dbyte s) (seqZ (lba * BLOCK_SECTOR_SIZE) (n * BLOCK_SECTOR_SIZE)).
Proof.
  intros I Hl Hn. revert lba Hl. rewrite <- (Z2Nat.id n) by done. induction (Z.to_nat n) as [|k IH]; intros lba Hl Hle; [done|].
  replace (Z.of_nat (Datatypes.S k)) with (1 + Z.of_nat k) by lia. rewrite sectors_of_app, sectors_of_one, IH by lia.
  rewrite (Z.mul_add_distr_r 1), seqZ_app, map_app by (unfold BLOCK_SECTOR_SIZE; lia). f_equal.
  2:{ do 2 f_equal. unfold BLOCK_SECTOR_SIZE. lia. }
  pose proof (sector_length s lba I ltac:(lia)) as L. apply list_eq. intros i. rewrite list_lookup_fmap, Z.mul_1_l.
  destruct (decide (Z.of_nat i < BLOCK_SECTOR_SIZE)).
  - rewrite (proj2 (lookup_seqZ _ _ i (lba * BLOCK_SECTOR_SIZE + Z.of_nat i))) by lia. cbn [fmap option_fmap option_map].
    rewrite dbyte_sector by lia. unfold lookupZ. destruct (Z.ltb_spec (Z.of_nat i) 0); [lia|]. rewrite Nat2Z.id.
    destruct (lookup_lt_is_Some_2 (disk s lba) i) as [x Hx]; [lia|]. by rewrite Hx.
  - rewrite lookup_ge_None_2 by lia. rewrite lookup_ge_None_2; [done|]. rewrite length_seqZ. lia.
Qed.
Lemma chunk_lookup k buf r : 0 <= k → 0 <= r < BLOCK_SECTOR_SIZE → chunk k buf !!z r = buf !!z (k * BLOCK_SECTOR_SIZE + r).
Proof.
  intros Hk Hr. unfold chunk. rewrite lookupZ_take by lia. rewrite lookupZ_drop by lia. f_equal. unfold BLOCK_SECTOR_SIZE. lia.
Qed.
Lemma written_now s s' lba n buf :
  fat_inv s → is_now s s' (fat_next s) (λ i, if decide (lba <= i < lba + n) then chunk (i - lba) buf else disk s i) →
  ft_data_start (fa_fs s) <= lba → 0 < n → lba + n <= data_end (fa_fs s) → Z.of_nat (length buf) = n * BLOCK_SECTOR_SIZE →
  bytes_now s s' (overwrite (dbyte s) (lba * BLOCK_SECTOR_SIZE) buf).
Proof.
  intros I0 (I & G & D & X) Hl Hn Hle Hb. pose proof (data_size s I0). constructor; [done|done|done| |].
  - intros i Hi. rewrite D by lia. rewrite decide_False by lia. done.
  - intros a Ha%data_sector. pose proof (Z.div_mod a BLOCK_SECTOR_SIZE ltac:(done)) as Ea. pose proof (Z.mod_pos_bound a BLOCK_SECTOR_SIZE ltac:(done)) as Hr.
    unfold dbyte at 1. rewrite D by lia. unfold overwrite. rewrite Hb. set (q := a / _) in *. set (r := a mod _) in *. unfold BLOCK_SECTOR_SIZE in *.
    destruct (decide (lba <= q < lba + n)).
    + rewrite decide_True by lia. rewrite chunk_lookup by (unfold BLOCK_SECTOR_SIZE; lia). do 2 f_equal. unfold BLOCK_SECTOR_SIZE. lia.
    + rewrite decide_False by lia. done.
Qed.
(** A sector rewritten with some bytes changed. *)
Lemma patched_now s s' lba so bs tmp :
  fat_inv s → ft_data_start (fa_fs s) <= lba < data_end (fa_fs s) → write_range (disk s lba) so bs = Some tmp → 0 <= so →
  so + Z.of_nat (length bs) <= BLOCK_SECTOR_SIZE →
  is_now s s' (fat_next s) (λ i, if decide (lba <= i < lba + 1) then chunk (i - lba) tmp else disk s i) →
  bytes_now s s' (overwrite (dbyte s) (lba * BLOCK_SECTOR_SIZE + so) bs).
Proof.
  intros I Hl W Hso Hb N. pose proof (sector_length s lba I Hl) as L. pose proof (λ k, write_range_lookup _ _ _ _ k W) as K.
  assert (Lt : Z.of_nat (length tmp) = 1 * BLOCK_SECTOR_SIZE) by (destruct (K 0) as [-> _]; lia).
  eapply bytes_now_ext; [|eapply written_now; [exact I|exact N|lia|lia|lia|exact Lt]]. intros a _. unfold overwrite. rewrite Lt.
  destruct (decide (lba * BLOCK_SECTOR_SIZE <= a < _)) as [Ha|Ha].
  2:{ rewrite decide_False by lia. done. }
  rewrite (proj2 (K _)). remember (a - lba * BLOCK_SECTOR_SIZE) as d eqn:Ed. assert (a = lba * BLOCK_SECTOR_SIZE + d) as -> by lia.
  rewrite dbyte_sector by lia. destruct (decide (so <= d < _)); [rewrite decide_True by lia; do 2 f_equal; lia|by rewrite decide_False by lia].
Qed.

(** ** Transfers *)

(** What a transfer gives, and the bytes after it. *)
Definition got (write : bool) (bs : list Z) : list Z := if write then [] else bs.
Definition put (write : bool) (g : Z → Z) (a : Z) (buf : list Z) : Z → Z := if write then overwrite g a buf else g.

Lemma put_join s s1 s2 (write : bool) a k buf :
  (write = true → (k <= length buf)%nat) → 0 <= a → a + Z.of_nat k <= data_end (fa_fs s) * BLOCK_SECTOR_SIZE → ft_data_start (fa_fs s) * BLOCK_SECTOR_SIZE <= a →
  bytes_now s s1 (put write (dbyte s) a (take k buf)) → bytes_now s1 s2 (put write (dbyte s1) (a + Z.of_nat k) (drop k buf)) →
  bytes_now s s2 (put write (dbyte s) a buf).
Proof.
  intros Hk Ha Hle Hlo B1 B2. eapply bytes_now_ext; [|eapply bytes_now_trans; [exact B1|exact B2]]. intros x Hx. destruct write; cbn [put] in *.
  - rewrite <- (overwrite_split _ a buf k) by (by apply Hk). unfold overwrite at 1 3. by rewrite (bn_bytes _ _ _ B1).
  - by apply B1.
Qed.
Lemma got_join s s1 (write : bool) a k len buf g :
  0 <= k <= len → ft_data_start (fa_fs s) * BLOCK_SECTOR_SIZE <= a → a + len <= data_end (fa_fs s) * BLOCK_SECTOR_SIZE →
  bytes_now s s1 (put write (dbyte s) g buf) →
  got write (map (dbyte s) (seqZ a k)) ++ got write (map (dbyte s1) (seqZ (a + k) (len - k))) = got write (map (dbyte s) (seqZ a len)).
Proof.
  intros Hk Ha Hle B1. destruct write; [done|]. cbn [got]. replace len with (k + (len - k)) at 2 by lia.
  rewrite seqZ_app, map_app by lia. f_equal. apply map_ext_in. intros x Hx%list_elem_of_In%elem_of_seqZ. apply B1. split; lia.
Qed.

Lemma data_io_wp fuel lba off buf len (write : bool) acc s (Q : Z * list Z → fatst → Prop) a :
  a = lba * BLOCK_SECTOR_SIZE + off →
  fat_inv s → ft_data_start (fa_fs s) <= lba → 0 <= off → 0 <= len <= Z.of_nat fuel → len < 2 ^ 41 →
  a + len <= data_end (fa_fs s) * BLOCK_SECTOR_SIZE → (write = true → len <= Z.of_nat (length buf)) →
  (∀ s', bytes_now s s' (put write (dbyte s) a (take (Z.to_nat len) buf)) → fa_fs s' = fa_fs s →
     Q (0, acc ++ got write (map (dbyte s) (seqZ a len))) s') →
  wp (data_io_loop fuel lba off buf len write acc) Q s.
Proof.
  revert off buf len acc s Q a. induction fuel as [|fuel IH]; intros off buf len acc s Q a Ea I Hl Hoff Hlen Hmax Hle Hb HQ;
    cbn [data_io_loop]; (destruct (Z.eqb_spec len 0) as [->|Hn];
    [wp_steps; assert (E : got write (map (dbyte s) (seqZ a 0)) = []) by (by destruct write); rewrite E, app_nil_r in HQ; apply HQ; [|done];
     eapply bytes_now_ext; [|by apply now_bytes, is_now_refl]; intros x _; destruct write; [|done];
     by rewrite overwrite_nil|]); [lia|].
  pose proof (data_size s I) as [Hds Hde]. pose proof (bl_size_bound _ (ft_dev (fa_fs s)) (ai_blk _ _ _ I)) as Hsz.
  pose proof (Z.div_mod off BLOCK_SECTOR_SIZE ltac:(done)) as Eo. pose proof (Z.mod_pos_bound off BLOCK_SECTOR_SIZE ltac:(done)) as Hr.
  assert (Hq : 0 <= off / BLOCK_SECTOR_SIZE) by (by apply Z.div_pos).
  set (q := off / _) in *. set (r := off mod _) in *.
  assert (Hs : lba + q < data_end (fa_fs s)) by (unfold BLOCK_SECTOR_SIZE in *; lia).
  (* after the turn: [k] bytes are done *)
  assert (Next : ∀ k buf' out s1, 0 < k <= len → (write = true → buf' = drop (Z.to_nat k) buf) → fa_fs s1 = fa_fs s →
    bytes_now s s1 (put write (dbyte s) a (take (Z.to_nat k) buf)) → out = got write (map (dbyte s) (seqZ a k)) →
    wp (data_io_loop fuel lba (off + k) buf' (len - k) write (acc ++ out)) Q s1).
  { intros k buf' out s1 Hk Hb' F1 B1 ->. eapply (IH _ _ _ _ _ _ (a + k)); rewrite ?F1; [lia|apply B1|done|lia|lia|lia|lia| |].
    - intros Hw. rewrite (Hb' Hw), length_drop. specialize (Hb Hw). lia.
    - intros s2 B2 F2. rewrite <- app_assoc. erewrite got_join; [|lia|unfold BLOCK_SECTOR_SIZE in *; lia|exact Hle|exact B1].
      apply HQ; [|congruence]. apply (put_join s s1 s2 write a (Z.to_nat k)); [|unfold BLOCK_SECTOR_SIZE in *; lia|lia|unfold BLOCK_SECTOR_SIZE in *; lia| |].
      + intros Hw. specialize (Hb Hw). rewrite length_take. lia.
      + by rewrite take_take, Nat.min_l by lia.
      + rewrite Z2Nat.id by lia. destruct write; [|exact B2]. rewrite (Hb' eq_refl), take_drop_commute in B2.
        by replace (Z.to_nat k + Z.to_nat (len - k))%nat with (Z.to_nat len) in B2 by lia. }
  clear IH HQ. wp_steps. replace (u64 (lba + q)) with (lba + q) by (unfold u64; rewrite Z.mod_small; lia).
  destruct ((r =? 0) && (BLOCK_SECTOR_SIZE <=? len)) eqn:Eb.
  - (* whole sectors *)
    apply andb_prop in Eb as [Er%Z.eqb_eq El%Z.leb_le].
    pose proof (Z.div_mod len BLOCK_SECTOR_SIZE ltac:(done)) as En. pose proof (Z.mod_pos_bound len BLOCK_SECTOR_SIZE ltac:(done)).
    replace (u32 (len / BLOCK_SECTOR_SIZE)) with (len / BLOCK_SECTOR_SIZE) by (symmetry; apply u32_small; unfold BLOCK_SECTOR_SIZE in *; lia).
    set (n := len / _) in *. assert (Hn0 : 0 < n) by (unfold BLOCK_SECTOR_SIZE in *; lia).
    assert (Ha : a = (lba + q) * BLOCK_SECTOR_SIZE) by (unfold BLOCK_SECTOR_SIZE in *; lia).
    assert (Hfit : lba + q + n <= data_end (fa_fs s)) by (unfold BLOCK_SECTOR_SIZE in *; lia).
    assert (Hk : 0 < n * BLOCK_SECTOR_SIZE <= len) by (unfold BLOCK_SECTOR_SIZE in *; lia).
    destruct write; wp_steps.
    + specialize (Hb eq_refl). assert (Lt : Z.of_nat (length (take (Z.to_nat (n * BLOCK_SECTOR_SIZE)) buf)) = n * BLOCK_SECTOR_SIZE) by (rewrite length_take; lia).
      apply (data_write_wp healthy runs blocks); [done|done|lia|lia|done|]. intros s1 N1 F1. wp_steps. cbn [fst snd Z.eqb negb].
      apply (Next _ _ _ s1); [done|done|done| |done]. rewrite Ha. by eapply written_now; [exact I|exact N1|lia..].
    + apply (data_read_wp healthy runs blocks); [done|done|lia|lia|]. intros s1 N1 F1. wp_steps. cbn [fst snd Z.eqb negb].
      rewrite sectors_bytes by (done || lia). rewrite <- Ha. apply (Next _ _ _ s1); [done|done|done| |done]. by apply now_bytes.
  - (* part of a sector *)
    set (n := Z.min (BLOCK_SECTOR_SIZE - r) len). assert (Hn0 : 0 < n <= len ∧ r + n <= BLOCK_SECTOR_SIZE) by lia.
    assert (Ha : a = (lba + q) * BLOCK_SECTOR_SIZE + r) by (unfold BLOCK_SECTOR_SIZE in *; lia).
    wp_steps. apply (data_read_wp healthy runs blocks); [done|done|lia|lia|]. intros s1 N1 F1. wp_steps. cbn [fst snd Z.eqb negb].
    rewrite sectors_of_one. pose proof (sector_length s (lba + q) I ltac:(lia)) as L.
    pose proof (now_bytes _ _ N1) as B1. destruct write.
    + specialize (Hb eq_refl). assert (Lt : Z.of_nat (length (take (Z.to_nat n) buf)) = n) by (rewrite length_take; lia).
      destruct (write_range (disk s (lba + q)) r (take (Z.to_nat n) buf)) as [tmp|] eqn:W.
      2:{ exfalso. unfold write_range in W. rewrite Lt in W. destruct (Z.leb_spec 0 r), (Z.leb_spec (r + n) (Z.of_nat (length (disk s (lba + q))))); try done; lia. }
      wp_steps. eapply wp_lift; [reflexivity|]. wp_steps.
      assert (Ltmp : Z.of_nat (length tmp) = 1 * BLOCK_SECTOR_SIZE) by (destruct (write_range_lookup _ _ _ _ 0 W) as [-> _]; lia).
      rewrite <- F1. pose proof (bn_inv _ _ _ B1) as I1. pose proof (data_size s1 I1) as [_ [_ Hde1]]. rewrite !F1 in Hde1.
      apply (data_write_wp healthy runs blocks); rewrite ?F1; [exact I1|done|lia|lia|done|]. intros s2 N2 F2. wp_steps. cbn [Z.eqb negb].
      rewrite <- (app_nil_r acc). apply (Next _ _ _ s2); [lia|done|congruence| |done]. rewrite Ha. cbn [put].
      assert (Ed : disk s1 (lba + q) = disk s (lba + q)) by (apply N1; lia).
      assert (B2 : bytes_now s1 s2 (overwrite (dbyte s1) ((lba + q) * BLOCK_SECTOR_SIZE + r) (take (Z.to_nat n) buf))).
      { apply (patched_now s1 s2 (lba + q) r _ tmp); [exact I1|rewrite F1; lia|by rewrite Ed|lia|lia|exact N2]. }
      eapply bytes_now_ext; [|eapply bytes_now_trans; [exact B1|exact B2]].
      intros x Hx. unfold overwrite. by rewrite (bn_bytes _ _ _ B1).
    + destruct (read_range_Some (disk s (lba + q)) r n) as [out W]; [lia|lia|]. wp_steps.
      eapply wp_lift; [exact W|]. wp_steps. apply (Next _ _ _ s1); [lia|done|done|exact B1|]. cbn [got].
      rewrite (read_range_map _ _ _ _ W) by lia. apply map_seqZ_shift. rewrite Ha. intros i Hi.
      rewrite <- Z.add_assoc, dbyte_sector by lia. done.
Qed.

(** ** Files *)

(** Where byte [j] of a file with the clusters [l] is, and what it is. *)
Definition addr (f : Fat32) (l : list Z) (j : Z) : Z :=
  cluster_lba f (default 0 (l !!z (j / ft_cluster_bytes f))) * BLOCK_SECTOR_SIZE + j mod ft_cluster_bytes f.
Definition fbyte s (l : list Z) (j : Z) : Z := dbyte s (addr (fa_fs s) l j).
(** The room in the clusters. *)
Definition room (f : Fat32) (l : list Z) : Z := Z.of_nat (length l) * ft_cluster_bytes f.

Lemma addr_geo f f' l j : geo f' = geo f → addr f' l j = addr f l j.
Proof. intros G. unfold addr. rewrite (lba_geo _ _ _ G). by pose proof (geo_eq _ _ G) as (_ & _ & -> & _). Qed.
Lemma room_geo f f' l : geo f' = geo f → room f' l = room f l.
Proof. intros (_ & _ & E & _)%geo_eq. unfold room. by rewrite E. Qed.
Lemma cluster_bytes_pos s : fat_inv s → ft_cluster_bytes (fa_fs s) = ft_spc (fa_fs s) * BLOCK_SECTOR_SIZE ∧ BLOCK_SECTOR_SIZE <= ft_cluster_bytes (fa_fs s) < 2 ^ 20.
Proof. intros I. destruct (ai_geom _ _ _ I) as [G1 -> _ _ _ _ _ _ _]. unfold BLOCK_SECTOR_SIZE. lia. Qed.

(** A byte within the room, as a cluster and a place in it. *)
Lemma room_split f l j :
  0 < ft_cluster_bytes f → 0 <= j < room f l →
  ∃ x q r, j = q * ft_cluster_bytes f + r ∧ 0 <= q ∧ 0 <= r < ft_cluster_bytes f ∧ l !!z q = Some x ∧
    addr f l j = cluster_lba f x * BLOCK_SECTOR_SIZE + r.
Proof.
  intros Hcb Hj. unfold room in Hj. pose proof (Z.div_mod j (ft_cluster_bytes f) ltac:(lia)) as E. pose proof (Z.mod_pos_bound j (ft_cluster_bytes f) Hcb) as Hr.
  assert (Hq : 0 <= j / ft_cluster_bytes f < Z.of_nat (length l)) by (split; [apply Z.div_pos; lia|apply Z.div_lt_upper_bound; lia]).
  destruct (lookupZ_lt_is_Some l _ Hq) as [x Hx]. exists x, (j / ft_cluster_bytes f), (j mod ft_cluster_bytes f).
  split_and!; try lia; [done|]. unfold addr. by rewrite Hx.
Qed.
Lemma addr_data s l j : fat_inv s → (∀ x, x ∈ l → is_cluster (fa_fs s) x) → 0 <= j < room (fa_fs s) l → data_byte (fa_fs s) (addr (fa_fs s) l j).
Proof.
  intros I Hl Hj. destruct (cluster_bytes_pos s I) as [Ec Hcb]. destruct (room_split (fa_fs s) l j ltac:(unfold BLOCK_SECTOR_SIZE in *; lia) Hj) as (x & q & r & _ & Hq & Hr & Hx & ->).
  assert (Hxc : is_cluster (fa_fs s) x) by (apply Hl; unfold lookupZ in Hx; destruct (q <? 0); [done|by eapply list_elem_of_lookup_2]).
  pose proof (fg_spc _ _ (ai_geom _ _ _ I)). unfold is_cluster in Hxc. unfold data_byte, data_end, cluster_lba, BLOCK_SECTOR_SIZE in *. split; nia.
Qed.
Lemma addr_inj s l j j' :
  fat_inv s → NoDup l → (∀ x, x ∈ l → is_cluster (fa_fs s) x) → 0 <= j < room (fa_fs s) l → 0 <= j' < room (fa_fs s) l →
  addr (fa_fs s) l j = addr (fa_fs s) l j' → j = j'.
Proof.
  intros I ND Hl Hj Hj'. destruct (cluster_bytes_pos s I) as [Ec Hcb]. assert (H0 : 0 < ft_cluster_bytes (fa_fs s)) by (unfold BLOCK_SECTOR_SIZE in *; lia).
  destruct (room_split (fa_fs s) l j H0 Hj) as (x & q & r & -> & Hq & Hr & Hx & ->).
  destruct (room_split (fa_fs s) l j' H0 Hj') as (x' & q' & r' & -> & Hq' & Hr' & Hx' & ->).
  pose proof (fg_spc _ _ (ai_geom _ _ _ I)). unfold cluster_lba. rewrite Ec in *. intros E.
  assert (x = x') as <- by (unfold BLOCK_SECTOR_SIZE in *; nia). assert (r = r') as <- by (unfold BLOCK_SECTOR_SIZE in *; lia).
  unfold lookupZ in Hx, Hx'. destruct (Z.ltb_spec q 0), (Z.ltb_spec q' 0); try lia.
  assert (Z.to_nat q = Z.to_nat q') by (eapply NoDup_lookup; done). f_equal. f_equal. lia.
Qed.
(** Clusters that follow each other on the disk. *)
Definition consecutive (l : list Z) (i c k : Z) : Prop := ∀ e, 0 <= e <= k → l !!z (i + e) = Some (c + e).
Lemma addr_run f l i c k w d :
  consecutive l i c k → 0 < ft_cluster_bytes f → ft_cluster_bytes f = ft_spc f * BLOCK_SECTOR_SIZE →
  0 <= w → 0 <= d → w + d < (k + 1) * ft_cluster_bytes f →
  addr f l (i * ft_cluster_bytes f + w + d) = cluster_lba f c * BLOCK_SECTOR_SIZE + w + d.
Proof.
  intros Hc Hcb Ecb Hw Hd Hlt. unfold addr. replace (i * ft_cluster_bytes f + w + d) with (w + d + i * ft_cluster_bytes f) by lia.
  rewrite Z_div_plus_full, Z_mod_plus_full by lia. pose proof (Z.div_mod (w + d) (ft_cluster_bytes f) ltac:(lia)) as E.
  assert (Hq : 0 <= (w + d) / ft_cluster_bytes f < k + 1) by (split; [apply Z.div_pos; lia|apply Z.div_lt_upper_bound; lia]).
  rewrite (Z.add_comm _ i), (Hc ((w + d) / ft_cluster_bytes f)) by lia. cbn [default]. unfold cluster_lba. rewrite Ecb in E at 1. unfold id. nia.
Qed.

(** From [s] to [s'] the bytes [bs] have been stored at [off] of the file, and nothing else has changed. *)
Record file_now s s' (l : list Z) (off : Z) (bs : list Z) : Prop := {
  fi_now : bytes_now s s' (dbyte s');
  fi_in : ∀ j, off <= j < off + Z.of_nat (length bs) → fbyte s' l j = default 0 (bs !!z (j - off));
  fi_out : ∀ a, data_byte (fa_fs s) a → (∀ j, off <= j < off + Z.of_nat (length bs) → a ≠ addr (fa_fs s) l j) → dbyte s' a = dbyte s a
}.
Lemma bytes_self s s' g : bytes_now s s' g → bytes_now s s' (dbyte s').
Proof. intros []. by constructor. Qed.
Lemma file_now_same s s' l off : bytes_now s s' (dbyte s) → file_now s s' l off [].
Proof. intros B1. constructor; [by eapply bytes_self|cbn; lia|]. intros a Ha _. by apply B1. Qed.
Lemma file_now_nil s s' l l' off off' : file_now s s' l off [] → file_now s s' l' off' [].
Proof. intros [B1 _ O]. constructor; [done|cbn; lia|]. intros a Ha _. apply O; [done|cbn; lia]. Qed.
Lemma file_now_calm s s' l off : is_now s s' (fat_next s) (disk s) → file_now s s' l off [].
Proof. intros N. by apply file_now_same, now_bytes. Qed.
Lemma file_now_calm_l s s1 s2 l off bs : is_now s s1 (fat_next s) (disk s) → file_now s1 s2 l off bs → file_now s s2 l off bs.
Proof.
  intros N F. pose proof (now_bytes _ _ N) as B1. pose proof (bn_geo _ _ _ B1) as G1. constructor.
  - eapply bytes_now_trans; [exact B1|apply F].
  - apply F.
  - intros a Ha Hn. rewrite (fi_out _ _ _ _ _ F); [by apply B1|by apply (data_byte_geo _ _ _ G1)|]. intros j Hj. rewrite (addr_geo _ _ _ _ G1). by apply Hn.
Qed.
Lemma file_now_app s s1 s2 l off bs1 bs2 :
  fat_inv s → NoDup l → (∀ x, x ∈ l → is_cluster (fa_fs s) x) → 0 <= off → off + Z.of_nat (length (bs1 ++ bs2)) <= room (fa_fs s) l →
  file_now s s1 l off bs1 → file_now s1 s2 l (off + Z.of_nat (length bs1)) bs2 → file_now s s2 l off (bs1 ++ bs2).
Proof.
  intros I ND Hl Hoff Hle F1 F2. pose proof (bn_geo _ _ _ (fi_now _ _ _ _ _ F1)) as G1. pose proof (bn_geo _ _ _ (fi_now _ _ _ _ _ F2)) as G2.
  rewrite length_app in Hle. constructor.
  - eapply bytes_now_trans; [apply F1|apply F2].
  - intros j Hj. rewrite length_app in Hj. destruct (decide (j < off + Z.of_nat (length bs1))).
    + rewrite lookupZ_app_l by lia. rewrite <- (fi_in _ _ _ _ _ F1) by lia. unfold fbyte. rewrite (addr_geo _ _ _ _ G2).
      apply (fi_out _ _ _ _ _ F2).
      * apply (data_byte_geo _ _ _ G1). rewrite (addr_geo _ _ _ _ G1). apply addr_data; [done|done|lia].
      * intros j' Hj' E. rewrite !(addr_geo _ _ _ _ G1) in E. apply addr_inj in E; [lia|done|done|done|lia|lia].
    + rewrite lookupZ_app_r by lia. rewrite (fi_in _ _ _ _ _ F2) by lia. do 2 f_equal. lia.
  - intros a Ha Hn. rewrite length_app in Hn. rewrite (fi_out _ _ _ _ _ F2).
    + apply F1; [done|]. intros j Hj. apply Hn. lia.
    + by apply (data_byte_geo _ _ _ G1).
    + intros j Hj. rewrite (addr_geo _ _ _ _ G1). apply Hn. lia.
Qed.
Lemma file_now_fbyte s s' l off j : fat_inv s → (∀ x, x ∈ l → is_cluster (fa_fs s) x) → 0 <= j < room (fa_fs s) l → file_now s s' l off [] → fbyte s' l j = fbyte s l j.
Proof.
  intros I Hl Hj F. unfold fbyte. rewrite (addr_geo _ _ _ _ (bn_geo _ _ _ (fi_now _ _ _ _ _ F))). apply F; [by apply addr_data|cbn; lia].
Qed.
(** A range of the disk that is a range of the file. *)
Lemma run_file s s' l off a bs :
  bytes_now s s' (overwrite (dbyte s) a bs) → (∀ d, 0 <= d < Z.of_nat (length bs) → addr (fa_fs s) l (off + d) = a + d ∧ data_byte (fa_fs s) (a + d)) →
  file_now s s' l off bs.
Proof.
  intros B1 E. pose proof (bn_geo _ _ _ B1) as G1. constructor.
  - by eapply bytes_self.
  - intros j Hj. unfold fbyte. rewrite (addr_geo _ _ _ _ G1). replace j with (off + (j - off)) at 1 by lia. destruct (E (j - off)) as [-> Hd]; [lia|].
    rewrite (bn_bytes _ _ _ B1) by done. unfold overwrite. rewrite decide_True by lia. do 2 f_equal. lia.
  - intros x Hx Hn. rewrite (bn_bytes _ _ _ B1) by done. unfold overwrite. rewrite decide_False; [done|]. intros Hin.
    apply (Hn (off + (x - a))); [lia|]. destruct (E (x - a)) as [-> _]; lia.
Qed.
Lemma run_fbytes s l off a n : (∀ d, 0 <= d < n → addr (fa_fs s) l (off + d) = a + d) → map (dbyte s) (seqZ a n) = map (fbyte s l) (seqZ off n).
Proof. intros E. apply map_seqZ_shift. intros d Hd. unfold fbyte. by rewrite E. Qed.

(** ** Runs of clusters *)
Lemma run_loop_wp c0 l i c k fuel run want t (Q : Z * Z * Z → fnst → Prop) :
  fat_inv (fx_fat t) → chain (fa_fs (fx_fat t)) (fat_next (fx_fat t)) c0 l → consecutive l i c k → 0 <= i → 0 <= k →
  want - run <= Z.of_nat fuel →
  (∀ k' t', k <= k' → consecutive l i c k' → calm t t' → fx_node t' = fx_node t →
     Q (run + (k' - k) * ft_cluster_bytes (fa_fs (fx_fat t)), c + k', i + k') t') →
  wp (run_loop fuel run (c + k) (i + k) (ft_cluster_bytes (fa_fs (fx_fat t))) want) Q t.
Proof.
  revert k run t Q. induction fuel as [|fuel IH]; intros k run t Q I Hc Hk Hi H0 Hf HQ; cbn [run_loop]; (destruct (Z.ltb_spec run want);
    [|wp_steps; replace run with (run + (k - k) * ft_cluster_bytes (fa_fs (fx_fat t))) by lia; apply HQ; [done|done|by apply calm_refl|done]]); [lia|].
  pose proof (Hk k ltac:(lia)) as Hlast. assert (Hlt := lookupZ_Some_lt _ _ _ Hlast). assert (Hl' : l !! Z.to_nat (i + k) = Some (c + k)) by (unfold lookupZ in Hlast; destruct (i + k <? 0); done).
  assert (Hcl : is_cluster (fa_fs (fx_fat t)) (c + k)) by (eapply chain_clusters; [exact Hc|by eapply list_elem_of_lookup_2]).
  pose proof (fg_mask _ _ (ai_geom _ _ _ I)) as Hmask. unfold FAT_EOC in Hmask. pose proof Hcl as Hcb. unfold is_cluster in Hcb.
  pose proof (fat_chain_length _ _ _ _ _ _ I Hc) as Hlen. unfold the_fat, on_fat. wp_steps.
  apply (get_wp healthy runs blocks); [done|eapply cluster_in_table; [exact I|exact Hcl]|]. intros s1 Q1.
  pose proof (quiet_now _ _ _ _ Q1) as N1. pose proof (is_now_inv _ _ _ _ _ _ N1) as I1. pose proof N1 as (_ & G1 & _ & _).
  assert (C1 : calm t (Fnst (fx_node t) s1)) by (split; [exact N1|apply same_node_refl]). wp_steps.
  rewrite u32_small by lia. rewrite (the_valid runs blocks) by done.
  destruct (Z.eqb_spec (fat_next (fx_fat t) (c + k)) (c + k + 1)) as [En|En]; cbn [negb orb].
  2:{ wp_steps. replace run with (run + (k - k) * ft_cluster_bytes (fa_fs (fx_fat t))) by lia. by apply HQ. }
  case_bool_decide as Hnc; cbn [negb].
  2:{ wp_steps. replace run with (run + (k - k) * ft_cluster_bytes (fa_fs (fx_fat t))) by lia. by apply HQ. }
  pose proof (chain_next _ _ _ _ _ _ Hc Hl') as Hnext. rewrite En in Hnext, Hnc.
  assert (Hk1 : consecutive l i c (k + 1)).
  { intros e He. destruct (decide (e = k + 1)) as [->|]; [|apply Hk; lia]. destruct (l !! S (Z.to_nat (i + k))) as [y|] eqn:Ey; [|done].
    subst y. unfold lookupZ. destruct (Z.ltb_spec (i + (k + 1)) 0); [lia|]. replace (Z.to_nat (i + (k + 1))) with (S (Z.to_nat (i + k))) by lia. rewrite Ey. f_equal. lia. }
  wp_steps. rewrite u32_small by (unfold FAT_EOC in *; lia). pose proof (geo_eq _ _ G1) as (_ & _ & Ecb & _). rewrite En, <- Ecb, <- !Z.add_assoc.
  pose proof (cluster_bytes_pos _ I1) as [_ Hcb1]. unfold BLOCK_SECTOR_SIZE in Hcb1.
  apply (IH (k + 1) _ (Fnst (fx_node t) s1)); [exact I1|eapply chain_now; [exact I|exact N1|exact Hc]|done|done|lia|cbn [fx_fat]; lia|].
  intros k' t' Hk' Hcons C2 En2. cbn [fx_fat] in *. replace (run + _ + _) with (run + (k' - k) * ft_cluster_bytes (fa_fs (fx_fat t))) by (rewrite Ecb; lia).
  apply HQ; [lia|done|by eapply calm_trans|exact En2].
Qed.

(** ** Reading and writing *)
Lemma same_fat_room s s' l : geo (fa_fs s') = geo (fa_fs s) → room (fa_fs s') l = room (fa_fs s) l.
Proof. apply room_geo. Qed.
Lemma clusters_file s s' n n' l off bs :
  fat_inv s → file_now s s' l off bs → clusters_of s n l → fn_cluster n' = fn_cluster n → hint_ok n' l → clusters_of s' n' l.
Proof.
  intros I F. apply (clusters_now runs blocks s s' (disk s') n n' l I). pose proof (fi_now _ _ _ _ _ F) as B1. split_and!; try done; apply B1.
Qed.
Lemma same_node_cluster n n' : same_node n n' → fn_cluster n' = fn_cluster n.
Proof. by intros (i & c & ->). Qed.

(** One turn: a run of clusters is found and transferred. *)
Lemma turn_wp l off buf len (write : bool) pos c acc fuel t (Q : Z * list Z → fnst → Prop) (K : Z → list Z → M fnst (Z * list Z)) :
  let f := fa_fs (fx_fat t) in let cb := ft_cluster_bytes f in let i := (off + pos) / cb in let w := (off + pos) mod cb in
  fat_inv (fx_fat t) → clusters_of (fx_fat t) (fx_node t) l → 0 <= off → off + len < 2 ^ 41 → 0 <= pos < len → len - pos <= Z.of_nat fuel →
  (write = true → Z.of_nat (length buf) = len) → l !!z i = Some c →
  (∀ run t', 0 < run <= len - pos → off + pos + run <= room f l → same_node (fx_node t) (fx_node t') → clusters_of (fx_fat t') (fx_node t') l →
     file_now (fx_fat t) (fx_fat t') l (off + pos) (if write then take (Z.to_nat run) (drop (Z.to_nat pos) buf) else []) →
     wp (K (pos + run) (acc ++ got write (map (fbyte (fx_fat t) l) (seqZ (off + pos) run)))) Q t') →
  wp (r ← run_loop fuel (cb - w) c i cb (len - pos);
      let '(run, last, last_index) := r in
      let run := Z.min run (len - pos) in
      fn_upd (set_hint last_index last);;
      x ← on_fat (fat_data_io (fat_lba f c) w (drop (Z.to_nat pos) buf) run write);
      if negb (x.1 =? 0) then mret (if pos =? 0 then -1 else pos, acc)
      else K (pos + run) (acc ++ x.2)) Q t.
Proof.
  intros f cb i w I CL Hoff Hmax Hd Hf Hb Hc HQ. pose proof (cluster_bytes_pos _ I) as [Ecb Hcb]. fold f cb in Ecb, Hcb.
  assert (Hcb0 : 0 < cb) by (unfold BLOCK_SECTOR_SIZE in *; lia).
  pose proof (Z.div_mod (off + pos) cb ltac:(lia)) as Eod. pose proof (Z.mod_pos_bound (off + pos) cb Hcb0) as Hw. fold i in Eod. fold w in Eod, Hw.
  assert (Hi : 0 <= i) by (apply Z.div_pos; lia).
  assert (Hcl : is_cluster f c) by (eapply chain_clusters; [apply CL|unfold lookupZ in Hc; destruct (i <? 0); [done|by eapply list_elem_of_lookup_2]]).
  wp_steps. pose proof (run_loop_wp (fn_cluster (fx_node t)) l i c 0 fuel (cb - w) (len - pos) t) as L. rewrite !Z.add_0_r in L.
  apply L; [done|apply CL|intros e He; replace e with 0 by lia; by rewrite !Z.add_0_r|done|done|lia|]. clear L.
  intros k t1 Hk Hcons [N1 S1] En. pose proof (is_now_inv _ _ _ _ _ _ N1) as I1. pose proof N1 as (_ & G1 & _ & _).
  fold f cb. rewrite Z.sub_0_r. set (run := Z.min _ _). unfold fn_upd. wp_steps. unfold on_fat. wp_steps.
  destruct (lba_cluster _ _ _ c I Hcl) as (El & Hlo & _). fold f in El, Hlo. rewrite El.
  assert (Hlast := Hcons k ltac:(lia)). pose proof (lookupZ_Some_lt _ _ _ Hlast) as Hlen.
  assert (Hroom : off + pos + run <= room f l) by (unfold room; fold cb; nia).
  assert (Hrun : 0 < run <= len - pos) by nia.
  assert (Haddr : ∀ d, 0 <= d < run → addr f l (off + pos + d) = cluster_lba f c * BLOCK_SECTOR_SIZE + w + d).
  { intros d Hdr. replace (off + pos + d) with (i * cb + w + d) by lia. apply (addr_run f l i c k w d); [done|done|done|lia|lia|]. fold cb. nia. }
  assert (Hdata : ∀ d, 0 <= d < run → data_byte f (cluster_lba f c * BLOCK_SECTOR_SIZE + w + d)).
  { intros d Hdr. rewrite <- Haddr by done. apply addr_data; [done|intros x Hx; eapply chain_clusters; [apply CL|done]|fold f; lia]. }
  unfold fat_data_io. eapply data_io_wp; [reflexivity|exact I1| |lia|lia|lia| | |].
  - cbn [fx_fat]. pose proof (geo_eq _ _ G1) as (_ & _ & _ & _ & _ & _ & -> & _). done.
  - cbn [fx_fat]. rewrite (data_end_geo _ _ G1). destruct (Hdata (run - 1) ltac:(lia)) as [_ ?]. fold f. lia.
  - intros Hwr. rewrite length_drop. specialize (Hb Hwr). lia.
  - cbn [fx_fat]. intros s2 B2 F2. wp_steps. cbn [fst snd Z.eqb negb app].
    assert (F : file_now (fx_fat t) s2 l (off + pos) (if write then take (Z.to_nat run) (drop (Z.to_nat pos) buf) else [])).
    { eapply file_now_calm_l; [exact N1|]. destruct write; [|by apply file_now_same]. eapply run_file; [exact B2|]. rewrite length_take, length_drop.
      intros d Hdr. rewrite (addr_geo _ _ _ _ G1), (data_byte_geo _ _ _ G1). fold f. split; [apply Haddr; lia|apply Hdata; lia]. }
    replace (map (dbyte (fx_fat t1)) _) with (map (fbyte (fx_fat t) l) (seqZ (off + pos) run)).
    2:{ rewrite <- (run_fbytes (fx_fat t) l _ _ _ Haddr). apply map_ext_in. intros x Hx%list_elem_of_In%elem_of_seqZ. symmetry.
        apply (bn_bytes _ _ _ (now_bytes _ _ N1)). fold f. replace x with (cluster_lba f c * BLOCK_SECTOR_SIZE + w + (x - (cluster_lba f c * BLOCK_SECTOR_SIZE + w))) by lia. apply Hdata. lia. }
    apply HQ; [done|done|rewrite En; by eexists _, _| |exact F].
    cbn [fx_node fx_fat]. eapply clusters_file; [exact I|exact F|exact CL|cbn; by rewrite En|]. intros _. cbn. split; [lia|exact Hlast].
Qed.

Lemma io_runs_wp fuel l off buf len (write : bool) pos acc t n (Q : Z * list Z → fnst → Prop) :
  fat_inv (fx_fat t) → clusters_of (fx_fat t) (fx_node t) l → 0 <= off → off + len < 2 ^ 41 → 0 <= pos <= len → len - pos <= Z.of_nat fuel →
  (write = true → Z.of_nat (length buf) = len) → n = Z.max 0 (Z.min (len - pos) (room (fa_fs (fx_fat t)) l - (off + pos))) →
  (∀ t', same_node (fx_node t) (fx_node t') → clusters_of (fx_fat t') (fx_node t') l →
     file_now (fx_fat t) (fx_fat t') l (off + pos) (if write then take (Z.to_nat n) (drop (Z.to_nat pos) buf) else []) →
     Q (pos + n, acc ++ got write (map (fbyte (fx_fat t) l) (seqZ (off + pos) n))) t') →
  wp (io_runs fuel off buf len write pos acc) Q t.
Proof.
  revert pos acc t n Q. induction fuel as [|fuel IH]; intros pos acc t n Q I CL Hoff Hmax Hd Hf Hb En HQ; cbn [io_runs];
    (destruct (Z.ltb_spec pos len); [|assert (n = 0) as -> by lia; wp_steps; rewrite Z.add_0_r in HQ;
      assert (E : got write (map (fbyte (fx_fat t) l) (seqZ (off + pos) 0)) = []) by (by destruct write); rewrite E, app_nil_r in HQ;
      apply HQ; [apply same_node_refl|done|]; destruct write; by apply file_now_calm, is_now_refl]); [lia|].
  pose proof (cluster_bytes_pos _ I) as [Ecb Hcb]. assert (Hcb0 : 0 < ft_cluster_bytes (fa_fs (fx_fat t))) by (unfold BLOCK_SECTOR_SIZE in *; lia).
  set (cb := ft_cluster_bytes (fa_fs (fx_fat t))) in *. set (i := (off + pos) / cb).
  pose proof (Z.div_mod (off + pos) cb ltac:(lia)) as Eod. pose proof (Z.mod_pos_bound (off + pos) cb Hcb0) as Hw. fold i in Eod.
  assert (Hi : 0 <= i < 2 ^ 32) by (unfold BLOCK_SECTOR_SIZE in *; split; [apply Z.div_pos; lia|apply Z.div_lt_upper_bound; lia]).
  unfold the_fat. wp_steps. fold cb. rewrite (u64_small (off + pos)) by lia. fold i. rewrite u32_small by done.
  apply (cluster_at_wp healthy runs blocks l); [done|done|lia|]. intros t1 [N1 S1] CL1. pose proof N1 as (I1 & G1 & _ & _).
  pose proof (geo_eq _ _ G1) as (_ & _ & Ecb1 & _). fold cb in Ecb1.
  destruct (l !!z i) as [c|] eqn:Ec; cbn [default].
  2:{ assert (Hlen : Z.of_nat (length l) <= i).
      { destruct (decide (i < Z.of_nat (length l))); [|lia]. destruct (lookupZ_lt_is_Some l i) as [x Hx]; [lia|]. by rewrite Hx in Ec. }
      assert (n = 0) as -> by (unfold room in En; fold cb in En; nia). cbn [Z.eqb]. wp_steps. rewrite Z.add_0_r in HQ.
      assert (E : got write (map (fbyte (fx_fat t) l) (seqZ (off + pos) 0)) = []) by (by destruct write). rewrite E, app_nil_r in HQ.
      apply HQ; [done|done|]. destruct write; by apply file_now_calm. }
  assert (Hcl : is_cluster (fa_fs (fx_fat t)) c) by (eapply chain_clusters; [apply CL|unfold lookupZ in Ec; destruct (i <? 0); [done|by eapply list_elem_of_lookup_2]]).
  unfold id. destruct (Z.eqb_spec c 0); [unfold is_cluster in Hcl; lia|].
  replace (fat_lba (fa_fs (fx_fat t)) c) with (fat_lba (fa_fs (fx_fat t1)) c)
    by (unfold fat_lba; pose proof (geo_eq _ _ G1) as (_ & -> & _ & _ & _ & _ & -> & _); done).
  unfold i. rewrite <- Ecb1. apply (turn_wp l off buf len write pos c acc (Z.to_nat (len - pos)) t1 Q (io_runs fuel off buf len write));
    rewrite ?Ecb1; [exact I1|exact CL1|done|done|lia|lia|exact Hb|exact Ec|].
  intros run t2 Hrun Hroom S2 CL2 F2. pose proof (bn_inv _ _ _ (fi_now _ _ _ _ _ F2)) as I2. pose proof (bn_geo _ _ _ (fi_now _ _ _ _ _ F2)) as G2.
  rewrite (room_geo _ _ _ G1) in Hroom. pose proof (file_now_calm_l _ _ _ _ _ _ N1 F2) as F.
  assert (Hin : ∀ x, x ∈ l → is_cluster (fa_fs (fx_fat t)) x) by (intros x Hx; eapply chain_clusters; [apply CL|done]).
  apply (IH _ _ _ (n - run)); [exact I2|exact CL2|done|done|lia|lia|exact Hb| |].
  { rewrite (room_geo _ _ _ G2), (room_geo _ _ _ G1). lia. }
  intros t3 S3 CL3 F3. assert (Hn : n = run + (n - run) ∧ off + pos + n <= room (fa_fs (fx_fat t)) l ∧ 0 <= n - run ∧ n <= len - pos) by lia. destruct Hn as (Hn & Hnr & Hn0 & Hnl).
  replace (pos + run + (n - run)) with (pos + n) by lia. replace (off + (pos + run)) with (off + pos + run) in * by lia. rewrite <- app_assoc.
  replace (got write _ ++ got write _) with (got write (map (fbyte (fx_fat t) l) (seqZ (off + pos) n))).
  2:{ destruct write; [done|]. cbn [got]. rewrite Hn at 1. rewrite seqZ_app, map_app by lia. f_equal; apply map_ext_in; intros x Hx%list_elem_of_In%elem_of_seqZ; symmetry.
      - apply (file_now_fbyte _ _ _ 0); [exact I|exact Hin|lia|by apply file_now_calm].
      - eapply file_now_fbyte; [exact I|exact Hin|lia|exact F]. }
  apply HQ; [|done|].
  - eapply same_node_trans; [exact S1|]. by eapply same_node_trans.
  - destruct write.
    + specialize (Hb eq_refl). replace (take (Z.to_nat n) (drop (Z.to_nat pos) buf)) with
        (take (Z.to_nat run) (drop (Z.to_nat pos) buf) ++ take (Z.to_nat (n - run)) (drop (Z.to_nat (pos + run)) buf)).
      2:{ replace (Z.to_nat n) with (Z.to_nat run + Z.to_nat (n - run))%nat by lia. replace (Z.to_nat (pos + run)) with (Z.to_nat pos + Z.to_nat run)%nat by lia.
          rewrite <- drop_drop. apply take_take_drop. }
      assert (L1 : Z.of_nat (length (take (Z.to_nat run) (drop (Z.to_nat pos) buf))) = run) by (rewrite length_take, length_drop; lia).
      apply (file_now_app _ (fx_fat t2)); [exact I|eapply chain_nodup, CL|exact Hin|lia| |exact F|by rewrite L1].
      rewrite length_app, !length_take, !length_drop. lia.
    + change [] with ([] ++ [] : list Z). apply (file_now_app _ (fx_fat t2)); [exact I|eapply chain_nodup, CL|exact Hin|lia|cbn; lia|exact F|].
      by eapply file_now_nil.
Qed.
End FatIo.
