(* ===== verification/FatVolume.v ===== *)
(** * What the FAT32 volume promises

    The properties of the table and of the bytes of files, and a small volume on the
    demonstration disk to try them on. *)
From S2P Require Import Prelude RawMem Pmm Heap VfsTypes Ramfs Block BlockIo Fat FatTable FatFile FatIo.
Local Open Scope kernel_scope.

Section FatVolume.
Context {H : Type} `{KM : KernelMem H} {KL : KernelMemLaws H} {B : Type} `{BA : BlockApi B} {BL : BlockLaws B}.
Context (healthy : ¬ bl_can_fail (B := B)) (runs blocks : list (Z * Z)).
Local Abbreviation fatst := (Fat.fatst (H := H) (B := B)).
Local Abbreviation fnst := (Fat.fnst (H := H) (B := B)).
Local Abbreviation fat_inv := (FatTable.fat_inv runs blocks).
Local Abbreviation is_now := (FatTable.is_now runs blocks).
Local Abbreviation calm := (FatFile.calm runs blocks).
Local Abbreviation grown := (FatFile.grown runs blocks).
Local Abbreviation file_now := (FatIo.file_now runs blocks).
Implicit Types (s : fatst) (t : fnst).

(** ** Contents *)

(** The bytes in the clusters of a file. *)
Definition content s (l : list Z) : list Z := map (fbyte s l) (seqZ 0 (room (fa_fs s) l)).

Lemma room_nonneg s l : fat_inv s → 0 <= room (fa_fs s) l.
Proof. intros I. pose proof (cluster_bytes_pos _ _ s I). unfold room, BLOCK_SECTOR_SIZE in *. lia. Qed.
Lemma used_count_bound f nx : (used_count f nx <= Z.to_nat (ft_cluster_count f))%nat.
Proof. unfold used_count. etransitivity; [apply length_filter|]. rewrite length_seqZ. done. Qed.
Lemma content_length s l : fat_inv s → Z.of_nat (length (content s l)) = room (fa_fs s) l.
Proof. intros I. unfold content. rewrite length_map, length_seqZ. pose proof (cluster_bytes_pos _ _ s I). unfold room, BLOCK_SECTOR_SIZE in *. lia. Qed.
Lemma content_lookup s l j : 0 <= j < room (fa_fs s) l → content s l !!z j = Some (fbyte s l j).
Proof.
  intros Hj. unfold content, lookupZ. destruct (Z.ltb_spec j 0); [lia|]. rewrite list_lookup_fmap.
  by rewrite (proj2 (lookup_seqZ 0 _ _ j)) by lia.
Qed.
Lemma content_ext s s' l :
  fat_inv s → geo (fa_fs s') = geo (fa_fs s) → (∀ j, 0 <= j < room (fa_fs s) l → fbyte s' l j = fbyte s l j) → content s' l = content s l.
Proof.
  intros I G E. unfold content. rewrite (room_geo _ _ _ G). apply map_ext_in. intros j Hj%list_elem_of_In%elem_of_seqZ. apply E. lia.
Qed.
Lemma content_read s l off n :
  0 <= off → 0 <= n → off + n <= room (fa_fs s) l → spec_read (content s l) off n = map (fbyte s l) (seqZ off n).
Proof.
  intros Ho Hn Hle. unfold spec_read, content. replace (room (fa_fs s) l) with (off + (n + (room (fa_fs s) l - off - n))) by lia.
  rewrite seqZ_app, map_app, drop_app_length' by (rewrite ?length_map, ?length_seqZ; lia).
  rewrite seqZ_app, map_app, take_app_length' by (rewrite ?length_map, ?length_seqZ; lia). done.
Qed.
Lemma content_write s s' l off bs :
  fat_inv s → (∀ x, x ∈ l → is_cluster (fa_fs s) x) → NoDup l → 0 <= off → off + Z.of_nat (length bs) <= room (fa_fs s) l →
  file_now s s' l off bs → content s' l = spec_write (content s l) off bs.
Proof.
  intros I Hl ND Ho Hle F. pose proof (bn_geo _ _ _ _ _ (fi_now _ _ _ _ _ _ _ F)) as G. pose proof (bn_inv _ _ _ _ _ (fi_now _ _ _ _ _ _ _ F)) as I'.
  pose proof (content_length s l I) as L. pose proof (content_length s' l I') as L'. rewrite (room_geo _ _ _ G) in L'.
  apply lookupZ_ext; [apply Nat2Z.inj; rewrite spec_write_length by done; lia|]. intros k Hk.
  rewrite spec_write_lookup, content_lookup by (rewrite ?(room_geo _ _ _ G); lia).
  destruct (decide (off <= k < off + Z.of_nat (length bs))) as [Hin|Hin].
  - rewrite (fi_in _ _ _ _ _ _ _ F) by done. destruct (lookupZ_lt_is_Some bs (k - off)) as [x ->]; [lia|done].
  - rewrite decide_True, content_lookup by lia. f_equal. unfold fbyte. rewrite (addr_geo _ _ _ _ G). apply (fi_out _ _ _ _ _ _ _ F).
    + eapply addr_data; [exact I|done|lia].
    + intros j Hj E. eapply addr_inj in E; [lia|exact I|done|done|lia|lia].
Qed.
(** A file with other clusters. *)
Lemma content_other s s' l l' off bs :
  fat_inv s → (∀ x, x ∈ l → is_cluster (fa_fs s) x) → (∀ x, x ∈ l' → is_cluster (fa_fs s) x) → (∀ x, x ∈ l → x ∉ l') →
  0 <= off → off + Z.of_nat (length bs) <= room (fa_fs s) l → file_now s s' l off bs → content s' l' = content s l'.
Proof.
  intros I Hl Hl' Hd Ho Hle F. pose proof (bn_geo _ _ _ _ _ (fi_now _ _ _ _ _ _ _ F)) as G. apply content_ext; [done|done|].
  intros j Hj. unfold fbyte. rewrite (addr_geo _ _ _ _ G). apply (fi_out _ _ _ _ _ _ _ F); [by eapply addr_data; [exact I| |]|].
  intros j' Hj' E. destruct (cluster_bytes_pos _ _ s I) as [Ecb Hcb]. assert (H0 : 0 < ft_cluster_bytes (fa_fs s)) by (unfold BLOCK_SECTOR_SIZE in *; lia).
  destruct (room_split (fa_fs s) l' j H0 Hj) as (x & q & r & -> & Hq & Hr & Hx & Ex).
  destruct (room_split (fa_fs s) l j' H0 ltac:(lia)) as (x' & q' & r' & -> & Hq' & Hr' & Hx' & Ex'). rewrite Ex, Ex' in E.
  assert (In : ∀ (k : list Z) y z, k !!z y = Some z → z ∈ k) by (intros k y z; unfold lookupZ; destruct (y <? 0); [done|apply list_elem_of_lookup_2]).
  apply In in Hx, Hx'. apply (Hd x'); [done|]. assert (x = x') as <-; [|done]. pose proof (fg_spc _ _ (ai_geom _ _ _ I)).
  rewrite Ecb in *. unfold cluster_lba, BLOCK_SECTOR_SIZE in *. nia.
Qed.

(** ** Properties *)

(** C2 (refinement) [io_runs, run_loop, fat_cluster_at, data_io_loop]
    On a disk that does not fail ([healthy]), and for a range that ends below 2^41, a file is an
    array of bytes: [fat_io] reads the bytes of the clusters from the offset on,
    or stores the given ones there, as many as the clusters have room for, as the reference
    functions on lists do, however the range crosses sectors, clusters and runs
    of clusters. Then a write changes no other file, no byte outside the range and nothing of the table. *)
Theorem fat_io_correct l off buf len t :
  let n := Z.max 0 (Z.min len (room (fa_fs (fx_fat t)) l - off)) in
  fat_inv (fx_fat t) → clusters_of (fx_fat t) (fx_node t) l → 0 <= off → 0 <= len → off + len < 2 ^ 41 → Z.of_nat (length buf) = len →
  (∃ t', fat_io off buf len false t = Some ((n, spec_read (content (fx_fat t) l) off n), t') ∧
     clusters_of (fx_fat t') (fx_node t') l ∧ fat_inv (fx_fat t') ∧
     (∀ l', (∀ x, x ∈ l' → is_cluster (fa_fs (fx_fat t)) x) → content (fx_fat t') l' = content (fx_fat t) l')) ∧
  (∃ t', fat_io off buf len true t = Some ((n, []), t') ∧
     clusters_of (fx_fat t') (fx_node t') l ∧ file_now (fx_fat t) (fx_fat t') l off (take (Z.to_nat n) buf) ∧
     (0 < n → content (fx_fat t') l = spec_write (content (fx_fat t) l) off (take (Z.to_nat n) buf)) ∧
     (n = 0 → content (fx_fat t') l = content (fx_fat t) l) ∧
     (∀ l', (∀ x, x ∈ l' → is_cluster (fa_fs (fx_fat t)) x) → (∀ x, x ∈ l → x ∉ l') → content (fx_fat t') l' = content (fx_fat t) l')).
Proof.
  intros n I CL Ho Hl Hmax Hb. assert (Hin : ∀ x, x ∈ l → is_cluster (fa_fs (fx_fat t)) x) by (intros x Hx; eapply chain_clusters; [apply CL|done]).
  split; apply wp_gives; unfold fat_io.
  - eapply (io_runs_wp healthy runs blocks _ l _ _ _ _ _ _ _ n); [exact I|exact CL|done|done|lia|lia|done|unfold n; lia|].
    intros t' _ CL' F. rewrite Z.add_0_r in *. cbn [app got]. rewrite Z.add_0_l.
    split; [|split_and!; [done|apply (fi_now _ _ _ _ _ _ _ F)|]].
    + destruct (decide (0 < n)); [by rewrite content_read by (done || lia)|]. assert (n = 0) as -> by lia. done.
    + intros l' Hl'. eapply content_ext; [exact I|apply (fi_now _ _ _ _ _ _ _ F)|]. intros j Hj. apply (file_now_fbyte runs blocks _ _ _ 0); [exact I|done|done|].
      eapply file_now_nil. exact F.
  - eapply (io_runs_wp healthy runs blocks _ l _ _ _ _ _ _ _ n); [exact I|exact CL|done|done|lia|lia|done|unfold n; lia|].
    intros t' _ CL' F. rewrite Z.add_0_r in *. cbn [app got]. rewrite Z.add_0_l. change (drop (Z.to_nat 0) buf) with buf in F.
    pose proof (room_nonneg (fx_fat t) l I) as Hr.
    assert (Lb : Z.of_nat (length (take (Z.to_nat n) buf)) = n) by (rewrite length_take; lia).
    split_and!; [done|done|done| | |].
    + intros Hn. eapply content_write; [exact I|exact Hin|eapply chain_nodup, CL|done|lia|exact F].
    + intros E. rewrite E in F. eapply content_ext; [exact I|apply (fi_now _ _ _ _ _ _ _ F)|]. intros j Hj. apply (file_now_fbyte runs blocks _ _ _ off); [exact I|exact Hin|done|exact F].
    + intros l' Hl' Hd. destruct (decide (n = 0)) as [E|Hn].
      * rewrite E in F. eapply (content_other _ _ l l' 0 []); [exact I|exact Hin|exact Hl'|exact Hd|done|cbn; lia|]. eapply file_now_nil. exact F.
      * eapply content_other; [exact I|exact Hin|exact Hl'|exact Hd|exact Ho| |exact F]. lia.
Qed.

(** C22 (equivalence) [fat_cluster_at, walk_loop, fat_get]
    On a disk that does not fail ([healthy]), looking up a cluster by its index gives the one at that place of the chain, or 0 beyond the end,
    whether it starts from the hint of an earlier access or from the first cluster; it leaves a
    true hint and changes nothing else. *)
Theorem fat_cluster_at_correct l index t :
  fat_inv (fx_fat t) → clusters_of (fx_fat t) (fx_node t) l → 0 <= index →
  ∃ t', fat_cluster_at index t = Some (default 0 (l !!z index), t') ∧ calm t t' ∧ clusters_of (fx_fat t') (fx_node t') l.
Proof. intros I CL Hi. apply wp_gives. eapply (cluster_at_wp healthy runs blocks); [done|done|done|]. by intros t' C' CL'. Qed.

(** C21 (functional) [fat_extend, extend_loop, fat_alloc_loop]
    On a disk that does not fail ([healthy]), growing a file to a number of clusters, from 1 to
    2^32 - 1, keeps its chain and puts free clusters behind it, zeroed if asked to: just as many as
    are missing, or, when it fails, fewer than that, and then, if they are not to be zeroed, no free
    cluster is left.
    No other entry and no other data of the volume change. *)
Theorem fat_extend_correct l clusters zero t :
  fat_inv (fx_fat t) → clusters_of (fx_fat t) (fx_node t) l → 0 < clusters < 2 ^ 32 →
  ∃ rc t', fat_extend clusters zero t = Some (rc, t') ∧ ∃ ext, grown (fx_fat t) (fx_fat t') l ext zero ∧
    clusters_of (fx_fat t') (fx_node t') (l ++ ext) ∧ (rc = 0 ∨ rc = -1) ∧
    (rc = 0 → clusters <= Z.of_nat (length (l ++ ext)) ∧ (ext = [] ∨ Z.of_nat (length (l ++ ext)) = clusters)) ∧
    (rc = -1 → Z.of_nat (length (l ++ ext)) < clusters ∧ (zero = false → full (fx_fat t'))).
Proof.
  intros I CL Hc. apply wp_run. eapply (extend_wp healthy runs blocks); [done|done|done|].
  intros rc ext t' Hrc _ Gr CL' _ H0 HF. exists ext. split_and!; try done. intros ->. by apply HF.
Qed.

(** Allocating takes a free cluster, marks it the end of a chain, links it behind [prev] and
    zeroes it if asked to; 0 means that nothing has changed, and, when there is nothing to zero, that no
    cluster was free. *)
Lemma fat_alloc_correct prev zero s :
  fat_inv s → prev = 0 ∨ is_cluster (fa_fs s) prev →
  ∃ c s', fat_alloc prev zero s = Some (c, s') ∧
    (c = 0 ∧ is_now s s' (fat_next s) (disk s) ∧ (zero = false → ∀ x, is_cluster (fa_fs s) x → fat_next s x ≠ 0) ∨
     is_cluster (fa_fs s) c ∧ fat_next s c = 0 ∧
       is_now s s' (linked prev c (fat_next s)) (if zero then zeroed (fa_fs s) c (disk s) else disk s)).
Proof.
  intros I Hp. apply wp_run. eapply (alloc_wp healthy runs blocks); [done|done| |].
  - intros s' N Hfull. by left.
  - intros c s' Hc Hz N. by right.
Qed.

(** C23 (termination) [fat_free_loop, fat_get, fat_set]
    On a disk that does not fail ([healthy]), freeing the chain from any cluster of any table ends, within as many turns as there are
    clusters, even if the chain runs into itself, and leaves all data alone; a chain that
    ends has exactly its entries cleared. *)
Theorem fat_free_chain_correct c s :
  fat_inv s → ∃ s', fat_free_chain c s = Some (tt, s') ∧ fat_inv s' ∧ geo (fa_fs s') = geo (fa_fs s) ∧ same_data s s' ∧
    ∀ l, chain (fa_fs s) (fat_next s) c l →
      ∀ x, in_table (fa_fs s) x → fat_next s' x = if bool_decide (x ∈ l) then 0 else fat_next s x.
Proof.
  intros I. pose proof (used_count_bound (fa_fs s) (fat_next s)) as Hu. destruct (ai_geom _ _ _ I) as [_ _ _ _ [Hc0 _] _ _ _ _].
  assert (E : wp (fat_free_chain c) (λ _ s', fat_inv s' ∧ geo (fa_fs s') = geo (fa_fs s) ∧ same_data s s') s).
  { unfold fat_free_chain. wp_steps. eapply (free_loop_ends healthy runs blocks); [done|lia]. }
  apply wp_run in E as ([] & s' & E & I' & G & D). exists s'. split_and!; try done. intros l Hc x Hx.
  assert (F : wp (fat_free_chain c) (λ _ s', fat_next s' x = if bool_decide (x ∈ l) then 0 else fat_next s x) s).
  { unfold fat_free_chain. wp_steps. eapply (free_chain_wp healthy runs blocks l); [done|done| |].
    - pose proof (fat_chain_length _ _ _ _ _ _ I Hc). lia.
    - intros s2 (_ & _ & _ & X). by apply X. }
  apply wp_run in F as ([] & s2 & F & X). rewrite E in F. by injection F as <-.
Qed.
End FatVolume.

(** * A small volume

    On the demonstration disk: two copies of a table of one sector at 32, clusters of two
    sectors from 34 on, and one file in the clusters 5, 6 and 9. *)
Definition demo_table : list Z :=
  [0x0FFFFFF8; 0x0FFFFFFF; 0x0FFFFFFF; 0; 0; 6; 9; 0; 0; 0x0FFFFFFF] ≫= le_split 4.
Definition demo_fat_block : blockst (H := heap) (D := gmap Z (list Z)) :=
  Blockst (block_devices demo_block) (block_bounce demo_block) 1 0 demo_heap {[32 := demo_table; 33 := demo_table]}.
Definition demo_fs : Fat32 := MkFat32 0 2 1024 32 1 2 34 2 100 3 0 false false (replicate 512 0).
Definition demo_fat : fatst (H := heap) := Fatst demo_fs demo_fat_block demo_heap.
Definition demo_node : FatNode := MkFatNode 0 5 0 0 [] false 1 6.
Definition demo_fn : fnst (H := heap) := Fnst demo_node demo_fat.

Lemma demo_fat_inv : fat_inv [] [] demo_fat.
Proof.
  constructor.
  - constructor; cbn; unfold FAT_EOC, BLOCK_SECTOR_SIZE; try lia.
    change (dev_size demo_fat_block 0) with 80000. lia.
  - exact demo_block_ok.
  - constructor; [reflexivity|discriminate..].
  - exact demo_heap_inv.
Qed.
Lemma demo_healthy : ¬ bl_can_fail (B := blockst (H := heap) (D := gmap Z (list Z))).
Proof. by intros []. Qed.
Lemma demo_clusters : clusters_of demo_fat demo_node [5; 6; 9].
Proof.
  assert (E : fat_next demo_fat 5 = 6 ∧ fat_next demo_fat 6 = 9 ∧ fat_next demo_fat 9 = 0x0FFFFFFF) by (vm_compute; done).
  destruct E as (E5 & E6 & E9). constructor.
  - cbn [chain]. rewrite E5, E6, E9. unfold is_cluster. cbn. lia.
  - intros x Hx. repeat (apply elem_of_cons in Hx as [->|Hx]); [rewrite E5; lia|rewrite E6; lia|rewrite E9; lia|by apply elem_of_nil in Hx].
  - intros _. done.
Qed.

Lemma demo_all_clusters x : x ∈ [5; 6; 9] → is_cluster demo_fs x.
Proof. intros Hx. eapply chain_clusters; [apply demo_clusters|exact Hx]. Qed.

(** Eight bytes across the first two clusters. *)
Lemma fat_io_correct_witness :
  let buf := [1; 2; 3; 4; 5; 6; 7; 8] in
  ∃ t', fat_io 1020 buf 8 true demo_fn = Some ((8, []), t') ∧
    content (fx_fat t') [5; 6; 9] = spec_write (content demo_fat [5; 6; 9]) 1020 buf ∧
    content (fx_fat t') [7; 8] = content demo_fat [7; 8].
Proof.
  intros buf. destruct (fat_io_correct demo_healthy [] [] [5; 6; 9] 1020 buf 8 demo_fn demo_fat_inv demo_clusters ltac:(lia) ltac:(lia) ltac:(lia) eq_refl)
    as [_ (t' & E & _ & _ & W & _ & O)].
  exists t'. split; [exact E|]. split; [by apply W|]. apply O; clear.
  - intros x Hx. unfold is_cluster. cbn. repeat (apply elem_of_cons in Hx as [->|Hx]); [lia|lia|by apply elem_of_nil in Hx].
  - apply list.Forall_forall. repeat apply list.Forall_cons_2; [set_solver..|by apply list.Forall_nil].
Defined.

Lemma fat_cluster_at_correct_witness :
  (∃ t', fat_cluster_at 2 demo_fn = Some (9, t')) ∧ (∃ t', fat_cluster_at 0 demo_fn = Some (5, t')) ∧ ∃ t', fat_cluster_at 3 demo_fn = Some (0, t').
Proof.
  split_and!.
  - destruct (fat_cluster_at_correct demo_healthy [] [] [5; 6; 9] 2 demo_fn demo_fat_inv demo_clusters ltac:(lia)) as (t' & E & _). by exists t'.
  - destruct (fat_cluster_at_correct demo_healthy [] [] [5; 6; 9] 0 demo_fn demo_fat_inv demo_clusters ltac:(lia)) as (t' & E & _). by exists t'.
  - destruct (fat_cluster_at_correct demo_healthy [] [] [5; 6; 9] 3 demo_fn demo_fat_inv demo_clusters ltac:(lia)) as (t' & E & _). by exists t'.
Defined.

Lemma fat_extend_correct_witness :
  ∃ rc t', fat_extend 5 true demo_fn = Some (rc, t') ∧ ∃ ext, grown [] [] demo_fat (fx_fat t') [5; 6; 9] ext true ∧
    clusters_of (fx_fat t') (fx_node t') ([5; 6; 9] ++ ext) ∧ (rc = 0 ∨ rc = -1) ∧
    (rc = 0 → 5 <= Z.of_nat (length ([5; 6; 9] ++ ext)) ∧ (ext = [] ∨ Z.of_nat (length ([5; 6; 9] ++ ext)) = 5)) ∧
    (rc = -1 → Z.of_nat (length ([5; 6; 9] ++ ext)) < 5 ∧ (true = false → full (fx_fat t'))).
Proof. apply (fat_extend_correct demo_healthy [] [] [5; 6; 9] 5 true demo_fn demo_fat_inv demo_clusters). lia. Defined.

Lemma fat_alloc_correct_witness :
  ∃ c s', fat_alloc 9 false demo_fat = Some (c, s') ∧
    (c = 0 ∧ is_now [] [] demo_fat s' (fat_next demo_fat) (disk demo_fat) ∧ (false = false → ∀ x, is_cluster demo_fs x → fat_next demo_fat x ≠ 0) ∨
     is_cluster demo_fs c ∧ fat_next demo_fat c = 0 ∧ is_now [] [] demo_fat s' (linked 9 c (fat_next demo_fat)) (disk demo_fat)).
Proof.
  apply (fat_alloc_correct demo_healthy [] [] 9 false demo_fat demo_fat_inv). right. apply demo_all_clusters. rewrite !elem_of_cons. auto.
Defined.

Lemma fat_free_chain_correct_witness :
  ∃ s', fat_free_chain 5 demo_fat = Some (tt, s') ∧ fat_next s' 6 = 0 ∧ fat_next s' 2 = 0x0FFFFFFF.
Proof.
  destruct (fat_free_chain_correct demo_healthy [] [] 5 demo_fat demo_fat_inv) as (s' & E & _ & _ & _ & X).
  exists s'. split; [exact E|]. specialize (X [5; 6; 9] (cl_chain _ _ _ demo_clusters)).
  split; (rewrite X; [vm_compute; done|unfold in_table; cbn; lia]).
Defined.
