(* ===== verification/FatDir.v ===== *)
(** * kernel/filesystem/fat32.c: directory entries and names

    The records of a directory as bytes, short names and their checksum, long names in
    pieces of thirteen characters, and what the scan of a directory makes of each
    entry.  These functions have no state; FatVol.v has the operations that use them. *)
From S2P Require Import Prelude RawMem Pmm Heap VfsTypes Ramfs Block Fat Rtc.
Local Open Scope kernel_scope.

Definition NUL : ascii := char_of 0.
Definition div_ceil (a b : Z) : Z := u64 (u64 (a + b) - 1) / b.

(** ** Entries *)

(** [kernel/filesystem/fat32.c 15-30] *)
Record FatDirent := MkDirent {
  de_name : list Z; de_attr : Z; de_ntres : Z; de_ctime_tenth : Z; de_ctime : Z; de_cdate : Z; de_adate : Z;
  de_cluster_hi : Z; de_mtime : Z; de_mdate : Z; de_cluster_lo : Z; de_size : Z
}.
(** [kernel/filesystem/fat32.c 32-43] *)
Record FatLfn := MkLfn {
  lf_order : Z; lf_name1 : list Z; lf_attr : Z; lf_type : Z; lf_checksum : Z; lf_name2 : list Z; lf_zero : Z; lf_name3 : list Z
}.
(** The records in memory, packed. *)
Definition dirent_bytes (e : FatDirent) : list Z :=
  de_name e ++ [de_attr e; de_ntres e; de_ctime_tenth e] ++ le_split 2 (de_ctime e) ++ le_split 2 (de_cdate e) ++
  le_split 2 (de_adate e) ++ le_split 2 (de_cluster_hi e) ++ le_split 2 (de_mtime e) ++ le_split 2 (de_mdate e) ++
  le_split 2 (de_cluster_lo e) ++ le_split 4 (de_size e).
Definition lfn_bytes (l : FatLfn) : list Z :=
  lf_order l :: (lf_name1 l ≫= le_split 2) ++ [lf_attr l; lf_type l; lf_checksum l] ++ (lf_name2 l ≫= le_split 2) ++
  le_split 2 (lf_zero l) ++ (lf_name3 l ≫= le_split 2).
(** [n] words of 16 bits from [off] on. *)
Fixpoint read_words (n : nat) (l : list Z) (off : Z) : option (list Z) :=
  match n with O => Some [] | S n' => w ← le_field l off 2; ws ← read_words n' l (off + 2); Some (w :: ws) end.
(** The entry in the bytes [l]. *)
Definition read_dirent (l : list Z) : option FatDirent :=
  nm ← read_range l 0 11; at_ ← l !!z 11; nt ← l !!z 12; te ← l !!z 13; ct ← le_field l 14 2; cd ← le_field l 16 2;
  ad ← le_field l 18 2; hi ← le_field l 20 2; mt ← le_field l 22 2; md ← le_field l 24 2; lo ← le_field l 26 2;
  sz ← le_field l 28 4; Some (MkDirent nm at_ nt te ct cd ad hi mt md lo sz).
Definition read_lfn (l : list Z) : option FatLfn :=
  o ← l !!z 0; n1 ← read_words 5 l 1; at_ ← l !!z 11; ty ← l !!z 12; ck ← l !!z 13; n2 ← read_words 6 l 14;
  z ← le_field l 26 2; n3 ← read_words 2 l 28; Some (MkLfn o n1 at_ ty ck n2 z n3).
Definition zero_dirent : FatDirent := MkDirent (replicate 11 0) 0 0 0 0 0 0 0 0 0 0 0.
Definition dirent_cluster (e : FatDirent) : Z := Z.lor (Z.shiftl (de_cluster_hi e) 16) (de_cluster_lo e).
Definition set_de_cluster (c : Z) (e : FatDirent) : FatDirent :=
  MkDirent (de_name e) (de_attr e) (de_ntres e) (de_ctime_tenth e) (de_ctime e) (de_cdate e) (de_adate e)
    (u16 (Z.shiftr c 16)) (de_mtime e) (de_mdate e) (u16 c) (de_size e).
Definition set_de_size (n : Z) (e : FatDirent) : FatDirent :=
  MkDirent (de_name e) (de_attr e) (de_ntres e) (de_ctime_tenth e) (de_ctime e) (de_cdate e) (de_adate e)
    (de_cluster_hi e) (de_mtime e) (de_mdate e) (de_cluster_lo e) n.
Definition set_de_name (nm : list Z) (at_ : Z) (e : FatDirent) : FatDirent :=
  MkDirent nm at_ (de_ntres e) (de_ctime_tenth e) (de_ctime e) (de_cdate e) (de_adate e)
    (de_cluster_hi e) (de_mtime e) (de_mdate e) (de_cluster_lo e) (de_size e).

(** The time and date of a stamp: [r] is what [rtc_read] gave. [kernel/filesystem/fat32.c: fat_timestamp 315-321] *)
Definition fat_stamp (r : Z * RtcTime) : Z * Z :=
  let t := r.2 in
  if (r.1 =? 0) && (1980 <=? rt_year t) then
    (u16 (Z.lor (Z.lor (Z.shiftl (rt_hour t) 11) (Z.shiftl (rt_minute t) 5)) (rt_second t / 2)),
     u16 (Z.lor (Z.lor (Z.shiftl (rt_year t - 1980) 9) (Z.shiftl (rt_month t) 5)) (rt_day t)))
  else (0, Z.lor (Z.shiftl 1 5) 1).
(** [kernel/filesystem/fat32.c: fat_timestamp] *)
Definition fat_timestamp (r : Z * RtcTime) (created : bool) (e : FatDirent) : FatDirent :=
  let '(time, date) := fat_stamp r in
  MkDirent (de_name e) (de_attr e) (de_ntres e) (de_ctime_tenth e) (if created then time else de_ctime e)
    (if created then date else de_cdate e) date (de_cluster_hi e) time date (de_cluster_lo e) (de_size e).

(** ** Names *)

(** [kernel/filesystem/fat32.c: fat_checksum] *)
Definition fat_checksum (name : list Z) : Z :=
  foldl (λ sum c, u8 (Z.shiftl (Z.land sum 1) 7 + Z.shiftr sum 1 + c)) 0 (take 11 name).
(** [kernel/filesystem/fat32.c: fat_upper] *)
Definition fat_upper (c : Z) : Z := if (97 <=? c) && (c <=? 122) then c - 32 else c.
(** [kernel/filesystem/fat32.c: fat_lower] *)
Definition fat_lower (c : Z) : Z := if (65 <=? c) && (c <=? 90) then c + 32 else c.
(** [kernel/filesystem/fat32.c: fat_name_eq] *)
Fixpoint fat_name_eq (a b : str) : bool :=
  match a, b with
  | x :: a', y :: b' => (fat_upper (code_of x) =? fat_upper (code_of y)) && fat_name_eq a' b'
  | [], [] => true
  | _, _ => false
  end.

(** [while (base > 0 && e->name[base - 1] == ' ') base--;] *)
Fixpoint trim_spaces_rev (l : list Z) : list Z :=
  match l with c :: l' => if c =? 32 then trim_spaces_rev l' else l | [] => [] end.
Definition trim_spaces (l : list Z) : list Z := rev (trim_spaces_rev (rev l)).
(** The name up to the first NUL, as a C string. *)
Fixpoint until_nul (l : list Z) : list Z :=
  match l with c :: l' => if c =? 0 then [] else c :: until_nul l' | [] => [] end.
(** [kernel/filesystem/fat32.c: fat_short_to_name] *)
Definition fat_short_to_name (e : FatDirent) : str :=
  let base := trim_spaces (take 8 (de_name e)) in
  let base := match base with c :: l => (if c =? 0x05 then 0xE5 else c) :: l | [] => [] end in
  let ext := trim_spaces (drop 8 (de_name e)) in
  let low b l := if negb (Z.land (de_ntres e) b =? 0) then map fat_lower l else l in
  map char_of (until_nul (low 0x08 base ++ match ext with [] => [] | _ => 46 :: low 0x10 ext end)).

(** [kernel/filesystem/fat32.c: fat_short_char] *)
Definition fat_short_char (c : Z) : bool :=
  ((65 <=? c) && (c <=? 90)) || ((48 <=? c) && (c <=? 57)) ||
  (negb (c =? 0) && bool_decide (c ∈ map code_of (to_str "$%'-_@~`!(){}^#&"))).
(** [strrchr(name, '.')], unless it is the first character: what is before and after it. *)
Fixpoint last_dot (l : str) : option (str * str) :=
  match l with
  | [] => None
  | c :: l' =>
      match last_dot l' with
      | Some (a, b) => Some (c :: a, b)
      | None => if bool_decide (c = "."%char) then Some ([], l') else None
      end
  end.
Definition split_dot (name : str) : str * str :=
  match last_dot name with Some ([], _) | None => (name, []) | Some (a, b) => (a, b) end.
(** The characters a short name keeps, at most [k]. *)
Definition short_chars (k : nat) (l : str) : list Z := take k (filter (λ c, fat_short_char c) (map (λ c, fat_upper (code_of c)) l)).
(** The base of a short name. [kernel/filesystem/fat32.c: fat_make_short 559-564] *)
Definition short_base (a : str) : list Z := match short_chars 6 a with [] => [95] | l => l end.
Definition pad (n : nat) (l : list Z) : list Z := take n (l ++ replicate n 32).
(** The digits of a number, least first. *)
Fixpoint digits_rev (fuel : nat) (v : Z) : list Z :=
  match fuel with O => [] | S f => if v =? 0 then [] else (48 + v mod 10) :: digits_rev f (v / 10) end.
(** The candidate numbered [num]. [kernel/filesystem/fat32.c: fat_make_short 576-590] *)
Definition short_candidate (base ext : list Z) (num : Z) : list Z :=
  let tail := 126 :: rev (digits_rev 7 num) in
  let pos := Nat.min (length base) (8 - length tail) in
  pad 8 (take pos base ++ tail) ++ pad 3 ext.

(** ** Long names *)

(** The characters of piece [seq] (from 1) of a name of [len] characters.
    [kernel/filesystem/fat32.c: fat_add_entry 681-686] *)
Definition lfn_chars (name : str) (seq : Z) : list Z :=
  map (λ k, let a := (seq - 1) * FAT_LFN_CHARS + k in
            match name !!z a with Some c => code_of c | None => if a =? strlenZ name then 0 else 0xFFFF end)
      (seqZ 0 FAT_LFN_CHARS).
(** Piece [i] in the order of the directory, of [count]. [kernel/filesystem/fat32.c: fat_add_entry 675-689] *)
Definition lfn_entry (name : str) (sum count i : Z) : FatLfn :=
  let seq := count - i in
  let ch := lfn_chars name seq in
  MkLfn (u8 (Z.lor seq (if i =? 0 then 0x40 else 0))) (take 5 ch) FAT_ATTR_LFN 0 sum (take 6 (drop 5 ch)) 0 (drop 11 ch).

(** The long name gathered so far; its characters mean something once a last piece was seen.
    [kernel/filesystem/fat32.c: fat_load_dir 418-420] *)
Record LfnScan := MkScan { sc_lfn : list Z; sc_count : Z; sc_sum : Z }.
Definition scan_start : LfnScan := MkScan (replicate 261 0) 0 0.
Definition scan_forget (s : LfnScan) : LfnScan := MkScan (sc_lfn s) 0 (sc_sum s).
(** [kernel/filesystem/fat32.c: fat_load_dir 441-461] *)
Definition scan_lfn (l : FatLfn) (s : LfnScan) : option LfnScan :=
  let seq := Z.land (lf_order l) 0x1F in
  if (seq <? 1) || (20 <? seq) then Some (scan_forget s)
  else
    let s := if negb (Z.land (lf_order l) 0x40 =? 0)
             then MkScan (replicate (Z.to_nat (seq * FAT_LFN_CHARS + 1)) 0 ++ drop (Z.to_nat (seq * FAT_LFN_CHARS + 1)) (sc_lfn s)) seq (lf_checksum l)
             else s in
    ch ← write_range (sc_lfn s) ((seq - 1) * FAT_LFN_CHARS) (lf_name1 l ++ lf_name2 l ++ lf_name3 l);
    Some (MkScan ch (sc_count s) (sc_sum s)).
(** [ch < 0x80 ? (char)ch : '_'], up to a 0 or 0xFFFF. *)
Fixpoint lfn_text (l : list Z) : str :=
  match l with
  | ch :: l' => if (ch =? 0) || (ch =? 0xFFFF) then [] else char_of (if ch <? 0x80 then ch else 95) :: lfn_text l'
  | [] => []
  end.
(** The name of an entry, and how many pieces it is in. [kernel/filesystem/fat32.c: fat_load_dir 468-486] *)
Definition scan_name (e : FatDirent) (s : LfnScan) : str * Z :=
  if negb (sc_count s =? 0) && (sc_sum s =? fat_checksum (de_name e))
  then (lfn_text (take (Nat.min (Z.to_nat (sc_count s * FAT_LFN_CHARS)) (VFS_NAME_MAX - 1)) (sc_lfn s)), u8 (sc_count s))
  else (fat_short_to_name e, 0).

(** What the scan does with an entry. *)
Inductive Scanned := ScanEnd | ScanNext (s : LfnScan) | ScanNode (e : FatDirent) (name : str) (lfn_count : Z) (s : LfnScan).
(** [kernel/filesystem/fat32.c: fat_load_dir 430-487] *)
Definition scan_entry (bs : list Z) (s : LfnScan) : option Scanned :=
  e ← read_dirent bs;
  first ← de_name e !!z 0;
  if first =? 0 then Some ScanEnd
  else if first =? 0xE5 then Some (ScanNext (scan_forget s))
  else if de_attr e =? FAT_ATTR_LFN then l ← read_lfn bs; s' ← scan_lfn l s; Some (ScanNext s')
  else if negb (Z.land (de_attr e) FAT_ATTR_VOLUME =? 0) || (first =? 46) then Some (ScanNext (scan_forget s))
  else let '(name, count) := scan_name e s in Some (ScanNode e name count (scan_forget s)).

(** The entries of a name: the pieces of the long name, last first, then the entry itself.
    [kernel/filesystem/fat32.c: fat_add_entry 669-698] *)
Definition name_entries (name : str) (short : list Z) (count attr cluster size : Z) (r : Z * RtcTime) : list Z :=
  (seqZ 0 count ≫= λ i, lfn_bytes (lfn_entry name (fat_checksum short) count i)) ++
  dirent_bytes (set_de_size size (set_de_cluster cluster (fat_timestamp r true (set_de_name short attr zero_dirent)))).

(** What the scan of [n] entries from [off] on finds: the entries with their names. *)
Fixpoint scan_bytes (n : nat) (off : Z) (buf : list Z) (s : LfnScan) : option (list (FatDirent * str * Z)) :=
  match n with
  | O => Some []
  | S n' =>
      bs ← read_range buf off FAT_ENTRY;
      r ← scan_entry bs s;
      match r with
      | ScanEnd => Some []
      | ScanNext s => scan_bytes n' (off + FAT_ENTRY) buf s
      | ScanNode e name k s => l ← scan_bytes n' (off + FAT_ENTRY) buf s; Some ((e, name, k) :: l)
      end
  end.

(** ** Lemmas: records *)
Lemma le_split_word w : 0 <= w < 65536 → le_combine (le_split 2 w) = w.
Proof. intros Hw. rewrite le_combine_split by (change (256 ^ Z.of_nat 2) with 65536; lia). done. Qed.
Lemma le_split_long w : 0 <= w < 2 ^ 32 → le_combine (le_split 4 w) = w.
Proof. intros Hw. rewrite le_combine_split by (change (256 ^ Z.of_nat 4) with (2 ^ 32); lia). done. Qed.
Definition word (w : Z) : Prop := 0 <= w < 65536.
Lemma split_words l : Forall word l → map (λ w, le_combine (le_split 2 w)) l = l.
Proof. induction 1 as [|w l Hw _ IH]; [done|]. cbn [map]. by rewrite IH, le_split_word. Qed.
Record lfn_ok (l : FatLfn) : Prop := {
  lo_name1 : length (lf_name1 l) = 5%nat ∧ Forall word (lf_name1 l);
  lo_name2 : length (lf_name2 l) = 6%nat ∧ Forall word (lf_name2 l);
  lo_name3 : length (lf_name3 l) = 2%nat ∧ Forall word (lf_name3 l);
  lo_zero : word (lf_zero l)
}.
Record dirent_ok (e : FatDirent) : Prop := {
  do_name : length (de_name e) = 11%nat;
  do_times : word (de_ctime e) ∧ word (de_cdate e) ∧ word (de_adate e) ∧ word (de_mtime e) ∧ word (de_mdate e);
  do_cluster : word (de_cluster_hi e) ∧ word (de_cluster_lo e);
  do_size : 0 <= de_size e < 2 ^ 32
}.

Lemma read_lfn_bytes l : lfn_ok l → read_lfn (lfn_bytes l) = Some l ∧ length (lfn_bytes l) = 32%nat.
Proof.
  intros [[L1 W1] [L2 W2] [L3 W3] Wz]. destruct l as [o n1 at_ ty ck n2 z n3]. cbn [lf_name1 lf_name2 lf_name3 lf_zero] in *.
  destruct n1 as [|a1 [|a2 [|a3 [|a4 [|a5 [|]]]]]]; try done. destruct n2 as [|b1 [|b2 [|b3 [|b4 [|b5 [|b6 [|]]]]]]]; try done.
  destruct n3 as [|c1 [|c2 [|]]]; try done.   split; [|reflexivity].
  assert (E : read_lfn (lfn_bytes (MkLfn o [a1; a2; a3; a4; a5] at_ ty ck [b1; b2; b3; b4; b5; b6] z [c1; c2])) =
    Some (MkLfn o (map (λ w, le_combine (le_split 2 w)) [a1; a2; a3; a4; a5]) at_ ty ck
           (map (λ w, le_combine (le_split 2 w)) [b1; b2; b3; b4; b5; b6]) (le_combine (le_split 2 z))
           (map (λ w, le_combine (le_split 2 w)) [c1; c2]))) by reflexivity.
  by rewrite E, !split_words, le_split_word.
Qed.
Lemma read_dirent_bytes e : dirent_ok e → read_dirent (dirent_bytes e) = Some e ∧ length (dirent_bytes e) = 32%nat.
Proof.
  intros [L (T1 & T2 & T3 & T4 & T5) (C1 & C2) S]. destruct e as [nm at_ nt te ct cd ad hi mt md lo sz]. cbn [de_name de_ctime de_cdate de_adate de_mtime de_mdate de_cluster_hi de_cluster_lo de_size] in *.
  do 11 (destruct nm as [|? nm]; [done|]). destruct nm; [|done]. split; [|reflexivity].
  unfold word in *. match goal with |- read_dirent (dirent_bytes (MkDirent ?n _ _ _ _ _ _ _ _ _ _ _)) = _ =>
    transitivity (Some (MkDirent n at_ nt te (le_combine (le_split 2 ct)) (le_combine (le_split 2 cd)) (le_combine (le_split 2 ad))
      (le_combine (le_split 2 hi)) (le_combine (le_split 2 mt)) (le_combine (le_split 2 md)) (le_combine (le_split 2 lo)) (le_combine (le_split 4 sz)))); [reflexivity|] end.
  by rewrite !le_split_word, le_split_long by done.
Qed.

(** ** Lemmas: long names *)

(** Character [j] of the pieces of a name. *)
Definition full_char (name : str) (j : Z) : Z :=
  match name !!z j with Some c => code_of c | None => if j =? strlenZ name then 0 else 0xFFFF end.
Lemma code_of_bound c : 0 <= code_of c < 256.
Proof. unfold code_of. pose proof (Ascii.N_ascii_bounded c). lia. Qed.
Lemma full_char_word name j : word (full_char name j).
Proof. unfold full_char, word. destruct (name !!z j) as [c|]; [pose proof (code_of_bound c)|destruct (_ =? _)]; lia. Qed.
Lemma lfn_chars_full name seq : lfn_chars name seq = map (full_char name) (seqZ ((seq - 1) * FAT_LFN_CHARS) FAT_LFN_CHARS).
Proof. unfold lfn_chars. apply map_seqZ_shift. intros i _. rewrite Z.add_0_l. done. Qed.
Lemma lfn_chars_length name seq : length (lfn_chars name seq) = 13%nat.
Proof. unfold lfn_chars. by rewrite length_map, length_seqZ. Qed.
Lemma lfn_chars_words name seq : Forall word (lfn_chars name seq).
Proof. rewrite lfn_chars_full. apply list.Forall_forall. intros x (j & -> & _)%list_elem_of_fmap. apply full_char_word. Qed.
Lemma lfn_entry_ok name sum count i : lfn_ok (lfn_entry name sum count i).
Proof.
  pose proof (lfn_chars_words name (count - i)) as W. pose proof (lfn_chars_length name (count - i)) as L.
  constructor; cbn [lfn_entry lf_name1 lf_name2 lf_name3 lf_zero]; rewrite ?length_take, ?length_drop, ?L; try (split; [done|]).
  - by apply Forall_take.
  - by apply Forall_take, Forall_drop.
  - by apply Forall_drop.
  - by unfold word.
Qed.
Lemma lfn_entry_chars name sum count i :
  let l := lfn_entry name sum count i in lf_name1 l ++ lf_name2 l ++ lf_name3 l = lfn_chars name (count - i).
Proof. cbn [lfn_entry lf_name1 lf_name2 lf_name3]. by rewrite <- (drop_drop _ 5 6), !take_drop. Qed.
(** The order byte of piece [i]. *)
Lemma lfn_order count i : 0 < count <= 20 → 0 <= i < count →
  let o := u8 (Z.lor (count - i) (if i =? 0 then 0x40 else 0)) in
  o ≠ 0 ∧ o ≠ 0xE5 ∧ Z.land o 0x1F = count - i ∧ (negb (Z.land o 0x40 =? 0) = (i =? 0)).
Proof.
  intros Hc Hi. cbv zeta. remember (count - i) as q eqn:Eq. assert (Hq : 1 <= q < 21) by lia. clear Eq.
  assert (C : ∀ b, Z.leb 1 q && (let o := u8 (Z.lor q (if (b : bool) then 0x40 else 0)) in
    negb (o =? 0) && negb (o =? 0xE5) && (Z.land o 0x1F =? q) && Bool.eqb (negb (Z.land o 0x40 =? 0)) b) || (q =? 0) = true).
  { intros b. apply (check_range (λ q, Z.leb 1 q && (let o := u8 (Z.lor q (if b then 0x40 else 0)) in
      negb (o =? 0) && negb (o =? 0xE5) && (Z.land o 0x1F =? q) && Bool.eqb (negb (Z.land o 0x40 =? 0)) b) || (q =? 0)) 21); [destruct b; by vm_compute|lia]. }
  specialize (C (i =? 0)). destruct (Z.eqb_spec q 0); [lia|]. rewrite orb_false_r in C. cbv zeta in C.
  apply andb_prop in C as [_ C]. apply andb_prop in C as [C E4]. apply andb_prop in C as [C E3%Z.eqb_eq]. apply andb_prop in C as [E1 E2].
  apply negb_true_iff, Z.eqb_neq in E1, E2. split_and!; [done|done|done|by apply Bool.eqb_prop].
Qed.

Lemma scan_entry_lfn l s :
  lfn_ok l → lf_attr l = FAT_ATTR_LFN → lf_order l ≠ 0 → lf_order l ≠ 0xE5 → scan_entry (lfn_bytes l) s = ScanNext <$> scan_lfn l s.
Proof.
  intros Ok Ha H0 HE. destruct (read_lfn_bytes l Ok) as [R _]. unfold scan_entry. rewrite R. clear R.
  destruct Ok as [[L1 W1] [L2 W2] [L3 W3] Wz]. destruct l as [o n1 at_ ty ck n2 z n3]. cbn [lf_name1 lf_name2 lf_name3 lf_zero lf_attr lf_order] in *.
  destruct n1 as [|a1 [|a2 [|a3 [|a4 [|a5 [|]]]]]]; try done. destruct n2 as [|b1 [|b2 [|b3 [|b4 [|b5 [|b6 [|]]]]]]]; try done.
  destruct n3 as [|c1 [|c2 [|]]]; try done. subst at_.
  match goal with |- context [read_dirent ?b] => assert (E : ∃ e, read_dirent b = Some e ∧ de_attr e = FAT_ATTR_LFN ∧ de_name e !!z 0 = Some o) by (eexists; split_and!; reflexivity) end.
  destruct E as (e & -> & Ea & En). cbn [mbind option_bind]. rewrite En, Ea. cbn [mbind option_bind].
  rewrite (proj2 (Z.eqb_neq o 0)), (proj2 (Z.eqb_neq o 0xE5)) by done. cbn [Z.eqb Pos.eqb FAT_ATTR_LFN].
  by destruct (scan_lfn _ s).
Qed.

(** The scan after the first [i] of [count] pieces of a name. *)
Record gathered (name : str) (sum count i : Z) (s : LfnScan) : Prop := {
  ga_length : length (sc_lfn s) = 261%nat;
  ga_count : sc_count s = count;
  ga_sum : sc_sum s = sum;
  ga_chars : ∀ j, FAT_LFN_CHARS * (count - i) <= j < FAT_LFN_CHARS * count → sc_lfn s !!z j = Some (full_char name j)
}.
Lemma scan_lfn_step name sum count i s :
  0 < count <= 20 → 0 <= i < count → length (sc_lfn s) = 261%nat → (i = 0 ∨ gathered name sum count i s) →
  ∃ s', scan_lfn (lfn_entry name sum count i) s = Some s' ∧ gathered name sum count (i + 1) s'.
Proof.
  intros Hc Hi Hl G. destruct (lfn_order count i Hc Hi) as (_ & _ & Eseq & Elast). unfold scan_lfn. 
  cbn [lfn_entry lf_order lf_checksum] in *. rewrite Eseq, Elast. destruct (Z.ltb_spec (count - i) 1); [lia|]. destruct (Z.ltb_spec 20 (count - i)); [lia|]. cbn [orb].
  pose proof (lfn_entry_chars name sum count i) as Ech. cbv zeta in Ech. rewrite Ech. clear Ech.
  set (s1 := if i =? 0 then _ else s).
  assert (S1 : length (sc_lfn s1) = 261%nat ∧ sc_count s1 = count ∧ sc_sum s1 = sum ∧
    ∀ j, FAT_LFN_CHARS * (count - i) <= j < FAT_LFN_CHARS * count → sc_lfn s1 !!z j = Some (full_char name j)).
  { subst s1. destruct (Z.eqb_spec i 0) as [->|Hi0].
    - cbn [sc_lfn sc_count sc_sum]. rewrite Z.sub_0_r. split_and!; [|done|done|unfold FAT_LFN_CHARS; lia].
      rewrite length_app, length_replicate, length_drop, Hl. unfold FAT_LFN_CHARS. lia.
    - destruct G as [|[]]; [lia|]. by split_and!. }
  destruct S1 as (L1 & C1 & K1 & F1). pose proof (lfn_chars_length name (count - i)) as Lc.
  destruct (write_range (sc_lfn s1) ((count - i - 1) * FAT_LFN_CHARS) (lfn_chars name (count - i))) as [ch|] eqn:W.
  2:{ unfold write_range in W. rewrite Lc, L1 in W. unfold FAT_LFN_CHARS in W.
      destruct (Z.leb_spec 0 ((count - i - 1) * 13)), (Z.leb_spec ((count - i - 1) * 13 + Z.of_nat 13) (Z.of_nat 261)); try done; lia. }
  cbn [mbind option_bind]. eexists. split; [reflexivity|]. pose proof (λ k, write_range_lookup _ _ _ _ k W) as K.
  constructor; cbn [sc_lfn sc_count sc_sum]; [by destruct (K 0) as [-> _]|done|done|].
  intros j Hj. rewrite (proj2 (K j)), Lc. unfold FAT_LFN_CHARS in *. destruct (decide _) as [Hin|Hout].
  - rewrite lfn_chars_full, map_seqZ_lookup by (unfold FAT_LFN_CHARS; lia). do 2 f_equal. unfold FAT_LFN_CHARS. lia.
  - apply F1. lia.
Qed.

(** The scan of the pieces. *)
Lemma scan_pieces name sum count (n m : nat) i a b s :
  0 < count <= 20 → 0 <= i → i + Z.of_nat n = count → length (sc_lfn s) = 261%nat → (i = 0 ∨ gathered name sum count i s) → (0 < i ∨ (0 < n)%nat) →
  ∃ s', gathered name sum count count s' ∧
    scan_bytes (n + m) (Z.of_nat (length a)) (a ++ (seqZ i (Z.of_nat n) ≫= λ i, lfn_bytes (lfn_entry name sum count i)) ++ b) s =
    scan_bytes m (Z.of_nat (length a) + FAT_ENTRY * Z.of_nat n) (a ++ (seqZ i (Z.of_nat n) ≫= λ i, lfn_bytes (lfn_entry name sum count i)) ++ b) s'.
Proof.
  revert i a s. induction n as [|n IH]; intros i a s Hc Hi Hn Hl G Hne.
  { exists s. split; [|by rewrite Z.mul_0_r, Z.add_0_r]. destruct G as [->|G]; [lia|]. by replace i with count in G by lia. }
  rewrite seqZ_cons by lia. replace (Z.pred (Z.of_nat (S n))) with (Z.of_nat n) by lia. rewrite bind_cons.
  set (p := lfn_bytes (lfn_entry name sum count i)). destruct (read_lfn_bytes _ (lfn_entry_ok name sum count i)) as [_ Lp]. fold p in Lp.
  destruct (scan_lfn_step name sum count i s Hc ltac:(lia) Hl G) as (s1 & E1 & G1).
  rewrite <- app_assoc. cbn [plus scan_bytes]. set (rest := _ ++ b).
  assert (R : read_range (a ++ p ++ rest) (Z.of_nat (length a)) FAT_ENTRY = Some p).
  { rewrite read_range_spec by (rewrite ?length_app, ?Lp; unfold FAT_ENTRY; lia). unfold spec_read. rewrite Nat2Z.id, drop_app_length.
    f_equal. }
  destruct (lfn_order count i Hc ltac:(lia)) as (O1 & O2 & _).
  assert (SE : scan_entry p s = Some (ScanNext s1)) by (unfold p; by rewrite (scan_entry_lfn _ s (lfn_entry_ok name sum count i) eq_refl O1 O2), E1).
  rewrite R. cbn [mbind option_bind]. rewrite SE. cbn [mbind option_bind].
  destruct (IH (i + 1) (a ++ p) s1) as (s2 & G2 & E2); [done|lia|lia|apply G1|by right|by left; lia|].
  exists s2. split; [exact G2|]. unfold rest. rewrite length_app, Lp in E2. rewrite <- !app_assoc in E2. replace (Z.succ i) with (i + 1) by lia.
  replace (Z.of_nat (length a + 32)) with (Z.of_nat (length a) + FAT_ENTRY) in E2 by (unfold FAT_ENTRY; lia). rewrite E2. f_equal. unfold FAT_ENTRY. lia.
Qed.

(** What a character is read back as. *)
Definition seen (c : ascii) : ascii := if code_of c <? 0x80 then c else char_of 95.
Definition no_nul (name : str) : Prop := Forall (λ c, code_of c ≠ 0) name.
Lemma lfn_text_app name rest : no_nul name → lfn_text (map code_of name ++ rest) = map seen name ++ lfn_text rest.
Proof.
  induction 1 as [|c name Hc _ IH]; [done|]. cbn [map app lfn_text]. pose proof (code_of_bound c).
  destruct (Z.eqb_spec (code_of c) 0); [done|]. destruct (Z.eqb_spec (code_of c) 0xFFFF); [lia|]. cbn [orb]. rewrite IH. f_equal.
  unfold seen. destruct (code_of c <? 128); [apply char_of_code|done].
Qed.
Lemma full_chars name : map (full_char name) (seqZ 0 (strlenZ name)) = map code_of name.
Proof.
  unfold strlenZ. apply list_eq. intros i. rewrite !list_lookup_fmap. destruct (name !! i) as [c|] eqn:Ec.
  - pose proof (lookup_lt_Some _ _ _ Ec). rewrite (proj2 (lookup_seqZ 0 _ i (Z.of_nat i))) by lia. cbn [fmap option_fmap option_map].
    f_equal. unfold full_char, lookupZ. destruct (Z.ltb_spec (Z.of_nat i) 0); [lia|]. by rewrite Nat2Z.id, Ec.
  - apply lookup_ge_None in Ec. rewrite lookup_ge_None_2; [done|]. rewrite length_seqZ. lia.
Qed.
Lemma lfn_text_full name k : no_nul name → strlenZ name <= k → lfn_text (map (full_char name) (seqZ 0 k)) = map seen name.
Proof.
  intros Hn Hk. unfold strlenZ in *. rewrite (seqZ_split k (Z.of_nat (length name))) by lia. rewrite map_app. 
  pose proof (full_chars name) as F. unfold strlenZ in F. rewrite F, lfn_text_app by done.
  destruct (decide (k = Z.of_nat (length name))) as [->|]; [by rewrite Z.sub_diag, app_nil_r|].
  rewrite seqZ_cons by lia. cbn [map lfn_text]. unfold full_char at 1. unfold lookupZ. destruct (Z.ltb_spec (Z.of_nat (length name)) 0); [lia|].
  rewrite lookup_ge_None_2 by lia. unfold strlenZ. rewrite Z.eqb_refl. cbn. by rewrite app_nil_r.
Qed.
Lemma gathered_text name sum count s :
  gathered name sum count count s → 0 < count <= 20 → no_nul name → strlenZ name <= count * FAT_LFN_CHARS → strlenZ name < Z.of_nat VFS_NAME_MAX →
  lfn_text (take (Nat.min (Z.to_nat (sc_count s * FAT_LFN_CHARS)) (VFS_NAME_MAX - 1)) (sc_lfn s)) = map seen name.
Proof.
  intros [L -> _ F] Hc Hn Hle Hlt. set (k := Nat.min _ _).
  assert (Hk : Z.of_nat k <= FAT_LFN_CHARS * count ∧ strlenZ name <= Z.of_nat k) by (unfold k, FAT_LFN_CHARS, VFS_NAME_MAX in *; lia).
  rewrite <- (lfn_text_full name (Z.of_nat k)) by (done || lia). f_equal. apply list_eq. intros i. rewrite lookup_take, list_lookup_fmap. destruct (decide (i < k)%nat).
  - rewrite (proj2 (lookup_seqZ 0 _ i (Z.of_nat i))) by lia. specialize (F (Z.of_nat i)). unfold lookupZ in F.
    destruct (Z.ltb_spec (Z.of_nat i) 0); [lia|]. rewrite Nat2Z.id in F. apply F. rewrite Z.sub_diag. lia.
  - rewrite lookup_ge_None_2; [done|]. rewrite length_seqZ. lia.
Qed.

(** ** Lemmas: short names *)
Record short_ok (short : list Z) : Prop := {
  so_length : length short = 11%nat;
  so_first : ∃ c l, short = c :: l ∧ c ≠ 0 ∧ c ≠ 0xE5 ∧ c ≠ 46
}.
Lemma short_char_first c : fat_short_char c = true → c ≠ 0 ∧ c ≠ 0xE5 ∧ c ≠ 46.
Proof.
  unfold fat_short_char. intros Hc. split_and!; intros ->; vm_compute in Hc; discriminate.
Qed.
Lemma pad_length n l : length (pad n l) = n.
Proof. unfold pad. rewrite length_take, length_app, length_replicate. lia. Qed.
Lemma short_base_first a : ∃ c l, short_base a = c :: l ∧ c ≠ 0 ∧ c ≠ 0xE5 ∧ c ≠ 46.
Proof.
  unfold short_base. destruct (short_chars 6 a) as [|c l] eqn:E; [by exists 95, []|]. exists c, l. split; [done|]. apply short_char_first.
  assert (Hin : c ∈ short_chars 6 a) by (rewrite E; by apply elem_of_cons; left). unfold short_chars in Hin.
  apply elem_of_take in Hin as (i & Hi & _). apply list_elem_of_lookup_2, list_elem_of_filter in Hi as [Hi _]. by apply Is_true_true in Hi.
Qed.
Lemma short_candidate_ok a ext num : short_ok (short_candidate (short_base a) ext num).
Proof.
  constructor; [unfold short_candidate; by rewrite length_app, !pad_length|].
  destruct (short_base_first a) as (c & l & E & Hc). unfold short_candidate. rewrite E. set (tail := 126 :: _). set (pos := Nat.min _ _).
  destruct pos as [|pos]; unfold pad; cbn [take app]; do 2 eexists; (split; [reflexivity|]); [by unfold tail|exact Hc].
Qed.

(** ** Lemmas: the entry of a node *)
Lemma fat_stamp_words r : word (fat_stamp r).1 ∧ word (fat_stamp r).2.
Proof.
  unfold fat_stamp, word, u16. destruct (_ && _); cbn [fst snd]; [|by vm_compute].
  split; apply (Z.mod_pos_bound _ (2 ^ 16)); lia.
Qed.
Lemma u16_word x : word (u16 x).
Proof. unfold word, u16. apply (Z.mod_pos_bound _ (2 ^ 16)). lia. Qed.
Lemma cluster_halves c : 0 <= c < 2 ^ 32 → Z.lor (Z.shiftl (u16 (Z.shiftr c 16)) 16) (u16 c) = c.
Proof.
  intros Hc. apply Z.bits_inj'. intros i Hi. unfold u16. rewrite Z.lor_spec, Z.shiftl_spec by lia. destruct (decide (i < 16)).
  - rewrite (Z.testbit_neg_r _ (i - 16)) by lia. by rewrite Z.mod_pow2_bits_low by lia.
  - rewrite (Z.mod_pow2_bits_high c 16 i) by lia. rewrite orb_false_r. destruct (decide (i < 32)).
    + rewrite Z.mod_pow2_bits_low, Z.shiftr_spec by lia. f_equal. lia.
    + rewrite Z.mod_pow2_bits_high by lia. symmetry. rewrite <- (Z.mod_small c (2 ^ 32)) by lia. apply Z.mod_pow2_bits_high. lia.
Qed.
(** The entry a name ends with. *)
Definition node_entry (short : list Z) (attr cluster size : Z) (r : Z * RtcTime) : FatDirent :=
  set_de_size size (set_de_cluster cluster (fat_timestamp r true (set_de_name short attr zero_dirent))).
Lemma node_entry_ok short attr cluster size r :
  length short = 11%nat → 0 <= size < 2 ^ 32 → dirent_ok (node_entry short attr cluster size r).
Proof.
  intros L Hs. pose proof (fat_stamp_words r) as [W1 W2]. unfold node_entry, fat_timestamp. destruct (fat_stamp r) as [ti da].
  constructor; cbn; [done|done|split; apply u16_word|done].
Qed.

(** The pieces a name of [len] characters needs. *)
Lemma piece_count len : 0 < len < 64 → let k := div_ceil len FAT_LFN_CHARS in 0 < k <= 5 ∧ len <= k * FAT_LFN_CHARS.
Proof.
  intros Hl. unfold div_ceil, FAT_LFN_CHARS. rewrite (u64_small (len + 13)) by lia. rewrite u64_small by lia. cbv zeta.
  pose proof (Z.div_mod (len + 13 - 1) 13 ltac:(lia)). pose proof (Z.mod_pos_bound (len + 13 - 1) 13 ltac:(lia)). lia.
Qed.

Lemma pieces_length name sum count (m : nat) i :
  Z.of_nat (length (seqZ i (Z.of_nat m) ≫= λ i, lfn_bytes (lfn_entry name sum count i))) = FAT_ENTRY * Z.of_nat m.
Proof.
  revert i. induction m as [|m IH]; intros i; [done|]. rewrite seqZ_cons, bind_cons, length_app by lia.
  destruct (read_lfn_bytes _ (lfn_entry_ok name sum count i)) as [_ ->].
  replace (Z.pred (Z.of_nat (S m))) with (Z.of_nat m) by lia. rewrite Nat2Z.inj_add, IH. unfold FAT_ENTRY. lia.
Qed.
(** The entry of a node whose long name was gathered. *)
Lemma scan_entry_node e name count c l s :
  read_dirent (dirent_bytes e) = Some e → de_name e = c :: l → c ≠ 0 → c ≠ 0xE5 → c ≠ 46 → de_attr e = FAT_ATTR_DIR ∨ de_attr e = FAT_ATTR_ARCHIVE →
  gathered name (fat_checksum (de_name e)) count count s → 0 < count <= 20 → no_nul name → strlenZ name <= count * FAT_LFN_CHARS →
  strlenZ name < Z.of_nat VFS_NAME_MAX →
  scan_entry (dirent_bytes e) s = Some (ScanNode e (map seen name) count (scan_forget s)).
Proof.
  intros Re En C0 CE CD Ha G Hc Hnul Hle Hlt. assert (Hd : de_name e !!z 0 = Some c) by (rewrite En; reflexivity).
  unfold scan_entry. rewrite Re. cbn [mbind option_bind]. rewrite Hd. cbn [mbind option_bind].
  rewrite (proj2 (Z.eqb_neq c 0)), (proj2 (Z.eqb_neq c 0xE5)), (proj2 (Z.eqb_neq c 46)) by done.
  replace (de_attr e =? FAT_ATTR_LFN) with false by (destruct Ha as [->| ->]; reflexivity).
  replace (Z.land (de_attr e) FAT_ATTR_VOLUME =? 0) with true by (destruct Ha as [->| ->]; reflexivity). cbn [negb orb].
  unfold scan_name. pose proof (ga_count _ _ _ _ _ G) as Ec. pose proof (ga_sum _ _ _ _ _ G) as Esum. rewrite Ec, Esum, Z.eqb_refl.
  destruct (Z.eqb_spec count 0); [lia|]. cbn [negb andb]. rewrite u8_small by lia. rewrite <- Ec.
  by rewrite (gathered_text name _ count s G).
Qed.

(** C25 (roundtrip) [name_entries, lfn_entry, lfn_chars, fat_checksum, short_candidate, scan_entry, scan_lfn, scan_name]
    The entries written for a name are read back: wherever they lie in a directory, and whatever long
    name was begun before them, the scan finds one node with that name (characters
    above 127 become underscores), and with the cluster, size and kind that were written. *)
Theorem name_entries_scanned name ext num attr cluster size r a b n s :
  let short := short_candidate (short_base (split_dot name).1) ext num in
  let count := div_ceil (strlenZ name) FAT_LFN_CHARS in
  let buf := a ++ name_entries name short count attr cluster size r ++ b in
  0 < strlenZ name < Z.of_nat VFS_NAME_MAX → no_nul name → attr = FAT_ATTR_DIR ∨ attr = FAT_ATTR_ARCHIVE →
  0 <= cluster < 2 ^ 32 → 0 <= size < 2 ^ 32 → length (sc_lfn s) = 261%nat →
  ∃ e s', scan_bytes (S (Z.to_nat count) + n) (Z.of_nat (length a)) buf s =
      (λ l, (e, map seen name, count) :: l) <$> scan_bytes n (Z.of_nat (length a) + FAT_ENTRY * (count + 1)) buf s' ∧
    de_name e = short ∧ de_attr e = attr ∧ dirent_cluster e = cluster ∧ de_size e = size ∧ length (sc_lfn s') = 261%nat ∧ sc_count s' = 0.
Proof.
  intros short count buf Hn Hnul Hattr Hcl Hsz Hl. destruct (piece_count (strlenZ name) Hn) as [Hc Hle]. fold count in Hc, Hle.
  pose proof (short_candidate_ok (split_dot name).1 ext num) as So. fold short in So. clearbody short count. destruct So as [Ls (c & l & Es & C0 & CE & CD)].
  set (e := node_entry short attr cluster size r). pose proof (node_entry_ok short attr cluster size r Ls Hsz) as Eok. fold e in Eok.
  destruct (read_dirent_bytes e Eok) as [Re Le].
  assert (Fe : de_name e = short ∧ de_attr e = attr ∧ dirent_cluster e = cluster ∧ de_size e = size).
  { unfold e, node_entry, fat_timestamp. destruct (fat_stamp r) as [ti da]. split_and!; [reflexivity|reflexivity| |reflexivity]. unfold dirent_cluster. cbn [de_cluster_hi de_cluster_lo set_de_size set_de_cluster]. exact (cluster_halves cluster Hcl). }
  destruct Fe as (Fn & Fa & Fc & Fs).
  set (ps := seqZ 0 count ≫= λ i, lfn_bytes (lfn_entry name (fat_checksum short) count i)).
  assert (Eb : buf = a ++ ps ++ (dirent_bytes e ++ b)) by (unfold buf, name_entries; by rewrite <- app_assoc).
  destruct (scan_pieces name (fat_checksum short) count (Z.to_nat count) (S n) 0 a (dirent_bytes e ++ b) s) as (s1 & G1 & E1);
    [lia|lia|lia|done|by left|right; lia|].
  rewrite Z2Nat.id in E1 by lia. fold ps in E1. rewrite <- Eb in E1.
  replace (S (Z.to_nat count) + n)%nat with (Z.to_nat count + S n)%nat by lia. rewrite E1. clear E1. cbn [scan_bytes].
  assert (Lp : Z.of_nat (length ps) = FAT_ENTRY * count).
  { pose proof (pieces_length name (fat_checksum short) count (Z.to_nat count) 0) as P. rewrite Z2Nat.id in P by lia. exact P. }
  assert (R : read_range buf (Z.of_nat (length a) + FAT_ENTRY * count) FAT_ENTRY = Some (dirent_bytes e)).
  { rewrite Eb, app_assoc. rewrite read_range_spec by (rewrite ?length_app, ?Le; unfold FAT_ENTRY in *; lia). unfold spec_read.
    rewrite <- Lp, <- Nat2Z.inj_add, <- length_app, Nat2Z.id, drop_app_length. f_equal. rewrite take_app_le by (rewrite Le; done). apply take_ge. by rewrite Le. }
  rewrite R. cbn [mbind option_bind].
  rewrite <- Fn in Es, G1. rewrite <- Fa in Hattr.
  rewrite (scan_entry_node e name count c l s1 Re Es C0 CE CD Hattr G1) by (done || lia).
  cbn [mbind option_bind]. exists e, (scan_forget s1). split_and!; try done; [|apply G1].
  replace (Z.of_nat (length a) + FAT_ENTRY * (count + 1)) with (Z.of_nat (length a) + FAT_ENTRY * count + FAT_ENTRY) by lia.
  by destruct (scan_bytes n _ buf _).
Qed.

Lemma name_entries_scanned_witness :
  let name := to_str "Quarterly report.text" in
  let short := short_candidate (short_base (split_dot name).1) [84; 69; 88] 1 in
  ∃ e s', scan_bytes 4 2 ([7; 8] ++ name_entries name short 2 FAT_ATTR_ARCHIVE 77 1234 (0, MkRtcTime 2026 7 1 12 30 0 3) ++ replicate 32 0) scan_start =
      (λ l, (e, name, 2) :: l) <$> scan_bytes 1 98 ([7; 8] ++ name_entries name short 2 FAT_ATTR_ARCHIVE 77 1234 (0, MkRtcTime 2026 7 1 12 30 0 3) ++ replicate 32 0) s' ∧
    de_name e = short ∧ de_attr e = FAT_ATTR_ARCHIVE ∧ dirent_cluster e = 77 ∧ de_size e = 1234 ∧ length (sc_lfn s') = 261%nat ∧ sc_count s' = 0.
Proof.
  apply (name_entries_scanned (to_str "Quarterly report.text") [84; 69; 88] 1 FAT_ATTR_ARCHIVE 77 1234 (0, MkRtcTime 2026 7 1 12 30 0 3) [7; 8] (replicate 32 0) 1 scan_start);
    [vm_compute; done|repeat apply list.Forall_cons_2; try (by vm_compute); apply list.Forall_nil_2|by right|lia|lia|reflexivity].
Defined.
