(* ===== verification/FatVol.v ===== *)
(** * kernel/filesystem/fat32.c: directories, files and volumes

    The operations behind [fat_ops], mounting and formatting.  The state [vol] has the nodes of
    the virtual file system, the [FatNode]s and the [Fat32]s by address, the block layer and
    the clock; [on_fn] and [on_fat32] run the operations of Fat.v on one of them. *)
From S2P Require Import Prelude RawMem Pmm Heap VfsTypes Ramfs Block Fat Rtc FatDir.
Local Open Scope kernel_scope.

(** [sizeof(FatNode)] and [sizeof(Fat32)]. *)
Definition SIZEOF_FAT_NODE : Z := 40.
Definition SIZEOF_FAT32 : Z := 568.
Definition zero_fat_node : FatNode := MkFatNode 0 0 0 0 (replicate 11 0) false 0 0.
Definition zero_fat32 : Fat32 := MkFat32 (-1) 0 0 0 0 0 0 0 0 0 0 false false (replicate 512 0).

Section FatVol.
Context {H : Type} `{KM : KernelMem H} {B : Type} `{BA : BlockApi B} {C : Type} `{CK : Clock C}.
(** The address of the static table [fat_ops]. *)
Context (fat_ops : Z).

Record vol := Vol { vo_fs : fs H; vo_fns : gmap Z FatNode; vo_fats : gmap Z Fat32; vo_blk : B; vo_clk : C }.
Definition on_vfs {A} (m : M (fs H) A) : M vol A :=
  zoom vo_fs (λ x s, Vol x (vo_fns s) (vo_fats s) (vo_blk s) (vo_clk s)) m.
Definition on_vblk {A} (m : M B A) : M vol A :=
  zoom vo_blk (λ b s, Vol (vo_fs s) (vo_fns s) (vo_fats s) b (vo_clk s)) m.
Definition on_clk {A} (m : M C A) : M vol A :=
  zoom vo_clk (λ c s, Vol (vo_fs s) (vo_fns s) (vo_fats s) (vo_blk s) c) m.
Definition on_vmem {A} (m : M H A) : M vol A := on_vfs (on_fs_mem m).
Definition set_fns (m : gmap Z FatNode) (s : vol) : vol := Vol (vo_fs s) m (vo_fats s) (vo_blk s) (vo_clk s).
Definition set_fats (m : gmap Z Fat32) (s : vol) : vol := Vol (vo_fs s) (vo_fns s) m (vo_blk s) (vo_clk s).
Definition set_mem (h : H) (x : fs H) : fs H := Fs h (fs_nodes x) (fs_files x) (fs_mounts x).

Definition fatnode (p : Z) : M vol FatNode := s ← get; lift (vo_fns s !! p).
Definition fatnode_upd (p : Z) (f : FatNode → FatNode) : M vol unit := n ← fatnode p; modify (λ s, set_fns (<[p := f n]> (vo_fns s)) s).
Definition fat32_at (p : Z) : M vol Fat32 := s ← get; lift (vo_fats s !! p).
(** Run an operation on the file system at [p], and on the node at [p] with its file system. *)
Definition on_fat32 {A} (p : Z) (m : M (fatst (H := H) (B := B)) A) : M vol A :=
  s ← get;
  f ← fat32_at p;
  r ← lift (m (Fatst f (vo_blk s) (fs_mem (vo_fs s))));
  modify (λ s, Vol (set_mem (fa_mem r.2) (vo_fs s)) (vo_fns s) (<[p := fa_fs r.2]> (vo_fats s)) (fa_blk r.2) (vo_clk s));;
  mret r.1.
Definition on_fn {A} (p : Z) (m : M (fnst (H := H) (B := B)) A) : M vol A :=
  s ← get;
  n ← fatnode p;
  f ← fat32_at (fn_fs n);
  r ← lift (m (Fnst n (Fatst f (vo_blk s) (fs_mem (vo_fs s)))));
  let x := fx_fat r.2 in
  modify (λ s, Vol (set_mem (fa_mem x) (vo_fs s)) (<[p := fx_node r.2]> (vo_fns s)) (<[fn_fs n := fa_fs x]> (vo_fats s)) (fa_blk x) (vo_clk s));;
  mret r.1.

(** [kcalloc] and [kfree] of the two structures. *)
Definition alloc_fatnode : M vol Z :=
  p ← on_vmem (km_kmalloc SIZEOF_FAT_NODE);
  if p =? 0 then mret 0 else modify (λ s, set_fns (<[p := zero_fat_node]> (vo_fns s)) s);; mret p.
Definition free_fatnode (p : Z) : M vol unit :=
  if p =? 0 then mret tt else on_vmem (km_kfree p);; modify (λ s, set_fns (delete p (vo_fns s)) s).
Definition alloc_fat32 : M vol Z :=
  p ← on_vmem (km_kmalloc SIZEOF_FAT32);
  if p =? 0 then mret 0 else modify (λ s, set_fats (<[p := zero_fat32]> (vo_fats s)) s);; mret p.
Definition free_fat32 (p : Z) : M vol unit :=
  if p =? 0 then mret tt else on_vmem (km_kfree p);; modify (λ s, set_fats (delete p (vo_fats s)) s).
(** The stamp of now. *)
Definition stamped (created : bool) (e : FatDirent) : M vol FatDirent := r ← on_clk clk_rtc_read; mret (fat_timestamp r created e).

(** ** Nodes *)

(** [kernel/filesystem/fat32.c: fat_new_vnode] *)
Definition fat_new_vnode (dir : Z) (name : str) (type : VNodeType) (size fn : Z) : M vol Z :=
  n ← on_vfs alloc_vnode;
  if n =? 0 then mret 0
  else
    on_vfs (vnode_upd n (λ v, set_parent dir (set_private fn (set_ops fat_ops (set_size size (set_type type (set_name (take (VFS_NAME_MAX - 1) name) v)))))));;
    (if dir =? 0 then mret tt
     else
       fuel ← on_vfs node_fuel;
       pp ← on_vfs (find_link fuel (FirstChild dir) 0);
       on_vfs (write_link pp n));;
    mret n.
(** The [FatNode] of a node. *)
Definition private_of (node : Z) : M vol Z := n ← on_vfs (vnode node); mret (v_private n).

(** ** Reading a directory *)

(** The entries of a cluster, [off] onwards; [None] is [goto done].
    [kernel/filesystem/fat32.c: fat_load_dir 428-504] *)
Fixpoint load_entries (n : nat) (off index dir fsp : Z) (buf : list Z) (sc : LfnScan) : M vol (option LfnScan) :=
  match n with
  | O => mret (Some sc)
  | S n' =>
      bs ← lift (read_range buf off FAT_ENTRY);
      r ← lift (scan_entry bs sc);
      match r with
      | ScanEnd => mret None
      | ScanNext sc => load_entries n' (off + FAT_ENTRY) index dir fsp buf sc
      | ScanNode e name used_lfn sc =>
          fn ← alloc_fatnode;
          if fn =? 0 then mret None
          else
            f ← fat32_at fsp;
            fatnode_upd fn (λ _, MkFatNode fsp (dirent_cluster e) (u32 (index * ft_cluster_bytes f + off)) used_lfn (de_name e) false 0 0);;
            let is_dir := negb (Z.land (de_attr e) FAT_ATTR_DIR =? 0) in
            v ← fat_new_vnode dir name (if is_dir then VNODE_DIR else VNODE_FILE) (if is_dir then 0 else de_size e) fn;
            if v =? 0 then free_fatnode fn;; mret None
            else load_entries n' (off + FAT_ENTRY) index dir fsp buf sc
      end
  end.
(** Cluster [index] onwards. A chain that runs into itself is read for ever: out of fuel.
    [kernel/filesystem/fat32.c: fat_load_dir 422-505] *)
Fixpoint load_clusters (fuel : nat) (index dir dn fsp : Z) (sc : LfnScan) : M vol unit :=
  c ← on_fn dn (fat_cluster_at index);
  if c =? 0 then mret tt
  else
    f ← fat32_at fsp;
    r ← on_vblk (ba_read (ft_dev f) (fat_lba f c) (ft_spc f));
    if negb (r.1 =? 0) then mret tt
    else
      x ← load_entries (Z.to_nat (ft_cluster_bytes f / FAT_ENTRY)) 0 index dir fsp r.2 sc;
      match x with
      | None => mret tt
      | Some sc => match fuel with O => fail | S fuel' => load_clusters fuel' (u32 (index + 1)) dir dn fsp sc end
      end.
(** [kernel/filesystem/fat32.c: fat_load_dir] *)
Definition fat_load_dir (dir : Z) : M vol unit :=
  dn ← private_of dir;
  n ← fatnode dn;
  if fn_loaded n then mret tt
  else
    fatnode_upd dn (set_fn_loaded true);;
    f ← fat32_at (fn_fs n);
    buf ← on_vmem (km_kmalloc (ft_cluster_bytes f));
    if buf =? 0 then mret tt
    else
      load_clusters (S (Z.to_nat (ft_cluster_count f))) 0 dir dn (fn_fs n) scan_start;;
      on_vmem (km_kfree buf).

(** [kernel/filesystem/fat32.c: fat_lookup 516-518] *)
Fixpoint fat_lookup_loop (fuel : nat) (c : Z) (name : str) : M vol Z :=
  if c =? 0 then mret 0
  else match fuel with
  | O => fail
  | S fuel' => n ← on_vfs (vnode c); if fat_name_eq (v_name n) name then mret c else fat_lookup_loop fuel' (v_next_sibling n) name
  end.
(** [kernel/filesystem/fat32.c: fat_lookup] *)
Definition fat_lookup (dir : Z) (name : str) : M vol Z :=
  d ← on_vfs (vnode dir);
  if negb (bool_decide (v_type d = VNODE_DIR)) then mret 0
  else
    fat_load_dir dir;;
    d ← on_vfs (vnode dir);
    fuel ← on_vfs node_fuel;
    fat_lookup_loop fuel (v_first_child d) name.
(** [kernel/filesystem/fat32.c: fat_readdir 526-533] *)
Fixpoint fat_readdir_loop (fuel : nat) (c idx i : Z) : M vol (Z * str) :=
  if c =? 0 then mret (-1, [])
  else match fuel with
  | O => fail
  | S fuel' => n ← on_vfs (vnode c); if idx =? i then mret (0, v_name n) else fat_readdir_loop fuel' (v_next_sibling n) (idx + 1) i
  end.
(** [kernel/filesystem/fat32.c: fat_readdir] *)
Definition fat_readdir (dir i : Z) : M vol (Z * str) :=
  fat_load_dir dir;;
  d ← on_vfs (vnode dir);
  fuel ← on_vfs node_fuel;
  fat_readdir_loop fuel (v_first_child d) 0 i.

(** ** Writing a directory *)

(** [kernel/filesystem/fat32.c: fat_short_taken] *)
Fixpoint short_taken_loop (fuel : nat) (c : Z) (name : list Z) : M vol bool :=
  if c =? 0 then mret false
  else match fuel with
  | O => fail
  | S fuel' =>
      v ← on_vfs (vnode c);
      n ← fatnode (v_private v);
      if decide (fn_short_name n = name) then mret true else short_taken_loop fuel' (v_next_sibling v) name
  end.
Definition fat_short_taken (dir : Z) (name : list Z) : M vol bool :=
  d ← on_vfs (vnode dir); fuel ← on_vfs node_fuel; short_taken_loop fuel (v_first_child d) name.

(** [kernel/filesystem/fat32.c: fat_make_short 574-594] *)
Fixpoint make_short_loop (fuel : nat) (dir : Z) (base ext : list Z) (num : Z) : M vol (Z * list Z) :=
  match fuel with
  | O => mret (-1, short_candidate base ext num)
  | S fuel' =>
      t ← fat_short_taken dir (short_candidate base ext num);
      if (t : bool) then make_short_loop fuel' dir base ext (num + 1) else mret (0, short_candidate base ext num)
  end.
(** [kernel/filesystem/fat32.c: fat_make_short] *)
Definition fat_make_short (dir : Z) (name : str) : M vol (Z * list Z) :=
  let '(a, b) := split_dot name in
  make_short_loop (Z.to_nat 999999) dir (short_base a) (short_chars 3 b) 1.

(** What the scan of a cluster for free entries comes to. *)
Inductive Slots := SlotsFound (run_start : Z) | SlotsEnd (run_start : Z) | SlotsMore (run run_start : Z).
(** Entries from [off], the first being at [pos] of the directory. [kernel/filesystem/fat32.c: fat_find_slots 617-640] *)
Fixpoint slots_in (n : nat) (off pos : Z) (buf : list Z) (needed run run_start : Z) : option Slots :=
  match n with
  | O => Some (SlotsMore run run_start)
  | S n' =>
      b ← buf !!z off;
      if b =? 0x00 then Some (SlotsEnd (if run =? 0 then pos else run_start))
      else if b =? 0xE5 then
        let run_start := if run =? 0 then pos else run_start in
        let run := u32 (run + 1) in
        if run =? needed then Some (SlotsFound run_start)
        else slots_in n' (off + FAT_ENTRY) (pos + FAT_ENTRY) buf needed run run_start
      else slots_in n' (off + FAT_ENTRY) (pos + FAT_ENTRY) buf needed 0 run_start
  end.
(** Where the entries can go: found, or to be made room for; [None] after a failed read.
    [kernel/filesystem/fat32.c: fat_find_slots 604-643] *)
Fixpoint find_slots_loop (fuel : nat) (index dn fsp needed run run_start : Z) : M vol (option (bool * Z)) :=
  c ← on_fn dn (fat_cluster_at index);
  f ← fat32_at fsp;
  if c =? 0 then mret (Some (false, if run =? 0 then u64 (index * ft_cluster_bytes f) else run_start))
  else
    r ← on_vblk (ba_read (ft_dev f) (fat_lba f c) (ft_spc f));
    if negb (r.1 =? 0) then mret None
    else
      x ← lift (slots_in (Z.to_nat (ft_cluster_bytes f / FAT_ENTRY)) 0 (u64 (index * ft_cluster_bytes f)) r.2 needed run run_start);
      match x with
      | SlotsFound p => mret (Some (true, p))
      | SlotsEnd p => mret (Some (false, p))
      | SlotsMore run run_start =>
          match fuel with O => fail | S fuel' => find_slots_loop fuel' (u32 (index + 1)) dn fsp needed run run_start end
      end.
(** [kernel/filesystem/fat32.c: fat_find_slots] *)
Definition fat_find_slots (dn needed : Z) : M vol Z :=
  n ← fatnode dn;
  f ← fat32_at (fn_fs n);
  buf ← on_vmem (km_kmalloc (ft_cluster_bytes f));
  if buf =? 0 then mret (-1)
  else
    x ← find_slots_loop (S (Z.to_nat (ft_cluster_count f))) 0 dn (fn_fs n) needed 0 0;
    on_vmem (km_kfree buf);;
    match x with
    | None => mret (-1)
    | Some (true, p) => mret p
    | Some (false, p) =>
        rc ← on_fn dn (fat_extend (u32 (div_ceil (u64 (p + u32 (needed * FAT_ENTRY))) (ft_cluster_bytes f))) true);
        if negb (rc =? 0) then mret (-1) else mret (s64 p)
    end.

(** [fn] is the address of the node of the new entry. [kernel/filesystem/fat32.c: fat_add_entry] *)
Definition fat_add_entry (dir : Z) (name : str) (attr cluster size fn : Z) : M vol Z :=
  dn ← private_of dir;
  if (strlenZ name =? 0) || (Z.of_nat VFS_NAME_MAX <=? strlenZ name) then mret (-1)
  else
    m ← fat_make_short dir name;
    if negb (m.1 =? 0) then mret (-1)
    else
      let lfn_count := div_ceil (strlenZ name) FAT_LFN_CHARS in
      let total := lfn_count + 1 in
      pos ← fat_find_slots dn total;
      if pos <? 0 then mret (-1)
      else
        r ← on_clk clk_rtc_read;
        w ← on_fn dn (fat_io pos (name_entries name m.2 lfn_count attr cluster size r) (total * FAT_ENTRY) true);
        if negb (w.1 =? total * FAT_ENTRY) then mret (-1)
        else fatnode_upd fn (set_entry (u32 (u32 pos + lfn_count * FAT_ENTRY)) (u8 lfn_count) m.2);; mret 0.

(** Entries [k] onwards of the node [fn]. [kernel/filesystem/fat32.c: fat_remove_entry 713-715] *)
Fixpoint remove_entry_loop (n : nat) (k dn : Z) (fn : FatNode) : M vol Z :=
  match n with
  | O => mret 0
  | S n' =>
      w ← on_fn dn (fat_io (u32 (fn_entry_offset fn - u32 (k * FAT_ENTRY))) [0xE5] 1 true);
      if negb (w.1 =? 1) then mret (-1) else remove_entry_loop n' (k + 1) dn fn
  end.
(** [kernel/filesystem/fat32.c: fat_remove_entry] *)
Definition fat_remove_entry (dir : Z) (fn : FatNode) : M vol Z :=
  dn ← private_of dir; remove_entry_loop (S (Z.to_nat (fn_lfn_count fn))) 0 dn fn.

(** [kernel/filesystem/fat32.c: fat_update_entry] *)
Definition fat_update_entry (node : Z) : M vol Z :=
  v ← on_vfs (vnode node);
  if v_parent v =? 0 then mret 0
  else
    fn ← fatnode (v_private v);
    dn ← private_of (v_parent v);
    r ← on_fn dn (fat_io (fn_entry_offset fn) [] FAT_ENTRY false);
    if negb (r.1 =? FAT_ENTRY) then mret (-1)
    else
      e ← lift (read_dirent r.2);
      let e := set_de_cluster (fn_cluster fn) e in
      let e := set_de_size (if decide (v_type v = VNODE_DIR) then 0 else u32 (v_size v)) e in
      e ← stamped false e;
      w ← on_fn dn (fat_io (fn_entry_offset fn) (dirent_bytes e) FAT_ENTRY true);
      mret (if w.1 =? FAT_ENTRY then 0 else -1).

(** [kernel/filesystem/fat32.c: fat_dot_entry] *)
Definition fat_dot_entry (name : list Z) (cluster : Z) : M vol FatDirent :=
  e ← stamped true (set_de_name (pad 11 name) FAT_ATTR_DIR zero_dirent);
  mret (set_de_cluster cluster e).
(** [kernel/filesystem/fat32.c: fat_dir_cluster] *)
Definition fat_dir_cluster (dir : Z) : M vol Z :=
  d ← on_vfs (vnode dir); dn ← fatnode (v_private d); mret (if v_parent d =? 0 then 0 else fn_cluster dn).

(** ** The operations of [fat_ops] *)

(** [kernel/filesystem/fat32.c: fat_create] *)
Definition fat_create (dir : Z) (name : str) (type : VNodeType) : M vol Z :=
  if bool_decide (type ≠ VNODE_FILE ∧ type ≠ VNODE_DIR) then mret 0
  else
    x ← fat_lookup dir name;
    if negb (x =? 0) then mret 0
    else
      dn ← private_of dir;
      d ← fatnode dn;
      let fsp := fn_fs d in
      fn ← alloc_fatnode;
      if fn =? 0 then mret 0
      else
        fatnode_upd fn (λ n, MkFatNode fsp (fn_cluster n) (fn_entry_offset n) (fn_lfn_count n) (fn_short_name n) true (fn_hint_index n) (fn_hint_cluster n));;
        let cleanup : M vol Z :=
          n ← fatnode fn; on_fat32 fsp (fat_free_chain (fn_cluster n));; on_fat32 fsp fat_cache_flush;; free_fatnode fn;; mret 0 in
        ok ← (if decide (type = VNODE_DIR) then
                c ← on_fat32 fsp (fat_alloc 0 true);
                fatnode_upd fn (set_fn_cluster c);;
                if c =? 0 then mret false
                else
                  dot ← fat_dot_entry [46] c;
                  up ← fat_dir_cluster dir;
                  dotdot ← fat_dot_entry [46; 46] up;
                  w ← on_fn fn (fat_io 0 (dirent_bytes dot ++ dirent_bytes dotdot) (2 * FAT_ENTRY) true);
                  mret (w.1 =? 2 * FAT_ENTRY)
              else mret true);
        if negb (ok : bool) then cleanup
        else
          n ← fatnode fn;
          rc ← fat_add_entry dir name (if decide (type = VNODE_DIR) then FAT_ATTR_DIR else FAT_ATTR_ARCHIVE) (fn_cluster n) 0 fn;
          if negb (rc =? 0) then cleanup
          else
            v ← fat_new_vnode dir name type 0 fn;
            if v =? 0 then cleanup else on_fat32 fsp fat_cache_flush;; mret v.

(** The count and the bytes. [kernel/filesystem/fat32.c: fat_read] *)
Definition fat_read (node count offset : Z) : M vol (Z * list Z) :=
  v ← on_vfs (vnode node);
  if negb (bool_decide (v_type v = VNODE_FILE)) || (v_size v <=? offset) then mret (0, [])
  else on_fn (v_private v) (fat_io offset [] (Z.min count (v_size v - offset)) false).

(** [kernel/filesystem/fat32.c: fat_write], [count] being the length of [buf]. *)
Definition fat_write (node : Z) (buf : list Z) (offset : Z) : M vol Z :=
  let count := Z.of_nat (length buf) in
  v ← on_vfs (vnode node);
  if negb (bool_decide (v_type v = VNODE_FILE)) then mret (-1)
  else if count =? 0 then mret 0
  else
    let fp := v_private v in
    old ← fatnode fp;
    f ← fat32_at (fn_fs old);
    let end_ := u64 (offset + count) in
    if 0xFFFFFFFF <? end_ then mret (-1)
    else
      rc ← on_fn fp (fat_extend (u32 (div_ceil end_ (ft_cluster_bytes f))) false);
      if negb (rc =? 0) then on_fat32 (fn_fs old) fat_cache_flush;; mret (-1)
      else
        n ← fatnode fp;
        (if negb (fn_hint_cluster old =? 0) && (fn_cluster n =? fn_cluster old) && (fn_hint_index old <=? offset / ft_cluster_bytes f)
         then fatnode_upd fp (set_hint (fn_hint_index old) (fn_hint_cluster old)) else mret tt);;
        w ← on_fn fp (fat_io offset buf count true);
        v ← on_vfs (vnode node);
        (if (0 <? w.1) && (v_size v <? u64 (offset + w.1)) then on_vfs (vnode_upd node (set_size (u64 (offset + w.1)))) else mret tt);;
        n ← fatnode fp;
        (if (0 <? w.1) || negb (fn_cluster n =? fn_cluster old) then fat_update_entry node;; mret tt else mret tt);;
        on_fat32 (fn_fs old) fat_cache_flush;;
        mret w.1.

(** [kernel/filesystem/fat32.c: fat_detach] *)
Definition fat_detach (node : Z) : M vol unit :=
  v ← on_vfs (vnode node);
  fuel ← on_vfs node_fuel;
  pp ← on_vfs (find_link fuel (FirstChild (v_parent v)) node);
  p ← on_vfs (read_link pp);
  (if p =? 0 then mret tt else on_vfs (write_link pp (v_next_sibling v)));;
  on_vfs (vnode_upd node (set_next_sibling 0)).
(** [kernel/filesystem/fat32.c: fat_release_node] *)
Definition fat_release_node (node : Z) : M vol unit :=
  fp ← private_of node;
  fn ← fatnode fp;
  on_fat32 (fn_fs fn) (fat_free_chain (fn_cluster fn));;
  on_fat32 (fn_fs fn) fat_cache_flush;;
  free_fatnode fp;;
  on_vfs (free_vnode node).
(** [kernel/filesystem/fat32.c: fat_unlink] *)
Definition fat_unlink (dir : Z) (name : str) : M vol Z :=
  node ← fat_lookup dir name;
  if node =? 0 then mret (-1)
  else
    v ← on_vfs (vnode node);
    full ← (if decide (v_type v = VNODE_DIR) then
              fat_load_dir node;; v ← on_vfs (vnode node); mret (negb (v_first_child v =? 0))
            else mret false);
    if (full : bool) then mret (-1)
    else
      fp ← private_of node;
      fn ← fatnode fp;
      rc ← fat_remove_entry dir fn;
      if negb (rc =? 0) then mret (-1)
      else
        fat_detach node;;
        on_vfs (vnode_upd node (set_parent 0));;
        v ← on_vfs (vnode node);
        (if negb (v_open_count v =? 0) then on_vfs (vnode_upd node (set_unlinked true));; on_fat32 (fn_fs fn) fat_cache_flush;; mret tt
         else fat_release_node node);;
        mret 0.
(** [kernel/filesystem/fat32.c: fat_rename] *)
Definition fat_rename (node new_dir : Z) (new_name : str) : M vol Z :=
  v ← on_vfs (vnode node);
  fn ← fatnode (v_private v);
  dp ← private_of new_dir;
  dn ← fatnode dp;
  d ← on_vfs (vnode new_dir);
  if (v_parent v =? 0) || negb (fn_fs fn =? fn_fs dn) || negb (bool_decide (v_type d = VNODE_DIR)) then mret (-1)
  else
    fat_load_dir new_dir;;
    old ← fatnode (v_private v);
    rc ← fat_add_entry new_dir new_name (if decide (v_type v = VNODE_DIR) then FAT_ATTR_DIR else FAT_ATTR_ARCHIVE)
           (fn_cluster old) (u32 (v_size v)) (v_private v);
    if negb (rc =? 0) then mret (-1)
    else
      fat_remove_entry (v_parent v) old;;
      fat_detach node;;
      on_vfs (vnode_upd node (set_parent new_dir));;
      fuel ← on_vfs node_fuel;
      pp ← on_vfs (find_link fuel (FirstChild new_dir) 0);
      on_vfs (write_link pp node);;
      on_vfs (vnode_upd node (set_name (take (VFS_NAME_MAX - 1) new_name)));;
      (if decide (v_type v = VNODE_DIR ∧ v_parent v ≠ new_dir) then
         up ← fat_dir_cluster new_dir;
         dotdot ← fat_dot_entry [46; 46] up;
         on_fn (v_private v) (fat_io FAT_ENTRY (dirent_bytes dotdot) FAT_ENTRY true);; mret tt
       else mret tt);;
      on_fat32 (fn_fs fn) fat_cache_flush;;
      mret 0.

(** ** Volumes *)

(** The structure at [fs], or nothing, from the bytes of the first sector. [kernel/filesystem/fat32.c: fat_parse_boot 927-961] *)
Definition parse_boot_bytes (dev sectors : Z) (bs : list Z) (fs : Fat32) : option (option Fat32) :=
  b510 ← bs !!z 510; b511 ← bs !!z 511;
  if negb (b510 =? 0x55) || negb (b511 =? 0xAA) then Some None
  else
    bps ← le_field bs 11 2; reserved ← le_field bs 14 2; root_entries ← le_field bs 17 2; total16 ← le_field bs 19 2;
    fat16 ← le_field bs 22 2; total32 ← le_field bs 32 4; fat32 ← le_field bs 36 4; root ← le_field bs 44 4;
    spc ← bs !!z 13; fats ← bs !!z 16;
    if negb (bps =? BLOCK_SECTOR_SIZE) || (spc =? 0) || negb (Z.land spc (spc - 1) =? 0) || (fats =? 0) ||
       negb (root_entries =? 0) || negb (fat16 =? 0) || (fat32 =? 0) then Some None
    else
      let total := if negb (total16 =? 0) then total16 else total32 in
      let data_start := u32 (reserved + u32 (fats * fat32)) in
      if (total <=? data_start) || (sectors <? total) then Some None
      else
        let f := MkFat32 dev spc (spc * BLOCK_SECTOR_SIZE) reserved fat32 fats data_start root
                   (Z.min ((total - data_start) / spc) (u32 (u32 (fat32 * 128) - 2))) 2
                   (ft_cache_sector fs) (ft_cache_valid fs) (ft_cache_dirty fs) (ft_cache fs) in
        Some (if fat_valid f root then Some f else None).
(** The structure with the sector read. [kernel/filesystem/fat32.c: fat_parse_boot] *)
Definition fat_parse_boot (dev : Z) (fs : Fat32) : M vol (option (Fat32 * list Z)) :=
  r ← on_vblk (ba_read dev 0 1);
  if negb (r.1 =? 0) then mret None
  else
    d ← on_vblk (ba_device dev);
    x ← lift (parse_boot_bytes dev (bd_sectors d) r.2 fs);
    mret (f ← x; Some (f, r.2)).
(** The eleven characters of a label. [kernel/filesystem/fat32.c: fat32_has_label 970-972] *)
Definition label_bytes (label : str) : list Z := pad 11 (take 11 (map code_of label)).
(** [kernel/filesystem/fat32.c: fat32_has_label] *)
Definition fat32_has_label (dev : Z) (label : str) : M vol bool :=
  x ← fat_parse_boot dev zero_fat32;
  match x with
  | None => mret false
  | Some (_, bs) => l ← lift (read_range bs 71 11); mret (bool_decide (l = label_bytes label))
  end.

(** [kernel/filesystem/fat32.c: fat32_mount] *)
Definition fat32_mount (dev : Z) : M vol Z :=
  fs ← alloc_fat32;
  fn ← alloc_fatnode;
  ok ← (if (fs =? 0) || (fn =? 0) then mret false
        else
          f ← fat32_at fs;
          x ← fat_parse_boot dev f;
          match x with
          | None => mret false
          | Some (f, _) => modify (λ s, set_fats (<[fs := f]> (vo_fats s)) s);; mret true
          end);
  if negb (ok : bool) then free_fat32 fs;; free_fatnode fn;; mret 0
  else
    f ← fat32_at fs;
    fatnode_upd fn (λ n, MkFatNode fs (ft_root_cluster f) (fn_entry_offset n) (fn_lfn_count n) (fn_short_name n) (fn_loaded n) (fn_hint_index n) (fn_hint_cluster n));;
    root ← fat_new_vnode 0 [slash] VNODE_DIR 0 fn;
    if root =? 0 then free_fat32 fs;; free_fatnode fn;; mret 0
    else on_vblk (ba_add_mounts dev 1);; mret root.

(** [kernel/filesystem/fat32.c: fat32_is_root] *)
Definition fat32_is_root (node : Z) : M vol bool :=
  if node =? 0 then mret false
  else v ← on_vfs (vnode node); mret ((v_ops v =? fat_ops) && (v_parent v =? 0) && negb (v_unlinked v)).
(** [kernel/filesystem/fat32.c: fat32_owns] *)
Definition fat32_owns (root node : Z) : M vol bool :=
  r ← fat32_is_root root;
  if negb (r : bool) || (node =? 0) then mret false
  else
    v ← on_vfs (vnode node);
    if negb (v_ops v =? fat_ops) then mret false
    else rp ← private_of root; a ← fatnode (v_private v); b ← fatnode rp; mret (fn_fs a =? fn_fs b).
(** A node with all below it; the fuel bounds the nodes visited. [kernel/filesystem/fat32.c: fat_release] *)
Fixpoint fat_release (fuel : nat) (node : Z) : M vol unit :=
  match fuel with
  | O => fail
  | S fuel' =>
      let fix children (k : nat) (c : Z) : M vol unit :=
        if c =? 0 then mret tt
        else match k with
        | O => fail
        | S k' => v ← on_vfs (vnode c); fat_release fuel' c;; children k' (v_next_sibling v)
        end in
      v ← on_vfs (vnode node);
      children fuel' (v_first_child v);;
      fp ← private_of node;
      free_fatnode fp;;
      on_vfs (free_vnode node)
  end.
(** [kernel/filesystem/fat32.c: fat32_unmount] *)
Definition fat32_unmount (root : Z) : M vol Z :=
  r ← fat32_is_root root;
  if negb (r : bool) then mret (-1)
  else
    fp ← private_of root;
    fn ← fatnode fp;
    on_fat32 (fn_fs fn) fat_cache_flush;;
    f ← fat32_at (fn_fs fn);
    on_vblk (ba_flush (ft_dev f));;
    on_vblk (ba_add_mounts (ft_dev f) (-1));;
    fuel ← on_vfs node_fuel;
    fat_release (S fuel) root;;
    free_fat32 (fn_fs fn);;
    mret 0.

(** [kernel/filesystem/fat32.c: fat_zero_range] *)
Fixpoint fat_zero_range (fuel : nat) (dev lba count : Z) : M vol Z :=
  if count =? 0 then mret 0
  else match fuel with
  | O => fail
  | S fuel' =>
      let n := Z.min count BLOCK_MAX_TRANSFER in
      rc ← on_vblk (ba_write dev lba n (replicate (Z.to_nat (n * BLOCK_SECTOR_SIZE)) 0));
      if negb (rc =? 0) then mret (-1) else fat_zero_range fuel' dev (u64 (lba + n)) (count - n)
  end.
Definition zero_range (dev lba count : Z) : M vol Z := fat_zero_range (Z.to_nat (count / BLOCK_MAX_TRANSFER + 1)) dev lba count.

(** The sectors per cluster of a new volume of [total] sectors.
    [kernel/filesystem/fat32.c: fat32_format 1067-1067] *)
Definition format_spc (total : Z) : Z :=
  if total <=? 532480 then 1 else if total <=? 16777216 then 8 else if total <=? 33554432 then 16 else if total <=? 67108864 then 32 else 64.
(** The sectors of a table. [kernel/filesystem/fat32.c: fat32_format 1068-1070] *)
Definition format_fat_sectors (total spc : Z) : Z := u32 (div_ceil (u64 (total - 32)) (u32 (256 * spc + 2) / 2)).
(** Fields of a sector, the rest zero. *)
Definition put_field (off : Z) (bs : list Z) (l : list Z) : list Z := default l (write_range l off bs).
Definition zero_sector : list Z := replicate 512 0.
(** [kernel/filesystem/fat32.c: fat32_format 1085-1122] *)
Definition boot_sector (total spc fat_sectors offset serial : Z) (label : str) : list Z :=
  put_field 510 [0x55; 0xAA] (put_field 82 (map code_of (to_str "FAT32   ")) (put_field 71 (label_bytes label)
  (put_field 67 (le_split 4 (u32 serial)) (put_field 66 [0x29] (put_field 64 [0x80] (put_field 50 (le_split 2 6)
  (put_field 48 (le_split 2 1) (put_field 44 (le_split 4 2) (put_field 36 (le_split 4 fat_sectors)
  (put_field 32 (le_split 4 (u32 total)) (put_field 28 (le_split 4 (u32 offset)) (put_field 26 (le_split 2 255)
  (put_field 24 (le_split 2 63) (put_field 21 [0xF8] (put_field 16 [2] (put_field 14 (le_split 2 32)
  (put_field 13 [u8 spc] (put_field 11 (le_split 2 BLOCK_SECTOR_SIZE) (put_field 3 (map code_of (to_str "MSWIN4.1"))
  (put_field 0 [0xEB; 0x58; 0x90] zero_sector)))))))))))))))))))).
(** [kernel/filesystem/fat32.c: fat32_format 1124-1134] *)
Definition info_sector : list Z :=
  put_field 508 (le_split 4 0xAA550000) (put_field 492 (le_split 4 0xFFFFFFFF) (put_field 488 (le_split 4 0xFFFFFFFF)
  (put_field 484 (le_split 4 0x61417272) (put_field 0 (le_split 4 0x41615252) zero_sector)))).
(** [kernel/filesystem/fat32.c: fat32_format 1140-1143] *)
Definition first_table_sector : list Z :=
  put_field 0 (le_split 4 0x0FFFFFF8 ++ le_split 4 0x0FFFFFFF ++ le_split 4 0x0FFFFFFF) zero_sector.

(** Write sectors one after the other; whether all were written.
    [kernel/filesystem/fat32.c: fat32_format 1136-1146] *)
Fixpoint write_sectors (dev : Z) (l : list (Z * list Z)) : M vol bool :=
  match l with
  | [] => mret true
  | (lba, bs) :: l' => rc ← on_vblk (ba_write dev lba 1 bs); if negb (rc =? 0) then mret false else write_sectors dev l'
  end.
(** [kernel/filesystem/fat32.c: fat32_format] *)
Definition fat32_format (dev : Z) (label : str) : M vol Z :=
  d ← on_vblk (ba_device dev);
  let total := Z.min (bd_sectors d) 0xFFFFFFFF in
  let spc := format_spc total in
  let fat_sectors := format_fat_sectors total spc in
  let data_start := u32 (32 + u32 (2 * fat_sectors)) in
  if (total <=? data_start) || ((total - data_start) / spc <? 65525) then mret (-1)
  else
    zero ← on_vmem (km_kmalloc (BLOCK_MAX_TRANSFER * BLOCK_SECTOR_SIZE));
    if zero =? 0 then mret (-1)
    else
      let work : M vol Z :=
        a ← zero_range dev 0 data_start;
        if negb (a =? 0) then mret (-1)
        else
          b ← zero_range dev data_start spc;
          if negb (b =? 0) then mret (-1)
          else
            serial ← on_vblk ba_random;
            let bs := boot_sector total spc fat_sectors (bd_offset d) serial label in
            ok ← write_sectors dev [(0, bs); (1, info_sector); (6, bs); (7, info_sector);
                                    (32, first_table_sector); (u32 (32 + fat_sectors), first_table_sector)];
            if negb (ok : bool) then mret (-1)
            else
              vol_entry ← stamped true (set_de_name (label_bytes label) FAT_ATTR_VOLUME zero_dirent);
              rc ← on_vblk (ba_write dev data_start 1 (put_field 0 (dirent_bytes vol_entry) zero_sector));
              if negb (rc =? 0) then mret (-1) else on_vblk (ba_flush dev) in
      rc ← work;
      on_vmem (km_kfree zero);;
      mret rc.
End FatVol.
