(* ===== verification/FatFormat.v ===== *)
(** * Formatting and mounting FAT32

    A device formatted by [fat32_format] is one [fat_parse_boot] accepts, and what it then
    describes is a volume in good order: a free table but for the root, and a root directory
    that holds the label. *)
From S2P Require Import Prelude RawMem Pmm Heap VfsTypes Ramfs Block BlockIo Fat FatTable FatFile FatIo FatVolume Rtc FatDir FatVol.
Local Open Scope kernel_scope.

(** ** Lemmas: the boot sector *)
Lemma le_split_2 w : ∃ a b, le_split 2 w = [a; b].
Proof. by eexists _, _. Qed.
Lemma le_split_4 w : ∃ a b c d, le_split 4 w = [a; b; c; d].
Proof. by eexists _, _, _, _. Qed.
Lemma label_bytes_length label : length (label_bytes label) = 11%nat.
Proof. apply pad_length. Qed.

Record boot_fields (bs : list Z) (spc total fat_sectors : Z) (label : str) : Prop := {
  bf_length : length bs = 512%nat;
  bf_sign : bs !!z 510 = Some 0x55 ∧ bs !!z 511 = Some 0xAA;
  bf_bps : read_range bs 11 2 = Some (le_split 2 512);
  bf_spc : bs !!z 13 = Some (u8 spc);
  bf_reserved : read_range bs 14 2 = Some (le_split 2 32);
  bf_fats : bs !!z 16 = Some 2;
  bf_zero : read_range bs 17 2 = Some (le_split 2 0) ∧ read_range bs 19 2 = Some (le_split 2 0) ∧ read_range bs 22 2 = Some (le_split 2 0);
  bf_total : read_range bs 32 4 = Some (le_split 4 (u32 total));
  bf_fat : read_range bs 36 4 = Some (le_split 4 fat_sectors);
  bf_root : read_range bs 44 4 = Some (le_split 4 2);
  bf_label : read_range bs 71 11 = Some (label_bytes label)
}.
Lemma boot_sector_fields total spc fat_sectors offset serial label :
  boot_fields (boot_sector total spc fat_sectors offset serial label) spc total fat_sectors label.
Proof.
  assert (G : ∀ b0 t0 t1 t2 t3 f0 f1 f2 f3 o0 o1 o2 o3 s0 s1 s2 s3 lb, length lb = 11%nat →
    le_split 4 (u32 total) = [t0; t1; t2; t3] → le_split 4 fat_sectors = [f0; f1; f2; f3] → le_split 4 (u32 offset) = [o0; o1; o2; o3] →
    le_split 4 (u32 serial) = [s0; s1; s2; s3] → u8 spc = b0 → label_bytes label = lb →
    boot_fields (boot_sector total spc fat_sectors offset serial label) spc total fat_sectors label).
  { intros b0 t0 t1 t2 t3 f0 f1 f2 f3 o0 o1 o2 o3 s0 s1 s2 s3 lb L Et Ef Eo Es Eb El.
    do 11 (destruct lb as [|? lb]; [done|]). destruct lb; [|cbn in L; lia].
    unfold boot_sector. constructor; rewrite Et, Ef, Eo, Es, Eb, El; vm_compute; auto. }
  destruct (le_split_4 (u32 total)) as (t0 & t1 & t2 & t3 & Et), (le_split_4 fat_sectors) as (f0 & f1 & f2 & f3 & Ef),
    (le_split_4 (u32 offset)) as (o0 & o1 & o2 & o3 & Eo), (le_split_4 (u32 serial)) as (s0 & s1 & s2 & s3 & Es).
  eapply G; [apply (label_bytes_length label)|exact Et|exact Ef|exact Eo|exact Es|reflexivity|reflexivity].
Qed.

(** ** Lemmas: the layout *)

(** What a formatted volume of [total] sectors is like. *)
Definition format_data (total : Z) : Z := 32 + 2 * format_fat_sectors total (format_spc total).
Definition formatted (dev total : Z) (fs : Fat32) : Fat32 :=
  let spc := format_spc total in
  let fat := format_fat_sectors total spc in
  MkFat32 dev spc (spc * BLOCK_SECTOR_SIZE) 32 fat 2 (format_data total) 2
    (Z.min ((total - format_data total) / spc) (fat * 128 - 2)) 2 (ft_cache_sector fs) (ft_cache_valid fs) (ft_cache_dirty fs) (ft_cache fs).
(** The sizes [fat32_format] accepts. *)
Definition big_enough (total : Z) : Prop :=
  format_data total < total ∧ 65525 <= (total - format_data total) / format_spc total.

Lemma format_spc_cases total : format_spc total ∈ [1; 8; 16; 32; 64].
Proof. unfold format_spc. repeat case_match; set_solver. Qed.
Lemma format_fat_bounds total :
  32 <= total < 2 ^ 32 → 0 <= format_fat_sectors total (format_spc total) ∧ 129 * format_fat_sectors total (format_spc total) <= total + 96 ∧
  (0 < total - 32 → 0 < format_fat_sectors total (format_spc total)).
Proof.
  intros Ht. pose proof (format_spc_cases total) as Hs. unfold format_fat_sectors, div_ceil. set (spc := format_spc total) in *.
  assert (Htmp : u32 (256 * spc + 2) / 2 = 128 * spc + 1).
  { rewrite u32_small by (repeat (apply elem_of_cons in Hs as [->|Hs]; [lia|]); by apply elem_of_nil in Hs).
    replace (256 * spc + 2) with ((128 * spc + 1) * 2) by lia. by rewrite Z_div_mult_full. }
  rewrite Htmp. assert (Hspc : 1 <= spc <= 64) by (repeat (apply elem_of_cons in Hs as [->|Hs]; [lia|]); by apply elem_of_nil in Hs).
  rewrite (u64_small (total - 32)) by lia. rewrite (u64_small (total - 32 + _)) by lia. rewrite u64_small by lia.
  set (t := 128 * spc + 1). pose proof (Z.div_mod (total - 32 + t - 1) t ltac:(lia)) as E. pose proof (Z.mod_pos_bound (total - 32 + t - 1) t ltac:(lia)) as M.
  set (q := (total - 32 + t - 1) / t) in *. assert (Hq : 0 <= q) by (apply Z.div_pos; lia).
  assert (Hq2 : 129 * q <= total + 96 ∧ (0 < total - 32 → 0 < q)) by nia. rewrite u32_small by lia. done.
Qed.

Lemma format_layout total :
  32 <= total < 2 ^ 32 → big_enough total →
  let spc := format_spc total in let fat := format_fat_sectors total spc in let count := Z.min ((total - format_data total) / spc) (fat * 128 - 2) in
  1 <= spc <= 64 ∧ 0 < fat ∧ 0 < count ∧ count + 2 <= fat * 128 ∧ count + 2 <= FAT_EOC ∧ format_data total + count * spc <= total ∧
  fat * 128 < 2 ^ 32 ∧ 32 < format_data total < 2 ^ 32.
Proof.
  intros Ht [B1 B2]. cbv zeta. destruct (format_fat_bounds total Ht) as (F0 & F1 & F2). unfold format_data in *.
  set (fat := format_fat_sectors _ _) in *. pose proof (format_spc_cases total) as Hs.
  assert (Hspc : 1 <= format_spc total <= 64) by (repeat (apply elem_of_cons in Hs as [->|Hs]; [lia|]); by apply elem_of_nil in Hs).
  pose proof (Z.div_mod (total - (32 + 2 * fat)) (format_spc total) ltac:(lia)) as E. pose proof (Z.mod_pos_bound (total - (32 + 2 * fat)) (format_spc total) ltac:(lia)) as M.
  set (q := (total - (32 + 2 * fat)) / format_spc total) in *.
  assert (Hq : q + 2 <= FAT_EOC).
  { unfold FAT_EOC. clear Hs. unfold format_spc in *. repeat case_match; lia. }
  assert (0 < fat) by (apply F2; lia).
  assert (Z.min q (fat * 128 - 2) * format_spc total <= q * format_spc total) by (apply Z.mul_le_mono_nonneg_r; lia).
  split_and!; lia.
Qed.
Lemma format_geom dev total n fs : 32 <= total <= n → total < 2 ^ 32 → big_enough total → fat_geom (formatted dev total fs) n.
Proof.
  intros Ht Hlt Hb. destruct (format_layout total ltac:(lia) Hb) as (L1 & L2 & L3 & L4 & L5 & L6 & L7 & L8).
  constructor; cbn [formatted ft_spc ft_cluster_bytes ft_fat_start ft_fat_sectors ft_fat_count ft_data_start ft_cluster_count ft_next_free]; try lia.
  unfold format_data. lia.
Qed.

(** The boot sector of a formatted volume is accepted, and describes the volume. *)
Lemma parse_formatted dev n total offset serial label fs :
  32 <= total <= n → total < 2 ^ 32 → big_enough total →
  parse_boot_bytes dev n (boot_sector total (format_spc total) (format_fat_sectors total (format_spc total)) offset serial label) fs =
    Some (Some (formatted dev total fs)).
Proof.
  intros Ht Hlt Hb. destruct (format_layout total ltac:(lia) Hb) as (L1 & L2 & L3 & L4 & L5 & L6 & L7 & L8). pose proof (format_spc_cases total) as Hs.
  destruct (boot_sector_fields total (format_spc total) (format_fat_sectors total (format_spc total)) offset serial label)
    as [_ [S1 S2] Fb Fs Fr Ff (Z1 & Z2 & Z3) Ft Ffat Froot _].
  unfold parse_boot_bytes, le_field. rewrite S1, S2. cbn [mbind option_bind]. cbn [Z.eqb Pos.eqb negb orb].
  rewrite Fb, Fr, Z1, Z2, Z3, Ft, Ffat, Froot, Fs, Ff. cbn [fmap option_fmap option_map mbind option_bind].
  rewrite !le_split_long by (unfold u32; first [lia|apply Z.mod_pos_bound; lia]). rewrite !le_split_word by lia.
  rewrite u8_small by lia. rewrite (u32_small total) by lia.
  destruct Hb as [B1 B2]. set (fat := format_fat_sectors _ _) in *. set (spc := format_spc total) in *.
  assert (Hpow : Z.land spc (spc - 1) = 0).
  { repeat (apply elem_of_cons in Hs as [->|Hs]; [done|]). by apply elem_of_nil in Hs. }
  rewrite Hpow. destruct (Z.eqb_spec spc 0); [lia|]. destruct (Z.eqb_spec fat 0); [lia|]. cbn [Z.eqb negb orb BLOCK_SECTOR_SIZE Pos.eqb].
  assert (Ed : u32 (32 + u32 (2 * fat)) = format_data total) by (unfold format_data in *; fold spc fat in L8 |- *; rewrite (u32_small (2 * fat)) by lia; apply u32_small; lia).
  rewrite Ed. destruct (Z.leb_spec total (format_data total)); [lia|]. destruct (Z.ltb_spec n total); [lia|]. cbn [orb].
  rewrite (u32_small (fat * 128)) by lia. rewrite (u32_small (fat * 128 - 2)) by lia. f_equal.
  match goal with |- (if ?c then Some ?f else None) = _ => assert (E : f = formatted dev total fs) by done; rewrite E; assert (Ev : c = true) end.
  { unfold fat_valid. rewrite E. cbn [formatted ft_cluster_count]. fold spc fat. rewrite u32_small by (unfold FAT_EOC in *; lia).
    apply andb_true_intro. split; [done|]. apply Z.ltb_lt. lia. }
  rewrite E in Ev. by rewrite Ev.
Qed.

(** What a clock promises: it answers. *)
Class ClockLaws (C : Type) `{Clock C} := { clk_answers c : ∃ r c', clk_rtc_read c = Some (r, c') }.


Section FatFormat.
Context {H : Type} `{KM : KernelMem H} {KL : KernelMemLaws H} {B : Type} `{BA : BlockApi B} {BL : BlockLaws B}.
Context {C : Type} `{CK : Clock C} {CL : ClockLaws C}.
Context (healthy : ¬ bl_can_fail (B := B)) (runs blocks : list (Z * Z)).
Local Abbreviation vol := (FatVol.vol (H := H) (B := B) (C := C)).
Implicit Types s : vol.

(** ** Lemmas: the disk under a volume *)
Definition set_blk (b : B) s : vol := Vol (vo_fs s) (vo_fns s) (vo_fats s) b (vo_clk s).
(** [b'] is [b] with the sectors [g] on the device. *)
Definition sectors_now (dev : Z) (b b' : B) (g : Z → list Z) : Prop :=
  bl_ok b' ∧ (∀ d, bl_size b' d = bl_size b d) ∧ ∀ i, bl_sector b' dev i = g i.
(** The sectors [l] put into [g], in order. *)
Definition put_sectors (l : list (Z * list Z)) (g : Z → list Z) : Z → list Z :=
  foldl (λ g p, λ i, if i =? p.1 then p.2 else g i) g l.

Lemma vblk_write_wp dev lba n buf g b0 s (Q : Z → vol → Prop) :
  sectors_now dev b0 (vo_blk s) g → 0 <= lba → 0 < n → lba + n <= bl_size b0 dev → Z.of_nat (length buf) = n * BLOCK_SECTOR_SIZE →
  (∀ b, sectors_now dev b0 b (λ i, if decide (lba <= i < lba + n) then chunk (i - lba) buf else g i) → Q 0 (set_blk b s)) →
  wp (on_vblk (ba_write dev lba n buf)) Q s.
Proof.
  intros (Ob & Sb & Gb) Hl Hn Hle Hb HQ. unfold on_vblk. wp_steps. apply bl_write_law; [done|done|done|by rewrite Sb|done| |by intros].
  intros b' Ob' Sb' W. apply HQ. split_and!; [done|intros d; by rewrite Sb'|]. intros i. rewrite W. destruct (decide _); [done|apply Gb].
Qed.
Lemma sectors_now_ext dev b0 b g g' : (∀ i, g i = g' i) → sectors_now dev b0 b g → sectors_now dev b0 b g'.
Proof. intros E (O & S & G). split_and!; [done|done|]. intros i. by rewrite G. Qed.

Lemma write_sectors_wp dev l g b0 s (Q : bool → vol → Prop) :
  sectors_now dev b0 (vo_blk s) g → Forall (λ p, 0 <= p.1 < bl_size b0 dev ∧ length p.2 = 512%nat) l →
  (∀ b, sectors_now dev b0 b (put_sectors l g) → Q true (set_blk b s)) → wp (write_sectors dev l) Q s.
Proof.
  revert g s. induction l as [|[lba bs] l IH]; intros g s G F HQ; cbn [write_sectors].
  { wp_steps. replace s with (set_blk (vo_blk s) s) by (by destruct s). by apply HQ. }
  apply list.Forall_cons in F as [[Hl Lb] F]. cbn [fst snd] in *. wp_steps.
  eapply vblk_write_wp; [exact G|lia|lia|lia|unfold BLOCK_SECTOR_SIZE; lia|]. intros b Gb. cbn [Z.eqb negb]. 
  eapply (IH _ (set_blk b s)); [exact Gb|exact F|]. intros b' Gb'. apply HQ. eapply sectors_now_ext; [|exact Gb']. intros i.
  assert (E : ∀ l g g', (∀ i, g i = g' i) → ∀ i, put_sectors l g i = put_sectors l g' i).
  { clear. intros l. induction l as [|p l IH]; intros g g' E i; [apply E|]. cbn [put_sectors foldl]. apply (IH _ _). intros j. by rewrite E. }
  cbn [put_sectors foldl fst snd]. apply E. intros j. destruct (Z.eqb_spec j lba) as [->|].
  - rewrite decide_True, Z.sub_diag by lia. apply chunk_0. unfold BLOCK_SECTOR_SIZE. lia.
  - by rewrite decide_False by lia.
Qed.

Lemma zero_range_wp dev lba count g b0 s (Q : Z → vol → Prop) :
  sectors_now dev b0 (vo_blk s) g → bl_ok b0 → 0 <= lba → 0 <= count → lba + count <= bl_size b0 dev →
  (∀ b, sectors_now dev b0 b (λ i, if decide (lba <= i < lba + count) then zero_sector else g i) → Q 0 (set_blk b s)) →
  wp (zero_range dev lba count) Q s.
Proof.
  intros G Ob Hl Hc Hle HQ. unfold zero_range. set (fuel := Z.to_nat _).
  assert (Hf : count <= Z.of_nat fuel * BLOCK_MAX_TRANSFER).
  { pose proof (Z.div_mod count BLOCK_MAX_TRANSFER ltac:(done)). pose proof (Z.mod_pos_bound count BLOCK_MAX_TRANSFER ltac:(done)).
    assert (0 <= count / BLOCK_MAX_TRANSFER) by (by apply Z.div_pos). unfold fuel. rewrite Z2Nat.id by lia. lia. }
  clearbody fuel. pose proof (bl_size_bound _ dev Ob) as Hsz. revert lba count g s G Hl Hc Hle HQ Hf.
  induction fuel as [|fuel IH]; intros lba count g s G Hl Hc Hle HQ Hf; cbn [fat_zero_range];
    (destruct (Z.eqb_spec count 0) as [->|Hn];
     [wp_steps; replace s with (set_blk (vo_blk s) s) by (by destruct s); apply HQ; eapply sectors_now_ext; [|exact G]; intros i; by rewrite decide_False by lia|]); [lia|].
  set (n := Z.min count BLOCK_MAX_TRANSFER). assert (Hn' : 0 < n <= count) by (unfold n, BLOCK_MAX_TRANSFER; lia). wp_steps.
  eapply vblk_write_wp; [exact G|lia|lia|lia|rewrite length_replicate; unfold BLOCK_SECTOR_SIZE; lia|]. intros b Gb. cbn [Z.eqb negb].
  rewrite u64_small by lia. eapply (IH _ _ _ (set_blk b s)); [exact Gb|lia|lia|lia| |unfold n, BLOCK_MAX_TRANSFER in *; lia].
  intros b' Gb'. apply HQ. eapply sectors_now_ext; [|exact Gb']. intros i. cbv beta.
  destruct (decide (lba + n <= i < lba + n + (count - n))); [by rewrite decide_True by lia|].
  destruct (decide (lba <= i < lba + n)).
  - rewrite decide_True by lia. apply chunk_replicate; [lia|]. unfold BLOCK_SECTOR_SIZE in *. lia.
  - by rewrite decide_False by lia.
Qed.

Lemma set_blk_same s : set_blk (vo_blk s) s = s.
Proof. by destruct s. Qed.
Lemma vblk_device_wp dev s (Q : BlockDevice → vol → Prop) :
  bl_ok (vo_blk s) → 0 < bl_size (vo_blk s) dev → (∀ d, bd_sectors d = bl_size (vo_blk s) dev → Q d s) → wp (on_vblk (ba_device dev)) Q s.
Proof. intros O P HQ. unfold on_vblk. wp_steps. apply bl_device_law; [done|done|]. intros d Ed. fold (set_blk (vo_blk s) s). rewrite set_blk_same. by apply HQ. Qed.
Lemma vblk_random_wp dev g b0 s (Q : Z → vol → Prop) :
  sectors_now dev b0 (vo_blk s) g → (∀ x b, sectors_now dev b0 b g → Q x (set_blk b s)) → wp (on_vblk ba_random) Q s.
Proof.
  intros (O & S & G) HQ. unfold on_vblk. wp_steps. apply bl_random_law; [done|]. intros x b (O' & S' & E). apply HQ.
  split_and!; [done|intros d; by rewrite S'|]. intros i. by rewrite E.
Qed.
Lemma vblk_flush_wp dev g b0 s (Q : Z → vol → Prop) :
  sectors_now dev b0 (vo_blk s) g → 0 < bl_size b0 dev → (∀ b, sectors_now dev b0 b g → Q 0 (set_blk b s)) → wp (on_vblk (ba_flush dev)) Q s.
Proof.
  intros (O & S & G) P HQ. unfold on_vblk. wp_steps. apply bl_flush_law; [done|by rewrite S| |by intros]. intros b (O' & S' & E). apply HQ.
  split_and!; [done|intros d; by rewrite S'|]. intros i. by rewrite E.
Qed.
Lemma stamped_wp created e s (Q : FatDirent → vol → Prop) :
  (∀ r c, Q (fat_timestamp r created e) (Vol (vo_fs s) (vo_fns s) (vo_fats s) (vo_blk s) c)) → wp (stamped created e) Q s.
Proof.
  intros HQ. unfold stamped, on_clk. wp_steps. destruct (clk_answers (vo_clk s)) as (r & c & E). unfold wp. rewrite E. apply HQ.
Qed.

(** ** Formatting *)

(** The sectors of a formatted device. *)
Definition format_sectors (total : Z) (bs : list Z) (e : FatDirent) (g : Z → list Z) : Z → list Z :=
  let fat := format_fat_sectors total (format_spc total) in
  let ds := format_data total in
  put_sectors [(0, bs); (1, info_sector); (6, bs); (7, info_sector); (32, first_table_sector); (32 + fat, first_table_sector);
               (ds, put_field 0 (dirent_bytes e) zero_sector)]
    (λ i, if decide (0 <= i < ds + format_spc total) then zero_sector else g i).
(** The entry of the label. *)
Definition label_entry (label : str) (r : Z * RtcTime) : FatDirent :=
  fat_timestamp r true (set_de_name (label_bytes label) FAT_ATTR_VOLUME zero_dirent).
Lemma label_entry_ok label r : dirent_ok (label_entry label r).
Proof.
  pose proof (fat_stamp_words r) as [W1 W2]. unfold label_entry, fat_timestamp. destruct (fat_stamp r) as [ti da].
  constructor; cbn; [apply label_bytes_length|done|done|done].
Qed.

Lemma put_field_length off bs l : length (put_field off bs l) = length l.
Proof.
  unfold put_field. destruct (write_range l off bs) as [l'|] eqn:W; [|done]. cbn. by destruct (write_range_lookup _ _ _ _ 0 W).
Qed.

Lemma kmalloc_says h n (Q : Z → H → Prop) :
  km_inv h runs blocks → 0 <= n < 2 ^ 64 → (km_kmalloc n h = Some (0, h) → Q 0 h) →
  (∀ p h', p ≠ 0 → km_inv h' runs ((p, n) :: blocks) → Q p h') → wp (km_kmalloc n) Q h.
Proof.
  intros I Hn H0 HQ. assert (E : wp (km_kmalloc n) (λ p h', p = 0 ∧ h' = h ∨ p ≠ 0 ∧ km_inv h' runs ((p, n) :: blocks)) h).
  { eapply km_kmalloc_law; [exact I|done|by left|]. intros p h' Hp I' _. by right. }
  apply wp_run in E as (p & h' & E & [[-> ->]|[Hp I']]); apply wp_run; eauto.
Qed.
(** The sizes refused are those too small. *)
Lemma format_too_small total :
  0 <= total < 2 ^ 32 → let dsu := u32 (32 + u32 (2 * format_fat_sectors total (format_spc total))) in
  (total <=? dsu) || ((total - dsu) / format_spc total <? 65525) = true → ¬ big_enough total.
Proof.
  intros Ht dsu E Hb. unfold big_enough in Hb. assert (Hf : 0 <= format_fat_sectors total (format_spc total)) by (unfold format_fat_sectors, u32; apply Z.mod_pos_bound; lia).
  assert (H32 : 32 <= total) by (unfold format_data in Hb; lia). destruct (format_fat_bounds total ltac:(lia)) as (F0 & F1 & _).
  assert (Eds : dsu = format_data total) by (unfold dsu, format_data; rewrite (u32_small (2 * _)) by lia; apply u32_small; lia).
  rewrite Eds in E. apply orb_prop in E as [E%Z.leb_le|E%Z.ltb_lt]; lia.
Qed.

Lemma format_wp dev label s (Q : Z → vol → Prop) :
  let b0 := vo_blk s in let total := Z.min (bl_size b0 dev) 0xFFFFFFFF in
  bl_ok b0 → km_inv (fs_mem (vo_fs s)) runs blocks → 0 < bl_size b0 dev →
  (∀ s', ¬ big_enough total ∨ (∃ h, km_kmalloc (BLOCK_MAX_TRANSFER * BLOCK_SECTOR_SIZE) (fs_mem (vo_fs s)) = Some (0, h)) →
     km_inv (fs_mem (vo_fs s')) runs blocks → sectors_now dev b0 (vo_blk s') (bl_sector b0 dev) → Q (-1) s') →
  (∀ offset serial r s', big_enough total → 32 <= total → km_inv (fs_mem (vo_fs s')) runs blocks →
     sectors_now dev b0 (vo_blk s') (format_sectors total
       (boot_sector total (format_spc total) (format_fat_sectors total (format_spc total)) offset serial label)
       (label_entry label r) (bl_sector b0 dev)) → Q 0 s') →
  wp (fat32_format dev label) Q s.
Proof.
  intros b0 total Ob Im Hpos HF HQ. assert (G0 : sectors_now dev b0 (vo_blk s) (bl_sector b0 dev)) by done.
  pose proof (bl_size_bound _ dev Ob) as Hsz. unfold fat32_format. wp_steps. apply vblk_device_wp; [done|done|]. intros d Ed. rewrite Ed. fold b0. fold total.
  set (fat := format_fat_sectors total (format_spc total)). set (dsu := u32 (32 + u32 (2 * fat))).
  destruct ((total <=? dsu) || ((total - dsu) / format_spc total <? 65525)) eqn:Eb; [wp_steps; apply HF; [left; apply format_too_small; [unfold total; lia|exact Eb]|exact Im|exact G0]|].
  apply orb_false_elim in Eb as [Eb1%Z.leb_gt Eb2%Z.ltb_ge].
  assert (Hds0 : 0 <= dsu) by (unfold dsu, u32; apply Z.mod_pos_bound; lia).
  assert (Hspc : 1 <= format_spc total <= 64) by (pose proof (format_spc_cases total) as Hs; repeat (apply elem_of_cons in Hs as [->|Hs]; [lia|]); by apply elem_of_nil in Hs).
  assert (Ht : 32 <= total < 2 ^ 32).
  { split; [|unfold total; lia]. assert ((total - dsu) / format_spc total <= total - dsu) by (apply Z.div_le_upper_bound; nia). lia. }
  destruct (format_fat_bounds total Ht) as (F0 & F1 & _). fold fat in F0, F1.
  assert (Eds : dsu = format_data total) by (unfold dsu, format_data; fold fat; rewrite (u32_small (2 * fat)) by lia; apply u32_small; lia).
  assert (Hbig : big_enough total) by (rewrite Eds in Eb1, Eb2; done). clearbody dsu. subst dsu.
  destruct (format_layout total Ht Hbig) as (L1 & L2 & L3 & L4 & L5 & L6 & L7 & L8). fold fat in L2, L3, L4, L5, L6, L7.
  assert (Htn : total <= bl_size b0 dev) by (unfold total; lia).
  assert (Hfit : format_data total + format_spc total <= total).
  { pose proof (Z.mul_div_le (total - format_data total) (format_spc total) ltac:(lia)). nia. }
  unfold on_vmem, on_vfs, on_fs_mem. wp_steps. eapply kmalloc_says; [exact Im|vm_compute; split; [discriminate|reflexivity]| |].
  { intros E. wp_steps. apply HF; [right; eexists; exact E|exact Im|exact G0]. }
  intros p h Hp Ih. destruct (Z.eqb_spec p 0); [done|]. wp_steps.
  match goal with |- wp _ _ ?x => set (s1 := x) end.
  eapply zero_range_wp; [exact G0|done|lia|lia|lia|]. intros b1 G1. cbn [Z.eqb negb]. wp_steps.
  eapply zero_range_wp; [exact G1|done|lia|lia|lia|]. intros b2 G2. cbn [Z.eqb negb]. 
  wp_steps. eapply vblk_random_wp; [exact G2|]. intros serial b3 G3. wp_steps.
  rewrite (u32_small (32 + fat)) by lia.
  destruct (boot_sector_fields total (format_spc total) fat (bd_offset d) serial label) as [Lbs _ _ _ _ _ _ _ _ _ _].
  eapply write_sectors_wp; [exact G3| |].
  { repeat apply list.Forall_cons_2; try apply list.Forall_nil_2; cbn [fst snd]; (split; [lia|]); first [exact Lbs|reflexivity]. }
  intros b4 G4. cbn [negb]. wp_steps. apply stamped_wp. intros r c. wp_steps. fold (label_entry label r).
  eapply (vblk_write_wp dev _ 1); [exact G4|lia|lia|lia|by rewrite put_field_length|].
  intros b5 G5. cbn [Z.eqb negb]. eapply vblk_flush_wp; [exact G5|done|]. intros b6 G6. wp_steps. cbn [fs_mem vo_fs].
  eapply km_kfree_law; [exact Ih|]. intros h' Ih' _. wp_steps. apply (HQ (bd_offset d) serial r); [done|lia|exact Ih'|].
  eapply sectors_now_ext; [|exact G6]. intros i. unfold format_sectors. cbn [put_sectors foldl fst snd]. fold fat.
  destruct (Z.eqb_spec i (format_data total)) as [->|Hne].
  { rewrite decide_True, Z.sub_diag by lia. apply chunk_0. by rewrite put_field_length. }
  rewrite decide_False by lia. do 6 (match goal with |- (if ?c then _ else _) = _ => destruct c; [done|] end).
  destruct (decide (format_data total <= i < format_data total + format_spc total)); [by rewrite decide_True by lia|].
  destruct (decide (0 <= i < 0 + format_data total)); [by rewrite decide_True by lia|by rewrite decide_False by lia].
Qed.

(** ** The volume *)
Lemma put_sectors_table total bs e g k :
  32 <= total < 2 ^ 32 → big_enough total → 0 <= k < format_fat_sectors total (format_spc total) →
  format_sectors total bs e g (32 + k) = if k =? 0 then first_table_sector else zero_sector.
Proof.
  intros Ht Hb Hk. destruct (format_layout total Ht Hb) as (L1 & L2 & L3 & L4 & L5 & L6 & L7 & L8). unfold format_sectors. cbn [put_sectors foldl fst snd].
  unfold format_data in *. set (fat := format_fat_sectors _ _) in *.
  rewrite (proj2 (Z.eqb_neq (32 + k) (32 + 2 * fat))), (proj2 (Z.eqb_neq (32 + k) (32 + fat))), (proj2 (Z.eqb_neq (32 + k) 7)),
    (proj2 (Z.eqb_neq (32 + k) 6)), (proj2 (Z.eqb_neq (32 + k) 1)), (proj2 (Z.eqb_neq (32 + k) 0)) by lia.
  rewrite decide_True by lia. by destruct (Z.eqb_spec (32 + k) 32), (Z.eqb_spec k 0); try lia.
Qed.
Lemma put_sectors_root total bs e g i :
  32 <= total < 2 ^ 32 → big_enough total → 0 <= i < format_spc total →
  format_sectors total bs e g (format_data total + i) = if i =? 0 then put_field 0 (dirent_bytes e) zero_sector else zero_sector.
Proof.
  intros Ht Hb Hi. destruct (format_layout total Ht Hb) as (L1 & L2 & L3 & L4 & L5 & L6 & L7 & L8). unfold format_sectors. cbn [put_sectors foldl fst snd].
  unfold format_data in *. set (fat := format_fat_sectors _ _) in *. set (x := 32 + 2 * fat + i).
  rewrite (proj2 (Z.eqb_neq x (32 + fat))), (proj2 (Z.eqb_neq x 32)), (proj2 (Z.eqb_neq x 7)),
    (proj2 (Z.eqb_neq x 6)), (proj2 (Z.eqb_neq x 1)), (proj2 (Z.eqb_neq x 0)) by lia.
  rewrite decide_True by lia. by destruct (Z.eqb_spec x (32 + 2 * fat)), (Z.eqb_spec i 0); try lia.
Qed.
Lemma first_table_words c : 0 <= c < 128 → Z.land (word_at first_table_sector c) FAT_MASK =
  if c =? 0 then 0x0FFFFFF8 else if (c =? 1) || (c =? 2) then 0x0FFFFFFF else 0.
Proof.
  intros Hc. apply Z.eqb_eq. apply (check_range (λ c, Z.land (word_at first_table_sector c) FAT_MASK =?
    (if c =? 0 then 0x0FFFFFF8 else if (c =? 1) || (c =? 2) then 0x0FFFFFFF else 0)) 128); [by vm_compute|done].
Qed.
Lemma zero_words c : Z.land (word_at zero_sector c) FAT_MASK = 0.
Proof.
  unfold word_at. pose proof (Z.mod_pos_bound c 128 ltac:(lia)) as Hc. set (x := c mod 128) in *. clearbody x. apply Z.eqb_eq.
  apply (check_range (λ x, Z.land (le_combine (spec_read zero_sector (x * 4) 4)) FAT_MASK =? 0) 128); [by vm_compute|done].
Qed.

(** The volume the boot sector describes, with the memory and device it is in. *)
Definition formatted_fat (dev total : Z) (b : B) (h : H) : fatst (H := H) (B := B) := Fatst (formatted dev total zero_fat32) b h.

Lemma formatted_next dev total bs e g b0 b h c :
  32 <= total < 2 ^ 32 → big_enough total → sectors_now dev b0 b (format_sectors total bs e g) →
  is_cluster (formatted dev total zero_fat32) c → fat_next (formatted_fat dev total b h) c = if c =? 2 then 0x0FFFFFFF else 0.
Proof.
  intros Ht Hb (_ & _ & G) Hc. destruct (format_layout total Ht Hb) as (L1 & L2 & L3 & L4 & L5 & L6 & L7 & L8).
  unfold is_cluster in Hc. cbn [formatted ft_cluster_count] in Hc. unfold fat_next, tab_sector, disk, formatted_fat.
  cbn [fa_fs fa_blk formatted zero_fat32 ft_cache_valid ft_dev ft_fat_start andb]. rewrite G.
  rewrite put_sectors_table; [|done|done|split; [apply Z.div_pos; lia|apply Z.div_lt_upper_bound; lia]].
  destruct (Z.eqb_spec (c / 128) 0) as [E|E].
  - assert (Hlt : c < 128) by (apply Z.div_small_iff in E; lia). rewrite first_table_words by lia.
    destruct (Z.eqb_spec c 0), (Z.eqb_spec c 1); try lia. done.
  - rewrite zero_words. destruct (Z.eqb_spec c 2) as [->|]; [done|done].
Qed.

(** The root directory: the entry of the label, then nothing. *)
Lemma formatted_root dev total bs e g b0 b h :
  32 <= total < 2 ^ 32 → big_enough total → dirent_ok e → sectors_now dev b0 b (format_sectors total bs e g) →
  content (formatted_fat dev total b h) [2] =
    dirent_bytes e ++ replicate (Z.to_nat (format_spc total * BLOCK_SECTOR_SIZE - FAT_ENTRY)) 0.
Proof.
  intros Ht Hb Eok (_ & _ & G). destruct (format_layout total Ht Hb) as (L1 & _). destruct (read_dirent_bytes e Eok) as [_ Le].
  unfold content, room. set (v := formatted_fat dev total b h). cbn [length].
  replace (ft_cluster_bytes (fa_fs v)) with (format_spc total * BLOCK_SECTOR_SIZE) by done. change (Z.of_nat 1) with 1. rewrite Z.mul_1_l.
  set (cb := format_spc total * BLOCK_SECTOR_SIZE). assert (Hcb : 512 <= cb) by (unfold cb, BLOCK_SECTOR_SIZE; lia).
  assert (F : ∀ j, 0 <= j < cb → fbyte v [2] j =
    default 0 ((if j / 512 =? 0 then put_field 0 (dirent_bytes e) zero_sector else zero_sector) !!z (j mod 512))).
  { intros j Hj. unfold fbyte, addr, v, formatted_fat. cbn [fa_fs formatted ft_cluster_bytes]. fold cb. rewrite (Z.div_small j cb), (Z.mod_small j cb) by done.
    cbn [default]. change ([2] !!z 0) with (Some 2). cbn [default]. unfold cluster_lba, dbyte, disk, id. cbn [fa_fs fa_blk formatted ft_data_start ft_spc ft_dev].
    replace (format_data total + (2 - 2) * format_spc total) with (format_data total) by lia. unfold BLOCK_SECTOR_SIZE in *.
    rewrite (Z.add_comm (_ * 512) j), Z_div_plus_full, Z_mod_plus_full by lia. rewrite (Z.add_comm (j / 512)), G. 
    rewrite put_sectors_root; [done|done|done|]. unfold cb in Hj. split; [apply Z.div_pos; lia|apply Z.div_lt_upper_bound; lia]. }
  apply lookupZ_ext.
  { rewrite length_map, length_seqZ, length_app, length_replicate, Le. unfold FAT_ENTRY. lia. }
  intros k Hk. rewrite length_map, length_seqZ in Hk. rewrite map_seqZ_lookup, Z.add_0_l by lia. rewrite F by lia.
  pose proof (write_range_Some zero_sector 0 (dirent_bytes e)) as W. rewrite Le in W. destruct (W ltac:(lia) ltac:(vm_compute; discriminate)) as (l' & El). clear W.
  pose proof (λ k, write_range_lookup _ _ _ _ k El) as K. unfold put_field. rewrite El. cbn [default].
  assert (Z0 : ∀ r, default 0 (zero_sector !!z r) = 0).
  { intros r. unfold lookupZ, zero_sector. destruct (r <? 0); [done|]. destruct (replicate 512 0 !! Z.to_nat r) eqn:Er; [|done].
    apply list_elem_of_lookup_2, elem_of_replicate in Er as [-> _]. done. }
  destruct (decide (k < FAT_ENTRY)) as [Hlt|Hge]; unfold FAT_ENTRY in *.
  - rewrite (Z.div_small k 512), (Z.mod_small k 512) by lia. cbn [Z.eqb]. unfold id. rewrite (proj2 (K k)), Le, decide_True, Z.sub_0_r by lia.
    rewrite lookupZ_app_l by lia. destruct (lookupZ_lt_is_Some (dirent_bytes e) k) as [x ->]; [lia|done].
  - rewrite lookupZ_app_r by lia. replace (default 0 _) with 0.
    + unfold lookupZ. destruct (Z.ltb_spec (k - Z.of_nat (length (dirent_bytes e))) 0); [lia|]. symmetry. apply lookup_replicate_2. lia.
    + destruct (Z.eqb_spec (k / 512) 0) as [E|E]; [|by rewrite Z0]. apply Z.div_small_iff in E; [|lia].
      unfold id. rewrite (proj2 (K _)), Le, Z.mod_small by lia. rewrite decide_False by lia. by rewrite Z0.
Qed.

(** A scan of it finds no node. *)
Lemma label_scanned e k m n (s : LfnScan) :
  dirent_ok e → de_attr e = FAT_ATTR_VOLUME → (n <= S k)%nat → FAT_ENTRY * Z.of_nat k <= Z.of_nat m →
  scan_bytes n 0 (dirent_bytes e ++ replicate m 0) s = Some [].
Proof.
  intros Eok Ea Hn Hm. destruct n as [|n]; [done|]. destruct (read_dirent_bytes e Eok) as [Re Le]. cbn [scan_bytes].
  assert (R : read_range (dirent_bytes e ++ replicate m 0) 0 FAT_ENTRY = Some (dirent_bytes e)).
  { rewrite read_range_spec by (rewrite ?length_app, ?Le; unfold FAT_ENTRY; lia). unfold spec_read. cbn [Z.to_nat drop]. f_equal.
    by apply take_app_length'. }
  rewrite R. cbn [mbind option_bind]. unfold scan_entry. rewrite Re. cbn [mbind option_bind].
  destruct (lookupZ_lt_is_Some (de_name e) 0) as [c ->]; [destruct Eok as [L _ _ _]; lia|]. cbn [mbind option_bind].
  destruct (c =? 0); [done|]. rewrite Ea. change (Z.land FAT_ATTR_VOLUME FAT_ATTR_VOLUME =? 0) with false.
  change (FAT_ATTR_VOLUME =? FAT_ATTR_LFN) with false.
  assert (Z0 : ∀ s : LfnScan, scan_bytes n FAT_ENTRY (dirent_bytes e ++ replicate m 0) s = Some []).
  { intros s'. destruct n as [|n]; [done|]. cbn [scan_bytes]. rewrite read_range_spec by (rewrite ?length_app, ?Le, ?length_replicate; unfold FAT_ENTRY in *; lia).
    unfold spec_read. rewrite (drop_app_length' _ _ (Z.to_nat FAT_ENTRY)) by (by rewrite Le). cbn [mbind option_bind].
    rewrite take_replicate, Nat.min_l by (unfold FAT_ENTRY in *; lia). by vm_compute. }
  destruct (c =? 0xE5); cbn [negb orb]; apply Z0.
Qed.

(** ** A formatted volume *)
Lemma formatted_inv dev total bs e g b0 b h :
  32 <= total <= bl_size b0 dev → total < 2 ^ 32 → big_enough total → sectors_now dev b0 b (format_sectors total bs e g) →
  km_inv h runs blocks → fat_inv runs blocks (formatted_fat dev total b h).
Proof.
  intros Ht Hlt Hb (O & S & _) I. constructor; [|exact O|constructor; [done|discriminate..]|exact I].
  cbn [formatted_fat fa_fs fa_blk formatted ft_dev]. rewrite S. by apply format_geom.
Qed.
Lemma formatted_chain dev total bs e g b0 b h :
  32 <= total < 2 ^ 32 → big_enough total → sectors_now dev b0 b (format_sectors total bs e g) →
  let v := formatted_fat dev total b h in chain (fa_fs v) (fat_next v) 2 [2].
Proof.
  intros Ht Hb G v. destruct (format_layout total Ht Hb) as (L1 & L2 & L3 & L4 & L5 & L6 & L7 & L8).
  assert (C2 : is_cluster (fa_fs v) 2) by (unfold is_cluster; cbn [v formatted_fat fa_fs formatted ft_cluster_count]; lia).
  cbn [chain]. split_and!; [done|done|]. unfold v. rewrite (formatted_next _ _ _ _ _ _ _ _ _ Ht Hb G) by done.
  unfold is_cluster. cbn [formatted_fat fa_fs formatted ft_cluster_count Z.eqb Pos.eqb]. unfold FAT_EOC in *. lia.
Qed.

(** A volume in order that is empty but for a root directory of one cluster that holds the
    label [label]. *)
Record empty_volume (label : str) (v : fatst (H := H) (B := B)) : Prop := {
  em_inv : fat_inv runs blocks v;
  em_root : chain (fa_fs v) (fat_next v) (ft_root_cluster (fa_fs v)) [ft_root_cluster (fa_fs v)];
  em_free c : is_cluster (fa_fs v) c → c ≠ ft_root_cluster (fa_fs v) → fat_next v c = 0;
  em_label : ∃ e m, dirent_ok e ∧ de_attr e = FAT_ATTR_VOLUME ∧ de_name e = label_bytes label ∧
    content v [ft_root_cluster (fa_fs v)] = dirent_bytes e ++ replicate m 0;
  em_scan n (s : LfnScan) : FAT_ENTRY * Z.of_nat n <= ft_cluster_bytes (fa_fs v) →
    scan_bytes n 0 (content v [ft_root_cluster (fa_fs v)]) s = Some []
}.
Lemma formatted_empty dev label total bs r g b0 b h :
  32 <= total <= bl_size b0 dev → total < 2 ^ 32 → big_enough total →
  sectors_now dev b0 b (format_sectors total bs (label_entry label r) g) → km_inv h runs blocks →
  empty_volume label (formatted_fat dev total b h).
Proof.
  intros Ht Hlt Hb G I. pose proof (label_entry_ok label r) as Eok. assert (Ht' : 32 <= total < 2 ^ 32) by lia.
  pose proof (formatted_root _ _ _ _ _ _ _ h Ht' Hb Eok G) as R.
  assert (Ea : de_attr (label_entry label r) = FAT_ATTR_VOLUME ∧ de_name (label_entry label r) = label_bytes label).
  { unfold label_entry, fat_timestamp. by destruct (fat_stamp r). }
  constructor.
  - by eapply formatted_inv.
  - by eapply formatted_chain.
  - intros c Hc Hne. rewrite (formatted_next _ _ _ _ _ _ _ _ _ Ht' Hb G) by done. by rewrite (proj2 (Z.eqb_neq c 2)).
  - exists (label_entry label r). eexists. split_and!; [done|apply Ea|apply Ea|exact R].
  - intros n s Hn. cbn [formatted_fat fa_fs formatted ft_root_cluster ft_cluster_bytes] in *. rewrite R.
    apply (label_scanned _ (Nat.pred n)); [done|apply Ea|lia|unfold FAT_ENTRY in *; lia].
Qed.

Lemma vblk_read_wp dev n lba g b0 s (Q : Z * list Z → vol → Prop) :
  sectors_now dev b0 (vo_blk s) g → 0 <= lba → 0 < n → lba + n <= bl_size b0 dev →
  (∀ b, sectors_now dev b0 b g → Q (0, sectors_of g lba n) (set_blk b s)) → wp (on_vblk (ba_read dev lba n)) Q s.
Proof.
  intros (O & S & G) Hl Hn Hle HQ. unfold on_vblk. wp_steps. apply bl_read_law; [done|done|done|by rewrite S| |by intros].
  intros b (O' & S' & E). replace (sectors_of (bl_sector (vo_blk s) dev) lba n) with (sectors_of g lba n).
  - apply HQ. split_and!; [done|intros d; by rewrite S'|]. intros i. by rewrite E.
  - unfold sectors_of. apply list_bind_ext; [|done]. intros i. by rewrite G.
Qed.

Lemma format_sector_0 total bs e g : 32 <= total < 2 ^ 32 → big_enough total → format_sectors total bs e g 0 = bs.
Proof.
  intros Ht Hb. destruct (format_layout total Ht Hb) as (L1 & L2 & L3 & L4 & L5 & L6 & L7 & L8). unfold format_sectors. cbn [put_sectors foldl fst snd].
  by rewrite (proj2 (Z.eqb_neq 0 (format_data total))), (proj2 (Z.eqb_neq 0 (32 + _))) by lia.
Qed.
(** Reading the boot sector of a device that was formatted. *)
Lemma parse_boot_wp dev total offset serial label e g b0 s (Q : option (Fat32 * list Z) → vol → Prop) :
  let bs := boot_sector total (format_spc total) (format_fat_sectors total (format_spc total)) offset serial label in
  32 <= total <= bl_size b0 dev → total < 2 ^ 32 → big_enough total →
  sectors_now dev b0 (vo_blk s) (format_sectors total bs e g) →
  (∀ b, sectors_now dev b0 b (format_sectors total bs e g) → Q (Some (formatted dev total zero_fat32, bs)) (set_blk b s)) →
  wp (fat_parse_boot dev zero_fat32) Q s.
Proof.
  intros bs Ht Hlt Hb G HQ. unfold fat_parse_boot. wp_steps. eapply (vblk_read_wp dev 1 0); [exact G|lia|lia|lia|]. intros b Gb.
  cbn [fst snd Z.eqb negb]. rewrite sectors_of_one, format_sector_0 by (try done; lia). wp_steps. apply vblk_device_wp.
  { apply Gb. }
  { destruct Gb as (_ & S & _). cbn [set_blk vo_blk]. rewrite S. lia. }
  intros d Ed. rewrite Ed. destruct Gb as (Ob & Sb & Gb). cbn [set_blk vo_blk]. rewrite Sb. wp_steps.
  eapply wp_lift; [apply (parse_formatted dev (bl_size b0 dev) total offset serial label zero_fat32); [done|done|done]|].
  wp_steps. cbn [mbind option_bind]. by apply HQ.
Qed.

End FatFormat.

(** * Mounting what was formatted *)
Section FatMount.
Context {H : Type} `{KM : KernelMem H} {KL : KernelMemLaws H} {B : Type} `{BA : BlockApi B} {BL : BlockLaws B}.
Context {C : Type} `{CK : Clock C} {CL : ClockLaws C}.
Context (healthy : ¬ bl_can_fail (B := B)) (fat_ops : Z) (runs blocks : list (Z * Z)).

(** One of the three structures of a mount does not fit the memory [m]. *)
Definition mount_no_memory (m : H) : Prop :=
  ∃ p q m1 m2, km_kmalloc SIZEOF_FAT32 m = Some (p, m1) ∧ km_kmalloc SIZEOF_FAT_NODE m1 = Some (q, m2) ∧
    (p = 0 ∨ q = 0 ∨ ∃ m3, km_kmalloc SIZEOF_VNODE m2 = Some (0, m3)).
(** [root] is the root directory, not read yet, of an empty volume labelled [label]. *)
Definition mounts_empty (label : str) (root : Z) (s : vol (H := H) (B := B) (C := C)) : Prop :=
  ∃ fn fsp f, fs_nodes (vo_fs s) !! root = Some (MkVNode [slash] VNODE_DIR 0 fat_ops 0 fn 0 false 0 0 0) ∧
    vo_fns s !! fn = Some (MkFatNode fsp (ft_root_cluster f) 0 0 (replicate 11 0) false 0 0) ∧ vo_fats s !! fsp = Some f ∧
    empty_volume runs ((root, SIZEOF_VNODE) :: (fn, SIZEOF_FAT_NODE) :: (fsp, SIZEOF_FAT32) :: blocks) label (Fatst f (vo_blk s) (fs_mem (vo_fs s))).

(** An allocation, with the run that it is. *)
Lemma kmalloc_cases h rs bl n :
  km_inv h rs bl → 0 <= n < 2 ^ 64 →
  ∃ p h', km_kmalloc n h = Some (p, h') ∧ (p = 0 ∧ h' = h ∨ p ≠ 0 ∧ km_inv h' rs ((p, n) :: bl)).
Proof. intros I Hn. apply wp_run. eapply km_kmalloc_law; [exact I|exact Hn|by left|]. intros p h' Hp I' _. by right. Qed.
Lemma on_vmem_run {A} (m : M H A) (s : vol (H := H) (B := B) (C := C)) a h' (Q : A → vol → Prop) :
  m (fs_mem (vo_fs s)) = Some (a, h') → Q a (Vol (set_mem h' (vo_fs s)) (vo_fns s) (vo_fats s) (vo_blk s) (vo_clk s)) → wp (on_vmem m) Q s.
Proof. intros E HQ. unfold on_vmem, on_vfs, on_fs_mem. wp_steps. unfold wp. by rewrite E. Qed.
Lemma free_fat32_wp p bl (s : vol (H := H) (B := B) (C := C)) (Q : unit → vol → Prop) :
  km_inv (fs_mem (vo_fs s)) runs (if p =? 0 then bl else (p, SIZEOF_FAT32) :: bl) →
  (∀ s', km_inv (fs_mem (vo_fs s')) runs bl → vo_blk s' = vo_blk s → Q tt s') → wp (free_fat32 p) Q s.
Proof.
  intros I HQ. unfold free_fat32. destruct (p =? 0); [wp_steps; by apply HQ|]. wp_steps. unfold on_vmem, on_vfs, on_fs_mem. wp_steps.
  eapply km_kfree_law; [exact I|]. intros h' I' _. wp_steps. by apply HQ.
Qed.
Lemma free_fatnode_wp p bl (s : vol (H := H) (B := B) (C := C)) (Q : unit → vol → Prop) :
  km_inv (fs_mem (vo_fs s)) runs (if p =? 0 then bl else (p, SIZEOF_FAT_NODE) :: bl) →
  (∀ s', km_inv (fs_mem (vo_fs s')) runs bl → vo_blk s' = vo_blk s → Q tt s') → wp (free_fatnode p) Q s.
Proof.
  intros I HQ. unfold free_fatnode. destruct (p =? 0); [wp_steps; by apply HQ|]. wp_steps. unfold on_vmem, on_vfs, on_fs_mem. wp_steps.
  eapply km_kfree_law; [exact I|]. intros h' I' _. wp_steps. by apply HQ.
Qed.

Lemma mount_wp dev total offset serial label r g b0 s (Q : Z → vol → Prop) :
  let bs := boot_sector total (format_spc total) (format_fat_sectors total (format_spc total)) offset serial label in
  32 <= total <= bl_size b0 dev → total < 2 ^ 32 → big_enough total →
  sectors_now dev b0 (vo_blk s) (format_sectors total bs (label_entry label r) g) → km_inv (fs_mem (vo_fs s)) runs blocks →
  (∀ s', mount_no_memory (fs_mem (vo_fs s)) → km_inv (fs_mem (vo_fs s')) runs blocks →
     sectors_now dev b0 (vo_blk s') (format_sectors total bs (label_entry label r) g) → Q 0 s') →
  (∀ root s', root ≠ 0 → mounts_empty label root s' → Q root s') →
  wp (fat32_mount fat_ops dev) Q s.
Proof.
  intros bs Ht Hlt Hb G I H0 HQ.
  destruct (kmalloc_cases _ _ _ SIZEOF_FAT32 I ltac:(done)) as (p & m1 & E1 & C1).
  assert (I1 : km_inv m1 runs (if p =? 0 then blocks else (p, SIZEOF_FAT32) :: blocks)).
  { destruct C1 as [[-> ->]|[Hp I1]]; [done|]. by rewrite (proj2 (Z.eqb_neq p 0)). }
  destruct (kmalloc_cases _ _ _ SIZEOF_FAT_NODE I1 ltac:(done)) as (q & m2 & E2 & C2).
  assert (I2 : km_inv m2 runs (if q =? 0 then (if p =? 0 then blocks else (p, SIZEOF_FAT32) :: blocks)
    else (q, SIZEOF_FAT_NODE) :: (if p =? 0 then blocks else (p, SIZEOF_FAT32) :: blocks))).
  { destruct C2 as [[-> ->]|[Hq I2]]; [done|]. by rewrite (proj2 (Z.eqb_neq q 0)). }
  clear C1 C2 I1.
  assert (Free : ∀ s', vo_blk s' = vo_blk s ∨ sectors_now dev b0 (vo_blk s') (format_sectors total bs (label_entry label r) g) →
    fs_mem (vo_fs s') = m2 → mount_no_memory (fs_mem (vo_fs s)) → wp (free_fat32 p;; free_fatnode q;; mret 0) Q s').
  { intros s' Gb Em Hno. wp_steps. apply (free_fat32_wp p (if q =? 0 then blocks else (q, SIZEOF_FAT_NODE) :: blocks)).
    { rewrite Em. destruct (p =? 0), (q =? 0); try exact I2. eapply km_perm_blocks; [exact I2|]. apply Permutation_swap. }
    intros s2 Is2 B2. wp_steps. apply (free_fatnode_wp q blocks); [exact Is2|]. intros s3 Is3 B3. wp_steps. apply H0; [done|done|].
    rewrite B3, B2. destruct Gb as [->|Gb]; [exact G|exact Gb]. }
  destruct s as [[m0 nodes files mounts] fns fats blk0 clk0]. cbn [vo_fs vo_blk fs_mem] in *. unfold fat32_mount, alloc_fat32, alloc_fatnode. wp_steps. eapply on_vmem_run; [exact E1|]. cbv beta.
  destruct (Z.eqb_spec p 0) as [Hp|Hp].
  { assert (N : mount_no_memory m0) by (exists p, q, m1, m2; split_and!; try done; by left).
    wp_steps. eapply on_vmem_run; [exact E2|]. cbv beta. destruct (Z.eqb_spec q 0) as [Hq|Hq]; wp_steps; rewrite ?Hp, ?Hq in Free; cbn [Z.eqb orb]; wp_steps; cbn [negb].
    all: apply Free; [by left|done|done]. }
  wp_steps. eapply on_vmem_run; [exact E2|]. cbv beta. destruct (Z.eqb_spec q 0) as [Hq|Hq].
  { assert (N : mount_no_memory m0) by (exists p, q, m1, m2; split_and!; try done; right; by left).
    wp_steps. rewrite Hq in Free. rewrite (proj2 (Z.eqb_neq p 0)) by done. cbn [Z.eqb orb]. wp_steps. cbn [negb]. apply Free; [by left|done|done]. }
  wp_steps. rewrite (proj2 (Z.eqb_neq p 0)), (proj2 (Z.eqb_neq q 0)) in * by done. cbn [orb]. wp_steps.
  unfold fat32_at. wp_steps. eapply wp_lift; [cbn; apply lookup_insert_eq|]. wp_steps. eapply (parse_boot_wp healthy); [exact Ht|exact Hlt|exact Hb|exact G|].
  intros b Gb. wp_steps. cbn [negb]. wp_steps. eapply wp_lift; [cbn; apply lookup_insert_eq|].
  unfold fatnode_upd, fatnode. wp_steps. eapply wp_lift; [cbn; apply lookup_insert_eq|]. wp_steps.
  unfold fat_new_vnode, alloc_vnode, on_fs_mem, on_vfs. wp_steps.
  cbn [set_mem set_fns set_fats set_blk set_nodes vo_fs vo_fns vo_fats vo_blk vo_clk fs_mem fs_nodes fs_files fs_mounts
    fn_fs fn_cluster fn_entry_offset fn_lfn_count fn_short_name fn_loaded fn_hint_index fn_hint_cluster zero_fat_node].
  destruct (kmalloc_cases _ _ _ SIZEOF_VNODE I2 ltac:(done)) as (v & m3 & E3 & C3). apply wp_run. exists v, m3. split; [exact E3|].
  destruct (Z.eqb_spec v 0) as [Hv|Hv].
  - wp_steps. cbn [Z.eqb]. wp_steps. cbn [Z.eqb]. apply Free; [by right| |].
    + cbn. by destruct C3 as [[_ ->]|[? _]].
    + exists p, q, m1, m2. split_and!; [done|done|]. right; right. exists m3. by rewrite <-Hv.
  - destruct C3 as [[? _]|[_ I3]]; [done|]. wp_steps. rewrite (proj2 (Z.eqb_neq v 0)) by done.
    unfold vnode_upd, vnode. wp_steps. eapply wp_lift; [cbn; apply lookup_insert_eq|]. wp_steps. cbn [Z.eqb]. wp_steps.
    rewrite (proj2 (Z.eqb_neq v 0)) by done. unfold on_vblk. wp_steps. cbn.
    apply bl_mounts_law; [apply Gb|destruct Gb as (_ & S & _); rewrite S; lia|]. intros b' Sb. wp_steps. apply HQ; [done|].
    exists q, p, (formatted dev total zero_fat32). cbn. split_and!; [by rewrite lookup_insert_eq..|].
    eapply (formatted_empty runs ((v, SIZEOF_VNODE) :: _) dev label total bs); [exact Ht|exact Hlt|exact Hb| |exact I3].
    destruct Sb as (Ob' & Sb & Cb), Gb as (_ & S & Gb). split_and!; [exact Ob'|intros d; by rewrite Sb, S|intros i; rewrite Cb; apply Gb].
Qed.

(** C26 (roundtrip) [fat32_format, fat_zero_range, write_sectors, boot_sector, info_sector, first_table_sector, format_spc, format_fat_sectors, fat32_mount, alloc_fat32, alloc_fatnode, free_fat32, free_fatnode, fat_new_vnode, fat_parse_boot, parse_boot_bytes, fat32_has_label, label_bytes]
    On a disk that does not fail ([healthy]), formatting refuses a device that is too small, or fails
    when there is no memory, and then the device is unchanged.  Otherwise the device has the
    label that was given, and mounting it gives a new root directory, of which nothing was
    read yet, of a volume in good order and empty: every cluster is free but that of the root, which
    holds the label, and in which no node is found. Mounting fails only when one of its three
    structures does not fit the memory, and then it gives back what it took. *)
Theorem fat32_format_mount dev label s :
  let b0 := vo_blk s in let total := Z.min (bl_size b0 dev) 0xFFFFFFFF in
  bl_ok b0 → km_inv (fs_mem (vo_fs s)) runs blocks → 0 < bl_size b0 dev →
  ∃ rc s', fat32_format dev label s = Some (rc, s') ∧
    (rc = -1 ∧ (∀ i, bl_sector (vo_blk s') dev i = bl_sector b0 dev i) ∧
       (¬ big_enough total ∨ ∃ h, km_kmalloc (BLOCK_MAX_TRANSFER * BLOCK_SECTOR_SIZE) (fs_mem (vo_fs s)) = Some (0, h)) ∨
     rc = 0 ∧
       (∃ s2, fat32_has_label dev label s' = Some (true, s2)) ∧
       ∃ root s2, fat32_mount fat_ops dev s' = Some (root, s2) ∧
         (root = 0 ∧ mount_no_memory (fs_mem (vo_fs s')) ∧ km_inv (fs_mem (vo_fs s2)) runs blocks ∨
          root ≠ 0 ∧ mounts_empty label root s2)).
Proof.
  intros b0 total Ob Im Hpos. apply wp_run. pose proof (bl_size_bound _ dev Ob) as Hsz.
  apply (format_wp healthy runs blocks); [done|done|done| |]; fold b0; fold total.
  - intros s' Hwhy I' (_ & _ & G). by left.
  - intros offset serial r s' Hb Ht I' G. right. split; [done|]. assert (Htn : 32 <= total <= bl_size b0 dev) by (unfold total; lia).
    assert (Hlt : total < 2 ^ 32) by (unfold total; lia). split.
    + assert (W : wp (fat32_has_label dev label) (λ r _, r = true) s').
      { unfold fat32_has_label. wp_steps. eapply (parse_boot_wp healthy); [exact Htn|exact Hlt|exact Hb|exact G|]. intros b Gb. wp_steps.
        eapply wp_lift; [apply boot_sector_fields|]. wp_steps. by rewrite bool_decide_true. }
      apply wp_run in W as (x & s2 & E & ->). by exists s2.
    + apply wp_run. eapply mount_wp; [exact Htn|exact Hlt|exact Hb|exact G|exact I'| |].
      * intros s2 N I2 _. by left.
      * intros root s2 Hr M. by right.
Qed.
End FatMount.

(** * Formatting the demonstration disk *)
#[local] Instance demo_clock : Clock unit := { clk_rtc_read c := Some ((0, MkRtcTime 2026 1 2 3 4 5 6), c) }.
#[local] Instance demo_clock_laws : ClockLaws unit.
Proof. constructor. intros c. by eexists _, _. Qed.
(** Memory for the 64 KiB of zeros. *)
Definition demo_big_heap : heap := Heap (Pmm [3; 0; 0; 0] 4 (32 * PAGE_SIZE) 30 30 (2 ^ 47)) ∅.
Lemma demo_big_heap_inv : km_inv demo_big_heap [] [].
Proof. constructor; [|repeat constructor|constructor]. constructor; [repeat constructor; done|vm_compute; repeat split; congruence ..]. Qed.
Definition demo_vol : vol (H := heap) (B := blockst (H := heap) (D := gmap Z (list Z))) (C := unit) :=
  Vol (Fs demo_big_heap ∅ ∅ []) ∅ ∅ demo_block tt.

Lemma demo_mount_root rc s1 root s2 :
  fat32_format 0 (to_str "STRAW") demo_vol = Some (rc, s1) → fat32_mount 0x5000 0 s1 = Some (root, s2) → root ≠ 0.
Proof.
  intros E E2. assert (R : (x ← fat32_format 0 (to_str "STRAW"); fat32_mount 0x5000 0) demo_vol = Some (root, s2)).
  { unfold mbind at 1, M_bind. by rewrite E. }
  assert (R2 : (fst <$> (x ← fat32_format 0 (to_str "STRAW"); fat32_mount 0x5000 0) demo_vol) ≠ Some 0) by (vm_compute; discriminate).
  rewrite R in R2. intros ->. by apply R2.
Qed.
(** The disk is formatted with the label STRAW, and mounting it then gives an empty volume. *)
Lemma fat32_format_mount_witness :
  let s' := run_state (fat32_format 0 (to_str "STRAW")) demo_vol in
  fst <$> fat32_format 0 (to_str "STRAW") demo_vol = Some 0 ∧
  (∃ s2, fat32_has_label 0 (to_str "STRAW") s' = Some (true, s2)) ∧
  ∃ root s2, fat32_mount 0x5000 0 s' = Some (root, s2) ∧ mounts_empty 0x5000 [] [] (to_str "STRAW") root s2.
Proof.
  intros s'. assert (R : fst <$> fat32_format 0 (to_str "STRAW") demo_vol = Some 0) by (vm_compute; reflexivity).
  split; [exact R|]. pose proof demo_mount_root as R2. unfold s', run_state. clear s'.
  pose proof (demo_block_ok : bl_ok (vo_blk demo_vol)) as Ob. pose proof (demo_big_heap_inv : km_inv (fs_mem (vo_fs demo_vol)) [] []) as Im.
  assert (Hpos : 0 < bl_size (vo_blk demo_vol) 0) by (vm_compute; reflexivity).
  pose proof (fat32_format_mount demo_healthy 0x5000 [] [] 0 (to_str "STRAW") demo_vol Ob Im Hpos) as (rc & s1 & E & W). rewrite E in R |- *.
  injection R as ->. destruct W as [[W _]|(_ & L & root & s2 & E2 & M)]; [discriminate W|]. split; [exact L|]. exists root, s2.
  split; [exact E2|]. destruct M as [[-> _]|[_ M]]; [|exact M]. by destruct (R2 _ _ _ _ E E2).
Defined.
