(* ===== verification/Ring.v ===== *)
(** * Rings

    An array of [N] places used as a queue: [count] items from [head] on, around the end.
    [ring_items] lists them, oldest first; putting one in at the tail appends, taking from the
    head drops, and copies in two pieces are those of the list. *)
From S2P Require Import Prelude RawMem Pmm Heap VfsTypes Ramfs.
Local Open Scope kernel_scope.

Section Ring.
Context {A : Type} (d : A) (N : Z) (HN : 0 < N).
Implicit Types l : list A.

Definition ring_at l (head j : Z) : A := default d (l !!z ((head + j) mod N)).
Definition ring_items l (head count : Z) : list A := map (ring_at l head) (seqZ 0 count).
Definition ring_wf l (head count : Z) : Prop := Z.of_nat (length l) = N ∧ 0 <= head < N ∧ 0 <= count <= N.

Lemma ring_items_length l head count : 0 <= count → Z.of_nat (length (ring_items l head count)) = count.
Proof using HN. intros H. unfold ring_items. rewrite length_map, length_seqZ. lia. Qed.
Lemma ring_mod a : 0 <= a < 2 * N → a mod N = if a <? N then a else a - N.
Proof using HN. intros H. destruct (Z.ltb_spec a N); [apply Z.mod_small; lia|]. symmetry. apply (Z.mod_unique _ _ 1); lia. Qed.
Lemma ring_bound a : 0 <= a mod N < N.
Proof using HN. by apply Z.mod_pos_bound. Qed.

(** Taking [n] items from the head. *)
Lemma ring_drop l head count n :
  0 <= n <= count → ring_items l ((head + n) mod N) (count - n) = drop (Z.to_nat n) (ring_items l head count).
Proof using HN.
  intros Hn. unfold ring_items. rewrite (seqZ_split count n) by lia. rewrite map_app, drop_app_ge by (rewrite length_map, length_seqZ; lia).
  rewrite length_map, length_seqZ, Nat.sub_diag, drop_0. apply map_seqZ_shift. intros i Hi. unfold ring_at. do 2 f_equal.
  rewrite Zplus_mod_idemp_l. f_equal. lia.
Qed.
Lemma ring_items_head l head count x :
  ring_wf l head count → 0 < count → l !!z head = Some x → ring_items l head count = x :: ring_items l ((head + 1) mod N) (count - 1).
Proof using HN.
  intros (L & Hh & Hc) Hpos Hx. rewrite (ring_drop l head count 1) by lia. unfold ring_items. rewrite (seqZ_cons 0 count) by lia. cbn [map].
  change (Z.to_nat 1) with 1%nat. cbn [drop]. f_equal. unfold ring_at. rewrite Z.add_0_r, Z.mod_small by lia. by rewrite Hx.
Qed.
(** Putting one in. *)
Lemma ring_push l head count x :
  ring_wf l head count → count < N →
  ∃ l', updateZ ((head + count) mod N) x l = Some l' ∧ ring_wf l' head (count + 1) ∧ ring_items l' head (count + 1) = ring_items l head count ++ [x].
Proof using HN.
  intros (L & Hh & Hc) Hlt. pose proof (ring_bound (head + count)) as Ht. eexists. split; [apply updateZ_is_Some; lia|].
  split; [split_and!; rewrite ?length_insert; lia|]. unfold ring_items. rewrite (seqZ_split (count + 1) count) by lia. rewrite map_app. f_equal.
  - apply map_seqZ_shift. intros i Hi. unfold ring_at. rewrite lookupZ_insert_ne; [done|lia|].
    rewrite !ring_mod by lia. destruct (Z.ltb_spec (head + count) N), (Z.ltb_spec (head + (0 + i)) N); lia.
  - replace (count + 1 - count) with 1 by lia. rewrite seqZ_cons by lia. rewrite seqZ_nil by lia. cbn [map]. f_equal.
    unfold ring_at. by rewrite lookupZ_insert_eq by lia.
Qed.
End Ring.

(** ** Rings of bytes *)
Section Bytes.
Context (N : Z) (HN : 0 < N).
Implicit Types l : list Z.
Local Abbreviation items := (ring_items (A := Z) 0 N).

(** Copying [n] bytes out, up to the end of the array and on from its beginning. *)
Lemma ring_read l head count n :
  ring_wf N l head count → 0 <= n <= count →
  let first := Z.min n (N - head) in
  ∃ a b, read_range l head first = Some a ∧ read_range l 0 (n - first) = Some b ∧ a ++ b = take (Z.to_nat n) (items l head count).
Proof using HN.
  intros (L & Hh & Hc) Hn first. destruct (read_range_Some l head first) as [a Ha]; [lia|unfold first; lia|].
  destruct (read_range_Some l 0 (n - first)) as [b Hb]; [lia|unfold first; lia|]. exists a, b. split_and!; [done|done|].
  apply read_range_map in Ha; [|unfold first; lia]. apply read_range_map in Hb; [|unfold first; lia]. subst a b.
  unfold ring_items. rewrite (seqZ_split count n) by lia. rewrite map_app, take_app_le, take_ge by (rewrite length_map, length_seqZ; lia).
  rewrite (seqZ_split n first) by (unfold first; lia). rewrite map_app. f_equal; apply map_seqZ_shift; intros i Hi; unfold ring_at; do 2 f_equal.
  - rewrite Z.mod_small; unfold first in *; lia.
  - apply (Z.mod_unique _ _ 1); unfold first in *; lia.
Qed.
(** Copying bytes in behind the tail. *)
Lemma ring_write l head count src :
  ring_wf N l head count → count + Z.of_nat (length src) <= N →
  let tail := (head + count) mod N in
  let first := Z.min (Z.of_nat (length src)) (N - tail) in
  ∃ a b, write_range l tail (take (Z.to_nat first) src) = Some a ∧ write_range a 0 (drop (Z.to_nat first) src) = Some b ∧
    ring_wf N b head (count + Z.of_nat (length src)) ∧ items b head (count + Z.of_nat (length src)) = items l head count ++ src.
Proof using HN.
  intros (L & Hh & Hc) Hn tail first. set (k := Z.of_nat (length src)) in *. pose proof (ring_bound N HN (head + count)) as Ht. fold tail in Ht.
  assert (Lt : Z.of_nat (length (take (Z.to_nat first) src)) = first) by (rewrite length_take; unfold first; lia).
  assert (Ld : Z.of_nat (length (drop (Z.to_nat first) src)) = k - first) by (rewrite length_drop; unfold first; lia).
  destruct (write_range_Some l tail (take (Z.to_nat first) src)) as [a Ha]; [lia|unfold first in *; lia|].
  pose proof (λ j, write_range_lookup _ _ _ _ j Ha) as WA. destruct (WA 0) as [La _].
  destruct (write_range_Some a 0 (drop (Z.to_nat first) src)) as [b Hb]; [lia|unfold first in *; lia|].
  pose proof (λ j, write_range_lookup _ _ _ _ j Hb) as WB. destruct (WB 0) as [Lb _].
  exists a, b. split_and!; [done|done|split_and!; lia|]. unfold ring_items. rewrite (seqZ_split (count + k) count) by lia.
  rewrite map_app. f_equal.
  - apply map_seqZ_shift. intros i Hi. unfold ring_at. f_equal. rewrite (proj2 (WB _)), (proj2 (WA _)), Lt, Ld.
    assert (Ej := ring_mod N HN (head + (0 + i)) ltac:(lia)). assert (Et := ring_mod N HN (head + count) ltac:(lia)). fold tail in Et.
    set (j := (head + (0 + i)) mod N) in *. unfold first in *. clearbody j tail.
    rewrite !decide_False; [done| |]; destruct (Z.ltb_spec (head + (0 + i)) N), (Z.ltb_spec (head + count) N); lia.
  - replace (count + k - count) with k by lia. apply lookupZ_ext.
    { apply Nat2Z.inj. rewrite length_map, length_seqZ. unfold k. lia. }
    intros j Hj. rewrite length_map, length_seqZ in Hj. rewrite map_seqZ_lookup by lia.
    destruct (lookupZ_lt_is_Some src j) as [v Hv]; [unfold k in *; lia|]. rewrite Hv. f_equal. unfold ring_at.
    rewrite (proj2 (WB _)), (proj2 (WA _)), Lt, Ld.
    assert (Hm : (head + (count + j)) mod N = if j <? first then tail + j else j - first).
    { rewrite Z.add_assoc, <- Zplus_mod_idemp_l. fold tail. rewrite ring_mod by lia. unfold first.
      destruct (Z.ltb_spec (tail + j) N), (Z.ltb_spec j (Z.min k (N - tail))); lia. }
    rewrite Hm. destruct (Z.ltb_spec j first).
    + rewrite decide_False by (unfold first in *; lia). rewrite decide_True by lia. unfold lookupZ in *.
      destruct (Z.ltb_spec j 0), (Z.ltb_spec (tail + j - tail) 0); try lia; try done. rewrite lookup_take_lt by lia.
      by replace (Z.to_nat (tail + j - tail)) with (Z.to_nat j) by lia; rewrite Hv.
    + rewrite decide_True by lia. unfold lookupZ in *. destruct (Z.ltb_spec j 0), (Z.ltb_spec (j - first - 0) 0); try lia; try done.
      rewrite lookup_drop. by replace (Z.to_nat first + Z.to_nat (j - first - 0))%nat with (Z.to_nat j) by (unfold first in *; lia); rewrite Hv.
Qed.
End Bytes.
