(* ===== verification/Net.v ===== *)
(** * kernel/net/net.c: Ethernet, ARP, IPv4 and ICMP

    The addresses of the machine, the cache of ARP, the queue of the loopback and the sending
    half of IPv4 and UDP.  A packet is a list of bytes; where the code has a pointer into a buffer
    and a length, the list goes on to the end of the buffer, so that a length that is too
    large reads what lies behind the packet or, at the end of the buffer, goes wrong.
    What the network stack uses of the rest of the kernel is the class [NetHost]. *)
From S2P Require Import Prelude RawMem Pmm Heap VfsTypes Ramfs.
Local Open Scope kernel_scope.

(** ** Numbers and checksums *)

(** [kernel/net/net.c: net_htons] *)
Definition net_htons (v : Z) : Z := u16 (Z.lor (Z.shiftl v 8) (Z.shiftr v 8)).
(** [kernel/net/net.c: net_htonl] *)
Definition net_htonl (v : Z) : Z :=
  Z.lor (Z.lor (Z.shiftl (Z.land v 0x000000FF) 24) (Z.shiftl (Z.land v 0x0000FF00) 8))
        (Z.lor (Z.shiftr (Z.land v 0x00FF0000) 8) (Z.shiftr (Z.land v 0xFF000000) 24)).
(** The bytes of a number in network order, as the structures hold it. *)
Definition be16 (v : Z) : list Z := le_split 2 (net_htons v).
Definition be32 (v : Z) : list Z := le_split 4 (net_htonl v).
(** The field of [n] bytes at [off] of a packet, before [net_htons] or [net_htonl]. *)
Definition raw_field (data : list Z) (off n : Z) : option Z := le_combine <$> read_range data off n.

(** The 16-bit words added up, an odd last byte as the high half of a word.
    [kernel/net/net.c: ip_checksum 147-151] *)
Fixpoint sum_words (sum : Z) (data : list Z) : Z :=
  match data with
  | hi :: lo :: data' => sum_words (u32 (sum + Z.lor (Z.shiftl hi 8) lo)) data'
  | [hi] => u32 (sum + Z.shiftl hi 8)
  | [] => sum
  end.
(** [while (sum >> 16) sum = (sum & 0xFFFF) + (sum >> 16);] [kernel/net/net.c: ip_checksum 153-154] *)
Fixpoint fold_sum (fuel : nat) (sum : Z) : option Z :=
  if Z.shiftr sum 16 =? 0 then Some sum
  else match fuel with O => None | S fuel' => fold_sum fuel' (u32 (Z.land sum 0xFFFF + Z.shiftr sum 16)) end.
(** A 32-bit sum is folded in two turns. *)
Definition fold_fuel : nat := 2.
(** [kernel/net/net.c: ip_checksum] *)
Definition ip_checksum (data : list Z) : option Z :=
  s ← fold_sum fold_fuel (sum_words 0 data); Some (u16 (Z.lnot s)).

(** ** Data *)

(** [kernel/net/net.h 12-17] *)
Record Ipv4Addr := Ip { ip_a : Z; ip_b : Z; ip_c : Z; ip_d : Z }.
#[export] Instance Ipv4Addr_eq_dec : EqDecision Ipv4Addr.
Proof. solve_decision. Defined.
Definition ip_bytes (ip : Ipv4Addr) : list Z := [ip_a ip; ip_b ip; ip_c ip; ip_d ip].
(** [kernel/net/net.h: ipv4_from_bytes] *)
Definition ipv4_from_bytes (a b c d : Z) : Ipv4Addr := Ip a b c d.
(** The address at [off] of a packet. *)
Definition ip_field (data : list Z) (off : Z) : option Ipv4Addr :=
  a ← data !!z off; b ← data !!z (off + 1); c ← data !!z (off + 2); d ← data !!z (off + 3); Some (ipv4_from_bytes a b c d).
(** [kernel/net/net.c: ipv4_equal] *)
Definition ipv4_equal (a b : Ipv4Addr) : bool :=
  (ip_a a =? ip_a b) && (ip_b a =? ip_b b) && (ip_c a =? ip_c b) && (ip_d a =? ip_d b).
(** [kernel/net/net.c: ipv4_same_subnet] *)
Definition ipv4_same_subnet (a b mask : Ipv4Addr) : bool :=
  (Z.land (ip_a a) (ip_a mask) =? Z.land (ip_a b) (ip_a mask)) && (Z.land (ip_b a) (ip_b mask) =? Z.land (ip_b b) (ip_b mask)) &&
  (Z.land (ip_c a) (ip_c mask) =? Z.land (ip_c b) (ip_c mask)) && (Z.land (ip_d a) (ip_d mask) =? Z.land (ip_d b) (ip_d mask)).
Definition zero_ip : Ipv4Addr := Ip 0 0 0 0.
Definition broadcast_ip : Ipv4Addr := Ip 255 255 255 255.

(** [kernel/net/net.h 1-7] *)
Definition SIZEOF_ETH_HEADER : Z := 14.
(** [kernel/net/net.h 9-10] *)
Definition ETHERTYPE_ARP : Z := 0x0806.
Definition ETHERTYPE_IPV4 : Z := 0x0800.
Definition SIZEOF_ARP_PACKET : Z := 28.
(** [kernel/net/net.c 28-32] *)
Definition ARP_HTYPE_ETHERNET : Z := 1.
Definition ARP_OPER_REQUEST : Z := 1.
Definition ARP_OPER_REPLY : Z := 2.
Definition ARP_CACHE_SIZE : nat := 8.
(** [kernel/net/net.c 34-43] *)
Record ArpEntry := MkArp { ar_valid : bool; ar_ip : Ipv4Addr; ar_mac : list Z }.
Definition zero_arp : ArpEntry := MkArp false zero_ip (replicate 6 0).
(** [kernel/net/net.c 45-58] *)
Definition SIZEOF_IPV4_HEADER : Z := 20.
(** [kernel/net/net.c 60-62] *)
Definition IPV4_PROTO_ICMP : Z := 1.
Definition IPV4_PROTO_TCP : Z := 6.
Definition IPV4_PROTO_UDP : Z := 17.
(** [kernel/net/net.c 64-71] *)
Definition SIZEOF_UDP_HEADER : Z := 8.
(** [kernel/net/net.c 73-81] *)
Definition SIZEOF_ICMP_HEADER : Z := 8.
(** [kernel/net/net.c 83-84] *)
Definition ICMP_TYPE_ECHO_REQUEST : Z := 8.
Definition ICMP_TYPE_ECHO_REPLY : Z := 0.
(** The buffers of a packet and of a frame. *)
Definition MTU : Z := 1500.
Definition FRAME_MAX : Z := 1514.

Definition LOOPBACK_QUEUE : nat := 64.
(** [kernel/net/net.c 363-376] *)
Record LoopbackPacket := MkLoop { lp_addr : Ipv4Addr; lp_protocol : Z; lp_len : Z; lp_data : list Z }.
Definition zero_loop : LoopbackPacket := MkLoop zero_ip 0 0 (replicate 1500 0).

(** [kernel/net/net.c 133-138] *)
Record NetAddr := MkAddr { na_mac : list Z; na_ip : Ipv4Addr; na_gw : Ipv4Addr; na_mask : Ipv4Addr; na_dns : Ipv4Addr; na_up : bool }.
Definition BROADCAST_MAC : list Z := replicate 6 0xFF.
(** What is expected of an echo, and the number of the last one. [kernel/net/net.c 301-303] *)
Record Ping := MkPing { pg_received : bool; pg_id : Z; pg_seq : Z; pg_last : Z }.
(** [kernel/net/net.c 562-570] *)
Record Dhcp := MkDhcp {
  dh_offer : bool; dh_ack : bool; dh_nak : bool; dh_xid : Z; dh_ip : Ipv4Addr; dh_server : Ipv4Addr; dh_mask : Ipv4Addr;
  dh_gw : Ipv4Addr; dh_dns : Ipv4Addr
}.
(** The static variables of the file.  The only callback of UDP is [dhcp_handle_reply]:
    [nt_udp_cb] says whether it is set. *)
Record netst := MkNet {
  nt_addr : NetAddr;
  nt_arp : list ArpEntry;
  nt_arp_next : Z;
  nt_ip_id : Z;
  nt_loop : list LoopbackPacket;
  nt_loop_head : Z;
  nt_loop_count : Z;
  nt_ping : Ping;
  nt_udp_port : Z;
  nt_udp_cb : bool;
  nt_dhcp : Dhcp
}.
Definition set_nt_addr (x : NetAddr) (n : netst) : netst :=
  MkNet x (nt_arp n) (nt_arp_next n) (nt_ip_id n) (nt_loop n) (nt_loop_head n) (nt_loop_count n) (nt_ping n) (nt_udp_port n) (nt_udp_cb n) (nt_dhcp n).
Definition set_nt_arp (l : list ArpEntry) (next : Z) (n : netst) : netst :=
  MkNet (nt_addr n) l next (nt_ip_id n) (nt_loop n) (nt_loop_head n) (nt_loop_count n) (nt_ping n) (nt_udp_port n) (nt_udp_cb n) (nt_dhcp n).
Definition set_nt_ip_id (x : Z) (n : netst) : netst :=
  MkNet (nt_addr n) (nt_arp n) (nt_arp_next n) x (nt_loop n) (nt_loop_head n) (nt_loop_count n) (nt_ping n) (nt_udp_port n) (nt_udp_cb n) (nt_dhcp n).
Definition set_nt_loop (l : list LoopbackPacket) (head count : Z) (n : netst) : netst :=
  MkNet (nt_addr n) (nt_arp n) (nt_arp_next n) (nt_ip_id n) l head count (nt_ping n) (nt_udp_port n) (nt_udp_cb n) (nt_dhcp n).
Definition set_nt_ping (x : Ping) (n : netst) : netst :=
  MkNet (nt_addr n) (nt_arp n) (nt_arp_next n) (nt_ip_id n) (nt_loop n) (nt_loop_head n) (nt_loop_count n) x (nt_udp_port n) (nt_udp_cb n) (nt_dhcp n).
Definition set_nt_udp (port : Z) (cb : bool) (n : netst) : netst :=
  MkNet (nt_addr n) (nt_arp n) (nt_arp_next n) (nt_ip_id n) (nt_loop n) (nt_loop_head n) (nt_loop_count n) (nt_ping n) port cb (nt_dhcp n).
Definition set_nt_dhcp (x : Dhcp) (n : netst) : netst :=
  MkNet (nt_addr n) (nt_arp n) (nt_arp_next n) (nt_ip_id n) (nt_loop n) (nt_loop_head n) (nt_loop_count n) (nt_ping n) (nt_udp_port n) (nt_udp_cb n) x.

(** What the network stack uses: the network card, the clock, the wait queue of the
    scheduler, and the table of descriptors. *)
Class NetHost (E : Type) := {
  nh_nic_send : list Z → M E unit;
  nh_nic_mac : M E (list Z);
  nh_uptime_ms : M E Z;
  nh_rdtsc : M E (Z * Z);
  nh_wake_waiters : M E unit;
  nh_fd_alloc : M E Z;
  nh_fd_set : Z → Z → Z → M E unit;
  nh_file_ops : Z → M E Z
}.

Section Net.
Context {E : Type} `{NH : NetHost E}.

Record net := Net { nw_st : netst; nw_host : E }.
Definition on_host {A} (m : M E A) : M net A := zoom nw_host (λ e s, Net (nw_st s) e) m.
Definition net_get {A} (f : netst → A) : M net A := gets (λ s, f (nw_st s)).
Definition net_upd (f : netst → netst) : M net unit := modify (λ s, Net (f (nw_st s)) (nw_host s)).

(** ** Ethernet and ARP *)

(** [payload_len] bytes of [payload]. [kernel/net/net.c: eth_send] *)
Definition eth_send (dst_mac : list Z) (ethertype : Z) (payload : list Z) (payload_len : Z) : M net unit :=
  a ← net_get nt_addr;
  let total := Z.min (u16 (SIZEOF_ETH_HEADER + payload_len)) FRAME_MAX in
  if total <? SIZEOF_ETH_HEADER then fail
  else
    p ← lift (read_range payload 0 (total - SIZEOF_ETH_HEADER));
    on_host (nh_nic_send (dst_mac ++ na_mac a ++ be16 ethertype ++ p)).

(** The bytes of an [ArpPacket]. [kernel/net/net.c 14-26] *)
Definition arp_packet (oper : Z) (sender_mac : list Z) (sender_ip : Ipv4Addr) (target_mac : list Z) (target_ip : Ipv4Addr) : list Z :=
  be16 ARP_HTYPE_ETHERNET ++ be16 ETHERTYPE_IPV4 ++ [6; 4] ++ be16 oper ++ sender_mac ++ ip_bytes sender_ip ++ target_mac ++ ip_bytes target_ip.
(** [kernel/net/net.c: arp_send_request] *)
Definition arp_send_request (target_ip : Ipv4Addr) : M net unit :=
  a ← net_get nt_addr;
  eth_send BROADCAST_MAC ETHERTYPE_ARP (arp_packet ARP_OPER_REQUEST (na_mac a) (na_ip a) (replicate 6 0) target_ip) SIZEOF_ARP_PACKET.

(** The first entry of the cache for [ip]. *)
Definition arp_index (ip : Ipv4Addr) (l : list ArpEntry) : option nat :=
  fst <$> list_find (λ e, ar_valid e && ipv4_equal (ar_ip e) ip) l.
(** An answer goes into the entry there is or into the next one in turn.
    [kernel/net/net.c: arp_handle_packet 250-262] *)
Definition arp_learn (ip : Ipv4Addr) (mac : list Z) (n : netst) : option netst :=
  match arp_index ip (nt_arp n) with
  | Some i => e ← nt_arp n !! i; Some (set_nt_arp (<[i := MkArp true (ar_ip e) mac]> (nt_arp n)) (nt_arp_next n) n)
  | None =>
      l ← updateZ (nt_arp_next n) (MkArp true ip mac) (nt_arp n);
      Some (set_nt_arp l ((nt_arp_next n + 1) mod Z.of_nat ARP_CACHE_SIZE) n)
  end.
(** [kernel/net/net.c: arp_handle_packet] *)
Definition arp_handle_packet (data : list Z) (len : Z) : M net unit :=
  if len <? SIZEOF_ARP_PACKET then mret tt
  else
    htype ← lift (raw_field data 0 2); ptype ← lift (raw_field data 2 2); oper ← lift (raw_field data 6 2);
    sender_mac ← lift (read_range data 8 6); sender_ip ← lift (ip_field data 14); target_ip ← lift (ip_field data 24);
    if negb (net_htons htype =? ARP_HTYPE_ETHERNET) || negb (net_htons ptype =? ETHERTYPE_IPV4) then mret tt
    else if net_htons oper =? ARP_OPER_REQUEST then
      a ← net_get nt_addr;
      if negb (ipv4_equal target_ip (na_ip a)) then mret tt
      else eth_send sender_mac ETHERTYPE_ARP (arp_packet ARP_OPER_REPLY (na_mac a) (na_ip a) sender_mac sender_ip) SIZEOF_ARP_PACKET
    else if net_htons oper =? ARP_OPER_REPLY then
      n ← net_get id; n' ← lift (arp_learn sender_ip sender_mac n); net_upd (λ _, n')
    else mret tt.
(** The address found, if any. [kernel/net/net.c: arp_lookup] *)
Definition arp_lookup (ip : Ipv4Addr) : M net (option (list Z)) :=
  l ← net_get nt_arp;
  mret (i ← arp_index ip l; e ← l !! i; Some (ar_mac e)).

(** ** IPv4 *)

(** [kernel/net/net.c: ipv4_send_from 346-356] *)
Definition ipv4_header (src dst : Ipv4Addr) (protocol total_len id checksum : Z) : list Z :=
  [0x45; 0] ++ be16 total_len ++ be16 id ++ [0; 0; 64; protocol] ++ le_split 2 checksum ++ ip_bytes src ++ ip_bytes dst.
(** [kernel/net/net.c: ipv4_send_from] *)
Definition ipv4_send_from (src dst : Ipv4Addr) (dst_mac : list Z) (protocol : Z) (payload : list Z) (payload_len : Z) : M net unit :=
  let total_len := Z.min (u16 (SIZEOF_IPV4_HEADER + payload_len)) MTU in
  if total_len <? SIZEOF_IPV4_HEADER then fail
  else
    id ← net_get nt_ip_id;
    net_upd (set_nt_ip_id (u16 (id + 1)));;
    sum ← lift (ip_checksum (ipv4_header src dst protocol total_len id 0));
    p ← lift (read_range payload 0 (total_len - SIZEOF_IPV4_HEADER));
    eth_send dst_mac ETHERTYPE_IPV4 (ipv4_header src dst protocol total_len id (net_htons sum) ++ p) total_len.

(** [kernel/net/net.c: ipv4_is_local] *)
Definition ipv4_is_local (a : NetAddr) (ip : Ipv4Addr) : bool := (ip_a ip =? 127) || (na_up a && ipv4_equal ip (na_ip a)).
(** [kernel/net/net.c: loopback_send] *)
Definition loopback_send (dst : Ipv4Addr) (protocol : Z) (payload : list Z) (payload_len : Z) : M net unit :=
  n ← net_get id;
  if (nt_loop_count n <? Z.of_nat LOOPBACK_QUEUE) && (payload_len <=? MTU) then
    let i := (nt_loop_head n + nt_loop_count n) mod Z.of_nat LOOPBACK_QUEUE in
    p ← lift (nt_loop n !!z i);
    bs ← lift (read_range payload 0 payload_len);
    d ← lift (write_range (lp_data p) 0 bs);
    l ← lift (updateZ i (MkLoop dst protocol payload_len d) (nt_loop n));
    net_upd (set_nt_loop l (nt_loop_head n) (nt_loop_count n + 1))
  else mret tt.
(** [kernel/net/net.c: ipv4_send] *)
Definition ipv4_send (dst : Ipv4Addr) (protocol : Z) (payload : list Z) (payload_len : Z) : M net unit :=
  a ← net_get nt_addr;
  if ipv4_is_local a dst then loopback_send dst protocol payload payload_len
  else
    let next_hop := if ipv4_same_subnet dst (na_ip a) (na_mask a) then dst else na_gw a in
    m ← arp_lookup next_hop;
    match m with
    | None => arp_send_request next_hop
    | Some mac => ipv4_send_from (na_ip a) dst mac protocol payload payload_len
    end.

(** [kernel/net/net.c: net_local_ip] *)
Definition net_local_ip : M net Ipv4Addr := net_get (λ n, na_ip (nt_addr n)).
(** [kernel/net/net.c: net_is_up] *)
Definition net_is_up : M net bool := net_get (λ n, na_up (nt_addr n)).
(** Address, gateway, mask and name server. [kernel/net/net.c: net_status] *)
Definition net_status : M net (Ipv4Addr * Ipv4Addr * Ipv4Addr * Ipv4Addr) :=
  a ← net_get nt_addr; mret (na_ip a, na_gw a, na_mask a, na_dns a).

(** ** UDP and ICMP *)

(** [kernel/net/net.c: udp_send] *)
Definition udp_send (dst : Ipv4Addr) (src_port dst_port : Z) (payload : list Z) (payload_len : Z) : M net unit :=
  let total_len := Z.min (u16 (SIZEOF_UDP_HEADER + payload_len)) MTU in
  if total_len <? SIZEOF_UDP_HEADER then fail
  else
    p ← lift (read_range payload 0 (total_len - SIZEOF_UDP_HEADER));
    ipv4_send dst IPV4_PROTO_UDP (be16 src_port ++ be16 dst_port ++ be16 total_len ++ [0; 0] ++ p) total_len.
(** [kernel/net/net.c: udp_listen] *)
Definition udp_listen (port : Z) (cb : bool) : M net unit := net_upd (set_nt_udp port cb).

(** [kernel/net/net.c: icmp_handle_packet] *)
Definition icmp_handle_packet (src_ip : Ipv4Addr) (data : list Z) (len : Z) : M net unit :=
  if len <? SIZEOF_ICMP_HEADER then mret tt
  else
    type ← lift (data !!z 0);
    if type =? ICMP_TYPE_ECHO_REQUEST then
      let total_len := Z.min len MTU in
      buf ← lift (read_range data 0 total_len);
      buf ← lift (write_range buf 0 [ICMP_TYPE_ECHO_REPLY]);
      buf ← lift (write_range buf 2 [0; 0]);
      sum ← lift (ip_checksum buf);
      buf ← lift (write_range buf 2 (be16 sum));
      ipv4_send src_ip IPV4_PROTO_ICMP buf total_len
    else if type =? ICMP_TYPE_ECHO_REPLY then
      id ← lift (raw_field data 4 2); seq ← lift (raw_field data 6 2);
      p ← net_get nt_ping;
      if (net_htons id =? pg_id p) && (net_htons seq =? pg_seq p)
      then net_upd (set_nt_ping (MkPing true (pg_id p) (pg_seq p) (pg_last p)))
      else mret tt
    else mret tt.

(** The bytes of an [IcmpHeader]. *)
Definition icmp_header (type checksum id seq : Z) : list Z := [type; 0] ++ le_split 2 checksum ++ be16 id ++ be16 seq.
(** The echo sent. [kernel/net/net.c: net_ping 828-843] *)
Definition ping_start (dst : Ipv4Addr) : M net unit :=
  p ← net_get nt_ping;
  let seq := u16 (pg_last p + 1) in
  sum ← lift (ip_checksum (icmp_header ICMP_TYPE_ECHO_REQUEST 0 0xBEEF seq));
  net_upd (set_nt_ping (MkPing false 0xBEEF seq seq));;
  ipv4_send dst IPV4_PROTO_ICMP (icmp_header ICMP_TYPE_ECHO_REQUEST (net_htons sum) 0xBEEF seq) SIZEOF_ICMP_HEADER.
End Net.
