(* ===== verification/Inet.v ===== *)
(** * kernel/net/inet.c: the sockets of the network

    The table of sockets, TCP and UDP.  A pointer to a socket is its index in the table, -1
    being NULL.  What the file calls of the rest of the kernel is the class [InetHost]: the sending
    half of net.c, the clock, the wait queue and the table of descriptors; pages and blocks
    come from [KernelMem].  The pages of a buffer are the list of their bytes next to the pointer.
    An operation that sleeps is one turn of its loop and says [Block]. *)
From S2P Require Import Prelude RawMem Pmm Heap VfsTypes Ramfs Task TaskRing Sched FsKcalls Socket Net.
Local Open Scope kernel_scope.

(** [kernel/system/socket.h 20-22] *)
Definition ENETDOWN : Z := 100.
Definition EINPROGRESS : Z := 115.
Definition ETIMEDOUT : Z := 110.

(** [kernel/net/inet.c 1-11] *)
Definition INET_MAX_SOCKETS : Z := 32.
Definition TCP_RX_SIZE : Z := 128 * 1024.
Definition TCP_TX_SIZE : Z := 64 * 1024.
Definition TCP_MSS : Z := 1400.
Definition TCP_RTO_MIN_MS : Z := 300.
Definition TCP_RTO_MAX_MS : Z := 8000.
Definition TCP_MAX_RETRIES : Z := 10.
Definition TCP_CONNECT_MS : Z := 15000.
Definition TCP_BACKLOG : Z := 16.
Definition UDP_QUEUE : Z := 256.
Definition UDP_MAX_DGRAM : Z := 1500.
(** [kernel/net/inet.c 13-17] *)
Definition TCP_FIN : Z := 0x01.
Definition TCP_SYN : Z := 0x02.
Definition TCP_RST : Z := 0x04.
Definition TCP_PSH : Z := 0x08.
Definition TCP_ACK : Z := 0x10.
Definition has (flags f : Z) : bool := negb (Z.land flags f =? 0).

(** [kernel/net/inet.c 19-31] *)
Record TcpHeader := MkTcp {
  th_src_port : Z; th_dst_port : Z; th_seq : Z; th_ack : Z; th_offset : Z; th_flags : Z; th_window : Z
}.
Definition SIZEOF_TCP_HEADER : Z := 20.
(** The header at the front of a segment, its fields as they are in memory. *)
Definition read_tcp_header (data : list Z) : option TcpHeader :=
  sp ← raw_field data 0 2; dp ← raw_field data 2 2; seq ← raw_field data 4 4; ack ← raw_field data 8 4;
  off ← data !!z 12; fl ← data !!z 13; win ← raw_field data 14 2;
  Some (MkTcp sp dp seq ack off fl win).

(** [kernel/net/inet.c 33-44] *)
Inductive TcpState :=
  TCP_CLOSED | TCP_SYN_SENT | TCP_ESTABLISHED | TCP_FIN_WAIT | TCP_CLOSE_WAIT | TCP_DONE | TCP_LISTEN | TCP_SYN_RCVD.
#[export] Instance TcpState_eq_dec : EqDecision TcpState.
Proof. solve_decision. Defined.
(** [kernel/net/inet.c 46-51] *)
Inductive InetKind := INET_TCP | INET_UDP.
#[export] Instance InetKind_eq_dec : EqDecision InetKind.
Proof. solve_decision. Defined.
(** [kernel/net/inet.c 53-60] *)
Record UdpDatagram := MkDgram { ud_len : Z; ud_ip : Ipv4Addr; ud_port : Z; ud_data : list Z }.
Definition zero_dgram : UdpDatagram := MkDgram 0 zero_ip 0 (replicate 1500 0).
(** [sizeof(UdpDatagram)] *)
Definition SIZEOF_UDP_DATAGRAM : Z := 1512.

(** ** Sockets *)

(** The state of a connection. [kernel/net/inet.c 75-85] *)
Record Tcb := MkTcb {
  tc_state : TcpState;
  tc_error : Z;
  tc_iss : Z;
  tc_una : Z;
  tc_nxt : Z;
  tc_wnd : Z;
  tc_rcv : Z;
  tc_fin_received : bool;
  tc_close_requested : bool;
  tc_fin_sent : bool;
  tc_fin_seq : Z
}.
Definition set_tc_state (x : TcpState) (t : Tcb) : Tcb :=
  MkTcb x (tc_error t) (tc_iss t) (tc_una t) (tc_nxt t) (tc_wnd t) (tc_rcv t) (tc_fin_received t) (tc_close_requested t) (tc_fin_sent t)
    (tc_fin_seq t).
Definition set_tc_error (x : Z) (t : Tcb) : Tcb :=
  MkTcb (tc_state t) x (tc_iss t) (tc_una t) (tc_nxt t) (tc_wnd t) (tc_rcv t) (tc_fin_received t) (tc_close_requested t) (tc_fin_sent t)
    (tc_fin_seq t).
Definition set_tc_una (x : Z) (t : Tcb) : Tcb :=
  MkTcb (tc_state t) (tc_error t) (tc_iss t) x (tc_nxt t) (tc_wnd t) (tc_rcv t) (tc_fin_received t) (tc_close_requested t) (tc_fin_sent t)
    (tc_fin_seq t).
Definition set_tc_nxt (x : Z) (t : Tcb) : Tcb :=
  MkTcb (tc_state t) (tc_error t) (tc_iss t) (tc_una t) x (tc_wnd t) (tc_rcv t) (tc_fin_received t) (tc_close_requested t) (tc_fin_sent t)
    (tc_fin_seq t).
Definition set_tc_wnd (x : Z) (t : Tcb) : Tcb :=
  MkTcb (tc_state t) (tc_error t) (tc_iss t) (tc_una t) (tc_nxt t) x (tc_rcv t) (tc_fin_received t) (tc_close_requested t) (tc_fin_sent t)
    (tc_fin_seq t).
Definition set_tc_rcv (x : Z) (t : Tcb) : Tcb :=
  MkTcb (tc_state t) (tc_error t) (tc_iss t) (tc_una t) (tc_nxt t) (tc_wnd t) x (tc_fin_received t) (tc_close_requested t) (tc_fin_sent t)
    (tc_fin_seq t).
Definition set_tc_fin_received (x : bool) (t : Tcb) : Tcb :=
  MkTcb (tc_state t) (tc_error t) (tc_iss t) (tc_una t) (tc_nxt t) (tc_wnd t) (tc_rcv t) x (tc_close_requested t) (tc_fin_sent t) (tc_fin_seq t).
Definition set_tc_close_requested (x : bool) (t : Tcb) : Tcb :=
  MkTcb (tc_state t) (tc_error t) (tc_iss t) (tc_una t) (tc_nxt t) (tc_wnd t) (tc_rcv t) (tc_fin_received t) x (tc_fin_sent t) (tc_fin_seq t).
Definition set_tc_start (iss : Z) (una : Z) (nxt : Z) (t : Tcb) : Tcb :=
  MkTcb (tc_state t) (tc_error t) iss una nxt (tc_wnd t) (tc_rcv t) (tc_fin_received t) (tc_close_requested t) (tc_fin_sent t) (tc_fin_seq t).
Definition set_tc_fin (sent : bool) (seq : Z) (t : Tcb) : Tcb :=
  MkTcb (tc_state t) (tc_error t) (tc_iss t) (tc_una t) (tc_nxt t) (tc_wnd t) (tc_rcv t) (tc_fin_received t) (tc_close_requested t) sent seq.
(** The ring of what has arrived. [kernel/net/inet.c 87-89] *)
Record RxRing := MkRx { rr_ptr : Z; rr_bytes : list Z; rr_head : Z; rr_count : Z }.
(** What has not been acknowledged. [kernel/net/inet.c 91-92] *)
Record TxBuf := MkTx { tb_ptr : Z; tb_bytes : list Z; tb_count : Z }.
(** [kernel/net/inet.c 94-97] *)
Record TcpTimer := MkTimer { tm_deadline : Z; tm_rto_ms : Z; tm_retries : Z; tm_done : Z }.
(** [kernel/net/inet.c 99-101] *)
Record UdpQueue := MkUq { uq_ptr : Z; uq_slots : list UdpDatagram; uq_head : Z; uq_count : Z }.
(** [kernel/net/inet.c 62-107] *)
Record InetSocket := MkInet {
  in_used : bool;
  in_kind : InetKind;
  in_flags : Z;
  in_node : VNode;
  in_remote_ip : Ipv4Addr;
  in_remote_port : Z;
  in_local_port : Z;
  in_connected : bool;
  in_orphan : bool;
  in_tcb : Tcb;
  in_rx : RxRing;
  in_tx : TxBuf;
  in_timer : TcpTimer;
  in_udp : UdpQueue;
  in_parent : Z;
  in_backlog : list Z;
  in_backlog_len : Z
}.
Definition set_in_flags (x : Z) (s : InetSocket) : InetSocket :=
  MkInet (in_used s) (in_kind s) x (in_node s) (in_remote_ip s) (in_remote_port s) (in_local_port s) (in_connected s) (in_orphan s) (in_tcb
    s) (in_rx s) (in_tx s) (in_timer s) (in_udp s) (in_parent s) (in_backlog s) (in_backlog_len s).
Definition set_in_remote (ip : Ipv4Addr) (port : Z) (s : InetSocket) : InetSocket :=
  MkInet (in_used s) (in_kind s) (in_flags s) (in_node s) ip port (in_local_port s) (in_connected s) (in_orphan s) (in_tcb s) (in_rx s)
    (in_tx s) (in_timer s) (in_udp s) (in_parent s) (in_backlog s) (in_backlog_len s).
Definition set_in_local_port (x : Z) (s : InetSocket) : InetSocket :=
  MkInet (in_used s) (in_kind s) (in_flags s) (in_node s) (in_remote_ip s) (in_remote_port s) x (in_connected s) (in_orphan s) (in_tcb s)
    (in_rx s) (in_tx s) (in_timer s) (in_udp s) (in_parent s) (in_backlog s) (in_backlog_len s).
Definition set_in_connected (x : bool) (s : InetSocket) : InetSocket :=
  MkInet (in_used s) (in_kind s) (in_flags s) (in_node s) (in_remote_ip s) (in_remote_port s) (in_local_port s) x (in_orphan s) (in_tcb s)
    (in_rx s) (in_tx s) (in_timer s) (in_udp s) (in_parent s) (in_backlog s) (in_backlog_len s).
Definition set_in_orphan (x : bool) (s : InetSocket) : InetSocket :=
  MkInet (in_used s) (in_kind s) (in_flags s) (in_node s) (in_remote_ip s) (in_remote_port s) (in_local_port s) (in_connected s) x (in_tcb
    s) (in_rx s) (in_tx s) (in_timer s) (in_udp s) (in_parent s) (in_backlog s) (in_backlog_len s).
Definition set_in_tcb (x : Tcb) (s : InetSocket) : InetSocket :=
  MkInet (in_used s) (in_kind s) (in_flags s) (in_node s) (in_remote_ip s) (in_remote_port s) (in_local_port s) (in_connected s) (in_orphan
    s) x (in_rx s) (in_tx s) (in_timer s) (in_udp s) (in_parent s) (in_backlog s) (in_backlog_len s).
Definition set_in_rx (x : RxRing) (s : InetSocket) : InetSocket :=
  MkInet (in_used s) (in_kind s) (in_flags s) (in_node s) (in_remote_ip s) (in_remote_port s) (in_local_port s) (in_connected s) (in_orphan
    s) (in_tcb s) x (in_tx s) (in_timer s) (in_udp s) (in_parent s) (in_backlog s) (in_backlog_len s).
Definition set_in_tx (x : TxBuf) (s : InetSocket) : InetSocket :=
  MkInet (in_used s) (in_kind s) (in_flags s) (in_node s) (in_remote_ip s) (in_remote_port s) (in_local_port s) (in_connected s) (in_orphan
    s) (in_tcb s) (in_rx s) x (in_timer s) (in_udp s) (in_parent s) (in_backlog s) (in_backlog_len s).
Definition set_in_timer (x : TcpTimer) (s : InetSocket) : InetSocket :=
  MkInet (in_used s) (in_kind s) (in_flags s) (in_node s) (in_remote_ip s) (in_remote_port s) (in_local_port s) (in_connected s) (in_orphan
    s) (in_tcb s) (in_rx s) (in_tx s) x (in_udp s) (in_parent s) (in_backlog s) (in_backlog_len s).
Definition set_in_udp (x : UdpQueue) (s : InetSocket) : InetSocket :=
  MkInet (in_used s) (in_kind s) (in_flags s) (in_node s) (in_remote_ip s) (in_remote_port s) (in_local_port s) (in_connected s) (in_orphan
    s) (in_tcb s) (in_rx s) (in_tx s) (in_timer s) x (in_parent s) (in_backlog s) (in_backlog_len s).
Definition set_in_parent (x : Z) (s : InetSocket) : InetSocket :=
  MkInet (in_used s) (in_kind s) (in_flags s) (in_node s) (in_remote_ip s) (in_remote_port s) (in_local_port s) (in_connected s) (in_orphan
    s) (in_tcb s) (in_rx s) (in_tx s) (in_timer s) (in_udp s) x (in_backlog s) (in_backlog_len s).
Definition set_in_backlog (l : list Z) (n : Z) (s : InetSocket) : InetSocket :=
  MkInet (in_used s) (in_kind s) (in_flags s) (in_node s) (in_remote_ip s) (in_remote_port s) (in_local_port s) (in_connected s) (in_orphan
    s) (in_tcb s) (in_rx s) (in_tx s) (in_timer s) (in_udp s) (in_parent s) l n.
Definition set_in_open (used : bool) (kind : InetKind) (flags : Z) (node : VNode) (s : InetSocket) : InetSocket :=
  MkInet used kind flags node (in_remote_ip s) (in_remote_port s) (in_local_port s) (in_connected s) (in_orphan s) (in_tcb s) (in_rx s)
    (in_tx s) (in_timer s) (in_udp s) (in_parent s) (in_backlog s) (in_backlog_len s).
(** A socket after [memset(s, 0, sizeof( *s))]; the indices of NULL are -1. *)
Definition zero_tcb : Tcb := MkTcb TCP_CLOSED 0 0 0 0 0 0 false false false 0.
Definition zero_inet : InetSocket :=
  MkInet false INET_TCP 0 zero_vnode zero_ip 0 0 false false zero_tcb (MkRx 0 [] 0 0) (MkTx 0 [] 0) (MkTimer 0 0 0 0) (MkUq 0 [] 0 0)
    (-1) (replicate 16 (-1)) 0.
(** [sizeof(InetSocket)], and where its node is. *)
Definition SIZEOF_INET_SOCKET : Z := 424.
Definition INET_NODE_OFFSET : Z := 16.
(** The address of [inet_file_ops]. *)
Definition INET_FILE_OPS : Z := 3.

Definition state_of (s : InetSocket) : TcpState := tc_state (in_tcb s).
Definition upd_tcb (f : Tcb → Tcb) (s : InetSocket) : InetSocket := set_in_tcb (f (in_tcb s)) s.
Definition upd_timer (f : TcpTimer → TcpTimer) (s : InetSocket) : InetSocket := set_in_timer (f (in_timer s)) s.
Definition set_deadline (x : Z) (t : TcpTimer) : TcpTimer := MkTimer x (tm_rto_ms t) (tm_retries t) (tm_done t).
Definition set_rto (x : Z) (t : TcpTimer) : TcpTimer := MkTimer (tm_deadline t) x (tm_retries t) (tm_done t).
Definition set_retries (x : Z) (t : TcpTimer) : TcpTimer := MkTimer (tm_deadline t) (tm_rto_ms t) x (tm_done t).
Definition set_done (x : Z) (t : TcpTimer) : TcpTimer := MkTimer (tm_deadline t) (tm_rto_ms t) (tm_retries t) x.
Definition in_nonblock (s : InetSocket) : bool := has (in_flags s) SOCK_NONBLOCK.

(** ** Sequence numbers *)

(** [kernel/net/inet.c: seq_lt] *)
Definition seq_lt (a b : Z) : bool := s32 (a - b) <? 0.
(** [kernel/net/inet.c: seq_le] *)
Definition seq_le (a b : Z) : bool := s32 (a - b) <=? 0.
(** [kernel/net/inet.c: tcp_checksum] *)
Definition tcp_checksum (src dst : Ipv4Addr) (seg : list Z) : option Z :=
  let w a b := Z.lor (Z.shiftl a 8) b in
  let sum := w (ip_a src) (ip_b src) + w (ip_c src) (ip_d src) + w (ip_a dst) (ip_b dst) + w (ip_c dst) (ip_d dst)
             + IPV4_PROTO_TCP + Z.of_nat (length seg) in
  s ← fold_sum fold_fuel (sum_words sum seg); Some (u16 (Z.lnot s)).
(** [kernel/net/inet.c: tcp_window] *)
Definition tcp_window (s : InetSocket) : Z := Z.min (TCP_RX_SIZE - rr_count (in_rx s)) 65535.
(** The bytes of a segment with checksum [sum]; a SYN has the option of the segment size.
    [kernel/net/inet.c: tcp_send_segment 172-192] *)
Definition tcp_bytes (s : InetSocket) (seq flags : Z) (data : list Z) (sum : Z) : list Z :=
  let opt := if has flags TCP_SYN then [2; 4; Z.shiftr TCP_MSS 8; Z.land TCP_MSS 0xFF] else [] in
  let hlen := SIZEOF_TCP_HEADER + Z.of_nat (length opt) in
  be16 (in_local_port s) ++ be16 (in_remote_port s) ++ be32 seq ++ be32 (if has flags TCP_ACK then tc_rcv (in_tcb s) else 0) ++
  [u8 (Z.shiftl (hlen / 4) 4); flags] ++ be16 (tcp_window s) ++ le_split 2 sum ++ [0; 0] ++ opt ++ data.

(** What inet.c calls of the kernel. *)
Class InetHost (L : Type) := {
  ih_send : Ipv4Addr → Z → list Z → M L unit;
  ih_udp_send : Ipv4Addr → Z → Z → list Z → M L unit;
  ih_local_ip : M L Ipv4Addr;
  ih_is_up : M L bool;
  ih_uptime_ms : M L Z;
  ih_rdtsc : M L (Z * Z);
  ih_wake_waiters : M L unit;
  ih_fd_alloc : M L Z;
  ih_fd_set : Z → Z → Z → M L unit;
  ih_file_ops : Z → M L Z
}.

Section Inet.
Context {L : Type} `{KM : KernelMem L} `{IH : InetHost L}.
(** The address of [inet_sockets]. *)
Context (inet_sockets : Z).

(** [kernel/net/inet.c 109-112] *)
Record inetst := Inetst { is_socks : list InetSocket; is_next_port : Z; is_seed : Z; is_host : L }.
Definition set_is_socks (l : list InetSocket) (s : inetst) : inetst := Inetst l (is_next_port s) (is_seed s) (is_host s).
Definition on_ih {A} (m : M L A) : M inetst A := zoom is_host (λ h s, Inetst (is_socks s) (is_next_port s) (is_seed s) h) m.
Definition isock (i : Z) : M inetst InetSocket := s ← get; lift (is_socks s !!z i).
Definition isock_upd (i : Z) (f : InetSocket → InetSocket) : M inetst unit :=
  x ← isock i; s ← get; l ← lift (updateZ i (f x) (is_socks s)); modify (set_is_socks l).
(** The index of the first socket that satisfies [P], or NULL. *)
Definition find_socket (P : InetSocket → bool) (l : list InetSocket) : Z :=
  match list_find P l with Some (i, _) => Z.of_nat i | None => -1 end.

(** ** Ports and numbers *)

(** [kernel/net/inet.c: inet_alloc_port 116-127] *)
Fixpoint port_loop (tries : nat) : M inetst Z :=
  match tries with
  | O => mret 0
  | S tries' =>
      p ← gets is_next_port;
      let next := u16 (p + 1) in
      modify (λ s, Inetst (is_socks s) (if next <? 49152 then 49152 else next) (is_seed s) (is_host s));;
      l ← gets is_socks;
      if existsb (λ x, in_used x && (in_local_port x =? p)) l then port_loop tries' else mret p
  end.
Definition PORT_TRIES : nat := Z.to_nat 16384.
(** [kernel/net/inet.c: inet_alloc_port] *)
Definition inet_alloc_port : M inetst Z := port_loop PORT_TRIES.
(** [kernel/net/inet.c: inet_random] *)
Definition inet_random : M inetst Z :=
  r ← on_ih ih_rdtsc;
  s ← get;
  let seed := u32 (is_seed s * 1103515245 + 12345 + r.1 + u32 (Z.shiftl r.2 7)) in
  modify (λ s, Inetst (is_socks s) (is_next_port s) seed (is_host s));;
  mret seed.

(** ** Sending *)

(** [kernel/net/inet.c: tcp_send_segment] *)
Definition tcp_send_segment (i seq flags : Z) (data : list Z) : M inetst unit :=
  s ← isock i;
  ip ← on_ih ih_local_ip;
  let seg := tcp_bytes s seq flags data in
  if SIZEOF_TCP_HEADER + 4 + TCP_MSS <? Z.of_nat (length (seg 0)) then fail
  else
    sum ← lift (tcp_checksum ip (in_remote_ip s) (seg 0));
    on_ih (ih_send (in_remote_ip s) IPV4_PROTO_TCP (seg (net_htons sum))).
(** [kernel/net/inet.c: tcp_send_ack] *)
Definition tcp_send_ack (i : Z) : M inetst unit := s ← isock i; tcp_send_segment i (tc_nxt (in_tcb s)) TCP_ACK [].
(** [kernel/net/inet.c: tcp_arm_timer] *)
Definition tcp_arm_timer (i : Z) : M inetst unit :=
  now ← on_ih ih_uptime_ms; isock_upd i (upd_timer (λ t, set_deadline (u64 (now + tm_rto_ms t)) t)).

(** How many bytes of the buffer are under way. [kernel/net/inet.c: tcp_output 219-221] *)
Definition bytes_in_flight (s : InetSocket) : Z :=
  let n := u32 (tc_nxt (in_tcb s) - tc_una (in_tcb s)) in if tc_fin_sent (in_tcb s) && (0 <? n) then n - 1 else n.
(** Each turn sends at least a byte. [kernel/net/inet.c: tcp_output 217-234] *)
Fixpoint output_loop (fuel : nat) (i window : Z) (sent : bool) : M inetst bool :=
  s ← isock i;
  let n := bytes_in_flight s in
  if (tb_count (in_tx s) <=? n) || (window <=? n) then mret sent
  else match fuel with
  | O => fail
  | S fuel' =>
      let len := Z.min (Z.min (u32 (u32 (tb_count (in_tx s)) - n)) (window - n)) TCP_MSS in
      data ← lift (read_range (tb_bytes (in_tx s)) n len);
      tcp_send_segment i (tc_nxt (in_tcb s)) (Z.lor TCP_ACK TCP_PSH) data;;
      isock_upd i (upd_tcb (λ t, set_tc_nxt (u32 (tc_nxt t + len)) t));;
      output_loop fuel' i window true
  end.
(** The FIN behind the last byte. [kernel/net/inet.c: tcp_output 236-244] *)
Definition output_fin (i : Z) (sent : bool) : M inetst bool :=
  s ← isock i;
  let t := in_tcb s in
  if tc_close_requested t && negb (tc_fin_sent t) && (u32 (tc_nxt t - tc_una t) =? tb_count (in_tx s)) then
    tcp_send_segment i (tc_nxt t) (Z.lor TCP_ACK TCP_FIN) [];;
    isock_upd i (upd_tcb (λ t, set_tc_state (if decide (tc_state t = TCP_CLOSE_WAIT) then TCP_DONE else TCP_FIN_WAIT)
      (set_tc_nxt (u32 (tc_nxt t + 1)) (set_tc_fin true (tc_nxt t) t))));;
    mret true
  else mret sent.
(** [kernel/net/inet.c: tcp_output] *)
Definition tcp_output (i : Z) : M inetst unit :=
  s ← isock i;
  if bool_decide (state_of s ∉ [TCP_ESTABLISHED; TCP_CLOSE_WAIT; TCP_FIN_WAIT]) then mret tt
  else
    let wnd := tc_wnd (in_tcb s) in
    sent ← output_loop (S (Z.to_nat (tb_count (in_tx s)))) i (if wnd =? 0 then 1 else wnd) false;
    sent ← output_fin i sent;
    s ← isock i;
    if (sent : bool) && (tm_deadline (in_timer s) =? 0) then tcp_arm_timer i else mret tt.

(** ** Sockets of the table *)

(** [l] without its first [x], where [n] entries are in use. [kernel/net/inet.c: inet_free 255-263] *)
Definition backlog_remove (l : list Z) (n x : Z) : list Z * Z :=
  match list_find (λ y, y = x) (take (Z.to_nat n) l) with
  | None => (l, n)
  | Some (k, _) => (take k l ++ take (Z.to_nat n - 1 - k) (drop (S k) l) ++ drop (Z.to_nat n - 1) l, n - 1)
  end.
(** The pages and blocks of a socket. [kernel/net/inet.c: inet_free 279-284] *)
Definition inet_release (s : InetSocket) : M inetst unit :=
  (if rr_ptr (in_rx s) =? 0 then mret tt else on_ih (km_free_pages (rr_ptr (in_rx s)) (TCP_RX_SIZE / PAGE_SIZE)));;
  (if tb_ptr (in_tx s) =? 0 then mret tt else on_ih (km_free_pages (tb_ptr (in_tx s)) (TCP_TX_SIZE / PAGE_SIZE)));;
  (if uq_ptr (in_udp s) =? 0 then mret tt else on_ih (km_kfree (uq_ptr (in_udp s)))).
(** The fuel bounds the depth of the recursion: a connection of a listening socket does not listen.
    [kernel/net/inet.c: inet_free] *)
Fixpoint inet_free (depth : nat) (i : Z) : M inetst unit :=
  match depth with
  | O => fail
  | S depth' =>
      s ← isock i;
      (if in_parent s =? -1 then mret tt
       else isock_upd (in_parent s) (λ l, let r := backlog_remove (in_backlog l) (in_backlog_len l) i in set_in_backlog r.1 r.2 l));;
      (if bool_decide (in_kind s = INET_TCP ∧ state_of s = TCP_LISTEN) then
         for_range (Z.to_nat INET_MAX_SOCKETS) 0 (λ c,
           x ← isock c;
           if negb (in_used x) || negb (in_parent x =? i) then mret tt
           else
             isock_upd c (set_in_parent (-1));;
             tcp_send_segment c (tc_nxt (in_tcb x)) TCP_RST [];;
             inet_free depth' c)
       else mret tt);;
      s ← isock i;
      inet_release s;;
      isock_upd i (λ _, zero_inet)
  end.
Definition free_depth : nat := 2.

(** The bytes memory holds at [p]. *)
Definition pages_at (n p : Z) : M L (list Z) := gets (bytes_at (Z.to_nat n) p).
(** [kernel/net/inet.c: inet_alloc] *)
Definition inet_alloc (kind : InetKind) (flags : Z) : M inetst Z :=
  l ← gets is_socks;
  let i := find_socket (λ s, negb (in_used s)) l in
  if i =? -1 then mret (-1)
  else
    isock_upd i (λ _, zero_inet);;
    isock_upd i (set_in_open true kind (Z.land flags SOCK_NONBLOCK)
      (MkVNode (to_str (if decide (kind = INET_UDP) then "udp" else "tcp")) VNODE_SOCKET 0 0 INET_FILE_OPS
         (inet_sockets + i * SIZEOF_INET_SOCKET) 0 false 0 0 0));;
    ok ← (if decide (kind = INET_UDP) then
            q ← on_ih (km_kmalloc (UDP_QUEUE * SIZEOF_UDP_DATAGRAM));
            isock_upd i (set_in_udp (MkUq q (if q =? 0 then [] else replicate (Z.to_nat UDP_QUEUE) zero_dgram) 0 0));;
            p ← inet_alloc_port;
            isock_upd i (set_in_local_port p);;
            mret (negb (q =? 0) && negb (p =? 0))
          else
            rx ← on_ih (km_alloc_pages (TCP_RX_SIZE / PAGE_SIZE));
            rb ← (if rx =? 0 then mret [] else on_ih (pages_at TCP_RX_SIZE rx));
            isock_upd i (set_in_rx (MkRx rx rb 0 0));;
            tx ← on_ih (km_alloc_pages (TCP_TX_SIZE / PAGE_SIZE));
            tb ← (if tx =? 0 then mret [] else on_ih (pages_at TCP_TX_SIZE tx));
            isock_upd i (set_in_tx (MkTx tx tb 0));;
            mret (negb (rx =? 0) && negb (tx =? 0)));
    if (ok : bool) then mret i else inet_free free_depth i;; mret (-1).
(** [kernel/net/inet.c: inet_install_fd] *)
Definition inet_install_fd (i : Z) : M inetst Z :=
  fd ← on_ih ih_fd_alloc;
  if fd =? FD_INVALID then mret (- EMFILE)
  else on_ih (ih_fd_set fd (inet_sockets + i * SIZEOF_INET_SOCKET + INET_NODE_OFFSET) VFS_O_RDWR);; mret fd.
(** [kernel/net/inet.c: tcp_reset] *)
Definition tcp_reset (i error : Z) : M inetst unit :=
  isock_upd i (λ s, upd_timer (set_deadline 0) (upd_tcb (λ t, set_tc_error error (set_tc_state TCP_CLOSED t)) s));;
  s ← isock i;
  (if in_orphan s then inet_free free_depth i else mret tt);;
  on_ih ih_wake_waiters.
(** [kernel/net/inet.c: inet_find_tcp] *)
Definition inet_find_tcp (ip : Ipv4Addr) (remote_port local_port : Z) : M inetst Z :=
  gets (λ s, find_socket (λ x, in_used x && bool_decide (in_kind x = INET_TCP) && (in_local_port x =? local_port) &&
                               (in_remote_port x =? remote_port) && bool_decide (in_remote_ip x = ip)) (is_socks s)).
(** [kernel/net/inet.c: inet_find_listener] *)
Definition inet_find_listener (local_port : Z) : M inetst Z :=
  gets (λ s, find_socket (λ x, in_used x && bool_decide (in_kind x = INET_TCP) && bool_decide (state_of x = TCP_LISTEN) &&
                               (in_local_port x =? local_port)) (is_socks s)).

(** ** Segments *)

(** [kernel/net/inet.c: tcp_passive_open] *)
Definition tcp_passive_open (src_ip : Ipv4Addr) (h : TcpHeader) : M inetst unit :=
  if negb (Z.land (th_flags h) (Z.lor TCP_SYN (Z.lor TCP_ACK TCP_RST)) =? TCP_SYN) then mret tt
  else
    l ← inet_find_listener (net_htons (th_dst_port h));
    if l =? -1 then mret tt
    else
      socks ← gets is_socks;
      if TCP_BACKLOG <=? Z.of_nat (length (filter (λ x, in_used x && (in_parent x =? l)) socks)) then mret tt
      else
        c ← inet_alloc INET_TCP 0;
        if c =? -1 then mret tt
        else
          ls ← isock l;
          iss ← inet_random;
          isock_upd c (λ s,
            set_in_remote src_ip (net_htons (th_src_port h)) (set_in_local_port (in_local_port ls) (set_in_connected true
            (set_in_orphan true (set_in_parent l (upd_timer (set_rto 1000)
            (upd_tcb (λ t, set_tc_state TCP_SYN_RCVD (set_tc_rcv (u32 (net_htonl (th_seq h) + 1))
               (set_tc_wnd (net_htons (th_window h)) (set_tc_start iss iss (u32 (iss + 1)) t)))) s)))))));;
          tcp_send_segment c iss (Z.lor TCP_SYN TCP_ACK) [];;
          tcp_arm_timer c.

(** The answer to our SYN. [kernel/net/inet.c: inet_tcp_deliver 445-455] *)
Definition on_syn_sent (i flags seq ack wnd : Z) : M inetst unit :=
  s ← isock i;
  if (Z.land flags (Z.lor TCP_SYN TCP_ACK) =? Z.lor TCP_SYN TCP_ACK) && (ack =? u32 (tc_iss (in_tcb s) + 1)) then
    isock_upd i (λ s, upd_timer (λ t, set_retries 0 (set_deadline 0 t))
      (upd_tcb (λ t, set_tc_state TCP_ESTABLISHED (set_tc_wnd wnd (set_tc_una ack (set_tc_rcv (u32 (seq + 1)) t)))) s));;
    tcp_send_ack i;;
    on_ih ih_wake_waiters
  else mret tt.
(** The answer to our SYN and ACK; whether the segment goes on to the steps below.
    [kernel/net/inet.c: inet_tcp_deliver 461-475] *)
Definition on_syn_rcvd (i flags ack : Z) : M inetst bool :=
  s ← isock i;
  if Z.land flags (Z.lor TCP_SYN TCP_ACK) =? TCP_SYN then
    tcp_send_segment i (tc_iss (in_tcb s)) (Z.lor TCP_SYN TCP_ACK) [];; mret false
  else if negb (has flags TCP_ACK) || negb (ack =? u32 (tc_iss (in_tcb s) + 1)) then mret false
  else
    isock_upd i (λ s, upd_timer (λ t, set_retries 0 (set_deadline 0 t))
      (upd_tcb (λ t, set_tc_state TCP_ESTABLISHED (set_tc_una ack t)) s));;
    (if in_parent s =? -1 then mret tt
     else
       p ← isock (in_parent s);
       l ← lift (updateZ (in_backlog_len p) i (in_backlog p));
       isock_upd (in_parent s) (set_in_backlog l (in_backlog_len p + 1)));;
    on_ih ih_wake_waiters;;
    mret true.
(** [acked] sequence numbers leave the buffer. [kernel/net/inet.c: inet_tcp_deliver 485-495] *)
Definition take_acked (ack : Z) (s : InetSocket) : option InetSocket :=
  let t := in_tcb s in
  let acked := u32 (ack - tc_una t) in
  let data := if tc_fin_sent t && seq_lt (tc_fin_seq t) ack then u32 (acked - 1) else acked in
  let data := if tb_count (in_tx s) <? data then u32 (tb_count (in_tx s)) else data in
  rest ← read_range (tb_bytes (in_tx s)) data (tb_count (in_tx s) - data);
  bs ← write_range (tb_bytes (in_tx s)) 0 rest;
  Some (upd_timer (λ m, set_rto (TCP_RTO_MIN_MS * 2) (set_retries 0 m))
    (upd_tcb (set_tc_una ack) (set_in_tx (MkTx (tb_ptr (in_tx s)) bs (tb_count (in_tx s) - data)) s))).
(** [kernel/net/inet.c: inet_tcp_deliver 483-499] *)
Definition on_ack (i ack wnd : Z) : M inetst unit :=
  s ← isock i;
  (if seq_lt (tc_una (in_tcb s)) ack && seq_le ack (tc_nxt (in_tcb s)) then
     s' ← lift (take_acked ack s);
     isock_upd i (λ _, s');;
     (if tc_una (in_tcb s') =? tc_nxt (in_tcb s') then isock_upd i (upd_timer (set_deadline 0)) else tcp_arm_timer i);;
     on_ih ih_wake_waiters
   else mret tt);;
  isock_upd i (upd_tcb (set_tc_wnd wnd)).
(** What there is room for goes to the end of the ring. [kernel/net/inet.c: inet_tcp_deliver 508-515] *)
Definition take_data (payload : list Z) (plen : Z) (s : InetSocket) : option InetSocket :=
  let r := in_rx s in
  let space := TCP_RX_SIZE - rr_count r in
  let n := if plen <? space then plen else space in
  let tail := (rr_head r + rr_count r) mod TCP_RX_SIZE in
  let first := if n <? TCP_RX_SIZE - tail then n else TCP_RX_SIZE - tail in
  a ← read_range payload 0 first;
  b ← read_range payload first (n - first);
  bs ← write_range (rr_bytes r) tail a;
  bs ← write_range bs 0 b;
  Some (upd_tcb (λ t, set_tc_rcv (u32 (tc_rcv t + n)) t) (set_in_rx (MkRx (rr_ptr r) bs (rr_head r) (rr_count r + n)) s)).
(** Whether an acknowledgement is due. [kernel/net/inet.c: inet_tcp_deliver 504-519] *)
Definition on_data (i seq : Z) (payload : list Z) (plen : Z) : M inetst bool :=
  if plen <=? 0 then mret false
  else
    s ← isock i;
    (if (seq =? tc_rcv (in_tcb s)) && negb (tc_fin_received (in_tcb s)) then
       s' ← lift (take_data payload plen s);
       isock_upd i (λ _, s');;
       on_ih ih_wake_waiters
     else mret tt);;
    mret true.
(** [kernel/net/inet.c: inet_tcp_deliver 521-531] *)
Definition on_fin (i flags seq plen : Z) (need_ack : bool) : M inetst bool :=
  s ← isock i;
  let t := in_tcb s in
  if has flags TCP_FIN && (u32 (seq + plen) =? tc_rcv t) && negb (tc_fin_received t) then
    isock_upd i (upd_tcb (λ t, set_tc_state
      (if decide (tc_state t = TCP_ESTABLISHED) then TCP_CLOSE_WAIT else if decide (tc_state t = TCP_FIN_WAIT) then TCP_DONE else tc_state t)
      (set_tc_fin_received true (set_tc_rcv (u32 (tc_rcv t + 1)) t))));;
    on_ih ih_wake_waiters;;
    mret true
  else mret need_ack.
(** A segment for a connection that exists. [kernel/net/inet.c: inet_tcp_deliver 478-542] *)
Definition on_segment (i flags seq ack wnd : Z) (payload : list Z) (plen : Z) : M inetst unit :=
  s ← isock i;
  if bool_decide (state_of s = TCP_CLOSED ∨ state_of s = TCP_LISTEN) then mret tt
  else
    (if has flags TCP_ACK then on_ack i ack wnd else mret tt);;
    need_ack ← on_data i seq payload plen;
    need_ack ← on_fin i flags seq plen need_ack;
    (if (need_ack : bool) then tcp_send_ack i else mret tt);;
    s ← isock i;
    if bool_decide (state_of s = TCP_DONE) && (tc_una (in_tcb s) =? tc_nxt (in_tcb s)) && in_orphan s
    then inet_free free_depth i else tcp_output i.
(** [kernel/net/inet.c: inet_tcp_deliver] *)
Definition inet_tcp_deliver (src_ip : Ipv4Addr) (data : list Z) (len : Z) : M inetst unit :=
  if len <? SIZEOF_TCP_HEADER then mret tt
  else
    h ← lift (read_tcp_header data);
    let hlen := u16 (Z.shiftr (th_offset h) 4 * 4) in
    if (hlen <? SIZEOF_TCP_HEADER) || (len <? hlen) then mret tt
    else
      i ← inet_find_tcp src_ip (net_htons (th_src_port h)) (net_htons (th_dst_port h));
      if i =? -1 then tcp_passive_open src_ip h
      else
        let flags := th_flags h in
        let seq := net_htonl (th_seq h) in
        let ack := net_htonl (th_ack h) in
        let wnd := net_htons (th_window h) in
        s ← isock i;
        if has flags TCP_RST then tcp_reset i (if decide (state_of s = TCP_SYN_SENT) then - ECONNREFUSED else - EPIPE)
        else if decide (state_of s = TCP_SYN_SENT) then on_syn_sent i flags seq ack wnd
        else
          go ← (if decide (state_of s = TCP_SYN_RCVD) then on_syn_rcvd i flags ack else mret true);
          if (go : bool) then on_segment i flags seq ack wnd (drop (Z.to_nat hlen) data) (len - hlen) else mret tt.

(** A datagram goes to the first socket of its port that is not connected to someone else.
    [kernel/net/inet.c: inet_udp_deliver 550-553] *)
Definition udp_takes (src_ip : Ipv4Addr) (src_port dst_port : Z) (s : InetSocket) : bool :=
  in_used s && bool_decide (in_kind s = INET_UDP) && (in_local_port s =? dst_port) &&
  negb (in_connected s && (negb (bool_decide (in_remote_ip s = src_ip)) || negb (in_remote_port s =? src_port))).
(** [kernel/net/inet.c: inet_udp_deliver] *)
Definition inet_udp_deliver (src_ip : Ipv4Addr) (src_port dst_port : Z) (data : list Z) (len : Z) : M inetst unit :=
  l ← gets is_socks;
  let i := find_socket (udp_takes src_ip src_port dst_port) l in
  if i =? -1 then mret tt
  else
    s ← isock i;
    let q := in_udp s in
    if uq_count q =? UDP_QUEUE then mret tt
    else
      let k := (uq_head q + uq_count q) mod UDP_QUEUE in
      d ← lift (uq_slots q !!z k);
      let n := if UDP_MAX_DGRAM <? len then UDP_MAX_DGRAM else len in
      bs ← lift (read_range data 0 n);
      bytes ← lift (write_range (ud_data d) 0 bs);
      slots ← lift (updateZ k (MkDgram n src_ip src_port bytes) (uq_slots q));
      isock_upd i (set_in_udp (MkUq (uq_ptr q) slots (uq_head q) (uq_count q + 1)));;
      on_ih ih_wake_waiters.

(** What is sent again when the timer of a connection runs out. [kernel/net/inet.c: inet_tick 596-616] *)
Definition tick_resend (i : Z) : M inetst unit :=
  s ← isock i;
  if decide (state_of s = TCP_SYN_SENT) then tcp_send_segment i (tc_iss (in_tcb s)) TCP_SYN []
  else if decide (state_of s = TCP_SYN_RCVD) then tcp_send_segment i (tc_iss (in_tcb s)) (Z.lor TCP_SYN TCP_ACK) []
  else
    isock_upd i (upd_tcb (λ t, set_tc_state
      (if tc_fin_sent t && bool_decide (tc_state t = TCP_FIN_WAIT) then TCP_ESTABLISHED
       else if tc_fin_sent t && bool_decide (tc_state t = TCP_DONE) then TCP_CLOSE_WAIT else tc_state t)
      (set_tc_fin false (tc_fin_seq t) (set_tc_nxt (tc_una t) t))));;
    s ← isock i;
    (if (tb_count (in_tx s) =? 0) && negb (tc_close_requested (in_tcb s)) then tcp_send_segment i (tc_nxt (in_tcb s)) TCP_ACK [] else mret tt);;
    tcp_output i.
(** [kernel/net/inet.c: inet_tick 574-594] *)
Definition tick_socket (now i : Z) : M inetst unit :=
  s ← isock i;
  let m := in_timer s in
  if negb (in_used s) || negb (bool_decide (in_kind s = INET_TCP)) then mret tt
  else if in_orphan s && negb (tm_done m =? 0) && (tm_done m <=? now) then inet_free free_depth i
  else if (tm_deadline m =? 0) || (now <? tm_deadline m) then mret tt
  else
    isock_upd i (upd_timer (set_retries (tm_retries m + 1)));;
    if TCP_MAX_RETRIES <? tm_retries m + 1 then tcp_reset i (if decide (state_of s = TCP_SYN_SENT) then - ETIMEDOUT else - EPIPE)
    else
      let rto := if TCP_RTO_MAX_MS <? u32 (tm_rto_ms m * 2) then TCP_RTO_MAX_MS else u32 (tm_rto_ms m * 2) in
      isock_upd i (upd_timer (λ m, set_deadline (u64 (now + rto)) (set_rto rto m)));;
      tick_resend i.
(** [kernel/net/inet.c: inet_tick] *)
Definition inet_tick : M inetst unit :=
  now ← on_ih ih_uptime_ms;
  for_range (Z.to_nat INET_MAX_SOCKETS) 0 (tick_socket now).

(** ** Files *)

(** The socket a file leads to, -1 for NULL. [kernel/net/inet.c: inet_from_file] *)
Definition inet_from_file (file : VFile) : M inetst Z :=
  if f_node file =? 0 then mret (-1)
  else
    let off := f_node file - inet_sockets - INET_NODE_OFFSET in
    let i := off / SIZEOF_INET_SOCKET in
    if (0 <=? i) && (i <? INET_MAX_SOCKETS) && (off mod SIZEOF_INET_SOCKET =? 0) then
      s ← isock i;
      mret (if v_file_ops (in_node s) =? INET_FILE_OPS then (v_private (in_node s) - inet_sockets) / SIZEOF_INET_SOCKET else -1)
    else
      ops ← on_ih (ih_file_ops (f_node file));
      if ops =? INET_FILE_OPS then fail else mret (-1).

(** The oldest datagram, cut to [count] bytes. [kernel/net/inet.c: inet_read 640-644] *)
Definition udp_take (count : Z) (s : InetSocket) : option (list Z * InetSocket) :=
  let q := in_udp s in
  d ← uq_slots q !!z uq_head q;
  let n := if count <? ud_len d then count else ud_len d in
  bs ← read_range (ud_data d) 0 n;
  Some (bs, set_in_udp (MkUq (uq_ptr q) (uq_slots q) ((uq_head q + 1) mod UDP_QUEUE) (uq_count q - 1)) s).
(** Bytes out of the ring. [kernel/net/inet.c: inet_read 658-664] *)
Definition rx_take (count : Z) (s : InetSocket) : option (list Z * InetSocket) :=
  let r := in_rx s in
  let n := if count <? rr_count r then count else rr_count r in
  let first := if n <? TCP_RX_SIZE - rr_head r then n else TCP_RX_SIZE - rr_head r in
  a ← read_range (rr_bytes r) (rr_head r) first;
  b ← read_range (rr_bytes r) 0 (n - first);
  Some (a ++ b, set_in_rx (MkRx (rr_ptr r) (rr_bytes r) ((rr_head r + n) mod TCP_RX_SIZE) (rr_count r - n)) s).
(** One turn of the loop. [kernel/net/inet.c: inet_read] *)
Definition inet_read (file : VFile) (count : Z) : M inetst (sys_res (Z * list Z)) :=
  i ← inet_from_file file;
  if i =? -1 then mret (Ret (- EBADF, []))
  else
    s ← isock i;
    let idle : sys_res (Z * list Z) := if in_nonblock s then Ret (- EAGAIN, []) else Block TASK_BLOCK_FOREVER in
    if decide (in_kind s = INET_UDP) then
      if 0 <? uq_count (in_udp s) then
        r ← lift (udp_take count s); isock_upd i (λ _, r.2);; mret (Ret (Z.of_nat (length r.1), r.1))
      else mret idle
    else if decide (state_of s = TCP_LISTEN) then mret (Ret (- EINVAL, []))
    else if 0 <? rr_count (in_rx s) then
      r ← lift (rx_take count s);
      isock_upd i (λ _, r.2);;
      (if (tcp_window s <? TCP_MSS * 2) && negb (bool_decide (state_of s = TCP_CLOSED)) then tcp_send_ack i else mret tt);;
      mret (Ret (Z.of_nat (length r.1), r.1))
    else if tc_fin_received (in_tcb s) || bool_decide (state_of s = TCP_CLOSED) then
      mret (Ret (if bool_decide (state_of s = TCP_CLOSED) && negb (tc_fin_received (in_tcb s)) then tc_error (in_tcb s) else 0, []))
    else mret idle.

(** The loop of a TCP write: [written] bytes of [buf] are in the buffer.  With a [Block] come the bytes
    through by then, from which the loop goes on. [kernel/net/inet.c: inet_write 705-738] *)
Fixpoint tcp_write_loop (fuel : nat) (i : Z) (buf : list Z) (written : Z) : M inetst (sys_res Z * Z) :=
  let stop := Ret (if written =? 0 then - EAGAIN else written) in
  if Z.of_nat (length buf) <=? written then mret (stop, written)
  else
    s ← isock i;
    let wait : sys_res Z * Z := (if in_nonblock s then stop else Block TASK_BLOCK_FOREVER, written) in
    if decide (state_of s = TCP_SYN_SENT) then mret wait
    else if bool_decide (state_of s ∉ [TCP_ESTABLISHED; TCP_CLOSE_WAIT]) then
      let e := tc_error (in_tcb s) in
      mret (Ret (if negb (written =? 0) then written else if negb (e =? 0) then e else - EPIPE), written)
    else
      let b := in_tx s in
      let space := TCP_TX_SIZE - tb_count b in
      if space =? 0 then mret wait
      else match fuel with
      | O => fail
      | S fuel' =>
          let left := Z.of_nat (length buf) - written in
          let n := if left <? space then left else space in
          src ← lift (read_range buf written n);
          bs ← lift (write_range (tb_bytes b) (tb_count b) src);
          isock_upd i (set_in_tx (MkTx (tb_ptr b) bs (tb_count b + n)));;
          tcp_output i;;
          tcp_write_loop fuel' i buf (written + n)
      end.
(** Turns between two sleeps: what fits, and then there is no room. *)
Definition tcp_write_fuel : nat := 1.
(** [kernel/net/inet.c: inet_write] *)
Definition inet_write (file : VFile) (buf : list Z) : M inetst (sys_res Z * Z) :=
  i ← inet_from_file file;
  if i =? -1 then mret (Ret (- EBADF), 0)
  else
    s ← isock i;
    if decide (in_kind s = INET_UDP) then
      if negb (in_connected s) then mret (Ret (- EINVAL), 0)
      else
        let n := Z.min (Z.of_nat (length buf)) (UDP_MAX_DGRAM - 28) in
        on_ih (ih_udp_send (in_remote_ip s) (in_local_port s) (in_remote_port s) (take (Z.to_nat n) buf));;
        mret (Ret n, n)
    else tcp_write_loop tcp_write_fuel i buf 0.

(** [kernel/net/inet.c: inet_poll] *)
Definition inet_poll (file : VFile) : M inetst Z :=
  i ← inet_from_file file;
  if i =? -1 then mret POLLNVAL
  else
    s ← isock i;
    if decide (in_kind s = INET_UDP) then mret (Z.lor (if uq_count (in_udp s) =? 0 then 0 else POLLIN) POLLOUT)
    else if decide (state_of s = TCP_LISTEN) then mret (if in_backlog_len s =? 0 then 0 else POLLIN)
    else
      let r := if (0 <? rr_count (in_rx s)) || tc_fin_received (in_tcb s) then POLLIN else 0 in
      let r := if bool_decide (state_of s = TCP_CLOSED) && in_connected s then Z.lor r (Z.lor POLLIN POLLHUP) else r in
      mret (if bool_decide (state_of s ∈ [TCP_ESTABLISHED; TCP_CLOSE_WAIT]) && (tb_count (in_tx s) <? TCP_TX_SIZE) then Z.lor r POLLOUT else r).
(** [arg] is what the pointer leads to, [None] NULL. [kernel/net/inet.c: inet_ioctl] *)
Definition inet_ioctl (file : VFile) (request : Z) (arg : option Z) : M inetst Z :=
  i ← inet_from_file file;
  if i =? -1 then mret (- EBADF)
  else
    match arg with
    | None => mret (- EINVAL)
    | Some v =>
        if negb (request =? SOCK_IOCTL_NONBLOCK) then mret (- EINVAL)
        else
          isock_upd i (λ s, set_in_flags (if v =? 0 then Z.ldiff (in_flags s) SOCK_NONBLOCK else Z.lor (in_flags s) SOCK_NONBLOCK) s);;
          mret 0
    end.
(** [kernel/net/inet.c: inet_close] *)
Definition inet_close (file : VFile) : M inetst Z :=
  i ← inet_from_file file;
  if i =? -1 then mret (-1)
  else
    s ← isock i;
    (if bool_decide (in_kind s = INET_TCP ∧ (state_of s = TCP_ESTABLISHED ∨ state_of s = TCP_CLOSE_WAIT)) then
       now ← on_ih ih_uptime_ms;
       isock_upd i (λ s, upd_timer (set_done (u64 (now + 10000))) (upd_tcb (set_tc_close_requested true) (set_in_orphan true s)));;
       tcp_output i
     else if bool_decide (in_kind s = INET_TCP ∧ state_of s = TCP_SYN_SENT) then
       tcp_send_segment i (tc_nxt (in_tcb s)) TCP_RST [];;
       inet_free free_depth i
     else inet_free free_depth i);;
    mret 0.

(** ** Addresses *)

(** The numbers before the end of the string; [v] is the one being read.
    [kernel/net/inet.c: inet_parse_addr 811-839] *)
Fixpoint parse_addr_loop (p : str) (parts : list Z) (v : Z) (digit : bool) : option (list Z) :=
  let c := match p with [] => 0 | a :: _ => code_of a end in
  let n := Z.of_nat (length parts) in
  if (48 <=? c) && (c <=? 57) then
    let v := u32 (v * 10 + (c - 48)) in
    if 65535 <? v then None else match p with [] => None | _ :: p' => parse_addr_loop p' parts v true end
  else if ((c =? 46) && (n <? 3)) || ((c =? 58) && (n =? 3)) || ((c =? 0) && (n =? 4)) then
    if negb digit then None
    else if c =? 0 then Some (parts ++ [v])
    else match p with [] => None | _ :: p' => parse_addr_loop p' (parts ++ [v]) 0 false end
  else None.
(** [kernel/net/inet.c: inet_parse_addr] *)
Definition inet_parse_addr (name : str) : option (Ipv4Addr * Z) :=
  parts ← parse_addr_loop name [] 0 false;
  match parts with
  | [a; b; c; d; port] =>
      if existsb (λ x, 255 <? x) [a; b; c; d] then None else Some (ipv4_from_bytes (u8 a) (u8 b) (u8 c) (u8 d), u16 port)
  | _ => None
  end.

(** ** The calls *)

(** [kernel/net/inet.c: inet_is_socket] *)
Definition inet_is_socket (file : VFile) : M inetst bool := i ← inet_from_file file; mret (negb (i =? -1)).
(** [kernel/net/inet.c: inet_socket_create] *)
Definition inet_socket_create (flags : Z) : M inetst Z :=
  i ← inet_alloc (if has flags SOCK_UDP then INET_UDP else INET_TCP) flags;
  if i =? -1 then mret (- EMFILE)
  else
    fd ← inet_install_fd i;
    (if fd <? 0 then inet_free free_depth i else mret tt);;
    mret fd.

(** One turn of the wait for the answer to a SYN sent at [start]. [kernel/net/inet.c: inet_connect 910-926] *)
Definition inet_connect_turn (i start : Z) : M inetst (sys_res Z) :=
  s ← isock i;
  if decide (state_of s = TCP_SYN_SENT) then
    now ← on_ih ih_uptime_ms;
    let elapsed := u64 (now - start) in
    if TCP_CONNECT_MS <=? elapsed then
      tcp_send_segment i (tc_nxt (in_tcb s)) TCP_RST [];;
      isock_upd i (λ s, upd_timer (set_deadline 0) (upd_tcb (set_tc_state TCP_CLOSED) s));;
      mret (Ret (- ETIMEDOUT))
    else mret (Block (u32 (TCP_CONNECT_MS - elapsed)))
  else
    let e := tc_error (in_tcb s) in
    mret (Ret (if decide (state_of s = TCP_ESTABLISHED) then 0 else if negb (e =? 0) then e else - ECONNREFUSED)).
(** The SYN of a connection. [kernel/net/inet.c: inet_connect 891-901] *)
Definition connect_start (i : Z) (ip : Ipv4Addr) (port : Z) : M inetst unit :=
  isock_upd i (set_in_remote ip port);;
  p ← inet_alloc_port;
  isock_upd i (set_in_local_port p);;
  iss ← inet_random;
  isock_upd i (λ s, set_in_connected true (upd_timer (set_rto 1000)
    (upd_tcb (λ t, set_tc_state TCP_SYN_SENT (set_tc_start iss iss (u32 (iss + 1)) t)) s)));;
  tcp_send_segment i iss TCP_SYN [];;
  tcp_arm_timer i.
(** With the time the wait began. [kernel/net/inet.c: inet_connect] *)
Definition inet_connect (file : VFile) (name : option str) : M inetst (sys_res Z * Z) :=
  i ← inet_from_file file;
  match name with
  | None => mret (Ret (- EBADF), 0)
  | Some name =>
      if i =? -1 then mret (Ret (- EBADF), 0)
      else
        up ← on_ih ih_is_up;
        if negb (up : bool) then mret (Ret (- ENETDOWN), 0)
        else
          match inet_parse_addr name with
          | None => mret (Ret (- EINVAL), 0)
          | Some (ip, port) =>
              s ← isock i;
              if port =? 0 then mret (Ret (- EINVAL), 0)
              else if decide (in_kind s = INET_UDP) then
                isock_upd i (λ s, set_in_connected true (set_in_remote ip port s));; mret (Ret 0, 0)
              else if negb (bool_decide (state_of s = TCP_CLOSED)) || in_connected s then mret (Ret (- EINVAL), 0)
              else
                connect_start i ip port;;
                if in_nonblock s then mret (Ret (- EINPROGRESS), 0)
                else start ← on_ih ih_uptime_ms; r ← inet_connect_turn i start; mret (r, start)
          end
  end.

(** Whether the socket [o] keeps [s] from having the port. [kernel/net/inet.c: inet_bind 949-950] *)
Definition holds_port (s : InetSocket) (port : Z) (o : InetSocket) : bool :=
  in_used o && bool_decide (in_kind o = in_kind s) && (in_local_port o =? port) && (bool_decide (in_kind s = INET_UDP) || negb (in_connected o)).
(** [kernel/net/inet.c: inet_bind] *)
Definition inet_bind (file : VFile) (name : option str) : M inetst Z :=
  i ← inet_from_file file;
  match name with
  | None => mret (- EBADF)
  | Some name =>
      if i =? -1 then mret (- EBADF)
      else
        match inet_parse_addr name with
        | None => mret (- EINVAL)
        | Some (_, port) =>
            s ← isock i;
            l ← gets is_socks;
            if port =? 0 then mret (- EINVAL)
            else if in_connected s || negb (bool_decide (state_of s = TCP_CLOSED)) then mret (- EINVAL)
            else if existsb (holds_port s port) (delete (Z.to_nat i) l) then mret (- EADDRINUSE)
            else isock_upd i (set_in_local_port port);; mret 0
        end
  end.
(** [kernel/net/inet.c: inet_listen] *)
Definition inet_listen (file : VFile) : M inetst Z :=
  i ← inet_from_file file;
  if i =? -1 then mret (- EBADF)
  else
    s ← isock i;
    if negb (bool_decide (in_kind s = INET_TCP)) || negb (bool_decide (state_of s = TCP_CLOSED)) || in_connected s || (in_local_port s =? 0)
    then mret (- EINVAL)
    else isock_upd i (upd_tcb (set_tc_state TCP_LISTEN));; mret 0.
(** One turn of the loop. [kernel/net/inet.c: inet_accept] *)
Definition inet_accept (file : VFile) : M inetst (sys_res Z) :=
  i ← inet_from_file file;
  if i =? -1 then mret (Ret (- EBADF))
  else
    s ← isock i;
    if negb (bool_decide (in_kind s = INET_TCP)) || negb (bool_decide (state_of s = TCP_LISTEN)) then mret (Ret (- EINVAL))
    else if 0 <? in_backlog_len s then
      c ← lift (in_backlog s !!z 0);
      isock_upd i (set_in_backlog (shift_backlog (in_backlog s) (in_backlog_len s)) (in_backlog_len s - 1));;
      isock_upd c (λ x, set_in_flags (in_flags s) (set_in_orphan false (set_in_parent (-1) x)));;
      fd ← inet_install_fd c;
      x ← isock c;
      (if fd <? 0 then tcp_send_segment c (tc_nxt (in_tcb x)) TCP_RST [];; inet_free free_depth c else mret tt);;
      mret (Ret fd)
    else mret (if in_nonblock s then Ret (- EAGAIN) else Block TASK_BLOCK_FOREVER).
(** [kernel/net/inet.c: inet_init] *)
Definition inet_init : M inetst unit :=
  now ← on_ih ih_uptime_ms; modify (λ s, Inetst (is_socks s) (is_next_port s) (u32 (u32 now * 2654435761)) (is_host s)).
End Inet.
