(* ===== verification/Dhcp.v ===== *)
(** * kernel/net/net.c: DHCP and bringing the network up

    The messages to the server, the options of its answers, and the steps of
    [net_dhcp_init], [net_init] and [net_ping].  A loop that waits for the network is one
    turn, which ends with [Ret] or sleeps with [Block]. *)
From S2P Require Import Prelude RawMem Pmm Heap VfsTypes Ramfs Task TaskRing Sched FsKcalls Net.
Local Open Scope kernel_scope.

(** [kernel/net/net.c 86-93] *)
Definition DHCP_SERVER_PORT : Z := 67.
Definition DHCP_CLIENT_PORT : Z := 68.
Definition DHCP_OP_BOOTREQUEST : Z := 1.
Definition DHCP_OP_BOOTREPLY : Z := 2.
Definition DHCP_HTYPE_ETHERNET : Z := 1.
Definition DHCP_MAGIC_COOKIE : Z := 0x63825363.
(** [kernel/net/net.c 95-104] *)
Definition DHCP_OPT_PAD : Z := 0.
Definition DHCP_OPT_SUBNET_MASK : Z := 1.
Definition DHCP_OPT_ROUTER : Z := 3.
Definition DHCP_OPT_DNS : Z := 6.
Definition DHCP_OPT_REQUESTED_IP : Z := 50.
Definition DHCP_OPT_MSG_TYPE : Z := 53.
Definition DHCP_OPT_SERVER_ID : Z := 54.
Definition DHCP_OPT_PARAM_LIST : Z := 55.
Definition DHCP_OPT_END : Z := 255.
(** [kernel/net/net.c 106-110] *)
Definition DHCP_MSG_DISCOVER : Z := 1.
Definition DHCP_MSG_OFFER : Z := 2.
Definition DHCP_MSG_REQUEST : Z := 3.
Definition DHCP_MSG_ACK : Z := 5.
Definition DHCP_MSG_NAK : Z := 6.
Definition SIZEOF_DHCP_HEADER : Z := 236.

(** [kernel/net/net.c: dhcp_put_option] *)
Definition dhcp_put_option (code : Z) (data : list Z) : list Z := [code; Z.of_nat (length data)] ++ data.
(** The bytes of a [DhcpHeader] of ours. [kernel/net/net.c 112-129] *)
Definition dhcp_header (xid : Z) (mac : list Z) : list Z :=
  [DHCP_OP_BOOTREQUEST; DHCP_HTYPE_ETHERNET; 6; 0] ++ be32 xid ++ replicate 20 0 ++ mac ++ replicate 10 0 ++ replicate 192 0.
(** [kernel/net/net.c: dhcp_send 582-614] *)
Definition dhcp_message (xid : Z) (mac : list Z) (msg_type : Z) (requested_ip server_id : Ipv4Addr) (include_server_id : bool) : list Z :=
  dhcp_header xid mac ++ be32 DHCP_MAGIC_COOKIE ++ dhcp_put_option DHCP_OPT_MSG_TYPE [msg_type] ++
  (if msg_type =? DHCP_MSG_REQUEST then
     dhcp_put_option DHCP_OPT_REQUESTED_IP (ip_bytes requested_ip) ++
     (if include_server_id then dhcp_put_option DHCP_OPT_SERVER_ID (ip_bytes server_id) else [])
   else []) ++
  dhcp_put_option DHCP_OPT_PARAM_LIST [DHCP_OPT_SUBNET_MASK; DHCP_OPT_ROUTER; DHCP_OPT_DNS] ++ [DHCP_OPT_END].

(** What the options of an answer say. *)
Record DhcpOpts := MkOpts { op_type : Z; op_mask : Ipv4Addr; op_router : Ipv4Addr; op_server : Ipv4Addr; op_dns : Ipv4Addr }.
(** One option: its value begins at [v]. [kernel/net/net.c: dhcp_handle_reply 673-692] *)
Definition dhcp_option (opt : list Z) (code olen v : Z) (o : DhcpOpts) : option DhcpOpts :=
  if (code =? DHCP_OPT_MSG_TYPE) && (1 <=? olen) then
    t ← opt !!z v; Some (MkOpts t (op_mask o) (op_router o) (op_server o) (op_dns o))
  else if olen <? 4 then Some o
  else if code =? DHCP_OPT_SUBNET_MASK then ip ← ip_field opt v; Some (MkOpts (op_type o) ip (op_router o) (op_server o) (op_dns o))
  else if code =? DHCP_OPT_ROUTER then ip ← ip_field opt v; Some (MkOpts (op_type o) (op_mask o) ip (op_server o) (op_dns o))
  else if code =? DHCP_OPT_DNS then ip ← ip_field opt v; Some (MkOpts (op_type o) (op_mask o) (op_router o) (op_server o) ip)
  else if code =? DHCP_OPT_SERVER_ID then ip ← ip_field opt v; Some (MkOpts (op_type o) (op_mask o) (op_router o) ip (op_dns o))
  else Some o.
(** Each turn goes at least a byte further. [kernel/net/net.c: dhcp_handle_reply 662-695] *)
Fixpoint dhcp_options (fuel : nat) (opt : list Z) (opt_len i : Z) (o : DhcpOpts) : option DhcpOpts :=
  if opt_len <=? i then Some o
  else match fuel with
  | O => None
  | S fuel' =>
      code ← opt !!z i;
      if code =? DHCP_OPT_PAD then dhcp_options fuel' opt opt_len (u16 (i + 1)) o
      else if code =? DHCP_OPT_END then Some o
      else if opt_len <=? i + 1 then Some o
      else
        olen ← opt !!z (i + 1);
        if opt_len <? i + 2 + olen then Some o
        else o' ← dhcp_option opt code olen (i + 2) o; dhcp_options fuel' opt opt_len (u16 (i + 2 + olen)) o'
  end.

Section Dhcp.
Context {E : Type} `{NH : NetHost E}.
Local Abbreviation net := (Net.net (E := E)).

(** [kernel/net/net.c: dhcp_send] *)
Definition dhcp_send (msg_type : Z) (requested_ip server_id : Ipv4Addr) (include_server_id : bool) : M net unit :=
  n ← net_get id;
  let packet := dhcp_message (dh_xid (nt_dhcp n)) (na_mac (nt_addr n)) msg_type requested_ip server_id include_server_id in
  let len := u16 (SIZEOF_UDP_HEADER + Z.of_nat (length packet)) in
  ipv4_send_from zero_ip broadcast_ip BROADCAST_MAC IPV4_PROTO_UDP
    (be16 DHCP_CLIENT_PORT ++ be16 DHCP_SERVER_PORT ++ be16 len ++ [0; 0] ++ packet) len.

(** What an answer changes. [kernel/net/net.c: dhcp_handle_reply 699-717] *)
Definition dhcp_take (o : DhcpOpts) (ip : Ipv4Addr) (d : Dhcp) : Dhcp :=
  if (op_type o =? DHCP_MSG_OFFER) && negb (dh_offer d) then
    MkDhcp true (dh_ack d) (dh_nak d) (dh_xid d) ip (op_server o) (op_mask o) (op_router o) (op_dns o)
  else if op_type o =? DHCP_MSG_ACK then
    MkDhcp (dh_offer d) true (dh_nak d) (dh_xid d) ip (dh_server d) (op_mask o) (op_router o) (op_dns o)
  else if op_type o =? DHCP_MSG_NAK then
    MkDhcp (dh_offer d) (dh_ack d) true (dh_xid d) (dh_ip d) (dh_server d) (dh_mask d) (dh_gw d) (op_dns o)
  else MkDhcp (dh_offer d) (dh_ack d) (dh_nak d) (dh_xid d) (dh_ip d) (dh_server d) (dh_mask d) (dh_gw d) (op_dns o).
(** [kernel/net/net.c: dhcp_handle_reply] *)
Definition dhcp_handle_reply (src_ip : Ipv4Addr) (src_port : Z) (data : list Z) (len : Z) : M net unit :=
  if len <? SIZEOF_DHCP_HEADER + 4 then mret tt
  else
    n ← net_get id;
    let d := nt_dhcp n in
    op ← lift (data !!z 0); xid ← lift (raw_field data 4 4); chaddr ← lift (read_range data 28 6);
    if negb (op =? DHCP_OP_BOOTREPLY) || negb (net_htonl xid =? dh_xid d) || negb (bool_decide (chaddr = na_mac (nt_addr n))) then mret tt
    else
      cookie ← lift (raw_field data SIZEOF_DHCP_HEADER 4);
      if negb (net_htonl cookie =? DHCP_MAGIC_COOKIE) then mret tt
      else
        let opt := drop (Z.to_nat (SIZEOF_DHCP_HEADER + 4)) data in
        let opt_len := u16 (u16 (len - SIZEOF_DHCP_HEADER) - 4) in
        o ← lift (dhcp_options (Z.to_nat opt_len) opt opt_len 0 (MkOpts 0 zero_ip zero_ip src_ip (dh_dns d)));
        yiaddr ← lift (ip_field data 16);
        net_upd (set_nt_dhcp (dhcp_take o yiaddr d)).

(** ** Bringing the network up *)

(** One turn of the loop; [last] is the time of the last request, [first] says there was none.
    [kernel/net/net.c: arp_resolve] *)
Definition arp_resolve_turn (ip : Ipv4Addr) (start timeout_ms last : Z) (first : bool) : M net (sys_res (option (list Z)) * (Z * bool)) :=
  now ← on_host nh_uptime_ms;
  m ← arp_lookup ip;
  if timeout_ms <=? u64 (now - start) then mret (Ret m, (last, first))
  else match m with
  | Some mac => mret (Ret m, (last, first))
  | None =>
      now ← on_host nh_uptime_ms;
      if first || (300 <=? u64 (now - last)) then
        arp_send_request ip;;
        last ← on_host nh_uptime_ms;
        mret (Block 5, (last, false))
      else mret (Block 5, (last, first))
  end.

(** The addresses of the machine; then the gateway is asked for. [kernel/net/net.c: net_init 804-812] *)
Definition net_init_start (ip gw mask : Ipv4Addr) : M net unit :=
  mac ← on_host nh_nic_mac;
  net_upd (λ n, set_nt_arp (replicate ARP_CACHE_SIZE zero_arp) (nt_arp_next n)
    (set_nt_addr (MkAddr mac ip gw mask (ipv4_from_bytes (ip_a gw) (ip_b gw) (ip_c gw) 3) (na_up (nt_addr n))) n)).
(** [kernel/net/net.c: net_init 817-817] *)
Definition net_init_done : M net unit :=
  net_upd (λ n, let a := nt_addr n in set_nt_addr (MkAddr (na_mac a) (na_ip a) (na_gw a) (na_mask a) (na_dns a) true) n).

(** [kernel/net/net.c: net_dhcp_init 722-744] *)
Definition dhcp_start : M net unit :=
  mac ← on_host nh_nic_mac;
  a ← lift (mac !!z 2); b ← lift (mac !!z 3); c ← lift (mac !!z 4); d ← lift (mac !!z 5);
  let xid := Z.lor (Z.lor (Z.shiftl a 24) (Z.shiftl b 16)) (Z.lor (Z.shiftl c 8) d) in
  net_upd (λ n,
    set_nt_addr (MkAddr mac zero_ip zero_ip zero_ip (na_dns (nt_addr n)) (na_up (nt_addr n)))
    (set_nt_arp (replicate ARP_CACHE_SIZE zero_arp) (nt_arp_next n)
    (set_nt_udp DHCP_CLIENT_PORT true
    (let d := nt_dhcp n in set_nt_dhcp (MkDhcp false false false xid (dh_ip d) (dh_server d) (dh_mask d) (dh_gw d) zero_ip) n))));;
  dhcp_send DHCP_MSG_DISCOVER zero_ip zero_ip false.
(** One turn of a wait for an answer: whether there was one, or a sleep, with the spins after it.
    [kernel/net/net.c: net_dhcp_init 746-757] *)
Definition dhcp_wait (got : Dhcp → bool) (resend : M net unit) (timeout_ms spins : Z) : M net (sys_res bool * Z) :=
  d ← net_get nt_dhcp;
  if got d then mret (Ret true, spins)
  else if u64 (timeout_ms * 50000) <=? spins then mret (Ret false, spins)
  else
    (if (0 <? spins) && (spins mod 300000 =? 0) then resend else mret tt);;
    mret (Block 1, u64 (spins + 50000)).
Definition dhcp_offer_turn : Z → Z → M net (sys_res bool * Z) := dhcp_wait dh_offer (dhcp_send DHCP_MSG_DISCOVER zero_ip zero_ip false).
(** [kernel/net/net.c: net_dhcp_init 765-765] *)
Definition dhcp_request : M net unit := d ← net_get nt_dhcp; dhcp_send DHCP_MSG_REQUEST (dh_ip d) (dh_server d) true.
(** [kernel/net/net.c: net_dhcp_init 767-778] *)
Definition dhcp_ack_turn : Z → Z → M net (sys_res bool * Z) := dhcp_wait (λ d, dh_ack d || dh_nak d) dhcp_request.
(** With an ACK the addresses are taken, with a NAK not. [kernel/net/net.c: net_dhcp_init 780-791] *)
Definition dhcp_accept : M net bool :=
  d ← net_get nt_dhcp;
  if dh_nak d then mret false
  else udp_listen 0 false;; net_init_start (dh_ip d) (dh_gw d) (dh_mask d);; mret true.
(** After [net_init]. [kernel/net/net.c: net_dhcp_init 792-793] *)
Definition dhcp_done : M net unit :=
  net_upd (λ n, let a := nt_addr n in let dns := dh_dns (nt_dhcp n) in
    if ipv4_equal dns zero_ip then n else set_nt_addr (MkAddr (na_mac a) (na_ip a) (na_gw a) (na_mask a) dns (na_up a)) n).

(** One turn of the wait for the answer to a ping. [kernel/net/net.c: net_ping 845-857] *)
Definition ping_turn (timeout_ms spins : Z) : M net (sys_res Z * Z) :=
  p ← net_get nt_ping;
  if u64 (timeout_ms * 50000) <=? spins then mret (Ret 0, spins)
  else if pg_received p then mret (Ret 1, spins)
  else mret (Block 0, spins + 1).
End Dhcp.
