(* ===== verification/NetRecv.v ===== *)
(** * kernel/net/net.c: what arrives

    Frames from the network card and packets of the loopback, down to the sockets of
    inet.c.  The state is that of inet.c over that of net.c: the instance of [InetHost] here
    is the one of the kernel. *)
From S2P Require Import Prelude RawMem Pmm Heap VfsTypes Ramfs Task TaskRing Sched FsKcalls Socket Net Inet Dhcp.
Local Open Scope kernel_scope.

Section NetHost.
Context {E : Type} `{KM : KernelMem E} `{NH : NetHost E}.
Local Abbreviation net := (Net.net (E := E)).

(** Memory and the rest of the kernel as inet.c sees them through net.c. *)
#[export] Instance net_mem : KernelMem net := lens_mem nw_host (λ e n, Net (nw_st n) e).
#[export] Instance net_mem_laws {KL : @KernelMemLaws E KM} : KernelMemLaws net.
Proof. refine (lens_mem_laws nw_host (λ e n, Net (nw_st n) e) _ _); [done|]. by intros []. Qed.
#[export] Instance net_inet_host : InetHost net := {
  ih_send dst protocol bs := ipv4_send dst protocol bs (Z.of_nat (length bs));
  ih_udp_send dst src_port dst_port bs := udp_send dst src_port dst_port bs (Z.of_nat (length bs));
  ih_local_ip := net_local_ip;
  ih_is_up := net_is_up;
  ih_uptime_ms := on_host nh_uptime_ms;
  ih_rdtsc := on_host nh_rdtsc;
  ih_wake_waiters := on_host nh_wake_waiters;
  ih_fd_alloc := on_host nh_fd_alloc;
  ih_fd_set fd node flags := on_host (nh_fd_set fd node flags);
  ih_file_ops p := on_host (nh_file_ops p)
}.
End NetHost.

Section NetRecv.
Context {E : Type} `{KM : KernelMem E} `{NH : NetHost E}.
Local Abbreviation inetst := (Inet.inetst (L := net (E := E))).
(** The address of [inet_sockets]. *)
Context (inet_sockets : Z).
Definition on_net {A} (m : M (net (E := E)) A) : M inetst A := on_ih m.

(** [kernel/net/net.c: udp_handle_packet] *)
Definition udp_handle_packet (src_ip : Ipv4Addr) (data : list Z) (len : Z) : M inetst unit :=
  if len <? SIZEOF_UDP_HEADER then mret tt
  else
    sp ← lift (raw_field data 0 2); dp ← lift (raw_field data 2 2); ul ← lift (raw_field data 4 2);
    let udp_len := Z.min (net_htons ul) len in
    let payload_len := u16 (udp_len - SIZEOF_UDP_HEADER) in
    let payload := drop (Z.to_nat SIZEOF_UDP_HEADER) data in
    n ← on_net (net_get id);
    if nt_udp_cb n && (net_htons dp =? nt_udp_port n) then on_net (dhcp_handle_reply src_ip (net_htons sp) payload payload_len)
    else inet_udp_deliver src_ip (net_htons sp) (net_htons dp) payload payload_len.
(** [kernel/net/net.c: ipv4_dispatch] *)
Definition ipv4_dispatch (src_ip : Ipv4Addr) (protocol : Z) (payload : list Z) (len : Z) : M inetst unit :=
  if protocol =? IPV4_PROTO_ICMP then on_net (icmp_handle_packet src_ip payload len)
  else if protocol =? IPV4_PROTO_UDP then udp_handle_packet src_ip payload len
  else if protocol =? IPV4_PROTO_TCP then inet_tcp_deliver inet_sockets src_ip payload len
  else mret tt.
(** [kernel/net/net.c: ipv4_handle_packet] *)
Definition ipv4_handle_packet (data : list Z) (len : Z) : M inetst unit :=
  if len <? SIZEOF_IPV4_HEADER then mret tt
  else
    vi ← lift (data !!z 0); protocol ← lift (data !!z 9); tl ← lift (raw_field data 2 2);
    src_ip ← lift (ip_field data 12); dst_ip ← lift (ip_field data 16);
    let version := Z.shiftr vi 4 in
    let ihl_words := Z.land vi 0xF in
    let header_len := u16 (ihl_words * 4) in
    if negb (version =? 4) || (ihl_words <? 5) || (len <? header_len) then mret tt
    else
      a ← on_net (net_get nt_addr);
      let have_ip := negb (ipv4_equal (na_ip a) zero_ip) in
      if have_ip && negb (ipv4_equal dst_ip (na_ip a)) && negb (ipv4_equal dst_ip broadcast_ip) then mret tt
      else
        let total_len := Z.min (net_htons tl) len in
        let payload_len := u16 (total_len - header_len) in
        if have_ip || (protocol =? IPV4_PROTO_UDP) then ipv4_dispatch src_ip protocol (drop (Z.to_nat header_len) data) payload_len
        else mret tt.
(** [kernel/net/net.c: net_handle_frame] *)
Definition net_handle_frame (frame : list Z) (len : Z) : M inetst unit :=
  if len <? SIZEOF_ETH_HEADER then mret tt
  else
    et ← lift (raw_field frame 12 2);
    let payload := drop (Z.to_nat SIZEOF_ETH_HEADER) frame in
    let payload_len := u16 (len - SIZEOF_ETH_HEADER) in
    if net_htons et =? ETHERTYPE_ARP then on_net (arp_handle_packet payload payload_len)
    else if net_htons et =? ETHERTYPE_IPV4 then ipv4_handle_packet payload payload_len
    else mret tt.

(** The packets that were there at the start. [kernel/net/net.c: net_loopback_poll 403-410] *)
Fixpoint loopback_loop (n : nat) : M inetst unit :=
  match n with
  | O => mret tt
  | S n' =>
      w ← on_net (net_get id);
      p ← lift (nt_loop w !!z nt_loop_head w);
      on_net (net_upd (set_nt_loop (nt_loop w) ((nt_loop_head w + 1) mod Z.of_nat LOOPBACK_QUEUE) (nt_loop_count w - 1)));;
      ipv4_dispatch (lp_addr p) (lp_protocol p) (lp_data p) (lp_len p);;
      loopback_loop n'
  end.
(** [kernel/net/net.c: net_loopback_poll] *)
Definition net_loopback_poll : M inetst unit := n ← on_net (net_get nt_loop_count); loopback_loop (Z.to_nat n).
End NetRecv.
