(* ===== verification/NetProps.v ===== *)
(** * Packets: checksums, headers and the way through net.c

    Numbers in network order are their bytes, high byte first; a packet with its checksum in
    place adds up to all ones; what one machine puts into a frame is what the other one
    takes out of it; the options of DHCP are read inside the message. *)
From S2P Require Import Prelude RawMem Pmm Heap VfsTypes Ramfs Task TaskRing Sched FsKcalls Socket Ring Net Inet Dhcp NetRecv.
Local Open Scope kernel_scope.

(** ** Lemmas: network order *)
Lemma net_htons_eq v : 0 <= v < 65536 → net_htons v = v mod 256 * 256 + v / 256.
Proof.
  intros Hv. unfold net_htons. rewrite Z.shiftr_div_pow2 by lia. change (2 ^ 8) with 256.
  pose proof (Z.div_mod v 256 ltac:(lia)) as E. pose proof (Z.mod_pos_bound v 256 ltac:(lia)). assert (Hd : 0 <= v / 256 < 256) by (split; [apply Z.div_pos; lia|apply Z.div_lt_upper_bound; lia]).
  rewrite lor_shift by (change (2 ^ 8) with 256; lia). change (2 ^ 8) with 256. unfold u16. symmetry.
  apply (Z.mod_unique _ _ (v / 256)); [left; lia|]. change (2 ^ 16) with (256 * 256). lia.
Qed.
Lemma net_htons_range v : 0 <= net_htons v < 65536.
Proof. apply u16_range. Qed.
Lemma net_htons_twice v : 0 <= v < 65536 → net_htons (net_htons v) = v.
Proof.
  intros Hv. rewrite (net_htons_eq (net_htons v)) by apply net_htons_range. rewrite net_htons_eq by done.
  pose proof (Z.div_mod v 256 ltac:(lia)). pose proof (Z.mod_pos_bound v 256 ltac:(lia)).
  assert (0 <= v / 256 < 256) by (split; [apply Z.div_pos; lia|apply Z.div_lt_upper_bound; lia]).
  rewrite Z.div_add_l, (Z.div_small (v / 256)) by lia. rewrite (Z.add_comm (v mod 256 * 256)), Z_mod_plus_full, (Z.mod_small (v / 256)) by lia. lia.
Qed.
Lemma be16_eq v : 0 <= v < 65536 → be16 v = [v / 256; v mod 256].
Proof.
  intros Hv. unfold be16. cbn [le_split]. rewrite net_htons_eq by done. pose proof (Z.mod_pos_bound v 256 ltac:(lia)).
  assert (0 <= v / 256 < 256) by (split; [apply Z.div_pos; lia|apply Z.div_lt_upper_bound; lia]).
  rewrite Z.div_add_l, (Z.div_small (v / 256)) by lia. rewrite (Z.add_comm (v mod 256 * 256)), Z_mod_plus_full, (Z.mod_small (v / 256)) by lia.
  by rewrite Z.add_0_r, (Z.mod_small (v mod 256)) by lia.
Qed.
Lemma be16_read v : 0 <= v < 65536 → net_htons (le_combine (be16 v)) = v.
Proof.
  intros Hv. unfold be16. rewrite le_combine_split by (change (256 ^ Z.of_nat 2) with 65536; apply net_htons_range). by apply net_htons_twice.
Qed.

(** A number of 32 bits by its bytes, low one first. *)
Lemma four_bytes v : 0 <= v < 2 ^ 32 → ∃ a b c d, v = le_combine [a; b; c; d] ∧ bytes [a; b; c; d].
Proof.
  intros Hv. exists (v mod 256), (v / 256 mod 256), (v / 256 / 256 mod 256), (v / 256 / 256 / 256 mod 256).
  split; [|apply (le_split_bytes 4)]. symmetry. apply (le_combine_split 4). change (256 ^ Z.of_nat 4) with (2 ^ 32). done.
Qed.
Lemma net_htonl_bytes a b c d : bytes [a; b; c; d] → net_htonl (le_combine [a; b; c; d]) = le_combine [d; c; b; a].
Proof.
  intros Hb. repeat (apply list.Forall_cons in Hb as [? Hb]). clear Hb. unfold is_byte in *. cbn [le_combine]. rewrite !Z.mul_0_r, !Z.add_0_r.
  set (v := a + 256 * (b + 256 * (c + 256 * d))). unfold net_htonl.
  assert (M : ∀ k, 0 <= k → Z.land v (Z.shiftl 255 k) = Z.shiftl ((v / 2 ^ k) mod 256) k).
  { intros k Hk. change 256 with (2 ^ 8). rewrite <- Z.land_ones, <- Z.shiftr_div_pow2 by lia. change 255 with (Z.ones 8).
    apply Z.bits_inj'. intros n Hn. rewrite Z.land_spec. destruct (Z.ltb_spec n k).
    - rewrite !Z.shiftl_spec_low by done. apply andb_false_r.
    - rewrite !Z.shiftl_spec by lia. rewrite Z.land_spec, Z.shiftr_spec by lia. by replace (n - k + k) with n by lia. }
  change 0xFF with (Z.shiftl 255 0). change 0xFF00 with (Z.shiftl 255 8). change 0xFF0000 with (Z.shiftl 255 16). change 0xFF000000 with (Z.shiftl 255 24).
  rewrite !M by lia.
  assert (D8 : v / 2 ^ 8 = b + 256 * (c + 256 * d)) by (symmetry; apply (Z.div_unique _ _ _ a); [left|]; lia).
  assert (D16 : v / 2 ^ 16 = c + 256 * d) by (symmetry; apply (Z.div_unique _ _ _ (a + 256 * b)); [left|]; lia).
  assert (D24 : v / 2 ^ 24 = d) by (symmetry; apply (Z.div_unique _ _ _ (a + 256 * (b + 256 * c))); [left|]; lia).
  assert (R : ∀ x y, 0 <= x < 256 → (x + 256 * y) mod 256 = x) by (intros x y Hx; symmetry; apply (Z.mod_unique _ _ y); [left|]; lia).
  rewrite D8, D16, D24, Z.pow_0_r, Z.div_1_r. unfold v. rewrite !R by done. rewrite (Z.mod_small d) by done.
  rewrite Z.shiftl_0_r, Z.shiftl_shiftl by lia. rewrite (Z.shiftr_shiftl_l c), (Z.shiftr_shiftl_r d) by lia.
  change (16 - 8) with 8. change (24 - 24) with 0. rewrite Z.shiftr_0_r. change (8 + 8) with 16.
  rewrite (lor_shift c d 8), <- Z.lor_assoc by lia. rewrite (lor_shift b _ 16), (lor_shift a _ 24) by lia. lia.
Qed.
Lemma net_htonl_twice v : 0 <= v < 2 ^ 32 → net_htonl (net_htonl v) = v.
Proof.
  intros Hv. destruct (four_bytes v Hv) as (a & b & c & d & -> & Hb). rewrite net_htonl_bytes by done.
  apply net_htonl_bytes. unfold bytes in *. rewrite !list.Forall_cons in *. tauto.
Qed.
Lemma net_htonl_range v : 0 <= v < 2 ^ 32 → 0 <= net_htonl v < 2 ^ 32.
Proof.
  intros Hv. destruct (four_bytes v Hv) as (a & b & c & d & -> & Hb). rewrite net_htonl_bytes by done.
  unfold bytes, is_byte in Hb. rewrite !list.Forall_cons in Hb. cbn [le_combine]. lia.
Qed.
Lemma be32_read v : 0 <= v < 2 ^ 32 → net_htonl (le_combine (be32 v)) = v.
Proof.
  intros Hv. unfold be32. rewrite le_combine_split by (change (256 ^ Z.of_nat 4) with (2 ^ 32); by apply net_htonl_range). by apply net_htonl_twice.
Qed.
Lemma be16_length v : length (be16 v) = 2%nat.
Proof. apply length_le_split. Qed.
Lemma be32_length v : length (be32 v) = 4%nat.
Proof. apply length_le_split. Qed.
Lemma be16_bytes v : bytes (be16 v).
Proof. apply le_split_bytes. Qed.
Lemma be32_bytes v : bytes (be32 v).
Proof. apply le_split_bytes. Qed.

(** ** Lemmas: checksums *)

(** The words added up without a bound. *)
Fixpoint words (data : list Z) : Z :=
  match data with
  | hi :: lo :: data' => hi * 256 + lo + words data'
  | [hi] => hi * 256
  | [] => 0
  end.
Lemma words_nonneg data : bytes data → 0 <= words data <= 65535 * Z.of_nat (length data).
Proof.
  revert data. fix IH 1. intros [|hi [|lo data]] Hb; cbn [words length]; [lia| |];
    unfold bytes, is_byte in *; rewrite ?list.Forall_cons in Hb; [lia|]. destruct Hb as (? & ? & Hb). apply IH in Hb. lia.
Qed.
Lemma words_app a b : Nat.even (length a) = true → words (a ++ b) = words a + words b.
Proof. revert a. fix IH 1. intros [|hi [|lo a]] He; [done|done|]. cbn [app words length Nat.even] in *. rewrite IH by done. lia. Qed.
Lemma sum_words_eq sum data : bytes data → 0 <= sum → sum + words data < 2 ^ 32 → sum_words sum data = sum + words data.
Proof.
  revert sum data. fix IH 2. intros sum [|hi [|lo data]] Hb Hs Hlt; cbn [sum_words words] in *; [lia| |];
    unfold bytes, is_byte in *; rewrite ?list.Forall_cons in Hb.
  - rewrite Z.shiftl_mul_pow2, u32_small by lia. lia.
  - destruct Hb as (? & ? & Hb). pose proof (words_nonneg data Hb). rewrite lor_shift by lia. rewrite u32_small by lia.
    rewrite IH by (try done; lia). lia.
Qed.
Lemma fold_sum_spec s : 0 <= s < 2 ^ 32 → ∃ r k, fold_sum fold_fuel s = Some r ∧ 0 <= r < 65536 ∧ s = r + 65535 * k ∧ 0 <= k ∧ (0 < s → 0 < r).
Proof.
  intros Hs. unfold fold_fuel.
  assert (T : ∀ x, 0 <= x < 2 ^ 32 → Z.shiftr x 16 = x / 65536 ∧ Z.land x 0xFFFF = x mod 65536 ∧ 0 <= x / 65536 < 65536 ∧ 0 <= x mod 65536 < 65536 ∧
    x = 65536 * (x / 65536) + x mod 65536).
  { intros x Hx. rewrite Z.shiftr_div_pow2 by lia. change 0xFFFF with (Z.ones 16). rewrite Z.land_ones by lia. change (2 ^ 16) with 65536.
    split_and!; [done|done|apply Z.div_pos; lia|apply Z.div_lt_upper_bound; lia|apply Z.mod_pos_bound; lia|apply Z.mod_pos_bound; lia|apply Z.div_mod; lia]. }
  cbn [fold_sum]. destruct (T s Hs) as (-> & -> & Hq & Hm & Es). set (q := s / 65536) in *. set (m := s mod 65536) in *. clearbody q m.
  destruct (Z.eqb_spec q 0) as [->|Hq0]; [exists s, 0; split_and!; [done|lia..]|].
  rewrite u32_small by lia. destruct (T (m + q)) as (-> & -> & Hq1 & Hm1 & Es1); [lia|]. set (q1 := (m + q) / 65536) in *. set (m1 := (m + q) mod 65536) in *. clearbody q1 m1.
  destruct (Z.eqb_spec q1 0) as [->|Hq10]; [exists (m + q), q; split_and!; [done|lia..]|].
  rewrite u32_small by lia. destruct (T (m1 + q1)) as (-> & _ & Hq2 & Hm2 & Es2); [lia|]. set (q2 := (m1 + q1) / 65536) in *. set (m2 := (m1 + q1) mod 65536) in *. clearbody q2 m2.
  destruct (Z.eqb_spec q2 0) as [->|Hq20]; [exists (m1 + q1), (q + q1); split_and!; [done|lia..]|lia].
Qed.
(** A sum of at least one word fits 32 bits. *)
Lemma sum_words_acc sum data : 0 <= sum < 2 ^ 32 → 0 <= sum_words sum data < 2 ^ 32.
Proof. revert sum data. fix IH 2. intros sum [|hi [|lo data]] Hs; cbn [sum_words]; [done|apply u32_range|apply IH, u32_range]. Qed.
Lemma sum_words_range sum data : data ≠ [] → 0 <= sum_words sum data < 2 ^ 32.
Proof. destruct data as [|hi [|lo data]]; cbn [sum_words]; [done|intros _; apply u32_range|intros _; apply sum_words_acc, u32_range]. Qed.
Lemma u16_lnot r : 0 <= r < 65536 → u16 (Z.lnot r) = 65535 - r.
Proof. intros Hr. unfold u16. symmetry. apply (Z.mod_unique _ _ (-1)); [left; change (2 ^ 16) with 65536; lia|]. change (2 ^ 16) with 65536. unfold Z.lnot. lia. Qed.

(** A sum that starts at [s0], and its complement; with the complement added it is all ones. *)
Lemma complement_spec s0 a b :
  bytes a → bytes b → Nat.even (length a) = true → 0 <= s0 < 2 ^ 20 → Z.of_nat (length a + length b) < 65000 →
  ∃ r, fold_sum fold_fuel (sum_words s0 (a ++ [0; 0] ++ b)) = Some r ∧ 0 <= r < 65536 ∧
    fold_sum fold_fuel (sum_words s0 (a ++ be16 (65535 - r) ++ b)) = Some 65535.
Proof.
  intros Ha Hb He Hs Hl. pose proof (words_nonneg a Ha). pose proof (words_nonneg b Hb).
  assert (W : ∀ v, 0 <= v < 65536 → words (a ++ be16 v ++ b) = words a + v + words b).
  { intros v Hv. rewrite !words_app by done. rewrite be16_eq by done. cbn [words]. pose proof (Z.div_mod v 256 ltac:(lia)). lia. }
  assert (B : ∀ v, bytes (a ++ be16 v ++ b)) by (intros v; apply list.Forall_app_2; [done|apply list.Forall_app_2; [apply be16_bytes|done]]).
  change [0; 0] with (be16 0). rewrite sum_words_eq by (try apply B; rewrite ?W; lia). rewrite W by lia.
  destruct (fold_sum_spec (s0 + (words a + 0 + words b)) ltac:(lia)) as (r & k & E & Hr & Es & Hk & Hpos). exists r. split_and!; [done|lia|lia|].
  rewrite sum_words_eq by (try apply B; rewrite ?W; lia). rewrite W by lia.
  destruct (fold_sum_spec (s0 + (words a + (65535 - r) + words b)) ltac:(lia)) as (r' & k' & -> & Hr' & Es' & Hk' & Hpos'). f_equal.
  assert (0 < r') by (apply Hpos'; lia). assert (r' = 65535 * (k + 1 - k')) by lia. nia.
Qed.

Lemma ip_checksum_eq data : ip_checksum data = s ← fold_sum fold_fuel (sum_words 0 data); Some (u16 (Z.lnot s)).
Proof. done. Qed.
(** A packet with its checksum in place adds up to all ones. *)
Lemma checksum_spec a b :
  bytes a → bytes b → Nat.even (length a) = true → Z.of_nat (length a + length b) < 65000 →
  ∃ c, ip_checksum (a ++ [0; 0] ++ b) = Some c ∧ 0 <= c < 65536 ∧ ip_checksum (a ++ be16 c ++ b) = Some 0.
Proof.
  intros Ha Hb He Hl. destruct (complement_spec 0 a b Ha Hb He ltac:(lia) Hl) as (r & E & Hr & E'). exists (65535 - r).
  rewrite !ip_checksum_eq, E, E'. cbn [mbind option_bind]. rewrite u16_lnot by done. split_and!; [done|lia|lia|done].
Qed.
Lemma ip_checksum_Some data : bytes data → Z.of_nat (length data) < 65000 → ∃ c, ip_checksum data = Some c ∧ 0 <= c < 65536.
Proof.
  intros Hb Hl. pose proof (words_nonneg data Hb). rewrite ip_checksum_eq, sum_words_eq by (try done; lia).
  destruct (fold_sum_spec (0 + words data) ltac:(lia)) as (r & k & -> & Hr & _). exists (65535 - r). cbn. rewrite u16_lnot by done. split; [done|lia].
Qed.

(** ** Frames *)
Definition ip_ok (ip : Ipv4Addr) : Prop := bytes (ip_bytes ip).
Lemma ip_equal_spec a b : ipv4_equal a b = bool_decide (a = b).
Proof.
  destruct a as [a1 a2 a3 a4], b as [b1 b2 b3 b4]. unfold ipv4_equal. cbn.
  destruct (Z.eqb_spec a1 b1), (Z.eqb_spec a2 b2), (Z.eqb_spec a3 b3), (Z.eqb_spec a4 b4); cbn [andb]; symmetry;
    first [apply bool_decide_true; congruence|apply bool_decide_false; congruence].
Qed.
Lemma ipv4_header_bytes src dst protocol total id sum :
  ip_ok src → ip_ok dst → is_byte protocol → bytes (ipv4_header src dst protocol total id sum).
Proof.
  intros Hs Hd Hp. unfold ipv4_header. repeat (apply list.Forall_app_2); try apply be16_bytes; try apply le_split_bytes; try done;
    repeat apply list.Forall_cons_2; try apply list.Forall_nil_2; try done; unfold is_byte; lia.
Qed.
Lemma ipv4_header_length src dst protocol total id sum : length (ipv4_header src dst protocol total id sum) = 20%nat.
Proof. unfold ipv4_header. rewrite !length_app, !be16_length, length_le_split. done. Qed.

(** The frame for a packet. *)
Definition ipv4_frame (dst_mac src_mac : list Z) (src dst : Ipv4Addr) (protocol id sum : Z) (payload : list Z) : list Z :=
  dst_mac ++ src_mac ++ be16 ETHERTYPE_IPV4 ++
  ipv4_header src dst protocol (SIZEOF_IPV4_HEADER + Z.of_nat (length payload)) id (net_htons sum) ++ payload.

Section Frames.
Context {E : Type} `{KM : KernelMem E} `{NH : NetHost E}.

Lemma eth_send_eq dst_mac ethertype payload (n : net (E := E)) :
  Z.of_nat (length payload) <= 1500 →
  eth_send dst_mac ethertype payload (Z.of_nat (length payload)) n =
    on_host (nh_nic_send (dst_mac ++ na_mac (nt_addr (nw_st n)) ++ be16 ethertype ++ payload)) n.
Proof.
  intros Hl. unfold eth_send. unfold net_get, gets, mbind at 1, M_bind at 1. unfold SIZEOF_ETH_HEADER, FRAME_MAX. rewrite u16_small by lia.
  rewrite Z.min_l by lia. destruct (Z.ltb_spec (14 + Z.of_nat (length payload)) 14); [lia|].
  replace (14 + Z.of_nat (length payload) - 14) with (Z.of_nat (length payload)) by lia. rewrite read_range_spec by lia.
  unfold spec_read. cbn [Z.to_nat drop]. rewrite Nat2Z.id, take_ge by done. done.
Qed.
Lemma ipv4_send_from_eq src dst mac protocol payload (n : net (E := E)) :
  ip_ok src → ip_ok dst → is_byte protocol → Z.of_nat (length payload) <= 1480 →
  ∃ sum, 0 <= sum < 65536 ∧
    ip_checksum (ipv4_header src dst protocol (SIZEOF_IPV4_HEADER + Z.of_nat (length payload)) (nt_ip_id (nw_st n)) (net_htons sum)) = Some 0 ∧
    ipv4_send_from src dst mac protocol payload (Z.of_nat (length payload)) n =
      on_host (nh_nic_send (ipv4_frame mac (na_mac (nt_addr (nw_st n))) src dst protocol (nt_ip_id (nw_st n)) sum payload))
        (Net (set_nt_ip_id (u16 (nt_ip_id (nw_st n) + 1)) (nw_st n)) (nw_host n)).
Proof.
  intros Hs Hd Hp Hl. set (id := nt_ip_id (nw_st n)). set (total := SIZEOF_IPV4_HEADER + Z.of_nat (length payload)).
  destruct (checksum_spec ([0x45; 0] ++ be16 total ++ be16 id ++ [0; 0; 64; protocol]) (ip_bytes src ++ ip_bytes dst)) as (sum & E0 & Hsum & E1).
  { repeat (apply list.Forall_app_2); try apply be16_bytes; repeat apply list.Forall_cons_2; try apply list.Forall_nil_2; try done; unfold is_byte; lia. }
  { by apply list.Forall_app_2. }
  { by rewrite !length_app, !be16_length. }
  { rewrite !length_app, !be16_length. cbn. lia. }
  exists sum. split_and!; [lia|lia|unfold ipv4_header, be16 in *; rewrite <- !app_assoc in E1; exact E1|].
  unfold ipv4_send_from. fold total. assert (Et : Z.min (u16 total) MTU = total) by (rewrite u16_small by (unfold total, SIZEOF_IPV4_HEADER; lia); unfold total, SIZEOF_IPV4_HEADER, MTU; lia).
  rewrite Et. destruct (Z.ltb_spec total SIZEOF_IPV4_HEADER); [unfold total in *; lia|].
  assert (E2 : ip_checksum (ipv4_header src dst protocol total id 0) = Some sum) by exact E0.
  assert (E3 : read_range payload 0 (total - SIZEOF_IPV4_HEADER) = Some payload).
  { replace (total - SIZEOF_IPV4_HEADER) with (Z.of_nat (length payload)) by (unfold total; lia). rewrite read_range_spec by lia.
    unfold spec_read. cbn [Z.to_nat drop]. by rewrite Nat2Z.id, take_ge. }
  unfold mbind, M_bind, net_get, gets, net_upd, modify. cbn [nw_st nw_host]. fold id. rewrite E2, E3. cbn [lift].
  assert (Et2 : total = Z.of_nat (length (ipv4_header src dst protocol total id (net_htons sum) ++ payload)))
    by (rewrite length_app, ipv4_header_length; unfold total, SIZEOF_IPV4_HEADER; lia).
  rewrite Et2 at 2. rewrite eth_send_eq by (rewrite <- Et2; unfold total, SIZEOF_IPV4_HEADER; lia). done.
Qed.
End Frames.

(** ** Receiving *)
Lemma read_range_mid a b c off n :
  off = Z.of_nat (length a) → n = Z.of_nat (length b) → read_range (a ++ b ++ c) off n = Some b.
Proof.
  intros -> ->. rewrite read_range_spec by (rewrite ?length_app; lia). unfold spec_read.
  rewrite !Nat2Z.id, drop_app_length. f_equal. apply take_app_length.
Qed.
Lemma raw_field_mid a b c off n :
  off = Z.of_nat (length a) → n = Z.of_nat (length b) → raw_field (a ++ b ++ c) off n = Some (le_combine b).
Proof. intros E1 E2. unfold raw_field. by rewrite (read_range_mid a b c off n E1 E2). Qed.

Section Receive.
Context {E : Type} `{KM : KernelMem E} `{NH : NetHost E} (inet_sockets : Z).
Local Abbreviation inetst := (Inet.inetst (L := net (E := E))).

Lemma packet_received src dst protocol id sum payload pad k (s : inetst) :
  0 <= id < 65536 → Z.of_nat (length payload) <= 1480 →
  0 <= k <= Z.of_nat (length pad) → k < 1000 →
  let ip := na_ip (nt_addr (nw_st (is_host s))) in
  ip ≠ zero_ip → dst = ip ∨ dst = broadcast_ip →
  let total := SIZEOF_IPV4_HEADER + Z.of_nat (length payload) in
  ipv4_handle_packet inet_sockets ((ipv4_header src dst protocol total id sum ++ payload) ++ pad) (total + k) s =
    ipv4_dispatch inet_sockets src protocol (payload ++ pad) (Z.of_nat (length payload)) s.
Proof.
  intros Hid Hl Hk Hk2 ip Hip Hdst total. unfold ipv4_handle_packet. unfold SIZEOF_IPV4_HEADER in *.
  destruct (Z.ltb_spec (total + k) 20); [lia|]. unfold ipv4_header. rewrite !be16_eq by (unfold total; lia). rewrite <- !app_assoc.
  destruct (le_split 2 sum) as [|s0 [|s1 [|]]] eqn:Es; try (apply (f_equal length) in Es; rewrite length_le_split in Es; done).
  unfold ip_bytes. destruct src as [a1 a2 a3 a4], dst as [d1 d2 d3 d4]. cbn [app ip_a ip_b ip_c ip_d].
  set (l := _ :: _). assert (Etl : raw_field l 2 2 = Some (le_combine [total / 256; total mod 256])).
  { unfold l. match goal with |- raw_field (?x0 :: ?x1 :: ?x2 :: ?x3 :: ?r) _ _ = _ => apply (raw_field_mid [x0; x1] [x2; x3] r); done end. }
  unfold mbind at 1, M_bind at 1. change (l !!z 0) with (Some 0x45). change (l !!z 9) with (Some protocol). rewrite Etl.
  change (ip_field l 12) with (Some (Ip a1 a2 a3 a4)). change (ip_field l 16) with (Some (Ip d1 d2 d3 d4)).
  cbn [lift]. unfold mbind at 1 2 3 4, M_bind at 1 2 3 4. cbn [lift].
  rewrite <- (be16_eq total) by (unfold total; lia). rewrite be16_read by (unfold total; lia).
  change (Z.shiftr 0x45 4) with 4. change (Z.land 0x45 0xF) with 5. change (u16 (5 * 4)) with 20.
  destruct (Z.ltb_spec (total + k) 20); [lia|]. cbn [Z.eqb Pos.eqb negb orb Z.ltb Z.compare Pos.compare Pos.compare_cont].
  unfold mbind at 1, M_bind at 1. unfold on_net, on_ih, zoom, net_get, gets. cbn [is_host is_socks is_next_port is_seed].
  fold ip. rewrite !ip_equal_spec. rewrite (bool_decide_false (ip = zero_ip)) by done. cbn [negb andb orb].
  replace (negb (bool_decide (Ip d1 d2 d3 d4 = ip)) && negb (bool_decide (Ip d1 d2 d3 d4 = broadcast_ip))) with false.
  2:{ destruct Hdst as [Hdst|Hdst]; rewrite Hdst; [by rewrite (bool_decide_true (ip = ip))|by rewrite (bool_decide_true (broadcast_ip = broadcast_ip)), andb_false_r]. }
  rewrite Z.min_l by lia. replace (u16 (total - 20)) with (Z.of_nat (length payload)) by (rewrite u16_small; unfold total; lia).
  by destruct s.
Qed.
Lemma frame_received dst_mac src_mac src dst protocol id sum payload pad k (s : inetst) :
  length dst_mac = 6%nat → length src_mac = 6%nat → 0 <= id < 65536 → Z.of_nat (length payload) <= 1480 →
  0 <= k <= Z.of_nat (length pad) → k < 1000 →
  let ip := na_ip (nt_addr (nw_st (is_host s))) in
  ip ≠ zero_ip → dst = ip ∨ dst = broadcast_ip →
  let frame := ipv4_frame dst_mac src_mac src dst protocol id sum payload in
  net_handle_frame inet_sockets (frame ++ pad) (Z.of_nat (length frame) + k) s =
    ipv4_dispatch inet_sockets src protocol (payload ++ pad) (Z.of_nat (length payload)) s.
Proof.
  intros Hd Hs Hid Hl Hk Hk2 ip Hip Hdst frame.
  assert (Lf : Z.of_nat (length frame) = 34 + Z.of_nat (length payload)).
  { unfold frame, ipv4_frame. rewrite !length_app, be16_length, ipv4_header_length, Hd, Hs. lia. }
  unfold net_handle_frame, SIZEOF_ETH_HEADER. rewrite Lf. destruct (Z.ltb_spec (34 + Z.of_nat (length payload) + k) 14); [lia|].
  assert (Et : raw_field (frame ++ pad) 12 2 = Some (le_combine (be16 ETHERTYPE_IPV4))).
  { unfold frame, ipv4_frame. rewrite <- !app_assoc. rewrite (app_assoc dst_mac src_mac).
    apply raw_field_mid; [by rewrite length_app, Hd, Hs|by rewrite be16_length]. }
  unfold mbind at 1, M_bind at 1. rewrite Et. cbn [lift]. rewrite be16_read by done. cbn [Z.eqb Pos.eqb ETHERTYPE_IPV4 ETHERTYPE_ARP].
  replace (drop (Z.to_nat 14) (frame ++ pad)) with
    ((ipv4_header src dst protocol (SIZEOF_IPV4_HEADER + Z.of_nat (length payload)) id (net_htons sum) ++ payload) ++ pad).
  - replace (u16 (34 + Z.of_nat (length payload) + k - 14)) with (SIZEOF_IPV4_HEADER + Z.of_nat (length payload) + k)
      by (rewrite u16_small; unfold SIZEOF_IPV4_HEADER; lia). by apply packet_received.
  - unfold frame, ipv4_frame. rewrite (app_assoc dst_mac), (app_assoc (dst_mac ++ src_mac)), <- (app_assoc ((dst_mac ++ src_mac) ++ _)).
    rewrite drop_app_length' by (rewrite !length_app, be16_length, Hd, Hs; done). done.
Qed.
End Receive.

(** ** UDP from one machine to another *)

(** Where a packet for [dst] goes first. *)
Definition next_hop (a : NetAddr) (dst : Ipv4Addr) : Ipv4Addr := if ipv4_same_subnet dst (na_ip a) (na_mask a) then dst else na_gw a.
(** The MAC address the cache has for [ip]. *)
Definition cached_mac (n : netst) (ip : Ipv4Addr) : option (list Z) := i ← arp_index ip (nt_arp n); e ← nt_arp n !! i; Some (ar_mac e).

Section Udp.
Context {E : Type} `{KM : KernelMem E} `{NH : NetHost E} (inet_sockets : Z).
Local Abbreviation inetst := (Inet.inetst (L := net (E := E))).

Lemma ipv4_send_routed dst protocol payload mac (n : net (E := E)) :
  let a := nt_addr (nw_st n) in
  ipv4_is_local a dst = false → cached_mac (nw_st n) (next_hop a dst) = Some mac →
  ipv4_send dst protocol payload (Z.of_nat (length payload)) n = ipv4_send_from (na_ip a) dst mac protocol payload (Z.of_nat (length payload)) n.
Proof.
  intros a Hl Hm. unfold ipv4_send, net_get, gets. unfold mbind at 1, M_bind at 1. fold a. rewrite Hl.
  unfold arp_lookup, net_get, gets. unfold mbind at 1 2, M_bind at 1 2. unfold mret, M_ret. fold (next_hop a dst) (cached_mac (nw_st n) (next_hop a dst)).
  by rewrite Hm.
Qed.

(** C13 (roundtrip) [udp_send, ipv4_send, ipv4_send_from, ipv4_header, ip_checksum, eth_send, net_handle_frame, ipv4_handle_packet, ipv4_dispatch, udp_handle_packet]
    A datagram for a machine whose address is in the cache leaves in one frame, with a header that
    adds up; the machine it is for hands exactly its bytes, with the sender's address and
    ports, to the sockets, whatever padding the frame has got on the way. *)
Theorem udp_sent_is_received dst src_port dst_port payload mac (n : net (E := E)) :
  let a := nt_addr (nw_st n) in
  ip_ok (na_ip a) → ip_ok dst → length (na_mac a) = 6%nat → length mac = 6%nat →
  ipv4_is_local a dst = false → cached_mac (nw_st n) (next_hop a dst) = Some mac →
  0 <= src_port < 65536 → 0 <= dst_port < 65536 → 0 <= nt_ip_id (nw_st n) < 65536 → Z.of_nat (length payload) <= 1472 →
  ∃ frame n', udp_send dst src_port dst_port payload (Z.of_nat (length payload)) n = on_host (nh_nic_send frame) n' ∧
    (∃ header rest, frame = mac ++ na_mac a ++ be16 ETHERTYPE_IPV4 ++ header ++ rest ∧ length header = 20%nat ∧ ip_checksum header = Some 0) ∧
    ∀ pad k (s : inetst), 0 <= k <= Z.of_nat (length pad) → k < 1000 →
      na_ip (nt_addr (nw_st (is_host s))) = dst → dst ≠ zero_ip → nt_udp_cb (nw_st (is_host s)) = false →
      net_handle_frame inet_sockets (frame ++ pad) (Z.of_nat (length frame) + k) s =
        inet_udp_deliver (na_ip a) src_port dst_port (payload ++ pad) (Z.of_nat (length payload)) s.
Proof.
  intros a Ha Hd Lm Lmac Hloc Hc Hsp Hdp Hid Hl. set (total := SIZEOF_UDP_HEADER + Z.of_nat (length payload)).
  set (udp := (be16 src_port ++ be16 dst_port ++ be16 total ++ [0; 0]) ++ payload).
  assert (Lu : Z.of_nat (length udp) = total) by (unfold udp, total; rewrite !length_app, !be16_length; unfold SIZEOF_UDP_HEADER; cbn [length]; lia).
  destruct (ipv4_send_from_eq (na_ip a) dst mac IPV4_PROTO_UDP udp n Ha Hd ltac:(done) ltac:(unfold total, SIZEOF_UDP_HEADER in *; lia)) as (sum & Hsum & Hck & Es).
  eexists _, _. split; [|split].
  - unfold udp_send. fold total. assert (Et : Z.min (u16 total) MTU = total) by (rewrite u16_small by (unfold total, SIZEOF_UDP_HEADER; lia); unfold total, SIZEOF_UDP_HEADER, MTU; lia).
    rewrite Et. destruct (Z.ltb_spec total SIZEOF_UDP_HEADER); [unfold total in *; lia|].
    assert (E3 : read_range payload 0 (total - SIZEOF_UDP_HEADER) = Some payload).
    { replace (total - SIZEOF_UDP_HEADER) with (Z.of_nat (length payload)) by (unfold total; lia). rewrite read_range_spec by lia.
      unfold spec_read. cbn [Z.to_nat drop]. by rewrite Nat2Z.id, take_ge. }
    unfold mbind, M_bind. rewrite E3. cbn [lift].
    replace (be16 src_port ++ be16 dst_port ++ be16 total ++ [0; 0] ++ payload) with udp by (unfold udp; by rewrite <- !app_assoc).
    rewrite <- Lu at 1. rewrite (ipv4_send_routed dst IPV4_PROTO_UDP udp mac n Hloc Hc). exact Es.
  - unfold ipv4_frame. eexists _, _. split; [reflexivity|]. split; [apply ipv4_header_length|exact Hck].
  - intros pad k s Hk Hk2 Hip Hz Hcb. rewrite frame_received by (try done; rewrite ?Hip; try done; try (by left); rewrite ?Lu; unfold total, SIZEOF_UDP_HEADER; lia).
    unfold ipv4_dispatch. cbn [Z.eqb Pos.eqb IPV4_PROTO_UDP IPV4_PROTO_ICMP]. unfold udp_handle_packet. rewrite Lu.
    destruct (Z.ltb_spec total SIZEOF_UDP_HEADER); [unfold total in *; lia|].
    assert (F0 : raw_field (udp ++ pad) 0 2 = Some (le_combine (be16 src_port))).
    { unfold udp. rewrite <- !app_assoc. by apply (raw_field_mid [] (be16 src_port)). }
    assert (F2 : raw_field (udp ++ pad) 2 2 = Some (le_combine (be16 dst_port))).
    { unfold udp. rewrite <- !app_assoc. by apply (raw_field_mid (be16 src_port) (be16 dst_port)). }
    assert (F4 : raw_field (udp ++ pad) 4 2 = Some (le_combine (be16 total))).
    { unfold udp. rewrite <- !app_assoc. rewrite (app_assoc (be16 src_port)). by apply (raw_field_mid (be16 src_port ++ be16 dst_port) (be16 total)). }
    unfold mbind at 1 2 3 4, M_bind at 1 2 3 4. rewrite F0, F2, F4. cbn [lift]. unfold on_net, on_ih, zoom, net_get, gets. cbn [is_host is_socks is_next_port is_seed id].
    rewrite Hcb. cbn [andb]. rewrite !be16_read by (try done; unfold total, SIZEOF_UDP_HEADER; lia). rewrite Z.min_id.
    replace (u16 (total - SIZEOF_UDP_HEADER)) with (Z.of_nat (length payload)) by (rewrite u16_small; unfold total; lia).
    replace (drop (Z.to_nat SIZEOF_UDP_HEADER) (udp ++ pad)) with (payload ++ pad).
    + by destruct s.
    + unfold udp. rewrite <- (app_assoc (be16 src_port ++ _)). rewrite drop_app_length'; [done|]. by rewrite !length_app, !be16_length.
Qed.
End Udp.

(** ** The loopback *)
Definition loop_item (p : LoopbackPacket) : Ipv4Addr * Z * list Z := (lp_addr p, lp_protocol p, take (Z.to_nat (lp_len p)) (lp_data p)).
Definition LOOPN : Z := Z.of_nat LOOPBACK_QUEUE.
(** The packets waiting, oldest first. *)
Definition loop_queue (n : netst) : list (Ipv4Addr * Z * list Z) :=
  map loop_item (ring_items zero_loop LOOPN (nt_loop n) (nt_loop_head n) (nt_loop_count n)).
Definition loop_packet_ok (p : LoopbackPacket) : Prop := length (lp_data p) = 1500%nat ∧ 0 <= lp_len p <= MTU.
Record loop_ok (n : netst) : Prop := {
  lk_ring : ring_wf LOOPN (nt_loop n) (nt_loop_head n) (nt_loop_count n);
  lk_packets : Forall loop_packet_ok (nt_loop n)
}.
Lemma loop_lookup n i : loop_ok n → 0 <= i < LOOPN → ∃ p, nt_loop n !!z i = Some p ∧ loop_packet_ok p.
Proof.
  intros [(L & _) F] Hi. destruct (lookupZ_lt_is_Some (nt_loop n) i) as [p Hp]; [lia|]. exists p. split; [done|].
  unfold lookupZ in Hp. destruct (i <? 0); [done|]. rewrite Forall_lookup in F. by eapply F.
Qed.
Lemma write_front l bs : Z.of_nat (length bs) <= Z.of_nat (length l) → ∃ l', write_range l 0 bs = Some l' ∧ length l' = length l ∧ take (length bs) l' = bs.
Proof.
  intros Hl. unfold write_range. destruct (Z.leb_spec 0 0), (Z.leb_spec (0 + Z.of_nat (length bs)) (Z.of_nat (length l))); try lia. cbn [andb].
  eexists. split; [reflexivity|]. change (Z.to_nat 0) with 0%nat. rewrite take_0, Nat.add_0_l. cbn [app]. split; [rewrite length_app, length_drop; lia|]. by rewrite take_app_length.
Qed.

Section Loopback.
Context {E : Type} `{KM : KernelMem E} `{NH : NetHost E} (inet_sockets : Z).
Local Abbreviation inetst := (Inet.inetst (L := net (E := E))).

Lemma loopback_send_spec dst protocol payload (n : net (E := E)) :
  loop_ok (nw_st n) →
  let l := Z.of_nat (length payload) in
  let fits := (nt_loop_count (nw_st n) <? LOOPN) && (l <=? MTU) in
  ∃ st, loopback_send dst protocol payload l n = Some (tt, Net st (nw_host n)) ∧ loop_ok st ∧
    st = set_nt_loop (nt_loop st) (nt_loop_head st) (nt_loop_count st) (nw_st n) ∧
    loop_queue st = loop_queue (nw_st n) ++ (if fits then [(dst, protocol, payload)] else []).
Proof.
  intros Ok l fits. unfold loopback_send. unfold mbind at 1, M_bind at 1. unfold net_get, gets, id. fold LOOPN. fold fits.
  destruct fits eqn:Ef; [|exists (nw_st n); destruct n as [w h]; split_and!; [done|done|by destruct w|by rewrite app_nil_r]].
  apply andb_prop in Ef as [Ec%Z.ltb_lt El%Z.leb_le].
  destruct (loop_lookup (nw_st n) ((nt_loop_head (nw_st n) + nt_loop_count (nw_st n)) mod LOOPN) Ok) as (p & Hp & Lp & _); [by apply ring_bound|].
  destruct (write_front (lp_data p) payload) as (d & Hd & Ld & Td); [unfold l, MTU in *; lia|].
  destruct (ring_push zero_loop LOOPN ltac:(done) (nt_loop (nw_st n)) (nt_loop_head (nw_st n)) (nt_loop_count (nw_st n)) (MkLoop dst protocol l d) (lk_ring _ Ok) Ec)
    as (q & Hq & Wq & Iq).
  unfold mbind, M_bind. rewrite Hp. cbn [lift].
  assert (R : read_range payload 0 l = Some payload).
  { rewrite read_range_spec by (unfold l; lia). unfold spec_read, l. cbn [Z.to_nat drop]. by rewrite Nat2Z.id, take_ge. }
  rewrite R. cbn [lift]. rewrite Hd. cbn [lift]. rewrite Hq. cbn [lift]. eexists. split; [reflexivity|]. split; [|split; [done|]].
  - constructor; [exact Wq|]. cbn. apply updateZ_Some_inv in Hq as [_ ->]. apply Forall_insert; [apply Ok|]. split; [by cbn; rewrite Ld|cbn; unfold l; lia].
  - unfold loop_queue. cbn [set_nt_loop nt_loop nt_loop_head nt_loop_count]. rewrite Iq, map_app. f_equal. cbn. unfold loop_item. cbn. unfold l. by rewrite Nat2Z.id, Td.
Qed.
End Loopback.

(** ** The answers of a DHCP server *)
Lemma ip_field_Some data off : 0 <= off → off + 4 <= Z.of_nat (length data) → ∃ ip, ip_field data off = Some ip.
Proof.
  intros H1 H2. unfold ip_field. destruct (lookupZ_lt_is_Some data off) as [a ->]; [lia|]. destruct (lookupZ_lt_is_Some data (off + 1)) as [b ->]; [lia|].
  destruct (lookupZ_lt_is_Some data (off + 2)) as [c ->]; [lia|]. destruct (lookupZ_lt_is_Some data (off + 3)) as [d ->]; [lia|]. by eexists.
Qed.
Lemma byte_at data i : bytes data → 0 <= i < Z.of_nat (length data) → ∃ b, data !!z i = Some b ∧ is_byte b.
Proof.
  intros Hb Hi. destruct (lookupZ_lt_is_Some data i Hi) as [b E]. exists b. split; [done|]. unfold lookupZ in E. destruct (i <? 0); [done|].
  unfold bytes in Hb. rewrite Forall_lookup in Hb. by eapply Hb.
Qed.
Lemma dhcp_option_Some opt code olen v o :
  0 <= v → v + olen <= Z.of_nat (length opt) → ∃ o', dhcp_option opt code olen v o = Some o'.
Proof.
  intros Hv Hl. unfold dhcp_option. destruct ((code =? DHCP_OPT_MSG_TYPE) && (1 <=? olen)) eqn:Et.
  { apply andb_prop in Et as [_ Et%Z.leb_le]. destruct (lookupZ_lt_is_Some opt v) as [t ->]; [lia|]. by eexists. }
  destruct (Z.ltb_spec olen 4); [by eexists|]. destruct (ip_field_Some opt v) as [ip ->]; [lia|lia|]. cbn [mbind option_bind].
  repeat case_match; by eexists.
Qed.
Lemma byte_front data n i : bytes (take (Z.to_nat n) data) → n <= Z.of_nat (length data) → 0 <= i < n → ∃ b, data !!z i = Some b ∧ is_byte b.
Proof.
  intros Hb Hn Hi. destruct (byte_at (take (Z.to_nat n) data) i Hb) as (b & E & Eb); [rewrite length_take; lia|]. exists b. split; [|done].
  unfold lookupZ in *. destruct (i <? 0); [done|]. by rewrite lookup_take_lt in E by lia.
Qed.
(** The options end, and no byte is read outside the message. *)
Lemma dhcp_options_Some fuel opt opt_len i o :
  bytes (take (Z.to_nat opt_len) opt) → 0 <= i → opt_len <= Z.of_nat (length opt) → opt_len < 65536 → opt_len - i <= Z.of_nat fuel → ∃ o', dhcp_options fuel opt opt_len i o = Some o'.
Proof.
  intros Hb. revert i o. induction fuel as [|fuel IH]; intros i o Hi Hl Hlt Hf; cbn [dhcp_options]; (destruct (Z.leb_spec opt_len i); [by eexists|]); [lia|].
  destruct (byte_front opt opt_len i Hb) as (code & -> & Hc); [lia|lia|]. cbn [mbind option_bind].
  destruct (code =? DHCP_OPT_PAD); [rewrite u16_small by lia; apply IH; lia|].
  destruct (code =? DHCP_OPT_END); [by eexists|]. destruct (Z.leb_spec opt_len (i + 1)); [by eexists|].
  destruct (byte_front opt opt_len (i + 1) Hb) as (olen & -> & Ho); [lia|lia|]. cbn [mbind option_bind].
  destruct (Z.ltb_spec opt_len (i + 2 + olen)); [by eexists|]. unfold is_byte in Ho.
  destruct (dhcp_option_Some opt code olen (i + 2) o) as [o' ->]; [lia|lia|]. cbn [mbind option_bind]. rewrite u16_small by lia. apply IH; lia.
Qed.
Lemma raw_field_Some data off n : 0 <= off → off + n <= Z.of_nat (length data) → ∃ v, raw_field data off n = Some v.
Proof. intros H1 H2. unfold raw_field. destruct (read_range_Some data off n H1 H2) as [bs ->]. by eexists. Qed.

Lemma dhcp_reply_step {E : Type} `{NH : NetHost E} src_ip src_port data len (n : net (E := E)) :
  bytes (take (Z.to_nat len) data) → 0 <= len <= Z.of_nat (length data) → len < 65536 →
  ∃ d, dhcp_handle_reply src_ip src_port data len n = Some (tt, Net (set_nt_dhcp d (nw_st n)) (nw_host n)).
Proof.
  intros Hb Hlen Hlt. assert (Same : ∃ d, Some (tt, n) = Some (tt, Net (set_nt_dhcp d (nw_st n)) (nw_host n))) by (exists (nt_dhcp (nw_st n)); by destruct n as [[] ?]).
  unfold dhcp_handle_reply. destruct (Z.ltb_spec len (SIZEOF_DHCP_HEADER + 4)); [exact Same|]. unfold SIZEOF_DHCP_HEADER in *.
  unfold net_get, gets, net_upd, modify, id, mbind, M_bind.
  destruct (byte_front data len 0 Hb) as (op & -> & _); [lia|lia|]. destruct (raw_field_Some data 4 4) as [xid ->]; [lia|lia|].
  destruct (read_range_Some data 28 6) as [ch ->]; [lia|lia|]. cbn [lift].
  match goal with |- context [if ?c then _ else _] => destruct c; [exact Same|] end.
  destruct (raw_field_Some data 236 4) as [ck ->]; [lia|lia|]. cbn [lift].
  match goal with |- context [if ?c then _ else _] => destruct c; [exact Same|] end.
  rewrite (u16_small (len - 236)) by lia. rewrite (u16_small (len - 236 - 4)) by lia. change (236 + 4) with 240.
  edestruct (dhcp_options_Some (Z.to_nat (len - 236 - 4)) (drop (Z.to_nat 240) data) (len - 236 - 4) 0) as [o Eo];
    [|lia|rewrite length_drop; lia|lia|lia|].
  { rewrite take_drop_commute. apply Forall_drop. replace (Z.to_nat 240 + Z.to_nat (len - 236 - 4))%nat with (Z.to_nat len) by lia. exact Hb. }
  rewrite Eo. cbn [lift].
  destruct (ip_field_Some data 16) as [y ->]; [lia|lia|]. cbn [lift]. by eexists.
Qed.
(** Whatever message arrives as an answer of DHCP, its options are read to an end without a byte
    outside the message being read, and nothing but the lease on offer changes. *)
Lemma dhcp_handle_reply_safe {E : Type} `{NH : NetHost E} src_ip src_port data len (n : net (E := E)) :
  bytes (take (Z.to_nat len) data) → 0 <= len <= Z.of_nat (length data) → len < 65536 →
  ∃ d, dhcp_handle_reply src_ip src_port data len n = Some (tt, Net (set_nt_dhcp d (nw_st n)) (nw_host n)).
Proof. apply dhcp_reply_step. Qed.
