(* ===== verification/TcpMoves.v ===== *)
(** * What a connection does

    [move] is the abstract machine of one TCP connection: the things that can happen to a socket of
    kernel/net/inet.c, each with the segments it sends and the bytes it takes from a program or
    gives to one.  The theorems here say that the operations of inet.c on a connection are
    sequences of moves, and that they never go wrong, over any kernel that keeps the laws of
    [InetHostLaws]. *)
From S2P Require Import Prelude RawMem Pmm Heap VfsTypes Ramfs Task TaskRing Sched FsKcalls Socket Ring Net Inet Dhcp NetRecv NetProps.
Local Open Scope kernel_scope.

(** ** The interface *)

(** The kernel goes from [h] to [h'], sending [out], and memory stays as it is. *)
Definition host_step {L} `{KernelMem L} (ok : L → Prop) (sent : list (Ipv4Addr * Z * list Z) → L → L → Prop) (out : list (Ipv4Addr * Z * list Z)) (h h' : L) : Prop :=
  ok h' ∧ sent out h h' ∧ ∀ runs blocks, km_inv h runs blocks → km_inv h' runs blocks.

(** What inet.c relies on: its calls return, packets are sent in the order of the calls, and
    nothing takes its memory away.  [ih_sent out h h'] is what can be said of packets [out] sent. *)
Class InetHostLaws (L : Type) `{KM : KernelMem L} `{IH : InetHost L} := {
  ih_ok : L → Prop;
  ih_sent : list (Ipv4Addr * Z * list Z) → L → L → Prop;
  ih_sent_refl h : ih_sent [] h h;
  ih_sent_trans a b h h1 h2 : ih_sent a h h1 → ih_sent b h1 h2 → ih_sent (a ++ b) h h2;
  ih_send_law dst protocol bs h (Q : unit → L → Prop) :
    ih_ok h → protocol ≠ IPV4_PROTO_UDP → Z.of_nat (length bs) <= 1480 →
    (∀ h', host_step ih_ok ih_sent [(dst, protocol, bs)] h h' → Q tt h') → wp (ih_send dst protocol bs) Q h;
  ih_udp_send_law dst src_port dst_port bs h (Q : unit → L → Prop) :
    ih_ok h → bytes bs → Z.of_nat (length bs) <= 1472 → (∀ out h', host_step ih_ok ih_sent out h h' → Forall (λ p, p.1.2 = IPV4_PROTO_UDP) out → Q tt h') →
    wp (ih_udp_send dst src_port dst_port bs) Q h;
  ih_local_ip_law h (Q : Ipv4Addr → L → Prop) : ih_ok h → (∀ ip h', host_step ih_ok ih_sent [] h h' → Q ip h') → wp ih_local_ip Q h;
  ih_is_up_law h (Q : bool → L → Prop) : ih_ok h → (∀ b h', host_step ih_ok ih_sent [] h h' → Q b h') → wp ih_is_up Q h;
  ih_uptime_ms_law h (Q : Z → L → Prop) : ih_ok h → (∀ t h', 0 <= t < 2 ^ 64 → host_step ih_ok ih_sent [] h h' → Q t h') → wp ih_uptime_ms Q h;
  ih_rdtsc_law h (Q : Z * Z → L → Prop) : ih_ok h → (∀ r h', host_step ih_ok ih_sent [] h h' → Q r h') → wp ih_rdtsc Q h;
  ih_wake_law h (Q : unit → L → Prop) : ih_ok h → (∀ h', host_step ih_ok ih_sent [] h h' → Q tt h') → wp ih_wake_waiters Q h;
  (** A descriptor just allocated, and the node of a file that is no socket of inet.c. *)
  ih_fd_fresh : L → Z → Prop;
  ih_other_node : L → Z → Prop;
  ih_fd_alloc_law h (Q : Z → L → Prop) :
    ih_ok h → (∀ fd h', host_step ih_ok ih_sent [] h h' → (fd ≠ FD_INVALID → 0 <= fd ∧ ih_fd_fresh h' fd) → Q fd h') → wp ih_fd_alloc Q h;
  ih_fd_set_law fd node flags h (Q : unit → L → Prop) :
    ih_ok h → ih_fd_fresh h fd → (∀ h', host_step ih_ok ih_sent [] h h' → Q tt h') → wp (ih_fd_set fd node flags) Q h;
  ih_file_ops_law p h (Q : Z → L → Prop) :
    ih_ok h → ih_other_node h p → (∀ ops h', ops ≠ INET_FILE_OPS → host_step ih_ok ih_sent [] h h' → Q ops h') → wp (ih_file_ops p) Q h;
  ih_alloc_pages_ok n h r h' : km_alloc_pages n h = Some (r, h') → ih_ok h → ih_ok h' ∧ ih_sent [] h h';
  ih_free_pages_ok p n h r h' : km_free_pages p n h = Some (r, h') → ih_ok h → ih_ok h' ∧ ih_sent [] h h';
  ih_kmalloc_ok n h r h' : km_kmalloc n h = Some (r, h') → ih_ok h → ih_ok h' ∧ ih_sent [] h h';
  ih_kfree_ok p h r h' : km_kfree p h = Some (r, h') → ih_ok h → ih_ok h' ∧ ih_sent [] h h'
}.

(** ** The abstract machine *)

(** A segment that has come in: what is behind its header. *)
Record Segment := MkSeg { sg_flags : Z; sg_seq : Z; sg_ack : Z; sg_wnd : Z; sg_data : list Z }.

(** What a move is caused by: the kernel itself, a segment, the program that
    holds the socket, which writes and reads it or closes it. *)
Inductive cause := Kernel | Incoming (sg : Segment) | Program | Closing.

(** What others see of a connection. *)
Inductive ev := Sent (bs : list Z) | Wrote (bs : list Z) | Took (bs : list Z).
Definition ev_sent (e : ev) : list (list Z) := match e with Sent bs => [bs] | _ => [] end.
Definition ev_wrote (e : ev) : list Z := match e with Wrote bs => bs | _ => [] end.
Definition ev_took (e : ev) : list Z := match e with Took bs => bs | _ => [] end.
Definition outs (dst : Ipv4Addr) (es : list ev) : list (Ipv4Addr * Z * list Z) := map (λ bs, (dst, IPV4_PROTO_TCP, bs)) (es ≫= ev_sent).

Section Moves.
Definition is_open (x : InetSocket) : Prop := state_of x ∈ [TCP_ESTABLISHED; TCP_CLOSE_WAIT; TCP_FIN_WAIT].
Definition seg_of (x : InetSocket) (seq flags : Z) (data bs : list Z) : Prop :=
  ∃ sum, 0 <= sum < 65536 ∧ bs = tcp_bytes x seq flags data sum.
Definition set_nxt (v : Z) (x : InetSocket) : InetSocket := upd_tcb (set_tc_nxt v) x.
Definition after_fin (x : InetSocket) : InetSocket :=
  upd_tcb (λ t, set_tc_state (if decide (tc_state t = TCP_CLOSE_WAIT) then TCP_DONE else TCP_FIN_WAIT)
    (set_tc_nxt (u32 (tc_nxt t + 1)) (set_tc_fin true (tc_nxt t) t))) x.
Definition after_acked (d : Z) (x : InetSocket) : InetSocket :=
  upd_timer (set_deadline (if tc_una (in_tcb x) =? tc_nxt (in_tcb x) then 0 else d)) x.
Definition after_fin_in (x : InetSocket) : InetSocket :=
  upd_tcb (λ t, set_tc_state
    (if decide (tc_state t = TCP_ESTABLISHED) then TCP_CLOSE_WAIT else if decide (tc_state t = TCP_FIN_WAIT) then TCP_DONE else tc_state t)
    (set_tc_fin_received true (set_tc_rcv (u32 (tc_rcv t + 1)) t))) x.
Definition rewound (x : InetSocket) : InetSocket :=
  upd_tcb (λ t, set_tc_state
    (if tc_fin_sent t && bool_decide (tc_state t = TCP_FIN_WAIT) then TCP_ESTABLISHED
     else if tc_fin_sent t && bool_decide (tc_state t = TCP_DONE) then TCP_CLOSE_WAIT else tc_state t)
    (set_tc_fin false (tc_fin_seq t) (set_tc_nxt (tc_una t) t))) x.
Definition after_close (done : Z) (x : InetSocket) : InetSocket :=
  upd_timer (set_done done) (upd_tcb (set_tc_close_requested true) (set_in_orphan true x)).

(** One thing that happens to the connection [x]; [inc] is what causes it. *)
Inductive move (inc : cause) (x : InetSocket) : list ev → InetSocket → Prop :=
  (** The rest of the kernel runs. *)
  | mv_idle : move inc x [] x
  (** The timer is set or stopped, the socket's flags change. *)
  | mv_timer m :
      (tm_deadline m ≠ 0 → tm_deadline (in_timer x) ≠ 0 ∨ tc_una (in_tcb x) ≠ tc_nxt (in_tcb x)) → move inc x [] (set_in_timer m x)
  | mv_flags f : move inc x [] (set_in_flags f x)
  (** Segments without data. *)
  | mv_send_ack bs : seg_of x (tc_nxt (in_tcb x)) TCP_ACK [] bs → move inc x [Sent bs] x
  | mv_send_syn flags bs : state_of x ∈ [TCP_SYN_SENT; TCP_SYN_RCVD] → seg_of x (tc_iss (in_tcb x)) flags [] bs → move inc x [Sent bs] x
  | mv_send_rst bs : state_of x = TCP_SYN_SENT → seg_of x (tc_nxt (in_tcb x)) TCP_RST [] bs → move inc x [Sent bs] x
  (** The next bytes of the buffer, and the end of the stream behind the last one. *)
  | mv_send_data len data bs :
      is_open x → let n := bytes_in_flight x in
      n < tb_count (in_tx x) → 0 < len <= TCP_MSS → n + len <= tb_count (in_tx x) →
      read_range (tb_bytes (in_tx x)) n len = Some data → seg_of x (tc_nxt (in_tcb x)) (Z.lor TCP_ACK TCP_PSH) data bs →
      move inc x [Sent bs] (set_nxt (u32 (tc_nxt (in_tcb x) + len)) x)
  | mv_send_fin bs :
      is_open x → tc_close_requested (in_tcb x) = true → tc_fin_sent (in_tcb x) = false →
      u32 (tc_nxt (in_tcb x) - tc_una (in_tcb x)) = tb_count (in_tx x) → seg_of x (tc_nxt (in_tcb x)) (Z.lor TCP_ACK TCP_FIN) [] bs →
      move inc x [Sent bs] (after_fin x)
  (** What a segment brings: an acknowledgement, a window, bytes, the end of the stream, the
      end of the handshake, a reset. *)
  | mv_acked sg y d :
      inc = Incoming sg → has (sg_flags sg) TCP_ACK = true →
      seq_lt (tc_una (in_tcb x)) (sg_ack sg) = true → seq_le (sg_ack sg) (tc_nxt (in_tcb x)) = true →
      take_acked (sg_ack sg) x = Some y → move inc x [] (after_acked d y)
  | mv_window w : 0 <= w → move inc x [] (upd_tcb (set_tc_wnd w) x)
  | mv_data sg pad y :
      inc = Incoming sg → sg_seq sg = tc_rcv (in_tcb x) → tc_fin_received (in_tcb x) = false → 0 < Z.of_nat (length (sg_data sg)) →
      take_data (sg_data sg ++ pad) (Z.of_nat (length (sg_data sg))) x = Some y → move inc x [] y
  | mv_fin sg :
      inc = Incoming sg → has (sg_flags sg) TCP_FIN = true → u32 (sg_seq sg + Z.of_nat (length (sg_data sg))) = tc_rcv (in_tcb x) →
      tc_fin_received (in_tcb x) = false → move inc x [] (after_fin_in x)
  | mv_open t m : state_of x ∈ [TCP_SYN_SENT; TCP_SYN_RCVD] → tc_state t = TCP_ESTABLISHED → 0 <= tc_wnd t → move inc x [] (set_in_timer m (set_in_tcb t x))
  | mv_closed e : e ≠ 0 → move inc x [] (upd_timer (set_deadline 0) (upd_tcb (λ t, set_tc_error e (set_tc_state TCP_CLOSED t)) x))
  (** The timer has run out: everything not acknowledged is to be sent again. *)
  | mv_rewind m : tm_deadline (in_timer x) ≠ 0 → state_of x ∉ [TCP_SYN_SENT; TCP_SYN_RCVD] → move inc x [] (rewound (set_in_timer m x))
  (** The program writes, reads, closes. *)
  | mv_wrote src bs :
      inc = Program → state_of x ∈ [TCP_ESTABLISHED; TCP_CLOSE_WAIT] → tb_count (in_tx x) + Z.of_nat (length src) <= TCP_TX_SIZE →
      write_range (tb_bytes (in_tx x)) (tb_count (in_tx x)) src = Some bs →
      move inc x [Wrote src] (set_in_tx (MkTx (tb_ptr (in_tx x)) bs (tb_count (in_tx x) + Z.of_nat (length src))) x)
  | mv_took count bs y : inc = Program → 0 <= count → rx_take count x = Some (bs, y) → move inc x [Took bs] y
  | mv_close done : inc = Closing → move inc x [] (after_close done x).

(** The buffers of a connection have their sizes. *)
Record tcp_ok (x : InetSocket) : Prop := {
  to_rx : ring_wf TCP_RX_SIZE (rr_bytes (in_rx x)) (rr_head (in_rx x)) (rr_count (in_rx x));
  to_tx : Z.of_nat (length (tb_bytes (in_tx x))) = TCP_TX_SIZE;
  to_count : 0 <= tb_count (in_tx x) <= TCP_TX_SIZE;
  to_wnd : 0 <= tc_wnd (in_tcb x)
}.
(** What no move changes. *)
Record same_conn (x y : InetSocket) : Prop := {
  sc_used : in_used y = in_used x; sc_kind : in_kind y = in_kind x; sc_node : in_node y = in_node x;
  sc_ip : in_remote_ip y = in_remote_ip x; sc_port : in_remote_port y = in_remote_port x; sc_local : in_local_port y = in_local_port x;
  sc_connected : in_connected y = in_connected x; sc_parent : in_parent y = in_parent x;
  sc_backlog : in_backlog y = in_backlog x; sc_len : in_backlog_len y = in_backlog_len x;
  sc_rx : rr_ptr (in_rx y) = rr_ptr (in_rx x); sc_tx : tb_ptr (in_tx y) = tb_ptr (in_tx x); sc_udp : in_udp y = in_udp x
}.
End Moves.

(** ** Lemmas: moves *)
Lemma same_conn_refl x : same_conn x x.
Proof. by constructor. Qed.
Lemma same_conn_trans x y z : same_conn x y → same_conn y z → same_conn x z.
Proof. intros [] []. constructor; congruence. Qed.

Lemma take_acked_spec ack x :
  tcp_ok x → ∃ d bs, 0 <= d <= tb_count (in_tx x) ∧ length bs = length (tb_bytes (in_tx x)) ∧
    take (Z.to_nat (tb_count (in_tx x) - d)) bs = drop (Z.to_nat d) (take (Z.to_nat (tb_count (in_tx x))) (tb_bytes (in_tx x))) ∧
    (let acked := u32 (ack - tc_una (in_tcb x)) in
     let data := if tc_fin_sent (in_tcb x) && seq_lt (tc_fin_seq (in_tcb x)) ack then u32 (acked - 1) else acked in d = Z.min data (tb_count (in_tx x))) ∧
    take_acked ack x = Some (upd_timer (λ m, set_rto (TCP_RTO_MIN_MS * 2) (set_retries 0 m))
      (upd_tcb (set_tc_una ack) (set_in_tx (MkTx (tb_ptr (in_tx x)) bs (tb_count (in_tx x) - d)) x))).
Proof.
  intros [_ Ht Hc _]. unfold take_acked. cbv zeta.
  set (data := if tc_fin_sent (in_tcb x) && seq_lt (tc_fin_seq (in_tcb x)) ack then _ else _).
  assert (Hd : 0 <= data) by (unfold data; destruct (_ && _); apply u32_range).
  set (c := tb_count (in_tx x)) in *. assert (Ed : (if c <? data then u32 c else data) = Z.min data c).
  { destruct (Z.ltb_spec c data); [rewrite u32_small by (unfold TCP_TX_SIZE in *; lia)|]; lia. }
  rewrite Ed. set (d := Z.min data c). assert (Hdc : 0 <= d <= c) by (unfold d; lia).
  rewrite read_range_spec by lia. cbn [mbind option_bind]. unfold spec_read.
  set (rest := take (Z.to_nat (c - d)) (drop (Z.to_nat d) (tb_bytes (in_tx x)))).
  assert (Lr : length rest = Z.to_nat (c - d)) by (unfold rest; rewrite length_take, length_drop; lia).
  destruct (write_front (tb_bytes (in_tx x)) rest) as (bs & Hbs & Lb & Tb); [lia|]. rewrite Hbs. cbn [mbind option_bind].
  exists d, bs. split_and!; [lia|lia|done| |done|done]. rewrite <- Lr, Tb. unfold rest. rewrite skipn_firstn_comm. f_equal. lia.
Qed.
(** Bytes of a segment that there is room for go to the end of the ring. *)
Lemma take_data_spec payload plen x :
  tcp_ok x → 0 <= plen <= Z.of_nat (length payload) →
  let r := in_rx x in
  let n := Z.min plen (TCP_RX_SIZE - rr_count r) in
  ∃ bs, take_data payload plen x = Some (upd_tcb (λ t, set_tc_rcv (u32 (tc_rcv t + n)) t) (set_in_rx (MkRx (rr_ptr r) bs (rr_head r) (rr_count r + n)) x)) ∧
    ring_wf TCP_RX_SIZE bs (rr_head r) (rr_count r + n) ∧ 0 <= n ∧
    ring_items 0 TCP_RX_SIZE bs (rr_head r) (rr_count r + n) = ring_items 0 TCP_RX_SIZE (rr_bytes r) (rr_head r) (rr_count r) ++ take (Z.to_nat n) payload.
Proof.
  intros [Hr _ _ _] Hp r n. destruct Hr as (L & Hh & Hc). fold r in L, Hh, Hc.
  assert (Hn : 0 <= n <= plen) by (unfold n; lia). set (src := take (Z.to_nat n) payload).
  assert (Ls : Z.of_nat (length src) = n) by (unfold src; rewrite length_take; lia).
  destruct (ring_write TCP_RX_SIZE ltac:(done) (rr_bytes r) (rr_head r) (rr_count r) src) as (a & b & Ha & Hb & Wf & It); [done|lia|]. 
  rewrite Ls in *. unfold take_data. fold r. cbv zeta.
  assert (En : (if plen <? TCP_RX_SIZE - rr_count r then plen else TCP_RX_SIZE - rr_count r) = n) by (unfold n; destruct (Z.ltb_spec plen (TCP_RX_SIZE - rr_count r)); lia).
  rewrite En. set (tail := (rr_head r + rr_count r) mod TCP_RX_SIZE) in *.
  assert (Ht : 0 <= tail < TCP_RX_SIZE) by (apply Z.mod_pos_bound; done).
  set (first := Z.min n (TCP_RX_SIZE - tail)) in *.
  assert (Ef : (if n <? TCP_RX_SIZE - tail then n else TCP_RX_SIZE - tail) = first) by (unfold first; destruct (Z.ltb_spec n (TCP_RX_SIZE - tail)); lia).
  rewrite Ef. assert (Hf : 0 <= first <= n) by (unfold first; lia). rewrite !read_range_spec by lia. unfold spec_read. cbn [mbind option_bind].
  change (Z.to_nat 0) with 0%nat. rewrite drop_0.
  assert (E1 : take (Z.to_nat first) payload = take (Z.to_nat first) src) by (unfold src; rewrite take_take; f_equal; lia).
  assert (E2 : take (Z.to_nat (n - first)) (drop (Z.to_nat first) payload) = drop (Z.to_nat first) src).
  { unfold src. rewrite skipn_firstn_comm. f_equal. lia. }
  rewrite E1, E2, Ha. cbn [mbind option_bind]. rewrite Hb. cbn [mbind option_bind]. exists b. split_and!; [done|done|lia|done].
Qed.
Lemma rx_take_spec count x :
  tcp_ok x → 0 <= count →
  let r := in_rx x in
  let items := ring_items 0 TCP_RX_SIZE (rr_bytes r) (rr_head r) (rr_count r) in
  let n := Z.min count (rr_count r) in
  rx_take count x = Some (take (Z.to_nat n) items, set_in_rx (MkRx (rr_ptr r) (rr_bytes r) ((rr_head r + n) mod TCP_RX_SIZE) (rr_count r - n)) x) ∧
  ring_wf TCP_RX_SIZE (rr_bytes r) ((rr_head r + n) mod TCP_RX_SIZE) (rr_count r - n) ∧
  ring_items 0 TCP_RX_SIZE (rr_bytes r) ((rr_head r + n) mod TCP_RX_SIZE) (rr_count r - n) = drop (Z.to_nat n) items.
Proof.
  intros [Hr _ _ _] Hcnt r items n. destruct Hr as (L & Hh & Hc). fold r in L, Hh, Hc. assert (Hn : 0 <= n <= rr_count r) by (unfold n; lia).
  destruct (ring_read TCP_RX_SIZE ltac:(done) (rr_bytes r) (rr_head r) (rr_count r) n) as (a & b & Ha & Hb & Eab); [done|lia|].
  split_and!.
  - unfold rx_take. fold r. cbv zeta.
    assert (En : (if count <? rr_count r then count else rr_count r) = n) by (unfold n; destruct (Z.ltb_spec count (rr_count r)); lia). rewrite En.
    assert (Ef : (if n <? TCP_RX_SIZE - rr_head r then n else TCP_RX_SIZE - rr_head r) = Z.min n (TCP_RX_SIZE - rr_head r))
      by (destruct (Z.ltb_spec n (TCP_RX_SIZE - rr_head r)); lia).
    rewrite Ef, Ha. cbn [mbind option_bind]. rewrite Hb. cbn [mbind option_bind]. by rewrite Eab.
  - split_and!; [done|apply Z.mod_pos_bound; done|apply Z.mod_pos_bound; done|lia|lia].
  - by apply ring_drop.
Qed.

(** Moves keep the buffers in shape and the connection what it is. *)
Lemma move_ok inc x es y : move inc x es y → tcp_ok x → tcp_ok y ∧ same_conn x y.
Proof.
  intros Hm Ok. pose proof Ok as [Hr Ht Hc Hw]. destruct Hm; try (split; [by constructor|by constructor]); try (split; [constructor; [exact Hr|exact Ht|exact Hc|first [exact Hw|done]]|constructor; reflexivity]).
  - destruct (take_acked_spec (sg_ack sg) x Ok) as (d' & bs & Hd & Lb & _ & _ & E). rewrite E in *. simplify_eq.
    split; [|by constructor]. constructor; cbn; [done|lia|lia|done].
  - destruct (take_data_spec (sg_data sg ++ pad) (Z.of_nat (length (sg_data sg))) x Ok) as (bs & E & Wf & Hn & _); [rewrite length_app; lia|].
    rewrite E in *. simplify_eq. split; [|by constructor]. by constructor.
  - match goal with H : write_range _ _ _ = Some _ |- _ => pose proof (write_range_lookup _ _ _ _ 0 H) as [Lb _] end.
    split; [|by constructor]. constructor; cbn; [done|lia|lia|done].
  - destruct (rx_take_spec count x Ok) as (E & Wf & _); [done|]. rewrite E in *. simplify_eq. split; [|by constructor]. by constructor.
Qed.
(** No connection begins to listen, or to wait for the end of a handshake. *)
Lemma move_state inc x es y : move inc x es y → tcp_ok x → (state_of y = TCP_LISTEN → state_of x = TCP_LISTEN) ∧ (state_of y = TCP_SYN_RCVD → state_of x = TCP_SYN_RCVD).
Proof.
  intros Hm Ok. destruct Hm; try (by split).
  - split; unfold after_fin, state_of, upd_tcb, set_in_tcb; cbn; by case_decide.
  - destruct (take_acked_spec (sg_ack sg) x Ok) as (d' & bs & _ & _ & _ & _ & E). rewrite E in *. simplify_eq. by split.
  - destruct (take_data_spec (sg_data sg ++ pad) (Z.of_nat (length (sg_data sg))) x Ok) as (bs & E & _); [rewrite length_app; lia|]. rewrite E in *. by simplify_eq.
  - unfold after_fin_in, state_of, upd_tcb, set_in_tcb; cbn. repeat case_decide; by split.
  - unfold state_of. cbn. match goal with H : tc_state _ = _ |- _ => rewrite H end. by split.
  - unfold rewound, state_of, upd_tcb, set_in_tcb; cbn. repeat case_match; by split.
  - destruct (rx_take_spec count x Ok) as (E & _); [done|]. rewrite E in *. by simplify_eq.
Qed.

Section Ops.
Context {L : Type} `{KM : KernelMem L} `{IH : InetHost L} {IL : InetHostLaws L}.
Local Abbreviation inetst := (Inet.inetst (L := L)).
Local Abbreviation step := (host_step (L := L) ih_ok ih_sent).

Lemma host_step_refl h : ih_ok h → step [] h h.
Proof. split; [done|split; [apply ih_sent_refl|done]]. Qed.
Lemma host_step_trans a b h h1 h2 : step a h h1 → step b h1 h2 → step (a ++ b) h h2.
Proof. intros (_ & E1 & K1) (O & E2 & K2). split; [done|split; [by eapply ih_sent_trans|auto]]. Qed.
Lemma host_step_ok out h h' : step out h h' → ih_ok h'.
Proof. by intros []. Qed.

(** A run of moves, with what the kernel has sent. *)
Inductive go (inc : cause) : InetSocket → L → list ev → InetSocket → L → Prop :=
  | go_nil x h : go inc x h [] x h
  | go_move x h es y h1 es' z h2 :
      move inc x es y → step (outs (in_remote_ip x) es) h h1 → go inc y h1 es' z h2 → go inc x h (es ++ es') z h2.
Lemma go_trans inc x h es y h1 es' z h2 : go inc x h es y h1 → go inc y h1 es' z h2 → go inc x h (es ++ es') z h2.
Proof. induction 1 as [|x h a y h1 b z' h3 Hm Hs Hg IHg]; [done|]. intros G. rewrite <- app_assoc. eapply go_move; [done|done|by apply IHg]. Qed.
Lemma go_one inc x h es y h1 : move inc x es y → step (outs (in_remote_ip x) es) h h1 → go inc x h es y h1.
Proof. intros Hm Hs. rewrite <- (app_nil_r es). eapply go_move; [done|done|constructor]. Qed.
Lemma go_ok inc x h es y h1 : go inc x h es y h1 → tcp_ok x → tcp_ok y ∧ same_conn x y.
Proof.
  induction 1 as [x h|x h es y h1 es' z h2 Hm Hs Hg IHg]; intros Ok; [split; [done|apply same_conn_refl]|].
  destruct (move_ok _ _ _ _ Hm Ok) as [Ok1 S1]. destruct (IHg Ok1) as [Ok2 S2]. split; [done|by eapply same_conn_trans].
Qed.
Lemma go_state inc x h es y h1 : go inc x h es y h1 → tcp_ok x → (state_of y = TCP_LISTEN → state_of x = TCP_LISTEN) ∧ (state_of y = TCP_SYN_RCVD → state_of x = TCP_SYN_RCVD).
Proof.
  induction 1 as [x h|x h es y h1 es' z h2 Hm Hs Hg IHg]; intros Ok; [done|].
  destruct (move_state _ _ _ _ Hm Ok). destruct (IHg (proj1 (move_ok _ _ _ _ Hm Ok))). by split; auto.
Qed.
Lemma go_host inc x h es y h1 : go inc x h es y h1 → tcp_ok x → ih_ok h → step (outs (in_remote_ip x) es) h h1.
Proof.
  induction 1 as [x h|x h es y h1 es' z h2 Hm Hs Hg IHg]; intros Ok Hh; [by apply host_step_refl|].
  destruct (move_ok _ _ _ _ Hm Ok) as [Ok1 S1]. unfold outs. rewrite bind_app, map_app. eapply host_step_trans; [exact Hs|].
  specialize (IHg Ok1 (host_step_ok _ _ _ Hs)). by rewrite (sc_ip _ _ S1) in IHg.
Qed.
(** Without a segment nothing happens that could not happen with one. *)
Lemma move_inc inc x es y : move Kernel x es y → move inc x es y.
Proof. intros Hm. destruct Hm; try discriminate; by econstructor. Qed.
Lemma go_inc inc x h es y h1 : go Kernel x h es y h1 → go inc x h es y h1.
Proof. induction 1; [constructor|]. eapply go_move; [by apply move_inc|done|done]. Qed.

(** Only a program writes and reads; the kernel by itself leaves the buffer as it is. *)
Lemma move_quiet inc x es y : move inc x es y → inc ≠ Program → es ≫= ev_wrote = [] ∧ es ≫= ev_took = [].
Proof. intros Hm Hp. by destruct Hm. Qed.
Lemma go_quiet inc x h es y h1 : go inc x h es y h1 → inc ≠ Program → es ≫= ev_wrote = [] ∧ es ≫= ev_took = [].
Proof.
  induction 1 as [x h|x h es y h1 es' z h2 Hm Hs Hg IHg]; intros Hp; [done|]. destruct (move_quiet _ _ _ _ Hm Hp) as [E1 E2], (IHg Hp) as [E3 E4].
  by rewrite !bind_app, E1, E2, E3, E4.
Qed.
Lemma go_kernel_tx x h es y h1 : go Kernel x h es y h1 → in_tx y = in_tx x.
Proof. induction 1 as [x h|x h es y h1 es' z h2 Hm Hs Hg IHg]; [done|]. rewrite IHg. by destruct Hm. Qed.

(** ** One socket of the table *)
Section One.
Context (i : Z) (s : inetst) (Hi : 0 <= i < Z.of_nat (length (is_socks s))).
(** The state with [x] in place [i] and the kernel in [h]. *)
Definition St (x : InetSocket) (h : L) : inetst := Inetst (<[Z.to_nat i := x]> (is_socks s)) (is_next_port s) (is_seed s) h.

Lemma wp_isock x h (Q : InetSocket → inetst → Prop) : Q x (St x h) → wp (isock i) Q (St x h).
Proof using Hi. intros HQ. unfold isock. wp_steps. eapply wp_lift; [|exact HQ]. apply lookupZ_insert_eq. lia. Qed.
Lemma wp_isock_upd f x h (Q : unit → inetst → Prop) : Q tt (St (f x) h) → wp (isock_upd i f) Q (St x h).
Proof using Hi.
  intros HQ. unfold isock_upd. apply wp_bind, wp_isock. wp_steps. eapply wp_lift.
  { apply updateZ_is_Some. cbn. rewrite length_insert. lia. }
  wp_steps. unfold set_is_socks, St in *. cbn. by rewrite list_insert_insert_eq.
Qed.
Lemma wp_on_ih {A} (m : M L A) x h (Q : A → inetst → Prop) : wp m (λ a h', Q a (St x h')) h → wp (on_ih m) Q (St x h).
Proof. intros HQ. by apply wp_zoom. Qed.
Lemma wp_wake x h (Q : unit → inetst → Prop) : ih_ok h → (∀ h', step [] h h' → Q tt (St x h')) → wp (on_ih ih_wake_waiters) Q (St x h).
Proof using Hi. intros Ho HQ. by apply wp_on_ih, ih_wake_law. Qed.

(** A segment sent. *)
Lemma wp_send_segment x h seq flags data (Q : unit → inetst → Prop) :
  ih_ok h → Z.of_nat (length data) <= TCP_MSS →
  (∀ bs h', seg_of x seq flags data bs → step (outs (in_remote_ip x) [Sent bs]) h h' → Q tt (St x h')) → wp (tcp_send_segment i seq flags data) Q (St x h).
Proof using Hi.
  intros Ho Hl HQ. unfold tcp_send_segment. apply wp_bind, wp_isock, wp_bind, wp_on_ih, ih_local_ip_law; [done|]. intros ip h1 S1. cbv zeta.
  assert (Ls : ∀ sum, 20 <= Z.of_nat (length (tcp_bytes x seq flags data sum)) <= SIZEOF_TCP_HEADER + 4 + TCP_MSS).
  { intros sum. unfold tcp_bytes. rewrite !length_app, !be16_length, !be32_length, length_le_split. unfold SIZEOF_TCP_HEADER. destruct (has flags TCP_SYN); cbn [length]; lia. }
  specialize (Ls 0) as L0. destruct (Z.ltb_spec (SIZEOF_TCP_HEADER + 4 + TCP_MSS) (Z.of_nat (length (tcp_bytes x seq flags data 0)))); [lia|].
  destruct (tcp_checksum ip (in_remote_ip x) (tcp_bytes x seq flags data 0)) as [sum|] eqn:Es.
  2:{ exfalso. unfold tcp_checksum in Es. set (s0 := _ + _ + _ + _ + _ + _) in Es. clearbody s0.
      assert (R : 0 <= sum_words s0 (tcp_bytes x seq flags data 0) < 2 ^ 32) by (apply sum_words_range; destruct (tcp_bytes x seq flags data 0); [cbn in L0; lia|done]).
      by destruct (fold_sum_spec _ R) as (r & k & E & _); rewrite E in Es. }
  apply wp_bind. eapply wp_lift; [done|]. apply wp_on_ih, ih_send_law; [by eapply host_step_ok|done|specialize (Ls (net_htons sum)); unfold SIZEOF_TCP_HEADER, TCP_MSS in *; lia|].
  intros h2 S2. apply (HQ (tcp_bytes x seq flags data (net_htons sum))); [exists (net_htons sum); split; [apply net_htons_range|done]|].
  exact (host_step_trans [] _ _ _ _ S1 S2).
Qed.

(** ** Sending *)
Lemma wp_send_ack inc x h (Q : unit → inetst → Prop) :
  ih_ok h → (∀ es h', go inc x h es x h' → ih_ok h' → Q tt (St x h')) → wp (tcp_send_ack i) Q (St x h).
Proof using Hi.
  intros Ho HQ. unfold tcp_send_ack. apply wp_bind, wp_isock, wp_send_segment; [done|done|]. intros bs h' Sg S.
  apply (HQ [Sent bs]); [by apply go_one; [apply mv_send_ack|]|by eapply host_step_ok].
Qed.
Lemma wp_arm_timer inc x h (Q : unit → inetst → Prop) :
  ih_ok h → tm_deadline (in_timer x) ≠ 0 ∨ tc_una (in_tcb x) ≠ tc_nxt (in_tcb x) →
  (∀ x' h', go inc x h [] x' h' → in_tcb x' = in_tcb x → ih_ok h' → Q tt (St x' h')) → wp (tcp_arm_timer i) Q (St x h).
Proof using Hi.
  intros Ho Hd HQ. unfold tcp_arm_timer. apply wp_bind, wp_on_ih, ih_uptime_ms_law; [done|]. intros now h' Hn S. apply wp_isock_upd.
  apply HQ; [apply go_one; [by apply mv_timer|done]|done|by eapply host_step_ok].
Qed.

Definition raw_flight (x : InetSocket) : Z := u32 (tc_nxt (in_tcb x) - tc_una (in_tcb x)).
Lemma flight_eq x : bytes_in_flight x = if tc_fin_sent (in_tcb x) && (0 <? raw_flight x) then raw_flight x - 1 else raw_flight x.
Proof. done. Qed.
Lemma flight_nonneg x : 0 <= bytes_in_flight x.
Proof. rewrite flight_eq. pose proof (u32_range (tc_nxt (in_tcb x) - tc_una (in_tcb x))). fold (raw_flight x) in *. destruct (_ && _) eqn:E; [|lia]. apply andb_prop in E as [_ E%Z.ltb_lt]. lia. Qed.
(** What is left to be sent, with one more turn where the loop takes a turn without progress. *)
Definition to_send (x : InetSocket) : Z :=
  tb_count (in_tx x) - bytes_in_flight x + (if tc_fin_sent (in_tcb x) && (raw_flight x =? 0) then 1 else 0).
Lemma to_send_less x len :
  tcp_ok x → bytes_in_flight x < tb_count (in_tx x) → 0 < len → bytes_in_flight x + len <= tb_count (in_tx x) →
  let y := set_nxt (u32 (tc_nxt (in_tcb x) + len)) x in
  raw_flight y = raw_flight x + len ∧ to_send y < to_send x ∧ tc_una (in_tcb y) ≠ tc_nxt (in_tcb y).
Proof.
  intros [_ _ Hc _] Hn Hl Hle y. unfold TCP_TX_SIZE in Hc. assert (Er : raw_flight y = raw_flight x + len).
  { unfold raw_flight, y. cbn. unfold u32 in *. rewrite Zminus_mod_idemp_l. replace (tc_nxt (in_tcb x) + len - tc_una (in_tcb x)) with ((tc_nxt (in_tcb x) - tc_una (in_tcb x)) + len) by lia.
    rewrite <- Zplus_mod_idemp_l. apply Z.mod_small. rewrite flight_eq in *. fold (u32 (tc_nxt (in_tcb x) - tc_una (in_tcb x))). fold (raw_flight x).
    pose proof (u32_range (tc_nxt (in_tcb x) - tc_una (in_tcb x))). fold (raw_flight x) in *. destruct (_ && _); lia. }
  pose proof (u32_range (tc_nxt (in_tcb x) - tc_una (in_tcb x))) as R. fold (raw_flight x) in R.
  split_and!; [done| |].
  - unfold to_send. rewrite !flight_eq, Er. assert (Ef : tc_fin_sent (in_tcb y) = tc_fin_sent (in_tcb x)) by done. rewrite Ef. assert (Et : in_tx y = in_tx x) by done. rewrite Et.
    rewrite flight_eq in *. destruct (tc_fin_sent (in_tcb x)); cbn [andb] in *; [|lia].
    destruct (Z.ltb_spec 0 (raw_flight x)), (Z.eqb_spec (raw_flight x) 0), (Z.ltb_spec 0 (raw_flight x + len)), (Z.eqb_spec (raw_flight x + len) 0); lia.
  - intros E. unfold raw_flight in Er at 1. rewrite E in Er. rewrite Z.sub_diag in Er. unfold u32 at 1 in Er. rewrite Z.mod_0_l in Er by done. lia.
Qed.

Lemma wp_output_loop fuel window sent x h (Q : bool → inetst → Prop) :
  tcp_ok x → ih_ok h → is_open x → 0 < window → to_send x <= Z.of_nat fuel → (sent = true → tc_una (in_tcb x) ≠ tc_nxt (in_tcb x)) →
  (∀ b es x' h', go Kernel x h es x' h' → ih_ok h' → is_open x' → (b = true → tc_una (in_tcb x') ≠ tc_nxt (in_tcb x')) → Q b (St x' h')) →
  wp (output_loop fuel i window sent) Q (St x h).
Proof using Hi.
  revert sent x h Q. induction fuel as [|fuel IHf]; intros sent x h Q Ok Ho Hop Hw Hm Hs HQ; cbn [output_loop]; apply wp_bind, wp_isock; cbv zeta;
    pose proof (flight_nonneg x) as Hn0; (destruct (Z.leb_spec (tb_count (in_tx x)) (bytes_in_flight x)) as [|Hn]; cbn [orb]; [by apply wp_ret, (HQ sent []); [constructor| | |]|]).
  { exfalso. unfold to_send in Hm. destruct (_ && _); lia. }
  destruct (Z.leb_spec window (bytes_in_flight x)); [by apply wp_ret, (HQ sent []); [constructor| | |]|].
  pose proof Ok as [_ Ht Hc _]. unfold TCP_TX_SIZE in *. rewrite (u32_small (tb_count (in_tx x))), (u32_small (_ - _)) by lia.
  set (len := Z.min (Z.min (tb_count (in_tx x) - bytes_in_flight x) (window - bytes_in_flight x)) TCP_MSS).
  assert (Hl : 0 < len <= TCP_MSS ∧ bytes_in_flight x + len <= tb_count (in_tx x)) by (unfold len, TCP_MSS; lia). clearbody len. destruct Hl as [Hl1 Hl2].
  destruct (read_range_Some (tb_bytes (in_tx x)) (bytes_in_flight x) len) as [data Hd]; [lia|lia|].
  assert (Ld : length data = Z.to_nat len) by (rewrite read_range_spec in Hd by lia; simplify_eq; unfold spec_read; rewrite length_take, length_drop; lia).
  apply wp_bind. eapply wp_lift; [exact Hd|]. apply wp_bind, wp_send_segment; [done|rewrite Ld; unfold TCP_MSS in *; lia|]. intros bs h' Sg S. apply wp_bind, wp_isock_upd.
  pose proof (to_send_less x len Ok Hn ltac:(lia) Hl2) as T. cbv zeta in T. destruct T as (Er & Hlt & Hne).
  assert (Mv : move Kernel x [Sent bs] (set_nxt (u32 (tc_nxt (in_tcb x) + len)) x)) by by eapply mv_send_data.
  change (upd_tcb (λ t, set_tc_nxt (u32 (tc_nxt t + len)) t) x) with (set_nxt (u32 (tc_nxt (in_tcb x) + len)) x).
  apply IHf; [by eapply move_ok|by eapply host_step_ok|done|done|lia|done|].
  intros b es x' h2 G Ho2 Hop2 Hb. apply (HQ b ([Sent bs] ++ es)); [by eapply go_move|done|done|done].
Qed.
Lemma wp_output_fin sent x h (Q : bool → inetst → Prop) :
  tcp_ok x → ih_ok h → is_open x → (sent = true → tc_una (in_tcb x) ≠ tc_nxt (in_tcb x)) →
  (∀ b es x' h', go Kernel x h es x' h' → ih_ok h' → (b = true → tc_una (in_tcb x') ≠ tc_nxt (in_tcb x')) → Q b (St x' h')) →
  wp (output_fin i sent) Q (St x h).
Proof using Hi.
  intros Ok Ho Hop Hs HQ. unfold output_fin. apply wp_bind, wp_isock. cbv zeta.
  destruct (tc_close_requested (in_tcb x)) eqn:Ec; cbn [andb]; [|by apply wp_ret, (HQ sent []); [constructor| |]].
  destruct (tc_fin_sent (in_tcb x)) eqn:Ef; cbn [negb andb]; [by apply wp_ret, (HQ sent []); [constructor| |]|].
  destruct (Z.eqb_spec (u32 (tc_nxt (in_tcb x) - tc_una (in_tcb x))) (tb_count (in_tx x))) as [En|]; [|by apply wp_ret, (HQ sent []); [constructor| |]].
  apply wp_bind, wp_send_segment; [done|done|]. intros bs h' Sg S. apply wp_bind, wp_isock_upd, wp_ret.
  apply (HQ true [Sent bs]); [by apply go_one; [apply mv_send_fin|]|by eapply host_step_ok|]. intros _. cbn. intros E.
  pose proof Ok as [_ _ Hc _]. unfold TCP_TX_SIZE in Hc. assert (E1 : u32 (u32 (tc_nxt (in_tcb x) + 1) - tc_una (in_tcb x)) = tb_count (in_tx x) + 1).
  { unfold u32 in *. rewrite Zminus_mod_idemp_l. replace (tc_nxt (in_tcb x) + 1 - tc_una (in_tcb x)) with ((tc_nxt (in_tcb x) - tc_una (in_tcb x)) + 1) by lia.
    rewrite <- Zplus_mod_idemp_l, En. apply Z.mod_small. lia. }
  rewrite <- E, Z.sub_diag in E1. unfold u32 in E1. rewrite Z.mod_0_l in E1 by done. lia.
Qed.
Lemma wp_tcp_output x h (Q : unit → inetst → Prop) :
  tcp_ok x → ih_ok h → (∀ es x' h', go Kernel x h es x' h' → ih_ok h' → Q tt (St x' h')) → wp (tcp_output i) Q (St x h).
Proof using Hi.
  intros Ok Ho HQ. unfold tcp_output. apply wp_bind, wp_isock. case_bool_decide as Hop; [by apply wp_ret, (HQ []); [constructor|]|].
  assert (Hop' : is_open x) by (unfold is_open; destruct (decide (state_of x ∈ [TCP_ESTABLISHED; TCP_CLOSE_WAIT; TCP_FIN_WAIT])); [done|contradiction]).
  cbv zeta. pose proof Ok as [_ _ Hc _]. apply wp_bind, wp_output_loop; [done|done|done| | |done|].
  { destruct (Z.eqb_spec (tc_wnd (in_tcb x)) 0); [lia|]. pose proof (to_wnd _ Ok). lia. }
  { unfold to_send. pose proof (flight_nonneg x). destruct (_ && _); lia. }
  intros b es x1 h1 G1 Ho1 Hop1 Hb. apply wp_bind, wp_output_fin; [by eapply go_ok|done|done|done|].
  intros b' es2 x2 h2 G2 Ho2 Hb2. apply wp_bind, wp_isock. pose proof (go_trans _ _ _ _ _ _ _ _ _ G1 G2) as G12.
  destruct b'; cbn [andb]; [|by apply wp_ret, (HQ _ _ _ G12)].
  destruct (Z.eqb_spec (tm_deadline (in_timer x2)) 0); [|by apply wp_ret, (HQ _ _ _ G12)].
  apply (wp_arm_timer Kernel); [done|right; by apply Hb2|]. intros x3 h3 G3 _ Ho3. apply (HQ ((es ++ es2) ++ [])); [by eapply go_trans|done].
Qed.

(** ** Segments that come in *)
Section Incoming.
Context (sg : Segment) (pad : list Z).
Local Abbreviation sgo := (go (Incoming sg)).
Local Abbreviation plen := (Z.of_nat (length (sg_data sg))).

Lemma wp_on_ack x h (Q : unit → inetst → Prop) :
  tcp_ok x → ih_ok h → 0 <= sg_wnd sg → has (sg_flags sg) TCP_ACK = true →
  (∀ es x' h', sgo x h es x' h' → ih_ok h' → Q tt (St x' h')) → wp (on_ack i (sg_ack sg) (sg_wnd sg)) Q (St x h).
Proof using Hi.
  intros Ok Ho Hw Hf HQ. unfold on_ack. apply wp_bind, wp_isock.
  destruct (seq_lt (tc_una (in_tcb x)) (sg_ack sg) && seq_le (sg_ack sg) (tc_nxt (in_tcb x))) eqn:Es.
  2:{ apply wp_bind, wp_ret, wp_isock_upd. apply (HQ []); [apply go_one; [by apply mv_window|by apply host_step_refl]|done]. }
  apply andb_prop in Es as [E1 E2]. destruct (take_acked_spec (sg_ack sg) x Ok) as (d & bs & _ & _ & _ & _ & Et).
  set (y := upd_timer _ _) in Et. apply wp_bind, wp_bind. eapply wp_lift; [exact Et|]. apply wp_bind, wp_isock_upd, wp_bind.
  assert (Mv : ∀ d, move (Incoming sg) x [] (after_acked d y)) by (intros d'; by eapply mv_acked).
  assert (G : ∀ d h1 h2, step [] h h1 → step [] h1 h2 → wp (isock_upd i (upd_tcb (set_tc_wnd (sg_wnd sg)))) Q (St (after_acked d y) h2)).
  { intros d' h1 h2 S1 S2. pose proof (host_step_trans _ _ _ _ _ S1 S2) as S. apply wp_isock_upd.
    apply (HQ ([] ++ [])); [|by eapply host_step_ok].
    eapply go_move; [apply (Mv d')|exact S|]. apply go_one; [by apply mv_window|apply host_step_refl; by eapply host_step_ok]. }
  destruct (tc_una (in_tcb y) =? tc_nxt (in_tcb y)) eqn:En.
  - apply wp_isock_upd, wp_wake; [done|]. intros h1 S1. specialize (G 0 h h1). unfold after_acked in G. rewrite En in G. apply G; [by apply host_step_refl|done].
  - unfold tcp_arm_timer. apply wp_bind, wp_on_ih, ih_uptime_ms_law; [done|]. intros now h1 _ S1. apply wp_isock_upd, wp_wake; [by eapply host_step_ok|].
    intros h2 S2. specialize (G (u64 (now + tm_rto_ms (in_timer y))) h1 h2). unfold after_acked in G. rewrite En in G. by apply G.
Qed.
Lemma wp_on_data x h (Q : bool → inetst → Prop) :
  tcp_ok x → ih_ok h →
  (∀ b es x' h', sgo x h es x' h' → ih_ok h' → Q b (St x' h')) → wp (on_data i (sg_seq sg) (sg_data sg ++ pad) plen) Q (St x h).
Proof using Hi.
  intros Ok Ho HQ. unfold on_data. destruct (Z.leb_spec plen 0); [by apply wp_ret, (HQ _ []); [constructor|]|]. apply wp_bind, wp_isock.
  destruct ((sg_seq sg =? tc_rcv (in_tcb x)) && negb (tc_fin_received (in_tcb x))) eqn:Es.
  2:{ by apply wp_bind, wp_ret, wp_ret, (HQ _ []); [constructor|]. }
  apply andb_prop in Es as [E1%Z.eqb_eq E2%negb_true_iff].
  destruct (take_data_spec (sg_data sg ++ pad) plen x Ok) as (bs & Et & _); [rewrite length_app; lia|].
  apply wp_bind, wp_bind. eapply wp_lift; [exact Et|]. apply wp_bind, wp_isock_upd, wp_wake; [done|]. intros h' S. apply wp_ret.
  apply (HQ true []); [apply go_one; [by eapply mv_data|done]|by eapply host_step_ok].
Qed.
Lemma wp_on_fin b x h (Q : bool → inetst → Prop) :
  tcp_ok x → ih_ok h →
  (∀ b es x' h', sgo x h es x' h' → ih_ok h' → Q b (St x' h')) → wp (on_fin i (sg_flags sg) (sg_seq sg) plen b) Q (St x h).
Proof using Hi.
  intros Ok Ho HQ. unfold on_fin. apply wp_bind, wp_isock. cbv zeta.
  destruct (has (sg_flags sg) TCP_FIN && (u32 (sg_seq sg + plen) =? tc_rcv (in_tcb x)) && negb (tc_fin_received (in_tcb x))) eqn:Es.
  2:{ by apply wp_ret, (HQ _ []); [constructor|]. }
  apply andb_prop in Es as [[E1 E2%Z.eqb_eq]%andb_prop E3%negb_true_iff].
  apply wp_bind, wp_isock_upd, wp_bind, wp_wake; [done|]. intros h' S. apply wp_ret.
  apply (HQ true []); [apply go_one; [by eapply mv_fin|done]|by eapply host_step_ok].
Qed.
(** The whole of what a segment does to a connection: moves, after which the socket may be freed. *)
Lemma wp_on_segment x h (Q : unit → inetst → Prop) :
  tcp_ok x → ih_ok h → 0 <= sg_wnd sg →
  (∀ es x' h', sgo x h es x' h' → ih_ok h' → Q tt (St x' h')) →
  (∀ es x' h', sgo x h es x' h' → ih_ok h' → state_of x' = TCP_DONE → in_orphan x' = true → tc_una (in_tcb x') = tc_nxt (in_tcb x') →
    wp (inet_free free_depth i) Q (St x' h')) →
  wp (on_segment i (sg_flags sg) (sg_seq sg) (sg_ack sg) (sg_wnd sg) (sg_data sg ++ pad) plen) Q (St x h).
Proof using Hi.
  intros Ok Ho Hw HQ HF. unfold on_segment. apply wp_bind, wp_isock. case_bool_decide; [by apply wp_ret, (HQ []); [constructor|]|].
  assert (A : ∀ es x1 h1, sgo x h es x1 h1 → ih_ok h1 →
    wp (need_ack ← on_data i (sg_seq sg) (sg_data sg ++ pad) plen; need_ack ← on_fin i (sg_flags sg) (sg_seq sg) plen need_ack;
        (if (need_ack : bool) then tcp_send_ack i else mret tt);; s0 ← isock i;
        if bool_decide (state_of s0 = TCP_DONE) && (tc_una (in_tcb s0) =? tc_nxt (in_tcb s0)) && in_orphan s0 then inet_free free_depth i else tcp_output i) Q (St x1 h1)).
  { intros es x1 h1 G1 Ho1. apply wp_bind, wp_on_data; [by eapply go_ok|done|]. intros b es2 x2 h2 G2 Ho2. pose proof (go_trans _ _ _ _ _ _ _ _ _ G1 G2) as G12.
    apply wp_bind, wp_on_fin; [by eapply go_ok|done|]. intros b3 es3 x3 h3 G3 Ho3. pose proof (go_trans _ _ _ _ _ _ _ _ _ G12 G3) as G13.
    assert (B : ∀ es4 h4, sgo x h es4 x3 h4 → ih_ok h4 →
      wp (s0 ← isock i; if bool_decide (state_of s0 = TCP_DONE) && (tc_una (in_tcb s0) =? tc_nxt (in_tcb s0)) && in_orphan s0 then inet_free free_depth i else tcp_output i) Q (St x3 h4)).
    { intros es4 h4 G4 Ho4. apply wp_bind, wp_isock. case_bool_decide as Hd; cbn [andb]; [destruct (Z.eqb_spec (tc_una (in_tcb x3)) (tc_nxt (in_tcb x3))) as [Hu|]; cbn [andb]; [destruct (in_orphan x3) eqn:Hor|]|].
      { by eapply HF. }
      all: apply wp_tcp_output; [by eapply go_ok|done|]; intros es5 x5 h5 G5 Ho5; eapply HQ; [eapply go_trans; [exact G4|by apply go_inc]|done]. }
    apply wp_bind. destruct b3; [|apply wp_ret; by eapply B].
    apply (wp_send_ack (Incoming sg)); [done|]. intros es4 h4 G4 Ho4. eapply B; [by eapply go_trans|done]. }
  apply wp_bind. destruct (has (sg_flags sg) TCP_ACK) eqn:Ef; [|by apply wp_ret, (A []); [constructor|]].
  by apply wp_on_ack.
Qed.
End Incoming.

(** ** The timer *)
Lemma wp_tick_resend x m h (Q : unit → inetst → Prop) :
  tcp_ok x → ih_ok h → tm_deadline (in_timer x) ≠ 0 →
  (∀ es x' h', go Kernel x h es x' h' → ih_ok h' → Q tt (St x' h')) → wp (tick_resend i) Q (St (set_in_timer m x) h).
Proof using Hi.
  intros Ok Ho Hd HQ. set (y := set_in_timer m x). unfold tick_resend. apply wp_bind, wp_isock.
  assert (Syn : ∀ flags, state_of x ∈ [TCP_SYN_SENT; TCP_SYN_RCVD] → wp (tcp_send_segment i (tc_iss (in_tcb y)) flags []) Q (St y h)).
  { intros flags Hs. apply wp_send_segment; [done|done|]. intros bs h' Sg S. apply (HQ ([] ++ [Sent bs])); [|by eapply host_step_ok].
    apply (go_move _ _ _ [] y h); [apply mv_timer; by left|by apply host_step_refl|]. apply go_one; [by eapply mv_send_syn|done]. }
  change (state_of y) with (state_of x).
  destruct (decide (state_of x = TCP_SYN_SENT)) as [Hs|Hs]; [apply Syn; rewrite Hs; by constructor|].
  destruct (decide (state_of x = TCP_SYN_RCVD)) as [Hr|Hr]; [apply Syn; rewrite Hr; by do 2 constructor|].
  apply wp_bind, wp_isock_upd, wp_bind, wp_isock, wp_bind. change (upd_tcb _ y) with (rewound y).
  assert (G1 : go Kernel x h [] (rewound y) h).
  { apply go_one; [apply mv_rewind; [done|]|by apply host_step_refl]. rewrite !list.elem_of_cons, list.elem_of_nil. naive_solver. }
  assert (Ok1 : tcp_ok (rewound y)) by by eapply go_ok.
  assert (A : ∀ es h1, go Kernel (rewound y) h es (rewound y) h1 → ih_ok h1 → wp (tcp_output i) Q (St (rewound y) h1)).
  { intros es h1 G2 Ho1. apply wp_tcp_output; [done|done|]. intros es3 x3 h3 G3 Ho3. eapply HQ; [|done]. eapply go_trans; [exact G1|]. by eapply go_trans. }
  destruct (_ && _); [|apply wp_ret; by apply (A []); [constructor|]].
  apply wp_send_segment; [done|done|]. intros bs h' Sg S. apply (A [Sent bs]); [by apply go_one; [apply mv_send_ack|]|by eapply host_step_ok].
Qed.

(** ** Programs *)

(** What a write puts into the buffer; the fuel is enough. *)
Lemma wp_tcp_write x h (buf : list Z) (Q : sys_res Z * Z → inetst → Prop) :
  tcp_ok x → ih_ok h →
  (∀ r es x' h', go Program x h es x' h' → ih_ok h' → es ≫= ev_wrote = take (Z.to_nat r.2) buf → es ≫= ev_took = [] → 0 <= r.2 <= Z.of_nat (length buf) →
     (∀ n, r.1 = Ret n → r.2 ≠ 0 → n = r.2) → Q r (St x' h')) →
  wp (tcp_write_loop tcp_write_fuel i buf 0) Q (St x h).
Proof using Hi.
  intros Ok Ho HQ. unfold tcp_write_fuel. cbn [tcp_write_loop]. cbv zeta. change (0 =? 0) with true. cbv iota. cbn [negb].
  assert (N : ∀ r, Q (r, 0) (St x h)) by (intros r; apply (HQ (r, 0) []); [constructor|done|done|done|cbn; lia|done]).
  destruct (Z.leb_spec (Z.of_nat (length buf)) 0) as [|Hb]; [by apply wp_ret|]. apply wp_bind, wp_isock.
  destruct (decide (state_of x = TCP_SYN_SENT)) as [|Hss]; [by apply wp_ret|]. case_bool_decide as Hst; [by apply wp_ret|].
  assert (Hst' : state_of x ∈ [TCP_ESTABLISHED; TCP_CLOSE_WAIT]) by (destruct (decide (state_of x ∈ [TCP_ESTABLISHED; TCP_CLOSE_WAIT])); [done|contradiction]).
  destruct (Z.eqb_spec (TCP_TX_SIZE - tb_count (in_tx x)) 0) as [|Hsp]; [by apply wp_ret|]. pose proof Ok as [_ Ht Hc _].
  assert (En : (if Z.of_nat (length buf) - 0 <? TCP_TX_SIZE - tb_count (in_tx x) then Z.of_nat (length buf) - 0 else TCP_TX_SIZE - tb_count (in_tx x))
    = Z.min (Z.of_nat (length buf)) (TCP_TX_SIZE - tb_count (in_tx x))) by (destruct (Z.ltb_spec (Z.of_nat (length buf) - 0) (TCP_TX_SIZE - tb_count (in_tx x))); lia).
  rewrite En. set (n := Z.min (Z.of_nat (length buf)) (TCP_TX_SIZE - tb_count (in_tx x))).
  assert (Hn : 0 < n <= Z.of_nat (length buf) ∧ tb_count (in_tx x) + n <= TCP_TX_SIZE) by (unfold n; lia). destruct Hn as [Hn1 Hn2].
  set (src := take (Z.to_nat n) buf). assert (Ls : Z.of_nat (length src) = n) by (unfold src; rewrite length_take; lia).
  destruct (write_range_Some (tb_bytes (in_tx x)) (tb_count (in_tx x)) src) as [bs Hbs]; [lia|lia|].
  apply wp_bind. eapply wp_lift; [by apply read_range_spec; lia|]. unfold spec_read. change (drop (Z.to_nat 0) buf) with buf. fold src.
  apply wp_bind. eapply wp_lift; [exact Hbs|]. apply wp_bind, wp_isock_upd, wp_bind.
  set (y := set_in_tx (MkTx (tb_ptr (in_tx x)) bs (tb_count (in_tx x) + n)) x).
  assert (Mv : move Program x [Wrote src] y) by (unfold y; rewrite <- Ls; apply mv_wrote; [done|done|lia|done]).
  apply wp_tcp_output; [by eapply move_ok|done|]. intros es x1 h1 G1 Ho1.
  pose proof (go_move _ _ _ _ _ _ _ _ _ Mv (host_step_refl _ Ho) (go_inc Program _ _ _ _ _ G1)) as G2.
  destruct (go_quiet _ _ _ _ _ _ G1 ltac:(done)) as [Q1 Q2].
  assert (F : ∀ r, (∀ m, r = Ret m → m = n) → Q (r, n) (St x1 h1)).
  { intros r Hr. apply (HQ (r, n) ([Wrote src] ++ es)); [done|done| |by rewrite bind_app, Q2|cbn; lia|cbn; eauto].
    rewrite bind_app, Q1. cbn. by rewrite !app_nil_r. }
  rewrite Z.add_0_l. assert (E0 : (n =? 0) = false) by (apply Z.eqb_neq; lia). rewrite E0. cbn [negb].
  assert (F1 : Q (Ret n, n) (St x1 h1)) by (apply F; by intros m [=]).
  destruct (Z.leb_spec (Z.of_nat (length buf)) n); [by apply wp_ret|]. apply wp_bind, wp_isock.
  assert (FW : Q (if in_nonblock x1 then Ret n else Block TASK_BLOCK_FOREVER, n) (St x1 h1)) by (apply F; intros m; by destruct (in_nonblock x1); intros [=]).
  destruct (decide (state_of x1 = TCP_SYN_SENT)); [by apply wp_ret|]. case_bool_decide; [by apply wp_ret|].
  rewrite (go_kernel_tx _ _ _ _ _ G1). cbn [in_tx y set_in_tx tb_count]. destruct (Z.eqb_spec (TCP_TX_SIZE - (tb_count (in_tx x) + n)) 0); [by apply wp_ret|]. unfold n in *. lia.
Qed.
End One.
End Ops.
