(* ===== verification/InetInv.v ===== *)
(** * The table of the network sockets stays in order

    [inet_ok] says of the table of kernel/net/inet.c that its buffers have their sizes and own
    their memory, that a socket in use is found through its node, and that the sockets that wait in a
    backlog are connections of the one that listens, each once and never more than there is
    room for.  Every operation keeps it and returns, whatever segments arrive. *)
From S2P Require Import Prelude RawMem Pmm Heap VfsTypes Ramfs Task TaskRing Sched FsKcalls Socket Ring Net Inet Dhcp NetRecv NetProps TcpMoves.
Local Open Scope kernel_scope.

(** ** Lemmas: lists *)
Lemma bind_insert_perm {A B} (f : A → list B) (l : list A) i x y :
  l !! i = Some x → <[i := y]> l ≫= f ≡ₚ f y ++ (delete i l ≫= f).
Proof.
  intros Hx. rewrite <- (take_drop_middle (<[i := y]> l) i y) by (apply list_lookup_insert_eq; by eapply lookup_lt_Some).
  rewrite bind_app. cbn [mbind list_bind]. rewrite delete_take_drop, bind_app, take_insert_ge, drop_insert_lt by lia. apply Permutation_app_swap_app.
Qed.
Lemma bind_lookup_perm {A B} (f : A → list B) (l : list A) i x : l !! i = Some x → l ≫= f ≡ₚ f x ++ (delete i l ≫= f).
Proof. intros Hx. rewrite <- (list_insert_id l i x Hx) at 1. by eapply bind_insert_perm. Qed.
Lemma bind_insert_same {A B} (f : A → list B) (l : list A) i x y : l !! i = Some x → f y = f x → <[i := y]> l ≫= f = l ≫= f.
Proof.
  intros Hx E. rewrite <- (take_drop_middle l i x Hx) at 2. rewrite <- (take_drop_middle (<[i := y]> l) i y) by (apply list_lookup_insert_eq; by eapply lookup_lt_Some).
  rewrite !bind_app. cbn [mbind list_bind]. by rewrite take_insert_ge, drop_insert_lt, E by lia.
Qed.
Lemma delete_insert_same {A} (l : list A) i y : delete i (<[i := y]> l) = delete i l.
Proof. by rewrite !delete_take_drop, take_insert_ge, drop_insert_lt by lia. Qed.
Lemma filter_insert_length {A} (P : A → Prop) `{∀ x, Decision (P x)} (l : list A) i x y :
  l !! i = Some x → (length (filter P (<[i := y]> l)) + (if decide (P x) then 1 else 0) = length (filter P l) + (if decide (P y) then 1 else 0))%nat.
Proof.
  intros Hx. rewrite <- (take_drop_middle l i x Hx) at 2. rewrite <- (take_drop_middle (<[i := y]> l) i y) by (apply list_lookup_insert_eq; by eapply lookup_lt_Some).
  rewrite !list.filter_app, !list.filter_cons, !length_app. rewrite take_insert_ge, drop_insert_lt by lia. repeat case_decide; cbn [length]; lia.
Qed.
Lemma filter_same {A} (P P' : A → Prop) `{∀ x, Decision (P x)} `{∀ x, Decision (P' x)} (l : list A) :
  (∀ x, x ∈ l → P x ↔ P' x) → filter P l = filter P' l.
Proof.
  induction l as [|x l IHl]; intros E; [done|]. rewrite !list.filter_cons. rewrite IHl by (intros z Hz; apply E; by right).
  specialize (E x ltac:(by left)). repeat case_decide; naive_solver.
Qed.
Lemma find_socket_spec P l : (find_socket P l = -1 ∧ ∀ i x, l !!z i = Some x → P x = false) ∨ (∃ x, l !!z find_socket P l = Some x ∧ P x = true).
Proof.
  unfold find_socket. destruct (list_find P l) as [[k x]|] eqn:E.
  - right. apply list_find_Some in E as (Hx & Hp & _). exists x. unfold lookupZ. destruct (Z.ltb_spec (Z.of_nat k) 0); [lia|]. rewrite Nat2Z.id. split; [done|by apply Is_true_true].
  - left. split; [done|]. intros i x Hx. apply list_find_None in E. unfold lookupZ in Hx. destruct (i <? 0); [done|]. rewrite Forall_lookup in E.
    specialize (E _ _ Hx). by destruct (P x).
Qed.

(** As many places as there are elements at them. *)
Lemma places_le {A} (P : A → Prop) `{∀ x, Decision (P x)} (l : list A) (cs : list Z) :
  NoDup cs → (∀ c, c ∈ cs → ∃ y, l !!z c = Some y ∧ P y) → (length cs <= length (filter P l))%nat.
Proof.
  revert cs. induction l as [|x l IHl]; intros cs Nd Hc.
  { destruct cs as [|c cs]; [done|]. destruct (Hc c ltac:(by left)) as (y & Hy & _). unfold lookupZ in Hy. by destruct (c <? 0). }
  set (cs' := map Z.pred (filter (λ c, c ≠ 0) cs)). assert (L' : (length cs' <= length (filter P l))%nat).
  { apply IHl.
    - apply NoDup_fmap_2; [intros ? ? ?; lia|]. by apply list.NoDup_filter.
    - intros d Hd. apply list_elem_of_fmap in Hd as (c & -> & Hf). apply list_elem_of_filter in Hf as [Hne Hin]. destruct (Hc c Hin) as (y & Hy & Py). exists y.
      split; [|done]. unfold lookupZ in *. destruct (Z.ltb_spec c 0); [done|]. destruct (Z.ltb_spec (Z.pred c) 0); [lia|].
      destruct (Z.to_nat c) as [|k] eqn:E; [lia|]. replace (Z.to_nat (Z.pred c)) with k by lia. done. }
  assert (E : (length cs <= length cs' + (if decide (0%Z ∈ cs) then 1 else 0))%nat).
  { unfold cs'. rewrite length_map. clear -Nd. induction cs as [|c cs IHcs]; [cbn; lia|]. apply list.NoDup_cons in Nd as [Hn Nd]. specialize (IHcs Nd).
    rewrite list.filter_cons. destruct (decide (c ≠ 0)) as [Hc|Hc].
    - cbn [length]. destruct (decide (0 ∈ cs)), (decide (0 ∈ c :: cs)) as [|N]; try lia. destruct N. by right.
    - assert (c = 0) as -> by (destruct (decide (c = 0)); [done|contradiction]). rewrite decide_False in IHcs by done. rewrite decide_True by (by left). cbn [length]. lia. }
  rewrite list.filter_cons. destruct (decide (P x)) as [|HP]; cbn [length]; destruct (decide (0 ∈ cs)) as [Hin|]; try lia.
  destruct (Hc 0 Hin) as (y & Hy & Py). assert (x = y) as -> by (by injection Hy). contradiction.
Qed.
(** A socket taken out of a backlog. *)
Lemma backlog_remove_spec l n x :
  length l = 16%nat → 0 <= n <= 16 → NoDup (take (Z.to_nat n) l) →
  let r := backlog_remove l n x in
  length r.1 = 16%nat ∧ 0 <= r.2 <= 16 ∧ NoDup (take (Z.to_nat r.2) r.1) ∧ ∀ c, c ∈ take (Z.to_nat r.2) r.1 ↔ c ∈ take (Z.to_nat n) l ∧ c ≠ x.
Proof.
  intros Ll Hn Nd r. unfold r, backlog_remove. destruct (list_find (λ y, y = x) (take (Z.to_nat n) l)) as [[k y]|] eqn:E.
  2:{ cbn. split_and!; [done|lia|lia|done|]. intros c. apply list_find_None in E. rewrite list.Forall_forall in E. split; [intros Hc; split; [done|by apply E]|by intros []]. }
  apply list_find_Some in E as (Hk & -> & _). pose proof (lookup_lt_Some _ _ _ Hk) as Lk. rewrite length_take in Lk.
  apply take_drop_middle in Hk as Em. rewrite take_take, Nat.min_l in Em by lia. set (rest := drop (S k) (take (Z.to_nat n) l)) in *.
  assert (Er : take (Z.to_nat n - 1 - k) (drop (S k) l) = rest) by (unfold rest; rewrite skipn_firstn_comm; f_equal; lia).
  cbn [fst snd]. rewrite Er. assert (Lr : length rest = (Z.to_nat n - S k)%nat) by (unfold rest; rewrite length_drop, length_take; lia).
  assert (Et : take (Z.to_nat (n - 1)) (take k l ++ rest ++ drop (Z.to_nat n - 1) l) = take k l ++ rest).
  { rewrite app_assoc. apply take_app_length'. rewrite length_app, length_take. lia. }
  rewrite Et, <- Em in *. apply NoDup_middle in Nd as [Nx Nd]. split_and!; [rewrite !length_app, length_take, length_drop; lia|lia|lia|done|].
  intros c. rewrite !list.elem_of_app, list.elem_of_cons in *. split; [|naive_solver]. intros Hc. split; [naive_solver|]. intros ->. tauto.
Qed.

(** ** The invariant *)
Section Table.
Context (inet_sockets : Z).

Definition sock_runs (x : InetSocket) : list (Z * Z) :=
  (if rr_ptr (in_rx x) =? 0 then [] else [(rr_ptr (in_rx x), TCP_RX_SIZE / PAGE_SIZE)]) ++
  (if tb_ptr (in_tx x) =? 0 then [] else [(tb_ptr (in_tx x), TCP_TX_SIZE / PAGE_SIZE)]).
Definition sock_blocks (x : InetSocket) : list (Z * Z) :=
  if uq_ptr (in_udp x) =? 0 then [] else [(uq_ptr (in_udp x), UDP_QUEUE * SIZEOF_UDP_DATAGRAM)].

Definition dgram_ok (d : UdpDatagram) : Prop := length (ud_data d) = 1500%nat ∧ 0 <= ud_len d <= UDP_MAX_DGRAM.
Record udp_ok (x : InetSocket) : Prop := {
  uo_ring : ring_wf UDP_QUEUE (uq_slots (in_udp x)) (uq_head (in_udp x)) (uq_count (in_udp x));
  uo_slots : Forall dgram_ok (uq_slots (in_udp x))
}.
(** A socket by itself. *)
Record sock_body (i : Z) (x : InetSocket) : Prop := {
  sb_tcp : in_used x = true → in_kind x = INET_TCP → tcp_ok x;
  sb_udp : in_used x = true → in_kind x = INET_UDP → udp_ok x;
  sb_node : in_used x = true → v_private (in_node x) = inet_sockets + i * SIZEOF_INET_SOCKET;
  sb_free : in_used x = false → sock_runs x = [] ∧ sock_blocks x = [] ∧ v_file_ops (in_node x) ≠ INET_FILE_OPS
}.
(** A connection that has not been accepted names the socket that listens. *)
Record sock_link (i : Z) (x : InetSocket) : Prop := {
  sl_parent : in_parent x = -1 ∨
    0 <= in_parent x < INET_MAX_SOCKETS ∧ in_parent x ≠ i ∧ in_used x = true ∧ in_kind x = INET_TCP ∧ in_connected x = true ∧ state_of x ≠ TCP_LISTEN;
  sl_len : length (in_backlog x) = 16%nat ∧ 0 <= in_backlog_len x <= TCP_BACKLOG
}.
(** The connections that wait to be accepted. *)
Definition waiting (x : InetSocket) : list Z := take (Z.to_nat (in_backlog_len x)) (in_backlog x).
Definition child_ok (socks : list InetSocket) (p c : Z) : Prop := ∃ y, socks !!z c = Some y ∧ in_parent y = p ∧ state_of y ≠ TCP_SYN_RCVD.
Definition children (socks : list InetSocket) (p : Z) : nat := length (filter (λ x, in_parent x = p) socks).

(** The table, but for the places [bad] that an operation has under its hands. *)
Record table_ok (bad : Z → Prop) (socks : list InetSocket) : Prop := {
  tk_len : Z.of_nat (length socks) = INET_MAX_SOCKETS;
  tk_link i x : socks !!z i = Some x → sock_link i x;
  tk_body i x : socks !!z i = Some x → ¬ bad i → sock_body i x;
  tk_waiting i x : socks !!z i = Some x → ¬ bad i → NoDup (waiting x) ∧ ∀ c, c ∈ waiting x → child_ok socks i c;
  tk_children p : 0 <= p → Z.of_nat (children socks p) <= TCP_BACKLOG
}.
Definition none : Z → Prop := λ _, False.

Lemma lookupZ_nat {A} (l : list A) i x : l !!z i = Some x → l !! Z.to_nat i = Some x ∧ 0 <= i < Z.of_nat (length l).
Proof. intros H. split; [|by eapply lookupZ_Some_lt]. unfold lookupZ in H. by destruct (i <? 0). Qed.

(** One socket changed. *)
Lemma table_put (bad bad' : Z → Prop) socks i x y :
  table_ok bad socks → socks !!z i = Some x → sock_link i y →
  (¬ bad' i → sock_body i y ∧ NoDup (waiting y) ∧ ∀ c, c ∈ waiting y → child_ok (<[Z.to_nat i := y]> socks) i c) →
  (∀ j, j ≠ i → bad j → bad' j) →
  (in_parent y = in_parent x ∨ in_parent y = -1 ∨ Z.of_nat (children socks (in_parent y)) < TCP_BACKLOG) →
  (∀ p z, p ≠ i → ¬ bad' p → socks !!z p = Some z → i ∈ waiting z → in_parent y = p ∧ state_of y ≠ TCP_SYN_RCVD) →
  table_ok bad' (<[Z.to_nat i := y]> socks).
Proof.
  intros [Hlen Hlink Hbody Hwait Hch] Hx Hl Hb Hbad Hp Hw. destruct (lookupZ_nat _ _ _ Hx) as [Hx' Hi].
  assert (Lk : ∀ j z, <[Z.to_nat i := y]> socks !!z j = Some z → (j = i ∧ z = y) ∨ (j ≠ i ∧ socks !!z j = Some z)).
  { intros j z. destruct (decide (j = i)) as [->|Hne]; [rewrite lookupZ_insert_eq by lia; intros [= <-]; by left|]. rewrite lookupZ_insert_ne by lia. by right. }
  constructor.
  - by rewrite length_insert.
  - intros j z Hz. destruct (Lk j z Hz) as [[-> ->]|[Hne Hz']]; [done|by eapply Hlink].
  - intros j z Hz Hn. destruct (Lk j z Hz) as [[-> ->]|[Hne Hz']]; [by apply Hb|]. apply Hbody; [done|]. intros B. by apply Hn, Hbad.
  - intros j z Hz Hn. destruct (Lk j z Hz) as [[-> ->]|[Hne Hz']]; [by apply Hb|].
    destruct (Hwait j z Hz') as [N C]; [intros B; by apply Hn, Hbad|]. split; [done|]. intros c Hc. destruct (decide (c = i)) as [->|Hci].
    + exists y. rewrite lookupZ_insert_eq by lia. split; [done|]. by eapply Hw.
    + destruct (C c Hc) as (u & Hu & Pu). exists u. split; [|done]. rewrite lookupZ_insert_ne; [done| |done]. apply lookupZ_Some_lt in Hu. lia.
  - intros p Hp0. specialize (Hch p Hp0). unfold children in *. pose proof (filter_insert_length (λ x, in_parent x = p) socks (Z.to_nat i) x y Hx') as E.
    destruct (decide (in_parent x = p)), (decide (in_parent y = p)) as [Ey|]; try lia. destruct Hp as [Hp|[Hp|Hp]]; [congruence|lia|]. rewrite Ey in Hp. lia.
Qed.

Lemma child_ne bad socks p c : table_ok bad socks → child_ok socks p c → c ≠ p.
Proof.
  intros T (y & Hy & Ep & _) ->. destruct (sl_parent _ _ (tk_link _ _ T _ _ Hy)) as [E|(_ & Hne & _)]; [|congruence].
  apply lookupZ_Some_lt in Hy. lia.
Qed.
(** A change of [i] that is no matter to the socket that listens for it. *)
Lemma child_put bad socks i x y p c :
  table_ok bad socks → socks !!z i = Some x → in_parent y = in_parent x → (state_of y = TCP_SYN_RCVD → state_of x = TCP_SYN_RCVD) →
  child_ok socks p c → child_ok (<[Z.to_nat i := y]> socks) p c.
Proof.
  intros T Hx Ep Es (u & Hu & Pu & Su). pose proof (lookupZ_Some_lt _ _ _ Hx). destruct (decide (c = i)) as [->|Hne].
  - rewrite Hx in Hu. simplify_eq. exists y. rewrite lookupZ_insert_eq by lia. split_and!; [done|congruence|naive_solver].
  - exists u. apply lookupZ_Some_lt in Hu as Hc. rewrite lookupZ_insert_ne by lia. done.
Qed.
Lemma table_update bad socks i x y :
  table_ok bad socks → socks !!z i = Some x → sock_link i y → (¬ bad i → sock_body i y) → in_parent y = in_parent x →
  waiting y = waiting x → (state_of y = TCP_SYN_RCVD → state_of x = TCP_SYN_RCVD) → table_ok bad (<[Z.to_nat i := y]> socks).
Proof.
  intros T Hx Hl Hb Ep Ew Es. apply (table_put bad bad socks i x y); [done|done|done| |done|by left|].
  - intros Hn. destruct (tk_waiting _ _ T i x Hx Hn) as [N C]. rewrite Ew. split_and!; [auto|done|]. intros c Hc. eapply child_put; eauto.
  - intros p z Hne Hn Hz Hi. destruct (tk_waiting _ _ T p z Hz Hn) as [_ C]. destruct (C i Hi) as (u & Hu & Pu & Su). rewrite Hx in Hu. simplify_eq.
    split; [done|naive_solver].
Qed.
(** A place cleared that nobody waits for. *)
Lemma zero_link i : sock_link i zero_inet.
Proof. split; [by left|by split]. Qed.
Lemma table_zero bad socks i x :
  table_ok bad socks → socks !!z i = Some x → (∀ p z, p ≠ i → ¬ bad p → socks !!z p = Some z → i ∉ waiting z) →
  table_ok (λ j, bad j ∧ j ≠ i) (<[Z.to_nat i := zero_inet]> socks).
Proof.
  intros T Hx Hw. apply (table_put bad (λ j, bad j ∧ j ≠ i) socks i x); [done|done|apply zero_link| |naive_solver|by right; left|].
  - intros _. split; [by constructor|]. split; [apply NoDup_nil_2|]. intros c Hc. by apply list.elem_of_nil in Hc.
  - intros p z Hne Hn Hz Hi. exfalso. apply (Hw p z Hne); [naive_solver|done|done].
Qed.
Lemma table_weaken (bad bad' : Z → Prop) socks : table_ok bad socks → (∀ j, bad j → bad' j) → table_ok bad' socks.
Proof. intros [] H. constructor; eauto. Qed.
End Table.

Section Inv.
Context {L : Type} `{KM : KernelMem L} {KL : KernelMemLaws L} `{IH : InetHost L} {IL : InetHostLaws L}.
Context (inet_sockets : Z) (runs blocks : list (Z * Z)).
Local Abbreviation inetst := (Inet.inetst (L := L)).
Local Abbreviation table_ok := (table_ok inet_sockets).
Local Abbreviation sock_body := (sock_body inet_sockets).

(** The memory of the sockets, next to [runs] and [blocks] of others. *)
Definition mem_ok (socks : list InetSocket) (h : L) : Prop :=
  ih_ok h ∧ km_inv h ((socks ≫= sock_runs) ++ runs) ((socks ≫= sock_blocks) ++ blocks).
Record inet_ok_but (bad : Z → Prop) (s : inetst) : Prop := {
  io_table : table_ok bad (is_socks s);
  io_mem : mem_ok (is_socks s) (is_host s);
  io_port : 49152 <= is_next_port s < 65536
}.
Definition inet_ok : inetst → Prop := inet_ok_but none.

(** ** Lemmas: memory *)
Lemma mem_ok_step socks out h h' : mem_ok socks h → host_step ih_ok ih_sent out h h' → mem_ok socks h'.
Proof. intros [_ Hm] (Ho & _ & Hk). split; [done|by apply Hk]. Qed.
Lemma mem_ok_same socks i x y h :
  socks !! i = Some x → sock_runs y = sock_runs x → sock_blocks y = sock_blocks x → mem_ok socks h → mem_ok (<[i := y]> socks) h.
Proof. intros Hx E1 E2 Hm. unfold mem_ok. rewrite (bind_insert_same sock_runs _ _ x), (bind_insert_same sock_blocks _ _ x); done. Qed.
(** The memory of socket [i] taken out of that of the table. *)
Lemma mem_ok_focus socks i x h :
  socks !! i = Some x →
  mem_ok socks h ↔ ih_ok h ∧ km_inv h (sock_runs x ++ (delete i socks ≫= sock_runs) ++ runs) (sock_blocks x ++ (delete i socks ≫= sock_blocks) ++ blocks).
Proof using KL.
  intros Hx. unfold mem_ok. split; intros [Ho Hm]; (split; [done|]); (eapply km_perm; [| |exact Hm]).
  - by rewrite (bind_lookup_perm sock_runs _ _ _ Hx), <- app_assoc.
  - by rewrite (bind_lookup_perm sock_blocks _ _ _ Hx), <- app_assoc.
  - by rewrite (bind_lookup_perm sock_runs _ _ _ Hx), <- app_assoc.
  - by rewrite (bind_lookup_perm sock_blocks _ _ _ Hx), <- app_assoc.
Qed.
Lemma mem_ok_put socks i x y h :
  socks !! i = Some x →
  mem_ok (<[i := y]> socks) h ↔ ih_ok h ∧ km_inv h (sock_runs y ++ (delete i socks ≫= sock_runs) ++ runs) (sock_blocks y ++ (delete i socks ≫= sock_blocks) ++ blocks).
Proof using KL.
  intros Hx. rewrite (mem_ok_focus _ i y) by (apply list_lookup_insert_eq; by eapply lookup_lt_Some). by rewrite delete_insert_same.
Qed.
Lemma wp_free_pages p n h rs bs (Q : unit → L → Prop) :
  ih_ok h → km_inv h ((p, n) :: rs) bs → (∀ h', ih_ok h' → ih_sent [] h h' → km_inv h' rs bs → Q tt h') → wp (km_free_pages p n) Q h.
Proof using KL IL.
  intros Ho Hm HQ. destruct (proj1 (wp_run _ _ _) (km_free_pages_law h p n rs bs (λ _ h', km_inv h' rs bs) Hm (λ h' I _, I))) as ([] & h' & E & Hm').
  apply wp_run. exists tt, h'. split; [done|]. destruct (ih_free_pages_ok _ _ _ _ _ E Ho). by apply HQ.
Qed.
Lemma wp_kfree p n h rs bs (Q : unit → L → Prop) :
  ih_ok h → km_inv h rs ((p, n) :: bs) → (∀ h', ih_ok h' → ih_sent [] h h' → km_inv h' rs bs → Q tt h') → wp (km_kfree p) Q h.
Proof using KL IL.
  intros Ho Hm HQ. destruct (proj1 (wp_run _ _ _) (km_kfree_law h rs p n bs (λ _ h', km_inv h' rs bs) Hm (λ h' I _, I))) as ([] & h' & E & Hm').
  apply wp_run. exists tt, h'. split; [done|]. destruct (ih_kfree_ok _ _ _ _ E Ho). by apply HQ.
Qed.
Lemma wp_alloc_pages n h rs bs (Q : Z → L → Prop) :
  ih_ok h → 0 < n → km_inv h rs bs →
  (∀ p h', ih_ok h' → ih_sent [] h h' → km_inv h' ((if p =? 0 then [] else [(p, n)]) ++ rs) bs → Q p h') → wp (km_alloc_pages n) Q h.
Proof using KL IL.
  intros Ho Hn Hm HQ.
  destruct (proj1 (wp_run _ _ _) (km_alloc_pages_law h rs bs n (λ p h', km_inv h' ((if p =? 0 then [] else [(p, n)]) ++ rs) bs) Hm Hn Hm
    (λ p h' Hp I _, ltac:(cbv beta; rewrite (proj2 (Z.eqb_neq p 0) Hp); exact I)))) as (p & h' & E & Hm').
  apply wp_run. exists p, h'. split; [done|]. destruct (ih_alloc_pages_ok _ _ _ _ E Ho). by apply HQ.
Qed.
Lemma wp_kmalloc n h rs bs (Q : Z → L → Prop) :
  ih_ok h → 0 <= n < 2 ^ 64 → km_inv h rs bs →
  (∀ p h', ih_ok h' → ih_sent [] h h' → km_inv h' rs ((if p =? 0 then [] else [(p, n)]) ++ bs) → Q p h') → wp (km_kmalloc n) Q h.
Proof using KL IL.
  intros Ho Hn Hm HQ.
  destruct (proj1 (wp_run _ _ _) (km_kmalloc_law h rs bs n (λ p h', km_inv h' rs ((if p =? 0 then [] else [(p, n)]) ++ bs)) Hm Hn Hm
    (λ p h' Hp I _, ltac:(cbv beta; rewrite (proj2 (Z.eqb_neq p 0) Hp); exact I)))) as (p & h' & E & Hm').
  apply wp_run. exists p, h'. split; [done|]. destruct (ih_kmalloc_ok _ _ _ _ E Ho). by apply HQ.
Qed.

(** ** Lemmas: sockets freed *)
Definition with_host (h : L) (s : inetst) : inetst := Inetst (is_socks s) (is_next_port s) (is_seed s) h.
Definition put (i : Z) (x : InetSocket) (s : inetst) : inetst := set_is_socks (<[Z.to_nat i := x]> (is_socks s)) s.
Lemma wp_on_host {A} (m : M L A) s (Q : A → inetst → Prop) : wp m (λ a h', Q a (with_host h' s)) (is_host s) → wp (on_ih m) Q s.
Proof. intros HQ. by apply wp_zoom. Qed.
Lemma wp_place i x s (Q : InetSocket → inetst → Prop) : is_socks s !!z i = Some x → Q x s → wp (isock i) Q s.
Proof. intros Hx HQ. unfold isock. wp_steps. by eapply wp_lift. Qed.
Lemma wp_place_upd i x f s (Q : unit → inetst → Prop) : is_socks s !!z i = Some x → Q tt (put i (f x) s) → wp (isock_upd i f) Q s.
Proof.
  intros Hx HQ. unfold isock_upd. apply wp_bind. eapply wp_place; [done|]. wp_steps. eapply wp_lift; [|by wp_steps].
  apply updateZ_is_Some. by eapply lookupZ_Some_lt.
Qed.
(** An operation on the socket [i], from the form in which TcpMoves.v speaks of it. *)
Lemma wp_at {A} (m : M inetst A) i x s (Q : A → inetst → Prop) : is_socks s !!z i = Some x → wp m Q (St i s x (is_host s)) → wp m Q s.
Proof. intros Hx. destruct (lookupZ_nat _ _ _ Hx) as [E _]. unfold St. rewrite list_insert_id by done. by destruct s. Qed.

Lemma wp_release x s rs bs (Q : unit → inetst → Prop) :
  ih_ok (is_host s) → km_inv (is_host s) (sock_runs x ++ rs) (sock_blocks x ++ bs) →
  (∀ h', ih_ok h' → ih_sent [] (is_host s) h' → km_inv h' rs bs → Q tt (with_host h' s)) → wp (inet_release x) Q s.
Proof using KL IL.
  intros Ho Hm HQ. unfold inet_release, sock_runs, sock_blocks in *. rewrite <- app_assoc in Hm.
  set (A := if tb_ptr (in_tx x) =? 0 then _ else _) in Hm. set (B := if uq_ptr (in_udp x) =? 0 then _ else _) in Hm.
  assert (S1 : ∀ (Q : unit → inetst → Prop), (∀ h', ih_ok h' → ih_sent [] (is_host s) h' → km_inv h' (A ++ rs) (B ++ bs) → Q tt (with_host h' s)) →
    wp (if rr_ptr (in_rx x) =? 0 then mret tt else on_ih (km_free_pages (rr_ptr (in_rx x)) (TCP_RX_SIZE / PAGE_SIZE))) Q s).
  { intros R HR. destruct (rr_ptr (in_rx x) =? 0); [apply wp_ret; destruct s; apply HR; [done|apply ih_sent_refl|done]|]. apply wp_on_host. eapply wp_free_pages; [done|exact Hm|]. intros h' O1 L1 I1. by apply HR. }
  apply wp_bind, S1. intros h1 O1 L1 I1. unfold A in I1.
  assert (S2 : ∀ (Q : unit → inetst → Prop), (∀ h', ih_ok h' → ih_sent [] (is_host s) h' → km_inv h' rs (B ++ bs) → Q tt (with_host h' s)) →
    wp (if tb_ptr (in_tx x) =? 0 then mret tt else on_ih (km_free_pages (tb_ptr (in_tx x)) (TCP_TX_SIZE / PAGE_SIZE))) Q (with_host h1 s)).
  { intros R HR. destruct (tb_ptr (in_tx x) =? 0); [by apply wp_ret, HR|]. apply wp_on_host. eapply wp_free_pages; [done|exact I1|]. intros h' O2 L2 I2. apply HR; [done|by eapply (ih_sent_trans []); [exact L1|]|done]. }
  apply wp_bind, S2. intros h2 O2 L2 I2. unfold B in I2. destruct (uq_ptr (in_udp x) =? 0); [by apply wp_ret, HQ|].
  apply wp_on_host. eapply wp_kfree; [done|exact I2|]. intros h' O3 L3 I3. apply HQ; [done|by eapply (ih_sent_trans []); [exact L2|]|done].
Qed.

(** Memory given back and the place cleared. *)
Lemma wp_release_clear i x s (Q : unit → inetst → Prop) :
  is_socks s !!z i = Some x → mem_ok (is_socks s) (is_host s) →
  (∀ h', mem_ok (<[Z.to_nat i := zero_inet]> (is_socks s)) h' → ih_sent [] (is_host s) h' → Q tt (put i zero_inet (with_host h' s))) →
  wp (s ← isock i; inet_release s;; isock_upd i (λ _, zero_inet)) Q s.
Proof using KL IL.
  intros Hx Hm HQ. destruct (lookupZ_nat _ _ _ Hx) as [Hx' _]. apply wp_bind. eapply wp_place; [done|].
  apply (mem_ok_focus _ _ _ _ Hx') in Hm as [Ho Hm]. apply wp_bind. eapply wp_release; [done|exact Hm|]. intros h' O1 L1 I1.
  eapply wp_place_upd; [exact Hx|]. apply HQ; [|done]. by apply (mem_ok_put _ _ _ _ _ Hx').
Qed.
(** A socket that waits nowhere and does not listen is cleared. *)
Lemma wp_free_plain depth i x s (Q : unit → inetst → Prop) :
  is_socks s !!z i = Some x → mem_ok (is_socks s) (is_host s) → in_parent x = -1 → ¬ (in_kind x = INET_TCP ∧ state_of x = TCP_LISTEN) →
  (∀ h', mem_ok (<[Z.to_nat i := zero_inet]> (is_socks s)) h' → ih_sent [] (is_host s) h' → Q tt (put i zero_inet (with_host h' s))) →
  wp (inet_free (S depth) i) Q s.
Proof using KL IL.
  intros Hx Hm Hp Hl HQ. cbn [inet_free]. apply wp_bind. eapply wp_place; [done|]. rewrite Hp. apply wp_bind, wp_ret.
  rewrite bool_decide_false by done. apply wp_bind, wp_ret. by eapply wp_release_clear.
Qed.

(** ** Lemmas: sockets freed, in general *)

(** The table while [i] is on its way out. *)
Record leaving (i : Z) (x : InetSocket) (socks : list InetSocket) (h : L) : Prop := {
  lv_table : table_ok (λ j, j = i) socks;
  lv_self : socks !!z i = Some x;
  lv_mem : mem_ok socks h;
  lv_alone p z : p ≠ i → socks !!z p = Some z → i ∉ waiting z
}.
Lemma leave_backlog i x (bad : Z → Prop) s (Q : unit → inetst → Prop) :
  table_ok bad (is_socks s) → (∀ j, bad j → j = i) → mem_ok (is_socks s) (is_host s) → is_socks s !!z i = Some x →
  (∀ socks, leaving i x socks (is_host s) → Q tt (set_is_socks socks s)) →
  wp (if in_parent x =? -1 then mret tt
      else isock_upd (in_parent x) (λ l, let r := backlog_remove (in_backlog l) (in_backlog_len l) i in set_in_backlog r.1 r.2 l)) Q s.
Proof using KL.
  intros T Hbad Hm Hx HQ. pose proof (table_weaken _ _ _ _ T Hbad) as T'.
  assert (Al : ∀ p z, p ≠ i → is_socks s !!z p = Some z → i ∈ waiting z → in_parent x = p).
  { intros p z Hne Hz Hi. destruct (tk_waiting _ _ _ T' p z Hz Hne) as [_ C]. destruct (C i Hi) as (u & Hu & Pu & _). by simplify_eq. }
  destruct (sl_parent _ _ (tk_link _ _ _ T i x Hx)) as [E|(Hp & Hne & _)].
  { rewrite E. apply wp_ret. assert (Es : s = set_is_socks (is_socks s) s) by by destruct s. rewrite Es. apply HQ. constructor; [done|done|done|].
    intros p z Hne Hz Hi. specialize (Al p z Hne Hz Hi). apply lookupZ_Some_lt in Hz. lia. }
  destruct (Z.eqb_spec (in_parent x) (-1)); [lia|]. set (p := in_parent x) in *. pose proof (tk_len _ _ _ T) as Hlen.
  destruct (lookupZ_lt_is_Some (is_socks s) p) as [z Hz]; [lia|]. destruct (lookupZ_nat _ _ _ Hz) as [Hz' _].
  eapply wp_place_upd; [exact Hz|]. cbv zeta.
  destruct (tk_waiting _ _ _ T' p z Hz Hne) as [Nd C]. destruct (sl_len _ _ (tk_link _ _ _ T p z Hz)) as [Ll Hl].
  pose proof (backlog_remove_spec (in_backlog z) (in_backlog_len z) i Ll Hl Nd) as R. cbv zeta in R. set (r := backlog_remove _ _ _) in *. destruct R as (L1 & B1 & N1 & M1).
  apply HQ. constructor.
  - apply (table_put inet_sockets (λ j, j = i) (λ j, j = i) (is_socks s) p z); [done|done| | |done|by left|].
    + destruct (tk_link _ _ _ T p z Hz) as [P _]. by split.
    + intros _. destruct (tk_body _ _ _ T' p z Hz Hne) as [B2 B3 B4 B5]. split; [split; [intros; by destruct (B2 ltac:(done) ltac:(done))|intros; by destruct (B3 ltac:(done) ltac:(done))|done|done]|].
      split; [done|]. intros c Hc. apply M1 in Hc as [Hc _]. destruct (C c Hc) as (u & Hu & Pu). exists u. split; [|done].
      pose proof (child_ne _ _ _ _ _ T' (C c Hc)). apply lookupZ_Some_lt in Hu as ?. rewrite lookupZ_insert_ne; [done|lia|done].
    + intros q w Hqp Hqi Hw Hc. destruct (tk_waiting _ _ _ T' q w Hw Hqi) as [_ C']. destruct (C' p Hc) as (u & Hu & Pu). rewrite Hz in Hu. by simplify_eq.
  - rewrite lookupZ_insert_ne; [done|apply lookupZ_Some_lt in Hz; lia|done].
  - by eapply mem_ok_same.
  - intros q w Hq Hw. destruct (decide (q = p)) as [->|Hqp].
    + rewrite lookupZ_insert_eq in Hw by (apply lookupZ_Some_lt in Hz; lia). simplify_eq. intros Hi. by apply M1 in Hi as [_ []].
    + rewrite lookupZ_insert_ne in Hw; [|apply lookupZ_Some_lt in Hz; lia|done]. intros Hi. by specialize (Al q w Hq Hw Hi).
Qed.

(** The children of a socket that listens are reset and cleared. *)
Lemma leave_children i x s (Q : unit → inetst → Prop) :
  leaving i x (is_socks s) (is_host s) →
  (∀ socks h', leaving i x socks h' → Q tt (set_is_socks socks (with_host h' s))) →
  wp (for_range (Z.to_nat INET_MAX_SOCKETS) 0 (λ c,
        x ← isock c;
        if negb (in_used x) || negb (in_parent x =? i) then mret tt
        else
          isock_upd c (set_in_parent (-1));; tcp_send_segment c (tc_nxt (in_tcb x)) TCP_RST [];; inet_free 1 c)) Q s.
Proof using KL IL.
  intros Lv HQ.
  eapply wp_mono; [apply (wp_for_range _ _ _ (λ _ t, ∃ socks h', leaving i x socks h' ∧ t = set_is_socks socks (with_host h' s)))|].
  - exists (is_socks s), (is_host s). split; [done|by destruct s].
  - intros c t Hc (socks & h & Lv1 & ->). destruct Lv1 as [T Hx Hm Al]. pose proof (tk_len _ _ _ T) as Hlen.
    destruct (lookupZ_lt_is_Some socks c) as [y Hy]; [unfold INET_MAX_SOCKETS in *; lia|]. destruct (lookupZ_nat _ _ _ Hy) as [Hy' Hcl].
    apply wp_bind. eapply wp_place; [exact Hy|]. destruct (in_used y) eqn:Eu; cbn [negb orb]; [|by apply wp_ret; exists socks, h].
    destruct (Z.eqb_spec (in_parent y) i) as [Ep|]; cbn [negb]; [|by apply wp_ret; exists socks, h].
    assert (Hi : 0 <= i) by (apply lookupZ_Some_lt in Hx; lia).
    destruct (sl_parent _ _ (tk_link _ _ _ T c y Hy)) as [E|(_ & Hne & _ & Hk & _ & Hnl)]; [lia|]. assert (Hci : c ≠ i) by congruence.
    set (y1 := set_in_parent (-1) y). set (socks1 := <[Z.to_nat c := y1]> socks).
    assert (W1 : ∀ p z, p ≠ c → p ≠ i → socks !!z p = Some z → c ∉ waiting z).
    { intros p z _ Hpi Hz Hw. destruct (tk_waiting _ _ _ T p z Hz Hpi) as [_ C]. destruct (C c Hw) as (u & Hu & Pu & _). rewrite Hy in Hu. simplify_eq. }
    assert (T1 : table_ok (λ j, j = i) socks1).
    { destruct (tk_waiting _ _ _ T c y Hy Hci) as [Nd C]. apply (table_put inet_sockets (λ j, j = i) (λ j, j = i) socks c y); [done|done| | |done|right; by left|].
      - destruct (tk_link _ _ _ T c y Hy). split; [by left|done].
      - intros _. destruct (tk_body _ _ _ T c y Hy Hci) as [B2 B3 B4 B5]. split; [split; [intros; by destruct (B2 ltac:(done) ltac:(done))|intros; by destruct (B3 ltac:(done) ltac:(done))|done|done]|].
        split; [done|]. intros d Hd. destruct (C d Hd) as (u & Hu & Pu). exists u. split; [|done].
        pose proof (child_ne _ _ _ _ _ T (C d Hd)). apply lookupZ_Some_lt in Hu as ?. rewrite lookupZ_insert_ne; [done|lia|done].
      - intros p z Hpc Hpi Hz Hw. by destruct (W1 p z Hpc Hpi Hz). }
    apply wp_bind. eapply wp_place_upd; [exact Hy|]. fold y1. change (put c y1 (set_is_socks socks (with_host h s))) with (set_is_socks socks1 (with_host h s)).
    assert (Hy1 : socks1 !!z c = Some y1) by (unfold socks1; by rewrite lookupZ_insert_eq by lia).
    assert (M1 : mem_ok socks1 h) by (by eapply mem_ok_same).
    apply wp_bind. eapply wp_at; [exact Hy1|]. apply wp_send_segment; [cbn; unfold socks1; rewrite length_insert; lia|by destruct M1|done|]. intros bs h1 _ S1.
    assert (E1 : St c (set_is_socks socks1 (with_host h s)) y1 h1 = set_is_socks socks1 (with_host h1 s)).
    { unfold St, set_is_socks. cbn. unfold socks1. by rewrite list_insert_insert_eq. }
    rewrite E1. eapply wp_free_plain; [exact Hy1|by eapply mem_ok_step|done|by intros []|]. intros h2 M2 _.
    exists (<[Z.to_nat c := zero_inet]> socks1), h2. split; [|reflexivity]. constructor; [| |exact M2|].
    + eapply table_weaken; [apply (table_zero _ (λ j, j = i) socks1 c y1); [done|done|]|naive_solver].
      intros p z Hpc Hpi Hz. unfold socks1 in Hz. rewrite lookupZ_insert_ne in Hz by (done || lia). by apply (W1 p z).
    + unfold socks1. rewrite !lookupZ_insert_ne by (done || lia). done.
    + intros p z Hpi Hz. destruct (decide (p = c)) as [->|Hpc].
      * rewrite lookupZ_insert_eq in Hz by (unfold socks1; rewrite length_insert; lia). simplify_eq. apply list.not_elem_of_nil.
      * unfold socks1 in Hz. rewrite !lookupZ_insert_ne in Hz by (done || lia). by apply (Al p z).
  - intros [] t (socks & h & Lv1 & ->). by apply HQ.
Qed.
(** Whatever the socket, it is cleared and the table is in order. *)
Lemma wp_inet_free i x (bad : Z → Prop) s (Q : unit → inetst → Prop) :
  table_ok bad (is_socks s) → (∀ j, bad j → j = i) → mem_ok (is_socks s) (is_host s) → is_socks s !!z i = Some x →
  (∀ socks h', table_ok none socks → mem_ok socks h' → Q tt (set_is_socks socks (with_host h' s))) → wp (inet_free free_depth i) Q s.
Proof using KL IL.
  intros T Hbad Hm Hx HQ. unfold free_depth. cbn [inet_free]. apply wp_bind. eapply wp_place; [done|].
  apply wp_bind. eapply leave_backlog; [exact T|done|done|done|]. intros socks1 Lv1.
  assert (F : ∀ socks h, leaving i x socks h → wp (s ← isock i; inet_release s;; isock_upd i (λ _, zero_inet)) Q (set_is_socks socks (with_host h s))).
  { intros socks h [T1 Hx1 Hm1 Al]. eapply wp_release_clear; [exact Hx1|done|]. intros h' Hm' _. cbn [is_socks set_is_socks] in Hm'.
    apply (HQ (<[Z.to_nat i := zero_inet]> socks) h'); [|done]. eapply table_weaken; [by eapply table_zero; [exact T1|done|]; intros; by eapply Al|]. naive_solver. }
  apply wp_bind. case_bool_decide.
  - apply (leave_children i x); [done|]. intros socks h Lv. by apply F.
  - apply wp_ret. specialize (F socks1 (is_host s) Lv1). by destruct s.
Qed.

(** ** Lemmas: what keeps the invariant *)
Lemma inet_ok_host s out h' : inet_ok s → host_step ih_ok ih_sent out (is_host s) h' → inet_ok (with_host h' s).
Proof. intros [T M P] S. constructor; [done|by eapply mem_ok_step|done]. Qed.
Lemma inet_ok_update i x y s :
  inet_ok s → is_socks s !!z i = Some x → sock_link i y → sock_body i y → in_parent y = in_parent x → waiting y = waiting x →
  (state_of y = TCP_SYN_RCVD → state_of x = TCP_SYN_RCVD) → sock_runs y = sock_runs x → sock_blocks y = sock_blocks x → inet_ok (put i y s).
Proof.
  intros [T M P] Hx Hl Hb Ep Ew Es E1 E2. constructor; [by eapply table_update|apply lookupZ_nat in Hx as [Hx _]; by eapply mem_ok_same|done].
Qed.
Lemma same_conn_mem x y : same_conn x y → sock_runs y = sock_runs x ∧ sock_blocks y = sock_blocks x.
Proof. intros [? ? ? ? ? ? ? ? ? ? E1 E2 E3]. unfold sock_runs, sock_blocks. by rewrite E1, E2, E3. Qed.
(** A connection that has moved. *)
Lemma inet_ok_go inc i x y h' es s :
  inet_ok s → is_socks s !!z i = Some x → in_used x = true → in_kind x = INET_TCP → go inc x (is_host s) es y h' → inet_ok (St i s y h').
Proof.
  intros Hok Hx Eu Ek G. pose proof Hok as [T M P]. destruct (tk_body _ _ _ T i x Hx (λ f, f)) as [B1 B2 B3 B4]. pose proof (B1 Eu Ek) as Ok.
  destruct (go_ok _ _ _ _ _ _ G Ok) as [Ok' SC]. destruct (go_state _ _ _ _ _ _ G Ok) as [SL SR].
  pose proof (go_host _ _ _ _ _ _ G Ok (proj1 M)) as S. destruct (same_conn_mem _ _ SC) as [E1 E2].
  change (inet_ok (with_host h' (put i y s))). destruct SC. destruct (tk_link _ _ _ T i x Hx) as [LP LL].
  assert (I1 : inet_ok (put i y s)).
  { apply (inet_ok_update i x); [done|done| | |done| |done|done|done].
    - split; [|by rewrite sc_backlog, sc_len]. rewrite sc_parent, sc_used, sc_kind, sc_connected. destruct LP as [?|(?&?&?&?&?&?)]; [by left|right].
      split_and!; try done; try lia. naive_solver.
    - constructor; [done|intros _ E; congruence|by rewrite sc_used, sc_node|intros E; congruence].
    - unfold waiting. by rewrite sc_backlog, sc_len. }
  by eapply (inet_ok_host (put i y s)).
Qed.
Lemma inet_ok_sock s i x : inet_ok s → is_socks s !!z i = Some x → sock_link i x ∧ sock_body i x ∧ 0 <= i < INET_MAX_SOCKETS ∧ 0 <= i < Z.of_nat (length (is_socks s)).
Proof.
  intros [T M P] Hx. pose proof (tk_len _ _ _ T). apply lookupZ_Some_lt in Hx as ?. split_and!; try lia; [by eapply tk_link|]. by eapply tk_body; [exact T|done|intros []].
Qed.

(** An operation on a connection, by the moves it makes. *)
Lemma keep_moves {A} (m : M inetst A) inc i x s :
  inet_ok s → is_socks s !!z i = Some x → in_used x = true → in_kind x = INET_TCP →
  (∀ Q : A → inetst → Prop, tcp_ok x → ih_ok (is_host s) → 0 <= i < Z.of_nat (length (is_socks s)) →
     (∀ r es y h', go inc x (is_host s) es y h' → ih_ok h' → Q r (St i s y h')) → wp m Q (St i s x (is_host s))) →
  wp m (λ _ t, inet_ok t) s.
Proof.
  intros Hok Hx Eu Ek Hm. eapply wp_at; [exact Hx|]. destruct (inet_ok_sock _ _ _ Hok Hx) as (_ & B & _ & Hi).
  apply Hm; [by apply B|apply Hok|done|]. intros r es y h' G _. by eapply inet_ok_go.
Qed.
Lemma keep_free i x s : inet_ok s → is_socks s !!z i = Some x → wp (inet_free free_depth i) (λ _ t, inet_ok t) s.
Proof using KL IL. intros [T M P] Hx. eapply wp_inet_free; [exact T|by intros ? []|done|done|]. intros socks h' T' M'. by constructor. Qed.
Lemma keep_send i x s seq flags : inet_ok s → is_socks s !!z i = Some x → wp (tcp_send_segment i seq flags []) (λ _ t, ∃ h', t = with_host h' s ∧ inet_ok t) s.
Proof.
  intros Hok Hx. destruct (inet_ok_sock _ _ _ Hok Hx) as (_ & _ & _ & Hi). eapply wp_at; [exact Hx|]. apply wp_send_segment; [done|apply Hok|done|].
  intros bs h' _ S. exists h'. assert (E : St i s x h' = with_host h' s) by (apply lookupZ_nat in Hx as [Hx _]; unfold St; by rewrite list_insert_id).
  rewrite E. split; [done|by eapply inet_ok_host].
Qed.
Lemma keep_wake s : inet_ok s → wp (on_ih ih_wake_waiters) (λ _ t, inet_ok t) s.
Proof. intros Hok. apply wp_on_host, ih_wake_law; [apply Hok|]. intros h' S. by eapply inet_ok_host. Qed.

(** ** Lemmas: ports *)

(** The port [j] turns after [p]. *)
Definition port_after (p : Z) (j : Z) : Z := 49152 + (p - 49152 + j) mod 16384.
Lemma port_next p : 49152 <= p < 65536 → (if u16 (p + 1) <? 49152 then 49152 else u16 (p + 1)) = port_after p 1.
Proof.
  intros Hp. unfold port_after. destruct (decide (p = 65535)) as [->|Hne]; [done|]. rewrite u16_small by lia. rewrite Z.mod_small by lia.
  destruct (Z.ltb_spec (p + 1) 49152); lia.
Qed.
Lemma port_after_range p j : 49152 <= port_after p j < 65536.
Proof. unfold port_after. pose proof (Z.mod_pos_bound (p - 49152 + j) 16384). lia. Qed.
Lemma port_after_after p a b : port_after (port_after p a) b = port_after p (a + b).
Proof. unfold port_after. replace (49152 + (p - 49152 + a) mod 16384 - 49152 + b) with ((p - 49152 + a) mod 16384 + b) by lia. rewrite Zplus_mod_idemp_l. do 2 f_equal. lia. Qed.
Definition port_used (l : list InetSocket) (p : Z) : bool := existsb (λ x, in_used x && (in_local_port x =? p)) l.
Lemma port_loop_spec tries (s : inetst) :
  49152 <= is_next_port s < 65536 →
  ∃ p next, port_loop tries s = Some (p, Inetst (is_socks s) next (is_seed s) (is_host s)) ∧ 49152 <= next < 65536 ∧
    ((49152 <= p < 65536 ∧ port_used (is_socks s) p = false) ∨
     (p = 0 ∧ ∀ j, 0 <= j < Z.of_nat tries → port_used (is_socks s) (port_after (is_next_port s) j) = true)).
Proof.
  revert s. induction tries as [|tries IHt]; intros s Hp; cbn [port_loop].
  { exists 0, (is_next_port s). split_and!; [by destruct s|lia|lia|right; split; [done|lia]]. }
  unfold mbind, M_bind, gets, modify. rewrite port_next by done. cbn [is_socks]. fold (port_used (is_socks s) (is_next_port s)).
  pose proof (port_after_range (is_next_port s) 1) as Hr. destruct (port_used (is_socks s) (is_next_port s)) eqn:E.
  - destruct (IHt (Inetst (is_socks s) (port_after (is_next_port s) 1) (is_seed s) (is_host s)) Hr) as (p & next & Eq & Hn & Hc).
    exists p, next. split_and!; [done|lia|lia|]. destruct Hc as [Hc|[-> Hc]]; [by left|right]. split; [done|]. intros j Hj. cbn [is_socks is_next_port] in *.
    destruct (decide (j = 0)) as [->|Hne].
    + unfold port_after. rewrite Z.add_0_r, Z.mod_small by lia. by replace (49152 + (is_next_port s - 49152)) with (is_next_port s) by lia.
    + specialize (Hc (j - 1) ltac:(lia)). rewrite port_after_after in Hc. by replace (1 + (j - 1)) with j in Hc by lia.
  - exists (is_next_port s), (port_after (is_next_port s) 1). split_and!; [done|lia|lia|by left].
Qed.
(** More ports are tried than there are sockets. *)
Lemma ports_not_all_used (l : list InetSocket) p tries :
  (length l < tries)%nat → Z.of_nat tries <= 16384 → ¬ (∀ j, 0 <= j < Z.of_nat tries → port_used l (port_after p j) = true).
Proof.
  intros Hl Ht Hall. set (ps := map (port_after p) (seqZ 0 (Z.of_nat tries))).
  assert (Nd : NoDup ps).
  { apply NoDup_alt. intros a b v Ha Hb. unfold ps in *. apply list_lookup_fmap_Some in Ha as (ja & -> & Ha), Hb as (jb & Eb & Hb).
    apply lookup_seqZ in Ha as [-> Ha], Hb as [-> Hb]. unfold port_after in Eb. rewrite !Z.add_0_l in Eb.
    assert (E : (p - 49152 + Z.of_nat a) mod 16384 = (p - 49152 + Z.of_nat b) mod 16384) by lia.
    pose proof (Z.div_mod (p - 49152 + Z.of_nat a) 16384 ltac:(lia)). pose proof (Z.div_mod (p - 49152 + Z.of_nat b) 16384 ltac:(lia)).
    set (qa := (p - 49152 + Z.of_nat a) / 16384) in *. set (qb := (p - 49152 + Z.of_nat b) / 16384) in *. clearbody qa qb. rewrite E in *. lia. }
  assert (Sub : ps ⊆ map in_local_port l).
  { intros v Hv. unfold ps in Hv. apply list_elem_of_fmap in Hv as (j & -> & Hj). apply elem_of_seqZ in Hj. specialize (Hall j ltac:(lia)).
    unfold port_used in Hall. apply existsb_exists in Hall as (x & Hx & [_ E%Z.eqb_eq]%andb_prop). apply list_elem_of_fmap. exists x. split; [by symmetry|by apply list_elem_of_In]. }
  pose proof (submseteq_length _ _ (NoDup_submseteq _ _ Nd Sub)) as Hlen. unfold ps in Hlen. rewrite !length_map, length_seqZ in Hlen. lia.
Qed.
Lemma wp_alloc_port s (Q : Z → inetst → Prop) :
  Z.of_nat (length (is_socks s)) = INET_MAX_SOCKETS → 49152 <= is_next_port s < 65536 →
  (∀ p next, 49152 <= p < 65536 → port_used (is_socks s) p = false → 49152 <= next < 65536 → Q p (Inetst (is_socks s) next (is_seed s) (is_host s))) →
  wp inet_alloc_port Q s.
Proof.
  intros Hl Hp HQ. destruct (port_loop_spec PORT_TRIES s Hp) as (p & next & E & Hn & [[Hr Hu]|[_ Hall]]).
  - apply wp_run. exists p, (Inetst (is_socks s) next (is_seed s) (is_host s)). split; [exact E|]. by apply HQ.
  - exfalso. revert Hall. unfold INET_MAX_SOCKETS in Hl. apply ports_not_all_used; unfold PORT_TRIES; lia.
Qed.
Lemma inet_ok_next s next : inet_ok s → 49152 <= next < 65536 → inet_ok (Inetst (is_socks s) next (is_seed s) (is_host s)).
Proof. intros [T M P] Hn. by constructor. Qed.
Lemma inet_ok_seed s seed : inet_ok s → inet_ok (Inetst (is_socks s) (is_next_port s) seed (is_host s)).
Proof. intros [T M P]. by constructor. Qed.
Lemma wp_random s (Q : Z → inetst → Prop) :
  inet_ok s → (∀ seed h', 0 <= seed < 2 ^ 32 → inet_ok (Inetst (is_socks s) (is_next_port s) seed h') → Q seed (Inetst (is_socks s) (is_next_port s) seed h')) →
  wp inet_random Q s.
Proof.
  intros Hok HQ. unfold inet_random. apply wp_bind, wp_on_host, ih_rdtsc_law; [apply Hok|]. intros r h' S. cbv beta. wp_steps. cbn [is_socks is_next_port is_seed is_host with_host].
  apply HQ; [apply u32_range|]. by apply (inet_ok_seed (with_host h' s)), (inet_ok_host _ []).
Qed.

(** ** Lemmas: sockets made *)

(** A socket just made. *)
Record fresh (i : Z) (kind : InetKind) (flags : Z) (x : InetSocket) : Prop := {
  fr_used : in_used x = true; fr_kind : in_kind x = kind; fr_parent : in_parent x = -1; fr_waiting : waiting x = [];
  fr_flags : in_flags x = Z.land flags SOCK_NONBLOCK; fr_conn : in_connected x = false; fr_orphan : in_orphan x = false; fr_tcb : in_tcb x = zero_tcb;
  fr_body : sock_body i x; fr_backlog : length (in_backlog x) = 16%nat ∧ in_backlog_len x = 0;
  fr_rx : kind = INET_TCP → rr_count (in_rx x) = 0 ∧ rr_head (in_rx x) = 0 ∧ tb_count (in_tx x) = 0
}.
Definition new_socket (i : Z) (kind : InetKind) (flags : Z) : InetSocket :=
  set_in_open true kind (Z.land flags SOCK_NONBLOCK)
    (MkVNode (to_str (if decide (kind = INET_UDP) then "udp" else "tcp")) VNODE_SOCKET 0 0 INET_FILE_OPS (inet_sockets + i * SIZEOF_INET_SOCKET) 0 false 0 0 0) zero_inet.

Lemma pages_at_length n p h : 0 <= n → Z.of_nat (length (bytes_at (Z.to_nat n) p h)) = n.
Proof.
  intros Hn. rewrite <- (Z2Nat.id n Hn) at 2. generalize (Z.to_nat n). intros k. revert p. induction k as [|k IHk]; intros p; cbn [bytes_at length]; [done|].
  specialize (IHk (p + 1)). lia.
Qed.

Lemma wp_pages n p t (Q : list Z → inetst → Prop) :
  Q (if p =? 0 then [] else bytes_at (Z.to_nat n) p (is_host t)) t → wp (if p =? 0 then mret [] else on_ih (pages_at n p)) Q t.
Proof. intros HQ. destruct (p =? 0); [done|]. apply wp_on_host. unfold pages_at. apply wp_gets. by destruct t. Qed.

(** A table with one place that an operation fills: [x] there has its memory and is not checked yet. *)
Record filling (i : Z) (x : InetSocket) (s : inetst) : Prop := {
  fl_table : table_ok (λ j, j = i) (is_socks s);
  fl_self : is_socks s !!z i = Some x;
  fl_mem : mem_ok (is_socks s) (is_host s);
  fl_port : 49152 <= is_next_port s < 65536;
  fl_plain : in_parent x = -1 ∧ waiting x = [] ∧ state_of x = TCP_CLOSED
}.
Lemma filling_put i x y s h' :
  filling i x s → sock_link i y → in_parent y = -1 → waiting y = [] → state_of y = TCP_CLOSED → ih_ok h' →
  km_inv h' (sock_runs y ++ (delete (Z.to_nat i) (is_socks s) ≫= sock_runs) ++ runs) (sock_blocks y ++ (delete (Z.to_nat i) (is_socks s) ≫= sock_blocks) ++ blocks) →
  filling i y (put i y (with_host h' s)).
Proof using KL.
  intros [T Hx M P (Ep & Ew & Es)] Hl Ep' Ew' Es' Ho Hm. apply lookupZ_nat in Hx as Hx'. destruct Hx' as [Hx' Hi]. constructor.
  - apply (table_update _ (λ j, j = i) _ i x y); [done|done|done|naive_solver|congruence|congruence|by rewrite Es'].
  - cbn. by rewrite lookupZ_insert_eq by lia.
  - cbn. apply (mem_ok_put _ _ x); done.
  - done.
  - done.
Qed.
Lemma filling_done i x s : filling i x s → sock_body i x → inet_ok s.
Proof.
  intros [T Hx M P (Ep & Ew & Es)] Hb. constructor; [|done|done]. destruct T as [T1 T2 T3 T4 T5]. constructor; [done|done| | |done].
  - intros j z Hz _. destruct (decide (j = i)) as [->|Hne]; [by simplify_eq|by apply T3].
  - intros j z Hz _. destruct (decide (j = i)) as [->|Hne]; [|by apply T4]. simplify_eq. rewrite Ew. split; [apply NoDup_nil_2|].
    intros c Hc. by apply list.elem_of_nil in Hc.
Qed.
Lemma filling_free i x s : filling i x s → wp (inet_free free_depth i) (λ _ t, inet_ok t) s.
Proof using KL IL. intros [T Hx M P _]. eapply wp_inet_free; [exact T|done|done|done|]. intros socks h' T' M'. by constructor. Qed.

(** The buffers of a connection. *)
Lemma wp_fill_tcp i flags s (Q : bool → inetst → Prop) :
  filling i (new_socket i INET_TCP flags) s →
  (∀ x t, filling i x t → fresh i INET_TCP flags x → is_socks t = <[Z.to_nat i := x]> (is_socks s) → Q true t) →
  (∀ x t, filling i x t → Q false t) →
  wp (rx ← on_ih (km_alloc_pages (TCP_RX_SIZE / PAGE_SIZE));
      rb ← (if rx =? 0 then mret [] else on_ih (pages_at TCP_RX_SIZE rx));
      isock_upd i (set_in_rx (MkRx rx rb 0 0));;
      tx ← on_ih (km_alloc_pages (TCP_TX_SIZE / PAGE_SIZE));
      tb ← (if tx =? 0 then mret [] else on_ih (pages_at TCP_TX_SIZE tx));
      isock_upd i (set_in_tx (MkTx tx tb 0));;
      mret (negb (rx =? 0) && negb (tx =? 0))) Q s.
Proof using KL IL.
  intros F HT HF. set (x0 := new_socket i INET_TCP flags) in *. destruct (lookupZ_nat _ _ _ (fl_self _ _ _ F)) as [Hx0 Hi].
  destruct (proj1 (mem_ok_focus _ _ _ _ Hx0) (fl_mem _ _ _ F)) as [Ho Hm].
  apply wp_bind, wp_on_host. eapply wp_alloc_pages; [done|done|exact Hm|]. intros rx h1 Ho1 _ Hm1. cbv beta.
  set (rb := if rx =? 0 then [] else bytes_at (Z.to_nat TCP_RX_SIZE) rx h1).
  assert (Lrb : rx ≠ 0 → Z.of_nat (length rb) = TCP_RX_SIZE) by (intros Hrx; unfold rb; rewrite (proj2 (Z.eqb_neq rx 0) Hrx); by apply pages_at_length).
  apply wp_bind, wp_pages. change (is_host (with_host h1 s)) with h1. fold rb. clearbody rb. apply wp_bind. eapply wp_place_upd; [exact (fl_self _ _ _ F)|]. set (x1 := set_in_rx (MkRx rx rb 0 0) x0).
  assert (F1 : filling i x1 (put i x1 (with_host h1 s))).
  { eapply filling_put; [exact F| |done|done|done|done|]; [by split; [left|split]|]. unfold sock_runs, sock_blocks in *. cbn [x1 in_rx in_tx in_udp set_in_rx rr_ptr] in *. rewrite app_nil_r. exact Hm1. }
  destruct (lookupZ_nat _ _ _ (fl_self _ _ _ F1)) as [Hx1 _].
  destruct (proj1 (mem_ok_focus _ _ _ _ Hx1) (fl_mem _ _ _ F1)) as [_ Hm2]. 
  apply wp_bind, wp_on_host. eapply wp_alloc_pages; [done|done|exact Hm2|]. intros tx h2 Ho2 _ Hm3. cbv beta.
  set (tb := if tx =? 0 then [] else bytes_at (Z.to_nat TCP_TX_SIZE) tx h2).
  assert (Ltb : tx ≠ 0 → Z.of_nat (length tb) = TCP_TX_SIZE) by (intros Htx; unfold tb; rewrite (proj2 (Z.eqb_neq tx 0) Htx); by apply pages_at_length).
  apply wp_bind, wp_pages. cbn [is_host with_host]. fold tb. clearbody tb. apply wp_bind. eapply wp_place_upd; [exact (fl_self _ _ _ F1)|]. set (x2 := set_in_tx (MkTx tx tb 0) x1). apply wp_ret.
  assert (F2 : filling i x2 (put i x2 (with_host h2 (put i x1 (with_host h1 s))))).
  { eapply filling_put; [exact F1| |done|done|done|done|]; [by split; [left|split]|]. eapply km_perm; [|reflexivity|exact Hm3].
    unfold sock_runs. cbn [x2 x1 x0 in_rx in_tx set_in_rx set_in_tx rr_ptr tb_ptr new_socket set_in_open zero_inet]. change (0 =? 0) with true. cbv iota. solve_perm. }
  destruct (Z.eqb_spec rx 0) as [|Hrx]; cbn [negb andb]; [by eapply HF|]. destruct (Z.eqb_spec tx 0) as [|Htx]; cbn [negb andb]; [by eapply HF|].
  eapply HT; [exact F2| |unfold put, set_is_socks; cbn; by rewrite list_insert_insert_eq].
  constructor; try done. constructor; [intros _ _|done|done|done]. constructor; cbn; [split; [by apply Lrb|done]|by apply Ltb|done|done].
Qed.
Lemma wp_fill_udp i flags s (Q : bool → inetst → Prop) :
  filling i (new_socket i INET_UDP flags) s →
  (∀ x t, filling i x t → fresh i INET_UDP flags x → is_socks t = <[Z.to_nat i := x]> (is_socks s) → Q true t) →
  (∀ x t, filling i x t → Q false t) →
  wp (q ← on_ih (km_kmalloc (UDP_QUEUE * SIZEOF_UDP_DATAGRAM));
      isock_upd i (set_in_udp (MkUq q (if q =? 0 then [] else replicate (Z.to_nat UDP_QUEUE) zero_dgram) 0 0));;
      p ← inet_alloc_port;
      isock_upd i (set_in_local_port p);;
      mret (negb (q =? 0) && negb (p =? 0))) Q s.
Proof using KL IL.
  intros F HT HF. set (x0 := new_socket i INET_UDP flags) in *. destruct (lookupZ_nat _ _ _ (fl_self _ _ _ F)) as [Hx0 Hi].
  destruct (proj1 (mem_ok_focus _ _ _ _ Hx0) (fl_mem _ _ _ F)) as [Ho Hm].
  apply wp_bind, wp_on_host. eapply wp_kmalloc; [done|done|exact Hm|]. intros q h1 Ho1 _ Hm1. cbv beta.
  set (slots := if q =? 0 then [] else replicate (Z.to_nat UDP_QUEUE) zero_dgram).
  assert (Ls : q ≠ 0 → Z.of_nat (length slots) = UDP_QUEUE ∧ Forall dgram_ok slots).
  { intros Hq. unfold slots. rewrite (proj2 (Z.eqb_neq q 0) Hq), length_replicate. split; [done|]. by apply Forall_replicate. }
  clearbody slots. apply wp_bind. eapply wp_place_upd; [exact (fl_self _ _ _ F)|]. set (x1 := set_in_udp (MkUq q slots 0 0) x0).
  assert (F1 : filling i x1 (put i x1 (with_host h1 s))).
  { eapply filling_put; [exact F| |done|done|done|done|]; [by split; [left|split]|]. unfold sock_runs, sock_blocks in *. cbn [x1 in_rx in_tx in_udp set_in_udp uq_ptr] in *. exact Hm1. }
  apply wp_bind, wp_alloc_port; [apply (tk_len _ _ _ (fl_table _ _ _ F1))|apply (fl_port _ _ _ F1)|]. intros p next Hp _ Hn.
  set (t1 := Inetst _ next _ _). assert (F1' : filling i x1 t1) by (destruct F1; by constructor).
  apply wp_bind. eapply wp_place_upd; [exact (fl_self _ _ _ F1')|]. set (x2 := set_in_local_port p x1). apply wp_ret.
  assert (F2 : filling i x2 (put i x2 t1)).
  { destruct (lookupZ_nat _ _ _ (fl_self _ _ _ F1')) as [Hx1 _]. destruct (proj1 (mem_ok_focus _ _ _ _ Hx1) (fl_mem _ _ _ F1')) as [Ho2 Hm2].
    change t1 with (with_host h1 t1). eapply filling_put; [exact F1'| |done|done|done|done|exact Hm2]. by split; [left|split]. }
  destruct (Z.eqb_spec q 0) as [|Hq]; cbn [negb andb]; [by eapply HF|]. destruct (Z.eqb_spec p 0) as [|Hp0]; cbn [negb andb]; [by eapply HF|].
  eapply HT; [exact F2| |unfold put, set_is_socks; cbn; by rewrite list_insert_insert_eq].
  destruct (Ls Hq) as [L1 L2]. constructor; try done.
Qed.
(** A socket of the table made ready, or none. *)
Lemma wp_inet_alloc kind flags s (Q : Z → inetst → Prop) :
  inet_ok s →
  (∀ i x0 x t, is_socks s !!z i = Some x0 → in_used x0 = false → fresh i kind flags x → is_socks t = <[Z.to_nat i := x]> (is_socks s) → inet_ok t → Q i t) →
  (∀ t, inet_ok t → Q (-1) t) → wp (inet_alloc inet_sockets kind flags) Q s.
Proof using KL IL.
  intros Hok HT HF. pose proof Hok as [T M P]. unfold inet_alloc. wp_steps.
  set (i := find_socket (λ s, negb (in_used s)) (is_socks s)). destruct (find_socket_spec (λ s, negb (in_used s)) (is_socks s)) as [[E _]|(x0 & Hx0 & Eu)].
  { unfold i. rewrite E. cbn. by apply wp_ret, HF. }
  fold i in Hx0. apply negb_true_iff in Eu. destruct (lookupZ_nat _ _ _ Hx0) as [Hx0' Hi]. destruct (Z.eqb_spec i (-1)); [lia|].
  destruct (tk_body _ _ _ T i x0 Hx0 (λ f, f)) as [_ _ _ B]. destruct (B Eu) as (R0 & B0 & _).
  assert (Ep : in_parent x0 = -1) by (destruct (sl_parent _ _ (tk_link _ _ _ T i x0 Hx0)) as [|(?&?&?&?)]; [done|congruence]).
  set (y0 := new_socket i kind flags). set (s1 := put i y0 s).
  assert (F : filling i y0 s1).
  { constructor; [|cbn; by rewrite lookupZ_insert_eq by lia| |done|done].
    - apply (table_put inet_sockets none (λ j, j = i) (is_socks s) i x0); [done|done|by split; [left|split]|naive_solver|by intros ? ? []|by left|].
      intros p z Hne _ Hz Hw. exfalso. destruct (tk_waiting _ _ _ T p z Hz (λ f, f)) as [_ C]. destruct (C i Hw) as (u & Hu & Pu & _).
      apply lookupZ_Some_lt in Hz. rewrite Hx0 in Hu. simplify_eq. lia.
    - cbn. eapply mem_ok_same; [exact Hx0'|by rewrite R0|by rewrite B0|done]. }
  apply wp_bind. eapply wp_place_upd; [exact Hx0|].
  apply wp_bind. eapply (wp_place_upd i zero_inet); [cbn; by rewrite lookupZ_insert_eq by lia|].
  assert (Es : put i y0 (put i zero_inet s) = s1) by (unfold s1, put, set_is_socks; cbn; by rewrite list_insert_insert_eq).
  fold (new_socket i kind flags). fold y0. rewrite Es.
  assert (Fin : ∀ x t, filling i x t → fresh i kind flags x → is_socks t = <[Z.to_nat i := x]> (is_socks s1) → Q i t).
  { intros x t Ft Fx Et. eapply (HT i x0 x t); [done|done|done|rewrite Et; unfold s1, put, set_is_socks; cbn; by rewrite list_insert_insert_eq|].
    eapply filling_done; [done|by apply Fx]. }
  assert (Bad : ∀ x t, filling i x t → wp (inet_free free_depth i;; mret (-1)) Q t).
  { intros x t Ft. apply wp_bind. eapply wp_mono; [by eapply filling_free|]. intros [] t' Ht'. by apply wp_ret, HF. }
  apply wp_bind. destruct kind.
  - rewrite decide_False by done. apply (wp_fill_tcp i flags s1); [exact F| |].
    + intros x t Ft Fx Et. apply wp_ret. by eapply Fin.
    + intros x t Ft. by eapply Bad.
  - rewrite decide_True by done. apply (wp_fill_udp i flags s1); [exact F| |].
    + intros x t Ft Fx Et. apply wp_ret. by eapply Fin.
    + intros x t Ft. by eapply Bad.
Qed.

(** ** Lemmas: segments *)
Lemma keep_reset i e x s : e ≠ 0 → inet_ok s → is_socks s !!z i = Some x → in_used x = true → in_kind x = INET_TCP → wp (tcp_reset i e) (λ _ t, inet_ok t) s.
Proof using KL IL.
  intros He Hok Hx Eu Ek. unfold tcp_reset. apply wp_bind. eapply wp_place_upd; [done|].
  set (y := upd_timer _ _). assert (Hok1 : inet_ok (put i y s)).
  { pose proof (inet_ok_go Kernel i x y (is_host s) [] s Hok Hx Eu Ek) as G. apply G. apply go_one; [by apply mv_closed|apply host_step_refl, Hok]. }
  assert (Hy : is_socks (put i y s) !!z i = Some y) by (cbn; rewrite lookupZ_insert_eq; [done|by apply lookupZ_Some_lt in Hx]).
  apply wp_bind. eapply wp_place; [exact Hy|]. apply wp_bind. destruct (in_orphan y).
  - eapply wp_mono; [by eapply keep_free|]. intros [] t Ht. by apply keep_wake.
  - by apply wp_ret, keep_wake.
Qed.
Lemma find_tcp_spec ip rp lp s (Q : Z → inetst → Prop) :
  Q (-1) s → (∀ i x, is_socks s !!z i = Some x → in_used x = true → in_kind x = INET_TCP → i ≠ -1 → Q i s) → wp (inet_find_tcp ip rp lp) Q s.
Proof.
  intros HN HS. unfold inet_find_tcp. apply wp_gets.
  match goal with |- Q (find_socket ?P _) _ => destruct (find_socket_spec P (is_socks s)) as [[-> _]|(x & Hx & Px)] end; [done|].
  rewrite !andb_true_iff in Px. destruct Px as [[[[Eu Ek%bool_decide_eq_true_1] _] _] _]. eapply HS; [exact Hx|done|done|]. apply lookupZ_Some_lt in Hx. lia.
Qed.
Lemma find_listener_spec port s (Q : Z → inetst → Prop) :
  Q (-1) s → (∀ i x, is_socks s !!z i = Some x → in_used x = true → state_of x = TCP_LISTEN → i ≠ -1 → Q i s) → wp (inet_find_listener port) Q s.
Proof.
  intros HN HS. unfold inet_find_listener. apply wp_gets.
  match goal with |- Q (find_socket ?P _) _ => destruct (find_socket_spec P (is_socks s)) as [[-> _]|(x & Hx & Px)] end; [done|].
  rewrite !andb_true_iff in Px. destruct Px as [[[Eu _] Ek%bool_decide_eq_true_1] _]. eapply HS; [exact Hx|done|done|]. apply lookupZ_Some_lt in Hx. lia.
Qed.
(** A place of the table is either empty or taken, and a child is taken: counting children needs not ask. *)
Lemma children_used socks (bad : Z → Prop) l :
  table_ok bad socks → 0 <= l → children socks l = length (filter (λ x, in_used x && (in_parent x =? l)) socks).
Proof.
  intros T Hl. unfold children. f_equal. apply filter_same. intros x Hx. apply list_elem_of_lookup in Hx as [k Hk].
  assert (Hx : socks !!z (Z.of_nat k) = Some x) by (unfold lookupZ; destruct (Z.ltb_spec (Z.of_nat k) 0); [lia|]; by rewrite Nat2Z.id).
  destruct (sl_parent _ _ (tk_link _ _ _ T _ _ Hx)) as [E|(_ & _ & E & _)].
  - rewrite E. split; [lia|]. intros [_ H]%andb_prop_elim. apply Is_true_true, Z.eqb_eq in H. lia.
  - rewrite E. cbn [andb]. rewrite Is_true_true, Z.eqb_eq. done.
Qed.
Lemma succ_ne v : 0 <= v < 2 ^ 32 → v ≠ u32 (v + 1).
Proof. intros Hv. unfold u32. destruct (decide (v = 2 ^ 32 - 1)) as [->|]; [done|]. rewrite Z.mod_small; lia. Qed.

Lemma keep_passive_open src_ip h s : inet_ok s → wp (tcp_passive_open inet_sockets src_ip h) (λ _ t, inet_ok t) s.
Proof using KL IL.
  intros Hok. unfold tcp_passive_open. destruct (negb _); [by apply wp_ret|]. apply wp_bind. apply find_listener_spec.
  { change (-1 =? -1) with true. by apply wp_ret. }
  intros l ls Hls Elu Els Hl1. rewrite (proj2 (Z.eqb_neq _ _) Hl1). apply wp_bind, wp_gets.
  destruct (Z.leb_spec TCP_BACKLOG (Z.of_nat (length (filter (λ x, in_used x && (in_parent x =? l)) (is_socks s))))) as [|Hch]; [by apply wp_ret|].
  assert (Hl0 : 0 <= l) by (apply lookupZ_Some_lt in Hls; lia). rewrite <- (children_used _ none l) in Hch by (done || apply Hok).
  apply wp_bind, wp_inet_alloc; [done| |intros t Ht; change (-1 =? -1) with true; by apply wp_ret].
  intros c x0 x t Hx0 Eu0 Fr Et Hokt. destruct (lookupZ_nat _ _ _ Hx0) as [Hx0' Hc]. destruct (Z.eqb_spec c (-1)); [lia|].
  assert (Hcl : c ≠ l) by (intros ->; rewrite Hls in Hx0; simplify_eq; congruence).
  assert (Hlt : is_socks t !!z l = Some ls) by (rewrite Et, lookupZ_insert_ne; done || lia).
  assert (Hct : is_socks t !!z c = Some x) by (rewrite Et, lookupZ_insert_eq by lia; done).
  assert (Ep0 : in_parent x0 = -1).
  { destruct (sl_parent _ _ (tk_link _ _ _ (io_table _ _ Hok) c x0 Hx0)) as [|(?&?&?&?)]; [done|congruence]. }
  assert (Ech : children (is_socks t) l = children (is_socks s) l).
  { rewrite Et. unfold children. pose proof (filter_insert_length (λ x, in_parent x = l) (is_socks s) (Z.to_nat c) x0 x Hx0') as E. pose proof (fr_parent _ _ _ _ Fr).
    destruct (decide (in_parent x0 = l)), (decide (in_parent x = l)); lia. }
  apply wp_bind. eapply wp_place; [exact Hlt|]. apply wp_bind, wp_random; [done|]. intros iss h1 Hiss Hok1.
  apply wp_bind. eapply wp_place_upd; [exact Hct|].
  set (y := set_in_remote _ _ _). set (t1 := Inetst (is_socks t) (is_next_port t) iss h1).
  assert (Hlink : l < INET_MAX_SOCKETS) by (pose proof (tk_len _ _ _ (io_table _ _ Hok)); apply lookupZ_Some_lt in Hls; lia).
  assert (Hok2 : inet_ok (put c y t1)).
  { destruct Hok1 as [T1 M1 P1]. cbn [is_socks is_host is_next_port] in T1, M1, P1. constructor; [|by eapply mem_ok_same; [apply lookupZ_nat in Hct as [Hct _]; exact Hct| | |exact M1]|done].
    pose proof (fr_body _ _ _ _ Fr) as [B1 B2 B3 B4]. pose proof (fr_kind _ _ _ _ Fr). pose proof (fr_used _ _ _ _ Fr).
    apply (table_put inet_sockets none none (is_socks t) c x); [done|done| | |done|right; right; cbn; lia|].
    - split; [right; cbn; split_and!; done || lia|by destruct (tk_link _ _ _ T1 c x Hct)].
    - intros _. split; [constructor; [intros E1 E2; destruct (B1 E1 E2); constructor; try done; cbn; apply net_htons_range|intros _ E; cbn in E; congruence|done|cbn; intros E; congruence]|].
      assert (Ew : waiting y = []) by (change (waiting y) with (waiting x); apply Fr). rewrite Ew. split; [apply NoDup_nil_2|]. intros d Hd. by apply list.elem_of_nil in Hd.
    - intros p z Hpc _ Hz Hw. exfalso. destruct (tk_waiting _ _ _ T1 p z Hz (λ f, f)) as [_ C]. destruct (C c Hw) as (u & Hu & Pu & _). rewrite Hct in Hu. simplify_eq.
      apply lookupZ_Some_lt in Hz. rewrite (fr_parent _ _ _ _ Fr) in *. lia. }
  assert (Hy : is_socks (put c y t1) !!z c = Some y) by (cbn; rewrite lookupZ_insert_eq; [done|by apply lookupZ_Some_lt in Hct]).
  eapply (keep_moves _ Kernel c y); [done|exact Hy|by apply Fr|by apply Fr|]. intros Q Ok Ho Hi HQ.
  apply wp_bind, wp_send_segment; [done|done|done|]. intros bs h2 Sg S. apply (wp_arm_timer c _ Hi Kernel); [by eapply host_step_ok| |].
  { right. cbn. by apply succ_ne. }
  intros x' h3 G _ Ho3. eapply (HQ _ ([Sent bs] ++ [])); [|done]. eapply go_trans; [|exact G]. apply go_one; [|exact S]. eapply mv_send_syn; [|exact Sg]. cbn. by do 2 constructor.
Qed.

Lemma keep_syn_sent i x flags seq ack wnd s :
  inet_ok s → is_socks s !!z i = Some x → in_used x = true → in_kind x = INET_TCP → state_of x = TCP_SYN_SENT → 0 <= wnd →
  wp (on_syn_sent i flags seq ack wnd) (λ _ t, inet_ok t) s.
Proof.
  intros Hok Hx Eu Ek Es Hw. eapply (keep_moves _ Kernel); [done|exact Hx|done|done|]. intros Q Ok Ho Hi HQ. unfold on_syn_sent. apply wp_bind, wp_isock; [done|].
  destruct (_ && _); [|by apply wp_ret, (HQ _ []); [constructor|]].
  apply wp_bind, wp_isock_upd; [done|]. set (y := upd_timer _ _).
  assert (G : go Kernel x (is_host s) [] y (is_host s)).
  { apply go_one; [|by apply host_step_refl]. apply (mv_open Kernel x (in_tcb y) (in_timer y)); [rewrite Es; by constructor|done|done]. }
  apply wp_bind, (wp_send_ack _ _ Hi Kernel); [done|]. intros es h1 G1 Ho1. apply wp_wake; [done|done|]. intros h2 S2.
  apply (HQ tt ([] ++ es ++ [])); [|by eapply host_step_ok]. eapply go_trans; [exact G|]. eapply go_trans; [exact G1|]. apply go_one; [constructor|done].
Qed.
(** The end of the handshake of a connection that somebody listens for: there is room for it. *)
Lemma keep_syn_rcvd i x flags ack s :
  inet_ok s → is_socks s !!z i = Some x → in_used x = true → in_kind x = INET_TCP → state_of x = TCP_SYN_RCVD →
  wp (on_syn_rcvd i flags ack) (λ _ t, inet_ok t ∧ ∃ y, is_socks t !!z i = Some y ∧ in_used y = true ∧ in_kind y = INET_TCP) s.
Proof using KL IL.
  intros Hok Hx Eu Ek Es. pose proof Hok as [T M P]. destruct (inet_ok_sock _ _ _ Hok Hx) as (Lk & Bd & Hi & Hl).
  unfold on_syn_rcvd. apply wp_bind. eapply wp_place; [exact Hx|]. destruct (_ =? TCP_SYN).
  { apply wp_bind. eapply wp_mono; [by eapply keep_send|]. intros [] t (h' & -> & Ht). apply wp_ret. split; [done|]. by exists x. }
  destruct (_ || _); [apply wp_ret; split; [done|by exists x]|].
  apply wp_bind. eapply wp_place_upd; [exact Hx|]. set (y := upd_timer _ _). set (s1 := put i y s).
  assert (Hok1 : inet_ok s1).
  { apply (inet_ok_go Kernel i x y (is_host s) [] s); [done|done|done|done|]. apply go_one; [|apply host_step_refl, Hok].
    apply (mv_open Kernel x (in_tcb y) (in_timer y)); [rewrite Es; by do 2 constructor|done|]. destruct Bd as [B _ _ _]. by destruct (B Eu Ek). }
  assert (Hy : is_socks s1 !!z i = Some y) by (cbn; by rewrite lookupZ_insert_eq by lia).
  assert (Fin : ∀ t, inet_ok t → (∃ z, is_socks t !!z i = Some z ∧ in_used z = true ∧ in_kind z = INET_TCP) →
    wp (on_ih ih_wake_waiters;; mret true) (λ _ t, inet_ok t ∧ ∃ y, is_socks t !!z i = Some y ∧ in_used y = true ∧ in_kind y = INET_TCP) t).
  { intros t Ht Hz. apply wp_bind, wp_on_host, ih_wake_law; [apply Ht|]. intros h' S. apply wp_ret. split; [by eapply inet_ok_host|done]. }
  apply wp_bind. destruct (sl_parent _ _ Lk) as [Ep|(Hp & Hne & _)].
  { rewrite Ep. apply wp_ret, Fin; [done|]. by exists y. }
  set (p := in_parent x) in *. destruct (Z.eqb_spec p (-1)); [lia|].
  pose proof Hok1 as [T1 M1 _]. pose proof (tk_len _ _ _ T1) as Hlen1. destruct (lookupZ_lt_is_Some (is_socks s1) p) as [z Hz]; [lia|].
  assert (Hz0 : is_socks s !!z p = Some z) by (cbn in Hz; rewrite lookupZ_insert_ne in Hz by (done || lia); done).
  destruct (inet_ok_sock _ _ _ Hok Hz0) as (Lz & Bz & _). destruct (sl_len _ _ Lz) as [Ll Hb].
  destruct (tk_waiting _ _ _ T p z Hz0 (λ f, f)) as [Nd C].
  assert (Ni : i ∉ waiting z) by (intros Hw; destruct (C i Hw) as (u & Hu & _ & Hs); simplify_eq).
  assert (Hroom : in_backlog_len z < 16).
  { pose proof (tk_children _ _ _ T p ltac:(lia)) as Hch. unfold TCP_BACKLOG in Hch. pose proof (places_le (λ x, in_parent x = p) (is_socks s) (i :: waiting z)) as PL.
    unfold children in Hch. assert (Hlw : length (waiting z) = Z.to_nat (in_backlog_len z)) by (unfold waiting; rewrite length_take; unfold TCP_BACKLOG in *; lia).
    cbn [length] in PL. specialize (PL ltac:(by apply list.NoDup_cons)). 
    assert (S (length (waiting z)) <= length (filter (λ x, in_parent x = p) (is_socks s)))%nat; [|lia]. apply PL. intros c Hc. apply list.elem_of_cons in Hc as [->|Hc]; [by exists x|].
    destruct (C c Hc) as (u & Hu & Pu & _). by exists u. }
  apply wp_bind. eapply wp_place; [exact Hz|]. apply wp_bind. eapply wp_lift; [apply updateZ_is_Some; lia|].
  eapply wp_place_upd; [exact Hz|]. set (w := set_in_backlog _ _ z).
  assert (Ew : waiting w = waiting z ++ [i]).
  { unfold waiting, w. cbn [in_backlog in_backlog_len set_in_backlog]. rewrite Z2Nat.inj_add by lia. change (Z.to_nat 1) with 1%nat. rewrite Nat.add_1_r.
    rewrite (take_S_r _ _ i) by (apply list_lookup_insert_eq; lia). by rewrite take_insert_ge by lia. }
  assert (Hpl : 0 <= p < Z.of_nat (length (is_socks s1))) by lia.
  apply Fin.
  - constructor; [|apply lookupZ_nat in Hz as [Hz' _]; by eapply mem_ok_same|done].
    apply (table_put inet_sockets none none (is_socks s1) p z); [done|done| | |done|by left|].
    + destruct Lz as [LP _]. split; [done|cbn; rewrite length_insert; unfold TCP_BACKLOG in *; lia].
    + intros _. destruct Bz as [B1 B2 B3 B4]. split; [split; [intros; by destruct (B1 ltac:(done) ltac:(done))|intros; by destruct (B2 ltac:(done) ltac:(done))|done|done]|].
      rewrite Ew. split; [apply list.NoDup_app; split_and!; [done|intros c Hc Hc'; apply list_elem_of_singleton in Hc'; by subst|apply NoDup_singleton]|].
      intros c Hc. apply list.elem_of_app in Hc as [Hc|Hc]; [|apply list_elem_of_singleton in Hc as ->].
      * destruct (tk_waiting _ _ _ T1 p z Hz (λ f, f)) as [_ C1]. destruct (C1 c Hc) as (u & Hu & Pu). exists u. split; [|done].
        pose proof (child_ne _ _ _ _ _ T1 (C1 c Hc)). apply lookupZ_Some_lt in Hu as ?. rewrite lookupZ_insert_ne; [done|lia|done].
      * exists y. rewrite lookupZ_insert_ne by (done || lia). split_and!; [done|done|done].
    + intros q v Hqp _ Hv Hw. destruct (tk_waiting _ _ _ T1 q v Hv (λ f, f)) as [_ C1]. destruct (C1 p Hw) as (u & Hu & Pu & Su). rewrite Hz in Hu. by simplify_eq.
  - exists y. cbn. rewrite lookupZ_insert_ne by (done || (rewrite ?length_insert in *; cbn in Hpl; rewrite ?length_insert in Hpl; lia)). done.
Qed.
Lemma read_tcp_header_Some data : 20 <= Z.of_nat (length data) → ∃ h, read_tcp_header data = Some h.
Proof.
  intros Hl. unfold read_tcp_header. destruct (raw_field_Some data 0 2) as [? ->]; [lia|lia|]. destruct (raw_field_Some data 2 2) as [? ->]; [lia|lia|].
  destruct (raw_field_Some data 4 4) as [? ->]; [lia|lia|]. destruct (raw_field_Some data 8 4) as [? ->]; [lia|lia|].
  destruct (lookupZ_lt_is_Some data 12) as [? ->]; [lia|]. destruct (lookupZ_lt_is_Some data 13) as [? ->]; [lia|].
  destruct (raw_field_Some data 14 2) as [? ->]; [lia|lia|]. by eexists.
Qed.
Lemma keep_on_segment i x sg pad s :
  inet_ok s → is_socks s !!z i = Some x → in_used x = true → in_kind x = INET_TCP → 0 <= sg_wnd sg →
  wp (on_segment i (sg_flags sg) (sg_seq sg) (sg_ack sg) (sg_wnd sg) (sg_data sg ++ pad) (Z.of_nat (length (sg_data sg)))) (λ _ t, inet_ok t) s.
Proof using KL IL.
  intros Hok Hx Eu Ek Hw. destruct (inet_ok_sock _ _ _ Hok Hx) as (_ & [B _ _ _] & _ & Hi). eapply wp_at; [exact Hx|].
  apply wp_on_segment; [done|by apply B|apply Hok|done| |].
  - intros es y h' G _. by eapply inet_ok_go.
  - intros es y h' G Ho _ _ _. eapply keep_free; [by eapply inet_ok_go|]. cbn. by rewrite lookupZ_insert_eq.
Qed.
(** Whatever segment arrives. *)
Lemma keep_tcp_deliver src_ip data len s :
  inet_ok s → len <= Z.of_nat (length data) → wp (inet_tcp_deliver inet_sockets src_ip data len) (λ _ t, inet_ok t) s.
Proof using KL IL.
  intros Hok Hlen. unfold inet_tcp_deliver. destruct (Z.ltb_spec len SIZEOF_TCP_HEADER) as [|H20]; [by apply wp_ret|]. unfold SIZEOF_TCP_HEADER in *.
  destruct (read_tcp_header_Some data) as [h Hh]; [lia|]. apply wp_bind. eapply wp_lift; [exact Hh|]. cbv zeta.
  set (hlen := u16 (Z.shiftr (th_offset h) 4 * 4)). pose proof (u16_range (Z.shiftr (th_offset h) 4 * 4)) as Hhl. fold hlen in Hhl.
  destruct (Z.ltb_spec hlen 20); cbn [orb]; [by apply wp_ret|]. destruct (Z.ltb_spec len hlen); [by apply wp_ret|].
  apply wp_bind, find_tcp_spec; [change (-1 =? -1) with true; by apply keep_passive_open|]. intros i x Hx Eu Ek Hi1. rewrite (proj2 (Z.eqb_neq _ _) Hi1).
  apply wp_bind. eapply wp_place; [exact Hx|]. destruct (has (th_flags h) TCP_RST); [eapply keep_reset; try done; by case_decide|].
  pose proof (net_htons_range (th_window h)) as Hw. destruct (decide (state_of x = TCP_SYN_SENT)); [eapply keep_syn_sent; try done; lia|].
  set (rest := drop (Z.to_nat hlen) data). set (sg := MkSeg (th_flags h) (net_htonl (th_seq h)) (net_htonl (th_ack h)) (net_htons (th_window h)) (take (Z.to_nat (len - hlen)) rest)).
  assert (Ls : Z.of_nat (length (sg_data sg)) = len - hlen) by (cbn; rewrite length_take; unfold rest; rewrite length_drop; lia).
  assert (Seg : ∀ t y, inet_ok t → is_socks t !!z i = Some y → in_used y = true → in_kind y = INET_TCP →
    wp (on_segment i (th_flags h) (net_htonl (th_seq h)) (net_htonl (th_ack h)) (net_htons (th_window h)) rest (len - hlen)) (λ _ t, inet_ok t) t).
  { intros t y Ht Hy Eu' Ek'. rewrite <- Ls. replace rest with (sg_data sg ++ drop (Z.to_nat (len - hlen)) rest) by (cbn; apply take_drop).
    apply (keep_on_segment i y sg); try done. cbn. lia. }
  apply wp_bind. destruct (decide (state_of x = TCP_SYN_RCVD)).
  - eapply wp_mono; [by eapply keep_syn_rcvd|]. intros go t (Ht & y & Hy & Eu' & Ek'). destruct go; [by eapply Seg|by apply wp_ret].
  - apply wp_ret. by eapply Seg.
Qed.
Lemma dgram_lookup x k : udp_ok x → 0 <= k < UDP_QUEUE → ∃ d, uq_slots (in_udp x) !!z k = Some d ∧ dgram_ok d.
Proof.
  intros [(Ll & _) F] Hk. destruct (lookupZ_lt_is_Some (uq_slots (in_udp x)) k) as [d Hd]; [lia|]. exists d. split; [done|].
  unfold lookupZ in Hd. destruct (k <? 0); [done|]. rewrite Forall_lookup in F. by eapply F.
Qed.
(** A UDP socket that only its queue changes of. *)
Lemma inet_ok_udp i x q s :
  inet_ok s → is_socks s !!z i = Some x → in_used x = true → in_kind x = INET_UDP → uq_ptr q = uq_ptr (in_udp x) → udp_ok (set_in_udp q x) → inet_ok (put i (set_in_udp q x) s).
Proof.
  intros Hok Hx Eu Ek Eq Hu. destruct (inet_ok_sock _ _ _ Hok Hx) as ([LP LL] & [B1 B2 B3 B4] & _).
  apply (inet_ok_update i x); try done; [constructor; [cbn; congruence|done|done|cbn; congruence]|unfold sock_blocks; cbn; by rewrite Eq].
Qed.
Lemma keep_udp_deliver src_ip src_port dst_port data len s :
  inet_ok s → 0 <= len → Z.min UDP_MAX_DGRAM len <= Z.of_nat (length data) → wp (inet_udp_deliver src_ip src_port dst_port data len) (λ _ t, inet_ok t) s.
Proof.
  intros Hok H0 Hlen. unfold inet_udp_deliver. wp_steps.
  destruct (find_socket_spec (udp_takes src_ip src_port dst_port) (is_socks s)) as [[-> _]|(x & Hx & Px)]; [by apply wp_ret|].
  set (i := find_socket _ _) in *. apply lookupZ_Some_lt in Hx as Hi. destruct (Z.eqb_spec i (-1)); [lia|].
  rename n into Hi1. unfold udp_takes in Px. rewrite !andb_true_iff in Px. destruct Px as [[[Eu Ek%bool_decide_eq_true_1] _] _].
  apply wp_bind. eapply wp_place; [exact Hx|]. cbv zeta. destruct (inet_ok_sock _ _ _ Hok Hx) as (_ & [_ B2 _ _] & _). specialize (B2 Eu Ek).
  pose proof B2 as [(Ll & Hh & Hc) F]. destruct (Z.eqb_spec (uq_count (in_udp x)) UDP_QUEUE) as [|Hq]; [by apply wp_ret|].
  destruct (dgram_lookup x ((uq_head (in_udp x) + uq_count (in_udp x)) mod UDP_QUEUE) B2) as (d & Hd & Ld & _); [by apply Z.mod_pos_bound|].
  apply wp_bind. eapply wp_lift; [exact Hd|].
  assert (En : (if UDP_MAX_DGRAM <? len then UDP_MAX_DGRAM else len) = Z.min UDP_MAX_DGRAM len) by (destruct (Z.ltb_spec UDP_MAX_DGRAM len); lia). rewrite En.
  set (n := Z.min UDP_MAX_DGRAM len) in *. assert (Hn : 0 <= n <= 1500) by (unfold n, UDP_MAX_DGRAM; lia).
  apply wp_bind. eapply wp_lift; [apply read_range_spec; lia|]. unfold spec_read. change (drop (Z.to_nat 0) data) with data.
  destruct (write_front (ud_data d) (take (Z.to_nat n) data)) as (bs & Hbs & Lb & _); [rewrite length_take; lia|].
  apply wp_bind. eapply wp_lift; [exact Hbs|].
  destruct (ring_push zero_dgram UDP_QUEUE ltac:(done) (uq_slots (in_udp x)) (uq_head (in_udp x)) (uq_count (in_udp x)) (MkDgram n src_ip src_port bs)) as (slots & Hs & Wf & _);
    [done|unfold UDP_QUEUE in *; lia|].
  apply wp_bind. eapply wp_lift; [exact Hs|]. apply wp_bind. eapply wp_place_upd; [exact Hx|]. apply keep_wake.
  apply inet_ok_udp; [done|done|done|done|done|]. constructor; [exact Wf|]. cbn. apply updateZ_Some_inv in Hs as [_ ->].
  apply Forall_insert; [done|]. split; cbn; [by rewrite Lb|unfold UDP_MAX_DGRAM; lia].
Qed.

(** ** Lemmas: the clock *)
Lemma keep_tick_socket now i s : inet_ok s → 0 <= i < INET_MAX_SOCKETS → wp (tick_socket now i) (λ _ t, inet_ok t) s.
Proof using KL IL.
  intros Hok Hi. pose proof (tk_len _ _ _ (io_table _ _ Hok)) as Hlen. destruct (lookupZ_lt_is_Some (is_socks s) i) as [x Hx]; [lia|].
  unfold tick_socket. apply wp_bind. eapply wp_place; [exact Hx|]. cbv zeta.
  destruct (in_used x) eqn:Eu; cbn [negb orb]; [|by apply wp_ret]. case_bool_decide as Ek; cbn [negb]; [|by apply wp_ret].
  destruct (in_orphan x && _ && _); [by eapply keep_free|]. destruct (Z.eqb_spec (tm_deadline (in_timer x)) 0) as [|Hd]; cbn [orb]; [by apply wp_ret|].
  destruct (now <? tm_deadline (in_timer x)); [by apply wp_ret|].
  assert (Put : ∀ m, is_socks (put i (set_in_timer m x) s) !!z i = Some (set_in_timer m x)) by (intros m; cbn; by rewrite lookupZ_insert_eq by lia).
  apply wp_bind. eapply wp_place_upd; [exact Hx|]. set (m1 := set_retries (tm_retries (in_timer x) + 1) (in_timer x)).
  change (upd_timer (set_retries (tm_retries (in_timer x) + 1)) x) with (set_in_timer m1 x).
  destruct (TCP_MAX_RETRIES <? _).
  - assert (Hok1 : inet_ok (put i (set_in_timer m1 x) s)).
    { apply (inet_ok_go Kernel i x _ (is_host s) [] s); [done|done|done|done|]. apply go_one; [apply mv_timer; by left|apply host_step_refl, Hok]. }
    eapply keep_reset; [by case_decide|exact Hok1|apply Put|done|done].
  - apply wp_bind. eapply wp_place_upd; [apply Put|]. set (rto := if _ <? _ then _ else _). set (m2 := set_deadline (u64 (now + rto)) (set_rto rto m1)).
    change (upd_timer _ (set_in_timer m1 x)) with (set_in_timer m2 x).
    assert (E : put i (set_in_timer m2 x) (put i (set_in_timer m1 x) s) = St i s (set_in_timer m2 x) (is_host s)) by (unfold put, set_is_socks, St; cbn; by rewrite list_insert_insert_eq).
    rewrite E. destruct (inet_ok_sock _ _ _ Hok Hx) as (_ & [B _ _ _] & _). apply wp_tick_resend; [lia|by apply B|apply Hok|done|]. intros es y h' G _. by eapply inet_ok_go.
Qed.
Lemma keep_tick s : inet_ok s → wp inet_tick (λ _ t, inet_ok t) s.
Proof using KL IL.
  intros Hok. unfold inet_tick. apply wp_bind, wp_on_host, ih_uptime_ms_law; [apply Hok|]. intros now h' _ S.
  eapply wp_mono; [apply (wp_for_range _ _ _ (λ _ t, inet_ok t)); [by eapply inet_ok_host|]|done].
  intros k t Hk Ht. apply keep_tick_socket; [done|]. unfold INET_MAX_SOCKETS in *. lia.
Qed.

(** ** Lemmas: files *)

(** A file without a node, the file of a socket, or a file of someone else. *)
Definition file_ok (file : VFile) (s : inetst) : Prop :=
  f_node file = 0 ∨ (∃ i, 0 <= i < INET_MAX_SOCKETS ∧ f_node file = inet_sockets + i * SIZEOF_INET_SOCKET + INET_NODE_OFFSET) ∨
  ih_other_node (is_host s) (f_node file).
Lemma wp_from_file file s (Q : Z → inetst → Prop) :
  inet_ok s → file_ok file s →
  (∀ t, inet_ok t → Q (-1) t) → (∀ i x, is_socks s !!z i = Some x → in_used x = true → i ≠ -1 → Q i s) → wp (inet_from_file inet_sockets file) Q s.
Proof.
  intros Hok Hf HN HS. unfold inet_from_file. destruct (Z.eqb_spec (f_node file) 0) as [|Hnz]; [by apply wp_ret, HN|]. cbv zeta.
  set (off := f_node file - inet_sockets - INET_NODE_OFFSET). pose proof (tk_len _ _ _ (io_table _ _ Hok)) as Hlen.
  destruct ((0 <=? off / SIZEOF_INET_SOCKET) && (off / SIZEOF_INET_SOCKET <? INET_MAX_SOCKETS) && (off mod SIZEOF_INET_SOCKET =? 0)) eqn:E.
  - rewrite !andb_true_iff in E. destruct E as [[E1%Z.leb_le E2%Z.ltb_lt] _]. set (i := off / SIZEOF_INET_SOCKET) in *.
    destruct (lookupZ_lt_is_Some (is_socks s) i) as [x Hx]; [lia|]. apply wp_bind. eapply wp_place; [exact Hx|]. apply wp_ret.
    destruct (inet_ok_sock _ _ _ Hok Hx) as (_ & [_ _ B3 B4] & _). destruct (Z.eqb_spec (v_file_ops (in_node x)) INET_FILE_OPS) as [Eo|]; [|by apply HN].
    destruct (in_used x) eqn:Eu; [|by destruct (B4 eq_refl) as (_ & _ & B)]. rewrite (B3 eq_refl).
    replace ((inet_sockets + i * SIZEOF_INET_SOCKET - inet_sockets) / SIZEOF_INET_SOCKET) with i; [by eapply HS; [exact Hx| |lia]|].
    replace (inet_sockets + i * SIZEOF_INET_SOCKET - inet_sockets) with (i * SIZEOF_INET_SOCKET) by lia. by rewrite Z.div_mul.
  - destruct Hf as [?|[(i & Hi & Ef)|Ho]]; [done| |].
    + exfalso. assert (Eoff : off = i * SIZEOF_INET_SOCKET) by (unfold off; rewrite Ef; lia). rewrite Eoff, Z.div_mul, Z_mod_mult in E by done.
      destruct (Z.leb_spec 0 i), (Z.ltb_spec i INET_MAX_SOCKETS); lia.
    + apply wp_bind, wp_on_host, ih_file_ops_law; [apply Hok|done|]. intros ops h' Hne S. destruct (Z.eqb_spec ops INET_FILE_OPS); [done|].
      apply wp_ret, HN. by eapply inet_ok_host.
Qed.

Lemma kinds k : k = INET_TCP ∨ k = INET_UDP.
Proof. destruct k; [by left|by right]. Qed.
Lemma keep_read file count s : inet_ok s → file_ok file s → 0 <= count → wp (inet_read inet_sockets file count) (λ _ t, inet_ok t) s.
Proof using KL IL.
  intros Hok Hf Hc. unfold inet_read. apply wp_bind, wp_from_file; [done|done|intros t Ht; change (-1 =? -1) with true; by apply wp_ret|].
  intros i x Hx Eu Hi1. rewrite (proj2 (Z.eqb_neq _ _) Hi1). apply wp_bind. eapply wp_place; [exact Hx|]. cbv zeta.
  destruct (inet_ok_sock _ _ _ Hok Hx) as (_ & [B1 B2 _ _] & _ & Hi). destruct (decide (in_kind x = INET_UDP)) as [Ek|Ek].
  - destruct (Z.ltb_spec 0 (uq_count (in_udp x))) as [Hq|]; [|by apply wp_ret]. specialize (B2 Eu Ek). pose proof B2 as [(Ll & Hh & Hqc) F].
    destruct (dgram_lookup x (uq_head (in_udp x)) B2 ltac:(lia)) as (d & Hd & Ld & Hdl).
    set (n := if count <? ud_len d then count else ud_len d). assert (Hn : 0 <= n <= 1500) by (unfold n, UDP_MAX_DGRAM in *; destruct (Z.ltb_spec count (ud_len d)); lia).
    apply wp_bind. eapply wp_lift. { unfold udp_take. rewrite Hd. cbn [mbind option_bind]. fold n. rewrite read_range_spec by lia. reflexivity. }
    apply wp_bind. eapply wp_place_upd; [exact Hx|]. apply wp_ret. apply inet_ok_udp; [done|done|done|done|done|]. constructor; [|exact F].
    split_and!; cbn; [done|apply Z.mod_pos_bound; done|apply Z.mod_pos_bound; done|lia|lia].
  - destruct (kinds (in_kind x)) as [Ek'|]; [|done]. destruct (decide (state_of x = TCP_LISTEN)); [by apply wp_ret|].
    destruct (0 <? rr_count (in_rx x)); [|destruct (_ || _); by apply wp_ret]. specialize (B1 Eu Ek').
    destruct (rx_take_spec count x B1 Hc) as (Er & _). apply wp_bind. eapply wp_lift; [exact Er|]. cbn [fst snd].
    eapply (keep_moves _ Program i x); [done|exact Hx|done|done|]. intros Q Ok Ho Hi' HQ.
    apply wp_bind, wp_isock_upd; [done|]. set (y := set_in_rx _ x) in *. set (bs := take _ _) in *.
    assert (Mv : go Program x (is_host s) [Took bs] y (is_host s)) by (apply go_one; [by eapply mv_took|by apply host_step_refl]).
    apply wp_bind. destruct (_ && _).
    + apply (wp_send_ack _ _ Hi' Program); [done|]. intros es h1 G1 Ho1. apply wp_ret. eapply HQ; [by eapply go_trans|done].
    + apply wp_ret, wp_ret. by eapply HQ.
Qed.
Lemma keep_write file buf s : inet_ok s → file_ok file s → bytes buf → wp (inet_write inet_sockets file buf) (λ _ t, inet_ok t) s.
Proof using KL IL.
  intros Hok Hf Hbuf. unfold inet_write. apply wp_bind, wp_from_file; [done|done|intros t Ht; change (-1 =? -1) with true; by apply wp_ret|].
  intros i x Hx Eu Hi1. rewrite (proj2 (Z.eqb_neq _ _) Hi1). apply wp_bind. eapply wp_place; [exact Hx|].
  destruct (inet_ok_sock _ _ _ Hok Hx) as (_ & [B1 B2 _ _] & _ & Hi). destruct (decide (in_kind x = INET_UDP)) as [Ek|Ek].
  - destruct (negb (in_connected x)); [by apply wp_ret|]. cbv zeta. apply wp_bind, wp_on_host, ih_udp_send_law; [apply Hok|by apply Forall_take|rewrite length_take; unfold UDP_MAX_DGRAM; lia|].
    intros out h' S _. apply wp_ret. by eapply inet_ok_host.
  - destruct (kinds (in_kind x)) as [Ek'|]; [|done]. eapply (keep_moves _ Program i x); [done|exact Hx|done|done|]. intros Q Ok Ho Hi' HQ.
    apply wp_tcp_write; [done|done|done|]. intros r es y h' G Ho' _ _ _ _. by eapply HQ.
Qed.
Lemma keep_poll file s : inet_ok s → file_ok file s → wp (inet_poll inet_sockets file) (λ _ t, inet_ok t) s.
Proof.
  intros Hok Hf. unfold inet_poll. apply wp_bind, wp_from_file; [done|done|intros t Ht; change (-1 =? -1) with true; by apply wp_ret|].
  intros i x Hx Eu Hi1. rewrite (proj2 (Z.eqb_neq _ _) Hi1). apply wp_bind. eapply wp_place; [exact Hx|].
  destruct (decide _); [by apply wp_ret|]. destruct (decide _); by apply wp_ret.
Qed.
(** A field that no invariant speaks of. *)
Lemma keep_ioctl file request arg s : inet_ok s → file_ok file s → wp (inet_ioctl inet_sockets file request arg) (λ _ t, inet_ok t) s.
Proof.
  intros Hok Hf. unfold inet_ioctl. apply wp_bind, wp_from_file; [done|done|intros t Ht; change (-1 =? -1) with true; by apply wp_ret|].
  intros i x Hx Eu Hi1. rewrite (proj2 (Z.eqb_neq _ _) Hi1). destruct arg as [v|]; [|by apply wp_ret]. destruct (negb _); [by apply wp_ret|].
  apply wp_bind. eapply wp_place_upd; [exact Hx|]. apply wp_ret. destruct (inet_ok_sock _ _ _ Hok Hx) as ([LP LL] & [B1 B2 B3 B4] & _).
  apply (inet_ok_update i x); try done. constructor; [intros; by destruct (B1 ltac:(done) ltac:(done))|intros; by destruct (B2 ltac:(done) ltac:(done))|done|done].
Qed.
Lemma keep_close file s : inet_ok s → file_ok file s → wp (inet_close inet_sockets file) (λ _ t, inet_ok t) s.
Proof using KL IL.
  intros Hok Hf. unfold inet_close. apply wp_bind, wp_from_file; [done|done|intros t Ht; change (-1 =? -1) with true; by apply wp_ret|].
  intros i x Hx Eu Hi1. rewrite (proj2 (Z.eqb_neq _ _) Hi1). apply wp_bind. eapply wp_place; [exact Hx|]. apply wp_bind.
  assert (Fin : wp (inet_free free_depth i) (λ _ t, wp (mret 0) (λ _ t, inet_ok t) t) s).
  { eapply wp_mono; [by eapply keep_free|]. intros [] t Ht. by apply wp_ret. }
  destruct (inet_ok_sock _ _ _ Hok Hx) as (_ & [B1 B2 _ _] & _ & Hi).
  case_bool_decide as H1; [|case_bool_decide as H2; [|done]].
  - destruct H1 as [Ek Hst]. eapply wp_mono; [eapply (keep_moves _ Closing i x); [done|exact Hx|done|done|]|intros [] t Ht; by apply wp_ret].
    intros Q Ok Ho Hi' HQ. apply wp_bind, wp_on_ih, ih_uptime_ms_law; [done|]. intros now h1 _ S1. apply wp_bind, wp_isock_upd; [done|].
    set (y := upd_timer _ _). assert (Mv : move Closing x [] y) by by apply mv_close.
    apply wp_tcp_output; [done|by eapply move_ok|by eapply host_step_ok|]. intros es z h2 G Ho2. apply (HQ _ ([] ++ es)); [|done]. eapply go_move; [exact Mv|done|by apply go_inc].
  - destruct H2 as [Ek Hst]. apply wp_bind. eapply wp_mono; [by eapply keep_send|]. intros [] t (h' & -> & Ht).
    eapply wp_mono; [by eapply keep_free|]. intros [] t' Ht'. by apply wp_ret.
Qed.

(** ** Lemmas: connecting and accepting *)

(** A socket with new numbers and flags. *)
Lemma inet_ok_relabel i x y s :
  inet_ok s → is_socks s !!z i = Some x → in_used y = in_used x → in_kind y = in_kind x → in_node y = in_node x → in_parent y = in_parent x →
  in_backlog y = in_backlog x → in_backlog_len y = in_backlog_len x → in_rx y = in_rx x → in_tx y = in_tx x → in_udp y = in_udp x →
  (in_connected x = true → in_connected y = true) → tc_wnd (in_tcb y) = tc_wnd (in_tcb x) →
  (state_of y = TCP_LISTEN → state_of x = TCP_LISTEN ∨ in_connected x = false) → (state_of y = TCP_SYN_RCVD → state_of x = TCP_SYN_RCVD) → inet_ok (put i y s).
Proof.
  intros Hok Hx Eu Ek En Ep Eb El Erx Etx Eud Hc Ew HL HS. destruct (inet_ok_sock _ _ _ Hok Hx) as ([LP LL] & [B1 B2 B3 B4] & _).
  assert (Er : sock_runs y = sock_runs x) by (unfold sock_runs; by rewrite Erx, Etx). assert (Ebk : sock_blocks y = sock_blocks x) by (unfold sock_blocks; by rewrite Eud).
  apply (inet_ok_update i x); try done.
  - split; [|by rewrite Eb, El]. rewrite Ep, Eu, Ek. destruct LP as [?|(?&?&?&?&Hcx&?)]; [by left|right]. split_and!; try done; try lia; [by apply Hc|].
    intros E. destruct (HL E); congruence.
  - constructor; rewrite ?Eu, ?Ek, ?Er, ?Ebk, ?En; try done.
    + intros E1 E2. destruct (B1 E1 E2). constructor; rewrite ?Erx, ?Etx, ?Ew; done.
    + intros E1 E2. destruct (B2 E1 E2). constructor; rewrite ?Eud; done.
  - unfold waiting. by rewrite Eb, El.
Qed.
Ltac relabel i x := apply (inet_ok_relabel i x); first [done|by left|by right|by intros ?; left].
Lemma put_lookup i x y (s : inetst) : is_socks s !!z i = Some x → is_socks (put i y s) !!z i = Some y.
Proof. intros Hx. cbn. rewrite lookupZ_insert_eq; [done|by apply lookupZ_Some_lt in Hx]. Qed.

Lemma keep_connect_turn i start x s :
  inet_ok s → is_socks s !!z i = Some x → in_used x = true → in_kind x = INET_TCP → wp (inet_connect_turn i start) (λ _ t, inet_ok t) s.
Proof.
  intros Hok Hx Eu Ek. unfold inet_connect_turn. apply wp_bind. eapply wp_place; [exact Hx|].
  destruct (decide (state_of x = TCP_SYN_SENT)); [|by apply wp_ret].
  apply wp_bind, wp_on_host, ih_uptime_ms_law; [apply Hok|]. intros now h' _ S. pose proof (inet_ok_host _ _ _ Hok S) as Hok1. cbv zeta.
  destruct (TCP_CONNECT_MS <=? _); [|by apply wp_ret]. apply wp_bind. eapply wp_mono; [by eapply keep_send|]. intros [] t (h2 & -> & Ht).
  apply wp_bind. eapply wp_place_upd; [exact Hx|]. apply wp_ret. relabel i x.
Qed.
Lemma keep_connect_start i ip port x s :
  inet_ok s → is_socks s !!z i = Some x → in_used x = true → in_kind x = INET_TCP → in_connected x = false →
  wp (connect_start i ip port) (λ _ t, inet_ok t ∧ ∃ y, is_socks t !!z i = Some y ∧ in_used y = true ∧ in_kind y = INET_TCP) s.
Proof.
  intros Hok Hx Eu Ek Ec. pose proof (tk_len _ _ _ (io_table _ _ Hok)) as Hlen. unfold connect_start. apply wp_bind. eapply wp_place_upd; [exact Hx|].
  set (x1 := set_in_remote ip port x). set (s1 := put i x1 s). assert (Hok1 : inet_ok s1) by relabel i x.
  pose proof (put_lookup i x x1 s Hx) as Hx1. apply wp_bind, wp_alloc_port; [apply (tk_len _ _ _ (io_table _ _ Hok1))|apply Hok1|]. intros p next _ _ Hn.
  pose proof (inet_ok_next s1 next Hok1 Hn) as Hok2. set (s2 := Inetst _ next _ _) in *. apply wp_bind. eapply (wp_place_upd i x1); [exact Hx1|].
  set (x3 := set_in_local_port p x1). set (s3 := put i x3 s2). assert (Hok3 : inet_ok s3) by relabel i x1.
  pose proof (put_lookup i x1 x3 s2 Hx1) as Hx3. apply wp_bind, wp_random; [done|]. intros iss h4 Hiss Hok4. set (s4 := Inetst _ _ iss h4) in *.
  apply wp_bind. eapply (wp_place_upd i x3); [exact Hx3|]. set (x5 := set_in_connected _ _). set (s5 := put i x5 s4).
  assert (Hok5 : inet_ok s5) by relabel i x3. pose proof (put_lookup i x3 x5 s4 Hx3) as Hx5.
  eapply wp_at; [exact Hx5|]. destruct (inet_ok_sock _ _ _ Hok5 Hx5) as (_ & [B _ _ _] & _ & Hi5). specialize (B Eu Ek). fold s5 in Hx5.
  apply wp_bind, wp_send_segment; [done|apply Hok5|done|]. intros bs h6 Sg S. apply (wp_arm_timer i s5 Hi5 Kernel); [by eapply host_step_ok| |].
  { right. cbn. by apply succ_ne. }
  intros y h7 G Ey Ho7. assert (G' : go Kernel x5 (is_host s5) ([Sent bs] ++ []) y h7).
  { eapply go_trans; [|exact G]. apply go_one; [|exact S]. eapply mv_send_syn; [|exact Sg]. by constructor. }
  split; [by eapply inet_ok_go|]. exists y. split; [cbn; by rewrite lookupZ_insert_eq|]. destruct (go_ok _ _ _ _ _ _ G' B) as [_ []]. by rewrite sc_used, sc_kind.
Qed.
Lemma keep_connect file name s : inet_ok s → file_ok file s → wp (inet_connect inet_sockets file name) (λ _ t, inet_ok t) s.
Proof.
  intros Hok Hf. unfold inet_connect. apply wp_bind, wp_from_file; [done|done|intros t Ht; destruct name; by apply wp_ret|].
  intros i x Hx Eu Hi1. destruct name as [name|]; [|by apply wp_ret]. rewrite (proj2 (Z.eqb_neq _ _) Hi1).
  apply wp_bind, wp_on_host, ih_is_up_law; [apply Hok|]. intros up h' S. pose proof (inet_ok_host _ _ _ Hok S) as Hok1. destruct up; cbn [negb]; [|by apply wp_ret].
  destruct (inet_parse_addr name) as [[ip port]|]; [|by apply wp_ret]. apply wp_bind. eapply wp_place; [exact Hx|].
  destruct (port =? 0); [by apply wp_ret|]. destruct (decide (in_kind x = INET_UDP)) as [Ek|Ek].
  { apply wp_bind. eapply wp_place_upd; [exact Hx|]. apply wp_ret. relabel i x. }
  destruct (kinds (in_kind x)) as [Ek'|]; [|done]. destruct (negb _); cbn [orb]; [by apply wp_ret|]. destruct (in_connected x) eqn:Ec; [by apply wp_ret|].
  apply wp_bind. eapply wp_mono; [by apply (keep_connect_start i ip port x)|]. intros [] t (Ht & y & Hy & Euy & Eky).
  destruct (in_nonblock x); [by apply wp_ret|]. apply wp_bind, wp_on_host, ih_uptime_ms_law; [apply Ht|]. intros start h2 _ S2.
  apply wp_bind. eapply wp_mono; [eapply (keep_connect_turn i start y); [by eapply inet_ok_host|done|done|done]|]. intros r u Hu. by apply wp_ret.
Qed.
Lemma keep_bind file name s : inet_ok s → file_ok file s → wp (inet_bind inet_sockets file name) (λ _ t, inet_ok t) s.
Proof.
  intros Hok Hf. unfold inet_bind. apply wp_bind, wp_from_file; [done|done|intros t Ht; destruct name; by apply wp_ret|].
  intros i x Hx Eu Hi1. destruct name as [name|]; [|by apply wp_ret]. rewrite (proj2 (Z.eqb_neq _ _) Hi1).
  destruct (inet_parse_addr name) as [[ip port]|]; [|by apply wp_ret]. apply wp_bind. eapply wp_place; [exact Hx|]. apply wp_bind, wp_gets.
  destruct (port =? 0); [by apply wp_ret|]. destruct (_ || _); [by apply wp_ret|]. destruct (existsb _ _); [by apply wp_ret|].
  apply wp_bind. eapply wp_place_upd; [exact Hx|]. apply wp_ret. relabel i x.
Qed.
Lemma keep_listen file s : inet_ok s → file_ok file s → wp (inet_listen inet_sockets file) (λ _ t, inet_ok t) s.
Proof.
  intros Hok Hf. unfold inet_listen. apply wp_bind, wp_from_file; [done|done|intros t Ht; change (-1 =? -1) with true; by apply wp_ret|].
  intros i x Hx Eu Hi1. rewrite (proj2 (Z.eqb_neq _ _) Hi1). apply wp_bind. eapply wp_place; [exact Hx|].
  destruct (negb (bool_decide (in_kind x = INET_TCP))); cbn [orb]; [by apply wp_ret|]. destruct (negb _); cbn [orb]; [by apply wp_ret|].
  destruct (in_connected x) eqn:Ec; cbn [orb]; [by apply wp_ret|]. destruct (_ =? 0); [by apply wp_ret|].
  apply wp_bind. eapply wp_place_upd; [exact Hx|]. apply wp_ret. apply (inet_ok_relabel i x); try done. by right.
Qed.
(** A descriptor for a socket, or a negative number. *)
Lemma wp_install_fd i s (Q : Z → inetst → Prop) : inet_ok s → (∀ fd h', inet_ok (with_host h' s) → Q fd (with_host h' s)) → wp (inet_install_fd inet_sockets i) Q s.
Proof.
  intros Hok HQ. unfold inet_install_fd. apply wp_bind, wp_on_host, ih_fd_alloc_law; [apply Hok|]. intros fd h1 S1 Hfd. pose proof (inet_ok_host _ _ _ Hok S1) as Hok1.
  destruct (Z.eqb_spec fd FD_INVALID) as [|Hne]; [by apply wp_ret, HQ|]. destruct (Hfd Hne) as [_ Hfr].
  apply wp_bind, wp_on_host, ih_fd_set_law; [by eapply host_step_ok|done|]. intros h2 S2. apply wp_ret.
  apply (HQ fd h2). by apply (inet_ok_host (with_host h1 s) _ _ Hok1 S2).
Qed.
Lemma keep_socket_create flags s : inet_ok s → wp (inet_socket_create inet_sockets flags) (λ _ t, inet_ok t) s.
Proof using KL IL.
  intros Hok. unfold inet_socket_create. apply wp_bind, wp_inet_alloc; [done| |intros t Ht; change (-1 =? -1) with true; by apply wp_ret].
  intros i x0 x t Hx0 _ _ Et Ht. apply lookupZ_Some_lt in Hx0 as Hi. destruct (Z.eqb_spec i (-1)); [lia|].
  apply wp_bind, wp_install_fd; [done|]. intros fd h' Hok'. apply wp_bind. destruct (fd <? 0); [|apply wp_ret; by apply wp_ret].
  eapply wp_mono; [eapply (keep_free i x); [done|cbn; rewrite Et; by rewrite lookupZ_insert_eq]|]. intros [] u Hu. by apply wp_ret.
Qed.
(** The first that waits leaves the backlog. *)
Lemma shift_backlog_spec l n : length l = 16%nat → 0 < n <= 16 →
  length (shift_backlog l n) = 16%nat ∧ ∃ c, l !!z 0 = Some c ∧ take (Z.to_nat n) l = c :: take (Z.to_nat (n - 1)) (shift_backlog l n).
Proof.
  intros Ll Hn. unfold shift_backlog. split; [rewrite length_app, length_take, !length_drop; lia|]. destruct l as [|c l]; [done|]. exists c. split; [done|].
  replace (Z.to_nat n) with (S (Z.to_nat (n - 1))) by lia. cbn [take drop]. f_equal. cbn in Ll. rewrite drop_0, take_app_length' by (rewrite length_take; lia). done.
Qed.
Lemma keep_accept file s : inet_ok s → file_ok file s → wp (inet_accept inet_sockets file) (λ _ t, inet_ok t) s.
Proof using KL IL.
  intros Hok Hf. unfold inet_accept. apply wp_bind, wp_from_file; [done|done|intros t Ht; change (-1 =? -1) with true; by apply wp_ret|].
  intros i x Hx Eu Hi1. rewrite (proj2 (Z.eqb_neq _ _) Hi1). apply wp_bind. eapply wp_place; [exact Hx|]. destruct (_ || _); [by apply wp_ret|].
  destruct (Z.ltb_spec 0 (in_backlog_len x)) as [Hb|]; [|by apply wp_ret]. destruct (inet_ok_sock _ _ _ Hok Hx) as (Lx & Bx & _ & Hi). destruct (sl_len _ _ Lx) as [Ll Hbl].
  destruct (shift_backlog_spec (in_backlog x) (in_backlog_len x) Ll) as (Ll' & c & Hc & Ew); [unfold TCP_BACKLOG in *; lia|].
  pose proof Hok as [T M P]. destruct (tk_waiting _ _ _ T i x Hx (λ f, f)) as [Nd C]. set (x1 := set_in_backlog (shift_backlog (in_backlog x) (in_backlog_len x)) (in_backlog_len x - 1) x).
  assert (Ew1 : waiting x = c :: waiting x1) by exact Ew. rewrite Ew1 in Nd, C. apply list.NoDup_cons in Nd as [Nc Nd].
  destruct (C c ltac:(by left)) as (y & Hy & Py & Sy). pose proof (child_ne _ _ _ _ _ T (C c ltac:(by left))) as Hci.
  apply wp_bind. eapply wp_lift; [exact Hc|]. apply wp_bind. eapply wp_place_upd; [exact Hx|]. fold x1. set (s1 := put i x1 s).
  assert (Hok1 : inet_ok s1).
  { constructor; [|apply lookupZ_nat in Hx as [Hx' _]; by eapply mem_ok_same|done]. apply (table_put inet_sockets none none (is_socks s) i x); [done|done| | |done|by left|].
    - destruct Lx as [LP _]. split; [done|]. split; [done|cbn; unfold TCP_BACKLOG in *; lia].
    - intros _. destruct Bx as [B1 B2 B3 B4]. split; [split; [intros; by destruct (B1 ltac:(done) ltac:(done))|intros; by destruct (B2 ltac:(done) ltac:(done))|done|done]|].
      split; [done|]. intros d Hd. destruct (C d ltac:(by right)) as (u & Hu & Pu). exists u. split; [|done].
      pose proof (child_ne _ _ _ _ _ T (C d ltac:(by right))). apply lookupZ_Some_lt in Hu as ?. rewrite lookupZ_insert_ne; [done|lia|done].
    - intros q v Hq _ Hv Hw. destruct (tk_waiting _ _ _ T q v Hv (λ f, f)) as [_ C1]. destruct (C1 i Hw) as (u & Hu & Pu & Su). rewrite Hx in Hu. by simplify_eq. }
  assert (Hy1 : is_socks s1 !!z c = Some y) by (cbn; apply lookupZ_Some_lt in Hy as ?; rewrite lookupZ_insert_ne; [done|lia|done]).
  apply wp_bind. eapply wp_place_upd; [exact Hy1|]. set (y1 := set_in_flags _ _). set (s2 := put c y1 s1). pose proof (put_lookup c y y1 s1 Hy1) as Hy2.
  assert (Hok2 : inet_ok s2).
  { destruct Hok1 as [T1 M1 P1]. destruct (tk_link _ _ _ T1 c y Hy1) as [LP LL]. constructor; [|apply lookupZ_nat in Hy1 as [Hy1' _]; by eapply mem_ok_same|done].
    apply (table_put inet_sockets none none (is_socks s1) c y); [done|done|by split; [left|]| |done|right; by left|].
    - intros _. destruct (tk_body _ _ _ T1 c y Hy1 (λ f, f)) as [B1 B2 B3 B4]. split; [split; [intros; by destruct (B1 ltac:(done) ltac:(done))|intros; by destruct (B2 ltac:(done) ltac:(done))|done|done]|].
      destruct (tk_waiting _ _ _ T1 c y Hy1 (λ f, f)) as [Nd1 C1]. split; [done|]. intros d Hd. destruct (C1 d Hd) as (u & Hu & Pu). exists u. split; [|done].
      pose proof (child_ne _ _ _ _ _ T1 (C1 d Hd)). apply lookupZ_Some_lt in Hu as ?. rewrite lookupZ_insert_ne; [done|apply lookupZ_Some_lt in Hy1; lia|done].
    - intros q v Hq _ Hv Hw. exfalso. destruct (tk_waiting _ _ _ T1 q v Hv (λ f, f)) as [_ C1]. destruct (C1 c Hw) as (u & Hu & Pu & _).
      assert (q = i) as -> by congruence. cbn in Hv. rewrite lookupZ_insert_eq in Hv by done. by simplify_eq. }
  apply wp_bind, wp_install_fd; [done|]. intros fd h' Hok3. apply wp_bind. eapply (wp_place c y1); [exact Hy2|]. apply wp_bind.
  destruct (fd <? 0); [|apply wp_ret; by apply wp_ret]. apply wp_bind. eapply wp_mono; [eapply (keep_send c y1); [done|exact Hy2]|]. intros [] t (h2 & -> & Ht).
  eapply wp_mono; [eapply (keep_free c y1); [done|exact Hy2]|]. intros [] u Hu. by apply wp_ret.
Qed.

(** ** The operations together *)
Inductive inet_op :=
  | OpTcp (src_ip : Ipv4Addr) (data : list Z) (len : Z)
  | OpUdp (src_ip : Ipv4Addr) (src_port dst_port : Z) (data : list Z) (len : Z)
  | OpTick
  | OpSocket (flags : Z)
  | OpConnect (file : VFile) (name : option str)
  | OpConnectTurn (i start : Z)
  | OpBind (file : VFile) (name : option str)
  | OpListen (file : VFile)
  | OpAccept (file : VFile)
  | OpRead (file : VFile) (count : Z)
  | OpWrite (file : VFile) (buf : list Z)
  | OpPoll (file : VFile)
  | OpIoctl (file : VFile) (request : Z) (arg : option Z)
  | OpClose (file : VFile).
Definition ignore {A} (m : M inetst A) : M inetst unit := m;; mret tt.
Definition run_op (op : inet_op) : M inetst unit :=
  match op with
  | OpTcp src_ip data len => inet_tcp_deliver inet_sockets src_ip data len
  | OpUdp src_ip src_port dst_port data len => inet_udp_deliver src_ip src_port dst_port data len
  | OpTick => inet_tick
  | OpSocket flags => ignore (inet_socket_create inet_sockets flags)
  | OpConnect file name => ignore (inet_connect inet_sockets file name)
  | OpConnectTurn i start => ignore (inet_connect_turn i start)
  | OpBind file name => ignore (inet_bind inet_sockets file name)
  | OpListen file => ignore (inet_listen inet_sockets file)
  | OpAccept file => ignore (inet_accept inet_sockets file)
  | OpRead file count => ignore (inet_read inet_sockets file count)
  | OpWrite file buf => ignore (inet_write inet_sockets file buf)
  | OpPoll file => ignore (inet_poll inet_sockets file)
  | OpIoctl file request arg => ignore (inet_ioctl inet_sockets file request arg)
  | OpClose file => ignore (inet_close inet_sockets file)
  end.
(** A packet lies in its buffer, a file leads to a node, a task waits on a connection. *)
Definition op_ok (s : inetst) (op : inet_op) : Prop :=
  match op with
  | OpTcp _ data len => len <= Z.of_nat (length data)
  | OpUdp _ _ _ data len => 0 <= len ∧ Z.min UDP_MAX_DGRAM len <= Z.of_nat (length data)
  | OpTick | OpSocket _ => True
  | OpConnectTurn i _ => ∃ x, is_socks s !!z i = Some x ∧ in_used x = true ∧ in_kind x = INET_TCP
  | OpRead file count => file_ok file s ∧ 0 <= count
  | OpWrite file buf => file_ok file s ∧ bytes buf
  | OpConnect file _ | OpBind file _ | OpListen file | OpAccept file | OpPoll file | OpIoctl file _ _ | OpClose file => file_ok file s
  end.
Lemma wp_ignore {A} (m : M inetst A) s : wp m (λ _ t, inet_ok t) s → wp (ignore m) (λ _ t, inet_ok t) s.
Proof. intros Hm. unfold ignore. apply wp_bind. eapply wp_mono; [exact Hm|]. intros a t Ht. by apply wp_ret. Qed.
Lemma run_op_ok op s : inet_ok s → op_ok s op → wp (run_op op) (λ _ t, inet_ok t) s.
Proof using KL IL.
  intros Hok Ho. destruct op; cbn [run_op op_ok] in *; try apply wp_ignore.
  - by apply keep_tcp_deliver.
  - destruct Ho. by apply keep_udp_deliver.
  - by apply keep_tick.
  - by apply keep_socket_create.
  - by apply keep_connect.
  - destruct Ho as (x & Hx & Eu & Ek). by eapply keep_connect_turn.
  - by apply keep_bind.
  - by apply keep_listen.
  - by apply keep_accept.
  - destruct Ho. by apply keep_read.
  - destruct Ho. by apply keep_write.
  - by apply keep_poll.
  - by apply keep_ioctl.
  - by apply keep_close.
Qed.
(** The states the operations lead to. *)
Inductive inet_reach (s : inetst) : inetst → Prop :=
  | ir_start : inet_reach s s
  | ir_op t op u : inet_reach s t → op_ok t op → run_op op t = Some (tt, u) → inet_reach s u.
Lemma inet_reach_ok s t : inet_ok s → inet_reach s t → inet_ok t.
Proof using KL IL.
  intros Hok R. induction R as [|t op u R IHR Ho E]; [done|]. specialize (run_op_ok op t IHR Ho). unfold wp. by rewrite E.
Qed.
(** The table as the kernel starts with it. *)
Definition inet_start (s : inetst) : Prop :=
  is_socks s = replicate (Z.to_nat INET_MAX_SOCKETS) zero_inet ∧ is_next_port s = 49152 ∧ ih_ok (is_host s) ∧ km_inv (is_host s) runs blocks.
Lemma inet_start_ok s : inet_start s → inet_ok s.
Proof.
  intros (Es & Ep & Ho & Hm).
  assert (Lk : ∀ i x, is_socks s !!z i = Some x → x = zero_inet ∧ 0 <= i).
  { intros i x Hx. apply lookupZ_nat in Hx as [Hx ?]. rewrite Es in Hx. apply lookup_replicate_1 in Hx as [-> _]. split; [done|lia]. }
  constructor; [|rewrite Es; split; done|lia]. constructor.
  - rewrite Es, length_replicate. done.
  - intros i x Hx. destruct (Lk i x Hx) as [-> _]. apply zero_link.
  - intros i x Hx _. destruct (Lk i x Hx) as [-> _]. by constructor.
  - intros i x Hx _. destruct (Lk i x Hx) as [-> _]. split; [apply NoDup_nil_2|]. intros c Hc. by apply list.elem_of_nil in Hc.
  - intros p Hp. rewrite Es. unfold children, INET_MAX_SOCKETS, TCP_BACKLOG. clear -Hp. set (l := replicate (Z.to_nat 32) zero_inet).
    assert (E : filter (λ x, in_parent x = p) l = []); [|rewrite E; cbn; lia]. unfold l. induction (Z.to_nat 32) as [|k IHk]; [done|]. cbn [replicate].
    rewrite list.filter_cons, decide_False; [done|cbn; lia].
Qed.

(** C3 (invariant) [inet_tcp_deliver, tcp_passive_open, on_syn_rcvd, on_segment, inet_udp_deliver, inet_tick, tick_socket, inet_free, inet_alloc, inet_socket_create, inet_connect, inet_bind, inet_listen, inet_accept, inet_read, inet_write, inet_poll, inet_ioctl, inet_close]
    From the empty table of the kernel's start on, whatever segments and datagrams arrive, true or
    forged, whatever the clock says and whatever programs do with their sockets: no operation goes
    wrong, and in every state that is reached the buffers of the sockets have their sizes and own
    their memory, every socket in use is found through its node, and the sockets that wait to be
    accepted are connections of the socket that listens, each once and at most 16. *)
Theorem inet_never_goes_wrong s t :
  inet_start s → inet_reach s t →
  inet_ok t ∧ (∀ op, op_ok t op → ∃ u, run_op op t = Some (tt, u)) ∧
  (∀ i x, is_socks t !!z i = Some x → NoDup (waiting x) ∧ ∀ c, c ∈ waiting x → child_ok (is_socks t) i c) ∧
  (∀ p, 0 <= p → Z.of_nat (children (is_socks t) p) <= 16).
Proof using KL IL.
  intros Hs R. pose proof (inet_reach_ok s t (inet_start_ok s Hs) R) as Hok. split_and!; [done| | |apply Hok].
  - intros op Ho. pose proof (run_op_ok op t Hok Ho) as W. apply wp_run in W as ([] & u & E & _). by exists u.
  - intros i x Hx. apply (tk_waiting _ _ _ (io_table _ _ Hok) i x Hx). by intros [].
Qed.

(** A port for a socket: always one from 49152 on that no socket in use has, and nothing but the
    counter of ports changes. *)
Lemma inet_alloc_port_fresh s t :
  inet_start s → inet_reach s t →
  ∃ p next, inet_alloc_port t = Some (p, Inetst (is_socks t) next (is_seed t) (is_host t)) ∧ 49152 <= p < 65536 ∧ 49152 <= next < 65536 ∧
    ∀ i x, is_socks t !!z i = Some x → in_used x = true → in_local_port x ≠ p.
Proof using KL IL.
  intros Hs R. pose proof (inet_reach_ok s t (inet_start_ok s Hs) R) as Hok.
  destruct (proj1 (wp_run _ _ _) (wp_alloc_port t (λ p u, ∃ next, u = Inetst (is_socks t) next (is_seed t) (is_host t) ∧ 49152 <= p < 65536 ∧ 49152 <= next < 65536 ∧
    port_used (is_socks t) p = false) (tk_len _ _ _ (io_table _ _ Hok)) (io_port _ _ Hok) ltac:(by intros p next; exists next))) as (p & u & E & next & -> & Hp & Hn & Hf).
  exists p, next. split_and!; try done; try lia. intros i x Hx Eu Ep. apply lookupZ_nat in Hx as [Hx _].
  assert (port_used (is_socks t) p = true); [|congruence]. unfold port_used. apply existsb_exists. exists x. split; [by apply list_elem_of_In, list_elem_of_lookup; exists (Z.to_nat i)|].
  rewrite Eu. cbn. by apply Z.eqb_eq.
Qed.
End Inv.
