(* ===== verification/NetLaws.v ===== *)
(** * net.c below inet.c

    The interface inet.c relies on ([InetHostLaws]) is kept by net.c, over any network card,
    clock and scheduler that keep [NetHostLaws]; and no frame from the network and no packet of
    the loopback makes the kernel go wrong, unless a length in it is smaller than its own
    header: [udp_length_wraps] shows what happens then.  The loopback, emptied by a poll, is a
    bounded queue of packets. *)
From S2P Require Import Prelude RawMem Pmm Heap VfsTypes Ramfs Task TaskRing Sched FsKcalls Socket Ring Net Inet Dhcp NetRecv NetProps TcpMoves InetInv.
Local Open Scope kernel_scope.

Definition env_step {E} `{KernelMem E} (ok : E → Prop) (h h' : E) : Prop := ok h' ∧ ∀ runs blocks, km_inv h runs blocks → km_inv h' runs blocks.
(** What net.c relies on. *)
Class NetHostLaws (E : Type) `{KM : KernelMem E} `{NH : NetHost E} := {
  nh_ok : E → Prop;
  nh_nic_send_law bs h (Q : unit → E → Prop) : nh_ok h → Z.of_nat (length bs) <= FRAME_MAX → (∀ h', env_step nh_ok h h' → Q tt h') → wp (nh_nic_send bs) Q h;
  nh_uptime_ms_law h (Q : Z → E → Prop) : nh_ok h → (∀ t h', 0 <= t < 2 ^ 64 → env_step nh_ok h h' → Q t h') → wp nh_uptime_ms Q h;
  nh_rdtsc_law h (Q : Z * Z → E → Prop) : nh_ok h → (∀ r h', env_step nh_ok h h' → Q r h') → wp nh_rdtsc Q h;
  nh_wake_law h (Q : unit → E → Prop) : nh_ok h → (∀ h', env_step nh_ok h h' → Q tt h') → wp nh_wake_waiters Q h;
  nh_fd_fresh : E → Z → Prop;
  nh_other_node : E → Z → Prop;
  nh_fd_alloc_law h (Q : Z → E → Prop) :
    nh_ok h → (∀ fd h', env_step nh_ok h h' → (fd ≠ FD_INVALID → 0 <= fd ∧ nh_fd_fresh h' fd) → Q fd h') → wp nh_fd_alloc Q h;
  nh_fd_set_law fd node flags h (Q : unit → E → Prop) :
    nh_ok h → nh_fd_fresh h fd → (∀ h', env_step nh_ok h h' → Q tt h') → wp (nh_fd_set fd node flags) Q h;
  nh_file_ops_law p h (Q : Z → E → Prop) :
    nh_ok h → nh_other_node h p → (∀ ops h', ops ≠ INET_FILE_OPS → env_step nh_ok h h' → Q ops h') → wp (nh_file_ops p) Q h;
  nh_alloc_pages_ok n h r h' : km_alloc_pages n h = Some (r, h') → nh_ok h → nh_ok h';
  nh_free_pages_ok p n h r h' : km_free_pages p n h = Some (r, h') → nh_ok h → nh_ok h';
  nh_kmalloc_ok n h r h' : km_kmalloc n h = Some (r, h') → nh_ok h → nh_ok h';
  nh_kfree_ok p h r h' : km_kfree p h = Some (r, h') → nh_ok h → nh_ok h'
}.

(** The length a datagram gives itself is that of its header at least. *)
Definition udp_honest (data : list Z) (len : Z) : Prop :=
  SIZEOF_UDP_HEADER <= len → ∀ ul, raw_field data 4 2 = Some ul → SIZEOF_UDP_HEADER <= net_htons ul.
(** The state of net.c: the ring of the loopback and the cache have their sizes, and what waits on
    the loopback has been put there by [udp_send]. *)
Definition loop_honest (p : LoopbackPacket) : Prop :=
  lp_protocol p = IPV4_PROTO_UDP → bytes (take (Z.to_nat (lp_len p)) (lp_data p)) ∧ udp_honest (lp_data p) (lp_len p).
Record netst_ok (n : netst) : Prop := {
  ns_loop : loop_ok n;
  ns_honest i p : nt_loop n !!z i = Some p → loop_honest p;
  ns_arp : length (nt_arp n) = ARP_CACHE_SIZE;
  ns_mac : length (na_mac (nt_addr n)) = 6%nat;
  ns_macs : Forall (λ e, length (ar_mac e) = 6%nat) (nt_arp n);
  ns_next : 0 <= nt_arp_next n < Z.of_nat ARP_CACHE_SIZE
}.
Lemma netst_ok_same n n' :
  nt_loop n' = nt_loop n → nt_loop_head n' = nt_loop_head n → nt_loop_count n' = nt_loop_count n → nt_arp n' = nt_arp n → nt_arp_next n' = nt_arp_next n →
  na_mac (nt_addr n') = na_mac (nt_addr n) → netst_ok n → netst_ok n'.
Proof. intros E1 E2 E3 E4 E5 E6 [[R P] H A M Ms N]. constructor; [constructor|..]; rewrite ?E1, ?E2, ?E3, ?E4, ?E5, ?E6; done. Qed.

Section Laws.
Context {E : Type} `{KM : KernelMem E} {KL : KernelMemLaws E} `{NH : NetHost E} {NL : NetHostLaws E}.
Local Abbreviation net := (Net.net (E := E)).
Implicit Types n : net.

(** The packets [waits] wait first on the loopback: only [net_loopback_poll] takes them. *)
Context (waits : list (Ipv4Addr * Z * list Z)).
Definition net_ok n : Prop := netst_ok (nw_st n) ∧ waits `prefix_of` loop_queue (nw_st n) ∧ nh_ok (nw_host n).
(** What an operation of net.c may do. *)
Definition net_step n n' : Prop := net_ok n' ∧ ∀ runs blocks, km_inv n runs blocks → km_inv n' runs blocks.
Lemma net_step_trans n1 n2 n3 : net_step n1 n2 → net_step n2 n3 → net_step n1 n3.
Proof. intros [_ K1] [O K2]. split; auto. Qed.
Lemma net_step_refl n : net_ok n → net_step n n.
Proof. intros O. split; auto. Qed.
(** The state of net.c changed, the kernel below as it is. *)
Lemma net_step_st n st : netst_ok st → loop_queue (nw_st n) `prefix_of` loop_queue st → net_ok n → net_step n (Net st (nw_host n)).
Proof. intros Hs Hc (_ & Hk & Hh). split; [|auto]. split; [done|]. split; [cbn; by etransitivity|done]. Qed.
Lemma net_step_same n st :
  nt_loop st = nt_loop (nw_st n) → nt_loop_head st = nt_loop_head (nw_st n) → nt_loop_count st = nt_loop_count (nw_st n) → nt_arp st = nt_arp (nw_st n) →
  nt_arp_next st = nt_arp_next (nw_st n) → na_mac (nt_addr st) = na_mac (nt_addr (nw_st n)) → net_ok n → net_step n (Net st (nw_host n)).
Proof. intros E1 E2 E3 E4 E5 E6 Hok. apply net_step_st; [by apply (netst_ok_same (nw_st n)); [..|apply Hok]|unfold loop_queue; by rewrite E1, E2, E3|done]. Qed.
Lemma wp_nic_host {A} (m : M E A) n (Q : A → net → Prop) : wp m (λ a h', Q a (Net (nw_st n) h')) (nw_host n) → wp (on_host m) Q n.
Proof. intros HQ. by apply wp_zoom. Qed.
Lemma net_step_host n h' : net_ok n → env_step nh_ok (nw_host n) h' → net_step n (Net (nw_st n) h').
Proof. intros (Hs & Hc & _) [Ho Hk]. split; [done|exact Hk]. Qed.

(** ** Lemmas: sending *)
Lemma wp_eth_send mac ethertype payload n (Q : unit → net → Prop) :
  net_ok n → length mac = 6%nat → Z.of_nat (length payload) <= 1500 → (∀ n', net_step n n' → Q tt n') →
  wp (eth_send mac ethertype payload (Z.of_nat (length payload))) Q n.
Proof using NL.
  intros Hok Lm Hl HQ. unfold wp. rewrite eth_send_eq by done. apply (wp_nic_host _ n). pose proof Hok as (Hs & _ & Hh).
  apply nh_nic_send_law; [done|rewrite !length_app, be16_length, Lm, (ns_mac _ Hs); unfold FRAME_MAX; lia|]. intros h' S. apply HQ. by apply net_step_host.
Qed.
Lemma arp_packet_length oper smac sip tmac tip : length smac = 6%nat → length tmac = 6%nat → length (arp_packet oper smac sip tmac tip) = 28%nat.
Proof. intros E1 E2. unfold arp_packet. rewrite !length_app, !be16_length, E1, E2. done. Qed.
Lemma wp_arp_request ip n (Q : unit → net → Prop) : net_ok n → (∀ n', net_step n n' → Q tt n') → wp (arp_send_request ip) Q n.
Proof using NL.
  intros Hok HQ. unfold arp_send_request. apply wp_bind. apply wp_gets. set (pkt := arp_packet _ _ _ _ _).
  assert (Lp : length pkt = 28%nat) by (apply arp_packet_length; [apply (ns_mac _ (proj1 Hok))|done]).
  replace SIZEOF_ARP_PACKET with (Z.of_nat (length pkt)) by (by rewrite Lp). apply wp_eth_send; [done|done|rewrite Lp; lia|done].
Qed.
Lemma ip_checksum_total data : data ≠ [] → ∃ c, ip_checksum data = Some c.
Proof. intros Hd. rewrite ip_checksum_eq. destruct (fold_sum_spec _ (sum_words_range 0 data Hd)) as (r & k & -> & _). by eexists. Qed.
(** What is longer than a packet is cut. *)
Lemma wp_send_from src dst mac protocol payload n (Q : unit → net → Prop) :
  net_ok n → length mac = 6%nat → Z.of_nat (length payload) <= 1500 → (∀ n', net_step n n' → Q tt n') →
  wp (ipv4_send_from src dst mac protocol payload (Z.of_nat (length payload))) Q n.
Proof using NL.
  intros Hok Lm Hl HQ. unfold ipv4_send_from. cbv zeta. rewrite u16_small by (unfold SIZEOF_IPV4_HEADER; lia). set (total := Z.min _ MTU).
  assert (Ht : 20 <= total <= 1500 ∧ total - 20 <= Z.of_nat (length payload)) by (unfold total, SIZEOF_IPV4_HEADER, MTU; lia). clearbody total. unfold SIZEOF_IPV4_HEADER.
  destruct (Z.ltb_spec total 20); [lia|].
  apply wp_bind, wp_gets. apply wp_bind, wp_modify. set (n1 := Net _ _).
  assert (S1 : net_step n n1) by (by apply net_step_same).
  destruct (ip_checksum_total (ipv4_header src dst protocol total (nt_ip_id (nw_st n)) 0)) as [sum Hsum]; [done|].
  apply wp_bind. eapply wp_lift; [exact Hsum|]. apply wp_bind. eapply wp_lift; [apply read_range_spec; lia|].
  set (p := spec_read payload 0 (total - 20)). set (pkt := ipv4_header src dst protocol total (nt_ip_id (nw_st n)) (net_htons sum) ++ p).
  assert (Lp : total = Z.of_nat (length pkt)) by (unfold pkt, p, spec_read; rewrite length_app, ipv4_header_length, length_take, length_drop; lia).
  assert (W : wp (eth_send mac ETHERTYPE_IPV4 pkt (Z.of_nat (length pkt))) Q n1); [|by rewrite <- Lp in W].
  apply wp_eth_send; [apply S1|done|rewrite <- Lp; lia|]. intros n' S2. apply HQ. exact (net_step_trans _ _ _ S1 S2).
Qed.
(** A packet put at the end of the loopback. *)
Lemma wp_loopback dst protocol payload n (Q : unit → net → Prop) :
  net_ok n → (protocol = IPV4_PROTO_UDP → bytes payload ∧ udp_honest payload (Z.of_nat (length payload))) → (∀ n', net_step n n' → Q tt n') →
  wp (loopback_send dst protocol payload (Z.of_nat (length payload))) Q n.
Proof.
  intros Hok Hu HQ. pose proof Hok as (Hs & Hk & Hh). pose proof Hs as [Lo Ho La Lm Lms Ln].
  unfold loopback_send. apply wp_bind, wp_gets. unfold id. fold LOOPN.
  destruct ((nt_loop_count (nw_st n) <? LOOPN) && (Z.of_nat (length payload) <=? MTU)) eqn:Ef; [|by apply wp_ret, HQ, net_step_refl].
  apply andb_prop in Ef as [Ec%Z.ltb_lt El%Z.leb_le]. pose proof (lk_ring _ Lo) as (Ll & Hhd & Hc). set (i := (nt_loop_head (nw_st n) + nt_loop_count (nw_st n)) mod LOOPN).
  assert (Hi : 0 <= i < LOOPN) by (by apply ring_bound). destruct (loop_lookup _ i Lo Hi) as (p & Hp & Lp & _).
  destruct (write_front (lp_data p) payload) as (d & Hd & Ld & Td); [unfold MTU in *; lia|].
  cbv zeta. apply wp_bind. eapply wp_lift; [exact Hp|]. apply wp_bind. eapply wp_lift; [apply read_range_spec; lia|].
  unfold spec_read. cbn [Z.to_nat drop]. rewrite Nat2Z.id, take_ge by done. apply wp_bind. eapply wp_lift; [exact Hd|].
  destruct (ring_push zero_loop LOOPN ltac:(done) (nt_loop (nw_st n)) (nt_loop_head (nw_st n)) (nt_loop_count (nw_st n)) (MkLoop dst protocol (Z.of_nat (length payload)) d) (lk_ring _ Lo) Ec)
    as (q & Hq & _ & Iq). rewrite updateZ_is_Some in Hq by (fold i; lia). injection Hq as <-. fold i in Iq.
  apply wp_bind. eapply wp_lift; [apply updateZ_is_Some; lia|]. apply wp_modify. apply HQ, net_step_st; [| |done].
  2:{ unfold loop_queue. cbn [set_nt_loop nt_loop nt_loop_head nt_loop_count]. rewrite Iq, map_app. by eexists. }
  constructor; cbn; try done.
  - constructor; cbn; [split_and!; rewrite ?length_insert; lia|]. apply Forall_insert; [apply Lo|]. split; cbn; [by rewrite Ld|lia].
  - intros j q Hq. destruct (decide (j = i)) as [->|Hne].
    + rewrite lookupZ_insert_eq in Hq by lia. simplify_eq. intros Eu. cbn in *. destruct (Hu Eu) as [Hb Hh2]. rewrite Nat2Z.id, Td. split; [done|].
      intros H8 ul Hul. apply Hh2; [done|]. unfold SIZEOF_UDP_HEADER in H8. unfold raw_field in *. rewrite read_range_spec in Hul by lia. rewrite read_range_spec by lia.
      rewrite <- Hul. f_equal. unfold spec_read. rewrite <- Td. rewrite skipn_firstn_comm, take_take. do 2 f_equal. lia.
    + rewrite lookupZ_insert_ne in Hq by (done || lia). by eapply Ho.
Qed.
Lemma wp_ipv4_send dst protocol payload n (Q : unit → net → Prop) :
  net_ok n → Z.of_nat (length payload) <= 1500 → (protocol = IPV4_PROTO_UDP → bytes payload ∧ udp_honest payload (Z.of_nat (length payload))) →
  (∀ n', net_step n n' → Q tt n') → wp (ipv4_send dst protocol payload (Z.of_nat (length payload))) Q n.
Proof using NL.
  intros Hok Hl Hu HQ. unfold ipv4_send. apply wp_bind, wp_gets. destruct (ipv4_is_local _ dst); [by apply wp_loopback|]. cbv zeta.
  set (hop := if ipv4_same_subnet _ _ _ then _ else _). apply wp_bind. unfold arp_lookup. apply wp_bind, wp_gets, wp_ret.
  destruct (i ← arp_index hop (nt_arp (nw_st n)); e ← nt_arp (nw_st n) !! i; Some (ar_mac e)) as [mac|] eqn:Em; [|by apply wp_arp_request].
  apply wp_send_from; [done| |done|done]. destruct (arp_index hop _) as [k|]; [|done]. cbn in Em. destruct (nt_arp (nw_st n) !! k) as [e|] eqn:Ee; [|done]. cbn in Em. simplify_eq.
  pose proof (ns_macs _ (proj1 Hok)) as F. rewrite Forall_lookup in F. by eapply F.
Qed.
Lemma wp_udp_send dst src_port dst_port payload n (Q : unit → net → Prop) :
  net_ok n → bytes payload → Z.of_nat (length payload) <= 1472 → (∀ n', net_step n n' → Q tt n') →
  wp (udp_send dst src_port dst_port payload (Z.of_nat (length payload))) Q n.
Proof using NL.
  intros Hok Hb Hl HQ. unfold udp_send. set (total := SIZEOF_UDP_HEADER + Z.of_nat (length payload)).
  assert (Et : Z.min (u16 total) MTU = total) by (rewrite u16_small by (unfold total, SIZEOF_UDP_HEADER; lia); unfold total, SIZEOF_UDP_HEADER, MTU; lia).
  cbv zeta. rewrite Et. destruct (Z.ltb_spec total SIZEOF_UDP_HEADER); [unfold total in *; lia|].
  apply wp_bind. eapply wp_lift. { replace (total - SIZEOF_UDP_HEADER) with (Z.of_nat (length payload)) by (unfold total; lia). apply read_range_spec; lia. }
  unfold spec_read. change (drop (Z.to_nat 0) payload) with payload. rewrite Nat2Z.id, take_ge by done. set (pkt := be16 src_port ++ _).
  assert (Lp : total = Z.of_nat (length pkt)) by (unfold pkt; rewrite !length_app, !be16_length; unfold total, SIZEOF_UDP_HEADER; cbn [length]; lia).
  assert (W : wp (ipv4_send dst IPV4_PROTO_UDP pkt (Z.of_nat (length pkt))) Q n); [|by rewrite <- Lp in W].
  apply wp_ipv4_send; [done|rewrite <- Lp; unfold total, SIZEOF_UDP_HEADER; lia| |done]. intros _. split.
  - unfold pkt. repeat (apply list.Forall_app_2); try apply be16_bytes; [|done]. repeat apply list.Forall_cons_2; try apply list.Forall_nil_2; unfold is_byte; lia.
  - intros _ ul Hul. unfold pkt in Hul. rewrite (app_assoc (be16 src_port)) in Hul. rewrite (raw_field_mid (be16 src_port ++ be16 dst_port) (be16 total)) in Hul by done. simplify_eq.
    rewrite be16_read; [unfold total in *; lia|unfold total, SIZEOF_UDP_HEADER; lia].
Qed.

(** ** What inet.c relies on *)
Lemma net_zoom {A} (m : M E A) n a n' :
  zoom nw_host (λ e n, Net (nw_st n) e) m n = Some (a, n') → (∀ h', m (nw_host n) = Some (a, h') → nh_ok (nw_host n) → nh_ok h') → net_ok n → net_ok n'.
Proof. unfold zoom. destruct (m (nw_host n)) as [[b h']|]; [|done]. intros [= -> <-] Hm (Hs & Hc & Hh). split; [done|]. split; [done|by apply Hm]. Qed.
#[local, refine] Instance net_inet_host_laws : InetHostLaws net := {
  ih_ok := net_ok; ih_sent _ _ _ := True; ih_fd_fresh n := nh_fd_fresh (nw_host n); ih_other_node n := nh_other_node (nw_host n);
  ih_sent_refl _ := I; ih_sent_trans _ _ _ _ _ _ _ := I; ih_send_law := _; ih_udp_send_law := _; ih_local_ip_law := _; ih_is_up_law := _; ih_uptime_ms_law := _;
  ih_rdtsc_law := _; ih_wake_law := _; ih_fd_alloc_law := _; ih_fd_set_law := _; ih_file_ops_law := _; ih_alloc_pages_ok := _; ih_free_pages_ok := _; ih_kmalloc_ok := _; ih_kfree_ok := _
}.
Proof.
  - intros dst protocol bs n Q Hok Hp Hl HQ. apply wp_ipv4_send; [done|lia|done|]. intros n' [O K]. by apply HQ.
  - intros dst sp dp bs n Q Hok Hb Hl HQ. apply wp_udp_send; [done|done|done|]. intros n' [O K]. apply (HQ [] n'); [done|constructor].
  - intros n Q Hok HQ. apply wp_gets, HQ. split; [done|auto].
  - intros n Q Hok HQ. apply wp_gets, HQ. split; [done|auto].
  - intros n Q Hok HQ. apply wp_nic_host, nh_uptime_ms_law; [apply Hok|]. intros t h' Ht S. apply HQ; [done|]. destruct (net_step_host _ _ Hok S). by split.
  - intros n Q Hok HQ. apply wp_nic_host, nh_rdtsc_law; [apply Hok|]. intros t h' S. apply HQ. destruct (net_step_host _ _ Hok S). by split.
  - intros n Q Hok HQ. apply wp_nic_host, nh_wake_law; [apply Hok|]. intros h' S. apply HQ. destruct (net_step_host _ _ Hok S). by split.
  - intros n Q Hok HQ. apply wp_nic_host, nh_fd_alloc_law; [apply Hok|]. intros fd h' S Hfd. apply HQ; [|done]. destruct (net_step_host _ _ Hok S). by split.
  - intros fd node flags n Q Hok Hfr HQ. apply wp_nic_host, nh_fd_set_law; [apply Hok|done|]. intros h' S. apply HQ. destruct (net_step_host _ _ Hok S). by split.
  - intros p n Q Hok Hn HQ. apply wp_nic_host, nh_file_ops_law; [apply Hok|done|]. intros ops h' Hne S. apply HQ; [done|]. destruct (net_step_host _ _ Hok S). by split.
  - intros c n r n' Er Hok. split; [|done]. eapply net_zoom; [exact Er| |done]. intros h' Eh. by eapply nh_alloc_pages_ok.
  - intros p c n r n' Er Hok. split; [|done]. eapply net_zoom; [exact Er| |done]. intros h' Eh. by eapply nh_free_pages_ok.
  - intros c n r n' Er Hok. split; [|done]. eapply net_zoom; [exact Er| |done]. intros h' Eh. by eapply nh_kmalloc_ok.
  - intros p n r n' Er Hok. split; [|done]. eapply net_zoom; [exact Er| |done]. intros h' Eh. by eapply nh_kfree_ok.
Defined.

(** ** Lemmas: what arrives, below the sockets *)
Lemma wp_arp_handle data len n (Q : unit → net → Prop) :
  net_ok n → len <= Z.of_nat (length data) → (∀ n', net_step n n' → Q tt n') → wp (arp_handle_packet data len) Q n.
Proof using NL.
  intros Hok Hl HQ. unfold arp_handle_packet. pose proof (net_step_refl n Hok) as S0. destruct (Z.ltb_spec len SIZEOF_ARP_PACKET); [by apply wp_ret, HQ|]. unfold SIZEOF_ARP_PACKET in *.
  destruct (raw_field_Some data 0 2) as [ht Eht]; [lia|lia|]. destruct (raw_field_Some data 2 2) as [pt Ept]; [lia|lia|]. destruct (raw_field_Some data 6 2) as [op Eop]; [lia|lia|].
  assert (Em : read_range data 8 6 = Some (spec_read data 8 6)) by (apply read_range_spec; lia). set (sm := spec_read data 8 6) in *.
  assert (Lm : length sm = 6%nat) by (unfold sm, spec_read; rewrite length_take, length_drop; lia).
  destruct (ip_field_Some data 14) as [sip Esi]; [lia|lia|]. destruct (ip_field_Some data 24) as [tip Eti]; [lia|lia|].
  apply wp_bind; eapply wp_lift; [exact Eht|]. apply wp_bind; eapply wp_lift; [exact Ept|]. apply wp_bind; eapply wp_lift; [exact Eop|].
  apply wp_bind; eapply wp_lift; [exact Em|]. apply wp_bind; eapply wp_lift; [exact Esi|]. apply wp_bind; eapply wp_lift; [exact Eti|].
  destruct (_ || _); [by apply wp_ret, HQ|]. destruct (_ =? ARP_OPER_REQUEST).
  - apply wp_bind, wp_gets. destruct (negb _); [by apply wp_ret, HQ|]. set (pkt := arp_packet _ _ _ _ _).
    assert (Lp : length pkt = 28%nat) by (apply arp_packet_length; [apply (ns_mac _ (proj1 Hok))|done]).
    replace 28 with (Z.of_nat (length pkt)) by (by rewrite Lp). apply wp_eth_send; [done|done|rewrite Lp; lia|done].
  - destruct (_ =? ARP_OPER_REPLY); [|by apply wp_ret, HQ]. apply wp_bind, wp_gets. unfold id. pose proof Hok as ([Lo Ho La Lma Lms Ln] & _ & Hh).
    assert (Learn : ∃ st, arp_learn sip sm (nw_st n) = Some st ∧ netst_ok st ∧ loop_queue st = loop_queue (nw_st n)).
    { unfold arp_learn. destruct (arp_index sip (nt_arp (nw_st n))) as [k|] eqn:Ek.
      - unfold arp_index in Ek. destruct (list_find _ _) as [[j e]|] eqn:El; [|done]. cbn in Ek. simplify_eq. apply list_find_Some in El as (El & _ & _).
        rewrite El. cbn [mbind option_bind]. eexists. split; [reflexivity|]. split; [|done]. destruct Lo as [Lo1 Lo2]. constructor; [by constructor|done|by cbn; rewrite length_insert|done| |done].
        cbn. by apply Forall_insert.
      - eexists. split; [rewrite updateZ_is_Some by (rewrite La; lia); reflexivity|]. split; [|done]. destruct Lo as [Lo1 Lo2]. constructor; [by constructor|done|by cbn; rewrite length_insert|done| |].
        + cbn. by apply Forall_insert.
        + cbn. by apply Z.mod_pos_bound. }
    destruct Learn as (st & El & Hst & Hcnt). apply wp_bind; eapply wp_lift; [exact El|]. apply wp_modify. apply HQ, net_step_st; [done|by rewrite Hcnt|done].
Qed.
Lemma wp_icmp_handle src_ip data len n (Q : unit → net → Prop) :
  net_ok n → len <= Z.of_nat (length data) → (∀ n', net_step n n' → Q tt n') → wp (icmp_handle_packet src_ip data len) Q n.
Proof using NL.
  intros Hok Hl HQ. unfold icmp_handle_packet. pose proof (net_step_refl n Hok) as S0. destruct (Z.ltb_spec len SIZEOF_ICMP_HEADER); [by apply wp_ret, HQ|]. unfold SIZEOF_ICMP_HEADER in *.
  destruct (lookupZ_lt_is_Some data 0) as [ty Ety]; [lia|]. apply wp_bind; eapply wp_lift; [exact Ety|]. destruct (ty =? ICMP_TYPE_ECHO_REQUEST).
  - cbv zeta. set (total := Z.min len MTU). assert (Ht : 8 <= total <= 1500) by (unfold total, MTU; lia).
    apply wp_bind; eapply wp_lift; [apply read_range_spec; lia|]. set (b0 := spec_read data 0 total).
    assert (L0 : length b0 = Z.to_nat total) by (unfold b0, spec_read; rewrite length_take, length_drop; lia).
    destruct (write_range_Some b0 0 [ICMP_TYPE_ECHO_REPLY]) as [b1 E1]; [lia|cbn; lia|]. destruct (write_range_lookup _ _ _ _ 0 E1) as [L1 _].
    destruct (write_range_Some b1 2 [0; 0]) as [b2 E2]; [lia|cbn; lia|]. destruct (write_range_lookup _ _ _ _ 0 E2) as [L2 _].
    destruct (ip_checksum_total b2) as [sum Es]; [intros ->; cbn in L2; lia|].
    destruct (write_range_Some b2 2 (be16 sum)) as [b3 E3]; [lia|rewrite be16_length; lia|]. destruct (write_range_lookup _ _ _ _ 0 E3) as [L3 _].
    apply wp_bind; eapply wp_lift; [exact E1|]. apply wp_bind; eapply wp_lift; [exact E2|]. apply wp_bind; eapply wp_lift; [exact Es|]. apply wp_bind; eapply wp_lift; [exact E3|].
    replace total with (Z.of_nat (length b3)) by lia. apply wp_ipv4_send; [done|lia|done|done].
  - destruct (ty =? ICMP_TYPE_ECHO_REPLY); [|by apply wp_ret, HQ]. destruct (raw_field_Some data 4 2) as [i Ei]; [lia|lia|]. destruct (raw_field_Some data 6 2) as [q Eq]; [lia|lia|].
    apply wp_bind; eapply wp_lift; [exact Ei|]. apply wp_bind; eapply wp_lift; [exact Eq|]. apply wp_bind, wp_gets. destruct (_ && _); [|by apply wp_ret, HQ].
    by apply wp_modify, HQ, net_step_same.
Qed.
Lemma wp_dhcp_reply src_ip src_port data len n (Q : unit → net → Prop) :
  net_ok n → bytes (take (Z.to_nat len) data) → 0 <= len <= Z.of_nat (length data) → len < 65536 → (∀ n', net_step n n' → Q tt n') → wp (dhcp_handle_reply src_ip src_port data len) Q n.
Proof.
  intros Hok Hb Hl Hlt HQ. destruct (dhcp_reply_step src_ip src_port data len n Hb Hl Hlt) as [d Ed]. unfold wp. rewrite Ed. by apply HQ, net_step_same.
Qed.
End Laws.

(** ** Lemmas: what arrives, up to the sockets *)
Section Frames.
Context {E : Type} `{KM : KernelMem E} {KL : KernelMemLaws E} `{NH : NetHost E} {NL : NetHostLaws E}.
Context (inet_sockets : Z) (runs blocks : list (Z * Z)) (waits : list (Ipv4Addr * Z * list Z)).
Local Abbreviation net := (Net.net (E := E)).
Local Abbreviation inetst := (Inet.inetst (L := net)).
Local Abbreviation inet_ok := (InetInv.inet_ok (IL := net_inet_host_laws waits) inet_sockets runs blocks).
Implicit Types s : inetst.

Lemma keep_net (m : M net unit) s :
  inet_ok s → (∀ Q : unit → net → Prop, net_ok waits (is_host s) → (∀ n', net_step waits (is_host s) n' → Q tt n') → wp m Q (is_host s)) → wp (on_net m) (λ _ t, inet_ok t) s.
Proof using KL NL.
  intros Hok Hm. apply wp_on_host, Hm; [apply Hok|]. intros n' [O K]. eapply (inet_ok_host (IL := net_inet_host_laws waits) _ _ _ s [] n' Hok). by split.
Qed.
(** The bytes after the packet that a length that is too large may reach. *)
Definition behind (data : list Z) (len : Z) : Prop := len <= Z.of_nat (length data).
(** A datagram that is what it says, or memory behind it that is there to be read. *)
Definition udp_fits (data : list Z) (len : Z) : Prop :=
  bytes (take (Z.to_nat len) data) ∧ udp_honest data len ∨ bytes data ∧ SIZEOF_UDP_HEADER + 65535 <= Z.of_nat (length data).
Lemma keep_udp_packet src_ip data len s :
  inet_ok s → 0 <= len < 65536 → behind data len → udp_fits data len → wp (udp_handle_packet src_ip data len) (λ _ t, inet_ok t) s.
Proof using KL NL.
  intros Hok Hl Hbh Hh. unfold behind in Hbh. unfold udp_handle_packet. destruct (Z.ltb_spec len SIZEOF_UDP_HEADER) as [|H8]; [by apply wp_ret|]. unfold SIZEOF_UDP_HEADER in *.
  destruct (raw_field_Some data 0 2) as [sp Esp]; [lia|lia|]. destruct (raw_field_Some data 2 2) as [dp Edp]; [lia|lia|]. destruct (raw_field_Some data 4 2) as [ul Eul]; [lia|lia|].
  apply wp_bind; eapply wp_lift; [exact Esp|]. apply wp_bind; eapply wp_lift; [exact Edp|]. apply wp_bind; eapply wp_lift; [exact Eul|]. cbv zeta.
  set (ulen := Z.min (net_htons ul) len). pose proof (net_htons_range ul). set (plen := u16 (ulen - 8)). pose proof (u16_range (ulen - 8)) as Hp. fold plen in Hp.
  assert (Hpl : plen <= Z.of_nat (length (drop (Z.to_nat 8) data)) ∧ bytes (take (Z.to_nat plen) (drop (Z.to_nat 8) data))).
  { rewrite length_drop. destruct Hh as [[Hb Hh]|[Hb Hh]]; [|split; [unfold SIZEOF_UDP_HEADER in *; lia|by apply Forall_take, Forall_drop]].
    specialize (Hh H8 ul Eul). unfold SIZEOF_UDP_HEADER in Hh. assert (Ep : plen = ulen - 8) by (unfold plen; rewrite u16_small; unfold ulen; lia). rewrite Ep. split; [unfold ulen; lia|].
    rewrite take_drop_commute. apply Forall_drop. replace (take _ data) with (take (Z.to_nat 8 + Z.to_nat (ulen - 8)) (take (Z.to_nat len) data)); [by apply Forall_take|].
    rewrite take_take. f_equal. unfold ulen. lia. }
  destruct Hpl as [Hpl Hpb]. apply wp_bind. apply wp_on_host, wp_gets. unfold id.
  assert (Es : with_host (is_host s) s = s) by by destruct s. rewrite Es. destruct (_ && _).
  - apply keep_net; [done|]. intros Q O HQ. apply (wp_dhcp_reply waits); [done|done|lia|lia|done].
  - apply keep_udp_deliver; [done|lia|]. lia.
Qed.
Lemma keep_dispatch src_ip protocol payload len s :
  inet_ok s → 0 <= len < 65536 → behind payload len → (protocol = IPV4_PROTO_UDP → udp_fits payload len) →
  wp (ipv4_dispatch inet_sockets src_ip protocol payload len) (λ _ t, inet_ok t) s.
Proof using KL NL.
  intros Hok Hl Hbh Hh. unfold ipv4_dispatch. destruct (protocol =? IPV4_PROTO_ICMP).
  { apply keep_net; [done|]. intros Q O HQ. by apply (wp_icmp_handle waits). }
  destruct (Z.eqb_spec protocol IPV4_PROTO_UDP); [apply keep_udp_packet; auto|]. destruct (protocol =? IPV4_PROTO_TCP); [|by apply wp_ret]. by apply keep_tcp_deliver.
Qed.

(** The lengths an IPv4 packet gives itself: its own, and that of the datagram in it. *)
Definition ipv4_honest (data : list Z) (len : Z) : Prop :=
  ∀ vi tl, data !!z 0 = Some vi → raw_field data 2 2 = Some tl →
    let header_len := u16 (Z.land vi 0xF * 4) in
    header_len <= net_htons tl ∧
    (data !!z 9 = Some IPV4_PROTO_UDP → udp_honest (drop (Z.to_nat header_len) data) (Z.min (net_htons tl) len - header_len)).
Lemma keep_ipv4 data len s :
  inet_ok s → bytes data → 0 <= len < 65536 → behind data len → ipv4_honest data len ∨ 60 + SIZEOF_UDP_HEADER + 65535 <= Z.of_nat (length data) →
  wp (ipv4_handle_packet inet_sockets data len) (λ _ t, inet_ok t) s.
Proof using KL NL.
  intros Hok Hb Hl Hbh Hh. unfold behind in Hbh. unfold ipv4_handle_packet. destruct (Z.ltb_spec len SIZEOF_IPV4_HEADER) as [|H20]; [by apply wp_ret|]. unfold SIZEOF_IPV4_HEADER in *.
  destruct (byte_at data 0 Hb) as (vi & Evi & Hvi); [lia|]. destruct (lookupZ_lt_is_Some data 9) as [pr Epr]; [lia|]. destruct (raw_field_Some data 2 2) as [tl Etl]; [lia|lia|].
  destruct (ip_field_Some data 12) as [sip Esi]; [lia|lia|]. destruct (ip_field_Some data 16) as [dip Edi]; [lia|lia|].
  apply wp_bind; eapply wp_lift; [exact Evi|]. apply wp_bind; eapply wp_lift; [exact Epr|]. apply wp_bind; eapply wp_lift; [exact Etl|].
  apply wp_bind; eapply wp_lift; [exact Esi|]. apply wp_bind; eapply wp_lift; [exact Edi|]. cbv zeta.
  set (hl := u16 (Z.land vi 15 * 4)). assert (Hhl : 0 <= hl <= 60).
  { assert (R : 0 <= Z.land vi 15 <= 15) by (pose proof (Z.land_ones vi 4 ltac:(lia)) as El; change (Z.ones 4) with 15 in El; rewrite El; pose proof (Z.mod_pos_bound vi (2 ^ 4)); lia). unfold hl. rewrite u16_small; lia. }
  destruct (negb _); cbn [orb]; [by apply wp_ret|]. destruct (_ <? 5); cbn [orb]; [by apply wp_ret|]. destruct (Z.ltb_spec len hl); [by apply wp_ret|].
  apply wp_bind. apply wp_on_host, wp_gets. assert (Es : with_host (is_host s) s = s) by by destruct s. rewrite Es.
  destruct (_ && _); [by apply wp_ret|]. destruct (_ || _); [|by apply wp_ret]. pose proof (net_htons_range tl). set (total := Z.min (net_htons tl) len).
  pose proof (u16_range (total - hl)) as Hp. set (plen := u16 (total - hl)) in *.
  assert (Hn : hl <= net_htons tl → plen = total - hl) by (intros; unfold plen; rewrite u16_small; unfold total; lia).
  apply keep_dispatch; [done|lia| |].
  - unfold behind. rewrite length_drop. destruct Hh as [Hh|Hh]; [|unfold SIZEOF_UDP_HEADER in *; lia]. destruct (Hh vi tl Evi Etl) as [H1 _]. change 15 with 0xF in *. fold hl in H1. rewrite Hn by done. unfold total. lia.
  - intros ->. destruct Hh as [Hh|Hh]; [left; split; [by apply Forall_take, Forall_drop|]|right; split; [by apply Forall_drop|rewrite length_drop; lia]]. destruct (Hh vi tl Evi Etl) as [H1 H2]. fold hl in H1, H2. rewrite Hn by done. by apply H2.
Qed.
(** The same of a frame. *)
Definition frame_honest (frame : list Z) (len : Z) : Prop := ipv4_honest (drop (Z.to_nat SIZEOF_ETH_HEADER) frame) (len - SIZEOF_ETH_HEADER).
Lemma keep_frame frame len s :
  inet_ok s → bytes frame → len < 65536 → behind frame len → frame_honest frame len ∨ 65617 <= Z.of_nat (length frame) →
  wp (net_handle_frame inet_sockets frame len) (λ _ t, inet_ok t) s.
Proof using KL NL.
  intros Hok Hb Hl Hbh Hh. unfold behind in Hbh. unfold net_handle_frame. destruct (Z.ltb_spec len SIZEOF_ETH_HEADER) as [|H14]; [by apply wp_ret|]. unfold frame_honest, SIZEOF_ETH_HEADER in *.
  destruct (raw_field_Some frame 12 2) as [et Eet]; [lia|lia|]. apply wp_bind; eapply wp_lift; [exact Eet|]. cbv zeta. rewrite u16_small by lia.
  destruct (_ =? ETHERTYPE_ARP).
  - apply keep_net; [done|]. intros Q O HQ. apply (wp_arp_handle waits); [done|rewrite length_drop; lia|done].
  - destruct (_ =? ETHERTYPE_IPV4); [|by apply wp_ret]. apply keep_ipv4; [done|by apply Forall_drop|lia|unfold behind; rewrite length_drop; lia|].
    destruct Hh as [Hh|Hh]; [by left|right]. rewrite length_drop. unfold SIZEOF_UDP_HEADER. lia.
Qed.
End Frames.

(** ** The loopback and all that arrives *)
Section Stack.
Context {E : Type} `{KM : KernelMem E} {KL : KernelMemLaws E} `{NH : NetHost E} {NL : NetHostLaws E}.
Context (inet_sockets : Z) (runs blocks : list (Z * Z)).
Local Abbreviation net := (Net.net (E := E)).
Local Abbreviation inetst := (Inet.inetst (L := net)).
Local Abbreviation ok_with waits := (InetInv.inet_ok (IL := net_inet_host_laws waits) inet_sockets runs blocks).
Implicit Types s : inetst.

Local Abbreviation queue s := (loop_queue (nw_st (is_host s))).
Lemma ok_with_less w w' s : ok_with w s → w' `prefix_of` queue s → ok_with w' s.
Proof. intros [T [(Hs & Hc & Hh) Hm] P] Hw. constructor; [done| |done]. split; [|done]. split; [done|by split]. Qed.
Lemma ok_with_queue w s : ok_with w s → w `prefix_of` queue s.
Proof. intros [_ [(_ & Hc & _) _] _]. done. Qed.

(** The packets [q] are taken from the loopback one after the other and each is handed over, with its bytes, its
    protocol and the address it was sent to, before the next is taken. *)
Inductive delivered : list (Ipv4Addr * Z * list Z) → inetst → inetst → Prop :=
  | delivered_nil s : delivered [] s s
  | delivered_cons ip protocol bs pad q s s1 s2 s3 :
      is_socks s1 = is_socks s → nw_host (is_host s1) = nw_host (is_host s) → queue s = (ip, protocol, bs) :: queue s1 →
      ipv4_dispatch inet_sockets ip protocol (bs ++ pad) (Z.of_nat (length bs)) s1 = Some (tt, s2) →
      delivered q s2 s3 → delivered ((ip, protocol, bs) :: q) s s3.

(** The packets that are there at the start are taken; those that come on the way wait. *)
Lemma keep_loopback q s : ok_with q s → wp (loopback_loop inet_sockets (length q)) (λ _ t, ok_with [] t ∧ delivered q s t) s.
Proof using KL NL.
  revert s. induction q as [|[[ip protocol] bs] q IHq]; intros s Hok; cbn [length loopback_loop]; [apply wp_ret; split; [done|constructor]|].
  pose proof (ok_with_queue _ _ Hok) as Hc. pose proof Hok as [T [(Hs & _ & Hh) Hm] P]. set (w := nw_st (is_host s)) in *. pose proof Hs as [Lo Ho La Lma Lms Ln]. pose proof (lk_ring _ Lo) as (Ll & Hhd & Hcnt).
  apply wp_bind. apply wp_on_host, wp_gets. unfold id. fold w. assert (Es : with_host (is_host s) s = s) by by destruct s. rewrite Es.
  destruct (loop_lookup w (nt_loop_head w) Lo Hhd) as (p & Hp & Lp & Hlen). apply wp_bind; eapply wp_lift; [exact Hp|].
  assert (Hpos : 0 < nt_loop_count w).
  { apply prefix_length in Hc. unfold loop_queue in Hc. rewrite length_map in Hc. pose proof (ring_items_length zero_loop LOOPN ltac:(done) (nt_loop w) (nt_loop_head w) (nt_loop_count w)). cbn [length] in Hc. lia. }
  apply wp_bind. apply wp_on_host, wp_modify. set (st := set_nt_loop _ _ _ _).
  assert (Eq : loop_queue w = loop_item p :: loop_queue st).
  { unfold loop_queue. rewrite (ring_items_head zero_loop LOOPN ltac:(done) _ _ _ p (lk_ring _ Lo) Hpos Hp). done. }
  rewrite Eq in Hc. apply prefix_cons_inv_1 in Hc as E0. apply prefix_cons_inv_2 in Hc. injection E0 as -> -> ->.
  assert (Hst : netst_ok st) by (constructor; [constructor; [split_and!; cbn; try done; try (by apply ring_bound); lia|apply Lo]|done|done|done|done|done]).
  assert (Ok1 : ok_with q (with_host (Net st (nw_host (is_host s))) s)).
  { constructor; [done| |done]. split; [|exact Hm]. split; [done|]. split; [exact Hc|done]. }
  assert (D : wp (ipv4_dispatch inet_sockets (lp_addr p) (lp_protocol p) (lp_data p) (lp_len p)) (λ _ t, ok_with q t) (with_host (Net st (nw_host (is_host s))) s)).
  { eapply (keep_dispatch inet_sockets runs blocks q); [exact Ok1|unfold MTU in *; lia|unfold behind; rewrite Lp; unfold MTU in *; lia|].
    intros Eu. left. by apply (Ho _ p Hp). }
  apply wp_run in D as ([] & s2 & E2 & Ok2). apply wp_bind. unfold wp at 1. rewrite E2. eapply wp_mono; [by apply IHq|].
  intros u t [Ht Hd]. split; [done|].
  apply (delivered_cons _ _ _ (drop (Z.to_nat (lp_len p)) (lp_data p)) _ _ (with_host (Net st (nw_host (is_host s))) s) s2); [done|done|exact Eq| |done].
  rewrite take_drop, length_take, Nat.min_l by (unfold MTU in *; lia). rewrite Z2Nat.id by lia. exact E2.
Qed.
Lemma keep_poll_loopback s : ok_with [] s → wp (net_loopback_poll inet_sockets) (λ _ t, ok_with [] t ∧ delivered (queue s) s t) s.
Proof using KL NL.
  intros Hok. unfold net_loopback_poll. apply wp_bind. apply wp_on_host, wp_gets. assert (Es : with_host (is_host s) s = s) by by destruct s. rewrite Es.
  assert (Lq : length (queue s) = Z.to_nat (nt_loop_count (nw_st (is_host s)))).
  { pose proof Hok as [_ [([Lo _ _ _ _ _] & _) _] _]. unfold loop_queue. rewrite length_map. pose proof (lk_ring _ Lo) as (_ & _ & Hc).
    pose proof (ring_items_length zero_loop LOOPN ltac:(done) (nt_loop (nw_st (is_host s))) (nt_loop_head (nw_st (is_host s))) (nt_loop_count (nw_st (is_host s)))). lia. }
  rewrite <- Lq. apply keep_loopback. by eapply ok_with_less.
Qed.

(** What happens to the stack: a frame arrives, the loopback is polled, or one of the operations of inet.c. *)
Inductive net_event := EvFrame (frame : list Z) (len : Z) | EvPoll | EvOp (op : inet_op).
Definition run_event (e : net_event) : M inetst unit :=
  match e with
  | EvFrame frame len => net_handle_frame inet_sockets frame len
  | EvPoll => net_loopback_poll inet_sockets
  | EvOp op => run_op inet_sockets op
  end.
(** A frame lies in its buffer, which goes on for 64K unless the lengths in the frame are honest. *)
Definition event_ok (s : inetst) (e : net_event) : Prop :=
  match e with
  | EvFrame frame len => bytes frame ∧ len < 65536 ∧ behind frame len ∧ (frame_honest frame len ∨ 65617 <= Z.of_nat (length frame))
  | EvPoll => True
  | EvOp op => op_ok (IL := net_inet_host_laws []) inet_sockets s op
  end.
Inductive net_reach (s : inetst) : inetst → Prop :=
  | nr_start : net_reach s s
  | nr_event t e u : net_reach s t → event_ok t e → run_event e t = Some (tt, u) → net_reach s u.
Lemma run_event_ok e s : ok_with [] s → event_ok s e → wp (run_event e) (λ _ t, ok_with [] t) s.
Proof using KL NL.
  intros Hok He. destruct e; cbn [run_event event_ok] in *.
  - destruct He as (Hb & Hl & Hbh & Hh). by apply keep_frame.
  - eapply wp_mono; [by apply keep_poll_loopback|]. by intros u t [? _].
  - by apply run_op_ok.
Qed.
(** The kernel's start: no sockets, nothing on the loopback. *)
Definition net_start (s : inetst) : Prop :=
  inet_start (IL := net_inet_host_laws []) runs blocks s.

(** C27 (refinement) [loopback_send, loopback_loop, net_loopback_poll, ipv4_dispatch]
    The loopback is a queue of at most 64 packets.  In every state the stack can be in: what is sent goes
    to its end, unless it is full or the packet too long; polling always returns, having taken exactly the packets
    that waited when it began, oldest first, and handed each over with its bytes, its
    protocol and the address it was sent to; the answers that are sent on the way wait for
    the next poll. *)
Theorem loopback_is_queue dst protocol payload s :
  ok_with [] s →
  (∃ n', loopback_send dst protocol payload (Z.of_nat (length payload)) (is_host s) = Some (tt, n') ∧ nw_host n' = nw_host (is_host s) ∧
     loop_queue (nw_st n') = queue s ++
       (if (Z.of_nat (length (queue s)) <? 64) && (Z.of_nat (length payload) <=? 1500) then [(dst, protocol, payload)] else [])) ∧
  ∃ s', net_loopback_poll inet_sockets s = Some (tt, s') ∧ delivered (queue s) s s'.
Proof using KL NL.
  intros Hok. split.
  - assert (Ok : loop_ok (nw_st (is_host s))) by by destruct Hok as [_ [([] & _) _] _].
    destruct (loopback_send_spec dst protocol payload (is_host s) Ok) as (st & E1 & _ & _ & Eq). exists (Net st (nw_host (is_host s))). split_and!; [done|done|].
    cbn [nw_st]. rewrite Eq. unfold loop_queue at 3. rewrite length_map, ring_items_length by (try done; apply (lk_ring _ Ok)). done.
  - pose proof (keep_poll_loopback s Hok) as W. apply wp_run in W as ([] & s' & Er & _ & D). by exists s'.
Qed.

(** C6 (safety) [net_handle_frame, ipv4_handle_packet, udp_handle_packet, arp_handle_packet, icmp_handle_packet, ipv4_dispatch, net_loopback_poll, loopback_loop, ipv4_send, loopback_send, eth_send]
    The whole stack, from the card to the sockets: whatever frames arrive whose lengths are honest, whenever
    the loopback is polled and whatever programs do in between, nothing goes wrong, and the table of the sockets, the
    cache of addresses and the queue of the loopback stay in order.  Honest means that the total length of an IPv4 packet and
    the length of a UDP datagram are at least those of their headers; all else in a frame may be
    forged.  Of a frame that is not honest the theorem holds only if 64 KiB of memory that may be read lie behind it,
    which the buffers of the card do not promise: [udp_length_wraps] shows that the kernel otherwise reads beyond the frame. *)
Theorem net_stack_never_goes_wrong s t :
  net_start s → net_reach s t →
  ok_with [] t ∧ netst_ok (nw_st (is_host t)) ∧ ∀ e, event_ok t e → ∃ u, run_event e t = Some (tt, u).
Proof using KL NL.
  intros Hs R. assert (Hok : ok_with [] t).
  { apply (inet_start_ok (IL := net_inet_host_laws []) inet_sockets) in Hs. induction R as [|t e u R IHR He Er]; [done|]. specialize (run_event_ok e t IHR He). unfold wp. by rewrite Er. }
  split; [done|]. split; [by destruct Hok as [_ [(? & _) _] _]|]. intros e He. pose proof (run_event_ok e t Hok He) as W. apply wp_run in W as ([] & u & Er & _). by exists u.
Qed.
End Stack.
