(* ===== verification/NetDemo.v ===== *)
(** * Two machines on a wire

    A network card that keeps what is sent, a clock that ticks at every question and the heap
    of Heap.v: the environment at which the theorems about the network are applied. *)
From S2P Require Import Prelude RawMem Pmm Heap VfsTypes Ramfs Task TaskRing Sched FsKcalls Socket Ring Net Inet Dhcp NetRecv NetProps TcpMoves InetInv NetLaws.
Local Open Scope kernel_scope.

Record wire := Wire { wi_frames : list (list Z); wi_clock : Z; wi_fds : Z; wi_heap : heap }.
#[export] Instance wire_mem : KernelMem wire := lens_mem wi_heap (λ h w, Wire (wi_frames w) (wi_clock w) (wi_fds w) h).
#[export] Instance wire_mem_laws : KernelMemLaws wire.
Proof. refine (lens_mem_laws wi_heap (λ h w, Wire (wi_frames w) (wi_clock w) (wi_fds w) h) _ _); [done|]. by intros []. Qed.
#[export] Instance wire_net_host : NetHost wire := {
  nh_nic_send bs := modify (λ w, Wire (wi_frames w ++ [bs]) (wi_clock w) (wi_fds w) (wi_heap w));
  nh_nic_mac := mret [2; 0; 0; 0; 0; 1];
  nh_uptime_ms := λ w, Some (u64 (wi_clock w), Wire (wi_frames w) (wi_clock w + 1) (wi_fds w) (wi_heap w));
  nh_rdtsc := gets (λ w, (wi_clock w, 0));
  nh_wake_waiters := mret tt;
  nh_fd_alloc := λ w, Some (wi_fds w, Wire (wi_frames w) (wi_clock w) (wi_fds w + 1) (wi_heap w));
  nh_fd_set _ _ _ := mret tt;
  nh_file_ops _ := mret 0
}.
#[export, refine] Instance wire_net_host_laws : NetHostLaws wire := {
  nh_ok w := 0 <= wi_fds w; nh_fd_fresh _ fd := True; nh_other_node _ _ := True;
  nh_nic_send_law := _; nh_uptime_ms_law := _; nh_rdtsc_law := _; nh_wake_law := _; nh_fd_alloc_law := _; nh_fd_set_law := _; nh_file_ops_law := _;
  nh_alloc_pages_ok := _; nh_free_pages_ok := _; nh_kmalloc_ok := _; nh_kfree_ok := _
}.
Proof.
  - intros bs h Q Hok _ HQ. apply wp_modify, HQ. by split.
  - intros h Q Hok HQ. apply HQ; [apply u64_range|]. by split.
  - intros h Q Hok HQ. apply wp_gets, HQ. by split.
  - intros h Q Hok HQ. apply wp_ret, HQ. by split.
  - intros h Q Hok HQ. apply HQ; [split; cbn; [lia|done]|done].
  - intros fd node flags h Q Hok _ HQ. apply wp_ret, HQ. by split.
  - intros p h Q Hok _ HQ. apply wp_ret, HQ; [done|]. by split.
  - intros n h r h' Er Hok. unfold km_alloc_pages, wire_mem, lens_mem, zoom in Er. by destruct (km_alloc_pages n (wi_heap h)) as [[a x]|]; simplify_eq.
  - intros p n h r h' Er Hok. unfold km_free_pages, wire_mem, lens_mem, zoom in Er. by destruct (km_free_pages p n (wi_heap h)) as [[a x]|]; simplify_eq.
  - intros n h r h' Er Hok. unfold km_kmalloc, wire_mem, lens_mem, zoom in Er. by destruct (km_kmalloc n (wi_heap h)) as [[a x]|]; simplify_eq.
  - intros p h r h' Er Hok. unfold km_kfree, wire_mem, lens_mem, zoom in Er. by destruct (km_kfree p (wi_heap h)) as [[a x]|]; simplify_eq.
Defined.

(** Two machines on a network 10.0.2.0; each knows the other's card. *)
Definition demo_mac (k : Z) : list Z := [2; 0; 0; 0; 0; k].
Definition demo_ip (k : Z) : Ipv4Addr := Ip 10 0 2 k.
Definition demo_netst (me other : Z) : netst :=
  MkNet (MkAddr (demo_mac me) (demo_ip me) (demo_ip 1) (Ip 255 255 255 0) (demo_ip 3) true)
    (MkArp true (demo_ip other) (demo_mac other) :: replicate 7 zero_arp) 1 0 (replicate 64 zero_loop) 0 0 (MkPing false 0 0 0) 0 false
    (MkDhcp false false false 0x12345678 zero_ip zero_ip zero_ip zero_ip zero_ip).
Definition demo_wire : wire := Wire [] 1000 3 (Heap (Pmm (3 :: replicate 31 0) 32 (256 * PAGE_SIZE) 254 254 (2 ^ 47)) ∅).
Definition demo_net (me other : Z) : net (E := wire) := Net (demo_netst me other) demo_wire.
(** The table of sockets lies in the kernel's image. *)
Definition SOCKS : Z := 2 ^ 48.
Definition demo_inet (me other : Z) : inetst (L := net (E := wire)) := Inetst (replicate 32 zero_inet) 49152 7 (demo_net me other).

Lemma demo_wire_inv : km_inv demo_wire [] [].
Proof. constructor; [|repeat constructor|constructor]. constructor; [repeat constructor; done|vm_compute; repeat split; congruence ..]. Qed.
Lemma demo_netst_ok me other : netst_ok (demo_netst me other).
Proof.
  constructor; [constructor; [done|]|..]; try done.
  - apply (Forall_replicate loop_packet_ok 64 zero_loop). split; [done|cbn; unfold MTU; lia].
  - intros i p Hp. apply lookupZ_nat in Hp as [Hp _]. apply lookup_replicate_1 in Hp as [-> _]. intros [=].
  - repeat constructor.
Qed.
Lemma demo_net_start me other : net_start [] [] (demo_inet me other).
Proof.
  split; [done|]. split; [done|]. split; [|exact demo_wire_inv]. split; [apply demo_netst_ok|]. by split.
Qed.

(** ** Witnesses *)

(** A question of name resolution from 10.0.2.15 to 10.0.2.2. *)
Lemma udp_sent_is_received_witness :
  ∃ frame n', udp_send (demo_ip 2) 49152 53 [104; 105] 2 (demo_net 15 2) = on_host (nh_nic_send frame) n' ∧
    net_handle_frame SOCKS (frame ++ [0; 0; 0; 0]) (Z.of_nat (length frame) + 4) (demo_inet 2 15) =
      inet_udp_deliver (demo_ip 15) 49152 53 ([104; 105] ++ [0; 0; 0; 0]) 2 (demo_inet 2 15).
Proof.
  destruct (udp_sent_is_received SOCKS (demo_ip 2) 49152 53 [104; 105] (demo_mac 2) (demo_net 15 2)) as (frame & n' & E & _ & R);
    [repeat constructor; done|repeat constructor; done|done|done|done|done|done|done|done|done|].
  exists frame, n'. split; [exact E|]. apply (R [0; 0; 0; 0] 4 (demo_inet 2 15)); [cbn; lia|lia|done|done|done].
Defined.

(** Two packets wait on the loopback of a machine: a ping of ourselves, whose answer is put on the loopback too, and a
    packet of no protocol. *)
Definition demo_ping : list Z := icmp_header 8 0 1 1.
Definition demo_looped_by (s : inetst (L := net (E := wire))) : inetst :=
  run_state (on_net (loopback_send (demo_ip 2) IPV4_PROTO_ICMP demo_ping 8);; on_net (loopback_send (demo_ip 2) 99 [1; 2; 3] 3)) s.
Definition demo_looped : inetst (L := net (E := wire)) := demo_looped_by (demo_inet 2 15).
Lemma demo_looped_ok : InetInv.inet_ok (IL := net_inet_host_laws []) SOCKS [] [] demo_looped.
Proof.
  pose proof (inet_start_ok (IL := net_inet_host_laws []) SOCKS _ _ _ (demo_net_start 2 15)) as Ok0.
  assert (Send : ∀ protocol payload s, protocol ≠ IPV4_PROTO_UDP → InetInv.inet_ok (IL := net_inet_host_laws []) SOCKS [] [] s →
    wp (on_net (loopback_send (demo_ip 2) protocol payload (Z.of_nat (length payload)))) (λ _ t, InetInv.inet_ok (IL := net_inet_host_laws []) SOCKS [] [] t) s).
  { intros protocol payload s Hp Hok. apply keep_net; [done|]. intros Q O HQ. by apply (wp_loopback []). }
  assert (W : wp (on_net (loopback_send (demo_ip 2) IPV4_PROTO_ICMP demo_ping 8);; on_net (loopback_send (demo_ip 2) 99 [1; 2; 3] 3))
    (λ _ t, InetInv.inet_ok (IL := net_inet_host_laws []) SOCKS [] [] t) (demo_inet 2 15)).
  { apply wp_bind. eapply wp_mono; [by apply (Send IPV4_PROTO_ICMP demo_ping)|]. intros u s1 I1. by apply (Send 99 [1; 2; 3]). }
  apply wp_run_state in W as (u & _ & W). exact W.
Qed.
Lemma demo_looped_queue : loop_queue (nw_st (is_host demo_looped)) = [(demo_ip 2, IPV4_PROTO_ICMP, demo_ping); (demo_ip 2, 99, [1; 2; 3])].
Proof. vm_compute. reflexivity. Qed.
(** A third packet goes to the end; polling hands over both that wait, and the answer to the ping waits then. *)
Lemma loopback_is_queue_witness :
  (∃ n', loopback_send (demo_ip 2) 99 [4] 1 (is_host demo_looped) = Some (tt, n') ∧
     loop_queue (nw_st n') = [(demo_ip 2, IPV4_PROTO_ICMP, demo_ping); (demo_ip 2, 99, [1; 2; 3]); (demo_ip 2, 99, [4])]) ∧
  ∃ s', net_loopback_poll SOCKS demo_looped = Some (tt, s') ∧
    delivered SOCKS [(demo_ip 2, IPV4_PROTO_ICMP, demo_ping); (demo_ip 2, 99, [1; 2; 3])] demo_looped s'.
Proof.
  destruct (loopback_is_queue SOCKS [] [] (demo_ip 2) 99 [4] demo_looped demo_looped_ok) as [(n' & E1 & _ & E2) (s' & E3 & D)].
  rewrite demo_looped_queue in E2, D. split; [exists n'; split; [exact E1|exact E2]|]. exists s'. split; [exact E3|exact D].
Defined.
Example demo_looped_answer :
  (λ s, loop_queue (nw_st (is_host s))) (run_state (net_loopback_poll SOCKS) demo_looped) = [(demo_ip 2, IPV4_PROTO_ICMP, [0; 0; 255; 253; 0; 1; 0; 1])].
Proof. vm_compute. reflexivity. Qed.

Lemma bytes_computed l : forallb (λ b, (0 <=? b) && (b <? 256)) l = true → bytes l.
Proof. intros Hl. apply list.Forall_forall. intros b Hb. apply list_elem_of_In in Hb. rewrite forallb_forall in Hl. specialize (Hl b Hb). unfold is_byte. lia. Qed.
(** An offer with a broken option at its end. *)
Definition demo_offer : list Z :=
  [2; 1; 6; 0] ++ be32 0x12345678 ++ replicate 8 0 ++ [10; 0; 2; 15] ++ replicate 8 0 ++ demo_mac 15 ++ replicate 202 0 ++ be32 DHCP_MAGIC_COOKIE ++ [53; 1; 2; 3; 200; 1].
Lemma dhcp_handle_reply_safe_witness :
  ∃ d, dhcp_handle_reply (demo_ip 2) 67 demo_offer (Z.of_nat (length demo_offer)) (demo_net 15 2) = Some (tt, Net (set_nt_dhcp d (demo_netst 15 2)) demo_wire).
Proof.
  apply (dhcp_handle_reply_safe (demo_ip 2) 67 demo_offer (Z.of_nat (length demo_offer)) (demo_net 15 2)); [|vm_compute; split; congruence|vm_compute; reflexivity].
  apply bytes_computed. vm_compute. reflexivity.
Defined.

Lemma demo_noise_honest : frame_honest (replicate 10 255) 10.
Proof. intros vi tl Hv. assert (None = Some vi) by exact Hv. done. Qed.
(** A socket is made, and a frame comes that is none. *)
Lemma net_stack_never_goes_wrong_witness :
  ∃ u v, run_event SOCKS (EvOp (OpSocket 0)) (demo_inet 15 2) = Some (tt, u) ∧ run_event SOCKS (EvFrame (replicate 10 255) 10) u = Some (tt, v) ∧
    netst_ok (nw_st (is_host u)).
Proof.
  destruct (net_stack_never_goes_wrong SOCKS [] [] (demo_inet 15 2) (demo_inet 15 2) (demo_net_start 15 2) (nr_start _ _)) as (_ & _ & F).
  destruct (F (EvOp (OpSocket 0)) I) as [u Eu]. exists u.
  assert (Ru : net_reach SOCKS (demo_inet 15 2) u) by exact (nr_event SOCKS _ _ (EvOp (OpSocket 0)) u (nr_start _ _) I Eu).
  destruct (net_stack_never_goes_wrong SOCKS [] [] (demo_inet 15 2) u (demo_net_start 15 2) Ru) as (_ & Ok & G).
  destruct (G (EvFrame (replicate 10 255) 10)) as [v Ev].
  - split; [repeat constructor; done|]. split; [lia|]. split; [unfold behind; cbn; lia|]. left. exact demo_noise_honest.
  - exists v. split; [exact Eu|split; [exact Ev|exact Ok]].
Defined.

(** From an empty table a socket is made; then a segment comes for nobody. *)
Lemma inet_never_goes_wrong_witness :
  ∃ t u, run_op SOCKS (OpSocket 0) (demo_inet 15 2) = Some (tt, t) ∧ run_op SOCKS (OpTcp (demo_ip 2) (replicate 20 0) 20) t = Some (tt, u).
Proof.
  destruct (inet_never_goes_wrong (IL := net_inet_host_laws []) SOCKS [] [] (demo_inet 15 2) (demo_inet 15 2) (demo_net_start 15 2) (ir_start _ _)) as (_ & F & _).
  destruct (F (OpSocket 0) I) as [t Et]. exists t.
  assert (Rt : inet_reach (IL := net_inet_host_laws []) SOCKS (demo_inet 15 2) t) by exact (ir_op _ _ _ (OpSocket 0) t (ir_start _ _) I Et).
  destruct (inet_never_goes_wrong (IL := net_inet_host_laws []) SOCKS [] [] (demo_inet 15 2) t (demo_net_start 15 2) Rt) as (_ & G & _).
  destruct (G (OpTcp (demo_ip 2) (replicate 20 0) 20)) as [u Eu]; [cbn; lia|]. exists u. split; [exact Et|exact Eu].
Defined.
Lemma inet_alloc_port_fresh_witness :
  ∃ p next, inet_alloc_port (demo_inet 15 2) = Some (p, Inetst (replicate 32 zero_inet) next 7 (demo_net 15 2)) ∧ 49152 <= p < 65536.
Proof.
  destruct (inet_alloc_port_fresh (IL := net_inet_host_laws []) SOCKS [] [] (demo_inet 15 2) (demo_inet 15 2) (demo_net_start 15 2) (ir_start _ _)) as (p & next & E & Hp & _).
  exists p, next. split; [exact E|exact Hp].
Defined.

(** ** A length that wraps *)

(** A socket of the port 53, and a datagram for it whose length field says 0. *)
Definition demo_udp_socket : InetSocket :=
  set_in_local_port 53 (set_in_udp (MkUq (2 ^ 47) (replicate 256 zero_dgram) 0 0) (new_socket SOCKS 0 INET_UDP 0)).
Definition demo_udp_inet : inetst (L := net (E := wire)) := Inetst (demo_udp_socket :: replicate 31 zero_inet) 49152 7 (demo_net 2 15).
Definition demo_liar : list Z :=
  ipv4_frame (demo_mac 2) (demo_mac 15) (demo_ip 15) (demo_ip 2) IPV4_PROTO_UDP 0 0 (be16 5000 ++ be16 53 ++ be16 0 ++ [0; 0] ++ [1; 2; 3]).
(** The length without the header wraps to 65528, and 1500 bytes are copied out of a frame of 45: in the model the copy
    leaves the buffer, in the kernel the program is given what lies behind the frame. *)
Lemma udp_length_wraps :
  Z.of_nat (length demo_liar) = 45 ∧ net_handle_frame SOCKS demo_liar 45 demo_udp_inet = None ∧
  match net_handle_frame SOCKS (demo_liar ++ replicate (Z.to_nat 1600) 7) 45 demo_udp_inet with
  | Some (_, s) => option_map (λ x, (ud_len (hd zero_dgram (uq_slots (in_udp x))), take 6 (ud_data (hd zero_dgram (uq_slots (in_udp x))))))
      (is_socks s !!z 0) = Some (1500, [1; 2; 3; 7; 7; 7])
  | None => False
  end.
Proof. split; [vm_compute; reflexivity|]. split; vm_compute; reflexivity. Qed.
