(* ===== verification/TcpStream.v ===== *)
(** * A connection is a pair of streams

    Two machines with an established connection of kernel/net/inet.c between them, and a network
    that loses, repeats, reorders and delays the segments of it as it likes.  What the program
    at one end has been given is a prefix of what the program at the other end has written; what is
    missing is still in the buffer of the writer; and the end of the stream is told only when all
    of it has been given. *)
From S2P Require Import Prelude RawMem Pmm Heap VfsTypes Ramfs Task TaskRing Sched FsKcalls Socket Ring Net Inet Dhcp NetRecv NetProps TcpMoves InetInv.
Local Open Scope kernel_scope.

(** ** Lemmas: sequence numbers *)

(** The number of the byte [n] of a stream that begins after [iss]. *)
Definition nth_seq (iss n : Z) : Z := u32 (iss + 1 + n).
Lemma nth_seq_inj iss a b : Z.abs (a - b) < 2 ^ 32 → nth_seq iss a = nth_seq iss b → a = b.
Proof.
  unfold nth_seq, u32. intros Hab E. pose proof (Z.div_mod (iss + 1 + a) (2 ^ 32) ltac:(lia)). pose proof (Z.div_mod (iss + 1 + b) (2 ^ 32) ltac:(lia)). rewrite E in *.
  set (qa := (iss + 1 + a) / 2 ^ 32) in *. set (qb := (iss + 1 + b) / 2 ^ 32) in *. clearbody qa qb. change (2 ^ 32) with 4294967296 in *. lia.
Qed.
Lemma nth_seq_add iss a n : u32 (nth_seq iss a + n) = nth_seq iss (a + n).
Proof. unfold nth_seq, u32. rewrite Zplus_mod_idemp_l. f_equal. lia. Qed.
Lemma nth_seq_sub iss a b : u32 (nth_seq iss a - nth_seq iss b) = u32 (a - b).
Proof. unfold nth_seq, u32. rewrite <- Zminus_mod. f_equal. lia. Qed.
Lemma nth_seq_range iss n : 0 <= nth_seq iss n < 2 ^ 32.
Proof. apply u32_range. Qed.
Lemma s32_nth_seq iss a b : - 2 ^ 31 <= a - b < 2 ^ 31 → s32 (nth_seq iss a - nth_seq iss b) = a - b.
Proof.
  intros Hab. unfold s32. rewrite nth_seq_sub. change (2 ^ 31) with 2147483648 in *. change (2 ^ 32) with 4294967296. destruct (Z.ltb_spec (a - b) 0).
  - replace (u32 (a - b)) with (a - b + 4294967296). 2:{ unfold u32. apply (Z.mod_unique _ _ (-1)); [left|]; change (2 ^ 32) with 4294967296; lia. }
    destruct (Z.ltb_spec (a - b + 4294967296) 2147483648); lia.
  - rewrite u32_small by (change (2 ^ 32) with 4294967296; lia). destruct (Z.ltb_spec (a - b) 2147483648); lia.
Qed.
Lemma seq_lt_nth iss a b : - 2 ^ 31 <= a - b < 2 ^ 31 → seq_lt (nth_seq iss a) (nth_seq iss b) = (a <? b).
Proof. intros Hab. unfold seq_lt. rewrite s32_nth_seq by done. destruct (Z.ltb_spec (a - b) 0), (Z.ltb_spec a b); lia. Qed.
Lemma seq_le_nth iss a b : - 2 ^ 31 <= a - b < 2 ^ 31 → seq_le (nth_seq iss a) (nth_seq iss b) = (a <=? b).
Proof. intros Hab. unfold seq_le. rewrite s32_nth_seq by done. destruct (Z.leb_spec (a - b) 0), (Z.leb_spec a b); lia. Qed.

(** What is written behind the first [off] bytes comes behind them. *)
Lemma write_range_tail l off bs l' :
  write_range l off bs = Some l' → 0 <= off → length l' = length l ∧ take (Z.to_nat (off + Z.of_nat (length bs))) l' = take (Z.to_nat off) l ++ bs.
Proof.
  unfold write_range. intros Hw Ho. destruct (_ && _) eqn:E; [|done]. injection Hw as <-. apply andb_prop in E as [_ E%Z.leb_le].
  assert (Lt : length (take (Z.to_nat off) l) = Z.to_nat off) by (rewrite length_take; lia). split; [rewrite !length_app, length_drop, Lt; lia|].
  rewrite app_assoc, take_app_le by (rewrite length_app; lia). apply take_ge. rewrite length_app. lia.
Qed.

(** ** One end *)
Local Abbreviation len l := (Z.of_nat (length l)).
(** Streams are shorter than what sequence numbers tell apart. *)
Definition STREAM_MAX : Z := 2 ^ 31 - 2.
Definition rx_items (x : InetSocket) : list Z := ring_items 0 TCP_RX_SIZE (rr_bytes (in_rx x)) (rr_head (in_rx x)) (rr_count (in_rx x)).
Definition closed (x : InetSocket) : bool := tc_close_requested (in_tcb x).
Definition at_end (x : InetSocket) : bool := tc_fin_received (in_tcb x).
(** The states a connection goes through once it is established. *)
Definition past_syn (x : InetSocket) : Prop :=
  state_of x ∈ [TCP_ESTABLISHED; TCP_CLOSE_WAIT; TCP_FIN_WAIT; TCP_DONE] ∨ state_of x = TCP_CLOSED ∧ tc_error (in_tcb x) ≠ 0.

(** The sending half: the program has written [W], the first [base] bytes of it are acknowledged and gone
    from the buffer, [fl] sequence numbers are under way, and [fa] says that the end is acknowledged. *)
Record sending (iss : Z) (x : InetSocket) (W : list Z) (base fl : Z) (fa : bool) : Prop := {
  se_base : 0 <= base <= len W;
  se_max : len W <= STREAM_MAX;
  se_buffer : take (Z.to_nat (tb_count (in_tx x))) (tb_bytes (in_tx x)) = drop (Z.to_nat base) W;
  se_una : tc_una (in_tcb x) = nth_seq iss (base + Z.b2z fa);
  se_nxt : tc_nxt (in_tcb x) = nth_seq iss (base + Z.b2z fa + fl);
  se_flight : 0 <= fl <= len W - base + Z.b2z (tc_fin_sent (in_tcb x) && negb fa);
  se_fin : tc_fin_sent (in_tcb x) = true → closed x = true ∧ tc_fin_seq (in_tcb x) = nth_seq iss (len W) ∧ (fa = false → fl = len W - base + 1);
  se_acked : fa = true → tc_fin_sent (in_tcb x) = true ∧ base = len W ∧ tm_deadline (in_timer x) = 0
}.
(** The receiving half: [R] has arrived, the program has been given [T] of it. *)
Record receiving (piss : Z) (x : InetSocket) (R T : list Z) : Prop := {
  re_items : R = T ++ rx_items x;
  re_rcv : tc_rcv (in_tcb x) = nth_seq piss (len R + Z.b2z (at_end x))
}.

(** A segment of a machine whose numbers begin at [iss] and that has counted [r] numbers of its peer: its acknowledgement is
    not ahead of what has arrived, its data is that of the stream, and it says the end where the end is. *)
Definition honest_seg (iss piss : Z) (W : list Z) (done : bool) (r : Z) (sg : Segment) : Prop :=
  has (sg_flags sg) TCP_ACK = true ∧ has (sg_flags sg) TCP_RST = false ∧ has (sg_flags sg) TCP_SYN = false ∧ 0 <= sg_wnd sg ∧
  (∃ k, sg_ack sg = nth_seq piss k ∧ 0 <= k <= r) ∧
  (sg_data sg ≠ [] → ∃ o, 0 <= o ∧ sg_seq sg = nth_seq iss o ∧ o + len (sg_data sg) <= len W ∧ sg_data sg = take (length (sg_data sg)) (drop (Z.to_nat o) W)) ∧
  (has (sg_flags sg) TCP_FIN = true → done = true ∧ sg_data sg = [] ∧ sg_seq sg = nth_seq iss (len W)).
(** What is true of a segment stays true. *)
Lemma honest_seg_grow iss piss W W' done done' r r' sg :
  honest_seg iss piss W done r sg → (∃ more, W' = W ++ more ∧ (done = true → more = [])) → (done = true → done' = true) → r <= r' → honest_seg iss piss W' done' r' sg.
Proof.
  intros (H1 & H2 & H3 & H4 & (k & Hk & Hkr) & Hd & Hf) (more & -> & Hm) Hdone Hr. split; [done|]. split; [done|]. split; [done|]. split; [done|].
  split; [exists k; split; [done|lia]|]. split.
  - intros Hne. destruct (Hd Hne) as (o & Ho & Es & Hl & E). exists o. rewrite length_app. split; [done|]. split; [done|]. split; [lia|].
    rewrite E at 1. rewrite drop_app_le by lia. rewrite take_app_le by (rewrite length_drop; lia). done.
  - intros Hfin. destruct (Hf Hfin) as (E1 & E2 & E3). rewrite (Hm E1), app_nil_r. auto.
Qed.

(** A segment as the bytes that were sent. *)
Definition sent_seg (lp rp : Z) (bs : list Z) (sg : Segment) : Prop :=
  ∃ z sum, 0 <= sum < 65536 ∧ bs = tcp_bytes z (sg_seq sg) (sg_flags sg) (sg_data sg) sum ∧ in_local_port z = lp ∧ in_remote_port z = rp ∧
    tc_rcv (in_tcb z) = sg_ack sg ∧ tcp_window z = sg_wnd sg ∧ 0 <= tcp_window z <= 65535 ∧ 0 <= sg_seq sg < 2 ^ 32 ∧ 0 <= sg_ack sg < 2 ^ 32 ∧
    0 <= sg_flags sg < 256 ∧ len (sg_data sg) <= TCP_MSS.
Definition honest_bytes (lp rp iss piss : Z) (W : list Z) (done : bool) (r : Z) (bs : list Z) : Prop :=
  ∃ sg, sent_seg lp rp bs sg ∧ honest_seg iss piss W done r sg.

(** One end: the peer writes [P], which is all of it if [pdone], and has counted [got] of our numbers. *)
Record endpoint (iss piss : Z) (P : list Z) (pdone : bool) (got : Z) (x : InetSocket) (W R T : list Z) : Prop := {
  en_ok : tcp_ok x;
  en_state : past_syn x;
  en_send : ∃ base fl fa, sending iss x W base fl fa ∧ base + Z.b2z fa <= got;
  en_recv : receiving piss x R T;
  en_prefix : ∃ rest, P = R ++ rest;
  en_end : at_end x = true → P = R ∧ pdone = true
}.
Lemma sending_same iss x y W base fl fa :
  in_tx y = in_tx x → tc_una (in_tcb y) = tc_una (in_tcb x) → tc_nxt (in_tcb y) = tc_nxt (in_tcb x) → tc_fin_sent (in_tcb y) = tc_fin_sent (in_tcb x) →
  tc_fin_seq (in_tcb y) = tc_fin_seq (in_tcb x) → (closed x = true → closed y = true) → (fa = true → tm_deadline (in_timer x) = 0 → tm_deadline (in_timer y) = 0) →
  sending iss x W base fl fa → sending iss y W base fl fa.
Proof.
  intros E1 E2 E3 E4 E5 Hc Hd []. constructor; rewrite ?E1, ?E2, ?E3, ?E4, ?E5; try done.
  - intros F. destruct (se_fin0 F) as (? & ? & ?). auto.
  - intros F. destruct (se_acked0 F) as (? & ? & ?). auto.
Qed.
Lemma receiving_same piss x y R T :
  in_rx y = in_rx x → tc_rcv (in_tcb y) = tc_rcv (in_tcb x) → at_end y = at_end x → receiving piss x R T → receiving piss y R T.
Proof. intros E1 E2 E3 []. unfold rx_items in *. constructor; unfold rx_items; rewrite ?E1, ?E2, ?E3; done. Qed.
Lemma window_range x : tcp_ok x → 0 <= tcp_window x <= 65535.
Proof. intros [(L & Hh & Hc) _ _ _]. unfold tcp_window. lia. Qed.
Lemma past_syn_not x : past_syn x → state_of x ∉ [TCP_SYN_SENT; TCP_SYN_RCVD] ∧ state_of x ≠ TCP_LISTEN.
Proof. unfold past_syn. intros H. destruct (state_of x); split; intros H2; set_solver. Qed.

Section Endpoint.
Context (lp rp iss piss : Z) (P : list Z) (pdone : bool) (got : Z).
Local Abbreviation ep := (endpoint iss piss P pdone got).
(** What a move has to keep; [W R T] before it. *)
Definition moved (x : InetSocket) (W R T : list Z) (es : list ev) (y : InetSocket) : Prop :=
  ∃ more, ep y (W ++ (es ≫= ev_wrote)) (R ++ more) (T ++ (es ≫= ev_took)) ∧ (at_end x = true → at_end y = true) ∧ (closed x = true → closed y = true) ∧
    Forall (honest_bytes lp rp iss piss (W ++ (es ≫= ev_wrote)) (closed y) (len (R ++ more) + Z.b2z (at_end y))) (es ≫= ev_sent).

(** A move that sends nothing and leaves streams as they are. *)
Lemma moved_still x y W R T :
  ep x W R T → tcp_ok y → past_syn y → (∃ base fl fa, sending iss y W base fl fa ∧ base + Z.b2z fa <= got) → receiving piss y R T → at_end y = at_end x →
  (closed x = true → closed y = true) → moved x W R T [] y.
Proof.
  intros [] Ok Hst Hs Hr He Hc. exists []. cbn. rewrite !app_nil_r. split; [constructor; [done|done|done|done|done|by rewrite He]|]. split; [by rewrite He|]. split; [done|constructor].
Qed.
(** One segment sent, of the numbers of the socket as it is before. *)
Lemma honest_sent x y W R T seq flags data bs :
  ep x W R T → in_local_port x = lp → in_remote_port x = rp → seg_of x seq flags data bs → 0 <= seq < 2 ^ 32 → 0 <= flags < 256 → len data <= TCP_MSS →
  has flags TCP_ACK = true → has flags TCP_RST = false → has flags TCP_SYN = false → at_end y = at_end x → 
  (data ≠ [] → ∃ o, 0 <= o ∧ seq = nth_seq iss o ∧ o + len data <= len W ∧ data = take (length data) (drop (Z.to_nat o) W)) →
  (has flags TCP_FIN = true → closed y = true ∧ data = [] ∧ seq = nth_seq iss (len W)) →
  honest_bytes lp rp iss piss W (closed y) (len R + Z.b2z (at_end y)) bs.
Proof.
  intros Ep El Er (sum & Hsum & ->) Hseq Hfl Hdl H1 H2 H3 He Hd Hf. destruct Ep as [Ok _ _ [_ Hrcv] _ _]. pose proof (window_range x Ok).
  exists (MkSeg flags seq (tc_rcv (in_tcb x)) (tcp_window x) data). split.
  - exists x, sum. cbn. split_and!; try done; try lia; rewrite Hrcv; apply nth_seq_range.
  - unfold honest_seg. cbn [sg_flags sg_wnd sg_ack sg_data sg_seq]. split_and!; try done; try lia. exists (len R + Z.b2z (at_end x)). split; [done|]. rewrite He.
    destruct (at_end x); cbn; lia.
Qed.
Lemma moved_sent x y W R T bs :
  ep y W R T → at_end y = at_end x → (closed x = true → closed y = true) → honest_bytes lp rp iss piss W (closed y) (len R + Z.b2z (at_end y)) bs → moved x W R T [Sent bs] y.
Proof. intros Ep He Hc Hb. exists []. cbn. rewrite !app_nil_r. split; [done|]. split; [by rewrite He|]. split; [done|]. by constructor. Qed.

(** ** Lemmas: sending *)
Lemma flight_raw x W base fl fa : sending iss x W base fl fa → raw_flight x = fl.
Proof.
  intros []. unfold raw_flight. rewrite se_una0, se_nxt0, nth_seq_sub. unfold STREAM_MAX in *. replace (base + Z.b2z fa + fl - (base + Z.b2z fa)) with fl by lia.
  apply u32_small. destruct (_ && _); cbn in *; lia.
Qed.
Lemma sending_count x W base fl fa : tcp_ok x → sending iss x W base fl fa → tb_count (in_tx x) = len W - base.
Proof.
  intros [_ Ht Hc _] []. apply (f_equal length) in se_buffer0. rewrite length_take, length_drop in se_buffer0. lia.
Qed.
Lemma moved_data x W R T length' data bs :
  ep x W R T → in_local_port x = lp → in_remote_port x = rp →
  bytes_in_flight x < tb_count (in_tx x) → 0 < length' <= TCP_MSS → bytes_in_flight x + length' <= tb_count (in_tx x) →
  read_range (tb_bytes (in_tx x)) (bytes_in_flight x) length' = Some data → seg_of x (tc_nxt (in_tcb x)) (Z.lor TCP_ACK TCP_PSH) data bs →
  moved x W R T [Sent bs] (set_nxt (u32 (tc_nxt (in_tcb x) + length')) x).
Proof.
  intros Ep El Er Hn Hl Hle Hd Sg. pose proof Ep as [Ok Hst (base & fl & fa & Hs & Hg) Hr Hp He]. pose proof (flight_raw _ _ _ _ _ Hs) as Hraw. pose proof (sending_count _ _ _ _ _ Ok Hs) as Hcnt.
  rewrite (flight_eq x) in *. rewrite Hraw in *. pose proof Hs as [Hb Hm Hbuf Hu Hnx Hf Hfin Ha].
  destruct (tc_fin_sent (in_tcb x)) eqn:Ef; cbn [andb] in *.
  { exfalso. destruct (Hfin eq_refl) as (_ & _ & Hfl). destruct fa; [destruct (Ha eq_refl) as (_ & -> & _)|rewrite (Hfl eq_refl) in *]; destruct (Z.ltb_spec 0 fl); try lia.
    destruct (Z.ltb_spec 0 (len W - base + 1)); lia. }
  assert (fa = false) as -> by (destruct fa; [by destruct (Ha eq_refl) as (? & _)|done]). cbn [Z.b2z] in *. rewrite Z.add_0_r in *.
  assert (Sy : sending iss (set_nxt (u32 (tc_nxt (in_tcb x) + length')) x) W base (fl + length') false).
  { constructor; cbn; try done; rewrite ?Z.add_0_r; [done| |rewrite Ef; cbn; lia|by rewrite Ef]. rewrite Hnx, nth_seq_add. f_equal. lia. }
  apply moved_sent; [constructor; [by destruct Ok|done|exists base, (fl + length'), false; split; [done|cbn; lia]|by apply (receiving_same piss x)|done|done]|done|done|].
  assert (Ed : data = take (Z.to_nat length') (drop (Z.to_nat (base + fl)) W)).
  { destruct Ok as [_ Ht Hc _]. rewrite read_range_spec in Hd by lia. injection Hd as <-. unfold spec_read.
    replace (Z.to_nat (base + fl)) with (Z.to_nat base + Z.to_nat fl)%nat by lia. rewrite <- drop_drop, <- Hbuf.
    rewrite skipn_firstn_comm, take_take. f_equal. lia. }
  assert (Ld : len data = length') by (rewrite Ed, length_take, length_drop; lia).
  eapply (honest_sent x _ W R T); [done|done|done|exact Sg|rewrite Hnx; apply nth_seq_range|done|lia|done|done|done|done| |done].
  intros _. exists (base + fl). split; [lia|]. split; [done|]. split; [lia|]. rewrite Ed at 1. f_equal. lia.
Qed.
Lemma moved_fin x W R T bs :
  ep x W R T → in_local_port x = lp → in_remote_port x = rp → is_open x → closed x = true → tc_fin_sent (in_tcb x) = false →
  u32 (tc_nxt (in_tcb x) - tc_una (in_tcb x)) = tb_count (in_tx x) → seg_of x (tc_nxt (in_tcb x)) (Z.lor TCP_ACK TCP_FIN) [] bs →
  moved x W R T [Sent bs] (after_fin x).
Proof.
  intros Ep El Er Hop Hc Ef Hraw Sg. pose proof Ep as [Ok Hst (base & fl & fa & Hs & Hg) Hr Hp He]. pose proof (flight_raw _ _ _ _ _ Hs) as Hraw'. fold (raw_flight x) in Hraw.
  pose proof (sending_count _ _ _ _ _ Ok Hs) as Hcnt. pose proof Hs as [Hb Hm Hbuf Hu Hnx Hf Hfin Ha].
  assert (fa = false) as -> by (destruct fa; [destruct (Ha eq_refl) as (? & _); congruence|done]). cbn [Z.b2z] in *. rewrite Z.add_0_r in *.
  assert (Efl : fl = len W - base) by lia.
  assert (Sy : sending iss (after_fin x) W base (fl + 1) false).
  { constructor; cbn; try done; rewrite ?Z.add_0_r; [done| |lia|].
    - rewrite Hnx, nth_seq_add. f_equal. lia.
    - intros _. split; [done|]. split; [rewrite Hnx; f_equal; lia|lia]. }
  apply moved_sent; [constructor; [by destruct Ok| |exists base, (fl + 1), false; split; [done|cbn; lia]|by apply (receiving_same piss x)|done|done]|done|done|].
  - unfold past_syn, after_fin, state_of. cbn. case_decide; set_solver.
  - eapply (honest_sent x _ W R T); [done|done|done|exact Sg|rewrite Hnx; apply nth_seq_range|done|done|done|done|done|done|done|].
    intros _. split; [done|]. split; [done|]. rewrite Hnx. f_equal. lia.
Qed.

(** ** Lemmas: what the peer has acknowledged *)
Lemma moved_acked x W R T sg y d :
  ep x W R T → got <= len W + 1 → honest_seg piss iss P pdone got sg → has (sg_flags sg) TCP_ACK = true →
  seq_lt (tc_una (in_tcb x)) (sg_ack sg) = true → seq_le (sg_ack sg) (tc_nxt (in_tcb x)) = true → take_acked (sg_ack sg) x = Some y →
  moved x W R T [] (after_acked d y).
Proof.
  intros Ep Hgot (_ & _ & _ & _ & (k & Hk & Hkr) & _) _ Hlt Hle Et. pose proof Ep as [Ok Hst (base & fl & fa & Hs & Hg) Hr Hp He].
  pose proof (sending_count _ _ _ _ _ Ok Hs) as Hcnt. pose proof Hs as [Hb Hm Hbuf Hu Hnx Hf Hfin Ha]. unfold STREAM_MAX in Hm.
  assert (Hfl : 0 <= fl <= len W + 1 - base) by (destruct (_ && _); cbn [Z.b2z] in Hf; lia).
  rewrite Hu, Hk in Hlt. rewrite Hk, Hnx in Hle. rewrite seq_lt_nth in Hlt by (destruct fa; cbn [Z.b2z]; lia). apply Z.ltb_lt in Hlt.
  rewrite seq_le_nth in Hle by (destruct fa; cbn [Z.b2z]; lia). apply Z.leb_le in Hle.
  assert (fa = false) as ->. { destruct fa; [|done]. destruct (Ha eq_refl) as (E1 & E2 & _). rewrite E1 in Hf. cbn [andb negb Z.b2z] in *. lia. }
  cbn [Z.b2z] in *. rewrite Z.add_0_r in *.
  destruct (take_acked_spec (sg_ack sg) x Ok) as (dd & bs & Hdd & Lb & Tb & Ed & E). rewrite E in Et. injection Et as <-.
  set (all := tc_fin_sent (in_tcb x) && (len W <? k)).
  assert (Ed' : dd = k - base - Z.b2z all).
  { cbv zeta in Ed. rewrite Hu, Hk, nth_seq_sub, (u32_small (k - base)) in Ed by (change (2 ^ 32) with 4294967296; lia). rewrite Ed. unfold all.
    destruct (tc_fin_sent (in_tcb x)) eqn:Ef; cbn [andb negb Z.b2z] in *; [|lia].
    destruct (Hfin eq_refl) as (_ & Hfs & _). rewrite Hfs, seq_lt_nth by lia. destruct (Z.ltb_spec (len W) k); cbn [Z.b2z]; [rewrite u32_small by (change (2 ^ 32) with 4294967296; lia)|]; lia. }
  assert (Hall : all = true → tc_fin_sent (in_tcb x) = true ∧ k = len W + 1).
  { unfold all. intros [-> H%Z.ltb_lt]%andb_prop. split; [done|lia]. }
  assert (Hnall : all = false → k <= len W).
  { unfold all. destruct (tc_fin_sent (in_tcb x)); cbn [andb negb Z.b2z] in *; [intros H%Z.ltb_ge; lia|lia]. }
  assert (Hst' : past_syn (after_acked d (upd_timer (λ m, set_rto (TCP_RTO_MIN_MS * 2) (set_retries 0 m))
      (upd_tcb (set_tc_una (sg_ack sg)) (set_in_tx (MkTx (tb_ptr (in_tx x)) bs (tb_count (in_tx x) - dd)) x))))) by exact Hst.
  eapply moved_still; [exact Ep| |exact Hst'| |by apply (receiving_same piss x)|done|done].
  { destruct Ok. constructor; cbn; [done|lia|lia|done]. }
  exists (base + dd), (fl - (k - base)), all. split; [|destruct all; cbn [Z.b2z] in *; lia]. constructor; cbn.
  - destruct all; cbn [Z.b2z] in *; [destruct (Hall eq_refl)|]; lia.
  - unfold STREAM_MAX. lia.
  - rewrite Tb, Hbuf, drop_drop. f_equal. lia.
  - rewrite Hk. f_equal. lia.
  - rewrite Hnx. f_equal. lia.
  - destruct all; cbn [Z.b2z] in *; [destruct (Hall eq_refl) as [-> ?]|specialize (Hnall eq_refl)]; [cbn [andb negb Z.b2z] in *; lia|].
    destruct (tc_fin_sent (in_tcb x)); cbn [andb negb Z.b2z] in *; lia.
  - intros Ef. destruct (Hfin Ef) as (E1 & E2 & E3). split; [done|]. split; [done|]. intros Ea. rewrite Ea in *. cbn [Z.b2z] in *. specialize (E3 eq_refl). lia.
  - intros Ea. destruct (Hall Ea) as [Ef E1]. rewrite Ea in *. cbn [Z.b2z] in *. destruct (Hfin Ef) as (_ & _ & E3). specialize (E3 eq_refl).
    split; [done|]. split; [lia|]. rewrite Hk, Hnx. replace (base + fl) with k by lia. by rewrite Z.eqb_refl.
Qed.
Lemma moved_rewind x W R T m : ep x W R T → tm_deadline (in_timer x) ≠ 0 → moved x W R T [] (rewound (set_in_timer m x)).
Proof.
  intros Ep Hd. pose proof Ep as [Ok Hst (base & fl & fa & Hs & Hg) Hr Hp He]. pose proof Hs as [Hb Hm Hbuf Hu Hnx Hf Hfin Ha].
  assert (fa = false) as -> by (destruct fa; [by destruct (Ha eq_refl) as (_ & _ & ?)|done]). cbn [Z.b2z] in *. rewrite Z.add_0_r in *.
  eapply moved_still; [exact Ep|by destruct Ok| | |by apply (receiving_same piss x)|done|done].
  - unfold past_syn, rewound, state_of, upd_tcb, set_in_tcb. cbn. repeat case_match; try done; set_solver.
  - exists base, 0, false. split; [|cbn; lia]. constructor; cbn; try done; rewrite ?Z.add_0_r; try done. lia.
Qed.
Lemma moved_wrote x W R T src bs :
  ep x W R T → closed x = false → len W + len src <= STREAM_MAX → tb_count (in_tx x) + len src <= TCP_TX_SIZE →
  write_range (tb_bytes (in_tx x)) (tb_count (in_tx x)) src = Some bs →
  moved x W R T [Wrote src] (set_in_tx (MkTx (tb_ptr (in_tx x)) bs (tb_count (in_tx x) + len src)) x).
Proof.
  intros Ep Hc Hmax Hle Hw. pose proof Ep as [Ok Hst (base & fl & fa & Hs & Hg) Hr Hp He]. pose proof Hs as [Hb Hm Hbuf Hu Hnx Hf Hfin Ha].
  pose proof Ok as [_ Ht Hcn _].
  assert (Ef : tc_fin_sent (in_tcb x) = false) by (destruct (tc_fin_sent (in_tcb x)); [destruct (Hfin eq_refl); congruence|done]).
  assert (fa = false) as -> by (destruct fa; [destruct (Ha eq_refl); congruence|done]). rewrite Ef in Hf. cbn [andb negb Z.b2z] in *. rewrite Z.add_0_r in *.
  destruct (write_range_tail _ _ _ _ Hw) as [Lb Tb]; [lia|].
  exists []. cbn. rewrite !app_nil_r. split; [|split; [done|split; [done|constructor]]].
  constructor; [by constructor; cbn; [apply Ok|lia|lia|apply Ok]|done| |by apply (receiving_same piss x)|done|done].
  exists base, fl, false. split; [|cbn; lia]. constructor; cbn; rewrite ?length_app, ?Ef; cbn [andb negb Z.b2z]; rewrite ?Z.add_0_r; try done; try lia.
  rewrite Tb, Hbuf, drop_app_le by lia. done.
Qed.

(** ** Lemmas: what the peer has sent *)
Lemma moved_data_in x W R T sg pad y :
  ep x W R T → len P <= STREAM_MAX → honest_seg piss iss P pdone got sg → sg_seq sg = tc_rcv (in_tcb x) → tc_fin_received (in_tcb x) = false →
  0 < len (sg_data sg) → take_data (sg_data sg ++ pad) (len (sg_data sg)) x = Some y → moved x W R T [] y.
Proof.
  intros Ep HP (_ & _ & _ & _ & _ & Hd & _) Es Ef Hl Et. pose proof Ep as [Ok Hst Hs Hr [rest Hp] He]. pose proof Hr as [Hit Hrcv].
  destruct Hd as (o & Ho & Eo & Hol & Ed); [by intros E; rewrite E in Hl|].
  assert (o = len R) as ->.
  { rewrite Eo, Hrcv in Es. unfold at_end in Es. rewrite Ef in Es. cbn [Z.b2z] in Es. rewrite Z.add_0_r in Es. eapply nth_seq_inj; [|exact Es].
    rewrite Hp, length_app in *. unfold STREAM_MAX in HP. change (2 ^ 31) with 2147483648 in HP. change (2 ^ 32) with 4294967296. lia. }
  rewrite Nat2Z.id in Ed. rewrite Hp, drop_app_length in Ed.
  destruct (take_data_spec (sg_data sg ++ pad) (len (sg_data sg)) x Ok) as (bs & E & Wf & Hn & It); [rewrite length_app; lia|]. rewrite E in Et. injection Et as <-.
  set (n := Z.min (len (sg_data sg)) (TCP_RX_SIZE - rr_count (in_rx x))) in *. assert (Hnl : n <= len (sg_data sg)) by (unfold n; lia).
  rewrite take_app_le in It by lia. set (more := take (Z.to_nat n) (sg_data sg)) in *. assert (Lm : len more = n) by (unfold more; rewrite length_take; lia).
  exists more. cbn. rewrite !app_nil_r. split; [|split; [done|split; [done|constructor]]]. constructor.
  - destruct Ok. by constructor.
  - exact Hst.
  - destruct Hs as (base & fl & fa & Hs & Hg). exists base, fl, fa. split; [|done]. by apply (sending_same iss x).
  - constructor; [unfold rx_items; cbn; rewrite It, Hit, <- app_assoc; done|]. cbn. unfold at_end. cbn. rewrite Ef, Hrcv. cbn [Z.b2z]. unfold at_end. rewrite Ef. cbn [Z.b2z].
    rewrite nth_seq_add, length_app. f_equal. lia.
  - exists (drop (Z.to_nat n) rest). rewrite <- app_assoc, Hp. f_equal.
    assert (Em : more = take (Z.to_nat n) rest) by (unfold more; rewrite Ed, take_take; f_equal; lia). rewrite Em. by rewrite take_drop.
  - unfold at_end. cbn. congruence.
Qed.
Lemma moved_fin_in x W R T sg :
  ep x W R T → len P <= STREAM_MAX → honest_seg piss iss P pdone got sg → has (sg_flags sg) TCP_FIN = true →
  u32 (sg_seq sg + len (sg_data sg)) = tc_rcv (in_tcb x) → tc_fin_received (in_tcb x) = false → moved x W R T [] (after_fin_in x).
Proof.
  intros Ep HP (_ & _ & _ & _ & _ & _ & Hf) Hfl Es Ef. pose proof Ep as [Ok Hst Hs Hr [rest Hp] He]. pose proof Hr as [Hit Hrcv].
  destruct (Hf Hfl) as (Hdone & Ed & Eq). rewrite Ed in Es. cbn [length] in Es. rewrite Eq, nth_seq_add, Z.add_0_r, Hrcv in Es. unfold at_end in Es. rewrite Ef in Es. cbn [Z.b2z] in Es.
  assert (El : len P = len R).
  { rewrite Z.add_0_r in Es. eapply nth_seq_inj; [|exact Es]. rewrite Hp, length_app in *. unfold STREAM_MAX in HP. change (2 ^ 31) with 2147483648 in HP. change (2 ^ 32) with 4294967296. lia. }
  assert (rest = []) as -> by (rewrite Hp, length_app in El; destruct rest; [done|cbn in El; lia]). rewrite app_nil_r in Hp.
  exists []. cbn. rewrite !app_nil_r. split; [|split; [done|split; [done|constructor]]]. constructor.
  - by destruct Ok.
  - unfold past_syn, after_fin_in, state_of, upd_tcb, set_in_tcb in *. cbn in *. repeat case_decide; set_solver.
  - destruct Hs as (base & fl & fa & Hs & Hg). exists base, fl, fa. split; [|done]. by apply (sending_same iss x).
  - constructor; [done|]. cbn. rewrite Hrcv. unfold at_end. rewrite Ef. cbn [Z.b2z]. rewrite nth_seq_add. f_equal. lia.
  - exists []. by rewrite app_nil_r.
  - done.
Qed.
Lemma moved_took x W R T count bs y : ep x W R T → 0 <= count → rx_take count x = Some (bs, y) → moved x W R T [Took bs] y.
Proof.
  intros Ep Hc Et. pose proof Ep as [Ok Hst Hs Hr Hp He]. destruct (rx_take_spec count x Ok Hc) as (E & Wf & It). rewrite E in Et. injection Et as <- <-.
  set (n := Z.min count (rr_count (in_rx x))) in *. exists []. cbn. rewrite !app_nil_r. split; [|split; [done|split; [done|constructor]]]. constructor; try done.
  - destruct Ok. by constructor.
  - destruct Hs as (base & fl & fa & Hs & Hg). exists base, fl, fa. split; [|done]. by apply (sending_same iss x).
  - destruct Hr as [Hit Hrcv]. constructor; [|done]. unfold rx_items in *. cbn. rewrite It, Hit, <- app_assoc. f_equal. by rewrite take_drop.
Qed.

(** ** Lemmas: runs *)
Lemma moved_trans x W R T es y more es' z :
  ep y (W ++ (es ≫= ev_wrote)) (R ++ more) (T ++ (es ≫= ev_took)) → (at_end x = true → at_end y = true) → (closed x = true → closed y = true) →
  Forall (honest_bytes lp rp iss piss (W ++ (es ≫= ev_wrote)) (closed y) (len (R ++ more) + Z.b2z (at_end y))) (es ≫= ev_sent) →
  (closed y = true → es' ≫= ev_wrote = []) →
  moved y (W ++ (es ≫= ev_wrote)) (R ++ more) (T ++ (es ≫= ev_took)) es' z → moved x W R T (es ++ es') z.
Proof.
  intros E1 A1 C1 F1 Hw (more' & E2 & A2 & C2 & F2). exists (more ++ more'). rewrite !bind_app, !app_assoc. split; [done|]. split; [auto|]. split; [auto|].
  apply list.Forall_app. split; [|done]. eapply list.Forall_impl; [exact F1|]. intros bs (sg & Hs & Hh). exists sg. split; [done|].
  eapply honest_seg_grow; [exact Hh|by exists (es' ≫= ev_wrote)|done|]. rewrite (length_app (R ++ more)).
  destruct (at_end y); [rewrite A2 by done; lia|]. destruct (at_end z); cbn [Z.b2z]; lia.
Qed.
(** What has to hold of the cause of a move. *)
Definition cause_ok (inc : cause) (x : InetSocket) : Prop :=
  (∀ sg, inc = Incoming sg → honest_seg piss iss P pdone got sg) ∧ (inc = Program → closed x = false).
Lemma move_closed inc x es y : move inc x es y → tcp_ok x → past_syn x → inc ≠ Closing → closed y = closed x.
Proof.
  intros Hm Ok Hst Hc. apply past_syn_not in Hst as [Hst _]. destruct Hm; try done.
  - destruct (take_acked_spec (sg_ack sg) x Ok) as (dd & bs & _ & _ & _ & _ & E). rewrite E in *. by simplify_eq.
  - destruct (take_data_spec (sg_data sg ++ pad) (len (sg_data sg)) x Ok) as (bs & E & _); [rewrite length_app; lia|]. rewrite E in *. by simplify_eq.
  - destruct (rx_take_spec count x Ok) as (E & _); [done|]. rewrite E in *. by simplify_eq.
Qed.
Lemma moved_move inc x es y W R T :
  ep x W R T → in_local_port x = lp → in_remote_port x = rp → got <= len W + 1 → len P <= STREAM_MAX → cause_ok inc x →
  len (W ++ (es ≫= ev_wrote)) <= STREAM_MAX → move inc x es y → moved x W R T es y.
Proof.
  intros Ep El Er Hg HP [Hi Hp] Hmax Hm. pose proof Ep as [Ok Hst Hs Hr _ _]. pose proof (past_syn_not _ Hst) as [Hst' _].
  assert (Same : ∀ z, in_tx z = in_tx x → in_rx z = in_rx x → tc_una (in_tcb z) = tc_una (in_tcb x) → tc_nxt (in_tcb z) = tc_nxt (in_tcb x) → tc_rcv (in_tcb z) = tc_rcv (in_tcb x) →
    tc_fin_sent (in_tcb z) = tc_fin_sent (in_tcb x) → tc_fin_seq (in_tcb z) = tc_fin_seq (in_tcb x) → at_end z = at_end x → (closed x = true → closed z = true) → past_syn z →
    0 <= tc_wnd (in_tcb z) → (tm_deadline (in_timer z) ≠ 0 → tm_deadline (in_timer x) ≠ 0 ∨ tc_una (in_tcb x) ≠ tc_nxt (in_tcb x)) → moved x W R T [] z).
  { intros z E1 E2 E3 E4 E5 E6 E7 E8 E9 E10 E11 E12. eapply moved_still; [exact Ep| |done| |by apply (receiving_same piss x)|done|done].
    - destruct Ok. by constructor; rewrite ?E1, ?E2.
    - destruct Hs as (base & fl & fa & Hs & Hgot). exists base, fl, fa. split; [|done]. apply (sending_same iss x); try done.
      intros Ea Ed. destruct (decide (tm_deadline (in_timer z) = 0)) as [|Hne]; [done|]. destruct (E12 Hne) as [|Hne']; [done|]. exfalso. apply Hne'.
      pose proof Hs as [_ _ _ Hu Hnx Hf _ Ha]. rewrite Hu, Hnx, Ea. destruct (Ha Ea) as (F1 & F2 & _). rewrite F1, Ea in Hf. cbn [andb negb Z.b2z] in Hf. f_equal. lia. }
  destruct Hm as [|m Hd|f|bs Sg|flags bs Hsy|bs Hsy|ln data bs Hop n Hn Hl Hle Hd Sg|bs Hop Hc Hf Hfl Sg|sg z d Ei Ha Hlt Hle Et|w Hw|sg pad z Ei Es Ef Hl Et|sg Ei Hfl Es Ef|t m Hsy|e|m Hd|src bs Ei Hsy Hle Hw|count bs z Ei Hc Et|dn Ei].
  - apply Same; try done. apply Ok. by left.
  - apply Same; try done. apply Ok.
  - apply Same; try done. apply Ok. by left.
  - apply moved_sent; [done|done|done|]. eapply (honest_sent x); try done; [destruct Hs as (base & fl & fa & [] & _); rewrite se_nxt0; apply nth_seq_range].
  - done.
  - rewrite Hsy in Hst'. set_solver.
  - by eapply moved_data.
  - by eapply moved_fin.
  - eapply moved_acked; try done. by apply Hi.
  - apply Same; try done. by left.
  - eapply moved_data_in; try done. by apply Hi.
  - eapply moved_fin_in; try done. by apply Hi.
  - done.
  - apply Same; try done; [|apply Ok]. unfold past_syn. cbn. set_solver.
  - by apply moved_rewind.
  - cbn in Hmax. rewrite app_nil_r, length_app in Hmax. apply moved_wrote; try done; [by apply Hp|lia].
  - by eapply moved_took.
  - apply Same; try done. apply Ok. by left.
Qed.
End Endpoint.

(** ** Runs of moves *)
Section Runs.
Context {L : Type} `{KM : KernelMem L} `{IH : InetHost L} {IL : InetHostLaws L}.
Context (lp rp iss piss : Z) (P : list Z) (pdone : bool) (got : Z).

Lemma go_closed inc (x : InetSocket) (h : L) es y h' W R T :
  go inc x h es y h' → endpoint iss piss P pdone got x W R T → in_local_port x = lp → in_remote_port x = rp → got <= len W + 1 → len P <= STREAM_MAX →
  cause_ok iss piss P pdone got inc x → len (W ++ (es ≫= ev_wrote)) <= STREAM_MAX →
  moved lp rp iss piss P pdone got x W R T es y ∧ (inc ≠ Closing → closed y = closed x).
Proof.
  intros G. revert W R T. induction G as [x h|x h es y h1 es' z h2 Hm Hs Hg IHg]; intros W R T Ep El Er Hgot HP Hc Hmax.
  { split; [|done]. pose proof Ep as [? ? ? ? ? ?]. by eapply moved_still. }
  pose proof Ep as [Ok Hst _ _ _ _]. rewrite bind_app, app_assoc in Hmax.
  assert (M1 : moved lp rp iss piss P pdone got x W R T es y) by (eapply moved_move; try done; rewrite length_app in Hmax; lia).
  destruct (move_ok _ _ _ _ Hm Ok) as [_ SC]. destruct M1 as (more & E1 & A1 & C1 & F1).
  assert (Hcl : inc ≠ Closing → closed y = closed x) by (intros; by eapply move_closed).
  destruct (IHg (W ++ (es ≫= ev_wrote)) (R ++ more) (T ++ (es ≫= ev_took))) as [M2 C2]; try done.
  - by rewrite (sc_local _ _ SC).
  - by rewrite (sc_port _ _ SC).
  - rewrite length_app. lia.
  - destruct Hc as [H1 H2]. split; [done|]. intros E. rewrite Hcl by congruence. by apply H2.
  - split; [|intros E; by rewrite C2, Hcl]. eapply (moved_trans lp rp iss piss P pdone got x W R T es y more es' z E1 A1 C1 F1); [|exact M2].
    intros Ec. assert (Hi : inc = Program ∨ inc ≠ Program) by (destruct inc; [by right|by right|by left|by right]).
    destruct Hi as [Ei|Ei]; [|by apply (go_quiet _ _ _ _ _ _ Hg)]. exfalso. rewrite Hcl in Ec by congruence. destruct Hc as [_ H2]. rewrite H2 in Ec; done.
Qed.
End Runs.

(** ** Segments as bytes *)
Lemma read_tcp_bytes z seq flags data sum pad :
  0 <= in_local_port z < 65536 → 0 <= in_remote_port z < 65536 → 0 <= seq < 2 ^ 32 → 0 <= tc_rcv (in_tcb z) < 2 ^ 32 → 0 <= tcp_window z < 65536 →
  has flags TCP_ACK = true → has flags TCP_SYN = false →
  let bs := tcp_bytes z seq flags data sum in
  len bs = 20 + len data ∧ drop 20 (bs ++ pad) = data ++ pad ∧
  ∃ h, read_tcp_header (bs ++ pad) = Some h ∧ net_htons (th_src_port h) = in_local_port z ∧ net_htons (th_dst_port h) = in_remote_port z ∧
    net_htonl (th_seq h) = seq ∧ net_htonl (th_ack h) = tc_rcv (in_tcb z) ∧ u16 (Z.shiftr (th_offset h) 4 * 4) = 20 ∧ th_flags h = flags ∧ net_htons (th_window h) = tcp_window z.
Proof.
  intros Hl Hr Hs Ha Hw Hack Hsyn bs. unfold bs, tcp_bytes. rewrite Hack, Hsyn. cbn [length app].
  set (off := u8 _). assert (Eo : off = 80) by done. clearbody off. subst off.
  assert (R : ∀ a b c d e f g : list Z, length a = 2%nat → length b = 2%nat → length c = 4%nat → length d = 4%nat → length e = 2%nat → length f = 2%nat →
    let l := (a ++ b ++ c ++ d ++ 80 :: flags :: e ++ f ++ 0 :: 0 :: g) in
    len l = 20 + len g ∧ drop 20 l = g ∧ read_tcp_header l = Some (MkTcp (le_combine a) (le_combine b) (le_combine c) (le_combine d) 80 flags (le_combine e))).
  { intros a b c d e f g La Lb Lc Ld Le Lf. destruct a as [|a0 [|a1 [|]]]; try done. destruct b as [|b0 [|b1 [|]]]; try done.
    destruct c as [|c0 [|c1 [|c2 [|c3 [|]]]]]; try done. destruct d as [|d0 [|d1 [|d2 [|d3 [|]]]]]; try done. destruct e as [|e0 [|e1 [|]]]; try done. destruct f as [|f0 [|f1 [|]]]; try done.
    cbn zeta. split; [cbn [app length]; lia|]. split; [done|]. unfold read_tcp_header. cbn [app].
    match goal with |- context [raw_field ?l0 0 2] => set (l := l0) end.
    assert (F : ∀ u v w off n, l = u ++ v ++ w → off = Z.of_nat (length u) → n = Z.of_nat (length v) → raw_field l off n = Some (le_combine v))
      by (intros u v w off n -> Ho Hn; by apply raw_field_mid).
    rewrite (F [] [a0; a1] _ 0 2 eq_refl eq_refl eq_refl). rewrite (F [a0; a1] [b0; b1] _ 2 2 eq_refl eq_refl eq_refl).
    rewrite (F [a0; a1; b0; b1] [c0; c1; c2; c3] _ 4 4 eq_refl eq_refl eq_refl). rewrite (F [a0; a1; b0; b1; c0; c1; c2; c3] [d0; d1; d2; d3] _ 8 4 eq_refl eq_refl eq_refl).
    by rewrite (F [a0; a1; b0; b1; c0; c1; c2; c3; d0; d1; d2; d3; 80; flags] [e0; e1] _ 14 2 eq_refl eq_refl eq_refl). }
  rewrite <- !app_assoc. cbn [app]. 
  specialize (R (be16 (in_local_port z)) (be16 (in_remote_port z)) (be32 seq) (be32 (tc_rcv (in_tcb z))) (be16 (tcp_window z)) (le_split 2 sum)).
  assert (R' : ∀ g, _) by (intros g; exact (R g (be16_length _) (be16_length _) (be32_length _) (be32_length _) (be16_length _) (length_le_split _ _))). cbv zeta in R'. clear R.
  rewrite <- !app_assoc. cbn [app]. destruct (R' data) as (L1 & _). destruct (R' (data ++ pad)) as (_ & D & E). split; [exact L1|]. split; [exact D|].
  eexists. split; [exact E|]. cbn [th_src_port th_dst_port th_seq th_ack th_offset th_flags th_window]. rewrite !be16_read, !be32_read by done. done.
Qed.
