(* ===== verification/TcpPair.v ===== *)
(** * Two machines and the network between them

    The operations of inet.c on one end of an established connection, by what they do to the
    connection (TcpStream.v), and the two ends together: a step of either machine, where the segments that
    arrive are any that the other has sent, in any order and any number of times. *)
From S2P Require Import Prelude RawMem Pmm Heap VfsTypes Ramfs Task TaskRing Sched FsKcalls Socket Ring Net Inet Dhcp NetRecv NetProps TcpMoves InetInv TcpStream.
Local Open Scope kernel_scope.
Local Abbreviation len l := (Z.of_nat (length l)).

(** An end of a connection: the place of its socket, the address of the peer, the ports, the first numbers of either side, the file of the program. *)
Record Conn := MkConn { cn_place : Z; cn_peer : Ipv4Addr; cn_local : Z; cn_remote : Z; cn_iss : Z; cn_piss : Z; cn_file : VFile }.
Definition is_conn (c : Conn) (x : InetSocket) : Prop :=
  in_used x = true ∧ in_kind x = INET_TCP ∧ in_local_port x = cn_local c ∧ in_remote_port x = cn_remote c ∧ in_remote_ip x = cn_peer c.

Section Pair.
Context {L : Type} `{KM : KernelMem L} {KL : KernelMemLaws L} `{IH : InetHost L} {IL : InetHostLaws L}.
Context (inet_sockets : Z) (runs blocks : list (Z * Z)).
Local Abbreviation inetst := (Inet.inetst (L := L)).
Local Abbreviation inet_ok := (inet_ok inet_sockets runs blocks).
Local Abbreviation put := (put (L := L)).
Local Abbreviation with_host := (with_host (L := L)).

(** The socket [x] of the end [c], which nobody else's segments reach and which the file leads to. *)
Record at_place (c : Conn) (x : InetSocket) (s : inetst) : Prop := {
  ap_lookup : is_socks s !!z cn_place c = Some x;
  ap_conn : is_conn c x;
  ap_alone j y : is_socks s !!z j = Some y → is_conn c y → j = cn_place c;
  ap_parent : in_parent x = -1;
  ap_ops : v_file_ops (in_node x) = INET_FILE_OPS;
  ap_file : f_node (cn_file c) = inet_sockets + cn_place c * SIZEOF_INET_SOCKET + INET_NODE_OFFSET ∧ f_node (cn_file c) ≠ 0;
  ap_ports : 0 <= cn_local c < 65536 ∧ 0 <= cn_remote c < 65536
}.
(** What becomes of the connection: it moves, and may be freed at the end. *)
Inductive outcome (inc : cause) (c : Conn) (x : InetSocket) (s : inetst) (es : list ev) : inetst → Prop :=
  | oc_alive y h' : go inc x (is_host s) es y h' → outcome inc c x s es (St (cn_place c) s y h')
  | oc_gone y h' h2 : go inc x (is_host s) es y h' → ih_sent [] h' h2 → ih_ok h2 → outcome inc c x s es (put (cn_place c) zero_inet (with_host h2 s)).

Section End.
Context (c : Conn) (x : InetSocket) (s : inetst) (Hok : inet_ok s) (Ap : at_place c x s) (Hst : past_syn x).
Local Abbreviation i := (cn_place c).

Lemma end_facts : tcp_ok x ∧ ih_ok (is_host s) ∧ 0 <= i < len (is_socks s) ∧ 0 <= i < INET_MAX_SOCKETS ∧ i ≠ -1.
Proof using Hok Ap.
  destruct Ap as [Hx (Eu & Ek & _) _ _ _ _ _]. destruct (inet_ok_sock _ _ _ _ _ _ Hok Hx) as (_ & [B _ _ _] & Hi & Hl). split_and!; try lia; [by apply B|apply Hok].
Qed.
(** A connection that has moved is freed. *)
Lemma end_freed inc es y h' (Q : unit → inetst → Prop) :
  go inc x (is_host s) es y h' → state_of y ≠ TCP_LISTEN → (∀ h2, ih_sent [] h' h2 → ih_ok h2 → Q tt (put i zero_inet (with_host h2 s))) →
  wp (inet_free free_depth i) Q (St i s y h').
Proof using Hok Ap KL IL.
  intros G Hl HQ. destruct end_facts as (Ok & Ho & Hi & _). destruct Ap as [Hx (Eu & Ek & _) _ Pa _ _ _]. destruct (go_ok _ _ _ _ _ _ G Ok) as [_ SC].
  pose proof (inet_ok_go _ _ _ _ _ _ _ _ _ _ Hok Hx Eu Ek G) as Hok'. unfold free_depth.
  eapply (wp_free_plain _ _ _ i y); [cbn; by rewrite lookupZ_insert_eq|apply Hok'|by rewrite (sc_parent _ _ SC)|by intros []|]. intros h2 [Ho2 _] Hs.
  assert (E : put i zero_inet (with_host h2 (St i s y h')) = put i zero_inet (with_host h2 s)) by (unfold InetInv.put, InetInv.with_host, set_is_socks, St; cbn; by rewrite list_insert_insert_eq).
  rewrite E. by apply HQ.
Qed.
Lemma end_state : s = St i s x (is_host s).
Proof using Hok Ap. destruct Ap as [Hx _ _ _ _ _ _]. destruct (lookupZ_nat _ _ _ Hx) as [E _]. unfold St. rewrite list_insert_id by done. by destruct s. Qed.
(** The socket is the first that the segments of the peer fit. *)
Lemma end_found (Q : Z → inetst → Prop) : Q i s → wp (inet_find_tcp (cn_peer c) (cn_remote c) (cn_local c)) Q s.
Proof using Hok Ap.
  intros HQ. destruct Ap as [Hx (Eu & Ek & El & Er & Ei) Al _ _ _ _]. unfold inet_find_tcp. apply wp_gets.
  match goal with |- Q (find_socket ?P _) _ => set (F := P); destruct (find_socket_spec F (is_socks s)) as [[_ N]|(y & Hy & Py)] end.
  - exfalso. specialize (N _ _ Hx). unfold F in N. rewrite Eu, El, Er, !bool_decide_true, !Z.eqb_refl in N by done. done.
  - unfold F in Py. rewrite !andb_true_iff in Py. destruct Py as [[[[Eu' Ek'%bool_decide_eq_true_1] El'%Z.eqb_eq] Er'%Z.eqb_eq] Ei'%bool_decide_eq_true_1].
    by rewrite (Al _ _ Hy) by (by split_and!).
Qed.

(** A segment of the peer. *)
Lemma end_deliver bs sg pad :
  sent_seg (cn_remote c) (cn_local c) bs sg → has (sg_flags sg) TCP_ACK = true → has (sg_flags sg) TCP_RST = false → has (sg_flags sg) TCP_SYN = false →
  wp (inet_tcp_deliver inet_sockets (cn_peer c) (bs ++ pad) (len bs)) (λ _ t, ∃ es, outcome (Incoming sg) c x s es t) s.
Proof using Hok Ap Hst KL IL.
  intros (z & sum & Hsum & Ebs & El & Er & Ea & Ew & Hw & Hsq & Hak & Hfl & Hdl) Hack Hrst Hsyn. destruct end_facts as (Ok & Ho & Hi & _ & Hi1).
  destruct Ap as [Hx (Eu & Ek & _) _ _ _ _ (Hp1 & Hp2)]. subst bs.
  assert (B := read_tcp_bytes z (sg_seq sg) (sg_flags sg) (sg_data sg) sum pad). rewrite El, Er, Ea in B.
  destruct (B Hp2 Hp1 Hsq Hak ltac:(lia) Hack Hsyn) as (Lb & Db & h & Eh & E1 & E2 & E3 & E4 & E5 & E6 & E7). clear B.
  unfold inet_tcp_deliver. rewrite Lb. unfold SIZEOF_TCP_HEADER. destruct (Z.ltb_spec (20 + len (sg_data sg)) 20); [lia|]. apply wp_bind. eapply wp_lift; [exact Eh|]. cbv zeta. rewrite E5.
  change (20 <? 20) with false. cbn [orb]. destruct (Z.ltb_spec (20 + len (sg_data sg)) 20); [lia|]. rewrite E1, E2, E3, E4, E6, E7.
  apply wp_bind, end_found. rewrite (proj2 (Z.eqb_neq _ _) Hi1). apply wp_bind. eapply wp_place; [exact Hx|]. rewrite Hrst.
  apply past_syn_not in Hst as [Hs Hl]. rewrite !list.elem_of_cons, list.elem_of_nil in Hs.
  rewrite decide_False by tauto. rewrite decide_False by tauto. apply wp_bind, wp_ret. change (Z.to_nat 20) with 20%nat. rewrite Db, Ew.
  replace (20 + len (sg_data sg) - 20) with (len (sg_data sg)) by lia. eapply wp_at; [exact Hx|]. apply wp_on_segment; [done|done|done|lia| |].
  - intros es y h' G _. exists es. by apply oc_alive.
  - intros es y h' G _ Ed _ _. eapply end_freed; [exact G|congruence|]. intros h2 Hs2 Ho2. exists es. by eapply oc_gone.
Qed.
(** The timer. *)
Lemma end_reset inc es y h' e (Q : unit → inetst → Prop) :
  go inc x (is_host s) es y h' → e ≠ 0 → (∀ es t, outcome inc c x s es t → Q tt t) → wp (tcp_reset i e) Q (St i s y h').
Proof using Hok Ap KL IL.
  intros G He HQ. destruct end_facts as (Ok & Ho & Hi & _). pose proof (host_step_ok _ _ _ (go_host _ _ _ _ _ _ G Ok Ho)) as Ho'.
  unfold tcp_reset. apply wp_bind, wp_isock_upd; [done|]. set (z := upd_timer _ _).
  assert (G2 : go inc x (is_host s) (es ++ []) z h') by (eapply go_trans; [exact G|]; apply go_one; [by apply mv_closed|by apply host_step_refl]).
  apply wp_bind, wp_isock; [done|]. apply wp_bind. destruct (in_orphan z).
  - eapply end_freed; [exact G2|done|]. intros h3 Hs3 Ho3. apply wp_on_host, ih_wake_law; [done|]. intros h4 (Ho4 & Hs4 & _).
    apply (HQ (es ++ [])). apply (oc_gone inc c x s (es ++ []) z h' h4 G2); [|done]. exact (ih_sent_trans [] [] _ _ _ Hs3 Hs4).
  - apply wp_ret, wp_wake; [done|done|]. intros h2 S. eapply (HQ ((es ++ []) ++ [])), oc_alive. eapply go_trans; [exact G2|]. by apply go_one; [apply mv_idle|].
Qed.
Lemma end_tick now : wp (tick_socket now i) (λ _ t, ∃ es, outcome Kernel c x s es t) s.
Proof using Hok Ap Hst KL IL.
  destruct end_facts as (Ok & Ho & Hi & _). destruct Ap as [Hx (Eu & Ek & _) _ _ _ _ _]. pose proof (past_syn_not _ Hst) as [Hs Hl].
  rewrite end_state at 1. unfold tick_socket. apply wp_bind, wp_isock; [done|]. cbv zeta. rewrite Eu, Ek, bool_decide_true by done. cbn [negb orb].
  assert (Id : outcome Kernel c x s [] (St i s x (is_host s))) by (apply oc_alive, go_nil).
  destruct (in_orphan x && _ && _).
  { eapply (end_freed Kernel); [apply go_nil|done|]. intros h2 Hs2 Ho2. exists []. eapply oc_gone; [apply go_nil|done|done]. }
  destruct (Z.eqb_spec (tm_deadline (in_timer x)) 0) as [|Hd]; cbn [orb]; [apply wp_ret; by exists []|]. destruct (now <? _); [apply wp_ret; by exists []|].
  apply wp_bind, wp_isock_upd; [done|]. set (m1 := set_retries (tm_retries (in_timer x) + 1) (in_timer x)).
  change (upd_timer (set_retries (tm_retries (in_timer x) + 1)) x) with (set_in_timer m1 x). destruct (TCP_MAX_RETRIES <? _).
  - apply (end_reset Kernel [] (set_in_timer m1 x) (is_host s)); [apply go_one; [apply mv_timer; by left|by apply host_step_refl]|by case_decide|]. intros es t Ht. by exists es.
  - apply wp_bind, wp_isock_upd; [done|]. set (rto := if _ <? _ then _ else _). set (m2 := set_deadline (u64 (now + rto)) (set_rto rto m1)).
    change (upd_timer _ (set_in_timer m1 x)) with (set_in_timer m2 x). apply wp_tick_resend; [done|done|done|done|]. intros es y h' G _. exists es. by apply oc_alive.
Qed.

(** The calls of the program. *)
Lemma end_file (Q : Z → inetst → Prop) : Q i s → wp (inet_from_file inet_sockets (cn_file c)) Q s.
Proof using Hok Ap.
  intros HQ. destruct end_facts as (_ & _ & Hi & Hi2 & _). destruct Ap as [Hx (Eu & _) _ _ Eo [Ef Hnz] _]. unfold inet_from_file. rewrite (proj2 (Z.eqb_neq _ _) Hnz). cbv zeta. rewrite Ef.
  replace (inet_sockets + i * SIZEOF_INET_SOCKET + INET_NODE_OFFSET - inet_sockets - INET_NODE_OFFSET) with (i * SIZEOF_INET_SOCKET) by lia.
  rewrite Z.div_mul, Z_mod_mult by done. destruct (Z.leb_spec 0 i), (Z.ltb_spec i INET_MAX_SOCKETS); try lia. cbn [andb]. change (0 =? 0) with true. cbv iota.
  apply wp_bind. eapply wp_place; [exact Hx|]. apply wp_ret. rewrite Eo, Z.eqb_refl. destruct (inet_ok_sock _ _ _ _ _ _ Hok Hx) as (_ & [_ _ B3 _] & _). rewrite (B3 Eu).
  replace ((inet_sockets + i * SIZEOF_INET_SOCKET - inet_sockets) / SIZEOF_INET_SOCKET) with i; [done|].
  replace (inet_sockets + i * SIZEOF_INET_SOCKET - inet_sockets) with (i * SIZEOF_INET_SOCKET) by lia. by rewrite Z.div_mul.
Qed.
(** What a read has given the program. *)
Definition given (r : sys_res (Z * list Z)) : list Z := match r with Ret (_, bs) => bs | Block _ => [] end.
Lemma end_read count :
  0 <= count →
  wp (inet_read inet_sockets (cn_file c) count)
    (λ r t, ∃ es, outcome Program c x s es t ∧ es ≫= ev_wrote = [] ∧ es ≫= ev_took = given r ∧
       (r = Ret (0, []) → 0 < count → at_end x = true ∧ rr_count (in_rx x) = 0)) s.
Proof using Hok Ap Hst KL IL.
  intros Hc. destruct end_facts as (Ok & Ho & Hi & _ & Hi1). destruct Ap as [Hx (Eu & Ek & _) _ _ _ _ _]. pose proof (past_syn_not _ Hst) as [Hs Hl].
  unfold inet_read. apply wp_bind, end_file. rewrite (proj2 (Z.eqb_neq _ _) Hi1). rewrite end_state at 1. apply wp_bind, wp_isock; [done|]. cbv zeta.
  rewrite decide_False by congruence. rewrite decide_False by done.
  assert (Id : outcome Program c x s [] (St i s x (is_host s))) by (apply oc_alive, go_nil). pose proof Ok as [(Lr & Hh & Hcr) _ _ _].
  destruct (Z.ltb_spec 0 (rr_count (in_rx x))) as [Hn|Hn].
  - destruct (rx_take_spec count x Ok Hc) as (Er & _). apply wp_bind. eapply wp_lift; [exact Er|]. cbn [fst snd]. set (y := set_in_rx _ x) in *. set (bs := take _ _) in *.
    apply wp_bind, wp_isock_upd; [done|]. assert (Mv : go Program x (is_host s) [Took bs] y (is_host s)) by (apply go_one; [by eapply mv_took|by apply host_step_refl]).
    assert (E0 : Ret (len bs, bs) = @Ret (Z * list Z) (0, []) → 0 < count → at_end x = true ∧ rr_count (in_rx x) = 0).
    { intros [= Eb _] Hc0. exfalso. unfold bs in Eb. rewrite length_take in Eb.
      pose proof (ring_items_length 0 TCP_RX_SIZE ltac:(done) (rr_bytes (in_rx x)) (rr_head (in_rx x)) (rr_count (in_rx x))). lia. }
    apply wp_bind. destruct (_ && _).
    + apply (wp_send_ack _ _ Hi Kernel); [done|]. intros es h1 G1 Ho1. apply wp_ret. exists ([Took bs] ++ es).
      split; [apply oc_alive; eapply go_trans; [exact Mv|exact (go_inc Program _ _ _ _ _ G1)]|]. 
      destruct (go_quiet Kernel _ _ _ _ _ G1) as [Q1 Q2]; [by intros ?|].
      split; [by rewrite bind_app, Q1|]. split; [|exact E0]. rewrite bind_app, Q2. cbn. by rewrite !app_nil_r.
    + apply wp_ret, wp_ret. exists [Took bs]. split; [by apply oc_alive|]. split; [done|]. split; [cbn; by rewrite app_nil_r|exact E0].
  - assert (Ec : rr_count (in_rx x) = 0) by lia. destruct (tc_fin_received (in_tcb x) || bool_decide (state_of x = TCP_CLOSED)) eqn:Ee.
    + apply wp_ret. exists []. split; [done|]. split; [done|]. split; [done|]. intros E _. split; [|done]. unfold at_end. destruct (tc_fin_received (in_tcb x)); [done|].
      cbn [orb] in Ee. apply bool_decide_eq_true_1 in Ee. rewrite Ee in E. rewrite bool_decide_true in E by done. cbn [andb negb] in E. injection E as E.
      exfalso. destruct Hst as [Hst'|[_ ?]]; [|done]. rewrite Ee in Hst'. set_solver.
    + apply wp_ret. exists []. split; [done|]. split; [done|]. split; [by destruct (in_nonblock x)|]. intros E. by destruct (in_nonblock x).
Qed.
Lemma end_write buf :
  wp (inet_write inet_sockets (cn_file c) buf)
    (λ r t, ∃ es, outcome Program c x s es t ∧ es ≫= ev_wrote = take (Z.to_nat r.2) buf ∧ es ≫= ev_took = [] ∧ 0 <= r.2 <= len buf) s.
Proof using Hok Ap Hst KL IL.
  destruct end_facts as (Ok & Ho & Hi & _ & Hi1). destruct Ap as [Hx (Eu & Ek & _) _ _ _ _ _].
  unfold inet_write. apply wp_bind, end_file. rewrite (proj2 (Z.eqb_neq _ _) Hi1). rewrite end_state at 1. apply wp_bind, wp_isock; [done|]. rewrite decide_False by congruence.
  apply wp_tcp_write; [done|done|done|]. intros r es y h' G _ Ew Et Hr _. exists es. split; [by apply oc_alive|done].
Qed.
Lemma end_close :
  wp (inet_close inet_sockets (cn_file c))
    (λ _ t, (∃ dn h1 es z h2, go Closing x (is_host s) [] (after_close dn x) h1 ∧ go Kernel (after_close dn x) h1 es z h2 ∧ t = St i s z h2) ∨
       ∃ h2, ih_sent [] (is_host s) h2 ∧ t = put i zero_inet (with_host h2 s)) s.
Proof using Hok Ap Hst KL IL.
  destruct end_facts as (Ok & Ho & Hi & _ & Hi1). destruct Ap as [Hx (Eu & Ek & _) _ _ _ _ _]. pose proof (past_syn_not _ Hst) as [Hs Hl].
  unfold inet_close. apply wp_bind, end_file. rewrite (proj2 (Z.eqb_neq _ _) Hi1). rewrite end_state at 1. apply wp_bind, wp_isock; [done|]. apply wp_bind.
  case_bool_decide as H1; [|rewrite bool_decide_false by (rewrite !list.elem_of_cons in Hs; tauto)].
  - apply wp_bind, wp_on_ih, ih_uptime_ms_law; [done|]. intros now h1 _ S1. apply wp_bind, wp_isock_upd; [done|]. set (y := upd_timer _ _).
    assert (Mv : move Closing x [] y) by by apply mv_close.
    apply wp_tcp_output; [done|by eapply move_ok|by eapply host_step_ok|]. intros es z h2 G Ho2. apply wp_ret. left. exists (u64 (now + 10000)), h1, es, z, h2.
    split; [by apply go_one|done].
  - eapply (end_freed Kernel); [apply go_nil|done|]. intros h2 Hs2 Ho2. apply wp_ret. right. by exists h2.
Qed.
End End.

(** ** Both ends *)

(** What the kernel has put on the wire. *)
Context (wire : L → list (Ipv4Addr * Z * list Z)) (wire_sent : ∀ out h h', ih_sent out h h' → wire h' = wire h ++ out).

(** A machine with an end of the connection: the segments it has sent, the bytes its program has written
    and has been given, whether the program has closed the socket and whether the kernel has freed it. *)
Record Side := MkSide { sd_st : inetst; sd_sent : list (list Z); sd_wrote : list Z; sd_took : list Z; sd_closed : bool; sd_gone : bool }.
Definition sent_since (s t : inetst) : list (list Z) := (drop (length (wire (is_host s))) (wire (is_host t))).*2.
Definition in_place (c : Conn) (s : inetst) : bool := match is_socks s !!z cn_place c with Some x => in_used x | None => false end.
Definition after (c : Conn) (d : Side) (w t : list Z) (cl : bool) (s' : inetst) : Side :=
  MkSide s' (sd_sent d ++ sent_since (sd_st d) s') (sd_wrote d ++ w) (sd_took d ++ t) (sd_closed d || cl) (negb (in_place c s')).
(** The rest of the machine runs. *)
Definition elsewhere (c : Conn) (s s' : inetst) : Prop :=
  inet_ok s' ∧ is_socks s' !!z cn_place c = is_socks s !!z cn_place c ∧ ∀ j y, is_socks s' !!z j = Some y → is_conn c y → j = cn_place c.
(** A step of one machine.  [inbox] is what the other has sent: any of it may arrive now, whatever arrived before. *)
Inductive side_step (c : Conn) (inbox : list (list Z)) (d : Side) : Side → Prop :=
  | ss_deliver bs pad s' :
      bs ∈ inbox → inet_tcp_deliver inet_sockets (cn_peer c) (bs ++ pad) (len bs) (sd_st d) = Some (tt, s') → side_step c inbox d (after c d [] [] false s')
  | ss_tick now s' : tick_socket now (cn_place c) (sd_st d) = Some (tt, s') → side_step c inbox d (after c d [] [] false s')
  | ss_write buf r n s' :
      sd_closed d = false → bytes buf → len (sd_wrote d) + len buf <= STREAM_MAX →
      inet_write inet_sockets (cn_file c) buf (sd_st d) = Some ((r, n), s') → side_step c inbox d (after c d (take (Z.to_nat n) buf) [] false s')
  | ss_read count r s' :
      sd_closed d = false → 0 <= count → inet_read inet_sockets (cn_file c) count (sd_st d) = Some (r, s') → side_step c inbox d (after c d [] (given r) false s')
  | ss_close r s' :
      sd_closed d = false → inet_close inet_sockets (cn_file c) (sd_st d) = Some (r, s') → side_step c inbox d (after c d [] [] true s')
  | ss_other s' :
      elsewhere c (sd_st d) s' → side_step c inbox d (MkSide s' (sd_sent d) (sd_wrote d) (sd_took d) (sd_closed d) (sd_gone d)).

(** An end of a connection that has just been established. *)
Record fresh_end (c : Conn) (d : Side) (x : InetSocket) : Prop := {
  fe_ok : inet_ok (sd_st d);
  fe_place : at_place c x (sd_st d);
  fe_state : state_of x = TCP_ESTABLISHED;
  fe_una : tc_una (in_tcb x) = nth_seq (cn_iss c) 0; fe_nxt : tc_nxt (in_tcb x) = nth_seq (cn_iss c) 0; fe_rcv : tc_rcv (in_tcb x) = nth_seq (cn_piss c) 0;
  fe_flags : tc_fin_sent (in_tcb x) = false ∧ tc_fin_received (in_tcb x) = false ∧ tc_close_requested (in_tcb x) = false;
  fe_buffers : tb_count (in_tx x) = 0 ∧ rr_count (in_rx x) = 0;
  fe_nothing : sd_sent d = [] ∧ sd_wrote d = [] ∧ sd_took d = [] ∧ sd_closed d = false ∧ sd_gone d = false
}.

(** What holds of the end [d], whose peer is [e]: [R] has arrived, [g] numbers are counted, and the
    peer has counted [ge] of ours. *)
Record half (c : Conn) (d e : Side) (R : list Z) (g ge : Z) : Prop := {
  hf_ok : inet_ok (sd_st d);
  hf_live : sd_gone d = false → ∃ x, at_place c x (sd_st d) ∧
    endpoint (cn_iss c) (cn_piss c) (sd_wrote e) (sd_closed e) ge x (sd_wrote d) R (sd_took d) ∧ closed x = sd_closed d ∧ g = len R + Z.b2z (at_end x);
  hf_took : ∃ rest, R = sd_took d ++ rest;
  hf_prefix : ∃ rest, sd_wrote e = R ++ rest;
  hf_count : len R <= g <= len R + 1;
  hf_sent : Forall (honest_bytes (cn_local c) (cn_remote c) (cn_iss c) (cn_piss c) (sd_wrote d) (sd_closed d) g) (sd_sent d);
  hf_max : len (sd_wrote d) <= STREAM_MAX
}.
Lemma honest_bytes_grow lp rp iss piss W W' done done' r r' bs :
  honest_bytes lp rp iss piss W done r bs → (∃ more, W' = W ++ more ∧ (done = true → more = [])) → (done = true → done' = true) → r <= r' →
  honest_bytes lp rp iss piss W' done' r' bs.
Proof. intros (sg & Hs & Hh) HW Hd Hr. exists sg. split; [done|]. by eapply honest_seg_grow. Qed.
Lemma endpoint_grow iss piss P P' pdone pdone' got got' x W R T :
  endpoint iss piss P pdone got x W R T → (∃ more, P' = P ++ more ∧ (pdone = true → more = [])) → (pdone = true → pdone' = true) → got <= got' →
  endpoint iss piss P' pdone' got' x W R T.
Proof.
  intros [Ok Hst (base & fl & fa & Hs & Hg) Hr [rest Hp] He] (more & -> & Hm) Hd Hgot. constructor; try done.
  - exists base, fl, fa. split; [done|lia].
  - exists (rest ++ more). by rewrite Hp, app_assoc.
  - intros E. destruct (He E) as [E1 E2]. rewrite (Hm E2), app_nil_r. auto.
Qed.
(** The other end writes more, closes, or counts more. *)
Lemma half_peer c d e e' R g ge ge' :
  half c d e R g ge → (∃ more, sd_wrote e' = sd_wrote e ++ more ∧ (sd_closed e = true → more = [])) → (sd_closed e = true → sd_closed e' = true) → ge <= ge' →
  half c d e' R g ge'.
Proof.
  intros [Hok Hl Ht [rest Hp] Hc Hs Hm] Hw Hcl Hg. constructor; try done.
  - intros Hgo. destruct (Hl Hgo) as (x & Ap & Ep & Hcx & Hgx). exists x. split; [done|]. split; [|done]. by eapply endpoint_grow.
  - destruct Hw as (more & -> & _). exists (rest ++ more). by rewrite Hp, app_assoc.
Qed.

(** ** Lemmas: one step *)
Lemma outs_sent dst es : (outs dst es).*2 = es ≫= ev_sent.
Proof. unfold outs. rewrite <- list_fmap_compose. induction (es ≫= ev_sent) as [|b l IHl]; [done|]. cbn. by f_equal. Qed.
Lemma sent_since_go inc x s es y h' t h2 :
  go inc x (is_host s) es y h' → tcp_ok x → ih_ok (is_host s) → ih_sent [] h' h2 → is_host t = h2 → sent_since s t = es ≫= ev_sent.
Proof using wire_sent KL IL.
  intros G Ok Ho Hs <-. destruct (go_host _ _ _ _ _ _ G Ok Ho) as (_ & Hw & _). unfold sent_since.
  rewrite (wire_sent _ _ _ Hs), (wire_sent _ _ _ Hw), app_nil_r, drop_app_length. apply outs_sent.
Qed.
Lemma at_place_go inc c x s es y h' :
  inet_ok s → at_place c x s → go inc x (is_host s) es y h' → at_place c y (St (cn_place c) s y h').
Proof.
  intros Hok Ap G. destruct (end_facts c x s Hok Ap) as (Ok & _ & Hi & _). destruct (go_ok _ _ _ _ _ _ G Ok) as [_ []]. destruct Ap as [Hx (Eu & Ek & El & Er & Ei) Al Pa Eo Ef Hp].
  assert (C : is_conn c y) by (unfold is_conn; split_and!; congruence). constructor; try done; try congruence.
  - cbn. by rewrite lookupZ_insert_eq.
  - intros j z Hz Cz. destruct (decide (j = cn_place c)) as [|Hj]; [done|]. cbn in Hz. rewrite lookupZ_insert_ne in Hz by (lia || done). by apply (Al j z).
Qed.

Section Step.
Context (c : Conn) (d e : Side) (R : list Z) (g ge : Z) (x : InetSocket).
Context (H : half c d e R g ge) (Hge : ge <= len (sd_wrote d) + 1) (HP : len (sd_wrote e) <= STREAM_MAX).
Context (Ap : at_place c x (sd_st d)) (Hg : g = len R + Z.b2z (at_end x)) (Hcx : closed x = sd_closed d).
Context (Ep : endpoint (cn_iss c) (cn_piss c) (sd_wrote e) (sd_closed e) ge x (sd_wrote d) R (sd_took d)).

Lemma half_moved y es t cl :
  moved (cn_local c) (cn_remote c) (cn_iss c) (cn_piss c) (sd_wrote e) (sd_closed e) ge x (sd_wrote d) R (sd_took d) es y →
  (closed y = true → sd_closed d || cl = true) → (in_place c t = true → at_place c y t ∧ closed y = sd_closed d || cl) →
  (sd_closed d = true → es ≫= ev_wrote = []) → len (sd_wrote d ++ (es ≫= ev_wrote)) <= STREAM_MAX → inet_ok t → sent_since (sd_st d) t = es ≫= ev_sent →
  ∃ R' g', g <= g' ∧ half c (after c d (es ≫= ev_wrote) (es ≫= ev_took) cl t) e R' g' ge.
Proof using H Hg.
  intros (more & E & A & C & F) Hcl Hpl Hw Hmax Hok Hs. destruct H as [_ _ _ _ Hc Hsent _]. pose proof E as [_ _ _ [Hit _] Hp He].
  assert (Hgg : g <= len (R ++ more) + Z.b2z (at_end y)).
  { rewrite Hg, length_app. destruct (at_end x); [rewrite A by done|]; destruct (at_end y); cbn [Z.b2z]; lia. }
  exists (R ++ more), (len (R ++ more) + Z.b2z (at_end y)). split; [done|]. constructor; cbn [after sd_st sd_sent sd_wrote sd_took sd_closed sd_gone].
  - done.
  - intros Hgo. apply negb_false_iff in Hgo. destruct (Hpl Hgo) as [Ap' Ec]. exists y. done.
  - exists (rx_items y). done.
  - done.
  - destruct (at_end y); cbn [Z.b2z]; lia.
  - rewrite Hs. apply list.Forall_app. split.
    + eapply list.Forall_impl; [exact Hsent|]. intros bs Hb. eapply honest_bytes_grow; [exact Hb|by exists (es ≫= ev_wrote)|by intros ->|done].
    + eapply list.Forall_impl; [exact F|]. intros bs Hb. eapply honest_bytes_grow; [exact Hb|exists []; by rewrite app_nil_r|done|done].
  - done.
Qed.
Lemma half_outcome inc es t :
  outcome inc c x (sd_st d) es t → inc ≠ Closing → cause_ok (cn_iss c) (cn_piss c) (sd_wrote e) (sd_closed e) ge inc x →
  len (sd_wrote d ++ (es ≫= ev_wrote)) <= STREAM_MAX → inet_ok t →
  ∃ R' g', g <= g' ∧ half c (after c d (es ≫= ev_wrote) (es ≫= ev_took) false t) e R' g' ge.
Proof using H Hge HP Ap Hg Hcx Ep wire_sent KL IL.
  intros O Hinc Hcause Hmax Hok. pose proof (end_facts c x _ (hf_ok _ _ _ _ _ _ H) Ap) as (Ok & Ho & Hi & _). pose proof Ap as [Hx (Eu & Ek & El & Er & Ei) _ _ _ _ _].
  assert (G : ∀ y h', go inc x (is_host (sd_st d)) es y h' → moved (cn_local c) (cn_remote c) (cn_iss c) (cn_piss c) (sd_wrote e) (sd_closed e) ge x (sd_wrote d) R (sd_took d) es y ∧ closed y = sd_closed d).
  { intros y h' G. destruct (go_closed (cn_local c) (cn_remote c) (cn_iss c) (cn_piss c) (sd_wrote e) (sd_closed e) ge inc x _ es y h' (sd_wrote d) R (sd_took d) G) as [M Cl]; try done. split; [done|]. by rewrite Cl. }
  assert (Hw : ∀ y h', go inc x (is_host (sd_st d)) es y h' → sd_closed d = true → es ≫= ev_wrote = []).
  { intros y h' G' Hcl. assert (Hi' : inc = Program ∨ inc ≠ Program) by (destruct inc; [by right|by right|by left|by right]).
    destruct Hi' as [Ei'|Ei']; [|by apply (go_quiet _ _ _ _ _ _ G')]. destruct Hcause as [_ Hp]. rewrite (Hp Ei') in Hcx. congruence. }
  destruct O as [y h' G'|y h' h2 G' Hs2 Ho2]; destruct (G _ _ G') as [M Cl]; apply (half_moved y es); try done.
  - by rewrite Cl, orb_false_r.
  - intros _. split; [by eapply at_place_go; [apply H|..]|by rewrite Cl, orb_false_r].
  - by eapply Hw.
  - by eapply sent_since_go; [exact G'|done|done|apply ih_sent_refl|].
  - by rewrite Cl, orb_false_r.
  - intros Hpl. exfalso. unfold in_place in Hpl. cbn in Hpl. by rewrite lookupZ_insert_eq in Hpl.
  - by eapply Hw.
  - by eapply sent_since_go.
Qed.
End Step.

Lemma wp_known {S A} (m : M S A) Q s a t : wp m Q s → m s = Some (a, t) → Q a t.
Proof. intros W E. unfold wp in W. by rewrite E in W. Qed.
(** The ends of one connection. *)
Definition facing (c c' : Conn) : Prop :=
  cn_local c' = cn_remote c ∧ cn_remote c' = cn_local c ∧ cn_iss c' = cn_piss c ∧ cn_piss c' = cn_iss c.
Definition later (d d' : Side) : Prop :=
  (∃ more, sd_wrote d' = sd_wrote d ++ more ∧ (sd_closed d = true → more = [])) ∧ (sd_closed d = true → sd_closed d' = true).

Lemma half_step c c' d d' e R R' g ge :
  facing c c' → half c d e R g ge → half c' e d R' ge g → sd_gone d = false → side_step c (sd_sent e) d d' →
  later d d' ∧ ∃ R2 g2, g <= g2 ∧ half c d' e R2 g2 ge.
Proof using wire_sent KL IL.
  intros (F1 & F2 & F3 & F4) Hd He Hgo Hstep. pose proof Hd as [Hok Hl _ _ Hgc Hsn Hmx]. destruct (Hl Hgo) as (x & Ap & Ep & Hcx & Hgx).
  pose proof He as [_ _ _ [rest Hpre] Hgec Hesn Hemx].
  assert (Hge : ge <= len (sd_wrote d) + 1) by (rewrite Hpre, length_app; lia).
  pose proof (en_state _ _ _ _ _ _ _ _ _ Ep) as Hst. pose proof Ap as [Hx (Eu & Ek & _) _ _ _ [Ef _] _].
  assert (Hfile : file_ok inet_sockets (cn_file c) (sd_st d)).
  { right. left. exists (cn_place c). split; [|done]. by apply (end_facts c x _ Hok Ap). }
  assert (Core : ∀ inc es t w tk cl, outcome inc c x (sd_st d) es t → inc ≠ Closing → cause_ok (cn_iss c) (cn_piss c) (sd_wrote e) (sd_closed e) ge inc x →
    es ≫= ev_wrote = w → es ≫= ev_took = tk → len (sd_wrote d ++ w) <= STREAM_MAX → inet_ok t → (sd_closed d = true → w = []) → cl = false →
    later d (after c d w tk cl t) ∧ ∃ R2 g2, g <= g2 ∧ half c (after c d w tk cl t) e R2 g2 ge).
  { intros inc es t w tk cl O Hi Hca <- <- Hm Ht Hw ->. split; [split; [by exists (es ≫= ev_wrote)|cbn; by intros ->]|]. by eapply half_outcome. }
  assert (Quiet : ∀ inc es t, outcome inc c x (sd_st d) es t → inc ≠ Program → es ≫= ev_wrote = [] ∧ es ≫= ev_took = []).
  { intros inc es t O Hi. destruct O as [y h' G|y h' h2 G _ _]; by apply (go_quiet _ _ _ _ _ _ G). }
  assert (Hm0 : len (sd_wrote d ++ []) <= STREAM_MAX) by by rewrite app_nil_r.
  destruct Hstep as [bs pad s' Hin E|now s' E|buf r n s' Hcl Hb Hmax E|count r s' Hcl Hcnt E|r s' Hcl E|s' (Hok' & Hx' & Hal)].
  - rewrite list.Forall_forall in Hesn. destruct (Hesn _ Hin) as (sg & Hsg & Hh). rewrite F1, F2 in Hsg. rewrite F3, F4 in Hh. pose proof Hh as (H1 & H2 & H3 & _).
    destruct (wp_known _ _ _ _ _ (end_deliver c x (sd_st d) Hok Ap Hst bs sg pad Hsg H1 H2 H3) E) as (es & O).
    destruct (Quiet _ _ _ O ltac:(by intros ?)) as [Q1 Q2]. eapply (Core _ es); try done.
    + split; [intros sg' [= <-]|by intros ?]. done.
    + apply (wp_known _ _ _ _ _ (keep_tcp_deliver inet_sockets runs blocks (cn_peer c) (bs ++ pad) (len bs) _ Hok ltac:(rewrite length_app; lia)) E).
  - destruct (wp_known _ _ _ _ _ (end_tick c x (sd_st d) Hok Ap Hst now) E) as (es & O). destruct (Quiet _ _ _ O ltac:(by intros ?)) as [Q1 Q2]. eapply (Core _ es); try done.
    apply (wp_known _ _ _ _ _ (keep_tick_socket inet_sockets runs blocks now _ _ Hok ltac:(by apply (end_facts c x _ Hok Ap))) E).
  - destruct (wp_known _ _ _ _ _ (end_write c x (sd_st d) Hok Ap Hst buf) E) as (es & O & Ew & Et & Hn). cbn [snd] in *. eapply (Core _ es); try done.
    + split; [done|]. intros _. by rewrite Hcx.
    + rewrite length_app, length_take. lia.
    + apply (wp_known _ _ _ _ _ (keep_write inet_sockets runs blocks _ _ _ Hok Hfile Hb) E).
    + congruence.
  - destruct (wp_known _ _ _ _ _ (end_read c x (sd_st d) Hok Ap Hst count Hcnt) E) as (es & O & Ew & Et & _). eapply (Core _ es); try done.
    + split; [done|]. intros _. by rewrite Hcx.
    + apply (wp_known _ _ _ _ _ (keep_read inet_sockets runs blocks _ _ _ Hok Hfile Hcnt) E).
  - pose proof (wp_known _ _ _ _ _ (keep_close inet_sockets runs blocks _ _ Hok Hfile) E) as Ht. cbn beta in Ht.
    split; [split; [by exists []|cbn; by intros ->]|]. pose proof (end_facts c x _ Hok Ap) as (Ok & Ho & Hi & _). pose proof Ap as [_ (_ & _ & El & Er & _) _ _ _ _ _].
    destruct (wp_known _ _ _ _ _ (end_close c x (sd_st d) Hok Ap Hst) E) as [(dn & h1 & es & z & h2 & G1 & G2 & ->)|(h2 & Hs2 & ->)].
    + destruct (go_closed (cn_local c) (cn_remote c) (cn_iss c) (cn_piss c) (sd_wrote e) (sd_closed e) ge Closing x _ [] _ h1 (sd_wrote d) R (sd_took d) G1) as [(more & E1 & A1 & C1 & FF1) _]; try done.
      cbn in E1. destruct (go_ok _ _ _ _ _ _ G1 Ok) as [_ SC].
      destruct (go_closed (cn_local c) (cn_remote c) (cn_iss c) (cn_piss c) (sd_wrote e) (sd_closed e) ge Kernel _ _ es z h2 _ _ _ G2 E1) as [M2 C2]; try done.
      { rewrite length_app. lia. } { destruct (go_quiet _ _ _ _ _ _ G2) as [-> _]; [by intros ?|]. by rewrite !app_nil_r. }
      destruct (go_quiet _ _ _ _ _ _ G2) as [Q1 Q2]; [by intros ?|]. replace (after c d [] [] true) with (after c d (es ≫= ev_wrote) (es ≫= ev_took) true) by (by rewrite Q1, Q2).
      pose proof (go_trans _ _ _ _ _ _ _ _ _ G1 (go_inc Closing _ _ _ _ _ G2)) as G.
      apply (half_moved c d e R g ge x Hd Hgx z es).
      * apply (moved_trans _ _ _ _ _ _ _ x (sd_wrote d) R (sd_took d) [] (after_close dn x) more es z); try done.
      * by rewrite orb_true_r.
      * intros _. split; [by eapply at_place_go|]. rewrite C2 by done. by rewrite orb_true_r.
      * done.
      * rewrite Q1. done.
      * done.
      * by eapply sent_since_go; [exact G|done|done|apply ih_sent_refl|].
    + change (after c d [] [] true) with (after c d (([] : list ev) ≫= ev_wrote) (([] : list ev) ≫= ev_took) true).
      apply (half_moved c d e R g ge x Hd Hgx x []); try done.
      * pose proof Ep as [? ? ? ? ? ?]. by eapply moved_still.
      * by rewrite orb_true_r.
      * intros Hpl. exfalso. unfold in_place in Hpl. cbn in Hpl. by rewrite lookupZ_insert_eq in Hpl.
      * by eapply sent_since_go; [apply (go_nil Kernel x)|done|done|exact Hs2|].
  - split; [split; [exists []; by rewrite app_nil_r|done]|]. exists R, g. split; [lia|]. constructor; try done. intros _. exists x. split; [|done].
    { destruct Ap. constructor; try done. cbn; by rewrite Hx'. }
    + apply Hd.
    + apply Hd.
Qed.

(** ** The two together *)
Context (cA cB : Conn) (Hface : facing cA cB).
Inductive pair_step : Side * Side → Side * Side → Prop :=
  | ps_left a a' b : sd_gone a = false → side_step cA (sd_sent b) a a' → pair_step (a, b) (a', b)
  | ps_right a b b' : sd_gone b = false → side_step cB (sd_sent a) b b' → pair_step (a, b) (a, b').
Inductive pair_reach (p : Side * Side) : Side * Side → Prop :=
  | pr_start : pair_reach p p
  | pr_step q r : pair_reach p q → pair_step q r → pair_reach p r.
Definition pair_start (p : Side * Side) : Prop := (∃ x, fresh_end cA p.1 x) ∧ (∃ x, fresh_end cB p.2 x).
Definition pair_inv (p : Side * Side) : Prop := ∃ RA RB gA gB, half cA p.1 p.2 RA gA gB ∧ half cB p.2 p.1 RB gB gA.

Lemma fresh_half c d e x y c' : fresh_end c d x → fresh_end c' e y → half c d e [] 0 0.
Proof.
  intros [Hok Ap Hst Hu Hn Hr (F1 & F2 & F3) (B1 & B2) (N1 & N2 & N3 & N4 & N5)] [_ _ _ _ _ _ _ _ (M1 & M2 & M3 & M4 & M5)].
  destruct (end_facts c x _ Hok Ap) as (Ok & _). constructor; rewrite ?N1, ?N2, ?N3, ?N4, ?M2, ?M4; try done; try by exists [].
  intros _. exists x. split; [done|]. unfold closed, at_end. rewrite F2, F3. split; [|done]. constructor; try done.
  - left. rewrite Hst. by left.
  - exists 0, 0, false. split; [|done]. constructor; cbn [length Z.b2z]; rewrite ?F1; cbn [andb Z.b2z]; try done; try lia. by rewrite B1.
  - constructor; [unfold rx_items; by rewrite B2|]. unfold at_end. rewrite F2. done.
  - by exists [].
  - unfold at_end. congruence.
Qed.
Lemma pair_reach_inv p q : pair_start p → pair_reach p q → pair_inv q.
Proof using Hface wire_sent KL IL.
  intros [(x & Fx) (y & Fy)] R. induction R as [|q r R IHR St].
  - exists [], [], 0, 0. split; by eapply fresh_half.
  - destruct IHR as (RA & RB & gA & gB & HA & HB). destruct St as [a a' b Hgo Hs|a b b' Hgo Hs]; cbn [fst snd] in *.
    + destruct (half_step _ _ _ _ _ _ _ _ _ Hface HA HB Hgo Hs) as ([Hw Hc] & RA' & gA' & Hg & HA'). exists RA', RB, gA', gB. split; [done|]. by eapply half_peer.
    + assert (Hface' : facing cB cA) by (destruct Hface as (? & ? & ? & ?); done).
      destruct (half_step _ _ _ _ _ _ _ _ _ Hface' HB HA Hgo Hs) as ([Hw Hc] & RB' & gB' & Hg & HB'). exists RA, RB', gA, gB'. split; [by eapply half_peer|done].
Qed.

(** What the program at [d] knows of the stream that [e] writes. *)
Record stream_kept (c : Conn) (d e : Side) : Prop := {
  (** It has been given the beginning of what the other has written. *)
  sk_prefix : ∃ rest, sd_wrote e = sd_took d ++ rest;
  (** It is told the end when it has all of it, and the other has closed. *)
  sk_end count s' : 0 < count → sd_gone d = false → inet_read inet_sockets (cn_file c) count (sd_st d) = Some (Ret (0, []), s') → sd_took d = sd_wrote e ∧ sd_closed e = true
}.
(** While both sockets live, the bytes between the two ends are in the two buffers: behind what [d]'s has comes what is in [e]'s. *)
Definition nothing_lost (c c' : Conn) (d e : Side) : Prop :=
  ∀ x y, sd_gone d = false → sd_gone e = false → is_socks (sd_st d) !!z cn_place c = Some x → is_socks (sd_st e) !!z cn_place c' = Some y →
  ∃ k, 0 <= k <= tb_count (in_tx y) ∧ sd_wrote e = (sd_took d ++ rx_items x) ++ drop (Z.to_nat k) (take (Z.to_nat (tb_count (in_tx y))) (tb_bytes (in_tx y))).

Lemma half_stream c d e R g ge : half c d e R g ge → stream_kept c d e.
Proof using wire_sent KL IL.
  intros [Hok Hl [rest Ht] [rest' Hp] Hc Hs Hm]. constructor.
  - exists (rest ++ rest'). by rewrite Hp, Ht, app_assoc.
  - intros count s' Hcnt Hgo E. destruct (Hl Hgo) as (x & Ap & Ep & Hcx & Hgx). pose proof Ep as [_ Hst _ [Hit _] _ He].
    destruct (wp_known _ _ _ _ _ (end_read c x (sd_st d) Hok Ap Hst count ltac:(lia)) E) as (es & _ & _ & _ & Hend). destruct (Hend eq_refl Hcnt) as [Ha Hn].
    destruct (He Ha) as [E1 E2]. split; [|done]. rewrite E1, Hit. unfold rx_items. rewrite Hn. by rewrite app_nil_r.
Qed.
Lemma half_nothing_lost c c' d e R R' g ge : half c d e R g ge → half c' e d R' ge g → nothing_lost c c' d e.
Proof using wire_sent KL IL.
  intros Hd He x y Hgd Hge Hx Hy. destruct (hf_live _ _ _ _ _ _ Hd Hgd) as (x' & Ax & Ex & _ & Hg). destruct (hf_live _ _ _ _ _ _ He Hge) as (y' & Ay & Ey & _ & _).
  rewrite (ap_lookup _ _ _ Ax) in Hx. rewrite (ap_lookup _ _ _ Ay) in Hy. simplify_eq. destruct Ex as [_ _ _ [Hit Hrcv] [rest Hp] Hend].
  destruct Ey as [Ok _ (base & fl & fa & Hs & Hb) _ _ _]. pose proof (sending_count _ _ _ _ _ _ Ok Hs) as Hcnt. destruct Hs as [Hb1 _ Hbuf _ _ _ _ Ha].
  assert (Hlen : len (sd_wrote e) = len R + len rest) by (rewrite Hp, length_app; lia).
  assert (Hbr : base <= len R).
  { destruct (at_end x) eqn:Eat; cbn [Z.b2z] in Hb; [destruct (Hend eq_refl) as [E1 _]; rewrite E1 in *; lia|]. destruct fa; cbn [Z.b2z] in Hb; lia. }
  exists (len R - base). split; [lia|]. rewrite Hbuf, drop_drop, <- Hit. rewrite Hp at 2. rewrite drop_app_length' by lia. done.
Qed.

(** C4 (safety) [inet_tcp_deliver, on_segment, on_ack, take_acked, on_data, take_data, on_fin, tcp_output, output_loop, output_fin, tcp_send_segment, tcp_bytes, tick_socket, tick_resend, inet_write, tcp_write_loop, inet_read, rx_take, inet_close, seq_lt, seq_le, bytes_in_flight, tcp_window]
    Two kernels with an established connection between them, and a network that loses, repeats,
    delays and reorders the segments that they send, while the timers go off at any time and the
    programs write, read and close as they like (streams shorter than 2^31 bytes): what a program has been given is always the
    beginning of what the other has written, byte for byte; a read that tells the end comes
    when all of it has been given and the other end is closed; while both sockets live, whatever is missing is
    in the buffers of the two; and both kernels stay in order. *)
Theorem tcp_stream p a b :
  pair_start p → pair_reach p (a, b) →
  stream_kept cA a b ∧ stream_kept cB b a ∧ nothing_lost cA cB a b ∧ nothing_lost cB cA b a ∧ inet_ok (sd_st a) ∧ inet_ok (sd_st b).
Proof using Hface wire_sent KL IL.
  intros Hs R. destruct (pair_reach_inv p _ Hs R) as (RA & RB & gA & gB & HA & HB). cbn [fst snd] in *.
  split_and!; [by eapply half_stream|by eapply half_stream|by eapply half_nothing_lost|by eapply half_nothing_lost|apply HA|apply HB].
Qed.
End Pair.
