(* ===== verification/TcpDemo.v ===== *)
(** * A connection between two small machines

    A host that keeps the packets its kernel sends, and on it the whole life of a connection: it is opened by the
    handshake of inet.c, accepted, written to, and read at the other end.  The theorem of
    TcpPair.v is applied to it. *)
From S2P Require Import Prelude RawMem Pmm Heap VfsTypes Ramfs Task TaskRing Sched FsKcalls Socket Ring Net Inet Dhcp NetRecv NetProps TcpMoves InetInv TcpStream TcpPair NetDemo.
Local Open Scope kernel_scope.

(** Packets sent, a clock that ticks at every question, descriptors given out, memory. *)
Record cable := Cable { cb_log : list (Ipv4Addr * Z * list Z); cb_ip : Ipv4Addr; cb_clock : Z; cb_fds : Z; cb_heap : heap }.
Definition cb_with (h : heap) (w : cable) : cable := Cable (cb_log w) (cb_ip w) (cb_clock w) (cb_fds w) h.
#[export] Instance cable_mem : KernelMem cable := lens_mem cb_heap cb_with.
#[export] Instance cable_mem_laws : KernelMemLaws cable.
Proof. refine (lens_mem_laws cb_heap cb_with _ _); [done|]. by intros []. Qed.
Definition cb_push (p : Ipv4Addr * Z * list Z) (w : cable) : cable := Cable (cb_log w ++ [p]) (cb_ip w) (cb_clock w) (cb_fds w) (cb_heap w).
#[export] Instance cable_host : InetHost cable := {
  ih_send dst protocol bs := modify (cb_push (dst, protocol, bs));
  ih_udp_send dst _ _ bs := modify (cb_push (dst, IPV4_PROTO_UDP, bs));
  ih_local_ip := gets cb_ip;
  ih_is_up := mret true;
  ih_uptime_ms := λ w, Some (u64 (cb_clock w), Cable (cb_log w) (cb_ip w) (cb_clock w + 1) (cb_fds w) (cb_heap w));
  ih_rdtsc := gets (λ w, (cb_clock w, 0));
  ih_wake_waiters := mret tt;
  ih_fd_alloc := λ w, Some (cb_fds w, Cable (cb_log w) (cb_ip w) (cb_clock w) (cb_fds w + 1) (cb_heap w));
  ih_fd_set _ _ _ := mret tt;
  ih_file_ops _ := mret 0
}.
Definition cb_sent (out : list (Ipv4Addr * Z * list Z)) (w w' : cable) : Prop := cb_log w' = cb_log w ++ out.
Lemma cb_same w w' : cb_log w' = cb_log w → cb_sent [] w w'.
Proof. unfold cb_sent. intros ->. by rewrite app_nil_r. Qed.
#[export, refine] Instance cable_laws : InetHostLaws cable := {
  ih_ok w := 0 <= cb_fds w; ih_sent := cb_sent; ih_fd_fresh _ _ := True; ih_other_node _ _ := True;
  ih_sent_refl _ := _; ih_sent_trans _ _ _ _ _ _ _ := _; ih_send_law := _; ih_udp_send_law := _; ih_local_ip_law := _; ih_is_up_law := _; ih_uptime_ms_law := _;
  ih_rdtsc_law := _; ih_wake_law := _; ih_fd_alloc_law := _; ih_fd_set_law := _; ih_file_ops_law := _; ih_alloc_pages_ok := _; ih_free_pages_ok := _; ih_kmalloc_ok := _; ih_kfree_ok := _
}.
Proof.
  - by apply cb_same.
  - unfold cb_sent in *. match goal with H1 : cb_log ?h1 = _, H2 : cb_log _ = cb_log ?h1 ++ _ |- _ => by rewrite H2, H1, app_assoc end.
  - intros dst protocol bs h Q Hok _ _ HQ. apply wp_modify, HQ. by split.
  - intros dst sp dp bs h Q Hok _ _ HQ. apply wp_modify. apply (HQ [(dst, IPV4_PROTO_UDP, bs)]); [by split|by repeat constructor].
  - intros h Q Hok HQ. apply wp_gets, HQ. split; [done|split; [by apply cb_same|done]].
  - intros h Q Hok HQ. apply wp_ret, HQ. split; [done|split; [by apply cb_same|done]].
  - intros h Q Hok HQ. apply HQ; [apply u64_range|]. split; [done|split; [by apply cb_same|done]].
  - intros h Q Hok HQ. apply wp_gets, HQ. split; [done|split; [by apply cb_same|done]].
  - intros h Q Hok HQ. apply wp_ret, HQ. split; [done|split; [by apply cb_same|done]].
  - intros h Q Hok HQ. apply HQ; [split; [cbn; lia|split; [by apply cb_same|done]]|done].
  - intros fd node flags h Q Hok _ HQ. apply wp_ret, HQ. split; [done|split; [by apply cb_same|done]].
  - intros p h Q Hok _ HQ. apply wp_ret, HQ; [done|]. split; [done|split; [by apply cb_same|done]].
  - intros n h r h' Er Hok. unfold km_alloc_pages, cable_mem, lens_mem, zoom in Er. destruct (km_alloc_pages n (cb_heap h)) as [[a x]|]; simplify_eq. split; [done|by apply cb_same].
  - intros p n h r h' Er Hok. unfold km_free_pages, cable_mem, lens_mem, zoom in Er. destruct (km_free_pages p n (cb_heap h)) as [[a x]|]; simplify_eq. split; [done|by apply cb_same].
  - intros n h r h' Er Hok. unfold km_kmalloc, cable_mem, lens_mem, zoom in Er. destruct (km_kmalloc n (cb_heap h)) as [[a x]|]; simplify_eq. split; [done|by apply cb_same].
  - intros p h r h' Er Hok. unfold km_kfree, cable_mem, lens_mem, zoom in Er. destruct (km_kfree p (cb_heap h)) as [[a x]|]; simplify_eq. split; [done|by apply cb_same].
Defined.

(** ** The handshake *)
Definition demo_cable (me : Z) : cable := Cable [] (demo_ip me) 1000 3 (wi_heap demo_wire).
Definition demo_host (me : Z) : inetst (L := cable) := Inetst (replicate 32 zero_inet) 49152 (me * 1000) (demo_cable me).
Definition sock_file (i : Z) : VFile := MkVFile (SOCKS + i * SIZEOF_INET_SOCKET + INET_NODE_OFFSET) 0 0 0.
Fixpoint run_ops (l : list inet_op) (s : inetst (L := cable)) : option (inetst (L := cable)) :=
  match l with [] => Some s | op :: l' => match run_op SOCKS op s with Some (_, t) => run_ops l' t | None => None end end.
Definition nth_sent (s : inetst (L := cable)) (k : nat) : list Z := match cb_log (is_host s) !! k with Some (_, _, bs) => bs | None => [] end.
Definition the_inet (o : option (inetst (L := cable))) : inetst (L := cable) := from_option id (demo_host 0) o.
(** 15 opens a connection to 2, where port 80 listens; three segments, and 2 accepts. *)
Definition demo_a1 := the_inet (run_ops [OpSocket 0; OpConnect (sock_file 0) (Some (to_str "10.0.2.2:80"))] (demo_host 15)).
Definition demo_b1 := the_inet (run_ops [OpSocket 0; OpBind (sock_file 0) (Some (to_str "0.0.0.0:80")); OpListen (sock_file 0);
  OpTcp (demo_ip 15) (nth_sent demo_a1 0) (Z.of_nat (length (nth_sent demo_a1 0)))] (demo_host 2)).
Definition demo_a2 := the_inet (run_ops [OpTcp (demo_ip 2) (nth_sent demo_b1 0) (Z.of_nat (length (nth_sent demo_b1 0)))] demo_a1).
Definition demo_b2 := the_inet (run_ops [OpTcp (demo_ip 15) (nth_sent demo_a2 1) (Z.of_nat (length (nth_sent demo_a2 1))); OpAccept (sock_file 0)] demo_b1).

(** ** Lemmas: the states reached *)
Lemma run_ops_reach l s t : run_ops l s = Some t → Forall (λ op, ∀ s : inetst (L := cable), op_ok SOCKS s op) l → ∀ s0, inet_reach SOCKS s0 s → inet_reach SOCKS s0 t.
Proof.
  revert s. induction l as [|op l IHl]; intros s E F s0 R; cbn in E; [by injection E as <-|].
  destruct (run_op SOCKS op s) as [[[] u]|] eqn:Eo; [|done]. apply list.Forall_cons in F as [Ho F]. apply (IHl u E F). by eapply ir_op.
Qed.
Lemma sock_file_ok i s : 0 <= i < INET_MAX_SOCKETS → file_ok SOCKS (L := cable) (sock_file i) s.
Proof. intros Hi. right. left. by exists i. Qed.
Lemma demo_start me : inet_start (L := cable) [] [] (demo_host me).
Proof. split; [done|]. split; [done|]. split; [cbn; lia|]. exact demo_wire_inv. Qed.
(** The operations of a program, and a packet in full. *)
Definition plain_op (op : inet_op) : bool :=
  match op with
  | OpTcp _ data len => len <=? Z.of_nat (length data)
  | OpSocket _ => true
  | OpConnect f _ | OpBind f _ | OpListen f | OpAccept f => existsb (λ i, f_node f =? SOCKS + i * SIZEOF_INET_SOCKET + INET_NODE_OFFSET) (seqZ 0 32)
  | _ => false
  end.
Lemma plain_ops_ok l : forallb plain_op l = true → Forall (λ op, ∀ s : inetst (L := cable), op_ok SOCKS s op) l.
Proof.
  intros Hl. apply list.Forall_forall. intros op Hop s. apply list_elem_of_In in Hop. rewrite forallb_forall in Hl. specialize (Hl op Hop).
  assert (F : ∀ f : VFile, existsb (λ i, f_node f =? SOCKS + i * SIZEOF_INET_SOCKET + INET_NODE_OFFSET) (seqZ 0 32) = true → file_ok SOCKS f s).
  { intros f Hf. apply existsb_exists in Hf as (i & Hi & E%Z.eqb_eq). apply list_elem_of_In, elem_of_seqZ in Hi. right. left. exists i. split; [unfold INET_MAX_SOCKETS; lia|done]. }
  destruct op; cbn in *; try done; try (by apply F). by apply Z.leb_le.
Qed.
Lemma demo_ops_ok l s t : run_ops l s = Some t → forallb plain_op l = true → (∃ me, inet_reach SOCKS (demo_host me) s) → ∃ me, inet_reach SOCKS (demo_host me) t.
Proof. intros E Hl (me & R). exists me. eapply run_ops_reach; [exact E|by apply plain_ops_ok|done]. Qed.
Lemma demo_reach_ok s : (∃ me, inet_reach SOCKS (demo_host me) s) → inet_ok SOCKS [] [] s.
Proof. intros (me & R). eapply inet_reach_ok; [apply inet_start_ok, demo_start|exact R]. Qed.
Lemma the_inet_Some o : bool_decide (is_Some o) = true → o = Some (the_inet o).
Proof. intros H%bool_decide_eq_true_1. by destruct o; [|destruct H]. Qed.

Lemma demo_a1_reach : ∃ me, inet_reach SOCKS (demo_host me) demo_a1.
Proof. eapply demo_ops_ok; [apply the_inet_Some; vm_compute; reflexivity|vm_compute; reflexivity|exists 15; constructor]. Qed.
Lemma demo_b1_reach : ∃ me, inet_reach SOCKS (demo_host me) demo_b1.
Proof. eapply demo_ops_ok; [apply the_inet_Some; vm_compute; reflexivity|vm_compute; reflexivity|exists 2; constructor]. Qed.
Lemma demo_a2_reach : ∃ me, inet_reach SOCKS (demo_host me) demo_a2.
Proof. eapply demo_ops_ok; [apply the_inet_Some; vm_compute; reflexivity|vm_compute; reflexivity|exact demo_a1_reach]. Qed.
Lemma demo_b2_reach : ∃ me, inet_reach SOCKS (demo_host me) demo_b2.
Proof. eapply demo_ops_ok; [apply the_inet_Some; vm_compute; reflexivity|vm_compute; reflexivity|exact demo_b1_reach]. Qed.

(** ** The two ends *)
Definition conn_a : Conn := MkConn 0 (demo_ip 2) 49152 80 4219696857 3712280497 (sock_file 0).
Definition conn_b : Conn := MkConn 1 (demo_ip 15) 80 49152 3712280497 4219696857 (sock_file 1).
Definition conn_test (c : Conn) (x : InetSocket) : bool :=
  in_used x && bool_decide (in_kind x = INET_TCP) && (in_local_port x =? cn_local c) && (in_remote_port x =? cn_remote c) && bool_decide (in_remote_ip x = cn_peer c).
Lemma conn_test_spec c x : conn_test c x = true ↔ is_conn c x.
Proof. unfold conn_test, is_conn. rewrite !andb_true_iff, !bool_decide_eq_true, !Z.eqb_eq. tauto. Qed.
(** The checks of [fresh_end], in one boolean. *)
Definition fresh_test (c : Conn) (s : inetst (L := cable)) (x : InetSocket) : bool :=
  let t := in_tcb x in
  conn_test c x && forallb (λ p, (Z.of_nat p.1 =? cn_place c) || negb (conn_test c p.2)) (imap pair (is_socks s)) && (in_parent x =? -1) &&
  (v_file_ops (in_node x) =? INET_FILE_OPS) && bool_decide (state_of x = TCP_ESTABLISHED) &&
  (tc_una t =? nth_seq (cn_iss c) 0) && (tc_nxt t =? nth_seq (cn_iss c) 0) && (tc_rcv t =? nth_seq (cn_piss c) 0) &&
  negb (tc_fin_sent t || tc_fin_received t || tc_close_requested t) && (tb_count (in_tx x) =? 0) && (rr_count (in_rx x) =? 0).
Definition conn_files (c : Conn) : Prop :=
  0 <= cn_place c ∧ f_node (cn_file c) = SOCKS + cn_place c * SIZEOF_INET_SOCKET + INET_NODE_OFFSET ∧ f_node (cn_file c) ≠ 0 ∧
  0 <= cn_local c < 65536 ∧ 0 <= cn_remote c < 65536.
Lemma fresh_test_spec c s :
  conn_files c → inet_ok SOCKS [] [] s → match is_socks s !!z cn_place c with Some x => fresh_test c s x | None => false end = true →
  ∃ x, fresh_end SOCKS [] [] c (MkSide s [] [] [] false false) x.
Proof.
  intros (Hp & Hf & Hnz & Hl & Hr) Hok Ht. destruct (is_socks s !!z cn_place c) as [x|] eqn:Hx; [|done]. exists x.
  unfold fresh_test in Ht. rewrite !andb_true_iff, !negb_true_iff, !orb_false_iff, !Z.eqb_eq, bool_decide_eq_true, conn_test_spec in Ht.
  destruct Ht as ((((((((((Hc & Ha) & Hpa) & Ho) & Hs) & Hu) & Hn) & Hrc) & ((F1 & F2) & F3)) & B1) & B2).
  constructor; try done. constructor; try done. intros j y Hy Cy. rewrite forallb_forall in Ha. cbn in Hy.
  apply lookupZ_nat in Hy as [Hy Hj]. specialize (Ha (Z.to_nat j, y)). cbn in Ha. apply conn_test_spec in Cy. rewrite Cy in Ha.
  assert (Hin : In (Z.to_nat j, y) (imap pair (is_socks s))).
  { apply list_elem_of_In, list_elem_of_lookup. exists (Z.to_nat j). by rewrite list_lookup_imap, Hy. }
  specialize (Ha Hin). rewrite orb_false_r in Ha. apply Z.eqb_eq in Ha. lia.
Qed.
Definition demo_a : Side (L := cable) := MkSide demo_a2 [] [] [] false false.
Definition demo_b : Side (L := cable) := MkSide demo_b2 [] [] [] false false.
Lemma demo_pair_start : pair_start SOCKS [] [] conn_a conn_b (demo_a, demo_b).
Proof.
  split; apply fresh_test_spec.
  - split_and!; done.
  - exact (demo_reach_ok _ demo_a2_reach).
  - vm_compute. reflexivity.
  - split_and!; done.
  - exact (demo_reach_ok _ demo_b2_reach).
  - vm_compute. reflexivity.
Qed.

(** The program at 15 writes, the segment comes to 2, the program there reads. *)
Definition demo_s1 := run_state (inet_write SOCKS (sock_file 0) [104; 105]) demo_a2.
Definition demo_a' : Side := after cb_log conn_a demo_a (take (Z.to_nat 2) [104; 105]) [] false demo_s1.
Definition demo_seg : list Z := hd [] (sd_sent demo_a').
Definition demo_s2 := run_state (inet_tcp_deliver SOCKS (demo_ip 15) (demo_seg ++ [0; 0]) (Z.of_nat (length demo_seg))) demo_b2.
Definition demo_b' : Side := after cb_log conn_b demo_b [] [] false demo_s2.
Definition demo_s3 := run_state (inet_read SOCKS (sock_file 1) 100) demo_s2.
Definition demo_b'' : Side := after cb_log conn_b demo_b' [] (given (Ret (2, [104; 105]))) false demo_s3.
Lemma run_ends {S A} (m : M S A) s (a : A) : option_map fst (m s) = Some a → m s = Some (a, run_state m s).
Proof. unfold run_state. destruct (m s) as [[b t]|]; [|done]. by intros [= ->]. Qed.
Lemma demo_write_runs : inet_write SOCKS (sock_file 0) [104; 105] demo_a2 = Some ((Ret 2, 2), demo_s1).
Proof. unfold demo_s1. apply (run_ends (inet_write SOCKS (sock_file 0) [104; 105]) demo_a2). vm_compute. reflexivity. Qed.
Lemma demo_deliver_runs : inet_tcp_deliver SOCKS (demo_ip 15) (demo_seg ++ [0; 0]) (Z.of_nat (length demo_seg)) demo_b2 = Some (tt, demo_s2).
Proof. unfold demo_s2. apply (run_ends (inet_tcp_deliver SOCKS (demo_ip 15) (demo_seg ++ [0; 0]) (Z.of_nat (length demo_seg))) demo_b2). vm_compute. reflexivity. Qed.
Lemma demo_read_runs : inet_read SOCKS (sock_file 1) 100 demo_s2 = Some (Ret (2, [104; 105]), demo_s3).
Proof. unfold demo_s3. apply (run_ends (inet_read SOCKS (sock_file 1) 100) demo_s2). vm_compute. reflexivity. Qed.
Lemma demo_step_a : side_step SOCKS [] [] cb_log conn_a [] demo_a demo_a'.
Proof.
  unfold demo_a'. refine (ss_write _ _ _ _ conn_a [] demo_a [104; 105] (Ret 2) 2 demo_s1 _ _ _ demo_write_runs); [done|repeat constructor; done|cbn; unfold STREAM_MAX; lia].
Qed.
Lemma demo_seg_sent : demo_seg ∈ sd_sent demo_a'.
Proof.
  assert (N : negb (bool_decide (sd_sent demo_a' = [])) = true) by (vm_compute; reflexivity). unfold demo_seg.
  destruct (sd_sent demo_a') as [|b l]; [by rewrite bool_decide_true in N|by left].
Qed.
Lemma demo_step_b : side_step SOCKS [] [] cb_log conn_b (sd_sent demo_a') demo_b demo_b'.
Proof. unfold demo_b'. exact (ss_deliver _ _ _ _ conn_b (sd_sent demo_a') demo_b demo_seg [0; 0] demo_s2 demo_seg_sent demo_deliver_runs). Qed.
Lemma demo_step_b' : side_step SOCKS [] [] cb_log conn_b (sd_sent demo_a') demo_b' demo_b''.
Proof.
  unfold demo_b''. refine (ss_read _ _ _ _ conn_b (sd_sent demo_a') demo_b' 100 (Ret (2, [104; 105])) demo_s3 _ _ demo_read_runs); [vm_compute; reflexivity|lia].
Qed.
Lemma demo_pair_reach : pair_reach SOCKS [] [] cb_log conn_a conn_b (demo_a, demo_b) (demo_a', demo_b'').
Proof.
  refine (pr_step _ _ _ _ _ _ _ _ _ (pr_step _ _ _ _ _ _ _ _ _ (pr_step _ _ _ _ _ _ _ _ _ (pr_start _ _ _ _ _ _ _) (ps_left _ _ _ _ _ _ demo_a demo_a' demo_b _ demo_step_a))
    (ps_right _ _ _ _ _ _ demo_a' demo_b demo_b' _ demo_step_b)) (ps_right _ _ _ _ _ _ demo_a' demo_b' demo_b'' _ demo_step_b')); [done|done|vm_compute; reflexivity].
Qed.
Lemma cb_wire out (h h' : cable) : ih_sent out h h' → cb_log h' = cb_log h ++ out.
Proof. done. Qed.
Lemma tcp_stream_witness :
  sd_wrote demo_a' = [104; 105] ∧ sd_took demo_b'' = [104; 105] ∧ pair_reach SOCKS [] [] cb_log conn_a conn_b (demo_a, demo_b) (demo_a', demo_b'') ∧
  stream_kept SOCKS conn_b demo_b'' demo_a' ∧ nothing_lost conn_a conn_b demo_a' demo_b''.
Proof.
  destruct (tcp_stream SOCKS [] [] cb_log cb_wire conn_a conn_b (conj eq_refl (conj eq_refl (conj eq_refl eq_refl))) (demo_a, demo_b) demo_a' demo_b''
    demo_pair_start demo_pair_reach) as (_ & K & N & _).
  split; [reflexivity|]. split; [reflexivity|]. split; [exact demo_pair_reach|]. split; [exact K|exact N].
Defined.
