(* ===== verification/Input.v ===== *)
(** * kernel/devices/keyboard.c, mouse.c and ps2mouse.c: input devices

    Scancodes and mouse events wait in two rings for the file system of devices to read
    them; a ring that is full drops what comes.  The PS/2 controller hands over bytes of the
    keyboard and of the mouse, the latter in packets of three or four bytes.

    The ports, the wait queue of the scheduler and the interrupt routing are the class
    [InputHost].  A wait for the controller is bounded by [PS2_TIMEOUT] in the code; the
    handler of the mouse interrupt reads as long as the controller has something, [patience]
    bytes at most here.  Diagnostics and the masking of interrupts are left out.

    [evq_items] is what a ring holds, and the operations on it are those of a bounded queue.
    [Controller] is a controller that holds a queue of bytes; [ps2_stream] says that a mixed
    stream of scancodes and mouse packets arrives as the scancodes and the events. *)
From S2P Require Import Prelude RawMem Pmm Heap VfsTypes Ramfs Ring.
Local Open Scope kernel_scope.

(** ** Rings of events *)
Record evq (A : Type) := Evq { q_ring : list A; q_head : Z; q_tail : Z }.
Arguments Evq {A} _ _ _.
Arguments q_ring {A} _.
Arguments q_head {A} _.
Arguments q_tail {A} _.

Section EventQueue.
Context {A : Type} (N : Z).

(** [kernel/devices/keyboard.c: keyboard_push_scancode 6-11] *)
Definition evq_push (x : A) : M (evq A) unit :=
  q ← get;
  let next := (q_head q + 1) mod N in
  if next =? q_tail q then mret tt
  else
    ring ← lift (updateZ (q_head q) x (q_ring q));
    modify (λ q, Evq ring next (q_tail q)).

(** At most [n] items, oldest first. [kernel/devices/keyboard.c: keyboard_read_raw 37-41] *)
Fixpoint evq_read (n : nat) : M (evq A) (list A) :=
  match n with
  | O => mret []
  | S n' =>
    q ← get;
    if q_tail q =? q_head q then mret []
    else
      x ← lift (q_ring q !!z q_tail q);
      modify (λ q, Evq (q_ring q) (q_head q) ((q_tail q + 1) mod N));;
      xs ← evq_read n';
      mret (x :: xs)
  end.

Definition evq_has_data (q : evq A) : bool := negb (q_tail q =? q_head q).
End EventQueue.

(** ** State *)

(** [kernel/devices/mouse.h 7-15] *)
Record MouseEvent := MkMouseEvent { ev_dx : Z; ev_dy : Z; ev_wheel : Z; ev_buttons : Z; ev_reserved : Z }.

(** The packet being received. [kernel/devices/ps2mouse.c 26-29] *)
Record ps2 := Ps2 { ps2_packet : list Z; ps2_packet_len : Z; ps2_packet_size : Z; ps2_mouse_ready : bool }.

Class InputHost (W : Type) := {
  ih_inb : Z → W → Z * W;
  ih_outb : Z → Z → W → W;
  ih_wake_waiters : W → W;
  ih_route_irq : Z → Z → W → W
}.

Record input (W : Type) := Input { ip_kbd : evq Z; ip_mouse : evq MouseEvent; ip_ps2 : ps2; ip_host : W }.
Arguments Input {W} _ _ _ _.
Arguments ip_kbd {W} _.
Arguments ip_mouse {W} _.
Arguments ip_ps2 {W} _.
Arguments ip_host {W} _.

(** [kernel/devices/keyboard.h 1-1] *)
Definition KBD_BUF_SIZE : Z := 256.
(** [kernel/devices/mouse.h 1-1] *)
Definition MOUSE_BUF_SIZE : Z := 128.
Definition SIZEOF_MOUSE_EVENT : Z := 8.

Definition PS2_DATA : Z := 0x60.
Definition PS2_STATUS : Z := 0x64.
Definition PS2_CMD : Z := 0x64.
Definition PS2_STATUS_OUT_FULL : Z := 1.
Definition PS2_STATUS_IN_FULL : Z := 2.
Definition PS2_STATUS_AUX_DATA : Z := 32.
Definition PS2_TIMEOUT : Z := 100000.
Definition PS2_MOUSE_ACK : Z := 0xFA.
(** Bit [m] of [x] is set. *)
Definition has_flag (x m : Z) : bool := negb (Z.land x m =? 0).

Section Input.
Context {W : Type} `{InputHost W}.
Implicit Types s : input W.

Definition on_kbd {A} (m : M (evq Z) A) : M (input W) A :=
  zoom ip_kbd (λ q s, Input q (ip_mouse s) (ip_ps2 s) (ip_host s)) m.
Definition on_mouse {A} (m : M (evq MouseEvent) A) : M (input W) A :=
  zoom ip_mouse (λ q s, Input (ip_kbd s) q (ip_ps2 s) (ip_host s)) m.
Definition set_ps2 (p : ps2) : M (input W) unit := modify (λ s, Input (ip_kbd s) (ip_mouse s) p (ip_host s)).
Definition on_host (f : W → W) : M (input W) unit :=
  modify (λ s, Input (ip_kbd s) (ip_mouse s) (ip_ps2 s) (f (ip_host s))).
Definition inb (port : Z) : M (input W) Z :=
  s ← get;
  on_host (λ w, snd (ih_inb port w));;
  mret (fst (ih_inb port (ip_host s))).
Definition outb (port v : Z) : M (input W) unit := on_host (ih_outb port v).
(** [a && b] where both are calls. *)
Definition andM (a b : M (input W) bool) : M (input W) bool := r ← a; if (r : bool) then b else mret false.

(** ** keyboard.c and mouse.c *)

(** [kernel/devices/keyboard.c: keyboard_push_scancode] *)
Definition keyboard_push_scancode (sc : Z) : M (input W) unit :=
  on_kbd (evq_push KBD_BUF_SIZE sc);; on_host ih_wake_waiters.

(** [kernel/devices/keyboard.c: keyboard_has_data] *)
Definition keyboard_has_data : M (input W) bool := gets (λ s, evq_has_data (ip_kbd s)).

(** The bytes stored to the buffer; their number is the result.
    [kernel/devices/keyboard.c: keyboard_read_raw] *)
Definition keyboard_read_raw (count : Z) : M (input W) (list Z) := on_kbd (evq_read KBD_BUF_SIZE (Z.to_nat count)).

(** [kernel/devices/mouse.c: mouse_push_event] *)
Definition mouse_push_event (ev : MouseEvent) : M (input W) unit :=
  on_mouse (evq_push MOUSE_BUF_SIZE ev);; on_host ih_wake_waiters.

(** [kernel/devices/mouse.c: mouse_has_data] *)
Definition mouse_has_data : M (input W) bool := gets (λ s, evq_has_data (ip_mouse s)).

(** The events stored to the buffer, and the bytes they take.
    [kernel/devices/mouse.c: mouse_read_raw] *)
Definition mouse_read_raw (count : Z) : M (input W) (list MouseEvent * Z) :=
  evs ← on_mouse (evq_read MOUSE_BUF_SIZE (Z.to_nat (count / SIZEOF_MOUSE_EVENT)));
  mret (evs, Z.of_nat (length evs) * SIZEOF_MOUSE_EVENT).

(** ** ps2mouse.c: packets *)

Definition s8 (x : Z) : Z := let y := u8 x in if y <? 128 then y else y - 256.
Definition s16 (x : Z) : Z := let y := u16 x in if y <? 2 ^ 15 then y else y - 2 ^ 16.

(** The event in a packet. [kernel/devices/ps2mouse.c: ps2_mouse_handle_byte 104-110] *)
Definition ps2_event (packet : list Z) (size : Z) : option MouseEvent :=
  flags ← packet !!z 0; x ← packet !!z 1; y ← packet !!z 2; w ← packet !!z 3;
  Some (MkMouseEvent
    (s16 (x - (if has_flag flags 0x10 then 0x100 else 0)))
    (s16 (- (y - (if has_flag flags 0x20 then 0x100 else 0))))
    (if size =? 4 then s8 (- s8 w) else 0)
    (Z.land flags 0x07) 0).

(** [kernel/devices/ps2mouse.c: ps2_mouse_handle_byte] *)
Definition ps2_mouse_handle_byte (data : Z) : M (input W) unit :=
  p ← gets ip_ps2;
  if (ps2_packet_len p =? 0) && negb (has_flag data 0x08) then mret tt
  else
    packet ← lift (updateZ (ps2_packet_len p) data (ps2_packet p));
    let len := ps2_packet_len p + 1 in
    set_ps2 (Ps2 packet len (ps2_packet_size p) (ps2_mouse_ready p));;
    if len <? ps2_packet_size p then mret tt
    else
      set_ps2 (Ps2 packet 0 (ps2_packet_size p) (ps2_mouse_ready p));;
      flags ← lift (packet !!z 0);
      if has_flag flags 0xC0 then mret tt
      else
        ev ← lift (ps2_event packet (ps2_packet_size p));
        mouse_push_event ev.

(** [kernel/devices/ps2mouse.c: ps2_mouse_feed] *)
Definition ps2_mouse_feed (data : Z) : M (input W) unit :=
  p ← gets ip_ps2;
  if ps2_mouse_ready p then ps2_mouse_handle_byte data else mret tt.

(** [kernel/devices/ps2mouse.c: ps2_mouse_irq_handler] *)
Fixpoint ps2_mouse_irq_handler (patience : nat) : M (input W) unit :=
  status ← inb PS2_STATUS;
  if has_flag status PS2_STATUS_OUT_FULL then
    match patience with
    | O => fail
    | S patience' =>
      status ← inb PS2_STATUS;
      data ← inb PS2_DATA;
      (if has_flag status PS2_STATUS_AUX_DATA then ps2_mouse_feed data else keyboard_push_scancode data);;
      ps2_mouse_irq_handler patience'
    end
  else mret tt.

(** [kernel/devices/keyboard.c: keyboard_irq_handler] *)
Definition keyboard_irq_handler : M (input W) unit :=
  status ← inb 0x64;
  if negb (has_flag status 0x01) then mret tt
  else
    data ← inb 0x60;
    if has_flag status 0x20 then ps2_mouse_feed data else keyboard_push_scancode data.

(** ** ps2mouse.c: setting the mouse up *)

(** [kernel/devices/ps2mouse.c: ps2_wait_write] *)
Fixpoint ps2_wait_write (n : nat) : M (input W) bool :=
  match n with
  | O => mret false
  | S n' => status ← inb PS2_STATUS; if negb (has_flag status PS2_STATUS_IN_FULL) then mret true else ps2_wait_write n'
  end.

(** [kernel/devices/ps2mouse.c: ps2_read] *)
Fixpoint ps2_read (n : nat) (want_aux : bool) : M (input W) Z :=
  match n with
  | O => mret (-1)
  | S n' =>
    status ← inb PS2_STATUS;
    if has_flag status PS2_STATUS_OUT_FULL then
      data ← inb PS2_DATA;
      let is_aux := has_flag status PS2_STATUS_AUX_DATA in
      if Bool.eqb is_aux want_aux then mret data
      else
        (if negb is_aux then keyboard_push_scancode data else mret tt);;
        ps2_read n' want_aux
    else ps2_read n' want_aux
  end.

Definition PS2_TURNS : nat := Z.to_nat PS2_TIMEOUT.

(** [kernel/devices/ps2mouse.c: ps2_ctl_cmd] *)
Definition ps2_ctl_cmd (cmd : Z) : M (input W) bool :=
  ok ← ps2_wait_write PS2_TURNS; if negb ok then mret false else outb PS2_CMD cmd;; mret true.
(** [kernel/devices/ps2mouse.c: ps2_ctl_write_data] *)
Definition ps2_ctl_write_data (data : Z) : M (input W) bool :=
  ok ← ps2_wait_write PS2_TURNS; if negb ok then mret false else outb PS2_DATA data;; mret true.
(** [kernel/devices/ps2mouse.c: ps2_mouse_cmd] *)
Definition ps2_mouse_cmd (cmd : Z) : M (input W) bool :=
  ok ← andM (ps2_ctl_cmd 0xD4) (ps2_ctl_write_data cmd);
  if negb ok then mret false else r ← ps2_read PS2_TURNS true; mret (r =? PS2_MOUSE_ACK).
(** [kernel/devices/ps2mouse.c: ps2_mouse_set_rate] *)
Definition ps2_mouse_set_rate (rate : Z) : M (input W) bool := andM (ps2_mouse_cmd 0xF3) (ps2_mouse_cmd rate).

(** The sequence of rates that makes a wheel mouse say so.
    [kernel/devices/ps2mouse.c: ps2_mouse_init 171-172] *)
Definition ps2_has_wheel : M (input W) bool :=
  andM (ps2_mouse_set_rate 200) (andM (ps2_mouse_set_rate 100) (andM (ps2_mouse_set_rate 80)
    (andM (ps2_mouse_cmd 0xF2) (r ← ps2_read PS2_TURNS true; mret (r =? 3))))).

Definition set_packet_size (n : Z) : M (input W) unit :=
  p ← gets ip_ps2; set_ps2 (Ps2 (ps2_packet p) (ps2_packet_len p) n (ps2_mouse_ready p)).

(** Both labels at the end only print and restore the interrupt flag.
    [kernel/devices/ps2mouse.c: ps2_mouse_init] *)
Definition ps2_mouse_init : M (input W) unit :=
  status ← inb PS2_STATUS;
  if status =? 0xFF then mret tt else
  ok ← ps2_ctl_cmd 0xA8;
  if negb ok then mret tt else
  ok ← ps2_ctl_cmd 0xA9;
  if negb ok then mret tt else
  test ← ps2_read PS2_TURNS false;
  if negb (test =? 0) then mret tt else
  ok ← ps2_ctl_cmd 0x20;
  if negb ok then mret tt else
  config ← ps2_read PS2_TURNS false;
  if config <? 0 then mret tt else
  let config := Z.land (Z.lor config 2) (Z.lnot 32) in
  ok ← andM (ps2_ctl_cmd 0x60) (ps2_ctl_write_data (u8 config));
  if negb ok then mret tt else
  ok ← ps2_mouse_cmd 0xF6;
  if negb ok then mret tt else
  set_packet_size 3;;
  wheel ← ps2_has_wheel;
  (if (wheel : bool) then set_packet_size 4 else mret tt);;
  ok ← andM (ps2_mouse_set_rate 100) (ps2_mouse_cmd 0xF4);
  if negb ok then mret tt else
  p ← gets ip_ps2;
  set_ps2 (Ps2 (ps2_packet p) 0 (ps2_packet_size p) true);;
  on_host (ih_route_irq 12 35).

(** [kernel/devices/keyboard.c: keyboard_init] *)
Definition keyboard_init : M (input W) unit :=
  on_kbd (modify (λ q, Evq (q_ring q) 0 0));; on_host (ih_route_irq 1 33).
(** [kernel/devices/mouse.c: mouse_init] *)
Definition mouse_init : M (input W) unit := on_mouse (modify (λ q, Evq (q_ring q) 0 0)).
End Input.

(** ** Lemmas *)
Lemma has_flag_testbit x i : 0 <= i → has_flag x (Z.shiftl 1 i) = Z.testbit x i.
Proof.
  intros Hi. unfold has_flag. destruct (Z.eqb_spec (Z.land x (Z.shiftl 1 i)) 0) as [E|E].
  - assert (T : Z.testbit (Z.land x (Z.shiftl 1 i)) i = false) by (by rewrite E, Z.testbit_0_l).
    rewrite Z.land_spec, Z.shiftl_spec, Z.sub_diag in T by done. change (Z.testbit 1 0) with true in T. by rewrite andb_true_r in T.
  - destruct (Z.testbit x i) eqn:T; [done|]. exfalso. apply E. apply Z.bits_inj'. intros j Hj. rewrite Z.land_spec, Z.testbit_0_l.
    rewrite Z.shiftl_spec, testbit_one by done. destruct (Z.eqb_spec (j - i) 0); [|apply andb_false_r].
    replace j with i by lia. by rewrite T.
Qed.

(** ** The rings are bounded queues *)
Section EvqLemmas.
Context {A : Type} (d : A) (N : Z) (HN : 1 < N).
Implicit Types q : evq A.

Definition evq_count q : Z := (q_head q - q_tail q) mod N.
(** What the ring holds, oldest first. *)
Definition evq_items q : list A := ring_items d N (q_ring q) (q_tail q) (evq_count q).
Definition evq_wf q : Prop := Z.of_nat (length (q_ring q)) = N ∧ 0 <= q_head q < N ∧ 0 <= q_tail q < N.

Lemma evq_count_range q : 0 <= evq_count q < N.
Proof using HN. apply Z.mod_pos_bound. lia. Qed.
Lemma evq_items_length q : Z.of_nat (length (evq_items q)) = evq_count q.
Proof using HN. pose proof (evq_count_range q). apply (ring_items_length d N); lia. Qed.
Lemma evq_ring_wf q : evq_wf q → ring_wf N (q_ring q) (q_tail q) (evq_count q).
Proof using HN. intros (L & Hh & Ht). pose proof (evq_count_range q). split_and!; lia. Qed.
Lemma evq_head_count q : evq_wf q → (q_tail q + evq_count q) mod N = q_head q.
Proof using HN.
  intros (L & Hh & Ht). unfold evq_count. rewrite Zplus_mod_idemp_r.
  replace (q_tail q + (q_head q - q_tail q)) with (q_head q) by lia. by apply Z.mod_small.
Qed.
Lemma evq_count_is head tail c ring : 0 <= c < N → (tail + c) mod N = head → evq_count (Evq ring head tail) = c.
Proof using HN.
  intros Hc <-. unfold evq_count. simpl. rewrite Zminus_mod_idemp_l.
  replace (tail + c - tail) with c by lia. by apply Z.mod_small.
Qed.

Lemma evq_push_wp x q (Q : unit → evq A → Prop) :
  evq_wf q →
  (∀ q', evq_wf q' →
     evq_items q' = (if Z.of_nat (length (evq_items q)) <? N - 1 then evq_items q ++ [x] else evq_items q) → Q tt q') →
  wp (evq_push N x) Q q.
Proof using HN.
  intros W HQ. unfold evq_push. wp_steps. pose proof (evq_count_range q) as Hc. pose proof (evq_head_count q W) as Eh.
  assert (Eq : (q_head q + 1) mod N = (q_tail q + (evq_count q + 1)) mod N).
  { rewrite <- Eh, Zplus_mod_idemp_l. f_equal. lia. }
  pose proof (W) as (L & Hh & Ht). rewrite evq_items_length in HQ.
  destruct (Z.eqb_spec ((q_head q + 1) mod N) (q_tail q)) as [E|E].
  - wp_steps. apply HQ; [done|]. destruct (Z.ltb_spec (evq_count q) (N - 1)); [|done]. exfalso.
    rewrite Eq, ring_mod in E by lia. destruct (Z.ltb_spec (q_tail q + (evq_count q + 1)) N); lia.
  - destruct (ring_push d N ltac:(lia) _ _ _ x (evq_ring_wf q W)) as (ring & Hr & Wr & Ei); [lia|]. rewrite Eh in Hr.
    assert (evq_count q < N - 1).
    { destruct (decide (evq_count q = N - 1)) as [Ec|]; [|lia]. exfalso. apply E. rewrite Eq, Ec.
      replace (q_tail q + (N - 1 + 1)) with (q_tail q + 1 * N) by lia. rewrite Z_mod_plus_full. by apply Z.mod_small. }
    apply wp_bind. eapply wp_lift; [exact Hr|]. wp_steps.
    assert (Ec : evq_count (Evq ring ((q_head q + 1) mod N) (q_tail q)) = evq_count q + 1) by (apply evq_count_is; [lia|done]).
    apply HQ.
    + destruct Wr as (Lr & _). split_and!; [done|apply Z.mod_pos_bound; lia|apply Z.mod_pos_bound; lia|simpl; lia|simpl; lia].
    + unfold evq_items. rewrite Ec. destruct (Z.ltb_spec (evq_count q) (N - 1)); [done|lia].
Qed.

Lemma evq_read_wp n q (Q : list A → evq A → Prop) :
  evq_wf q → (∀ q', evq_wf q' → evq_items q' = drop n (evq_items q) → Q (take n (evq_items q)) q') →
  wp (evq_read N n) Q q.
Proof using HN.
  revert q Q. induction n as [|n IH]; intros q Q W HQ; cbn [evq_read].
  { wp_steps. by apply HQ. }
  wp_steps. pose proof (evq_head_count q W) as Eh. pose proof (evq_items_length q) as Le. pose proof (evq_count_range q) as Hc.
  pose proof (W) as (L & Hh & Ht).
  destruct (Z.eqb_spec (q_tail q) (q_head q)) as [E|E].
  - assert (E0 : evq_count q = 0) by (unfold evq_count; by rewrite E, Z.sub_diag). rewrite E0 in Le.
    destruct (evq_items q) as [|? ?] eqn:Ei; [|simpl in Le; lia]. wp_steps. apply HQ; [done|by rewrite Ei].
  - assert (0 < evq_count q).
    { destruct (decide (evq_count q = 0)) as [E0|]; [|lia]. rewrite E0, Z.add_0_r, Z.mod_small in Eh by lia. done. }
    destruct (lookupZ_lt_is_Some (q_ring q) (q_tail q)) as [x Hx]; [lia|].
    apply wp_bind. eapply wp_lift; [exact Hx|]. wp_steps.
    assert (Ec : evq_count (Evq (q_ring q) (q_head q) ((q_tail q + 1) mod N)) = evq_count q - 1).
    { apply evq_count_is; [lia|]. rewrite Zplus_mod_idemp_l, <- Eh. f_equal. lia. }
    assert (Ei : evq_items q = x :: evq_items (Evq (q_ring q) (q_head q) ((q_tail q + 1) mod N))).
    { unfold evq_items at 1. rewrite (ring_items_head d N ltac:(lia) _ _ _ x (evq_ring_wf q W)) by done.
      unfold evq_items. by rewrite Ec. }
    rewrite Ei in HQ. apply IH.
    + split_and!; simpl; try lia; apply Z.mod_pos_bound; lia.
    + intros q' W' E'. wp_steps. by apply HQ.
Qed.
End EvqLemmas.

(** ** A controller that holds a queue of bytes *)

(** Bit 0 of the status says that there is a byte, bit 5 that it is from the mouse;
    reading the data port takes it. *)
Definition ctl_inb (port : Z) (w : list (bool * Z)) : Z * list (bool * Z) :=
  match w with
  | [] => (0, [])
  | (aux, b) :: w' =>
    if port =? PS2_STATUS then (if aux then 33 else 1, w)
    else if port =? PS2_DATA then (b, w') else (0, w)
  end.
#[export] Instance controller : InputHost (list (bool * Z)) := {
  ih_inb := ctl_inb;
  ih_outb _ _ w := w;
  ih_wake_waiters w := w;
  ih_route_irq _ _ w := w
}.

Definition kbd_items {W} (s : input W) : list Z := evq_items 0 KBD_BUF_SIZE (ip_kbd s).
Definition zero_event : MouseEvent := MkMouseEvent 0 0 0 0 0.
Definition mouse_items {W} (s : input W) : list MouseEvent := evq_items zero_event MOUSE_BUF_SIZE (ip_mouse s).
Definition queues_wf {W} (s : input W) : Prop := evq_wf KBD_BUF_SIZE (ip_kbd s) ∧ evq_wf MOUSE_BUF_SIZE (ip_mouse s).

(** [x] is put into a queue of at most [n] items, or dropped. *)
Definition enqueue {A} (n : Z) (x : A) (l : list A) : list A := if Z.of_nat (length l) <? n then l ++ [x] else l.

Section Pushes.
Context {W : Type} `{InputHost W}.
Lemma keyboard_push_scancode_wp sc (s : input W) (Q : unit → input W → Prop) :
  queues_wf s →
  (∀ q, evq_wf KBD_BUF_SIZE q → evq_items 0 KBD_BUF_SIZE q = enqueue 255 sc (kbd_items s) →
     Q tt (Input q (ip_mouse s) (ip_ps2 s) (ih_wake_waiters (ip_host s)))) →
  wp (keyboard_push_scancode sc) Q s.
Proof.
  intros [WK _] HQ. unfold keyboard_push_scancode, on_kbd, on_host. wp_steps.
  apply (evq_push_wp 0); [done|done|]. intros q Wq Eq. wp_steps. by apply HQ.
Qed.
Lemma mouse_push_event_wp ev (s : input W) (Q : unit → input W → Prop) :
  queues_wf s →
  (∀ q, evq_wf MOUSE_BUF_SIZE q → evq_items zero_event MOUSE_BUF_SIZE q = enqueue 127 ev (mouse_items s) →
     Q tt (Input (ip_kbd s) q (ip_ps2 s) (ih_wake_waiters (ip_host s)))) →
  wp (mouse_push_event ev) Q s.
Proof.
  intros [_ WM] HQ. unfold mouse_push_event, on_mouse, on_host. wp_steps.
  apply (evq_push_wp zero_event); [done|done|]. intros q Wq Eq. wp_steps. by apply HQ.
Qed.
Lemma keyboard_read_raw_wp count (s : input W) (Q : list Z → input W → Prop) :
  queues_wf s →
  (∀ q, evq_wf KBD_BUF_SIZE q → evq_items 0 KBD_BUF_SIZE q = drop (Z.to_nat count) (kbd_items s) →
     Q (take (Z.to_nat count) (kbd_items s)) (Input q (ip_mouse s) (ip_ps2 s) (ip_host s))) →
  wp (keyboard_read_raw count) Q s.
Proof.
  intros [WK _] HQ. unfold keyboard_read_raw, on_kbd. wp_steps. apply (evq_read_wp 0); [done|done|].
  intros q Wq Eq. by apply HQ.
Qed.
Lemma mouse_read_raw_wp count (s : input W) (Q : list MouseEvent * Z → input W → Prop) :
  queues_wf s →
  (∀ q, evq_wf MOUSE_BUF_SIZE q → evq_items zero_event MOUSE_BUF_SIZE q = drop (Z.to_nat (count / 8)) (mouse_items s) →
     let evs := take (Z.to_nat (count / 8)) (mouse_items s) in
     Q (evs, 8 * Z.of_nat (length evs)) (Input (ip_kbd s) q (ip_ps2 s) (ip_host s))) →
  wp (mouse_read_raw count) Q s.
Proof.
  intros [_ WM] HQ. unfold mouse_read_raw, on_mouse. wp_steps. apply (evq_read_wp zero_event); [done|done|].
  intros q Wq Eq. wp_steps. unfold SIZEOF_MOUSE_EVENT. rewrite Z.mul_comm. by apply HQ.
Qed.
End Pushes.

(** ** Packets of the mouse *)

(** The bytes a mouse sends for an event; the vertical axis and the wheel point the
    other way there. *)
Definition ps2_encode (size : Z) (ev : MouseEvent) : list Z :=
  let y := - ev_dy ev in
  [8 + ev_buttons ev + (if ev_dx ev <? 0 then 16 else 0) + (if y <? 0 then 32 else 0); u8 (ev_dx ev); u8 y] ++
  (if size =? 4 then [u8 (- ev_wheel ev)] else []).

(** The events a packet of [size] bytes can carry. *)
Definition ps2_carries (size : Z) (ev : MouseEvent) : Prop :=
  -256 <= ev_dx ev < 256 ∧ -256 < ev_dy ev <= 256 ∧ 0 <= ev_buttons ev < 8 ∧ ev_reserved ev = 0 ∧
  if size =? 4 then -128 <= ev_wheel ev < 128 else ev_wheel ev = 0.

Lemma s16_small x : - 2 ^ 15 <= x < 2 ^ 15 → s16 x = x.
Proof. intros H. unfold s16, u16. destruct (Z.ltb_spec (x mod 2 ^ 16) (2 ^ 15)); Z.to_euclidean_division_equations; lia. Qed.
Lemma s8_neg_u8 x : -128 <= x < 128 → s8 (- s8 (u8 (- x))) = x.
Proof.
  intros H. apply Z.eqb_eq. replace x with ((x + 128) - 128) by lia.
  apply (check_range (λ v, s8 (- s8 (u8 (- (v - 128)))) =? v - 128) 256); [vm_compute; reflexivity|lia].
Qed.
Lemma u8_sign x : -256 <= x < 256 → u8 x - (if x <? 0 then 256 else 0) = x.
Proof. intros H. unfold u8. destruct (Z.ltb_spec x 0); Z.to_euclidean_division_equations; lia. Qed.

Lemma ps2_flags b (n m : bool) (f := 8 + b + (if n then 16 else 0) + (if m then 32 else 0)) : 0 <= b < 8 →
  has_flag f 0x10 = n ∧ has_flag f 0x20 = m ∧ has_flag f 0xC0 = false ∧ has_flag f 0x08 = true ∧ Z.land f 7 = b.
Proof.
  intros Hb.
  pose (ok := λ b n m, let f := 8 + b + (if (n : bool) then 16 else 0) + (if (m : bool) then 32 else 0) in
    Bool.eqb (has_flag f 0x10) n && Bool.eqb (has_flag f 0x20) m && negb (has_flag f 0xC0) && has_flag f 0x08 && (Z.land f 7 =? b)).
  assert (G : ok b n m = true).
  { destruct n, m; (eapply (check_range (λ b, ok b _ _) 8); [vm_compute; reflexivity|done]). }
  unfold ok in G. fold f in G. rewrite !andb_true_iff, !eqb_true_iff, negb_true_iff, Z.eqb_eq in G. tauto.
Qed.

Lemma ps2_event_bytes f x y w size :
  ps2_event [f; x; y; w] size = Some (MkMouseEvent
    (s16 (x - (if has_flag f 0x10 then 0x100 else 0))) (s16 (- (y - (if has_flag f 0x20 then 0x100 else 0))))
    (if size =? 4 then s8 (- s8 w) else 0) (Z.land f 0x07) 0).
Proof. reflexivity. Qed.

Lemma ps2_event_encode size ev packet rest :
  size = 3 ∨ size = 4 → ps2_carries size ev → length packet = 4%nat → packet = ps2_encode size ev ++ rest →
  packet !!z 0 = Some (default 0 (head (ps2_encode size ev))) ∧
  has_flag (default 0 (head (ps2_encode size ev))) 0x08 = true ∧
  has_flag (default 0 (head (ps2_encode size ev))) 0xC0 = false ∧
  ps2_event packet size = Some ev.
Proof.
  intros Hsz (Hx & Hy & Hb & Hr & Hw) L E. cbn [ps2_encode head app default from_option id].
  destruct (ps2_flags (ev_buttons ev) (ev_dx ev <? 0) (- ev_dy ev <? 0) Hb) as (F1 & F2 & F3 & F4 & F5).
  assert (Hp : ∃ w, packet = [8 + ev_buttons ev + (if ev_dx ev <? 0 then 16 else 0) + (if - ev_dy ev <? 0 then 32 else 0); u8 (ev_dx ev); u8 (- ev_dy ev); w] ∧
    (if size =? 4 then s8 (- s8 w) else 0) = ev_wheel ev).
  { destruct Hsz as [-> | ->]; subst packet; simpl in *.
    - destruct rest as [|w [|]]; simplify_eq/=. by exists w.
    - destruct rest; simplify_eq/=. eexists. split; [done|]. by apply s8_neg_u8. }
  destruct Hp as (w & -> & Ew). split_and!; [done|done|done|]. rewrite ps2_event_bytes.
  rewrite F1, F2, F5, Ew, !u8_sign, !s16_small, Z.opp_involutive by lia. f_equal. destruct ev; simpl in *. by subst.
Qed.

(** ** The stream of a controller *)
Fixpoint aux_bytes (q : list (bool * Z)) : list Z :=
  match q with [] => [] | (aux, b) :: q' => if (aux : bool) then b :: aux_bytes q' else aux_bytes q' end.
Fixpoint key_bytes (q : list (bool * Z)) : list Z :=
  match q with [] => [] | (aux, b) :: q' => if (aux : bool) then key_bytes q' else b :: key_bytes q' end.
Definition ps2_bytes (size : Z) (evs : list MouseEvent) : list Z := concat (map (ps2_encode size) evs).

(** The first bytes of a packet have come. *)
Definition ps2_partial (size : Z) (p : ps2) (partial : list Z) : Prop :=
  ps2_packet_size p = size ∧ ps2_mouse_ready p = true ∧ length (ps2_packet p) = 4%nat ∧
  ps2_packet_len p = Z.of_nat (length partial) ∧ take (length partial) (ps2_packet p) = partial ∧
  Z.of_nat (length partial) < size.

Section Stream.
Context (size : Z) (Hsize : size = 3 ∨ size = 4).
Abbreviation st := (input (list (bool * Z))).

Lemma ps2_encode_length ev : Z.of_nat (length (ps2_encode size ev)) = size.
Proof using Hsize. by destruct Hsize as [-> | ->]. Qed.

Lemma enqueue_room {A} n x (l l' : list A) : Z.of_nat (length l) + Z.of_nat (length (x :: l')) <= n → enqueue n x l = l ++ [x].
Proof. intros H. unfold enqueue. destruct (Z.ltb_spec (Z.of_nat (length l)) n); [done|]. simpl in H. lia. Qed.

(** One byte of the mouse: the packet grows, or its event is queued. *)
Lemma ps2_mouse_feed_wp b rest partial evs (s : st) (Q : unit → st → Prop) :
  queues_wf s → ps2_partial size (ip_ps2 s) partial → Forall (ps2_carries size) evs →
  partial ++ b :: rest = ps2_bytes size evs → Z.of_nat (length (mouse_items s) + length evs) <= 127 →
  (∀ p', ps2_partial size p' (partial ++ [b]) → Q tt (Input (ip_kbd s) (ip_mouse s) p' (ip_host s))) →
  (∀ p' q' ev evs', evs = ev :: evs' → rest = ps2_bytes size evs' → ps2_partial size p' [] →
     evq_wf MOUSE_BUF_SIZE q' → evq_items zero_event MOUSE_BUF_SIZE q' = mouse_items s ++ [ev] →
     Q tt (Input (ip_kbd s) q' p' (ip_host s))) →
  wp (ps2_mouse_feed b) Q s.
Proof using Hsize.
  intros Wf (S1 & S2 & S3 & S4 & S5 & S6) Fe E Hroom HA HB. unfold ps2_mouse_feed. wp_steps. rewrite S2.
  unfold ps2_mouse_handle_byte. wp_steps. rewrite S4.
  destruct evs as [|ev evs']; [by destruct partial|]. apply list.Forall_cons in Fe as [Hc Fe].
  pose proof (ps2_encode_length ev) as Le. change (ps2_bytes size (ev :: evs')) with (ps2_encode size ev ++ ps2_bytes size evs') in E.
  set (k := length partial) in *.
  assert (Hk : (k < length (ps2_packet (ip_ps2 s)))%nat) by (destruct Hsize as [-> | ->]; lia).
  assert (L4 : length (ps2_encode size ev ++ (if size =? 4 then [] else [0])) = 4%nat) by (by destruct Hsize as [-> | ->]).
  destruct (ps2_event_encode size ev _ _ Hsize Hc L4 eq_refl) as (_ & F8 & FC & _).
  assert (G : (Z.of_nat k =? 0) && negb (has_flag b 8) = false).
  { destruct partial; [|done]. simpl in E. injection E as E _. subst b. simpl in F8. by rewrite F8. }
  rewrite G. set (pk := <[k := b]> (ps2_packet (ip_ps2 s))).
  assert (Epk : take (S k) pk = partial ++ [b]).
  { unfold pk. rewrite insert_take_drop by done. rewrite S5. change (b :: drop (S k) (ps2_packet (ip_ps2 s))) with ([b] ++ drop (S k) (ps2_packet (ip_ps2 s))).
    rewrite app_assoc, take_app_length'; [done|]. rewrite length_app. simpl. fold k. lia. }
  assert (Lpk : length pk = 4%nat) by (unfold pk; by rewrite length_insert).
  apply wp_bind. eapply wp_lift; [apply updateZ_is_Some; lia|]. rewrite Nat2Z.id. fold pk. unfold set_ps2. wp_steps.
  assert (Lp : length (partial ++ [b]) = S k) by (rewrite length_app; simpl; fold k; lia).
  rewrite S1, S2. destruct (Z.ltb_spec (Z.of_nat k + 1) size).
  - wp_steps. apply HA. split_and!; try done; rewrite ?Lp; simpl; [lia|exact Epk|lia].
  - assert (Ee : partial ++ [b] = ps2_encode size ev ∧ rest = ps2_bytes size evs').
    { change (partial ++ b :: rest) with (partial ++ [b] ++ rest) in E. rewrite app_assoc in E.
      apply app_inj_1 in E; [done|]. apply Nat2Z.inj. rewrite Lp, Le. lia. }
    destruct Ee as [Ee Er].
    assert (Epk' : pk = ps2_encode size ev ++ drop (S k) pk) by (by rewrite <- Ee, <- Epk, take_drop).
    destruct (ps2_event_encode size ev pk _ Hsize Hc Lpk Epk') as (H0 & _ & _ & Hev).
    wp_steps. eapply wp_lift; [exact H0|]. rewrite FC. apply wp_bind. eapply wp_lift; [exact Hev|].
    apply mouse_push_event_wp; [exact Wf|]. intros q' Wq Eq. simpl.
    apply (HB _ q' ev evs'); try done.
    + split_and!; try done. simpl. destruct Hsize; lia.
    + rewrite Eq. unfold mouse_items. apply (enqueue_room 127 ev _ evs'). unfold mouse_items in Hroom. simpl in *. lia.
Qed.

Lemma inb_status_wp (s : st) (Q : Z → st → Prop) :
  Q (match ip_host s with [] => 0 | (aux, _) :: _ => if (aux : bool) then 33 else 1 end) s → wp (inb PS2_STATUS) Q s.
Proof.
  destruct s as [kb mo p [|[aux b] q]]; unfold inb, on_host; wp_steps; [done|]. simpl. by destruct aux.
Qed.
Lemma inb_data_wp aux b q (s : st) (Q : Z → st → Prop) :
  ip_host s = (aux, b) :: q → Q b (Input (ip_kbd s) (ip_mouse s) (ip_ps2 s) q) → wp (inb PS2_DATA) Q s.
Proof. destruct s as [kb mo p w]. simpl. intros -> HQ. unfold inb, on_host. by wp_steps. Qed.

Lemma no_partial_left partial evs (p : ps2) :
  ps2_partial size p partial → partial ++ [] = ps2_bytes size evs → evs = [] ∧ partial = [].
Proof using Hsize.
  intros (_ & _ & _ & _ & _ & P6) E. rewrite app_nil_r in E. destruct evs as [|ev evs']; [by split|]. exfalso.
  pose proof (ps2_encode_length ev). subst partial. change (ps2_bytes size (ev :: evs')) with (ps2_encode size ev ++ ps2_bytes size evs') in P6.
  rewrite length_app in P6. lia.
Qed.

(** What is left when the controller is empty. *)
Lemma ps2_handler_wp n q evs partial (s : st) :
  ip_host s = q → (length q <= n)%nat → queues_wf s → ps2_partial size (ip_ps2 s) partial →
  Forall (ps2_carries size) evs → partial ++ aux_bytes q = ps2_bytes size evs →
  Z.of_nat (length (mouse_items s) + length evs) <= 127 → Z.of_nat (length (kbd_items s) + length (key_bytes q)) <= 255 →
  wp (ps2_mouse_irq_handler n)
    (λ _ s', ip_host s' = [] ∧ queues_wf s' ∧ ps2_partial size (ip_ps2 s') [] ∧
       kbd_items s' = kbd_items s ++ key_bytes q ∧ mouse_items s' = mouse_items s ++ evs) s.
Proof using Hsize.
  revert q evs partial s. induction n as [|n IH]; intros q evs partial s Eq Hn Wf P Fe E Rm Rk;
    cbn [ps2_mouse_irq_handler]; apply wp_bind, inb_status_wp; rewrite Eq; destruct q as [|[aux b] q]; cbn [length] in Hn; try lia;
    try (wp_steps; destruct (no_partial_left _ _ _ P E) as [-> ->]; rewrite !app_nil_r; split_and!; done || apply Wf).
  replace (has_flag (if aux then 33 else 1) PS2_STATUS_OUT_FULL) with true by (by destruct aux).
  apply wp_bind, inb_status_wp. rewrite Eq. apply wp_bind. eapply inb_data_wp; [exact Eq|]. apply wp_bind.
  replace (has_flag (if aux then 33 else 1) PS2_STATUS_AUX_DATA) with aux by (by destruct aux).
  set (s0 := Input _ _ _ _). assert (Wf0 : queues_wf s0) by exact Wf. destruct aux; cbn [aux_bytes key_bytes] in *.
  - apply (ps2_mouse_feed_wp b (aux_bytes q) partial evs); try done.
    + intros p' P'. eapply wp_mono; [apply (IH q evs (partial ++ [b])); try done; [lia|by rewrite <- app_assoc]|].
      intros u s' Hs'. exact Hs'.
    + intros p' q' ev evs' -> Er P' Wq Eq'. apply list.Forall_cons in Fe as [Hc Fe].
      eapply wp_mono; [apply (IH q evs' []); try done; [lia|by destruct Wf|]|].
      * unfold mouse_items in *. simpl in *. rewrite Eq', length_app. simpl. lia.
      * intros _ s' (H1 & H2 & H3 & H4 & H5). split_and!; try done. rewrite H5. unfold mouse_items in *. simpl. rewrite Eq'.
        by rewrite <- app_assoc.
  - apply keyboard_push_scancode_wp; [done|]. intros q' Wq Eq'. simpl in Rk.
    rewrite (enqueue_room _ _ _ (key_bytes q)) in Eq' by (unfold kbd_items in *; simpl in *; lia).
    eapply wp_mono; [apply (IH q evs partial); try done; [lia|by destruct Wf|]|].
    + unfold kbd_items in *. simpl in *. rewrite Eq', length_app. simpl. lia.
    + intros _ s' (H1 & H2 & H3 & H4 & H5). split_and!; try done. rewrite H4. unfold kbd_items in *. simpl. rewrite Eq'.
      by rewrite <- app_assoc.
Qed.
End Stream.

(** ** Setting up always ends *)
Section Init.
Context {W : Type} `{InputHost W}.

(** A call that leaves the rings in shape and the packet state alone. *)
Definition quiet {A} (m : M (input W) A) : Prop :=
  ∀ s (Q : A → input W → Prop), queues_wf s →
    (∀ a s', queues_wf s' → ip_ps2 s' = ip_ps2 s → Q a s') → wp m Q s.

Lemma quiet_ret {A} (a : A) : quiet (mret a).
Proof. intros s Q Wf HQ. wp_steps. by apply HQ. Qed.
Lemma quiet_bind {A B} (m : M (input W) A) (f : A → M (input W) B) : quiet m → (∀ a, quiet (f a)) → quiet (m ≫= f).
Proof.
  intros Hm Hf s Q Wf HQ. apply wp_bind, Hm; [done|]. intros a s' Wf' E. apply Hf; [done|].
  intros b s2 Wf2 E2. apply HQ; [done|congruence].
Qed.
Lemma quiet_if {A} (b : bool) (m m' : M (input W) A) : quiet m → quiet m' → quiet (if b then m else m').
Proof. by destruct b. Qed.
Lemma quiet_inb port : quiet (inb port).
Proof. intros s Q Wf HQ. unfold inb, on_host. wp_steps. by apply HQ. Qed.
Lemma quiet_outb port v : quiet (outb port v).
Proof. intros s Q Wf HQ. unfold outb, on_host. wp_steps. by apply HQ. Qed.
Lemma quiet_push sc : quiet (keyboard_push_scancode sc).
Proof. intros s Q [Wf Wf'] HQ. apply keyboard_push_scancode_wp; [done|]. intros q Wq _. by apply HQ. Qed.
Lemma quiet_andM a b : quiet a → quiet b → quiet (andM a b).
Proof. intros Ha Hb. apply quiet_bind; [done|]. intros r. by apply quiet_if; [|apply quiet_ret]. Qed.
#[local] Create HintDb quiet.
Local Hint Resolve quiet_ret quiet_bind quiet_if quiet_inb quiet_outb quiet_push quiet_andM : quiet.

Lemma quiet_wait_write n : quiet (ps2_wait_write n).
Proof. induction n; cbn [ps2_wait_write]; auto with quiet. Qed.
Lemma quiet_read n aux : quiet (ps2_read n aux).
Proof. induction n; cbn [ps2_read]; auto 8 with quiet. Qed.
Local Hint Resolve quiet_wait_write quiet_read : quiet.
Lemma quiet_ctl_cmd cmd : quiet (ps2_ctl_cmd cmd).
Proof. unfold ps2_ctl_cmd. generalize PS2_TURNS. auto 6 with quiet. Qed.
Lemma quiet_ctl_data v : quiet (ps2_ctl_write_data v).
Proof. unfold ps2_ctl_write_data. generalize PS2_TURNS. auto 6 with quiet. Qed.
Local Hint Resolve quiet_ctl_cmd quiet_ctl_data : quiet.
Lemma quiet_mouse_cmd cmd : quiet (ps2_mouse_cmd cmd).
Proof. unfold ps2_mouse_cmd. generalize PS2_TURNS. auto 6 with quiet. Qed.
Local Hint Resolve quiet_mouse_cmd : quiet.
Lemma quiet_set_rate r : quiet (ps2_mouse_set_rate r).
Proof. unfold ps2_mouse_set_rate. auto with quiet. Qed.
Local Hint Resolve quiet_set_rate : quiet.
Lemma quiet_has_wheel : quiet ps2_has_wheel.
Proof. unfold ps2_has_wheel. generalize PS2_TURNS. auto 10 with quiet. Qed.

(** Whatever the ports answer, [ps2_mouse_init] returns; the packet state is then as it
    was, or has a packet size of 3 or 4, and when the mouse is ready it is at the
    beginning of a packet. *)
Lemma ps2_mouse_init_returns (s : input W) :
  queues_wf s → ps2_mouse_ready (ip_ps2 s) = false → length (ps2_packet (ip_ps2 s)) = 4%nat →
  wp ps2_mouse_init (λ _ s', queues_wf s' ∧
    (ps2_mouse_ready (ip_ps2 s') = true → ps2_partial 3 (ip_ps2 s') [] ∨ ps2_partial 4 (ip_ps2 s') [])) s.
Proof.
  intros Wf Hr Hl. set (R := λ (_ : unit) s', queues_wf s' ∧
    (ps2_mouse_ready (ip_ps2 s') = true → ps2_partial 3 (ip_ps2 s') [] ∨ ps2_partial 4 (ip_ps2 s') [])).
  assert (Done : ∀ s', queues_wf s' → ip_ps2 s' = ip_ps2 s → wp (mret tt) R s').
  { intros s' Wf' E. wp_steps. split; [done|]. rewrite E, Hr. done. }
  assert (Next : ∀ {A} (m : M (input W) A) (stop : A → bool) (k : A → M (input W) unit) s', quiet m → queues_wf s' → ip_ps2 s' = ip_ps2 s →
    (∀ a s2, queues_wf s2 → ip_ps2 s2 = ip_ps2 s → wp (k a) R s2) → wp (a ← m; if stop a then mret tt else k a) R s').
  { intros A m stop k s' Qm Wf' E Hk. apply wp_bind, Qm; [done|]. intros a s2 Wf2 E2.
    destruct (stop a); [apply Done|apply Hk]; congruence. }
  unfold ps2_mouse_init. apply (Next _ _ (λ status, status =? 0xFF)); [apply quiet_inb|done|done|]. intros _ s1 W1 E1.
  apply (Next _ _ negb); [apply quiet_ctl_cmd|done|done|]. intros _ s2 W2 E2.
  apply (Next _ _ negb); [apply quiet_ctl_cmd|done|done|]. intros _ s3 W3 E3.
  apply (Next _ _ (λ t, negb (t =? 0))); [apply quiet_read|done|done|]. intros _ s4 W4 E4.
  apply (Next _ _ negb); [apply quiet_ctl_cmd|done|done|]. intros _ s5 W5 E5.
  apply (Next _ _ (λ c, c <? 0)); [apply quiet_read|done|done|]. intros c s6 W6 E6. cbv zeta.
  apply (Next _ _ negb); [apply quiet_andM; [apply quiet_ctl_cmd|apply quiet_ctl_data]|done|done|]. intros _ s7 W7 E7.
  apply (Next _ _ negb); [apply quiet_mouse_cmd|done|done|]. intros _ s8 W8 E8.
  unfold set_packet_size, set_ps2. wp_steps. apply quiet_has_wheel; [exact W8|]. cbn [ip_ps2]. intros wheel s9 W9 E9. wp_steps.
  assert (G : ∀ n s', n = 3 ∨ n = 4 → queues_wf s' →
    ip_ps2 s' = Ps2 (ps2_packet (ip_ps2 s)) (ps2_packet_len (ip_ps2 s)) n false →
    wp (andM (ps2_mouse_set_rate 100) (ps2_mouse_cmd 244)) (λ ok s', wp
       (if negb ok then mret tt
        else p ← gets ip_ps2; modify (λ s, Input (ip_kbd s) (ip_mouse s) (Ps2 (ps2_packet p) 0 (ps2_packet_size p) true) (ip_host s));;
             on_host (ih_route_irq 12 35)) R s') s').
  { intros n s' Hn Wf' E'. apply quiet_andM; [apply quiet_set_rate|apply quiet_mouse_cmd|done|]. intros ok sa Wa Ea.
    destruct ok; simpl; [|wp_steps; split; [done|]; by rewrite Ea, E'].
    unfold on_host. wp_steps. split; [exact Wa|]. intros _. rewrite Ea, E'. simpl.
    destruct Hn as [-> | ->]; [left|right]; by split_and!. }
  rewrite E8, Hr in E9. destruct wheel; wp_steps.
  - apply (G 4); [by right|exact W9|]. simpl. by rewrite E9.
  - apply (G 3); [by left|exact W9|exact E9].
Qed.
End Init.

(** ** Property *)

(** C30 (roundtrip) [ps2_mouse_irq_handler, ps2_mouse_feed, ps2_mouse_handle_byte, ps2_event, keyboard_push_scancode, mouse_push_event, evq_push]
    The PS/2 stream: when the controller holds bytes of the keyboard and of the mouse
    in any mixture, those of the mouse being whole packets that a mouse of 3 or 4
    bytes sends for the events evs, and the two queues have room, then the interrupt
    handler returns with the controller empty, the scancodes behind what the keyboard
    queue held and exactly the events evs behind what the mouse queue held, both in
    order, and is ready for the next packet. *)
Theorem ps2_stream (size : Z) (q : list (bool * Z)) (evs : list MouseEvent) (s : input (list (bool * Z)))
  (Hsize : size = 3 ∨ size = 4) (Wf : queues_wf s) (P : ps2_partial size (ip_ps2 s) [])
  (Hq : ip_host s = q) (Fe : Forall (ps2_carries size) evs) (Haux : aux_bytes q = ps2_bytes size evs)
  (Rm : Z.of_nat (length (mouse_items s) + length evs) <= 127)
  (Rk : Z.of_nat (length (kbd_items s) + length (key_bytes q)) <= 255) :
  ∃ s', ps2_mouse_irq_handler (length q) s = Some (tt, s') ∧
    ip_host s' = [] ∧ queues_wf s' ∧ ps2_partial size (ip_ps2 s') [] ∧
    kbd_items s' = kbd_items s ++ key_bytes q ∧ mouse_items s' = mouse_items s ++ evs.
Proof.
  pose proof (ps2_handler_wp size Hsize (length q) q evs [] s Hq (le_n _) Wf P Fe Haux Rm Rk) as G.
  apply wp_run in G as ([] & s' & R & G). by exists s'.
Qed.

Definition demo_input : input (list (bool * Z)) :=
  Input (Evq (replicate 256 0) 0 0) (Evq (replicate 128 zero_event) 126 126) (Ps2 [0; 0; 0; 0] 0 4 true)
    [(true, 0x19); (false, 0x1E); (true, 0xFD); (true, 0x05); (false, 0x9E); (true, 0x01)].

Lemma ps2_stream_witness :
  ∃ s', ps2_mouse_irq_handler 6 demo_input = Some (tt, s') ∧
    ip_host s' = [] ∧ queues_wf s' ∧ ps2_partial 4 (ip_ps2 s') [] ∧
    kbd_items s' = [0x1E; 0x9E] ∧ mouse_items s' = [MkMouseEvent (-3) (-5) (-1) 1 0].
Proof.
  apply (ps2_stream 4 (ip_host demo_input) [MkMouseEvent (-3) (-5) (-1) 1 0] demo_input).
  - by right.
  - by vm_compute.
  - by vm_compute.
  - reflexivity.
  - apply list.Forall_cons. split; [by vm_compute|apply list.Forall_nil_2].
  - vm_compute. reflexivity.
  - vm_compute. congruence.
  - vm_compute. congruence.
Defined.
