(* ===== verification/UsbHid.v ===== *)
(** * kernel/drivers/usb/usb_hid.c: reports of USB keyboards and mice

    A keyboard report lists the keys that are down; what changed since the last one
    becomes scancodes of set 1, and the last key pressed repeats.  The reports of a
    mouse are decoded with a layout that is read from the report descriptor, a program
    of items a device sends about itself: nothing in it can be trusted.

    [decode] is what a reader of scancodes does, and [keyboard_tracks] says that it
    always knows the keys that are down.  [item_bounds] and the lemmas around it say
    when the descriptor parser stays inside its arrays. *)
From S2P Require Import Prelude RawMem Pmm Heap VfsTypes Ramfs Ring Input.
Local Open Scope kernel_scope.

(** ** Keyboards *)

(** [kernel/drivers/usb/usb_hid.c 1-35] *)
Definition usb_hid_usage_to_set1 : list Z :=
  [
   0; 0; 0; 0; 0x1E; 0x30; 0x2E; 0x20; 0x12; 0x21; 0x22; 0x23;
   0x17; 0x24; 0x25; 0x26; 0x32; 0x31; 0x18; 0x19; 0x10; 0x13; 0x1F; 0x14;
   0x16; 0x2F; 0x11; 0x2D; 0x15; 0x2C; 0x02; 0x03; 0x04; 0x05; 0x06; 0x07;
   0x08; 0x09; 0x0A; 0x0B; 0x1C; 0x01; 0x0E; 0x0F; 0x39; 0x0C; 0x0D; 0x1A;
   0x1B; 0x2B; 0x2B; 0x27; 0x28; 0x29; 0x33; 0x34; 0x35; 0x3A; 0x3B; 0x3C;
   0x3D; 0x3E; 0x3F; 0x40; 0x41; 0x42; 0x43; 0x44; 0x57; 0x58; 0xE037; 0x46;
   0; 0xE052; 0xE047; 0xE049; 0xE053; 0xE04F; 0xE051; 0xE04D; 0xE04B; 0xE050; 0xE048; 0x45;
   0xE035; 0x37; 0x4A; 0x4E; 0xE01C; 0x4F; 0x50; 0x51; 0x4B; 0x4C; 0x4D; 0x47;
   0x48; 0x49; 0x52; 0x53; 0x56; 0xE05D
  ].
(** [kernel/drivers/usb/usb_hid.c 37-39] *)
Definition usb_hid_modifier_to_set1 : list Z := [0x1D; 0x2A; 0x38; 0xE05B; 0xE01D; 0x36; 0xE038; 0xE05C].

(** [SCHEDULER_HZ / 2] and [SCHEDULER_HZ / 30]. [kernel/drivers/usb/usb_hid.h 4-5] *)
Definition USB_HID_REPEAT_DELAY_TICKS : Z := 500.
Definition USB_HID_REPEAT_RATE_TICKS : Z := 33.

(** [kernel/drivers/usb/usb_hid.h 7-13] *)
Record UsbHidKeyboard := MkUsbHidKeyboard { hk_prev : list Z; hk_repeat_usage : Z; hk_repeat_ticks : Z }.

Record hid (W : Type) := Hid { hd_kbd : UsbHidKeyboard; hd_input : input W }.
Arguments Hid {W} _ _.
Arguments hd_kbd {W} _.
Arguments hd_input {W} _.

Section Keyboard.
Context {W : Type} `{InputHost W}.

Definition on_input {A} (m : M (input W) A) : M (hid W) A := zoom hd_input (λ i s, Hid (hd_kbd s) i) m.
Definition set_keyboard (k : UsbHidKeyboard) : M (hid W) unit := modify (λ s, Hid k (hd_input s)).

(** [kernel/drivers/usb/usb_hid.c: usb_hid_emit] *)
Definition usb_hid_emit (code : Z) (pressed : bool) : M (input W) unit :=
  if code =? 0 then mret tt
  else
    (if Z.shiftr code 8 =? 0xE0 then keyboard_push_scancode 0xE0 else mret tt);;
    keyboard_push_scancode (Z.lor (Z.land code 0x7F) (if pressed then 0 else 0x80)).

(** [kernel/drivers/usb/usb_hid.c: usb_hid_emit_usage] *)
Definition usb_hid_emit_usage (usage : Z) (pressed : bool) : M (input W) unit :=
  if usage <? Z.of_nat (length usb_hid_usage_to_set1) then
    code ← lift (usb_hid_usage_to_set1 !!z usage); usb_hid_emit code pressed
  else mret tt.

(** [kernel/drivers/usb/usb_hid.c: usb_hid_report_has_key 60-63] *)
Fixpoint has_key_loop (n : nat) (i : Z) (report : list Z) (usage : Z) : option bool :=
  match n with
  | O => Some false
  | S n' => b ← report !!z i; if b =? usage then Some true else has_key_loop n' (i + 1) report usage
  end.
(** [kernel/drivers/usb/usb_hid.c: usb_hid_report_has_key] *)
Definition usb_hid_report_has_key (report : list Z) (usage : Z) : option bool := has_key_loop 6 2 report usage.

(** [kernel/drivers/usb/usb_hid.c: usb_hid_keyboard_report 74-77] *)
Definition report_modifiers (r0 p0 : Z) : M (hid W) unit :=
  let mods_changed := Z.lxor r0 p0 in
  for_range 8 0 (λ bit,
    if has_flag mods_changed (Z.shiftl 1 bit) then
      code ← lift (usb_hid_modifier_to_set1 !!z bit);
      on_input (usb_hid_emit code (has_flag r0 (Z.shiftl 1 bit)))
    else mret tt).
(** [kernel/drivers/usb/usb_hid.c: usb_hid_keyboard_report 79-88] *)
Definition report_release (report : list Z) (i : Z) : M (hid W) unit :=
  k ← gets hd_kbd;
  usage ← lift (hk_prev k !!z i);
  has ← lift (usb_hid_report_has_key report usage);
  if (4 <=? usage) && negb has then
    on_input (usb_hid_emit_usage usage false);;
    if usage =? hk_repeat_usage k then set_keyboard (MkUsbHidKeyboard (hk_prev k) 0 (hk_repeat_ticks k)) else mret tt
  else mret tt.
(** [kernel/drivers/usb/usb_hid.c: usb_hid_keyboard_report 90-99] *)
Definition report_press (report : list Z) (i : Z) : M (hid W) unit :=
  k ← gets hd_kbd;
  usage ← lift (report !!z i);
  has ← lift (usb_hid_report_has_key (hk_prev k) usage);
  if (4 <=? usage) && negb has then
    on_input (usb_hid_emit_usage usage true);;
    set_keyboard (MkUsbHidKeyboard (hk_prev k) usage 0)
  else mret tt.

(** [kernel/drivers/usb/usb_hid.c: usb_hid_keyboard_report] *)
Definition usb_hid_keyboard_report (report : list Z) (len : Z) : M (hid W) unit :=
  if len <? 8 then mret tt else
  r2 ← lift (report !!z 2);
  if r2 =? 0x01 then mret tt else
  r0 ← lift (report !!z 0);
  k ← gets hd_kbd;
  p0 ← lift (hk_prev k !!z 0);
  report_modifiers r0 p0;;
  for_range 6 2 (report_release report);;
  for_range 6 2 (report_press report);;
  k ← gets hd_kbd;
  set_keyboard (MkUsbHidKeyboard (take 8 report) (hk_repeat_usage k) (hk_repeat_ticks k)).

(** [kernel/drivers/usb/usb_hid.c: usb_hid_keyboard_tick] *)
Definition usb_hid_keyboard_tick : M (hid W) unit :=
  k ← gets hd_kbd;
  if hk_repeat_usage k =? 0 then mret tt
  else
    let ticks := u32 (hk_repeat_ticks k + 1) in
    set_keyboard (MkUsbHidKeyboard (hk_prev k) (hk_repeat_usage k) ticks);;
    if (USB_HID_REPEAT_DELAY_TICKS <=? ticks) && ((ticks - USB_HID_REPEAT_DELAY_TICKS) mod USB_HID_REPEAT_RATE_TICKS =? 0)
    then on_input (usb_hid_emit_usage (hk_repeat_usage k) true)
    else mret tt.
End Keyboard.

(** ** What a reader of scancodes does *)

(** 0xE0 announces an extended key; bit 7 is a release. *)
Definition decode_step (st : bool * gset Z) (b : Z) : bool * gset Z :=
  let '(ext, held) := st in
  if b =? 0xE0 then (true, held)
  else
    let c := (if ext then 0xE000 else 0) + Z.land b 0x7F in
    (false, if b <? 0x80 then {[c]} ∪ held else held ∖ {[c]}).
Definition decode (codes : list Z) : bool * gset Z := foldl decode_step (false, ∅) codes.

(** ** Keys and events *)
Definition set1 (usage : Z) : Z := default 0 (usb_hid_usage_to_set1 !!z usage).
Definition modcode (bit : Z) : Z := default 0 (usb_hid_modifier_to_set1 !!z bit).
(** The six usages of a report. *)
Definition report_keys (report : list Z) : list Z := take 6 (drop 2 report).
Definition report_mods (report : list Z) : Z := default 0 (report !!z 0).

(** The key with code [c] is down in [report]. *)
Definition key_down (report : list Z) (c : Z) : Prop :=
  (∃ bit, 0 <= bit < 8 ∧ Z.testbit (report_mods report) bit = true ∧ c = modcode bit) ∨
  (∃ u, u ∈ report_keys report ∧ 4 <= u ∧ c = set1 u ∧ c ≠ 0).

(** A key pressed or released, and the bytes for it. *)
Definition key_codes (ev : Z * bool) : list Z :=
  let '(c, pressed) := ev in
  if c =? 0 then [] else
  (if Z.shiftr c 8 =? 0xE0 then [0xE0] else []) ++ [Z.lor (Z.land c 0x7F) (if pressed then 0 else 0x80)].
Definition apply_event (held : gset Z) (ev : Z * bool) : gset Z :=
  let '(c, pressed) := ev in if c =? 0 then held else if (pressed : bool) then {[c]} ∪ held else held ∖ {[c]}.

Definition mod_events (p0 r0 : Z) : list (Z * bool) :=
  map (λ bit, (modcode bit, Z.testbit r0 bit)) (filter (λ bit, Z.testbit p0 bit ≠ Z.testbit r0 bit) (seqZ 0 8)).
Definition release_events (prev report : list Z) : list (Z * bool) :=
  map (λ u, (set1 u, false)) (filter (λ u, 4 <= u ∧ u ∉ report_keys report) (report_keys prev)).
Definition press_events (prev report : list Z) : list (Z * bool) :=
  map (λ u, (set1 u, true)) (filter (λ u, 4 <= u ∧ u ∉ report_keys prev) (report_keys report)).
Definition report_events (prev report : list Z) : list (Z * bool) :=
  mod_events (report_mods prev) (report_mods report) ++ release_events prev report ++ press_events prev report.

(** ** Lemmas: scancodes *)
Definition code_ok (c : Z) : bool :=
  (c =? 0) || (let l := Z.land c 0x7F in negb (l =? 0x60) && ((c =? l) || (c =? 0xE000 + l)) && (0 <=? l) && (l <? 0x80)).

Lemma set1_ok u : code_ok (set1 u) = true.
Proof.
  unfold set1. destruct (usb_hid_usage_to_set1 !!z u) as [c|] eqn:E; [|done].
  assert (H : Forall (λ c, code_ok c = true) usb_hid_usage_to_set1) by (repeat constructor).
  apply lookupZ_Some_lt in E as Hu. unfold lookupZ in E. destruct (u <? 0); [done|].
  eapply list.Forall_lookup_1 in E; [|exact H]. exact E.
Qed.
Lemma modcode_ok bit : code_ok (modcode bit) = true.
Proof.
  unfold modcode. destruct (usb_hid_modifier_to_set1 !!z bit) as [c|] eqn:E; [|done].
  assert (H : Forall (λ c, code_ok c = true) usb_hid_modifier_to_set1) by (repeat constructor).
  unfold lookupZ in E. destruct (bit <? 0); [done|]. eapply list.Forall_lookup_1 in E; [|exact H]. exact E.
Qed.

Lemma code_byte (l : Z) (pressed : bool) : 0 <= l < 0x80 → l ≠ 0x60 →
  let b := Z.lor (Z.land l 0x7F) (if pressed then 0 else 0x80) in
  b ≠ 0xE0 ∧ Z.land b 0x7F = l ∧ (b <? 0x80) = pressed.
Proof.
  intros Hl Hn b.
  pose (ok := λ p l, let b := Z.lor (Z.land l 0x7F) (if (p : bool) then 0 else 0x80) in
    (l =? 0x60) || (negb (b =? 0xE0) && (Z.land b 0x7F =? l) && Bool.eqb (b <? 0x80) p)).
  assert (G : ok pressed l = true).
  { destruct pressed; (eapply (check_range (ok _) 0x80); [vm_compute; reflexivity|done]). }
  unfold ok in G. fold b in G. destruct (Z.eqb_spec l 0x60); [done|].
  rewrite orb_false_l, !andb_true_iff, negb_true_iff, Z.eqb_neq, Z.eqb_eq, eqb_true_iff in G. tauto.
Qed.

Lemma code_cases c : code_ok c = true → c = 0 ∨
  ∃ l, 0 <= l < 0x80 ∧ l ≠ 0x60 ∧ l = Z.land c 0x7F ∧ (c = l ∧ (Z.shiftr c 8 =? 0xE0) = false ∨ c = 0xE000 + l ∧ (Z.shiftr c 8 =? 0xE0) = true).
Proof.
  unfold code_ok. rewrite orb_true_iff, Z.eqb_eq. intros [->|H]; [by left|right]. exists (Z.land c 0x7F).
  rewrite !andb_true_iff, negb_true_iff, orb_true_iff, Z.eqb_neq, !Z.eqb_eq, Z.leb_le, Z.ltb_lt in H.
  destruct H as [[[Hn Hc] H0] H1]. set (l := Z.land c 0x7F) in *. split_and!; try done.
  destruct Hc as [Hc|Hc]; [left|right]; (split; [done|]); rewrite Hc, Z.shiftr_div_pow2 by lia;
    [apply Z.eqb_neq|apply Z.eqb_eq]; Z.to_euclidean_division_equations; lia.
Qed.

(** The bytes of an event decode to the event. *)
Lemma decode_event l held ev : code_ok (fst ev) = true → decode l = (false, held) →
  decode (l ++ key_codes ev) = (false, apply_event held ev).
Proof.
  intros Hok E. destruct ev as [c pressed]. unfold decode in *. rewrite foldl_app, E. simpl in Hok.
  destruct (code_cases c Hok) as [->|(x & Hx & Hn & Ex & Hc)]; [done|]. unfold key_codes, apply_event.
  destruct (Z.eqb_spec c 0) as [->|Hc0]; [done|].
  destruct (code_byte x pressed Hx Hn) as (B1 & B2 & B3).
  assert (El : Z.land x 0x7F = Z.land c 0x7F).
  { rewrite Ex, <- Z.land_assoc. by rewrite Z.land_diag. }
  rewrite El in *. set (b := Z.lor (Z.land c 0x7F) (if pressed then 0 else 0x80)) in *.
  destruct Hc as [[Hcx ->]|[Hcx ->]]; cbn [app foldl decode_step]; unfold decode_step.
  - destruct (Z.eqb_spec b 0xE0); [done|]. rewrite B2, B3, Z.add_0_l. rewrite <- Hcx. by destruct pressed.
  - change (0xE0 =? 0xE0) with true. cbv iota. destruct (Z.eqb_spec b 0xE0); [done|]. rewrite B2, B3, <- Hcx. by destruct pressed.
Qed.

Lemma decode_events l held evs : Forall (λ ev, code_ok (fst ev) = true) evs → decode l = (false, held) →
  decode (l ++ concat (map key_codes evs)) = (false, foldl apply_event held evs).
Proof.
  revert l held. induction evs as [|ev evs IH]; intros l held F E; simpl; [by rewrite app_nil_r|].
  apply list.Forall_cons in F as [F1 F]. rewrite app_assoc. apply IH; [done|]. by apply decode_event.
Qed.

(** A list of events that does not both press and release a key. *)
Lemma apply_events_spec evs held c : c ≠ 0 →
  ((c, true) ∈ evs → (c, false) ∈ evs → False) →
  c ∈ foldl apply_event held evs ↔ (c, true) ∈ evs ∨ c ∈ held ∧ (c, false) ∉ evs.
Proof.
  intros Hc. revert held. induction evs as [|[x p] evs IH]; intros held Hne; simpl.
  { split; [intros; right; split; [done|apply not_elem_of_nil]|]. intros [Hin|[? _]]; [by apply elem_of_nil in Hin|done]. }
  rewrite IH by (intros H1 H2; apply Hne; by apply list_elem_of_further).
  assert (E : ∀ q, (c, q) ∈ (x, p) :: evs ↔ (c = x ∧ q = p) ∨ (c, q) ∈ evs).
  { intros q. rewrite elem_of_cons. split; (intros [Heq|]; [left|by right]); [by injection Heq as -> ->|by destruct Heq as [-> ->]]. }
  rewrite !E in *. unfold apply_event.
  destruct (decide ((c, true) ∈ evs)) as [|Nt]; [tauto|].
  destruct (Z.eqb_spec x 0), p; rewrite ?elem_of_union, ?elem_of_difference, ?elem_of_singleton;
    destruct (decide (c = x)); try congruence; intuition congruence.
Qed.
Lemma apply_events_zero evs held : 0 ∉ held → 0 ∉ foldl apply_event held evs.
Proof.
  revert held. induction evs as [|[x p] evs IH]; intros held H0; [done|]. simpl. apply IH. unfold apply_event.
  destruct (Z.eqb_spec x 0), p; set_solver.
Qed.

(** ** The keys of a report *)
Section Keys.
(** Usages 0x31 and 0x32 are the same key, of which a keyboard has one. *)
Context (absent : Z) (Habs : absent = 0x31 ∨ absent = 0x32).

Definition good_report (r : list Z) : Prop := length r = 8%nat ∧ bytes r ∧ absent ∉ report_keys r.

Lemma set1_inj u v : 0 <= u < 256 → 0 <= v < 256 → u ≠ absent → v ≠ absent → set1 u = set1 v → set1 u ≠ 0 → u = v.
Proof using Habs.
  intros Hu Hv Nu Nv E N0. destruct (decide (u = v)) as [|Hne]; [done|exfalso].
  pose (ok := λ u v, (u =? v) || negb (set1 u =? set1 v) || (set1 u =? 0) || (u =? 0x31) && (v =? 0x32) || (u =? 0x32) && (v =? 0x31)).
  assert (G : ok u v = true).
  { pose proof (check_range (λ u, forallb (ok u) (seqZ 0 256)) 256 ltac:(vm_compute; reflexivity) u Hu) as G.
    by apply (check_range (ok u) 256). }
  unfold ok in G. rewrite !orb_true_iff, !andb_true_iff, negb_true_iff, Z.eqb_neq, !Z.eqb_eq in G. lia.
Qed.

Lemma mod_not_usage bit u : 0 <= bit < 8 → 0 <= u < 256 → modcode bit ≠ set1 u ∧ modcode bit ≠ 0.
Proof.
  intros Hb Hu. pose (ok := λ bit u, negb (modcode bit =? set1 u) && negb (modcode bit =? 0)).
  assert (G : ok bit u = true).
  { pose proof (check_range (λ u, forallb (ok u) (seqZ 0 256)) 8 ltac:(vm_compute; reflexivity) bit Hb) as G.
    by apply (check_range (ok bit) 256). }
  unfold ok in G. rewrite andb_true_iff, !negb_true_iff, !Z.eqb_neq in G. done.
Qed.

Lemma modcode_inj i j : 0 <= i < 8 → 0 <= j < 8 → modcode i = modcode j → i = j.
Proof.
  intros Hi Hj E. pose (ok := λ i j, (i =? j) || negb (modcode i =? modcode j)).
  assert (G : ok i j = true).
  { pose proof (check_range (λ i, forallb (ok i) (seqZ 0 8)) 8 ltac:(vm_compute; reflexivity) i Hi) as G.
    by apply (check_range (ok i) 8). }
  unfold ok in G. rewrite orb_true_iff, negb_true_iff, Z.eqb_neq, Z.eqb_eq in G. tauto.
Qed.

Lemma report_key_byte r u : good_report r → u ∈ report_keys r → 0 <= u < 256 ∧ u ≠ absent.
Proof.
  intros (_ & B & N) Hu. split; [|by intros ->]. unfold bytes in B. rewrite list.Forall_forall in B. apply B.
  unfold report_keys in Hu. by apply subseteq_take, subseteq_drop in Hu.
Qed.

Lemma mod_events_elem p0 r0 c q :
  (c, q) ∈ mod_events p0 r0 ↔ ∃ bit, 0 <= bit < 8 ∧ c = modcode bit ∧ Z.testbit r0 bit = q ∧ Z.testbit p0 bit ≠ q.
Proof.
  unfold mod_events. rewrite list_elem_of_fmap. split.
  - intros (bit & E & Hin). apply list_elem_of_filter in Hin as [Hne Hin]. apply elem_of_seqZ in Hin. injection E as -> ->.
    by exists bit.
  - intros (bit & Hb & -> & <- & Hne). exists bit. split; [done|]. apply list_elem_of_filter. split; [done|]. apply elem_of_seqZ. lia.
Qed.
Lemma release_events_elem prev report c q :
  (c, q) ∈ release_events prev report ↔
  q = false ∧ ∃ u, u ∈ report_keys prev ∧ 4 <= u ∧ u ∉ report_keys report ∧ c = set1 u.
Proof.
  unfold release_events. rewrite list_elem_of_fmap. split.
  - intros (u & E & Hin). apply list_elem_of_filter in Hin as [[H4 Hn] Hin]. injection E as -> ->. split; [done|]. by exists u.
  - intros (-> & u & Hin & H4 & Hn & ->). exists u. split; [done|]. by apply list_elem_of_filter.
Qed.
Lemma press_events_elem prev report c q :
  (c, q) ∈ press_events prev report ↔
  q = true ∧ ∃ u, u ∈ report_keys report ∧ 4 <= u ∧ u ∉ report_keys prev ∧ c = set1 u.
Proof.
  unfold press_events. rewrite list_elem_of_fmap. split.
  - intros (u & E & Hin). apply list_elem_of_filter in Hin as [[H4 Hn] Hin]. injection E as -> ->. split; [done|]. by exists u.
  - intros (-> & u & Hin & H4 & Hn & ->). exists u. split; [done|]. by apply list_elem_of_filter.
Qed.

(** The code of a modifier: its events are those of its bit. *)
Lemma events_of_mod prev report bit q : good_report prev → good_report report → 0 <= bit < 8 →
  (modcode bit, q) ∈ report_events prev report ↔
  Z.testbit (report_mods report) bit = q ∧ Z.testbit (report_mods prev) bit ≠ q.
Proof using Habs.
  intros Gp Gr Hb. unfold report_events. rewrite !elem_of_app, mod_events_elem, release_events_elem, press_events_elem. split.
  - intros [(j & Hj & E & H1 & H2)|[(_ & u & Hu & _ & _ & E)|(_ & u & Hu & _ & _ & E)]].
    + by apply modcode_inj in E as ->.
    + apply (report_key_byte prev) in Hu as [Hu _]; [|done]. by destruct (mod_not_usage bit u Hb Hu) as [[] _].
    + apply (report_key_byte report) in Hu as [Hu _]; [|done]. by destruct (mod_not_usage bit u Hb Hu) as [[] _].
  - intros [H1 H2]. left. by exists bit.
Qed.
(** The code of another key: released when it is no longer listed, pressed when it is new. *)
Lemma events_of_key prev report u q : good_report prev → good_report report → 0 <= u < 256 → 4 <= u → u ≠ absent → set1 u ≠ 0 →
  (set1 u, q) ∈ report_events prev report ↔
  (q = false ∧ u ∈ report_keys prev ∧ u ∉ report_keys report) ∨ (q = true ∧ u ∈ report_keys report ∧ u ∉ report_keys prev).
Proof using Habs.
  intros Gp Gr Hu H4 Na N0. unfold report_events. rewrite !elem_of_app, mod_events_elem, release_events_elem, press_events_elem. split.
  - intros [(j & Hj & E & _)|[(-> & v & Hv & _ & Nv & E)|(-> & v & Hv & _ & Nv & E)]].
    + by destruct (mod_not_usage j u Hj Hu) as [[] _].
    + left. pose proof (report_key_byte _ _ Gp Hv) as [Hv1 Hv2]. by apply set1_inj in E as ->.
    + right. pose proof (report_key_byte _ _ Gr Hv) as [Hv1 Hv2]. by apply set1_inj in E as ->.
  - intros [(-> & H1 & H2)|(-> & H1 & H2)]; right; [left|right]; (split; [done|]); by exists u.
Qed.

Lemma key_down_mod r bit : good_report r → 0 <= bit < 8 → key_down r (modcode bit) ↔ Z.testbit (report_mods r) bit = true.
Proof.
  intros G Hb. split; [|intros T; left; by exists bit]. intros [(j & Hj & T & E)|(u & Hu & _ & E & _)].
  - by apply modcode_inj in E as ->.
  - apply (report_key_byte r) in Hu as [Hu _]; [|done]. by destruct (mod_not_usage bit u Hb Hu) as [[] _].
Qed.
Lemma key_down_key r u : good_report r → 0 <= u < 256 → 4 <= u → u ≠ absent → set1 u ≠ 0 → key_down r (set1 u) ↔ u ∈ report_keys r.
Proof using Habs.
  intros G Hu H4 Na N0. split; [|intros Hin; right; by exists u]. intros [(j & Hj & T & E)|(v & Hv & _ & E & _)].
  - by destruct (mod_not_usage j u Hj Hu) as [[] _].
  - pose proof (report_key_byte _ _ G Hv) as [Hv1 Hv2]. by apply set1_inj in E as ->.
Qed.

(** A code is that of a modifier, that of a key, or of nothing a report names. *)
Lemma code_kinds c prev report : good_report prev → good_report report →
  (∃ bit, 0 <= bit < 8 ∧ c = modcode bit) ∨ (∃ u, 0 <= u < 256 ∧ 4 <= u ∧ u ≠ absent ∧ c = set1 u) ∨
  (¬ key_down prev c ∧ ¬ key_down report c ∧ (c, true) ∉ report_events prev report).
Proof.
  intros Gp Gr. destruct (decide (Exists (λ bit, c = modcode bit) (seqZ 0 8))) as [D|D].
  { left. apply list.Exists_exists in D as (bit & Hb & E). apply elem_of_seqZ in Hb. exists bit. split; [lia|done]. }
  destruct (decide (Exists (λ u, 4 <= u ∧ u ≠ absent ∧ c = set1 u) (seqZ 0 256))) as [D'|D'].
  { right. left. apply list.Exists_exists in D' as (u & Hu & E). apply elem_of_seqZ in Hu. exists u. split; [lia|done]. }
  assert (A1 : ∀ bit, 0 <= bit < 8 → c ≠ modcode bit).
  { intros bit Hb E. apply D, list.Exists_exists. exists bit. split; [apply elem_of_seqZ; lia|done]. }
  assert (A2 : ∀ r u, good_report r → u ∈ report_keys r → 4 <= u → c ≠ set1 u).
  { intros r u G Hu H4 E. pose proof (report_key_byte _ _ G Hu) as [Hu1 Hu2]. apply D', list.Exists_exists.
    exists u. split; [apply elem_of_seqZ; lia|done]. }
  assert (A3 : ∀ r, good_report r → ¬ key_down r c).
  { intros r G [(bit & Hb & _ & E)|(u & Hu & H4 & E & _)]; [by eapply A1|by eapply A2; [exact G|..]]. }
  right. right. split_and!; [by apply A3|by apply A3|].
  unfold report_events. rewrite !elem_of_app, mod_events_elem, release_events_elem, press_events_elem.
  intros [(j & Hj & E & _)|[(? & _)|(_ & u & Hu & H4 & _ & E)]]; [by eapply A1|done|by eapply A2; [exact Gr|..]].
Qed.

(** A reader that knew the keys of the last report knows those of the new one. *)
Lemma report_events_track prev report held : good_report prev → good_report report →
  (∀ c, c ∈ held ↔ key_down prev c) →
  ∀ c, c ∈ foldl apply_event held (report_events prev report) ↔ key_down report c.
Proof using Habs.
  intros Gp Gr Hh c.
  assert (Hz : ∀ r, ¬ key_down r 0).
  { intros r [(bit & Hb & _ & E)|(u & _ & _ & _ & N)]; [|done]. by destruct (mod_not_usage bit 0 Hb ltac:(lia)) as [_ []]. }
  destruct (decide (c = 0)) as [->|Nc].
  { split; [|intros K; by apply Hz in K]. intros Hin. exfalso. revert Hin. apply apply_events_zero. rewrite Hh. apply Hz. }
  destruct (code_kinds c prev report Gp Gr) as [(bit & Hb & ->)|[(u & Hu & H4 & Na & ->)|(N1 & N2 & N3)]].
  - pose proof (events_of_mod prev report bit) as Ev. rewrite apply_events_spec; [|done|].
    + rewrite !Ev, Hh, !key_down_mod by done. destruct (Z.testbit (report_mods report) bit), (Z.testbit (report_mods prev) bit); intuition congruence.
    + rewrite !Ev by done. naive_solver congruence.
  - pose proof (events_of_key prev report u) as Ev. rewrite apply_events_spec; [|done|].
    + rewrite !Ev, Hh, !key_down_key by done. destruct (decide (u ∈ report_keys prev)), (decide (u ∈ report_keys report)); intuition congruence.
    + rewrite !Ev by done. naive_solver.
  - rewrite apply_events_spec; [|done|done]. rewrite Hh. tauto.
Qed.
End Keys.

(** ** The events are what is put into the queue *)
Section Emission.
Context {W : Type} `{InputHost W}.

Lemma key_codes_length ev : (length (key_codes ev) <= 2)%nat.
Proof. destruct ev as [c p]. unfold key_codes. destruct (c =? 0); [simpl; lia|]. destruct (_ =? 0xE0); simpl; lia. Qed.

Lemma usb_hid_emit_wp code pressed (s : input W) (Q : unit → input W → Prop) :
  queues_wf s → Z.of_nat (length (kbd_items s)) + 2 <= 255 →
  (∀ s', queues_wf s' → kbd_items s' = kbd_items s ++ key_codes (code, pressed) → Q tt s') →
  wp (usb_hid_emit code pressed) Q s.
Proof.
  intros Wf Hr HQ. unfold usb_hid_emit, key_codes in *. destruct (code =? 0).
  { wp_steps. apply HQ; [done|]. by rewrite app_nil_r. }
  set (b := Z.lor _ _) in *.
  assert (Last : ∀ s2, queues_wf s2 → Z.of_nat (length (kbd_items s2)) + 1 <= 255 →
    (∀ s', queues_wf s' → kbd_items s' = kbd_items s2 ++ [b] → Q tt s') → wp (keyboard_push_scancode b) Q s2).
  { intros s2 [Wk Wm] Hr2 HQ2. apply keyboard_push_scancode_wp; [done|]. intros q Wq Eq. apply HQ2; [done|].
    unfold kbd_items in *. simpl. rewrite Eq. apply (enqueue_room 255 _ _ []). simpl. lia. }
  apply wp_bind. destruct (Z.shiftr code 8 =? 0xE0).
  - apply keyboard_push_scancode_wp; [done|]. intros q Wq Eq.
    rewrite (enqueue_room 255 _ _ []) in Eq by (unfold kbd_items in *; simpl; lia).
    apply Last; [by destruct Wf| |].
    + unfold kbd_items at 1. simpl. rewrite Eq, length_app. simpl. lia.
    + intros s' Wf' E'. apply HQ; [done|]. rewrite E'. unfold kbd_items at 1. simpl. rewrite Eq. by rewrite <- app_assoc.
  - wp_steps. apply Last; [done|lia|]. exact HQ.
Qed.

Lemma usb_hid_emit_usage_wp u pressed (s : input W) (Q : unit → input W → Prop) :
  0 <= u < 256 → queues_wf s → Z.of_nat (length (kbd_items s)) + 2 <= 255 →
  (∀ s', queues_wf s' → kbd_items s' = kbd_items s ++ key_codes (set1 u, pressed) → Q tt s') →
  wp (usb_hid_emit_usage u pressed) Q s.
Proof.
  intros Hu Wf Hr HQ. unfold usb_hid_emit_usage. destruct (Z.ltb_spec u (Z.of_nat (length usb_hid_usage_to_set1))).
  - destruct (lookupZ_lt_is_Some usb_hid_usage_to_set1 u) as [c Hc]; [lia|]. apply wp_bind. eapply wp_lift; [exact Hc|].
    replace c with (set1 u) by (unfold set1; by rewrite Hc). by apply usb_hid_emit_wp.
  - wp_steps. apply HQ; [done|]. assert (set1 u = 0) as ->; [|by rewrite app_nil_r].
    unfold set1. destruct (usb_hid_usage_to_set1 !!z u) eqn:E; [|done]. apply lookupZ_Some_lt in E. lia.
Qed.

(** A loop of which every turn puts at most one event. *)
Lemma wp_events n i (body : Z → M (hid W) unit) (ev : Z → list (Z * bool)) (J : Z → UsbHidKeyboard → Prop) s :
  (∀ k, (length (ev k) <= 1)%nat) →
  (∀ k s, i <= k < i + Z.of_nat n → queues_wf (hd_input s) → J k (hd_kbd s) →
     Z.of_nat (length (kbd_items (hd_input s))) + 2 <= 255 →
     wp (body k) (λ _ s', queues_wf (hd_input s') ∧ J (k + 1) (hd_kbd s') ∧
       kbd_items (hd_input s') = kbd_items (hd_input s) ++ concat (map key_codes (ev k))) s) →
  queues_wf (hd_input s) → J i (hd_kbd s) → Z.of_nat (length (kbd_items (hd_input s))) + 2 * Z.of_nat n <= 255 →
  wp (for_range n i body) (λ _ s', queues_wf (hd_input s') ∧ J (i + Z.of_nat n) (hd_kbd s') ∧
    kbd_items (hd_input s') = kbd_items (hd_input s) ++ concat (map key_codes (flat_map ev (seqZ i (Z.of_nat n))))) s.
Proof.
  intros Hev. revert i s. induction n as [|n IH]; intros i s Hb Wf HJ Hr; cbn [for_range].
  { wp_steps. rewrite Z.add_0_r. split_and!; try done. by rewrite app_nil_r. }
  apply wp_bind. eapply wp_mono; [apply Hb; [lia|done|done|lia]|]. intros _ s1 (Wf1 & J1 & E1).
  assert (Lk : Z.of_nat (length (concat (map key_codes (ev i)))) <= 2).
  { pose proof (Hev i). destruct (ev i) as [|e [|]]; simpl in *; [lia| |lia]. rewrite app_nil_r. pose proof (key_codes_length e). lia. }
  eapply wp_mono; [apply (IH (i + 1) s1); [intros; apply Hb; (done || lia)|done|done|rewrite E1, length_app; lia]|].
  intros _ s2 (Wf2 & J2 & E2). split_and!; [done|by replace (i + Z.of_nat (S n)) with (i + 1 + Z.of_nat n) by lia|].
  rewrite E2, E1, (seqZ_cons i (Z.of_nat (S n))) by lia. cbn [flat_map]. rewrite map_app, concat_app, <- app_assoc.
  replace (Z.pred (Z.of_nat (S n))) with (Z.of_nat n) by lia. by replace (Z.succ i) with (i + 1) by lia.
Qed.

Lemma flat_map_filter {A B} (P : B → Prop) `{∀ x, Decision (P x)} {C} (f : A → B) (g : B → C) l :
  flat_map (λ x, if decide (P (f x)) then [g (f x)] else []) l = map g (filter P (map f l)).
Proof.
  induction l as [|x l IH]; [done|]. cbn [flat_map map]. rewrite filter_cons, IH. by destruct (decide (P (f x))).
Qed.
End Emission.

(** ** A keyboard report *)
Section Report.
Context {W : Type} `{InputHost W}.

Lemma report_shape (r : list Z) : (8 <= length r)%nat →
  ∃ a b c0 c1 c2 c3 c4 c5 rest, r = a :: b :: c0 :: c1 :: c2 :: c3 :: c4 :: c5 :: rest.
Proof.
  intros L. destruct r as [|a [|b [|c0 [|c1 [|c2 [|c3 [|c4 [|c5 rest]]]]]]]]; simpl in L; try lia.
  by exists a, b, c0, c1, c2, c3, c4, c5, rest.
Qed.

Lemma report_keys_map (r : list Z) : (8 <= length r)%nat → report_keys r = map (λ i, default 0 (r !!z i)) (seqZ 2 6).
Proof. intros L. by destruct (report_shape r L) as (a & b & c0 & c1 & c2 & c3 & c4 & c5 & rest & ->). Qed.

Lemma has_key_spec (r : list Z) u : (8 <= length r)%nat → usb_hid_report_has_key r u = Some (bool_decide (u ∈ report_keys r)).
Proof.
  intros L. destruct (report_shape r L) as (a & b & c0 & c1 & c2 & c3 & c4 & c5 & rest & ->).
  assert (G : ∀ n i ks, (∀ j, (j < n)%nat → (a :: b :: c0 :: c1 :: c2 :: c3 :: c4 :: c5 :: rest) !!z (i + Z.of_nat j) = ks !! j) → length ks = n →
    has_key_loop n i (a :: b :: c0 :: c1 :: c2 :: c3 :: c4 :: c5 :: rest) u = Some (bool_decide (u ∈ ks))).
  { intros n. induction n as [|n IH]; intros i ks Hks Hl.
    - destruct ks; [|done]. cbn [has_key_loop]. rewrite bool_decide_eq_false_2; [done|]. apply not_elem_of_nil.
    - destruct ks as [|k ks]; [done|]. injection Hl as Hl. cbn [has_key_loop].
      pose proof (Hks 0%nat ltac:(lia)) as H0. rewrite Z.add_0_r in H0. rewrite H0. simpl.
      destruct (Z.eqb_spec k u) as [->|Hne].
      + rewrite bool_decide_eq_true_2; [done|]. by apply list_elem_of_here.
      + rewrite (IH (i + 1) ks); [|intros j Hj; change (ks !! j) with ((k :: ks) !! S j); rewrite <- (Hks (S j)) by lia; f_equal; lia|done]. f_equal.
        apply bool_decide_ext. rewrite elem_of_cons. split; [by right|]. by intros [->|]. }
  apply (G 6%nat 2 [c0; c1; c2; c3; c4; c5]); [|done]. intros j Hj.
  destruct j as [|[|[|[|[|[|j]]]]]]; reflexivity || lia.
Qed.

Definition repeat_ok (k : UsbHidKeyboard) : Prop :=
  hk_repeat_usage k = 0 ∨ 4 <= hk_repeat_usage k ∧ hk_repeat_usage k ∈ report_keys (hk_prev k).
Definition kbd_ok (k : UsbHidKeyboard) : Prop := length (hk_prev k) = 8%nat ∧ bytes (hk_prev k) ∧ repeat_ok k.

(** What a part of the report puts in, with a property of the keyboard's state after it. *)
Definition emitted (s : hid W) (J : UsbHidKeyboard → Prop) (evs : list (Z * bool)) (s' : hid W) : Prop :=
  queues_wf (hd_input s') ∧ J (hd_kbd s') ∧
  kbd_items (hd_input s') = kbd_items (hd_input s) ++ concat (map key_codes evs).

Lemma emitted_trans s J evs s1 J' evs' s2 : emitted s J evs s1 → emitted s1 J' evs' s2 → emitted s J' (evs ++ evs') s2.
Proof. intros (_ & _ & E) (Wf & HJ & E'). split_and!; [done|done|]. by rewrite E', E, map_app, concat_app, app_assoc. Qed.

Lemma events_length (evs : list (Z * bool)) : (length (concat (map key_codes evs)) <= 2 * length evs)%nat.
Proof. induction evs as [|e evs IH]; simpl; [lia|]. rewrite length_app. pose proof (key_codes_length e). lia. Qed.

Lemma emitted_room s J evs s' n : emitted s J evs s' → (length evs <= n)%nat →
  Z.of_nat (length (kbd_items (hd_input s'))) <= Z.of_nat (length (kbd_items (hd_input s))) + 2 * Z.of_nat n.
Proof. intros (_ & _ & ->) Hn. rewrite length_app. pose proof (events_length evs). lia. Qed.

Lemma report_modifiers_wp r0 p0 k s : hd_kbd s = k → queues_wf (hd_input s) → Z.of_nat (length (kbd_items (hd_input s))) + 16 <= 255 →
  wp (report_modifiers r0 p0) (λ _ s', emitted s (λ k', k' = k) (mod_events p0 r0) s') s.
Proof.
  intros Hk Wf Hr. unfold report_modifiers.
  eapply wp_mono; [apply (wp_events 8 0 _ (λ bit, if decide (Z.testbit p0 bit ≠ Z.testbit r0 bit) then [(modcode bit, Z.testbit r0 bit)] else []) (λ _ k', k' = k))|].
  - intros bit. by destruct (decide _); simpl; lia.
  - intros bit s1 Hbit Wf1 K1 R1. rewrite !has_flag_testbit, Z.lxor_spec by lia.
    destruct (Z.testbit r0 bit) eqn:Er, (Z.testbit p0 bit) eqn:Ep; cbn [xorb].
    1, 4: wp_steps; rewrite decide_False by tauto; split_and!; [done|done|by rewrite app_nil_r].
    all: rewrite decide_True by done; destruct (lookupZ_lt_is_Some usb_hid_modifier_to_set1 bit) as [c Hc]; [simpl; lia|];
      apply wp_bind; (eapply wp_lift; [exact Hc|]); unfold on_input; wp_steps;
      (apply usb_hid_emit_wp; [done|lia|]); intros s' Wf' E'; simpl; split_and!; [done|done|];
      rewrite E', app_nil_r; do 2 f_equal; f_equal; unfold modcode; by rewrite Hc.
  - done.
  - done.
  - lia.
  - intros _ s' (Wf' & K' & E'). split_and!; [done|done|]. rewrite E'. do 3 f_equal.
    unfold mod_events. rewrite (flat_map_filter (λ bit, Z.testbit p0 bit ≠ Z.testbit r0 bit) (λ x, x)). by rewrite map_id.
Qed.

(** Usages at an index of a report. *)
Lemma report_at (r : list Z) i : (8 <= length r)%nat → 2 <= i < 8 →
  ∃ u, r !!z i = Some u ∧ u ∈ report_keys r ∧ default 0 (r !!z i) = u.
Proof.
  intros L Hi. destruct (lookupZ_lt_is_Some r i) as [u Hu]; [lia|]. exists u. rewrite Hu. split_and!; [done| |done].
  rewrite report_keys_map by done. apply list_elem_of_fmap. exists i. split; [by rewrite Hu|]. apply elem_of_seqZ. lia.
Qed.

Definition release_ok (prev report : list Z) (k : Z) (kb : UsbHidKeyboard) : Prop :=
  hk_prev kb = prev ∧ (hk_repeat_usage kb = 0 ∨ 4 <= hk_repeat_usage kb ∧ hk_repeat_usage kb ∈ report_keys prev ∧
    ∀ i, 2 <= i < k → default 0 (prev !!z i) = hk_repeat_usage kb → hk_repeat_usage kb ∈ report_keys report).

Lemma release_loop_wp prev report s : (8 <= length report)%nat → length prev = 8%nat → bytes prev → hk_prev (hd_kbd s) = prev →
  repeat_ok (hd_kbd s) → queues_wf (hd_input s) → Z.of_nat (length (kbd_items (hd_input s))) + 12 <= 255 →
  wp (for_range 6 2 (report_release report)) (λ _ s', emitted s (release_ok prev report 8) (release_events prev report) s') s.
Proof.
  intros Lr Lp Bp Ep Rp Wf Hr.
  eapply wp_mono; [apply (wp_events 6 2 _ (λ i, if decide (4 <= default 0 (prev !!z i) ∧ default 0 (prev !!z i) ∉ report_keys report)
     then [(set1 (default 0 (prev !!z i)), false)] else []) (release_ok prev report))|].
  - intros i. by destruct (decide _); simpl; lia.
  - intros i s1 Hi Wf1 (Ep1 & R1) Hr1. unfold report_release. wp_steps. rewrite Ep1.
    destruct (report_at prev i) as (u & Hu & Hin & Eu); [lia|lia|]. eapply wp_lift; [exact Hu|]. rewrite Eu.
    apply wp_bind. eapply wp_lift; [by apply has_key_spec|].
    assert (Bu : 0 <= u < 256).
    { unfold bytes in Bp. rewrite list.Forall_forall in Bp. apply Bp. unfold report_keys in Hin. by apply subseteq_take, subseteq_drop in Hin. }
    assert (Step : ∀ kb, release_ok prev report i kb → (4 <= hk_repeat_usage kb → hk_repeat_usage kb = u → hk_repeat_usage kb ∈ report_keys report) → release_ok prev report (i + 1) kb).
    { intros kb (E1 & [R0|(R4 & Rin & Rall)]) Hnew; (split; [done|]); [by left|right]. split_and!; [done|done|].
      intros j Hj E. destruct (decide (j = i)) as [->|]; [rewrite Eu in E; by apply Hnew|]. apply (Rall j); [lia|done]. }
    destruct (Z.leb_spec 4 u); simpl; [|wp_steps; rewrite decide_False by lia; split_and!; [done| |by rewrite app_nil_r]].
    2: { apply Step; [by split|]. lia. }
    destruct (bool_decide_reflect (u ∈ report_keys report)) as [Hin'|Hin']; simpl.
    + wp_steps. rewrite decide_False by tauto. split_and!; [done| |by rewrite app_nil_r]. apply Step; [by split|]. by intros _ ->.
    + rewrite decide_True by done. unfold on_input. wp_steps. apply usb_hid_emit_usage_wp; [done|done|done|]. intros s' Wf' E'.
      destruct (Z.eqb_spec u (hk_repeat_usage (hd_kbd s1))) as [E|E]; unfold set_keyboard; wp_steps; simpl;
        (split_and!; [done| |by rewrite E', app_nil_r]).
      * split; [done|by left].
      * apply Step; [by split|]. by intros _ <-.
  - done.
  - split; [done|]. destruct Rp as [|[R4 Rin]]; [by left|right]. split_and!; [done|by rewrite <- Ep|]. intros j Hj. lia.
  - lia.
  - intros _ s' (Wf' & K' & E'). split_and!; [done|exact K'|]. rewrite E'. do 3 f_equal. unfold release_events.
    rewrite (report_keys_map prev) by lia. by rewrite <- (flat_map_filter (λ u, 4 <= u ∧ u ∉ report_keys report) (λ i, default 0 (prev !!z i)) (λ u, (set1 u, false))).
Qed.

Definition press_ok (prev report : list Z) (kb : UsbHidKeyboard) : Prop :=
  hk_prev kb = prev ∧ (hk_repeat_usage kb = 0 ∨ 4 <= hk_repeat_usage kb ∧ hk_repeat_usage kb ∈ report_keys report).

Lemma release_then_press prev report kb : (8 <= length prev)%nat → release_ok prev report 8 kb → press_ok prev report kb.
Proof.
  intros Lp (E & [R0|(R4 & Rin & Rall)]); (split; [done|]); [by left|right]. split; [done|].
  rewrite report_keys_map in Rin by done. apply list_elem_of_fmap in Rin as (i & Ei & Hi). apply elem_of_seqZ in Hi.
  apply (Rall i); [lia|done].
Qed.

Lemma press_loop_wp prev report s : (8 <= length report)%nat → bytes report → length prev = 8%nat → press_ok prev report (hd_kbd s) →
  queues_wf (hd_input s) → Z.of_nat (length (kbd_items (hd_input s))) + 12 <= 255 →
  wp (for_range 6 2 (report_press report)) (λ _ s', emitted s (press_ok prev report) (press_events prev report) s') s.
Proof.
  intros Lr Br Lp R Wf Hr.
  eapply wp_mono; [apply (wp_events 6 2 _ (λ i, if decide (4 <= default 0 (report !!z i) ∧ default 0 (report !!z i) ∉ report_keys prev)
     then [(set1 (default 0 (report !!z i)), true)] else []) (λ _, press_ok prev report))|].
  - intros i. by destruct (decide _); simpl; lia.
  - intros i s1 Hi Wf1 (Ep1 & R1) Hr1. unfold report_press. wp_steps. rewrite Ep1.
    destruct (report_at report i) as (u & Hu & Hin & Eu); [lia|lia|]. eapply wp_lift; [exact Hu|]. rewrite Eu.
    apply wp_bind. eapply wp_lift; [apply has_key_spec; lia|].
    assert (Bu : 0 <= u < 256).
    { unfold bytes in Br. rewrite list.Forall_forall in Br. apply Br. unfold report_keys in Hin. by apply subseteq_take, subseteq_drop in Hin. }
    destruct (Z.leb_spec 4 u); simpl; [|wp_steps; rewrite decide_False by lia; split_and!; [done|by split|by rewrite app_nil_r]].
    destruct (bool_decide_reflect (u ∈ report_keys prev)) as [Hin'|Hin']; simpl.
    + wp_steps. rewrite decide_False by tauto. split_and!; [done|by split|by rewrite app_nil_r].
    + rewrite decide_True by done. unfold on_input. wp_steps. apply usb_hid_emit_usage_wp; [done|done|done|]. intros s' Wf' E'.
      unfold set_keyboard. wp_steps. simpl. split_and!; [done| |by rewrite E', app_nil_r]. split; [done|]. by right.
  - done.
  - done.
  - lia.
  - intros _ s' (Wf' & K' & E'). split_and!; [done|exact K'|]. rewrite E'. do 3 f_equal. unfold press_events.
    rewrite (report_keys_map report) by lia. by rewrite <- (flat_map_filter (λ u, 4 <= u ∧ u ∉ report_keys prev) (λ i, default 0 (report !!z i)) (λ u, (set1 u, true))).
Qed.

Lemma report_keys_take r : report_keys (take 8 r) = report_keys r.
Proof. unfold report_keys. by rewrite skipn_firstn_comm, take_take. Qed.

Lemma events_count prev report : length prev = 8%nat → (8 <= length report)%nat →
  (length (mod_events (report_mods prev) (report_mods report)) <= 8)%nat ∧
  (length (release_events prev report) <= 6)%nat ∧ (length (press_events prev report) <= 6)%nat.
Proof.
  intros Lp Lr. unfold mod_events, release_events, press_events. rewrite !length_map.
  pose proof (length_filter (λ bit, Z.testbit (report_mods prev) bit ≠ Z.testbit (report_mods report) bit) (seqZ 0 8)) as H1.
  pose proof (length_filter (λ u, 4 <= u ∧ u ∉ report_keys report) (report_keys prev)) as H2.
  pose proof (length_filter (λ u, 4 <= u ∧ u ∉ report_keys prev) (report_keys report)) as H3.
  assert (L : ∀ r, (length (report_keys r) <= 6)%nat) by (intros r; unfold report_keys; rewrite length_take; lia).
  pose proof (L prev). pose proof (L report). rewrite length_seqZ in H1. change (Z.to_nat 8) with 8%nat in H1. lia.
Qed.

(** A report that is not the one for too many keys. *)
Lemma usb_hid_keyboard_report_wp report (s : hid W) :
  (8 <= length report)%nat → bytes report → report !!z 2 ≠ Some 1 → kbd_ok (hd_kbd s) →
  queues_wf (hd_input s) → Z.of_nat (length (kbd_items (hd_input s))) + 40 <= 255 →
  wp (usb_hid_keyboard_report report (Z.of_nat (length report)))
    (λ _ s', emitted s (λ k', kbd_ok k' ∧ hk_prev k' = take 8 report) (report_events (hk_prev (hd_kbd s)) (take 8 report)) s') s.
Proof.
  intros Lr Br H2 (Lp & Bp & Rp) Wf Hr. unfold usb_hid_keyboard_report. destruct (Z.ltb_spec (Z.of_nat (length report)) 8); [lia|].
  set (prev := hk_prev (hd_kbd s)) in *.
  destruct (lookupZ_lt_is_Some report 2) as [r2 Hr2]; [lia|]. apply wp_bind. eapply wp_lift; [exact Hr2|].
  destruct (Z.eqb_spec r2 1) as [->|_]; [done|].
  destruct (lookupZ_lt_is_Some report 0) as [r0 Hr0]; [lia|]. apply wp_bind. eapply wp_lift; [exact Hr0|]. wp_steps. fold prev.
  destruct (lookupZ_lt_is_Some prev 0) as [p0 Hp0]; [lia|]. eapply wp_lift; [exact Hp0|]. apply wp_bind.
  assert (Em : mod_events p0 r0 = mod_events (report_mods prev) (report_mods (take 8 report))).
  { unfold report_mods. rewrite Hp0. destruct (report_shape report Lr) as (a & b & c0 & c1 & c2 & c3 & c4 & c5 & rest & ->). simpl in *. by injection Hr0 as ->. }
  destruct (events_count prev (take 8 report) Lp) as (C1 & C2 & C3); [rewrite length_take; lia|].
  assert (Er : release_events prev report = release_events prev (take 8 report)) by (unfold release_events; by rewrite report_keys_take).
  assert (Ec : press_events prev report = press_events prev (take 8 report)) by (unfold press_events; by rewrite report_keys_take).
  eapply wp_mono; [apply (report_modifiers_wp r0 p0 (hd_kbd s)); [done|done|lia]|]. intros [] s1 M1.
  rewrite Em in M1. pose proof (emitted_room _ _ _ _ _ M1 C1) as R1. pose proof M1 as (Wf1 & K1 & _).
  apply wp_bind. eapply wp_mono; [apply (release_loop_wp prev); [done|done|done|by rewrite K1|by rewrite K1|done|lia]|]. intros [] s2 M2.
  rewrite Er in M2. pose proof (emitted_room _ _ _ _ _ M2 C2) as R2. pose proof M2 as (Wf2 & K2 & _).
  apply wp_bind. eapply wp_mono; [apply (press_loop_wp prev); [done|done|done|apply release_then_press; [lia|done]|done|lia]|]. intros [] s3 M3.
  rewrite Ec in M3. pose proof M3 as (Wf3 & (K3 & K3') & _).
  assert (E : emitted s (press_ok prev report) (report_events prev (take 8 report)) s3).
  { eapply emitted_trans; [exact M1|]. eapply emitted_trans; [exact M2|exact M3]. }
  unfold set_keyboard. wp_steps. split; [exact Wf3|]. split; [|apply E]. split; [|done]. split; [simpl; rewrite length_take; lia|].
  split; [by apply list.Forall_take|]. unfold repeat_ok. simpl. by rewrite report_keys_take.
Qed.

(** A tick repeats a key that is down. *)
Lemma usb_hid_keyboard_tick_wp (s : hid W) :
  kbd_ok (hd_kbd s) → queues_wf (hd_input s) → Z.of_nat (length (kbd_items (hd_input s))) + 2 <= 255 →
  wp usb_hid_keyboard_tick (λ _ s', ∃ evs, emitted s (λ k', kbd_ok k' ∧ hk_prev k' = hk_prev (hd_kbd s)) evs s' ∧
    (evs = [] ∨ ∃ u, evs = [(set1 u, true)] ∧ 4 <= u ∧ u ∈ report_keys (hk_prev (hd_kbd s)))) s.
Proof.
  intros K Wf Hr. pose proof K as (Lp & Bp & Rp). unfold usb_hid_keyboard_tick. wp_steps.
  destruct (Z.eqb_spec (hk_repeat_usage (hd_kbd s)) 0) as [E|E].
  { wp_steps. exists []. split; [|by left]. split_and!; [done|done|done|by rewrite app_nil_r]. }
  unfold set_keyboard. wp_steps. destruct Rp as [|[R4 Rin]]; [done|].
  assert (K' : kbd_ok (MkUsbHidKeyboard (hk_prev (hd_kbd s)) (hk_repeat_usage (hd_kbd s)) (u32 (hk_repeat_ticks (hd_kbd s) + 1)))).
  { split_and!; [done|done|]. by right. }
  destruct ((_ <=? _) && _).
  - unfold on_input. wp_steps. apply usb_hid_emit_usage_wp; [|done|done|].
    { unfold bytes in Bp. rewrite list.Forall_forall in Bp. apply Bp. unfold report_keys in Rin. by apply subseteq_take, subseteq_drop in Rin. }
    intros s' Wf' E'. exists [(set1 (hk_repeat_usage (hd_kbd s)), true)]. split; [|right; by eexists].
    split_and!; [done|exact K'|done|]. simpl. by rewrite E', app_nil_r.
  - wp_steps. exists []. split; [|by left]. split_and!; [done|exact K'|done|by rewrite app_nil_r].
Qed.
End Report.

(** ** A keyboard and the reader of its scancodes *)
Section Reader.
Context {W : Type} `{InputHost W} (absent : Z) (Habs : absent = 0x31 ∨ absent = 0x32).

(** What the keyboard says is pressed after a report: a report of too many keys (usage 1)
    says nothing. *)
Definition reported (report last : list Z) : list Z := if decide (report !!z 2 = Some 1) then last else report.
(** The kernel's state with what the reader has read so far and the last report of the
    keyboard that names its keys.  A report comes when there is room for the 40 bytes it
    can put in, a tick when there is room for two. *)
Inductive kbd_step : hid W * list Z * list Z → hid W * list Z * list Z → Prop :=
  | step_report report s s' got last :
      good_report absent report → Z.of_nat (length (kbd_items (hd_input s))) + 40 <= 255 →
      usb_hid_keyboard_report report 8 s = Some (tt, s') → kbd_step (s, got, last) (s', got, reported report last)
  | step_tick s s' got last :
      Z.of_nat (length (kbd_items (hd_input s))) + 2 <= 255 →
      usb_hid_keyboard_tick s = Some (tt, s') → kbd_step (s, got, last) (s', got, last)
  | step_read count s s' codes got last :
      on_input (keyboard_read_raw count) s = Some (codes, s') → kbd_step (s, got, last) (s', got ++ codes, last).

(** The reader, when it has read all there is, knows the keys of the last report. *)
Definition in_step (st : hid W * list Z * list Z) : Prop :=
  let '(s, got, last) := st in
  queues_wf (hd_input s) ∧ kbd_ok (hd_kbd s) ∧ good_report absent (hk_prev (hd_kbd s)) ∧ hk_prev (hd_kbd s) = last ∧
  ∃ held, decode (got ++ kbd_items (hd_input s)) = (false, held) ∧ ∀ c, c ∈ held ↔ key_down (hk_prev (hd_kbd s)) c.

Lemma report_events_ok prev report : Forall (λ ev, code_ok (fst ev) = true) (report_events prev report).
Proof.
  unfold report_events, mod_events, release_events, press_events. rewrite !list.Forall_app, !List.Forall_map.
  split_and!; apply list.Forall_forall; intros x _; simpl; [apply modcode_ok|apply set1_ok|apply set1_ok].
Qed.

Lemma report_in_step report s got last (Q : unit → hid W → Prop) :
  in_step (s, got, last) → good_report absent report → Z.of_nat (length (kbd_items (hd_input s))) + 40 <= 255 →
  (∀ s', in_step (s', got, reported report last) → Q tt s') → wp (usb_hid_keyboard_report report 8) Q s.
Proof using Habs.
  intros (Wf & K & Gp & El & held & D & Hh) G Hr HQ. pose proof G as (L & B & _). unfold reported in HQ.
  destruct (decide (report !!z 2 = Some 1)) as [E|Hne].
  { unfold usb_hid_keyboard_report. apply wp_bind. eapply wp_lift; [exact E|]. wp_steps. apply HQ.
    split_and!; try done. by exists held. }
  replace 8 with (Z.of_nat (length report)) by lia.
  eapply wp_mono; [apply usb_hid_keyboard_report_wp; try done; lia|]. intros [] s' (Wf' & (K' & Ep) & Eq).
  assert (T8 : take 8 report = report) by (apply take_ge; lia). rewrite T8 in *. apply HQ.
  split_and!; [done|done|by rewrite Ep|done|]. exists (foldl apply_event held (report_events (hk_prev (hd_kbd s)) report)). split.
  - rewrite Eq, app_assoc. apply decode_events; [apply report_events_ok|done].
  - intros c. rewrite Ep. by apply (report_events_track absent Habs).
Qed.

Lemma tick_in_step s got last (Q : unit → hid W → Prop) :
  in_step (s, got, last) → Z.of_nat (length (kbd_items (hd_input s))) + 2 <= 255 →
  (∀ s', in_step (s', got, last) → Q tt s') → wp usb_hid_keyboard_tick Q s.
Proof using Type.
  intros (Wf & K & Gp & El & held & D & Hh) Hr HQ.
  eapply wp_mono; [by apply usb_hid_keyboard_tick_wp|]. intros [] s' (evs & (Wf' & (K' & Ep) & Eq) & Hev). apply HQ.
  split_and!; [done|done|by rewrite Ep|by rewrite Ep|]. exists (foldl apply_event held evs). split.
  - rewrite Eq, app_assoc. apply decode_events; [|done]. destruct Hev as [->|(u & -> & _)]; [done|].
    apply list.Forall_cons. split; [apply set1_ok|done].
  - intros c. rewrite Ep, <- Hh. destruct Hev as [->|(u & -> & H4 & Hin)]; [done|]. simpl.
    destruct (Z.eqb_spec (set1 u) 0); [done|]. rewrite elem_of_union, elem_of_singleton. split; [|by right].
    intros [->|]; [|done]. apply Hh. right. by exists u.
Qed.

Lemma read_in_step count s got last s' codes :
  in_step (s, got, last) → on_input (keyboard_read_raw count) s = Some (codes, s') → in_step (s', got ++ codes, last).
Proof using Type.
  intros (Wf & K & Gp & El & held & D & Hh) R.
  assert (G : wp (on_input (keyboard_read_raw count)) (λ codes s', in_step (s', got ++ codes, last)) s); [|unfold wp in G; by rewrite R in G].
  unfold on_input. wp_steps. apply keyboard_read_raw_wp; [done|]. intros q Wq Eq.
  split_and!; [by destruct Wf|done|done|done|]. exists held. split; [|done]. unfold kbd_items at 2. simpl. rewrite Eq.
  by rewrite <- app_assoc, take_drop.
Qed.

Lemma in_step_reach st st' : rtc kbd_step st st' → in_step st → in_step st'.
Proof using Habs.
  induction 1 as [|st st1 st2 Hs _ IH]; [done|]. intros I. apply IH. destruct Hs as [report s s' got last G Hr R|s s' got last Hr R|count s s' codes got last R].
  - assert (Hw : wp (usb_hid_keyboard_report report 8) (λ _ s', in_step (s', got, reported report last)) s) by (by eapply report_in_step).
    unfold wp in Hw. by rewrite R in Hw.
  - assert (Hw : wp usb_hid_keyboard_tick (λ _ s', in_step (s', got, last)) s) by (by eapply tick_in_step).
    unfold wp in Hw. by rewrite R in Hw.
  - by eapply read_in_step.
Qed.
End Reader.

(** No key down, nothing read. *)
Definition kbd_start {W} (s : hid W) : Prop :=
  queues_wf (hd_input s) ∧ kbd_items (hd_input s) = [] ∧ hd_kbd s = MkUsbHidKeyboard (replicate 8 0) 0 0.

Lemma start_in_step {W} absent (s : hid W) : absent = 0x31 ∨ absent = 0x32 → kbd_start s → in_step absent (s, [], replicate 8 0).
Proof.
  intros Habs (Wf & E & K). unfold in_step. rewrite K, E.
  assert (B : bytes (replicate 8 0)) by (apply list.Forall_replicate; unfold is_byte; lia). split; [exact Wf|]. split; [|split].
  - split; [done|]. split; [exact B|by left].
  - split; [done|]. split; [exact B|]. intros Hin. unfold report_keys in Hin. simpl in Hin. rewrite !elem_of_cons in Hin.
    destruct Habs as [-> | ->]; rewrite elem_of_nil in Hin; lia.
  - split; [done|]. exists ∅. split; [done|]. intros c. split; [intros Hin; by apply elem_of_empty in Hin|]. intros [(bit & _ & T & _)|(u & Hin & H4 & _)].
    + change (report_mods _) with 0 in T. by rewrite Z.testbit_0_l in T.
    + unfold report_keys in Hin. simpl in Hin. rewrite !elem_of_cons, elem_of_nil in Hin. lia.
Qed.

(** C7 (safety) [usb_hid_keyboard_report, report_modifiers, report_release, report_press, usb_hid_emit, usb_hid_emit_usage, usb_hid_report_has_key, usb_hid_keyboard_tick, keyboard_push_scancode, keyboard_read_raw]
    A USB keyboard and a reader of scancodes: whatever reports of 8 bytes the keyboard sends, however
    the ticks that repeat keys and the reads of the queue come in between, as long as the
    queue has room, a reader that follows the scancodes (0xE0 prefixes, makes and breaks)
    and has read all of them holds exactly the keys of the report that came last, modifiers included
    (a report that says too many keys are down is not counted); every such report and tick
    is handled without going wrong.  The keyboard is one that has the usage 0x31 or 0x32,
    which share a scancode, and not both. *)
Theorem keyboard_tracks {W : Type} `{InputHost W} (absent : Z) (s0 s : hid W) (got last : list Z)
  (Habs : absent = 0x31 ∨ absent = 0x32) (S0 : kbd_start s0) (R : rtc (kbd_step absent) (s0, [], replicate 8 0) (s, got, last)) :
  (∃ held, decode (got ++ kbd_items (hd_input s)) = (false, held) ∧ ∀ c, c ∈ held ↔ key_down last c) ∧
  (∀ report, good_report absent report → Z.of_nat (length (kbd_items (hd_input s))) + 40 <= 255 →
     ∃ s', usb_hid_keyboard_report report 8 s = Some (tt, s')) ∧
  (Z.of_nat (length (kbd_items (hd_input s))) + 2 <= 255 → ∃ s', usb_hid_keyboard_tick s = Some (tt, s')).
Proof.
  pose proof (in_step_reach absent Habs _ _ R (start_in_step absent s0 Habs S0)) as I.
  split; [destruct I as (_ & _ & _ & El & I); by rewrite <- El|split].
  - intros report G Hr. assert (Hw : wp (usb_hid_keyboard_report report 8) (λ _ _, True) s) by (eapply report_in_step; eauto).
    apply wp_run in Hw as ([] & s' & E & _). by exists s'.
  - intros Hr. assert (Hw : wp usb_hid_keyboard_tick (λ _ _, True) s) by (eapply tick_in_step; eauto).
    apply wp_run in Hw as ([] & s' & E & _). by exists s'.
Qed.

(** Left shift and A are pressed; the reader takes both scancodes. *)
Definition demo_hid : hid (list (bool * Z)) := Hid (MkUsbHidKeyboard (replicate 8 0) 0 0) demo_input.
Definition demo_report : list Z := [2; 0; 4; 0; 0; 0; 0; 0].
Definition demo_hid_1 : hid (list (bool * Z)) := run_state (usb_hid_keyboard_report demo_report 8) demo_hid.
Definition demo_hid_2 : hid (list (bool * Z)) := run_state (on_input (keyboard_read_raw 16)) demo_hid_1.

Lemma demo_hid_reach : rtc (kbd_step 0x32) (demo_hid, [], replicate 8 0) (demo_hid_2, [0x2A; 0x1E], demo_report).
Proof.
  eapply rtc_l; [eapply (step_report 0x32 demo_report demo_hid demo_hid_1)|].
  - split; [done|]. split.
    + unfold bytes, demo_report. repeat (apply list.Forall_cons; split; [unfold is_byte; lia|]). apply list.Forall_nil_2.
    + intros Hin. unfold report_keys, demo_report in Hin. simpl in Hin. rewrite !elem_of_cons, elem_of_nil in Hin. lia.
  - vm_compute. congruence.
  - vm_compute. reflexivity.
  - eapply rtc_l; [|apply rtc_refl]. apply (step_read 0x32 16 demo_hid_1 demo_hid_2 [0x2A; 0x1E] [] demo_report). vm_compute. reflexivity.
Qed.

Lemma keyboard_tracks_witness :
  (∃ held, decode ([0x2A; 0x1E] ++ kbd_items (hd_input demo_hid_2)) = (false, held) ∧
     ∀ c, c ∈ held ↔ key_down demo_report c) ∧
  (∀ report, good_report 0x32 report → Z.of_nat (length (kbd_items (hd_input demo_hid_2))) + 40 <= 255 →
     ∃ s', usb_hid_keyboard_report report 8 demo_hid_2 = Some (tt, s')) ∧
  (Z.of_nat (length (kbd_items (hd_input demo_hid_2))) + 2 <= 255 → ∃ s', usb_hid_keyboard_tick demo_hid_2 = Some (tt, s')).
Proof.
  apply (keyboard_tracks 0x32 demo_hid demo_hid_2 [0x2A; 0x1E] demo_report).
  - by right.
  - split; [by vm_compute|]. split; [vm_compute; reflexivity|reflexivity].
  - exact demo_hid_reach.
Defined.

(** One free place: the prefix goes in, the code behind it is lost, and the next key is
    taken for the extended one. *)
Lemma prefix_without_code {W} `{InputHost W} (s : input W) :
  queues_wf s → length (kbd_items s) = 254%nat →
  wp (usb_hid_emit 0xE048 true) (λ _ s', kbd_items s' = kbd_items s ++ [0xE0]) s.
Proof.
  intros Wf L. unfold usb_hid_emit. change (0xE048 =? 0) with false. change (Z.shiftr 0xE048 8 =? 0xE0) with true. cbv iota.
  apply wp_bind, keyboard_push_scancode_wp; [done|]. intros q Wq Eq. unfold enqueue in Eq. rewrite L in Eq. simpl in Eq.
  apply keyboard_push_scancode_wp; [by destruct Wf|]. intros q' Wq' Eq'. unfold kbd_items at 1. simpl. rewrite Eq'.
  unfold enqueue, kbd_items at 1 2 3. simpl. rewrite Eq, length_app, L. done.
Qed.
