(* ===== verification/UsbHidMouse.v ===== *)
(** * kernel/drivers/usb/usb_hid.c: report descriptors and mouse reports

    The parser runs over the items of a report descriptor and notes where the movement,
    the wheel and the buttons of a mouse are in its reports; a report is then decoded with
    this layout.  [scan] is the list of items of a descriptor, and the parser is a fold of
    [hid_item] over it.

    Arrays are lists: an index outside one is a run that goes wrong.  The local array of
    usages is the list of those stored since the last main item.  The parser's loop over
    the bytes of a descriptor takes at least one byte per turn, so its length is enough
    turns. *)
From S2P Require Import Prelude RawMem Pmm Heap VfsTypes Ramfs Ring Input.
Local Open Scope kernel_scope.

(** ** Layouts *)

(** [kernel/drivers/usb/usb_hid.h 15-21] *)
Record UsbHidField := MkUsbHidField { fl_offset : Z; fl_size : Z; fl_is_signed : bool }.
(** [kernel/drivers/usb/usb_hid.h 23-30] *)
Record UsbHidMouseLayout := MkUsbHidMouseLayout {
  ml_report_id : Z; ml_x : UsbHidField; ml_y : UsbHidField; ml_wheel : UsbHidField;
  ml_buttons_offset : Z; ml_buttons_count : Z
}.

Definition no_field : UsbHidField := MkUsbHidField 0 0 false.
Definition no_layout : UsbHidMouseLayout := MkUsbHidMouseLayout 0 no_field no_field no_field 0 0.

(** ** The parser *)

Definition HID_MAX_USAGES : Z := 16.
(** [kernel/drivers/usb/usb_hid.c 161-161] *)
Definition HID_USAGE (page id : Z) : Z := Z.lor (u32 (Z.shiftl page 16)) id.
Definition USAGE_MOUSE : Z := HID_USAGE 1 0x02.
Definition USAGE_X : Z := HID_USAGE 1 0x30.
Definition USAGE_Y : Z := HID_USAGE 1 0x31.
Definition USAGE_WHEEL : Z := HID_USAGE 1 0x38.
Definition HID_PAGE_BUTTON : Z := 0x09.

(** The local variables of the parser.
    [kernel/drivers/usb/usb_hid.c: usb_hid_parse_mouse_layout 167-181] *)
Record hid_parser := HidParser {
  mp_usage_page : Z; mp_report_size : Z; mp_report_count : Z; mp_logical_min : Z;
  mp_report_id : Z; mp_uses_report_ids : bool;
  mp_usages : list Z; mp_usage_min : Z; mp_have_range : bool;
  mp_depth : Z; mp_mouse_depth : Z; mp_locked : bool;
  mp_bit_offsets : list Z; mp_out : UsbHidMouseLayout
}.
Definition parser_start : hid_parser :=
  HidParser 0 0 0 0 0 false [] 0 false 0 (-1) false (replicate 256 0) no_layout.

(** The data of an item as a signed number.
    [kernel/drivers/usb/usb_hid.c: usb_hid_parse_mouse_layout 205-209] *)
Definition s32_of (size data : Z) : Z :=
  if size =? 1 then s8 data else if size =? 2 then s16 data else s32 data.

(** [kernel/drivers/usb/usb_hid.c: usb_hid_parse_mouse_layout 212-225] *)
Definition hid_global (p : hid_parser) (tag data sdata : Z) : hid_parser :=
  let '(HidParser up rs rc lm ri ur us umin hr d md lk bo out) := p in
  if tag =? 0x0 then HidParser data rs rc lm ri ur us umin hr d md lk bo out
  else if tag =? 0x1 then HidParser up rs rc sdata ri ur us umin hr d md lk bo out
  else if tag =? 0x7 then HidParser up data rc lm ri ur us umin hr d md lk bo out
  else if tag =? 0x9 then HidParser up rs data lm ri ur us umin hr d md lk bo out
  else if tag =? 0x8 then HidParser up rs rc lm (u8 data) true us umin hr d md lk bo out
  else p.

(** [usage_max] is stored and never read.
    [kernel/drivers/usb/usb_hid.c: usb_hid_parse_mouse_layout 226-238] *)
Definition hid_local (p : hid_parser) (size tag data : Z) : hid_parser :=
  let '(HidParser up rs rc lm ri ur us umin hr d md lk bo out) := p in
  let usage := if size =? 4 then data else HID_USAGE up data in
  if tag =? 0x0 then
    HidParser up rs rc lm ri ur (if Z.of_nat (length us) <? HID_MAX_USAGES then us ++ [usage] else us) umin hr d md lk bo out
  else if tag =? 0x1 then HidParser up rs rc lm ri ur us usage true d md lk bo out
  else if tag =? 0x2 then HidParser up rs rc lm ri ur us umin true d md lk bo out
  else p.

(** The usage of field [f] of an input item: [Some None] is the [break].
    [kernel/drivers/usb/usb_hid.c: usb_hid_parse_mouse_layout 267-273] *)
Definition field_usage (p : hid_parser) (f : Z) : option (option Z) :=
  if mp_have_range p then Some (Some (u32 (mp_usage_min p + f)))
  else
    let num := Z.of_nat (length (mp_usages p)) in
    if 0 <? num then u ← mp_usages p !!z (if s32 f <? num then s32 f else num - 1); Some (Some u)
    else Some None.

(** What field [f] with [usage] is to the mouse: the layout and whether it is locked.
    [kernel/drivers/usb/usb_hid.c: usb_hid_parse_mouse_layout 275-295] *)
Definition note_field (p : hid_parser) (base data f usage : Z) (lk : bool) (out : UsbHidMouseLayout) : bool * UsbHidMouseLayout :=
  let relative := has_flag data 4 in
  let field := MkUsbHidField (u16 (base + f * mp_report_size p)) (u8 (mp_report_size p)) (mp_logical_min p <? 0) in
  let '(MkUsbHidMouseLayout id x y w bof bc) := out in
  if (usage =? USAGE_X) && relative && (fl_size x =? 0) then
    (true, MkUsbHidMouseLayout (if mp_uses_report_ids p then mp_report_id p else 0) field y w bof bc)
  else if (usage =? USAGE_Y) && relative && (fl_size y =? 0) then (lk, MkUsbHidMouseLayout id x field w bof bc)
  else if (usage =? USAGE_WHEEL) && relative && (fl_size w =? 0) then (lk, MkUsbHidMouseLayout id x y field bof bc)
  else if (Z.shiftr usage 16 =? HID_PAGE_BUTTON) && (Z.land usage 0xFFFF =? 1) && (mp_report_size p =? 1) && (bc =? 0) then
    (lk, MkUsbHidMouseLayout id x y w (fl_offset field) (u8 (Z.min (u32 (mp_report_count p - f)) 3)))
  else (lk, out).

(** The fields of an input item from [f] on.
    [kernel/drivers/usb/usb_hid.c: usb_hid_parse_mouse_layout 265-296] *)
Fixpoint hid_fields (n : nat) (p : hid_parser) (base data f : Z) (lk : bool) (out : UsbHidMouseLayout) : option (bool * UsbHidMouseLayout) :=
  match n with
  | O => Some (lk, out)
  | S n' =>
    u ← field_usage p f;
    match u with
    | None => Some (lk, out)
    | Some usage => let '(lk, out) := note_field p base data f usage lk out in hid_fields n' p base data (f + 1) lk out
    end
  end.

(** [kernel/drivers/usb/usb_hid.c: usb_hid_parse_mouse_layout 255-297] *)
Definition hid_input_item (p : hid_parser) (data : Z) : option hid_parser :=
  base ← mp_bit_offsets p !!z mp_report_id p;
  bo ← updateZ (mp_report_id p) (u16 (base + mp_report_size p * mp_report_count p)) (mp_bit_offsets p);
  let want := (0 <=? mp_mouse_depth p) && has_flag data 2 && negb (has_flag data 1) &&
    (negb (mp_locked p) || (mp_report_id p =? ml_report_id (mp_out p))) &&
    (0 <? mp_report_size p) && (mp_report_size p <=? 32) in
  r ← (if want then hid_fields (Z.to_nat (mp_report_count p)) p base data 0 (mp_locked p) (mp_out p)
       else Some (mp_locked p, mp_out p));
  let '(HidParser up rs rc lm ri ur us umin hr d md _ _ _) := p in
  Some (HidParser up rs rc lm ri ur us umin hr d md (fst r) bo (snd r)).

(** [kernel/drivers/usb/usb_hid.c: usb_hid_parse_mouse_layout 241-297] *)
Definition hid_main_tag (p : hid_parser) (tag data : Z) : option hid_parser :=
  let '(HidParser up rs rc lm ri ur us umin hr d md lk bo out) := p in
  if tag =? 0xA then
    let d := d + 1 in
    let md := if (data =? 1) && (md <? 0) && (0 <? Z.of_nat (length us)) &&
                 bool_decide (us !!z 0 = Some USAGE_MOUSE) then d else md in
    Some (HidParser up rs rc lm ri ur us umin hr d md lk bo out)
  else if tag =? 0xC then
    Some (HidParser up rs rc lm ri ur us umin hr (if 0 <? d then d - 1 else d) (if d =? md then -1 else md) lk bo out)
  else if tag =? 0x8 then hid_input_item p data
  else Some p.
(** The usages belong to one main item. [kernel/drivers/usb/usb_hid.c: usb_hid_parse_mouse_layout 299-301] *)
Definition clear_usages (p : hid_parser) : hid_parser :=
  let '(HidParser up rs rc lm ri ur us umin hr d md lk bo out) := p in
  HidParser up rs rc lm ri ur [] 0 false d md lk bo out.
(** [kernel/drivers/usb/usb_hid.c: usb_hid_parse_mouse_layout 239-302] *)
Definition hid_main (p : hid_parser) (tag data : Z) : option hid_parser :=
  p ← hid_main_tag p tag data; Some (clear_usages p).

(** [kernel/drivers/usb/usb_hid.c: usb_hid_parse_mouse_layout 212-302] *)
Definition hid_item (p : hid_parser) (item : Z * Z * Z * Z) : option hid_parser :=
  let '(size, type, tag, data) := item in
  if type =? 1 then Some (hid_global p tag data (s32_of size data))
  else if type =? 2 then Some (hid_local p size tag data)
  else if type =? 0 then hid_main p tag data
  else Some p.

(** [kernel/drivers/usb/usb_hid.c: usb_hid_parse_mouse_layout 202-204] *)
Fixpoint item_data (n : nat) (b : Z) (desc : list Z) (i data : Z) : option Z :=
  match n with
  | O => Some data
  | S n' => v ← desc !!z (i + b); item_data n' (b + 1) desc i (Z.lor data (u32 (Z.shiftl v (8 * b))))
  end.

(** One turn: [None] for going wrong, [Some None] for a [break], or the item, if there
    is one, and where the next begins.
    [kernel/drivers/usb/usb_hid.c: usb_hid_parse_mouse_layout 185-210] *)
Definition next_item (desc : list Z) (len i : Z) : option (option (option (Z * Z * Z * Z) * Z)) :=
  prefix ← desc !!z i;
  let i := i + 1 in
  if prefix =? 0xFE then
    if len <=? i + 1 then Some None
    else n ← desc !!z i; Some (Some (None, i + (2 + n)))
  else
    let size := if Z.land prefix 3 =? 3 then 4 else Z.land prefix 3 in
    let type := Z.land (Z.shiftr prefix 2) 3 in
    let tag := Z.shiftr prefix 4 in
    if len <? i + size then Some None
    else data ← item_data (Z.to_nat size) 0 desc i 0; Some (Some (Some (size, type, tag, data), i + size)).

(** [kernel/drivers/usb/usb_hid.c: usb_hid_parse_mouse_layout 183-303] *)
Fixpoint hid_parse_loop (n : nat) (desc : list Z) (len i : Z) (p : hid_parser) : option hid_parser :=
  if i <? len then
    match n with
    | O => None
    | S n' =>
      r ← next_item desc len i;
      match r with
      | None => Some p
      | Some (None, i) => hid_parse_loop n' desc len i p
      | Some (Some item, i) => p ← hid_item p item; hid_parse_loop n' desc len i p
      end
    end
  else Some p.

(** The layout stored and the result.
    [kernel/drivers/usb/usb_hid.c: usb_hid_parse_mouse_layout] *)
Definition usb_hid_parse_mouse_layout (desc : list Z) (len : Z) : option (UsbHidMouseLayout * bool) :=
  p ← hid_parse_loop (Z.to_nat len) desc len 0 parser_start;
  let out := mp_out p in
  Some (out, negb (fl_size (ml_x out) =? 0) && negb (fl_size (ml_y out) =? 0)).

(** ** Reports *)

(** [kernel/drivers/usb/usb_hid.c: usb_hid_read_field 313-319] *)
Fixpoint field_bits (n : nat) (b : Z) (offset : Z) (data : list Z) (value : Z) : option Z :=
  match n with
  | O => Some value
  | S n' =>
    let bit := offset + b in
    v ← data !!z (bit / 8);
    field_bits n' (b + 1) offset data (if has_flag v (Z.shiftl 1 (bit mod 8)) then Z.lor value (u32 (Z.shiftl 1 b)) else value)
  end.

(** [kernel/drivers/usb/usb_hid.c: usb_hid_read_field] *)
Definition usb_hid_read_field (field : UsbHidField) (data : list Z) (len : Z) : option Z :=
  if (fl_size field =? 0) || (len <? (fl_offset field + fl_size field + 7) / 8) then Some 0
  else
    value ← field_bits (Z.to_nat (fl_size field)) 0 (fl_offset field) data 0;
    let value :=
      if fl_is_signed field && (fl_size field <? 32) && has_flag value (Z.shiftl 1 (fl_size field - 1))
      then Z.lor value (u32 (Z.shiftl (2 ^ 32 - 1) (fl_size field))) else value in
    Some (s32 value).

Definition clamp (lo hi v : Z) : Z := Z.max lo (Z.min v hi).

(** [kernel/drivers/usb/usb_hid.c: usb_hid_mouse_report_layout 345-350] *)
Fixpoint layout_buttons (n : nat) (b : Z) (offset : Z) (report : list Z) (len buttons : Z) : option Z :=
  match n with
  | O => Some buttons
  | S n' =>
    v ← usb_hid_read_field (MkUsbHidField (u16 (offset + b)) 1 false) report len;
    layout_buttons n' (b + 1) offset report len (if v =? 0 then buttons else Z.lor buttons (u8 (Z.shiftl 1 b)))
  end.

(** [kernel/drivers/usb/usb_hid.c: usb_hid_mouse_report_layout 335-350] *)
Definition layout_event (l : UsbHidMouseLayout) (report : list Z) (len : Z) : option MouseEvent :=
  dx ← usb_hid_read_field (ml_x l) report len;
  dy ← usb_hid_read_field (ml_y l) report len;
  w ← usb_hid_read_field (ml_wheel l) report len;
  buttons ← layout_buttons (Z.to_nat (ml_buttons_count l)) 0 (ml_buttons_offset l) report len 0;
  Some (MkMouseEvent (s16 (clamp (-32768) 32767 dx)) (s16 (clamp (-32768) 32767 dy)) (s8 (clamp (-128) 127 w)) buttons 0).

Section Reports.
Context {W : Type} `{InputHost W}.

(** [kernel/drivers/usb/usb_hid.c: usb_hid_mouse_report_layout] *)
Definition usb_hid_mouse_report_layout (l : UsbHidMouseLayout) (report : list Z) (len : Z) : M (input W) unit :=
  if negb (ml_report_id l =? 0) then
    if len <? 1 then mret tt
    else
      id ← lift (report !!z 0);
      if negb (id =? ml_report_id l) then mret tt
      else ev ← lift (layout_event l (tail report) (len - 1)); mouse_push_event ev
  else ev ← lift (layout_event l report len); mouse_push_event ev.

(** [kernel/drivers/usb/usb_hid.c: usb_hid_mouse_report] *)
Definition usb_hid_mouse_report (report : list Z) (len : Z) : M (input W) unit :=
  if len <? 3 then mret tt
  else
    b0 ← lift (report !!z 0);
    b1 ← lift (report !!z 1);
    b2 ← lift (report !!z 2);
    w ← (if 4 <=? len then b3 ← lift (report !!z 3); mret (s8 b3) else mret 0);
    mouse_push_event (MkMouseEvent (s8 b1) (s8 b2) w (Z.land b0 0x07) 0).
End Reports.

(** ** Fields are the bits of the report *)
Lemma le_combine_testbit l i : bytes l → 0 <= i →
  Z.testbit (le_combine l) i = Z.testbit (default 0 (l !!z (i / 8))) (i mod 8).
Proof.
  revert i. induction l as [|b l IH]; intros i B Hi.
  { simpl. unfold lookupZ. destruct (i / 8 <? 0); simpl; by rewrite !Z.testbit_0_l. }
  unfold bytes in B. apply list.Forall_cons in B as [Hb B]. unfold is_byte in Hb. cbn [le_combine].
  replace (b + 256 * le_combine l) with (le_combine l * 2 ^ 8 + b) by lia. rewrite <- lor_shift by lia. rewrite Z.lor_spec.
  destruct (Z.ltb_spec i 8).
  - rewrite Z.shiftl_spec_low by lia. rewrite (Z.div_small i 8), (Z.mod_small i 8) by lia. done.
  - rewrite Z.shiftl_spec, IH by (done || lia).
    assert (Z.testbit b i = false) as ->.
    { rewrite <- (Z.mod_small b (2 ^ 8)) by lia. apply Z.mod_pow2_bits_high. lia. }
    rewrite orb_false_r. assert (E : i / 8 = (i - 8) / 8 + 1) by (Z.to_euclidean_division_equations; lia).
    assert (Em : i mod 8 = (i - 8) mod 8) by (Z.to_euclidean_division_equations; lia). rewrite E, Em.
    assert (0 <= (i - 8) / 8) by (apply Z.div_pos; lia). do 2 f_equal. unfold lookupZ.
    destruct (Z.ltb_spec ((i - 8) / 8) 0), (Z.ltb_spec ((i - 8) / 8 + 1) 0); try lia.
    by replace (Z.to_nat ((i - 8) / 8 + 1)) with (S (Z.to_nat ((i - 8) / 8))) by lia.
Qed.

(** [n] bits of a number from bit [o] on. *)
Definition bits_at (d o n : Z) : Z := (d / 2 ^ o) mod 2 ^ n.

Lemma bits_at_testbit d o n i : 0 <= o → 0 <= n → 0 <= i → Z.testbit (bits_at d o n) i = (i <? n) && Z.testbit d (o + i).
Proof.
  intros Ho Hn Hi. unfold bits_at. destruct (Z.ltb_spec i n).
  - rewrite Z.mod_pow2_bits_low, Z.div_pow2_bits by lia. by rewrite Z.add_comm.
  - by rewrite Z.mod_pow2_bits_high by lia.
Qed.

Lemma bits_at_range d o n : 0 <= n → 0 <= bits_at d o n < 2 ^ n.
Proof. intros Hn. apply Z.mod_pos_bound. lia. Qed.

Lemma bits_at_succ d o n : 0 <= o → 0 <= n →
  (if Z.testbit d (o + n) then Z.lor (bits_at d o n) (Z.shiftl 1 n) else bits_at d o n) = bits_at d o (n + 1).
Proof.
  intros Ho Hn. apply Z.bits_inj'. intros i Hi. rewrite bits_at_testbit by lia.
  assert (E : Z.testbit (Z.shiftl 1 n) i = (i =? n)).
  { rewrite Z.shiftl_spec, testbit_one by done. destruct (Z.eqb_spec (i - n) 0), (Z.eqb_spec i n); lia || done. }
  destruct (Z.testbit d (o + n)) eqn:T; rewrite ?Z.lor_spec, bits_at_testbit, ?E by lia;
    destruct (Z.ltb_spec i n), (Z.ltb_spec i (n + 1)), (Z.eqb_spec i n); try lia; subst; simpl; rewrite ?orb_false_r, ?T; done.
Qed.

Lemma field_bits_correct n b o data : bytes data → 0 <= o → 0 <= b → b + Z.of_nat n <= 32 →
  o + b + Z.of_nat n <= 8 * Z.of_nat (length data) →
  field_bits n b o data (bits_at (le_combine data) o b) = Some (bits_at (le_combine data) o (b + Z.of_nat n)).
Proof.
  intros B Ho. revert b. induction n as [|n IH]; intros b Hb H32 Hlen; cbn [field_bits]; [by rewrite Z.add_0_r|].
  assert (H8 : 0 <= (o + b) / 8 < Z.of_nat (length data)) by (Z.to_euclidean_division_equations; lia).
  destruct (lookupZ_lt_is_Some data ((o + b) / 8) H8) as [v Hv]. rewrite Hv. cbn [mbind option_bind].
  rewrite has_flag_testbit by (apply Z.mod_pos_bound; lia).
  assert (E : Z.testbit v ((o + b) mod 8) = Z.testbit (le_combine data) (o + b)) by (rewrite le_combine_testbit, Hv by (done || lia); done).
  assert (Eu : u32 (Z.shiftl 1 b) = Z.shiftl 1 b).
  { apply u32_small. rewrite Z.shiftl_1_l. split; [apply Z.pow_nonneg; lia|apply Z.pow_lt_mono_r; lia]. }
  rewrite E, Eu, bits_at_succ by lia. rewrite (IH (b + 1)) by lia. do 2 f_equal. lia.
Qed.

Definition field_ok (f : UsbHidField) : Prop := 0 <= fl_offset f ∧ 0 <= fl_size f <= 32.

(** The number a field of [size] bits stands for. *)
Definition field_value (is_signed : bool) (size raw : Z) : Z :=
  if is_signed && (2 ^ (size - 1) <=? raw) then raw - 2 ^ size else s32 raw.

Lemma testbit_top v n : 0 < n → 0 <= v < 2 ^ n → Z.testbit v (n - 1) = (2 ^ (n - 1) <=? v).
Proof.
  intros Hn Hv. rewrite Z.testbit_eqb by lia.
  assert (E : 2 ^ n = 2 * 2 ^ (n - 1)) by (rewrite <- Z.pow_succ_r by lia; f_equal; lia).
  pose proof (Z.pow_pos_nonneg 2 (n - 1) ltac:(lia) ltac:(lia)). set (m := 2 ^ (n - 1)) in *.
  destruct (Z.leb_spec m v).
  - rewrite <- (Z.div_unique v m 1 (v - m)); [reflexivity|lia|lia].
  - by rewrite Z.div_small by lia.
Qed.

(** Setting the bits from [n] up makes the number negative. *)
Lemma sign_extend v n : 0 < n < 32 → 2 ^ (n - 1) <= v < 2 ^ n → s32 (Z.lor v (u32 (Z.shiftl (2 ^ 32 - 1) n))) = v - 2 ^ n.
Proof.
  intros Hn Hv.
  assert (E1 : u32 (Z.shiftl (2 ^ 32 - 1) n) = Z.shiftl (Z.ones (32 - n)) n).
  { unfold u32. change (2 ^ 32 - 1) with (Z.ones 32). apply Z.bits_inj'. intros i Hi.
    destruct (Z.ltb_spec i 32).
    - rewrite Z.mod_pow2_bits_low, !Z.shiftl_spec by lia. destruct (Z.ltb_spec i n).
      + by rewrite !Z.testbit_neg_r by lia.
      + by rewrite !Z.ones_spec_low by lia.
    - rewrite Z.mod_pow2_bits_high, Z.shiftl_spec by lia. symmetry. apply Z.ones_spec_high. lia. }
  assert (P : 2 ^ 32 = 2 ^ n * 2 ^ (32 - n)) by (rewrite <- Z.pow_add_r by lia; f_equal; lia).
  assert (Pn : 2 ^ n = 2 * 2 ^ (n - 1)) by (rewrite <- Z.pow_succ_r by lia; f_equal; lia).
  pose proof (Z.pow_pos_nonneg 2 (n - 1) ltac:(lia) ltac:(lia)).
  assert (2 ^ n <= 2 ^ 31) by (apply Z.pow_le_mono_r; lia).
  rewrite E1, Z.lor_comm, lor_shift, Z.ones_equiv by lia.
  assert (Ev : Z.pred (2 ^ (32 - n)) * 2 ^ n + v = 2 ^ 32 + (v - 2 ^ n)) by lia.
  rewrite Ev. unfold s32. assert (Eu : u32 (2 ^ 32 + (v - 2 ^ n)) = 2 ^ 32 + (v - 2 ^ n)) by (apply u32_small; lia).
  rewrite Eu. destruct (Z.ltb_spec (2 ^ 32 + (v - 2 ^ n)) (2 ^ 31)); lia.
Qed.

Lemma s32_small x : 0 <= x < 2 ^ 31 → s32 x = x.
Proof. intros Hx. unfold s32. rewrite u32_small by lia. by destruct (Z.ltb_spec x (2 ^ 31)); [|lia]. Qed.

(** A field that fits is read as the number its bits stand for, any other as 0. *)
Lemma usb_hid_read_field_correct f data : field_ok f → bytes data →
  let len := Z.of_nat (length data) in
  usb_hid_read_field f data len = Some (
    if (fl_size f =? 0) || (len <? (fl_offset f + fl_size f + 7) / 8) then 0
    else field_value (fl_is_signed f) (fl_size f) (bits_at (le_combine data) (fl_offset f) (fl_size f))).
Proof.
  intros [Ho Hs] B len. unfold usb_hid_read_field. destruct (Z.eqb_spec (fl_size f) 0) as [|Hs0]; [done|].
  destruct (Z.ltb_spec len ((fl_offset f + fl_size f + 7) / 8)) as [|Hfit]; [done|]. cbn [orb].
  assert (Hlen : fl_offset f + fl_size f <= 8 * len) by (Z.to_euclidean_division_equations; lia).
  pose proof (field_bits_correct (Z.to_nat (fl_size f)) 0 (fl_offset f) data B Ho ltac:(lia) ltac:(lia) ltac:(unfold len in *; lia)) as FB.
  assert (E0 : bits_at (le_combine data) (fl_offset f) 0 = 0) by (unfold bits_at; apply Z.mod_1_r).
  rewrite E0, Z2Nat.id, Z.add_0_l in FB by lia. rewrite FB. cbn [mbind option_bind].
  set (raw := bits_at (le_combine data) (fl_offset f) (fl_size f)). f_equal.
  pose proof (bits_at_range (le_combine data) (fl_offset f) (fl_size f) ltac:(lia)) as Hraw. fold raw in Hraw.
  rewrite has_flag_testbit, testbit_top by lia. unfold field_value. destruct (fl_is_signed f); [|done]. cbn [andb].
  destruct (Z.leb_spec (2 ^ (fl_size f - 1)) raw).
  - destruct (Z.ltb_spec (fl_size f) 32).
    + rewrite andb_true_l. apply sign_extend; lia.
    + cbn [andb]. replace (fl_size f) with 32 in * by lia. unfold s32. rewrite u32_small by lia.
      destruct (Z.ltb_spec raw (2 ^ 31)); [|done]. change (2 ^ (32 - 1)) with (2 ^ 31) in *. lia.
  - rewrite andb_false_r. done.
Qed.

(** ** The parser is a fold over the items *)

(** The items of a descriptor, up to where the parser stops. *)
Fixpoint scan_from (n : nat) (desc : list Z) (i : Z) : list (Z * Z * Z * Z) :=
  match n with
  | O => []
  | S n' =>
    match next_item desc (Z.of_nat (length desc)) i with
    | Some (Some (item, i')) => option_list item ++ scan_from n' desc i'
    | _ => []
    end
  end.
Definition scan (desc : list Z) : list (Z * Z * Z * Z) := scan_from (length desc) desc 0.

Fixpoint hid_items (p : hid_parser) (items : list (Z * Z * Z * Z)) : option hid_parser :=
  match items with [] => Some p | item :: items' => p ← hid_item p item; hid_items p items' end.

Lemma item_data_ok n b desc i data : bytes desc → 0 <= i → 0 <= b → b + Z.of_nat n <= 4 → i + b + Z.of_nat n <= Z.of_nat (length desc) →
  0 <= data < 2 ^ 32 → ∃ v, item_data n b desc i data = Some v ∧ 0 <= v < 2 ^ 32.
Proof.
  intros B Hi. revert b data. induction n as [|n IH]; intros b data Hb H4 Hl Hd; cbn [item_data]; [by exists data|].
  destruct (lookupZ_lt_is_Some desc (i + b)) as [v Hv]; [lia|]. rewrite Hv. cbn [mbind option_bind].
  apply IH; [lia|lia|lia|]. apply lor_range; [lia|done|apply u32_range].
Qed.

(** A turn stays inside the descriptor and moves on. *)
Lemma next_item_ok desc i : bytes desc → 0 <= i < Z.of_nat (length desc) →
  next_item desc (Z.of_nat (length desc)) i = Some None ∨
  ∃ item i', next_item desc (Z.of_nat (length desc)) i = Some (Some (item, i')) ∧ i < i' ∧
    ∀ size type tag data, item = Some (size, type, tag, data) → 0 <= data < 2 ^ 32.
Proof.
  intros B Hi. unfold next_item. destruct (lookupZ_lt_is_Some desc i Hi) as [prefix Hp]. rewrite Hp. cbn [mbind option_bind].
  assert (Hby : ∀ j v, desc !!z j = Some v → 0 <= v < 256).
  { intros j v Hv. unfold lookupZ in Hv. destruct (j <? 0); [done|]. unfold bytes in B. eapply list.Forall_lookup_1 in B; [|exact Hv]. exact B. }
  destruct (prefix =? 0xFE).
  - destruct (Z.leb_spec (Z.of_nat (length desc)) (i + 1 + 1)); [by left|right].
    destruct (lookupZ_lt_is_Some desc (i + 1)) as [n Hn]; [lia|]. rewrite Hn. cbn [mbind option_bind].
    eexists None, _. split; [done|]. pose proof (Hby _ _ Hn). split; [lia|done].
  - set (size := if Z.land prefix 3 =? 3 then 4 else Z.land prefix 3).
    assert (Hsz : 0 <= size <= 4).
    { subst size. pose proof (Z.mod_pos_bound prefix (2 ^ 2) ltac:(lia)) as Hm. rewrite <- Z.land_ones in Hm by lia.
      change (Z.ones 2) with 3 in Hm. change (2 ^ 2) with 4 in Hm. destruct (_ =? 3); lia. }
    destruct (Z.ltb_spec (Z.of_nat (length desc)) (i + 1 + size)); [by left|right].
    destruct (item_data_ok (Z.to_nat size) 0 desc (i + 1) 0 B) as (v & Ev & Hv); [lia|lia|lia|lia|lia|]. rewrite Ev. cbn [mbind option_bind].
    eexists (Some _), _. split; [done|]. split; [lia|]. intros ? ? ? ? E. by injection E as <- <- <- <-.
Qed.

Lemma parse_is_fold n desc i p : bytes desc → 0 <= i → Z.of_nat (length desc) <= i + Z.of_nat n →
  hid_parse_loop n desc (Z.of_nat (length desc)) i p = hid_items p (scan_from n desc i).
Proof.
  intros B. revert i p. induction n as [|n IH]; intros i p Hi Hn; cbn [hid_parse_loop scan_from].
  { destruct (Z.ltb_spec i (Z.of_nat (length desc))); [lia|done]. }
  destruct (Z.ltb_spec i (Z.of_nat (length desc))).
  - destruct (next_item_ok desc i B ltac:(lia)) as [->|(item & i' & -> & Hlt & _)]; cbn [mbind option_bind]; [done|].
    destruct item as [item|]; cbn [option_list app].
    + change (hid_items p (option_list (Some item) ++ scan_from n desc i')) with (p' ← hid_item p item; hid_items p' (scan_from n desc i')).
      destruct (hid_item p item) as [p'|]; cbn [mbind option_bind]; [|done]. apply IH; lia.
    + apply IH; lia.
  - unfold next_item. destruct (desc !!z i) eqn:E; [apply lookupZ_Some_lt in E; lia|]. done.
Qed.

(** ** Bounds *)

(** What makes reports safe to read. *)
Definition layout_ok (l : UsbHidMouseLayout) : Prop :=
  field_ok (ml_x l) ∧ field_ok (ml_y l) ∧ field_ok (ml_wheel l) ∧ 0 <= ml_buttons_count l <= 3.

Record parser_ok (p : hid_parser) : Prop := {
  po_count : 0 <= mp_report_count p <= 2 ^ 31;
  po_size : 0 <= mp_report_size p;
  po_id : 0 <= mp_report_id p < 256;
  po_offsets : length (mp_bit_offsets p) = 256%nat;
  po_usages : (length (mp_usages p) <= 16)%nat;
  po_out : layout_ok (mp_out p)
}.

(** An item that asks for more than 2^31 fields. *)
Definition count_item (item : Z * Z * Z * Z) : Prop :=
  let '(_, type, tag, data) := item in type = 1 ∧ tag = 9 ∧ 2 ^ 31 < data.

Lemma note_field_ok p base data f usage lk out : 0 <= mp_report_size p <= 32 → layout_ok out →
  layout_ok (snd (note_field p base data f usage lk out)).
Proof.
  intros Hs (Fx & Fy & Fw & Hc). destruct out as [id x y w bof bc]. unfold note_field. cbn [ml_x ml_y ml_wheel ml_buttons_count] in *.
  assert (F : field_ok (MkUsbHidField (u16 (base + f * mp_report_size p)) (u8 (mp_report_size p)) (mp_logical_min p <? 0))).
  { split; cbn [fl_offset fl_size]; [apply u16_range|]. rewrite u8_small; lia. }
  destruct ((usage =? USAGE_X) && _ && _); [done|]. destruct ((usage =? USAGE_Y) && _ && _); [done|].
  destruct ((usage =? USAGE_WHEEL) && _ && _); [done|].
  destruct (_ && _ && _ && _); [|done]. split_and!; try done; cbn [snd ml_buttons_count].
  - apply u8_range.
  - pose proof (u32_range (mp_report_count p - f)). rewrite u8_small; lia.
Qed.

Lemma s32_index f : 0 <= f < 2 ^ 31 → s32 f = f.
Proof. intros Hf. by apply s32_small. Qed.

Lemma field_usage_ok p f : 0 <= f < 2 ^ 31 → ∃ u, field_usage p f = Some u.
Proof.
  intros Hf. unfold field_usage. destruct (mp_have_range p); [by eexists|].
  destruct (Z.ltb_spec 0 (Z.of_nat (length (mp_usages p)))); [|by eexists]. rewrite s32_index by done.
  destruct (lookupZ_lt_is_Some (mp_usages p) (if f <? Z.of_nat (length (mp_usages p)) then f else Z.of_nat (length (mp_usages p)) - 1)) as [u Hu].
  { destruct (Z.ltb_spec f (Z.of_nat (length (mp_usages p)))); lia. }
  rewrite Hu. by eexists.
Qed.

Lemma hid_fields_ok n p base data f lk out : 0 <= f → f + Z.of_nat n <= 2 ^ 31 → 0 <= mp_report_size p <= 32 → layout_ok out →
  ∃ r, hid_fields n p base data f lk out = Some r ∧ layout_ok (snd r).
Proof.
  intros Hf Hn Hs. revert f lk out Hf Hn. induction n as [|n IH]; intros f lk out Hf Hn Ho; cbn [hid_fields]; [by eexists|].
  destruct (field_usage_ok p f ltac:(lia)) as [u Hu]. rewrite Hu. cbn [mbind option_bind].
  destruct u as [usage|]; [|by eexists]. pose proof (note_field_ok p base data f usage lk out Hs Ho) as Hok.
  destruct (note_field p base data f usage lk out) as [lk' out']. apply IH; [lia|lia|exact Hok].
Qed.

Lemma hid_input_item_ok p data : parser_ok p → ∃ p', hid_input_item p data = Some p' ∧ parser_ok p'.
Proof.
  intros [C S I O U L]. unfold hid_input_item. destruct (lookupZ_lt_is_Some (mp_bit_offsets p) (mp_report_id p)) as [base Hb]; [lia|].
  rewrite Hb. cbn [mbind option_bind]. rewrite updateZ_is_Some by lia. cbn [mbind option_bind]. set (want := _ && _).
  assert (R : ∃ r, (if want then hid_fields (Z.to_nat (mp_report_count p)) p base data 0 (mp_locked p) (mp_out p)
       else Some (mp_locked p, mp_out p)) = Some r ∧ layout_ok (snd r)).
  { destruct want eqn:Ew; [|by eexists]. unfold want in Ew. rewrite !andb_true_iff, Z.leb_le, Z.ltb_lt in Ew.
    destruct Ew as [_ Ew]. apply hid_fields_ok; [lia|lia|lia|done]. }
  destruct R as (r & -> & Hr). cbn [mbind option_bind]. destruct p. eexists. split; [done|]. constructor; try done. simpl in *. by rewrite length_insert.
Qed.

Lemma hid_main_tag_ok p tag data : parser_ok p → ∃ p', hid_main_tag p tag data = Some p' ∧ parser_ok p'.
Proof.
  intros P. destruct (hid_input_item_ok p data P) as (p1 & E1 & P1). destruct P as [C S I O U L], p. unfold hid_main_tag. cbv zeta.
  destruct (tag =? 0xA); [eexists; split; [done|by constructor]|]. destruct (tag =? 0xC); [eexists; split; [done|by constructor]|].
  destruct (tag =? 0x8); [by exists p1|]. eexists. split; [done|]. by constructor.
Qed.

Lemma hid_item_ok p item : parser_ok p → (let '(_, _, _, data) := item in 0 <= data < 2 ^ 32) → ¬ count_item item →
  ∃ p', hid_item p item = Some p' ∧ parser_ok p'.
Proof.
  destruct item as [[[size type] tag] data]. intros P Hd Hn. unfold hid_item.
  destruct (Z.eqb_spec type 1) as [->|]; [|destruct (Z.eqb_spec type 2) as [->|]; [|destruct (Z.eqb_spec type 0) as [->|]; [|by eexists]]].
  - eexists. split; [done|]. destruct P as [C S I O U L], p. unfold hid_global. cbn in *.
    destruct (Z.eqb_spec tag 0) as [->|]; [by constructor|]. destruct (Z.eqb_spec tag 1) as [->|]; [by constructor|].
    destruct (Z.eqb_spec tag 7) as [->|]; [constructor; cbn; try done; lia|].
    destruct (Z.eqb_spec tag 9) as [->|]; [constructor; cbn; try done; lia|].
    destruct (Z.eqb_spec tag 8) as [->|]; [constructor; cbn; try done; apply u8_range|by constructor].
  - eexists. split; [done|]. destruct P as [C S I O U L], p. unfold hid_local. cbn -[Z.of_nat] in *.
    destruct (tag =? 0); [|destruct (tag =? 1); [|destruct (tag =? 2)]]; constructor; cbn -[Z.of_nat]; try done.
    destruct (Z.ltb_spec (Z.of_nat (length mp_usages0)) HID_MAX_USAGES); [|done]. unfold HID_MAX_USAGES in *. rewrite length_app. simpl. lia.
  - unfold hid_main. destruct (hid_main_tag_ok p tag data P) as (p1 & -> & P1). cbn [mbind option_bind].
    eexists. split; [done|]. destruct P1 as [C S I O U L], p1. constructor; try done. simpl. lia.
Qed.

Lemma scan_data desc n i : bytes desc → 0 <= i → Forall (λ item : Z * Z * Z * Z, let '(_, _, _, data) := item in 0 <= data < 2 ^ 32) (scan_from n desc i).
Proof.
  intros B. revert i. induction n as [|n IH]; intros i Hi; cbn [scan_from]; [apply list.Forall_nil_2|].
  destruct (decide (i < Z.of_nat (length desc))) as [Hlt|].
  - destruct (next_item_ok desc i B ltac:(lia)) as [->|(item & i' & -> & Hi' & Hd)]; [apply list.Forall_nil_2|].
    apply list.Forall_app. split; [|apply IH; lia]. destruct item as [[[[size type] tag] data]|]; [|apply list.Forall_nil_2].
    apply list.Forall_cons. split; [by apply (Hd size type tag data)|apply list.Forall_nil_2].
  - unfold next_item. destruct (desc !!z i) eqn:E; [apply lookupZ_Some_lt in E; lia|]. apply list.Forall_nil_2.
Qed.

Lemma hid_items_ok p items : parser_ok p →
  Forall (λ item : Z * Z * Z * Z, let '(_, _, _, data) := item in 0 <= data < 2 ^ 32) items → Forall (λ item, ¬ count_item item) items →
  ∃ p', hid_items p items = Some p' ∧ parser_ok p'.
Proof.
  revert p. induction items as [|item items IH]; intros p P D N; cbn [hid_items]; [by exists p|].
  apply list.Forall_cons in D as [D1 D]. apply list.Forall_cons in N as [N1 N].
  destruct (hid_item_ok p item P D1 N1) as (p1 & -> & P1). by apply IH.
Qed.

Lemma no_field_ok : field_ok no_field.
Proof. split; simpl; lia. Qed.
Lemma parser_start_ok : parser_ok parser_start.
Proof.
  constructor; try (simpl; lia).
  split_and!; try apply no_field_ok; simpl; lia.
Qed.

Lemma layout_buttons_ok n b offset report buttons : bytes report → 
  ∃ v, layout_buttons n b offset report (Z.of_nat (length report)) buttons = Some v.
Proof.
  intros B. revert b buttons. induction n as [|n IH]; intros b buttons; cbn [layout_buttons]; [by eexists|].
  rewrite usb_hid_read_field_correct; [apply IH| |done]. split; cbn [fl_offset fl_size]; [apply u16_range|lia].
Qed.

Lemma layout_event_ok l report : layout_ok l → bytes report → ∃ ev, layout_event l report (Z.of_nat (length report)) = Some ev.
Proof.
  intros (Fx & Fy & Fw & _) B. unfold layout_event. rewrite !usb_hid_read_field_correct by done. cbn [mbind option_bind].
  destruct (layout_buttons_ok (Z.to_nat (ml_buttons_count l)) 0 (ml_buttons_offset l) report 0 B) as [v ->]. by eexists.
Qed.

Section ReportLemmas.
Context {W : Type} `{InputHost W}.

Lemma layout_report_wp l report (s : input W) : layout_ok l → bytes report → queues_wf s →
  wp (usb_hid_mouse_report_layout l report (Z.of_nat (length report)))
    (λ _ s', queues_wf s' ∧ kbd_items s' = kbd_items s ∧ (mouse_items s' = mouse_items s ∨ ∃ ev, mouse_items s' = mouse_items s ++ [ev])) s.
Proof.
  intros L B Wf. unfold usb_hid_mouse_report_layout.
  assert (Push : ∀ ev, wp (mouse_push_event ev)
    (λ _ s', queues_wf s' ∧ kbd_items s' = kbd_items s ∧ (mouse_items s' = mouse_items s ∨ ∃ ev, mouse_items s' = mouse_items s ++ [ev])) s).
  { intros ev. apply mouse_push_event_wp; [done|]. intros q Wq Eq. split; [by destruct Wf|]. split; [done|].
    unfold mouse_items at 1 3. simpl. rewrite Eq. unfold enqueue. destruct (_ <? _); [right; by eexists|by left]. }
  destruct (negb (ml_report_id l =? 0)).
  - destruct (Z.ltb_spec (Z.of_nat (length report)) 1); [wp_steps; split_and!; try apply Wf; [done|by left]|].
    destruct report as [|id report]; [simpl in *; lia|]. apply wp_bind. eapply wp_lift; [done|].
    destruct (negb (id =? ml_report_id l)); [wp_steps; split_and!; try apply Wf; [done|by left]|]. cbn [tail].
    replace (Z.of_nat (length (id :: report)) - 1) with (Z.of_nat (length report)) by (simpl; lia).
    apply list.Forall_cons in B as [_ B]. destruct (layout_event_ok l report L B) as [ev Hev].
    apply wp_bind. eapply wp_lift; [exact Hev|]. apply Push.
  - destruct (layout_event_ok l report L B) as [ev Hev]. apply wp_bind. eapply wp_lift; [exact Hev|]. apply Push.
Qed.
End ReportLemmas.

(** ** Property *)

(** C8 (bounds) [usb_hid_parse_mouse_layout, hid_parse_loop, next_item, hid_item, hid_main, hid_input_item, hid_fields, field_usage, usb_hid_mouse_report_layout, usb_hid_read_field]
    Whatever bytes a mouse gives as its report descriptor, as long as none of its items
    asks for more than 2^31 fields: the parser ends, reads and writes inside its arrays
    only, and is the fold of its items; the layout it stores has fields of at most 32 bits
    and at most 3 buttons; and with this layout every report of the mouse, however short
    and whatever it holds, is decoded inside the report and queues one event at most. *)
Theorem hid_mouse_bounds {W : Type} `{InputHost W} (desc : list Z) (B : bytes desc)
  (N : Forall (λ item, ¬ count_item item) (scan desc)) :
  ∃ p, hid_items parser_start (scan desc) = Some p ∧ layout_ok (mp_out p) ∧
    usb_hid_parse_mouse_layout desc (Z.of_nat (length desc)) =
      Some (mp_out p, negb (fl_size (ml_x (mp_out p)) =? 0) && negb (fl_size (ml_y (mp_out p)) =? 0)) ∧
    ∀ (report : list Z) (s : input W), bytes report → queues_wf s →
      ∃ s', usb_hid_mouse_report_layout (mp_out p) report (Z.of_nat (length report)) s = Some (tt, s') ∧
        queues_wf s' ∧ kbd_items s' = kbd_items s ∧
        (mouse_items s' = mouse_items s ∨ ∃ ev, mouse_items s' = mouse_items s ++ [ev]).
Proof.
  destruct (hid_items_ok parser_start (scan desc) parser_start_ok) as (p & Ep & P); [by apply scan_data|done|].
  exists p. split; [done|]. split; [apply P|]. split.
  - unfold usb_hid_parse_mouse_layout. rewrite parse_is_fold by (done || lia). unfold scan in Ep. rewrite Nat2Z.id, Ep. done.
  - intros report s Br Wf. pose proof (layout_report_wp (mp_out p) report s (po_out _ P) Br Wf) as G.
    apply wp_run in G as ([] & s' & R & G). by exists s'.
Qed.

(** The descriptor of a mouse with three buttons and a wheel: a button byte, then three
    signed bytes. *)
Definition demo_desc : list Z :=
  [0x05; 0x01; 0x09; 0x02; 0xA1; 0x01; 0x09; 0x01; 0xA1; 0x00;
   0x05; 0x09; 0x19; 0x01; 0x29; 0x03; 0x15; 0x00; 0x25; 0x01; 0x75; 0x01; 0x95; 0x03; 0x81; 0x02;
   0x75; 0x05; 0x95; 0x01; 0x81; 0x01;
   0x05; 0x01; 0x09; 0x30; 0x09; 0x31; 0x09; 0x38; 0x15; 0x81; 0x25; 0x7F; 0x75; 0x08; 0x95; 0x03; 0x81; 0x06;
   0xC0; 0xC0].

Example demo_desc_layout :
  usb_hid_parse_mouse_layout demo_desc (Z.of_nat (length demo_desc)) =
    Some (MkUsbHidMouseLayout 0 (MkUsbHidField 8 8 true) (MkUsbHidField 16 8 true) (MkUsbHidField 24 8 true) 0 3, true).
Proof. vm_compute. reflexivity. Qed.

Lemma demo_desc_bytes : bytes demo_desc.
Proof. unfold bytes, demo_desc. repeat (apply list.Forall_cons; split; [unfold is_byte; lia|]). apply list.Forall_nil_2. Qed.

Lemma hid_mouse_bounds_witness :
  ∃ p, hid_items parser_start (scan demo_desc) = Some p ∧ layout_ok (mp_out p) ∧
    usb_hid_parse_mouse_layout demo_desc (Z.of_nat (length demo_desc)) =
      Some (mp_out p, negb (fl_size (ml_x (mp_out p)) =? 0) && negb (fl_size (ml_y (mp_out p)) =? 0)) ∧
    ∀ (report : list Z) (s : input (list (bool * Z))), bytes report → queues_wf s →
      ∃ s', usb_hid_mouse_report_layout (mp_out p) report (Z.of_nat (length report)) s = Some (tt, s') ∧
        queues_wf s' ∧ kbd_items s' = kbd_items s ∧
        (mouse_items s' = mouse_items s ∨ ∃ ev, mouse_items s' = mouse_items s ++ [ev]).
Proof.
  apply (hid_mouse_bounds demo_desc demo_desc_bytes).
  let l := eval vm_compute in (scan demo_desc) in change (scan demo_desc) with l.
  repeat (apply list.Forall_cons; split; [unfold count_item; lia|]). apply list.Forall_nil_2.
Defined.

(** ** Beyond the bound *)

(** With more than 2^31 fields the index of the usages, a signed number, becomes negative. *)
Lemma huge_count_reads_outside n p base data f lk out :
  mp_have_range p = false → 0 < Z.of_nat (length (mp_usages p)) → 0 <= f <= 2 ^ 31 → 2 ^ 31 < f + Z.of_nat n →
  hid_fields n p base data f lk out = None.
Proof.
  intros Hr Hu. revert f lk out. induction n as [|n IH]; intros f lk out Hf Hn; [lia|]. cbn [hid_fields].
  destruct (decide (f = 2 ^ 31)) as [->|].
  - assert (E : field_usage p (2 ^ 31) = None); [|by rewrite E].
    unfold field_usage. rewrite Hr. destruct (Z.ltb_spec 0 (Z.of_nat (length (mp_usages p)))); [|lia].
    change (s32 (2 ^ 31)) with (- 2 ^ 31). destruct (Z.ltb_spec (- 2 ^ 31) (Z.of_nat (length (mp_usages p)))); [|lia]. done.
  - destruct (field_usage_ok p f) as [[u|] Hfu]; [lia| |].
    + rewrite Hfu. cbn [mbind option_bind]. destruct (note_field p base data f u lk out) as [lk' out']. apply IH; lia.
    + exfalso. unfold field_usage in Hfu. rewrite Hr in Hfu. destruct (Z.ltb_spec 0 (Z.of_nat (length (mp_usages p)))); [|lia].
      destruct (mp_usages p !!z _); by simplify_eq/=.
Qed.

Lemma input_item_huge p data : length (mp_bit_offsets p) = 256%nat → 0 <= mp_report_id p < 256 →
  0 <= mp_mouse_depth p → has_flag data 2 = true → has_flag data 1 = false → mp_locked p = false → 0 < mp_report_size p <= 32 →
  mp_have_range p = false → 0 < Z.of_nat (length (mp_usages p)) → 2 ^ 31 < mp_report_count p →
  hid_input_item p data = None.
Proof.
  intros Lo Hid Hm Hv Hc Hl Hs Hr Hu Hn. unfold hid_input_item.
  destruct (lookupZ_lt_is_Some (mp_bit_offsets p) (mp_report_id p)) as [base Hb]; [lia|]. rewrite Hb. cbn [mbind option_bind].
  rewrite updateZ_is_Some by lia. cbn [mbind option_bind]. rewrite Hv, Hc, Hl.
  destruct (Z.leb_spec 0 (mp_mouse_depth p)), (Z.ltb_spec 0 (mp_report_size p)), (Z.leb_spec (mp_report_size p) 32); try lia.
  cbn [andb orb negb]. rewrite huge_count_reads_outside; [done|done|done|lia|lia].
Qed.

Lemma hid_items_app p l1 l2 : hid_items p (l1 ++ l2) = (p' ← hid_items p l1; hid_items p' l2).
Proof. revert p. induction l1 as [|item l1 IH]; intros p; [done|]. simpl. destruct (hid_item p item); [apply IH|done]. Qed.

Lemma input_item_wrong p size data : hid_input_item p data = None → hid_item p (size, 0, 8, data) = None.
Proof. intros E. unfold hid_item. cbn [Z.eqb]. unfold hid_main, hid_main_tag. destruct p. cbn [Z.eqb Pos.eqb]. by rewrite E. Qed.

(** A report count of 0x80000001 in a descriptor of 17 bytes. *)
Definition bad_desc : list Z :=
  [0x05; 0x01; 0x09; 0x02; 0xA1; 0x01; 0x09; 0x30; 0x75; 0x08; 0x97; 0x01; 0x00; 0x00; 0x80; 0x81; 0x06].

Definition bad_state : hid_parser := Eval vm_compute in default parser_start (hid_items parser_start (take 6 (scan bad_desc))).

Lemma fold_goes_wrong p l p1 item : hid_items p l = Some p1 → hid_item p1 item = None → hid_items p (l ++ [item]) = None.
Proof. intros E1 E2. rewrite hid_items_app, E1. cbn [mbind option_bind hid_items]. by rewrite E2. Qed.

Lemma bad_state_reached : hid_items parser_start (take 6 (scan bad_desc)) = Some bad_state.
Proof. vm_compute. reflexivity. Qed.
Lemma bad_desc_items : scan_from (length bad_desc) bad_desc 0 = take 6 (scan bad_desc) ++ [(1, 0, 8, 6)].
Proof. vm_compute. reflexivity. Qed.
Lemma bad_item : hid_item bad_state (1, 0, 8, 6) = None.
Proof.
  apply input_item_wrong, input_item_huge.
  1: vm_compute; reflexivity.
  all: unfold bad_state; cbn [mp_bit_offsets mp_report_id mp_mouse_depth mp_locked mp_report_size mp_have_range mp_usages mp_report_count length]; done || lia.
Qed.
Lemma bad_desc_bytes : bytes bad_desc.
Proof. unfold bytes, is_byte, bad_desc. repeat (apply list.Forall_cons; split; [lia|]). apply list.Forall_nil_2. Qed.

Lemma bad_desc_goes_wrong : usb_hid_parse_mouse_layout bad_desc (Z.of_nat (length bad_desc)) = None.
Proof.
  unfold usb_hid_parse_mouse_layout. rewrite Nat2Z.id, parse_is_fold; [|exact bad_desc_bytes|lia|lia].
  rewrite bad_desc_items. by rewrite (fold_goes_wrong _ _ _ _ bad_state_reached bad_item).
Qed.
