(* ===== verification/RamfsTar.v ===== *)
(** * kernel/filesystem/ramfs.c: the modules of the boot loader

    The boot loader leaves files in memory.  Archives (.tar) are unpacked into the root,
    any other file becomes one under /modules.  The archive is a list of bytes, read at
    positions: a read outside it is a run that goes wrong.  The files are made through
    the interface [VfsApi]; the response of the boot loader is an argument.  The loop
    over an archive takes at least 512 bytes per turn.

    [tar_entries] reads an archive as a list of entries; extraction is [extract_entry] on
    each of them in turn ([extract_loop_entries]), and what [tar_archive] writes is read
    back ([tar_archive_unpacked]). *)
From S2P Require Import Prelude RawMem Pmm Heap VfsTypes Ramfs Vfs Task TaskRing Sched SchedOps FsKcalls VfsInst FdTable.
Local Open Scope kernel_scope.

Definition dot : ascii := "."%char.

(** ** Reading a header *)

(** [kernel/filesystem/ramfs.c: tar_octal] *)
Fixpoint tar_octal (n : nat) (data : list Z) (p v : Z) : option Z :=
  match n with
  | O => Some v
  | S n' =>
    c ← data !!z p;
    if (48 <=? c) && (c <=? 55) then tar_octal n' data (p + 1) (u64 (v * 8 + (c - 48))) else Some v
  end.

(** The characters at [p], up to [n] and up to a NUL, behind [raw], which has room for 255.
    [kernel/filesystem/ramfs.c: tar_entry_path 264-270] *)
Fixpoint raw_name (n : nat) (data : list Z) (p : Z) (raw : str) : option str :=
  match n with
  | O => Some raw
  | S n' =>
    c ← data !!z p;
    if (c =? 0) || (Z.of_nat VFS_PATH_MAX - 1 <=? strlenZ raw) then Some raw
    else raw_name n' data (p + 1) (raw ++ [char_of c])
  end.

(** [kernel/filesystem/ramfs.c: tar_entry_path 274-275] *)
Fixpoint skip_dot_slash (n : nat) (p : str) : str :=
  match n with
  | O => p
  | S n' =>
    match p with
    | c :: d :: p' => if bool_decide (c = dot) && bool_decide (d = slash) then skip_dot_slash n' p' else p
    | _ => p
    end
  end.
(** [kernel/filesystem/ramfs.c: tar_entry_path 276-277] *)
Fixpoint skip_leading (p : str) : str :=
  match p with c :: p' => if bool_decide (c = slash) then skip_leading p' else p | [] => [] end.
(** [kernel/filesystem/ramfs.c: tar_entry_path 279-281] *)
Fixpoint trim_length (n : nat) (p : str) : nat :=
  match n with
  | O => O
  | S n' => if bool_decide (p !! n' = Some slash) then trim_length n' p else n
  end.

(** [Some None] when the entry has no usable name.
    [kernel/filesystem/ramfs.c: tar_entry_path] *)
Definition tar_entry_path (data : list Z) (hdr : Z) : option (option str) :=
  magic ← read_range data (hdr + 257) 5;
  raw ← (if decide (magic = [117; 115; 116; 97; 114]) then
           c ← data !!z (hdr + 345);
           if c =? 0 then Some []
           else
             raw ← raw_name 155 data (hdr + 345) [];
             Some (if strlenZ raw <? Z.of_nat VFS_PATH_MAX - 1 then raw ++ [slash] else raw)
         else Some []);
  raw ← raw_name 100 data hdr raw;
  let p := skip_leading (skip_dot_slash (length raw) raw) in
  let len := trim_length (length p) p in
  if (len =? 0)%nat || (VFS_PATH_MAX <? len + 2)%nat || ((len =? 1)%nat && bool_decide (head p = Some dot)) then Some None
  else Some (Some (slash :: take len p)).

(** [kernel/filesystem/ramfs.c: basename_of] *)
Fixpoint basename_of (path last : str) : str :=
  match path with
  | [] => last
  | c :: path' => basename_of path' (if bool_decide (c = slash) then path' else last)
  end.

Definition dot_tar : str := to_str ".tar".
(** The test of both functions on a module's name.
    [kernel/filesystem/ramfs.c: ramfs_load_limine_modules 360-361] *)
Definition is_tar (base : str) : bool :=
  (4 <? length base)%nat && bool_decide (drop (length base - 4) base = dot_tar).

(** ** Unpacking *)

Section Loader.
Context {S : Type} `{VA : VfsApi S}.

(** [kernel/filesystem/ramfs.c: ramfs_mkdirs] *)
Definition ramfs_mkdirs (path : str) : M S unit :=
  if (VFS_PATH_MAX <=? length path)%nat then mret tt
  else
    for_range (length path) 1 (λ i,
      if bool_decide (path !! Z.to_nat i = Some slash) || (i =? strlenZ path) then
        let buf := take (Z.to_nat i) path in
        node ← va_resolve buf;
        if node =? 0 then va_mkdir buf;; mret tt else mret tt
      else mret tt).

(** The directory of a path: what is before its last slash.
    [kernel/filesystem/ramfs.c: ramfs_extract_tar 315-321] *)
Definition tar_parent (path : str) : str := take (last_slash path 0 0) path.

(** A new file with the given contents, and whether it could be opened.
    [kernel/filesystem/ramfs.c: ramfs_extract_tar 325-331] *)
Definition extract_file (path : str) (bs : list Z) : M S Z :=
  r ← va_open path (Z.lor VFS_O_WRONLY VFS_O_CREAT);
  match r with
  | (rc, f) =>
    if rc =? 0 then
      f ← lift f;
      w ← va_write f bs;
      va_close (snd w);;
      mret 1
    else mret 0
  end.

(** [kernel/filesystem/ramfs.c: ramfs_extract_tar 309-332] *)
Definition extract_one (data : list Z) (off file_size type : Z) (path : str) : M S Z :=
  if type =? 53 then ramfs_mkdirs path;; mret 0
  else if (type =? 48) || (type =? 0) then
    let parent := tar_parent path in
    (match parent with [] => mret tt | _ => ramfs_mkdirs parent end);;
    bs ← lift (read_range data off file_size);
    extract_file path bs
  else mret 0.

(** [kernel/filesystem/ramfs.c: ramfs_extract_tar 296-336] *)
Fixpoint extract_loop (n : nat) (data : list Z) (size off files : Z) : M S Z :=
  if u64 (off + 512) <=? size then
    match n with
    | O => fail
    | Datatypes.S n' =>
      c ← lift (data !!z off);
      if c =? 0 then mret files
      else
        file_size ← lift (tar_octal 12 data (off + 124) 0);
        type ← lift (data !!z (off + 156));
        let hdr := off in
        let off := u64 (off + 512) in
        path ← lift (tar_entry_path data hdr);
        files ← (match path with
                 | Some path =>
                   if u64 (off + file_size) <=? size then
                     k ← extract_one data off file_size type path; mret (files + k)
                   else mret files
                 | None => mret files
                 end);
        extract_loop n' data size (u64 (off + Z.land (u64 (file_size + 511)) (2 ^ 64 - 512))) files
    end
  else mret files.

(** [kernel/filesystem/ramfs.c: ramfs_extract_tar] *)
Definition ramfs_extract_tar (data : list Z) (size : Z) : M S Z :=
  extract_loop (Datatypes.S (Z.to_nat (size / 512))) data size 0 0.

(** ** The modules *)

(** A module: its path, if there is one, and its bytes. *)
Record limine_file := MkLimineFile { mod_path : option str; mod_data : list Z }.
Definition modules_prefix : str := to_str "/modules/".

(** [kernel/filesystem/ramfs.c: ramfs_load_limine_modules 369-404] *)
Definition load_module (mod_data : list Z) (base : str) : M S Z :=
  ramfs_mkdirs (to_str "/modules");;
  if (VFS_PATH_MAX <=? length modules_prefix + length base)%nat then mret 0
  else
    r ← va_open (modules_prefix ++ base) (Z.lor VFS_O_WRONLY VFS_O_CREAT);
    match r with
    | (rc, f) =>
      if negb (rc =? 0) then mret 0
      else
        f ← lift f;
        w ← va_write f mod_data;
        va_close (snd w);;
        if (fst w <? 0) || negb (u64 (fst w) =? Z.of_nat (length mod_data)) then mret 0 else mret 1
    end.

(** [kernel/filesystem/ramfs.c: ramfs_load_limine_modules 352-405] *)
Fixpoint load_modules (mods : list (option limine_file)) (loaded : Z) : M S Z :=
  match mods with
  | [] => mret loaded
  | m :: mods' =>
    match m with
    | Some (MkLimineFile (Some path) data) =>
      let base := basename_of path path in
      k ← (if is_tar base then ramfs_extract_tar data (Z.of_nat (length data));; mret 1 else load_module data base);
      load_modules mods' (loaded + k)
    | _ => load_modules mods' loaded
    end
  end.

(** [kernel/filesystem/ramfs.c: ramfs_load_limine_modules] *)
Definition ramfs_load_limine_modules (response : option (list (option limine_file))) : M S Z :=
  match response with None => mret (-1) | Some mods => load_modules mods 0 end.
End Loader.

(** [kernel/filesystem/ramfs.c: ramfs_has_boot_image] *)
Definition ramfs_has_boot_image (response : option (list (option limine_file))) : bool :=
  match response with
  | None => false
  | Some mods =>
    existsb (λ m, match m with Some (MkLimineFile (Some path) _) => is_tar (basename_of path path) | _ => false end) mods
  end.

(** ** An archive as a list of entries *)

Inductive tar_entry := TarDir (path : str) | TarFile (path : str) (bs : list Z).

Definition entry_of (data : list Z) (off file_size type : Z) (path : str) : option (list tar_entry) :=
  if type =? 53 then Some [TarDir path]
  else if (type =? 48) || (type =? 0) then bs ← read_range data off file_size; Some [TarFile path bs]
  else Some [].

(** The entries from [off] on. *)
Fixpoint tar_scan (n : nat) (data : list Z) (off : Z) : option (list tar_entry) :=
  let size := Z.of_nat (length data) in
  if off + 512 <=? size then
    match n with
    | O => None
    | Datatypes.S n' =>
      c ← data !!z off;
      if c =? 0 then Some []
      else
        file_size ← tar_octal 12 data (off + 124) 0;
        type ← data !!z (off + 156);
        path ← tar_entry_path data off;
        e ← (match path with
             | Some path => if off + 512 + file_size <=? size then entry_of data (off + 512) file_size type path else Some []
             | None => Some []
             end);
        es ← tar_scan n' data (off + 512 + (file_size + 511) / 512 * 512);
        Some (e ++ es)
    end
  else Some [].
Definition tar_entries (data : list Z) : option (list tar_entry) :=
  tar_scan (Datatypes.S (Z.to_nat (Z.of_nat (length data) / 512))) data 0.

(** What unpacking does with an entry. *)
Definition extract_entry {S} `{VfsApi S} (e : tar_entry) : M S Z :=
  match e with
  | TarDir path => ramfs_mkdirs path;; mret 0
  | TarFile path bs =>
    (match tar_parent path with [] => mret tt | parent => ramfs_mkdirs parent end);;
    extract_file path bs
  end.
Fixpoint extract_entries {S} `{VfsApi S} (es : list tar_entry) (files : Z) : M S Z :=
  match es with [] => mret files | e :: es' => k ← extract_entry e; extract_entries es' (files + k) end.

(** ** Lemmas: reading stays inside the archive *)
Lemma lookupZ_in (l : list Z) i : 0 <= i < Z.of_nat (length l) → ∃ x, l !!z i = Some x.
Proof. apply lookupZ_lt_is_Some. Qed.

Lemma tar_octal_ok n data p v k : 0 <= p → p + Z.of_nat n <= Z.of_nat (length data) → 0 <= v < 8 ^ k → 0 <= k → k + Z.of_nat n <= 20 →
  ∃ r, tar_octal n data p v = Some r ∧ 0 <= r < 8 ^ (k + Z.of_nat n).
Proof.
  revert p v k. induction n as [|n IH]; intros p v k Hp Hl Hv Hk Hn; cbn [tar_octal]; [by exists v; rewrite Z.add_0_r|].
  destruct (lookupZ_in data p) as [c Hc]; [lia|]. rewrite Hc. cbn [mbind option_bind].
  destruct (Z.leb_spec 48 c), (Z.leb_spec c 55); cbn [andb].
  1: { assert (E8 : 8 ^ (k + 1) = 8 * 8 ^ k) by (rewrite Z.pow_add_r by lia; lia).
       assert (8 ^ (k + 1) <= 8 ^ 20) by (apply Z.pow_le_mono_r; lia).
       rewrite u64_small by lia. destruct (IH (p + 1) (v * 8 + (c - 48)) (k + 1)) as (r & -> & Hr); [lia|lia|lia|lia|lia|].
       exists r. split; [done|]. by replace (k + Z.of_nat (Datatypes.S n)) with (k + 1 + Z.of_nat n) by lia. }
  all: exists v; (split; [done|]); assert (8 ^ k <= 8 ^ (k + Z.of_nat (Datatypes.S n))) by (apply Z.pow_le_mono_r; lia); lia.
Qed.

Lemma raw_name_ok n data p raw : 0 <= p → p + Z.of_nat n <= Z.of_nat (length data) → ∃ r, raw_name n data p raw = Some r.
Proof.
  revert p raw. induction n as [|n IH]; intros p raw Hp Hl; cbn [raw_name]; [by eexists|].
  destruct (lookupZ_in data p) as [c Hc]; [lia|]. rewrite Hc. cbn [mbind option_bind].
  destruct (_ || _); [by eexists|]. apply IH; lia.
Qed.

Lemma tar_entry_path_ok data hdr : 0 <= hdr → hdr + 512 <= Z.of_nat (length data) → ∃ r, tar_entry_path data hdr = Some r.
Proof.
  intros Hh Hl. unfold tar_entry_path. destruct (read_range_Some data (hdr + 257) 5) as [magic ->]; [lia|lia|]. cbn [mbind option_bind].
  assert (Pre : ∃ raw, (if decide (magic = [117; 115; 116; 97; 114]) then
           c ← data !!z (hdr + 345);
           if c =? 0 then Some []
           else
             raw ← raw_name 155 data (hdr + 345) [];
             Some (if strlenZ raw <? Z.of_nat VFS_PATH_MAX - 1 then raw ++ [slash] else raw)
         else Some []) = Some raw).
  { destruct (decide _); [|by eexists]. destruct (lookupZ_in data (hdr + 345)) as [c ->]; [lia|]. cbn [mbind option_bind].
    destruct (c =? 0); [by eexists|]. destruct (raw_name_ok 155 data (hdr + 345) []) as [r ->]; [lia|lia|]. by eexists. }
  destruct Pre as [raw ->]. cbn [mbind option_bind]. destruct (raw_name_ok 100 data hdr raw) as [r ->]; [lia|lia|]. cbn [mbind option_bind].
  destruct (_ || _); by eexists.
Qed.

(** The positions of the next header. *)
Lemma block_up f : 0 <= f < 2 ^ 36 → Z.land (u64 (f + 511)) (2 ^ 64 - 512) = (f + 511) / 512 * 512.
Proof.
  intros Hf. rewrite u64_small by lia. change (2 ^ 64 - 512) with (Z.shiftl (Z.ones 55) 9).
  assert (E : Z.land (f + 511) (Z.shiftl (Z.ones 55) 9) = Z.shiftl (Z.land (Z.shiftr (f + 511) 9) (Z.ones 55)) 9).
  { apply Z.bits_inj'. intros i Hi. rewrite Z.land_spec, !Z.shiftl_spec by done. destruct (decide (9 <= i)).
    - rewrite Z.land_spec, Z.shiftr_spec by lia. by replace (i - 9 + 9) with i by lia.
    - rewrite !(Z.testbit_neg_r _ (i - 9)) by lia. apply andb_false_r. }
  rewrite E, Z.shiftl_mul_pow2, Z.land_ones, Z.shiftr_div_pow2 by lia. change (2 ^ 9) with 512. f_equal. apply Z.mod_small.
  split; [apply Z.div_pos; lia|]. apply Z.div_lt_upper_bound; lia.
Qed.

Lemma tar_scan_total n data off : 0 <= off → Z.of_nat (length data) < off + 512 * (Z.of_nat n) → ∃ es, tar_scan n data off = Some es.
Proof.
  revert off. induction n as [|n IH]; intros off Ho Hn; cbn [tar_scan]; destruct (Z.leb_spec (off + 512) (Z.of_nat (length data))); try (by eexists); [lia|].
  destruct (lookupZ_in data off) as [c ->]; [lia|]. cbn [mbind option_bind]. destruct (c =? 0); [by eexists|].
  destruct (tar_octal_ok 12 data (off + 124) 0 0) as (fsz & -> & Hf); [lia|lia|lia|lia|lia|]. cbn [mbind option_bind].
  destruct (lookupZ_in data (off + 156)) as [type ->]; [lia|]. cbn [mbind option_bind].
  destruct (tar_entry_path_ok data off) as [path ->]; [lia|lia|]. cbn [mbind option_bind].
  assert (E : ∃ e, (match path with
     | Some path => if off + 512 + fsz <=? Z.of_nat (length data) then entry_of data (off + 512) fsz type path else Some []
     | None => Some [] end) = Some e).
  { destruct path as [path|]; [|by eexists]. destruct (Z.leb_spec (off + 512 + fsz) (Z.of_nat (length data))); [|by eexists].
    unfold entry_of. destruct (type =? 53); [by eexists|]. destruct (_ || _); [|by eexists].
    destruct (read_range_Some data (off + 512) fsz) as [bs ->]; [lia|lia|]. by eexists. }
  destruct E as [e ->]. cbn [mbind option_bind].
  assert (0 <= (fsz + 511) / 512) by (apply Z.div_pos; lia).
  destruct (IH (off + 512 + (fsz + 511) / 512 * 512)) as [es ->]; [lia|lia|]. by eexists.
Qed.

Lemma tar_entries_total data : ∃ es, tar_entries data = Some es.
Proof. apply tar_scan_total; [lia|]. Z.to_euclidean_division_equations. lia. Qed.

(** ** Unpacking is extracting the entries *)
Section Entries.
Context {S : Type} `{VA : VfsApi S}.

Lemma extract_one_entry data off fsz type path e files (s : S) :
  entry_of data off fsz type path = Some e →
  (k ← extract_one data off fsz type path; mret (files + k)) s = extract_entries e files s.
Proof.
  unfold entry_of, extract_one. destruct (type =? 53).
  { intros E. injection E as <-. cbn [extract_entries extract_entry]. unfold mbind, M_bind. by destruct (ramfs_mkdirs path s) as [[[] s']|]. }
  destruct (_ || _).
  - destruct (read_range data off fsz) as [bs|]; [|done]. intros E. injection E as <-. cbn [extract_entries extract_entry].
    destruct (tar_parent path) as [|c p]; unfold mbind, M_bind, lift, mret, M_ret; [done|].
    destruct (ramfs_mkdirs (c :: p) s) as [[[] s']|]; done.
  - intros E. injection E as <-. cbn [extract_entries]. unfold mbind, M_bind, mret, M_ret. by rewrite Z.add_0_r.
Qed.

Lemma extract_entries_app es es' files (s : S) :
  extract_entries (es ++ es') files s = (files' ← extract_entries es files; extract_entries es' files') s.
Proof.
  revert files s. induction es as [|e es IH]; intros files s; [done|]. cbn [app extract_entries].
  unfold mbind, M_bind in *. destruct (extract_entry e s) as [[k s']|]; [|done]. apply IH.
Qed.

Lemma extract_loop_entries n data off files es (s : S) :
  0 <= off → Z.of_nat (length data) < 2 ^ 62 → off < 2 ^ 63 → tar_scan n data off = Some es →
  extract_loop n data (Z.of_nat (length data)) off files s = extract_entries es files s.
Proof.
  intros Ho Hl. revert off files es s Ho. induction n as [|n IH]; intros off files es s Ho Hof; cbn [tar_scan extract_loop];
    rewrite (u64_small (off + 512)) by lia; destruct (Z.leb_spec (off + 512) (Z.of_nat (length data)));
    try (intros E; by injection E as <-); [done|].
  destruct (data !!z off) as [c|]; [|done]. cbn [mbind option_bind]. destruct (c =? 0) eqn:Ec.
  { intros E. injection E as <-. unfold mbind, M_bind, lift. by rewrite Ec. }
  destruct (tar_octal_ok 12 data (off + 124) 0 0) as (fsz & Efs & Hfs); [lia|lia|lia|lia|lia|]. rewrite Efs. cbn [mbind option_bind].
  change (8 ^ (0 + Z.of_nat 12)) with (2 ^ 36) in Hfs.
  destruct (data !!z (off + 156)) as [type|] eqn:Et; [|done]. cbn [mbind option_bind].
  destruct (tar_entry_path data off) as [path|] eqn:Ep; [|done]. cbn [mbind option_bind].
  set (eo := match path with Some path => _ | None => _ end). destruct eo as [e|] eqn:Ee; [|done]. cbn [mbind option_bind].
  destruct (tar_scan n data _) as [es'|] eqn:Es; [|done]. cbn [mbind option_bind]. intros E. injection E as <-.
  rewrite extract_entries_app. unfold mbind at 1, M_bind at 1, lift at 1. rewrite Ec.
  unfold mbind at 1, M_bind at 1, lift at 1. unfold mbind at 1, M_bind at 1, lift at 1. cbv zeta.
  unfold mbind at 1, M_bind at 1, lift at 1.
  assert (B : (match path with
     | Some path => if u64 (off + 512 + fsz) <=? Z.of_nat (length data) then k ← extract_one data (off + 512) fsz type path; mret (files + k) else mret files
     | None => mret files end) s = extract_entries e files s).
  { rewrite u64_small by lia. unfold eo in Ee. destruct path as [path|]; [|by injection Ee as <-].
    destruct (off + 512 + fsz <=? Z.of_nat (length data)); [by apply extract_one_entry|by injection Ee as <-]. }
  unfold mbind at 1, M_bind at 1. rewrite B. unfold mbind, M_bind. destruct (extract_entries e files s) as [[files' s']|]; [|done].
  rewrite block_up, (u64_small (off + 512 + _)) by (lia || (Z.to_euclidean_division_equations; lia)).
  apply IH; [|Z.to_euclidean_division_equations; lia|exact Es]. assert (0 <= (fsz + 511) / 512) by (apply Z.div_pos; lia). lia.
Qed.
End Entries.

(** ** Safety *)

(** What is a file of the archive is no longer than the archive. *)
Definition short_entry (n : Z) (e : tar_entry) : Prop := match e with TarDir _ => True | TarFile _ bs => Z.of_nat (length bs) <= n end.

Lemma tar_octal_nonneg n data p v r : 0 <= v → tar_octal n data p v = Some r → 0 <= r.
Proof.
  revert p v. induction n as [|n IH]; intros p v Hv; cbn [tar_octal]; [intros E; by injection E as <-|].
  destruct (data !!z p) as [c|]; [|done]. cbn [mbind option_bind]. destruct (_ && _); [apply IH; apply u64_range|]. intros E. by injection E as <-.
Qed.

Lemma tar_scan_short n data off es : 0 <= off → tar_scan n data off = Some es → Forall (short_entry (Z.of_nat (length data))) es.
Proof.
  revert off es. induction n as [|n IH]; intros off es Ho; cbn [tar_scan]; destruct (_ <=? _);
    try (intros E; injection E as <-; apply list.Forall_nil_2); [done|].
  destruct (data !!z off) as [c|]; [|done]. cbn [mbind option_bind]. destruct (c =? 0); [intros E; injection E as <-; apply list.Forall_nil_2|].
  destruct (tar_octal 12 data (off + 124) 0) as [fsz|] eqn:Eo; [|done]. cbn [mbind option_bind].
  destruct (data !!z (off + 156)) as [type|]; [|done]. cbn [mbind option_bind].
  destruct (tar_entry_path data off) as [path|]; [|done]. cbn [mbind option_bind].
  set (eo := match path with Some path => _ | None => _ end). destruct eo as [e|] eqn:Ee; [|done]. cbn [mbind option_bind].
  destruct (tar_scan n data _) as [es'|] eqn:Es; [|done]. intros E. injection E as <-. apply list.Forall_app. split.
  - unfold eo, entry_of in Ee. destruct path as [path|]; [|injection Ee as <-; apply list.Forall_nil_2].
    destruct (_ <=? _); [|injection Ee as <-; apply list.Forall_nil_2]. destruct (type =? 53).
    { injection Ee as <-. by repeat constructor. }
    destruct (_ || _); [|injection Ee as <-; apply list.Forall_nil_2]. destruct (read_range data (off + 512) fsz) as [bs|] eqn:Er; [|done].
    injection Ee as <-. apply list.Forall_cons. split; [|apply list.Forall_nil_2]. simpl. unfold read_range in Er.
    destruct (_ && _); [|done]. injection Er as <-. rewrite length_take, length_drop. lia.
  - pose proof (tar_octal_nonneg _ _ _ _ _ (Z.le_refl 0) Eo).
    eapply IH; [|exact Es]. assert (0 <= (fsz + 511) / 512) by (apply Z.div_pos; lia). lia.
Qed.

Section Safe.
Context {H F : Type} `{KM : KernelMem H} `{VA : VfsApi (H * F)} {VL : VfsLaws H F}.
Context (R B : list (Z * Z)) (fs : list VFile) (Hfs : (length fs < FD_MAX)%nat).
Implicit Types w : H * F.

Lemma ramfs_mkdirs_wp path w : vl_inv R B fs w → wp (ramfs_mkdirs path) (λ _ w', vl_inv R B fs w') w.
Proof using Type.
  intros I. unfold ramfs_mkdirs. destruct (_ <=? _)%nat; [by wp_steps|].
  apply (wp_for_range _ _ _ (λ _ w', vl_inv R B fs w')); [exact I|]. intros i w1 _ I1.
  destruct (_ || _); [|by wp_steps]. cbv zeta. apply wp_bind. eapply wp_mono; [by apply (vl_resolve R B fs)|]. intros node w2 I2.
  destruct (node =? 0); [|by wp_steps]. apply wp_bind. eapply wp_mono; [by apply (vl_mkdir R B fs)|]. intros r w3 I3. by wp_steps.
Qed.

Lemma extract_file_wp path bs w : Z.of_nat (length bs) < 2 ^ 63 → vl_inv R B fs w →
  wp (extract_file path bs) (λ k w', vl_inv R B fs w' ∧ 0 <= k <= 1) w.
Proof using Hfs.
  intros Hb I. unfold extract_file. apply wp_bind. eapply wp_mono; [by apply (vl_open R B fs)|]. intros [rc f] w1 Hr. cbn [fst snd] in Hr.
  destruct (rc =? 0); [|by wp_steps]. destruct Hr as (f' & -> & Ho & I1). apply wp_bind. eapply wp_lift; [done|].
  apply wp_bind. eapply wp_mono; [apply (vl_write R B fs); [exact I1|by rewrite Ho]|]. intros [n f2] w2 I2. cbn [snd] in *.
  apply wp_bind. eapply wp_mono; [by apply (vl_close R B fs)|]. intros r w3 I3. by wp_steps.
Qed.

Lemma extract_entry_wp e w : short_entry (2 ^ 63 - 1) e → vl_inv R B fs w → wp (extract_entry e) (λ k w', vl_inv R B fs w' ∧ 0 <= k <= 1) w.
Proof using Hfs.
  intros Hs I. destruct e as [path|path bs]; cbn [extract_entry].
  - apply wp_bind. eapply wp_mono; [by apply ramfs_mkdirs_wp|]. intros u w1 I1. by wp_steps.
  - simpl in Hs. apply wp_bind. assert (G : wp (match tar_parent path with [] => mret tt | parent => ramfs_mkdirs parent end) (λ _ w', vl_inv R B fs w') w).
    { destruct (tar_parent path); [by wp_steps|]. by apply ramfs_mkdirs_wp. }
    eapply wp_mono; [exact G|]. intros u w1 I1. by apply extract_file_wp; [lia|].
Qed.

Lemma extract_entries_wp es files w : Forall (short_entry (2 ^ 63 - 1)) es → vl_inv R B fs w →
  wp (extract_entries es files) (λ k w', vl_inv R B fs w' ∧ files <= k <= files + Z.of_nat (length es)) w.
Proof using Hfs.
  revert files w. induction es as [|e es IH]; intros files w Fe I; cbn [extract_entries]; [wp_steps; split; [done|simpl; lia]|].
  apply list.Forall_cons in Fe as [He Fe]. apply wp_bind. eapply wp_mono; [by apply extract_entry_wp|]. intros k w1 [I1 Hk].
  eapply wp_mono; [by apply IH|]. intros k' w2 [I2 Hk']. split; [done|]. simpl. lia.
Qed.

Lemma ramfs_extract_tar_wp data w : Z.of_nat (length data) < 2 ^ 62 → vl_inv R B fs w →
  wp (ramfs_extract_tar data (Z.of_nat (length data))) (λ k w', vl_inv R B fs w' ∧ 0 <= k) w.
Proof using Hfs.
  intros Hd I. destruct (tar_entries_total data) as [es Hes].
  unfold wp, ramfs_extract_tar. rewrite (extract_loop_entries _ data 0 0 es w); [|lia|done|lia|exact Hes].
  assert (Fs : Forall (short_entry (2 ^ 63 - 1)) es).
  { pose proof (tar_scan_short _ data 0 es (Z.le_refl 0) Hes) as F0. rewrite list.Forall_forall in *.
    intros e He. specialize (F0 e He). destruct e; simpl in *; lia. }
  pose proof (extract_entries_wp es 0 w Fs I) as G. eapply wp_mono in G; [exact G|]. intros k w' [I' Hk]. split; [done|lia].
Qed.

Lemma load_module_wp data base w : Z.of_nat (length data) < 2 ^ 62 → vl_inv R B fs w →
  wp (load_module data base) (λ k w', vl_inv R B fs w' ∧ 0 <= k <= 1) w.
Proof using Hfs.
  intros Hd I. unfold load_module. apply wp_bind. eapply wp_mono; [by apply ramfs_mkdirs_wp|]. intros u w1 I1.
  destruct (_ <=? _)%nat; [by wp_steps|]. apply wp_bind. eapply wp_mono; [by apply (vl_open R B fs)|]. intros [rc f] w2 Hr. cbn [fst snd] in Hr.
  destruct (rc =? 0); cbn [negb]; [|by wp_steps]. destruct Hr as (f' & -> & Ho & I2). apply wp_bind. eapply wp_lift; [done|].
  apply wp_bind. eapply wp_mono; [apply (vl_write R B fs); [exact I2|rewrite Ho; lia]|]. intros [n f2] w3 I3. cbn [snd fst] in *.
  apply wp_bind. eapply wp_mono; [by apply (vl_close R B fs)|]. intros r w4 I4. destruct (_ || _); by wp_steps.
Qed.

Definition small_modules (mods : list (option limine_file)) : Prop :=
  Forall (λ m, match m with Some m => Z.of_nat (length (mod_data m)) < 2 ^ 62 | None => True end) mods.

Lemma load_modules_wp mods loaded w : small_modules mods → vl_inv R B fs w →
  wp (load_modules mods loaded) (λ k w', vl_inv R B fs w' ∧ loaded <= k <= loaded + Z.of_nat (length mods)) w.
Proof using Hfs.
  revert loaded w. induction mods as [|m mods IH]; intros loaded w Hm I; cbn [load_modules]; [wp_steps; split; [done|simpl; lia]|].
  apply list.Forall_cons in Hm as [H1 Hm].
  assert (Skip : ∀ w, vl_inv R B fs w → wp (load_modules mods loaded) (λ k w', vl_inv R B fs w' ∧ loaded <= k <= loaded + Z.of_nat (length (m :: mods))) w).
  { intros w1 I1. eapply wp_mono; [by apply IH|]. intros k w2 [I2 Hk]. split; [done|]. simpl. lia. }
  destruct m as [[[path|] data]|]; [|by apply Skip|by apply Skip]. cbv zeta. simpl in H1. apply wp_bind.
  assert (G : wp (if is_tar (basename_of path path) then ramfs_extract_tar data (Z.of_nat (length data));; mret 1 else load_module data (basename_of path path))
    (λ k w', vl_inv R B fs w' ∧ 0 <= k <= 1) w).
  { destruct (is_tar _); [|by apply load_module_wp]. apply wp_bind. eapply wp_mono; [by apply ramfs_extract_tar_wp|]. intros k w1 [I1 _]. by wp_steps. }
  eapply wp_mono; [exact G|]. intros k w1 [I1 Hk]. eapply wp_mono; [by apply IH|]. intros k' w2 [I2 Hk']. split; [done|]. simpl. lia.
Qed.
End Safe.

(** ** What an archiver writes is read back *)

Fixpoint octal_digits (n : nat) (v : Z) : list Z :=
  match n with O => [] | Datatypes.S n' => octal_digits n' (v / 8) ++ [48 + v mod 8] end.
Definition zeros (n : nat) : list Z := replicate n 0.

(** A header in the ustar format: name, mode and owner, size, time and checksum, type,
    link, magic, the rest with an empty prefix. *)
Definition tar_header (name : str) (type size : Z) : list Z :=
  (map code_of name ++ zeros (100 - length name)) ++ zeros 24 ++ (octal_digits 11 size ++ [0]) ++ zeros 20 ++
  [type] ++ zeros 100 ++ [117; 115; 116; 97; 114] ++ zeros 250.

Definition pad_block (n : Z) : nat := Z.to_nat ((n + 511) / 512 * 512 - n).
Definition encode_entry (e : tar_entry) : list Z :=
  match e with
  | TarDir path => tar_header (tail path) 53 0
  | TarFile path bs => tar_header (tail path) 48 (Z.of_nat (length bs)) ++ bs ++ zeros (pad_block (Z.of_nat (length bs)))
  end.
(** The entries and two blocks of zeros. *)
Definition tar_archive (es : list tar_entry) : list Z := concat (map encode_entry es) ++ zeros 1024.

(** A relative path of less than 100 characters that begins and ends with a name and is not ".". *)
Definition clean_name (p : str) : Prop :=
  (0 < length p < 100)%nat ∧ Forall (λ c, code_of c ≠ 0) p ∧ head p ≠ Some slash ∧ list.last p ≠ Some slash ∧
  p ≠ [dot] ∧ take 2 p ≠ [dot; slash].
Definition valid_entry (e : tar_entry) : Prop :=
  let '(path, n) := match e with TarDir path => (path, 0) | TarFile path bs => (path, Z.of_nat (length bs)) end in
  n < 8 ^ 11 ∧ ∃ p, path = slash :: p ∧ clean_name p.

(** *** Segments of the data *)
Lemma seg_lookup {A} (a b c : list A) k : 0 <= k < Z.of_nat (length b) → (a ++ b ++ c) !!z (Z.of_nat (length a) + k) = b !!z k.
Proof.
  intros Hk. rewrite lookupZ_app_r by lia. replace (Z.of_nat (length a) + k - Z.of_nat (length a)) with k by lia.
  apply lookupZ_app_l; lia.
Qed.
Lemma seg_head {A} (a : list A) x c : (a ++ x :: c) !!z Z.of_nat (length a) = Some x.
Proof. rewrite lookupZ_app_r by lia. by rewrite Z.sub_diag. Qed.
Lemma seg_range (a b c : list Z) : read_range (a ++ b ++ c) (Z.of_nat (length a)) (Z.of_nat (length b)) = Some b.
Proof.
  unfold read_range. rewrite !length_app. destruct (Z.leb_spec 0 (Z.of_nat (length a))); [|lia].
  destruct (Z.leb_spec (Z.of_nat (length a) + Z.of_nat (length b)) (Z.of_nat (length a + (length b + length c)))); [|lia]. cbn [andb].
  rewrite !Nat2Z.id, drop_app_length, take_app_length. done.
Qed.

Lemma raw_name_seg n a name c raw : (length name < n)%nat → Forall (λ c, code_of c ≠ 0) name → strlenZ raw + strlenZ name <= 255 →
  raw_name n (a ++ map code_of name ++ 0 :: c) (Z.of_nat (length a)) raw = Some (raw ++ name).
Proof.
  revert n a raw. induction name as [|x name IH]; intros n a raw Hn Hz Hr; destruct n as [|n]; simpl in Hn; try lia; cbn [raw_name map app].
  - rewrite seg_head. cbn [mbind option_bind]. by rewrite app_nil_r.
  - apply list.Forall_cons in Hz as [Hx Hz]. rewrite seg_head. cbn [mbind option_bind].
    unfold strlenZ in *. simpl in Hr. destruct (Z.eqb_spec (code_of x) 0); [done|].
    destruct (Z.leb_spec (Z.of_nat VFS_PATH_MAX - 1) (Z.of_nat (length raw))) as [Hl|]; [unfold VFS_PATH_MAX in Hl; lia|]. cbn [orb].
    rewrite char_of_code. specialize (IH n (a ++ [code_of x]) (raw ++ [x])).
    rewrite <- !app_assoc, (length_app a) in IH. cbn [app length] in IH. rewrite Nat2Z.inj_add in IH.
    change (Z.of_nat 1) with 1 in IH. rewrite IH; [done|lia|done|]. rewrite length_app. simpl. lia.
Qed.

Definition octal_value (v : Z) (ds : list Z) : Z := foldl (λ v c, v * 8 + (c - 48)) v ds.

Lemma octal_value_ge v ds : 0 <= v → Forall (λ c, 48 <= c <= 55) ds → v <= octal_value v ds.
Proof.
  revert v. induction ds as [|d ds IH]; intros v Hv Hd; [simpl; lia|]. apply list.Forall_cons in Hd as [Hd Hds].
  change (octal_value v (d :: ds)) with (octal_value (v * 8 + (d - 48)) ds). specialize (IH (v * 8 + (d - 48)) ltac:(lia) Hds). lia.
Qed.

Lemma tar_octal_seg n a ds c v : (length ds < n)%nat → Forall (λ c, 48 <= c <= 55) ds → 0 <= v → octal_value v ds < 2 ^ 64 →
  tar_octal n (a ++ ds ++ 0 :: c) (Z.of_nat (length a)) v = Some (octal_value v ds).
Proof.
  revert n a v. induction ds as [|d ds IH]; intros n a v Hn Hd Hv Ho; destruct n as [|n]; simpl in Hn; try lia; cbn [tar_octal app].
  - rewrite seg_head. by cbn [mbind option_bind].
  - apply list.Forall_cons in Hd as [Hd Hds]. rewrite seg_head. cbn [mbind option_bind].
    destruct (Z.leb_spec 48 d), (Z.leb_spec d 55); try lia. cbn [andb].
    change (octal_value v (d :: ds)) with (octal_value (v * 8 + (d - 48)) ds) in *.
    pose proof (octal_value_ge (v * 8 + (d - 48)) ds ltac:(lia) Hds). rewrite u64_small by lia.
    specialize (IH n (a ++ [d]) (v * 8 + (d - 48))). rewrite <- !app_assoc, (length_app a) in IH. cbn [app length] in IH.
    rewrite Nat2Z.inj_add in IH. change (Z.of_nat 1) with 1 in IH. apply IH; [lia|done|lia|done].
Qed.

Lemma octal_digits_value n v acc : 0 <= v < 8 ^ Z.of_nat n → octal_value acc (octal_digits n v) = acc * 8 ^ Z.of_nat n + v.
Proof.
  revert v. induction n as [|n IH]; intros v Hv; [simpl in *; lia|]. cbn [octal_digits]. unfold octal_value. rewrite foldl_app.
  fold (octal_value acc (octal_digits n (v / 8))). rewrite Nat2Z.inj_succ, Z.pow_succ_r in * by lia. rewrite IH; cbn [foldl].
  - pose proof (Z.div_mod v 8). lia.
  - split; [apply Z.div_pos; lia|apply Z.div_lt_upper_bound; lia].
Qed.
Lemma octal_digits_ok n v : Forall (λ c, 48 <= c <= 55) (octal_digits n v).
Proof.
  revert v. induction n as [|n IH]; intros v; cbn [octal_digits]; [apply list.Forall_nil_2|]. apply list.Forall_app. split; [apply IH|].
  apply list.Forall_cons. split; [|apply list.Forall_nil_2]. pose proof (Z.mod_pos_bound v 8). lia.
Qed.
Lemma octal_digits_length n v : length (octal_digits n v) = n.
Proof. revert v. induction n as [|n IH]; intros v; [done|]. cbn [octal_digits]. rewrite length_app, IH. simpl. lia. Qed.

Lemma header_length name type size : (length name < 100)%nat → length (tar_header name type size) = 512%nat.
Proof.
  intros Hn. unfold tar_header, zeros. rewrite !length_app, !length_replicate, length_map, octal_digits_length. simpl. lia.
Qed.

(** *** The fields of a header *)
Section Header.
Context (a : list Z) (name : str) (type size : Z) (c : list Z) (Hn : (length name < 100)%nat).
Let data : list Z := a ++ tar_header name type size ++ c.
Let field0 : list Z := map code_of name ++ zeros (100 - length name).

Lemma field0_length : length field0 = 100%nat.
Proof using Hn. unfold field0, zeros. rewrite length_app, length_map, length_replicate. lia. Qed.

Lemma header_name : ∃ c', data = a ++ map code_of name ++ 0 :: c'.
Proof using Hn.
  unfold data, tar_header. destruct (100 - length name)%nat as [|k] eqn:E; [lia|].
  rewrite <- !app_assoc. cbn [zeros replicate app]. by eexists.
Qed.
Lemma header_size : ∃ a' c', data = a' ++ octal_digits 11 size ++ 0 :: c' ∧ length a' = (length a + 124)%nat.
Proof using Hn.
  exists (a ++ field0 ++ zeros 24). eexists. split; [unfold data, tar_header, field0; by rewrite <- !app_assoc|].
  rewrite !length_app, field0_length. unfold zeros. rewrite length_replicate. lia.
Qed.
Lemma header_type : ∃ a' c', data = a' ++ type :: c' ∧ length a' = (length a + 156)%nat.
Proof using Hn.
  exists (a ++ field0 ++ zeros 24 ++ (octal_digits 11 size ++ [0]) ++ zeros 20). eexists.
  split; [unfold data, tar_header, field0; by rewrite <- !app_assoc|].
  rewrite !length_app, field0_length, octal_digits_length. unfold zeros. rewrite !length_replicate. simpl. lia.
Qed.
Lemma header_magic : ∃ a' c', data = a' ++ [117; 115; 116; 97; 114] ++ zeros 250 ++ c' ∧ length a' = (length a + 257)%nat.
Proof using Hn.
  exists (a ++ field0 ++ zeros 24 ++ (octal_digits 11 size ++ [0]) ++ zeros 20 ++ [type] ++ zeros 100). exists c.
  split; [unfold data, tar_header, field0; by rewrite <- !app_assoc|].
  rewrite !length_app, field0_length, octal_digits_length. unfold zeros. rewrite !length_replicate. simpl. lia.
Qed.

Lemma header_octal : 0 <= size < 8 ^ 11 → tar_octal 12 data (Z.of_nat (length a) + 124) 0 = Some size.
Proof using Hn.
  intros Hs. destruct header_size as (a' & c' & -> & E). replace (Z.of_nat (length a) + 124) with (Z.of_nat (length a')) by lia.
  rewrite tar_octal_seg.
  - f_equal. rewrite octal_digits_value by (simpl; lia). lia.
  - rewrite octal_digits_length. lia.
  - apply octal_digits_ok.
  - lia.
  - rewrite octal_digits_value by (simpl; lia). lia.
Qed.
Lemma header_type_read : data !!z (Z.of_nat (length a) + 156) = Some type.
Proof using Hn.
  destruct header_type as (a' & c' & -> & E). replace (Z.of_nat (length a) + 156) with (Z.of_nat (length a')) by lia. apply seg_head.
Qed.
Lemma header_magic_read : read_range data (Z.of_nat (length a) + 257) 5 = Some [117; 115; 116; 97; 114].
Proof using Hn.
  destruct header_magic as (a' & c' & -> & E). replace (Z.of_nat (length a) + 257) with (Z.of_nat (length a')) by lia.
  apply (seg_range a' [117; 115; 116; 97; 114]).
Qed.
Lemma header_prefix_read : data !!z (Z.of_nat (length a) + 345) = Some 0.
Proof using Hn.
  destruct header_magic as (a' & c' & -> & E). rewrite (app_assoc a').
  replace (Z.of_nat (length a) + 345) with (Z.of_nat (length (a' ++ [117; 115; 116; 97; 114])) + 83) by (rewrite length_app; simpl; lia).
  rewrite seg_lookup; [reflexivity|]. unfold zeros. rewrite length_replicate. lia.
Qed.
End Header.

Lemma skip_dot_slash_clean n p : take 2 p ≠ [dot; slash] → skip_dot_slash n p = p.
Proof.
  intros Ht. destruct n as [|n]; [done|]. cbn [skip_dot_slash]. destruct p as [|x [|y p]]; [done|done|].
  repeat case_bool_decide; subst; done.
Qed.
Lemma skip_leading_clean p : head p ≠ Some slash → skip_leading p = p.
Proof. intros Hh. destruct p as [|x p]; [done|]. cbn [skip_leading]. case_bool_decide; [by subst|done]. Qed.
Lemma trim_length_clean p : list.last p ≠ Some slash → trim_length (length p) p = length p.
Proof.
  intros Hh. destruct (length p) as [|n] eqn:E; [done|]. cbn [trim_length].
  rewrite last_lookup, E in Hh. simpl in Hh. by rewrite bool_decide_false.
Qed.

Lemma header_path a name type size c : clean_name name →
  tar_entry_path (a ++ tar_header name type size ++ c) (Z.of_nat (length a)) = Some (Some (slash :: name)).
Proof.
  intros (Hl & Hz & Hh & Ht & Hd & Hds). unfold tar_entry_path. rewrite header_magic_read by lia. cbn [mbind option_bind].
  rewrite decide_True, header_prefix_read by (lia || done). cbn [mbind option_bind].
  change (0 =? 0) with true. cbv iota. cbn [mbind option_bind]. destruct (header_name a name type size c) as [c' ->]; [lia|].
  rewrite raw_name_seg; [|lia|done|unfold strlenZ; simpl; lia]. cbn [mbind option_bind app]. cbv zeta.
  rewrite skip_dot_slash_clean, skip_leading_clean, trim_length_clean, firstn_all by done.
  destruct (Nat.eqb_spec (length name) 0); [lia|]. destruct (Nat.ltb_spec VFS_PATH_MAX (length name + 2)) as [Hv|]; [unfold VFS_PATH_MAX in Hv; lia|].
  cbn [orb]. destruct (Nat.eqb_spec (length name) 1) as [E1|]; [|done]. case_bool_decide as Eh; [|done].
  destruct name as [|x [|y name]]; simpl in *; try lia. by injection Eh as ->.
Qed.

Lemma header_first a name type size c : (0 < length name < 100)%nat → Forall (λ c, code_of c ≠ 0) name →
  ∃ x, (a ++ tar_header name type size ++ c) !!z Z.of_nat (length a) = Some x ∧ x ≠ 0.
Proof.
  intros Hl Hz. destruct (header_name a name type size c) as [c' ->]; [lia|]. destruct name as [|x name]; [simpl in Hl; lia|].
  apply list.Forall_cons in Hz as [Hx _]. exists (code_of x). split; [apply seg_head|done].
Qed.

(** An entry is a header and a body of whole blocks. *)
Definition entry_type (e : tar_entry) : Z := match e with TarDir _ => 53 | TarFile _ _ => 48 end.
Definition entry_bytes (e : tar_entry) : list Z := match e with TarDir _ => [] | TarFile _ bs => bs end.
Definition entry_path (e : tar_entry) : str := match e with TarDir p => p | TarFile p _ => p end.
Lemma encode_entry_eq e : encode_entry e =
  tar_header (tail (entry_path e)) (entry_type e) (Z.of_nat (length (entry_bytes e))) ++
  entry_bytes e ++ zeros (pad_block (Z.of_nat (length (entry_bytes e)))).
Proof. destruct e; [|done]. cbn [encode_entry entry_path entry_type entry_bytes length]. by rewrite !app_nil_r. Qed.
Lemma entry_of_eq data e off : read_range data off (Z.of_nat (length (entry_bytes e))) = Some (entry_bytes e) →
  entry_of data off (Z.of_nat (length (entry_bytes e))) (entry_type e) (entry_path e) = Some [e].
Proof. intros E. destruct e; [done|]. unfold entry_of. cbn [entry_type entry_bytes entry_path] in *. by rewrite E. Qed.
Lemma valid_entry_eq e : valid_entry e → Z.of_nat (length (entry_bytes e)) < 8 ^ 11 ∧ ∃ p, entry_path e = slash :: p ∧ clean_name p.
Proof. by destruct e. Qed.

Lemma tar_scan_archive es : Forall valid_entry es → ∀ n pre,
  Z.of_nat (length (pre ++ tar_archive es)) < Z.of_nat (length pre) + 512 * Z.of_nat n →
  tar_scan n (pre ++ tar_archive es) (Z.of_nat (length pre)) = Some es.
Proof.
  induction es as [|e es IH]; intros Hv n pre Hn.
  - destruct n as [|n]; [rewrite length_app in Hn; lia|]. change (tar_archive []) with (0 :: zeros 1023) in *.
    cbn [tar_scan]. cbv zeta. rewrite seg_head. destruct (_ <=? _); done.
  - apply list.Forall_cons in Hv as [He Hv]. apply valid_entry_eq in He as (Hb & p & Hp & Hc).
    set (bs := entry_bytes e) in *. set (k := Z.of_nat (length bs)) in *.
    assert (E : tar_archive (e :: es) = tar_header p (entry_type e) k ++ bs ++ zeros (pad_block k) ++ tar_archive es).
    { unfold tar_archive. cbn [map concat]. by rewrite encode_entry_eq, Hp, <- !app_assoc. }
    rewrite E in *. set (hd := tar_header p (entry_type e) k) in *. set (rest := bs ++ zeros (pad_block k) ++ tar_archive es) in *.
    assert (Lh : length hd = 512%nat) by (apply header_length; destruct Hc; lia).
    assert (Lp : Z.of_nat (length (zeros (pad_block k))) = (k + 511) / 512 * 512 - k).
    { unfold zeros, pad_block. rewrite length_replicate. Z.to_euclidean_division_equations. lia. }
    assert (Lr : length rest = (length bs + (length (zeros (pad_block k)) + length (tar_archive es)))%nat) by (unfold rest; by rewrite !length_app).
    rewrite !length_app in Hn. destruct n as [|n]; [lia|]. cbn [tar_scan]. cbv zeta.
    rewrite !length_app. destruct (Z.leb_spec (Z.of_nat (length pre) + 512) (Z.of_nat (length pre + (length hd + length rest)))); [|lia].
    destruct Hc as (Hl & Hc). destruct (header_first pre p (entry_type e) k rest) as (x & Ex & Hx); [done|apply Hc|].
    fold hd in Ex. rewrite Ex. cbn [mbind option_bind]. destruct (Z.eqb_spec x 0); [done|].
    unfold hd. rewrite header_octal, header_type_read, header_path by (lia || done). cbn [mbind option_bind].
    destruct (Z.leb_spec (Z.of_nat (length pre) + 512 + k) (Z.of_nat (length pre + (length (tar_header p (entry_type e) k) + length rest)))); [|fold hd in H0; lia].
    fold hd. assert (Er : read_range (pre ++ hd ++ rest) (Z.of_nat (length pre) + 512) k = Some bs).
    { unfold rest. rewrite (app_assoc pre). replace (Z.of_nat (length pre) + 512) with (Z.of_nat (length (pre ++ hd))) by (rewrite length_app; lia).
      apply seg_range. }
    rewrite <- Hp. unfold k, bs in Er |- *. rewrite (entry_of_eq _ e) by exact Er. cbn [mbind option_bind]. fold bs k.
    specialize (IH Hv n (pre ++ hd ++ bs ++ zeros (pad_block k))). rewrite <- !app_assoc in IH.
    assert (EL : Z.of_nat (length (pre ++ hd ++ bs ++ zeros (pad_block k))) = Z.of_nat (length pre) + 512 + (k + 511) / 512 * 512)
      by (rewrite !length_app; lia).
    rewrite EL in IH. fold rest in IH. rewrite IH; [done|]. rewrite !length_app.
    assert (0 <= (k + 511) / 512) by (apply Z.div_pos; lia). lia.
Qed.

Lemma tar_entries_archive es : Forall valid_entry es → tar_entries (tar_archive es) = Some es.
Proof.
  intros Hv. apply (tar_scan_archive es Hv _ []). change ([] ++ tar_archive es) with (tar_archive es).
  change (length (@nil Z)) with O. Z.to_euclidean_division_equations. lia.
Qed.

(** ** Theorems *)

(** C29 (roundtrip) [ramfs_extract_tar, extract_loop, tar_octal, raw_name, tar_entry_path, extract_one]
    What an archiver writes is what gets unpacked: over any file systems and in any
    state, unpacking the archive of any directories and files with clean names does
    what making those directories and writing those files one after the other does, and
    returns the number of files that could be opened. *)
Theorem tar_archive_unpacked {S} `{VA : VfsApi S} es (s : S) :
  Forall valid_entry es → Z.of_nat (length (tar_archive es)) < 2 ^ 62 →
  ramfs_extract_tar (tar_archive es) (Z.of_nat (length (tar_archive es))) s = extract_entries es 0 s.
Proof. intros Hv Hl. apply extract_loop_entries; [lia|done|lia|]. by apply tar_entries_archive. Qed.

(** C28 (safety) [ramfs_load_limine_modules, load_modules, load_module, ramfs_extract_tar, extract_loop, tar_entry_path, ramfs_mkdirs]
    Whatever the boot loader hands over, archives with forged headers and sizes included,
    loading the modules ends, never reads outside a module, keeps what the file systems
    and their open files need, and returns -1 without an answer of the boot loader and
    otherwise at most the number of the modules. *)
Theorem boot_modules_safe {H F} `{KM : KernelMem H} `{VA : VfsApi (H * F)} {VL : VfsLaws H F} R B fs response (w : H * F) :
  (length fs < FD_MAX)%nat → (∀ mods, response = Some mods → small_modules mods) → vl_inv R B fs w →
  wp (ramfs_load_limine_modules response)
     (λ k w', vl_inv R B fs w' ∧ match response with None => k = -1 | Some mods => 0 <= k <= Z.of_nat (length mods) end) w.
Proof.
  intros Hf Hm I. unfold ramfs_load_limine_modules. destruct response as [mods|]; [|by wp_steps].
  eapply wp_mono; [apply (load_modules_wp R B fs Hf mods 0 w); [by apply Hm|exact I]|]. intros k w' [I' Hk]. split; [done|lia].
Qed.

(** ** Witnesses *)
#[local] Existing Instance demo_api.
#[local] Existing Instance demo_laws.
Definition demo_tree : list tar_entry :=
  [TarDir (to_str "/etc"); TarFile (to_str "/etc/motd") [104; 105; 10]; TarFile (to_str "/bin/sh") []].
Definition demo_vfs : heap * fsrest := vfs_state demo_fd1.

Lemma demo_tree_valid : Forall valid_entry demo_tree.
Proof.
  unfold demo_tree. repeat apply list.Forall_cons_2; try apply list.Forall_nil_2.
  all: (split; [vm_compute; reflexivity|]); eexists; (split; [reflexivity|]).
  all: unfold clean_name; apply (bool_decide_unpack _); vm_compute; exact Logic.I.
Qed.

(** The archive is unpacked, and a file of it is read back. *)
Definition demo_read (path : str) : M (heap * fsrest) (option (Z * list Z)) :=
  r ← va_open path 0;
  match snd r with Some f => x ← va_read f 16; mret (Some (fst x)) | None => mret None end.
Example demo_unpacked :
  match (k ← ramfs_extract_tar (tar_archive demo_tree) (Z.of_nat (length (tar_archive demo_tree)));
         x ← demo_read (to_str "/etc/motd"); mret (k, x)) demo_vfs with
  | Some (r, _) => r = (2, Some (3, [104; 105; 10]))
  | None => False
  end.
Proof. vm_compute. reflexivity. Qed.

Lemma tar_archive_unpacked_witness :
  ramfs_extract_tar (tar_archive demo_tree) (Z.of_nat (length (tar_archive demo_tree))) demo_vfs = extract_entries demo_tree 0 demo_vfs.
Proof. apply (tar_archive_unpacked demo_tree demo_vfs demo_tree_valid). vm_compute. reflexivity. Defined.

Definition demo_response : option (list (option limine_file)) :=
  Some [None; Some (MkLimineFile None []); Some (MkLimineFile (Some (to_str "boot/init.tar")) (tar_archive demo_tree));
        Some (MkLimineFile (Some (to_str "boot/font.bin")) [1; 2; 3])].
Lemma demo_vfs_inv : ∃ R B, vl_inv R B (open_files (fd_table demo_fd1)) demo_vfs.
Proof. destruct demo_fd1_inv as (R & B & l & r & I). exists R, B. exact (fi_files R B l r demo_fd1 I). Qed.
Lemma boot_modules_safe_witness :
  ∃ k w' R B, ramfs_load_limine_modules demo_response demo_vfs = Some (k, w') ∧ 0 <= k <= 4 ∧ vl_inv R B (open_files (fd_table demo_fd1)) w'.
Proof.
  destruct demo_vfs_inv as (R & B & I).
  pose proof (boot_modules_safe R B (open_files (fd_table demo_fd1)) demo_response demo_vfs) as W.
  destruct (proj1 (wp_run _ _ _) (W ltac:(apply Nat.ltb_lt; vm_compute; reflexivity)
    ltac:(intros mods E; injection E as <-; repeat apply list.Forall_cons_2; try apply list.Forall_nil_2; vm_compute; try exact Logic.I; reflexivity) I)) as (k & w' & E & I' & Hk).
  exists k, w', R, B. split; [exact E|]. split; [exact Hk|exact I'].
Defined.
