(* ===== verification/Term.v ===== *)
(** * kernel/term.c: the terminal

    Characters go to the serial port and to the framebuffer.  The framebuffer is a map from
    byte offsets to pixels of 32 bits; a write to an offset it does not have is a run that goes
    wrong.  The serial port is the log of what was written to its ports and when its
    status was read; the status it answers is the parameter [lsr].

    The terminal remembers in [cells] what it has drawn and draws only cells that
    change.  Its specification, [screen], is a grid of characters that is moved up a line when it is full;
    [term_shows_screen] proves that the pixels are those of the grid. *)
From S2P Require Import Prelude.
Local Open Scope kernel_scope.

(** [kernel/term.c: FONT 1-97] *)
Definition FONT : list (list Z) :=
  [[0; 0; 0; 0; 0; 0; 0; 0]; [24; 24; 24; 24; 0; 0; 24; 0]; [102; 102; 102; 0; 0; 0; 0; 0];
   [54; 54; 127; 54; 127; 54; 54; 0]; [12; 62; 3; 30; 48; 31; 12; 0]; [0; 99; 51; 24; 12; 102; 99; 0];
   [28; 54; 28; 110; 59; 51; 110; 0]; [6; 6; 3; 0; 0; 0; 0; 0]; [24; 12; 6; 6; 6; 12; 24; 0];
   [6; 12; 24; 24; 24; 12; 6; 0]; [0; 102; 60; 255; 60; 102; 0; 0]; [0; 12; 12; 63; 12; 12; 0; 0];
   [0; 0; 0; 0; 0; 12; 12; 6]; [0; 0; 0; 63; 0; 0; 0; 0]; [0; 0; 0; 0; 0; 12; 12; 0];
   [96; 48; 24; 12; 6; 3; 1; 0]; [62; 99; 115; 123; 111; 103; 62; 0]; [12; 14; 12; 12; 12; 12; 63; 0];
   [30; 51; 48; 28; 6; 51; 63; 0]; [30; 51; 48; 28; 48; 51; 30; 0]; [56; 60; 54; 51; 127; 48; 120; 0];
   [63; 3; 31; 48; 48; 51; 30; 0]; [28; 6; 3; 31; 51; 51; 30; 0]; [63; 51; 48; 24; 12; 12; 12; 0];
   [30; 51; 51; 30; 51; 51; 30; 0]; [30; 51; 51; 62; 48; 24; 14; 0]; [0; 12; 12; 0; 0; 12; 12; 0];
   [0; 12; 12; 0; 0; 12; 12; 6]; [24; 12; 6; 3; 6; 12; 24; 0]; [0; 0; 63; 0; 0; 63; 0; 0];
   [6; 12; 24; 48; 24; 12; 6; 0]; [30; 51; 48; 24; 12; 0; 12; 0]; [62; 99; 123; 123; 123; 3; 30; 0];
   [12; 30; 51; 51; 63; 51; 51; 0]; [63; 102; 102; 62; 102; 102; 63; 0]; [60; 102; 3; 3; 3; 102; 60; 0];
   [31; 54; 102; 102; 102; 54; 31; 0]; [127; 70; 22; 30; 22; 70; 127; 0]; [127; 70; 22; 30; 22; 6; 15; 0];
   [60; 102; 3; 3; 115; 102; 124; 0]; [51; 51; 51; 63; 51; 51; 51; 0]; [30; 12; 12; 12; 12; 12; 30; 0];
   [120; 48; 48; 48; 51; 51; 30; 0]; [103; 102; 54; 30; 54; 102; 103; 0]; [15; 6; 6; 6; 70; 102; 127; 0];
   [99; 119; 127; 127; 107; 99; 99; 0]; [99; 103; 111; 123; 115; 99; 99; 0]; [28; 54; 99; 99; 99; 54; 28; 0];
   [63; 102; 102; 62; 6; 6; 15; 0]; [30; 51; 51; 51; 59; 30; 56; 0]; [63; 102; 102; 62; 54; 102; 103; 0];
   [30; 51; 7; 14; 56; 51; 30; 0]; [63; 45; 12; 12; 12; 12; 30; 0]; [51; 51; 51; 51; 51; 51; 63; 0];
   [51; 51; 51; 51; 51; 30; 12; 0]; [99; 99; 99; 107; 127; 119; 99; 0]; [99; 99; 54; 28; 28; 54; 99; 0];
   [51; 51; 51; 30; 12; 12; 30; 0]; [127; 99; 49; 24; 76; 102; 127; 0]; [30; 6; 6; 6; 6; 6; 30; 0];
   [3; 6; 12; 24; 48; 96; 64; 0]; [30; 24; 24; 24; 24; 24; 30; 0]; [8; 28; 54; 99; 0; 0; 0; 0];
   [0; 0; 0; 0; 0; 0; 0; 255]; [12; 12; 24; 0; 0; 0; 0; 0]; [0; 0; 30; 48; 62; 51; 110; 0];
   [7; 6; 6; 62; 102; 102; 59; 0]; [0; 0; 30; 51; 3; 51; 30; 0]; [56; 48; 48; 62; 51; 51; 110; 0];
   [0; 0; 30; 51; 63; 3; 30; 0]; [28; 54; 6; 15; 6; 6; 15; 0]; [0; 0; 110; 51; 51; 62; 48; 31];
   [7; 6; 54; 110; 102; 102; 103; 0]; [12; 0; 14; 12; 12; 12; 30; 0]; [48; 0; 48; 48; 48; 51; 51; 30];
   [7; 6; 102; 54; 30; 54; 103; 0]; [14; 12; 12; 12; 12; 12; 30; 0]; [0; 0; 51; 127; 127; 107; 99; 0];
   [0; 0; 31; 51; 51; 51; 51; 0]; [0; 0; 30; 51; 51; 51; 30; 0]; [0; 0; 59; 102; 102; 62; 6; 15];
   [0; 0; 110; 51; 51; 62; 48; 120]; [0; 0; 59; 110; 102; 6; 15; 0]; [0; 0; 62; 3; 30; 48; 31; 0];
   [8; 12; 62; 12; 12; 44; 24; 0]; [0; 0; 51; 51; 51; 51; 110; 0]; [0; 0; 51; 51; 51; 30; 12; 0];
   [0; 0; 99; 107; 127; 127; 54; 0]; [0; 0; 99; 54; 28; 54; 99; 0]; [0; 0; 51; 51; 51; 62; 48; 31];
   [0; 0; 63; 25; 12; 38; 63; 0]; [56; 12; 12; 7; 12; 12; 56; 0]; [24; 24; 24; 0; 24; 24; 24; 0];
   [7; 12; 12; 56; 12; 12; 7; 0]; [110; 59; 0; 0; 0; 0; 0; 0]].

(** [kernel/term.c 99-101] *)
Definition FONT_SCALE : Z := 2.
Definition CHAR_W : Z := 8 * FONT_SCALE.
Definition CHAR_H : Z := 8 * FONT_SCALE + 2.
(** [kernel/term.c 103-103] *)
Definition COM1 : Z := 0x3F8.
(** [kernel/term.c 132-133] *)
Definition TERM_MAX_COLS : Z := 256.
Definition TERM_MAX_ROWS : Z := 160.

(** A character is a signed number of 8 bits.
    [kernel/term.c: term_cell] *)
Record term_cell := MkCell { c_char : Z; c_fg : Z; c_bg : Z }.
#[export] Instance term_cell_eq_dec : EqDecision term_cell.
Proof. solve_decision. Defined.

(** What happened at the serial port. *)
Inductive uart_event := UIn (port : Z) | UOut (port v : Z).

(** The variables of the file, the pixels and the serial port.
    [kernel/term.c 127-142] *)
Record term := MkTerm {
  tm_enabled : bool; tm_x : Z; tm_y : Z; tm_fg : Z; tm_bg : Z;
  tm_cells : list (list term_cell); tm_pixels : gmap Z Z; tm_uart : list uart_event
}.
Definition set_tm_enabled b t := MkTerm b (tm_x t) (tm_y t) (tm_fg t) (tm_bg t) (tm_cells t) (tm_pixels t) (tm_uart t).
Definition set_cursor x y t := MkTerm (tm_enabled t) x y (tm_fg t) (tm_bg t) (tm_cells t) (tm_pixels t) (tm_uart t).
Definition set_colors f b t := MkTerm (tm_enabled t) (tm_x t) (tm_y t) f b (tm_cells t) (tm_pixels t) (tm_uart t).
Definition set_cells l t := MkTerm (tm_enabled t) (tm_x t) (tm_y t) (tm_fg t) (tm_bg t) l (tm_pixels t) (tm_uart t).
Definition set_pixels m t := MkTerm (tm_enabled t) (tm_x t) (tm_y t) (tm_fg t) (tm_bg t) (tm_cells t) m (tm_uart t).
Definition set_uart u t := MkTerm (tm_enabled t) (tm_x t) (tm_y t) (tm_fg t) (tm_bg t) (tm_cells t) (tm_pixels t) u.

(** The fields of the framebuffer of limine.h that the terminal uses. *)
Record framebuffer := MkFramebuffer { fb_width : Z; fb_height : Z; fb_pitch : Z }.

Section Term.
Context (lsr : list uart_event → Z) (fb : framebuffer).

(** ** The serial port *)
Definition outb (port v : Z) : M term unit := modify (λ t, set_uart (tm_uart t ++ [UOut port v]) t).
Definition inb (port : Z) : M term Z :=
  t ← get; modify (set_uart (tm_uart t ++ [UIn port]));; mret (lsr (tm_uart t)).

(** [kernel/term.c: serial_init] *)
Definition serial_init : M term unit :=
  outb (COM1 + 1) 0x00;; outb (COM1 + 3) 0x80;; outb (COM1 + 0) 0x01;; outb (COM1 + 1) 0x00;;
  outb (COM1 + 3) 0x03;; outb (COM1 + 2) 0xC7;; outb (COM1 + 4) 0x03.

(** [kernel/term.c: serial_putc 122-123] *)
Fixpoint serial_wait (n : nat) : M term unit :=
  match n with
  | O => mret tt
  | Datatypes.S n' => v ← inb (COM1 + 5); if Z.land v 0x20 =? 0 then serial_wait n' else mret tt
  end.
(** [kernel/term.c: serial_putc] *)
Definition serial_putc (c : Z) : M term unit :=
  (if c =? 10 then serial_wait (Z.to_nat 10000);; outb COM1 13 else mret tt);;
  serial_wait (Z.to_nat 10000);; outb COM1 (u8 c).

(** ** Cells *)

(** [kernel/term.c: term_cols] *)
Definition term_cols : Z := let c := fb_width fb / CHAR_W in if TERM_MAX_COLS <? c then TERM_MAX_COLS else c.
(** [kernel/term.c: term_rows] *)
Definition term_rows : Z := let r := fb_height fb / CHAR_H in if TERM_MAX_ROWS <? r then TERM_MAX_ROWS else r.

(** [kernel/term.c: cell_eq] *)
Definition cell_eq (a b : term_cell) : bool :=
  if negb (c_char a =? c_char b) || negb (c_bg a =? c_bg b) then false
  else (c_char a =? 32) || (c_fg a =? c_fg b).

Definition cell_at (l : list (list term_cell)) (y x : Z) : option term_cell := row ← l !!z y; row !!z x.
Definition cell_set (y x : Z) (c : term_cell) (l : list (list term_cell)) : option (list (list term_cell)) :=
  row ← l !!z y; row ← updateZ x c row; updateZ y row l.

(** A pixel at a byte offset of the framebuffer. *)
Definition put_pixel (off v : Z) : M term unit :=
  t ← get;
  _ ← lift (tm_pixels t !! off);
  modify (set_pixels (<[off := v]> (tm_pixels t))).

(** The pixel of a cell in its line [y] and column [x], from the lines of its glyph. *)
Definition glyph_bits (glyph : list Z) (y : Z) : option Z :=
  let gy := y / FONT_SCALE in if gy <? 8 then glyph !!z gy else Some 0.

(** [kernel/term.c: draw_cell] *)
Definition draw_cell (cx cy : Z) (cell : term_cell) : M term unit :=
  let c := if (c_char cell <? 0x20) || (0x7E <? c_char cell) then 63 else c_char cell in
  glyph ← lift (FONT !!z u8 (c - 0x20));
  let fg := c_fg cell in let bg := c_bg cell in
  let base := u64 (cy * CHAR_H * fb_pitch fb + cx * CHAR_W * 4) in
  for_range (Z.to_nat CHAR_H) 0 (λ y,
    bits ← lift (glyph_bits glyph y);
    for_range (Z.to_nat CHAR_W) 0 (λ x,
      put_pixel (u64 (base + y * fb_pitch fb) + 4 * x) (if Z.testbit bits (x / FONT_SCALE) then fg else bg))).

(** [kernel/term.c: set_cell] *)
Definition set_cell (cx cy c fg bg : Z) : M term unit :=
  let n := MkCell c fg bg in
  t ← get;
  cur ← lift (cell_at (tm_cells t) cy cx);
  if cell_eq cur n then mret tt
  else
    l ← lift (cell_set cy cx n (tm_cells t));
    modify (set_cells l);;
    draw_cell cx cy n.

(** [kernel/term.c: scroll_up 201-207] *)
Definition scroll_cell (y x : Z) : M term unit :=
  t ← get;
  dst ← lift (cell_at (tm_cells t) y x);
  src ← lift (cell_at (tm_cells t) (y + 1) x);
  if negb (cell_eq dst src) then
    l ← lift (cell_set y x src (tm_cells t));
    modify (set_cells l);;
    draw_cell x y src
  else mret tt.

(** [kernel/term.c: scroll_up] *)
Definition scroll_up : M term unit :=
  for_range (Z.to_nat (term_rows - 1)) 0 (λ y, for_range (Z.to_nat term_cols) 0 (scroll_cell y));;
  for_range (Z.to_nat term_cols) 0 (λ x,
    t ← get; set_cell x (u64 (term_rows - 1)) 32 (tm_fg t) (tm_bg t)).

(** [kernel/term.c: term_invalidate] *)
Definition term_invalidate : M term unit :=
  modify (λ t, set_cells (map (map (λ c, MkCell 0 (c_fg c) (c_bg c))) (tm_cells t)) t).

(** ** Operations *)

(** [kernel/term.c: term_init] *)
Definition term_init : M term unit := serial_init;; term_invalidate;; modify (set_cursor 0 0).
(** [kernel/term.c: term_set_fg] *)
Definition term_set_fg (color : Z) : M term unit := modify (λ t, set_colors color (tm_bg t) t).
(** [kernel/term.c: term_set_bg] *)
Definition term_set_bg (color : Z) : M term unit := modify (λ t, set_colors (tm_fg t) color t).

(** [kernel/term.c: term_clear] *)
Definition term_clear (color : Z) : M term unit :=
  for_range (Z.to_nat (fb_height fb)) 0 (λ y,
    for_range (Z.to_nat (fb_width fb)) 0 (λ x, put_pixel (u64 (y * fb_pitch fb) + 4 * x) color));;
  modify (λ t, set_cells (map (map (λ _, MkCell 32 (tm_fg t) color)) (tm_cells t)) t);;
  modify (set_cursor 0 0).

(** [kernel/term.c: term_set_fb_enabled] *)
Definition term_set_fb_enabled (enabled : bool) : M term unit :=
  t ← get;
  (if enabled && negb (tm_enabled t) then term_invalidate else mret tt);;
  modify (set_tm_enabled enabled).

(** [kernel/term.c: term_putchar 270-276] *)
Definition next_line : M term unit :=
  t ← get;
  let y := u64 (tm_y t + 1) in
  modify (set_cursor 0 y);;
  if term_rows <=? y then scroll_up;; modify (set_cursor 0 (u64 (term_rows - 1))) else mret tt.

(** [kernel/term.c: term_putchar] *)
Definition term_putchar (c : Z) : M term unit :=
  serial_putc c;;
  t ← get;
  if negb (tm_enabled t) then mret tt
  else if c =? 10 then next_line
  else
    (if term_cols <=? tm_x t then next_line else mret tt);;
    t ← get;
    set_cell (tm_x t) (tm_y t) c (tm_fg t) (tm_bg t);;
    modify (λ t, set_cursor (u64 (tm_x t + 1)) (tm_y t) t).

(** [kernel/term.c: term_puts] *)
Fixpoint term_puts (s : list Z) : M term unit :=
  match s with [] => mret tt | c :: s' => term_putchar c;; term_puts s' end.
End Term.

(** ** The specification: a grid of characters *)

Section Spec.
Context (rows cols : Z).

(** [sc_known] is whether the grid is what the screen shows: not while a program draws
    on it, and not until it has been cleared again. *)
Record screen := MkScreen {
  sc_known : bool; sc_on : bool; sc_x : Z; sc_y : Z; sc_fg : Z; sc_bg : Z; sc_grid : Z → Z → term_cell
}.
Inductive term_op := OPut (c : Z) | OPuts (cs : list Z) | OFg (color : Z) | OBg (color : Z) | OClear (color : Z) | OOn (b : bool) | OProgram (m : gmap Z Z).

(** The grid moved up a line. *)
Definition scrolled (fg bg : Z) (g : Z → Z → term_cell) (y x : Z) : term_cell :=
  if y + 1 =? rows then MkCell 32 fg bg else g (y + 1) x.
Definition put_at (y x : Z) (c : term_cell) (g : Z → Z → term_cell) (y' x' : Z) : term_cell :=
  if (y =? y') && (x =? x') then c else g y' x'.

Definition sc_line (s : screen) : screen :=
  if sc_y s + 1 =? rows then MkScreen (sc_known s) (sc_on s) 0 (sc_y s) (sc_fg s) (sc_bg s) (scrolled (sc_fg s) (sc_bg s) (sc_grid s))
  else MkScreen (sc_known s) (sc_on s) 0 (sc_y s + 1) (sc_fg s) (sc_bg s) (sc_grid s).
Definition sc_char (c : Z) (s : screen) : screen :=
  MkScreen (sc_known s) (sc_on s) (sc_x s + 1) (sc_y s) (sc_fg s) (sc_bg s)
    (put_at (sc_y s) (sc_x s) (MkCell c (sc_fg s) (sc_bg s)) (sc_grid s)).
Definition sc_put (c : Z) (s : screen) : screen :=
  if c =? 10 then sc_line s else sc_char c (if cols <=? sc_x s then sc_line s else s).

Definition sc_step (o : term_op) (s : screen) : screen :=
  match o with
  | OPut c => if sc_on s then sc_put c s else s
  | OPuts cs => if sc_on s then foldl (λ s c, sc_put c s) s cs else s
  | OFg f => MkScreen (sc_known s) (sc_on s) (sc_x s) (sc_y s) f (sc_bg s) (sc_grid s)
  | OBg b => MkScreen (sc_known s) (sc_on s) (sc_x s) (sc_y s) (sc_fg s) b (sc_grid s)
  | OClear b => MkScreen (sc_on s) (sc_on s) 0 0 (sc_fg s) (sc_bg s) (λ _ _, MkCell 32 (sc_fg s) b)
  | OOn b => MkScreen (sc_known s && b) b (sc_x s) (sc_y s) (sc_fg s) (sc_bg s) (sc_grid s)
  | OProgram _ => if sc_on s then s else MkScreen false (sc_on s) (sc_x s) (sc_y s) (sc_fg s) (sc_bg s) (sc_grid s)
  end.
End Spec.

(** The same operations on the terminal.  A program draws on the framebuffer while the
    terminal does not. *)
Definition term_step (lsr : list uart_event → Z) (fb : framebuffer) (o : term_op) : M term unit :=
  match o with
  | OPut c => term_putchar lsr fb c
  | OPuts cs => term_puts lsr fb cs
  | OFg color => term_set_fg color
  | OBg color => term_set_bg color
  | OClear color => term_clear fb color
  | OOn b => term_set_fb_enabled b
  | OProgram m =>
    modify (λ t, if tm_enabled t then t else set_pixels (map_imap (λ off v, Some (default v (m !! off))) (tm_pixels t)) t)
  end.

(** The pixel of a cell in its line [y] and column [x]. *)
Definition glyph_of (c : Z) : list Z :=
  default [] (FONT !!z ((if (c <? 0x20) || (0x7E <? c) then 63 else c) - 0x20)).
Definition cell_pixel (c : term_cell) (y x : Z) : Z :=
  if Z.testbit (default 0 (glyph_bits (glyph_of (c_char c)) y)) (x / FONT_SCALE) then c_fg c else c_bg c.

(** The variables of the file as the kernel starts; what the framebuffer shows is not known. *)
Definition term_start (pixels : gmap Z Z) : term :=
  MkTerm true 0 0 0xFFFFFF 0 (replicate (Z.to_nat TERM_MAX_ROWS) (replicate (Z.to_nat TERM_MAX_COLS) (MkCell 0 0 0))) pixels [].
Definition screen_start : screen := MkScreen false true 0 0 0xFFFFFF 0 (λ _ _, MkCell 0 0 0).

(** ** Lemmas: cells *)

Lemma cell_eq_iff a b : cell_eq a b = true ↔ c_char a = c_char b ∧ c_bg a = c_bg b ∧ (c_char a = 32 ∨ c_fg a = c_fg b).
Proof.
  unfold cell_eq. destruct (Z.eqb_spec (c_char a) (c_char b)), (Z.eqb_spec (c_bg a) (c_bg b)); cbn [negb orb];
    rewrite ?orb_true_iff, ?Z.eqb_eq; split; try done; tauto.
Qed.
Lemma cell_eq_refl a : cell_eq a a = true.
Proof. rewrite cell_eq_iff. tauto. Qed.
Lemma cell_eq_sym a b : cell_eq a b = true → cell_eq b a = true.
Proof. rewrite !cell_eq_iff. intros (E1 & E2 & E3). rewrite <- E1. split; [done|]. split; [done|]. destruct E3; [by left|by right]. Qed.
Lemma cell_eq_trans a b c : cell_eq a b = true → cell_eq b c = true → cell_eq a c = true.
Proof.
  rewrite !cell_eq_iff. intros (E1 & E2 & E3) (F1 & F2 & F3). split; [congruence|]. split; [congruence|].
  destruct E3 as [|E3]; [by left|]. destruct F3 as [F3|F3]; [left; congruence|right; congruence].
Qed.

Lemma glyph_ok c : ∃ g, FONT !!z u8 ((if (c <? 0x20) || (0x7E <? c) then 63 else c) - 0x20) = Some g ∧ glyph_of c = g ∧ length g = 8%nat.
Proof.
  unfold glyph_of. set (i := (if _ : bool then _ else _) - 0x20).
  assert (Hi : 0 <= i < 95).
  { unfold i. destruct (Z.ltb_spec c 0x20); cbn [orb]; [lia|]. destruct (Z.ltb_spec 0x7E c); lia. }
  rewrite u8_small by lia. destruct (lookupZ_lt_is_Some FONT i) as [g Hg]; [exact Hi|]. exists g. rewrite Hg. split; [done|]. split; [done|].
  assert (F : Forall (λ g, length g = 8%nat) FONT) by (apply (bool_decide_unpack _); vm_compute; exact Logic.I).
  unfold lookupZ in Hg. destruct (i <? 0); [done|]. apply (proj1 (list.Forall_forall _ _) F g). by eapply list_elem_of_lookup_2.
Qed.
Lemma glyph_bits_ok g y : length g = 8%nat → 0 <= y → ∃ b, glyph_bits g y = Some b.
Proof.
  intros Hl Hy. unfold glyph_bits, FONT_SCALE. destruct (Z.ltb_spec (y / 2) 8); [|by eexists].
  apply lookupZ_lt_is_Some. assert (0 <= y / 2) by (apply Z.div_pos; lia). lia.
Qed.
Lemma glyph_bits_space y : 0 <= y → glyph_bits (glyph_of 32) y = Some 0.
Proof.
  intros Hy. unfold glyph_bits, FONT_SCALE. destruct (Z.ltb_spec (y / 2) 8); [|done].
  assert (0 <= y / 2) by (apply Z.div_pos; lia). change (glyph_of 32) with (replicate 8 0).
  unfold lookupZ. destruct (Z.ltb_spec (y / 2) 0); [lia|]. apply lookup_replicate_2. lia.
Qed.
Lemma cell_pixel_eq a b y x : cell_eq a b = true → 0 <= y → cell_pixel a y x = cell_pixel b y x.
Proof.
  intros (E1 & E2 & E3)%cell_eq_iff Hy. unfold cell_pixel. rewrite <- E1, E2. destruct E3 as [E3| ->]; [|done].
  rewrite E3, glyph_bits_space by done. simpl. by rewrite Z.bits_0.
Qed.

(** The table of cells. *)
Definition cells_ok (l : list (list term_cell)) : Prop :=
  length l = Z.to_nat TERM_MAX_ROWS ∧ Forall (λ row, length row = Z.to_nat TERM_MAX_COLS) l.

Lemma cells_start : cells_ok (tm_cells (term_start ∅)).
Proof. split; cbn [tm_cells term_start]; [apply length_replicate|]. apply Forall_replicate, length_replicate. Qed.

Lemma cell_at_ok l y x : cells_ok l → 0 <= y < TERM_MAX_ROWS → 0 <= x < TERM_MAX_COLS → ∃ c, cell_at l y x = Some c.
Proof.
  intros [Hl Hr] Hy Hx. unfold cell_at. destruct (lookupZ_lt_is_Some l y) as [row Hrow]; [lia|]. rewrite Hrow. cbn [mbind option_bind].
  apply lookupZ_lt_is_Some. unfold lookupZ in Hrow. destruct (y <? 0); [done|].
  rewrite (proj1 (list.Forall_forall _ _) Hr row) by (by eapply list_elem_of_lookup_2). lia.
Qed.
Lemma cell_set_ok l y x c : cells_ok l → 0 <= y < TERM_MAX_ROWS → 0 <= x < TERM_MAX_COLS →
  ∃ l', cell_set y x c l = Some l' ∧ cells_ok l' ∧
    ∀ y' x', 0 <= y' → 0 <= x' → cell_at l' y' x' = if (y =? y') && (x =? x') then Some c else cell_at l y' x'.
Proof.
  intros [Hl Hr] Hy Hx. unfold cell_set, cell_at. destruct (lookupZ_lt_is_Some l y) as [row Hrow]; [lia|]. rewrite Hrow. cbn [mbind option_bind].
  assert (Lr : length row = Z.to_nat TERM_MAX_COLS).
  { unfold lookupZ in Hrow. destruct (y <? 0); [done|]. apply (proj1 (list.Forall_forall _ _) Hr row). by eapply list_elem_of_lookup_2. }
  rewrite updateZ_is_Some by lia. cbn [mbind option_bind]. rewrite updateZ_is_Some by lia. eexists. split; [done|]. split.
  - split; [by rewrite length_insert|]. apply Forall_insert; [done|]. by rewrite length_insert.
  - intros y' x' Hy' Hx'. destruct (Z.eqb_spec y y') as [<-|Ny]; cbn [andb].
    + rewrite lookupZ_insert_eq by lia. rewrite Hrow. cbn [mbind option_bind]. destruct (Z.eqb_spec x x') as [<-|Nx].
      * apply lookupZ_insert_eq. lia.
      * apply lookupZ_insert_ne; lia.
    + by rewrite lookupZ_insert_ne by lia.
Qed.
Lemma cells_map f l : cells_ok l → cells_ok (map (map f) l).
Proof.
  intros [Hl Hr]. split; [by rewrite length_map|]. apply List.Forall_map. eapply list.Forall_impl; [exact Hr|]. intros row E. by rewrite length_map.
Qed.
Lemma cell_at_map f l y x : cell_at (map (map f) l) y x = f <$> cell_at l y x.
Proof.
  unfold cell_at, lookupZ. destruct (y <? 0); [done|]. change (map (map f) l) with (map f <$> l). rewrite list_lookup_fmap.
  destruct (l !! Z.to_nat y) as [row|]; [|done]. cbn [fmap option_fmap option_map mbind option_bind]. destruct (x <? 0); [done|].
  apply list_lookup_fmap.
Qed.

(** ** Lemmas: pixels *)

(** A framebuffer with room for a cell, whose lines do not overlap. *)
Record geometry (fb : framebuffer) : Prop := {
  geo_w : CHAR_W <= fb_width fb; geo_h : CHAR_H <= fb_height fb;
  geo_pitch : 4 * fb_width fb <= fb_pitch fb; geo_size : fb_pitch fb * fb_height fb < 2 ^ 63
}.

Section Pixels.
Context (fb : framebuffer) (G : geometry fb).
Local Abbreviation off y x := (y * fb_pitch fb + 4 * x).
Definition on_screen (y x : Z) : Prop := 0 <= y < fb_height fb ∧ 0 <= x < fb_width fb.
Definition has_pixels (m : gmap Z Z) : Prop := ∀ y x, on_screen y x → is_Some (m !! off y x).

Lemma off_inj y x y' x' : on_screen y x → on_screen y' x' → off y x = off y' x' → y = y' ∧ x = x'.
Proof using G.
  destruct G as [_ _ Gp _]. intros [Hy Hx] [Hy' Hx'] E.
  destruct (Z.div_mod_unique (fb_pitch fb) y y' (4 * x) (4 * x')); [left; lia|left; lia|lia|lia].
Qed.

(** [m'] is [m] with the pixels in [P] set to [f]. *)
Definition painted (P : Z → Z → bool) (f : Z → Z → Z) (m m' : gmap Z Z) : Prop :=
  ∀ y x, on_screen y x → m' !! off y x = if P y x then Some (f y x) else m !! off y x.
Definition paints (P : Z → Z → bool) (f : Z → Z → Z) (t t' : term) : Prop :=
  ∃ m', t' = set_pixels m' t ∧ painted P f (tm_pixels t) m'.

Lemma painted_has P f m m' : painted P f m m' → has_pixels m → has_pixels m'.
Proof using Type. intros Hp Hm y x Ho. rewrite Hp by done. destruct (P y x); [by eexists|]. by apply Hm. Qed.

Lemma put_pixel_wp y x v t : on_screen y x → has_pixels (tm_pixels t) →
  wp (put_pixel (off y x) v) (λ _ t', paints (λ y' x', (y =? y') && (x =? x')) (λ _ _, v) t t') t.
Proof using G.
  intros Ho Hm. unfold put_pixel. wp_steps. destruct (Hm y x Ho) as [w Hw]. eapply wp_lift; [exact Hw|]. wp_steps.
  eexists. split; [done|]. intros y' x' Ho'. destruct (Z.eqb_spec y y') as [<-|Ny], (Z.eqb_spec x x') as [<-|Nx]; cbn [andb].
  1: apply lookup_insert_eq. all: apply lookup_insert_ne; intros E; apply off_inj in E; lia || tauto || done.
Qed.

(** [n] pixels from [px] on in line [py]. *)
Lemma paint_row n py px (v : Z → Z) t : 0 <= py < fb_height fb → 0 <= px → px + Z.of_nat n <= fb_width fb → has_pixels (tm_pixels t) →
  wp (for_range n 0 (λ x, put_pixel (off py px + 4 * x) (v x)))
     (λ _ t', paints (λ y x, (py =? y) && ((px <=? x) && (x <? px + Z.of_nat n))) (λ _ x, v (x - px)) t t') t.
Proof using G.
  intros Hy Hx Hw Hm.
  eapply wp_mono; [apply (wp_for_range _ _ _ (λ k t', paints (λ y x, (py =? y) && ((px <=? x) && (x <? px + k))) (λ _ x, v (x - px)) t t'))|].
  - exists (tm_pixels t). split; [by destruct t|]. intros y x _. by destruct (Z.eqb_spec py y), (Z.leb_spec px x), (Z.ltb_spec x (px + 0)); cbn [andb]; try lia.
  - intros k t1 Hk (m1 & -> & P1). replace (off py px + 4 * k) with (off py (px + k)) by lia.
    assert (Ho : on_screen py (px + k)) by (unfold on_screen; lia).
    eapply wp_mono; [apply put_pixel_wp; [exact Ho|by eapply painted_has]|]. intros _ t2 (m2 & -> & P2). exists m2. split; [done|].
    intros y x Hyx. rewrite P2, P1 by done. cbn [tm_pixels set_pixels].
    destruct (Z.eqb_spec py y), (Z.eqb_spec (px + k) x), (Z.leb_spec px x), (Z.ltb_spec x (px + k)), (Z.ltb_spec x (px + (k + 1))); cbn [andb]; try lia; try done.
    by replace (x - px) with k by lia.
  - intros u t' H'. exact H'.
Qed.

(** [n] lines from [py] on, each painted by [body]. *)
Lemma paint_block n py px w (body : Z → M term unit) (v : Z → Z → Z) t : 0 <= py → py + Z.of_nat n <= fb_height fb → has_pixels (tm_pixels t) →
  (∀ k t, 0 <= k < Z.of_nat n → has_pixels (tm_pixels t) →
    wp (body k) (λ _ t', paints (λ y x, (py + k =? y) && ((px <=? x) && (x <? px + w))) (λ _ x, v k (x - px)) t t') t) →
  wp (for_range n 0 body)
     (λ _ t', paints (λ y x, ((py <=? y) && (y <? py + Z.of_nat n)) && ((px <=? x) && (x <? px + w))) (λ y x, v (y - py) (x - px)) t t') t.
Proof using G.
  intros Hy Hh Hm Hb.
  eapply wp_mono; [apply (wp_for_range _ _ _ (λ k t', paints (λ y x, ((py <=? y) && (y <? py + k)) && ((px <=? x) && (x <? px + w))) (λ y x, v (y - py) (x - px)) t t'))|].
  - exists (tm_pixels t). split; [by destruct t|]. intros y x _. by destruct (Z.leb_spec py y), (Z.ltb_spec y (py + 0)); cbn [andb]; try lia.
  - intros k t1 Hk (m1 & -> & P1).
    eapply wp_mono; [apply Hb; [lia|by eapply painted_has]|]. intros _ t2 (m2 & -> & P2). exists m2. split; [done|].
    intros y x Hyx. rewrite P2, P1 by done. cbn [tm_pixels set_pixels].
    destruct (Z.eqb_spec (py + k) y), (Z.leb_spec py y), (Z.ltb_spec y (py + k)), (Z.ltb_spec y (py + (k + 1))); cbn [andb]; try lia; try done.
    destruct (_ && _); [|done]. by replace (y - py) with k by lia.
  - intros u t' H'. exact H'.
Qed.
End Pixels.

(** ** The terminal shows a grid *)
Section Shows.
Context (lsr : list uart_event → Z) (fb : framebuffer) (G : geometry fb).
Local Abbreviation off y x := (y * fb_pitch fb + 4 * x).
Local Abbreviation rows := (term_rows fb).
Local Abbreviation cols := (term_cols fb).

Lemma rows_bounds : 1 <= rows <= TERM_MAX_ROWS ∧ rows * CHAR_H <= fb_height fb.
Proof using G.
  destruct G as [_ Gh _ _]. unfold term_rows, CHAR_H, FONT_SCALE, TERM_MAX_ROWS in *.
  destruct (Z.ltb_spec 160 (fb_height fb / (8 * 2 + 2))); Z.to_euclidean_division_equations; lia.
Qed.
Lemma cols_bounds : 1 <= cols <= TERM_MAX_COLS ∧ cols * CHAR_W <= fb_width fb.
Proof using G.
  destruct G as [Gw _ _ _]. unfold term_cols, CHAR_W, FONT_SCALE, TERM_MAX_COLS in *.
  destruct (Z.ltb_spec 256 (fb_width fb / (8 * 2))); Z.to_euclidean_division_equations; lia.
Qed.
Lemma off_small y x : 0 <= y < fb_height fb → 0 <= x < fb_width fb → 0 <= y * fb_pitch fb /\ 0 <= off y x < 2 ^ 63.
Proof using G. destruct G as [Gw Gh Gp Gs]. unfold CHAR_W, CHAR_H, FONT_SCALE in *. nia. Qed.

Definition in_cell (cy cx y x : Z) : bool :=
  ((cy * CHAR_H <=? y) && (y <? cy * CHAR_H + CHAR_H)) && ((cx * CHAR_W <=? x) && (x <? cx * CHAR_W + CHAR_W)).

Lemma draw_cell_wp cx cy cell t : 0 <= cy < rows → 0 <= cx < cols → has_pixels fb (tm_pixels t) →
  wp (draw_cell fb cx cy cell)
     (λ _ t', paints fb (in_cell cy cx) (λ y x, cell_pixel cell (y - cy * CHAR_H) (x - cx * CHAR_W)) t t') t.
Proof using G.
  intros Hy Hx Hm. destruct rows_bounds as [_ Rb], cols_bounds as [_ Cb]. unfold draw_cell.
  destruct (glyph_ok (c_char cell)) as (g & Eg & Gg & Gl). apply wp_bind. eapply wp_lift; [exact Eg|]. cbv zeta.
  apply (paint_block fb G (Z.to_nat CHAR_H) (cy * CHAR_H) (cx * CHAR_W) CHAR_W _ (cell_pixel cell)); [unfold CHAR_H, FONT_SCALE in *; lia..|done|].
  intros k t1 Hk Hm1. destruct (glyph_bits_ok g k Gl) as [b Eb]; [lia|]. apply wp_bind. eapply wp_lift; [exact Eb|].
  assert (Hk' : 0 <= k < CHAR_H) by (unfold CHAR_H, FONT_SCALE in *; lia).
  assert (Oy : 0 <= cy * CHAR_H + k < fb_height fb) by nia.
  assert (Ox : 0 <= cx * CHAR_W ∧ cx * CHAR_W + CHAR_W <= fb_width fb) by (unfold CHAR_W, FONT_SCALE in *; lia).
  destruct (off_small (cy * CHAR_H + k) (cx * CHAR_W)) as [_ Ob]; [done|unfold CHAR_W, FONT_SCALE in *; lia|].
  destruct (off_small (cy * CHAR_H) (cx * CHAR_W)) as [_ Ob0]; [lia|unfold CHAR_W, FONT_SCALE in *; lia|].
  replace (u64 (u64 (cy * CHAR_H * fb_pitch fb + cx * CHAR_W * 4) + k * fb_pitch fb)) with (off (cy * CHAR_H + k) (cx * CHAR_W))
    by (rewrite (u64_small (_ + _ * 4)), u64_small by lia; lia).
  eapply wp_mono; [apply (paint_row fb G (Z.to_nat CHAR_W) (cy * CHAR_H + k) (cx * CHAR_W) (λ x, if Z.testbit b (x / FONT_SCALE) then c_fg cell else c_bg cell)); [done|lia|unfold CHAR_W, FONT_SCALE in *; lia|done]|].
  intros u t2 (m & -> & P). exists m. split; [done|]. intros y x Ho. rewrite P by done. unfold cell_pixel. rewrite Gg, Eb. done.
Qed.

(** Cell [y], [x] of the table is, but for the colour of a space, the cell [c], which the screen shows. *)
Definition shows (t : term) (y x : Z) (c : term_cell) : Prop :=
  (∃ a, cell_at (tm_cells t) y x = Some a ∧ cell_eq a c = true) ∧
  ∀ dy dx, 0 <= dy < CHAR_H → 0 <= dx < CHAR_W →
    tm_pixels t !! off (y * CHAR_H + dy) (x * CHAR_W + dx) = Some (cell_pixel c dy dx).
(** The terminal with the grid [g] on the screen, if that is [known]. *)
Record grid_ok (known : bool) (t : term) (g : Z → Z → term_cell) : Prop := {
  go_cells : cells_ok (tm_cells t);
  go_pixels : has_pixels fb (tm_pixels t);
  go_shows : known = true → ∀ y x, 0 <= y < rows → 0 <= x < cols → shows t y x (g y x)
}.
(** All but the cells and the pixels. *)
Definition same_state (t t' : term) : Prop := ∃ l m, t' = set_cells l (set_pixels m t).
Lemma same_refl t : same_state t t.
Proof. exists (tm_cells t), (tm_pixels t). by destruct t. Qed.
Lemma same_trans t1 t2 t3 : same_state t1 t2 → same_state t2 t3 → same_state t1 t3.
Proof. intros (l & m & ->) (l' & m' & ->). by exists l', m'. Qed.

Lemma shows_eq t y x c c' : cell_eq c c' = true → shows t y x c → shows t y x c'.
Proof.
  intros E [(a & Ea & Ec) Hp]. split; [exists a; split; [done|by eapply cell_eq_trans]|]. intros dy dx Hy Hx. rewrite Hp by done.
  f_equal. apply cell_pixel_eq; [done|lia].
Qed.
Lemma grid_ok_eq known t g g' : (∀ y x, 0 <= y < rows → 0 <= x < cols → cell_eq (g y x) (g' y x) = true) → grid_ok known t g → grid_ok known t g'.
Proof. intros E [H1 H2 H3]. split; [done..|]. intros K y x Hy Hx. eapply shows_eq; [by apply E|]. by apply H3. Qed.
Lemma grid_ok_false known t g g' : known = false → grid_ok known t g → grid_ok known t g'.
Proof. intros -> [H1 H2 H3]. by split. Qed.

(** Two cells have no pixel in common. *)
Lemma in_cell_own cy cx dy dx : 0 <= dy < CHAR_H → 0 <= dx < CHAR_W → ∀ y x, in_cell cy cx (y * CHAR_H + dy) (x * CHAR_W + dx) = (cy =? y) && (cx =? x).
Proof.
  intros Hy Hx y x. unfold in_cell, CHAR_H, CHAR_W, FONT_SCALE in *.
  destruct (Z.eqb_spec cy y), (Z.eqb_spec cx x); cbn [andb]; try subst;
    repeat match goal with |- context [Z.leb ?a ?b] => destruct (Z.leb_spec a b) | |- context [Z.ltb ?a ?b] => destruct (Z.ltb_spec a b) end; cbn [andb]; done || lia.
Qed.

(** Writing a cell and drawing it. *)
Lemma repaint_wp cy cx c known t g : 0 <= cy < rows → 0 <= cx < cols → grid_ok known t g →
  wp (l ← lift (cell_set cy cx c (tm_cells t)); modify (set_cells l);; draw_cell fb cx cy c)
     (λ _ t', grid_ok known t' (put_at cy cx c g) ∧ same_state t t') t.
Proof using G.
  intros Hy Hx [H1 H2 H3]. destruct rows_bounds as [Rb1 Rb2], cols_bounds as [Cb1 Cb2].
  destruct (cell_set_ok (tm_cells t) cy cx c) as (l & El & Hl & Al); [done|lia|lia|].
  apply wp_bind. eapply wp_lift; [exact El|]. wp_steps. eapply wp_mono; [by apply draw_cell_wp|].
  intros u t' (m & -> & P). split; [|by exists l, m]. split; [done|by eapply painted_has|].
  intros K y x Hy' Hx'. destruct (H3 K y x Hy' Hx') as [(a & Ea & Ec) Hp]. unfold put_at. split.
  - cbn [tm_cells set_cells set_pixels]. rewrite Al by lia. destruct (_ && _); [exists c; split; [done|apply cell_eq_refl]|]. by exists a.
  - intros dy dx Hdy Hdx. cbn [tm_pixels set_pixels]. rewrite P.
    + rewrite in_cell_own by done. destruct (Z.eqb_spec cy y), (Z.eqb_spec cx x); cbn [andb]; [|by apply Hp..].
      subst. do 2 f_equal; lia.
    + unfold on_screen, CHAR_H, CHAR_W, FONT_SCALE in *. nia.
Qed.

Lemma set_cell_wp cx cy c fg bg known t g : 0 <= cy < rows → 0 <= cx < cols → grid_ok known t g →
  wp (set_cell fb cx cy c fg bg) (λ _ t', grid_ok known t' (put_at cy cx (MkCell c fg bg) g) ∧ same_state t t') t.
Proof using G.
  intros Hy Hx Hg. pose proof rows_bounds as [Rb _]. pose proof cols_bounds as [Cb _]. unfold set_cell. wp_steps.
  destruct (cell_at_ok (tm_cells t) cy cx) as [cur Ec]; [apply Hg|lia|lia|]. eapply wp_lift; [exact Ec|].
  destruct (cell_eq cur (MkCell c fg bg)) eqn:Eq; [|by apply repaint_wp]. wp_steps. split; [|apply same_refl].
  destruct known; [|by eapply grid_ok_false]. eapply grid_ok_eq; [|exact Hg]. intros y x Hy' Hx'. unfold put_at.
  destruct (Z.eqb_spec cy y), (Z.eqb_spec cx x); cbn [andb]; [|apply cell_eq_refl..]. subst.
  destruct (go_shows _ _ _ Hg eq_refl y x Hy' Hx') as [(a & Ea & Es) _]. rewrite Ec in Ea. injection Ea as <-.
  eapply cell_eq_trans; [by apply cell_eq_sym|done].
Qed.

Lemma scroll_cell_wp y x known t g : 0 <= y → y + 1 < rows → 0 <= x < cols → grid_ok known t g →
  wp (scroll_cell fb y x) (λ _ t', grid_ok known t' (put_at y x (g (y + 1) x) g) ∧ same_state t t') t.
Proof using G.
  intros Hy Hy1 Hx Hg. pose proof rows_bounds as [Rb _]. pose proof cols_bounds as [Cb _]. unfold scroll_cell. wp_steps.
  destruct (cell_at_ok (tm_cells t) y x) as [dst Ed]; [apply Hg|lia|lia|]. eapply wp_lift; [exact Ed|]. wp_steps.
  destruct (cell_at_ok (tm_cells t) (y + 1) x) as [src Es]; [apply Hg|lia|lia|]. eapply wp_lift; [exact Es|].
  assert (Sg : known = true → cell_eq src (g (y + 1) x) = true).
  { intros K. destruct (go_shows _ _ _ Hg K (y + 1) x) as [(a & Ea & Ec) _]; [lia|done|]. rewrite Es in Ea. by injection Ea as <-. }
  destruct (cell_eq dst src) eqn:Eq; cbn [negb].
  - wp_steps. split; [|apply same_refl]. destruct known; [|by eapply grid_ok_false]. eapply grid_ok_eq; [|exact Hg].
    intros y' x' Hy' Hx'. unfold put_at. destruct (Z.eqb_spec y y'), (Z.eqb_spec x x'); cbn [andb]; [|apply cell_eq_refl..]. subst.
    destruct (go_shows _ _ _ Hg eq_refl y' x' Hy' Hx') as [(a & Ea & Ec) _]. rewrite Ed in Ea. injection Ea as <-.
    eapply cell_eq_trans; [by apply cell_eq_sym|]. eapply cell_eq_trans; [exact Eq|by apply Sg].
  - eapply wp_mono; [apply repaint_wp; [lia|done|exact Hg]|]. intros u t' [Hg' Hs]. split; [|done].
    destruct known; [|by eapply grid_ok_false]. eapply grid_ok_eq; [|exact Hg']. intros y' x' Hy' Hx'. unfold put_at.
    destruct (_ && _); [by apply Sg|apply cell_eq_refl].
Qed.

Lemma same_fg t t' : same_state t t' → tm_fg t' = tm_fg t ∧ tm_bg t' = tm_bg t ∧ tm_enabled t' = tm_enabled t ∧ tm_uart t' = tm_uart t.
Proof. by intros (l & m & ->). Qed.

(** The line of blanks is as long as the loop of [scroll_up] has gone. *)
Lemma scroll_up_wp known t g : grid_ok known t g →
  wp (scroll_up fb) (λ _ t', grid_ok known t' (scrolled rows (tm_fg t) (tm_bg t) g) ∧ same_state t t') t.
Proof using G.
  intros Hg. pose proof rows_bounds as [Rb _]. pose proof cols_bounds as [Cb _]. unfold scroll_up. apply wp_bind.
  set (up := λ k j y x, if (y <? k) || ((y =? k) && (x <? j)) then g (y + 1) x else g y x).
  assert (Rows : wp (for_range (Z.to_nat (rows - 1)) 0 (λ y, for_range (Z.to_nat cols) 0 (scroll_cell fb y)))
    (λ _ t', grid_ok known t' (up (0 + Z.of_nat (Z.to_nat (rows - 1))) 0) ∧ same_state t t') t).
  { apply (wp_for_range _ _ _ (λ k t', grid_ok known t' (up k 0) ∧ same_state t t')).
    - split; [|apply same_refl]. eapply grid_ok_eq; [|exact Hg]. intros y x Hy Hx. unfold up.
      destruct (Z.ltb_spec y 0); [lia|]. destruct (Z.ltb_spec x 0); [lia|]. rewrite andb_false_r. apply cell_eq_refl.
    - intros k t1 Hk [H1 S1].
      assert (Row : wp (for_range (Z.to_nat cols) 0 (scroll_cell fb k)) (λ _ t', grid_ok known t' (up k (0 + Z.of_nat (Z.to_nat cols))) ∧ same_state t t') t1).
      { apply (wp_for_range _ _ _ (λ j t', grid_ok known t' (up k j) ∧ same_state t t')); [done|].
        intros j t2 Hj [H2 S2]. eapply wp_mono; [apply (scroll_cell_wp k j known t2 (up k j)); [lia|lia|lia|exact H2]|].
        intros u t3 [H3 S3]. split; [|by eapply same_trans]. eapply grid_ok_eq; [|exact H3]. intros y x Hy Hx. unfold put_at, up.
        destruct (Z.eqb_spec k y), (Z.eqb_spec j x), (Z.ltb_spec y k), (Z.eqb_spec y k), (Z.ltb_spec x j), (Z.ltb_spec x (j + 1)), (Z.ltb_spec (k + 1) k), (Z.eqb_spec (k + 1) k);
          cbn [andb orb]; try lia; subst; apply cell_eq_refl. }
      eapply wp_mono; [exact Row|]. intros u t2 [H2 S2]. split; [|done]. eapply grid_ok_eq; [|exact H2]. intros y x Hy Hx. unfold up.
      destruct (Z.ltb_spec y k), (Z.ltb_spec y (k + 1)), (Z.eqb_spec y k), (Z.eqb_spec y (k + 1)), (Z.ltb_spec x (0 + Z.of_nat (Z.to_nat cols))), (Z.ltb_spec x 0);
        cbn [andb orb]; try lia; apply cell_eq_refl. }
  eapply wp_mono; [exact Rows|]. intros u t1 [H1 S1].
  set (last_row := λ j y x, if (y + 1 =? rows) && (x <? j) then MkCell 32 (tm_fg t) (tm_bg t) else up (rows - 1) 0 y x).
  assert (Last : wp (for_range (Z.to_nat cols) 0 (λ x, t0 ← get; set_cell fb x (u64 (rows - 1)) 32 (tm_fg t0) (tm_bg t0)))
    (λ _ t', grid_ok known t' (last_row (0 + Z.of_nat (Z.to_nat cols))) ∧ same_state t t') t1).
  { apply (wp_for_range _ _ _ (λ j t', grid_ok known t' (last_row j) ∧ same_state t t')).
    - split; [|done]. eapply grid_ok_eq; [|exact H1]. intros y x Hy Hx. unfold last_row. destruct (Z.ltb_spec x 0); [lia|]. rewrite andb_false_r.
      rewrite Z2Nat.id by lia. apply cell_eq_refl.
    - intros j t2 Hj [H2 S2]. wp_steps. destruct (same_fg _ _ S2) as (-> & -> & _). rewrite u64_small by (unfold TERM_MAX_ROWS in *; lia).
      eapply wp_mono; [apply (set_cell_wp j (rows - 1) 32 (tm_fg t) (tm_bg t) known t2 (last_row j)); [lia|lia|exact H2]|].
      intros u3 t3 [H3 S3]. split; [|by eapply same_trans]. eapply grid_ok_eq; [|exact H3]. intros y x Hy Hx. unfold put_at, last_row.
      destruct (Z.eqb_spec (rows - 1) y), (Z.eqb_spec (y + 1) rows), (Z.eqb_spec j x), (Z.ltb_spec x j), (Z.ltb_spec x (j + 1)); cbn [andb]; try lia; apply cell_eq_refl. }
  eapply wp_mono; [exact Last|]. intros u2 t2 [H2 S2]. split; [|done]. eapply grid_ok_eq; [|exact H2]. intros y x Hy Hx. unfold last_row, scrolled, up.
  destruct (Z.eqb_spec (y + 1) rows), (Z.ltb_spec x (0 + Z.of_nat (Z.to_nat cols))), (Z.ltb_spec y (rows - 1)); cbn [andb orb]; try lia; apply cell_eq_refl.
Qed.
End Shows.

(** ** The serial line *)

(** What has been put into the data register. *)
Definition sent (log : list uart_event) : list Z :=
  omap (λ e, match e with UOut port v => if port =? COM1 then Some v else None | UIn _ => None end) log.
(** A character on the line. *)
Definition wire (c : Z) : list Z := if c =? 10 then [13; 10] else [u8 c].
Definition wire_op (o : term_op) : list Z := match o with OPut c => wire c | OPuts cs => cs ≫= wire | _ => [] end.
(** Only the log has grown, by what puts [bs] on the line. *)
Definition transmits (bs : list Z) (t t' : term) : Prop := ∃ log, t' = set_uart (tm_uart t ++ log) t ∧ sent log = bs.

Lemma sent_app l l' : sent (l ++ l') = sent l ++ sent l'.
Proof. unfold sent. apply omap_app. Qed.
Lemma transmits_trans bs bs' t t' t'' : transmits bs t t' → transmits bs' t' t'' → transmits (bs ++ bs') t t''.
Proof.
  intros (l & -> & <-) (l' & -> & <-). exists (l ++ l'). split; [|apply sent_app]. destruct t. unfold set_uart. cbn. by rewrite app_assoc.
Qed.

Section Serial.
Context (lsr : list uart_event → Z).
Lemma serial_wait_wp n t : wp (serial_wait lsr n) (λ _ t', transmits [] t t') t.
Proof using Type.
  revert t. induction n as [|n IH]; intros t; cbn [serial_wait]; [wp_steps; exists []; split; [|done]; destruct t; unfold set_uart; cbn; by rewrite app_nil_r|].
  apply wp_bind. unfold inb. wp_steps. set (t1 := set_uart _ _).
  assert (T : transmits [] t t1) by (exists [UIn (COM1 + 5)]; done).
  destruct (Z.land _ _ =? 0); [|by wp_steps]. eapply wp_mono; [apply IH|]. intros u t' T'. exact (transmits_trans [] [] _ _ _ T T').
Qed.
Lemma outb_wp c t : wp (outb COM1 c) (λ _ t', transmits [c] t t') t.
Proof using Type. unfold outb. wp_steps. by exists [UOut COM1 c]. Qed.
Lemma serial_putc_wp c t : wp (serial_putc lsr c) (λ _ t', transmits (wire c) t t') t.
Proof using Type.
  unfold serial_putc, wire.
  assert (Send : ∀ c t, wp (serial_wait lsr (Z.to_nat 10000);; outb COM1 c) (λ _ t', transmits [c] t t') t).
  { intros b t1. apply wp_bind. eapply wp_mono; [apply serial_wait_wp|]. intros u t2 T2. eapply wp_mono; [apply outb_wp|].
    intros u3 t3 T3. exact (transmits_trans [] [b] _ _ _ T2 T3). }
  destruct (Z.eqb_spec c 10) as [->|N].
  - apply wp_bind. eapply wp_mono; [apply Send|]. intros u t1 T1. eapply wp_mono; [apply Send|]. intros u2 t2 T2.
    exact (transmits_trans [13] [10] _ _ _ T1 T2).
  - apply wp_bind, wp_ret. apply Send.
Qed.
End Serial.

(** ** The operations follow the specification *)
Section Refines.
Context (lsr : list uart_event → Z) (fb : framebuffer) (G : geometry fb).
Local Abbreviation rows := (term_rows fb).
Local Abbreviation cols := (term_cols fb).

Record shown (t : term) (s : screen) : Prop := {
  sh_grid : grid_ok fb (sc_known s) t (sc_grid s);
  sh_on : tm_enabled t = sc_on s; sh_known : sc_known s = true → sc_on s = true;
  sh_x : tm_x t = sc_x s; sh_y : tm_y t = sc_y s; sh_fg : tm_fg t = sc_fg s; sh_bg : tm_bg t = sc_bg s;
  sh_cols : 0 <= sc_x s <= cols; sh_rows : 0 <= sc_y s < rows
}.

Lemma shown_transmit bs t t' s : transmits bs t t' → shown t s → shown t' s.
Proof using Type. intros (log & -> & _) [[]]. split; first [done|by split]. Qed.

Lemma next_line_wp t s : shown t s → wp (next_line fb) (λ _ t', shown t' (sc_line rows s) ∧ tm_uart t' = tm_uart t) t.
Proof using G.
  intros [Hg Ho Hk Hx Hy Hf Hb Hc Hr]. destruct (rows_bounds fb G) as [Rb _]. unfold TERM_MAX_ROWS in Rb. destruct (cols_bounds fb G) as [Cb _].
  unfold next_line, sc_line. wp_steps. rewrite Hy, u64_small by lia. destruct (Z.leb_spec rows (sc_y s + 1)).
  - destruct (Z.eqb_spec (sc_y s + 1) rows); [|lia]. apply wp_bind.
    eapply wp_mono; [apply (scroll_up_wp fb G (sc_known s) _ (sc_grid s)); destruct Hg; by split|].
    intros u t1 [H1 (l & m & ->)]. wp_steps. cbn in H1. rewrite Hf, Hb in H1.
    split; [|done]. split; cbn; try done; [destruct H1; by split|rewrite u64_small by lia; lia|lia].
  - destruct (Z.eqb_spec (sc_y s + 1) rows); [lia|]. wp_steps. split; [|done]. split; cbn; try done; [destruct Hg; by split|lia|lia].
Qed.

Lemma term_putchar_wp c t s : shown t s →
  wp (term_putchar lsr fb c) (λ _ t', shown t' (sc_step rows cols (OPut c) s) ∧ sent (tm_uart t') = sent (tm_uart t) ++ wire c) t.
Proof using G.
  intros H. unfold term_putchar. apply wp_bind. eapply wp_mono; [apply serial_putc_wp|]. intros u t1 T1.
  assert (E1 : sent (tm_uart t1) = sent (tm_uart t) ++ wire c) by (destruct T1 as (log & -> & <-); apply sent_app).
  pose proof (shown_transmit _ _ _ _ T1 H) as H1. wp_steps. rewrite (sh_on _ _ H1). cbn [sc_step]. destruct (sc_on s) eqn:Eo; cbn [negb]; [|by wp_steps].
  unfold sc_put. destruct (c =? 10).
  { eapply wp_mono; [by apply next_line_wp|]. intros u2 t2 [H2 E2]. split; [done|]. by rewrite E2. }
  apply wp_bind. rewrite (sh_x _ _ H1). set (s2 := if cols <=? sc_x s then sc_line rows s else s).
  assert (L : wp (if cols <=? sc_x s then next_line fb else mret tt) (λ _ t', (shown t' s2 ∧ sc_x s2 < cols) ∧ tm_uart t' = tm_uart t1) t1).
  { unfold s2. destruct (cols_bounds fb G) as [Cb _]. destruct (Z.leb_spec cols (sc_x s)).
    - eapply wp_mono; [by apply next_line_wp|]. intros u2 t2 [H2 E2]. split; [|done]. split; [done|]. unfold sc_line. destruct (_ =? _); simpl; lia.
    - wp_steps. done. }
  eapply wp_mono; [exact L|]. intros u2 t2 [[H2 L2] E2]. clear L. destruct H2 as [Hg Ho Hk Hx Hy Hf Hb Hc Hr]. wp_steps. rewrite Hx, Hy, Hf, Hb.
  eapply wp_mono; [apply (set_cell_wp fb G (sc_x s2) (sc_y s2) c _ _ (sc_known s2) t2 (sc_grid s2)); [done|lia|done]|].
  intros u3 t3 [H3 (l & m & ->)]. wp_steps. destruct (cols_bounds fb G) as [Cb _]. unfold TERM_MAX_COLS in Cb.
  split; [|cbn; by rewrite E2]. unfold sc_char. split; cbn; try done; [destruct H3; by split|rewrite u64_small by lia; lia|lia].
Qed.

Lemma sc_put_on c s : sc_on (sc_put rows cols c s) = sc_on s.
Proof. unfold sc_put, sc_char, sc_line. by repeat case_match. Qed.
Lemma term_puts_wp cs t s : shown t s →
  wp (term_puts lsr fb cs) (λ _ t', shown t' (sc_step rows cols (OPuts cs) s) ∧ sent (tm_uart t') = sent (tm_uart t) ++ (cs ≫= wire)) t.
Proof using G.
  revert t s. induction cs as [|c cs IH]; intros t s H; cbn [term_puts].
  { wp_steps. cbn. rewrite app_nil_r. split; [|done]. by destruct (sc_on s). }
  apply wp_bind. eapply wp_mono; [by apply term_putchar_wp|]. intros u t1 [H1 E1]. cbn [sc_step] in H1.
  eapply wp_mono; [by apply IH|]. intros u2 t2 [H2 E2]. rewrite bind_cons, app_assoc, <- E1. split; [|done].
  cbn [sc_step foldl] in *. destruct (sc_on s) eqn:Eo; [|by rewrite Eo in H2]. rewrite sc_put_on, Eo in H2. exact H2.
Qed.

Lemma term_clear_wp b t s : shown t s → wp (term_clear fb b) (λ _ t', shown t' (sc_step rows cols (OClear b) s) ∧ tm_uart t' = tm_uart t) t.
Proof using G.
  intros [Hg Ho Hk Hx Hy Hf Hb Hc Hr]. destruct (rows_bounds fb G) as [Rb Rh], (cols_bounds fb G) as [Cb Cw].
  assert (Gs := G). destruct Gs as [Gw Gh Gp Gs]. unfold CHAR_W, CHAR_H, FONT_SCALE in Gw, Gh. unfold term_clear. apply wp_bind.
  eapply wp_mono; [apply (paint_block fb G (Z.to_nat (fb_height fb)) 0 0 (fb_width fb) _ (λ _ _, b)); [lia|lia|apply Hg|]|].
  { intros k t1 Hk1 Hm1. destruct (off_small fb G k 0) as [Op _]; [lia|lia|]. assert (Ok : k * fb_pitch fb < 2 ^ 63) by nia.
    rewrite u64_small by lia. replace (k * fb_pitch fb) with (k * fb_pitch fb + 4 * 0) by lia.
    pose proof (paint_row fb G (Z.to_nat (fb_width fb)) k 0 (λ _, b) t1) as P. rewrite Z2Nat.id in P by lia. apply P; [lia|lia|lia|done]. }
  rewrite Z2Nat.id by lia. intros u t1 (m & -> & P). wp_steps. split; [|done]. split; cbn; try done; try lia. split; cbn.
  - apply cells_map, Hg.
  - eapply painted_has; [exact P|apply Hg].
  - intros K y x Hy' Hx'. split.
    + destruct (cell_at_ok (tm_cells t) y x) as [a Ea]; [apply Hg|lia|lia|]. exists (MkCell 32 (tm_fg t) b). cbn [tm_cells set_cells set_cursor set_pixels].
      rewrite cell_at_map, Ea. split; [done|]. by rewrite Hf, cell_eq_refl.
    + intros dy dx Hdy Hdx. cbn [tm_pixels set_cells set_cursor set_pixels].
      assert (On : on_screen fb (y * CHAR_H + dy) (x * CHAR_W + dx)) by (unfold on_screen, CHAR_H, CHAR_W, FONT_SCALE in *; nia).
      rewrite P by done. unfold on_screen in On.
      destruct (Z.leb_spec 0 (y * CHAR_H + dy)), (Z.ltb_spec (y * CHAR_H + dy) (0 + fb_height fb)), (Z.leb_spec 0 (x * CHAR_W + dx)), (Z.ltb_spec (x * CHAR_W + dx) (0 + fb_width fb)); try lia. cbn [andb].
      unfold cell_pixel. cbn [c_char]. rewrite glyph_bits_space by lia. simpl. by rewrite Z.bits_0.
Qed.

Lemma term_step_wp o t s : shown t s →
  wp (term_step lsr fb o) (λ _ t', shown t' (sc_step rows cols o s) ∧ sent (tm_uart t') = sent (tm_uart t) ++ wire_op o) t.
Proof using G.
  intros H. destruct o as [c|cs|f|b|b|b|m]; cbn [term_step wire_op]; rewrite ?app_nil_r; [by apply term_putchar_wp|by apply term_puts_wp|..].
  - unfold term_set_fg. wp_steps. split; [|done]. destruct H as [[]]. split; first [done|by split].
  - unfold term_set_bg. wp_steps. split; [|done]. destruct H as [[]]. split; first [done|by split].
  - eapply wp_mono; [by apply term_clear_wp|]. intros u t' [H' ->]. done.
  - unfold term_set_fb_enabled. wp_steps. destruct H as [[] Ho Hk]. destruct b; cbn [andb sc_step].
    + rewrite Ho. destruct (sc_on s) eqn:Es; cbn [negb]; unfold term_invalidate; wp_steps; (split; [|done]); split; cbn; try done.
      * rewrite andb_true_r. by split.
      * split; [by apply cells_map|done|]. destruct (sc_known s); [by specialize (Hk eq_refl)|]. done.
    + wp_steps. split; [|done]. split; cbn; try done; rewrite andb_false_r; [by split|done].
  - wp_steps. split; [|by destruct (tm_enabled t)]. assert (Ho := sh_on _ _ H). rewrite Ho. cbn [sc_step]. destruct (sc_on s) eqn:Es; [done|].
    destruct H as [[Gc Gp Gs] ? ? ? ? ? ? ? ?]. split; try done. split; try done. intros y x Hyx. cbn.
    rewrite map_lookup_imap. destruct (Gp y x Hyx) as [v ->]. by eexists.
Qed.

(** The operations of a list, one after the other. *)
Lemma term_steps_wp l t s : shown t s →
  wp (forM_ l (term_step lsr fb)) (λ _ t', shown t' (foldl (λ s o, sc_step rows cols o s) s l) ∧ sent (tm_uart t') = sent (tm_uart t) ++ (l ≫= wire_op)) t.
Proof using G.
  revert t s. induction l as [|o l IH]; intros t s H; cbn [forM_ foldl].
  { wp_steps. by rewrite app_nil_r. }
  apply wp_bind. eapply wp_mono; [by apply term_step_wp|]. intros u t1 [H1 E1]. eapply wp_mono; [by apply IH|]. intros u2 t2 [H2 E2].
  split; [done|]. by rewrite E2, E1, bind_cons, app_assoc.
Qed.

(** C40 (refinement) [term_init, term_putchar, term_puts, term_clear, term_set_fg, term_set_bg, term_set_fb_enabled, set_cell, draw_cell, scroll_up, scroll_cell, next_line, serial_putc]
    After boot, on a framebuffer with room for a character, whose lines do not overlap and that is smaller than
    2^63 bytes ([geometry]), whatever is printed, cleared, coloured and
    switched, and whatever programs draw on the framebuffer while the terminal does not: no pixel outside the
    framebuffer is written, and the cursor is where the grid of characters has it.  From a clearing on, as long
    as the terminal keeps the framebuffer ([sc_known]), every pixel of every cell is that of the character, in its
    colours, that the grid holds there (a question mark for those that cannot be printed), although only
    the cells that change are drawn.  Every character also goes to the serial port,
    in order, with a return in front of each new line. *)
Theorem term_shows_screen pixels ops :
  has_pixels fb pixels →
  let s := foldl (λ s o, sc_step rows cols o s) screen_start ops in
  ∃ t1 t, term_init (term_start pixels) = Some (tt, t1) ∧ forM_ ops (term_step lsr fb) t1 = Some (tt, t) ∧
    sent (tm_uart t) = sent (tm_uart t1) ++ (ops ≫= wire_op) ∧
    tm_x t = sc_x s ∧ tm_y t = sc_y s ∧ 0 <= sc_x s <= cols ∧ 0 <= sc_y s < rows ∧
    (sc_known s = true → ∀ y x dy dx, 0 <= y < rows → 0 <= x < cols → 0 <= dy < CHAR_H → 0 <= dx < CHAR_W →
       tm_pixels t !! ((y * CHAR_H + dy) * fb_pitch fb + 4 * (x * CHAR_W + dx)) = Some (cell_pixel (sc_grid s y x) dy dx)).
Proof using G.
  intros P s. assert (W : wp term_init (λ _ t1, shown t1 screen_start) (term_start pixels)).
  { unfold term_init, serial_init, outb, term_invalidate. wp_steps. destruct (rows_bounds fb G) as [Rb _], (cols_bounds fb G) as [Cb _].
    split; cbn; try done; try lia. split; try done. cbn. apply cells_map. apply cells_start. }
  apply wp_run in W as ([] & t1 & E1 & W). pose proof (term_steps_wp ops t1 screen_start W) as W2. apply wp_run in W2 as ([] & t & E2 & H & Es).
  fold s in H. exists t1, t. destruct H as [[_ _ Hs] _ _ Hx Hy _ _ [Hc1 Hc2] [Hr1 Hr2]].
  split; [exact E1|]. split; [exact E2|]. split; [exact Es|]. split_and!; try done.
  intros K y x dy dx Hy' Hx' Hdy Hdx. by apply Hs.
Qed.
End Refines.

(** * A framebuffer of two lines of three characters *)
Definition demo_fb : framebuffer := MkFramebuffer 50 40 256.
Definition demo_pixels : gmap Z Z :=
  list_to_map (seqZ 0 40 ≫= λ y, map (λ x, (y * 256 + 4 * x, 0)) (seqZ 0 50)).
Definition demo_ops : list term_op :=
  [OClear 0; OPuts [97; 98; 99; 100]; OOn false; OPut 33; OProgram {[ 0 := 5 ]}; OOn true;
   OClear 1; OPuts [97; 98; 99; 100]; OFg 0xFF; OPut 10; OPuts [101; 102]].
Lemma demo_fb_geometry : geometry demo_fb.
Proof. by constructor. Qed.
Lemma demo_has_pixels : has_pixels demo_fb demo_pixels.
Proof.
  intros y x [Hy Hx]. cbn [demo_fb fb_width fb_height fb_pitch] in *.
  assert (E : forallb (λ y, forallb (λ x, bool_decide (is_Some (demo_pixels !! (y * 256 + 4 * x)))) (seqZ 0 50)) (seqZ 0 40) = true) by (vm_compute; reflexivity).
  pose proof (check_range _ 40 E y Hy) as E2. exact (bool_decide_eq_true_1 _ (check_range _ 50 E2 x Hx)).
Qed.

(** "abcd" takes both lines; "ef" on a third moves the second up. *)
Lemma term_shows_screen_witness :
  let s := foldl (λ s o, sc_step (term_rows demo_fb) (term_cols demo_fb) o s) screen_start demo_ops in
  sc_known s = true ∧
  map (λ y, map (λ x, c_char (sc_grid s y x)) [0; 1; 2]) [0; 1] = [[100; 32; 32]; [101; 102; 32]] ∧
  ∃ t1 t, term_init (term_start demo_pixels) = Some (tt, t1) ∧ forM_ demo_ops (term_step (λ _, 0x60) demo_fb) t1 = Some (tt, t) ∧
    (∀ y x dy dx, 0 <= y < 2 → 0 <= x < 3 → 0 <= dy < CHAR_H → 0 <= dx < CHAR_W →
       tm_pixels t !! ((y * CHAR_H + dy) * 256 + 4 * (x * CHAR_W + dx)) = Some (cell_pixel (sc_grid s y x) dy dx)) ∧
    sent (tm_uart t) = sent (tm_uart t1) ++ (demo_ops ≫= wire_op).
Proof.
  intros s. assert (K : sc_known s = true) by reflexivity. split; [exact K|]. split; [reflexivity|].
  destruct (term_shows_screen (λ _, 0x60) demo_fb demo_fb_geometry demo_pixels demo_ops demo_has_pixels) as (t1 & t & E1 & E2 & Es & _ & _ & _ & _ & P).
  exists t1, t. split; [exact E1|]. split; [exact E2|]. split; [exact (P K)|exact Es].
Defined.
